(* ===== verification/_CoqProject ===== *)
-Q . S2P
Prelude.v
RustStr.v
Json.v
Platform.v
PolicyTypes.v
ToolPattern.v
PolicySchema.v
PolicyEngine.v
Glob.v
MandateStore.v
Authorizer.v
Convergence.v
Decision.v
ReplayDiff.v
HandlerChecks.v
Handler.v
KernelTiers.v
KernelHooks.v
ProcessTree.v
StrictJson.v
StrictJsonCorrect.v
BoundedIo.v
Bundle.v
BundleCorrect.v
BundleReader.v
BundleReaderCorrect.v
BundleWitnesses.v
SequenceEval.v
CheckSequence.v
SequenceExplain.v
Era.v
JsonDoc.v
McpParser.v
McpParserCorrect.v
McpEnvelope.v
McpIngest.v
McpTrace.v
DecisionTruth.v
DecisionTruthCorrect.v
DeclaredDigest.v
DecisionTruthWitnesses.v
PackRef.v
PackYaml.v
PackYamlCorrect.v
PackTrust.v
PackTrustCorrect.v
RegistryClient.v
RegistryClientCorrect.v
PackCache.v
PackResolver.v
PackResolverCorrect.v
PackCacheCorrect.v
Lockfile.v
LockfileCorrect.v
MerkleLog.v
SerdeJson.v
Rekor.v
RekorCorrect.v
Sigstore.v
SupplyChain.v
SupplyChainCorrect.v
ToolSigning.v
ToolSigningCorrect.v
LintPacks.v
LintPacksCorrect.v
LintChecks.v
Lint.v
LintCorrect.v
PackWitnesses.v
Witnesses.v
SequenceWitnesses.v
McpWitnesses.v
SupplyWitnesses.v
ToolWitnesses.v
LintWitnesses.v
