(* ===== verification/Prelude.v ===== *)
(** * Assay: a verification development of its enforcement, evidence and sequence cores

    Assay sits between an agent and its MCP tools.  For every [tools/call]
    request its core ([crates/assay-core]) evaluates a policy, enforces the
    obligations the policy attaches, authorizes the call against a mandate kept
    in a SQLite store, and emits exactly one decision event.  Decisions and
    observations are sealed into evidence bundles ([crates/assay-evidence]) that
    a verifier accepts or refuses; traces of calls are judged by sequence rules,
    in three places; a file and network policy is compiled to maps that kernel
    probes enforce ([crates/assay-policy], [assay-monitor], [assay-ebpf]).  This
    library models those paths function by function and proves what makes them
    correct.

    ** The parts and where they are modelled

    Shared:
    - [Prelude] (this file): [Result], panics, the state monad [M] with its
      Hoare triples, record update, machine integers, shared list lemmas.
    - [RustStr]: Rust strings as UTF-8 bytes; the [str] methods the code calls,
      slicing with its panics, the byte order of strings.
    - [Json]: [serde_json::Value] with insertion-ordered maps, [swap_remove] and
      [PartialEq].
    - [Platform]: third-party code.  Class [Platform] has the pure functions
      (hashes, RFC 8785, RFC 3339, JSON Schema, string similarity); class [Env]
      what the environment decides (clock readings, UUIDs, elapsed times,
      database faults, the panic strategy).

    Enforcement of tool calls ([assay-core]):
    - [PolicyTypes]: the data of [mcp/policy/types.rs], [tool_match.rs],
      [tool_taxonomy.rs], [identity.rs], [runtime_features.rs] and
      [jsonrpc.rs].
    - [ToolPattern]: [assay-common/src/tool_pattern.rs], against a declarative
      pattern language.
    - [PolicySchema]: [policy_engine.rs], [errors/similarity.rs],
      [policy/schema.rs], [policy/legacy.rs]: preparing, compiling and checking
      argument schemas; legacy policies.
    - [PolicyEngine]: [policy/engine.rs] and [policy/engine_next/], with the
      counters of [PolicyState]; what it means for a call to be acceptable is
      stated without the order in which the engine looks.
    - [Glob]: the glob matcher of [runtime/authorizer_internal/policy.rs] and
      the one of [assay-evidence/src/mandate/glob.rs], against one declarative
      glob language.
    - [MandateStore]: [runtime/mandate_store.rs], [runtime/schema.rs] and
      [runtime/mandate_store_next/].  A connection is the committed database, an
      open transaction and a tick; any statement may fail.  [Consumes] is the
      abstract effect of a consumption, [StoreRun] the runs of a store.
    - [Authorizer]: [runtime/authorizer.rs] and [authorizer_internal/].  The
      authorizer is written against the class [MandateStoreApi]; its theorems
      use only [MandateStoreLaws], which the SQLite store satisfies
      ([conn_store_laws]).
    - [Convergence], [ReplayDiff]: [mcp/decision/]: the classification of
      decisions and the comparison of two of them.
    - [Decision]: [mcp/decision_next/]: the event payload field by field, the
      builder, normalisation.
    - [HandlerChecks]: [tool_call_handler/emit.rs] and [evaluate_next/], with
      [obligations.rs], [lifecycle.rs] and [g3_auth_context.rs].
    - [Handler]: [tool_call_handler/evaluate.rs] and the guard of
      [decision_next/guard.rs]; everything above put together in
      [handle_tool_call].

    Tool-decision truth records ([assay-core/src/mcp/tool_decision_truth]):
    - [DecisionTruth]: [verdict.rs], [digest.rs], [pack.rs] and the
      declared-constraint digest of [policy/mod.rs]: the verdict gate, carrier
      records and the evidence-pack rows that cite them.
    - [DecisionTruthCorrect]: the gate without its axes, its agreement with the
      engine, secrets, rows.  [DeclaredDigest]: what the declared digest
      ignores.  [DecisionTruthWitnesses]: concrete records.

    Kernel enforcement:
    - [KernelTiers]: [assay-policy/src/tiers_next/]: classification of path
      patterns, compilation to kernel and user tiers, map entries, the Landlock
      target; a declarative reading of each policy list.
    - [KernelHooks]: the maps, the [file_open] and [connect4]/[connect6] hooks
      of [assay-ebpf], the loader and the event parser of [assay-monitor]: from
      a compiled policy to a verdict and back to a parsed event.
    - [ProcessTree]: [assay-monitor/src/tree/]: the tracker of forks and exits
      as a step relation.

    Evidence ([assay-evidence], [assay-common], [assay-canonical]):
    - [StrictJson], [StrictJsonCorrect]: [json_strict/]: the validator that runs
      before [serde_json], as an error-state monad over characters; the second
      file has a declarative grammar of JSON text and of its strictness.
    - [BoundedIo]: [limits.rs] and [tar_read.rs]: ceilings on what is read from
      a source that delivers its bytes in any pieces and may fail.
    - [Bundle], [BundleCorrect], [BundleWitnesses]: [bundle/writer_next/] and
      [crypto/id.rs]: the writer, the verifier with each check and error code,
      hashes, stream ids and run roots.  gzip and tar are the class [Container],
      the codecs of events and manifests [BundleSerde].
    - [BundleReader], [BundleReaderCorrect]: [bundle/reader.rs] (opening with
      and without verification, peeking at the manifest), the bounded event
      reader of [bundle/writer.rs] and [ndjson.rs].

    Imported transcripts ([assay-core/src/mcp]):
    - [Era]: [era.rs]: what a message says about its protocol version, typed
      ids, and the readings of requests and results under an era.
    - [JsonDoc]: the readers of [era.rs] that refuse a repeated member, over the
      documents that [serde_json] finds in a text (class [JsonReader]).
    - [McpParser], [McpParserCorrect]: [parser.rs], [types.rs] and
      [json_depth.rs]: four input formats, envelopes, correlation.
    - [McpEnvelope]: where a transcript names its version, read declaratively
      from the text.  [McpIngest]: [ingest.rs]: the ceilings, the counting pass
      and the refusal of open or invalid readings.
    - [McpTrace]: [mapper_v2.rs] and the event types of [trace/schema.rs].

    Sequence rules:
    - [SequenceEval]: [sequence_eval.rs] and the rule language of
      [model/types.rs], with what it means to violate a rule.
    - [CheckSequence]: [check_sequence.rs] of [assay-mcp-server], the evaluator
      that enforces.
    - [SequenceExplain]: [explain_next/], the evaluator that explains a trace
      step by step.

    Policy packs ([assay-registry], [assay-common/src/dsse.rs]):
    - [PackRef]: [error.rs] and [reference.rs].  [PackYaml]: [canonicalize/] and
      [digest.rs], with a declarative notion of a canonical document.
      [PackYamlCorrect]: the scan for forbidden YAML, stated on the lines of
      the text and the keys that are open at each of them.
    - [PackTrust], [PackTrustCorrect]: [trust.rs] and [trust_next/], the DSSE
      encoding, [verify_internal/]: keys, pinned roots, manifests, and the check
      of a fetched pack.
    - [RegistryClient], [RegistryClientCorrect]: [client/], [auth.rs],
      [auth_next/]: requests with retries, tokens.
    - [PackCache], [PackCacheCorrect]: [cache.rs] and [cache_next/], on a file
      system that other processes may change (class [Disk]; [DiskLaws] when they
      do not).  [PackResolver], [PackResolverCorrect]: [resolver_next/].
    - [Lockfile], [LockfileCorrect]: [lockfile.rs] and [lockfile_next/].
      [PackWitnesses]: a concrete world of files, clock and registry.

    Supply chain ([assay-registry]):
    - [MerkleLog]: the audit path of [rekor/checkpoint.rs] against the tree hash
      of RFC 6962.
    - [SerdeJson]: reading a document into a [Value] and into the structs that
      derive [Deserialize]; [Value::pointer].
    - [Rekor], [RekorCorrect]: [rekor.rs] and [rekor/]: pinned logs, signed
      checkpoints, logged entries, and the evidence of an inclusion.
    - [Sigstore]: [sigstore_offline.rs], [sigstore_identity.rs],
      [sigstore_signature.rs], [dsse.rs], [sigstore_bundle.rs]; X.509 and ECDSA
      are the class [X509].
    - [SupplyChain], [SupplyChainCorrect]: [supply_chain.rs] and
      [supply_chain/]: pinning, provenance and the verdict over their statuses.
      [SupplyWitnesses]: a concrete log, bundle and report.

    Signed tools ([assay-core/src/mcp], [assay-cli/src/cli/commands/tool]):
    - [ToolSigning], [ToolSigningCorrect]: [signing.rs], [trust_policy.rs],
      [tool_definition.rs], [jcs.rs] and the commands [sign], [verify] and
      [keygen] on the files of [Disk].  [ToolWitnesses]: a concrete directory.

    Linting of bundles ([assay-evidence/src/lint]):
    - [LintPacks], [LintPacksCorrect]: [packs/schema_next/], [packs/loader.rs]
      and [packs/loader_internal/]: rule packs, their validation, digest and
      lookup, with the edit distance behind the suggestions.
    - [LintChecks]: [packs/checks.rs], [checks_next/], [executor.rs] and
      [g3_authorization_context.rs]: the checks and the run of several packs.
    - [Lint]: [rules.rs], [engine.rs] and [mod.rs]: the built-in rules and the
      report.  [LintCorrect] has the theorems of both, [LintWitnesses] a
      concrete pack and bundle.

    [Witnesses], [SequenceWitnesses] and [McpWitnesses] have concrete instances of the
    interfaces and apply the theorems to concrete inputs.

    ** How code is modelled

    A pure function is a function.  Code with effects is a computation of type
    [M S A]: from a state to an outcome, a value or a panic, and the state
    reached.  The state at a panic is kept because destructors see it; whether
    they run is [env_panic].  A function that takes [&mut T] returns the [T] it
    leaves.  [u64] counters wrap, [as u32] truncates, dates are nanoseconds in
    the range of [DateTime<Utc>], and arithmetic that leaves the range panics.
    Reading the clock, drawing a UUID and running a statement each advance a
    tick that indexes the environment's answers, so they may differ at every
    use.

    Most loops recurse on lists or strings.  Fuel appears where they do not, and
    is proved to be enough: [chars_fuel] is the length of the string
    ([chars_concat]); the strict JSON validator is given twice the length of the
    text plus two ([validate_terminates]); the event loop of the verifier one
    more than the bytes of the member ([verify_terminates]), and so are the
    loops of the readers ([reading_terminates]); a document inside a string is
    shorter than its text, so the length is fuel for unwrapping
    ([parse_returns]); an index of a log has no more than 64 bits to shift out
    ([shift_even_stops]).  The recursion over running children has the
    tracker's own depth limit, the walk over ancestor cgroups the probe's own
    bound of 16.  [read_to_end] takes the sizes of its reads, because a reader
    may be asked for any; its theorems hold for every list of sizes that is
    long enough.

    ** What the theorems show

    - The handler: one decision event per call, the same decision as the result
      returned, also on panics when they unwind; an allowed call passed the
      policy, every obligation and the mandate; refusals spend nothing;
      lifecycle events follow first consumptions.
    - The engine: a call is allowed exactly when it is not drifted, within
      limits, not denylisted, allowlisted if there is a list, and admitted by
      its schema; deny rules come first; the obligations are exactly those the
      policy names; a session is bounded by the limits; normalising a legacy
      policy changes no decision.
    - Schemas: the two compilation paths and the two evaluation paths agree;
      shared definitions are merged, never overwritten.
    - The store: a consumption is atomic under any fault; over every run the
      receipts of a mandate are within its limits, a nonce is used at most
      once, retries return the recorded use; a consumption that meets the
      conditions is granted.
    - The authorizer: an authorized mandate is of the context that is
      configured, in its window, in scope and consumed; what an empty
      configuration lets through is a theorem too; it is total on ASCII tool
      names, and refusals consume nothing.
    - The matchers decide their declarative languages and agree where both are
      defined.
    - Redaction touches its target only and succeeds when the engine said it
      would; no credential enters the evidence; deny classification does not
      depend on which fields survive; replay buckets mean what they say.
    - The kernel: compilation keeps every rule of the policy in the tier its
      form allows, with unique ids; the loaded maps make the hooks refuse
      exactly the denied connections and opens of the processes that are
      monitored themselves or by their own cgroup; what a hook writes is what the monitor reads; the process tree is a forest.
    - Strict JSON: the validator accepts exactly the texts of the grammar that
      have no duplicate keys after unescaping, no lone surrogates and are
      within the limits, and it always returns.
    - Bundles: a bundle the verifier accepts has every property the format
      promises; what the writer seals verifies; the verifier always returns.
      The verifying reader opens exactly the bundles that verify, its events are
      the verified ones and within the limits; an NDJSON stream reads back as
      the events it was written from.
    - Transcripts: every accepted request and result was read under one known
      version, the one that its headers and metadata in the text state, a result
      under that of the request it answers; correlation
      refines a declarative notion of the pending request and refuses exactly
      the ambiguous transcripts; repeated members are refused at every depth;
      versions are calendar dates in their order; what is accepted is within
      the limits, and ingest always returns; a trace has one entry per call.
    - Sequence rules: the evaluator decides the declarative meaning of every
      rule; a violation stays one when the trace grows; the enforcing evaluator
      agrees with it on rules without argument constraints; the explainer
      blocks exactly where some kinds of rules are violated.
    - Truth records: the gate says match exactly when every declared constraint
      is known to be satisfied, and the engine then allows the call; what
      lies under a key that names a secret reaches a carrier only through its
      verdict; the declared digest depends on the
      members of the declared lists, not their order; a record is cited exactly
      under verdicts that do not understate its own, and a row binds one record.
    - Packs: a text is accepted exactly when its lines use nothing forbidden, no
      key is repeated in an open mapping and it has a canonical form; what is
      signed is unambiguous; a key is named by its hash and no manifest touches a
      pinned root; a fetched pack that is accepted has its pinned digest and a
      trusted signature, a cached one is intact and unexpired or what the registry
      answered in this run to be current; a request is
      retried only for transient errors and boundedly often; a lockfile is a
      sorted map, a verified one matches what resolves, an update changes
      digests only.
    - Supply chain: the loop over an audit path computes the tree hash of RFC
      6962, for every index and size, and a proof of the root is the path of that
      leaf, provided SHA-256 tells apart the finitely many strings hashed; an
      inclusion is verified exactly on its evidence, and under the same proviso
      the entry is in every log of the signed root and size; a
      verified bundle has a pinned chain, the expected identity, a signature
      and the digest; a report passes only on verified evidence.
    - Signed tools: what [sign] wrote verifies under the key of [keygen]; an
      exit code of 0 means a valid signature of the key that was asked for; a
      signature pins the canonical text, a binding the four members it reads.
    - Linting: a check passes exactly when its declarative reading holds; a rule
      of a compliance pack is run once and reported exactly when it fails; a
      report is made exactly for a verified bundle and packs that do not clash,
      and covers it; what its ceiling drops is counted and
      never more severe than what it keeps; a denial without a record is
      reported; a loaded pack is valid and comes from where its name points; the
      suggested names are within the edit distance.
    - Behaviours that differ from the documentation are theorems too: globs
      that panic on multi-byte names, error messages that panic on multi-byte
      lines, a store blocked by an open transaction, a
      retry that names any mandate, mandates unverified without an authorizer,
      [operation_class] never read, short pins that panic, a shared
      configuration key, port allow lists that are never loaded, child cgroups
      that are not enforced, sealed streams that do not verify, argument
      constraints that are not enforced, explanations that diverge, an event
      ceiling reported as something else, responses lost to sorting,
      empty allowlists that the gate does not see, packs that expire for good,
      unsigned packs served from the cache, keys in block scalars refused as
      repeated, tags whose refusal panics, decoy
      subjects on the pinned-key path, policies of trusted ids that verify
      nothing, private keys that keep a wide mode, rule collisions that the
      first definition wins.

    ** What is not modelled

    I/O (files, processes, the proxy's streams, the file sinks, gzip and tar),
    tracing, parsing of YAML, the lexer of [serde_json], serialisation of
    events, cryptography, X.509, regular expressions, the tracepoint probes, and
    the crates around the core (command line, runner, adapters, metrics).  A
    sink is the list of the events it received; concurrency is the sequence of
    calls the store's mutex and the handler's [&mut] state impose.  What the
    plan would take next: the trust basis, diffs and sanitizing of bundles. *)
From stdpp Require Import base tactics list strings gmap sorting.
From Stdlib Require Import ZArith Lia.

(** ** Results, panics and the state monad

    Fallible Rust code returns [Result]; a panic (a slice off a character
    boundary, an overflowing [DateTime] addition) is [Panicked], which no
    caller can catch.  [M S] is a state-passing computation that may panic:
    the state reached when a panic strikes is kept, because the code that runs
    during unwinding (a [Drop] implementation) observes it. *)

Inductive Result (A E : Type) : Type :=
| Ok (a : A)
| Err (e : E).
Arguments Ok {A E} a.
Arguments Err {A E} e.

Inductive Outcome (A : Type) : Type :=
| Done (a : A)
| Panicked.
Arguments Done {A} a.
Arguments Panicked {A}.

Definition M (S A : Type) : Type := S -> Outcome A * S.

#[global] Instance outcome_ret : MRet Outcome := fun A a => Done a.
#[global] Instance outcome_bind : MBind Outcome :=
  fun A B k m => match m with Done a => k a | Panicked => Panicked end.

#[global] Instance M_ret {S} : MRet (M S) := fun A a s => (Done a, s).
#[global] Instance M_bind {S} : MBind (M S) :=
  fun A B k m s =>
    match m s with
    | (Done a, s') => k a s'
    | (Panicked, s') => (Panicked, s')
    end.

Definition get_state {S} : M S S := fun s => (Done s, s).

Definition modify {S} (f : S -> S) : M S () := fun s => (Done (), f s).
Definition lift {S A} (o : Outcome A) : M S A := fun s => (o, s).

(** Running a computation on a component [T] of the state [S]. *)
Definition zoom {S T A} (get : S -> T) (put : T -> S -> S) (m : M T A) : M S A :=
  fun s => let (r, t) := m (get s) in (r, put t s).

(** Rust's [?]: stop at the first [Err]. *)
Definition try_bind {S A B E} (m : M S (Result A E)) (k : A -> M S (Result B E))
  : M S (Result B E) :=
  fun s =>
    match m s with
    | (Done (Ok a), s') => k a s'
    | (Done (Err e), s') => (Done (Err e), s')
    | (Panicked, s') => (Panicked, s')
    end.
Notation "x ←? m ; k" := (try_bind m (fun x => k))
  (at level 20, m at level 100, k at level 200, right associativity,
   only parsing) : stdpp_scope.

Definition result_map_err {A E F} (f : E -> F) (r : Result A E) : Result A F :=
  match r with Ok a => Ok a | Err e => Err (f e) end.

Definition is_ok {A E} (r : Result A E) : bool :=
  match r with Ok _ => true | Err _ => false end.

(** ** Hoare-style reasoning about [M]

    [preserves P m]: whatever [m] returns, and even when it panics, the state
    it leaves satisfies [P] again. *)

Definition preserves {S A} (P : S -> Prop) (m : M S A) : Prop :=
  forall s, P s -> P (snd (m s)).

Create HintDb assay discriminated.

Lemma preserves_ret {S A} (P : S -> Prop) (a : A) : preserves P (mret a : M S A).
Proof. by intros s Hs. Qed.

Lemma preserves_bind {S A B} (P : S -> Prop) (m : M S A) (k : A -> M S B) :
  preserves P m -> (forall a, preserves P (k a)) -> preserves P (m ≫= k).
Proof.
  intros Hm Hk s Hs. unfold mbind, M_bind. specialize (Hm s Hs).
  destruct (m s) as [[a|] s']; [by apply Hk | done].
Qed.

Lemma preserves_try_bind {S A B E} (P : S -> Prop)
    (m : M S (Result A E)) (k : A -> M S (Result B E)) :
  preserves P m -> (forall a, preserves P (k a)) -> preserves P (try_bind m k).
Proof.
  intros Hm Hk s Hs. unfold try_bind. specialize (Hm s Hs).
  destruct (m s) as [[[a|e]|] s']; [by apply Hk | done | done].
Qed.

Lemma try_bind_ok {S A B E} (m : M S (Result A E)) (k : A -> M S (Result B E)) s a s' :
  m s = (Done (Ok a), s') -> try_bind m k s = k a s'.
Proof. unfold try_bind. by intros ->. Qed.

Lemma try_bind_inv {S A B E} (m : M S (Result A E)) (f : A -> M S (Result B E)) s b s' :
  try_bind m f s = (Done (Ok b), s') ->
  exists a s1, m s = (Done (Ok a), s1) /\ f a s1 = (Done (Ok b), s').
Proof. unfold try_bind. destruct (m s) as [[[a|e]|] s1]; naive_solver. Qed.

Lemma bind_inv {S A B} (m : M S A) (k : A -> M S B) s b s' :
  (m ≫= k) s = (Done b, s') -> exists a s1, m s = (Done a, s1) /\ k a s1 = (Done b, s').
Proof. unfold mbind, M_bind. destruct (m s) as [[a|] s1]; [|done]. by exists a, s1. Qed.

Lemma preserves_lift {S A} (P : S -> Prop) (o : Outcome A) :
  preserves P (lift o : M S A).
Proof. by intros s Hs. Qed.

#[export] Hint Resolve preserves_ret preserves_bind preserves_try_bind
  preserves_lift : assay.

(** [triple P m Q R]: from [P], a run of [m] that returns ends in [Q] and one
    that panics in [R]. *)
Definition triple {S A} (P : S -> Prop) (m : M S A) (Q : A -> S -> Prop) (R : S -> Prop) : Prop :=
  forall s, P s -> match m s with
                   | (Done a, s') => Q a s'
                   | (Panicked, s') => R s'
                   end.

Lemma triple_bind {S A B} (P : S -> Prop) (m : M S A) (k : A -> M S B) Q R T :
  triple P m Q R -> (forall a, triple (Q a) (k a) T R) -> triple P (m ≫= k) T R.
Proof.
  intros Hm Hk s Hs. unfold mbind, M_bind. specialize (Hm s Hs).
  destruct (m s) as [[a|] s']; [by apply Hk | done].
Qed.

Lemma triple_assoc {S A B C} (P : S -> Prop) (m : M S A) (k : A -> M S B) (l : B -> M S C) Q R :
  triple P ((m ≫= k) ≫= l) Q R -> triple P (m ≫= fun a => k a ≫= l) Q R.
Proof.
  intros Ht s Hs. specialize (Ht s Hs). unfold mbind, M_bind in *. by destruct (m s) as [[a|] s'].
Qed.

Lemma triple_conseq {S A} (P P' : S -> Prop) (m : M S A) Q Q' R R' :
  triple P' m Q' R' -> (forall s, P s -> P' s) -> (forall a s, Q' a s -> Q a s) ->
  (forall s, R' s -> R s) -> triple P m Q R.
Proof.
  intros Hm HP HQ HR s Hs. specialize (Hm s (HP s Hs)).
  destruct (m s) as [[a|] s']; auto.
Qed.

(** ** Record update

    [r <| f := v |>] replaces one field.  A record type opts in with an [Eta]
    instance that rebuilds a value from its projections; the setter of a field
    is derived by abstracting that projection. *)

Definition Eta (R : Type) : Type := R -> R.
Existing Class Eta.
Definition Setter {R E : Type} (proj : R -> E) : Type := E -> R -> R.
Existing Class Setter.
Definition set_field {R E : Type} (proj : R -> E) {s : Setter proj} : E -> R -> R := s.

Ltac derive_setter R E proj :=
  let i := constr:(_ : Eta R) in
  exact (fun (v : E) (r : R) =>
    ltac:(let e := eval red in (i r) in
          let p := eval pattern (proj r) in e in
          lazymatch p with
          | ?g _ => let b := eval cbv beta in (g v) in exact b
          end)).

#[global] Hint Extern 1 (@Setter ?R ?E ?proj) =>
  derive_setter R E proj : typeclass_instances.

Notation "r <| f := v |>" := (set_field f v r)
  (at level 1, left associativity, f at level 1, v at level 99,
   format "r <| f  :=  v |>") : stdpp_scope.

(** ** Machine integers *)

Definition u64_max : Z := 2 ^ 64 - 1.
Definition u32_max : Z := 2 ^ 32 - 1.
(** [x += 1] on a [u64] in a release build. *)
Definition u64_succ (n : Z) : Z := (n + 1) mod 2 ^ 64.
(** [x as u32] on a wider integer. *)
Definition as_u32 (n : Z) : Z := n mod 2 ^ 32.

Lemma u64_succ_small n : (0 <= n < u64_max -> u64_succ n = n + 1)%Z.
Proof. unfold u64_succ, u64_max. intros. apply Z.mod_small. lia. Qed.

(** ** Lists and options *)

Definition option_or {A} (x y : option A) : option A :=
  match x with Some _ => x | None => y end.

Definition opt_is_some {A} (x : option A) : bool :=
  match x with Some _ => true | None => false end.

Definition opt_filter {A} (f : A -> bool) (x : option A) : option A :=
  match x with Some a => if f a then Some a else None | None => None end.

Definition is_nil {A} (l : list A) : bool :=
  match l with [] => true | _ => false end.

(** The first index at which a property holds, split there. *)
Fixpoint split_find {A} (f : A -> bool) (l : list A) : option (list A * A * list A) :=
  match l with
  | [] => None
  | x :: r =>
      if f x then Some ([], x, r)
      else match split_find f r with
           | Some (a, y, b) => Some (x :: a, y, b)
           | None => None
           end
  end.

Lemma is_nil_true {A} (l : list A) : is_nil l = true <-> l = [].
Proof. by destruct l. Qed.

Lemma is_nil_false {A} (l : list A) : is_nil l = false <-> l <> [].
Proof. by destruct l. Qed.

Lemma existsb_true {A} (f : A -> bool) l :
  existsb f l = true <-> exists x, x ∈ l /\ f x = true.
Proof.
  rewrite existsb_exists. split; intros (x & Hx & Hf); exists x;
    (split; [by apply list_elem_of_In | done]).
Qed.

Lemma existsb_false {A} (f : A -> bool) l :
  existsb f l = false <-> forall x, x ∈ l -> f x = false.
Proof.
  induction l as [|y l IH]; simpl; [split; [intros _ x Hx; by inversion Hx | done]|].
  rewrite orb_false_iff, IH. split.
  - intros [Hy Hl] x Hx. apply elem_of_cons in Hx as [->|Hx]; auto.
  - intros H. split; [apply H; by left | intros x Hx; apply H; by right].
Qed.

Lemma existsb_map {A B} (f : B -> bool) (g : A -> B) l :
  existsb f (map g l) = existsb (fun x => f (g x)) l.
Proof. induction l as [|x l IH]; simpl; [done|]. by rewrite IH. Qed.

(** ** Iterators *)

(** [iter().position(f)] *)
Fixpoint position {A} (f : A -> bool) (l : list A) : option nat :=
  match l with
  | [] => None
  | x :: r => if f x then Some 0 else S <$> position f r
  end.

(** [iter().enumerate().filter(f).map(|(i, _)| i)], counting from [i]. *)
Fixpoint indices_from {A} (f : A -> bool) (i : nat) (l : list A) : list nat :=
  match l with
  | [] => []
  | x :: r => if f x then i :: indices_from f (S i) r else indices_from f (S i) r
  end.
Definition indices {A} (f : A -> bool) (l : list A) : list nat := indices_from f 0 l.

Lemma position_Some {A} (f : A -> bool) l i :
  position f l = Some i <->
  (exists x, l !! i = Some x /\ f x = true) /\ forall j x, j < i -> l !! j = Some x -> f x = false.
Proof.
  revert i. induction l as [|y l IH]; intros i; cbn.
  - split; [done|]. by intros [(x & ? & _) _].
  - destruct (f y) eqn:E.
    + split.
      * intros [= <-]. split; [eauto|]. lia.
      * intros [_ Hmin]. destruct i; [done|]. specialize (Hmin 0 y ltac:(lia) eq_refl). congruence.
    + destruct i as [|i]; cbn.
      * split; [by destruct (position f l)|]. intros [(x & [= <-] & ?) _]. congruence.
      * rewrite fmap_Some. split.
        -- intros (i' & Hi & [= <-]). apply IH in Hi as [Hx Hmin]. split; [done|].
           intros [|j] x Hj; cbn; [by intros [= <-] | apply Hmin; lia].
        -- intros [Hx Hmin]. exists i. split; [|done]. apply IH. split; [done|].
           intros j x Hj Hl. apply (Hmin (S j) x); [lia | done].
Qed.
Lemma position_None {A} (f : A -> bool) l :
  position f l = None <-> forall i x, l !! i = Some x -> f x = false.
Proof.
  induction l as [|y l IH]; cbn; [split; [intros _ i x; by rewrite lookup_nil | done]|].
  destruct (f y) eqn:E.
  - split; [done|]. intros Hf. specialize (Hf 0 y eq_refl). congruence.
  - rewrite fmap_None, IH. split.
    + intros Hl [|i] x; cbn; [by intros [= <-] | apply Hl].
    + intros Hl i x. apply (Hl (S i)).
Qed.

Lemma elem_indices_from {A} (f : A -> bool) l k i :
  i ∈ indices_from f k l <-> k <= i /\ exists x, l !! (i - k) = Some x /\ f x = true.
Proof.
  revert k. induction l as [|y l IH]; intros k; cbn.
  - rewrite elem_of_nil. split; [done|]. intros (_ & x & Hx & _). by rewrite lookup_nil in Hx.
  - assert (Hr : i ∈ indices_from f (S k) l <-> k < i /\ exists x, (y :: l) !! (i - k) = Some x /\ f x = true).
    { rewrite IH. destruct (decide (k < i)) as [Hlt|Hge]; [|intuition lia].
      replace (i - k) with (S (i - S k)) by lia. cbn. intuition lia. }
    destruct (f y) eqn:E; rewrite ?elem_of_cons, Hr; split.
    + intros [->|[Hlt ?]]; [|split; [lia|done]]. rewrite Nat.sub_diag. eauto.
    + intros [Hle Hx]. destruct (decide (i = k)); [by left | right; split; [lia | done]].
    + intros [Hlt ?]. split; [lia | done].
    + intros [Hle (x & Hx & Hf)]. split; [|eauto]. destruct (decide (i = k)) as [->|]; [|lia].
      rewrite Nat.sub_diag in Hx. cbn in Hx. congruence.
Qed.
Lemma elem_indices {A} (f : A -> bool) l i :
  i ∈ indices f l <-> exists x, l !! i = Some x /\ f x = true.
Proof. unfold indices. rewrite elem_indices_from, Nat.sub_0_r. intuition lia. Qed.
Lemma length_indices {A} (f : A -> bool) l k :
  length (indices_from f k l) = length (filter (fun x => f x = true) l).
Proof.
  revert k. induction l as [|y l IH]; intros k; [done|]. rewrite filter_cons. cbn [indices_from].
  destruct (f y) eqn:E; case_decide; try congruence; cbn [length]; by rewrite IH.
Qed.
Lemma indices_nil {A} (f : A -> bool) l :
  indices f l = [] <-> forall i x, l !! i = Some x -> f x = false.
Proof.
  split.
  - intros E i x Hx. destruct (f x) eqn:Hf; [|done].
    assert (Hi : i ∈ indices f l) by (apply elem_indices; eauto). rewrite E in Hi. by apply elem_of_nil in Hi.
  - intros Hf. destruct (indices f l) as [|i r] eqn:E; [done|].
    assert (Hi : i ∈ indices f l) by (rewrite E; by left).
    apply elem_indices in Hi as (x & Hx & Ht). rewrite (Hf i x Hx) in Ht. done.
Qed.
(** The indices come in increasing order. *)
Lemma indices_sorted {A} (f : A -> bool) l k : StronglySorted lt (indices_from f k l).
Proof.
  revert k. induction l as [|y l IH]; intros k; cbn; [constructor|].
  destruct (f y); [|apply IH]. constructor; [apply IH|].
  apply Forall_forall. intros i Hi. apply elem_indices_from in Hi. lia.
Qed.

Lemma position_map {A B} (f : B -> bool) (g : A -> B) l : position f (map g l) = position (fun x => f (g x)) l.
Proof. induction l as [|x l IH]; cbn; [done|]. by rewrite IH. Qed.
Lemma position_ext {A} (f g : A -> bool) l : (forall x, f x = g x) -> position f l = position g l.
Proof. intros E. induction l as [|x l IH]; cbn; [done|]. by rewrite IH, E. Qed.
Lemma indices_map {A B} (f : B -> bool) (g : A -> B) l k :
  indices_from f k (map g l) = indices_from (fun x => f (g x)) k l.
Proof. revert k. induction l as [|x l IH]; intros k; cbn; [done|]. by rewrite IH. Qed.
Lemma indices_ext {A} (f g : A -> bool) l k : (forall x, f x = g x) -> indices_from f k l = indices_from g k l.
Proof. intros E. revert k. induction l as [|x l IH]; intros k; cbn; [done|]. by rewrite IH, E. Qed.

Lemma opt_position_existsb {A} (f : A -> bool) l : opt_is_some (position f l) = existsb f l.
Proof. induction l as [|x l IH]; cbn; [done|]. rewrite <- IH. by destruct (f x), (position f l). Qed.
Lemma is_nil_indices {A} (f : A -> bool) l k : is_nil (indices_from f k l) = negb (existsb f l).
Proof. revert k. induction l as [|x l IH]; intros k; cbn; [done|]. by destruct (f x). Qed.

Lemma is_nil_app {A} (l k : list A) : is_nil (l ++ k) = is_nil l && is_nil k.
Proof. by destruct l. Qed.
Lemma is_nil_bind {A B} (f : A -> list B) l : is_nil (l ≫= f) = forallb (fun x => is_nil (f x)) l.
Proof. induction l as [|x l IH]; [done|]. rewrite bind_cons, is_nil_app, IH. done. Qed.

Lemma indices_from_snoc {A} (f : A -> bool) k l x :
  indices_from f k (l ++ [x]) = indices_from f k l ++ (if f x then [k + length l] else []).
Proof.
  revert k. induction l as [|y l IH]; intros k; cbn [app indices_from length].
  - rewrite Nat.add_0_r. by destruct (f x).
  - rewrite IH. replace (S k + length l) with (k + S (length l)) by lia. by destruct (f y).
Qed.

Lemma position_snoc {A} (f : A -> bool) l x :
  position f (l ++ [x]) = match position f l with Some i => Some i | None => if f x then Some (length l) else None end.
Proof.
  induction l as [|y l IH]; cbn [app position length]; [done|]. destruct (f y); [done|]. rewrite IH.
  destruct (position f l); [done|]. by destruct (f x).
Qed.
