(* ===== verification/RustStr.v ===== *)
(** * Rust strings

    A Rust [String] or [&str] is its sequence of UTF-8 bytes, a Coq [string].
    This file models the [str] methods the enforcement code calls: prefix,
    suffix and substring tests, trimming, splitting, ASCII lower-casing,
    iteration over [chars] and byte-indexed slicing, which panics off a
    character boundary.  It also gives the byte order of [BTreeSet<String>]. *)
From stdpp Require Import base tactics list strings pretty sorting.
From Stdlib Require Import Ascii ZArith Lia.
From S2P Require Import Prelude.

#[global] Arguments String.append !_ _ / : simpl nomatch.

Definition byte_of (a : ascii) : N := Ascii.N_of_ascii a.

(** A UTF-8 continuation byte, [0b10xx_xxxx]. *)
Definition is_cont (a : ascii) : bool :=
  (N.leb 128 (byte_of a) && N.ltb (byte_of a) 192)%bool.

Definition is_ascii_byte (a : ascii) : bool := N.ltb (byte_of a) 128.

Fixpoint str_forall (f : ascii -> bool) (s : string) : bool :=
  match s with
  | EmptyString => true
  | String a r => f a && str_forall f r
  end.

(** [str::is_ascii]. *)
Definition is_ascii (s : string) : bool := str_forall is_ascii_byte s.

Definition str_is_empty (s : string) : bool :=
  match s with EmptyString => true | _ => false end.

(** [str::len], in bytes. *)
Definition str_len (s : string) : Z := Z.of_nat (String.length s).

(** ** Prefix, suffix, substring *)

Fixpoint starts_with (s p : string) {struct p} : bool :=
  match p, s with
  | EmptyString, _ => true
  | String a p', String b s' => Ascii.eqb a b && starts_with s' p'
  | _, _ => false
  end.

Fixpoint ends_with (s p : string) : bool :=
  String.eqb s p ||
  match s with
  | EmptyString => false
  | String _ s' => ends_with s' p
  end.

Fixpoint str_contains (s p : string) : bool :=
  starts_with s p ||
  match s with
  | EmptyString => false
  | String _ s' => str_contains s' p
  end.

Definition contains_char (s : string) (c : ascii) : bool :=
  negb (str_forall (fun a => negb (Ascii.eqb a c)) s).

(** ** Trimming by an ASCII character *)

Fixpoint trim_start_matches (c : ascii) (s : string) : string :=
  match s with
  | EmptyString => EmptyString
  | String a r => if Ascii.eqb a c then trim_start_matches c r else s
  end.

Fixpoint trim_end_matches (c : ascii) (s : string) : string :=
  match s with
  | EmptyString => EmptyString
  | String a r =>
      let r' := trim_end_matches c r in
      if (str_is_empty r' && Ascii.eqb a c)%bool then EmptyString else String a r'
  end.

Definition trim_matches (c : ascii) (s : string) : string :=
  trim_end_matches c (trim_start_matches c s).

(** ** Characters

    [chars s] lists the scalar values of [s], each as its UTF-8 bytes: a byte
    followed by the continuation bytes after it. *)

Fixpoint span_cont (s : string) : string * string :=
  match s with
  | EmptyString => (EmptyString, EmptyString)
  | String a r =>
      if is_cont a then let (c, t) := span_cont r in (String a c, t)
      else (EmptyString, s)
  end.

(** [chars().next()], with the rest of the iterator. *)
Definition uncons_char (s : string) : option (string * string) :=
  match s with
  | EmptyString => None
  | String a r => let (c, t) := span_cont r in Some (String a c, t)
  end.

Fixpoint chars_fuel (n : nat) (s : string) : list string :=
  match n, uncons_char s with
  | S n', Some (c, t) => c :: chars_fuel n' t
  | _, _ => []
  end.

(** Each character has at least one byte, so the length is enough fuel. *)
Definition chars (s : string) : list string := chars_fuel (String.length s) s.

Definition str_concat (l : list string) : string := foldr String.append EmptyString l.

(** [char::is_whitespace]: the code points with the White_Space property. *)
Definition of_bytes (l : list N) : string :=
  foldr (fun b s => String (Ascii.ascii_of_N b) s) EmptyString l.

Definition whitespace_chars : list string :=
  map of_bytes
    ([[9]; [10]; [11]; [12]; [13]; [32]; [194; 133]; [194; 160]; [225; 154; 128];
      [226; 128; 128]; [226; 128; 129]; [226; 128; 130]; [226; 128; 131];
      [226; 128; 132]; [226; 128; 133]; [226; 128; 134]; [226; 128; 135];
      [226; 128; 136]; [226; 128; 137]; [226; 128; 138]; [226; 128; 168];
      [226; 128; 169]; [226; 128; 175]; [226; 129; 159]; [227; 128; 128]]%N).

Definition is_whitespace (c : string) : bool := existsb (String.eqb c) whitespace_chars.

Fixpoint drop_while {A} (f : A -> bool) (l : list A) : list A :=
  match l with
  | [] => []
  | x :: r => if f x then drop_while f r else l
  end.

(** [str::trim]. *)
Definition str_trim (s : string) : string :=
  str_concat
    (reverse (drop_while is_whitespace
       (reverse (drop_while is_whitespace (chars s))))).

(** [str::to_ascii_lowercase]. *)
Definition ascii_lower (a : ascii) : ascii :=
  if (N.leb 65 (byte_of a) && N.leb (byte_of a) 90)%bool
  then Ascii.ascii_of_N (byte_of a + 32) else a.

Fixpoint to_ascii_lowercase (s : string) : string :=
  match s with
  | EmptyString => EmptyString
  | String a r => String (ascii_lower a) (to_ascii_lowercase r)
  end.

Definition eq_ignore_ascii_case (a b : string) : bool :=
  String.eqb (to_ascii_lowercase a) (to_ascii_lowercase b).

Definition is_ascii_alphanumeric (a : ascii) : bool :=
  ((N.leb 48 (byte_of a) && N.leb (byte_of a) 57)
   || (N.leb 65 (byte_of a) && N.leb (byte_of a) 90)
   || (N.leb 97 (byte_of a) && N.leb (byte_of a) 122))%bool.

(** [str::split(c)]: always at least one piece. *)
Fixpoint str_split (c : ascii) (s : string) : list string :=
  match s with
  | EmptyString => [EmptyString]
  | String a r =>
      if Ascii.eqb a c then EmptyString :: str_split c r
      else match str_split c r with
           | p :: ps => String a p :: ps
           | [] => [String a EmptyString]
           end
  end.

(** ** Byte-indexed slices *)

Fixpoint str_drop (n : nat) (s : string) : string :=
  match n, s with
  | O, _ => s
  | S n', String _ r => str_drop n' r
  | S _, EmptyString => EmptyString
  end.

Fixpoint str_take (n : nat) (s : string) : string :=
  match n, s with
  | S n', String a r => String a (str_take n' r)
  | _, _ => EmptyString
  end.

(** [str::is_char_boundary]. *)
Definition is_char_boundary (s : string) (i : nat) : bool :=
  match str_drop i s with
  | EmptyString => Nat.eqb i (String.length s)
  | String a _ => Nat.eqb i 0 || negb (is_cont a)
  end.

(** [&s[i..]] panics unless [i] is a character boundary of [s]. *)
Definition slice_from (s : string) (i : nat) : Outcome string :=
  if is_char_boundary s i then Done (str_drop i s) else Panicked.

(** [&s[0..j]]. *)
Definition slice_to (s : string) (j : nat) : Outcome string :=
  if is_char_boundary s j then Done (str_take j s) else Panicked.

(** Decimal formatting of an integer. *)
Definition fmt_int (z : Z) : string := pretty z.

Definition is_digit (a : ascii) : bool := (N.leb 48 (byte_of a) && N.leb (byte_of a) 57)%bool.
Definition digit_value (a : ascii) : Z := (Z.of_N (byte_of a) - 48)%Z.

(** [str::parse] to an unsigned integer: an optional [+], digits, no overflow. *)
Fixpoint parse_digits (max acc : Z) (s : string) : option Z :=
  match s with
  | EmptyString => Some acc
  | String a r =>
      if is_digit a then
        let n := (acc * 10 + digit_value a)%Z in
        if (n <=? max)%Z then parse_digits max n r else None
      else None
  end.
Definition parse_unsigned (max : Z) (s : string) : option Z :=
  match s with
  | EmptyString => None
  | String "+" EmptyString => None
  | String "+" r => parse_digits max 0 r
  | _ => parse_digits max 0 s
  end.

(** To a signed integer: an optional sign, digits, no overflow. *)
Definition parse_signed (bits : Z) (s : string) : option Z :=
  match s with
  | String a r =>
      if Ascii.eqb a "-" then
        if str_is_empty r then None else Z.opp <$> parse_digits (2 ^ (bits - 1)) 0 r
      else parse_unsigned (2 ^ (bits - 1) - 1) s
  | EmptyString => None
  end.

(** [slice.join(sep)]. *)
Fixpoint str_join (sep : string) (l : list string) : string :=
  match l with
  | [] => EmptyString
  | [x] => x
  | x :: r => x +:+ sep +:+ str_join sep r
  end.

(** ** The order of strings: bytewise lexicographic *)

Fixpoint str_cmp (a b : string) : comparison :=
  match a, b with
  | EmptyString, EmptyString => Eq
  | EmptyString, String _ _ => Lt
  | String _ _, EmptyString => Gt
  | String x a', String y b' =>
      match N.compare (byte_of x) (byte_of y) with
      | Eq => str_cmp a' b'
      | c => c
      end
  end.

Definition str_ltb (a b : string) : bool :=
  match str_cmp a b with Lt => true | _ => false end.

Definition str_leb (a b : string) : bool :=
  match str_cmp a b with Gt => false | _ => true end.

Definition str_le (a b : string) : Prop := str_leb a b = true.
#[global] Instance str_le_dec a b : Decision (str_le a b) := decide (str_leb a b = true).

(** [Vec<String>::sort]. *)
Definition str_sort (l : list string) : list string := merge_sort str_le l.

(** ** Lemmas *)

Lemma byte_of_inj a b : byte_of a = byte_of b -> a = b.
Proof.
  unfold byte_of. intros H.
  by rewrite <- (Ascii.ascii_N_embedding a), <- (Ascii.ascii_N_embedding b), H.
Qed.

Lemma str_cmp_eq a b : str_cmp a b = Eq <-> a = b.
Proof.
  split; [|intros ->; induction b as [|c b IH]; simpl; [done|by rewrite N.compare_refl]].
  revert b. induction a as [|x a IH]; intros [|y b]; simpl; try done.
  destruct (N.compare_spec (byte_of x) (byte_of y)) as [E| |]; try done.
  intros Hc. apply byte_of_inj in E as ->. f_equal. by apply IH.
Qed.

Lemma str_cmp_antisym a b : str_cmp b a = CompOpp (str_cmp a b).
Proof.
  revert b. induction a as [|x a IH]; intros [|y b]; simpl; try done.
  rewrite (N.compare_antisym (byte_of x) (byte_of y)).
  destruct (N.compare (byte_of x) (byte_of y)); simpl; auto.
Qed.

Lemma str_cmp_lt_trans a b c :
  str_cmp a b = Lt -> str_cmp b c = Lt -> str_cmp a c = Lt.
Proof.
  revert b c. induction a as [|x a IH]; intros [|y b] [|z c]; simpl; try done.
  destruct (N.compare_spec (byte_of x) (byte_of y)) as [E1|L1|],
    (N.compare_spec (byte_of y) (byte_of z)) as [E2|L2|],
    (N.compare_spec (byte_of x) (byte_of z)) as [E3|L3|];
    try done; try lia; eauto.
Qed.

Lemma str_ltb_lt a b : str_ltb a b = true <-> str_cmp a b = Lt.
Proof. unfold str_ltb. by destruct (str_cmp a b). Qed.

Lemma str_ltb_trans a b c :
  str_ltb a b = true -> str_ltb b c = true -> str_ltb a c = true.
Proof. rewrite !str_ltb_lt. apply str_cmp_lt_trans. Qed.

#[export] Instance str_le_total : Total str_le.
Proof.
  intros a b. unfold str_le, str_leb. rewrite (str_cmp_antisym a b).
  destruct (str_cmp a b); simpl; auto.
Qed.

#[export] Instance str_le_trans : Transitive str_le.
Proof.
  intros a b c. unfold str_le, str_leb.
  destruct (str_cmp a b) eqn:E1, (str_cmp b c) eqn:E2; try done; intros _ _.
  - apply str_cmp_eq in E1 as ->. by rewrite E2.
  - apply str_cmp_eq in E1 as ->. by rewrite E2.
  - apply str_cmp_eq in E2 as <-. by rewrite E1.
  - by rewrite (str_cmp_lt_trans _ _ _ E1 E2).
Qed.

#[export] Instance str_le_antisym : AntiSymm (=) str_le.
Proof.
  intros a b. unfold str_le, str_leb. rewrite (str_cmp_antisym a b).
  destruct (str_cmp a b) eqn:E; try done. intros _ _. by apply str_cmp_eq.
Qed.

Lemma string_app_nil_r s : s +:+ EmptyString = s.
Proof. induction s as [|a s IH]; [done|]. by cbn; f_equal. Qed.

Lemma string_app_assoc (a b c : string) : a +:+ (b +:+ c) = (a +:+ b) +:+ c.
Proof. induction a as [|x a IH]; [done|]. by cbn; f_equal. Qed.

Lemma string_app_inj (a b c : string) : a +:+ b = a +:+ c -> b = c.
Proof. induction a as [|x a IH]; [done|]. cbn. intros [= E]. by apply IH. Qed.

Lemma string_app_length a b :
  String.length (a +:+ b) = (String.length a + String.length b)%nat.
Proof. induction a as [|x a IH]; [done|]. cbn. by f_equal. Qed.

Lemma str_take_app s t : str_take (String.length s) (s +:+ t) = s.
Proof. induction s as [|a s IH]; cbn; [by destruct t | by rewrite IH]. Qed.

Lemma str_drop_app l t : str_drop (String.length l) (l +:+ t) = t.
Proof. induction l as [|a l IH]; [done|]. exact IH. Qed.

Lemma str_take_drop n s : str_take n s +:+ str_drop n s = s.
Proof. revert s. induction n as [|n IH]; intros [|a s]; cbn; [done..|]. by rewrite IH. Qed.

Lemma str_take_length n s : n <= String.length s -> String.length (str_take n s) = n.
Proof. revert s. induction n as [|n IH]; intros [|a s]; cbn; [done..|lia|]. intros. rewrite IH; lia. Qed.

(** [starts_with], [ends_with] and [contains] mean what they say. *)
Lemma starts_with_spec s p : starts_with s p = true <-> exists t, s = p +:+ t.
Proof.
  revert s. induction p as [|a p IH]; intros s; simpl.
  - split; [by exists s | done].
  - destruct s as [|b s].
    + split; [done|]. intros [t Ht]. discriminate Ht.
    + rewrite andb_true_iff, Ascii.eqb_eq, IH. split.
      * intros [-> [t ->]]. by exists t.
      * intros [t Ht]. cbn in Ht. injection Ht as -> ->. eauto.
Qed.

Lemma ends_with_spec s p : ends_with s p = true <-> exists t, s = t +:+ p.
Proof.
  induction s as [|a s IH]; cbn [ends_with];
    rewrite orb_true_iff, String.eqb_eq.
  - split.
    + intros [<-|]; [by exists EmptyString | done].
    + intros [t Ht]. left. by destruct t as [|b t]; [|discriminate Ht].
  - rewrite IH. split.
    + intros [<-|[t ->]]; [by exists EmptyString | by exists (String a t)].
    + intros [[|b t] Ht]; [by left | right].
      cbn in Ht. injection Ht as -> ->. by exists t.
Qed.

Lemma str_contains_spec s p :
  str_contains s p = true <-> exists l r, s = l +:+ (p +:+ r).
Proof.
  induction s as [|a s IH]; cbn [str_contains];
    rewrite orb_true_iff, starts_with_spec.
  - split.
    + intros [[t Ht]|]; [exists EmptyString, t; done | done].
    + intros ([|b l] & r & H); [left; by exists r | discriminate H].
  - rewrite IH. split.
    + intros [[t Ht]|(l & r & ->)]; [by exists EmptyString, t | by exists (String a l), r].
    + intros ([|b l] & r & H); [left; by exists r | right].
      cbn in H. injection H as -> ->. by exists l, r.
Qed.

Lemma contains_char_app c s t :
  contains_char (s +:+ t) c = contains_char s c || contains_char t c.
Proof.
  unfold contains_char. induction s as [|a s IH]; [done|]. cbn.
  destruct (Ascii.eqb a c); simpl; [done|]. apply IH.
Qed.

Lemma str_is_empty_true s : str_is_empty s = true <-> s = EmptyString.
Proof. by destruct s. Qed.

Lemma str_is_empty_false s : str_is_empty s = false <-> s <> EmptyString.
Proof. by destruct s. Qed.

Lemma str_drop_long s i : String.length s <= i -> str_drop i s = EmptyString.
Proof.
  revert i. induction s as [|a s IH]; intros [|i]; simpl; intros Hi; try done; [lia|].
  apply IH. lia.
Qed.

Lemma boundary_past_end s i : String.length s < i -> is_char_boundary s i = false.
Proof.
  intros Hi. unfold is_char_boundary. rewrite str_drop_long by lia. apply Nat.eqb_neq. lia.
Qed.

Lemma span_cont_app s : fst (span_cont s) +:+ snd (span_cont s) = s.
Proof.
  induction s as [|a s IH]; [done|]. cbn.
  destruct (is_cont a); [|done]. destruct (span_cont s). cbn in *. by f_equal.
Qed.

Lemma uncons_char_app s c t : uncons_char s = Some (c, t) -> s = c +:+ t.
Proof.
  destruct s as [|a s]; simpl; [done|]. pose proof (span_cont_app s) as Hs.
  destruct (span_cont s) as [c' t']. simpl in Hs. intros [= <- <-]. cbn. by f_equal.
Qed.

Lemma chars_fuel_concat n s :
  (String.length s <= n)%nat -> str_concat (chars_fuel n s) = s.
Proof.
  revert s. induction n as [|n IH]; intros s Hn.
  - by destruct s; [|simpl in Hn; lia].
  - cbn [chars_fuel]. destruct (uncons_char s) as [[c t]|] eqn:E.
    + pose proof (uncons_char_app _ _ _ E) as ->. cbn. f_equal. apply IH.
      destruct c as [|a c].
      * exfalso. destruct (EmptyString +:+ t) as [|a r]; simpl in E; [done|].
        by destruct (span_cont r).
      * rewrite string_app_length in Hn. simpl in Hn. lia.
    + by destruct s as [|a s]; [|simpl in E; destruct (span_cont s)].
Qed.

(** The characters of a string, joined, are the string. *)
Lemma chars_concat s : str_concat (chars s) = s.
Proof. by apply chars_fuel_concat. Qed.

Lemma is_ascii_cons a s :
  is_ascii (String a s) = true <-> is_ascii_byte a = true /\ is_ascii s = true.
Proof. unfold is_ascii. simpl. apply andb_true_iff. Qed.

Lemma ascii_not_cont a : is_ascii_byte a = true -> is_cont a = false.
Proof.
  unfold is_ascii_byte, is_cont. intros H. apply N.ltb_lt in H.
  apply andb_false_iff. left. apply N.leb_gt. lia.
Qed.

Lemma span_cont_ascii s : is_ascii s = true -> span_cont s = (EmptyString, s).
Proof.
  destruct s as [|a s]; [done|]. intros [Ha _]%is_ascii_cons. cbn.
  by rewrite (ascii_not_cont _ Ha).
Qed.

Lemma uncons_char_ascii a s :
  is_ascii s = true -> uncons_char (String a s) = Some (String a EmptyString, s).
Proof. intros Hs. cbn. by rewrite (span_cont_ascii _ Hs). Qed.
