(* ===== verification/Json.v ===== *)
(** * JSON values

    [serde_json::Value] as the enforcement code uses it.  The workspace builds
    [serde_json] with [preserve_order], so an object is an insertion-ordered
    map: [insert] replaces in place or appends, [remove] swaps the last entry
    into the hole, and equality of two objects ignores the order of their
    entries.  Integers keep [serde_json]'s split into [u64] and negative [i64];
    a float is its 64 bits. *)
From stdpp Require Import base tactics list strings.
From Stdlib Require Import ZArith Lia.
From S2P Require Import Prelude RustStr.

Inductive Number : Type :=
| PosInt (n : Z)
| NegInt (n : Z)
| Float (bits : Z).

Inductive Value : Type :=
| Null
| VBool (b : bool)
| Num (n : Number)
| Str (s : string)
| Arr (l : list Value)
| Obj (m : list (string * Value)).

Abbreviation Map := (list (string * Value)) (only parsing).

(** ** Accessors *)

Definition as_str (v : Value) : option string :=
  match v with Str s => Some s | _ => None end.
Definition as_object (v : Value) : option Map :=
  match v with Obj m => Some m | _ => None end.

Definition as_array (v : Value) : option (list Value) :=
  match v with Arr l => Some l | _ => None end.

Definition as_u64 (v : Value) : option Z :=
  match v with Num (PosInt n) => Some n | _ => None end.
Definition as_i64 (v : Value) : option Z :=
  match v with
  | Num (PosInt n) => if (n <=? 2 ^ 63 - 1)%Z then Some n else None
  | Num (NegInt n) => Some n
  | _ => None
  end.
Definition is_null (v : Value) : bool := match v with Null => true | _ => false end.
Definition is_string (v : Value) : bool := match v with Str _ => true | _ => false end.
Definition is_object (v : Value) : bool := match v with Obj _ => true | _ => false end.

(** ** Maps *)

Fixpoint map_get (m : Map) (k : string) : option Value :=
  match m with
  | [] => None
  | (k', v) :: r => if String.eqb k k' then Some v else map_get r k
  end.

Definition map_contains_key (m : Map) (k : string) : bool := opt_is_some (map_get m k).

Fixpoint map_insert (m : Map) (k : string) (v : Value) : Map :=
  match m with
  | [] => [(k, v)]
  | (k', v') :: r =>
      if String.eqb k k' then (k', v) :: r else (k', v') :: map_insert r k v
  end.

(** [Map::remove] is [swap_remove]: the last entry takes the removed place. *)
Definition map_remove (m : Map) (k : string) : option (Value * Map) :=
  match split_find (fun e => String.eqb k (fst e)) m with
  | None => None
  | Some (a, (_, v), b) =>
      Some (v, match last b with
               | None => a
               | Some e => a ++ e :: take (length b - 1) b
               end)
  end.

(** [Value::get(&str)]: only an object has string keys. *)
Definition vget (v : Value) (k : string) : option Value :=
  match v with Obj m => map_get m k | _ => None end.

(** ** Equality, as [PartialEq] decides it *)

Definition float_is_zero (b : Z) : bool := ((b =? 0) || (b =? 2 ^ 63))%Z.

Definition number_eqb (a b : Number) : bool :=
  match a, b with
  | PosInt x, PosInt y | NegInt x, NegInt y => Z.eqb x y
  | Float x, Float y => Z.eqb x y || (float_is_zero x && float_is_zero y)
  | _, _ => false
  end.

Fixpoint value_eqb (v w : Value) {struct v} : bool :=
  match v, w with
  | Null, Null => true
  | VBool a, VBool b => Bool.eqb a b
  | Num a, Num b => number_eqb a b
  | Str a, Str b => String.eqb a b
  | Arr l, Arr l' =>
      (fix go (l l' : list Value) : bool :=
         match l, l' with
         | [], [] => true
         | x :: r, y :: r' => value_eqb x y && go r r'
         | _, _ => false
         end) l l'
  | Obj m, Obj m' =>
      Nat.eqb (length m) (length m') &&
      (fix go (m : list (string * Value)) : bool :=
         match m with
         | [] => true
         | (k, x) :: r =>
             match map_get m' k with Some y => value_eqb x y | None => false end && go r
         end) m
  | _, _ => false
  end.

(** ** Induction through arrays and objects *)

Section Value_induction.
  Variable P : Value -> Prop.
  Hypothesis HNull : P Null.
  Hypothesis HBool : forall b, P (VBool b).
  Hypothesis HNum : forall n, P (Num n).
  Hypothesis HStr : forall s, P (Str s).
  Hypothesis HArr : forall l, Forall P l -> P (Arr l).
  Hypothesis HObj : forall m, Forall (fun e => P (snd e)) m -> P (Obj m).

Fixpoint Value_rect_nested (v : Value) : P v :=
    match v with
    | Null => HNull
    | VBool b => HBool b
    | Num n => HNum n
    | Str s => HStr s
    | Arr l =>
        HArr l ((fix go (l : list Value) : Forall P l :=
                   match l with
                   | [] => Forall_nil_2 _
                   | x :: r => Forall_cons_2 _ _ _ (Value_rect_nested x) (go r)
                   end) l)
    | Obj m =>
        HObj m ((fix go (m : list (string * Value)) : Forall (fun e => P (snd e)) m :=
                   match m with
                   | [] => Forall_nil_2 _
                   | x :: r => Forall_cons_2 _ _ _ (Value_rect_nested (snd x)) (go r)
                   end) m)
    end.
End Value_induction.

(** ** Well-formed values: no object repeats a key *)

Inductive wf_value : Value -> Prop :=
| wf_Null : wf_value Null
| wf_Bool b : wf_value (VBool b)
| wf_Num n : wf_value (Num n)
| wf_Str s : wf_value (Str s)
| wf_Arr l : Forall wf_value l -> wf_value (Arr l)
| wf_Obj m :
    NoDup (map fst m) -> Forall (fun e => wf_value (snd e)) m -> wf_value (Obj m).

#[export] Hint Constructors wf_value : assay.

(** ** Lemmas on maps *)

Lemma map_get_insert_eq m k v : map_get (map_insert m k v) k = Some v.
Proof.
  induction m as [|[k' v'] m IH]; simpl; [by rewrite String.eqb_refl|].
  destruct (String.eqb k k') eqn:E; simpl; by rewrite E.
Qed.

Lemma map_get_insert_ne m k k' v :
  k <> k' -> map_get (map_insert m k v) k' = map_get m k'.
Proof.
  intros Hne. induction m as [|[k0 v0] m IH]; simpl.
  - destruct (String.eqb_spec k' k); congruence.
  - destruct (String.eqb_spec k k0) as [->|]; simpl.
    + destruct (String.eqb_spec k' k0); congruence.
    + by destruct (String.eqb k' k0).
Qed.

Lemma map_insert_keys m k v :
  map fst (map_insert m k v) = if opt_is_some (map_get m k) then map fst m else map fst m ++ [k].
Proof.
  induction m as [|[k' v'] m IH]; simpl; [done|].
  destruct (String.eqb_spec k k') as [->|]; simpl; [done|].
  rewrite IH. by destruct (map_get m k).
Qed.

Lemma map_get_None m k : map_get m k = None <-> k ∉ map fst m.
Proof.
  induction m as [|[k' v'] m IH]; simpl.
  - split; [intros _ H; by inversion H | done].
  - rewrite not_elem_of_cons. destruct (String.eqb_spec k k') as [->|Hne].
    + split; [done | by intros []].
    + rewrite IH. naive_solver.
Qed.

Lemma map_get_Some_elem m k v : map_get m k = Some v -> (k, v) ∈ m.
Proof.
  induction m as [|[k' v'] m IH]; simpl; [done|].
  destruct (String.eqb_spec k k') as [->|]; [intros [= ->]; by left | right; auto].
Qed.

Lemma map_get_elem m k v : NoDup (map fst m) -> (k, v) ∈ m -> map_get m k = Some v.
Proof.
  induction m as [|[k' v'] m IH]; simpl; intros Hnd Hin; [by inversion Hin|].
  apply NoDup_cons in Hnd as [Hk' Hnd]. apply elem_of_cons in Hin as [[= -> ->]|Hin].
  - by rewrite String.eqb_refl.
  - destruct (String.eqb_spec k k') as [->|]; [|auto].
    exfalso. apply Hk'. apply list_elem_of_fmap. by exists (k', v).
Qed.

Lemma map_insert_fresh m k v : k ∉ map fst m -> map_insert m k v = m ++ [(k, v)].
Proof.
  induction m as [|[k' v'] m IH]; simpl; [done|]. rewrite not_elem_of_cons. intros [Hne Hk].
  rewrite (proj2 (String.eqb_neq _ _) Hne). by rewrite IH.
Qed.

Lemma map_insert_NoDup m k v : NoDup (map fst m) -> NoDup (map fst (map_insert m k v)).
Proof.
  intros Hnd. rewrite map_insert_keys. destruct (map_get m k) eqn:E; simpl; [done|].
  apply map_get_None in E. apply NoDup_app. split_and!; [done| |apply NoDup_singleton].
  intros x Hx Hk. apply list_elem_of_singleton in Hk as ->. done.
Qed.

Lemma map_insert_Forall (P : string * Value -> Prop) m k v :
  Forall P m -> P (k, v) -> Forall P (map_insert m k v).
Proof.
  intros Hm Hv. induction Hm as [|[k' v'] m Hx Hm IH]; simpl; [by constructor|].
  destruct (String.eqb_spec k k') as [->|]; by constructor.
Qed.

(** Entries are found by key regardless of their order. *)
Lemma map_get_perm m m' k :
  NoDup (map fst m) -> m ≡ₚ m' -> map_get m k = map_get m' k.
Proof.
  intros Hnd Hp. assert (Hnd' : NoDup (map fst m')) by by rewrite <- (fmap_Permutation fst _ _ Hp).
  destruct (map_get m k) as [v|] eqn:E.
  - symmetry. apply map_get_elem; [done|]. rewrite <- Hp. by apply map_get_Some_elem.
  - symmetry. rewrite map_get_None. apply map_get_None in E.
    intros Hk. apply E. by rewrite (fmap_Permutation fst _ _ Hp).
Qed.

Lemma split_find_Some {A} (f : A -> bool) l a x b :
  split_find f l = Some (a, x, b) ->
  l = a ++ x :: b /\ f x = true /\ Forall (fun y => f y = false) a.
Proof.
  revert a x b. induction l as [|y l IH]; intros a x b; simpl; [done|].
  destruct (f y) eqn:E.
  - intros [= <- <- <-]. auto using Forall_nil_2.
  - destruct (split_find f l) as [[[a' x'] b']|]; [|done].
    intros [= <- <- <-]. destruct (IH _ _ _ eq_refl) as (-> & ? & ?). auto.
Qed.

Lemma split_find_None {A} (f : A -> bool) l :
  split_find f l = None <-> Forall (fun y => f y = false) l.
Proof.
  induction l as [|y l IH]; simpl; [split; [constructor | done]|].
  rewrite Forall_cons. destruct (f y) eqn:E; [split; [done | by intros []]|].
  rewrite <- IH. destruct (split_find f l) as [[[? ?] ?]|]; naive_solver.
Qed.

(** [remove] takes out the first entry of the key and permutes the rest. *)
Lemma map_remove_Some m k v m' :
  map_remove m k = Some (v, m') -> map_get m k = Some v /\ m ≡ₚ (k, v) :: m'.
Proof.
  unfold map_remove. destruct (split_find _ m) as [[[a [k0 v0]] b]|] eqn:E; [|done].
  intros [= <- <-]. apply split_find_Some in E as (-> & Hk & Ha).
  simpl in Hk. apply String.eqb_eq in Hk as <-. split.
  - induction a as [|[k1 v1] a IH]; simpl; [by rewrite String.eqb_refl|].
    apply Forall_cons in Ha as [Hk1 Ha]. simpl in Hk1. rewrite Hk1. auto.
  - rewrite <- Permutation_middle. constructor.
    destruct (last b) as [e|] eqn:El.
    + apply last_Some in El as [b' ->]. rewrite length_app. simpl.
      rewrite Nat.add_sub, take_app_length. apply Permutation_app_head.
      symmetry. apply Permutation_cons_append.
    + apply last_None in El as ->. by rewrite app_nil_r.
Qed.

Lemma map_remove_None m k : map_remove m k = None <-> map_get m k = None.
Proof.
  unfold map_remove. destruct (split_find _ m) as [[[a [k0 v0]] b]|] eqn:E.
  - split; [done|]. apply split_find_Some in E as (-> & Hk & _).
    simpl in Hk. apply String.eqb_eq in Hk as <-. rewrite map_get_None.
    intros Hn. exfalso. apply Hn. rewrite map_app. apply elem_of_app. right. by left.
  - split; [intros _ | done]. apply split_find_None in E. apply map_get_None.
    intros Hk. apply list_elem_of_fmap in Hk as ([k' v'] & -> & Hin).
    rewrite Forall_forall in E. specialize (E _ Hin). simpl in E.
    by rewrite String.eqb_refl in E.
Qed.

Lemma map_remove_wf m k v m' :
  NoDup (map fst m) -> map_remove m k = Some (v, m') ->
  NoDup (map fst m') /\ map_get m' k = None /\
  (forall k', k' <> k -> map_get m' k' = map_get m k').
Proof.
  intros Hnd Hr. apply map_remove_Some in Hr as [Hg Hp].
  assert (Hnd' : NoDup (map fst ((k, v) :: m')))
    by by rewrite <- (fmap_Permutation fst _ _ Hp).
  simpl in Hnd'. apply NoDup_cons in Hnd' as [Hk Hnd'].
  repeat split; [done | by apply map_get_None |].
  intros k' Hne. rewrite (map_get_perm _ _ k' Hnd Hp). simpl.
  by destruct (String.eqb_spec k' k).
Qed.

(** ** Equality *)

Lemma number_eqb_refl n : number_eqb n n = true.
Proof. destruct n; simpl; by rewrite Z.eqb_refl. Qed.

Lemma value_eqb_obj m m' :
  value_eqb (Obj m) (Obj m') = true <->
  length m = length m' /\
  Forall (fun e => exists y, map_get m' (fst e) = Some y /\ value_eqb (snd e) y = true) m.
Proof.
  cbn [value_eqb]. rewrite andb_true_iff, Nat.eqb_eq.
  assert (Hm : forall m0,
    (fix go (m0 : list (string * Value)) : bool :=
       match m0 with
       | [] => true
       | (k, x) :: r =>
           match map_get m' k with Some y => value_eqb x y | None => false end && go r
       end) m0 = true <->
    Forall (fun e => exists y, map_get m' (fst e) = Some y /\ value_eqb (snd e) y = true) m0);
    [|by rewrite Hm].
  induction m0 as [|[k x] m0 IH]; [split; [constructor | done]|].
  rewrite andb_true_iff, IH, Forall_cons. cbn [fst snd]. split.
  - intros [Hx Hm]. split; [|done]. destruct (map_get m' k) as [y|]; [by exists y | done].
  - intros [(y & -> & Hy) Hm]. by split.
Qed.

(** Two objects with the same entries, in any order, are equal. *)
Lemma value_eqb_perm m m' :
  NoDup (map fst m) -> Forall (fun e => value_eqb (snd e) (snd e) = true) m -> m ≡ₚ m' ->
  value_eqb (Obj m) (Obj m') = true.
Proof.
  intros Hnd Hm Hp. apply value_eqb_obj. split; [by rewrite Hp|].
  rewrite Forall_forall in Hm |- *. intros [k x] Hin. exists x. split; [|by apply (Hm _ Hin)].
  cbn [fst]. rewrite <- (map_get_perm m m' k Hnd Hp). by apply map_get_elem.
Qed.

Lemma value_eqb_refl v : wf_value v -> value_eqb v v = true.
Proof.
  induction v as [| | | |l IH|m IH] using Value_rect_nested; intros Hwf.
  - done.
  - by destruct b.
  - apply number_eqb_refl.
  - apply String.eqb_refl.
  - inv Hwf. match goal with H : Forall wf_value l |- _ => rename H into Hl end.
    simpl. clear -IH Hl. induction l as [|x l IHl]; [done|].
    apply Forall_cons in IH as [Hx IH], Hl as [Wx Hl]. by rewrite Hx, IHl.
  - inv Hwf. apply value_eqb_perm; [done| |done].
    match goal with H : Forall (fun e => wf_value _) _ |- _ => rename H into Hm end.
    rewrite Forall_forall in IH, Hm |- *. intros e He. apply (IH _ He), (Hm _ He).
Qed.

(** ** Well-formedness through updates *)

Lemma wf_insert m k v : wf_value (Obj m) -> wf_value v -> wf_value (Obj (map_insert m k v)).
Proof.
  intros Hm Hv. inv Hm. constructor; [by apply map_insert_NoDup | by apply map_insert_Forall].
Qed.

Lemma wf_get m k v : wf_value (Obj m) -> map_get m k = Some v -> wf_value v.
Proof.
  intros Hm Hg. inv Hm. apply map_get_Some_elem in Hg.
  match goal with H : Forall (fun e => wf_value _) _ |- _ => rename H into Hf end.
  rewrite Forall_forall in Hf. apply (Hf _ Hg).
Qed.
