(* ===== verification/Platform.v ===== *)
(** * Third-party code

    What the enforcement core calls outside the repository, as the fields of
    two interfaces.  [Platform] holds the pure functions: hashing ([sha2],
    [md5]), RFC 8785 canonicalisation ([serde_jcs]), the display form of a JSON
    value, RFC 3339 timestamps ([chrono], an instant is a number of
    nanoseconds), JSON Schema ([jsonschema]) and string similarity ([strsim]).
    [Env] holds what the environment decides while the program runs: clock
    readings (of the handler and of the mandate store), fresh UUIDs, elapsed
    times and database failures, each indexed by a tick that the computation
    advances. *)
From stdpp Require Import base tactics list strings.
From Stdlib Require Import ZArith Lia.
From S2P Require Import Prelude RustStr Json.

Class Platform : Type := {
  sha256_hex : string -> string;
  md5_hex : string -> string;
  (** [serde_jcs::to_string] on a value; [None] is its error, of message
      [jcs_error]. *)
  jcs_to_string : Value -> option string;
  jcs_error : string;
  (** [Value]'s [Display]. *)
  json_to_string : Value -> string;
  (** [DateTime::parse_from_rfc3339], converted to UTC. *)
  parse_rfc3339 : string -> option Z;
  (** The [Display] of its error. *)
  rfc3339_error : string -> string;
  to_rfc3339 : Z -> string;
  (** [Display] of [DateTime<Utc>]. *)
  datetime_display : Z -> string;
  (** The range of [DateTime<Utc>]; arithmetic that leaves it panics. *)
  datetime_min : Z;
  datetime_max : Z;
  (** The range of [Duration::seconds]; an argument outside it panics. *)
  duration_max_secs : Z;
  (** [jsonschema] with retrieval of external documents disabled. *)
  Validator : Type;
  build_validator : Value -> Result Validator string;
  is_valid : Validator -> Value -> bool;
  (** Instance path and message of each violation. *)
  iter_errors : Validator -> Value -> list (string * string);
  (** [strsim::normalized_levenshtein] and the order of [f64]. *)
  Similarity : Type;
  normalized_levenshtein : string -> string -> Similarity;
  sim_threshold : Similarity;
  sim_leb : Similarity -> Similarity -> bool
}.

(** [str::to_lowercase], Unicode's mapping. *)
Class Lowercase : Type := { to_lowercase : string -> string }.

(** RFC 8785: every value has a canonical text, equal values have the same one,
    and two strings with the same text are the same string. *)
Class CanonLaws `{Platform} : Prop := {
  canon_total v : is_Some (jcs_to_string v);
  canon_str_inj a b : jcs_to_string (Str a) = jcs_to_string (Str b) -> a = b;
  canon_respects v w :
    wf_value v -> wf_value w -> value_eqb v w = true -> jcs_to_string v = jcs_to_string w
}.

(** ** Date arithmetic *)

Definition nanos_per_sec : Z := 1000000000.

(** [Duration::seconds(n)]. *)
Definition duration_seconds `{Platform} (n : Z) : Outcome Z :=
  if (Z.abs n <=? duration_max_secs)%Z then Done (n * nanos_per_sec)%Z else Panicked.

(** [DateTime + Duration]; subtraction is addition of the negation. *)
Definition datetime_add `{Platform} (t d : Z) : Outcome Z :=
  if ((datetime_min <=? t + d) && (t + d <=? datetime_max))%Z then Done (t + d)%Z
  else Panicked.

(** ** The environment *)

(** A database statement may fail.  SQLite leaves the failed statement without
    effect; some failures also roll the enclosing transaction back. *)
Record DbFault : Type := mkDbFault {
  df_message : string;
  df_rolls_back : bool
}.

(** Whether a panic unwinds the stack, running destructors, or aborts the
    process (Cargo's [panic] profile setting). *)
Inductive PanicStrategy : Type := Unwind | Abort.

Class Env : Type := {
  env_clock : nat -> Z;
  env_store_clock : nat -> Z;
  env_uuid : nat -> string;
  env_elapsed_ms : nat -> Z;
  env_db_fault : nat -> option DbFault;
  env_panic : PanicStrategy
}.

(** [i64] addition in a release build. *)
Definition i64_max : Z := 2 ^ 63 - 1.
Definition i64_wrap (z : Z) : Z := ((z + 2 ^ 63) mod 2 ^ 64 - 2 ^ 63)%Z.

Lemma i64_wrap_small z : (- 2 ^ 63 <= z <= i64_max)%Z -> i64_wrap z = z.
Proof. unfold i64_wrap, i64_max. intros. rewrite Z.mod_small; lia. Qed.
