(* ===== verification/PolicyTypes.v ===== *)
(** * Policy data

    The types of [crates/assay-core/src/mcp/policy/types.rs] with the structs
    they embed ([identity.rs], [tool_taxonomy.rs], [tool_match.rs],
    [runtime_features.rs], [jsonrpc.rs]).  A [HashMap] is a [gmap]; a
    [BTreeSet<String>] is its strictly increasing list of elements. *)
From stdpp Require Import base tactics list strings gmap.
From Stdlib Require Import ZArith Lia Sorted.
From S2P Require Import Prelude RustStr Json Platform.

(** ** Ordered sets *)

Abbreviation BTreeSet := (list string) (only parsing).

Fixpoint bts_insert (x : string) (s : BTreeSet) : BTreeSet :=
  match s with
  | [] => [x]
  | y :: r =>
      match str_cmp x y with
      | Lt => x :: s
      | Eq => s
      | Gt => y :: bts_insert x r
      end
  end.

Definition bts_contains (s : BTreeSet) (x : string) : bool := existsb (String.eqb x) s.

Definition str_lt (a b : string) : Prop := str_ltb a b = true.

(** The representation invariant: strictly increasing. *)
Definition bts_wf (s : BTreeSet) : Prop := StronglySorted str_lt s.

(** ** Tool identity, taxonomy and matching *)

Record ToolIdentity : Type := mkToolIdentity {
  ti_server_id : string;
  ti_tool_name : string;
  ti_schema_hash : string;
  ti_meta_hash : string
}.
#[global] Instance ToolIdentity_eq_dec : EqDecision ToolIdentity.
Proof. solve_decision. Defined.

(** [compute_json_hash] and [compute_string_hash]. *)
Definition compute_json_hash `{Platform} (val : option Value) : string :=
  match val with
  | Some v => sha256_hex (json_to_string v)
  | None => sha256_hex "null"
  end.

Definition compute_string_hash `{Platform} (s : string) : string := sha256_hex s.

Definition tool_identity_new `{Platform} (server_id tool_name : string)
    (schema : option Value) (description : option string) : ToolIdentity :=
  {| ti_server_id := server_id;
     ti_tool_name := tool_name;
     ti_schema_hash := compute_json_hash schema;
     ti_meta_hash := compute_string_hash (default "" description) |}.

(** [&self.schema_hash[0..8]] panics on a shorter hash. *)
Definition fingerprint (t : ToolIdentity) : Outcome string :=
  h ← slice_to (ti_schema_hash t) 8;
  mret (ti_server_id t +:+ ":" +:+ ti_tool_name t +:+ ":" +:+ h).

Record ToolTaxonomy : Type := mkToolTaxonomy {
  tx_tool_classes : gmap string BTreeSet
}.

Definition classes_for (t : ToolTaxonomy) (tool_name : string) : BTreeSet :=
  default [] (tx_tool_classes t !! tool_name).

Inductive MatchBasis : Type := BasisNone | BasisName | BasisClass | BasisNameAndClass.
#[global] Instance MatchBasis_eq_dec : EqDecision MatchBasis.
Proof. solve_decision. Defined.

Definition match_basis_as_str (b : MatchBasis) : option string :=
  match b with
  | BasisNone => None
  | BasisName => Some "name"
  | BasisClass => Some "class"
  | BasisNameAndClass => Some "name+class"
  end.

Record MatchResult : Type := mkMatchResult {
  mr_matched : bool;
  mr_matched_classes : list string;
  mr_basis : MatchBasis
}.

Record ToolRuleSelector : Type := mkToolRuleSelector {
  trs_name : option string;
  trs_class : option string
}.

Definition selector_matches (sel : ToolRuleSelector) (tool_name : string)
    (tool_classes : BTreeSet) : MatchResult :=
  let name_ok := match trs_name sel with
                 | Some name => String.eqb tool_name name
                 | None => true
                 end in
  let '(class_ok, matched_classes) :=
    match trs_class sel with
    | Some c => if bts_contains tool_classes c then (true, [c]) else (false, [])
    | None => (true, [])
    end in
  let basis := match trs_name sel, trs_class sel with
               | Some _, Some _ => BasisNameAndClass
               | Some _, None => BasisName
               | None, Some _ => BasisClass
               | None, None => BasisNone
               end in
  {| mr_matched := name_ok && class_ok;
     mr_matched_classes := matched_classes;
     mr_basis := basis |}.

(** ** Contracts, obligations and decisions *)

Record RestrictScopeContract : Type := mkRestrictScopeContract {
  rs_scope_type : string;
  rs_scope_value : string;
  rs_scope_match_mode : string
}.
#[global] Instance RestrictScopeContract_eq_dec : EqDecision RestrictScopeContract.
Proof. solve_decision. Defined.

Record RedactArgsContract : Type := mkRedactArgsContract {
  ra_redaction_target : string;
  ra_redaction_mode : string;
  ra_redaction_scope : string
}.
#[global] Instance RedactArgsContract_eq_dec : EqDecision RedactArgsContract.
Proof. solve_decision. Defined.

Record PolicyObligation : Type := mkPolicyObligation {
  ob_obligation_type : string;
  ob_detail : option string;
  ob_restrict_scope : option RestrictScopeContract;
  ob_redact_args : option RedactArgsContract
}.
#[global] Instance PolicyObligation_eq_dec : EqDecision PolicyObligation.
Proof. solve_decision. Defined.

Record ApprovalArtifact : Type := mkApprovalArtifact {
  aa_approval_id : string;
  aa_approver : string;
  aa_issued_at : string;
  aa_expires_at : string;
  aa_scope : string;
  aa_bound_tool : string;
  aa_bound_resource : string
}.

Inductive ApprovalFreshness : Type := AFFresh | AFStale | AFExpired | AFUnknown.
Inductive ToolRiskClass : Type := HighRisk | LowRiskRead | DefaultRisk.
Inductive FailClosedMode : Type := FailClosed | DegradeReadOnly | FailSafeAllow.
Inductive FailClosedTrigger : Type :=
| PolicyEngineUnavailable | ContextProviderUnavailable | RuntimeDependencyError.

Record FailClosedContext : Type := mkFailClosedContext {
  fc_tool_risk_class : ToolRiskClass;
  fc_fail_closed_mode : FailClosedMode;
  fc_fail_closed_trigger : option FailClosedTrigger;
  fc_fail_closed_applied : bool;
  fc_fail_closed_error_code : option string
}.
#[global] Instance FailClosedContext_eta : Eta FailClosedContext := fun r =>
  mkFailClosedContext (fc_tool_risk_class r) (fc_fail_closed_mode r)
    (fc_fail_closed_trigger r) (fc_fail_closed_applied r) (fc_fail_closed_error_code r).

Inductive PolicyDecision : Type :=
| PAllow
| PAllowWithWarning (tool code reason : string)
| PDeny (tool code reason : string) (contract : Value).

Inductive TypedPolicyDecision : Type :=
| TAllow | TAllowWithObligations | TDeny | TDenyWithAlert.
#[global] Instance TypedPolicyDecision_eq_dec : EqDecision TypedPolicyDecision.
Proof. solve_decision. Defined.

Record PolicyMatchMetadata : Type := mkPolicyMatchMetadata {
  pm_tool_classes : list string;
  pm_matched_tool_classes : list string;
  pm_match_basis : MatchBasis;
  pm_matched_rule : option string;
  pm_typed_decision : option TypedPolicyDecision;
  pm_policy_version : option string;
  pm_policy_digest : option string;
  pm_obligations : list PolicyObligation;
  pm_approval_state : option string;
  pm_approval_artifact : option ApprovalArtifact;
  pm_approval_freshness : option ApprovalFreshness;
  pm_approval_failure_reason : option string;
  pm_scope_type : option string;
  pm_scope_value : option string;
  pm_scope_match_mode : option string;
  pm_scope_evaluation_state : option string;
  pm_scope_failure_reason : option string;
  pm_restrict_scope_present : option bool;
  pm_restrict_scope_target : option string;
  pm_restrict_scope_match : option bool;
  pm_restrict_scope_reason : option string;
  pm_redaction_target : option string;
  pm_redaction_mode : option string;
  pm_redaction_scope : option string;
  pm_redaction_applied_state : option string;
  pm_redaction_reason : option string;
  pm_redaction_failure_reason : option string;
  pm_redact_args_present : option bool;
  pm_redact_args_target : option string;
  pm_redact_args_mode : option string;
  pm_redact_args_result : option string;
  pm_redact_args_reason : option string;
  pm_fail_closed : option FailClosedContext;
  pm_lane : option string;
  pm_principal : option string;
  pm_auth_context_summary : option string;
  pm_auth_scheme : option string;
  pm_auth_issuer : option string;
  pm_delegated_from : option string;
  pm_delegation_depth : option Z
}.
#[global] Instance PolicyMatchMetadata_eta : Eta PolicyMatchMetadata := fun r =>
  mkPolicyMatchMetadata (pm_tool_classes r) (pm_matched_tool_classes r) (pm_match_basis r)
    (pm_matched_rule r) (pm_typed_decision r) (pm_policy_version r)
    (pm_policy_digest r) (pm_obligations r) (pm_approval_state r)
    (pm_approval_artifact r) (pm_approval_freshness r)
    (pm_approval_failure_reason r) (pm_scope_type r) (pm_scope_value r)
    (pm_scope_match_mode r) (pm_scope_evaluation_state r)
    (pm_scope_failure_reason r) (pm_restrict_scope_present r)
    (pm_restrict_scope_target r) (pm_restrict_scope_match r)
    (pm_restrict_scope_reason r) (pm_redaction_target r) (pm_redaction_mode r)
    (pm_redaction_scope r) (pm_redaction_applied_state r) (pm_redaction_reason r)
    (pm_redaction_failure_reason r) (pm_redact_args_present r)
    (pm_redact_args_target r) (pm_redact_args_mode r) (pm_redact_args_result r)
    (pm_redact_args_reason r) (pm_fail_closed r) (pm_lane r) (pm_principal r)
    (pm_auth_context_summary r) (pm_auth_scheme r) (pm_auth_issuer r)
    (pm_delegated_from r) (pm_delegation_depth r).

(** [PolicyMatchMetadata::default()]. *)
Definition policy_match_metadata_default : PolicyMatchMetadata :=
  mkPolicyMatchMetadata [] [] BasisNone None None None None [] None None
    None None None None None None None None None None None None None None
    None None None None None None None None None None None None None None
    None None.

Record PolicyEvaluation : Type := mkPolicyEvaluation {
  pe_decision : PolicyDecision;
  pe_metadata : PolicyMatchMetadata
}.

(** ** Runtime features *)

Inductive DiscoveryMethod : Type :=
| ConfigFiles | Processes | Network | Dns | WellKnown.
Inductive ActionLevel : Type := ActLog | ActWarn | ActFail.

Record DiscoveryActions : Type := mkDiscoveryActions {
  da_unmanaged_server : ActionLevel;
  da_no_auth : ActionLevel
}.

Record DiscoveryConfig : Type := mkDiscoveryConfig {
  dc_enabled : bool;
  dc_methods : list DiscoveryMethod;
  dc_output : option string;
  dc_on_findings : DiscoveryActions
}.

Inductive MonitorMode : Type := CgroupV2 | PidSet.

Record CgroupConfig : Type := mkCgroupConfig {
  cg_freeze_on_incident : bool;
  cg_create_leaf : bool;
  cg_name_prefix : string;
  cg_cleanup : bool;
  cg_pids_max : Z
}.

Record MonitorScopeConfig : Type := mkMonitorScopeConfig {
  ms_mode : MonitorMode;
  ms_cgroup : CgroupConfig
}.

Inductive MonitorProvider : Type := Ebpf.
Inductive Severity : Type := SevLow | SevMedium | SevHigh | SevCritical.
Inductive MonitorRuleType : Type := FileOpen | NetConnect | ProcExec.
Inductive MonitorAction : Type := MonLog | MonAlert | MonDeny | MonTriggerKill.

Inductive MonitorMatch : Type := mkMonitorMatch {
  mm_path_globs : list string;
  mm_dest_globs : list string;
  mm_not : option MonitorMatch
}.

Record MonitorRule : Type := mkMonitorRule {
  mru_id : string;
  mru_rule_type : MonitorRuleType;
  mru_match_config : MonitorMatch;
  mru_severity : Severity;
  mru_action : MonitorAction
}.

Record RuntimeMonitorConfig : Type := mkRuntimeMonitorConfig {
  rm_enabled : bool;
  rm_provider : MonitorProvider;
  rm_scope : MonitorScopeConfig;
  rm_rules : list MonitorRule
}.

Inductive KillMode : Type := Graceful | Immediate.
Inductive KillScope : Type := Cgroup | PidFd | LegacyPid.

Record KillTrigger : Type := mkKillTrigger {
  kt_on_rule : string;
  kt_mode : option KillMode
}.

Record KillSwitchConfig : Type := mkKillSwitchConfig {
  ks_enabled : bool;
  ks_mode : KillMode;
  ks_kill_scope : KillScope;
  ks_grace_period_ms : Z;
  ks_kill_children : bool;
  ks_capture_state : bool;
  ks_output_dir : option string;
  ks_triggers : list KillTrigger
}.

(** ** The policy *)

Inductive UnconstrainedMode : Type := UWarn | UDeny | UAllow.

Record EnforcementSettings : Type := mkEnforcementSettings {
  es_unconstrained_tools : UnconstrainedMode
}.

Definition enforcement_default : EnforcementSettings :=
  {| es_unconstrained_tools := UWarn |}.

Record SignaturePolicy : Type := mkSignaturePolicy { sp_check_descriptions : bool }.

Record GlobalLimits : Type := mkGlobalLimits {
  gl_max_requests_total : option Z;
  gl_max_tool_calls_total : option Z
}.

Record ConstraintParam : Type := mkConstraintParam { cp_matches : option string }.

(** [params] is a [BTreeMap]: pairs in increasing order of key. *)
Record ConstraintRule : Type := mkConstraintRule {
  cr_tool : string;
  cr_params : list (string * ConstraintParam)
}.

Record ToolPolicy : Type := mkToolPolicy {
  tp_allow : option (list string);
  tp_deny : option (list string);
  tp_allow_classes : option (list string);
  tp_deny_classes : option (list string);
  tp_approval_required : option (list string);
  tp_approval_required_classes : option (list string);
  tp_restrict_scope : option (list string);
  tp_restrict_scope_classes : option (list string);
  tp_restrict_scope_contract : option RestrictScopeContract;
  tp_redact_args : option (list string);
  tp_redact_args_classes : option (list string);
  tp_redact_args_contract : option RedactArgsContract
}.
#[global] Instance ToolPolicy_eta : Eta ToolPolicy := fun r =>
  mkToolPolicy (tp_allow r) (tp_deny r) (tp_allow_classes r) (tp_deny_classes r)
    (tp_approval_required r) (tp_approval_required_classes r)
    (tp_restrict_scope r) (tp_restrict_scope_classes r)
    (tp_restrict_scope_contract r) (tp_redact_args r)
    (tp_redact_args_classes r) (tp_redact_args_contract r).

Definition tool_policy_default : ToolPolicy :=
  mkToolPolicy None None None None None None None None None None None None.

(** [McpPolicy].  The [compiled] cell memoises [compile_all_schemas] of
    [schemas] and is not a field here. *)
Record McpPolicy : Type := mkMcpPolicy {
  mp_version : string;
  mp_name : string;
  mp_tools : ToolPolicy;
  mp_allow : option (list string);
  mp_deny : option (list string);
  mp_schemas : gmap string Value;
  mp_constraints : list ConstraintRule;
  mp_enforcement : EnforcementSettings;
  mp_limits : option GlobalLimits;
  mp_signatures : option SignaturePolicy;
  mp_tool_pins : gmap string ToolIdentity;
  mp_tool_taxonomy : ToolTaxonomy;
  mp_discovery : option DiscoveryConfig;
  mp_runtime_monitor : option RuntimeMonitorConfig;
  mp_kill_switch : option KillSwitchConfig
}.
#[global] Instance McpPolicy_eta : Eta McpPolicy := fun r =>
  mkMcpPolicy (mp_version r) (mp_name r) (mp_tools r) (mp_allow r) (mp_deny r)
    (mp_schemas r) (mp_constraints r) (mp_enforcement r) (mp_limits r)
    (mp_signatures r) (mp_tool_pins r) (mp_tool_taxonomy r) (mp_discovery r)
    (mp_runtime_monitor r) (mp_kill_switch r).

(** [McpPolicy::default()]. *)
Definition mcp_policy_default : McpPolicy :=
  {| mp_version := ""; mp_name := ""; mp_tools := tool_policy_default;
     mp_allow := None; mp_deny := None; mp_schemas := ∅; mp_constraints := [];
     mp_enforcement := enforcement_default; mp_limits := None;
     mp_signatures := None; mp_tool_pins := ∅;
     mp_tool_taxonomy := {| tx_tool_classes := ∅ |};
     mp_discovery := None; mp_runtime_monitor := None; mp_kill_switch := None |}.

(** The counters an evaluation advances. *)
Record PolicyState : Type := mkPolicyState {
  ps_requests_count : Z;
  ps_tool_calls_count : Z
}.
#[global] Instance PolicyState_eta : Eta PolicyState := fun r =>
  mkPolicyState (ps_requests_count r) (ps_tool_calls_count r).

Definition policy_state_default : PolicyState :=
  {| ps_requests_count := 0; ps_tool_calls_count := 0 |}.

(** ** JSON-RPC requests *)

Record JsonRpcRequest : Type := mkJsonRpcRequest {
  jr_jsonrpc : string;
  jr_id : option Value;
  jr_method : string;
  jr_params : Value
}.

Record CallToolParams : Type := mkCallToolParams {
  ctp_name : string;
  ctp_arguments : Value
}.

Definition is_tool_call (r : JsonRpcRequest) : bool := String.eqb (jr_method r) "tools/call".

(** [serde_json::from_value::<CallToolParams>]: an object with a string [name]
    and an optional [arguments], or the two fields in sequence. *)
Definition call_tool_params_of_value (v : Value) : option CallToolParams :=
  match v with
  | Obj m =>
      match map_get m "name" with
      | Some (Str name) =>
          Some {| ctp_name := name; ctp_arguments := default Null (map_get m "arguments") |}
      | _ => None
      end
  | Arr [Str name] => Some {| ctp_name := name; ctp_arguments := Null |}
  | Arr [Str name; args] => Some {| ctp_name := name; ctp_arguments := args |}
  | _ => None
  end.

Definition tool_params (r : JsonRpcRequest) : option CallToolParams :=
  if is_tool_call r then call_tool_params_of_value (jr_params r) else None.

(** ** Ordered-set lemmas *)

Lemma bts_contains_spec s x : bts_contains s x = true <-> x ∈ s.
Proof.
  unfold bts_contains. rewrite existsb_true. split.
  - intros (y & Hy & E). by apply String.eqb_eq in E as ->.
  - intros Hx. exists x. by rewrite String.eqb_refl.
Qed.

Lemma bts_insert_elem x s y : y ∈ bts_insert x s <-> y = x \/ y ∈ s.
Proof.
  induction s as [|z s IH]; simpl; [by rewrite list_elem_of_singleton, elem_of_nil; naive_solver|].
  destruct (str_cmp x z) eqn:E; rewrite !elem_of_cons, ?IH.
  - apply str_cmp_eq in E as ->. naive_solver.
  - naive_solver.
  - naive_solver.
Qed.

Lemma bts_insert_wf x s : bts_wf s -> bts_wf (bts_insert x s).
Proof.
  unfold bts_wf. induction s as [|z s IH]; simpl; intros Hs; [by repeat constructor|].
  apply StronglySorted_inv in Hs as [Hs Hz].
  destruct (str_cmp x z) eqn:E.
  - by constructor.
  - constructor; [by constructor|]. constructor; [by apply str_ltb_lt|].
    eapply Forall_impl; [exact Hz|]. intros y Hy. eapply str_ltb_trans; [|exact Hy].
    by apply str_ltb_lt.
  - constructor; [by apply IH|]. apply Forall_forall. intros y Hy.
    apply bts_insert_elem in Hy as [->|Hy]; [|by eapply Forall_forall in Hz].
    apply str_ltb_lt. rewrite str_cmp_antisym, E. done.
Qed.

