(* ===== verification/ToolPattern.v ===== *)
(** * Tool-name patterns

    [matches_tool_pattern] of [crates/assay-common/src/tool_pattern.rs], the
    pattern language of [tools.allow] and [tools.deny], against the table of
    forms its documentation gives, stated as an inductive relation. *)
From stdpp Require Import base tactics list strings.
From Stdlib Require Import Ascii ZArith Lia.
From S2P Require Import Prelude RustStr.

Definition star : ascii := "*"%char.
Definition star_str : string := String star EmptyString.

Definition matches_tool_pattern (tool_name pattern : string) : bool :=
  if negb (contains_char pattern star) then String.eqb tool_name pattern
  else
    let starts_star := starts_with pattern star_str in
    let ends_star := ends_with pattern star_str in
    match starts_star, ends_star with
    | true, true =>
        let inner := trim_matches star pattern in
        if str_is_empty inner then true else str_contains tool_name inner
    | false, true =>
        let prefix := trim_end_matches star pattern in
        negb (str_is_empty prefix) && starts_with tool_name prefix
    | true, false =>
        let suffix := trim_start_matches star pattern in
        negb (str_is_empty suffix) && ends_with tool_name suffix
    | false, false => String.eqb tool_name pattern
    end.

(** ** The documented forms *)

Fixpoint rep (c : ascii) (n : nat) : string :=
  match n with O => EmptyString | S n' => String c (rep c n') end.

(** A core is what remains between the outer asterisks: non-empty, and neither
    its first nor its last character is one (an inner one is a literal). *)
Definition core (p : string) : Prop :=
  p <> EmptyString /\ starts_with p star_str = false /\ ends_with p star_str = false.

(** [PatternMatches pattern name]. *)
Inductive PatternMatches : string -> string -> Prop :=
| PM_every k name : PatternMatches (rep star (S k)) name
| PM_prefix p k t : core p -> PatternMatches (p +:+ rep star (S k)) (p +:+ t)
| PM_suffix p k t : core p -> PatternMatches (rep star (S k) +:+ p) (t +:+ p)
| PM_substring p j k l r :
    core p ->
    PatternMatches (rep star (S j) +:+ (p +:+ rep star (S k))) (l +:+ (p +:+ r))
| PM_exact p :
    starts_with p star_str = false -> ends_with p star_str = false ->
    PatternMatches p p.

(** ** Trimming *)

Lemma ends_with_char_cons c a s :
  ends_with (String a s) (String c EmptyString) =
  match s with
  | EmptyString => Ascii.eqb a c
  | _ => ends_with s (String c EmptyString)
  end.
Proof.
  destruct s as [|b s]; cbn [ends_with].
  - unfold String.eqb. by destruct (Ascii.eqb a c).
  - replace (String.eqb (String a (String b s)) (String c EmptyString)) with false; [done|].
    symmetry. apply String.eqb_neq. congruence.
Qed.

Lemma ends_with_app_rep c p k : ends_with (p +:+ rep c (S k)) (String c EmptyString) = true.
Proof.
  apply ends_with_spec. exists (p +:+ rep c k). rewrite <- string_app_assoc. f_equal.
  induction k as [|k IH]; [done|]. simpl in *. by f_equal.
Qed.

Lemma trim_end_decomp c s :
  exists k, s = trim_end_matches c s +:+ rep c k /\
            ends_with (trim_end_matches c s) (String c EmptyString) = false.
Proof.
  induction s as [|a s (k & Hs & He)]; [by exists 0|].
  cbn [trim_end_matches]. destruct (trim_end_matches c s) as [|b t] eqn:E; cbn [str_is_empty].
  - destruct (Ascii.eqb_spec a c) as [->|Hne]; cbn [andb].
    + exists (S k). simpl in *. by subst s.
    + exists k. split; [simpl in *; by f_equal|]. rewrite ends_with_char_cons.
      by apply Ascii.eqb_neq.
  - cbn [andb]. exists k. split; [simpl in *; by f_equal|]. by rewrite ends_with_char_cons.
Qed.

Lemma trim_start_decomp c s :
  exists k, s = rep c k +:+ trim_start_matches c s /\
            starts_with (trim_start_matches c s) (String c EmptyString) = false.
Proof.
  induction s as [|a s (k & Hs & Hb)]; [by exists 0|].
  cbn [trim_start_matches]. destruct (Ascii.eqb_spec a c) as [->|Hne].
  - exists (S k). simpl. split; [by f_equal | done].
  - exists 0. split; [done|]. cbn [starts_with]. rewrite andb_true_r.
    apply Ascii.eqb_neq. congruence.
Qed.

Lemma trim_end_rep c p k :
  ends_with p (String c EmptyString) = false -> trim_end_matches c (p +:+ rep c k) = p.
Proof.
  induction p as [|a p IH]; intros Hp.
  - induction k as [|k IHk]; [done|]. simpl in *. by rewrite IHk, Ascii.eqb_refl.
  - cbn. rewrite ends_with_char_cons in Hp. destruct p as [|b p].
    + replace (trim_end_matches c (EmptyString +:+ rep c k)) with EmptyString.
      * simpl. by rewrite Hp.
      * symmetry. by apply IH.
    + change (match k with 0 => _ | S n' => _ end) with (rep c k).
      rewrite IH by done. done.
Qed.

Lemma trim_start_rep c p k :
  starts_with p (String c EmptyString) = false -> trim_start_matches c (rep c k +:+ p) = p.
Proof.
  intros Hp. induction k as [|k IH]; simpl.
  - destruct p as [|a p]; [done|]. cbn in *. rewrite andb_true_r in Hp.
    rewrite Ascii.eqb_sym, Hp. done.
  - by rewrite Ascii.eqb_refl.
Qed.

Lemma contains_char_rep c k : contains_char (rep c (S k)) c = true.
Proof. unfold contains_char. simpl. by rewrite Ascii.eqb_refl. Qed.

Lemma no_star_edges p :
  contains_char p star = false ->
  starts_with p star_str = false /\ ends_with p star_str = false.
Proof.
  intros Hc. split; apply not_true_iff_false; intros H.
  - apply starts_with_spec in H as [t ->]. by rewrite contains_char_app in Hc.
  - apply ends_with_spec in H as [t ->]. rewrite contains_char_app in Hc.
    by rewrite orb_true_r in Hc.
Qed.

Lemma starts_with_app_false p q :
  p <> EmptyString -> starts_with (p +:+ q) star_str = starts_with p star_str.
Proof. destruct p as [|a p]; [done|]. intros _. simpl. by rewrite !andb_true_r. Qed.

Lemma ends_with_app_false p q :
  q <> EmptyString -> ends_with (p +:+ q) star_str = ends_with q star_str.
Proof.
  intros Hq. induction p as [|a p IH]; [done|].
  change (String a p +:+ q) with (String a (p +:+ q)).
  unfold star_str in *. rewrite ends_with_char_cons, IH.
  by destruct p; [destruct q|].
Qed.

Lemma rep_S_ne c k : rep c (S k) <> EmptyString.
Proof. done. Qed.

Lemma rep_starts k : starts_with (rep star (S k)) star_str = true.
Proof. done. Qed.

(** ** Correctness of the matcher *)

Lemma pattern_matches_sound name pattern :
  matches_tool_pattern name pattern = true -> PatternMatches pattern name.
Proof.
  unfold matches_tool_pattern. destruct (contains_char pattern star) eqn:Hc; cbn [negb]; cbv zeta.
  2:{ intros ->%String.eqb_eq. apply no_star_edges in Hc as []. by apply PM_exact. }
  destruct (trim_end_decomp star pattern) as (k & Hk & He).
  destruct (trim_start_decomp star pattern) as (j & Hj & Hs).
  destruct (starts_with pattern star_str) eqn:Est, (ends_with pattern star_str) eqn:Een.
  - unfold trim_matches.
    destruct (trim_end_decomp star (trim_start_matches star pattern)) as (k' & Hk' & He').
    destruct j as [|j]; [simpl in Hj; rewrite <- Hj in Hs; by unfold star_str in Est; rewrite Est in Hs|].
    destruct (str_is_empty _) eqn:Em.
    + apply str_is_empty_true in Em. rewrite Em in Hk'. intros _. simpl in Hk'.
      rewrite Hj, Hk'. replace (rep star (S j) +:+ rep star k') with (rep star (S (j + k'))).
      * apply PM_every.
      * clear. simpl. f_equal. induction j as [|j IH]; [done|]. simpl. by f_equal.
    + apply str_is_empty_false in Em. intros (l & r & ->)%str_contains_spec.
      destruct k' as [|k'].
      { exfalso. simpl in Hk'. rewrite string_app_nil_r in Hk'. rewrite <- Hk' in He', Em.
        rewrite Hj, ends_with_app_false in Een by done. unfold star_str in Een. congruence. }
      rewrite Hj at 1. rewrite Hk' at 1. apply PM_substring. split; [done|]. split; [|done].
      rewrite Hk' in Hs. rewrite <- (starts_with_app_false _ (rep star (S k')) Em). exact Hs.
  - intros [Hne Hx]%andb_true_iff. apply negb_true_iff, str_is_empty_false in Hne.
    apply ends_with_spec in Hx as [t ->].
    destruct j as [|j]; [simpl in Hj; rewrite <- Hj in Hs; by unfold star_str in Est; rewrite Est in Hs|].
    rewrite Hj at 1. apply PM_suffix. split; [done|]. split; [done|].
    rewrite <- (ends_with_app_false (rep star (S j)) _ Hne), <- Hj. done.
  - intros [Hne Hx]%andb_true_iff. apply negb_true_iff, str_is_empty_false in Hne.
    apply starts_with_spec in Hx as [t ->].
    destruct k as [|k].
    { simpl in Hk. rewrite string_app_nil_r in Hk. rewrite <- Hk in He.
      unfold star_str in Een. congruence. }
    rewrite Hk at 1. apply PM_prefix. split; [done|]. split; [|done].
    rewrite <- (starts_with_app_false _ (rep star (S k)) Hne), <- Hk. done.
  - intros ->%String.eqb_eq. by apply PM_exact.
Qed.

Lemma pattern_matches_complete name pattern :
  PatternMatches pattern name -> matches_tool_pattern name pattern = true.
Proof.
  unfold matches_tool_pattern.
  destruct 1 as [k name|p k t (Hne & Hs & He)|p k t (Hne & Hs & He)
                |p j k l r (Hne & Hs & He)|p Hs He].
  - rewrite contains_char_rep. cbv zeta. rewrite rep_starts.
    rewrite (ends_with_app_rep star EmptyString k : ends_with (rep star (S k)) star_str = true).
    replace (trim_matches star (rep star (S k))) with EmptyString; [done|].
    unfold trim_matches. symmetry.
    pose proof (trim_start_rep star EmptyString (S k) eq_refl) as E.
    rewrite string_app_nil_r in E. by rewrite E.
  - rewrite contains_char_app, contains_char_rep, orb_true_r. cbv zeta.
    rewrite (starts_with_app_false _ _ Hne), Hs.
    rewrite (ends_with_app_rep star p k : ends_with _ star_str = true).
    cbn [negb]. rewrite trim_end_rep by done.
    apply andb_true_iff. split; [by apply negb_true_iff, str_is_empty_false|].
    apply starts_with_spec. by exists t.
  - rewrite contains_char_app, contains_char_rep. cbv zeta.
    rewrite (starts_with_app_false _ _ (rep_S_ne _ _)), (ends_with_app_false _ _ Hne), He.
    rewrite rep_starts. cbn [negb orb]. rewrite trim_start_rep by done.
    apply andb_true_iff. split; [by apply negb_true_iff, str_is_empty_false|].
    apply ends_with_spec. by exists t.
  - rewrite contains_char_app, contains_char_rep. cbv zeta.
    rewrite (starts_with_app_false _ _ (rep_S_ne _ _)), rep_starts.
    rewrite (string_app_assoc (rep star (S j))).
    rewrite (ends_with_app_rep star _ k : ends_with _ star_str = true). cbn [negb orb].
    unfold trim_matches. rewrite <- (string_app_assoc (rep star (S j))), trim_start_rep
      by (rewrite (starts_with_app_false _ _ Hne : starts_with _ (String star EmptyString) = _); done).
    rewrite trim_end_rep by done. rewrite (proj2 (str_is_empty_false p) Hne).
    apply str_contains_spec. by exists l, r.
  - destruct (contains_char p star); cbv zeta; cbn [negb]; rewrite ?Hs, ?He; apply String.eqb_refl.
Qed.

#[export] Hint Resolve pattern_matches_sound pattern_matches_complete : assay.

(** The tool-pattern matcher decides the declarative pattern language: only
    stars at the ends of a pattern are wildcards (a leading run, a trailing run
    or both), a pattern of stars alone matches every name, and any other
    pattern, inner stars included, is matched literally. *)
Theorem matches_tool_pattern_iff name pattern :
  matches_tool_pattern name pattern = true <-> PatternMatches pattern name.
Proof. split; auto with assay. Qed.
