(* ===== verification/PolicySchema.v ===== *)
(** * Argument schemas and policy loading

    [crates/assay-core/src/policy_engine.rs] (preparation and compilation of
    per-tool JSON Schemas, one-shot and compile-once evaluation), and
    [mcp/policy/schema.rs], [legacy.rs] and the declared view of [mod.rs]
    (which keys are tools, migration of legacy constraints, load-time
    normalisation and validation).  The JSON Schema engine is [Platform]'s. *)
From stdpp Require Import base tactics list strings gmap.
From Stdlib Require Import ZArith Lia.
From S2P Require Import Prelude RustStr Json Platform PolicyTypes.

Section Schemas.
Context `{Platform}.

(** ** policy_engine.rs *)

Inductive VerdictStatus : Type := Allowed | Blocked.
Record Verdict : Type := mkVerdict {
  vd_status : VerdictStatus;
  vd_reason_code : string;
  vd_details : Value
}.

Definition compile_schema (schema : Value) : Result Validator string :=
  build_validator schema.

Definition shared_defs (schemas : Map) : Result (option Map) string :=
  match map_get schemas "$defs" with
  | Some (Obj defs) => Ok (Some defs)
  | Some _ => Err "shared $defs must be a mapping"
  | None => Ok None
  end.

Definition validate_unscoped_shared_defs (root_defs : Map) : Result () string :=
  match compile_schema (Obj [("$defs", Obj root_defs)]) with
  | Ok _ => Ok ()
  | Err error => Err ("shared $defs failed to compile: " +:+ error)
  end.

(** The loop that merges shared definitions into the tool's own. *)
Fixpoint merge_defs (root_defs local_defs : Map) : Result Map string :=
  match root_defs with
  | [] => Ok local_defs
  | (name, definition) :: r =>
      if map_contains_key local_defs name
      then Err "shared and tool-local $defs entries must not overlap"
      else merge_defs r (map_insert local_defs name definition)
  end.

Definition prepare_tool_schema (policy : Value) (tool : string) : Result Value string :=
  match as_object policy with
  | None => Err "policy must be a tool-name-to-schema mapping"
  | Some schemas =>
      match shared_defs schemas with
      | Err e => Err e
      | Ok root_defs =>
          match map_get schemas tool with
          | None => Err ("tool '" +:+ tool +:+ "' is not present")
          | Some schema =>
              match root_defs with
              | None => Ok schema
              | Some root_defs =>
                  match schema with
                  | Obj schema_object =>
                      match map_get schema_object "$defs" with
                      | Some (Obj defs) =>
                          match merge_defs root_defs defs with
                          | Ok defs' => Ok (Obj (map_insert schema_object "$defs" (Obj defs')))
                          | Err e => Err e
                          end
                      | Some _ => Err "tool-local $defs must be a mapping"
                      | None => Ok (Obj (map_insert schema_object "$defs" (Obj root_defs)))
                      end
                  | VBool _ =>
                      match validate_unscoped_shared_defs root_defs with
                      | Ok _ => Ok schema
                      | Err e => Err e
                      end
                  | _ => Ok schema
                  end
              end
          end
      end
  end.

(** Prepare, then compile: [and_then] of the two. *)
Definition prepare_and_compile (policy : Value) (tool : string) : Result Validator string :=
  match prepare_tool_schema policy tool with
  | Ok schema => compile_schema schema
  | Err e => Err e
  end.

Fixpoint prepare_all (policy : Value) (tools : list string) (prepared : Map)
    : Result Value string :=
  match tools with
  | [] => Ok (Obj prepared)
  | tool :: r =>
      match prepare_tool_schema policy tool with
      | Ok schema => prepare_all policy r (map_insert prepared tool schema)
      | Err e => Err e
      end
  end.

Definition tool_keys (schemas : Map) : list string :=
  List.filter (fun k => negb (String.eqb k "$defs")) (map fst schemas).

Definition prepare_schema_map (policy : Value) : Result Value string :=
  match as_object policy with
  | None => Ok policy
  | Some schemas =>
      match shared_defs schemas with
      | Err e => Err e
      | Ok root_defs =>
          let has_object_tool :=
            existsb (fun e => negb (String.eqb (fst e) "$defs") && is_object (snd e)) schemas in
          match (match root_defs with
                 | Some d => if has_object_tool then Ok () else validate_unscoped_shared_defs d
                 | None => Ok ()
                 end) with
          | Err e => Err e
          | Ok _ => prepare_all policy (tool_keys schemas) []
          end
      end
  end.

Definition schema_compile_error (tool_name error : string) : Verdict :=
  {| vd_status := Blocked;
     vd_reason_code := "E_SCHEMA_COMPILE";
     vd_details := Obj [("message",
       Str ("Invalid schema for tool '" +:+ tool_name +:+ "': " +:+ error))] |}.

Definition evaluate_schema (compiled : Validator) (tool_args : Value) : Verdict :=
  if is_valid compiled tool_args
  then {| vd_status := Allowed; vd_reason_code := "OK"; vd_details := Obj [] |}
  else
    {| vd_status := Blocked;
       vd_reason_code := "E_ARG_SCHEMA";
       vd_details := Obj [("violations",
         Arr (map (fun e => Obj [("path", Str (fst e)); ("constraint", Str (snd e));
                                 ("message", Str (snd e))])
                  (iter_errors compiled tool_args)))] |}.

(** [errors/similarity.rs]: the first candidate of greatest similarity above
    the threshold. *)
Definition closest_prompt (needle : string) (hay : list string) : option (string * Similarity) :=
  foldl (fun best candidate =>
    let sim := normalized_levenshtein needle candidate in
    if sim_leb sim_threshold sim &&
       (match best with None => true | Some (_, b) => negb (sim_leb sim b) end)
    then Some (candidate, sim) else best) None hay.

Definition missing_tool_verdict (tool_name : string) (tools : list string) : Verdict :=
  {| vd_status := Blocked;
     vd_reason_code := "E_POLICY_MISSING_TOOL";
     vd_details := Obj [("message",
       Str ("Tool '" +:+ tool_name +:+ "' not defined in policy" +:+
            match closest_prompt tool_name tools with
            | Some (prompt, _) => ". Did you mean '" +:+ prompt +:+ "'?"
            | None => ""
            end))] |}.

Definition evaluate_tool_args (policy : Value) (tool_name : string) (tool_args : Value)
    : Verdict :=
  let found := match as_object policy with
               | Some schemas => opt_filter (fun _ => negb (String.eqb tool_name "$defs"))
                                   (map_get schemas tool_name)
               | None => None
               end in
  match found with
  | None => missing_tool_verdict tool_name
              (match as_object policy with Some obj => tool_keys obj | None => [] end)
  | Some _ =>
      match prepare_tool_schema policy tool_name with
      | Err error => schema_compile_error tool_name error
      | Ok schema_val =>
          match compile_schema schema_val with
          | Err e => schema_compile_error tool_name e
          | Ok compiled => evaluate_schema compiled tool_args
          end
      end
  end.

(** The compile-once form, [policy_engine::PolicyState]. *)
Record CompiledPolicy : Type := mkCompiledPolicy {
  cpl_validators : gmap string (Result Validator string);
  cpl_tool_names : list string
}.

Definition compiled_policy_compile (policy : Value) : CompiledPolicy :=
  let tool_names := match as_object policy with
                    | Some schemas => tool_keys schemas
                    | None => []
                    end in
  {| cpl_validators :=
       foldl (fun m tool => <[tool := prepare_and_compile policy tool]> m) ∅ tool_names;
     cpl_tool_names := tool_names |}.

Definition compiled_policy_evaluate (self : CompiledPolicy) (tool_name : string)
    (tool_args : Value) : Verdict :=
  if negb (existsb (fun tool => String.eqb tool tool_name) (cpl_tool_names self))
  then missing_tool_verdict tool_name (cpl_tool_names self)
  else
    match cpl_validators self !! tool_name with
    | None => schema_compile_error tool_name "schema preparation produced no validator"
    | Some (Err e) => schema_compile_error tool_name e
    | Some (Ok compiled) => evaluate_schema compiled tool_args
    end.

(** ** mcp/policy/schema.rs *)

Inductive ArgsCheck : Type := NoSchema | Valid | Invalid | Malformed.

Abbreviation CompiledSchemas := (gmap string (Result Validator string)).

Definition schemas_value (policy : McpPolicy) : Value := Obj (map_to_list (mp_schemas policy)).

Definition compile_all_schemas (policy : McpPolicy) : CompiledSchemas :=
  map_imap (fun tool_name _ =>
    if String.eqb tool_name "$defs" then None
    else Some (prepare_and_compile (schemas_value policy) tool_name)) (mp_schemas policy).

Definition check_tool_args (policy : McpPolicy) (tool_name : string) (args : Value)
    : ArgsCheck :=
  if String.eqb tool_name "$defs" || negb (opt_is_some (mp_schemas policy !! tool_name))
  then NoSchema
  else
    match prepare_tool_schema (schemas_value policy) tool_name with
    | Err _ => Malformed
    | Ok schema_to_compile =>
        match compile_schema schema_to_compile with
        | Ok validator => if is_valid validator args then Valid else Invalid
        | Err _ => Malformed
        end
    end.

(** [try_compile_all_schemas]: the tools that fail, as messages. *)
Definition broken_tools (policy : McpPolicy) : list string :=
  omap (fun e => match snd e with
                 | Ok _ => None
                 | Err error => Some ("tool '" +:+ fst e +:+ "': " +:+ error)
                 end) (map_to_list (compile_all_schemas policy)).

Definition try_compile_all_schemas (policy : McpPolicy) : Result (gmap string Validator) string :=
  let errors := broken_tools policy in
  if is_nil errors
  then Ok (omap (fun r => match r with Ok v => Some v | Err _ => None end)
             (compile_all_schemas policy))
  else Err (str_join "; " (str_sort errors)).

Definition constraint_to_schema (constraint : ConstraintRule) : Value :=
  let '(properties, required) :=
    foldl (fun '(props, req) '(param_name, param_constraint) =>
      match cp_matches param_constraint with
      | Some pattern =>
          (map_insert props param_name
             (Obj [("type", Str "string"); ("pattern", Str pattern);
                   ("minLength", Num (PosInt 1))]),
           req ++ [param_name])
      | None => (props, req)
      end) ([], []) (cr_params constraint) in
  Obj [("type", Str "object"); ("additionalProperties", VBool true);
       ("properties", Obj properties); ("required", Arr (map Str required))].

Definition migrate_constraints_to_schemas (policy : McpPolicy) : McpPolicy :=
  let schemas := foldl (fun m c => <[cr_tool c := constraint_to_schema c]> m)
                   (mp_schemas policy) (mp_constraints policy) in
  let version := if str_is_empty (mp_version policy) || String.eqb (mp_version policy) "1.0"
                 then "2.0" else mp_version policy in
  policy <| mp_constraints := [] |> <| mp_schemas := schemas |> <| mp_version := version |>.

(** ** mcp/policy/legacy.rs *)

Definition validate (policy : McpPolicy) : Result () string :=
  match mp_runtime_monitor policy, mp_kill_switch policy with
  | Some rm, Some ks =>
      let rule_ids := map mru_id (rm_rules rm) in
      match List.find (fun t => negb (existsb (String.eqb (kt_on_rule t)) rule_ids))
              (ks_triggers ks) with
      | Some t => Err ("kill_switch.triggers references unknown rule id: " +:+ kt_on_rule t)
      | None => Ok ()
      end
  | _, _ => Ok ()
  end.

Definition is_v1_format (policy : McpPolicy) : bool :=
  negb (is_nil (mp_constraints policy)) || String.eqb (mp_version policy) "1.0".

Definition normalize_legacy_shapes (policy : McpPolicy) : McpPolicy :=
  let policy :=
    match mp_allow policy with
    | Some allow =>
        policy <| mp_allow := None |>
          <| mp_tools := (mp_tools policy)
               <| tp_allow := Some (default [] (tp_allow (mp_tools policy)) ++ allow) |> |>
    | None => policy
    end in
  match mp_deny policy with
  | Some deny =>
      policy <| mp_deny := None |>
        <| mp_tools := (mp_tools policy)
             <| tp_deny := Some (default [] (tp_deny (mp_tools policy)) ++ deny) |> |>
  | None => policy
  end.

(** [from_file] after parsing; [strict] is [ASSAY_STRICT_DEPRECATIONS=1]. *)
Definition load_policy (strict : bool) (parsed : McpPolicy) : Result McpPolicy string :=
  if is_v1_format parsed && strict
  then Err "Strict mode: v1 policy format (constraints) is not allowed."
  else
    let policy := normalize_legacy_shapes parsed in
    let policy := if negb (is_nil (mp_constraints policy))
                  then migrate_constraints_to_schemas policy else policy in
    match validate policy with
    | Ok _ => Ok policy
    | Err e => Err e
    end.

(** [normalized_declared_view_experimental]: an explicit schema wins over a
    migrated one. *)
Definition normalized_declared_view (self : McpPolicy) : McpPolicy :=
  let p := normalize_legacy_shapes self in
  let explicit_schemas := mp_schemas p in
  let p := migrate_constraints_to_schemas p in
  p <| mp_schemas := explicit_schemas ∪ mp_schemas p |>.

(** ** Lemmas *)

Lemma compile_all_schemas_lookup policy tool :
  compile_all_schemas policy !! tool =
  if String.eqb tool "$defs" then None
  else match mp_schemas policy !! tool with
       | Some _ => Some (prepare_and_compile (schemas_value policy) tool)
       | None => None
       end.
Proof.
  unfold compile_all_schemas. rewrite map_lookup_imap.
  destruct (mp_schemas policy !! tool); simpl; by destruct (String.eqb tool "$defs").
Qed.

Lemma foldl_insert_lookup {A} (f : string -> A) l (m : gmap string A) k :
  foldl (fun m t => <[t := f t]> m) m l !! k = if decide (k ∈ l) then Some (f k) else m !! k.
Proof.
  revert m. induction l as [|x l IH]; intros m; simpl.
  - by destruct (decide (k ∈ [])) as [Hk|]; [inversion Hk|].
  - rewrite IH. destruct (decide (k ∈ l)), (decide (k ∈ x :: l)); try done; try set_solver.
    + rewrite lookup_insert. case_decide; [by subst|]. set_solver.
    + rewrite lookup_insert_ne; [done|set_solver].
Qed.

Lemma tool_keys_elem schemas t :
  t ∈ tool_keys schemas <-> t <> "$defs" /\ opt_is_some (map_get schemas t) = true.
Proof.
  unfold tool_keys. rewrite list_elem_of_In, filter_In, <- list_elem_of_In, negb_true_iff,
    String.eqb_neq.
  destruct (map_get schemas t) as [v|] eqn:E; simpl.
  - apply map_get_Some_elem in E. split; [naive_solver|]. intros [? _]. split; [|done].
    apply list_elem_of_fmap. by exists (t, v).
  - apply map_get_None in E. naive_solver.
Qed.

Lemma merge_defs_get root_defs local_defs defs k :
  NoDup (map fst root_defs) -> merge_defs root_defs local_defs = Ok defs ->
  map_get defs k = match map_get local_defs k with
                   | Some v => Some v
                   | None => map_get root_defs k
                   end.
Proof.
  revert local_defs. induction root_defs as [|[n d] r IH]; intros loc Hnd; simpl.
  - intros [= <-]. by destruct (map_get loc k).
  - apply NoDup_cons in Hnd as [Hn Hnd]. unfold map_contains_key.
    destruct (map_get loc n) eqn:E; simpl; [done|]. intros Hm.
    rewrite (IH _ Hnd Hm). destruct (String.eqb_spec k n) as [->|Hne].
    + by rewrite map_get_insert_eq, E.
    + rewrite map_get_insert_ne by congruence. done.
Qed.

Lemma merge_defs_disjoint root_defs local_defs defs k :
  merge_defs root_defs local_defs = Ok defs ->
  k ∈ map fst root_defs -> map_get local_defs k = None.
Proof.
  revert local_defs. induction root_defs as [|[n d] r IH]; intros loc; simpl; [set_solver|].
  unfold map_contains_key. destruct (map_get loc n) eqn:E; simpl; [done|].
  intros Hm [->|Hk]%elem_of_cons; [done|]. pose proof (IH _ Hm Hk) as Hg.
  destruct (decide (n = k)) as [->|Hne]; [by rewrite map_get_insert_eq in Hg|].
  by rewrite map_get_insert_ne in Hg.
Qed.

Lemma normalize_legacy_shapes_fields p :
  mp_allow (normalize_legacy_shapes p) = None /\ mp_deny (normalize_legacy_shapes p) = None /\
  mp_constraints (normalize_legacy_shapes p) = mp_constraints p /\
  mp_schemas (normalize_legacy_shapes p) = mp_schemas p /\
  mp_runtime_monitor (normalize_legacy_shapes p) = mp_runtime_monitor p /\
  mp_kill_switch (normalize_legacy_shapes p) = mp_kill_switch p.
Proof.
  unfold normalize_legacy_shapes.
  destruct (mp_allow p) eqn:Ha, (mp_deny p) eqn:Hd; simpl; rewrite ?Hd; simpl; by rewrite ?Ha, ?Hd.
Qed.

Lemma check_args_by_compiled policy tool_name args :
  check_tool_args policy tool_name args =
  match compile_all_schemas policy !! tool_name with
  | None => NoSchema
  | Some (Err _) => Malformed
  | Some (Ok v) => if is_valid v args then Valid else Invalid
  end.
Proof.
  rewrite compile_all_schemas_lookup. unfold check_tool_args, prepare_and_compile.
  destruct (String.eqb tool_name "$defs"); simpl; [done|].
  destruct (mp_schemas policy !! tool_name); simpl; [|done].
  destruct (prepare_tool_schema _ _) as [sch|]; [|done]. by destruct (compile_schema sch).
Qed.

(** ** Properties *)

(** [check_tool_args] (the verdict gate) and [compile_all_schemas] (the
    enforcement engine) agree on which keys are tools and on what each schema
    says: a tool has no schema for one exactly when the other holds no entry
    for it, a malformed declaration is exactly a per-tool compile error, and on
    a compiled schema both ask the same validator. *)
Theorem check_tool_args_agrees policy tool_name args :
  check_tool_args policy tool_name args =
  match compile_all_schemas policy !! tool_name with
  | None => NoSchema
  | Some (Err _) => Malformed
  | Some (Ok v) => if is_valid v args then Valid else Invalid
  end.
Proof. apply check_args_by_compiled. Qed.

(** Compiling a policy once and evaluating calls against the compiled form
    gives the same verdict, message included, as the one-shot
    [evaluate_tool_args], for every policy value, tool and arguments. *)
Theorem compiled_policy_verdict_equiv policy tool_name tool_args :
  compiled_policy_evaluate (compiled_policy_compile policy) tool_name tool_args =
  evaluate_tool_args policy tool_name tool_args.
Proof.
  unfold compiled_policy_evaluate, evaluate_tool_args, compiled_policy_compile.
  cbn [cpl_tool_names cpl_validators].
  destruct (as_object policy) as [schemas|]; simpl; [|done].
  rewrite foldl_insert_lookup. pose proof (tool_keys_elem schemas tool_name) as Hk.
  assert (He : existsb (fun tool => String.eqb tool tool_name) (tool_keys schemas) = true <->
               tool_name ∈ tool_keys schemas).
  { rewrite existsb_true. split; [intros (y & ? & E); by apply String.eqb_eq in E as <-|].
    intros Hx. exists tool_name. by rewrite String.eqb_refl. }
  destruct (decide (tool_name ∈ tool_keys schemas)) as [Hin|Hnin].
  - rewrite (proj2 He Hin). simpl. apply Hk in Hin as [Hne Hs].
    destruct (map_get schemas tool_name); [simpl|done].
    rewrite (proj2 (String.eqb_neq _ _) Hne). simpl. unfold prepare_and_compile.
    by destruct (prepare_tool_schema policy tool_name) as [sch|].
  - destruct (existsb _ _); [by destruct Hnin; apply He|]. simpl.
    destruct (map_get schemas tool_name) eqn:Eg; simpl; [|done].
    destruct (String.eqb_spec tool_name "$defs"); simpl; [done|].
    exfalso. by apply Hnin, Hk.
Qed.

(** Preparation merges the shared definitions into an object schema without
    replacing any of the tool's own: when it succeeds on a tool with its own
    [$defs], no shared name was already defined locally, and the merged table
    maps a name to the local definition if there is one and to the shared one
    otherwise. *)
Theorem prepare_tool_schema_merge schemas tool root schema local prepared :
  map_get schemas "$defs" = Some (Obj root) -> NoDup (map fst root) ->
  map_get schemas tool = Some (Obj schema) ->
  map_get schema "$defs" = Some (Obj local) ->
  prepare_tool_schema (Obj schemas) tool = Ok prepared ->
  exists defs,
    vget prepared "$defs" = Some (Obj defs) /\
    (forall k, k ∈ map fst root -> map_get local k = None) /\
    (forall k, map_get defs k = option_or (map_get local k) (map_get root k)) /\
    (forall k, k <> "$defs" -> vget prepared k = map_get schema k).
Proof.
  intros Hroot Hnd Htool Hloc. unfold prepare_tool_schema, shared_defs. simpl.
  rewrite Hroot, Htool, Hloc.
  destruct (merge_defs root local) as [defs|] eqn:E; [|done]. intros [= <-].
  exists defs. simpl. split; [by rewrite map_get_insert_eq|]. split; [|split].
  - intros k. by apply (merge_defs_disjoint _ _ _ _ E).
  - intros k. rewrite (merge_defs_get _ _ _ k Hnd E). by destruct (map_get local k).
  - intros k Hk. by rewrite map_get_insert_ne.
Qed.

(** A policy that loads is normalised and cross-checked: it has no legacy
    constraints and no root-level allow or deny list left, every kill trigger
    names a rule of the runtime monitor when both are configured, and in strict
    mode it was not a v1 policy. *)
Theorem load_policy_normalised strict parsed policy :
  load_policy strict parsed = Ok policy ->
  mp_allow policy = None /\ mp_deny policy = None /\ mp_constraints policy = [] /\
  (strict = true -> is_v1_format parsed = false) /\
  (forall rm ks t, mp_runtime_monitor policy = Some rm -> mp_kill_switch policy = Some ks ->
     t ∈ ks_triggers ks -> kt_on_rule t ∈ map mru_id (rm_rules rm)).
Proof.
  unfold load_policy. destruct (is_v1_format parsed && strict) eqn:Ev; [done|].
  destruct (normalize_legacy_shapes_fields parsed) as (Ha & Hd & Hc & _).
  set (q := if negb (is_nil _) then _ else _).
  assert (Hq : mp_allow q = None /\ mp_deny q = None /\ mp_constraints q = []).
  { subst q. destruct (mp_constraints (normalize_legacy_shapes parsed)) eqn:E; simpl; auto. }
  clearbody q. destruct Hq as (Qa & Qd & Qc).
  destruct (validate q) as [[]|] eqn:Hv; [|done]. intros [= <-].
  repeat split; try done.
  - intros ->. by rewrite andb_true_r in Ev.
  - intros rm ks t Hrm Hks Ht. unfold validate in Hv. rewrite Hrm, Hks in Hv.
    destruct (List.find _ (ks_triggers ks)) eqn:Ef; [done|].
    apply list_elem_of_In, (List.find_none _ _ Ef) in Ht. simpl in Ht.
    apply negb_false_iff, existsb_true in Ht as (y & Hy & E). by apply String.eqb_eq in E as <-.
Qed.

(** In the normalised declared view an explicitly declared schema always
    wins over a legacy constraint migrated to the same tool, and a tool without
    an explicit schema gets the migrated one. *)
Theorem declared_view_explicit_wins p tool :
  mp_schemas (normalized_declared_view p) !! tool =
  option_or (mp_schemas p !! tool)
    (mp_schemas (migrate_constraints_to_schemas p) !! tool).
Proof.
  unfold normalized_declared_view. cbn. rewrite lookup_union.
  destruct (normalize_legacy_shapes_fields p) as (_ & _ & Hc & Hs & _). rewrite Hs, Hc.
  by destruct (mp_schemas p !! tool), (foldl _ _ _ !! tool).
Qed.

End Schemas.
