(* ===== verification/PolicyEngine.v ===== *)
(** * The policy engine

    [crates/assay-core/src/mcp/policy]: evaluation of one tool call against an
    [McpPolicy], with the match metadata it records.  One definition per
    function of [engine.rs], [engine_next/] and [contracts.rs].  A function
    that takes [&mut PolicyMatchMetadata] returns the metadata it leaves; one
    that takes [&mut PolicyState] is a computation over [PolicyState]. *)
From stdpp Require Import base tactics list strings gmap.
From Stdlib Require Import ZArith Lia.
From S2P Require Import Prelude RustStr Json Platform PolicyTypes ToolPattern PolicySchema.

(** The JCS serialisation of a whole policy ([serde] derive and [serde_jcs]). *)
Class PolicySerde : Type := { jcs_policy : McpPolicy -> option string }.

Section Engine.
Context `{Platform} `{PolicySerde}.

(** ** engine_next/matcher.rs *)

Definition opt_iter {A} (o : option (list A)) : list A := default [] o.

Definition is_denied (policy : McpPolicy) (tool_name : string) : bool :=
  existsb (matches_tool_pattern tool_name)
    (opt_iter (mp_deny policy) ++ opt_iter (tp_deny (mp_tools policy))).

Definition has_allowlist (policy : McpPolicy) : bool :=
  opt_is_some (mp_allow policy) || opt_is_some (tp_allow (mp_tools policy))
  || opt_is_some (tp_allow_classes (mp_tools policy)).

Definition is_allowed (policy : McpPolicy) (tool_name : string) : bool :=
  existsb (matches_tool_pattern tool_name)
    (opt_iter (mp_allow policy) ++ opt_iter (tp_allow (mp_tools policy))).

Definition match_classes (tool_classes : BTreeSet) (configured : option (list string))
    : list string :=
  match configured with
  | Some configured_classes =>
      foldl (fun matched class_name =>
        if bts_contains tool_classes class_name then bts_insert class_name matched
        else matched) [] configured_classes
  | None => []
  end.

Definition matched_deny_classes (policy : McpPolicy) (tool_classes : BTreeSet) : list string :=
  match_classes tool_classes (tp_deny_classes (mp_tools policy)).

Definition matched_allow_classes (policy : McpPolicy) (tool_classes : BTreeSet) : list string :=
  match_classes tool_classes (tp_allow_classes (mp_tools policy)).

Definition classify_match_basis (name_match class_match : bool) : MatchBasis :=
  match name_match, class_match with
  | true, true => BasisNameAndClass
  | true, false => BasisName
  | false, true => BasisClass
  | false, false => BasisNone
  end.

Definition matched_rule_name (name_field class_field : string)
    (metadata : PolicyMatchMetadata) : string :=
  match pm_match_basis metadata with
  | BasisNameAndClass => name_field +:+ "+" +:+ class_field
  | BasisName => name_field
  | BasisClass => class_field
  | BasisNone => name_field
  end.

(** ** engine_next/diagnostics.rs *)

Definition format_deny_contract (tool code reason : string) : Value :=
  Obj [("status", Str "deny"); ("error_code", Str code); ("tool", Str tool);
       ("reason", Str reason)].

Record DelegationEvidenceContext : Type := mkDelegationEvidenceContext {
  de_delegated_from : string;
  de_delegation_depth : option Z
}.

Definition parse_delegation_context (args : Value) : option DelegationEvidenceContext :=
  meta ← vget args "_meta";
  d ← vget meta "delegation";
  delegation ← as_object d;
  delegated_from ←
    opt_filter (fun value => negb (str_is_empty value))
      (str_trim <$> (map_get delegation "delegated_from" ≫= as_str));
  let delegation_depth :=
    opt_filter (fun depth => ((1 <=? depth) && (depth <=? u32_max))%Z)
      (map_get delegation "delegation_depth" ≫= as_u64) in
  Some {| de_delegated_from := delegated_from; de_delegation_depth := delegation_depth |}.

Definition apply_delegation_context (args : Value) (metadata : PolicyMatchMetadata)
    : PolicyMatchMetadata :=
  match parse_delegation_context args with
  | None => metadata
  | Some context =>
      metadata <| pm_delegated_from := Some (de_delegated_from context) |>
               <| pm_delegation_depth := de_delegation_depth context |>
  end.

(** ** contracts.rs *)

Definition obligation_warning_compat (code reason : string) : PolicyObligation :=
  {| ob_obligation_type := "legacy_warning"; ob_detail := Some (code +:+ ":" +:+ reason);
     ob_restrict_scope := None; ob_redact_args := None |}.

Definition obligation_alert (code reason : string) : PolicyObligation :=
  {| ob_obligation_type := "alert"; ob_detail := Some (code +:+ ":" +:+ reason);
     ob_restrict_scope := None; ob_redact_args := None |}.

Definition obligation_restrict_scope (contract : RestrictScopeContract)
    (detail : option string) : PolicyObligation :=
  {| ob_obligation_type := "restrict_scope"; ob_detail := detail;
     ob_restrict_scope := Some contract; ob_redact_args := None |}.

Definition obligation_redact_args (contract : RedactArgsContract)
    (detail : option string) : PolicyObligation :=
  {| ob_obligation_type := "redact_args"; ob_detail := detail;
     ob_restrict_scope := None; ob_redact_args := Some contract |}.

Record PolicyDecisionContract : Type := mkPolicyDecisionContract {
  pdc_decision : TypedPolicyDecision;
  pdc_obligations : list PolicyObligation
}.

Definition is_alert_deny_code (code : string) : bool := String.eqb code "E_TOOL_DRIFT".

Definition typed_contract (d : PolicyDecision) : PolicyDecisionContract :=
  match d with
  | PAllow => {| pdc_decision := TAllow; pdc_obligations := [] |}
  | PAllowWithWarning _ code reason =>
      {| pdc_decision := TAllowWithObligations;
         pdc_obligations := [obligation_warning_compat code reason] |}
  | PDeny _ code reason _ =>
      if is_alert_deny_code code
      then {| pdc_decision := TDenyWithAlert; pdc_obligations := [obligation_alert code reason] |}
      else {| pdc_decision := TDeny; pdc_obligations := [] |}
  end.

Definition policy_digest (policy : McpPolicy) : option string :=
  canonical ← jcs_policy policy; Some ("sha256:" +:+ sha256_hex canonical).

(** Append each obligation that is not there yet. *)
Definition push_new (obligations : list PolicyObligation) (o : PolicyObligation)
    : list PolicyObligation :=
  if decide (o ∈ obligations) then obligations else obligations ++ [o].

Definition finalize_evaluation (policy : McpPolicy) (metadata : PolicyMatchMetadata)
    (decision : PolicyDecision) : PolicyEvaluation :=
  let typed := typed_contract decision in
  {| pe_decision := decision;
     pe_metadata :=
       metadata
         <| pm_policy_version :=
              Some (if str_is_empty (str_trim (mp_version policy)) then "unspecified"
                    else mp_version policy) |>
         <| pm_policy_digest := policy_digest policy |>
         <| pm_typed_decision := Some (pdc_decision typed) |>
         <| pm_obligations := foldl push_new (pdc_obligations typed) (pm_obligations metadata) |>
  |}.

(** ** engine_next/fail_closed.rs *)

Definition tool_drift_decision (policy : McpPolicy) (tool_name : string)
    (runtime_identity : option ToolIdentity) : Outcome (option PolicyDecision) :=
  match mp_tool_pins policy !! tool_name, runtime_identity with
  | Some pinned, Some runtime =>
      if decide (pinned = runtime) then mret None
      else
        fr ← fingerprint runtime;
        fp ← fingerprint pinned;
        mret (Some (PDeny tool_name "E_TOOL_DRIFT"
          ("Tool integrity failure: identity drifted from pinned version. (Runtime: "
             +:+ fr +:+ ", Pinned: " +:+ fp +:+ ")")
          (format_deny_contract tool_name "E_TOOL_DRIFT"
             "Tool metadata or schema has changed without policy update (SOTA Moat)")))
  | _, _ => mret None
  end.

Definition rate_limit_deny (reason : string) : PolicyDecision :=
  PDeny "ALL" "E_RATE_LIMIT" reason
    (Obj [("status", Str "deny"); ("error_code", Str "E_RATE_LIMIT")]).

Definition count_call (state : PolicyState) : PolicyState :=
  {| ps_requests_count := u64_succ (ps_requests_count state);
     ps_tool_calls_count := u64_succ (ps_tool_calls_count state) |}.

Definition exceeds (count : Z) (max : option Z) : bool :=
  match max with Some m => (m <? count)%Z | None => false end.

Definition check_rate_limits (policy : McpPolicy) : M PolicyState (option PolicyDecision) :=
  modify count_call;;
  state ← get_state;
  mret (match mp_limits policy with
        | Some limits =>
            if exceeds (ps_requests_count state) (gl_max_requests_total limits)
            then Some (rate_limit_deny "Rate limit exceeded (total requests)")
            else if exceeds (ps_tool_calls_count state) (gl_max_tool_calls_total limits)
            then Some (rate_limit_deny "Rate limit exceeded (tool calls)")
            else None
        | None => None
        end).

Definition schema_violation_decision (tool_name : string) (args : Value)
    (validator : Validator) : option PolicyDecision :=
  if is_valid validator args then None
  else
    Some (PDeny tool_name "E_ARG_SCHEMA" "JSON Schema validation failed"
      (Obj [("status", Str "deny"); ("error_code", Str "E_ARG_SCHEMA");
            ("tool", Str tool_name);
            ("violations",
             Arr (map (fun e => Obj [("path", Str (fst e)); ("message", Str (snd e))])
                      (iter_errors validator args)))])).

Definition unconstrained_decision (policy : McpPolicy) (tool_name : string) : PolicyDecision :=
  match es_unconstrained_tools (mp_enforcement policy) with
  | UDeny =>
      PDeny tool_name "E_TOOL_UNCONSTRAINED" "Tool has no schema (enforcement: deny)"
        (format_deny_contract tool_name "E_TOOL_UNCONSTRAINED"
           "Tool has no schema (enforcement: deny)")
  | UWarn =>
      PAllowWithWarning tool_name "E_TOOL_UNCONSTRAINED" "Tool allowed but has no schema"
  | UAllow => PAllow
  end.

(** ** engine_next/precedence.rs *)

Definition deny_match_decision (policy : McpPolicy) (tool_name : string)
    (tool_classes : BTreeSet) (metadata : PolicyMatchMetadata)
    : option PolicyDecision * PolicyMatchMetadata :=
  let deny_name_match := is_denied policy tool_name in
  let deny_class_matches := matched_deny_classes policy tool_classes in
  if negb deny_name_match && is_nil deny_class_matches then (None, metadata)
  else
    let metadata := metadata <| pm_matched_tool_classes := deny_class_matches |> in
    let metadata := metadata <| pm_match_basis :=
      classify_match_basis deny_name_match (negb (is_nil deny_class_matches)) |> in
    let metadata := metadata <| pm_matched_rule :=
      Some (matched_rule_name "tools.deny" "tools.deny_classes" metadata) |> in
    let deny_reason :=
      if deny_name_match && negb (is_nil deny_class_matches)
      then "Tool is explicitly denylisted by name and class"
      else if deny_name_match then "Tool is explicitly denylisted by name"
      else "Tool is explicitly denylisted by class" in
    (Some (PDeny tool_name "E_TOOL_DENIED" deny_reason
             (format_deny_contract tool_name "E_TOOL_DENIED" deny_reason)), metadata).

Definition apply_allow_precedence (policy : McpPolicy) (tool_name : string)
    (tool_classes : BTreeSet) (metadata : PolicyMatchMetadata)
    : option PolicyDecision * PolicyMatchMetadata :=
  let allow_name_match := is_allowed policy tool_name in
  let allow_class_matches := matched_allow_classes policy tool_classes in
  if has_allowlist policy && negb allow_name_match && is_nil allow_class_matches
  then (Some (PDeny tool_name "E_TOOL_NOT_ALLOWED" "Tool is not in the allowlist"
                (format_deny_contract tool_name "E_TOOL_NOT_ALLOWED" "Tool is not in allowlist")),
        metadata)
  else if allow_name_match || negb (is_nil allow_class_matches)
  then
    let metadata := metadata <| pm_matched_tool_classes := allow_class_matches |> in
    let metadata := metadata <| pm_match_basis :=
      classify_match_basis allow_name_match (negb (is_nil (pm_matched_tool_classes metadata))) |> in
    let metadata := metadata <| pm_matched_rule :=
      Some (matched_rule_name "tools.allow" "tools.allow_classes" metadata) |> in
    (None, metadata)
  else (None, metadata).

(** ** engine_next/effects.rs *)

Definition decision_allows (d : PolicyDecision) : bool :=
  match d with PAllow | PAllowWithWarning _ _ _ => true | PDeny _ _ _ _ => false end.

(** A rule of the policy applies to a tool by name pattern or by class. *)
Definition rule_applies (patterns classes : option (list string)) (tool_name : string)
    (tool_classes : BTreeSet) : bool :=
  (match patterns with
   | Some ps => existsb (matches_tool_pattern tool_name) ps
   | None => false
   end) || negb (is_nil (match_classes tool_classes classes)).

Definition apply_approval_required_obligation (policy : McpPolicy) (tool_name : string)
    (tool_classes : BTreeSet) (decision : PolicyDecision) (metadata : PolicyMatchMetadata)
    : PolicyMatchMetadata :=
  if negb (decision_allows decision) then metadata
  else if rule_applies (tp_approval_required (mp_tools policy))
            (tp_approval_required_classes (mp_tools policy)) tool_name tool_classes
  then
    metadata
      <| pm_obligations := pm_obligations metadata ++
           [{| ob_obligation_type := "approval_required";
               ob_detail := Some "runtime approval artifact required";
               ob_restrict_scope := None; ob_redact_args := None |}] |>
      <| pm_approval_state := Some "required" |>
  else metadata.

Record RestrictScopeEvaluation : Type := mkRestrictScopeEvaluation {
  rse_target : string;
  rse_is_match : bool;
  rse_state : string;
  rse_reason : option string
}.

Record RedactArgsEvaluation : Type := mkRedactArgsEvaluation {
  rae_state : string;
  rae_reason : option string;
  rae_failure_reason : option string
}.

Definition default_restrict_scope_contract : RestrictScopeContract :=
  {| rs_scope_type := "resource"; rs_scope_value := "*"; rs_scope_match_mode := "exact" |}.

Definition default_redact_args_contract : RedactArgsContract :=
  {| ra_redaction_target := "body"; ra_redaction_mode := "mask"; ra_redaction_scope := "request" |}.

(** [_meta.resource], else [resource]; [classification.rs] has the same function. *)
Definition requested_resource (args : Value) : option string :=
  option_or (vget args "_meta" ≫= fun meta => vget meta "resource" ≫= as_str)
            (vget args "resource" ≫= as_str).

Definition normalize_token (s : string) : string := to_ascii_lowercase (str_trim s).

(** The three-way result of comparing a present target. *)
Definition scope_result (matched : bool) : bool * string * option string :=
  (matched, (if matched then "matched" else "mismatch"),
   (if matched then None else Some "scope_target_mismatch")).

Definition evaluate_restrict_scope_contract (contract : RestrictScopeContract)
    (tool_name : string) (tool_classes : BTreeSet) (args : Value) : RestrictScopeEvaluation :=
  let scope_type := normalize_token (rs_scope_type contract) in
  let match_mode := normalize_token (rs_scope_match_mode contract) in
  let expected := rs_scope_value contract in
  let known := String.eqb scope_type "tool" || String.eqb scope_type "resource"
               || String.eqb scope_type "tool_class" in
  let observed :=
    if String.eqb scope_type "tool" then Some tool_name
    else if String.eqb scope_type "resource" then requested_resource args
    else if String.eqb scope_type "tool_class" then head tool_classes
    else None in
  let target := scope_type +:+ ":" +:+ match observed with
                                       | Some value => value
                                       | None => "<missing>"
                                       end in
  let '(is_match, state, reason) :=
    if known then
      match observed with
      | None => (false, "mismatch", Some "scope_target_missing")
      | Some actual =>
          if String.eqb match_mode "exact" then scope_result (String.eqb actual expected)
          else if String.eqb match_mode "prefix" then scope_result (starts_with actual expected)
          else if String.eqb match_mode "contains" then scope_result (str_contains actual expected)
          else if String.eqb match_mode "any" then (true, "matched", None)
          else (false, "not_evaluated", Some "scope_match_mode_unsupported")
      end
    else (false, "not_evaluated", Some "scope_type_unsupported") in
  {| rse_target := target; rse_is_match := is_match; rse_state := state; rse_reason := reason |}.

Definition apply_restrict_scope_obligation (policy : McpPolicy) (tool_name : string)
    (args : Value) (tool_classes : BTreeSet) (decision : PolicyDecision)
    (metadata : PolicyMatchMetadata) : PolicyMatchMetadata :=
  if negb (decision_allows decision) then metadata
  else if negb (rule_applies (tp_restrict_scope (mp_tools policy))
                  (tp_restrict_scope_classes (mp_tools policy)) tool_name tool_classes)
  then metadata
  else
    let contract := default default_restrict_scope_contract
                      (tp_restrict_scope_contract (mp_tools policy)) in
    let evaluation := evaluate_restrict_scope_contract contract tool_name tool_classes args in
    metadata
      <| pm_obligations := pm_obligations metadata ++
           [obligation_restrict_scope contract
              (Some "restrict_scope contract captured; runtime enforcement deferred")] |>
      <| pm_scope_type := Some (rs_scope_type contract) |>
      <| pm_scope_value := Some (rs_scope_value contract) |>
      <| pm_scope_match_mode := Some (rs_scope_match_mode contract) |>
      <| pm_scope_evaluation_state := Some (rse_state evaluation) |>
      <| pm_scope_failure_reason := rse_reason evaluation |>
      <| pm_restrict_scope_present := Some true |>
      <| pm_restrict_scope_target := Some (rse_target evaluation) |>
      <| pm_restrict_scope_match := Some (rse_is_match evaluation) |>
      <| pm_restrict_scope_reason := rse_reason evaluation |>.

Definition redaction_target_value (args : Value) (target : string) : option Value :=
  if String.eqb target "path" then vget args "path"
  else if String.eqb target "query" then vget args "query"
  else if String.eqb target "headers" then vget args "headers"
  else if String.eqb target "body" then vget args "body"
  else if String.eqb target "metadata" then vget args "_meta"
  else if String.eqb target "args" then Some args
  else None.

Definition one_of (s : string) (l : list string) : bool := existsb (String.eqb s) l.

Definition can_apply_redaction (mode : string) (value : Value) : bool :=
  if one_of mode ["mask"; "hash"; "drop"] then negb (is_null value)
  else if String.eqb mode "partial" then is_string value
  else false.

Definition redact_evaluation (state : string) (reason : option string) : RedactArgsEvaluation :=
  {| rae_state := state; rae_reason := reason; rae_failure_reason := reason |}.

Definition evaluate_redact_args_contract (contract : RedactArgsContract) (args : Value)
    : RedactArgsEvaluation :=
  let target := normalize_token (ra_redaction_target contract) in
  let mode := normalize_token (ra_redaction_mode contract) in
  let scope := normalize_token (ra_redaction_scope contract) in
  let mode_supported := one_of mode ["mask"; "hash"; "drop"; "partial"] in
  let scope_supported := one_of scope ["request"; "args"; "metadata"] in
  if negb mode_supported then
    redact_evaluation "not_evaluated" (Some "redaction_mode_unsupported")
  else if negb scope_supported then
    redact_evaluation "not_evaluated" (Some "redaction_scope_unsupported")
  else
    match redaction_target_value args target with
    | None => redact_evaluation "not_applied" (Some "redaction_target_missing")
    | Some target_value =>
        if can_apply_redaction mode target_value then redact_evaluation "applied" None
        else redact_evaluation "not_applied" (Some "redaction_apply_failed")
    end.

Definition apply_redact_args_obligation (policy : McpPolicy) (tool_name : string)
    (args : Value) (tool_classes : BTreeSet) (decision : PolicyDecision)
    (metadata : PolicyMatchMetadata) : PolicyMatchMetadata :=
  if negb (decision_allows decision) then metadata
  else if negb (rule_applies (tp_redact_args (mp_tools policy))
                  (tp_redact_args_classes (mp_tools policy)) tool_name tool_classes)
  then metadata
  else
    let contract := default default_redact_args_contract
                      (tp_redact_args_contract (mp_tools policy)) in
    let evaluation := evaluate_redact_args_contract contract args in
    metadata
      <| pm_obligations := pm_obligations metadata ++
           [obligation_redact_args contract
              (Some "redact_args contract captured; runtime redaction deferred")] |>
      <| pm_redaction_target := Some (ra_redaction_target contract) |>
      <| pm_redaction_mode := Some (ra_redaction_mode contract) |>
      <| pm_redaction_scope := Some (ra_redaction_scope contract) |>
      <| pm_redaction_applied_state := Some (rae_state evaluation) |>
      <| pm_redaction_reason := rae_reason evaluation |>
      <| pm_redaction_failure_reason := rae_failure_reason evaluation |>
      <| pm_redact_args_present := Some true |>
      <| pm_redact_args_target := Some (ra_redaction_target contract) |>
      <| pm_redact_args_mode := Some (ra_redaction_mode contract) |>
      <| pm_redact_args_result := Some (rae_state evaluation) |>
      <| pm_redact_args_reason := rae_reason evaluation |>.

(** ** engine.rs *)

(** The three obligations an allowing decision attracts, in order. *)
Definition apply_obligations (policy : McpPolicy) (tool_name : string) (args : Value)
    (tool_classes : BTreeSet) (decision : PolicyDecision) (metadata : PolicyMatchMetadata)
    : PolicyMatchMetadata :=
  apply_redact_args_obligation policy tool_name args tool_classes decision
    (apply_restrict_scope_obligation policy tool_name args tool_classes decision
       (apply_approval_required_obligation policy tool_name tool_classes decision metadata)).

Definition schema_compile_deny (tool_name error : string) : PolicyDecision :=
  let reason := "Declared schema failed to prepare or compile: " +:+ error in
  PDeny tool_name "E_SCHEMA_COMPILE" reason
    (Obj [("status", Str "deny"); ("error_code", Str "E_SCHEMA_COMPILE");
          ("tool", Str tool_name); ("message", Str reason)]).

Definition evaluate_with_metadata (policy : McpPolicy) (tool_name : string) (args : Value)
    (runtime_identity : option ToolIdentity) : M PolicyState PolicyEvaluation :=
  let tool_classes := classes_for (mp_tool_taxonomy policy) tool_name in
  let metadata := apply_delegation_context args
                    (policy_match_metadata_default <| pm_tool_classes := tool_classes |>) in
  drift ← lift (tool_drift_decision policy tool_name runtime_identity);
  match drift with
  | Some decision => mret (finalize_evaluation policy metadata decision)
  | None =>
  limited ← check_rate_limits policy;
  match limited with
  | Some decision => mret (finalize_evaluation policy metadata decision)
  | None =>
  match deny_match_decision policy tool_name tool_classes metadata with
  | (Some decision, metadata) => mret (finalize_evaluation policy metadata decision)
  | (None, metadata) =>
  match apply_allow_precedence policy tool_name tool_classes metadata with
  | (Some decision, metadata) => mret (finalize_evaluation policy metadata decision)
  | (None, metadata) =>
  match compile_all_schemas policy !! tool_name with
  | Some (Err error) =>
      mret (finalize_evaluation policy metadata (schema_compile_deny tool_name error))
  | Some (Ok validator) =>
      match schema_violation_decision tool_name args validator with
      | Some decision => mret (finalize_evaluation policy metadata decision)
      | None =>
          let decision := PAllow in
          mret (finalize_evaluation policy
                  (apply_obligations policy tool_name args tool_classes decision metadata)
                  decision)
      end
  | None =>
      let decision := unconstrained_decision policy tool_name in
      mret (finalize_evaluation policy
              (apply_obligations policy tool_name args tool_classes decision metadata)
              decision)
  end end end end end.

(** [McpPolicy::evaluate]. *)
Definition evaluate (policy : McpPolicy) (tool_name : string) (args : Value)
    (runtime_identity : option ToolIdentity) : M PolicyState PolicyDecision :=
  e ← evaluate_with_metadata policy tool_name args runtime_identity;
  mret (pe_decision e).

Definition count_request (state : PolicyState) : PolicyState :=
  state <| ps_requests_count := u64_succ (ps_requests_count state) |>.

(** [McpPolicy::check]. *)
Definition check (policy : McpPolicy) (request : JsonRpcRequest) : M PolicyState PolicyDecision :=
  if negb (is_tool_call request) then modify count_request;; mret PAllow
  else
    match tool_params request with
    | Some params => evaluate policy (ctp_name params) (ctp_arguments params) None
    | None => modify count_request;; mret PAllow
    end.

(** ** The contract of the engine

    What it means for a call to be acceptable, without reference to the order
    in which the engine looks. *)

Definition Drifted (policy : McpPolicy) (tool_name : string)
    (runtime_identity : option ToolIdentity) : Prop :=
  exists pinned runtime, mp_tool_pins policy !! tool_name = Some pinned /\
    runtime_identity = Some runtime /\ pinned <> runtime.

(** A rule names a tool by one of its patterns or by one of its classes. *)
Definition Named (patterns classes : list string) (policy : McpPolicy) (tool_name : string)
    : Prop :=
  (exists p, p ∈ patterns /\ PatternMatches p tool_name) \/
  (exists c, c ∈ classes /\ c ∈ classes_for (mp_tool_taxonomy policy) tool_name).

Definition Denylisted (policy : McpPolicy) (tool_name : string) : Prop :=
  Named (opt_iter (mp_deny policy) ++ opt_iter (tp_deny (mp_tools policy)))
        (opt_iter (tp_deny_classes (mp_tools policy))) policy tool_name.

Definition NoAllowlist (policy : McpPolicy) : Prop :=
  mp_allow policy = None /\ tp_allow (mp_tools policy) = None /\
  tp_allow_classes (mp_tools policy) = None.

Definition Allowlisted (policy : McpPolicy) (tool_name : string) : Prop :=
  Named (opt_iter (mp_allow policy) ++ opt_iter (tp_allow (mp_tools policy)))
        (opt_iter (tp_allow_classes (mp_tools policy))) policy tool_name.

Definition SchemaAdmits (policy : McpPolicy) (tool_name : string) (args : Value) : Prop :=
  match check_tool_args policy tool_name args with
  | Valid => True
  | Invalid | Malformed => False
  | NoSchema => es_unconstrained_tools (mp_enforcement policy) <> UDeny
  end.

Definition within (count : Z) (max : option Z) : Prop :=
  match max with Some m => (count <= m)%Z | None => True end.

(** The call that brings the counters to [state] is within the policy's limits. *)
Definition WithinLimits (policy : McpPolicy) (state : PolicyState) : Prop :=
  match mp_limits policy with
  | Some l => within (ps_requests_count state) (gl_max_requests_total l) /\
              within (ps_tool_calls_count state) (gl_max_tool_calls_total l)
  | None => True
  end.

(** ** Lemmas *)

Lemma match_classes_spec tool_classes configured c :
  c ∈ match_classes tool_classes configured <-> c ∈ opt_iter configured /\ c ∈ tool_classes.
Proof.
  destruct configured as [l|]; simpl; [|set_solver].
  assert (Hacc : forall acc, c ∈ foldl (fun matched class_name =>
      if bts_contains tool_classes class_name then bts_insert class_name matched else matched)
      acc l <-> c ∈ acc \/ (c ∈ l /\ c ∈ tool_classes)).
  { induction l as [|x l IH]; intros acc; simpl; [set_solver|]. rewrite IH.
    destruct (bts_contains tool_classes x) eqn:E.
    - apply bts_contains_spec in E. rewrite bts_insert_elem. set_solver.
    - assert (x ∉ tool_classes) by (rewrite <- bts_contains_spec; congruence). set_solver. }
  rewrite Hacc. set_solver.
Qed.

Lemma match_classes_wf tool_classes configured : bts_wf (match_classes tool_classes configured).
Proof.
  destruct configured as [l|]; simpl; [|constructor].
  assert (Hacc : forall acc, bts_wf acc -> bts_wf (foldl (fun matched class_name =>
      if bts_contains tool_classes class_name then bts_insert class_name matched else matched)
      acc l)); [|apply Hacc; constructor].
  induction l as [|x l IH]; intros acc Hacc; simpl; [done|]. apply IH.
  by case_match; [apply bts_insert_wf|].
Qed.

Lemma match_classes_nil tool_classes configured :
  is_nil (match_classes tool_classes configured) = false <->
  exists c, c ∈ opt_iter configured /\ c ∈ tool_classes.
Proof.
  rewrite is_nil_false. split.
  - intros Hne. destruct (match_classes tool_classes configured) as [|c r] eqn:E; [done|].
    exists c. apply match_classes_spec. rewrite E. by left.
  - intros (c & Hc). apply match_classes_spec in Hc. intros E. rewrite E in Hc. inversion Hc.
Qed.

Lemma existsb_pattern tool_name patterns :
  existsb (matches_tool_pattern tool_name) patterns = true <->
  exists p, p ∈ patterns /\ PatternMatches p tool_name.
Proof. rewrite existsb_true. split; intros (p & ? & ?); exists p; eauto with assay. Qed.

Lemma named_spec patterns classes policy tool_name :
  existsb (matches_tool_pattern tool_name) patterns = true \/
  is_nil (match_classes (classes_for (mp_tool_taxonomy policy) tool_name) classes) = false <->
  Named patterns (opt_iter classes) policy tool_name.
Proof. unfold Named. by rewrite existsb_pattern, match_classes_nil. Qed.

Lemma denied_spec policy tool_name :
  negb (is_denied policy tool_name) &&
  is_nil (matched_deny_classes policy (classes_for (mp_tool_taxonomy policy) tool_name)) = false
  <-> Denylisted policy tool_name.
Proof.
  unfold Denylisted, is_denied, matched_deny_classes. rewrite <- named_spec.
  rewrite andb_false_iff, negb_false_iff. done.
Qed.

Lemma not_allowlisted_spec policy tool_name :
  has_allowlist policy && negb (is_allowed policy tool_name) &&
  is_nil (matched_allow_classes policy (classes_for (mp_tool_taxonomy policy) tool_name)) = false
  <-> NoAllowlist policy \/ Allowlisted policy tool_name.
Proof.
  unfold Allowlisted, is_allowed, matched_allow_classes. rewrite <- named_spec.
  rewrite !andb_false_iff, negb_false_iff. unfold has_allowlist, NoAllowlist.
  destruct (mp_allow policy), (tp_allow (mp_tools policy)),
    (tp_allow_classes (mp_tools policy)); simpl; intuition congruence.
Qed.

Lemma exceeds_spec count max : exceeds count max = false <-> within count max.
Proof. destruct max; simpl; [|done]. apply Z.ltb_ge. Qed.

Lemma tool_drift_None policy tool_name ri :
  tool_drift_decision policy tool_name ri = Done None <-> ~ Drifted policy tool_name ri.
Proof.
  unfold tool_drift_decision, Drifted.
  destruct (mp_tool_pins policy !! tool_name) as [pin|] eqn:Ep;
    [|split; [by intros _ (? & ? & ? & _)|done]].
  destruct ri as [rt|]; [|split; [by intros _ (? & ? & _ & ? & _)|done]].
  case_decide as Hd; [split; [intros _ (? & ? & ? & ? & ?); congruence|done]|].
  split.
  - destruct (fingerprint rt); [|done]. by destruct (fingerprint pin).
  - intros Hn. exfalso. apply Hn. by exists pin, rt.
Qed.

Lemma tool_drift_Some policy tool_name ri d :
  tool_drift_decision policy tool_name ri = Done (Some d) ->
  exists reason contract, d = PDeny tool_name "E_TOOL_DRIFT" reason contract.
Proof.
  unfold tool_drift_decision. destruct (mp_tool_pins policy !! tool_name) as [pin|]; [|done].
  destruct ri as [rt|]; [|done]. case_decide; [done|].
  destruct (fingerprint rt); [|done]. destruct (fingerprint pin); [|done].
  intros [= <-]. by eexists _, _.
Qed.

(** A drifted tool pinned with a hash of fewer than eight bytes is not denied: the
    drift check panics while it formats the reason. *)
Lemma short_pin_panics policy tool_name pinned runtime :
  mp_tool_pins policy !! tool_name = Some pinned -> pinned <> runtime ->
  String.length (ti_schema_hash pinned) < 8 ->
  tool_drift_decision policy tool_name (Some runtime) = Panicked.
Proof.
  intros Hp Hne Hlen. unfold tool_drift_decision. rewrite Hp, decide_False by done.
  assert (Hf : fingerprint pinned = Panicked).
  { unfold fingerprint, slice_to. rewrite boundary_past_end by done. done. }
  rewrite Hf. by destruct (fingerprint runtime).
Qed.

(** The decision alone, as the first guard that speaks; [state] is the counter
    state after the call was counted. *)
Definition limit_guard (policy : McpPolicy) (state : PolicyState) : option PolicyDecision :=
  match mp_limits policy with
  | Some limits =>
      if exceeds (ps_requests_count state) (gl_max_requests_total limits)
      then Some (rate_limit_deny "Rate limit exceeded (total requests)")
      else if exceeds (ps_tool_calls_count state) (gl_max_tool_calls_total limits)
      then Some (rate_limit_deny "Rate limit exceeded (tool calls)")
      else None
  | None => None
  end.

Definition schema_guard (policy : McpPolicy) (tool_name : string) (args : Value)
    : PolicyDecision :=
  match compile_all_schemas policy !! tool_name with
  | Some (Err error) => schema_compile_deny tool_name error
  | Some (Ok v) => default PAllow (schema_violation_decision tool_name args v)
  | None => unconstrained_decision policy tool_name
  end.

Definition guarded_decision (policy : McpPolicy) (tool_name : string) (args : Value)
    (state : PolicyState) : PolicyDecision :=
  let tool_classes := classes_for (mp_tool_taxonomy policy) tool_name in
  let md := policy_match_metadata_default in
  default (schema_guard policy tool_name args)
    (option_or (limit_guard policy state)
    (option_or (fst (deny_match_decision policy tool_name tool_classes md))
               (fst (apply_allow_precedence policy tool_name tool_classes md)))).

Lemma deny_match_decision_md policy t cls md md' :
  fst (deny_match_decision policy t cls md) = fst (deny_match_decision policy t cls md').
Proof. unfold deny_match_decision. by destruct (negb _ && _). Qed.

Lemma apply_allow_precedence_md policy t cls md md' :
  fst (apply_allow_precedence policy t cls md) = fst (apply_allow_precedence policy t cls md').
Proof. unfold apply_allow_precedence. destruct (_ && is_nil _); [done|]. by destruct (_ || _). Qed.

Lemma check_rate_limits_run policy s :
  check_rate_limits policy s = (Done (limit_guard policy (count_call s)), count_call s).
Proof. done. Qed.

Lemma evaluate_guarded policy tool_name args ri s :
  evaluate policy tool_name args ri s =
  match tool_drift_decision policy tool_name ri with
  | Panicked => (Panicked, s)
  | Done (Some d) => (Done d, s)
  | Done None =>
      (Done (guarded_decision policy tool_name args (count_call s)), count_call s)
  end.
Proof.
  unfold evaluate, evaluate_with_metadata, guarded_decision, schema_guard.
  unfold mbind, M_bind, lift, mret, M_ret.
  destruct (tool_drift_decision policy tool_name ri) as [[d|]|]; [done| |done].
  rewrite check_rate_limits_run.
  destruct (limit_guard policy (count_call s)); [done|]. cbn [option_or].
  set (cls := classes_for _ _). set (md := apply_delegation_context _ _).
  rewrite (deny_match_decision_md _ _ _ policy_match_metadata_default md).
  destruct (deny_match_decision policy tool_name cls md) as [[d|] md']; [done|].
  cbn [fst option_or].
  rewrite (apply_allow_precedence_md _ _ _ policy_match_metadata_default md').
  destruct (apply_allow_precedence policy tool_name cls md') as [[d|] md'']; [done|].
  cbn [fst option_or default].
  destruct (compile_all_schemas policy !! tool_name) as [[v|e]|]; try done.
  by destruct (schema_violation_decision tool_name args v).
Qed.

Lemma limit_guard_None policy state :
  limit_guard policy state = None <-> WithinLimits policy state.
Proof.
  unfold limit_guard, WithinLimits. destruct (mp_limits policy); [|done].
  rewrite <- !exceeds_spec. repeat case_match; naive_solver.
Qed.

Lemma limit_guard_denies policy state d :
  limit_guard policy state = Some d ->
  exists reason contract, d = PDeny "ALL" "E_RATE_LIMIT" reason contract.
Proof.
  unfold limit_guard, rate_limit_deny. destruct (mp_limits policy); [|done].
  repeat case_match; intros [= <-]; by eexists _, _.
Qed.

Lemma deny_guard_None policy tool_name md :
  fst (deny_match_decision policy tool_name
         (classes_for (mp_tool_taxonomy policy) tool_name) md) = None <->
  ~ Denylisted policy tool_name.
Proof.
  rewrite <- denied_spec, not_false_iff_true. unfold deny_match_decision.
  by case_match.
Qed.

Lemma deny_guard_denies policy tool_name cls md d :
  fst (deny_match_decision policy tool_name cls md) = Some d ->
  exists reason contract, d = PDeny tool_name "E_TOOL_DENIED" reason contract.
Proof. unfold deny_match_decision. case_match; [done|]. intros [= <-]. by eexists _, _. Qed.

Lemma allow_guard_None policy tool_name md :
  fst (apply_allow_precedence policy tool_name
         (classes_for (mp_tool_taxonomy policy) tool_name) md) = None <->
  NoAllowlist policy \/ Allowlisted policy tool_name.
Proof.
  rewrite <- not_allowlisted_spec. unfold apply_allow_precedence.
  case_match; [done|]. by case_match.
Qed.

Lemma allow_guard_denies policy tool_name cls md d :
  fst (apply_allow_precedence policy tool_name cls md) = Some d ->
  exists reason contract, d = PDeny tool_name "E_TOOL_NOT_ALLOWED" reason contract.
Proof.
  unfold apply_allow_precedence. case_match; [intros [= <-]; by eexists _, _|].
  by case_match.
Qed.

Lemma schema_guard_allows policy tool_name args :
  decision_allows (schema_guard policy tool_name args) = true <->
  SchemaAdmits policy tool_name args.
Proof.
  unfold SchemaAdmits, schema_guard, schema_violation_decision, unconstrained_decision.
  rewrite check_args_by_compiled.
  destruct (compile_all_schemas policy !! tool_name) as [[v|e]|]; try done.
  - by destruct (is_valid v args).
  - by destruct (es_unconstrained_tools (mp_enforcement policy)).
Qed.

Lemma guarded_decision_allows policy tool_name args state :
  decision_allows (guarded_decision policy tool_name args state) = true <->
  WithinLimits policy state /\ ~ Denylisted policy tool_name /\
  (NoAllowlist policy \/ Allowlisted policy tool_name) /\
  SchemaAdmits policy tool_name args.
Proof.
  unfold guarded_decision. rewrite <- limit_guard_None.
  rewrite <- (deny_guard_None policy tool_name policy_match_metadata_default).
  rewrite <- (allow_guard_None policy tool_name policy_match_metadata_default).
  rewrite <- schema_guard_allows.
  destruct (limit_guard policy state) as [d|] eqn:E1; cbn [option_or default].
  { apply limit_guard_denies in E1 as (? & ? & ->). simpl. naive_solver. }
  destruct (fst (deny_match_decision _ _ _ _)) as [d|] eqn:E2; cbn [option_or default].
  { apply deny_guard_denies in E2 as (? & ? & ->). simpl. naive_solver. }
  destruct (fst (apply_allow_precedence _ _ _ _)) as [d|] eqn:E3; cbn [option_or default].
  { apply allow_guard_denies in E3 as (? & ? & ->). simpl. naive_solver. }
  naive_solver.
Qed.

(** A session: calls evaluated one after the other on the same counters. *)
Fixpoint run_calls (policy : McpPolicy) (calls : list (string * Value * option ToolIdentity))
    : M PolicyState (list PolicyDecision) :=
  match calls with
  | [] => mret []
  | (tool_name, args, ri) :: r =>
      d ← evaluate policy tool_name args ri;
      ds ← run_calls policy r;
      mret (d :: ds)
  end.

Definition count_allowed (ds : list PolicyDecision) : Z :=
  Z.of_nat (length (List.filter decision_allows ds)).

Lemma evaluate_Done policy tool_name args ri s d s' :
  evaluate policy tool_name args ri s = (Done d, s') ->
  (s' = s /\ decision_allows d = false /\ Drifted policy tool_name ri) \/
  (s' = count_call s /\ d = guarded_decision policy tool_name args (count_call s) /\
   ~ Drifted policy tool_name ri).
Proof.
  rewrite evaluate_guarded. pose proof (tool_drift_None policy tool_name ri) as Hn.
  destruct (tool_drift_decision policy tool_name ri) as [[d0|]|] eqn:E; [| |done];
    intros [= <- <-]; [left|right].
  - destruct (tool_drift_Some _ _ _ _ E) as (r & c & ->). split; [done|]. split; [done|].
    unfold tool_drift_decision in E. unfold Drifted.
    destruct (mp_tool_pins policy !! tool_name) as [pin|]; [|done].
    destruct ri as [rt|]; [|done]. case_decide; [done|]. by exists pin, rt.
  - naive_solver.
Qed.

(** A projection of the counters that each counted call advances by one. *)
Lemma run_calls_bound (get : PolicyState -> Z) (m : Z) policy :
  (forall s, (0 <= get s < u64_max)%Z -> get (count_call s) = get s + 1)%Z ->
  (forall s, WithinLimits policy s -> (get s <= m)%Z) ->
  forall calls s ds s',
  (0 <= get s)%Z -> (get s + Z.of_nat (length calls) <= u64_max)%Z ->
  run_calls policy calls s = (Done ds, s') ->
  (count_allowed ds <= Z.max 0 (m - get s))%Z.
Proof.
  intros Hstep Hlim. induction calls as [|[[t a] ri] calls IH]; intros s ds s' Hpos Hlen Hrun.
  { inversion Hrun. unfold count_allowed. simpl. lia. }
  simpl in Hrun. unfold mbind, M_bind in Hrun.
  destruct (evaluate policy t a ri s) as [[d|] s1] eqn:E1; [|done].
  destruct (run_calls policy calls s1) as [[ds1|] s2] eqn:E2; [|done].
  inversion Hrun; subst; clear Hrun. cbn [length] in Hlen.
  apply evaluate_Done in E1 as [(-> & Hd & _)|(-> & -> & _)].
  - unfold count_allowed in *. simpl. rewrite Hd. eapply IH; [done|lia|done].
  - assert (Hs : (get (count_call s) = get s + 1)%Z) by (apply Hstep; lia).
    apply IH in E2; [|lia..]. unfold count_allowed in *. simpl.
    destruct (decision_allows _) eqn:Hd; [|lia]. simpl.
    apply guarded_decision_allows in Hd as (Hw & _). apply Hlim in Hw. lia.
Qed.

Lemma normalize_legacy_shapes_engine p :
  let q := normalize_legacy_shapes p in
  mp_tool_pins q = mp_tool_pins p /\ mp_limits q = mp_limits p /\
  mp_tool_taxonomy q = mp_tool_taxonomy p /\ mp_schemas q = mp_schemas p /\
  mp_enforcement q = mp_enforcement p /\
  tp_deny_classes (mp_tools q) = tp_deny_classes (mp_tools p) /\
  tp_allow_classes (mp_tools q) = tp_allow_classes (mp_tools p).
Proof.
  unfold normalize_legacy_shapes.
  destruct (mp_allow p), (mp_deny p) eqn:Hd; simpl; rewrite ?Hd; simpl; done.
Qed.

Lemma normalize_is_denied p t : is_denied (normalize_legacy_shapes p) t = is_denied p t.
Proof.
  unfold is_denied, normalize_legacy_shapes.
  destruct (mp_allow p), (mp_deny p) as [d|] eqn:Hd; simpl; rewrite ?Hd; simpl;
    rewrite ?Hd, ?existsb_app; simpl; try done; apply orb_comm.
Qed.

Lemma normalize_is_allowed p t : is_allowed (normalize_legacy_shapes p) t = is_allowed p t.
Proof.
  unfold is_allowed, normalize_legacy_shapes.
  destruct (mp_allow p) as [a|] eqn:Ha, (mp_deny p) as [d|] eqn:Hd; simpl; rewrite ?Hd; simpl;
    rewrite ?Ha, ?existsb_app; simpl; try done; apply orb_comm.
Qed.

Lemma normalize_has_allowlist p : has_allowlist (normalize_legacy_shapes p) = has_allowlist p.
Proof.
  unfold has_allowlist, normalize_legacy_shapes.
  destruct (mp_allow p) eqn:Ha, (mp_deny p) eqn:Hd; simpl; rewrite ?Hd; simpl; by rewrite ?Ha.
Qed.

Lemma push_new_all acc l :
  NoDup (map ob_obligation_type (acc ++ l)) -> foldl push_new acc l = acc ++ l.
Proof.
  revert acc. induction l as [|o l IH]; intros acc Hnd; simpl; [by rewrite app_nil_r|].
  replace (push_new acc o) with (acc ++ [o]).
  - rewrite IH; by rewrite <- app_assoc.
  - unfold push_new. case_decide as Hd; [|done]. exfalso.
    rewrite map_app in Hnd. apply NoDup_app in Hnd as (_ & Hn & _).
    eapply Hn; [apply list_elem_of_fmap; by exists o|]. by left.
Qed.

(** The obligations an allowing decision attracts, by type. *)
Definition required_obligations (policy : McpPolicy) (tool_name : string) : list string :=
  let tools := mp_tools policy in
  let cls := classes_for (mp_tool_taxonomy policy) tool_name in
  (if rule_applies (tp_approval_required tools) (tp_approval_required_classes tools) tool_name cls
   then ["approval_required"] else []) ++
  (if rule_applies (tp_restrict_scope tools) (tp_restrict_scope_classes tools) tool_name cls
   then ["restrict_scope"] else []) ++
  (if rule_applies (tp_redact_args tools) (tp_redact_args_classes tools) tool_name cls
   then ["redact_args"] else []).

Definition obligation_types (md : PolicyMatchMetadata) : list string :=
  map ob_obligation_type (pm_obligations md).

Lemma apply_obligations_types policy tool_name args d md :
  pm_obligations md = [] ->
  obligation_types (apply_obligations policy tool_name args
     (classes_for (mp_tool_taxonomy policy) tool_name) d md) =
  if decision_allows d then required_obligations policy tool_name else [].
Proof.
  intros Hmd. unfold obligation_types, apply_obligations, apply_redact_args_obligation,
    apply_restrict_scope_obligation, apply_approval_required_obligation, required_obligations.
  destruct (decision_allows d); cbn [negb]; [|by rewrite Hmd].
  cbv zeta. destruct (rule_applies _ _ _ _), (rule_applies _ _ _ _), (rule_applies _ _ _ _);
    cbn [negb]; cbn; by rewrite Hmd.
Qed.

Lemma finalize_types policy md d :
  NoDup (map ob_obligation_type (pdc_obligations (typed_contract d)) ++ obligation_types md) ->
  obligation_types (pe_metadata (finalize_evaluation policy md d)) =
  map ob_obligation_type (pdc_obligations (typed_contract d)) ++ obligation_types md.
Proof.
  unfold obligation_types. rewrite <- map_app. intros Hnd. unfold finalize_evaluation. cbn.
  by rewrite push_new_all.
Qed.

(** The obligation the typed decision itself carries. *)
Definition decision_obligations (d : PolicyDecision) : list string :=
  match d with
  | PAllow => []
  | PAllowWithWarning _ _ _ => ["legacy_warning"]
  | PDeny _ code _ _ => if String.eqb code "E_TOOL_DRIFT" then ["alert"] else []
  end.

Lemma decision_obligations_typed d :
  map ob_obligation_type (pdc_obligations (typed_contract d)) = decision_obligations d.
Proof.
  destruct d as [| |? c]; try done. simpl. unfold is_alert_deny_code. by destruct (String.eqb _ _).
Qed.

Lemma expected_obligations_NoDup policy tool_name d :
  NoDup (decision_obligations d ++
         if decision_allows d then required_obligations policy tool_name else []).
Proof.
  assert (Hr : forall b1 b2 b3 : bool, bool_decide (NoDup ("legacy_warning" ::
    (if b1 then ["approval_required"] else []) ++ (if b2 then ["restrict_scope"] else []) ++
    (if b3 then ["redact_args"] else []))) = true) by (by intros [] [] []).
  specialize (Hr (rule_applies (tp_approval_required (mp_tools policy))
     (tp_approval_required_classes (mp_tools policy)) tool_name
     (classes_for (mp_tool_taxonomy policy) tool_name)) (rule_applies (tp_restrict_scope
     (mp_tools policy)) (tp_restrict_scope_classes (mp_tools policy)) tool_name
     (classes_for (mp_tool_taxonomy policy) tool_name)) (rule_applies (tp_redact_args
     (mp_tools policy)) (tp_redact_args_classes (mp_tools policy)) tool_name
     (classes_for (mp_tool_taxonomy policy) tool_name))).
  apply bool_decide_eq_true in Hr. fold (required_obligations policy tool_name) in Hr.
  destruct d as [| |? c]; simpl; [by inversion Hr|done|].
  destruct (String.eqb c _); apply (bool_decide_eq_true (NoDup _)); done.
Qed.

Lemma finalize_obligations policy tool_name md d :
  obligation_types md =
    (if decision_allows d then required_obligations policy tool_name else []) ->
  obligation_types (pe_metadata (finalize_evaluation policy md d)) =
  decision_obligations d ++
    if decision_allows d then required_obligations policy tool_name else [].
Proof.
  intros E. rewrite finalize_types; rewrite decision_obligations_typed, E; [done|].
  apply expected_obligations_NoDup.
Qed.

Lemma delegation_obligations args md :
  pm_obligations (apply_delegation_context args md) = pm_obligations md.
Proof. unfold apply_delegation_context. by destruct (parse_delegation_context args). Qed.

Lemma deny_match_obligations policy t cls md :
  pm_obligations (snd (deny_match_decision policy t cls md)) = pm_obligations md.
Proof. unfold deny_match_decision. by destruct (negb _ && _). Qed.

Lemma allow_precedence_obligations policy t cls md :
  pm_obligations (snd (apply_allow_precedence policy t cls md)) = pm_obligations md.
Proof.
  unfold apply_allow_precedence. destruct (_ && is_nil _); [done|]. by destruct (_ || _).
Qed.

(** Every evaluation is finalised from metadata whose obligations are those the
    decision requires. *)
Lemma evaluate_finalized policy tool_name args ri s e s' :
  evaluate_with_metadata policy tool_name args ri s = (Done e, s') ->
  exists md d, e = finalize_evaluation policy md d /\
    obligation_types md =
      if decision_allows d then required_obligations policy tool_name else [].
Proof.
  unfold evaluate_with_metadata, mbind, M_bind, lift, mret, M_ret.
  set (md := apply_delegation_context args _).
  assert (Hmd : pm_obligations md = []) by apply delegation_obligations. clearbody md.
  set (cls := classes_for _ _).
  assert (Hdeny : forall md' t c r k, pm_obligations md' = [] ->
    (finalize_evaluation policy md' (PDeny t c r k)) = e ->
    exists md d, e = finalize_evaluation policy md d /\ obligation_types md =
      if decision_allows d then required_obligations policy tool_name else []).
  { intros md' t c r k Hm <-. exists md', (PDeny t c r k). unfold obligation_types. by rewrite Hm. }
  pose proof (deny_match_obligations policy tool_name cls md) as Hmd1.
  destruct (tool_drift_decision _ _ _) as [[d|]|] eqn:Ed; [|rewrite check_rate_limits_run|done].
  { apply tool_drift_Some in Ed as (? & ? & ->). intros [= He _]. by eapply Hdeny. }
  destruct (limit_guard _ _) as [d|] eqn:El.
  { apply limit_guard_denies in El as (? & ? & ->). intros [= He _]. by eapply Hdeny. }
  pose proof (deny_guard_denies policy tool_name cls md) as Hdd.
  destruct (deny_match_decision _ _ _ _) as [[d|] md1]; cbn [fst snd] in *; rewrite Hmd in Hmd1.
  { destruct (Hdd d eq_refl) as (? & ? & ->). intros [= He _]. by eapply Hdeny. }
  pose proof (allow_guard_denies policy tool_name cls md1) as Haa.
  pose proof (allow_precedence_obligations policy tool_name cls md1) as Hmd2.
  destruct (apply_allow_precedence _ _ _ _) as [[d|] md2]; cbn [fst snd] in *; rewrite Hmd1 in Hmd2.
  { destruct (Haa d eq_refl) as (? & ? & ->). intros [= He _]. by eapply Hdeny. }
  destruct (compile_all_schemas policy !! tool_name) as [[v|err]|].
  - unfold schema_violation_decision. destruct (is_valid v args); intros [= He _].
    + eexists _, _. split; [by rewrite <- He|]. by apply apply_obligations_types.
    + by eapply Hdeny.
  - intros [= He _]. by eapply Hdeny.
  - intros [= He _]. eexists _, _. split; [by rewrite <- He|]. by apply apply_obligations_types.
Qed.

(** The target a scope type designates in a call, and the relation a match mode
    asks for. *)
Definition ScopeTarget (ty tool_name : string) (tool_classes : BTreeSet) (args : Value)
    (actual : string) : Prop :=
  (ty = "tool" /\ actual = tool_name) \/
  (ty = "resource" /\ requested_resource args = Some actual) \/
  (ty = "tool_class" /\ head tool_classes = Some actual).

Definition ScopeMode (mode expected actual : string) : Prop :=
  (mode = "exact" /\ actual = expected) \/
  (mode = "prefix" /\ exists t, actual = expected +:+ t) \/
  (mode = "contains" /\ exists l r, actual = l +:+ expected +:+ r) \/
  mode = "any".

Lemma scope_observed_spec ty tool_name tool_classes args a :
  ScopeTarget ty tool_name tool_classes args a <->
  (if String.eqb ty "tool" then Some tool_name
   else if String.eqb ty "resource" then requested_resource args
   else if String.eqb ty "tool_class" then head tool_classes
   else None) = Some a.
Proof.
  unfold ScopeTarget. destruct (String.eqb_spec ty "tool") as [->|]; [naive_solver congruence|].
  destruct (String.eqb_spec ty "resource") as [->|]; [naive_solver congruence|].
  destruct (String.eqb_spec ty "tool_class") as [->|]; naive_solver congruence.
Qed.

Lemma scope_mode_result mode expected actual tgt :
  let e := let '(is_match, state, reason) :=
    if String.eqb mode "exact" then scope_result (String.eqb actual expected)
    else if String.eqb mode "prefix" then scope_result (starts_with actual expected)
    else if String.eqb mode "contains" then scope_result (str_contains actual expected)
    else if String.eqb mode "any" then (true, "matched", None)
    else (false, "not_evaluated", Some "scope_match_mode_unsupported") in
    {| rse_target := tgt; rse_is_match := is_match; rse_state := state; rse_reason := reason |} in
  (rse_is_match e = true <-> ScopeMode mode expected actual) /\
  (rse_is_match e = true <-> rse_reason e = None) /\
  (rse_is_match e = true <-> rse_state e = "matched").
Proof.
  assert (Hr : forall b (P : Prop), (b = true <-> P) ->
    let '(m, st, r) := scope_result b in
    let e := {| rse_target := tgt; rse_is_match := m; rse_state := st; rse_reason := r |} in
    (rse_is_match e = true <-> P) /\ (rse_is_match e = true <-> rse_reason e = None) /\
    (rse_is_match e = true <-> rse_state e = "matched")) by (by intros [] P HP).
  unfold ScopeMode. destruct (String.eqb_spec mode "exact") as [->|].
  { apply (Hr _ _). rewrite String.eqb_eq. naive_solver. }
  destruct (String.eqb_spec mode "prefix") as [->|].
  { apply (Hr _ _). rewrite starts_with_spec. naive_solver. }
  destruct (String.eqb_spec mode "contains") as [->|].
  { apply (Hr _ _). rewrite str_contains_spec. naive_solver. }
  destruct (String.eqb_spec mode "any") as [->|]; cbn; [naive_solver|].
  split; [|done]. split; [done|]. naive_solver.
Qed.

(** ** Properties *)

(** C4: the engine allows a call exactly when it is acceptable: the tool has
    not drifted from its pin, the call is within the rate limits, no deny rule
    names the tool, an allow rule names it if any allowlist is configured, and
    its arguments satisfy the declared schema (or it has none and unconstrained
    tools are not denied).  Nothing else makes a call pass or fail. *)
Theorem evaluate_allows_iff policy tool_name args ri s :
  (exists d s', evaluate policy tool_name args ri s = (Done d, s') /\
                decision_allows d = true) <->
  ~ Drifted policy tool_name ri /\ WithinLimits policy (count_call s) /\
  ~ Denylisted policy tool_name /\
  (NoAllowlist policy \/ Allowlisted policy tool_name) /\
  SchemaAdmits policy tool_name args.
Proof.
  rewrite <- guarded_decision_allows. split.
  - intros (d & s' & He & Hd). apply evaluate_Done in He as [(_ & Hf & _)|(_ & -> & Hn)];
      [congruence|done].
  - intros [Hn Hg]. rewrite evaluate_guarded, (proj2 (tool_drift_None _ _ _) Hn).
    by eexists _, _.
Qed.

(** Deny rules take precedence.  A denylisted tool (not drifted, within the
    limits) is denied with [E_TOOL_DENIED] whatever the allowlists and schemas
    say; the evaluation still counts the call, carries no obligation, names the
    matched deny classes in order without repetition, and its match basis says
    whether the name, a class or both matched. *)
Theorem deny_rules_take_precedence policy tool_name args ri s :
  ~ Drifted policy tool_name ri -> WithinLimits policy (count_call s) ->
  Denylisted policy tool_name ->
  exists e reason contract,
    evaluate_with_metadata policy tool_name args ri s = (Done e, count_call s) /\
    pe_decision e = PDeny tool_name "E_TOOL_DENIED" reason contract /\
    pm_obligations (pe_metadata e) = [] /\
    bts_wf (pm_matched_tool_classes (pe_metadata e)) /\
    (forall c, c ∈ pm_matched_tool_classes (pe_metadata e) <->
       c ∈ opt_iter (tp_deny_classes (mp_tools policy)) /\
       c ∈ classes_for (mp_tool_taxonomy policy) tool_name) /\
    pm_match_basis (pe_metadata e) <> BasisNone /\
    (pm_match_basis (pe_metadata e) = BasisName <-> pm_matched_tool_classes (pe_metadata e) = []).
Proof.
  intros Hn%tool_drift_None Hl%limit_guard_None Hd%denied_spec.
  unfold evaluate_with_metadata, mbind, M_bind, lift, mret, M_ret.
  rewrite Hn, check_rate_limits_run, Hl. unfold deny_match_decision. rewrite Hd.
  eexists _, _, _. split; [reflexivity|]. split; [reflexivity|].
  cbn -[classes_for match_classes matched_deny_classes is_denied].
  rewrite delegation_obligations. split; [done|].
  split; [apply match_classes_wf|]. split; [intros c; apply match_classes_spec|].
  apply andb_false_iff in Hd as [Hd|Hd];
    [apply negb_false_iff in Hd; rewrite Hd | rewrite Hd; destruct (is_denied policy tool_name)];
    destruct (matched_deny_classes _ _); simpl in *; by repeat split.
Qed.

(** The obligations of an evaluation are exactly those its decision carries
    followed by, if it allows the call, one [approval_required],
    [restrict_scope] and [redact_args] obligation for each such rule that names
    the tool; a denied call has no enforcement obligation, and none is
    repeated. *)
Theorem evaluate_obligations_exact policy tool_name args ri s e s' :
  evaluate_with_metadata policy tool_name args ri s = (Done e, s') ->
  obligation_types (pe_metadata e) =
    decision_obligations (pe_decision e) ++
    (if decision_allows (pe_decision e) then required_obligations policy tool_name else []) /\
  NoDup (obligation_types (pe_metadata e)) /\
  pm_typed_decision (pe_metadata e) = Some (pdc_decision (typed_contract (pe_decision e))).
Proof.
  intros (md & d & -> & Ho)%evaluate_finalized. rewrite (finalize_obligations _ _ _ _ Ho).
  auto using expected_obligations_NoDup.
Qed.

(** C37: rate limits hold over a session.  However the calls are chosen (tools,
    arguments, identities), a session on fresh counters lets at most
    [max_tool_calls_total] and at most [max_requests_total] calls through, as
    long as it is shorter than the [u64] counters count. *)
Theorem rate_limits_bound_session policy limits calls ds s' :
  mp_limits policy = Some limits -> (Z.of_nat (length calls) <= u64_max)%Z ->
  run_calls policy calls policy_state_default = (Done ds, s') ->
  (forall m, gl_max_tool_calls_total limits = Some m -> (0 <= m)%Z -> (count_allowed ds <= m)%Z) /\
  (forall m, gl_max_requests_total limits = Some m -> (0 <= m)%Z -> (count_allowed ds <= m)%Z).
Proof.
  intros Hl Hlen Hrun. split; intros m Hm Hpos.
  - pose proof (run_calls_bound ps_tool_calls_count m policy) as Hb.
    eapply Hb in Hrun; [cbn in Hrun; lia|..|cbn; lia|cbn; lia].
    + intros s Hs. by apply u64_succ_small.
    + intros s Hw. unfold WithinLimits in Hw. rewrite Hl, Hm in Hw. apply Hw.
  - pose proof (run_calls_bound ps_requests_count m policy) as Hb.
    eapply Hb in Hrun; [cbn in Hrun; lia|..|cbn; lia|cbn; lia].
    + intros s Hs. by apply u64_succ_small.
    + intros s Hw. unfold WithinLimits in Hw. rewrite Hl, Hm in Hw. apply Hw.
Qed.

(** Load-time normalisation of the legacy root-level [allow] and [deny]
    lists does not change enforcement: the normalised policy decides every call
    as the policy did before, with the same effect on the counters. *)
Theorem normalize_preserves_evaluate p tool_name args ri s :
  evaluate (normalize_legacy_shapes p) tool_name args ri s = evaluate p tool_name args ri s.
Proof.
  destruct (normalize_legacy_shapes_engine p) as (Hp & Hl & Ht & Hs & He & Hdc & Hac).
  rewrite !evaluate_guarded. unfold tool_drift_decision. rewrite Hp.
  assert (Hg : forall st, guarded_decision (normalize_legacy_shapes p) tool_name args st =
                          guarded_decision p tool_name args st).
  { intros st. unfold guarded_decision, limit_guard, deny_match_decision, apply_allow_precedence,
      schema_guard, unconstrained_decision, matched_deny_classes, matched_allow_classes,
      compile_all_schemas, schemas_value.
    by rewrite Hl, Ht, Hs, He, Hdc, Hac, normalize_has_allowlist, normalize_is_denied,
      normalize_is_allowed. }
  by rewrite Hg.
Qed.

(** A [restrict_scope] contract is reported as matched exactly when it names
    a supported scope type whose target is present in the call and which its
    match mode relates to the expected value; in every other case the
    evaluation gives a reason. *)
Theorem restrict_scope_matched_iff contract tool_name tool_classes args :
  let e := evaluate_restrict_scope_contract contract tool_name tool_classes args in
  (rse_is_match e = true <->
   exists actual,
     ScopeTarget (normalize_token (rs_scope_type contract)) tool_name tool_classes args actual /\
     ScopeMode (normalize_token (rs_scope_match_mode contract)) (rs_scope_value contract) actual) /\
  (rse_is_match e = true <-> rse_reason e = None) /\
  (rse_is_match e = true <-> rse_state e = "matched").
Proof.
  unfold evaluate_restrict_scope_contract. generalize (normalize_token (rs_scope_type contract)) as ty.
  generalize (normalize_token (rs_scope_match_mode contract)) as mode.
  generalize (rs_scope_value contract) as expected. intros expected mode ty. cbv zeta.
  set (observed := if String.eqb ty "tool" then _ else _).
  assert (Ho : forall a, ScopeTarget ty tool_name tool_classes args a <-> observed = Some a)
    by apply scope_observed_spec.
  assert (Hu : String.eqb ty "tool" || String.eqb ty "resource" || String.eqb ty "tool_class" = false ->
    observed = None) by (subst observed; by do 3 destruct (String.eqb ty _)).
  clearbody observed. destruct (_ || _ || _);
    [|rewrite (Hu eq_refl) in Ho; simpl; split; [split; [done|]|done]; intros (a & Ha & _);
      by apply Ho in Ha].
  destruct observed as [actual|]; [|simpl; split; [split; [done|]|done]; intros (a & Ha & _);
      by apply Ho in Ha].
  assert (Hm : (exists a, ScopeTarget ty tool_name tool_classes args a /\ ScopeMode mode expected a)
    <-> ScopeMode mode expected actual).
  { split; [intros (a & Ha & ?); apply Ho in Ha; by simplify_eq|]. intros ?. exists actual.
    by rewrite Ho. }
  rewrite Hm. clear. apply (scope_mode_result mode expected actual).
Qed.

End Engine.
