(* ===== verification/Glob.v ===== *)
(** * Glob patterns of mandate scopes

    The two matchers of the repository: [glob_matches_impl] of
    [crates/assay-core/src/runtime/authorizer_internal/policy.rs], which the
    runtime authorizer calls, and the compiled [GlobPattern] of
    [crates/assay-evidence/src/mandate/glob.rs], against the normative rules
    the latter's documentation gives, stated as a relation on tokens. *)
From stdpp Require Import base tactics list strings sets.
From Stdlib Require Import Ascii ZArith Lia.
From S2P Require Import Prelude RustStr.

Definition dot : ascii := "."%char.

(** [&s[1..]] of a non-empty string whose bytes after the first are [r]. *)
Definition tail_slice (r : string) : Outcome string :=
  match r with
  | String b _ => if is_cont b then Panicked else Done r
  | EmptyString => Done r
  end.

(** ** authorizer_internal/policy.rs *)

(** [for i in 0..=s.len() { if f(&s[i..]) { return true } } false]. *)
Fixpoint try_suffixes (f : string -> Outcome bool) (s : string) : Outcome bool :=
  b ← f s;
  if b : bool then mret true
  else match s with
       | EmptyString => mret false
       | String _ r => _ ← tail_slice r; try_suffixes f r
       end.

(** The loop of a single [*]: it stops at the end of the input and at a dot. *)
Fixpoint try_until_dot (f : string -> Outcome bool) (s : string) : Outcome bool :=
  b ← f s;
  if b : bool then mret true
  else match s with
       | EmptyString => mret false
       | String a r =>
           if Ascii.eqb a dot then mret false
           else _ ← tail_slice r; try_until_dot f r
       end.

(** [input_chars.next() != Some(c)] returns [false]; otherwise go on. *)
Definition expect_char (c : string) (f : string -> Outcome bool) (input : string)
    : Outcome bool :=
  match uncons_char input with
  | Some (d, rest) => if String.eqb d c then f rest else mret false
  | None => mret false
  end.

Fixpoint glob_chars (pattern : list string) : string -> Outcome bool :=
  match pattern with
  | [] => fun input => mret (str_is_empty input)
  | p :: remaining =>
      if String.eqb p "*" then
        match remaining with
        | [] => fun input => mret (negb (contains_char input dot))
        | q :: remaining' =>
            if String.eqb q "*" then
              if is_nil remaining' then fun _ => mret true
              else try_suffixes (glob_chars remaining')
            else try_until_dot (glob_chars remaining)
        end
      else if String.eqb p "\" then
        match remaining with
        | escaped :: remaining' => expect_char escaped (glob_chars remaining')
        | [] => fun _ => mret false
        end
      else expect_char p (glob_chars remaining)
  end.

Definition glob_matches_impl (pattern input : string) : Outcome bool :=
  glob_chars (chars pattern) input.

(** The first matching pattern decides. *)
Fixpoint tool_matches_scope_impl (tool_name : string) (patterns : list string) : Outcome bool :=
  match patterns with
  | [] => mret false
  | pattern :: r =>
      b ← glob_matches_impl pattern tool_name;
      if b : bool then mret true else tool_matches_scope_impl tool_name r
  end.

(** ** assay-evidence/src/mandate/glob.rs *)

Definition MAX_TOOL_NAME_LENGTH : Z := 256.
Definition MAX_PATTERN_LENGTH : Z := 256.
Definition MAX_SEGMENTS : Z := 32.

Record GlobError : Type := mkGlobError { ge_pattern : string; ge_message : string }.

Inductive Segment : Type :=
| Literal (lit : string)
| SingleGlob
| DoubleGlob.

Record GlobPattern : Type := mkGlobPattern {
  gp_pattern : string;
  gp_segments : list Segment
}.

Definition flush_literal (segments : list Segment) (current_literal : string) : list Segment :=
  if str_is_empty current_literal then segments else segments ++ [Literal current_literal].

Fixpoint parse_loop (chars : list string) (segments : list Segment) (current_literal : string)
    : option (list Segment) :=
  match chars with
  | [] => Some (flush_literal segments current_literal)
  | c :: rest =>
      if String.eqb c "\" then
        match rest with
        | escaped :: rest' => parse_loop rest' segments (current_literal +:+ escaped)
        | [] => None
        end
      else if String.eqb c "*" then
        let segments := flush_literal segments current_literal in
        match rest with
        | [] => parse_loop rest (segments ++ [SingleGlob]) EmptyString
        | d :: rest' =>
            if String.eqb d "*" then parse_loop rest' (segments ++ [DoubleGlob]) EmptyString
            else parse_loop rest (segments ++ [SingleGlob]) EmptyString
        end
      else parse_loop rest segments (current_literal +:+ c)
  end.

Definition parse_pattern (pattern : string) : Result (list Segment) GlobError :=
  match parse_loop (chars pattern) [] EmptyString with
  | Some segments => Ok segments
  | None => Err {| ge_pattern := pattern; ge_message := "trailing backslash" |}
  end.

Definition glob_pattern_new (pattern : string) : Result GlobPattern GlobError :=
  if (MAX_PATTERN_LENGTH <? str_len pattern)%Z then
    Err {| ge_pattern := str_concat (take 50 (chars pattern)) +:+ "...";
           ge_message := "pattern length " +:+ fmt_int (str_len pattern)
                         +:+ " exceeds maximum " +:+ fmt_int MAX_PATTERN_LENGTH |}
  else
    match parse_pattern pattern with
    | Err e => Err e
    | Ok segments =>
        let n := Z.of_nat (length segments) in
        if (MAX_SEGMENTS <? n)%Z then
          Err {| ge_pattern := pattern;
                 ge_message := "pattern has " +:+ fmt_int n
                               +:+ " segments, exceeds maximum " +:+ fmt_int MAX_SEGMENTS |}
        else Ok {| gp_pattern := pattern; gp_segments := segments |}
    end.

(** The loop of [SingleGlob]: split at each index in turn, stop when the prefix
    holds a dot. *)
Fixpoint try_splits (f : string -> Outcome bool) (prefix suffix : string) : Outcome bool :=
  if contains_char prefix dot then mret false
  else
    b ← f suffix;
    if b : bool then mret true
    else match suffix with
         | EmptyString => mret false
         | String a r => _ ← tail_slice r; try_splits f (prefix +:+ String a EmptyString) r
         end.

Fixpoint match_recursive (segments : list Segment) (input : string) : Outcome bool :=
  match segments with
  | [] => mret (str_is_empty input)
  | Literal lit :: rest =>
      if starts_with input lit then
        suffix ← slice_from input (String.length lit); match_recursive rest suffix
      else mret false
  | SingleGlob :: rest => try_splits (match_recursive rest) EmptyString input
  | DoubleGlob :: rest => try_suffixes (match_recursive rest) input
  end.

Definition glob_pattern_matches (self : GlobPattern) (name : string) : Outcome bool :=
  if (MAX_TOOL_NAME_LENGTH <? str_len name)%Z then mret false
  else match_recursive (gp_segments self) name.

Fixpoint matches_any (name : string) (patterns : list string)
    : Outcome (Result bool GlobError) :=
  match patterns with
  | [] => mret (Ok false)
  | pattern :: r =>
      match glob_pattern_new pattern with
      | Err e => mret (Err e)
      | Ok glob =>
          b ← glob_pattern_matches glob name;
          if b : bool then mret (Ok true) else matches_any name r
      end
  end.

Record GlobSet : Type := mkGlobSet { gs_patterns : list GlobPattern }.

(** [collect] into a [Result]: the first error, or all the patterns. *)
Fixpoint glob_set_new (patterns : list string) : Result GlobSet GlobError :=
  match patterns with
  | [] => Ok {| gs_patterns := [] |}
  | p :: r =>
      match glob_pattern_new p with
      | Err e => Err e
      | Ok g =>
          match glob_set_new r with
          | Err e => Err e
          | Ok set => Ok {| gs_patterns := g :: gs_patterns set |}
          end
      end
  end.

Fixpoint any_matches (patterns : list GlobPattern) (name : string) : Outcome bool :=
  match patterns with
  | [] => mret false
  | p :: r => b ← glob_pattern_matches p name; if b : bool then mret true else any_matches r name
  end.

Definition glob_set_matches (self : GlobSet) (name : string) : Outcome bool :=
  any_matches (gs_patterns self) name.

(** ** The normative rules

    A pattern is a sequence of tokens: literal characters (an escaped one
    included), [*] and [**].  A trailing backslash has no tokens. *)

Inductive Token : Type :=
| TChar (c : string)
| TStar
| TStarStar.

Fixpoint tokenize (chars : list string) : option (list Token) :=
  match chars with
  | [] => Some []
  | c :: rest =>
      if String.eqb c "\" then
        match rest with
        | escaped :: rest' => cons (TChar escaped) <$> tokenize rest'
        | [] => None
        end
      else if String.eqb c "*" then
        match rest with
        | d :: rest' =>
            if String.eqb d "*" then cons TStarStar <$> tokenize rest'
            else cons TStar <$> tokenize rest
        | [] => Some [TStar]
        end
      else cons (TChar c) <$> tokenize rest
  end.

(** The whole name must match: a character matches itself, [*] any sequence
    without a dot, [**] any sequence. *)
Inductive GlobMatch : list Token -> string -> Prop :=
| GM_nil : GlobMatch [] EmptyString
| GM_char c p s : GlobMatch p s -> GlobMatch (TChar c :: p) (c +:+ s)
| GM_star w p s :
    contains_char w dot = false -> GlobMatch p s -> GlobMatch (TStar :: p) (w +:+ s)
| GM_star2 w p s : GlobMatch p s -> GlobMatch (TStarStar :: p) (w +:+ s).

(** [PatternAccepts pattern name]: the normative relation. *)
Definition PatternAccepts (pattern name : string) : Prop :=
  exists tokens, tokenize (chars pattern) = Some tokens /\ GlobMatch tokens name.

(** ** Lemmas *)

(** A computation that returns, without panic, whether [P] holds. *)
Definition decides (o : Outcome bool) (P : Prop) : Prop :=
  exists b, o = Done b /\ (b = true <-> P).

Lemma decides_ret (b : bool) (P : Prop) : (b = true <-> P) -> decides (mret b) P.
Proof. intros HP. by exists b. Qed.

Lemma decides_iff o (P Q : Prop) : decides o P -> (P <-> Q) -> decides o Q.
Proof. intros (b & -> & HP) HQ. exists b. by rewrite HP. Qed.

#[export] Instance decides_proper o : Proper (iff ==> iff) (decides o).
Proof. intros P Q HPQ. split; intros Hd; by eapply decides_iff; [exact Hd|]. Qed.

(** Try one alternative, then the rest. *)
Lemma decides_orelse o k (P Q : Prop) :
  decides o P -> decides k Q ->
  decides (b ← o; if b : bool then mret true else k) (P \/ Q).
Proof.
  intros (b & -> & HP) (c & -> & HQ). cbn. destruct b; [apply decides_ret; tauto|].
  exists c. split; [done|]. rewrite HQ. destruct HP as [_ HP]. intuition congruence.
Qed.

Lemma tail_slice_ascii r : is_ascii r = true -> tail_slice r = Done r.
Proof.
  destruct r as [|b r]; [done|]. intros [Hb _]%is_ascii_cons. simpl.
  by rewrite (ascii_not_cont _ Hb).
Qed.

Lemma is_ascii_app s t : is_ascii (s +:+ t) = true <-> is_ascii s = true /\ is_ascii t = true.
Proof.
  induction s as [|a s IH]; [tauto|].
  change (String a s +:+ t) with (String a (s +:+ t)). rewrite !is_ascii_cons, IH. tauto.
Qed.

Lemma app_cons_split (P : string -> string -> Prop) a r :
  (exists w t, String a r = w +:+ t /\ P w t) <->
  P EmptyString (String a r) \/ (exists w t, r = w +:+ t /\ P (String a w) t).
Proof.
  split.
  - intros ([|b w] & t & E & HP); [left; by rewrite E|]. cbn in E. injection E as -> ->.
    right. by exists w, t.
  - intros [HP|(w & t & -> & HP)]; [by exists EmptyString, (String a r)|].
    by exists (String a w), t.
Qed.

Lemma app_nil_split (P : string -> string -> Prop) :
  (exists w t, EmptyString = w +:+ t /\ P w t) <-> P EmptyString EmptyString.
Proof.
  split; [|intros HP; by exists EmptyString, EmptyString].
  intros ([|b w] & t & E & HP); [cbn in E; by subst t|discriminate E].
Qed.

Lemma contains_dot_cons a w :
  contains_char (String a w) dot = Ascii.eqb a dot || contains_char w dot.
Proof. unfold contains_char. simpl. by destruct (Ascii.eqb a dot). Qed.

Section Loops.
Context (f : string -> Outcome bool) (P : string -> Prop).
Hypothesis f_decides : forall s, is_ascii s = true -> decides (f s) (P s).

Lemma try_suffixes_decides s :
  is_ascii s = true -> decides (try_suffixes f s) (exists w t, s = w +:+ t /\ P t).
Proof.
  induction s as [|a r IH]; intros Hs; cbn [try_suffixes].
  - eapply decides_iff; [apply decides_orelse; [by apply f_decides|by apply (decides_ret _ False)]|].
    rewrite (app_nil_split (fun _ t => P t)). tauto.
  - pose proof (proj1 (is_ascii_cons _ _) Hs) as [_ Hr]. rewrite (tail_slice_ascii _ Hr).
    eapply decides_iff; [apply decides_orelse; [by apply f_decides|by apply IH]|].
    by rewrite (app_cons_split (fun _ t => P t)).
Qed.

Lemma try_until_dot_decides s :
  is_ascii s = true ->
  decides (try_until_dot f s) (exists w t, s = w +:+ t /\ contains_char w dot = false /\ P t).
Proof.
  induction s as [|a r IH]; intros Hs; cbn [try_until_dot].
  - eapply decides_iff; [apply decides_orelse; [by apply f_decides|by apply (decides_ret _ False)]|].
    rewrite (app_nil_split (fun w t => contains_char w dot = false /\ P t)). naive_solver.
  - pose proof (proj1 (is_ascii_cons _ _) Hs) as [_ Hr].
    rewrite (app_cons_split (fun w t => contains_char w dot = false /\ P t)).
    destruct (Ascii.eqb a dot) eqn:Ea.
    + eapply decides_iff; [apply decides_orelse; [by apply f_decides|by apply (decides_ret _ False)]|].
      setoid_rewrite contains_dot_cons. rewrite Ea. naive_solver.
    + rewrite (tail_slice_ascii _ Hr).
      eapply decides_iff; [apply decides_orelse; [by apply f_decides|by apply IH]|].
      setoid_rewrite contains_dot_cons. rewrite Ea. naive_solver.
Qed.

Lemma contains_char_snoc p a :
  contains_char (p +:+ String a EmptyString) dot = contains_char p dot || Ascii.eqb a dot.
Proof.
  induction p as [|b p IH]; cbn [String.append]; rewrite !contains_dot_cons.
  - by destruct (Ascii.eqb a dot).
  - by rewrite IH, orb_assoc.
Qed.

Lemma try_splits_decides s p :
  is_ascii s = true -> contains_char p dot = false ->
  decides (try_splits f p s) (exists w t, s = w +:+ t /\ contains_char w dot = false /\ P t).
Proof.
  revert p. induction s as [|a r IH]; intros p Hs Hp; cbn [try_splits]; rewrite Hp.
  - eapply decides_iff; [apply decides_orelse; [by apply f_decides|by apply (decides_ret _ False)]|].
    rewrite (app_nil_split (fun w t => contains_char w dot = false /\ P t)). naive_solver.
  - pose proof (proj1 (is_ascii_cons _ _) Hs) as [_ Hr].
    rewrite (app_cons_split (fun w t => contains_char w dot = false /\ P t)), (tail_slice_ascii _ Hr).
    setoid_rewrite contains_dot_cons. destruct (Ascii.eqb a dot) eqn:Ea.
    + assert (Hstop : try_splits f (p +:+ String a EmptyString) r = Done false)
        by (destruct r; cbn [try_splits]; by rewrite contains_char_snoc, Hp, Ea).
      cbn [mbind outcome_bind]. rewrite Hstop.
      eapply decides_iff; [apply decides_orelse; [by apply f_decides|by apply (decides_ret _ False)]|].
      naive_solver.
    + eapply decides_iff; [apply decides_orelse; [by apply f_decides|apply IH; [done|]]|naive_solver].
      by rewrite contains_char_snoc, Hp, Ea.
Qed.

Lemma expect_char_decides c s :
  c <> EmptyString -> (forall a r, c = String a r -> str_forall is_cont r = true) ->
  is_ascii s = true ->
  decides (expect_char c f s) (exists t, s = c +:+ t /\ P t).
Proof.
  intros Hne Hc Hs. unfold expect_char. destruct s as [|a r].
  { apply decides_ret. split; [done|]. intros (t & E & _). by destruct c. }
  apply is_ascii_cons in Hs as [_ Hr]. rewrite (uncons_char_ascii _ _ Hr).
  destruct (String.eqb_spec (String a EmptyString) c) as [<-|Hd].
  - eapply decides_iff; [by apply f_decides|]. cbn. naive_solver.
  - apply decides_ret. split; [done|]. intros (t & E & _).
    destruct c as [|b c]; [done|]. cbn in E. injection E as -> ->.
    specialize (Hc b c eq_refl). destruct c as [|b' c]; [done|].
    apply is_ascii_app in Hr as [Hr _]. apply is_ascii_cons in Hr as [Hr _].
    simpl in Hc. by rewrite (ascii_not_cont _ Hr) in Hc.
Qed.

End Loops.

(** A character: a byte and the continuation bytes after it. *)
Definition is_char (c : string) : Prop :=
  match c with EmptyString => False | String _ r => str_forall is_cont r = true end.

Lemma chars_fuel_is_char n s : Forall is_char (chars_fuel n s).
Proof.
  revert s. induction n as [|n IH]; intros s; cbn [chars_fuel]; [constructor|].
  destruct (uncons_char s) as [[c t]|] eqn:E; constructor; [|apply IH].
  destruct s as [|a s]; [done|]. simpl in E.
  assert (Hs : forall s, str_forall is_cont (fst (span_cont s)) = true).
  { clear. induction s as [|b s IH]; [done|]. simpl. destruct (is_cont b) eqn:Eb; [|done].
    destruct (span_cont s). simpl in *. by rewrite Eb. }
  specialize (Hs s). destruct (span_cont s). by inversion E.
Qed.

Lemma chars_is_char s : Forall is_char (chars s).
Proof. apply chars_fuel_is_char. Qed.

Lemma glob_match_nil s : GlobMatch [] s <-> s = EmptyString.
Proof. split; [by inversion 1|intros ->; constructor]. Qed.

Lemma glob_match_char c p s :
  GlobMatch (TChar c :: p) s <-> exists t, s = c +:+ t /\ GlobMatch p t.
Proof.
  split; [inversion 1; subst; eauto|intros (t & -> & ?); by constructor].
Qed.

Lemma glob_match_star p s :
  GlobMatch (TStar :: p) s <->
  exists w t, s = w +:+ t /\ contains_char w dot = false /\ GlobMatch p t.
Proof.
  split; [inversion 1; subst; eauto|intros (w & t & -> & ? & ?); by constructor].
Qed.

Lemma glob_match_star2 p s :
  GlobMatch (TStarStar :: p) s <-> exists w t, s = w +:+ t /\ GlobMatch p t.
Proof. split; [inversion 1; subst; eauto|intros (w & t & -> & ?); by constructor]. Qed.

Lemma glob_match_star_end s : GlobMatch [TStar] s <-> contains_char s dot = false.
Proof.
  rewrite glob_match_star. setoid_rewrite glob_match_nil. split.
  - intros (w & t & -> & Hw & ->). by rewrite string_app_nil_r.
  - intros Hs. exists s, EmptyString. by rewrite string_app_nil_r.
Qed.

(** What a list of pattern characters accepts. *)
Definition Accepts (pat : list string) (s : string) : Prop :=
  exists tokens, tokenize pat = Some tokens /\ GlobMatch tokens s.

Lemma accepts_nil s : Accepts [] s <-> s = EmptyString.
Proof.
  unfold Accepts. simpl. split; [intros (? & [= <-] & ?)|intros ->; exists []; split; [done|constructor]].
  by apply glob_match_nil.
Qed.

(** The pattern is one token in front of the characters [r]. *)
Lemma accepts_token tok full r s :
  tokenize full = cons tok <$> tokenize r ->
  Accepts full s <-> exists tokens, tokenize r = Some tokens /\ GlobMatch (tok :: tokens) s.
Proof.
  intros E. unfold Accepts. rewrite E. destruct (tokenize r) as [p|]; simpl; [naive_solver|].
  split; intros (? & ? & _); done.
Qed.

Lemma accepts_char c full r s :
  tokenize full = cons (TChar c) <$> tokenize r ->
  Accepts full s <-> exists t, s = c +:+ t /\ Accepts r t.
Proof.
  intros E. rewrite (accepts_token _ _ _ _ E). setoid_rewrite glob_match_char.
  unfold Accepts. naive_solver.
Qed.

Lemma accepts_star full r s :
  tokenize full = cons TStar <$> tokenize r ->
  Accepts full s <->
  exists w t, s = w +:+ t /\ contains_char w dot = false /\ Accepts r t.
Proof.
  intros E. rewrite (accepts_token _ _ _ _ E). setoid_rewrite glob_match_star.
  unfold Accepts. naive_solver.
Qed.

Lemma accepts_star2 full r s :
  tokenize full = cons TStarStar <$> tokenize r ->
  Accepts full s <-> exists w t, s = w +:+ t /\ Accepts r t.
Proof.
  intros E. rewrite (accepts_token _ _ _ _ E). setoid_rewrite glob_match_star2.
  unfold Accepts. naive_solver.
Qed.

Lemma is_char_expect (f : string -> Outcome bool) (P : string -> Prop) c s :
  (forall s, is_ascii s = true -> decides (f s) (P s)) ->
  is_char c -> is_ascii s = true ->
  decides (expect_char c f s) (exists t, s = c +:+ t /\ P t).
Proof.
  intros Hf Hc Hs. apply expect_char_decides; [done|by destruct c| |done]. by intros a r ->.
Qed.

(** The runtime matcher, by recursion on the length of the pattern, as a pattern token takes one or two
    characters. *)
Lemma glob_chars_decides_fuel n pat s :
  (length pat <= n)%nat -> Forall is_char pat -> is_ascii s = true ->
  decides (glob_chars pat s) (Accepts pat s).
Proof.
  revert pat s. induction n as [|n IH]; intros [|p rest] s Hn Hp Hs; cbn [length] in Hn;
    try (exfalso; lia); cbn [glob_chars];
    try (apply decides_ret; by rewrite str_is_empty_true, accepts_nil).
  apply Forall_cons in Hp as [Hpc Hp].
  destruct (String.eqb_spec p "*") as [->|Hps].
  - destruct rest as [|q rest].
    { apply decides_ret. rewrite negb_true_iff, <- glob_match_star_end. unfold Accepts. naive_solver. }
    destruct (String.eqb_spec q "*") as [->|Hq].
    + cbn [length] in Hn. apply Forall_cons in Hp as [_ Hp].
      rewrite (accepts_star2 _ rest) by done. destruct rest as [|q rest].
      { apply decides_ret. split; [intros _|done]. exists s, EmptyString.
        by rewrite string_app_nil_r, accepts_nil. }
      apply try_suffixes_decides; [|done]. intros t Ht. apply IH; [cbn in *; lia|done..].
    + rewrite (accepts_star _ (q :: rest)).
      * apply try_until_dot_decides; [|done]. intros t Ht. apply IH; [lia|done..].
      * cbn [tokenize]. by rewrite (proj2 (String.eqb_neq q "*") Hq).
  - destruct (String.eqb_spec p "\") as [->|Hpb].
    + destruct rest as [|e rest].
      { apply decides_ret. split; [done|]. by intros (? & ? & _). }
      apply Forall_cons in Hp as [He Hp]. rewrite (accepts_char e _ rest) by done.
      apply is_char_expect; [|done..]. intros t Ht. apply IH; [cbn in *; lia|done..].
    + rewrite (accepts_char p _ rest).
      * apply is_char_expect; [|done..]. intros t Ht. apply IH; [lia|done..].
      * cbn [tokenize]. by rewrite (proj2 (String.eqb_neq p "\") Hpb), (proj2 (String.eqb_neq p "*") Hps).
Qed.

(** *** The compiled matcher *)

Fixpoint SegMatch (segs : list Segment) (s : string) : Prop :=
  match segs with
  | [] => s = EmptyString
  | Literal l :: r => exists t, s = l +:+ t /\ SegMatch r t
  | SingleGlob :: r => exists w t, s = w +:+ t /\ contains_char w dot = false /\ SegMatch r t
  | DoubleGlob :: r => exists w t, s = w +:+ t /\ SegMatch r t
  end.

Lemma slice_from_app_ascii l t :
  is_ascii (l +:+ t) = true -> slice_from (l +:+ t) (String.length l) = Done t.
Proof.
  intros [_ Ht]%is_ascii_app. unfold slice_from, is_char_boundary. rewrite str_drop_app.
  destruct t as [|a t].
  - by rewrite string_app_nil_r, Nat.eqb_refl.
  - apply is_ascii_cons in Ht as [Ha _]. by rewrite (ascii_not_cont _ Ha), orb_true_r.
Qed.

Lemma match_recursive_decides segs s :
  is_ascii s = true -> decides (match_recursive segs s) (SegMatch segs s).
Proof.
  revert s. induction segs as [|[lit| |] segs IH]; intros s Hs; cbn [match_recursive SegMatch].
  - apply decides_ret, str_is_empty_true.
  - destruct (starts_with s lit) eqn:E.
    + apply starts_with_spec in E as [t ->]. rewrite (slice_from_app_ascii _ _ Hs). cbn.
      apply is_ascii_app in Hs as [_ Ht]. eapply decides_iff; [by apply IH|].
      split; [by exists t|]. intros (t' & Et & Hm). by apply string_app_inj in Et as ->.
    + apply decides_ret. split; [done|]. intros (t & -> & _).
      assert (starts_with (lit +:+ t) lit = true) by (apply starts_with_spec; by exists t). congruence.
  - by apply try_splits_decides.
  - by apply try_suffixes_decides.
Qed.

Lemma seg_match_app segs segs' s :
  SegMatch (segs ++ segs') s <-> exists a b, s = a +:+ b /\ SegMatch segs a /\ SegMatch segs' b.
Proof.
  revert s. induction segs as [|[lit| |] segs IH]; intros s; cbn [app SegMatch].
  - split; [by exists EmptyString, s|]. by intros (a & b & -> & -> & ?).
  - setoid_rewrite IH. split.
    + intros (t & -> & a & b & -> & ? & ?). exists (lit +:+ a), b. rewrite string_app_assoc. eauto.
    + intros (a & b & -> & (t & -> & ?) & ?). exists (t +:+ b). rewrite string_app_assoc. eauto 6.
  - setoid_rewrite IH. split.
    + intros (w & t & -> & Hw & a & b & -> & ? & ?). exists (w +:+ a), b.
      rewrite string_app_assoc. eauto 8.
    + intros (a & b & -> & (w & t & -> & ? & ?) & ?). exists w, (t +:+ b).
      rewrite string_app_assoc. eauto 8.
  - setoid_rewrite IH. split.
    + intros (w & t & -> & a & b & -> & ? & ?). exists (w +:+ a), b.
      rewrite string_app_assoc. eauto 8.
    + intros (a & b & -> & (w & t & -> & ?) & ?). exists w, (t +:+ b).
      rewrite string_app_assoc. eauto 8.
Qed.

Lemma flush_literal_match segs cur s :
  SegMatch (flush_literal segs cur) s <-> exists a, s = a +:+ cur /\ SegMatch segs a.
Proof.
  unfold flush_literal. destruct (str_is_empty cur) eqn:E.
  - apply str_is_empty_true in E as ->. setoid_rewrite string_app_nil_r. naive_solver.
  - rewrite seg_match_app. cbn. split.
    + intros (a & b & -> & ? & t & -> & ->). rewrite string_app_nil_r. eauto.
    + intros (a & -> & ?). exists a, cur. split_and!; [done..|].
      exists EmptyString. by rewrite string_app_nil_r.
Qed.

(** What the accumulated segments and literal, then the tokens, accept. *)
Definition Pending (segs : list Segment) (cur : string) (tokens : list Token) (s : string) : Prop :=
  exists a b, s = (a +:+ cur) +:+ b /\ SegMatch segs a /\ GlobMatch tokens b.

Lemma pending_push segs cur c tokens s :
  Pending segs (cur +:+ c) tokens s <-> Pending segs cur (TChar c :: tokens) s.
Proof.
  unfold Pending. setoid_rewrite glob_match_char. split.
  - intros (a & b & -> & ? & ?). exists a, (c +:+ b). rewrite !string_app_assoc. eauto 6.
  - intros (a & ? & -> & ? & b & -> & ?). exists a, b. rewrite !string_app_assoc. eauto 6.
Qed.

Lemma pending_glob segs cur seg tok tokens s :
  (forall p s, GlobMatch (tok :: p) s <-> exists w t, s = w +:+ t /\ SegMatch [seg] w /\ GlobMatch p t) ->
  Pending (flush_literal segs cur ++ [seg]) EmptyString tokens s <->
  Pending segs cur (tok :: tokens) s.
Proof.
  intros Htok. unfold Pending. setoid_rewrite seg_match_app.
  setoid_rewrite flush_literal_match. setoid_rewrite Htok. split.
  - intros (? & b & -> & (? & w & -> & (a & -> & ?) & ?) & ?). exists a, (w +:+ b).
    rewrite string_app_nil_r, !string_app_assoc. eauto 8.
  - intros (a & ? & -> & ? & w & b & -> & ? & ?). exists ((a +:+ cur) +:+ w), b.
    rewrite string_app_nil_r, !string_app_assoc. eauto 10.
Qed.

Lemma single_glob_token p s :
  GlobMatch (TStar :: p) s <-> exists w t, s = w +:+ t /\ SegMatch [SingleGlob] w /\ GlobMatch p t.
Proof.
  rewrite glob_match_star. cbn. split.
  - intros (w & t & -> & ? & ?). exists w, t. split_and!; [done| |done].
    exists w, EmptyString. by rewrite string_app_nil_r.
  - intros (? & t & -> & (w & ? & -> & ? & ->) & ?). exists w, t. by rewrite string_app_nil_r.
Qed.

Lemma double_glob_token p s :
  GlobMatch (TStarStar :: p) s <-> exists w t, s = w +:+ t /\ SegMatch [DoubleGlob] w /\ GlobMatch p t.
Proof.
  rewrite glob_match_star2. cbn. split.
  - intros (w & t & -> & ?). exists w, t. split_and!; [done| |done].
    exists w, EmptyString. by rewrite string_app_nil_r.
  - intros (w & t & -> & _ & ?). by exists w, t.
Qed.

(** The parser accepts exactly what has tokens, and its segments say the same. *)
Lemma parse_loop_spec n cs segs cur :
  (length cs <= n)%nat ->
  match parse_loop cs segs cur, tokenize cs with
  | Some out, Some tokens => forall s, SegMatch out s <-> Pending segs cur tokens s
  | None, None => True
  | _, _ => False
  end.
Proof.
  revert cs segs cur. induction n as [|n IH]; intros [|c rest] segs cur Hn; cbn [length] in Hn;
    try (exfalso; lia).
  1,2: cbn; intros s; rewrite flush_literal_match; unfold Pending; setoid_rewrite glob_match_nil;
    split; [intros (a & -> & ?); exists a, EmptyString; by rewrite string_app_nil_r
           |intros (a & ? & -> & ? & ->); rewrite string_app_nil_r; eauto].
  cbn [parse_loop tokenize]. destruct (String.eqb c "\").
  { destruct rest as [|e rest]; [done|]. cbn [length] in Hn.
    specialize (IH rest segs (cur +:+ e) ltac:(lia)).
    destruct (parse_loop _ _ _), (tokenize rest); simpl; try done.
    intros s. by rewrite IH, pending_push. }
  destruct (String.eqb c "*").
  { destruct rest as [|d rest].
    { specialize (IH [] (flush_literal segs cur ++ [SingleGlob]) EmptyString ltac:(simpl; lia)).
      intros s. cbn in IH |- *. rewrite IH. apply pending_glob, single_glob_token. }
    cbn [length] in Hn. destruct (String.eqb d "*").
    - specialize (IH rest (flush_literal segs cur ++ [DoubleGlob]) EmptyString ltac:(lia)).
      destruct (parse_loop _ _ _), (tokenize rest); simpl; try done.
      intros s. rewrite IH. apply pending_glob, double_glob_token.
    - specialize (IH (d :: rest) (flush_literal segs cur ++ [SingleGlob]) EmptyString
        ltac:(simpl; lia)).
      destruct (parse_loop _ _ _), (tokenize (d :: rest)); simpl; try done.
      intros s. rewrite IH. apply pending_glob, single_glob_token. }
  specialize (IH rest segs (cur +:+ c) ltac:(lia)).
  destruct (parse_loop _ _ _), (tokenize rest); simpl; try done.
  intros s. by rewrite IH, pending_push.
Qed.

Lemma parse_pattern_spec pattern :
  match parse_pattern pattern with
  | Ok segs => forall s, SegMatch segs s <-> PatternAccepts pattern s
  | Err _ => tokenize (chars pattern) = None
  end.
Proof.
  unfold parse_pattern, PatternAccepts.
  pose proof (parse_loop_spec (length (chars pattern)) (chars pattern) [] EmptyString
    ltac:(lia)) as Hp.
  destruct (parse_loop _ _ _) as [out|], (tokenize (chars pattern)) as [tokens|]; try done.
  intros s. rewrite Hp. unfold Pending. cbn. split.
  - intros (? & b & -> & -> & ?). eauto.
  - intros (? & [= <-] & ?). exists EmptyString, s. eauto.
Qed.

Lemma glob_matches_impl_decides pattern input :
  is_ascii input = true ->
  decides (glob_matches_impl pattern input) (PatternAccepts pattern input).
Proof. intros Hs. eapply glob_chars_decides_fuel; [done|apply chars_is_char|done]. Qed.

Lemma decides_eq o o' P : decides o P -> decides o' P -> o = o'.
Proof.
  intros (b & -> & Hb) (c & -> & Hc). f_equal. apply eq_true_iff_eq. by rewrite Hb, Hc.
Qed.

Lemma tool_matches_scope_decides tool_name patterns :
  is_ascii tool_name = true ->
  decides (tool_matches_scope_impl tool_name patterns)
    (exists p, p ∈ patterns /\ PatternAccepts p tool_name).
Proof.
  intros Hs. induction patterns as [|p ps IH]; cbn [tool_matches_scope_impl].
  - apply decides_ret. split; [done|]. intros (? & Hin & _). by inversion Hin.
  - eapply decides_iff; [apply decides_orelse; [by apply glob_matches_impl_decides|exact IH]|].
    set_solver.
Qed.

(** ** Properties *)

(** C36: on ASCII tool names the runtime glob matcher never panics and decides
    the normative rules: the whole name matches, [*] stands for any sequence
    without a dot, [**] for any sequence, a backslash makes the next character
    literal, and a pattern with a trailing backslash matches nothing. *)
Theorem glob_matches_impl_correct pattern input :
  is_ascii input = true ->
  exists b, glob_matches_impl pattern input = Done b /\
            (b = true <-> PatternAccepts pattern input).
Proof. apply glob_matches_impl_decides. Qed.

(** A mandate whose scope lists patterns covers an ASCII tool name exactly
    when one of the patterns accepts it; the check never panics on it. *)
Theorem tool_matches_scope_correct tool_name patterns :
  is_ascii tool_name = true ->
  exists b, tool_matches_scope_impl tool_name patterns = Done b /\
            (b = true <-> exists p, p ∈ patterns /\ PatternAccepts p tool_name).
Proof. apply tool_matches_scope_decides. Qed.

(** The compiled matcher of the evidence crate and the runtime matcher agree:
    whatever pattern the former compiles, on every ASCII name within its length
    limit both return the same answer and neither panics. *)
Theorem glob_matchers_agree pattern g name :
  glob_pattern_new pattern = Ok g -> is_ascii name = true ->
  (str_len name <= MAX_TOOL_NAME_LENGTH)%Z ->
  glob_pattern_matches g name = glob_matches_impl pattern name /\
  glob_matches_impl pattern name <> Panicked.
Proof.
  unfold glob_pattern_new, glob_pattern_matches.
  destruct (_ <? str_len pattern)%Z; [done|]. pose proof (parse_pattern_spec pattern) as Hp.
  destruct (parse_pattern pattern) as [segs|]; [|done].
  destruct (_ <? Z.of_nat _)%Z; [done|]. intros [= <-] Hs Hlen. cbn [gp_segments].
  rewrite (proj2 (Z.ltb_ge _ _) Hlen).
  pose proof (glob_matches_impl_decides pattern name Hs) as Hr.
  split; [|destruct Hr as (b & -> & _); done].
  eapply decides_eq; [by apply match_recursive_decides|by rewrite Hp].
Qed.

(** Compilation accepts exactly the patterns within the security limits that
    have no trailing backslash, and never changes the pattern it reports. *)
Theorem glob_pattern_new_limits pattern :
  (exists g, glob_pattern_new pattern = Ok g /\ gp_pattern g = pattern /\
             (Z.of_nat (length (gp_segments g)) <= MAX_SEGMENTS)%Z) <->
  (str_len pattern <= MAX_PATTERN_LENGTH)%Z /\
  (exists tokens, tokenize (chars pattern) = Some tokens) /\
  (forall segs, parse_pattern pattern = Ok segs -> (Z.of_nat (length segs) <= MAX_SEGMENTS)%Z).
Proof.
  unfold glob_pattern_new. destruct (Z.ltb_spec MAX_PATTERN_LENGTH (str_len pattern)).
  { split; [by intros (? & ? & _)|lia]. }
  assert (Ht : (exists tokens, tokenize (chars pattern) = Some tokens) <->
               exists segs, parse_pattern pattern = Ok segs).
  { unfold parse_pattern. pose proof (parse_loop_spec _ (chars pattern) [] EmptyString (le_n _)) as Hp.
    destruct (parse_loop _ _ _), (tokenize _); try done; naive_solver. }
  rewrite Ht. destruct (parse_pattern pattern) as [segs|e]; [|naive_solver].
  destruct (Z.ltb_spec MAX_SEGMENTS (Z.of_nat (length segs))).
  - split; [by intros (? & ? & _)|]. intros (_ & _ & Hs). specialize (Hs segs eq_refl). lia.
  - split; [naive_solver|]. intros _. by eexists.
Qed.

(** Off ASCII the runtime matcher panics: a pattern of a single star and one
    more ASCII character, on any name whose first character takes more than one
    byte, makes it slice the name inside that character. *)
Theorem glob_panics_on_multibyte x b1 b2 rest :
  is_ascii_byte x = true -> x <> "*"%char -> x <> "\"%char ->
  is_cont b2 = true -> b1 <> dot ->
  glob_matches_impl (String "*" (String x EmptyString)) (String b1 (String b2 rest)) = Panicked.
Proof.
  intros Hax Hx Hb Hc Hd. unfold glob_matches_impl.
  replace (chars (String "*" (String x EmptyString))) with ["*"; String x EmptyString].
  - cbn -[expect_char tail_slice dot try_until_dot].
    rewrite !(proj2 (Ascii.eqb_neq x _)) by done. cbn [try_until_dot].
    rewrite (proj2 (Ascii.eqb_neq b1 dot) Hd). cbn [tail_slice]. rewrite Hc.
    unfold expect_char. cbn [uncons_char span_cont]. rewrite Hc.
    destruct (span_cont rest) as [c t]. cbn. by destruct (Ascii.eqb b1 x).
  - unfold chars. cbn. rewrite (ascii_not_cont x Hax). reflexivity.
Qed.
