(* ===== verification/MandateStore.v ===== *)
(** * The mandate store

    [crates/assay-core/src/runtime/mandate_store.rs], [mandate_store_next/] and
    [schema.rs]: the SQLite-backed consumption log of mandates.  A connection
    is the committed database and, inside a transaction, the database the
    transaction sees.  Every statement may fail, as [env_db_fault] decides; a
    failed statement has no effect, and some failures also end the transaction.
    Columns that no statement reads back ([inserted_at], [first_seen_at]) are
    left out. *)
From stdpp Require Import base tactics list strings gmap.
From Stdlib Require Import ZArith Lia.
From S2P Require Import Prelude RustStr Json Platform.

(** ** The tables of [MANDATE_SCHEMA] *)

Record MandateRow : Type := mkMandateRow {
  mr_mandate_kind : string;
  mr_audience : string;
  mr_issuer : string;
  mr_expires_at : option string;
  mr_single_use : Z;
  mr_max_uses : option Z;
  mr_use_count : Z;
  mr_canonical_digest : string;
  mr_key_id : string
}.
#[global] Instance eta_mandate_row : Eta MandateRow := fun r =>
  mkMandateRow (mr_mandate_kind r) (mr_audience r) (mr_issuer r) (mr_expires_at r)
    (mr_single_use r) (mr_max_uses r) (mr_use_count r) (mr_canonical_digest r) (mr_key_id r).

Record UseRow : Type := mkUseRow {
  ur_use_id : string;
  ur_mandate_id : string;
  ur_tool_call_id : string;
  ur_use_count : Z;
  ur_consumed_at : string;
  ur_tool_name : string;
  ur_operation_class : string;
  ur_nonce : option string;
  ur_source_run_id : option string
}.

Record RevocationRow : Type := mkRevocationRow {
  rr_revoked_at : string;
  rr_reason : option string;
  rr_revoked_by : option string;
  rr_source : option string;
  rr_event_id : option string
}.

Record Db : Type := mkDb {
  db_mandates : gmap string MandateRow;
  db_uses : list UseRow;
  (** keyed by (audience, issuer, nonce) *)
  db_nonces : gmap (string * string * string) string;
  db_revocations : gmap string RevocationRow
}.
#[global] Instance eta_db : Eta Db := fun d =>
  mkDb (db_mandates d) (db_uses d) (db_nonces d) (db_revocations d).

Definition db_empty : Db := mkDb ∅ [] ∅ ∅.

(** ** Statements, with the constraints of the schema *)

Definition insert_mandate (id : string) (row : MandateRow) (d : Db) : Result Db string :=
  match db_mandates d !! id with
  | Some _ => Ok d
  | None => Ok (d <| db_mandates := <[id := row]> (db_mandates d) |>)
  end.

Definition update_use_count (id : string) (n : Z) (d : Db) : Result Db string :=
  match db_mandates d !! id with
  | Some row => Ok (d <| db_mandates := <[id := row <| mr_use_count := n |>]> (db_mandates d) |>)
  | None => Ok d
  end.

Definition insert_nonce (key : string * string * string) (mandate_id : string) (d : Db)
    : Result Db string :=
  match db_nonces d !! key with
  | Some _ => Err "UNIQUE constraint failed: nonces.audience, nonces.issuer, nonces.nonce"
  | None => Ok (d <| db_nonces := <[key := mandate_id]> (db_nonces d) |>)
  end.

Definition insert_use (u : UseRow) (d : Db) : Result Db string :=
  if existsb (fun v => String.eqb (ur_use_id v) (ur_use_id u)) (db_uses d)
  then Err "UNIQUE constraint failed: mandate_uses.use_id"
  else if existsb (fun v => String.eqb (ur_tool_call_id v) (ur_tool_call_id u)) (db_uses d)
  then Err "UNIQUE constraint failed: mandate_uses.tool_call_id"
  else if existsb (fun v => String.eqb (ur_mandate_id v) (ur_mandate_id u)
                            && Z.eqb (ur_use_count v) (ur_use_count u)) (db_uses d)
  then Err "UNIQUE constraint failed: mandate_uses.mandate_id, mandate_uses.use_count"
  else match db_mandates d !! ur_mandate_id u with
       | None => Err "FOREIGN KEY constraint failed"
       | Some _ => Ok (d <| db_uses := db_uses d ++ [u] |>)
       end.

Definition upsert_revocation_row (id : string) (row : RevocationRow) (d : Db)
    : Result Db string :=
  Ok (d <| db_revocations := <[id := row]> (db_revocations d) |>).

Definition select_use (tool_call_id : string) (d : Db) : option UseRow :=
  List.find (fun u => String.eqb (ur_tool_call_id u) tool_call_id) (db_uses d).

Definition uses_of (id : string) (d : Db) : list UseRow :=
  List.filter (fun u => String.eqb (ur_mandate_id u) id) (db_uses d).

(** ** The connection *)

Record Conn : Type := mkConn {
  cn_committed : Db;
  cn_txn : option Db;
  cn_tick : nat
}.
#[global] Instance eta_conn : Eta Conn := fun c =>
  mkConn (cn_committed c) (cn_txn c) (cn_tick c).

(** [MandateStore::memory]. *)
Definition conn_empty : Conn := mkConn db_empty None 0.

(** ** Data of mandate_store.rs *)

Record AuthzReceipt : Type := mkAuthzReceipt {
  ar_mandate_id : string;
  ar_use_id : string;
  ar_use_count : Z;
  ar_consumed_at : Z;
  ar_tool_call_id : string;
  ar_was_new : bool
}.

Inductive AuthzError : Type :=
| MandateNotFound (mandate_id : string)
| AlreadyUsed
| MaxUsesExceeded (max current : Z)
| NonceReplay (nonce : string)
| MandateConflict (mandate_id field : string)
| InvalidConstraints (max_uses : Z)
| Revoked (revoked_at : Z)
| Database (message : string).

Record MandateMetadata : Type := mkMandateMetadata {
  mm_mandate_id : string;
  mm_mandate_kind : string;
  mm_audience : string;
  mm_issuer : string;
  mm_expires_at : option Z;
  mm_single_use : bool;
  mm_max_uses : option Z;
  mm_canonical_digest : string;
  mm_key_id : string
}.

Record ConsumeParams : Type := mkConsumeParams {
  cp_mandate_id : string;
  cp_tool_call_id : string;
  cp_nonce : option string;
  cp_audience : string;
  cp_issuer : string;
  cp_tool_name : string;
  cp_operation_class : string;
  cp_source_run_id : option string
}.

Record RevocationRecord : Type := mkRevocationRecord {
  rv_mandate_id : string;
  rv_revoked_at : Z;
  rv_reason : option string;
  rv_revoked_by : option string;
  rv_source : option string;
  rv_event_id : option string
}.

Section Store.
Context `{Platform} `{Env}.

(** ** Running statements *)

Definition current_db (c : Conn) : Db := default (cn_committed c) (cn_txn c).

(** Outside a transaction a statement commits by itself. *)
Definition set_current_db (d : Db) (c : Conn) : Conn :=
  match cn_txn c with
  | Some _ => c <| cn_txn := Some d |>
  | None => c <| cn_committed := d |>
  end.

(** Run a statement on the connection unless the environment fails it. *)
Definition statement {A} (run : Conn -> Result (A * Conn) string) : M Conn (Result A string) :=
  fun c =>
    let t := cn_tick c in
    let c := c <| cn_tick := S t |> in
    match env_db_fault t with
    | Some f => (Done (Err (df_message f)),
                 if df_rolls_back f then c <| cn_txn := None |> else c)
    | None =>
        match run c with
        | Ok (a, c') => (Done (Ok a), c')
        | Err e => (Done (Err e), c)
        end
    end.

Definition sql_execute (f : Db -> Result Db string) : M Conn (Result () string) :=
  statement (fun c =>
    match f (current_db c) with
    | Ok d => Ok ((), set_current_db d c)
    | Err e => Err e
    end).

Definition sql_query {A} (f : Db -> A) : M Conn (Result A string) :=
  statement (fun c => Ok (f (current_db c), c)).

Definition sql_begin_immediate : M Conn (Result () string) :=
  statement (fun c =>
    match cn_txn c with
    | Some _ => Err "cannot start a transaction within a transaction"
    | None => Ok ((), c <| cn_txn := Some (cn_committed c) |>)
    end).

Definition sql_commit : M Conn (Result () string) :=
  statement (fun c =>
    match cn_txn c with
    | Some d => Ok ((), c <| cn_committed := d |> <| cn_txn := None |>)
    | None => Err "cannot commit - no transaction is active"
    end).

Definition sql_rollback : M Conn (Result () string) :=
  statement (fun c =>
    match cn_txn c with
    | Some _ => Ok ((), c <| cn_txn := None |>)
    | None => Err "cannot rollback - no transaction is active"
    end).

(** [?] with [From<rusqlite::Error> for AuthzError]. *)
Definition db_err {A} (m : M Conn (Result A string)) : M Conn (Result A AuthzError) :=
  r ← m; mret (result_map_err Database r).

(** [Utc::now()] inside the store. *)
Definition store_now : M Conn Z :=
  fun c => (Done (env_store_clock (cn_tick c)), c <| cn_tick := S (cn_tick c) |>).

Definition ok {A E} (a : A) : M Conn (Result A E) := mret (Ok a).
Definition err {A E} (e : E) : M Conn (Result A E) := mret (Err e).

(** ** mandate_store_next/schema.rs *)

(** [PRAGMA]s and idempotent DDL: on tables that exist they change nothing. *)
Definition init_connection_impl : M Conn (Result () AuthzError) :=
  _ ←? db_err (sql_execute Ok);
  _ ← sql_execute Ok;
  _ ← sql_execute Ok;
  _ ←? db_err (sql_execute Ok);
  ok ().

(** ** mandate_store_next/stats.rs *)

Definition compute_use_id_impl (mandate_id tool_call_id : string) (use_count : Z) : string :=
  "sha256:" +:+ sha256_hex (mandate_id +:+ ":" +:+ tool_call_id +:+ ":" +:+ fmt_int use_count).

Definition get_use_count_impl (mandate_id : string) : M Conn (Result (option Z) AuthzError) :=
  count ←? db_err (sql_query (fun d => mr_use_count <$> (db_mandates d !! mandate_id)));
  ok (as_u32 <$> count).

Definition count_uses_impl (mandate_id : string) : M Conn (Result Z AuthzError) :=
  count ←? db_err (sql_query (fun d => Z.of_nat (length (uses_of mandate_id d))));
  ok (as_u32 count).

Definition nonce_exists_impl (audience issuer nonce : string) : M Conn (Result bool AuthzError) :=
  exist ←? db_err (sql_query (fun d =>
    if opt_is_some (db_nonces d !! (audience, issuer, nonce)) then 1%Z else 0%Z));
  ok (0 <? exist)%Z.

(** ** mandate_store_next/consume.rs *)

(** What one new use of a mandate needs: its count and its limits. *)
Definition check_limits (current_count single_use : Z) (max_uses : option Z)
    : Result Z AuthzError :=
  let new_count := i64_wrap (current_count + 1) in
  if negb (Z.eqb single_use 0) && (0 <? current_count)%Z then Err AlreadyUsed
  else
    match max_uses with
    | Some max =>
        if (max <? new_count)%Z then Err (MaxUsesExceeded (as_u32 max) (as_u32 new_count))
        else Ok new_count
    | None => Ok new_count
    end.

Definition claim_nonce (params : ConsumeParams) : M Conn (Result () AuthzError) :=
  match cp_nonce params with
  | Some n =>
      insert_result ← sql_execute
        (insert_nonce (cp_audience params, cp_issuer params, n) (cp_mandate_id params));
      match insert_result with
      | Err e => if str_contains e "UNIQUE constraint failed" then err (NonceReplay n)
                 else err (Database e)
      | Ok _ => ok ()
      end
  | None => ok ()
  end.

Definition consume_mandate_inner_impl (params : ConsumeParams)
    : M Conn (Result AuthzReceipt AuthzError) :=
  existing ←? db_err (sql_query (select_use (cp_tool_call_id params)));
  match existing with
  | Some u =>
      consumed_at ← match parse_rfc3339 (ur_consumed_at u) with
                    | Some dt => mret dt
                    | None => store_now
                    end;
      ok {| ar_mandate_id := cp_mandate_id params;
            ar_use_id := ur_use_id u;
            ar_use_count := as_u32 (ur_use_count u);
            ar_consumed_at := consumed_at;
            ar_tool_call_id := cp_tool_call_id params;
            ar_was_new := false |}
  | None =>
      _ ←? claim_nonce params;
      row ←? db_err (sql_query (fun d => db_mandates d !! cp_mandate_id params));
      match row with
      | None => err (MandateNotFound (cp_mandate_id params))
      | Some r =>
          new_count ←? mret (check_limits (mr_use_count r) (mr_single_use r) (mr_max_uses r));
          _ ←? db_err (sql_execute (update_use_count (cp_mandate_id params) new_count));
          let use_id := compute_use_id_impl (cp_mandate_id params) (cp_tool_call_id params)
                          (as_u32 new_count) in
          consumed_at ← store_now;
          _ ←? db_err (sql_execute (insert_use
            {| ur_use_id := use_id;
               ur_mandate_id := cp_mandate_id params;
               ur_tool_call_id := cp_tool_call_id params;
               ur_use_count := new_count;
               ur_consumed_at := to_rfc3339 consumed_at;
               ur_tool_name := cp_tool_name params;
               ur_operation_class := cp_operation_class params;
               ur_nonce := cp_nonce params;
               ur_source_run_id := cp_source_run_id params |}));
          ok {| ar_mandate_id := cp_mandate_id params;
                ar_use_id := use_id;
                ar_use_count := as_u32 new_count;
                ar_consumed_at := consumed_at;
                ar_tool_call_id := cp_tool_call_id params;
                ar_was_new := true |}
      end
  end.

(** ** mandate_store_next/txn.rs *)

Definition consume_mandate_in_txn_impl (params : ConsumeParams)
    : M Conn (Result AuthzReceipt AuthzError) :=
  _ ←? db_err sql_begin_immediate;
  result ← consume_mandate_inner_impl params;
  match result with
  | Ok receipt => _ ←? db_err sql_commit; ok receipt
  | Err e => _ ← sql_rollback; err e
  end.

(** ** mandate_store_next/upsert.rs *)

Definition upsert_mandate_impl (meta : MandateMetadata) : M Conn (Result () AuthzError) :=
  match (if mm_single_use meta
         then opt_filter (fun max => negb (Z.eqb max 1)) (mm_max_uses meta) else None) with
  | Some max => err (InvalidConstraints max)
  | None =>
      let id := mm_mandate_id meta in
      _ ←? db_err (sql_execute (insert_mandate id
        {| mr_mandate_kind := mm_mandate_kind meta;
           mr_audience := mm_audience meta;
           mr_issuer := mm_issuer meta;
           mr_expires_at := to_rfc3339 <$> mm_expires_at meta;
           mr_single_use := if mm_single_use meta then 1 else 0;
           mr_max_uses := mm_max_uses meta;
           mr_use_count := 0;
           mr_canonical_digest := mm_canonical_digest meta;
           mr_key_id := mm_key_id meta |}));
      stored ←? db_err (sql_query (fun d => db_mandates d !! id));
      match stored with
      | Some r =>
          if negb (String.eqb (mr_mandate_kind r) (mm_mandate_kind meta))
          then err (MandateConflict id "mandate_kind")
          else if negb (String.eqb (mr_audience r) (mm_audience meta))
          then err (MandateConflict id "audience")
          else if negb (String.eqb (mr_issuer r) (mm_issuer meta))
          then err (MandateConflict id "issuer")
          else if negb (String.eqb (mr_canonical_digest r) (mm_canonical_digest meta))
          then err (MandateConflict id "canonical_digest")
          else if negb (String.eqb (mr_key_id r) (mm_key_id meta))
          then err (MandateConflict id "key_id")
          else ok ()
      | None => ok ()
      end
  end.

(** ** mandate_store_next/revocation.rs *)

Definition upsert_revocation_impl (r : RevocationRecord) : M Conn (Result () AuthzError) :=
  _ ←? db_err (sql_execute (upsert_revocation_row (rv_mandate_id r)
    {| rr_revoked_at := to_rfc3339 (rv_revoked_at r);
       rr_reason := rv_reason r;
       rr_revoked_by := rv_revoked_by r;
       rr_source := rv_source r;
       rr_event_id := rv_event_id r |}));
  ok ().

Definition get_revoked_at_impl (mandate_id : string) : M Conn (Result (option Z) AuthzError) :=
  s ←? db_err (sql_query (fun d => rr_revoked_at <$> (db_revocations d !! mandate_id)));
  match s with
  | Some ts =>
      match parse_rfc3339 ts with
      | Some dt => ok (Some dt)
      | None => err (Database ("Invalid revoked_at timestamp: " +:+ rfc3339_error ts))
      end
  | None => ok None
  end.

Definition is_revoked_impl (mandate_id : string) : M Conn (Result bool AuthzError) :=
  r ←? get_revoked_at_impl mandate_id; ok (opt_is_some r).

(** ** What a receipt means

    [Consumes params rc d d']: going from [d] to [d'] justifies the receipt
    [rc].  A retry finds the use it repeats and changes nothing; a new
    consumption claims the nonce, stays within the limits of the mandate's row,
    advances its count by one and appends one use. *)

Definition nonce_key (params : ConsumeParams) : option (string * string * string) :=
  (fun n => (cp_audience params, cp_issuer params, n)) <$> cp_nonce params.

Definition claimed (params : ConsumeParams) (d : Db) : Db :=
  match nonce_key params with
  | Some k => d <| db_nonces := <[k := cp_mandate_id params]> (db_nonces d) |>
  | None => d
  end.

Definition new_use (params : ConsumeParams) (n now : Z) : UseRow :=
  {| ur_use_id := compute_use_id_impl (cp_mandate_id params) (cp_tool_call_id params) (as_u32 n);
     ur_mandate_id := cp_mandate_id params;
     ur_tool_call_id := cp_tool_call_id params;
     ur_use_count := n;
     ur_consumed_at := to_rfc3339 now;
     ur_tool_name := cp_tool_name params;
     ur_operation_class := cp_operation_class params;
     ur_nonce := cp_nonce params;
     ur_source_run_id := cp_source_run_id params |}.

Definition new_receipt (params : ConsumeParams) (n now : Z) : AuthzReceipt :=
  {| ar_mandate_id := cp_mandate_id params;
     ar_use_id := ur_use_id (new_use params n now);
     ar_use_count := as_u32 n;
     ar_consumed_at := now;
     ar_tool_call_id := cp_tool_call_id params;
     ar_was_new := true |}.

Inductive Consumes (params : ConsumeParams) : AuthzReceipt -> Db -> Db -> Prop :=
| Consumes_retry d u t :
    select_use (cp_tool_call_id params) d = Some u ->
    (forall dt, parse_rfc3339 (ur_consumed_at u) = Some dt -> t = dt) ->
    Consumes params
      {| ar_mandate_id := cp_mandate_id params; ar_use_id := ur_use_id u;
         ar_use_count := as_u32 (ur_use_count u); ar_consumed_at := t;
         ar_tool_call_id := cp_tool_call_id params; ar_was_new := false |} d d
| Consumes_new d row n now :
    select_use (cp_tool_call_id params) d = None ->
    (forall k, nonce_key params = Some k -> db_nonces d !! k = None) ->
    db_mandates d !! cp_mandate_id params = Some row ->
    check_limits (mr_use_count row) (mr_single_use row) (mr_max_uses row) = Ok n ->
    (forall v, v ∈ db_uses d -> ur_use_id v <> ur_use_id (new_use params n now)) ->
    Consumes params (new_receipt params n now) d
      ((claimed params d)
         <| db_mandates := <[cp_mandate_id params := row <| mr_use_count := n |>]> (db_mandates d) |>
         <| db_uses := db_uses d ++ [new_use params n now] |>).

(** ** Executing statements *)

(** A statement never panics; it either fails, leaving the committed database
    as it was and the transaction as it was or closed, or it runs. *)
Lemma statement_cases {A} (run : Conn -> Result (A * Conn) string) c :
  let c1 := c <| cn_tick := S (cn_tick c) |> in
  (exists e c', statement run c = (Done (Err e), c') /\ cn_committed c' = cn_committed c /\
     (cn_txn c' = cn_txn c \/ cn_txn c' = None)) \/
  (exists a c', run c1 = Ok (a, c') /\ statement run c = (Done (Ok a), c')).
Proof.
  intros c1. unfold statement. fold c1. destruct (env_db_fault (cn_tick c)) as [f|].
  - left. eexists _, _. split; [reflexivity|]. destruct (df_rolls_back f); auto.
  - destruct (run c1) as [[a c']|e] eqn:E; [right|left]; eexists _, _; split; eauto.
Qed.

(** Reasoning about a computation that runs inside a transaction: whatever the
    environment does, it returns, the committed database is untouched, and if
    it succeeds on [d] the transaction holds a [d'] related by [R]. *)
Definition in_txn {A} (m : M Conn (Result A AuthzError)) (d : Db) (R : A -> Db -> Prop) : Prop :=
  forall c, cn_txn c = Some d ->
  exists r c', m c = (Done r, c') /\ cn_committed c' = cn_committed c /\
    (cn_txn c' = None -> is_ok r = false) /\
    match r with
    | Ok a => exists d', cn_txn c' = Some d' /\ R a d'
    | Err _ => True
    end.

Lemma in_txn_ok {A} (a : A) d (R : A -> Db -> Prop) : R a d -> in_txn (ok a) d R.
Proof.
  intros HR c Hc. exists (Ok a), c. rewrite Hc. split_and!; [done..|]. eauto.
Qed.

Lemma in_txn_err {A} e d (R : A -> Db -> Prop) : in_txn (err e) d R.
Proof. intros c Hc. exists (Err e), c. done. Qed.

Lemma in_txn_bind {A B} m (k : A -> M Conn (Result B AuthzError)) d R Q :
  in_txn m d R -> (forall a d', R a d' -> in_txn (k a) d' Q) -> in_txn (try_bind m k) d Q.
Proof.
  intros Hm Hk c Hc. destruct (Hm c Hc) as ([a|e] & c1 & E & Hcm & Hn & HR).
  - destruct HR as (d1 & Ht & HR). destruct (Hk a d1 HR c1 Ht) as (r & c2 & E2 & Hcm2 & Hn2 & HQ).
    exists r, c2. unfold try_bind. rewrite E, E2. split; [done|]. split; [congruence|done].
  - exists (Err e), c1. unfold try_bind. by rewrite E.
Qed.

Lemma in_txn_now {B} (k : Z -> M Conn (Result B AuthzError)) d Q :
  (forall t, in_txn (k t) d Q) -> in_txn (t ← store_now; k t) d Q.
Proof. intros Hk c Hc. unfold mbind, M_bind, store_now. pose (c1 := c <| cn_tick := S (cn_tick c) |>). exact (Hk _ c1 Hc). Qed.

Lemma in_txn_query {A} (f : Db -> A) d :
  in_txn (db_err (sql_query f)) d (fun a d' => a = f d /\ d' = d).
Proof.
  intros c Hc. unfold db_err, sql_query, mbind, M_bind.
  destruct (statement_cases (fun c => Ok (f (current_db c), c)) c)
    as [(e & c' & -> & Hcm & _)|(a & c' & Hr & ->)].
  - by exists (Err (Database e)), c'.
  - injection Hr as <- <-. eexists (Ok _), _. split; [reflexivity|]. unfold current_db. cbn.
    rewrite Hc. split; [done|]. split; [done|]. by exists d.
Qed.

Lemma in_txn_execute f d :
  in_txn (db_err (sql_execute f)) d (fun _ d' => f d = Ok d').
Proof.
  intros c Hc. unfold db_err, sql_execute, mbind, M_bind.
  destruct (statement_cases (fun c => match f (current_db c) with
     | Ok d => Ok ((), set_current_db d c) | Err e => Err e end) c)
    as [(e & c' & -> & Hcm & _)|(a & c' & Hr & ->)].
  - by exists (Err (Database e)), c'.
  - unfold current_db in Hr. cbn in Hr. rewrite Hc in Hr. cbn in Hr.
    destruct (f d) as [d'|]; [|done]. injection Hr as <- <-.
    unfold set_current_db. cbn. rewrite Hc. eexists (Ok _), _. split; [reflexivity|]. cbn.
    split; [done|]. split; [done|]. by exists d'.
Qed.

Lemma in_txn_claim params d :
  in_txn (claim_nonce params) d (fun _ d' => d' = claimed params d /\
    forall k, nonce_key params = Some k -> db_nonces d !! k = None).
Proof.
  unfold claim_nonce, claimed, nonce_key. destruct (cp_nonce params) as [n|]; cbn [fmap option_fmap option_map];
    [|apply in_txn_ok; by split].
  intros c Hc. pose proof (in_txn_execute (insert_nonce (cp_audience params, cp_issuer params, n)
    (cp_mandate_id params)) d c Hc) as (r & c' & E & Hcm & Hn & HR).
  unfold db_err, mbind, M_bind in *. destruct (sql_execute _ c) as [[[a|e]|] c1]; [| |done].
  - injection E as <- <-. destruct HR as (d' & Ht & HR). unfold insert_nonce in HR.
    destruct (db_nonces d !! _) eqn:Ek; [done|]. injection HR as <-.
    eexists (Ok ()), c1. split; [done|]. split; [done|]. split; [done|].
    eexists. split; [done|]. split; [done|]. by intros k [= <-].
  - injection E as <- <-. destruct (str_contains e _); (eexists (Err _), c1; done).
Qed.

Lemma find_tool_call_None id d :
  select_use id d = None <-> forall u, u ∈ db_uses d -> ur_tool_call_id u <> id.
Proof.
  unfold select_use. split.
  - intros Hf u Hu. apply list_elem_of_In in Hu. apply (List.find_none _ _ Hf) in Hu.
    by apply String.eqb_neq.
  - intros Hn. destruct (List.find _ _) as [u|] eqn:E; [|done].
    apply List.find_some in E as [Hu E]. apply String.eqb_eq in E.
    by apply list_elem_of_In, Hn in Hu.
Qed.

Lemma insert_use_ok u d d' :
  insert_use u d = Ok d' ->
  d' = d <| db_uses := db_uses d ++ [u] |> /\
  (forall v, v ∈ db_uses d -> ur_use_id v <> ur_use_id u).
Proof.
  unfold insert_use.
  destruct (existsb (fun v => String.eqb (ur_use_id v) _) _) eqn:E1; [done|].
  repeat case_match; try done. intros [= <-]. split; [done|].
  intros v Hv. rewrite existsb_false in E1. apply E1 in Hv. by apply String.eqb_neq.
Qed.

(** The body of a consumption produces only justified receipts. *)
Lemma consume_inner_spec params d :
  in_txn (consume_mandate_inner_impl params) d (fun rc d' => Consumes params rc d d').
Proof.
  unfold consume_mandate_inner_impl. eapply in_txn_bind; [apply in_txn_query|].
  intros existing ? [-> ->]. destruct (select_use _ d) as [u|] eqn:Es.
  { destruct (parse_rfc3339 (ur_consumed_at u)) as [dt|] eqn:Ep.
    - apply in_txn_ok, Consumes_retry; [done|]. congruence.
    - apply in_txn_now. intros t. apply in_txn_ok, Consumes_retry; [done|]. congruence. }
  eapply in_txn_bind; [apply in_txn_claim|]. intros [] d1 [-> Hnonce].
  eapply in_txn_bind; [apply in_txn_query|]. intros row ? [-> ->].
  assert (Hm : db_mandates (claimed params d) = db_mandates d)
    by (unfold claimed; by destruct (nonce_key params)).
  assert (Hu : db_uses (claimed params d) = db_uses d)
    by (unfold claimed; by destruct (nonce_key params)).
  rewrite Hm. destruct (db_mandates d !! cp_mandate_id params) as [row|] eqn:Er;
    [|apply in_txn_err].
  destruct (check_limits _ _ _) as [n|e] eqn:El; [|apply in_txn_err].
  eapply (in_txn_bind (ok n) _ _ (fun a d' => a = n /\ d' = claimed params d));
    [by apply in_txn_ok|]. intros ? ? [-> ->].
  eapply in_txn_bind; [apply in_txn_execute|]. intros [] d2 Hd2.
  unfold update_use_count in Hd2. rewrite Hm, Er in Hd2. inversion Hd2 as [Hd2']. subst d2. clear Hd2.
  apply in_txn_now. intros now.
  eapply in_txn_bind; [apply in_txn_execute|]. intros [] d3 [-> Hid]%insert_use_ok.
  apply in_txn_ok. cbn [db_uses set_field] in Hid |- *. rewrite Hu in Hid |- *.
  by apply (Consumes_new params d row n now).
Qed.

(** A consumption, statement failures included: it returns, and the committed
    database changes only together with a receipt that justifies the change. *)
Lemma consume_txn_spec params c :
  exists r c', consume_mandate_in_txn_impl params c = (Done r, c') /\
  match r with
  | Ok rc => cn_txn c = None /\ cn_txn c' = None /\
             Consumes params rc (cn_committed c) (cn_committed c')
  | Err _ => cn_committed c' = cn_committed c
  end.
Proof.
  unfold consume_mandate_in_txn_impl, db_err, try_bind, mbind, M_bind.
  unfold sql_begin_immediate.
  match goal with |- context [statement ?f c] => destruct (statement_cases f c)
    as [(e & c1 & -> & Hcm & _)|(a & c1 & Hr & ->)] end.
  { by eexists (Err _), c1. }
  cbn in Hr. destruct (cn_txn c) eqn:Et; [done|]. injection Hr as <- <-. cbn [result_map_err mret M_ret].
  set (c1 := set_field cn_txn _ _).
  destruct (consume_inner_spec params (cn_committed c) c1 eq_refl)
    as ([rc|e] & c2 & -> & Hcm & Hn & HR).
  - destruct HR as (d' & Ht & HR). unfold sql_commit.
    match goal with |- context [statement ?f c2] => destruct (statement_cases f c2)
      as [(e & c3 & -> & Hcm3 & _)|([] & c3 & Hr & ->)] end.
    + eexists (Err _), c3. split; [done|]. rewrite Hcm3, Hcm. done.
    + cbn in Hr. rewrite Ht in Hr. injection Hr as <-. by eexists (Ok _), _.
  - unfold sql_rollback.
    match goal with |- context [statement ?f c2] => destruct (statement_cases f c2)
      as [(e' & c3 & -> & Hcm3 & _)|([] & c3 & Hr & ->)] end.
    + eexists (Err _), c3. split; [done|]. rewrite Hcm3, Hcm. done.
    + cbn in Hr. destruct (cn_txn c2); [|done]. injection Hr as <-. by eexists (Err _), _.
Qed.

(** ** The invariant of the ledger *)

Definition uses_count (id : string) (d : Db) : nat := length (uses_of id d).

(** The count of a mandate is the number of its uses, which are numbered 1, 2,
    3, ... in order and are within its limits; every use belongs to a known
    mandate; tool calls and use ids are unique. *)
Definition row_inv (d : Db) (id : string) (row : MandateRow) : Prop :=
  mr_use_count row = Z.of_nat (uses_count id d) /\
  map ur_use_count (uses_of id d) = map Z.of_nat (seq 1 (uses_count id d)) /\
  (mr_single_use row <> 0%Z -> (uses_count id d <= 1)%nat) /\
  (forall max, mr_max_uses row = Some max -> (Z.of_nat (uses_count id d) <= max)%Z).

Definition db_inv (d : Db) : Prop :=
  (forall id row, db_mandates d !! id = Some row -> row_inv d id row) /\
  (forall u, u ∈ db_uses d -> is_Some (db_mandates d !! ur_mandate_id u)) /\
  NoDup (map ur_tool_call_id (db_uses d)) /\ NoDup (map ur_use_id (db_uses d)).

Lemma uses_of_snoc id (d d' : Db) u :
  db_uses d' = db_uses d ++ [u] ->
  uses_of id d' = uses_of id d ++ (if String.eqb (ur_mandate_id u) id then [u] else []).
Proof.
  intros E. unfold uses_of. rewrite E, List.filter_app. simpl. by destruct (String.eqb _ _).
Qed.

Lemma check_limits_ok count single max n :
  check_limits count single max = Ok n ->
  n = i64_wrap (count + 1) /\ (single <> 0 -> count <= 0)%Z /\
  (forall m, max = Some m -> (n <= m)%Z).
Proof.
  unfold check_limits. destruct (Z.eqb_spec single 0), (Z.ltb_spec 0 count); cbn; try done;
    (destruct max as [m|]; [destruct (Z.ltb_spec m (i64_wrap (count + 1))); [done|]|]);
    intros [= <-]; (split; [done|]); (split; [lia|]); intros m' Hm; by simplify_eq.
Qed.

Lemma check_limits_grants count single max :
  (0 <= count < i64_max)%Z -> (single <> 0 -> count = 0)%Z ->
  (forall m, max = Some m -> (count < m)%Z) -> check_limits count single max = Ok (count + 1)%Z.
Proof.
  intros Hc Hs Hm. unfold check_limits. rewrite i64_wrap_small by (unfold i64_max in *; lia). cbv zeta.
  assert (Hx : negb (Z.eqb single 0) && (0 <? count)%Z = false).
  { destruct (Z.eqb_spec single 0) as [|Hn]; [done|]. rewrite (Hs Hn). done. }
  rewrite Hx. destruct max as [m|]; [|done]. specialize (Hm m eq_refl).
  destruct (Z.ltb_spec m (count + 1)); [lia|done].
Qed.

Lemma NoDup_snoc_map {A B} (f : A -> B) l x :
  NoDup (map f l) -> (forall y, y ∈ l -> f y <> f x) -> NoDup (map f (l ++ [x])).
Proof.
  intros Hnd Hx. rewrite map_app. apply NoDup_app. split; [done|]. split; [|apply NoDup_singleton].
  intros y (z & -> & Hz)%list_elem_of_fmap Hy. simpl in Hy. apply list_elem_of_singleton in Hy.
  by apply (Hx z).
Qed.

Lemma NoDup_map_inj {A B} (f : A -> B) l x y :
  NoDup (map f l) -> x ∈ l -> y ∈ l -> f x = f y -> x = y.
Proof.
  induction l as [|z l IH]; simpl; [by intros _ Hx; inversion Hx|].
  intros [Hz Hnd]%NoDup_cons Hx Hy E.
  apply elem_of_cons in Hx as [->|Hx], Hy as [->|Hy]; auto; exfalso; apply Hz;
    apply list_elem_of_fmap; eauto.
Qed.

Lemma row_inv_consumed d d' id row n u :
  row_inv d id row -> (Z.of_nat (uses_count id d) < i64_max)%Z ->
  check_limits (mr_use_count row) (mr_single_use row) (mr_max_uses row) = Ok n ->
  ur_mandate_id u = id -> ur_use_count u = n -> db_uses d' = db_uses d ++ [u] ->
  row_inv d' id (row <| mr_use_count := n |>).
Proof.
  intros (Hc & Hseq & Hs & Hm) Hlt (Hn & Hl1 & Hl2)%check_limits_ok Hu Hun Hd'.
  assert (Hus : uses_of id d' = uses_of id d ++ [u]).
  { rewrite (uses_of_snoc _ _ _ _ Hd'). by rewrite Hu, String.eqb_refl. }
  assert (Hcnt : uses_count id d' = S (uses_count id d)).
  { unfold uses_count. rewrite Hus, length_app. simpl. lia. }
  rewrite i64_wrap_small in Hn by (unfold i64_max in *; lia).
  assert (Hn' : n = Z.of_nat (S (uses_count id d))) by lia.
  unfold row_inv. rewrite Hcnt, Hus. cbn [mr_use_count mr_single_use mr_max_uses set_field].
  split; [done|]. split; [|split].
  - rewrite seq_S, !map_app, Hseq. cbn. by rewrite Hun, Hn'.
  - intros Hne. specialize (Hl1 Hne). lia.
  - intros m Hmm. specialize (Hl2 m Hmm). lia.
Qed.

Lemma row_inv_other d d' id row :
  row_inv d id row -> uses_of id d' = uses_of id d -> row_inv d' id row.
Proof. unfold row_inv, uses_count. by intros Hr ->. Qed.

Lemma uses_count_le id d : (uses_count id d <= length (db_uses d))%nat.
Proof. apply List.filter_length_le. Qed.

Lemma consumes_inv params rc d d' :
  Consumes params rc d d' -> db_inv d -> (Z.of_nat (length (db_uses d)) < i64_max)%Z ->
  db_inv d'.
Proof.
  destruct 1 as [d u t|d row n now Hsel Hk Hrow Hlim Hid]; [done|].
  intros (Hrows & Hfk & Htc & Huid) Hlt. set (d' := set_field db_uses _ _).
  assert (Hd' : db_uses d' = db_uses d ++ [new_use params n now]) by done.
  assert (Hm' : db_mandates d' =
    <[cp_mandate_id params := row <| mr_use_count := n |>]> (db_mandates d)) by done.
  clearbody d'. split; [|split; [|split]].
  - intros id r Hr. rewrite Hm' in Hr. destruct (decide (id = cp_mandate_id params)) as [->|Hne].
    + rewrite lookup_insert_eq in Hr. injection Hr as <-.
      pose proof (uses_count_le (cp_mandate_id params) d).
      eapply (row_inv_consumed d d' _ row n (new_use params n now)); [by apply Hrows|lia|done..].
    + rewrite lookup_insert_ne in Hr by done. apply (row_inv_other d); [by apply Hrows|].
      rewrite (uses_of_snoc _ _ _ _ Hd'). cbn [ur_mandate_id new_use].
      rewrite (proj2 (String.eqb_neq _ _)) by done. by rewrite app_nil_r.
  - intros v. rewrite Hd', Hm', lookup_insert_is_Some', elem_of_app, list_elem_of_singleton.
    intros [Hv| ->]; [right; by apply Hfk|by left].
  - rewrite Hd'. apply NoDup_snoc_map; [done|]. by apply find_tool_call_None.
  - rewrite Hd'. by apply NoDup_snoc_map.
Qed.

Lemma insert_mandate_inv id row d d' :
  insert_mandate id row d = Ok d' -> db_inv d -> mr_use_count row = 0%Z ->
  (forall m, mr_max_uses row = Some m -> (0 <= m)%Z) -> db_inv d'.
Proof.
  unfold insert_mandate. destruct (db_mandates d !! id) eqn:E; intros [= <-]; [done|].
  intros (Hrows & Hfk & Htc & Huid) H0c Hmax. split; [|split; [|done]]; cbn.
  - intros id' r Hr. destruct (decide (id' = id)) as [->|Hne].
    + rewrite lookup_insert_eq in Hr. injection Hr as <-.
      assert (Hnil : uses_of id d = []).
      { unfold uses_of. destruct (List.filter _ (db_uses d)) as [|u us] eqn:Ef; [done|]. exfalso.
        assert (Hu : List.In u (List.filter (fun u => String.eqb (ur_mandate_id u) id) (db_uses d)))
          by (rewrite Ef; by left).
        apply List.filter_In in Hu as [Hu Hi]. apply String.eqb_eq in Hi.
        apply list_elem_of_In, Hfk in Hu. rewrite Hi, E in Hu. by destruct Hu. }
      unfold row_inv, uses_count.
      change (uses_of id (set_field db_mandates _ d)) with (uses_of id d). rewrite Hnil. cbn.
      split; [done|]. split; [done|]. split; [lia|]. intros m Hm. by apply Hmax.
    + rewrite lookup_insert_ne in Hr by done. apply (row_inv_other d); [by apply Hrows|done].
  - intros u Hu. rewrite lookup_insert_is_Some'. right. by apply Hfk.
Qed.

(** ** Runs of the store

    A run starts on an empty database and is any sequence of operations, each
    under whatever statement failures the environment picks, with the
    connection reopened at will (which drops an open transaction).  The trace
    holds the receipts that consumptions returned, with their parameters. *)

Abbreviation Trace := (list (ConsumeParams * AuthzReceipt)).

(** [max_uses] is a [u32]. *)
Definition meta_typed (meta : MandateMetadata) : Prop :=
  forall m, mm_max_uses meta = Some m -> (0 <= m <= u32_max)%Z.

Inductive StoreRun : Conn -> Trace -> Prop :=
| run_open t : StoreRun (mkConn db_empty None t) []
| run_upsert c tr meta :
    StoreRun c tr -> meta_typed meta -> StoreRun (snd (upsert_mandate_impl meta c)) tr
| run_revoke c tr r : StoreRun c tr -> StoreRun (snd (upsert_revocation_impl r c)) tr
| run_query c tr A (f : Db -> A) : StoreRun c tr -> StoreRun (snd (sql_query f c)) tr
| run_consume_ok c tr params rc c' :
    StoreRun c tr -> consume_mandate_in_txn_impl params c = (Done (Ok rc), c') ->
    StoreRun c' (tr ++ [(params, rc)])
| run_consume_err c tr params e c' :
    StoreRun c tr -> consume_mandate_in_txn_impl params c = (Done (Err e), c') ->
    StoreRun c' tr
| run_reopen c tr : StoreRun c tr -> StoreRun (c <| cn_txn := None |>) tr.

(** The new consumptions of a mandate, and those that used a nonce. *)
Definition new_uses (id : string) (tr : Trace) : Trace :=
  List.filter (fun e => ar_was_new (snd e) && String.eqb (ar_mandate_id (snd e)) id) tr.

Definition nonce_uses (k : string * string * string) (tr : Trace) : Trace :=
  List.filter (fun e => ar_was_new (snd e) && bool_decide (nonce_key (fst e) = Some k)) tr.

Lemma sql_query_committed {A} (f : Db -> A) c :
  cn_committed (snd (sql_query f c)) = cn_committed c.
Proof.
  unfold sql_query. destruct (statement_cases (fun c => Ok (f (current_db c), c)) c)
    as [(e & c' & -> & Hcm & _)|(a & c' & Hr & ->)]; [done|]. by injection Hr as <- <-.
Qed.

Lemma sql_execute_committed f c :
  cn_committed (snd (sql_execute f c)) = cn_committed c \/
  f (cn_committed c) = Ok (cn_committed (snd (sql_execute f c))).
Proof.
  unfold sql_execute. destruct (statement_cases (fun c => match f (current_db c) with
     | Ok d => Ok ((), set_current_db d c) | Err e => Err e end) c)
    as [(e & c' & -> & Hcm & _)|(a & c' & Hr & ->)]; [by left|].
  unfold current_db, set_current_db in Hr. cbn in Hr. destruct (cn_txn c) as [d|]; cbn in Hr.
  - destruct (f d); [|done]. injection Hr as <- <-. by left.
  - destruct (f (cn_committed c)) as [d|]; [|done]. injection Hr as <- <-. by right.
Qed.

Lemma db_err_committed {A} (m : M Conn (Result A string)) c :
  snd (db_err m c) = snd (m c).
Proof. unfold db_err, mbind, M_bind. by destruct (m c) as [[]]. Qed.

Lemma try_bind_snd {A B} m (k : A -> M Conn (Result B AuthzError)) c (P : Conn -> Prop) :
  P (snd (m c)) -> (forall a c, P c -> P (snd (k a c))) -> P (snd (try_bind m k c)).
Proof.
  intros Hm Hk. unfold try_bind. destruct (m c) as [[[a|e]|] c']; [by apply Hk|done..].
Qed.

Lemma upsert_mandate_committed meta c :
  let d := cn_committed c in
  let d' := cn_committed (snd (upsert_mandate_impl meta c)) in
  d' = d \/ exists row, insert_mandate (mm_mandate_id meta) row d = Ok d' /\
    mr_use_count row = 0%Z /\ mr_max_uses row = mm_max_uses meta.
Proof.
  cbn zeta. unfold upsert_mandate_impl. case_match; [by left|]. set (row := mkMandateRow _ _ _ _ _ _ _ _ _).
  assert (Hrow : mr_use_count row = 0%Z /\ mr_max_uses row = mm_max_uses meta) by done.
  clearbody row.
  apply (try_bind_snd _ _ _ (fun c' => cn_committed c' = cn_committed c \/ exists row,
    insert_mandate (mm_mandate_id meta) row (cn_committed c) = Ok (cn_committed c') /\
    mr_use_count row = 0%Z /\ mr_max_uses row = mm_max_uses meta)).
  - rewrite db_err_committed.
    destruct (sql_execute_committed (insert_mandate (mm_mandate_id meta) row) c); eauto.
  - intros _ c1 Hc1. apply try_bind_snd.
    + rewrite db_err_committed, sql_query_committed. done.
    + intros [r|] c2 Hc2; [|done]. by repeat case_match.
Qed.

Lemma upsert_revocation_committed r c :
  let d := cn_committed c in
  let d' := cn_committed (snd (upsert_revocation_impl r c)) in
  db_mandates d' = db_mandates d /\ db_uses d' = db_uses d /\ db_nonces d' = db_nonces d.
Proof.
  cbn zeta. unfold upsert_revocation_impl. set (row := mkRevocationRow _ _ _ _ _).
  apply (try_bind_snd _ _ _ (fun c' => db_mandates (cn_committed c') = _ /\
    db_uses (cn_committed c') = _ /\ db_nonces (cn_committed c') = _)); [|done].
  rewrite db_err_committed.
  destruct (sql_execute_committed (upsert_revocation_row (rv_mandate_id r) row) c) as [E|E].
  - by rewrite E.
  - unfold upsert_revocation_row at 1 in E. injection E as E. by rewrite <- E.
Qed.

Lemma insert_mandate_keeps id row d d' :
  insert_mandate id row d = Ok d' -> db_uses d' = db_uses d /\ db_nonces d' = db_nonces d.
Proof. unfold insert_mandate. by destruct (db_mandates d !! id); intros [= <-]. Qed.

Lemma db_inv_eq d d' :
  db_mandates d' = db_mandates d -> db_uses d' = db_uses d -> db_inv d -> db_inv d'.
Proof.
  intros Em Eu. unfold db_inv, row_inv, uses_count, uses_of. by rewrite Em, Eu.
Qed.

(** What a run maintains. *)
Definition run_inv (c : Conn) (tr : Trace) : Prop :=
  let d := cn_committed c in
  db_inv d /\ (length (db_uses d) <= length tr)%nat /\
  (forall id, length (new_uses id tr) = uses_count id d) /\
  (forall k, (length (nonce_uses k tr) <= 1)%nat /\
             (nonce_uses k tr <> [] -> is_Some (db_nonces d !! k))).

Lemma run_inv_db c c' tr :
  run_inv c tr -> db_inv (cn_committed c') ->
  db_uses (cn_committed c') = db_uses (cn_committed c) ->
  db_nonces (cn_committed c') = db_nonces (cn_committed c) -> run_inv c' tr.
Proof.
  intros (_ & Hl & Hu & Hn) Hinv Eu En. unfold run_inv, uses_count, uses_of in *.
  by rewrite Eu, En.
Qed.

Lemma run_inv_consume c c' tr params rc :
  run_inv c tr -> Consumes params rc (cn_committed c) (cn_committed c') ->
  (Z.of_nat (length tr) < i64_max)%Z -> run_inv c' (tr ++ [(params, rc)]).
Proof.
  intros (Hinv & Hl & Hu & Hn) HC Hlt. unfold run_inv, new_uses, nonce_uses in *.
  assert (Hinv' : db_inv (cn_committed c')) by (eapply consumes_inv; [done..|lia]).
  split; [done|]. rewrite length_app. cbn [length]. clear Hinv Hinv'.
  generalize dependent (cn_committed c'). generalize dependent (cn_committed c). clear c c'.
  intros d0 Hl Hu Hn d1 HC.
  destruct HC as [d u t Hsel Ht|d row n now Hsel Hk Hrow Hlim Hid].
  - setoid_rewrite List.filter_app. cbn [List.filter snd ar_was_new andb].
    setoid_rewrite app_nil_r. split; [lia|]. done.
  - setoid_rewrite List.filter_app. split; [cbn; rewrite length_app; simpl; lia|]. split.
    + intros id. rewrite length_app, Hu. unfold uses_count.
      set (d2 := set_field db_uses _ _).
      rewrite (uses_of_snoc id d d2 (new_use params n now) eq_refl), length_app.
      cbn -[String.eqb]. by destruct (String.eqb _ id).
    + intros k. specialize (Hn k) as [Hle Hsome]. cbn [List.filter fst snd ar_was_new new_receipt andb].
      assert (Hnon : db_nonces (claimed params d) =
        match nonce_key params with
        | Some k => <[k := cp_mandate_id params]> (db_nonces d)
        | None => db_nonces d end)
        by (unfold claimed; by destruct (nonce_key params)).
      cbn [db_nonces set_field]. rewrite Hnon. case_bool_decide as Ek.
      * rewrite Ek, lookup_insert_eq, length_app. split; [|done].
        destruct (List.filter _ tr); [done|]. specialize (Hsome ltac:(done)).
        rewrite (Hk _ Ek) in Hsome. by destruct Hsome.
      * rewrite app_nil_r. split; [done|]. intros Hne. specialize (Hsome Hne).
        destruct (nonce_key params) as [k'|]; [|done]. rewrite lookup_insert_ne by congruence. done.
Qed.

Lemma store_run_inv c tr :
  StoreRun c tr -> (Z.of_nat (length tr) <= i64_max)%Z -> run_inv c tr.
Proof.
  induction 1 as [t|c tr meta Hrun IH Hty|c tr r Hrun IH|c tr A f Hrun IH
                 |c tr params rc c' Hrun IH E|c tr params e c' Hrun IH E|c tr Hrun IH];
    intros Hlen.
  - split; [|split; [done|split; [done|]]].
    + split; [by intros ? ?|]. split; [by intros ? Hu; inversion Hu|]. split; constructor.
    + intros k. split; [cbn; lia|done].
  - specialize (IH Hlen). destruct (upsert_mandate_committed meta c) as [E|(row & E & H0c & Hm)].
    + apply (run_inv_db c); [done|rewrite E; apply IH|by rewrite E..].
    + destruct (insert_mandate_keeps _ _ _ _ E) as [Eu En].
      apply (run_inv_db c); [done| |done..]. eapply insert_mandate_inv; [done|apply IH|done|].
      intros m. rewrite Hm. intros Hmm. by apply Hty.
  - specialize (IH Hlen). destruct (upsert_revocation_committed r c) as (Em & Eu & En).
    apply (run_inv_db c); [done| |done..]. eapply db_inv_eq; [done..|apply IH].
  - specialize (IH Hlen). apply (run_inv_db c); [done|rewrite sql_query_committed; apply IH|..];
      by rewrite sql_query_committed.
  - rewrite length_app in Hlen. cbn in Hlen. destruct (consume_txn_spec params c) as (r & c1 & E1 & HC).
    rewrite E in E1. injection E1 as <- <-. destruct HC as (_ & _ & HC).
    eapply run_inv_consume; [apply IH; lia|done|lia].
  - destruct (consume_txn_spec params c) as (r & c1 & E1 & HC).
    rewrite E in E1. injection E1 as <- <-. specialize (IH Hlen).
    apply (run_inv_db c); [done|rewrite HC; apply IH|by rewrite HC..].
  - exact (IH Hlen).
Qed.

(** Receipts stay backed by a use: uses are only ever appended. *)
Definition receipt_backed (d : Db) (rc : AuthzReceipt) : Prop :=
  exists u, u ∈ db_uses d /\ ur_tool_call_id u = ar_tool_call_id rc /\
    ur_use_id u = ar_use_id rc /\ as_u32 (ur_use_count u) = ar_use_count rc.

Lemma consumes_append params rc d d' :
  Consumes params rc d d' -> (exists l, db_uses d' = db_uses d ++ l) /\ receipt_backed d' rc.
Proof.
  destruct 1 as [d u t Hsel Ht|d row n now Hsel Hk Hrow Hlim Hid].
  - split; [exists []; by rewrite app_nil_r|]. apply List.find_some in Hsel as [Hu E].
    apply String.eqb_eq in E. exists u. by rewrite list_elem_of_In.
  - split; [by eexists|]. exists (new_use params n now). split; [|done]. cbn.
    apply elem_of_app. right. by apply list_elem_of_singleton.
Qed.

Lemma receipt_backed_mono d d' rc l :
  db_uses d' = db_uses d ++ l -> receipt_backed d rc -> receipt_backed d' rc.
Proof.
  intros E (u & Hu & ?). exists u. rewrite E. split; [|done]. apply elem_of_app. by left.
Qed.

Lemma store_run_backed c tr :
  StoreRun c tr -> forall e, e ∈ tr -> receipt_backed (cn_committed c) (snd e).
Proof.
  induction 1 as [t|c tr meta Hrun IH Hty|c tr r Hrun IH|c tr A f Hrun IH
                 |c tr params rc c' Hrun IH E|c tr params e c' Hrun IH E|c tr Hrun IH];
    intros x Hx.
  - by inversion Hx.
  - eapply (receipt_backed_mono _ _ _ []); [|by apply IH]. rewrite app_nil_r.
    destruct (upsert_mandate_committed meta c) as [->|(row & E & _)]; [done|].
    apply (insert_mandate_keeps _ _ _ _ E).
  - eapply (receipt_backed_mono _ _ _ []); [|by apply IH]. rewrite app_nil_r.
    apply (upsert_revocation_committed r c).
  - rewrite sql_query_committed. by apply IH.
  - destruct (consume_txn_spec params c) as (r & c1 & E1 & HC).
    rewrite E in E1. injection E1 as <- <-. destruct HC as (_ & _ & HC).
    apply consumes_append in HC as [[l Hl] Hrc].
    apply elem_of_app in Hx as [Hx| ->%list_elem_of_singleton]; [|done].
    eapply receipt_backed_mono; [done|by apply IH].
  - destruct (consume_txn_spec params c) as (r & c1 & E1 & HC).
    rewrite E in E1. injection E1 as <- <-. rewrite HC. by apply IH.
  - by apply IH.
Qed.

(** Without failures statements do what they say. *)
Definition no_faults (c : Conn) : Prop := forall t, (cn_tick c <= t)%nat -> env_db_fault t = None.

Lemma statement_run {A} (run : Conn -> Result (A * Conn) string) c :
  no_faults c ->
  statement run c =
  match run (c <| cn_tick := S (cn_tick c) |>) with
  | Ok (a, c') => (Done (Ok a), c')
  | Err e => (Done (Err e), c <| cn_tick := S (cn_tick c) |>)
  end.
Proof. intros Hf. unfold statement. by rewrite (Hf _ (le_n _)). Qed.

Lemma no_faults_tick c c' : no_faults c -> (cn_tick c <= cn_tick c')%nat -> no_faults c'.
Proof. intros Hf Hle t Ht. apply Hf. lia. Qed.

Lemma insert_use_accepts u d :
  (forall v, v ∈ db_uses d -> ur_use_id v <> ur_use_id u /\
     ur_tool_call_id v <> ur_tool_call_id u /\
     (ur_mandate_id v = ur_mandate_id u -> ur_use_count v <> ur_use_count u)) ->
  is_Some (db_mandates d !! ur_mandate_id u) ->
  insert_use u d = Ok (d <| db_uses := db_uses d ++ [u] |>).
Proof.
  intros Hu [row Hrow]. unfold insert_use.
  rewrite !(proj2 (existsb_false _ _)); [by rewrite Hrow|..]; intros v Hv;
    destruct (Hu v Hv) as (H1 & H2 & H3).
  - rewrite andb_false_iff, String.eqb_neq, Z.eqb_neq.
    destruct (decide (ur_mandate_id v = ur_mandate_id u)); auto.
  - by apply String.eqb_neq.
  - by apply String.eqb_neq.
Qed.

Lemma fresh_use_count d id row v :
  row_inv d id row -> v ∈ db_uses d -> ur_mandate_id v = id ->
  (1 <= ur_use_count v <= mr_use_count row)%Z.
Proof.
  intros (Hc & Hseq & _) Hv <-.
  assert (Hin : ur_use_count v ∈ map ur_use_count (uses_of (ur_mandate_id v) d)).
  { apply list_elem_of_fmap. exists v. split; [done|]. apply list_elem_of_In, List.filter_In.
    by rewrite <- list_elem_of_In, String.eqb_refl. }
  rewrite Hseq in Hin. apply list_elem_of_fmap in Hin as (k & -> & Hk).
  apply elem_of_seq in Hk. lia.
Qed.

(** A successful step: it returns [a], moves the current database of the
    transaction to [d'] and leaves everything else. *)
Definition steps_to {A} (m : M Conn (Result A AuthzError)) (a : A) (cm d d' : Db) : Prop :=
  forall c, no_faults c -> cn_committed c = cm -> cn_txn c = Some d ->
  exists c', m c = (Done (Ok a), c') /\ no_faults c' /\ cn_committed c' = cm /\
    cn_txn c' = Some d'.

Lemma steps_ok {A} (a : A) cm d : steps_to (ok a) a cm d d.
Proof. intros c Hf Hcm Ht. by exists c. Qed.

Lemma steps_query {A} (f : Db -> A) cm d : steps_to (db_err (sql_query f)) (f d) cm d d.
Proof.
  intros c Hf Hcm Ht. unfold db_err, sql_query, mbind, M_bind. rewrite statement_run by done.
  unfold current_db. cbn. rewrite Ht. eexists. split; [reflexivity|]. split; [|done].
  eapply no_faults_tick; [done|cbn; lia].
Qed.

Lemma execute_run f c d d' :
  no_faults c -> cn_txn c = Some d -> f d = Ok d' ->
  sql_execute f c = (Done (Ok ()), c <| cn_tick := S (cn_tick c) |> <| cn_txn := Some d' |>).
Proof.
  intros Hf Ht E. unfold sql_execute. rewrite statement_run by done.
  unfold current_db, set_current_db. cbn. rewrite Ht. cbn. by rewrite E.
Qed.

Lemma steps_execute f cm d d' :
  f d = Ok d' -> steps_to (db_err (sql_execute f)) () cm d d'.
Proof.
  intros E c Hf Hcm Ht. unfold db_err, mbind, M_bind. rewrite (execute_run _ _ _ _ Hf Ht E).
  eexists. split; [reflexivity|]. split; [|done]. eapply no_faults_tick; [done|cbn; lia].
Qed.

Lemma steps_claim params cm d :
  (forall k, nonce_key params = Some k -> db_nonces d !! k = None) ->
  steps_to (claim_nonce params) () cm d (claimed params d).
Proof.
  unfold claim_nonce, claimed, nonce_key. destruct (cp_nonce params) as [n|]; cbn [fmap option_fmap option_map];
    [|intros _; apply steps_ok].
  intros Hk c Hf Hcm Ht. specialize (Hk _ eq_refl). unfold mbind, M_bind.
  rewrite (execute_run _ _ d (d <| db_nonces := _ |>) Hf Ht)
    by (unfold insert_nonce; by rewrite Hk).
  eexists. split; [reflexivity|]. split; [|done]. eapply no_faults_tick; [done|cbn; lia].
Qed.

(** A consumption within the limits, on a fresh tool call and nonce, succeeds. *)
Lemma consume_inner_succeeds params cm d row n now :
  db_inv d -> select_use (cp_tool_call_id params) d = None ->
  (forall k, nonce_key params = Some k -> db_nonces d !! k = None) ->
  db_mandates d !! cp_mandate_id params = Some row ->
  (mr_use_count row < i64_max)%Z ->
  check_limits (mr_use_count row) (mr_single_use row) (mr_max_uses row) = Ok n ->
  (forall v, v ∈ db_uses d -> ur_use_id v <> ur_use_id (new_use params n now)) ->
  forall c, no_faults c -> cn_committed c = cm -> cn_txn c = Some d ->
  exists t d' c', consume_mandate_inner_impl params c = (Done (Ok (new_receipt params n t)), c') /\
    no_faults c' /\ cn_committed c' = cm /\ cn_txn c' = Some d'.
Proof.
  intros Hinv Hsel Hk Hrow Hmax Hlim Hid c Hf Hcm Ht.
  pose proof (check_limits_ok _ _ _ _ Hlim) as (Hn & _).
  destruct Hinv as (Hrows & _ & Htc & _). pose proof (Hrows _ _ Hrow) as Hri.
  rewrite i64_wrap_small in Hn by (destruct Hri as (Hc0 & _); unfold i64_max in *; lia).
  assert (Hm : db_mandates (claimed params d) = db_mandates d)
    by (unfold claimed; by destruct (nonce_key params)).
  assert (Hu : db_uses (claimed params d) = db_uses d)
    by (unfold claimed; by destruct (nonce_key params)).
  unfold consume_mandate_inner_impl.
  destruct (steps_query (select_use (cp_tool_call_id params)) cm d c Hf Hcm Ht)
    as (c1 & E1 & Hf1 & Hcm1 & Ht1). unfold try_bind at 1. rewrite E1, Hsel. clear E1.
  destruct (steps_claim params cm d Hk c1 Hf1 Hcm1 Ht1) as (c2 & E2 & Hf2 & Hcm2 & Ht2).
  unfold try_bind at 1. rewrite E2. clear E2.
  destruct (steps_query (fun d => db_mandates d !! cp_mandate_id params) cm _ c2 Hf2 Hcm2 Ht2)
    as (c3 & E3 & Hf3 & Hcm3 & Ht3). unfold try_bind at 1. rewrite E3, Hm, Hrow. clear E3.
  unfold try_bind at 1. cbn [mret M_ret]. rewrite Hlim.
  destruct (steps_execute (update_use_count (cp_mandate_id params) n) cm (claimed params d) _
    ltac:(unfold update_use_count; by rewrite Hm, Hrow) c3 Hf3 Hcm3 Ht3)
    as (c4 & E4 & Hf4 & Hcm4 & Ht4).
  unfold try_bind at 1. rewrite E4. clear E4. unfold mbind, M_bind, store_now.
  set (t := env_store_clock _). set (c5 := set_field cn_tick _ c4).
  assert (Hf5 : no_faults c5) by (eapply no_faults_tick; [exact Hf4|cbn; lia]).
  edestruct (steps_execute (insert_use (new_use params n t)) cm) as (c6 & E6 & Hf6 & Hcm6 & Ht6);
    [|exact Hf5|exact Hcm4|exact Ht4|].
  { apply insert_use_accepts; cbn.
    - rewrite Hu. intros v Hv. split; [by apply Hid|]. split; [by apply (proj1 (find_tool_call_None _ _) Hsel)|].
      intros Hmid. pose proof (fresh_use_count _ _ _ _ Hri Hv Hmid). lia.
    - rewrite lookup_insert_eq. done. }
  unfold try_bind. cbv zeta. change (mkUseRow _ _ _ _ _ _ _ _ _) with (new_use params n t).
  rewrite E6. by eexists t, _, c6.
Qed.

(** ** Properties *)

(** C8: a consumption is atomic, whatever statements fail.  It always returns;
    an error leaves the committed database exactly as it was; a receipt is
    returned only after the transaction committed, is closed, and changed the
    database as the receipt says: nothing for a retry of a recorded tool call,
    and for a new use one more use row, the next count within the mandate's
    limits, and the nonce claimed. *)
Theorem consume_atomic params c :
  exists r c', consume_mandate_in_txn_impl params c = (Done r, c') /\
  match r with
  | Ok rc => cn_txn c' = None /\ Consumes params rc (cn_committed c) (cn_committed c')
  | Err _ => cn_committed c' = cn_committed c
  end.
Proof.
  destruct (consume_txn_spec params c) as ([rc|e] & c' & E & HC); [|by eexists _, _].
  destruct HC as (_ & ? & ?). by eexists (Ok _), _.
Qed.

(** The consumption ledger is consistent in every reachable state: whatever
    operations ran, in whatever order and under whatever database failures, the
    count of each mandate is the number of its recorded uses, they are numbered
    1, 2, 3, ..., within [single_use] and [max_uses], every use belongs to a
    stored mandate, and tool calls and use ids are unique. *)
Theorem ledger_invariant c tr :
  StoreRun c tr -> (Z.of_nat (length tr) <= i64_max)%Z -> db_inv (cn_committed c).
Proof. intros Hr Hl. apply (store_run_inv c tr Hr Hl). Qed.

(** C9: the limits of a mandate bound the receipts callers get: over a whole run
    the number of new-consumption receipts naming a mandate is its stored use
    count, at most one if it is single-use and at most [max_uses] if that is
    set.  Retries and failures never add to it. *)
Theorem receipts_within_limits c tr id row :
  StoreRun c tr -> (Z.of_nat (length tr) <= i64_max)%Z ->
  db_mandates (cn_committed c) !! id = Some row ->
  Z.of_nat (length (new_uses id tr)) = mr_use_count row /\
  (mr_single_use row <> 0%Z -> (length (new_uses id tr) <= 1)%nat) /\
  (forall max, mr_max_uses row = Some max -> (Z.of_nat (length (new_uses id tr)) <= max)%Z).
Proof.
  intros Hr Hl Hrow. destruct (store_run_inv c tr Hr Hl) as ((Hrows & _) & _ & Hu & _).
  destruct (Hrows _ _ Hrow) as (Hc & _ & Hs & Hm). rewrite Hu. auto.
Qed.

(** A nonce is good once: over a whole run at most one new consumption is
    granted for each (audience, issuer, nonce), whichever mandates and tool
    calls present it. *)
Theorem nonce_used_at_most_once c tr k :
  StoreRun c tr -> (Z.of_nat (length tr) <= i64_max)%Z -> (length (nonce_uses k tr) <= 1)%nat.
Proof.
  intros Hr Hl. destruct (store_run_inv c tr Hr Hl) as (_ & _ & _ & Hn). apply Hn.
Qed.

(** Consumption is idempotent on the tool call: all receipts a run returns
    for one tool call id carry the same use id and the same use count. *)
Theorem receipts_idempotent c tr e1 e2 :
  StoreRun c tr -> (Z.of_nat (length tr) <= i64_max)%Z -> e1 ∈ tr -> e2 ∈ tr ->
  ar_tool_call_id (snd e1) = ar_tool_call_id (snd e2) ->
  ar_use_id (snd e1) = ar_use_id (snd e2) /\ ar_use_count (snd e1) = ar_use_count (snd e2).
Proof.
  intros Hr Hl He1 He2 Et.
  destruct (store_run_inv c tr Hr Hl) as ((_ & _ & Hnd & _) & _).
  destruct (store_run_backed c tr Hr e1 He1) as (u1 & Hu1 & Ht1 & <- & <-).
  destruct (store_run_backed c tr Hr e2 He2) as (u2 & Hu2 & Ht2 & <- & <-).
  assert (u1 = u2) as ->; [|done]. eapply NoDup_map_inj; [done..|congruence].
Qed.

(** C38: liveness.  When no statement fails and no transaction was left open, a
    stored mandate grants every use its limits leave: an unused one if it is
    single-use, and one below [max_uses] if that is set, up to and including the
    last.  The call must have no recorded use, its nonce must not be claimed,
    its use id must not be that of another call, and the counter must not be at
    the ceiling of an [i64].  A receipt of a new use with the next count comes
    back and the transaction is closed. *)
Theorem consume_granted params c row :
  db_inv (cn_committed c) -> no_faults c -> cn_txn c = None ->
  select_use (cp_tool_call_id params) (cn_committed c) = None ->
  (forall k, nonce_key params = Some k -> db_nonces (cn_committed c) !! k = None) ->
  db_mandates (cn_committed c) !! cp_mandate_id params = Some row ->
  (mr_use_count row < i64_max)%Z ->
  (mr_single_use row <> 0 -> mr_use_count row = 0)%Z ->
  (forall max, mr_max_uses row = Some max -> (mr_use_count row < max)%Z) ->
  (forall v, v ∈ db_uses (cn_committed c) -> ur_use_id v <>
     compute_use_id_impl (cp_mandate_id params) (cp_tool_call_id params) (as_u32 (mr_use_count row + 1))) ->
  exists t c', consume_mandate_in_txn_impl params c =
      (Done (Ok (new_receipt params (mr_use_count row + 1) t)), c') /\
    cn_txn c' = None.
Proof.
  intros Hinv Hf Ht Hsel Hk Hrow Hmax Hsingle Huses Hid.
  assert (Hlim : check_limits (mr_use_count row) (mr_single_use row) (mr_max_uses row) = Ok (mr_use_count row + 1)%Z).
  { apply check_limits_grants; [|done..]. destruct (proj1 Hinv _ _ Hrow) as (Hc & _). lia. }
  set (n := (mr_use_count row + 1)%Z) in *.
  unfold consume_mandate_in_txn_impl, try_bind at 1. unfold db_err at 1, mbind, M_bind.
  unfold sql_begin_immediate. rewrite statement_run by done. cbn [cn_txn set_field]. rewrite Ht.
  cbn [result_map_err mret M_ret]. set (c1 := set_field cn_txn _ _).
  assert (Hf1 : no_faults c1) by (intros t Htk; apply Hf; cbn in Htk; lia).
  destruct (consume_inner_succeeds params (cn_committed c) (cn_committed c) row n 0%Z
    Hinv Hsel Hk Hrow Hmax Hlim Hid c1 Hf1 eq_refl eq_refl)
    as (t & d' & c2 & E & Hf2 & Hcm2 & Ht2).
  rewrite E. unfold try_bind, db_err, mbind, M_bind, sql_commit.
  rewrite statement_run by done. cbn [cn_txn set_field]. rewrite Ht2. by eexists t, _.
Qed.

(** A transaction left open, as after a failed [COMMIT], blocks the store:
    from then on every consumption on the connection fails and nothing it does
    reaches the committed database. *)
Theorem open_transaction_blocks params c d :
  cn_txn c = Some d ->
  exists e c', consume_mandate_in_txn_impl params c = (Done (Err e), c') /\
    cn_committed c' = cn_committed c.
Proof.
  intros Ht. destruct (consume_txn_spec params c) as ([rc|e] & c' & E & HC).
  - destruct HC as (Hn & _). congruence.
  - by eexists e, c'.
Qed.

(** A retry is not tied to its mandate: once a tool call has a recorded use,
    a consumption of any other mandate id for that tool call, even one that was
    never stored, returns a receipt that names the other mandate, and consumes
    nothing. *)
Theorem retry_names_any_mandate params c u :
  no_faults c -> cn_txn c = None ->
  select_use (cp_tool_call_id params) (cn_committed c) = Some u ->
  exists rc c', consume_mandate_in_txn_impl params c = (Done (Ok rc), c') /\
    ar_mandate_id rc = cp_mandate_id params /\ ar_use_id rc = ur_use_id u /\
    ar_was_new rc = false /\ cn_committed c' = cn_committed c.
Proof.
  intros Hf Ht Hsel.
  unfold consume_mandate_in_txn_impl, try_bind at 1. unfold db_err at 1, mbind, M_bind.
  unfold sql_begin_immediate. rewrite statement_run by done. cbn [cn_txn set_field]. rewrite Ht.
  cbn [result_map_err mret M_ret]. set (c1 := set_field cn_txn _ _).
  assert (Hf1 : no_faults c1) by (intros t Htk; apply Hf; cbn in Htk; lia).
  unfold consume_mandate_inner_impl.
  destruct (steps_query (select_use (cp_tool_call_id params)) (cn_committed c) (cn_committed c) c1
    Hf1 eq_refl eq_refl) as (c2 & E & Hf2 & Hcm2 & Ht2).
  rewrite (try_bind_ok _ _ _ _ _ E), Hsel. clear E.
  destruct (parse_rfc3339 (ur_consumed_at u)); cbn -[statement];
    unfold try_bind, db_err, mbind, M_bind, sql_commit, store_now; cbn -[statement].
  - rewrite statement_run by done. cbn [cn_txn set_field]. rewrite Ht2. by eexists _, _.
  - rewrite statement_run by (intros t Htk; apply Hf2; cbn in Htk; lia).
    cbn [cn_txn set_field]. rewrite Ht2. by eexists _, _.
Qed.

(** A stored mandate is immutable under upserts: whatever metadata is
    upserted, every row already committed is kept as it is, so limits and
    counts cannot be reset by registering a mandate again. *)
Theorem upsert_keeps_rows meta c id row :
  db_mandates (cn_committed c) !! id = Some row ->
  db_mandates (cn_committed (snd (upsert_mandate_impl meta c))) !! id = Some row.
Proof.
  intros Hrow. destruct (upsert_mandate_committed meta c) as [->|(r & E & _)]; [done|].
  unfold insert_mandate in E. destruct (db_mandates (cn_committed c) !! mm_mandate_id meta) eqn:Em;
    injection E as <-; [done|]. cbn. rewrite lookup_insert_ne by congruence. done.
Qed.

(** Revocation round trip: without failures, recording a revocation and
    asking for it gives back its instant. *)
Theorem revocation_roundtrip r c :
  no_faults c -> parse_rfc3339 (to_rfc3339 (rv_revoked_at r)) = Some (rv_revoked_at r) ->
  exists c1 c2, upsert_revocation_impl r c = (Done (Ok ()), c1) /\
    get_revoked_at_impl (rv_mandate_id r) c1 = (Done (Ok (Some (rv_revoked_at r))), c2).
Proof.
  intros Hf Hp. unfold upsert_revocation_impl, get_revoked_at_impl.
  unfold try_bind, db_err, mbind, M_bind, sql_execute, sql_query.
  rewrite statement_run by done. unfold set_current_db, current_db.
  destruct c as [cm tx tk]. destruct tx as [d|]; cbn -[statement lookup insert fmap];
    eexists _, _; (split; [reflexivity|]);
    (rewrite statement_run by (intros t Ht; apply Hf; cbn in *; lia));
    cbn -[lookup insert fmap]; rewrite lookup_insert_eq; cbn; rewrite Hp; reflexivity.
Qed.

End Store.
