(* ===== verification/Authorizer.v ===== *)
(** * Runtime mandate authorization

    [crates/assay-core/src/runtime/authorizer.rs] and [authorizer_internal/]:
    the checks a mandate passes before a tool call may consume it, and the
    consumption itself.  The authorizer is written against an interface to the
    mandate store, [MandateStoreApi], whose laws [MandateStoreLaws] are what the
    theorems here rely on; the SQLite store of [MandateStore] is an instance. *)
From stdpp Require Import base tactics list strings gmap.
From Stdlib Require Import ZArith Lia.
From S2P Require Import Prelude RustStr Json Platform Glob MandateStore.

(** ** Data of authorizer.rs *)

Definition DEFAULT_CLOCK_SKEW_SECONDS : Z := 30.

Record AuthzConfig : Type := mkAuthzConfig {
  az_clock_skew_seconds : Z;
  az_expected_audience : string;
  az_trusted_issuers : list string
}.

Definition authz_config_default : AuthzConfig :=
  {| az_clock_skew_seconds := DEFAULT_CLOCK_SKEW_SECONDS;
     az_expected_audience := EmptyString;
     az_trusted_issuers := [] |}.

Inductive OperationClass : Type := OpRead | OpWrite | OpCommit.
#[global] Instance operation_class_eq : EqDecision OperationClass.
Proof. solve_decision. Defined.

Definition operation_class_as_str (o : OperationClass) : string :=
  match o with OpRead => "read" | OpWrite => "write" | OpCommit => "commit" end.

(** The derived order: the discriminants 0, 1, 2. *)
Definition operation_class_rank (o : OperationClass) : nat :=
  match o with OpRead => 0 | OpWrite => 1 | OpCommit => 2 end.

Definition operation_class_gtb (a b : OperationClass) : bool :=
  Nat.ltb (operation_class_rank b) (operation_class_rank a).

Inductive MandateKind : Type := Intent | Transaction.

Definition mandate_kind_as_str (k : MandateKind) : string :=
  match k with Intent => "intent" | Transaction => "transaction" end.

Definition max_operation_class (k : MandateKind) : OperationClass :=
  match k with Intent => OpWrite | Transaction => OpCommit end.

Record MandateData : Type := mkMandateData {
  md_mandate_id : string;
  md_mandate_kind : MandateKind;
  md_audience : string;
  md_issuer : string;
  md_tool_patterns : list string;
  md_operation_class : option OperationClass;
  md_transaction_ref : option string;
  md_not_before : option Z;
  md_expires_at : option Z;
  md_single_use : bool;
  md_max_uses : option Z;
  md_nonce : option string;
  md_canonical_digest : string;
  md_key_id : string
}.

#[global] Instance eta_mandate_data : Eta MandateData := fun m =>
  mkMandateData (md_mandate_id m) (md_mandate_kind m) (md_audience m) (md_issuer m)
    (md_tool_patterns m) (md_operation_class m) (md_transaction_ref m) (md_not_before m)
    (md_expires_at m) (md_single_use m) (md_max_uses m) (md_nonce m) (md_canonical_digest m)
    (md_key_id m).

Record ToolCallData : Type := mkToolCallData {
  tc_tool_call_id : string;
  tc_tool_name : string;
  tc_operation_class : OperationClass;
  tc_transaction_object : option Value;
  tc_source_run_id : option string
}.

Inductive PolicyError : Type :=
| Expired (expires_at now : Z)
| NotYetValid (not_before now : Z)
| ToolNotInScope (tool : string)
| KindMismatch (kind op_class : string)
| AudienceMismatch (expected actual : string)
| IssuerNotTrusted (issuer : string)
| MissingTransactionObject
| TransactionRefMismatch (expected actual : string).

Inductive AuthorizeError : Type :=
| APolicy (e : PolicyError)
| AStore (e : AuthzError)
| ATransactionRef (message : string).

(** ** The store as the authorizer sees it *)

Class MandateStoreApi (St : Type) : Type := {
  api_get_revoked_at : string -> M St (Result (option Z) AuthzError);
  api_upsert_mandate : MandateMetadata -> M St (Result () AuthzError);
  api_consume_mandate : ConsumeParams -> M St (Result AuthzReceipt AuthzError)
}.

Section Authorizer.
Context `{Platform} {St : Type} `{!MandateStoreApi St}.

(** ** authorizer_internal/policy.rs *)

Definition check_validity_window_impl (now : Z) (mandate : MandateData) (skew : Z)
    : Outcome (Result () PolicyError) :=
  r ← match md_not_before mandate with
      | Some not_before =>
          bound ← datetime_add not_before (- skew);
          mret (if (now <? bound)%Z then Err (NotYetValid not_before now) else Ok ())
      | None => mret (Ok ())
      end;
  match r with
  | Err e => mret (Err e)
  | Ok _ =>
      match md_expires_at mandate with
      | Some expires_at =>
          bound ← datetime_add expires_at skew;
          mret (if (bound <=? now)%Z then Err (Expired expires_at now) else Ok ())
      | None => mret (Ok ())
      end
  end.

Definition check_context_impl (config : AuthzConfig) (mandate : MandateData)
    : Result () PolicyError :=
  if negb (str_is_empty (az_expected_audience config))
     && negb (String.eqb (md_audience mandate) (az_expected_audience config))
  then Err (AudienceMismatch (az_expected_audience config) (md_audience mandate))
  else if negb (is_nil (az_trusted_issuers config))
          && negb (existsb (String.eqb (md_issuer mandate)) (az_trusted_issuers config))
  then Err (IssuerNotTrusted (md_issuer mandate))
  else Ok ().

Definition check_scope_impl (tool_call : ToolCallData) (mandate : MandateData)
    : Outcome (Result () PolicyError) :=
  b ← tool_matches_scope_impl (tc_tool_name tool_call) (md_tool_patterns mandate);
  mret (if b : bool then Ok () else Err (ToolNotInScope (tc_tool_name tool_call))).

Definition check_operation_class_impl (mandate : MandateData) (tool_call : ToolCallData)
    : Result () PolicyError :=
  let max_allowed := max_operation_class (md_mandate_kind mandate) in
  if operation_class_gtb (tc_operation_class tool_call) max_allowed
  then Err (KindMismatch (mandate_kind_as_str (md_mandate_kind mandate))
              (operation_class_as_str (tc_operation_class tool_call)))
  else Ok ().

Definition compute_transaction_ref_impl (tx_object : Value) : Result string string :=
  match jcs_to_string tx_object with
  | Some canonical => Ok ("sha256:" +:+ sha256_hex canonical)
  | None => Err jcs_error
  end.

Definition check_transaction_ref_impl (mandate : MandateData) (tool_call : ToolCallData)
    : Result () AuthorizeError :=
  match tc_operation_class tool_call, md_transaction_ref mandate with
  | OpCommit, Some expected_ref =>
      match tc_transaction_object tool_call with
      | None => Err (APolicy MissingTransactionObject)
      | Some tx_obj =>
          match compute_transaction_ref_impl tx_obj with
          | Err e => Err (ATransactionRef e)
          | Ok actual_ref =>
              if negb (String.eqb actual_ref expected_ref)
              then Err (APolicy (TransactionRefMismatch expected_ref actual_ref))
              else Ok ()
          end
      end
  | _, _ => Ok ()
  end.

(** ** authorizer_internal/store.rs *)

Definition store_err {A} (m : M St (Result A AuthzError)) : M St (Result A AuthorizeError) :=
  r ← m; mret (result_map_err AStore r).

Definition check_revocation_impl (now : Z) (mandate : MandateData)
    : M St (Result () AuthorizeError) :=
  revoked ←? store_err (api_get_revoked_at (md_mandate_id mandate));
  mret (match revoked with
        | Some revoked_at =>
            if (revoked_at <=? now)%Z then Err (AStore (Revoked revoked_at)) else Ok ()
        | None => Ok ()
        end).

Definition mandate_metadata (mandate : MandateData) : MandateMetadata :=
  {| mm_mandate_id := md_mandate_id mandate;
     mm_mandate_kind := mandate_kind_as_str (md_mandate_kind mandate);
     mm_audience := md_audience mandate;
     mm_issuer := md_issuer mandate;
     mm_expires_at := md_expires_at mandate;
     mm_single_use := md_single_use mandate;
     mm_max_uses := md_max_uses mandate;
     mm_canonical_digest := md_canonical_digest mandate;
     mm_key_id := md_key_id mandate |}.

Definition upsert_mandate_metadata_impl (mandate : MandateData)
    : M St (Result () AuthorizeError) :=
  store_err (api_upsert_mandate (mandate_metadata mandate)).

Definition consume_params (mandate : MandateData) (tool_call : ToolCallData) : ConsumeParams :=
  {| cp_mandate_id := md_mandate_id mandate;
     cp_tool_call_id := tc_tool_call_id tool_call;
     cp_nonce := md_nonce mandate;
     cp_audience := md_audience mandate;
     cp_issuer := md_issuer mandate;
     cp_tool_name := tc_tool_name tool_call;
     cp_operation_class := operation_class_as_str (tc_operation_class tool_call);
     cp_source_run_id := tc_source_run_id tool_call |}.

Definition consume_mandate_impl (mandate : MandateData) (tool_call : ToolCallData)
    : M St (Result AuthzReceipt AuthorizeError) :=
  store_err (api_consume_mandate (consume_params mandate tool_call)).

(** ** authorizer_internal/run.rs *)

(** [?] on a policy check. *)
Definition policy_check (o : Outcome (Result () PolicyError)) : M St (Result () AuthorizeError) :=
  r ← lift o; mret (result_map_err APolicy r).

Definition authorize_at_impl (config : AuthzConfig) (now : Z) (mandate : MandateData)
    (tool_call : ToolCallData) : M St (Result AuthzReceipt AuthorizeError) :=
  skew ← lift (duration_seconds (az_clock_skew_seconds config));
  _ ←? policy_check (check_validity_window_impl now mandate skew);
  _ ←? check_revocation_impl now mandate;
  _ ←? policy_check (mret (check_context_impl config mandate));
  _ ←? policy_check (check_scope_impl tool_call mandate);
  _ ←? policy_check (mret (check_operation_class_impl mandate tool_call));
  _ ←? (mret (check_transaction_ref_impl mandate tool_call));
  _ ←? upsert_mandate_metadata_impl mandate;
  consume_mandate_impl mandate tool_call.

End Authorizer.

(** ** What the store promises *)

(** [ls_ledger] is the committed database, [ls_view] what reads see. *)
Class MandateStoreLaws `{Platform} (St : Type) `{!MandateStoreApi St} : Type := {
  ls_ledger : St -> Db;
  ls_view : St -> Db;
  (** Reads return, and change nothing. *)
  law_revoked : forall id s, exists r s',
    api_get_revoked_at id s = (Done r, s') /\ ls_ledger s' = ls_ledger s /\
    (forall a, r = Ok a ->
       match db_revocations (ls_view s) !! id with
       | Some row => exists t, parse_rfc3339 (rr_revoked_at row) = Some t /\ a = Some t
       | None => a = None
       end);
  (** Upserting returns, adds at most its own mandate with no uses, and keeps
      everything else. *)
  law_upsert : forall meta s, exists r s',
    api_upsert_mandate meta s = (Done r, s') /\
    db_uses (ls_ledger s') = db_uses (ls_ledger s) /\
    db_nonces (ls_ledger s') = db_nonces (ls_ledger s) /\
    (forall id row, db_mandates (ls_ledger s) !! id = Some row ->
                    db_mandates (ls_ledger s') !! id = Some row);
  (** Consuming is atomic. *)
  law_consume : forall params s, exists r s',
    api_consume_mandate params s = (Done r, s') /\
    match r with
    | Ok rc => Consumes params rc (ls_ledger s) (ls_ledger s')
    | Err _ => ls_ledger s' = ls_ledger s
    end
}.

(** The SQLite store keeps the promises. *)
#[export] Instance conn_store_api `{Platform} `{Env} : MandateStoreApi Conn := {
  api_get_revoked_at := get_revoked_at_impl;
  api_upsert_mandate := upsert_mandate_impl;
  api_consume_mandate := consume_mandate_in_txn_impl
}.

Section ConnLaws.
Context `{Platform} `{Env}.

Lemma get_revoked_at_spec id c :
  exists r c', get_revoked_at_impl id c = (Done r, c') /\ cn_committed c' = cn_committed c /\
    (forall a, r = Ok a ->
       match db_revocations (current_db c) !! id with
       | Some row => exists t, parse_rfc3339 (rr_revoked_at row) = Some t /\ a = Some t
       | None => a = None
       end).
Proof.
  unfold get_revoked_at_impl, db_err, sql_query, try_bind, mbind, M_bind.
  match goal with |- context [statement ?f c] => destruct (statement_cases f c)
    as [(e & c' & -> & Hcm & _)|(a & c' & Hr & ->)] end; cbn [result_map_err mret M_ret].
  - by eexists (Err _), c'.
  - injection Hr as <- <-. change (current_db (set_field cn_tick _ c)) with (current_db c).
    destruct (db_revocations (current_db c) !! id) as [row|]; cbn.
    + destruct (parse_rfc3339 (rr_revoked_at row)) as [t|]; eexists _, _; (split; [reflexivity|]);
        (split; [done|]); naive_solver.
    + eexists _, _. split; [reflexivity|]. split; [done|]. naive_solver.
Qed.

Lemma upsert_mandate_returns meta c : exists r c', upsert_mandate_impl meta c = (Done r, c').
Proof.
  unfold upsert_mandate_impl, db_err, sql_query, sql_execute, try_bind, mbind, M_bind.
  case_match; [by eexists _, _|].
  match goal with |- context [statement ?f c] => destruct (statement_cases f c)
    as [(e & c' & -> & _)|(a & c' & _ & ->)] end; cbn [result_map_err mret M_ret]; [by eexists _, _|].
  match goal with |- context [statement ?f c'] => destruct (statement_cases f c')
    as [(e & c2 & -> & _)|(b & c2 & _ & ->)] end; cbn [result_map_err mret M_ret]; [by eexists _, _|].
  destruct b as [r|]; [|by eexists _, _]. repeat case_match; by eexists _, _.
Qed.

#[export] Instance conn_store_laws : MandateStoreLaws Conn.
Proof.
  refine {| ls_ledger := cn_committed; ls_view := current_db |}.
  - intros id c. apply get_revoked_at_spec.
  - intros meta c. destruct (upsert_mandate_returns meta c) as (r & c' & E). exists r, c'.
    split; [exact E|]. pose proof (upsert_mandate_committed meta c) as Hc. rewrite E in Hc. cbn in Hc.
    destruct Hc as [->|(row & Ei & _)]; [done|].
    destruct (insert_mandate_keeps _ _ _ _ Ei) as [-> ->]. split; [done|]. split; [done|].
    intros id r0 Hr0. unfold insert_mandate in Ei.
    destruct (db_mandates (cn_committed c) !! mm_mandate_id meta) eqn:Em;
      injection Ei as <-; [done|]. cbn. rewrite lookup_insert_ne by congruence. done.
  - intros params c. destruct (consume_txn_spec params c) as (r & c' & E & HC). exists r, c'.
    split; [exact E|]. destruct r; [apply HC|done].
Defined.

End ConnLaws.

(** ** What authorization means *)

Section Properties.
Context `{Platform} {St : Type} `{!MandateStoreApi St} `{!MandateStoreLaws St}.

(** Half-open validity, widened by the skew on both sides. *)
Definition InWindow (now skew : Z) (mandate : MandateData) : Prop :=
  (forall nb, md_not_before mandate = Some nb -> (nb - skew <= now)%Z) /\
  (forall ex, md_expires_at mandate = Some ex -> (now < ex + skew)%Z).

Definition ContextOk (config : AuthzConfig) (mandate : MandateData) : Prop :=
  (az_expected_audience config <> EmptyString ->
   md_audience mandate = az_expected_audience config) /\
  (az_trusted_issuers config <> [] -> md_issuer mandate ∈ az_trusted_issuers config).

Definition KindOk (mandate : MandateData) (tool_call : ToolCallData) : Prop :=
  tc_operation_class tool_call = OpCommit -> md_mandate_kind mandate = Transaction.

Definition TransactionRefOk (mandate : MandateData) (tool_call : ToolCallData) : Prop :=
  forall r, tc_operation_class tool_call = OpCommit -> md_transaction_ref mandate = Some r ->
  exists tx canonical, tc_transaction_object tool_call = Some tx /\
    jcs_to_string tx = Some canonical /\ r = "sha256:" +:+ sha256_hex canonical.

Definition NotRevoked (now : Z) (d : Db) (id : string) : Prop :=
  forall row, db_revocations d !! id = Some row ->
  exists t, parse_rfc3339 (rr_revoked_at row) = Some t /\ (now < t)%Z.

Lemma validity_window_ok now mandate skew :
  check_validity_window_impl now mandate skew = Done (Ok ()) -> InWindow now skew mandate.
Proof.
  unfold check_validity_window_impl, InWindow, datetime_add.
  destruct (md_not_before mandate) as [nb|], (md_expires_at mandate) as [ex|]; cbn;
    repeat (case_match; cbn; try done); intros _; split; intros ? [= <-]; lia.
Qed.

Lemma datetime_add_ok t d :
  (datetime_min <= t + d <= datetime_max)%Z -> datetime_add t d = Done (t + d)%Z.
Proof.
  intros [H1 H2]. unfold datetime_add.
  by rewrite (proj2 (Z.leb_le _ _) H1), (proj2 (Z.leb_le _ _) H2).
Qed.

Lemma validity_window_returns now mandate skew :
  (forall t, md_not_before mandate = Some t -> datetime_min <= t - skew <= datetime_max)%Z ->
  (forall t, md_expires_at mandate = Some t -> datetime_min <= t + skew <= datetime_max)%Z ->
  exists r, check_validity_window_impl now mandate skew = Done r.
Proof.
  intros Hnb Hex. unfold check_validity_window_impl.
  set (m := match md_not_before mandate with Some _ => _ | None => _ end).
  assert (Hm : exists r, m = Done r).
  { subst m. destruct (md_not_before mandate) as [nb|]; [|by eexists].
    specialize (Hnb nb eq_refl). rewrite (datetime_add_ok nb (- skew)) by lia. by eexists. }
  destruct Hm as ([[]|e] & ->); cbn; [|by eexists].
  destruct (md_expires_at mandate) as [ex|]; [|by eexists].
  specialize (Hex ex eq_refl). rewrite datetime_add_ok by lia. by eexists.
Qed.

Lemma context_ok config mandate :
  check_context_impl config mandate = Ok () <-> ContextOk config mandate.
Proof.
  unfold check_context_impl, ContextOk.
  destruct (str_is_empty (az_expected_audience config)) eqn:Ea;
    [apply str_is_empty_true in Ea|apply str_is_empty_false in Ea];
    destruct (String.eqb_spec (md_audience mandate) (az_expected_audience config)); cbn;
    try naive_solver;
  (destruct (is_nil (az_trusted_issuers config)) eqn:En;
    [apply is_nil_true in En|apply is_nil_false in En]; cbn; [naive_solver|]);
  destruct (existsb _ _) eqn:Ee; cbn;
    try (apply existsb_true in Ee as (y & Hy & ->%String.eqb_eq); naive_solver);
    (split; [done|]; intros [_ Hi]; specialize (Hi En);
     rewrite existsb_false in Ee; specialize (Ee _ Hi); by rewrite String.eqb_refl in Ee).
Qed.

Lemma operation_class_ok mandate tool_call :
  check_operation_class_impl mandate tool_call = Ok () <-> KindOk mandate tool_call.
Proof.
  unfold check_operation_class_impl, KindOk.
  destruct (md_mandate_kind mandate), (tc_operation_class tool_call); cbn; naive_solver.
Qed.

Lemma transaction_ref_ok mandate tool_call :
  check_transaction_ref_impl mandate tool_call = Ok () <-> TransactionRefOk mandate tool_call.
Proof.
  unfold check_transaction_ref_impl, TransactionRefOk, compute_transaction_ref_impl.
  destruct (tc_operation_class tool_call); [naive_solver..|].
  destruct (md_transaction_ref mandate) as [r|]; [|naive_solver].
  destruct (tc_transaction_object tool_call) as [tx|]; [|naive_solver].
  destruct (jcs_to_string tx) as [can|] eqn:Ej; [|naive_solver].
  destruct (String.eqb_spec ("sha256:" +:+ sha256_hex can) r) as [<-|Hne]; cbn; naive_solver.
Qed.

Lemma policy_check_run o (s : St) :
  policy_check o s =
  match o with
  | Done r => (Done (result_map_err APolicy r), s)
  | Panicked => (Panicked, s)
  end.
Proof. unfold policy_check, mbind, M_bind, lift. by destruct o. Qed.

Lemma check_revocation_run now mandate (s : St) :
  exists r s', check_revocation_impl now mandate s = (Done r, s') /\
    ls_ledger s' = ls_ledger s /\
    (r = Ok () -> NotRevoked now (ls_view s) (md_mandate_id mandate)).
Proof.
  unfold check_revocation_impl, store_err, try_bind, mbind, M_bind.
  destruct (law_revoked (md_mandate_id mandate) s) as (r & s' & -> & Hl & Hr).
  destruct r as [a|e]; cbn [result_map_err mret M_ret].
  - specialize (Hr a eq_refl). unfold NotRevoked.
    destruct (db_revocations (ls_view s) !! md_mandate_id mandate) as [row|].
    + destruct Hr as (t & Hp & ->). destruct (Z.leb_spec t now); eexists _, s';
        (split; [reflexivity|]); (split; [done|]); [done|]. intros _ ? [= <-]. eauto.
    + subst a. eexists _, s'. split; [reflexivity|]. done.
  - by eexists _, s'.
Qed.

(** The scope covers the tool: the check says so, which on ASCII names means that
    one of the patterns accepts the name by the normative rules. *)
Definition ScopeOk (mandate : MandateData) (tool_call : ToolCallData) : Prop :=
  tool_matches_scope_impl (tc_tool_name tool_call) (md_tool_patterns mandate) = Done true /\
  (is_ascii (tc_tool_name tool_call) = true ->
   exists p, p ∈ md_tool_patterns mandate /\ PatternAccepts p (tc_tool_name tool_call)).

Lemma scope_ok mandate tool_call :
  tool_matches_scope_impl (tc_tool_name tool_call) (md_tool_patterns mandate) = Done true -> ScopeOk mandate tool_call.
Proof.
  intros Hm. split; [done|]. intros Ha.
  destruct (tool_matches_scope_decides _ (md_tool_patterns mandate) Ha) as (b & Hb & Hiff).
  apply Hiff. congruence.
Qed.

(** Everything an authorization checks. *)
Definition MandateAccepted (config : AuthzConfig) (now : Z) (mandate : MandateData)
    (tool_call : ToolCallData) (view : Db) : Prop :=
  InWindow now (az_clock_skew_seconds config * nanos_per_sec) mandate /\
  NotRevoked now view (md_mandate_id mandate) /\
  ContextOk config mandate /\
  ScopeOk mandate tool_call /\
  KindOk mandate tool_call /\ TransactionRefOk mandate tool_call.

Lemma authorize_at_spec config now mandate tool_call (s : St) :
  match authorize_at_impl config now mandate tool_call s with
  | (Done (Ok rc), s') =>
      MandateAccepted config now mandate tool_call (ls_view s) /\
      exists d, db_uses d = db_uses (ls_ledger s) /\ db_nonces d = db_nonces (ls_ledger s) /\
        (forall id row, db_mandates (ls_ledger s) !! id = Some row -> db_mandates d !! id = Some row) /\
        Consumes (consume_params mandate tool_call) rc d (ls_ledger s')
  | (Done (Err _), s') | (Panicked, s') =>
      db_uses (ls_ledger s') = db_uses (ls_ledger s) /\
      db_nonces (ls_ledger s') = db_nonces (ls_ledger s)
  end.
Proof.
  unfold authorize_at_impl, MandateAccepted. unfold mbind at 1, M_bind at 1, lift.
  unfold duration_seconds. destruct (_ <=? duration_max_secs)%Z; [|done]. cbv beta iota.
  set (skew := (_ * _)%Z). unfold try_bind at 1. rewrite policy_check_run.
  destruct (check_validity_window_impl now mandate skew) as [[[]|e]|] eqn:Ew; [|done|done].
  apply validity_window_ok in Ew. cbn [result_map_err]. unfold try_bind at 1.
  destruct (check_revocation_run now mandate s) as (r & s1 & -> & Hl1 & Hrev).
  destruct r as [[]|e]; [|by rewrite Hl1]. specialize (Hrev eq_refl).
  unfold try_bind at 1. rewrite policy_check_run. cbn [mret outcome_ret].
  destruct (check_context_impl config mandate) as [[]|] eqn:Ec; cbn [result_map_err];
    [|by rewrite Hl1]. apply context_ok in Ec.
  unfold try_bind at 1. rewrite policy_check_run. unfold check_scope_impl.
  destruct (tool_matches_scope_impl _ _) as [[]|] eqn:Es; cbn; [|by rewrite Hl1|by rewrite Hl1].
  apply scope_ok in Es.
  unfold try_bind at 1. rewrite policy_check_run. cbn [mret outcome_ret].
  destruct (check_operation_class_impl mandate tool_call) as [[]|] eqn:Eo; cbn [result_map_err];
    [|by rewrite Hl1]. apply operation_class_ok in Eo.
  unfold try_bind at 1. cbn [mret M_ret].
  destruct (check_transaction_ref_impl mandate tool_call) as [[]|] eqn:Et; [|by rewrite Hl1].
  apply transaction_ref_ok in Et.
  unfold try_bind, upsert_mandate_metadata_impl, consume_mandate_impl, store_err, mbind, M_bind.
  destruct (law_upsert (mandate_metadata mandate) s1) as (ru & s2 & -> & Hu & Hn & Hm).
  rewrite Hl1 in Hu, Hn, Hm. destruct ru as [[]|]; cbn [result_map_err mret M_ret]; [|done].
  destruct (law_consume (consume_params mandate tool_call) s2) as (rc & s3 & -> & HC).
  destruct rc as [rc|]; cbn [result_map_err mret M_ret]; [|by rewrite HC].
  split; [done|]. exists (ls_ledger s2). done.
Qed.

(** ** Properties *)

(** A configuration that names no audience and no issuers, which is the default,
    accepts every audience and issuer. *)
Theorem unconfigured_context_accepts config mandate :
  az_expected_audience config = EmptyString -> az_trusted_issuers config = [] ->
  check_context_impl config mandate = Ok ().
Proof. intros Ha Hi. unfold check_context_impl. by rewrite Ha, Hi. Qed.

(** C10: authorization is sound: a receipt is returned only for a mandate that is
    inside its validity window (widened by the clock skew), not revoked as of
    now, and of the audience and one of the issuers that the configuration
    names, where it names any; whose scope covers the tool, by the normative
    rules when its name is ASCII; whose kind allows the operation class (commits
    need a transaction mandate); and, for a commit under a mandate with a
    transaction reference, only when that reference is the hash of the call's
    transaction object.  The receipt is that of a justified consumption of this
    mandate by this tool call.  The signature of the mandate is not among what
    the authorizer checks. *)
Theorem authorize_sound config now mandate tool_call (s s' : St) rc :
  authorize_at_impl config now mandate tool_call s = (Done (Ok rc), s') ->
  MandateAccepted config now mandate tool_call (ls_view s) /\
  ar_mandate_id rc = md_mandate_id mandate /\
  ar_tool_call_id rc = tc_tool_call_id tool_call /\
  exists d, db_uses d = db_uses (ls_ledger s) /\
    Consumes (consume_params mandate tool_call) rc d (ls_ledger s').
Proof.
  intros E. pose proof (authorize_at_spec config now mandate tool_call s) as Hs.
  rewrite E in Hs. destruct Hs as (Ha & d & Hu & _ & _ & HC). split; [done|].
  split; [by inversion HC|]. split; [by inversion HC|]. by exists d.
Qed.

(** A refused authorization, or one that panics, consumes nothing: the
    recorded uses and the claimed nonces are exactly those of before. *)
Theorem authorize_refusal_consumes_nothing config now mandate tool_call (s s' : St) r :
  authorize_at_impl config now mandate tool_call s = (r, s') ->
  (forall rc, r <> Done (Ok rc)) ->
  db_uses (ls_ledger s') = db_uses (ls_ledger s) /\
  db_nonces (ls_ledger s') = db_nonces (ls_ledger s).
Proof.
  intros E Hr. pose proof (authorize_at_spec config now mandate tool_call s) as Hs.
  rewrite E in Hs. destruct r as [[rc|e]|]; [by destruct (Hr rc)|done|done].
Qed.

(** Authorization returns (a receipt or an error, never a panic) for every
    mandate when the tool name is ASCII, the skew is a valid duration and the
    mandate's bounds stay inside the range of dates when moved by it. *)
Theorem authorize_returns config now mandate tool_call (s : St) :
  is_ascii (tc_tool_name tool_call) = true ->
  (Z.abs (az_clock_skew_seconds config) <= duration_max_secs)%Z ->
  (forall t, md_not_before mandate = Some t -> datetime_min <=
     t - az_clock_skew_seconds config * nanos_per_sec <= datetime_max)%Z ->
  (forall t, md_expires_at mandate = Some t -> datetime_min <=
     t + az_clock_skew_seconds config * nanos_per_sec <= datetime_max)%Z ->
  exists r s', authorize_at_impl config now mandate tool_call s = (Done r, s').
Proof.
  intros Ha Hsk Hnb Hex. unfold authorize_at_impl. unfold mbind at 1, M_bind at 1, lift.
  unfold duration_seconds. rewrite (proj2 (Z.leb_le _ _) Hsk).
  set (skew := (_ * _)%Z) in *. unfold try_bind at 1. rewrite policy_check_run.
  destruct (validity_window_returns now mandate skew Hnb Hex) as ([[]|e] & ->);
    cbn [result_map_err]; [|by eexists _, _]. unfold try_bind at 1.
  destruct (check_revocation_run now mandate s) as ([[]|] & s1 & -> & _); [|by eexists _, _].
  unfold try_bind at 1. rewrite policy_check_run. cbn [mret outcome_ret].
  destruct (check_context_impl config mandate) as [[]|]; cbn [result_map_err]; [|by eexists _, _].
  unfold try_bind at 1. rewrite policy_check_run. unfold check_scope_impl.
  destruct (tool_matches_scope_decides (tc_tool_name tool_call) (md_tool_patterns mandate) Ha)
    as (b & -> & _). destruct b; cbn; [|by eexists _, _].
  unfold try_bind at 1. rewrite policy_check_run. cbn [mret outcome_ret].
  destruct (check_operation_class_impl mandate tool_call) as [[]|]; cbn [result_map_err];
    [|by eexists _, _].
  unfold try_bind at 1. cbn [mret M_ret].
  destruct (check_transaction_ref_impl mandate tool_call) as [[]|]; [|by eexists _, _].
  unfold try_bind, upsert_mandate_metadata_impl, consume_mandate_impl, store_err, mbind, M_bind.
  destruct (law_upsert (mandate_metadata mandate) s1) as (ru & s2 & -> & _).
  destruct ru as [[]|]; cbn [result_map_err mret M_ret]; [|by eexists _, _].
  destruct (law_consume (consume_params mandate tool_call) s2) as (rc & s3 & -> & _).
  by eexists _, _.
Qed.

(** The operation class a mandate is limited to plays no part: changing it
    changes no authorization, so a mandate scoped to reads authorizes the
    writes its kind allows. *)
Theorem authorize_ignores_operation_class config now mandate tool_call limit (s : St) :
  authorize_at_impl config now
    (mandate <| md_operation_class := limit |>) tool_call s =
  authorize_at_impl config now mandate tool_call s.
Proof. done. Qed.

End Properties.
