(* ===== verification/Convergence.v ===== *)
(** * Decision classification

    [crates/assay-core/src/mcp/decision/]: how a decision is classified for the
    consumers of evidence.  [outcome_convergence.rs] gives every decision a
    canonical kind and origin; [deny_convergence.rs], [replay_compat.rs],
    [consumer_contract.rs] and [context_contract.rs] are projections that prefer
    the canonical fields and fall back to older ones. *)
From stdpp Require Import base tactics list strings.
From Stdlib Require Import ZArith Lia.
From S2P Require Import Prelude RustStr.

(** ** decision_next/event_types.rs: reason codes *)

Module reason_codes.
Definition P_POLICY_ALLOW := "P_POLICY_ALLOW".
Definition P_POLICY_DENY := "P_POLICY_DENY".
Definition P_TOOL_DENIED := "P_TOOL_DENIED".
Definition P_TOOL_NOT_ALLOWED := "P_TOOL_NOT_ALLOWED".
Definition P_ARG_SCHEMA := "P_ARG_SCHEMA".
Definition P_RATE_LIMIT := "P_RATE_LIMIT".
Definition P_TOOL_DRIFT := "P_TOOL_DRIFT".
Definition P_APPROVAL_REQUIRED := "P_APPROVAL_REQUIRED".
Definition P_RESTRICT_SCOPE := "P_RESTRICT_SCOPE".
Definition P_REDACT_ARGS := "P_REDACT_ARGS".
Definition P_MANDATE_REQUIRED := "P_MANDATE_REQUIRED".
Definition P_MANDATE_VALID := "P_MANDATE_VALID".
Definition M_EXPIRED := "M_EXPIRED".
Definition M_NOT_YET_VALID := "M_NOT_YET_VALID".
Definition M_NONCE_REPLAY := "M_NONCE_REPLAY".
Definition M_ALREADY_USED := "M_ALREADY_USED".
Definition M_MAX_USES_EXCEEDED := "M_MAX_USES_EXCEEDED".
Definition M_TOOL_NOT_IN_SCOPE := "M_TOOL_NOT_IN_SCOPE".
Definition M_KIND_MISMATCH := "M_KIND_MISMATCH".
Definition M_AUDIENCE_MISMATCH := "M_AUDIENCE_MISMATCH".
Definition M_ISSUER_NOT_TRUSTED := "M_ISSUER_NOT_TRUSTED".
Definition M_TRANSACTION_REF_MISMATCH := "M_TRANSACTION_REF_MISMATCH".
Definition M_NOT_FOUND := "M_NOT_FOUND".
Definition M_REVOKED := "M_REVOKED".
Definition S_DB_ERROR := "S_DB_ERROR".
Definition S_INTERNAL_ERROR := "S_INTERNAL_ERROR".
Definition T_TIMEOUT := "T_TIMEOUT".
Definition T_EXEC_ERROR := "T_EXEC_ERROR".
End reason_codes.

Inductive Decision : Type := DAllow | DDeny | DError.
#[global] Instance decision_eq : EqDecision Decision.
Proof. solve_decision. Defined.

Inductive FulfillmentDecisionPath : Type :=
| FPolicyAllow | FPolicyDeny | FFailClosedDeny | FDecisionError.
#[global] Instance fulfillment_decision_path_eq : EqDecision FulfillmentDecisionPath.
Proof. solve_decision. Defined.

(** ** outcome_convergence.rs *)

Inductive DecisionOutcomeKind : Type :=
| KPolicyDeny | KFailClosedDeny | KEnforcementDeny
| KObligationApplied | KObligationSkipped | KObligationError.
#[global] Instance decision_outcome_kind_eq : EqDecision DecisionOutcomeKind.
Proof. solve_decision. Defined.

Inductive DecisionOrigin : Type :=
| PolicyEngine | FailClosedMatrix | RuntimeEnforcement | ObligationExecutor.
#[global] Instance decision_origin_eq : EqDecision DecisionOrigin.
Proof. solve_decision. Defined.

Inductive OutcomeCompatState : Type := LegacyFieldsPreserved.
#[global] Instance outcome_compat_state_eq : EqDecision OutcomeCompatState.
Proof. solve_decision. Defined.

Record OutcomeClassification : Type := mkOutcomeClassification {
  oc_kind : DecisionOutcomeKind;
  oc_origin : DecisionOrigin;
  oc_compat_state : OutcomeCompatState
}.

(** Declared in [outcome_convergence.rs] and again in [deny_convergence.rs]. *)
Definition is_enforcement_deny_reason (reason_code : string) : bool :=
  starts_with reason_code "M_"
  || existsb (String.eqb reason_code)
       [reason_codes.P_APPROVAL_REQUIRED; reason_codes.P_RESTRICT_SCOPE;
        reason_codes.P_REDACT_ARGS; reason_codes.P_MANDATE_REQUIRED].

Definition classify_decision_outcome (decision : Decision) (reason_code : string)
    (fail_closed_applied obligation_applied_present _obligation_skipped_present
       obligation_error_present : bool) : OutcomeClassification :=
  let '(kind, origin) :=
    match decision with
    | DDeny =>
        if fail_closed_applied then (KFailClosedDeny, FailClosedMatrix)
        else if is_enforcement_deny_reason reason_code
        then (KEnforcementDeny, RuntimeEnforcement)
        else (KPolicyDeny, PolicyEngine)
    | DAllow =>
        if obligation_error_present then (KObligationError, ObligationExecutor)
        else if obligation_applied_present then (KObligationApplied, ObligationExecutor)
        else (KObligationSkipped, ObligationExecutor)
    | DError => (KEnforcementDeny, RuntimeEnforcement)
    end in
  {| oc_kind := kind; oc_origin := origin; oc_compat_state := LegacyFieldsPreserved |}.

(** ** deny_convergence.rs *)

Definition DENY_PRECEDENCE_VERSION_V1 := "wave40_v1".

Inductive DenyClassificationSource : Type :=
| SrcOutcomeKind | SrcOriginContext | SrcFulfillmentPath | SrcLegacyDecision | SrcNotDeny.
#[global] Instance deny_classification_source_eq : EqDecision DenyClassificationSource.
Proof. solve_decision. Defined.

Record DenyConvergenceProjection : Type := projection {
  dp_policy_deny : bool;
  dp_fail_closed_deny : bool;
  dp_enforcement_deny : bool;
  dp_classification_source : DenyClassificationSource;
  dp_legacy_fallback_applied : bool;
  dp_deny_convergence_reason : string
}.

Definition not_deny_projection (source : DenyClassificationSource) (fallback : bool)
    (reason : string) : DenyConvergenceProjection :=
  projection false false false source fallback reason.

Definition project_from_legacy_decision (decision : Decision) (fail_closed_applied : bool)
    (reason_code : string) : DenyConvergenceProjection :=
  match decision with
  | DDeny =>
      if fail_closed_applied
      then projection false true false SrcLegacyDecision true "legacy_fail_closed_deny"
      else if is_enforcement_deny_reason reason_code
      then projection false false true SrcLegacyDecision true "legacy_enforcement_deny"
      else projection true false false SrcLegacyDecision true "legacy_policy_deny"
  | DError => projection false false true SrcLegacyDecision true "legacy_decision_error"
  | DAllow => not_deny_projection SrcNotDeny true "legacy_decision_allow"
  end.

Definition project_from_origin (decision_origin : option DecisionOrigin) (decision : Decision)
    (fail_closed_applied : bool) (reason_code : string) : option DenyConvergenceProjection :=
  origin ← decision_origin;
  match origin with
  | FailClosedMatrix =>
      Some (projection false true false SrcOriginContext true "origin_fail_closed_matrix")
  | RuntimeEnforcement =>
      Some (projection false false true SrcOriginContext true "origin_runtime_enforcement")
  | PolicyEngine =>
      match decision with
      | DDeny => Some (projection true false false SrcOriginContext true "origin_policy_engine_deny")
      | DError => Some (projection false false true SrcOriginContext true "origin_policy_engine_error")
      | DAllow => Some (not_deny_projection SrcOriginContext true "origin_policy_engine_allow")
      end
  | ObligationExecutor =>
      Some (project_from_legacy_decision decision fail_closed_applied reason_code)
  end.

Definition project_from_fulfillment_path (path : option FulfillmentDecisionPath)
    : option DenyConvergenceProjection :=
  path ← path;
  match path with
  | FPolicyDeny =>
      Some (projection true false false SrcFulfillmentPath true "fulfillment_policy_deny")
  | FFailClosedDeny =>
      Some (projection false true false SrcFulfillmentPath true "fulfillment_fail_closed_deny")
  | FDecisionError =>
      Some (projection false false true SrcFulfillmentPath true "fulfillment_decision_error")
  | FPolicyAllow =>
      Some (not_deny_projection SrcFulfillmentPath true "fulfillment_policy_allow")
  end.

Definition project_deny_convergence (decision_outcome_kind : option DecisionOutcomeKind)
    (decision_origin : option DecisionOrigin)
    (fulfillment_decision_path : option FulfillmentDecisionPath) (decision : Decision)
    (fail_closed_applied : bool) (reason_code : string) : DenyConvergenceProjection :=
  match decision_outcome_kind with
  | Some KPolicyDeny => projection true false false SrcOutcomeKind false "outcome_policy_deny"
  | Some KFailClosedDeny =>
      projection false true false SrcOutcomeKind false "outcome_fail_closed_deny"
  | Some KEnforcementDeny =>
      projection false false true SrcOutcomeKind false "outcome_enforcement_deny"
  | Some (KObligationApplied | KObligationSkipped | KObligationError) =>
      not_deny_projection SrcOutcomeKind false "outcome_not_deny"
  | None =>
      match project_from_origin decision_origin decision fail_closed_applied reason_code with
      | Some origin_projection => origin_projection
      | None =>
          match project_from_fulfillment_path fulfillment_decision_path with
          | Some path_projection => path_projection
          | None => project_from_legacy_decision decision fail_closed_applied reason_code
          end
      end
  end.

(** ** replay_compat.rs *)

Definition DECISION_BASIS_VERSION_V1 := "wave39_v1".

Inductive ReplayClassificationSource : Type :=
| ConvergedOutcome | RFulfillmentPath | LegacyFallback.
#[global] Instance replay_classification_source_eq : EqDecision ReplayClassificationSource.
Proof. solve_decision. Defined.

Record ReplayCompatProjection : Type := mkReplayCompatProjection {
  rp_compat_fallback_applied : bool;
  rp_classification_source : ReplayClassificationSource;
  rp_replay_diff_reason : string;
  rp_legacy_shape_detected : bool
}.

Definition reason_from_outcome_kind (kind : DecisionOutcomeKind) : string :=
  match kind with
  | KPolicyDeny => "converged_policy_deny"
  | KFailClosedDeny => "converged_fail_closed_deny"
  | KObligationApplied => "converged_obligation_applied"
  | KObligationSkipped => "converged_obligation_skipped"
  | KObligationError => "converged_obligation_error"
  | KEnforcementDeny => "converged_enforcement_deny"
  end.

Definition reason_from_fulfillment_path (path : FulfillmentDecisionPath) : string :=
  match path with
  | FPolicyAllow => "fulfillment_policy_allow"
  | FPolicyDeny => "fulfillment_policy_deny"
  | FFailClosedDeny => "fulfillment_fail_closed_deny"
  | FDecisionError => "fulfillment_decision_error"
  end.

Definition reason_from_legacy_decision (decision : Decision) : string :=
  match decision with
  | DAllow => "legacy_decision_allow"
  | DDeny => "legacy_decision_deny"
  | DError => "legacy_decision_error"
  end.

Definition project_replay_compat (decision_outcome_kind : option DecisionOutcomeKind)
    (decision_origin : option DecisionOrigin) (outcome_compat_state : option OutcomeCompatState)
    (fulfillment_decision_path : option FulfillmentDecisionPath) (decision : Decision)
    : ReplayCompatProjection :=
  let legacy_shape_detected :=
    negb (opt_is_some decision_outcome_kind) || negb (opt_is_some decision_origin)
    || negb (opt_is_some outcome_compat_state) || negb (opt_is_some fulfillment_decision_path) in
  let '(classification_source, replay_diff_reason) :=
    match decision_outcome_kind with
    | Some kind => (ConvergedOutcome, reason_from_outcome_kind kind)
    | None =>
        match fulfillment_decision_path with
        | Some path => (RFulfillmentPath, reason_from_fulfillment_path path)
        | None => (LegacyFallback, reason_from_legacy_decision decision)
        end
    end in
  {| rp_compat_fallback_applied := negb (bool_decide (classification_source = ConvergedOutcome));
     rp_classification_source := classification_source;
     rp_replay_diff_reason := replay_diff_reason;
     rp_legacy_shape_detected := legacy_shape_detected |}.

(** ** consumer_contract.rs *)

Definition DECISION_CONSUMER_CONTRACT_VERSION_V1 := "wave41_v1".

Inductive ConsumerReadPath : Type := ConvergedDecision | CompatibilityMarkers | LegacyDecision.
#[global] Instance consumer_read_path_eq : EqDecision ConsumerReadPath.
Proof. solve_decision. Defined.

Inductive ConsumerPayloadState : Type := Converged | CompatibilityFallback | LegacyBase.
#[global] Instance consumer_payload_state_eq : EqDecision ConsumerPayloadState.
Proof. solve_decision. Defined.

Record ConsumerContractProjection : Type := mkConsumerContractProjection {
  ccp_read_path : ConsumerReadPath;
  ccp_fallback_applied : bool;
  ccp_payload_state : ConsumerPayloadState;
  ccp_required_consumer_fields : list string
}.

Definition required_consumer_fields_v1 : list string :=
  ["decision"; "reason_code"; "decision_outcome_kind"; "decision_origin";
   "fulfillment_decision_path"; "decision_basis_version"].

Definition project_consumer_contract (decision_outcome_kind : option DecisionOutcomeKind)
    (decision_origin : option DecisionOrigin)
    (fulfillment_decision_path : option FulfillmentDecisionPath)
    (decision_basis_version : option string) (compat_fallback_applied : option bool)
    (classification_source : option ReplayClassificationSource)
    (legacy_shape_detected : option bool) : ConsumerContractProjection :=
  let converged_present :=
    opt_is_some decision_outcome_kind && opt_is_some decision_origin
    && opt_is_some fulfillment_decision_path in
  let compatibility_present :=
    opt_is_some decision_basis_version || opt_is_some compat_fallback_applied
    || opt_is_some classification_source || opt_is_some legacy_shape_detected in
  let read_path :=
    if converged_present then ConvergedDecision
    else if compatibility_present then CompatibilityMarkers
    else LegacyDecision in
  let payload_state :=
    match read_path with
    | ConvergedDecision =>
        if default false compat_fallback_applied || default false legacy_shape_detected
        then CompatibilityFallback else Converged
    | CompatibilityMarkers => CompatibilityFallback
    | LegacyDecision => LegacyBase
    end in
  {| ccp_read_path := read_path;
     ccp_fallback_applied := negb (bool_decide (read_path = ConvergedDecision));
     ccp_payload_state := payload_state;
     ccp_required_consumer_fields := required_consumer_fields_v1 |}.

(** ** context_contract.rs *)

Definition DECISION_CONTEXT_CONTRACT_VERSION_V1 := "wave42_v1".

Inductive ContextPayloadState : Type := CompleteEnvelope | PartialEnvelope | AbsentEnvelope.
#[global] Instance context_payload_state_eq : EqDecision ContextPayloadState.
Proof. solve_decision. Defined.

Record ContextContractProjection : Type := mkContextContractProjection {
  xcp_payload_state : ContextPayloadState;
  xcp_required_context_fields : list string;
  xcp_missing_context_fields : list string
}.

Definition required_context_fields_v1 : list string :=
  ["lane"; "principal"; "auth_context_summary"; "approval_state"].

Definition project_context_contract (lane principal auth_context_summary approval_state
    : option string) : ContextContractProjection :=
  let fields := [("lane", lane); ("principal", principal);
                 ("auth_context_summary", auth_context_summary);
                 ("approval_state", approval_state)] in
  let present := length (List.filter (fun f => opt_is_some (snd f)) fields) in
  {| xcp_payload_state :=
       if Nat.eqb present 0 then AbsentEnvelope
       else if Nat.eqb present (length fields) then CompleteEnvelope
       else PartialEnvelope;
     xcp_required_context_fields := required_context_fields_v1;
     xcp_missing_context_fields :=
       omap (fun f => if opt_is_some (snd f) then None else Some (fst f)) fields |}.

(** ** Properties *)

(** The deny marker a projection sets, if any. *)
Definition deny_markers (p : DenyConvergenceProjection) : list bool :=
  [dp_policy_deny p; dp_fail_closed_deny p; dp_enforcement_deny p].

(** The deny classification degrades gracefully.  For the event of any
    decision, the projection that reads the canonical outcome and the fallbacks
    that read only the origin, or only the base decision fields, set the same
    markers: exactly one of policy, fail-closed and enforcement deny when the
    decision is not an allow, and none when it is. *)
Theorem deny_projections_agree decision reason_code fail_closed applied skipped error path :
  let oc := classify_decision_outcome decision reason_code fail_closed applied skipped error in
  let full := project_deny_convergence (Some (oc_kind oc)) (Some (oc_origin oc)) path
                decision fail_closed reason_code in
  let from_origin := project_deny_convergence None (Some (oc_origin oc)) path
                       decision fail_closed reason_code in
  let legacy := project_deny_convergence None None None decision fail_closed reason_code in
  deny_markers full = deny_markers legacy /\ deny_markers from_origin = deny_markers legacy /\
  length (List.filter (fun b => b) (deny_markers full)) =
    (if decide (decision = DAllow) then 0 else 1)%nat /\
  dp_legacy_fallback_applied full = false /\ dp_legacy_fallback_applied legacy = true.
Proof.
  unfold classify_decision_outcome, project_deny_convergence.
  destruct decision, fail_closed, (is_enforcement_deny_reason reason_code) eqn:E, applied, error;
    cbn; rewrite ?E; by repeat split.
Qed.
