(* ===== verification/Decision.v ===== *)
(** * Decision events and the emission guard

    [crates/assay-core/src/mcp/decision_next/]: the decision event and its
    payload ([event_types.rs]), the constructors that fill it ([builder.rs]),
    the normalisation that derives its classification fields
    ([normalization.rs]) and the guard that owns an event until it is emitted
    ([guard.rs]).  Field names follow the source, with the prefix [dd_] for
    [DecisionData] and [pc_] for [PolicyDecisionEventContext]. *)
From stdpp Require Import base tactics list strings gmap.
From Stdlib Require Import ZArith Lia.
From S2P Require Import Prelude RustStr Json Platform PolicyTypes Convergence.

(** ** decision_next/event_types.rs *)

Inductive ObligationOutcomeStatus : Type := OApplied | OSkipped | OError.
#[global] Instance obligation_outcome_status_eq : EqDecision ObligationOutcomeStatus.
Proof. solve_decision. Defined.

Record ObligationOutcome : Type := mkObligationOutcome {
  oo_obligation_type : string;
  oo_status : ObligationOutcomeStatus;
  oo_reason : option string;
  oo_reason_code : option string;
  oo_enforcement_stage : option string;
  oo_normalization_version : option string
}.
#[global] Instance ObligationOutcome_eta : Eta ObligationOutcome := fun o =>
  mkObligationOutcome (oo_obligation_type o) (oo_status o) (oo_reason o) (oo_reason_code o)
    (oo_enforcement_stage o) (oo_normalization_version o).

(** [tool_definition.rs]. *)
Record ToolDefinitionBinding : Type := mkToolDefinitionBinding {
  tb_digest : string;
  tb_digest_alg : string;
  tb_canonicalization : string;
  tb_schema : string;
  tb_source : string
}.

Record PolicyDecisionEventContext : Type := mkPolicyDecisionEventContext {
  pc_typed_decision : option TypedPolicyDecision;
  pc_policy_version : option string;
  pc_policy_digest : option string;
  pc_obligations : list PolicyObligation;
  pc_obligation_outcomes : list ObligationOutcome;
  pc_approval_state : option string;
  pc_approval_artifact : option ApprovalArtifact;
  pc_approval_freshness : option ApprovalFreshness;
  pc_approval_failure_reason : option string;
  pc_scope_contract : option RestrictScopeContract;
  pc_scope_evaluation_state : option string;
  pc_scope_failure_reason : option string;
  pc_restrict_scope_present : option bool;
  pc_restrict_scope_target : option string;
  pc_restrict_scope_match : option bool;
  pc_restrict_scope_reason : option string;
  pc_redaction_contract : option RedactArgsContract;
  pc_redaction_applied_state : option string;
  pc_redaction_reason : option string;
  pc_redaction_failure_reason : option string;
  pc_redact_args_present : option bool;
  pc_redact_args_target : option string;
  pc_redact_args_mode : option string;
  pc_redact_args_result : option string;
  pc_redact_args_reason : option string;
  pc_fail_closed : option FailClosedContext;
  pc_lane : option string;
  pc_principal : option string;
  pc_auth_context_summary : option string;
  pc_auth_scheme : option string;
  pc_auth_issuer : option string;
  pc_delegated_from : option string;
  pc_delegation_depth : option Z;
  pc_tool_definition_binding : option ToolDefinitionBinding
}.
#[global] Instance PolicyDecisionEventContext_eta : Eta PolicyDecisionEventContext := fun r =>
  mkPolicyDecisionEventContext (pc_typed_decision r) (pc_policy_version r) (pc_policy_digest r)
    (pc_obligations r) (pc_obligation_outcomes r) (pc_approval_state r)
    (pc_approval_artifact r) (pc_approval_freshness r)
    (pc_approval_failure_reason r) (pc_scope_contract r)
    (pc_scope_evaluation_state r) (pc_scope_failure_reason r)
    (pc_restrict_scope_present r) (pc_restrict_scope_target r)
    (pc_restrict_scope_match r) (pc_restrict_scope_reason r)
    (pc_redaction_contract r) (pc_redaction_applied_state r)
    (pc_redaction_reason r) (pc_redaction_failure_reason r)
    (pc_redact_args_present r) (pc_redact_args_target r) (pc_redact_args_mode r)
    (pc_redact_args_result r) (pc_redact_args_reason r) (pc_fail_closed r)
    (pc_lane r) (pc_principal r) (pc_auth_context_summary r) (pc_auth_scheme r)
    (pc_auth_issuer r) (pc_delegated_from r) (pc_delegation_depth r)
    (pc_tool_definition_binding r).

Record DecisionData : Type := mkDecisionData {
  dd_tool : string;
  dd_tool_classes : list string;
  dd_matched_tool_classes : list string;
  dd_match_basis : option string;
  dd_matched_rule : option string;
  dd_typed_decision : option TypedPolicyDecision;
  dd_policy_version : option string;
  dd_policy_digest : option string;
  dd_policy_snapshot_digest : option string;
  dd_policy_snapshot_digest_alg : option string;
  dd_policy_snapshot_canonicalization : option string;
  dd_policy_snapshot_schema : option string;
  dd_tool_definition_digest : option string;
  dd_tool_definition_digest_alg : option string;
  dd_tool_definition_canonicalization : option string;
  dd_tool_definition_schema : option string;
  dd_tool_definition_source : option string;
  dd_obligations : list PolicyObligation;
  dd_obligation_outcomes : list ObligationOutcome;
  dd_approval_state : option string;
  dd_approval_id : option string;
  dd_approver : option string;
  dd_issued_at : option string;
  dd_expires_at : option string;
  dd_scope : option string;
  dd_approval_bound_tool : option string;
  dd_approval_bound_resource : option string;
  dd_approval_artifact_digest : option string;
  dd_approval_artifact_digest_alg : option string;
  dd_approval_artifact_digest_profile : option string;
  dd_approval_retained_view : option string;
  dd_approval_retention_non_claims : option (list string);
  dd_approval_freshness : option ApprovalFreshness;
  dd_approval_failure_reason : option string;
  dd_scope_type : option string;
  dd_scope_value : option string;
  dd_scope_match_mode : option string;
  dd_scope_evaluation_state : option string;
  dd_scope_failure_reason : option string;
  dd_restrict_scope_present : option bool;
  dd_restrict_scope_target : option string;
  dd_restrict_scope_match : option bool;
  dd_restrict_scope_reason : option string;
  dd_redaction_target : option string;
  dd_redaction_mode : option string;
  dd_redaction_scope : option string;
  dd_redaction_applied_state : option string;
  dd_redaction_reason : option string;
  dd_redaction_failure_reason : option string;
  dd_redact_args_present : option bool;
  dd_redact_args_target : option string;
  dd_redact_args_mode : option string;
  dd_redact_args_result : option string;
  dd_redact_args_reason : option string;
  dd_fail_closed : option FailClosedContext;
  dd_decision_outcome_kind : option DecisionOutcomeKind;
  dd_decision_origin : option DecisionOrigin;
  dd_outcome_compat_state : option OutcomeCompatState;
  dd_fulfillment_decision_path : option FulfillmentDecisionPath;
  dd_decision_basis_version : option string;
  dd_compat_fallback_applied : option bool;
  dd_classification_source : option ReplayClassificationSource;
  dd_replay_diff_reason : option string;
  dd_legacy_shape_detected : option bool;
  dd_decision_consumer_contract_version : option string;
  dd_consumer_read_path : option ConsumerReadPath;
  dd_consumer_fallback_applied : option bool;
  dd_consumer_payload_state : option ConsumerPayloadState;
  dd_required_consumer_fields : list string;
  dd_decision_context_contract_version : option string;
  dd_context_payload_state : option ContextPayloadState;
  dd_required_context_fields : list string;
  dd_missing_context_fields : list string;
  dd_policy_deny : option bool;
  dd_fail_closed_deny : option bool;
  dd_enforcement_deny : option bool;
  dd_deny_precedence_version : option string;
  dd_deny_classification_source : option DenyClassificationSource;
  dd_deny_legacy_fallback_applied : option bool;
  dd_deny_convergence_reason : option string;
  dd_obligation_applied_present : option bool;
  dd_obligation_skipped_present : option bool;
  dd_obligation_error_present : option bool;
  dd_lane : option string;
  dd_principal : option string;
  dd_auth_context_summary : option string;
  dd_auth_scheme : option string;
  dd_auth_issuer : option string;
  dd_delegated_from : option string;
  dd_delegation_depth : option Z;
  dd_decision : Decision;
  dd_reason_code : string;
  dd_reason : option string;
  dd_tool_call_id : string;
  dd_request_id : option Value;
  dd_mandate_id : option string;
  dd_use_id : option string;
  dd_use_count : option Z;
  dd_mandate_scope_match : option bool;
  dd_mandate_kind_match : option bool;
  dd_transaction_ref_match : option bool;
  dd_authz_latency_ms : option Z;
  dd_store_latency_ms : option Z
}.
#[global] Instance DecisionData_eta : Eta DecisionData := fun r =>
  mkDecisionData (dd_tool r) (dd_tool_classes r) (dd_matched_tool_classes r)
    (dd_match_basis r) (dd_matched_rule r) (dd_typed_decision r)
    (dd_policy_version r) (dd_policy_digest r) (dd_policy_snapshot_digest r)
    (dd_policy_snapshot_digest_alg r) (dd_policy_snapshot_canonicalization r)
    (dd_policy_snapshot_schema r) (dd_tool_definition_digest r)
    (dd_tool_definition_digest_alg r) (dd_tool_definition_canonicalization r)
    (dd_tool_definition_schema r) (dd_tool_definition_source r)
    (dd_obligations r) (dd_obligation_outcomes r) (dd_approval_state r)
    (dd_approval_id r) (dd_approver r) (dd_issued_at r) (dd_expires_at r)
    (dd_scope r) (dd_approval_bound_tool r) (dd_approval_bound_resource r)
    (dd_approval_artifact_digest r) (dd_approval_artifact_digest_alg r)
    (dd_approval_artifact_digest_profile r) (dd_approval_retained_view r)
    (dd_approval_retention_non_claims r) (dd_approval_freshness r)
    (dd_approval_failure_reason r) (dd_scope_type r) (dd_scope_value r)
    (dd_scope_match_mode r) (dd_scope_evaluation_state r)
    (dd_scope_failure_reason r) (dd_restrict_scope_present r)
    (dd_restrict_scope_target r) (dd_restrict_scope_match r)
    (dd_restrict_scope_reason r) (dd_redaction_target r) (dd_redaction_mode r)
    (dd_redaction_scope r) (dd_redaction_applied_state r) (dd_redaction_reason r)
    (dd_redaction_failure_reason r) (dd_redact_args_present r)
    (dd_redact_args_target r) (dd_redact_args_mode r) (dd_redact_args_result r)
    (dd_redact_args_reason r) (dd_fail_closed r) (dd_decision_outcome_kind r)
    (dd_decision_origin r) (dd_outcome_compat_state r)
    (dd_fulfillment_decision_path r) (dd_decision_basis_version r)
    (dd_compat_fallback_applied r) (dd_classification_source r)
    (dd_replay_diff_reason r) (dd_legacy_shape_detected r)
    (dd_decision_consumer_contract_version r) (dd_consumer_read_path r)
    (dd_consumer_fallback_applied r) (dd_consumer_payload_state r)
    (dd_required_consumer_fields r) (dd_decision_context_contract_version r)
    (dd_context_payload_state r) (dd_required_context_fields r)
    (dd_missing_context_fields r) (dd_policy_deny r) (dd_fail_closed_deny r)
    (dd_enforcement_deny r) (dd_deny_precedence_version r)
    (dd_deny_classification_source r) (dd_deny_legacy_fallback_applied r)
    (dd_deny_convergence_reason r) (dd_obligation_applied_present r)
    (dd_obligation_skipped_present r) (dd_obligation_error_present r) (dd_lane r)
    (dd_principal r) (dd_auth_context_summary r) (dd_auth_scheme r)
    (dd_auth_issuer r) (dd_delegated_from r) (dd_delegation_depth r)
    (dd_decision r) (dd_reason_code r) (dd_reason r) (dd_tool_call_id r)
    (dd_request_id r) (dd_mandate_id r) (dd_use_id r) (dd_use_count r)
    (dd_mandate_scope_match r) (dd_mandate_kind_match r)
    (dd_transaction_ref_match r) (dd_authz_latency_ms r) (dd_store_latency_ms r).

Record DecisionEvent : Type := mkDecisionEvent {
  ev_specversion : string;
  ev_id : string;
  ev_event_type : string;
  ev_source : string;
  ev_time : string;
  ev_data : DecisionData
}.
#[global] Instance DecisionEvent_eta : Eta DecisionEvent := fun e =>
  mkDecisionEvent (ev_specversion e) (ev_id e) (ev_event_type e) (ev_source e) (ev_time e)
    (ev_data e).

Section Decision.
Context `{Platform}.

Definition apply_policy_snapshot_projection (d : DecisionData) : DecisionData :=
  let tag s := if opt_is_some (dd_policy_digest d) then Some s else None in
  d <| dd_policy_snapshot_digest := dd_policy_digest d |>
    <| dd_policy_snapshot_digest_alg := tag "sha256" |>
    <| dd_policy_snapshot_canonicalization := tag "jcs:mcp_policy" |>
    <| dd_policy_snapshot_schema := tag "assay.mcp.policy.snapshot.v1" |>.

Definition apply_tool_definition_binding (binding : option ToolDefinitionBinding)
    (d : DecisionData) : DecisionData :=
  d <| dd_tool_definition_digest := tb_digest <$> binding |>
    <| dd_tool_definition_digest_alg := tb_digest_alg <$> binding |>
    <| dd_tool_definition_canonicalization := tb_canonicalization <$> binding |>
    <| dd_tool_definition_schema := tb_schema <$> binding |>
    <| dd_tool_definition_source := tb_source <$> binding |>.

(** The derived [Serialize] of [ApprovalArtifact]. *)
Definition approval_artifact_value (a : ApprovalArtifact) : Value :=
  Obj [("approval_id", Str (aa_approval_id a)); ("approver", Str (aa_approver a));
       ("issued_at", Str (aa_issued_at a)); ("expires_at", Str (aa_expires_at a));
       ("scope", Str (aa_scope a)); ("bound_tool", Str (aa_bound_tool a));
       ("bound_resource", Str (aa_bound_resource a))].

Definition APPROVAL_RETENTION_NON_CLAIMS : list string :=
  ["not_rendered_ui_view"; "not_user_seen_bytes"; "not_raw_byte_retention";
   "not_model_behavior_truth"; "not_user_intent_truth"].

Definition apply_approval_artifact_retention (artifact : option ApprovalArtifact)
    (d : DecisionData) : DecisionData :=
  let canonical := artifact ≫= fun a => jcs_to_string (approval_artifact_value a) in
  d <| dd_approval_artifact_digest := (fun c => "sha256:" +:+ sha256_hex c) <$> canonical |>
    <| dd_approval_artifact_digest_alg := (fun _ => "sha256") <$> canonical |>
    <| dd_approval_artifact_digest_profile :=
         (fun _ => "assay.approval_artifact.structured_meta_jcs.v0") <$> canonical |>
    <| dd_approval_retained_view := (fun _ => "structured_meta_jcs") <$> canonical |>
    <| dd_approval_retention_non_claims :=
         (fun _ => APPROVAL_RETENTION_NON_CLAIMS) <$> canonical |>.

(** ** decision_next/normalization.rs *)

Definition outcome_reason_code (s : ObligationOutcomeStatus) : string :=
  match s with
  | OApplied => "obligation_applied"
  | OSkipped => "obligation_skipped"
  | OError => "obligation_error"
  end.

Definition normalize_obligation_outcome (o : ObligationOutcome) : ObligationOutcome :=
  o <| oo_reason_code := option_or (oo_reason_code o) (Some (outcome_reason_code (oo_status o))) |>
    <| oo_enforcement_stage := option_or (oo_enforcement_stage o) (Some "handler") |>
    <| oo_normalization_version := option_or (oo_normalization_version o) (Some "v1") |>.

Definition normalize_obligation_outcomes (l : list ObligationOutcome) : list ObligationOutcome :=
  map normalize_obligation_outcome l.

Definition fail_closed_applied (d : DecisionData) : bool :=
  match dd_fail_closed d with Some ctx => fc_fail_closed_applied ctx | None => false end.

Definition classify_fulfillment_decision_path (d : DecisionData) : FulfillmentDecisionPath :=
  match dd_decision d with
  | DAllow => FPolicyAllow
  | DDeny => if fail_closed_applied d then FFailClosedDeny else FPolicyDeny
  | DError => FDecisionError
  end.

Definition has_status (s : ObligationOutcomeStatus) (l : list ObligationOutcome) : bool :=
  existsb (fun o => bool_decide (oo_status o = s)) l.

Definition refresh_fulfillment_normalization (d : DecisionData) : DecisionData :=
  let outcomes := normalize_obligation_outcomes (dd_obligation_outcomes d) in
  let d := d <| dd_obligation_outcomes := outcomes |>
             <| dd_obligation_applied_present := Some (has_status OApplied outcomes) |>
             <| dd_obligation_skipped_present := Some (has_status OSkipped outcomes) |>
             <| dd_obligation_error_present := Some (has_status OError outcomes) |> in
  let outcome := classify_decision_outcome (dd_decision d) (dd_reason_code d)
                   (fail_closed_applied d)
                   (default false (dd_obligation_applied_present d))
                   (default false (dd_obligation_skipped_present d))
                   (default false (dd_obligation_error_present d)) in
  let d := d <| dd_decision_outcome_kind := Some (oc_kind outcome) |>
             <| dd_decision_origin := Some (oc_origin outcome) |>
             <| dd_outcome_compat_state := Some (oc_compat_state outcome) |> in
  let d := d <| dd_fulfillment_decision_path := Some (classify_fulfillment_decision_path d) |> in
  let rp := project_replay_compat (dd_decision_outcome_kind d) (dd_decision_origin d)
              (dd_outcome_compat_state d) (dd_fulfillment_decision_path d) (dd_decision d) in
  let dp := project_deny_convergence (dd_decision_outcome_kind d) (dd_decision_origin d)
              (dd_fulfillment_decision_path d) (dd_decision d) (fail_closed_applied d)
              (dd_reason_code d) in
  let d := d <| dd_decision_basis_version := Some DECISION_BASIS_VERSION_V1 |>
             <| dd_compat_fallback_applied := Some (rp_compat_fallback_applied rp) |>
             <| dd_classification_source := Some (rp_classification_source rp) |>
             <| dd_replay_diff_reason := Some (rp_replay_diff_reason rp) |>
             <| dd_legacy_shape_detected := Some (rp_legacy_shape_detected rp) |> in
  let cp := project_consumer_contract (dd_decision_outcome_kind d) (dd_decision_origin d)
              (dd_fulfillment_decision_path d) (dd_decision_basis_version d)
              (dd_compat_fallback_applied d) (dd_classification_source d)
              (dd_legacy_shape_detected d) in
  let d := d <| dd_decision_consumer_contract_version :=
                  Some DECISION_CONSUMER_CONTRACT_VERSION_V1 |>
             <| dd_consumer_read_path := Some (ccp_read_path cp) |>
             <| dd_consumer_fallback_applied := Some (ccp_fallback_applied cp) |>
             <| dd_consumer_payload_state := Some (ccp_payload_state cp) |>
             <| dd_required_consumer_fields := ccp_required_consumer_fields cp |> in
  let xp := project_context_contract (dd_lane d) (dd_principal d) (dd_auth_context_summary d)
              (dd_approval_state d) in
  d <| dd_decision_context_contract_version := Some DECISION_CONTEXT_CONTRACT_VERSION_V1 |>
    <| dd_context_payload_state := Some (xcp_payload_state xp) |>
    <| dd_required_context_fields := xcp_required_context_fields xp |>
    <| dd_missing_context_fields := xcp_missing_context_fields xp |>
    <| dd_policy_deny := Some (dp_policy_deny dp) |>
    <| dd_fail_closed_deny := Some (dp_fail_closed_deny dp) |>
    <| dd_enforcement_deny := Some (dp_enforcement_deny dp) |>
    <| dd_deny_precedence_version := Some DENY_PRECEDENCE_VERSION_V1 |>
    <| dd_deny_classification_source := Some (dp_classification_source dp) |>
    <| dd_deny_legacy_fallback_applied := Some (dp_legacy_fallback_applied dp) |>
    <| dd_deny_convergence_reason := Some (dp_deny_convergence_reason dp) |>.

Definition refresh_contract_projections (d : DecisionData) : DecisionData :=
  refresh_fulfillment_normalization d.

(** ** decision_next/builder.rs *)

Definition decision_data_new (tool_call_id tool : string) : DecisionData :=
  {| dd_tool := tool;
     dd_tool_classes := [];
     dd_matched_tool_classes := [];
     dd_match_basis := None;
     dd_matched_rule := None;
     dd_typed_decision := None;
     dd_policy_version := None;
     dd_policy_digest := None;
     dd_policy_snapshot_digest := None;
     dd_policy_snapshot_digest_alg := None;
     dd_policy_snapshot_canonicalization := None;
     dd_policy_snapshot_schema := None;
     dd_tool_definition_digest := None;
     dd_tool_definition_digest_alg := None;
     dd_tool_definition_canonicalization := None;
     dd_tool_definition_schema := None;
     dd_tool_definition_source := None;
     dd_obligations := [];
     dd_obligation_outcomes := [];
     dd_approval_state := None;
     dd_approval_id := None;
     dd_approver := None;
     dd_issued_at := None;
     dd_expires_at := None;
     dd_scope := None;
     dd_approval_bound_tool := None;
     dd_approval_bound_resource := None;
     dd_approval_artifact_digest := None;
     dd_approval_artifact_digest_alg := None;
     dd_approval_artifact_digest_profile := None;
     dd_approval_retained_view := None;
     dd_approval_retention_non_claims := None;
     dd_approval_freshness := None;
     dd_approval_failure_reason := None;
     dd_scope_type := None;
     dd_scope_value := None;
     dd_scope_match_mode := None;
     dd_scope_evaluation_state := None;
     dd_scope_failure_reason := None;
     dd_restrict_scope_present := None;
     dd_restrict_scope_target := None;
     dd_restrict_scope_match := None;
     dd_restrict_scope_reason := None;
     dd_redaction_target := None;
     dd_redaction_mode := None;
     dd_redaction_scope := None;
     dd_redaction_applied_state := None;
     dd_redaction_reason := None;
     dd_redaction_failure_reason := None;
     dd_redact_args_present := None;
     dd_redact_args_target := None;
     dd_redact_args_mode := None;
     dd_redact_args_result := None;
     dd_redact_args_reason := None;
     dd_fail_closed := None;
     dd_decision_outcome_kind := None;
     dd_decision_origin := None;
     dd_outcome_compat_state := None;
     dd_fulfillment_decision_path := None;
     dd_decision_basis_version := None;
     dd_compat_fallback_applied := None;
     dd_classification_source := None;
     dd_replay_diff_reason := None;
     dd_legacy_shape_detected := None;
     dd_decision_consumer_contract_version := None;
     dd_consumer_read_path := None;
     dd_consumer_fallback_applied := None;
     dd_consumer_payload_state := None;
     dd_required_consumer_fields := [];
     dd_decision_context_contract_version := None;
     dd_context_payload_state := None;
     dd_required_context_fields := [];
     dd_missing_context_fields := [];
     dd_policy_deny := None;
     dd_fail_closed_deny := None;
     dd_enforcement_deny := None;
     dd_deny_precedence_version := None;
     dd_deny_classification_source := None;
     dd_deny_legacy_fallback_applied := None;
     dd_deny_convergence_reason := None;
     dd_obligation_applied_present := None;
     dd_obligation_skipped_present := None;
     dd_obligation_error_present := None;
     dd_lane := None;
     dd_principal := None;
     dd_auth_context_summary := None;
     dd_auth_scheme := None;
     dd_auth_issuer := None;
     dd_delegated_from := None;
     dd_delegation_depth := None;
     dd_decision := DError;
     dd_reason_code := reason_codes.S_INTERNAL_ERROR;
     dd_reason := Some "Decision not finalized (guard dropped without emit)";
     dd_tool_call_id := tool_call_id;
     dd_request_id := None;
     dd_mandate_id := None;
     dd_use_id := None;
     dd_use_count := None;
     dd_mandate_scope_match := None;
     dd_mandate_kind_match := None;
     dd_transaction_ref_match := None;
     dd_authz_latency_ms := None;
     dd_store_latency_ms := None |}.

(** [uuid] and [now] are what the generator and the clock gave. *)
Definition decision_event_new (uuid : string) (now : Z) (source tool_call_id tool : string)
    : DecisionEvent :=
  {| ev_specversion := "1.0";
     ev_id := "evt_decision_" +:+ uuid;
     ev_event_type := "assay.tool.decision";
     ev_source := source;
     ev_time := to_rfc3339 now;
     ev_data := decision_data_new tool_call_id tool |}.

(** The common body of [allow], [deny] and [error]. *)
Definition finalize_data (decision : Decision) (reason_code : string) (reason : option string)
    (d : DecisionData) : DecisionData :=
  refresh_fulfillment_normalization
    (d <| dd_decision := decision |> <| dd_reason_code := reason_code |> <| dd_reason := reason |>).

Definition event_allow (reason_code : string) (e : DecisionEvent) : DecisionEvent :=
  e <| ev_data := finalize_data DAllow reason_code None (ev_data e) |>.

Definition event_deny (reason_code : string) (reason : option string) (e : DecisionEvent)
    : DecisionEvent :=
  e <| ev_data := finalize_data DDeny reason_code reason (ev_data e) |>.

Definition event_error (reason_code : string) (reason : option string) (e : DecisionEvent)
    : DecisionEvent :=
  e <| ev_data := finalize_data DError reason_code reason (ev_data e) |>.

Definition data_with_request_id (id : option Value) (d : DecisionData) : DecisionData :=
  d <| dd_request_id := id |>.

Definition data_with_mandate (mandate_id use_id : option string) (use_count : option Z)
    (d : DecisionData) : DecisionData :=
  d <| dd_mandate_id := mandate_id |> <| dd_use_id := use_id |> <| dd_use_count := use_count |>.

Definition data_with_mandate_matches (scope_match kind_match tx_ref_match : option bool)
    (d : DecisionData) : DecisionData :=
  d <| dd_mandate_scope_match := scope_match |>
    <| dd_mandate_kind_match := kind_match |>
    <| dd_transaction_ref_match := tx_ref_match |>.

Definition data_with_latencies (authz_ms store_ms : option Z) (d : DecisionData) : DecisionData :=
  d <| dd_authz_latency_ms := authz_ms |> <| dd_store_latency_ms := store_ms |>.

Definition data_with_tool_match (tool_classes matched_tool_classes : list string)
    (match_basis matched_rule : option string) (d : DecisionData) : DecisionData :=
  d <| dd_tool_classes := tool_classes |>
    <| dd_matched_tool_classes := matched_tool_classes |>
    <| dd_match_basis := match_basis |>
    <| dd_matched_rule := matched_rule |>.

(** [DecisionEvent::with_policy_context]. *)
Definition data_with_policy_context (c : PolicyDecisionEventContext) (d : DecisionData) : DecisionData :=
  let d := d <| dd_typed_decision := pc_typed_decision c |>
             <| dd_policy_version := pc_policy_version c |>
             <| dd_policy_digest := pc_policy_digest c |> in
  let d := apply_policy_snapshot_projection d in
  let d := apply_tool_definition_binding (pc_tool_definition_binding c) d in
  let d := d <| dd_obligations := pc_obligations c |>
             <| dd_obligation_outcomes := pc_obligation_outcomes c |>
             <| dd_approval_state := pc_approval_state c |> in
  let d := apply_approval_artifact_retention (pc_approval_artifact c) d in
  let d := match pc_approval_artifact c with
           | Some a =>
               d <| dd_approval_id := Some (aa_approval_id a) |>
                 <| dd_approver := Some (aa_approver a) |>
                 <| dd_issued_at := Some (aa_issued_at a) |>
                 <| dd_expires_at := Some (aa_expires_at a) |>
                 <| dd_scope := Some (aa_scope a) |>
                 <| dd_approval_bound_tool := Some (aa_bound_tool a) |>
                 <| dd_approval_bound_resource := Some (aa_bound_resource a) |>
           | None => d
           end in
  let d := d <| dd_approval_freshness := pc_approval_freshness c |>
             <| dd_approval_failure_reason := pc_approval_failure_reason c |> in
  let d := match pc_scope_contract c with
           | Some s =>
               d <| dd_scope_type := Some (rs_scope_type s) |>
                 <| dd_scope_value := Some (rs_scope_value s) |>
                 <| dd_scope_match_mode := Some (rs_scope_match_mode s) |>
           | None => d
           end in
  let d := d <| dd_scope_evaluation_state := pc_scope_evaluation_state c |>
             <| dd_scope_failure_reason := pc_scope_failure_reason c |>
             <| dd_restrict_scope_present := pc_restrict_scope_present c |>
             <| dd_restrict_scope_target := pc_restrict_scope_target c |>
             <| dd_restrict_scope_match := pc_restrict_scope_match c |>
             <| dd_restrict_scope_reason := pc_restrict_scope_reason c |> in
  let d := match pc_redaction_contract c with
           | Some s =>
               d <| dd_redaction_target := Some (ra_redaction_target s) |>
                 <| dd_redaction_mode := Some (ra_redaction_mode s) |>
                 <| dd_redaction_scope := Some (ra_redaction_scope s) |>
           | None => d
           end in
  let d := d <| dd_redaction_applied_state := pc_redaction_applied_state c |>
             <| dd_redaction_reason := pc_redaction_reason c |>
             <| dd_redaction_failure_reason := pc_redaction_failure_reason c |>
             <| dd_redact_args_present := pc_redact_args_present c |>
             <| dd_redact_args_target := pc_redact_args_target c |>
             <| dd_redact_args_mode := pc_redact_args_mode c |>
             <| dd_redact_args_result := pc_redact_args_result c |>
             <| dd_redact_args_reason := pc_redact_args_reason c |>
             <| dd_fail_closed := pc_fail_closed c |>
             <| dd_lane := pc_lane c |>
             <| dd_principal := pc_principal c |>
             <| dd_auth_context_summary := pc_auth_context_summary c |>
             <| dd_auth_scheme := pc_auth_scheme c |>
             <| dd_auth_issuer := pc_auth_issuer c |>
             <| dd_delegated_from := pc_delegated_from c |>
             <| dd_delegation_depth := pc_delegation_depth c |> in
  refresh_fulfillment_normalization d.

(** ** decision_next/guard.rs *)

(** [DecisionEmitterGuard::set_policy_context]: as the builder's, but it does not
    project the approval artifact's digest. *)
Definition data_set_policy_context (c : PolicyDecisionEventContext) (d : DecisionData) : DecisionData :=
  let d := d <| dd_typed_decision := pc_typed_decision c |>
             <| dd_policy_version := pc_policy_version c |>
             <| dd_policy_digest := pc_policy_digest c |> in
  let d := apply_policy_snapshot_projection d in
  let d := apply_tool_definition_binding (pc_tool_definition_binding c) d in
  let d := d <| dd_obligations := pc_obligations c |>
             <| dd_obligation_outcomes := pc_obligation_outcomes c |>
             <| dd_approval_state := pc_approval_state c |> in
  let d := match pc_approval_artifact c with
           | Some a =>
               d <| dd_approval_id := Some (aa_approval_id a) |>
                 <| dd_approver := Some (aa_approver a) |>
                 <| dd_issued_at := Some (aa_issued_at a) |>
                 <| dd_expires_at := Some (aa_expires_at a) |>
                 <| dd_scope := Some (aa_scope a) |>
                 <| dd_approval_bound_tool := Some (aa_bound_tool a) |>
                 <| dd_approval_bound_resource := Some (aa_bound_resource a) |>
           | None => d
           end in
  let d := d <| dd_approval_freshness := pc_approval_freshness c |>
             <| dd_approval_failure_reason := pc_approval_failure_reason c |> in
  let d := match pc_scope_contract c with
           | Some s =>
               d <| dd_scope_type := Some (rs_scope_type s) |>
                 <| dd_scope_value := Some (rs_scope_value s) |>
                 <| dd_scope_match_mode := Some (rs_scope_match_mode s) |>
           | None => d
           end in
  let d := d <| dd_scope_evaluation_state := pc_scope_evaluation_state c |>
             <| dd_scope_failure_reason := pc_scope_failure_reason c |>
             <| dd_restrict_scope_present := pc_restrict_scope_present c |>
             <| dd_restrict_scope_target := pc_restrict_scope_target c |>
             <| dd_restrict_scope_match := pc_restrict_scope_match c |>
             <| dd_restrict_scope_reason := pc_restrict_scope_reason c |> in
  let d := match pc_redaction_contract c with
           | Some s =>
               d <| dd_redaction_target := Some (ra_redaction_target s) |>
                 <| dd_redaction_mode := Some (ra_redaction_mode s) |>
                 <| dd_redaction_scope := Some (ra_redaction_scope s) |>
           | None => d
           end in
  let d := d <| dd_redaction_applied_state := pc_redaction_applied_state c |>
             <| dd_redaction_reason := pc_redaction_reason c |>
             <| dd_redaction_failure_reason := pc_redaction_failure_reason c |>
             <| dd_redact_args_present := pc_redact_args_present c |>
             <| dd_redact_args_target := pc_redact_args_target c |>
             <| dd_redact_args_mode := pc_redact_args_mode c |>
             <| dd_redact_args_result := pc_redact_args_result c |>
             <| dd_redact_args_reason := pc_redact_args_reason c |>
             <| dd_fail_closed := pc_fail_closed c |>
             <| dd_lane := pc_lane c |>
             <| dd_principal := pc_principal c |>
             <| dd_auth_context_summary := pc_auth_context_summary c |>
             <| dd_auth_scheme := pc_auth_scheme c |>
             <| dd_auth_issuer := pc_auth_issuer c |>
             <| dd_delegated_from := pc_delegated_from c |>
             <| dd_delegation_depth := pc_delegation_depth c |> in
  refresh_fulfillment_normalization d.

(** ** Lemmas

    The core of a payload is what its classification depends on; every setter
    acts on the core, and normalisation keeps it. *)

Record Core : Type := mkCore {
  co_tool : string;
  co_tool_call_id : string;
  co_decision : Decision;
  co_reason_code : string;
  co_reason : option string;
  co_fail_closed : option FailClosedContext;
  co_statuses : list ObligationOutcomeStatus
}.

#[global] Instance core_eta : Eta Core := fun k =>
  mkCore (co_tool k) (co_tool_call_id k) (co_decision k) (co_reason_code k) (co_reason k)
    (co_fail_closed k) (co_statuses k).

Definition core (d : DecisionData) : Core :=
  {| co_tool := dd_tool d; co_tool_call_id := dd_tool_call_id d;
     co_decision := dd_decision d; co_reason_code := dd_reason_code d;
     co_reason := dd_reason d; co_fail_closed := dd_fail_closed d;
     co_statuses := map oo_status (dd_obligation_outcomes d) |}.

(** The canonical kind and the three deny markers of a payload. *)
Definition classification (d : DecisionData)
    : option DecisionOutcomeKind * option bool * option bool * option bool :=
  (dd_decision_outcome_kind d, dd_policy_deny d, dd_fail_closed_deny d, dd_enforcement_deny d).

Definition core_outcome (k : Core) : OutcomeClassification :=
  let has s := existsb (fun o => bool_decide (o = s)) (co_statuses k) in
  classify_decision_outcome (co_decision k) (co_reason_code k)
    (match co_fail_closed k with Some c => fc_fail_closed_applied c | None => false end)
    (has OApplied) (has OSkipped) (has OError).

Definition core_classification (k : Core)
    : option DecisionOutcomeKind * option bool * option bool * option bool :=
  let kind := oc_kind (core_outcome k) in
  let dp := project_deny_convergence (Some kind) None None (co_decision k) false
              (co_reason_code k) in
  (Some kind, Some (dp_policy_deny dp), Some (dp_fail_closed_deny dp),
   Some (dp_enforcement_deny dp)).

Lemma statuses_normalize l :
  map oo_status (normalize_obligation_outcomes l) = map oo_status l.
Proof. unfold normalize_obligation_outcomes. rewrite map_map. done. Qed.

Lemma has_status_map s l :
  has_status s l = existsb (fun o => bool_decide (o = s)) (map oo_status l).
Proof. unfold has_status. by rewrite existsb_map. Qed.

Lemma refresh_core d : core (refresh_fulfillment_normalization d) = core d.
Proof.
  transitivity {| co_tool := dd_tool d; co_tool_call_id := dd_tool_call_id d;
     co_decision := dd_decision d; co_reason_code := dd_reason_code d;
     co_reason := dd_reason d; co_fail_closed := dd_fail_closed d;
     co_statuses := map oo_status (normalize_obligation_outcomes (dd_obligation_outcomes d)) |};
    [reflexivity|]. by rewrite statuses_normalize.
Qed.

Lemma refresh_classification d :
  classification (refresh_fulfillment_normalization d) = core_classification (core d).
Proof.
  assert (Hk : dd_decision_outcome_kind (refresh_fulfillment_normalization d) =
               Some (oc_kind (core_outcome (core d)))).
  { transitivity (Some (oc_kind (classify_decision_outcome (dd_decision d) (dd_reason_code d)
      (fail_closed_applied d)
      (has_status OApplied (normalize_obligation_outcomes (dd_obligation_outcomes d)))
      (has_status OSkipped (normalize_obligation_outcomes (dd_obligation_outcomes d)))
      (has_status OError (normalize_obligation_outcomes (dd_obligation_outcomes d))))));
      [reflexivity|]. by rewrite !has_status_map, statuses_normalize. }
  assert (Hd : forall k, dd_decision_outcome_kind (refresh_fulfillment_normalization d) = Some k ->
    classification (refresh_fulfillment_normalization d) =
    let dp := project_deny_convergence (Some k) None None DAllow false EmptyString in
    (Some k, Some (dp_policy_deny dp), Some (dp_fail_closed_deny dp), Some (dp_enforcement_deny dp))).
  { intros k Hk'. unfold classification. rewrite Hk'.
    change (dd_decision_outcome_kind (refresh_fulfillment_normalization d)) with
      (Some (oc_kind (classify_decision_outcome (dd_decision d) (dd_reason_code d)
      (fail_closed_applied d)
      (has_status OApplied (normalize_obligation_outcomes (dd_obligation_outcomes d)))
      (has_status OSkipped (normalize_obligation_outcomes (dd_obligation_outcomes d)))
      (has_status OError (normalize_obligation_outcomes (dd_obligation_outcomes d)))))) in Hk'.
    injection Hk' as <-. reflexivity. }
  rewrite (Hd _ Hk). reflexivity.
Qed.

Lemma set_policy_context_core c d :
  core (data_set_policy_context c d) =
  (core d) <| co_fail_closed := pc_fail_closed c |>
           <| co_statuses := map oo_status (pc_obligation_outcomes c) |>.
Proof.
  unfold data_set_policy_context. cbv zeta. rewrite refresh_core.
  destruct (pc_approval_artifact c), (pc_scope_contract c), (pc_redaction_contract c); reflexivity.
Qed.

Lemma set_policy_context_ids c d :
  dd_tool_call_id (data_set_policy_context c d) = dd_tool_call_id d /\
  dd_tool (data_set_policy_context c d) = dd_tool d.
Proof.
  pose proof (set_policy_context_core c d) as E. split.
  - exact (f_equal co_tool_call_id E).
  - exact (f_equal co_tool E).
Qed.

Lemma with_policy_context_core c d :
  core (data_with_policy_context c d) =
  (core d) <| co_fail_closed := pc_fail_closed c |>
           <| co_statuses := map oo_status (pc_obligation_outcomes c) |>.
Proof.
  unfold data_with_policy_context. cbv zeta. rewrite refresh_core.
  destruct (pc_approval_artifact c), (pc_scope_contract c), (pc_redaction_contract c); reflexivity.
Qed.

Lemma with_tool_match_core tool_classes matched basis rule d :
  core (data_with_tool_match tool_classes matched basis rule d) = core d.
Proof. done. Qed.

Lemma finalize_core dec code reason d :
  core (finalize_data dec code reason d) =
  (core d) <| co_decision := dec |> <| co_reason_code := code |> <| co_reason := reason |>.
Proof. unfold finalize_data. by rewrite refresh_core. Qed.

Lemma finalize_classification dec code reason d :
  classification (finalize_data dec code reason d) =
  core_classification (core (finalize_data dec code reason d)).
Proof. unfold finalize_data. by rewrite refresh_classification, refresh_core. Qed.

Lemma with_policy_context_classification c d :
  classification (data_with_policy_context c d) =
  core_classification (core (data_with_policy_context c d)).
Proof.
  unfold data_with_policy_context. cbv zeta. by rewrite refresh_classification, refresh_core.
Qed.

(** The guard leaves the approval digest of its event alone, while the builder
    sets it from the artifact. *)
Lemma guard_keeps_approval_digest c d :
  dd_approval_artifact_digest (data_set_policy_context c d) = dd_approval_artifact_digest d /\
  dd_approval_artifact_digest (data_with_policy_context c d) =
    (fun canonical => "sha256:" +:+ sha256_hex canonical) <$>
      (pc_approval_artifact c ≫= fun a => jcs_to_string (approval_artifact_value a)).
Proof.
  unfold data_set_policy_context, data_with_policy_context. cbv zeta.
  destruct (pc_approval_artifact c), (pc_scope_contract c), (pc_redaction_contract c);
    split; reflexivity.
Qed.

End Decision.
