(* ===== verification/ReplayDiff.v ===== *)
(** * Replay diff

    [crates/assay-core/src/mcp/decision/replay_diff.rs]: the basis two decision
    payloads are compared on, and the bucket their difference falls in. *)
From stdpp Require Import base tactics list strings.
From Stdlib Require Import ZArith Lia.
From S2P Require Import Prelude RustStr Json Platform PolicyTypes Convergence Decision.

Inductive ReplayDiffBucket : Type := Unchanged | Stricter | Looser | Reclassified | EvidenceOnly.

Record ReplayDiffBasis : Type := mkReplayDiffBasis {
  rb_decision_outcome_kind : option DecisionOutcomeKind;
  rb_decision_origin : option DecisionOrigin;
  rb_outcome_compat_state : option OutcomeCompatState;
  rb_fulfillment_decision_path : option FulfillmentDecisionPath;
  rb_decision_basis_version : string;
  rb_compat_fallback_applied : bool;
  rb_classification_source : ReplayClassificationSource;
  rb_replay_diff_reason : string;
  rb_legacy_shape_detected : bool;
  rb_decision_consumer_contract_version : string;
  rb_consumer_read_path : ConsumerReadPath;
  rb_consumer_fallback_applied : bool;
  rb_consumer_payload_state : ConsumerPayloadState;
  rb_required_consumer_fields : list string;
  rb_policy_deny : bool;
  rb_fail_closed_deny : bool;
  rb_enforcement_deny : bool;
  rb_deny_precedence_version : string;
  rb_deny_classification_source : DenyClassificationSource;
  rb_deny_legacy_fallback_applied : bool;
  rb_deny_convergence_reason : string;
  rb_reason_code : string;
  rb_typed_decision : option TypedPolicyDecision;
  rb_policy_version : option string;
  rb_policy_digest : option string;
  rb_decision : Decision;
  rb_fail_closed_applied : bool
}.

Section ReplayDiff.
Context `{Platform}.

Definition basis_from_decision_data (data : DecisionData) : ReplayDiffBasis :=
  let fail_closed_applied := fail_closed_applied data in
  let rp := project_replay_compat (dd_decision_outcome_kind data) (dd_decision_origin data)
              (dd_outcome_compat_state data) (dd_fulfillment_decision_path data)
              (dd_decision data) in
  let cp := project_consumer_contract (dd_decision_outcome_kind data) (dd_decision_origin data)
              (dd_fulfillment_decision_path data)
              (option_or (dd_decision_basis_version data) (Some DECISION_BASIS_VERSION_V1))
              (Some (default (rp_compat_fallback_applied rp) (dd_compat_fallback_applied data)))
              (Some (default (rp_classification_source rp) (dd_classification_source data)))
              (Some (default (rp_legacy_shape_detected rp) (dd_legacy_shape_detected data))) in
  let dp := project_deny_convergence (dd_decision_outcome_kind data) (dd_decision_origin data)
              (dd_fulfillment_decision_path data) (dd_decision data) fail_closed_applied
              (dd_reason_code data) in
  {| rb_decision_outcome_kind := dd_decision_outcome_kind data;
     rb_decision_origin := dd_decision_origin data;
     rb_outcome_compat_state := dd_outcome_compat_state data;
     rb_fulfillment_decision_path := dd_fulfillment_decision_path data;
     rb_decision_basis_version := default DECISION_BASIS_VERSION_V1 (dd_decision_basis_version data);
     rb_compat_fallback_applied :=
       default (rp_compat_fallback_applied rp) (dd_compat_fallback_applied data);
     rb_classification_source :=
       default (rp_classification_source rp) (dd_classification_source data);
     rb_replay_diff_reason := default (rp_replay_diff_reason rp) (dd_replay_diff_reason data);
     rb_legacy_shape_detected :=
       default (rp_legacy_shape_detected rp) (dd_legacy_shape_detected data);
     rb_decision_consumer_contract_version :=
       default DECISION_CONSUMER_CONTRACT_VERSION_V1 (dd_decision_consumer_contract_version data);
     rb_consumer_read_path := default (ccp_read_path cp) (dd_consumer_read_path data);
     rb_consumer_fallback_applied :=
       default (ccp_fallback_applied cp) (dd_consumer_fallback_applied data);
     rb_consumer_payload_state := default (ccp_payload_state cp) (dd_consumer_payload_state data);
     rb_required_consumer_fields :=
       if is_nil (dd_required_consumer_fields data) then required_consumer_fields_v1
       else dd_required_consumer_fields data;
     rb_policy_deny := default (dp_policy_deny dp) (dd_policy_deny data);
     rb_fail_closed_deny := default (dp_fail_closed_deny dp) (dd_fail_closed_deny data);
     rb_enforcement_deny := default (dp_enforcement_deny dp) (dd_enforcement_deny data);
     rb_deny_precedence_version :=
       default DENY_PRECEDENCE_VERSION_V1 (dd_deny_precedence_version data);
     rb_deny_classification_source :=
       default (dp_classification_source dp) (dd_deny_classification_source data);
     rb_deny_legacy_fallback_applied :=
       default (dp_legacy_fallback_applied dp) (dd_deny_legacy_fallback_applied data);
     rb_deny_convergence_reason :=
       default (dp_deny_convergence_reason dp) (dd_deny_convergence_reason data);
     rb_reason_code := dd_reason_code data;
     rb_typed_decision := dd_typed_decision data;
     rb_policy_version := dd_policy_version data;
     rb_policy_digest := dd_policy_digest data;
     rb_decision := dd_decision data;
     rb_fail_closed_applied := fail_closed_applied |}.

(** [==] on a field. *)
Definition same {A} `{EqDecision A} {R} (f : R -> A) (a b : R) : bool := bool_decide (f a = f b).

Definition same_effective_decision_class (baseline candidate : ReplayDiffBasis) : bool :=
  same rb_decision_outcome_kind baseline candidate
  && same rb_decision_origin baseline candidate
  && same rb_outcome_compat_state baseline candidate
  && same rb_fulfillment_decision_path baseline candidate
  && same rb_decision_basis_version baseline candidate
  && same rb_compat_fallback_applied baseline candidate
  && same rb_classification_source baseline candidate
  && same rb_replay_diff_reason baseline candidate
  && same rb_legacy_shape_detected baseline candidate
  && same rb_decision_consumer_contract_version baseline candidate
  && same rb_consumer_read_path baseline candidate
  && same rb_consumer_fallback_applied baseline candidate
  && same rb_consumer_payload_state baseline candidate
  && same rb_required_consumer_fields baseline candidate
  && same rb_policy_deny baseline candidate
  && same rb_fail_closed_deny baseline candidate
  && same rb_enforcement_deny baseline candidate
  && same rb_deny_precedence_version baseline candidate
  && same rb_deny_classification_source baseline candidate
  && same rb_deny_legacy_fallback_applied baseline candidate
  && same rb_deny_convergence_reason baseline candidate
  && same rb_reason_code baseline candidate
  && same rb_typed_decision baseline candidate
  && same rb_decision baseline candidate
  && same rb_fail_closed_applied baseline candidate.

(** The derived [PartialEq] compares every field. *)
Definition basis_eqb (baseline candidate : ReplayDiffBasis) : bool :=
  same_effective_decision_class baseline candidate
  && same rb_policy_version baseline candidate
  && same rb_policy_digest baseline candidate.

Definition restrictiveness_rank (basis : ReplayDiffBasis) : Z :=
  match rb_decision_outcome_kind basis with
  | Some (KPolicyDeny | KFailClosedDeny | KEnforcementDeny) => 2
  | Some (KObligationApplied | KObligationSkipped | KObligationError) => 1
  | None =>
      match rb_fulfillment_decision_path basis with
      | Some (FPolicyDeny | FFailClosedDeny | FDecisionError) => 2
      | Some FPolicyAllow => 1
      | None => match rb_decision basis with DDeny | DError => 2 | DAllow => 1 end
      end
  end.

Definition classify_replay_diff (baseline candidate : ReplayDiffBasis) : ReplayDiffBucket :=
  if basis_eqb baseline candidate then Unchanged
  else if same_effective_decision_class baseline candidate then EvidenceOnly
  else if (restrictiveness_rank baseline <? restrictiveness_rank candidate)%Z then Stricter
  else if (restrictiveness_rank candidate <? restrictiveness_rank baseline)%Z then Looser
  else Reclassified.

(** ** Lemmas *)

Lemma same_true {A} `{EqDecision A} {R} (f : R -> A) a b : same f a b = true <-> f a = f b.
Proof. unfold same. by rewrite bool_decide_eq_true. Qed.

Lemma same_sym {A} `{EqDecision A} {R} (f : R -> A) a b : same f a b = same f b a.
Proof. unfold same. apply bool_decide_ext. split; congruence. Qed.

Lemma same_class_sym a b :
  same_effective_decision_class a b = same_effective_decision_class b a.
Proof. unfold same_effective_decision_class. repeat (f_equal; [|apply same_sym]). apply same_sym. Qed.

Lemma basis_eqb_sym a b : basis_eqb a b = basis_eqb b a.
Proof.
  unfold basis_eqb. rewrite same_class_sym, (same_sym rb_policy_version), (same_sym rb_policy_digest).
  done.
Qed.

(** Two bases of one class agree on everything but the policy's version and digest. *)
Definition with_policy_of (a b : ReplayDiffBasis) : ReplayDiffBasis :=
  {| rb_decision_outcome_kind := rb_decision_outcome_kind b;
     rb_decision_origin := rb_decision_origin b;
     rb_outcome_compat_state := rb_outcome_compat_state b;
     rb_fulfillment_decision_path := rb_fulfillment_decision_path b;
     rb_decision_basis_version := rb_decision_basis_version b;
     rb_compat_fallback_applied := rb_compat_fallback_applied b;
     rb_classification_source := rb_classification_source b;
     rb_replay_diff_reason := rb_replay_diff_reason b;
     rb_legacy_shape_detected := rb_legacy_shape_detected b;
     rb_decision_consumer_contract_version := rb_decision_consumer_contract_version b;
     rb_consumer_read_path := rb_consumer_read_path b;
     rb_consumer_fallback_applied := rb_consumer_fallback_applied b;
     rb_consumer_payload_state := rb_consumer_payload_state b;
     rb_required_consumer_fields := rb_required_consumer_fields b;
     rb_policy_deny := rb_policy_deny b;
     rb_fail_closed_deny := rb_fail_closed_deny b;
     rb_enforcement_deny := rb_enforcement_deny b;
     rb_deny_precedence_version := rb_deny_precedence_version b;
     rb_deny_classification_source := rb_deny_classification_source b;
     rb_deny_legacy_fallback_applied := rb_deny_legacy_fallback_applied b;
     rb_deny_convergence_reason := rb_deny_convergence_reason b;
     rb_reason_code := rb_reason_code b;
     rb_typed_decision := rb_typed_decision b;
     rb_policy_version := rb_policy_version a;
     rb_policy_digest := rb_policy_digest a;
     rb_decision := rb_decision b;
     rb_fail_closed_applied := rb_fail_closed_applied b |}.

Lemma same_class_true a b :
  same_effective_decision_class a b = true <-> a = with_policy_of a b.
Proof.
  unfold same_effective_decision_class. rewrite !andb_true_iff, !same_true. split.
  - intros Hs. destruct_and! Hs. destruct a; unfold with_policy_of; cbn in *. by f_equal.
  - intros Hs. split_and!; by rewrite Hs.
Qed.

Lemma basis_eqb_true a b : basis_eqb a b = true <-> a = b.
Proof.
  unfold basis_eqb. rewrite !andb_true_iff, !same_true, same_class_true. split.
  - intros [[Hs Hv] Hd]. rewrite Hs. unfold with_policy_of. rewrite Hv, Hd. by destruct b.
  - intros ->. by destruct b.
Qed.

(** The bucket of the reversed comparison. *)
Definition reverse_bucket (b : ReplayDiffBucket) : ReplayDiffBucket :=
  match b with Stricter => Looser | Looser => Stricter | b => b end.

Lemma outcome_rank dec code fc applied skipped error :
  match oc_kind (classify_decision_outcome dec code fc applied skipped error) with
  | KPolicyDeny | KFailClosedDeny | KEnforcementDeny => 2
  | KObligationApplied | KObligationSkipped | KObligationError => 1
  end%Z = (if bool_decide (dec = DAllow) then 1 else 2)%Z.
Proof.
  unfold classify_decision_outcome.
  destruct dec, fc, (is_enforcement_deny_reason code), applied, error; reflexivity.
Qed.

(** The rank of a payload the builder finalised. *)
Lemma finalized_rank dec code reason d :
  restrictiveness_rank (basis_from_decision_data (finalize_data dec code reason d)) =
  (if bool_decide (dec = DAllow) then 1 else 2)%Z.
Proof.
  pose proof (finalize_classification dec code reason d) as Hc. rewrite finalize_core in Hc.
  set (k := set_field co_reason _ _) in Hc.
  assert (Hk : dd_decision_outcome_kind (finalize_data dec code reason d) =
               Some (oc_kind (core_outcome k))).
  { exact (f_equal (fun c => fst (fst (fst c))) Hc). }
  unfold restrictiveness_rank. cbn [basis_from_decision_data rb_decision_outcome_kind].
  rewrite Hk. apply (outcome_rank dec code).
Qed.

Lemma bucket_direction a b dec dec' :
  restrictiveness_rank a = (if bool_decide (dec = DAllow) then 1 else 2)%Z ->
  restrictiveness_rank b = (if bool_decide (dec' = DAllow) then 1 else 2)%Z ->
  (classify_replay_diff a b = Stricter <-> dec = DAllow /\ dec' <> DAllow) /\
  (classify_replay_diff a b = Looser <-> dec <> DAllow /\ dec' = DAllow).
Proof.
  intros Ha Hb. unfold classify_replay_diff. pose proof (same_class_true a b) as Hc.
  pose proof (basis_eqb_true a b) as He.
  assert (Hr : basis_eqb a b = true \/ same_effective_decision_class a b = true ->
    bool_decide (dec = DAllow) = bool_decide (dec' = DAllow)).
  { intros Hs. assert (restrictiveness_rank a = restrictiveness_rank b).
    { destruct Hs as [Hs|Hs]; [apply He in Hs as ->; done|].
      apply Hc in Hs. rewrite Hs. done. }
    rewrite Ha, Hb in *. destruct (bool_decide (dec = _)), (bool_decide (dec' = _)); done. }
  rewrite Ha, Hb. destruct (basis_eqb a b); [specialize (Hr (or_introl eq_refl))|
    destruct (same_effective_decision_class a b); [specialize (Hr (or_intror eq_refl))|clear Hr]];
    destruct (bool_decide_reflect (dec = DAllow)), (bool_decide_reflect (dec' = DAllow));
    try discriminate Hr; cbn; naive_solver.
Qed.

(** ** Properties *)

(** The replay-diff buckets mean what they say: two bases are [Unchanged]
    exactly when they are equal, [EvidenceOnly] exactly when they differ in the
    policy's version or digest and nothing else, and reversing the comparison
    swaps [Stricter] with [Looser] and keeps every other bucket. *)
Theorem replay_diff_buckets a b :
  (classify_replay_diff a b = Unchanged <-> a = b) /\
  (classify_replay_diff a b = EvidenceOnly <-> a <> b /\ a = with_policy_of a b) /\
  classify_replay_diff b a = reverse_bucket (classify_replay_diff a b).
Proof.
  unfold classify_replay_diff. rewrite (basis_eqb_sym b a), (same_class_sym b a).
  pose proof (basis_eqb_true a b) as He. pose proof (same_class_true a b) as Hc.
  destruct (basis_eqb a b); [naive_solver|].
  destruct (same_effective_decision_class a b); [naive_solver|].
  destruct (Z.ltb_spec (restrictiveness_rank a) (restrictiveness_rank b)),
    (Z.ltb_spec (restrictiveness_rank b) (restrictiveness_rank a)); try lia; naive_solver.
Qed.

(** A replay that turns an allowed call into a denied or failed one is always
    reported [Stricter], the opposite always [Looser], and two decisions on the
    same side are never either, for any two finalised payloads whatever their
    evidence fields. *)
Theorem replay_diff_direction dec dec' code code' reason reason' d d' :
  let bucket := classify_replay_diff
    (basis_from_decision_data (finalize_data dec code reason d))
    (basis_from_decision_data (finalize_data dec' code' reason' d')) in
  (bucket = Stricter <-> dec = DAllow /\ dec' <> DAllow) /\
  (bucket = Looser <-> dec <> DAllow /\ dec' = DAllow).
Proof. cbv zeta. apply bucket_direction; apply finalized_rank. Qed.

End ReplayDiff.
