(* ===== verification/HandlerChecks.v ===== *)
(** * The checks of the tool-call handler

    [crates/assay-core/src/mcp/tool_call_handler/emit.rs] and [evaluate_next/]
    (match metadata, tool classification, and runtime enforcement of the
    approval, scope and redaction obligations), with [obligations.rs],
    [lifecycle.rs] and [g3_auth_context.rs].  A function that takes
    [&mut ToolMatchMetadata] returns the metadata it leaves. *)
From stdpp Require Import base tactics list strings gmap.
From Stdlib Require Import Ascii ZArith Lia.
From S2P Require Import Prelude RustStr Json Platform PolicyTypes.
From S2P Require Import PolicyEngine MandateStore Authorizer Convergence Decision.

(** ** tool_call_handler/emit.rs *)

Record ToolMatchMetadata : Type := mkToolMatchMetadata {
  tm_tool_classes : list string;
  tm_matched_tool_classes : list string;
  tm_match_basis : option string;
  tm_matched_rule : option string;
  tm_typed_decision : option TypedPolicyDecision;
  tm_policy_version : option string;
  tm_policy_digest : option string;
  tm_obligations : list PolicyObligation;
  tm_obligation_outcomes : list ObligationOutcome;
  tm_approval_state : option string;
  tm_approval_artifact : option ApprovalArtifact;
  tm_approval_freshness : option ApprovalFreshness;
  tm_approval_failure_reason : option string;
  tm_scope_contract : option RestrictScopeContract;
  tm_scope_evaluation_state : option string;
  tm_scope_failure_reason : option string;
  tm_restrict_scope_present : option bool;
  tm_restrict_scope_target : option string;
  tm_restrict_scope_match : option bool;
  tm_restrict_scope_reason : option string;
  tm_redaction_contract : option RedactArgsContract;
  tm_redaction_applied_state : option string;
  tm_redaction_reason : option string;
  tm_redaction_failure_reason : option string;
  tm_redact_args_present : option bool;
  tm_redact_args_target : option string;
  tm_redact_args_mode : option string;
  tm_redact_args_result : option string;
  tm_redact_args_reason : option string;
  tm_fail_closed : option FailClosedContext;
  tm_lane : option string;
  tm_principal : option string;
  tm_auth_context_summary : option string;
  tm_auth_scheme : option string;
  tm_auth_issuer : option string;
  tm_delegated_from : option string;
  tm_delegation_depth : option Z;
  tm_tool_definition_binding : option ToolDefinitionBinding
}.
#[global] Instance ToolMatchMetadata_eta : Eta ToolMatchMetadata := fun r =>
  mkToolMatchMetadata (tm_tool_classes r) (tm_matched_tool_classes r) (tm_match_basis r)
    (tm_matched_rule r) (tm_typed_decision r) (tm_policy_version r)
    (tm_policy_digest r) (tm_obligations r) (tm_obligation_outcomes r)
    (tm_approval_state r) (tm_approval_artifact r) (tm_approval_freshness r)
    (tm_approval_failure_reason r) (tm_scope_contract r)
    (tm_scope_evaluation_state r) (tm_scope_failure_reason r)
    (tm_restrict_scope_present r) (tm_restrict_scope_target r)
    (tm_restrict_scope_match r) (tm_restrict_scope_reason r)
    (tm_redaction_contract r) (tm_redaction_applied_state r)
    (tm_redaction_reason r) (tm_redaction_failure_reason r)
    (tm_redact_args_present r) (tm_redact_args_target r) (tm_redact_args_mode r)
    (tm_redact_args_result r) (tm_redact_args_reason r) (tm_fail_closed r)
    (tm_lane r) (tm_principal r) (tm_auth_context_summary r) (tm_auth_scheme r)
    (tm_auth_issuer r) (tm_delegated_from r) (tm_delegation_depth r)
    (tm_tool_definition_binding r).

Definition from_policy_metadata (m : PolicyMatchMetadata) : ToolMatchMetadata :=
  {| tm_tool_classes := pm_tool_classes m;
     tm_matched_tool_classes := pm_matched_tool_classes m;
     tm_match_basis := match_basis_as_str (pm_match_basis m);
     tm_matched_rule := pm_matched_rule m;
     tm_typed_decision := pm_typed_decision m;
     tm_policy_version := pm_policy_version m;
     tm_policy_digest := pm_policy_digest m;
     tm_obligations := pm_obligations m;
     tm_obligation_outcomes := [];
     tm_approval_state := pm_approval_state m;
     tm_approval_artifact := pm_approval_artifact m;
     tm_approval_freshness := pm_approval_freshness m;
     tm_approval_failure_reason := pm_approval_failure_reason m;
     tm_scope_contract := 
       match pm_scope_type m, pm_scope_value m, pm_scope_match_mode m with
       | Some scope_type, Some scope_value, Some scope_match_mode =>
           Some {| rs_scope_type := scope_type; rs_scope_value := scope_value;
                   rs_scope_match_mode := scope_match_mode |}
       | _, _, _ => None
       end;
     tm_scope_evaluation_state := pm_scope_evaluation_state m;
     tm_scope_failure_reason := pm_scope_failure_reason m;
     tm_restrict_scope_present := pm_restrict_scope_present m;
     tm_restrict_scope_target := pm_restrict_scope_target m;
     tm_restrict_scope_match := pm_restrict_scope_match m;
     tm_restrict_scope_reason := pm_restrict_scope_reason m;
     tm_redaction_contract := 
       match pm_redaction_target m, pm_redaction_mode m, pm_redaction_scope m with
       | Some redaction_target, Some redaction_mode, Some redaction_scope =>
           Some {| ra_redaction_target := redaction_target; ra_redaction_mode := redaction_mode;
                   ra_redaction_scope := redaction_scope |}
       | _, _, _ => None
       end;
     tm_redaction_applied_state := pm_redaction_applied_state m;
     tm_redaction_reason := pm_redaction_reason m;
     tm_redaction_failure_reason := pm_redaction_failure_reason m;
     tm_redact_args_present := pm_redact_args_present m;
     tm_redact_args_target := pm_redact_args_target m;
     tm_redact_args_mode := pm_redact_args_mode m;
     tm_redact_args_result := pm_redact_args_result m;
     tm_redact_args_reason := pm_redact_args_reason m;
     tm_fail_closed := pm_fail_closed m;
     tm_lane := pm_lane m;
     tm_principal := pm_principal m;
     tm_auth_context_summary := pm_auth_context_summary m;
     tm_auth_scheme := pm_auth_scheme m;
     tm_auth_issuer := pm_auth_issuer m;
     tm_delegated_from := pm_delegated_from m;
     tm_delegation_depth := pm_delegation_depth m;
     tm_tool_definition_binding := None |}.

Definition policy_context (t : ToolMatchMetadata) : PolicyDecisionEventContext :=
  {| pc_typed_decision := tm_typed_decision t;
     pc_policy_version := tm_policy_version t;
     pc_policy_digest := tm_policy_digest t;
     pc_obligations := tm_obligations t;
     pc_obligation_outcomes := tm_obligation_outcomes t;
     pc_approval_state := tm_approval_state t;
     pc_approval_artifact := tm_approval_artifact t;
     pc_approval_freshness := tm_approval_freshness t;
     pc_approval_failure_reason := tm_approval_failure_reason t;
     pc_scope_contract := tm_scope_contract t;
     pc_scope_evaluation_state := tm_scope_evaluation_state t;
     pc_scope_failure_reason := tm_scope_failure_reason t;
     pc_restrict_scope_present := tm_restrict_scope_present t;
     pc_restrict_scope_target := tm_restrict_scope_target t;
     pc_restrict_scope_match := tm_restrict_scope_match t;
     pc_restrict_scope_reason := tm_restrict_scope_reason t;
     pc_redaction_contract := tm_redaction_contract t;
     pc_redaction_applied_state := tm_redaction_applied_state t;
     pc_redaction_reason := tm_redaction_reason t;
     pc_redaction_failure_reason := tm_redaction_failure_reason t;
     pc_redact_args_present := tm_redact_args_present t;
     pc_redact_args_target := tm_redact_args_target t;
     pc_redact_args_mode := tm_redact_args_mode t;
     pc_redact_args_result := tm_redact_args_result t;
     pc_redact_args_reason := tm_redact_args_reason t;
     pc_fail_closed := tm_fail_closed t;
     pc_lane := tm_lane t;
     pc_principal := tm_principal t;
     pc_auth_context_summary := tm_auth_context_summary t;
     pc_auth_scheme := tm_auth_scheme t;
     pc_auth_issuer := tm_auth_issuer t;
     pc_delegated_from := tm_delegated_from t;
     pc_delegation_depth := tm_delegation_depth t;
     pc_tool_definition_binding := tm_tool_definition_binding t |}.

(** ** obligations.rs *)

Definition executor_outcome (ty : string) (status : ObligationOutcomeStatus)
    (reason reason_code : option string) : ObligationOutcome :=
  {| oo_obligation_type := ty; oo_status := status; oo_reason := reason;
     oo_reason_code := reason_code; oo_enforcement_stage := Some "executor";
     oo_normalization_version := Some "v1" |}.

Definition execute_obligation (obligation : PolicyObligation) : ObligationOutcome :=
  let ty := ob_obligation_type obligation in
  if String.eqb ty "log" then executor_outcome "log" OApplied None None
  else if String.eqb ty "alert" then executor_outcome "alert" OApplied None None
  else if String.eqb ty "legacy_warning" then
    executor_outcome "log" OApplied (Some "mapped from legacy_warning")
      (Some "legacy_warning_mapped")
  else if String.eqb ty "approval_required" then
    executor_outcome "approval_required" OSkipped (Some "validated in handler")
      (Some "validated_in_handler")
  else if String.eqb ty "restrict_scope" then
    executor_outcome "restrict_scope" OSkipped
      (Some "contract-only in wave29 (no runtime enforcement)") (Some "contract_only")
  else if String.eqb ty "redact_args" then
    executor_outcome "redact_args" OSkipped
      (Some "contract-only in wave31 (no runtime redaction execution)") (Some "contract_only")
  else
    executor_outcome ty OSkipped (Some "unsupported obligation type in wave25")
      (Some "unsupported_obligation_type").

Definition execute_log_only (obligations : list PolicyObligation) : list ObligationOutcome :=
  map execute_obligation obligations.

(** ** lifecycle.rs *)

Record LifecycleEvent : Type := mkLifecycleEvent {
  le_specversion : string;
  le_id : string;
  le_event_type : string;
  le_source : string;
  le_time : string;
  le_datacontenttype : string;
  le_data : Value
}.

(** ** tool_call_handler/types.rs *)

Record AuthContextProjection : Type := mkAuthContextProjection {
  ap_auth_scheme : option string;
  ap_auth_issuer : option string;
  ap_principal : option string
}.

Record ToolCallHandlerConfig : Type := mkToolCallHandlerConfig {
  hc_event_source : string;
  hc_require_mandate_for_commit : bool;
  hc_commit_tools : list string;
  hc_write_tools : list string;
  hc_auth_context_projection : option AuthContextProjection
}.

Inductive HandleResult : Type :=
| HAllow (receipt : option AuthzReceipt) (effective_arguments : option Value)
    (decision_event : DecisionEvent)
| HDeny (reason_code reason : string) (decision_event : DecisionEvent)
| HError (reason_code reason : string) (decision_event : DecisionEvent).

Section Checks.
Context `{Platform}.

Definition mandate_used_event (source : string) (receipt : AuthzReceipt) : LifecycleEvent :=
  {| le_specversion := "1.0";
     le_id := ar_use_id receipt;
     le_event_type := "assay.mandate.used.v1";
     le_source := source;
     le_time := to_rfc3339 (ar_consumed_at receipt);
     le_datacontenttype := "application/json";
     le_data := Obj [("mandate_id", Str (ar_mandate_id receipt));
                     ("use_id", Str (ar_use_id receipt));
                     ("tool_call_id", Str (ar_tool_call_id receipt));
                     ("consumed_at", Str (to_rfc3339 (ar_consumed_at receipt)));
                     ("use_count", Num (PosInt (ar_use_count receipt)))] |}.

Definition opt_str_value (s : option string) : Value :=
  match s with Some s => Str s | None => Null end.

Definition mandate_revoked_event (source mandate_id : string) (revoked_at : Z)
    (reason revoked_by event_id : option string) : LifecycleEvent :=
  {| le_specversion := "1.0";
     le_id := default ("revoke:" +:+ mandate_id) event_id;
     le_event_type := "assay.mandate.revoked.v1";
     le_source := source;
     le_time := to_rfc3339 revoked_at;
     le_datacontenttype := "application/json";
     le_data := Obj [("mandate_id", Str mandate_id);
                     ("revoked_at", Str (to_rfc3339 revoked_at));
                     ("reason", opt_str_value reason);
                     ("revoked_by", opt_str_value revoked_by)] |}.

(** ** g3_auth_context.rs *)

Definition MAX_AUTH_ISSUER_BYTES : Z := 2048.

Definition is_b64url (part : string) : bool :=
  str_forall (fun c => is_ascii_alphanumeric c || Ascii.eqb c "-" || Ascii.eqb c "_") part.

Definition looks_like_jws_compact (s : string) : bool :=
  match str_split "." s with
  | [h; p; sig] =>
      if (str_len h <? 4)%Z || (str_len p <? 4)%Z || (str_len sig <? 4)%Z then false
      else if negb (starts_with h "eyJ") then false
      else is_b64url h && is_b64url p && is_b64url sig
  | _ => false
  end.

Definition has_bearer_credential_prefix (s : string) : bool :=
  let b := str_trim s in
  (7 <=? str_len b)%Z && String.eqb (to_ascii_lowercase (str_take 7 b)) "bearer ".

Definition normalize_auth_scheme (input : option string) : option string :=
  s ← str_trim <$> input;
  if str_is_empty s then None
  else
    let lower := to_ascii_lowercase s in
    if String.eqb lower "oauth2" || String.eqb lower "jwt_bearer" then Some lower else None.

Definition normalize_auth_issuer (input : option string) : option string :=
  s ← str_trim <$> input;
  if str_is_empty s then None
  else if has_bearer_credential_prefix s || looks_like_jws_compact s then None
  else if (MAX_AUTH_ISSUER_BYTES <? str_len s)%Z then None
  else Some s.

Definition normalize_principal (input : option string) : option string :=
  s ← str_trim <$> input;
  if str_is_empty s then None
  else if has_bearer_credential_prefix s || looks_like_jws_compact s then None
  else Some s.

Definition merge_into_metadata (self : AuthContextProjection) (m : PolicyMatchMetadata)
    : PolicyMatchMetadata :=
  let m := match normalize_auth_scheme (ap_auth_scheme self) with
           | Some s => m <| pm_auth_scheme := Some s |>
           | None => m
           end in
  let m := match normalize_auth_issuer (ap_auth_issuer self) with
           | Some i => m <| pm_auth_issuer := Some i |>
           | None => m
           end in
  match normalize_principal (ap_principal self) with
  | Some p => m <| pm_principal := Some p |>
  | None => m
  end.

(** ** evaluate_next/fail_closed.rs *)

Definition seed_fail_closed_context (op : OperationClass) (t : ToolMatchMetadata)
    : ToolMatchMetadata :=
  let tool_risk_class := match op with OpRead => LowRiskRead | OpWrite | OpCommit => HighRisk end in
  let fail_closed_mode := match tool_risk_class with
                          | LowRiskRead => DegradeReadOnly
                          | HighRisk | DefaultRisk => FailClosed
                          end in
  t <| tm_fail_closed := Some {| fc_tool_risk_class := tool_risk_class;
                                 fc_fail_closed_mode := fail_closed_mode;
                                 fc_fail_closed_trigger := None;
                                 fc_fail_closed_applied := false;
                                 fc_fail_closed_error_code := None |} |>.

Definition runtime_dependency_error_code (t : ToolMatchMetadata) : string :=
  match default FailClosed (fc_fail_closed_mode <$> tm_fail_closed t) with
  | DegradeReadOnly => "degrade_read_only_runtime_dependency_error"
  | FailClosed | FailSafeAllow => "fail_closed_runtime_dependency_error"
  end.

Definition mark_fail_closed (trigger : FailClosedTrigger) (error_code : string)
    (t : ToolMatchMetadata) : ToolMatchMetadata :=
  match tm_fail_closed t with
  | Some ctx =>
      t <| tm_fail_closed := Some (ctx <| fc_fail_closed_trigger := Some trigger |>
                                       <| fc_fail_closed_applied := true |>
                                       <| fc_fail_closed_error_code := Some error_code |>) |>
  | None => t
  end.

(** ** Obligation outcomes in the handler

    [mark_approval_outcome], [mark_restrict_scope_outcome] and
    [mark_redact_args_outcome] are one function of the obligation type: update
    the first outcome of that type, or append one. *)
Fixpoint mark_outcome_in (ty : string) (status : ObligationOutcomeStatus)
    (reason reason_code : option string) (l : list ObligationOutcome) : list ObligationOutcome :=
  match l with
  | [] => [{| oo_obligation_type := ty; oo_status := status; oo_reason := reason;
              oo_reason_code := reason_code; oo_enforcement_stage := Some "handler";
              oo_normalization_version := Some "v1" |}]
  | o :: r =>
      if String.eqb (oo_obligation_type o) ty
      then {| oo_obligation_type := oo_obligation_type o; oo_status := status;
              oo_reason := reason; oo_reason_code := reason_code;
              oo_enforcement_stage := Some "handler";
              oo_normalization_version := Some "v1" |} :: r
      else o :: mark_outcome_in ty status reason reason_code r
  end.

Definition mark_outcome (ty : string) (status : ObligationOutcomeStatus)
    (reason reason_code : option string) (t : ToolMatchMetadata) : ToolMatchMetadata :=
  t <| tm_obligation_outcomes :=
         mark_outcome_in ty status reason reason_code (tm_obligation_outcomes t) |>.

Definition requires (ty : string) (t : ToolMatchMetadata) : bool :=
  existsb (fun o => String.eqb (ob_obligation_type o) ty) (tm_obligations t).

(** ** evaluate_next/approval.rs *)

Inductive ApprovalFailure : Type :=
| MissingApproval | ExpiredApproval | BoundToolMismatch | BoundResourceMismatch.

Definition approval_failure_code (f : ApprovalFailure) : string :=
  match f with
  | MissingApproval => "approval_missing"
  | ExpiredApproval => "approval_expired"
  | BoundToolMismatch => "approval_bound_tool_mismatch"
  | BoundResourceMismatch => "approval_bound_resource_mismatch"
  end.

Definition approval_failure_reason (f : ApprovalFailure) : string :=
  match f with
  | MissingApproval => "missing approval"
  | ExpiredApproval => "expired approval"
  | BoundToolMismatch => "bound tool mismatch"
  | BoundResourceMismatch => "bound resource mismatch"
  end.

Definition mark_approval_failure (failure : ApprovalFailure) (t : ToolMatchMetadata)
    : option ApprovalFailure * ToolMatchMetadata :=
  let t := t <| tm_approval_state := Some "denied" |>
             <| tm_approval_failure_reason := Some (approval_failure_reason failure) |> in
  (Some failure,
   mark_outcome "approval_required" OError (Some (approval_failure_reason failure))
     (Some (approval_failure_code failure)) t).

Definition parse_approval_artifact (args : Value) : option ApprovalArtifact :=
  meta ← vget args "_meta";
  approval ← vget meta "approval";
  approval_id ← vget approval "approval_id" ≫= as_str;
  approver ← vget approval "approver" ≫= as_str;
  issued_at ← vget approval "issued_at" ≫= as_str;
  expires_at ← vget approval "expires_at" ≫= as_str;
  scope ← vget approval "scope" ≫= as_str;
  bound_tool ← vget approval "bound_tool" ≫= as_str;
  bound_resource ← vget approval "bound_resource" ≫= as_str;
  Some {| aa_approval_id := approval_id; aa_approver := approver; aa_issued_at := issued_at;
          aa_expires_at := expires_at; aa_scope := scope; aa_bound_tool := bound_tool;
          aa_bound_resource := bound_resource |}.

(** The clock is read only when both dates parse. *)
Definition classify_approval_freshness {W} (utc_now : M W Z) (artifact : ApprovalArtifact)
    : M W ApprovalFreshness :=
  match parse_rfc3339 (aa_issued_at artifact), parse_rfc3339 (aa_expires_at artifact) with
  | Some issued_at, Some expires_at =>
      now ← utc_now;
      mret (if (expires_at <? now)%Z then AFExpired
            else if (now <? issued_at)%Z then AFStale
            else AFFresh)
  | _, _ => mret AFExpired
  end.

Definition validate_approval_required {W} (utc_now : M W Z) (tool_name : string) (args : Value)
    (t : ToolMatchMetadata) : M W (option ApprovalFailure * ToolMatchMetadata) :=
  if negb (requires "approval_required" t) then mret (None, t)
  else
    match parse_approval_artifact args with
    | None => mret (mark_approval_failure MissingApproval t)
    | Some artifact =>
        let t := t <| tm_approval_artifact := Some artifact |> in
        freshness ← classify_approval_freshness utc_now artifact;
        let t := t <| tm_approval_freshness := Some freshness |> in
        match freshness with
        | AFFresh =>
            if negb (String.eqb (aa_bound_tool artifact) tool_name)
            then mret (mark_approval_failure BoundToolMismatch t)
            else if negb (bool_decide (requested_resource args = Some (aa_bound_resource artifact)))
            then mret (mark_approval_failure BoundResourceMismatch t)
            else
              let t := t <| tm_approval_state := Some "approved" |>
                         <| tm_approval_failure_reason := None |> in
              mret (None, mark_outcome "approval_required" OApplied None
                            (Some "validated_in_handler") t)
        | _ => mret (mark_approval_failure ExpiredApproval t)
        end
    end.

(** ** evaluate_next/scope.rs *)

Inductive RestrictScopeFailure : Type :=
| ScopeTargetMissing | ScopeTargetMismatch | ScopeMatchModeUnsupported | ScopeTypeUnsupported.

Definition scope_failure_code (f : RestrictScopeFailure) : string :=
  match f with
  | ScopeTargetMissing => "scope_target_missing"
  | ScopeTargetMismatch => "scope_target_mismatch"
  | ScopeMatchModeUnsupported => "scope_match_mode_unsupported"
  | ScopeTypeUnsupported => "scope_type_unsupported"
  end.

Definition scope_failure_from_code (code : option string) : RestrictScopeFailure :=
  match code with
  | Some c =>
      if String.eqb c "scope_target_missing" then ScopeTargetMissing
      else if String.eqb c "scope_match_mode_unsupported" then ScopeMatchModeUnsupported
      else if String.eqb c "scope_type_unsupported" then ScopeTypeUnsupported
      else ScopeTargetMismatch
  | None => ScopeTargetMismatch
  end.

Definition scope_failure_reason (f : RestrictScopeFailure) : string :=
  match f with
  | ScopeTargetMissing => "scope target missing"
  | ScopeTargetMismatch => "scope target mismatch"
  | ScopeMatchModeUnsupported => "scope match mode unsupported"
  | ScopeTypeUnsupported => "scope type unsupported"
  end.

Definition mark_restrict_scope_failure (failure : RestrictScopeFailure) (t : ToolMatchMetadata)
    : option RestrictScopeFailure * ToolMatchMetadata :=
  let failure_code := scope_failure_code failure in
  let t := t <| tm_restrict_scope_match := Some false |>
             <| tm_scope_failure_reason := Some failure_code |>
             <| tm_restrict_scope_reason := Some failure_code |>
             <| tm_scope_evaluation_state :=
                  option_or (tm_scope_evaluation_state t) (Some "not_evaluated") |> in
  (Some failure,
   mark_outcome "restrict_scope" OError (Some failure_code) (Some failure_code) t).

Definition validate_restrict_scope (t : ToolMatchMetadata)
    : option RestrictScopeFailure * ToolMatchMetadata :=
  if negb (requires "restrict_scope" t) then (None, t)
  else if bool_decide (tm_scope_evaluation_state t = Some "matched") then
    let t := t <| tm_restrict_scope_match := Some true |>
               <| tm_scope_failure_reason := None |>
               <| tm_restrict_scope_reason := None |> in
    (None, mark_outcome "restrict_scope" OApplied None None t)
  else
    mark_restrict_scope_failure
      (scope_failure_from_code
         (option_or (tm_scope_failure_reason t) (tm_restrict_scope_reason t))) t.

(** ** evaluate_next/redaction.rs *)

Inductive RedactArgsFailure : Type :=
| RedactTargetMissing | RedactModeUnsupported | RedactScopeUnsupported | RedactApplyFailed.

Definition redact_failure_code (f : RedactArgsFailure) : string :=
  match f with
  | RedactTargetMissing => "redaction_target_missing"
  | RedactModeUnsupported => "redaction_mode_unsupported"
  | RedactScopeUnsupported => "redaction_scope_unsupported"
  | RedactApplyFailed => "redaction_apply_failed"
  end.

Definition redact_failure_reason (f : RedactArgsFailure) : string :=
  match f with
  | RedactTargetMissing => "redaction target missing"
  | RedactModeUnsupported => "redaction mode unsupported"
  | RedactScopeUnsupported => "redaction scope unsupported"
  | RedactApplyFailed => "redaction apply failed"
  end.

(** Drop a key of an object. *)
Definition drop_key (args : Value) (key : string) : Result Value RedactArgsFailure :=
  match args with
  | Obj m =>
      match map_remove m key with
      | Some (_, m') => Ok (Obj m')
      | None => Err RedactTargetMissing
      end
  | _ => Err RedactApplyFailed
  end.

Definition apply_drop_redaction (args : Value) (target : string)
    : Result Value RedactArgsFailure :=
  if one_of target ["path"; "query"; "headers"; "body"] then drop_key args target
  else if String.eqb target "metadata" then drop_key args "_meta"
  else if String.eqb target "args" then Ok (Obj [])
  else Err RedactTargetMissing.

Definition partial_mask (input : string) : string :=
  if str_is_empty input then "***" else str_concat (take 2 (chars input)) +:+ "***".

Definition apply_value_redaction (target_value : Value) (mode : string)
    : Result Value RedactArgsFailure :=
  if String.eqb mode "mask" then Ok (Str "[REDACTED]")
  else if String.eqb mode "hash" then
    Ok (Str ("md5:" +:+ md5_hex (json_to_string target_value)))
  else if String.eqb mode "partial" then
    match as_str target_value with
    | Some input => Ok (Str (partial_mask input))
    | None => Err RedactApplyFailed
    end
  else Err RedactModeUnsupported.

(** Replace the value a [get_mut] reaches. *)
Definition update_key (args : Value) (key : string) (f : Value -> Result Value RedactArgsFailure)
    : Result Value RedactArgsFailure :=
  match args with
  | Obj m =>
      match map_get m key with
      | Some v =>
          match f v with
          | Ok v' => Ok (Obj (map_insert m key v'))
          | Err e => Err e
          end
      | None => Err RedactTargetMissing
      end
  | _ => Err RedactTargetMissing
  end.

Definition redaction_target_key (target : string) : option string :=
  if one_of target ["path"; "query"; "headers"; "body"] then Some target
  else if String.eqb target "metadata" then Some "_meta"
  else None.

Definition apply_redact_args_runtime (args : Value) (contract : RedactArgsContract)
    : Result Value RedactArgsFailure :=
  let target := normalize_token (ra_redaction_target contract) in
  let mode := normalize_token (ra_redaction_mode contract) in
  let scope := normalize_token (ra_redaction_scope contract) in
  if negb (one_of scope ["request"; "args"; "metadata"]) then Err RedactScopeUnsupported
  else if String.eqb mode "drop" then apply_drop_redaction args target
  else
    match redaction_target_key target with
    | Some key => update_key args key (fun v => apply_value_redaction v mode)
    | None =>
        if String.eqb target "args" then apply_value_redaction args mode
        else Err RedactTargetMissing
    end.

Definition mark_redact_args_failure (failure : RedactArgsFailure) (t : ToolMatchMetadata)
    : option RedactArgsFailure * ToolMatchMetadata :=
  let failure_code := redact_failure_code failure in
  let t := t <| tm_redaction_failure_reason := Some failure_code |>
             <| tm_redaction_applied_state :=
                  option_or (tm_redaction_applied_state t) (Some "not_evaluated") |> in
  let t := t <| tm_redact_args_result :=
                  option_or (tm_redact_args_result t) (tm_redaction_applied_state t) |>
             <| tm_redaction_reason := Some failure_code |>
             <| tm_redact_args_reason := Some failure_code |> in
  (Some failure,
   mark_outcome "redact_args" OError (Some failure_code) (Some failure_code) t).

(** The arguments are rewritten only on success. *)
Definition validate_redact_args (args : Value) (t : ToolMatchMetadata)
    : option RedactArgsFailure * Value * ToolMatchMetadata :=
  if negb (requires "redact_args" t) then (None, args, t)
  else
    match tm_redaction_contract t with
    | None => let '(f, t) := mark_redact_args_failure RedactTargetMissing t in (f, args, t)
    | Some contract =>
        match apply_redact_args_runtime args contract with
        | Ok args' =>
            let t := t <| tm_redaction_applied_state := Some "applied" |>
                       <| tm_redact_args_result := Some "applied" |>
                       <| tm_redaction_failure_reason := None |>
                       <| tm_redaction_reason := None |>
                       <| tm_redact_args_reason := None |> in
            (None, args', mark_outcome "redact_args" OApplied None
                            (Some "validated_in_handler") t)
        | Err failure =>
            let reason_code := redact_failure_code failure in
            let applied_state := match failure with
                                 | RedactModeUnsupported | RedactScopeUnsupported =>
                                     "not_evaluated"
                                 | RedactTargetMissing | RedactApplyFailed => "not_applied"
                                 end in
            let t := t <| tm_redaction_applied_state := Some applied_state |>
                       <| tm_redact_args_result := Some applied_state |>
                       <| tm_redaction_failure_reason := Some reason_code |>
                       <| tm_redaction_reason := Some reason_code |>
                       <| tm_redact_args_reason := Some reason_code |> in
            let '(f, t) := mark_redact_args_failure failure t in (f, args, t)
        end
    end.

(** ** evaluate_next/classification.rs *)

(** The pattern language of [commit_tools] and [write_tools]. *)
Definition matches_tool_list (patterns : list string) (tool_name : string) : bool :=
  existsb (fun pattern =>
    if String.eqb pattern "*" then true
    else if ends_with pattern "*" then starts_with tool_name (trim_end_matches "*" pattern)
    else String.eqb tool_name pattern) patterns.

Definition is_commit_tool (config : ToolCallHandlerConfig) (tool_name : string) : bool :=
  matches_tool_list (hc_commit_tools config) tool_name.

Definition is_write_tool (config : ToolCallHandlerConfig) (tool_name : string) : bool :=
  matches_tool_list (hc_write_tools config) tool_name.

Definition operation_class_for_tool (config : ToolCallHandlerConfig) (tool_name : string)
    : OperationClass :=
  if is_commit_tool config tool_name then OpCommit
  else if is_write_tool config tool_name then OpWrite
  else OpRead.

(** The id a request declares: [_meta.tool_call_id], then the JSON-RPC id. *)
Definition declared_tool_call_id (request : JsonRpcRequest) : option string :=
  let from_meta :=
    params ← tool_params request;
    meta ← vget (ctp_arguments params) "_meta";
    vget meta "tool_call_id" ≫= as_str in
  let from_request :=
    id ← jr_id request;
    match as_str id with
    | Some s => Some ("req_" +:+ s)
    | None => (fun n => "req_" +:+ fmt_int n) <$> as_i64 id
    end in
  option_or from_meta from_request.

(** [Uuid::new_v4] is the caller's [new_uuid]; it runs only when no id is found. *)
Definition extract_tool_call_id {W} (new_uuid : M W string) (request : JsonRpcRequest)
    : M W string :=
  match declared_tool_call_id request with
  | Some id => mret id
  | None => u ← new_uuid; mret ("gen_" +:+ u)
  end.

Definition map_policy_code_to_reason (code : string) : string :=
  if String.eqb code "E_TOOL_DENIED" then reason_codes.P_TOOL_DENIED
  else if String.eqb code "E_TOOL_NOT_ALLOWED" then reason_codes.P_TOOL_NOT_ALLOWED
  else if String.eqb code "E_ARG_SCHEMA" then reason_codes.P_ARG_SCHEMA
  else if String.eqb code "E_RATE_LIMIT" then reason_codes.P_RATE_LIMIT
  else if String.eqb code "E_TOOL_DRIFT" then reason_codes.P_TOOL_DRIFT
  else reason_codes.P_POLICY_DENY.

(** [Display] of the errors that become [S_DB_ERROR]. *)
Definition authz_error_display (e : AuthzError) : string :=
  match e with
  | MandateNotFound mandate_id => "Mandate not found: " +:+ mandate_id
  | AlreadyUsed => "Mandate already used (single_use=true)"
  | MaxUsesExceeded max current =>
      "Max uses exceeded: " +:+ fmt_int current +:+ " > " +:+ fmt_int max
  | NonceReplay nonce => "Nonce replay detected: " +:+ nonce
  | MandateConflict mandate_id field =>
      "Mandate metadata conflict for " +:+ mandate_id +:+ ": stored " +:+ field +:+ " differs"
  | InvalidConstraints max_uses =>
      "Invalid mandate constraints: single_use=true with max_uses=" +:+ fmt_int max_uses
  | Revoked revoked_at => "Mandate revoked at " +:+ datetime_display revoked_at
  | Database message => "Database error: " +:+ message
  end.

Definition map_authz_error (error : AuthorizeError) : string * string :=
  match error with
  | APolicy (Expired _ _) => (reason_codes.M_EXPIRED, "Mandate expired")
  | APolicy (NotYetValid _ _) => (reason_codes.M_NOT_YET_VALID, "Mandate not yet valid")
  | APolicy (ToolNotInScope tool) =>
      (reason_codes.M_TOOL_NOT_IN_SCOPE, "Tool '" +:+ tool +:+ "' not in mandate scope")
  | APolicy (KindMismatch kind op_class) =>
      (reason_codes.M_KIND_MISMATCH,
       "Mandate kind '" +:+ kind +:+ "' does not allow operation class '" +:+ op_class +:+ "'")
  | APolicy (AudienceMismatch expected actual) =>
      (reason_codes.M_AUDIENCE_MISMATCH,
       "Audience mismatch: expected '" +:+ expected +:+ "', got '" +:+ actual +:+ "'")
  | APolicy (IssuerNotTrusted issuer) =>
      (reason_codes.M_ISSUER_NOT_TRUSTED, "Issuer '" +:+ issuer +:+ "' not in trusted list")
  | APolicy MissingTransactionObject =>
      (reason_codes.M_TRANSACTION_REF_MISMATCH, "Transaction object required but not provided")
  | APolicy (TransactionRefMismatch expected actual) =>
      (reason_codes.M_TRANSACTION_REF_MISMATCH,
       "Transaction ref mismatch: expected '" +:+ expected +:+ "', computed '" +:+ actual +:+ "'")
  | AStore AlreadyUsed => (reason_codes.M_ALREADY_USED, "Single-use mandate already consumed")
  | AStore (MaxUsesExceeded max current) =>
      (reason_codes.M_MAX_USES_EXCEEDED,
       "Max uses exceeded: " +:+ fmt_int current +:+ " of " +:+ fmt_int max +:+ " used")
  | AStore (NonceReplay nonce) =>
      (reason_codes.M_NONCE_REPLAY, "Nonce replay detected: " +:+ nonce)
  | AStore (MandateNotFound mandate_id) =>
      (reason_codes.M_NOT_FOUND, "Mandate not found: " +:+ mandate_id)
  | AStore (Revoked revoked_at) =>
      (reason_codes.M_REVOKED, "Mandate revoked at " +:+ datetime_display revoked_at)
  | AStore ((MandateConflict _ _ | InvalidConstraints _ | Database _) as se) =>
      (reason_codes.S_DB_ERROR, "Database error: " +:+ authz_error_display se)
  | ATransactionRef msg =>
      (reason_codes.M_TRANSACTION_REF_MISMATCH, "Transaction ref error: " +:+ msg)
  end.

(** ** Redaction *)

(** What a mode makes of a value. *)
Definition Redacted (mode : string) (v v' : Value) : Prop :=
  (mode = "mask" /\ v' = Str "[REDACTED]") \/
  (mode = "hash" /\ v' = Str ("md5:" +:+ md5_hex (json_to_string v))) \/
  (mode = "partial" /\ exists s, v = Str s /\
     v' = Str (str_concat (take 2 (chars s)) +:+ "***")).

Lemma value_redaction_ok v mode v' :
  apply_value_redaction v mode = Ok v' <-> Redacted mode v v'.
Proof.
  unfold apply_value_redaction, Redacted.
  destruct (String.eqb_spec mode "mask") as [->|]; [naive_solver|].
  destruct (String.eqb_spec mode "hash") as [->|]; [naive_solver|].
  destruct (String.eqb_spec mode "partial") as [->|]; [|naive_solver].
  assert (Hp : forall s, partial_mask s = str_concat (take 2 (chars s)) +:+ "***")
    by (by intros []).
  destruct v; cbn; try naive_solver. rewrite Hp. naive_solver.
Qed.

(** The engine reads the value the runtime rewrites. *)
Lemma redaction_target_value_key args target :
  redaction_target_value args target =
  match redaction_target_key target with
  | Some key => vget args key
  | None => if String.eqb target "args" then Some args else None
  end.
Proof.
  unfold redaction_target_value, redaction_target_key, one_of. cbn.
  destruct (String.eqb_spec target "path") as [->|]; [done|].
  destruct (String.eqb_spec target "query") as [->|]; [done|].
  destruct (String.eqb_spec target "headers") as [->|]; [done|].
  destruct (String.eqb_spec target "body") as [->|]; [done|]. cbn.
  by destruct (String.eqb target "metadata").
Qed.

Lemma drop_redaction_key args target :
  apply_drop_redaction args target =
  match redaction_target_key target with
  | Some key => drop_key args key
  | None => if String.eqb target "args" then Ok (Obj []) else Err RedactTargetMissing
  end.
Proof.
  unfold apply_drop_redaction, redaction_target_key.
  destruct (one_of target _); [done|]. by destruct (String.eqb target "metadata").
Qed.

Lemma drop_key_succeeds args key v :
  vget args key = Some v -> exists args', drop_key args key = Ok args'.
Proof.
  destruct args as [| | | | |m]; try done. cbn. intros Hg.
  destruct (map_remove m key) as [[v' m']|] eqn:E; [by eexists|].
  apply map_remove_None in E. congruence.
Qed.

Lemma update_key_succeeds args key v v' f :
  vget args key = Some v -> f v = Ok v' -> exists args', update_key args key f = Ok args'.
Proof. destruct args as [| | | | |m]; try done. cbn. intros -> ->. by eexists. Qed.

Lemma can_apply_mode mode v :
  can_apply_redaction mode v = true -> mode <> "drop" ->
  exists v', apply_value_redaction v mode = Ok v'.
Proof.
  unfold can_apply_redaction, apply_value_redaction, one_of. cbn. intros Hc Hd.
  destruct (String.eqb_spec mode "mask"); [by eexists|].
  destruct (String.eqb_spec mode "hash"); [by eexists|].
  destruct (String.eqb_spec mode "drop"); [done|]. cbn in Hc.
  destruct (String.eqb_spec mode "partial"); [|done]. destruct v; try done. by eexists.
Qed.

(** ** Credentials *)

Lemma take_seven_prefix s rest :
  to_ascii_lowercase s = "bearer " +:+ rest ->
  (7 <= str_len s)%Z /\ to_ascii_lowercase (str_take 7 s) = "bearer ".
Proof.
  intros E. do 7 (destruct s as [|? s]; [discriminate E|]; cbn in E; injection E as -> E || idtac).
  split; [unfold str_len; cbn; lia|]. cbn. congruence.
Qed.

(** A stored identity is not a bearer token, in any letter case, nor a compact JWS. *)
Definition NotCredential (s : string) : Prop :=
  s <> EmptyString /\ (forall rest, to_ascii_lowercase (str_trim s) <> "bearer " +:+ rest) /\
  looks_like_jws_compact s = false.

Lemma not_bearer s :
  has_bearer_credential_prefix s = false ->
  forall rest, to_ascii_lowercase (str_trim s) <> "bearer " +:+ rest.
Proof.
  unfold has_bearer_credential_prefix. intros Hb rest E.
  destruct (take_seven_prefix _ _ E) as [Hl Ht].
  rewrite (proj2 (Z.leb_le _ _) Hl), Ht in Hb. discriminate Hb.
Qed.

Lemma normalize_issuer_ok i s :
  normalize_auth_issuer i = Some s -> NotCredential s /\ (str_len s <= MAX_AUTH_ISSUER_BYTES)%Z.
Proof.
  unfold normalize_auth_issuer. destruct i as [i|]; [|done]. cbn.
  destruct (str_is_empty (str_trim i)) eqn:Ee; [done|].
  destruct (has_bearer_credential_prefix (str_trim i)) eqn:Eb; [done|].
  destruct (looks_like_jws_compact (str_trim i)) eqn:Ej; [done|]. cbn.
  destruct (Z.ltb_spec MAX_AUTH_ISSUER_BYTES (str_len (str_trim i))); [done|].
  intros [= <-]. split; [|done]. split; [by apply str_is_empty_false|].
  split; [by apply not_bearer|done].
Qed.

Lemma normalize_principal_ok i s : normalize_principal i = Some s -> NotCredential s.
Proof.
  unfold normalize_principal. destruct i as [i|]; [|done]. cbn.
  destruct (str_is_empty (str_trim i)) eqn:Ee; [done|].
  destruct (has_bearer_credential_prefix (str_trim i)) eqn:Eb; [done|].
  destruct (looks_like_jws_compact (str_trim i)) eqn:Ej; [done|]. cbn.
  intros [= <-]. split; [by apply str_is_empty_false|]. split; [by apply not_bearer|done].
Qed.

Lemma normalize_scheme_ok i s :
  normalize_auth_scheme i = Some s -> s = "oauth2" \/ s = "jwt_bearer".
Proof.
  unfold normalize_auth_scheme. destruct i as [i|]; [|done]. cbn.
  destruct (str_is_empty _); [done|].
  destruct (String.eqb_spec (to_ascii_lowercase (str_trim i)) "oauth2"); cbn; [naive_solver|].
  destruct (String.eqb_spec (to_ascii_lowercase (str_trim i)) "jwt_bearer"); naive_solver.
Qed.

(** ** Properties *)

(** The engine's forecast holds at enforcement time: when policy evaluation
    reports that a redaction contract applies to the arguments, the handler's
    redaction of those arguments under that contract succeeds. *)
Theorem redaction_forecast_holds contract args :
  rae_state (evaluate_redact_args_contract contract args) = "applied" ->
  exists args', apply_redact_args_runtime args contract = Ok args'.
Proof.
  unfold evaluate_redact_args_contract, apply_redact_args_runtime.
  set (target := normalize_token (ra_redaction_target contract)).
  set (mode := normalize_token (ra_redaction_mode contract)).
  set (scope := normalize_token (ra_redaction_scope contract)).
  destruct (one_of mode _) eqn:Em; cbn [negb]; [|done].
  destruct (one_of scope _); cbn [negb]; [|done].
  rewrite redaction_target_value_key, drop_redaction_key.
  assert (Hm : mode <> "drop" -> String.eqb mode "drop" = false) by (by intros ?%String.eqb_neq).
  destruct (redaction_target_key target) as [key|].
  - destruct (vget args key) as [v|] eqn:Ev; [|done].
    destruct (can_apply_redaction mode v) eqn:Ec; [|done]. intros _.
    destruct (String.eqb_spec mode "drop") as [_|Hd]; [by eapply drop_key_succeeds|].
    destruct (can_apply_mode mode v Ec Hd) as [v' Hv]. by eapply update_key_succeeds.
  - destruct (String.eqb target "args"); [|done].
    destruct (can_apply_redaction mode args) eqn:Ec; [|done]. intros _.
    destruct (String.eqb_spec mode "drop") as [_|Hd]; [by eexists|]. by apply can_apply_mode.
Qed.

(** Redaction is confined to its target: redacting an object replaces the
    value of the target key as the mode says (or drops the key, or replaces the
    whole arguments for the target [args]) and leaves every other key with the
    value it had. *)
Theorem redaction_confined m contract v :
  NoDup (map fst m) ->
  apply_redact_args_runtime (Obj m) contract = Ok v ->
  let target := normalize_token (ra_redaction_target contract) in
  let mode := normalize_token (ra_redaction_mode contract) in
  match redaction_target_key target with
  | Some key =>
      exists m' old, v = Obj m' /\ map_get m key = Some old /\
        (forall k, k <> key -> map_get m' k = map_get m k) /\
        (if String.eqb mode "drop" then map_get m' key = None
         else exists new, map_get m' key = Some new /\ Redacted mode old new)
  | None =>
      target = "args" /\
      (if String.eqb mode "drop" then v = Obj [] else Redacted mode (Obj m) v)
  end.
Proof.
  intros Hnd. unfold apply_redact_args_runtime. cbv zeta.
  set (target := normalize_token (ra_redaction_target contract)).
  set (mode := normalize_token (ra_redaction_mode contract)).
  destruct (one_of _ _); cbn [negb]; [|done]. rewrite drop_redaction_key.
  destruct (redaction_target_key target) as [key|].
  - destruct (String.eqb mode "drop"); cbn.
    + destruct (map_remove m key) as [[old m']|] eqn:Er; [|done]. intros [= <-].
      destruct (map_remove_wf _ _ _ _ Hnd Er) as (_ & Hk & Ho).
      apply map_remove_Some in Er as [Hg _]. by exists m', old.
    + destruct (map_get m key) as [old|] eqn:Eg; [|done].
      destruct (apply_value_redaction old mode) as [new|] eqn:Ev; [|done]. intros [= <-].
      apply value_redaction_ok in Ev. exists (map_insert m key new), old.
      split; [done|]. split; [done|]. split; [intros k Hk; by rewrite map_get_insert_ne|].
      exists new. by rewrite map_get_insert_eq.
  - destruct (String.eqb_spec target "args") as [Ht|]; [|by destruct (String.eqb mode "drop")].
    destruct (String.eqb mode "drop"); [by intros [= <-]|]. intros Hv. split; [done|].
    by apply value_redaction_ok.
Qed.

(** The auth-context projection puts no credential into the evidence: every
    scheme it writes is [oauth2] or [jwt_bearer], every issuer is non-empty, at
    most 2048 bytes and neither a bearer token nor a compact JWS, every
    principal neither a bearer token nor a compact JWS; what it does not write
    it leaves as it was. *)
Theorem auth_projection_no_credentials proj m :
  let m' := merge_into_metadata proj m in
  (pm_auth_scheme m' = pm_auth_scheme m \/ pm_auth_scheme m' = Some "oauth2" \/
   pm_auth_scheme m' = Some "jwt_bearer") /\
  (pm_auth_issuer m' = pm_auth_issuer m \/
   exists s, pm_auth_issuer m' = Some s /\ NotCredential s /\
     (str_len s <= MAX_AUTH_ISSUER_BYTES)%Z) /\
  (pm_principal m' = pm_principal m \/ exists s, pm_principal m' = Some s /\ NotCredential s).
Proof.
  cbv zeta. unfold merge_into_metadata.
  pose proof (normalize_scheme_ok (ap_auth_scheme proj)) as Hs.
  pose proof (normalize_issuer_ok (ap_auth_issuer proj)) as Hi.
  pose proof (normalize_principal_ok (ap_principal proj)) as Hp.
  destruct (normalize_auth_scheme _) as [s|], (normalize_auth_issuer _) as [i|],
    (normalize_principal _) as [p|]; cbn; split_and!; try (by left); try (by right; eauto);
    destruct (Hs _ eq_refl) as [->| ->]; auto.
Qed.

End Checks.
