(* ===== verification/Handler.v ===== *)
(** * The tool-call handler

    [crates/assay-core/src/mcp/tool_call_handler/]: [handle_tool_call] puts
    policy evaluation, obligation enforcement, mandate authorization and
    decision emission together, with the guard of [decision_next/guard.rs] that
    owns the decision event.  The world it runs in holds the mandate store, the
    policy counters, the two event sinks and the guard's event slot; clock
    readings, UUIDs and elapsed times come from [Env], indexed by a tick. *)
From stdpp Require Import base tactics list strings gmap.
From Stdlib Require Import ZArith Lia.
From S2P Require Import Prelude RustStr Json Platform PolicyTypes ToolPattern PolicySchema.
From S2P Require Import PolicyEngine Glob MandateStore Authorizer Convergence Decision HandlerChecks.

Record World (St : Type) : Type := mkWorld {
  w_store : St;
  w_policy_state : PolicyState;
  w_events : list DecisionEvent;
  w_lifecycle : list LifecycleEvent;
  w_guard : option DecisionEvent;
  w_tick : nat
}.
Arguments mkWorld {St}.
Arguments w_store {St}.
Arguments w_policy_state {St}.
Arguments w_events {St}.
Arguments w_lifecycle {St}.
Arguments w_guard {St}.
Arguments w_tick {St}.
#[global] Instance eta_world St : Eta (World St) := fun w =>
  mkWorld (w_store w) (w_policy_state w) (w_events w) (w_lifecycle w) (w_guard w) (w_tick w).

(** [authorizer] is its configuration; its store is the world's. *)
Record ToolCallHandler : Type := mkToolCallHandler {
  th_policy : McpPolicy;
  th_authorizer : option AuthzConfig;
  th_lifecycle_emitter : bool;
  th_config : ToolCallHandlerConfig
}.

Section Handler.
Context `{Platform} `{PolicySerde} `{Env} {St : Type} `{!MandateStoreApi St}.

Abbreviation W := (World St).

(** ** The environment *)

Definition next_tick : M W nat :=
  fun w => (Done (w_tick w), w <| w_tick := S (w_tick w) |>).
Definition utc_now : M W Z := t ← next_tick; mret (env_clock t).
Definition new_uuid : M W string := t ← next_tick; mret (env_uuid t).
(** [start.elapsed().as_millis() as u64]. *)
Definition elapsed_ms : M W Z := t ← next_tick; mret ((env_elapsed_ms t) mod 2 ^ 64)%Z.

(** ** decision_next/guard.rs *)

Definition new_event (source tool_call_id tool : string) : M W DecisionEvent :=
  u ← new_uuid;
  now ← utc_now;
  mret (decision_event_new u now source tool_call_id tool).

(** [if let Some(ref mut event) = self.event]. *)
Definition guard_update (f : DecisionData -> DecisionData) : M W () :=
  modify (fun w => w <| w_guard := (fun e => e <| ev_data := f (ev_data e) |>) <$> w_guard w |>).

Definition guard_set_request_id (id : option Value) : M W () :=
  guard_update (data_with_request_id id).
Definition guard_set_mandate_info (mandate_id use_id : option string) (use_count : option Z)
    : M W () :=
  guard_update (data_with_mandate mandate_id use_id use_count).
Definition guard_set_mandate_matches (scope_match kind_match tx_ref_match : option bool)
    : M W () :=
  guard_update (data_with_mandate_matches scope_match kind_match tx_ref_match).
Definition guard_set_latencies (authz_ms store_ms : option Z) : M W () :=
  guard_update (data_with_latencies authz_ms store_ms).
Definition guard_set_tool_match (t : ToolMatchMetadata) : M W () :=
  guard_update (data_with_tool_match (tm_tool_classes t) (tm_matched_tool_classes t)
                  (tm_match_basis t) (tm_matched_rule t)).
Definition guard_set_policy_context (c : PolicyDecisionEventContext) : M W () :=
  guard_update (data_set_policy_context c).

(** [self.event.take()], then emit what becomes of it. *)
Definition guard_take_and_emit (f : DecisionEvent -> DecisionEvent) : M W () :=
  modify (fun w =>
    match w_guard w with
    | Some event => w <| w_guard := None |> <| w_events := w_events w ++ [f event] |>
    | None => w
    end).

Definition guard_emit_allow (reason_code : string) : M W () :=
  guard_take_and_emit (event_allow reason_code).
Definition guard_emit_deny (reason_code : string) (reason : option string) : M W () :=
  guard_take_and_emit (event_deny reason_code reason).
Definition guard_emit_error (reason_code : string) (reason : option string) : M W () :=
  guard_take_and_emit (event_error reason_code reason).

Definition guard_emit_event (event : DecisionEvent) : M W () :=
  modify (fun w => w <| w_guard := None |> <| w_events := w_events w ++ [event] |>).

(** [Drop]. *)
Definition guard_drop : M W () :=
  guard_take_and_emit (event_error reason_codes.S_INTERNAL_ERROR
    (Some "Decision guard dropped without explicit emit (possible panic or early return)")).

(** The end of a scope that owns a guard: the guard is dropped; when a panic
    crosses the scope it is dropped only if panics unwind. *)
Definition drop_at_end {A} (body : M W A) : M W A :=
  fun w =>
    match body w with
    | (Done a, w') => (Done a, snd (guard_drop w'))
    | (Panicked, w') =>
        match env_panic with
        | Unwind => (Panicked, snd (guard_drop w'))
        | Abort => (Panicked, w')
        end
    end.

Definition with_guard {A} (source tool_call_id tool : string) (body : M W A) : M W A :=
  event ← new_event source tool_call_id tool;
  modify (fun w => w <| w_guard := Some event |>);;
  drop_at_end body.

(** ** tool_call_handler/emit.rs *)

Definition error_not_tool_call (event_source tool_call_id : string) : M W HandleResult :=
  event ← new_event event_source tool_call_id "unknown";
  mret (HError reason_codes.S_INTERNAL_ERROR "Not a tool call"
          (event_error reason_codes.S_INTERNAL_ERROR (Some "Not a tool call") event)).

(** [with_tool_match] and [with_policy_context] on a finalised event. *)
Definition event_with_match (t : ToolMatchMetadata) (e : DecisionEvent) : DecisionEvent :=
  e <| ev_data := data_with_policy_context (policy_context t)
         (data_with_tool_match (tm_tool_classes t) (tm_matched_tool_classes t)
            (tm_match_basis t) (tm_matched_rule t) (ev_data e)) |>.

Definition emit_deny (event_source tool_call_id tool_name reason_code reason : string)
    (t : ToolMatchMetadata) : M W HandleResult :=
  event ← new_event event_source tool_call_id tool_name;
  mret (HDeny reason_code reason
          (event_with_match t (event_deny reason_code (Some reason) event))).

Definition emit_allow (event_source tool_call_id tool_name reason_code : string)
    (receipt : option AuthzReceipt) (effective_arguments : option Value)
    (t : ToolMatchMetadata) : M W HandleResult :=
  event ← new_event event_source tool_call_id tool_name;
  mret (HAllow receipt effective_arguments (event_with_match t (event_allow reason_code event))).

(** ** tool_call_handler/evaluate.rs *)

(** The deny exit of every step: project the metadata on the guard's event, emit
    it, and return the same denial. *)
Definition deny_exit (config : ToolCallHandlerConfig)
    (tool_call_id tool_name reason_code reason : string) (t : ToolMatchMetadata)
    : M W HandleResult :=
  guard_set_policy_context (policy_context t);;
  guard_emit_deny reason_code (Some reason);;
  emit_deny (hc_event_source config) tool_call_id tool_name reason_code reason t.

(** The arguments to forward, when redaction changed them. *)
Definition changed_arguments (effective original : Value) : option Value :=
  if value_eqb effective original then None else Some effective.

Definition tool_call_data (config : ToolCallHandlerConfig) (tool_call_id tool_name : string)
    (transaction_object : option Value) : ToolCallData :=
  {| tc_tool_call_id := tool_call_id; tc_tool_name := tool_name;
     tc_operation_class := operation_class_for_tool config tool_name;
     tc_transaction_object := transaction_object; tc_source_run_id := None |}.

(** Step 6, with an authorizer and a mandate; [authorize_and_consume] reads the
    clock and calls [authorize_at]. *)
Definition mandate_step (h : ToolCallHandler) (authz : AuthzConfig) (mandate : MandateData)
    (transaction_object : option Value) (tool_call_id tool_name : string)
    (effective original : Value) (t : ToolMatchMetadata) : M W HandleResult :=
  let config := th_config h in
  now ← utc_now;
  result ← zoom w_store (fun s w => w <| w_store := s |>)
             (authorize_at_impl authz now mandate
                (tool_call_data config tool_call_id tool_name transaction_object));
  match result with
  | Ok receipt =>
      authz_ms ← elapsed_ms;
      guard_set_mandate_info (Some (md_mandate_id mandate)) (Some (ar_use_id receipt))
        (Some (ar_use_count receipt));;
      guard_set_mandate_matches (Some true) (Some true) (Some true);;
      guard_set_latencies (Some authz_ms) None;;
      guard_set_policy_context (policy_context t);;
      guard_emit_allow reason_codes.P_MANDATE_VALID;;
      (if ar_was_new receipt && th_lifecycle_emitter h
       then modify (fun w => w <| w_lifecycle := w_lifecycle w ++
              [mandate_used_event (hc_event_source config) receipt] |>)
       else mret ());;
      emit_allow (hc_event_source config) tool_call_id tool_name reason_codes.P_MANDATE_VALID
        (Some receipt) (changed_arguments effective original) t
  | Err e =>
      let '(reason_code, reason) := map_authz_error e in
      let t := if String.eqb reason_code reason_codes.S_DB_ERROR
               then mark_fail_closed RuntimeDependencyError (runtime_dependency_error_code t) t
               else t in
      guard_set_mandate_info (Some (md_mandate_id mandate)) None None;;
      deny_exit config tool_call_id tool_name reason_code reason t
  end.

(** Steps 5 to 7, after the obligations. *)
Definition authorization_steps (h : ToolCallHandler) (mandate : option MandateData)
    (transaction_object : option Value) (tool_call_id tool_name : string)
    (effective original : Value) (t : ToolMatchMetadata) : M W HandleResult :=
  let config := th_config h in
  if is_commit_tool config tool_name && hc_require_mandate_for_commit config
     && negb (opt_is_some mandate)
  then deny_exit config tool_call_id tool_name reason_codes.P_MANDATE_REQUIRED
         "Commit tool requires mandate authorization" t
  else
    match th_authorizer h, mandate with
    | Some authz, Some mandate_data =>
        mandate_step h authz mandate_data transaction_object tool_call_id tool_name
          effective original t
    | _, _ =>
        ms ← elapsed_ms;
        guard_set_latencies (Some ms) None;;
        guard_set_policy_context (policy_context t);;
        guard_emit_allow reason_codes.P_POLICY_ALLOW;;
        emit_allow (hc_event_source config) tool_call_id tool_name reason_codes.P_POLICY_ALLOW
          None (changed_arguments effective original) t
    end.

(** Steps 2 to 7. *)
Definition enforcement_steps (h : ToolCallHandler) (mandate : option MandateData)
    (transaction_object : option Value) (tool_call_id tool_name : string)
    (original : Value) (t : ToolMatchMetadata) : M W HandleResult :=
  let config := th_config h in
  '(approval, t) ← validate_approval_required utc_now tool_name original t;
  match approval with
  | Some failure =>
      deny_exit config tool_call_id tool_name reason_codes.P_APPROVAL_REQUIRED
        (approval_failure_reason failure) t
  | None =>
      match validate_restrict_scope t with
      | (Some failure, t) =>
          deny_exit config tool_call_id tool_name reason_codes.P_RESTRICT_SCOPE
            (scope_failure_reason failure) t
      | (None, t) =>
          match validate_redact_args original t with
          | (Some failure, _, t) =>
              deny_exit config tool_call_id tool_name reason_codes.P_REDACT_ARGS
                (redact_failure_reason failure) t
          | (None, effective, t) =>
              authorization_steps h mandate transaction_object tool_call_id tool_name
                effective original t
          end
      end
  end.

(** The metadata the handler works on after policy evaluation. *)
Definition seed_tool_match (h : ToolCallHandler) (tool_name : string)
    (binding : option ToolDefinitionBinding) (m : PolicyMatchMetadata) : ToolMatchMetadata :=
  let m := match hc_auth_context_projection (th_config h) with
           | Some proj => merge_into_metadata proj m
           | None => m
           end in
  let t := (from_policy_metadata m) <| tm_tool_definition_binding := binding |> in
  let t := t <| tm_obligation_outcomes := execute_log_only (tm_obligations t) |> in
  seed_fail_closed_context (operation_class_for_tool (th_config h) tool_name) t.

(** The scope of the guard for a tool call. *)
Definition guarded_call (h : ToolCallHandler) (request : JsonRpcRequest)
    (runtime_identity : option ToolIdentity) (binding : option ToolDefinitionBinding)
    (mandate : option MandateData) (transaction_object : option Value)
    (params : CallToolParams) (tool_call_id : string) : M W HandleResult :=
  let tool_name := ctp_name params in
  let original := ctp_arguments params in
  guard_set_request_id (jr_id request);;
  policy_eval ← zoom w_policy_state (fun s w => w <| w_policy_state := s |>)
    (evaluate_with_metadata (th_policy h) tool_name original runtime_identity);
  let t := seed_tool_match h tool_name binding (pe_metadata policy_eval) in
  guard_set_tool_match t;;
  guard_set_policy_context (policy_context t);;
  match pe_decision policy_eval with
  | PDeny _ code reason _ =>
      deny_exit (th_config h) tool_call_id tool_name (map_policy_code_to_reason code) reason t
  | PAllow | PAllowWithWarning _ _ _ =>
      enforcement_steps h mandate transaction_object tool_call_id tool_name original t
  end.

Definition handle_tool_call (h : ToolCallHandler) (request : JsonRpcRequest)
    (runtime_identity : option ToolIdentity) (binding : option ToolDefinitionBinding)
    (mandate : option MandateData) (transaction_object : option Value) : M W HandleResult :=
  let source := hc_event_source (th_config h) in
  tool_call_id ← extract_tool_call_id new_uuid request;
  match tool_params request with
  | None =>
      with_guard source tool_call_id "unknown"
        (guard_emit_error reason_codes.S_INTERNAL_ERROR (Some "Not a tool call"));;
      error_not_tool_call source tool_call_id
  | Some params =>
      with_guard source tool_call_id (ctp_name params)
        (guarded_call h request runtime_identity binding mandate transaction_object
           params tool_call_id)
  end.

(** ** Always emit

    [Owed base id tool w]: the guard holds the event of this call and nothing
    was emitted on top of [base].  [Paid]: the event was emitted and the guard
    is empty. *)

Definition Owed (base : list DecisionEvent) (source id tool : string) (w : W) : Prop :=
  w_events w = base /\
  exists e, w_guard w = Some e /\ ev_source e = source /\
    dd_tool_call_id (ev_data e) = id /\ dd_tool (ev_data e) = tool.

Definition Paid (base : list DecisionEvent) (P : DecisionEvent -> Prop) (w : W) : Prop :=
  w_guard w = None /\ exists e, w_events w = base ++ [e] /\ P e.

(** What two events of one decision share: the source, the call, the verdict with
    its reasons, and the classification. *)
Definition SameDecision (e e' : DecisionEvent) : Prop :=
  ev_source e = ev_source e' /\ core (ev_data e) = core (ev_data e') /\
  classification (ev_data e) = classification (ev_data e').

Definition result_event (r : HandleResult) : DecisionEvent :=
  match r with HAllow _ _ d => d | HDeny _ _ d => d | HError _ _ d => d end.

(** The emitted event and the result the handler returns tell the same story. *)
Definition Agrees (source id tool : string) (r : HandleResult) (e : DecisionEvent) : Prop :=
  ev_source e = source /\ dd_tool_call_id (ev_data e) = id /\ dd_tool (ev_data e) = tool /\
  SameDecision e (result_event r) /\
  match r with
  | HAllow _ _ _ => dd_decision (ev_data e) = DAllow /\ dd_reason (ev_data e) = None
  | HDeny code reason _ =>
      dd_decision (ev_data e) = DDeny /\ dd_reason_code (ev_data e) = code /\
      dd_reason (ev_data e) = Some reason
  | HError code reason _ =>
      dd_decision (ev_data e) = DError /\ dd_reason_code (ev_data e) = code /\
      dd_reason (ev_data e) = Some reason
  end.

(** A computation that leaves the sink and the guard alone, even if it panics. *)
Definition quiet {A} (m : M W A) : Prop :=
  forall w, w_events (snd (m w)) = w_events w /\ w_guard (snd (m w)) = w_guard w.

Lemma quiet_bind {A B} (m : M W A) (k : A -> M W B) :
  quiet m -> (forall a, quiet (k a)) -> quiet (m ≫= k).
Proof.
  intros Hm Hk w. unfold mbind, M_bind. destruct (Hm w) as [He Hg].
  destruct (m w) as [[a|] w']; [|done]. destruct (Hk a w') as [He' Hg']. cbn in *. by rewrite He', Hg'.
Qed.

Lemma quiet_ret {A} (a : A) : quiet (mret a).
Proof. done. Qed.

Lemma quiet_tick : quiet next_tick.
Proof. done. Qed.

Lemma quiet_store {A} (m : M St A) : quiet (zoom w_store (fun s w => w <| w_store := s |>) m).
Proof. intros w. unfold zoom. by destruct (m (w_store w)). Qed.

Lemma quiet_policy {A} (m : M PolicyState A) :
  quiet (zoom w_policy_state (fun s w => w <| w_policy_state := s |>) m).
Proof. intros w. unfold zoom. by destruct (m (w_policy_state w)). Qed.

Lemma quiet_lifecycle f : quiet (modify (fun w => w <| w_lifecycle := f w |>)).
Proof. done. Qed.

#[local] Hint Resolve quiet_ret quiet_tick quiet_store quiet_policy quiet_lifecycle : assay.

Lemma quiet_now : quiet utc_now.
Proof. apply quiet_bind; auto with assay. Qed.
Lemma quiet_uuid : quiet new_uuid.
Proof. apply quiet_bind; auto with assay. Qed.
Lemma quiet_elapsed : quiet elapsed_ms.
Proof. apply quiet_bind; auto with assay. Qed.
#[local] Hint Resolve quiet_now quiet_uuid quiet_elapsed : assay.

Lemma quiet_new_event source id tool : quiet (new_event source id tool).
Proof. repeat (apply quiet_bind; intros; auto with assay). Qed.

Lemma quiet_approval tool_name args t :
  quiet (validate_approval_required utc_now tool_name args t).
Proof.
  unfold validate_approval_required. destruct (negb _); [auto with assay|].
  destruct (parse_approval_artifact args) as [artifact|]; [|auto with assay].
  apply quiet_bind.
  - unfold classify_approval_freshness. repeat case_match; auto using quiet_bind with assay.
  - intros fresh. repeat case_match; auto with assay.
Qed.

Lemma quiet_call_id request : quiet (extract_tool_call_id new_uuid request).
Proof.
  unfold extract_tool_call_id. case_match; [done|].
  apply quiet_bind; intros; auto with assay.
Qed.
#[local] Hint Resolve quiet_new_event quiet_approval quiet_call_id : assay.

(** *** The emitted and the returned event *)

#[local] Opaque data_set_policy_context data_with_policy_context finalize_data
  refresh_fulfillment_normalization decision_data_new.

(** The core of an event decided for this call with this metadata. *)
Definition decided (tool id : string) (dec : Decision) (code : string) (reason : option string)
    (t : ToolMatchMetadata) : Core :=
  mkCore tool id dec code reason (tm_fail_closed t) (map oo_status (tm_obligation_outcomes t)).

Lemma emitted_core dec code reason t d :
  core (finalize_data dec code reason (data_set_policy_context (policy_context t) d)) =
  decided (dd_tool d) (dd_tool_call_id d) dec code reason t.
Proof. rewrite finalize_core, set_policy_context_core. reflexivity. Qed.

Lemma returned_core dec code reason t id tool :
  core (data_with_policy_context (policy_context t)
    (data_with_tool_match (tm_tool_classes t) (tm_matched_tool_classes t) (tm_match_basis t)
       (tm_matched_rule t) (finalize_data dec code reason (decision_data_new id tool)))) =
  decided tool id dec code reason t.
Proof.
  rewrite with_policy_context_core, with_tool_match_core, finalize_core. reflexivity.
Qed.

(** The event emitted by an exit and the event it returns. *)
Definition emitted (dec : Decision) (code : string) (reason : option string)
    (t : ToolMatchMetadata) (e : DecisionEvent) : DecisionEvent :=
  e <| ev_data := finalize_data dec code reason
         (data_set_policy_context (policy_context t) (ev_data e)) |>.

Definition returned (dec : Decision) (code : string) (reason : option string)
    (t : ToolMatchMetadata) (u : string) (now : Z) (source id tool : string) : DecisionEvent :=
  let new := decision_event_new u now source id tool in
  event_with_match t (new <| ev_data := finalize_data dec code reason (ev_data new) |>).

Lemma exit_agree dec code reason t e u now :
  let em := emitted dec code reason t e in
  let ret := returned dec code reason t u now (ev_source e) (dd_tool_call_id (ev_data e))
               (dd_tool (ev_data e)) in
  SameDecision em ret /\
  core (ev_data em) = decided (dd_tool (ev_data e)) (dd_tool_call_id (ev_data e)) dec code reason t.
Proof.
  intros em ret.
  pose proof (emitted_core dec code reason t (ev_data e)) as He.
  pose proof (returned_core dec code reason t (dd_tool_call_id (ev_data e)) (dd_tool (ev_data e))) as Hr.
  assert (Ee : ev_data em = finalize_data dec code reason
                 (data_set_policy_context (policy_context t) (ev_data e))) by reflexivity.
  assert (Er : ev_data ret = data_with_policy_context (policy_context t)
    (data_with_tool_match (tm_tool_classes t) (tm_matched_tool_classes t) (tm_match_basis t)
       (tm_matched_rule t) (finalize_data dec code reason
       (decision_data_new (dd_tool_call_id (ev_data e)) (dd_tool (ev_data e)))))) by reflexivity.
  unfold SameDecision. rewrite Ee, Er, He, Hr. split; [|done]. split; [reflexivity|].
  split; [done|]. rewrite finalize_classification, He, with_policy_context_classification, Hr.
  done.
Qed.

(** Two ways to read the verdict off a core. *)
Lemma core_verdict d tool id dec code reason t :
  core d = decided tool id dec code reason t ->
  dd_tool_call_id d = id /\ dd_tool d = tool /\ dd_decision d = dec /\
  dd_reason_code d = code /\ dd_reason d = reason.
Proof.
  intros E. split_and!.
  - exact (f_equal co_tool_call_id E).
  - exact (f_equal co_tool E).
  - exact (f_equal co_decision E).
  - exact (f_equal co_reason_code E).
  - exact (f_equal co_reason E).
Qed.

(** *** Triples of the guard's life *)

Section Life.
Context (base : list DecisionEvent) (source id tool : string).
Abbreviation owed := (Owed base source id tool).
Abbreviation paid r := (Paid base (Agrees source id tool r)).

Lemma owed_quiet {A} (m : M W A) : quiet m -> triple owed m (fun _ => owed) owed.
Proof.
  intros Hq w (He & e & Hg & Hrest). destruct (Hq w) as [He' Hg'].
  assert (Ho : owed (snd (m w))) by (split; [congruence|exists e; split; [congruence|done]]).
  by destruct (m w) as [[a|] w'].
Qed.

Lemma owed_update f R :
  (forall d, dd_tool_call_id (f d) = dd_tool_call_id d /\ dd_tool (f d) = dd_tool d) ->
  triple owed (guard_update f) (fun _ => owed) R.
Proof.
  intros Hf w (He & e & Hg & Hs & Hid & Ht). split; [done|]. cbn. rewrite Hg. eexists.
  split; [reflexivity|]. cbn. destruct (Hf (ev_data e)) as [-> ->]. done.
Qed.

Lemma owed_context c R : triple owed (guard_set_policy_context c) (fun _ => owed) R.
Proof.
  apply owed_update. apply set_policy_context_ids.
Qed.

Lemma owed_request_id i R : triple owed (guard_set_request_id i) (fun _ => owed) R.
Proof. apply owed_update. intros d. split; reflexivity. Qed.
Lemma owed_mandate_info m u c R : triple owed (guard_set_mandate_info m u c) (fun _ => owed) R.
Proof. apply owed_update. intros d. split; reflexivity. Qed.
Lemma owed_mandate_matches m u c R :
  triple owed (guard_set_mandate_matches m u c) (fun _ => owed) R.
Proof. apply owed_update. intros d. split; reflexivity. Qed.
Lemma owed_latencies a b R : triple owed (guard_set_latencies a b) (fun _ => owed) R.
Proof. apply owed_update. intros d. split; reflexivity. Qed.
Lemma owed_tool_match t R : triple owed (guard_set_tool_match t) (fun _ => owed) R.
Proof. apply owed_update. intros d. split; reflexivity. Qed.

(** The stages of an exit: the metadata is projected on the guard's event, then
    the event is emitted, then the result is built. *)
Definition Mine (e : DecisionEvent) : Prop :=
  ev_source e = source /\ dd_tool_call_id (ev_data e) = id /\ dd_tool (ev_data e) = tool.

Definition Projected (t : ToolMatchMetadata) (w : W) : Prop :=
  w_events w = base /\
  exists e, Mine e /\
    w_guard w = Some (e <| ev_data := data_set_policy_context (policy_context t) (ev_data e) |>).

Definition Emitted (dec : Decision) (code : string) (reason : option string)
    (t : ToolMatchMetadata) (w : W) : Prop :=
  w_guard w = None /\
  exists e, Mine e /\ w_events w = base ++ [emitted dec code reason t e].

Lemma project_step t R :
  triple owed (guard_set_policy_context (policy_context t)) (fun _ => Projected t) R.
Proof.
  intros w (He & e & Hg & Hm). split; [exact He|]. exists e. split; [exact Hm|].
  cbn -[data_set_policy_context]. rewrite Hg. reflexivity.
Qed.

Lemma emit_step dec code reason t R :
  triple (Projected t)
    (guard_take_and_emit (fun e => e <| ev_data := finalize_data dec code reason (ev_data e) |>))
    (fun _ => Emitted dec code reason t) R.
Proof.
  intros w (He & e & Hm & Hg). cbn -[finalize_data data_set_policy_context]. rewrite Hg.
  split; [reflexivity|]. exists e. split; [exact Hm|]. rewrite He. reflexivity.
Qed.

Lemma emitted_quiet {A} (m : M W A) dec code reason t R :
  quiet m -> (forall w, exists a w', m w = (Done a, w')) ->
  triple (Emitted dec code reason t) m (fun _ => Emitted dec code reason t) R.
Proof.
  intros Hq Hd w (Hg & e & Hm & He). destruct (Hq w) as [He' Hg'].
  destruct (Hd w) as (a & w' & E). rewrite E in *. cbn [snd] in He', Hg'.
  split; [congruence|]. exists e. split; [exact Hm|congruence].
Qed.

(** The emitted event matches the one returned with the same verdict. *)
Lemma emitted_paid dec code reason t u now w :
  Emitted dec code reason t w ->
  let ret := returned dec code reason t u now source id tool in
  Paid base (fun e => Mine e /\ SameDecision e ret /\ dd_decision (ev_data e) = dec /\
                      dd_reason_code (ev_data e) = code /\ dd_reason (ev_data e) = reason) w.
Proof.
  intros (Hg & e & (Hs & Hid & Ht) & He) ret. split; [exact Hg|]. eexists. split; [exact He|].
  pose proof (exit_agree dec code reason t e u now) as [Hsame Hcore].
  destruct (core_verdict _ _ _ _ _ _ _ Hcore) as (Ci & Ct & Cd & Cc & Cr).
  rewrite Hs, Hid, Ht in Hsame. unfold Mine. rewrite Ci, Ct, Cd, Cc, Cr.
  split_and!; [exact Hs|assumption..|reflexivity|reflexivity|reflexivity].
Qed.

Lemma paid_weaken P Q w : (forall e, P e -> Q e) -> Paid base P w -> Paid base Q w.
Proof. intros HPQ (Hg & e & He & HP). split; [exact Hg|]. exists e. auto. Qed.

Lemma emit_deny_step code reason t R :
  triple (Emitted DDeny code (Some reason) t) (emit_deny source id tool code reason t)
    (fun r => paid r) R.
Proof.
  intros w Hw. eapply paid_weaken; [|exact (emitted_paid _ _ _ _ (env_uuid (w_tick w))
    (env_clock (S (w_tick w))) _ Hw)].
  intros e ((? & ? & ?) & ? & ? & ? & ?). unfold Agrees. split_and!; assumption.
Qed.

Lemma emit_allow_step code receipt eff t R :
  triple (Emitted DAllow code None t) (emit_allow source id tool code receipt eff t)
    (fun r => paid r) R.
Proof.
  intros w Hw. eapply paid_weaken; [|exact (emitted_paid _ _ _ _ (env_uuid (w_tick w))
    (env_clock (S (w_tick w))) _ Hw)].
  intros e ((? & ? & ?) & ? & ? & ? & ?). unfold Agrees. split_and!; assumption.
Qed.

(** Every deny exit pays with the denial it returns. *)
Lemma deny_exit_pays config code reason t R :
  hc_event_source config = source ->
  triple owed (deny_exit config id tool code reason t) (fun r => paid r) R.
Proof.
  intros Hsrc. unfold deny_exit. rewrite Hsrc.
  eapply triple_bind; [apply project_step|]. intros [].
  eapply triple_bind; [apply emit_step|]. intros [].
  apply emit_deny_step.
Qed.

Lemma authorization_steps_pays h mandate tx effective original t :
  hc_event_source (th_config h) = source ->
  triple owed (authorization_steps h mandate tx id tool effective original t)
    (fun r => paid r) owed.
Proof.
  intros Hsrc. unfold authorization_steps.
  destruct (_ && negb _); [by apply deny_exit_pays|].
  destruct (th_authorizer h) as [authz|], mandate as [m|]; [unfold mandate_step|..].
  2,3,4: eapply triple_bind; [apply owed_quiet, quiet_elapsed|]; intros ms;
    eapply triple_bind; [apply owed_latencies|]; intros [];
    eapply triple_bind; [apply project_step|]; intros [];
    eapply triple_bind; [apply emit_step|]; intros [];
    rewrite Hsrc; apply emit_allow_step.
  eapply triple_bind; [apply owed_quiet, quiet_now|]. intros now.
  eapply triple_bind; [apply owed_quiet, quiet_store|]. intros [receipt|e].
  - eapply triple_bind; [apply owed_quiet, quiet_elapsed|]. intros ms.
    eapply triple_bind; [apply owed_mandate_info|]; intros [].
    eapply triple_bind; [apply owed_mandate_matches|]; intros [].
    eapply triple_bind; [apply owed_latencies|]; intros [].
    eapply triple_bind; [apply project_step|]; intros [].
    eapply triple_bind; [apply emit_step|]; intros [].
    eapply triple_bind; [apply emitted_quiet; destruct (_ && _); eauto with assay|]. intros [].
    rewrite Hsrc. apply emit_allow_step.
  - destruct (map_authz_error e) as [code reason].
    eapply triple_bind; [apply owed_mandate_info|]. intros []. by apply deny_exit_pays.
Qed.

Lemma enforcement_steps_pays h mandate tx original t :
  hc_event_source (th_config h) = source ->
  triple owed (enforcement_steps h mandate tx id tool original t) (fun r => paid r) owed.
Proof.
  intros Hsrc. unfold enforcement_steps.
  eapply triple_bind; [apply owed_quiet, quiet_approval|].
  intros [[f|] t']; [by apply deny_exit_pays|].
  destruct (validate_restrict_scope t') as [[f|] t'']; [by apply deny_exit_pays|].
  destruct (validate_redact_args original t'') as [[[f|] eff] t3]; [by apply deny_exit_pays|].
  by apply authorization_steps_pays.
Qed.

Lemma guarded_call_pays h request ri binding mandate tx params :
  hc_event_source (th_config h) = source -> ctp_name params = tool ->
  triple owed (guarded_call h request ri binding mandate tx params id) (fun r => paid r) owed.
Proof.
  intros Hsrc Hname. unfold guarded_call. rewrite Hname.
  eapply triple_bind; [apply owed_request_id|]. intros [].
  eapply triple_bind; [apply owed_quiet, quiet_policy|]. intros pe.
  eapply triple_bind; [apply owed_tool_match|]. intros [].
  eapply triple_bind; [apply owed_context|]. intros [].
  destruct (pe_decision pe);
    first [apply enforcement_steps_pays; exact Hsrc | apply deny_exit_pays; exact Hsrc].
Qed.

(** A guard dropped while its event is owed reports an internal error. *)
Definition Reported (e : DecisionEvent) : Prop :=
  Mine e /\ dd_decision (ev_data e) = DError /\
  dd_reason_code (ev_data e) = reason_codes.S_INTERNAL_ERROR.

Lemma drop_owed w : owed w -> Paid base Reported (snd (guard_drop w)).
Proof.
  intros (He & e & Hg & Hs & Hid & Ht). unfold guard_drop, guard_take_and_emit, modify. rewrite Hg.
  split; [reflexivity|]. eexists. split; [cbn [snd]; rewrite <- He; reflexivity|].
  set (msg := Some _). unfold event_error.
  pose proof (finalize_core DError reason_codes.S_INTERNAL_ERROR msg (ev_data e)) as Hc.
  split; [split; [exact Hs|split]|split].
  - exact (eq_trans (f_equal co_tool_call_id Hc) Hid).
  - exact (eq_trans (f_equal co_tool Hc) Ht).
  - exact (f_equal co_decision Hc).
  - exact (f_equal co_reason_code Hc).
Qed.

Lemma drop_paid P w : Paid base P w -> snd (guard_drop w) = w.
Proof. intros (Hg & _). unfold guard_drop, guard_take_and_emit, modify. by rewrite Hg. Qed.

(** What a scope that owns a guard leaves behind. *)
Definition Settled {A} (P : A -> DecisionEvent -> Prop) (o : Outcome A) (w : W) : Prop :=
  match o with
  | Done a => Paid base (P a) w
  | Panicked =>
      match env_panic with
      | Unwind => Paid base Reported w
      | Abort => w_events w = base
      end
  end.

Lemma drop_at_end_settles {A} (body : M W A) (P : A -> DecisionEvent -> Prop) w :
  triple owed body (fun a => Paid base (P a)) owed -> owed w ->
  Settled P (fst (drop_at_end body w)) (snd (drop_at_end body w)).
Proof.
  intros Hb Hw. specialize (Hb w Hw). unfold drop_at_end, Settled.
  destruct (body w) as [[a|] w']; cbn [fst snd].
  - by rewrite (drop_paid _ _ Hb).
  - destruct env_panic; cbn [fst snd]; [by apply drop_owed|apply Hb].
Qed.

End Life.

Lemma with_guard_settles {A} source id tool (body : M W A) (P : A -> DecisionEvent -> Prop) w :
  triple (Owed (w_events w) source id tool) body (fun a => Paid (w_events w) (P a))
    (Owed (w_events w) source id tool) ->
  Settled (w_events w) source id tool P (fst (with_guard source id tool body w))
    (snd (with_guard source id tool body w)).
Proof.
  intros Hb. unfold with_guard, new_event, new_uuid, utc_now, next_tick, mbind, M_bind, mret, M_ret, modify.
  apply drop_at_end_settles; [exact Hb|]. split; [reflexivity|]. eexists.
  split; [reflexivity|]. split_and!; reflexivity.
Qed.

(** The tool a request names. *)
Definition request_tool (request : JsonRpcRequest) : string :=
  match tool_params request with Some params => ctp_name params | None => "unknown" end.

Lemma call_id_run request w :
  exists id w', extract_tool_call_id new_uuid request w = (Done id, w') /\
    w_events w' = w_events w /\ (forall i, declared_tool_call_id request = Some i -> id = i).
Proof.
  unfold extract_tool_call_id. destruct (declared_tool_call_id request) as [i|].
  - exists i, w. split; [reflexivity|]. split; [done|]. by intros ? [= ->].
  - eexists _, _. split; [reflexivity|]. done.
Qed.

Lemma not_a_tool_call_settles source id w :
  Settled (w_events w) source id "unknown" (Agrees source id "unknown")
    (fst ((with_guard source id "unknown"
       (guard_emit_error reason_codes.S_INTERNAL_ERROR (Some "Not a tool call"));;
       error_not_tool_call source id) w))
    (snd ((with_guard source id "unknown"
       (guard_emit_error reason_codes.S_INTERNAL_ERROR (Some "Not a tool call"));;
       error_not_tool_call source id) w)).
Proof.
  set (d := finalize_data DError reason_codes.S_INTERNAL_ERROR (Some "Not a tool call")
              (decision_data_new id "unknown")).
  pose proof (finalize_core DError reason_codes.S_INTERNAL_ERROR (Some "Not a tool call")
                (decision_data_new id "unknown")) as Hc. fold d in Hc.
  split; [reflexivity|]. eexists. split; [reflexivity|].
  split; [reflexivity|]. split; [exact (f_equal co_tool_call_id Hc)|].
  split; [exact (f_equal co_tool Hc)|].
  split; [split; [reflexivity|split; reflexivity]|].
  split; [exact (f_equal co_decision Hc)|]. split; [exact (f_equal co_reason_code Hc)|].
  exact (f_equal co_reason Hc).
Qed.

Lemma authorization_steps_no_authorizer h m m' :
  th_authorizer h = None -> authorization_steps h (Some m) = authorization_steps h (Some m').
Proof.
  destruct h as [policy authz emitter config]. cbn [th_authorizer]. intros ->. reflexivity.
Qed.

(** ** Properties *)

(** Without an authorizer a mandate is never looked at: a call has the same
    outcome and effects whatever mandate comes with it, so any mandate at all
    satisfies [require_mandate_for_commit]. *)
Theorem mandate_unverified_without_authorizer h request ri binding m m' tx w :
  th_authorizer h = None ->
  handle_tool_call h request ri binding (Some m) tx w =
  handle_tool_call h request ri binding (Some m') tx w.
Proof.
  intros E. unfold handle_tool_call, guarded_call, enforcement_steps.
  by rewrite (authorization_steps_no_authorizer h m m' E).
Qed.

(** C1: every call of the handler that returns, whatever the policy, the
    mandate, the store and the request, adds exactly one event to the decision
    log and leaves no event in the guard; the event carries the call's source,
    id and tool, and tells the same decision, reasons and classification as the
    result returned to the caller.  A call that panics adds exactly one event
    too, an internal error for that call, when panics unwind; when panics abort
    the process the log is left as it was. *)
Theorem handle_tool_call_emits_once h request ri binding mandate tx w :
  let source := hc_event_source (th_config h) in
  let tool := request_tool request in
  let '(o, w') := handle_tool_call h request ri binding mandate tx w in
  exists id, (forall i, declared_tool_call_id request = Some i -> id = i) /\
    match o with
    | Done r => Paid (w_events w) (Agrees source id tool r) w'
    | Panicked =>
        match env_panic with
        | Unwind => Paid (w_events w) (Reported source id tool) w'
        | Abort => w_events w' = w_events w
        end
    end.
Proof.
  cbv zeta. destruct (call_id_run request w) as (id & w1 & E & He & Hi).
  unfold handle_tool_call, request_tool. unfold mbind at 1, M_bind at 1. rewrite E.
  rewrite <- He. destruct (tool_params request) as [params|].
  - pose proof (with_guard_settles (hc_event_source (th_config h)) id (ctp_name params)
      (guarded_call h request ri binding mandate tx params id) _ w1
      (guarded_call_pays _ _ _ _ h request ri binding mandate tx params eq_refl eq_refl)) as Hs.
    destruct (with_guard _ _ _ _ w1) as [o w']. exists id. split; [exact Hi|exact Hs].
  - pose proof (not_a_tool_call_settles (hc_event_source (th_config h)) id w1) as Hs.
    match goal with |- let '(_, _) := ?x in _ => destruct x as [o w'] end. exists id. split; [exact Hi|exact Hs].
Qed.

End Handler.

(** ** What an allowed call passed *)

Section Soundness.
Context `{Platform} `{PolicySerde} `{Env} {St : Type} `{!MandateStoreApi St} `{!MandateStoreLaws St}.
Context (h : ToolCallHandler) (mandate : option MandateData) (tx : option Value).
Abbreviation W := (World St).

(** A clock reading made after tick [n] and before [w]. *)
Definition ReadDuring (n : nat) (w : W) (now : Z) : Prop :=
  exists k, n <= k < w_tick w /\ now = env_clock k.

(** The approval obligation: an artifact in the arguments, valid when the clock
    was read, bound to this tool and to the resource the call names. *)
Definition ApprovalMet (n : nat) (w : W) (tool : string) (args : Value) (t : ToolMatchMetadata)
    : Prop :=
  requires "approval_required" t = true ->
  exists a issued expires now,
    parse_approval_artifact args = Some a /\
    parse_rfc3339 (aa_issued_at a) = Some issued /\
    parse_rfc3339 (aa_expires_at a) = Some expires /\
    ReadDuring n w now /\ (issued <= now <= expires)%Z /\
    aa_bound_tool a = tool /\ requested_resource args = Some (aa_bound_resource a).

Definition ScopeMet (t : ToolMatchMetadata) : Prop :=
  requires "restrict_scope" t = true -> tm_scope_evaluation_state t = Some "matched".

(** The arguments forwarded: redacted by the contract when the policy asks. *)
Definition Forwarded (args : Value) (t : ToolMatchMetadata) (effective : Value) : Prop :=
  if requires "redact_args" t
  then exists contract, tm_redaction_contract t = Some contract /\
         apply_redact_args_runtime args contract = Ok effective
  else effective = args.

(** The uses and nonces of the ledger. *)
Definition SpentSame (s s' : St) : Prop :=
  db_uses (ls_ledger s') = db_uses (ls_ledger s) /\
  db_nonces (ls_ledger s') = db_nonces (ls_ledger s).

(** The mandate side of an allowed call: a receipt is that of an accepted mandate
    consumed by this call; without one nothing is spent, and the call was not
    one that must have a mandate. *)
Definition MandateMet (n : nat) (s : St) (id tool : string) (receipt : option AuthzReceipt)
    (w : W) : Prop :=
  (is_commit_tool (th_config h) tool = true ->
   hc_require_mandate_for_commit (th_config h) = true -> is_Some mandate) /\
  match th_authorizer h, mandate with
  | Some authz, Some m =>
      let call := tool_call_data (th_config h) id tool tx in
      exists rc now, receipt = Some rc /\ ReadDuring n w now /\
        MandateAccepted authz now m call (ls_view s) /\
        exists d, db_uses d = db_uses (ls_ledger s) /\
          Consumes (consume_params m call) rc d (ls_ledger (w_store w))
  | _, _ => receipt = None /\ w_store w = s
  end.

(** The [mandate.used] events a receipt, and a result, call for. *)
Definition used_by (rc : AuthzReceipt) : list LifecycleEvent :=
  if ar_was_new rc && th_lifecycle_emitter h
  then [mandate_used_event (hc_event_source (th_config h)) rc] else [].

Definition used_events (r : HandleResult) : list LifecycleEvent :=
  match r with HAllow (Some rc) _ _ => used_by rc | _ => [] end.

(** The store is as [P] says, the lifecycle log is [l] and the tick at least [n]. *)
Definition Carry (P : St -> Prop) (l : list LifecycleEvent) (n : nat) (w : W) : Prop :=
  P (w_store w) /\ w_lifecycle w = l /\ n <= w_tick w.
Abbreviation Kept w0 := (Carry (eq (w_store w0)) (w_lifecycle w0)).
Abbreviation Unspent w0 := (Carry (SpentSame (w_store w0)) (w_lifecycle w0)).

(** After a result: the lifecycle events it calls for, and [Q] of an allowance. *)
Definition Post (w0 : W) (n : nat) (Q : option AuthzReceipt -> option Value -> W -> Prop)
    (r : HandleResult) (w : W) : Prop :=
  w_lifecycle w = w_lifecycle w0 ++ used_events r /\ n <= w_tick w /\
  match r with
  | HAllow receipt eff _ => Q receipt eff w
  | _ => SpentSame (w_store w0) (w_store w)
  end.

Lemma kept_unspent w0 n w : Kept w0 n w -> Unspent w0 n w.
Proof. intros (Hs & Hl & Hn). split; [|done]. rewrite <- Hs. done. Qed.

Lemma read_during_weaken n n' w w' now :
  n' <= n -> w_tick w <= w_tick w' -> ReadDuring n w now -> ReadDuring n' w' now.
Proof. intros Hn Hw (k & Hk & ->). exists k. split; [lia|done]. Qed.

(** A computation that returns and keeps the store and the lifecycle log. *)
Definition modest {A} (m : M W A) : Prop :=
  forall w, exists a w', m w = (Done a, w') /\ Kept w (w_tick w) w'.

Lemma modest_carry {A} (m : M W A) P l n R :
  modest m -> triple (Carry P l n) m (fun _ => Carry P l n) R.
Proof.
  intros Hm w (Hs & Hl & Hn). destruct (Hm w) as (a & w' & -> & Hs' & Hl' & Hn').
  unfold Carry. rewrite <- Hs', Hl'. split_and!; [done|done|lia].
Qed.

Lemma modest_bind {A B} (m : M W A) (k : A -> M W B) :
  modest m -> (forall a, modest (k a)) -> modest (m ≫= k).
Proof.
  intros Hm Hk w. unfold mbind, M_bind. destruct (Hm w) as (a & w' & -> & Hs & Hl & Hn).
  destruct (Hk a w') as (b & w2 & -> & Hs' & Hl' & Hn'). exists b, w2. split; [done|].
  unfold Carry. rewrite <- Hs', Hl'. split_and!; [done|done|lia].
Qed.

Ltac modest_step :=
  intros w; eexists _, _; split; [reflexivity|]; split_and!; [reflexivity..|]; cbn; lia.

Lemma modest_ret {A} (a : A) : modest (mret a).
Proof. modest_step. Qed.
Lemma modest_tick : modest next_tick.
Proof. modest_step. Qed.
Lemma modest_update f : modest (guard_update f).
Proof. modest_step. Qed.
Lemma modest_emit f : modest (guard_take_and_emit f).
Proof.
  intros w. unfold guard_take_and_emit, modify.
  destruct (w_guard w); (eexists _, _; split; [reflexivity|]; split_and!; [reflexivity..|]; cbn; lia).
Qed.
#[local] Hint Resolve modest_bind modest_ret modest_tick modest_update modest_emit : assay.

Lemma modest_now : modest utc_now.
Proof. unfold utc_now. auto with assay. Qed.
Lemma modest_uuid : modest new_uuid.
Proof. unfold new_uuid. auto with assay. Qed.
Lemma modest_elapsed : modest elapsed_ms.
Proof. unfold elapsed_ms. auto with assay. Qed.
#[local] Hint Resolve modest_now modest_uuid modest_elapsed : assay.
Lemma modest_new_event source id tool : modest (new_event source id tool).
Proof. unfold new_event. auto with assay. Qed.

Lemma now_read P l n R :
  triple (Carry P l n) utc_now (fun now w => Carry P l n w /\ ReadDuring n w now) R.
Proof.
  intros w (Hs & Hl & Hn). split; [split_and!; [exact Hs|exact Hl|cbn; lia]|].
  exists (w_tick w). split; [cbn; lia|reflexivity].
Qed.

(** The deny exits. *)
Lemma deny_exit_post config id tool code reason t w0 n Q R :
  triple (Unspent w0 n) (deny_exit config id tool code reason t) (Post w0 n Q) R.
Proof.
  eapply triple_bind; [apply modest_carry, modest_update|]. intros [].
  eapply triple_bind; [apply modest_carry, modest_emit|]. intros [].
  eapply triple_bind; [apply modest_carry, modest_new_event|]. intros e w (Hs & Hl & Hn).
  split; [cbn [used_events]; by rewrite app_nil_r|]. done.
Qed.

Lemma deny_exit_kept config id tool code reason t w0 n Q R :
  triple (Kept w0 n) (deny_exit config id tool code reason t) (Post w0 n Q) R.
Proof. intros w Hw. by apply deny_exit_post, kept_unspent. Qed.

(** The allowance of the authorization steps. *)
Definition Authorized (w0 : W) (n : nat) (id tool : string) (effective original : Value)
    (receipt : option AuthzReceipt) (eff : option Value) (w : W) : Prop :=
  MandateMet n (w_store w0) id tool receipt w /\ eff = changed_arguments effective original.

Lemma authorize_step authz m id tool w0 n :
  triple (Kept w0 n)
    (now ← utc_now; zoom w_store (fun s w => w <| w_store := s |>)
       (authorize_at_impl authz now m (tool_call_data (th_config h) id tool tx)))
    (fun result w =>
       match result with
       | Ok rc => exists k, n <= k < w_tick w /\
           Carry (fun s => MandateAccepted authz (env_clock k) m
               (tool_call_data (th_config h) id tool tx) (ls_view (w_store w0)) /\
             exists d, db_uses d = db_uses (ls_ledger (w_store w0)) /\
               Consumes (consume_params m (tool_call_data (th_config h) id tool tx)) rc d
                 (ls_ledger s)) (w_lifecycle w0) (S k) w
       | Err _ => Unspent w0 n w
       end) (Unspent w0 n).
Proof.
  intros w (Hs & Hl & Hn). unfold utc_now, next_tick, mbind, M_bind, mret, M_ret, zoom.
  set (w1 := w <| w_tick := S (w_tick w) |>). change (w_store w1) with (w_store w).
  set (call := tool_call_data _ _ _ _). rewrite <- Hs.
  pose proof (authorize_at_spec authz (env_clock (w_tick w)) m call (w_store w0)) as Ha.
  destruct (authorize_at_impl _ _ _ _ _) as [[[rc|e]|] s'].
  - destruct Ha as (Ha & d & Hu & _ & _ & HC). exists (w_tick w). split; [cbn; lia|].
    split; [split; [exact Ha|exists d; split; [exact Hu|exact HC]]|]. split; [exact Hl|cbn; lia].
  - split; [exact Ha|]. split; [exact Hl|cbn; lia].
  - split; [exact Ha|]. split; [exact Hl|cbn; lia].
Qed.

(** The [mandate.used] event of a receipt. *)
Lemma used_step P l n rc R :
  triple (Carry P l n)
    (if ar_was_new rc && th_lifecycle_emitter h
     then modify (fun w => w <| w_lifecycle := w_lifecycle w ++
            [mandate_used_event (hc_event_source (th_config h)) rc] |>)
     else mret ())
    (fun _ => Carry P (l ++ used_by rc) n) R.
Proof.
  intros w (Hs & Hl & Hn). unfold used_by, Carry. destruct (_ && _); cbn; rewrite Hl; [done|].
  by rewrite app_nil_r.
Qed.

Lemma mandate_step_post authz m id tool effective original t w0 n :
  th_authorizer h = Some authz -> mandate = Some m ->
  triple (Kept w0 n) (mandate_step h authz m tx id tool effective original t)
    (Post w0 n (Authorized w0 n id tool effective original)) (Unspent w0 n).
Proof.
  intros Ea Em. unfold mandate_step. apply triple_assoc.
  eapply triple_bind; [apply authorize_step|]. intros [rc|e].
  - intros w (k & Hk & Hc). assert (n <= k) by lia. clear Hk.
    refine ((_ : triple (Carry _ (w_lifecycle w0) (S k)) _ _ _) w Hc). clear w Hc.
    eapply triple_bind; [apply modest_carry, modest_elapsed|]. intros ms.
    do 4 (eapply triple_bind; [apply modest_carry, modest_update|]; intros []).
    eapply triple_bind; [apply modest_carry, modest_emit|]. intros [].
    eapply triple_bind; [apply used_step|]. intros [].
    eapply triple_bind; [apply modest_carry, modest_new_event|]. intros e w ((Ha & d & Hu & HC) & Hl & Hn).
    split; [exact Hl|]. split; [lia|]. split; [|reflexivity].
    split; [intros _ _; by rewrite Em|]. rewrite Ea, Em. exists rc, (env_clock k).
    split; [reflexivity|]. split; [exists k; split; [lia|reflexivity]|].
    split; [exact Ha|]. exists d. split; [exact Hu|exact HC].
  - destruct (map_authz_error e) as [code reason].
    eapply triple_bind; [apply modest_carry, modest_update|]. intros []. apply deny_exit_post.
Qed.

Lemma authorization_steps_post id tool effective original t w0 n :
  triple (Kept w0 n) (authorization_steps h mandate tx id tool effective original t)
    (Post w0 n (Authorized w0 n id tool effective original)) (Unspent w0 n).
Proof.
  unfold authorization_steps.
  destruct (_ && negb _) eqn:Eg; [apply deny_exit_kept|].
  destruct (th_authorizer h) as [authz|] eqn:Ea, mandate as [m|] eqn:Em; [by apply mandate_step_post|..].
  all: eapply triple_bind; [apply modest_carry, modest_elapsed|]; intros ms;
    do 2 (eapply triple_bind; [apply modest_carry, modest_update|]; intros []);
    eapply triple_bind; [apply modest_carry, modest_emit|]; intros [];
    eapply triple_bind; [apply modest_carry, modest_new_event|]; intros e w (Hs & Hl & Hn);
    (split; [cbn [used_events]; by rewrite app_nil_r|]); (split; [exact Hn|]);
    (split; [|reflexivity]); unfold MandateMet; rewrite Ea, Em;
    (split; [intros Hc Hr; rewrite Hc, Hr in Eg; done|done]).
Qed.

(** *** The obligations *)

(** What later checks read of the metadata. *)
Definition SameContracts (t t' : ToolMatchMetadata) : Prop :=
  tm_obligations t' = tm_obligations t /\
  tm_scope_evaluation_state t' = tm_scope_evaluation_state t /\
  tm_redaction_contract t' = tm_redaction_contract t.

Lemma freshness_step P l n a R :
  triple (Carry P l n) (classify_approval_freshness utc_now a)
    (fun f w => Carry P l n w /\
       (f = AFFresh -> exists issued expires now,
          parse_rfc3339 (aa_issued_at a) = Some issued /\
          parse_rfc3339 (aa_expires_at a) = Some expires /\
          ReadDuring n w now /\ (issued <= now <= expires)%Z)) R.
Proof.
  unfold classify_approval_freshness.
  destruct (parse_rfc3339 (aa_issued_at a)) as [i|]; [|by intros w Hw].
  destruct (parse_rfc3339 (aa_expires_at a)) as [x|]; [|by intros w Hw].
  eapply triple_bind; [apply now_read|]. intros now w [Hw Hr]. split; [exact Hw|].
  destruct (Z.ltb_spec x now); [done|]. destruct (Z.ltb_spec now i); [done|].
  intros _. exists i, x, now. split_and!; [done|done|exact Hr|done|done].
Qed.

Lemma approval_step tool args t P l n R :
  triple (Carry P l n) (validate_approval_required utc_now tool args t)
    (fun r w => Carry P l n w /\ SameContracts t (snd r) /\
       (fst r = None -> ApprovalMet n w tool args t)) R.
Proof.
  unfold validate_approval_required.
  destruct (requires "approval_required" t) eqn:Er; cbn [negb].
  2:{ intros w Hw. split; [exact Hw|]. split; [done|]. intros _ Hq. congruence. }
  destruct (parse_approval_artifact args) as [a|] eqn:Ep.
  2:{ intros w Hw. split; [exact Hw|]. split; [split_and!; reflexivity|]. discriminate. }
  eapply triple_bind; [apply freshness_step|]. intros f w [Hw Hf].
  assert (Hd : forall x t', SameContracts t t' ->
    Carry P l n w /\ SameContracts t (snd (mark_approval_failure x t')) /\
    (fst (mark_approval_failure x t') = None -> ApprovalMet n w tool args t)).
  { intros x t' Ht. split; [exact Hw|]. split; [exact Ht|]. discriminate. }
  destruct f; [|apply Hd; split_and!; reflexivity..].
  destruct (String.eqb_spec (aa_bound_tool a) tool) as [Hb|]; [|apply Hd; split_and!; reflexivity].
  destruct (bool_decide_reflect (requested_resource args = Some (aa_bound_resource a)))
    as [Hr|]; [|apply Hd; split_and!; reflexivity].
  split; [exact Hw|]. split; [split_and!; reflexivity|]. intros _ _.
  destruct (Hf eq_refl) as (i & x & now & ? & ? & ? & ?). exists a, i, x, now. split_and!; try done; lia.
Qed.

Lemma scope_step t : let r := validate_restrict_scope t in
  fst r = None -> SameContracts t (snd r) /\ ScopeMet t.
Proof.
  cbv zeta. unfold validate_restrict_scope, ScopeMet.
  destruct (requires "restrict_scope" t); cbn [negb]; [|done].
  destruct (bool_decide_reflect (tm_scope_evaluation_state t = Some "matched")); [|done].
  intros _. split; [split_and!; reflexivity|done].
Qed.

Lemma redact_step args t : let r := validate_redact_args args t in
  fst (fst r) = None -> Forwarded args t (snd (fst r)).
Proof.
  cbv zeta. unfold validate_redact_args, Forwarded.
  destruct (requires "redact_args" t); cbn [negb]; [|done].
  destruct (tm_redaction_contract t) as [c|]; [|done].
  destruct (apply_redact_args_runtime args c) as [args'|f] eqn:E; [|intros Hc; discriminate Hc].
  intros _. by exists c.
Qed.

(** The allowance of a whole call. *)
Definition Allowed (s : St) (n : nat) (id tool : string) (args : Value) (t : ToolMatchMetadata)
    (receipt : option AuthzReceipt) (eff : option Value) (w : W) : Prop :=
  ApprovalMet n w tool args t /\ ScopeMet t /\
  (exists effective, Forwarded args t effective /\ eff = changed_arguments effective args) /\
  (wf_value args -> requires "redact_args" t = false -> eff = None) /\
  MandateMet n s id tool receipt w.

Lemma unchanged_arguments args t effective :
  wf_value args -> requires "redact_args" t = false -> Forwarded args t effective ->
  changed_arguments effective args = None.
Proof.
  unfold Forwarded, changed_arguments. intros Hwf -> ->. by rewrite (value_eqb_refl args Hwf).
Qed.

Lemma same_contracts_requires t t' ty : SameContracts t t' -> requires ty t' = requires ty t.
Proof. intros (Ho & _ & _). unfold requires. by rewrite Ho. Qed.

Lemma mandate_met_weaken n n' s id tool receipt w :
  n' <= n -> MandateMet n s id tool receipt w -> MandateMet n' s id tool receipt w.
Proof.
  intros Hn [Hc Hm]. split; [exact Hc|]. destruct (th_authorizer h), mandate; try done.
  destruct Hm as (rc & now & Hr & Hnow & Hrest). exists rc, now. split; [done|].
  split; [|done]. by eapply read_during_weaken.
Qed.

Lemma approval_met_weaken n w w' tool args t :
  w_tick w <= w_tick w' -> ApprovalMet n w tool args t -> ApprovalMet n w' tool args t.
Proof.
  intros Hw Ha Hr. destruct (Ha Hr) as (a & i & x & now & ? & ? & ? & ? & ?).
  exists a, i, x, now. split_and!; try done; try naive_solver. by eapply read_during_weaken.
Qed.

Lemma enforcement_steps_post id tool args t w0 n :
  triple (Kept w0 n) (enforcement_steps h mandate tx id tool args t)
    (Post w0 n (Allowed (w_store w0) n id tool args t)) (Unspent w0 n).
Proof.
  unfold enforcement_steps. eapply triple_bind; [apply approval_step|].
  intros [[f|] t1] w (Hw & Hc1 & Ha); [by apply deny_exit_kept|]. cbn [fst snd] in Hc1, Ha.
  specialize (Ha eq_refl). pose proof (scope_step t1) as Hsc.
  destruct (validate_restrict_scope t1) as [[f|] t2]; [by apply deny_exit_kept|].
  destruct (Hsc eq_refl) as [Hc2 Hm]. cbn [fst snd] in Hc2. pose proof (redact_step args t2) as Hf.
  destruct (validate_redact_args args t2) as [[[f|] eff] t3]; [by apply deny_exit_kept|].
  specialize (Hf eq_refl). cbn [fst snd] in Hf.
  assert (Hw' : Kept w0 (w_tick w) w) by (destruct Hw as (? & ? & ?); split_and!; [done|done|lia]).
  pose proof (authorization_steps_post id tool eff args t3 w0 (w_tick w) w Hw') as Hp.
  assert (Hn : n <= w_tick w) by apply Hw.
  destruct (authorization_steps _ _ _ _ _ _ _ _ w) as [[r|] w'].
  2:{ destruct Hp as (? & ? & ?). split_and!; [done|done|lia]. }
  destruct Hp as (Hl & Hn' & Hq). split; [exact Hl|]. split; [lia|].
  destruct r as [receipt e ev| |]; [|done..]. destruct Hq as [Hmm He].
  split; [by eapply approval_met_weaken|]. split.
  { intros Hr. rewrite <- (same_contracts_requires _ _ _ Hc1) in Hr. specialize (Hm Hr).
    destruct Hc1 as (_ & Hs1 & _). congruence. }
  assert (Hfw : Forwarded args t eff).
  { unfold Forwarded in *.
    rewrite (same_contracts_requires _ _ _ Hc2), (same_contracts_requires _ _ _ Hc1) in Hf.
    destruct Hc2 as (_ & _ & E2), Hc1 as (_ & _ & E1). by rewrite E2, E1 in Hf. }
  split; [by exists eff|]. split; [|by eapply mandate_met_weaken].
  intros Hwf Hr. rewrite He. by apply unchanged_arguments with (t := t).
Qed.

(** *** The whole call *)

(** The call was allowed by the policy in the counters' state [ps], and passed
    everything after it. *)
Definition CallAllowed (ri : option ToolIdentity) (binding : option ToolDefinitionBinding)
    (ps : PolicyState) (s : St) (n : nat) (id : string) (params : CallToolParams)
    (receipt : option AuthzReceipt) (eff : option Value) (w : W) : Prop :=
  exists pe ps', evaluate_with_metadata (th_policy h) (ctp_name params) (ctp_arguments params) ri ps
      = (Done pe, ps') /\
    decision_allows (pe_decision pe) = true /\
    Allowed s n id (ctp_name params) (ctp_arguments params)
      (seed_tool_match h (ctp_name params) binding (pe_metadata pe)) receipt eff w.

Lemma post_weaken w0 n (Q Q' : option AuthzReceipt -> option Value -> W -> Prop) r w :
  (forall receipt eff, Q receipt eff w -> Q' receipt eff w) -> Post w0 n Q r w -> Post w0 n Q' r w.
Proof.
  intros HQ (Hl & Hn & Hr). split; [exact Hl|]. split; [exact Hn|].
  destruct r; [by apply HQ|exact Hr..].
Qed.

Lemma policy_step {A} (m : M PolicyState A) ps w0 n :
  triple (fun w => Kept w0 n w /\ w_policy_state w = ps)
    (zoom w_policy_state (fun s w => w <| w_policy_state := s |>) m)
    (fun a w => Kept w0 n w /\ exists ps', m ps = (Done a, ps')) (Unspent w0 n).
Proof.
  intros w (Hk & Hp). unfold zoom. rewrite Hp. destruct (m ps) as [[a|] ps'].
  - split; [exact Hk|]. by exists ps'.
  - apply kept_unspent in Hk. exact Hk.
Qed.

Lemma guarded_call_post request ri binding params id ps w0 n :
  triple (fun w => Kept w0 n w /\ w_policy_state w = ps)
    (guarded_call h request ri binding mandate tx params id)
    (Post w0 n (CallAllowed ri binding ps (w_store w0) n id params)) (Unspent w0 n).
Proof.
  unfold guarded_call.
  eapply triple_bind; [instantiate (1 := fun _ w => Kept w0 n w /\ w_policy_state w = ps);
    intros w [Hk Hp]; split; [exact Hk|exact Hp]|]. intros [].
  eapply triple_bind; [apply policy_step|]. intros pe w (Hk & ps' & Ee). revert w Hk.
  change (triple (Kept w0 n) (guard_set_tool_match (seed_tool_match h (ctp_name params) binding
      (pe_metadata pe));;
    guard_set_policy_context (policy_context (seed_tool_match h (ctp_name params) binding
      (pe_metadata pe)));;
    match pe_decision pe with
    | PDeny _ code reason _ =>
        deny_exit (th_config h) id (ctp_name params) (map_policy_code_to_reason code) reason
          (seed_tool_match h (ctp_name params) binding (pe_metadata pe))
    | _ => enforcement_steps h mandate tx id (ctp_name params) (ctp_arguments params)
             (seed_tool_match h (ctp_name params) binding (pe_metadata pe))
    end) (Post w0 n (CallAllowed ri binding ps (w_store w0) n id params)) (Unspent w0 n)).
  do 2 (eapply triple_bind; [apply modest_carry, modest_update|]; intros []).
  assert (Hen : decision_allows (pe_decision pe) = true ->
    triple (Kept w0 n) (enforcement_steps h mandate tx id (ctp_name params) (ctp_arguments params)
             (seed_tool_match h (ctp_name params) binding (pe_metadata pe)))
      (Post w0 n (CallAllowed ri binding ps (w_store w0) n id params)) (Unspent w0 n)).
  { intros Hd. eapply triple_conseq; [apply enforcement_steps_post|done| |done].
    intros r w. apply post_weaken. intros receipt eff Ha. by exists pe, ps'. }
  destruct (pe_decision pe); [by apply Hen|by apply Hen|apply deny_exit_kept].
Qed.

(** Allowances look at the store and the tick only. *)
Lemma call_allowed_ext ri binding ps s n id params receipt eff w w' :
  w_store w' = w_store w -> w_tick w' = w_tick w ->
  CallAllowed ri binding ps s n id params receipt eff w ->
  CallAllowed ri binding ps s n id params receipt eff w'.
Proof.
  intros Hs Ht (pe & ps' & Ee & Hd & Ha & Hsc & Hf & Hu & Hc & Hm). exists pe, ps'.
  split; [done|]. split; [done|]. split; [apply (approval_met_weaken n w); [lia|done]|].
  split; [done|]. split; [done|]. split; [done|]. split; [done|]. rewrite Hs.
  destruct (th_authorizer h), mandate; try done.
  destruct Hm as (rc & now & Hr & Hnow & Hrest). exists rc, now. split; [done|].
  split; [|done]. apply (read_during_weaken n n w); [lia|lia|done].
Qed.

Lemma drop_keeps (w : W) : let w' := snd (guard_drop w) in
  w_store w' = w_store w /\ w_lifecycle w' = w_lifecycle w /\ w_tick w' = w_tick w.
Proof. unfold guard_drop, guard_take_and_emit, modify. cbn [snd]. by destruct (w_guard w). Qed.

Lemma drop_at_end_post {A} (body : M W A) P (Q : A -> W -> Prop) w0 n :
  triple P body Q (Unspent w0 n) ->
  (forall a w w', w_store w' = w_store w -> w_lifecycle w' = w_lifecycle w ->
     w_tick w' = w_tick w -> Q a w -> Q a w') ->
  triple P (drop_at_end body) Q (Unspent w0 n).
Proof.
  intros Hb HQ w Hw. specialize (Hb w Hw). unfold drop_at_end.
  destruct (body w) as [[a|] w']; destruct (drop_keeps w') as (Hs & Hl & Ht).
  - by eapply HQ.
  - destruct env_panic; [|done]. unfold Carry. rewrite Hs, Hl, Ht. exact Hb.
Qed.

(** What a call may be allowed for. *)
Definition RequestAllowed (request : JsonRpcRequest) (ri : option ToolIdentity)
    (binding : option ToolDefinitionBinding) (w0 : W)
    (receipt : option AuthzReceipt) (eff : option Value) (w : W) : Prop :=
  exists params id, tool_params request = Some params /\
    (forall i, declared_tool_call_id request = Some i -> id = i) /\
    CallAllowed ri binding (w_policy_state w0) (w_store w0) (w_tick w0) id params receipt eff w.

(** The state between the id's extraction and the policy's evaluation. *)
Abbreviation fresh w := (fun w' : W => Kept w (w_tick w) w' /\ w_policy_state w' = w_policy_state w).

Lemma call_id_step request (w : W) R :
  triple (eq w) (extract_tool_call_id new_uuid request)
    (fun id w' => fresh w w' /\ forall i, declared_tool_call_id request = Some i -> id = i) R.
Proof.
  intros ? <-. unfold extract_tool_call_id. destruct (declared_tool_call_id request) as [i|].
  - split; [split; [split_and!; [done|done|lia]|done]|]. by intros ? [= ->].
  - split; [split; [split_and!; [done|done|cbn; lia]|done]|done].
Qed.

Lemma fresh_with_guard {A} source id tool (body : M W A) (w : W) Q R :
  triple (fresh w) (drop_at_end body) Q R -> triple (fresh w) (with_guard source id tool body) Q R.
Proof.
  intros Hb w1 ((Hs & Hl & Hn) & Hp). apply Hb.
  split; [split_and!; [exact Hs|exact Hl|cbn; lia]|exact Hp].
Qed.

Lemma handle_tool_call_post request ri binding (w : W) :
  triple (eq w) (handle_tool_call h request ri binding mandate tx)
    (Post w (w_tick w) (RequestAllowed request ri binding w)) (Unspent w (w_tick w)).
Proof.
  unfold handle_tool_call. eapply triple_bind; [apply call_id_step|]. intros id w1 [Hf Hi].
  revert w1 Hf. destruct (tool_params request) as [params|] eqn:Ep.
  - apply fresh_with_guard, drop_at_end_post.
    + eapply triple_conseq; [exact (guarded_call_post request ri binding params id
        (w_policy_state w) w (w_tick w))|intros ? Hx; exact Hx| |intros ? Hx; exact Hx].
      intros r w'. apply post_weaken. intros receipt eff Ha. exists params, id.
      split; [exact Ep|]. split; [exact Hi|exact Ha].
    + intros r w2 w3 Hs Hl Ht (Hl2 & Hn & Hr). split; [congruence|]. split; [lia|].
      destruct r as [rc e ev| |]; [|by rewrite Hs..].
      destruct Hr as (p & i & ? & ? & ?). exists p, i. split; [done|]. split; [done|].
      by eapply call_allowed_ext.
  - intros w1 ((Hs & Hl & Hn) & _). split; [cbn; by rewrite app_nil_r|]. split; [cbn; lia|].
    cbn. rewrite <- Hs. done.
Qed.

(** ** Properties *)

(** C2: a call is allowed only if it is a tool call the policy allows in the
    current counters' state, and every obligation the policy attaches is met: a
    required approval is in the arguments, valid at a clock reading of this
    call and bound to this tool and resource; a required scope restriction
    matched; the arguments forwarded are exactly those the redaction contract
    prescribes (without one they are forwarded unchanged); a commit tool that needs a mandate has
    one; and where an authorizer is configured and a mandate given, the receipt
    returned is that of a mandate accepted at a clock reading of this call and
    consumed by it. *)
Theorem handle_tool_call_allow_sound request ri binding (w w' : W) receipt eff ev :
  handle_tool_call h request ri binding mandate tx w = (Done (HAllow receipt eff ev), w') ->
  RequestAllowed request ri binding w receipt eff w'.
Proof.
  intros E. pose proof (handle_tool_call_post request ri binding w w eq_refl) as Hp. rewrite E in Hp.
  by destruct Hp as (_ & _ & Ha).
Qed.

(** A call that is not allowed, or that panics, spends no mandate: the
    recorded uses and nonces of the store are those of before. *)
Theorem handle_tool_call_refusal_spends_nothing request ri binding (w w' : W) o :
  handle_tool_call h request ri binding mandate tx w = (o, w') ->
  (forall receipt eff ev, o <> Done (HAllow receipt eff ev)) ->
  SpentSame (w_store w) (w_store w').
Proof.
  intros E Ho. pose proof (handle_tool_call_post request ri binding w w eq_refl) as Hp. rewrite E in Hp.
  destruct o as [[receipt eff ev| |]|]; [by destruct (Ho receipt eff ev)|..];
    apply Hp.
Qed.

(** A [mandate.used] lifecycle event is emitted exactly when a call is
    allowed on a mandate it consumed for the first time and an emitter is
    configured, and it is built from the receipt returned; retries, denials,
    errors and panics emit none. *)
Theorem handle_tool_call_lifecycle request ri binding (w : W) :
  let '(o, w') := handle_tool_call h request ri binding mandate tx w in
  w_lifecycle w' = w_lifecycle w ++ match o with Done r => used_events r | Panicked => [] end.
Proof.
  pose proof (handle_tool_call_post request ri binding w w eq_refl) as Hp.
  destruct (handle_tool_call _ _ _ _ _ _ w) as [[r|] w'].
  - apply Hp.
  - rewrite app_nil_r. apply Hp.
Qed.

End Soundness.
