(* ===== verification/KernelTiers.v ===== *)
(** * Policy tiers

    [crates/assay-policy/src/tiers_next]: the compiler that splits a sandbox
    policy into rules the kernel enforces (tier 1) and rules user space checks
    (tier 2), the map entries it generates for the kernel, and the separate
    Landlock target.  A loop over a rule list is a [foldl] whose accumulator is
    what the loop mutates: the two tiers, the statistics and the next rule id,
    a [u32]. *)
From stdpp Require Import base tactics list strings sorting.
From Stdlib Require Import ZArith Lia Ascii.
From S2P Require Import Prelude RustStr.

(** ** Policies *)

Record FilePolicy : Type := mkFilePolicy {
  fp_deny : list string;
  fp_allow : list string
}.

Record NetworkPolicy : Type := mkNetworkPolicy {
  allow_cidrs : list string;
  deny_cidrs : list string;
  allow_ports : list Z;
  deny_ports : list Z;
  deny_destinations : list string
}.

Record ProcessPolicy : Type := mkProcessPolicy {
  deny_executables : list string;
  allow_executables : list string
}.

Record Policy : Type := mkPolicy {
  files : FilePolicy;
  network : NetworkPolicy;
  processes : ProcessPolicy
}.

(** ** Compiled rules *)

(** [ipnet::IpNet]: the address as octets, not masked, and the prefix length. *)
Inductive IpNet : Type :=
| V4 (addr : list Z) (prefix_len : Z)
| V6 (addr : list Z) (prefix_len : Z).

Record PathRule : Type := mkPathRule {
  pr_rule_id : Z; pr_path : string; pr_hash : Z
}.
Record CidrRule : Type := mkCidrRule {
  cr_rule_id : Z; cr_cidr : string; cr_parsed : IpNet
}.
Record PortRule : Type := mkPortRule { po_rule_id : Z; po_port : Z }.
Record InodeRule : Type := mkInodeRule {
  ir_rule_id : Z; ir_dev : Z; ir_ino : Z; ir_gen : Z
}.
Record GlobRule : Type := mkGlobRule {
  gr_rule_id : Z; gr_pattern : string; gr_original : string
}.
Record DestRule : Type := mkDestRule { de_rule_id : Z; de_pattern : string }.

Record Tier1Rules : Type := mkTier1Rules {
  file_deny_exact : list PathRule;
  file_deny_prefix : list PathRule;
  network_allow_cidrs : list CidrRule;
  network_deny_cidrs : list CidrRule;
  network_deny_ports : list PortRule;
  network_allow_ports : list Z;
  inode_deny_exact : list InodeRule
}.
#[global] Instance Tier1Rules_eta : Eta Tier1Rules := fun r =>
  mkTier1Rules (file_deny_exact r) (file_deny_prefix r) (network_allow_cidrs r)
    (network_deny_cidrs r) (network_deny_ports r) (network_allow_ports r)
    (inode_deny_exact r).

Record Tier2Rules : Type := mkTier2Rules {
  file_deny_globs : list GlobRule;
  file_allow_globs : list GlobRule;
  network_deny_destinations : list DestRule;
  process_deny_globs : list GlobRule
}.
#[global] Instance Tier2Rules_eta : Eta Tier2Rules := fun r =>
  mkTier2Rules (file_deny_globs r) (file_allow_globs r)
    (network_deny_destinations r) (process_deny_globs r).

Record CompilationStats : Type := mkStats {
  total_rules : Z;
  tier1_rules : Z;
  tier2_rules : Z;
  warnings : list string
}.
#[global] Instance CompilationStats_eta : Eta CompilationStats := fun r =>
  mkStats (total_rules r) (tier1_rules r) (tier2_rules r) (warnings r).

Record CompiledPolicy : Type := mkCompiled {
  tier1 : Tier1Rules;
  tier2 : Tier2Rules;
  stats : CompilationStats
}.

(** ** Classification of path patterns *)

Inductive PathClass : Type :=
| Exact
| Prefix (prefix : string)
| Glob.

Fixpoint count_char (c : ascii) (s : string) : nat :=
  match s with
  | EmptyString => 0
  | String a r => (if Ascii.eqb a c then 1 else 0) + count_char c r
  end.

Definition classify_path_pattern (pattern : string) : PathClass :=
  let has_double_star := str_contains pattern "**" in
  let has_single_star := contains_char pattern "*" in
  let has_question := contains_char pattern "?" in
  let has_bracket := contains_char pattern "[" in
  if negb has_single_star && negb has_question && negb has_bracket then Exact
  else if has_double_star || has_question || has_bracket then Glob
  else if ends_with pattern "/*" && Nat.eqb (count_char "*" pattern) 1
  then Prefix (str_take (String.length pattern - 1) pattern)
  else Glob.

(** FNV-1a over the bytes of a string, on [u64]. *)
Definition FNV_OFFSET : Z := 0xcbf29ce484222325.
Definition FNV_PRIME : Z := 0x0100000001b3.

Definition fnv_step (hash : Z) (byte : Z) : Z :=
  (Z.lxor hash byte * FNV_PRIME) mod 2 ^ 64.

Fixpoint fnv_loop (hash : Z) (data : string) : Z :=
  match data with
  | EmptyString => hash
  | String a r => fnv_loop (fnv_step hash (Z.of_N (byte_of a))) r
  end.

Definition fnv1a_hash (data : string) : Z := fnv_loop FNV_OFFSET data.

(** ** The compiler *)

(** What the loops mutate. *)
Record Compiling : Type := mkCompiling {
  c_tier1 : Tier1Rules;
  c_tier2 : Tier2Rules;
  c_stats : CompilationStats;
  c_rule_id : Z
}.
#[global] Instance Compiling_eta : Eta Compiling := fun r =>
  mkCompiling (c_tier1 r) (c_tier2 r) (c_stats r) (c_rule_id r).

(** [*rule_id += 1] on a [u32]; the [usize] counters of the statistics wrap at
    64 bits. *)
Definition u32_succ (n : Z) : Z := as_u32 (n + 1).
Definition next_rule (c : Compiling) : Compiling :=
  c <| c_rule_id := u32_succ (c_rule_id c) |>.
Definition count_total (c : Compiling) : Compiling :=
  c <| c_stats := (c_stats c) <| total_rules := u64_succ (total_rules (c_stats c)) |> |>.
Definition count_tier1 (c : Compiling) : Compiling :=
  c <| c_stats := (c_stats c) <| tier1_rules := u64_succ (tier1_rules (c_stats c)) |> |>.
Definition count_tier2 (c : Compiling) : Compiling :=
  c <| c_stats := (c_stats c) <| tier2_rules := u64_succ (tier2_rules (c_stats c)) |> |>.

Definition file_deny_rule (c : Compiling) (pattern : string) : Compiling :=
  let c := count_total c in
  let c :=
    match classify_path_pattern pattern with
    | Exact =>
        let r := mkPathRule (c_rule_id c) pattern (fnv1a_hash pattern) in
        count_tier1 (c <| c_tier1 := (c_tier1 c)
          <| file_deny_exact := file_deny_exact (c_tier1 c) ++ [r] |> |>)
    | Prefix prefix =>
        let r := mkPathRule (c_rule_id c) prefix (fnv1a_hash prefix) in
        count_tier1 (c <| c_tier1 := (c_tier1 c)
          <| file_deny_prefix := file_deny_prefix (c_tier1 c) ++ [r] |> |>)
    | Glob =>
        let r := mkGlobRule (c_rule_id c) pattern pattern in
        count_tier2 (c <| c_tier2 := (c_tier2 c)
          <| file_deny_globs := file_deny_globs (c_tier2 c) ++ [r] |> |>)
    end in
  next_rule c.

Definition file_allow_rule (c : Compiling) (pattern : string) : Compiling :=
  let c := count_total c in
  let r := mkGlobRule (c_rule_id c) pattern pattern in
  next_rule (count_tier2 (c <| c_tier2 := (c_tier2 c)
    <| file_allow_globs := file_allow_globs (c_tier2 c) ++ [r] |> |>)).

Definition compile_file_rules (policy : FilePolicy) (c : Compiling) : Compiling :=
  foldl file_allow_rule (foldl file_deny_rule c (fp_deny policy)) (fp_allow policy).

(** [str::parse::<IpNet>] of the [ipnet] crate, with the text of its error. *)
Class IpNetParser : Type := parse_ipnet : string -> Result IpNet string.

Section Compiler.
  Context {ipnet : IpNetParser}.

Definition cidr_warning (c : Compiling) (cidr_str e : string) : Compiling :=
  c <| c_stats := (c_stats c) <| warnings :=
    warnings (c_stats c) ++ ["Invalid CIDR '" +:+ cidr_str +:+ "': " +:+ e] |> |>.

Definition allow_cidr_rule (c : Compiling) (cidr_str : string) : Compiling :=
  let c := count_total c in
  next_rule
    match parse_ipnet cidr_str with
    | Ok cidr =>
        let r := mkCidrRule (c_rule_id c) cidr_str cidr in
        count_tier1 (c <| c_tier1 := (c_tier1 c)
          <| network_allow_cidrs := network_allow_cidrs (c_tier1 c) ++ [r] |> |>)
    | Err e => cidr_warning c cidr_str e
    end.

Definition deny_cidr_rule (c : Compiling) (cidr_str : string) : Compiling :=
  let c := count_total c in
  next_rule
    match parse_ipnet cidr_str with
    | Ok cidr =>
        let r := mkCidrRule (c_rule_id c) cidr_str cidr in
        count_tier1 (c <| c_tier1 := (c_tier1 c)
          <| network_deny_cidrs := network_deny_cidrs (c_tier1 c) ++ [r] |> |>)
    | Err e => cidr_warning c cidr_str e
    end.

Definition deny_port_rule (c : Compiling) (port : Z) : Compiling :=
  let c := count_total c in
  let r := mkPortRule (c_rule_id c) port in
  next_rule (count_tier1 (c <| c_tier1 := (c_tier1 c)
    <| network_deny_ports := network_deny_ports (c_tier1 c) ++ [r] |> |>)).

Definition deny_destination_rule (c : Compiling) (dest : string) : Compiling :=
  let c := count_total c in
  let r := mkDestRule (c_rule_id c) dest in
  next_rule (count_tier2 (c <| c_tier2 := (c_tier2 c)
    <| network_deny_destinations := network_deny_destinations (c_tier2 c) ++ [r] |> |>)).

Definition compile_network_rules (policy : NetworkPolicy) (c : Compiling) : Compiling :=
  let c := foldl allow_cidr_rule c (allow_cidrs policy) in
  let c := foldl deny_cidr_rule c (deny_cidrs policy) in
  let c := foldl deny_port_rule c (deny_ports policy) in
  let c := c <| c_tier1 := (c_tier1 c) <| network_allow_ports := allow_ports policy |> |> in
  foldl deny_destination_rule c (deny_destinations policy).

Definition deny_executable_rule (c : Compiling) (pattern : string) : Compiling :=
  let c := count_total c in
  let r := mkGlobRule (c_rule_id c) pattern pattern in
  next_rule (count_tier2 (c <| c_tier2 := (c_tier2 c)
    <| process_deny_globs := process_deny_globs (c_tier2 c) ++ [r] |> |>)).

Definition compile_process_rules (policy : ProcessPolicy) (c : Compiling) : Compiling :=
  foldl deny_executable_rule c (deny_executables policy).

Definition tier1_default : Tier1Rules := mkTier1Rules [] [] [] [] [] [] [].
Definition tier2_default : Tier2Rules := mkTier2Rules [] [] [] [].
Definition stats_default : CompilationStats := mkStats 0 0 0 [].

Definition compile (policy : Policy) : CompiledPolicy :=
  let c := mkCompiling tier1_default tier2_default stats_default 1 in
  let c := compile_file_rules (files policy) c in
  let c := compile_network_rules (network policy) c in
  let c := compile_process_rules (processes policy) c in
  mkCompiled (c_tier1 c) (c_tier2 c) (c_stats c).
End Compiler.

(** ** Kernel map entries *)

Definition ACTION_ALLOW : Z := 1.
Definition ACTION_DENY : Z := 2.

Record CidrMapEntry : Type := mkCidrMapEntry {
  ce_prefix_len : Z;
  ce_addr : list Z;
  ce_action : Z;
  ce_rule_id : Z
}.

Definition file_exact_entries (t : Tier1Rules) : list (Z * Z) :=
  map (fun r => (pr_hash r, pr_rule_id r)) (file_deny_exact t).

(** [u32::try_from(r.path.len()).unwrap_or(0)]. *)
Definition path_len_u32 (s : string) : Z :=
  if (str_len s <=? u32_max)%Z then str_len s else 0.

Definition file_prefix_entries (t : Tier1Rules) : list (Z * (Z * Z)) :=
  map (fun r => (pr_hash r, (path_len_u32 (pr_path r), pr_rule_id r)))
    (file_deny_prefix t).

Definition cidr_v4_entry (action : Z) (rule : CidrRule) : option CidrMapEntry :=
  match cr_parsed rule with
  | V4 addr prefix_len => Some (mkCidrMapEntry prefix_len addr action (cr_rule_id rule))
  | V6 _ _ => None
  end.

Definition cidr_v4_entries (t : Tier1Rules) : list CidrMapEntry :=
  omap (cidr_v4_entry ACTION_ALLOW) (network_allow_cidrs t) ++
  omap (cidr_v4_entry ACTION_DENY) (network_deny_cidrs t).

Definition port_deny_entries (t : Tier1Rules) : list (Z * Z) :=
  map (fun r => (po_port r, po_rule_id r)) (network_deny_ports t).

Definition inode_exact_entries (t : Tier1Rules) : list (string * InodeRule) :=
  map (fun r => (fmt_int (ir_dev r) +:+ ":" +:+ fmt_int (ir_ino r), r))
    (inode_deny_exact t).

(** ** The Landlock target *)

Inductive LandlockRejectReason : Type :=
| RCidr | RNegativeDeny | RDestination | RPortZero.

Definition reason_as_str (r : LandlockRejectReason) : string :=
  match r with
  | RCidr => "cidr_not_expressible"
  | RNegativeDeny => "negative_deny_not_expressible"
  | RDestination => "destination_not_expressible"
  | RPortZero => "port_zero_not_allowed"
  end.

Record LandlockRejection : Type := mkRejection {
  lr_reason : LandlockRejectReason;
  lr_detail : string
}.

Record LandlockNetTarget : Type := mkTarget { allowed_connect_tcp_ports : list Z }.

(** [Vec::dedup]: consecutive repeats are removed. *)
Fixpoint dedup (l : list Z) : list Z :=
  match l with
  | [] => []
  | x :: r =>
      match dedup r with
      | y :: s => if Z.eqb x y then y :: s else x :: y :: s
      | [] => [x]
      end
  end.

Definition landlock_rejections (network : NetworkPolicy) : list LandlockRejection :=
  (if negb (is_nil (allow_cidrs network)) || negb (is_nil (deny_cidrs network))
   then [mkRejection RCidr
           "Landlock network rules are TCP ports, not IP/CIDR addresses"] else []) ++
  (if negb (is_nil (deny_ports network))
   then [mkRejection RNegativeDeny
           "Landlock is allowlist-only; port-deny rules cannot be expressed"] else []) ++
  (if negb (is_nil (deny_destinations network))
   then [mkRejection RDestination
           "Landlock has no endpoint identity; host/wildcard destinations cannot be expressed"]
   else []) ++
  (if existsb (Z.eqb 0) (allow_ports network)
   then [mkRejection RPortZero
           "port 0 maps to the kernel-assigned ephemeral range and would widen the allowlist"]
   else []).

Definition compile_landlock_net (network : NetworkPolicy)
  : Result LandlockNetTarget (list LandlockRejection) :=
  let rejections := landlock_rejections network in
  if negb (is_nil rejections) then Err rejections
  else Ok (mkTarget (dedup (merge_sort Z.le (allow_ports network)))).

(** ** What a compilation is

    The rules of a policy in the order the compiler meets them, each compiled
    on its own under its position, then sorted into the lists of the two tiers.
    [compile] is shown to be this. *)

Inductive Input : Type :=
| IFileDeny (pattern : string)
| IFileAllow (pattern : string)
| IAllowCidr (cidr : string)
| IDenyCidr (cidr : string)
| IDenyPort (port : Z)
| IDenyDestination (dest : string)
| IDenyExecutable (pattern : string).

Definition inputs (p : Policy) : list Input :=
  map IFileDeny (fp_deny (files p)) ++ map IFileAllow (fp_allow (files p)) ++
  map IAllowCidr (allow_cidrs (network p)) ++ map IDenyCidr (deny_cidrs (network p)) ++
  map IDenyPort (deny_ports (network p)) ++
  map IDenyDestination (deny_destinations (network p)) ++
  map IDenyExecutable (deny_executables (processes p)).

Inductive CompiledRule : Type :=
| EExact (r : PathRule)
| EPrefix (r : PathRule)
| EDenyGlob (r : GlobRule)
| EAllowGlob (r : GlobRule)
| EAllowCidr (r : CidrRule)
| EDenyCidr (r : CidrRule)
| EDenyPort (r : PortRule)
| EDest (r : DestRule)
| EProcess (r : GlobRule)
| EWarning (w : string).

Section Reference.
  Context {ipnet : IpNetParser}.

Definition emit_cidr (mk : CidrRule -> CompiledRule) (id : Z) (s : string) : CompiledRule :=
  match parse_ipnet s with
  | Ok cidr => mk (mkCidrRule id s cidr)
  | Err e => EWarning ("Invalid CIDR '" +:+ s +:+ "': " +:+ e)
  end.

(** One rule, under the id [id]. *)
Definition emit (id : Z) (i : Input) : CompiledRule :=
  match i with
  | IFileDeny pattern =>
      match classify_path_pattern pattern with
      | Exact => EExact (mkPathRule id pattern (fnv1a_hash pattern))
      | Prefix prefix => EPrefix (mkPathRule id prefix (fnv1a_hash prefix))
      | Glob => EDenyGlob (mkGlobRule id pattern pattern)
      end
  | IFileAllow pattern => EAllowGlob (mkGlobRule id pattern pattern)
  | IAllowCidr s => emit_cidr EAllowCidr id s
  | IDenyCidr s => emit_cidr EDenyCidr id s
  | IDenyPort port => EDenyPort (mkPortRule id port)
  | IDenyDestination d => EDest (mkDestRule id d)
  | IDenyExecutable pattern => EProcess (mkGlobRule id pattern pattern)
  end.

(** The n-th rule, from 0, has the id [n + 1] modulo 2^32. *)
Definition compiled_rules (ins : list Input) : list CompiledRule :=
  imap (fun n i => emit (as_u32 (Z.of_nat n + 1)) i) ins.

Definition in_tier1 (e : CompiledRule) : bool :=
  match e with
  | EExact _ | EPrefix _ | EAllowCidr _ | EDenyCidr _ | EDenyPort _ => true
  | _ => false
  end.
Definition in_tier2 (e : CompiledRule) : bool :=
  match e with
  | EDenyGlob _ | EAllowGlob _ | EDest _ | EProcess _ => true
  | _ => false
  end.
Definition is_warning (e : CompiledRule) : bool :=
  match e with EWarning _ => true | _ => false end.

Definition count_if (f : CompiledRule -> bool) (es : list CompiledRule) : Z :=
  Z.of_nat (length (List.filter f es)).

Definition sorted_tier1 (ports : list Z) (es : list CompiledRule) : Tier1Rules :=
  mkTier1Rules
    (omap (fun e => match e with EExact r => Some r | _ => None end) es)
    (omap (fun e => match e with EPrefix r => Some r | _ => None end) es)
    (omap (fun e => match e with EAllowCidr r => Some r | _ => None end) es)
    (omap (fun e => match e with EDenyCidr r => Some r | _ => None end) es)
    (omap (fun e => match e with EDenyPort r => Some r | _ => None end) es)
    ports [].
Definition sorted_tier2 (es : list CompiledRule) : Tier2Rules :=
  mkTier2Rules
    (omap (fun e => match e with EDenyGlob r => Some r | _ => None end) es)
    (omap (fun e => match e with EAllowGlob r => Some r | _ => None end) es)
    (omap (fun e => match e with EDest r => Some r | _ => None end) es)
    (omap (fun e => match e with EProcess r => Some r | _ => None end) es).
Definition sorted_stats (es : list CompiledRule) : CompilationStats :=
  mkStats (Z.of_nat (length es) mod 2 ^ 64) (count_if in_tier1 es mod 2 ^ 64)
    (count_if in_tier2 es mod 2 ^ 64)
    (omap (fun e => match e with EWarning w => Some w | _ => None end) es).

Definition sorted_policy (ports : list Z) (es : list CompiledRule) : CompiledPolicy :=
  mkCompiled (sorted_tier1 ports es) (sorted_tier2 es) (sorted_stats es).

(** The state of the compiler after the rules [es]. *)
Definition compiling (ports : list Z) (es : list CompiledRule) : Compiling :=
  mkCompiling (sorted_tier1 ports es) (sorted_tier2 es) (sorted_stats es)
    (as_u32 (Z.of_nat (length es) + 1)).

Lemma count_if_snoc f es e :
  count_if f (es ++ [e]) = (count_if f es + (if f e then 1 else 0))%Z.
Proof.
  unfold count_if. rewrite List.filter_app, length_app, Nat2Z.inj_add. simpl.
  by destruct (f e).
Qed.

Lemma u32_succ_as n : u32_succ (as_u32 n) = as_u32 (n + 1).
Proof. unfold u32_succ, as_u32. by rewrite Z.add_mod_idemp_l. Qed.

Lemma u64_succ_mod n : u64_succ (n mod 2 ^ 64) = ((n + 1) mod 2 ^ 64)%Z.
Proof. unfold u64_succ. by rewrite Z.add_mod_idemp_l. Qed.

Lemma compiled_rule_snoc ins i :
  compiled_rules (ins ++ [i]) = compiled_rules ins ++ [emit (as_u32 (Z.of_nat (length ins) + 1)) i].
Proof. unfold compiled_rules. rewrite imap_app. simpl. by rewrite Nat.add_0_r. Qed.

Lemma length_compiled_rules ins : length (compiled_rules ins) = length ins.
Proof. apply length_imap. Qed.

Definition compile_step (c : Compiling) (i : Input) : Compiling :=
  match i with
  | IFileDeny s => file_deny_rule c s
  | IFileAllow s => file_allow_rule c s
  | IAllowCidr s => allow_cidr_rule c s
  | IDenyCidr s => deny_cidr_rule c s
  | IDenyPort n => deny_port_rule c n
  | IDenyDestination s => deny_destination_rule c s
  | IDenyExecutable s => deny_executable_rule c s
  end.

Lemma compile_step_compiling ports es i :
  compile_step (compiling ports es) i =
  compiling ports (es ++ [emit (as_u32 (Z.of_nat (length es) + 1)) i]).
Proof.
  assert (Hn : Z.of_nat (length (es ++ [emit (as_u32 (Z.of_nat (length es) + 1)) i]))
    = (Z.of_nat (length es) + 1)%Z) by (rewrite length_app; simpl; lia).
  unfold compiling at 2, sorted_tier1, sorted_tier2, sorted_stats.
  rewrite !omap_app, !count_if_snoc, Hn, <- !u64_succ_mod, <- (u32_succ_as (Z.of_nat (length es) + 1)).
  destruct i; simpl; unfold file_deny_rule, allow_cidr_rule, deny_cidr_rule, emit_cidr;
    repeat case_match; simplify_eq; cbn; rewrite ?app_nil_r, ?Z.add_0_r, <- ?u64_succ_mod;
    reflexivity.
Qed.

Lemma foldl_compile_step ports ins js :
  foldl compile_step (compiling ports (compiled_rules ins)) js =
  compiling ports (compiled_rules (ins ++ js)).
Proof.
  revert ins. induction js as [|j js IH]; intros ins; simpl; [by rewrite app_nil_r|].
  rewrite compile_step_compiling, length_compiled_rules, <- compiled_rule_snoc, IH.
  by rewrite <- app_assoc.
Qed.

Lemma foldl_map {A} (mk : A -> Input) (f : Compiling -> A -> Compiling) c l :
  (forall c a, compile_step c (mk a) = f c a) ->
  foldl f c l = foldl compile_step c (map mk l).
Proof. intros Hf. revert c. induction l as [|a l IH]; intros c; simpl; [done|]. by rewrite Hf. Qed.

Lemma compile_sorted p :
  compile p = sorted_policy (allow_ports (network p)) (compiled_rules (inputs p)).
Proof.
  unfold compile, compile_file_rules, compile_network_rules, compile_process_rules.
  change (mkCompiling tier1_default tier2_default stats_default 1)
    with (compiling [] (compiled_rules [])).
  rewrite (foldl_map IFileDeny file_deny_rule), (foldl_map IFileAllow file_allow_rule),
    (foldl_map IAllowCidr allow_cidr_rule), (foldl_map IDenyCidr deny_cidr_rule),
    (foldl_map IDenyPort deny_port_rule), (foldl_map IDenyDestination deny_destination_rule),
    (foldl_map IDenyExecutable deny_executable_rule), !foldl_compile_step by done.
  match goal with |- context [foldl _ (?c <| c_tier1 := _ |>) _] =>
    match c with compiling _ (compiled_rules ?ins) =>
      change (c <| c_tier1 := _ |>) with (compiling (allow_ports (network p)) (compiled_rules ins))
    end end.
  rewrite !foldl_compile_step. unfold inputs. by rewrite <- !app_assoc.
Qed.

(** C35: The compiler refines its specification: the tiers, the statistics and
    the warnings of [compile] are those of compiling every rule on its own
    under its position and sorting the results, for every policy and every
    CIDR parser. *)
Theorem compile_refines p :
  compile p = sorted_policy (allow_ports (network p)) (compiled_rules (inputs p)).
Proof. apply compile_sorted. Qed.
End Reference.

(** ** Rule ids and statistics *)

Definition compiled_rule_id (e : CompiledRule) : option Z :=
  match e with
  | EExact r | EPrefix r => Some (pr_rule_id r)
  | EDenyGlob r | EAllowGlob r | EProcess r => Some (gr_rule_id r)
  | EAllowCidr r | EDenyCidr r => Some (cr_rule_id r)
  | EDenyPort r => Some (po_rule_id r)
  | EDest r => Some (de_rule_id r)
  | EWarning _ => None
  end.

Lemma emit_id {ipnet : IpNetParser} id i :
  is_warning (emit id i) = false -> compiled_rule_id (emit id i) = Some id.
Proof. destruct i; simpl; unfold emit_cidr; repeat case_match; done. Qed.

Lemma compiled_rule_id_lookup {ipnet : IpNetParser} ins n e id :
  compiled_rules ins !! n = Some e -> compiled_rule_id e = Some id ->
  id = as_u32 (Z.of_nat n + 1).
Proof.
  unfold compiled_rules. rewrite list_lookup_imap. intros (i & _ & ->)%fmap_Some Hid.
  cbv beta in Hid.
  destruct (is_warning (emit (as_u32 (Z.of_nat n + 1)) i)) eqn:W.
  - by destruct (emit _ i).
  - rewrite (emit_id _ _ W) in Hid. congruence.
Qed.

(** Below 2^32 rules every compiled rule has an id of its own, and the id 0,
    which the kernel reports for no rule, is never assigned. *)
Theorem compile_ids_identify {ipnet : IpNetParser} p n m e f id :
  (Z.of_nat (length (inputs p)) < 2 ^ 32)%Z ->
  compiled_rules (inputs p) !! n = Some e -> compiled_rules (inputs p) !! m = Some f ->
  compiled_rule_id e = Some id -> compiled_rule_id f = Some id ->
  (0 < id <= u32_max)%Z /\ n = m /\ e = f.
Proof.
  intros Hlen He Hf Hie Hif.
  pose proof (lookup_lt_Some _ _ _ He) as Hn. pose proof (lookup_lt_Some _ _ _ Hf) as Hm.
  rewrite length_compiled_rules in Hn, Hm.
  pose proof (compiled_rule_id_lookup _ _ _ _ He Hie) as E1.
  pose proof (compiled_rule_id_lookup _ _ _ _ Hf Hif) as E2.
  unfold as_u32, u32_max in *. rewrite Z.mod_small in E1, E2 by lia.
  assert (n = m) as <- by lia. split; [lia|]. split; congruence.
Qed.

Lemma count_if_partition es :
  Z.of_nat (length es) =
  (count_if in_tier1 es + count_if in_tier2 es + count_if is_warning es)%Z.
Proof.
  unfold count_if. induction es as [|e es IH]; [done|].
  destruct e; cbn [List.filter length in_tier1 in_tier2 is_warning]; lia.
Qed.

Lemma warnings_count es :
  Z.of_nat (length (warnings (sorted_stats es))) = count_if is_warning es.
Proof.
  unfold count_if. cbn [warnings sorted_stats]. induction es as [|e es IH]; [done|].
  destruct e; cbn [List.filter length is_warning]; cbn; lia.
Qed.

(** No rule is lost: each is enforced by one of the tiers or reported. *)
Lemma compile_stats_partition {ipnet : IpNetParser} p :
  (Z.of_nat (length (inputs p)) < 2 ^ 64)%Z ->
  let s := stats (compile p) in
  total_rules s = Z.of_nat (length (inputs p)) /\
  total_rules s = (tier1_rules s + tier2_rules s + Z.of_nat (length (warnings s)))%Z.
Proof.
  intros Hlen. cbv zeta. rewrite compile_sorted. unfold sorted_policy. cbn [stats].
  rewrite warnings_count. cbn. pose proof (count_if_partition (compiled_rules (inputs p))) as E.
  rewrite length_compiled_rules in *. unfold count_if in *.
  rewrite !Z.mod_small by lia. lia.
Qed.

(** ** Classification *)

Definition no_char (c : ascii) (s : string) : Prop := contains_char s c = false.

Lemma count_char_app c s t : count_char c (s +:+ t) = count_char c s + count_char c t.
Proof. induction s as [|a s IH]; [done|]. cbn. rewrite IH. lia. Qed.

Lemma count_char_0 c s : count_char c s = 0 <-> contains_char s c = false.
Proof.
  unfold contains_char. induction s as [|a s IH]; [done|]. cbn.
  destruct (Ascii.eqb a c); simpl; [split; [lia | done]|]. by rewrite IH.
Qed.

Lemma double_star_count s : str_contains s "**" = true -> 2 <= count_char "*" s.
Proof.
  rewrite str_contains_spec. intros (l & r & ->). rewrite !count_char_app. simpl. lia.
Qed.

Definition no_wildcard (s : string) : Prop :=
  no_char "*" s /\ no_char "?" s /\ no_char "[" s.

Lemma classify_exact s : classify_path_pattern s = Exact <-> no_wildcard s.
Proof.
  unfold classify_path_pattern, no_wildcard, no_char.
  destruct (contains_char s "*"), (contains_char s "?"), (contains_char s "["); simpl;
    repeat case_match; naive_solver.
Qed.

(** A pattern becomes a kernel prefix rule exactly when it is a directory
    followed by one star: the directory, with its slash, is the prefix, and it
    has no wildcard of its own.  Any other pattern with a wildcard is left to
    user space, and one without is matched exactly. *)
Theorem classify_path_pattern_spec s :
  (classify_path_pattern s = Exact <-> no_wildcard s) /\
  (forall pre, classify_path_pattern s = Prefix pre <->
     s = pre +:+ "*" /\ ends_with pre "/" = true /\ no_wildcard pre).
Proof.
  split; [apply classify_exact|]. intros pre. unfold classify_path_pattern. split.
  - destruct (contains_char s "?") eqn:Q, (contains_char s "[") eqn:B,
      (contains_char s "*") eqn:S1, (str_contains s "**"); simpl; try done.
    destruct (ends_with s "/*") eqn:E; simpl; [|done].
    destruct (Nat.eqb_spec (count_char "*" s) 1) as [C|]; [|done].
    apply ends_with_spec in E as [t ->]. change "/*" with ("/" +:+ "*") in *.
    rewrite string_app_assoc in *. intros [= <-].
    rewrite string_app_length. simpl. rewrite Nat.add_sub, str_take_app.
    rewrite contains_char_app in Q, B. apply orb_false_iff in Q as [Q _], B as [B _].
    split_and!; [done | apply ends_with_spec; by exists t |].
    split_and!; [|done..]. apply count_char_0. rewrite count_char_app in C. simpl in C. lia.
  - intros (-> & E & (S1 & Q & B)). unfold no_char in *.
    rewrite !contains_char_app, S1, Q, B. simpl.
    assert (C : count_char "*" (pre +:+ "*") = 1)
      by (rewrite count_char_app; apply count_char_0 in S1; simpl; lia).
    destruct (str_contains (pre +:+ "*") "**") eqn:D;
      [apply double_star_count in D; lia|]. simpl.
    assert (E' : ends_with (pre +:+ "*") "/*" = true).
    { apply ends_with_spec in E as [t ->]. apply ends_with_spec. exists t.
      by rewrite <- string_app_assoc. }
    rewrite E', C. simpl. f_equal.
    rewrite string_app_length. simpl. rewrite Nat.add_sub. apply str_take_app.
Qed.

(** ** Hashes *)

Lemma fnv_loop_bounds h s : (0 <= h < 2 ^ 64)%Z -> (0 <= fnv_loop h s < 2 ^ 64)%Z.
Proof.
  revert h. induction s as [|a s IH]; intros h Hh; simpl; [done|].
  apply IH. unfold fnv_step. apply Z.mod_pos_bound. lia.
Qed.

(** The hash of a path is a [u64], so it is a valid key of the kernel maps. *)
Lemma fnv1a_hash_bounds s : (0 <= fnv1a_hash s < 2 ^ 64)%Z.
Proof. apply fnv_loop_bounds. unfold FNV_OFFSET. lia. Qed.

(** ** Landlock *)

Lemma dedup_elem x l : x ∈ dedup l <-> x ∈ l.
Proof.
  induction l as [|y l IH]; simpl; [done|]. rewrite elem_of_cons, <- IH.
  destruct (dedup l) as [|z s]; [rewrite !elem_of_cons; tauto|].
  destruct (Z.eqb_spec y z) as [->|]; rewrite !elem_of_cons; tauto.
Qed.

Lemma dedup_head y l s : dedup (y :: l) = s -> exists t, s = y :: t.
Proof.
  simpl. intros <-. destruct (dedup l) as [|z s]; [eauto|].
  destruct (Z.eqb_spec y z) as [->|]; eauto.
Qed.

Lemma dedup_strict l : StronglySorted Z.le l -> StronglySorted Z.lt (dedup l).
Proof.
  induction 1 as [|x l Hl IH Hx]; simpl; [constructor|].
  destruct (dedup l) as [|z s] eqn:E; [repeat constructor|].
  assert (Hz : (x <= z)%Z).
  { rewrite Forall_forall in Hx. apply Hx. apply dedup_elem. rewrite E. by left. }
  destruct (Z.eqb_spec x z) as [->|Hne]; [done|]. constructor; [done|].
  inversion IH as [|? ? _ Hs]; subst. constructor; [lia|].
  eapply Forall_impl; [exact Hs|]. simpl. lia.
Qed.

#[local] Instance Zle_total : Total Z.le.
Proof. intros x y. lia. Qed.

Definition expressible (n : NetworkPolicy) : Prop :=
  allow_cidrs n = [] /\ deny_cidrs n = [] /\ deny_ports n = [] /\
  deny_destinations n = [] /\ 0%Z ∉ allow_ports n.

Lemma landlock_rejections_nil n : landlock_rejections n = [] <-> expressible n.
Proof.
  unfold landlock_rejections, expressible.
  destruct (existsb (Z.eqb 0) (allow_ports n)) eqn:E0.
  - apply existsb_true in E0 as (z & Hz & ->%Z.eqb_eq).
    split; [intros E; repeat apply app_eq_nil in E as [_ E]; done | naive_solver].
  - rewrite existsb_false in E0.
    assert (0%Z ∉ allow_ports n) by (intros ?%E0; done).
    destruct (allow_cidrs n), (deny_cidrs n), (deny_ports n), (deny_destinations n);
      simpl; naive_solver.
Qed.

(** The Landlock compiler fails closed: it produces a target exactly for the
    policies a TCP port allowlist expresses, and then the target allows exactly
    the ports of the policy, in strictly increasing order and never port 0. *)
Theorem compile_landlock_net_iff n :
  (expressible n <-> (exists t, compile_landlock_net n = Ok t)) /\
  (forall t, compile_landlock_net n = Ok t ->
     StronglySorted Z.lt (allowed_connect_tcp_ports t) /\
     (0%Z ∉ allowed_connect_tcp_ports t) /\
     forall p, p ∈ allowed_connect_tcp_ports t <-> p ∈ allow_ports n).
Proof.
  unfold compile_landlock_net.
  destruct (is_nil (landlock_rejections n)) eqn:E; simpl.
  - rewrite is_nil_true in E. pose proof (proj1 (landlock_rejections_nil n) E) as Hx.
    assert (Hp : forall p, p ∈ dedup (merge_sort Z.le (allow_ports n)) <-> p ∈ allow_ports n).
    { intros p. rewrite dedup_elem. by rewrite merge_sort_Permutation. }
    split; [naive_solver|]. intros t [= <-]. simpl. split_and!; [| |done].
    + apply dedup_strict, StronglySorted_merge_sort; apply _.
    + rewrite Hp. apply Hx.
  - split; [|naive_solver]. rewrite is_nil_false in E.
    rewrite <- landlock_rejections_nil. naive_solver.
Qed.
