(* ===== verification/KernelHooks.v ===== *)
(** * Kernel enforcement

    The maps the monitor loads into the kernel and the eBPF programs that read
    them: [assay-monitor/src/loader.rs] ([set_config] and its callers,
    [set_monitored_pids], [set_monitored_cgroups], [set_tier1_rules]),
    [assay-ebpf/src/socket_lsm.rs] (the connect hooks), [assay-ebpf/src/lsm.rs]
    (the file-open hook), [is_monitored] of [assay-ebpf/src/main.rs] and the
    event layouts of [assay-common] and [assay-monitor/src/events.rs].

    A kernel state holds the maps, the counters and the ring buffers.  A map is
    an [option]: an object file need not contain it, and the loader skips a map
    it does not find.  A hash map refuses a new key when it is full.  Whether a
    ring buffer has room is part of a hook's context, since the consumer drains
    it concurrently.  Programs run on a little-endian target. *)
From stdpp Require Import base tactics list strings gmap.
From Stdlib Require Import ZArith Lia.
From S2P Require Import Prelude RustStr KernelTiers.

(** ** Bytes *)

Fixpoint le_bytes (n : nat) (z : Z) : list Z :=
  match n with
  | O => []
  | S n' => (z mod 256)%Z :: le_bytes n' (z / 256)
  end.

Fixpoint from_le (l : list Z) : Z :=
  match l with
  | [] => 0
  | b :: r => (b + 256 * from_le r)%Z
  end.

(** [u16::from_be(x as u16)]. *)
Definition u16_from_be (x : Z) : Z := from_le (reverse (le_bytes 2 x)).

(** The bits of an octet, most significant first. *)
Definition octet_bits (o : Z) : list bool :=
  map (Z.testbit o) [7; 6; 5; 4; 3; 2; 1; 0]%Z.
Definition addr_bits (a : list Z) : list bool := a ≫= octet_bits.

(** [dst[i..i+len(src)].copy_from_slice(src)]. *)
Definition copy_at (i : nat) (src dst : list Z) : list Z :=
  take i dst ++ src ++ drop (i + length src) dst.

Definition slice (i j : nat) (l : list Z) : list Z := take (j - i) (drop i l).

(** ** Events and constants shared with user space *)

Definition DATA_LEN : nat := 512.
Definition KEY_MONITOR_ALL : Z := 100.
Definition KEY_EMIT_INODE_RESOLVED : Z := 101.
Definition KEY_EMIT_OBSERVED_CONNECT : Z := 102.
Definition KEY_DEDUP_OPEN_PATHS : Z := 102.
Definition KEY_MAX_ANCESTOR_DEPTH : Z := 10.
Definition EVENT_FILE_BLOCKED : Z := 10.
Definition EVENT_CONNECT_BLOCKED : Z := 20.
Definition EVENT_CONNECT_OBSERVED : Z := 21.
Definition RULE_ACTION_ALLOW : Z := 1.
Definition RULE_ACTION_DENY : Z := 2.
Definition MONITOR_STAT_LSM_EVENTS_EMITTED : Z := 2.
Definition MONITOR_STAT_LSM_RINGBUF_DROPPED : Z := 3.
Definition SOCKET_STAT_CHECKS : Z := 0.
Definition SOCKET_STAT_BLOCKED_CIDR : Z := 1.
Definition SOCKET_STAT_BLOCKED_PORT : Z := 2.
Definition SOCKET_STAT_ALLOWED : Z := 3.
Definition SOCKET_STAT_EVENTS_EMITTED : Z := 4.
Definition SOCKET_STAT_RINGBUF_DROPPED : Z := 5.

Record MonitorEvent : Type := mkMonitorEvent {
  me_pid : Z;
  me_event_type : Z;
  me_flags : Z;
  me_mode : Z;
  me_resolve : Z;
  me_return_value : Z;
  me_data : list Z
}.
#[global] Instance MonitorEvent_eta : Eta MonitorEvent := fun r =>
  mkMonitorEvent (me_pid r) (me_event_type r) (me_flags r) (me_mode r)
    (me_resolve r) (me_return_value r) (me_data r).

Definition zeroed : MonitorEvent := mkMonitorEvent 0 0 0 0 0 0 (replicate DATA_LEN 0%Z).

Record SocketEvent : Type := mkSocketEvent {
  se_event_type : Z;
  se_pid : Z;
  se_timestamp_ns : Z;
  se_cgroup_id : Z;
  se_family : Z;
  se_port : Z;
  se_addr_v4 : Z;
  se_addr_v6 : list Z;
  se_rule_id : Z;
  se_action : Z
}.

Record CidrRuleValue : Type := mkCidrRuleValue { cv_action : Z; cv_rule_id : Z }.

Record InodeKeyMap : Type := mkInodeKey { ik_ino : Z; ik_dev : Z; ik_gen : Z }.
#[global] Instance InodeKeyMap_eq_dec : EqDecision InodeKeyMap.
Proof. solve_decision. Defined.
#[global] Instance InodeKeyMap_countable : Countable InodeKeyMap.
Proof.
  refine (inj_countable' (fun k => (ik_ino k, ik_dev k, ik_gen k))
    (fun t => mkInodeKey (fst (fst t)) (snd (fst t)) (snd t)) _).
  by intros [].
Defined.

(** ** The longest-prefix-match trie of the kernel

    [BPF_MAP_TYPE_LPM_TRIE]: an entry is a bit prefix; a lookup returns the
    value of the longest stored prefix of the address. *)

Class LpmTrie : Type := {
  Trie : Type;
  trie_empty : Trie;
  trie_insert : Trie -> Z -> list Z -> CidrRuleValue -> Result Trie string;
  trie_get : Trie -> list Z -> option CidrRuleValue
}.

Class LpmLaws (lpm : LpmTrie) : Type := {
  trie_rules : Trie -> gmap (list bool) CidrRuleValue;
  trie_rules_empty : trie_rules trie_empty = ∅;
  trie_rules_insert t n a v t' :
    trie_insert t n a v = Ok t' ->
    trie_rules t' = <[take (Z.to_nat n) (addr_bits a) := v]> (trie_rules t);
  trie_get_longest t a v :
    trie_get t a = Some v <->
    exists n, (n <= length (addr_bits a))%nat /\
      trie_rules t !! take n (addr_bits a) = Some v /\
      forall m, (n < m <= length (addr_bits a))%nat ->
        trie_rules t !! take m (addr_bits a) = None
}.

(** ** The state of the kernel side *)

Record Kernel `{LpmTrie} : Type := mkKernel {
  CONFIG : option (gmap Z Z);
  MONITORED_PIDS : option (gmap Z Z);
  MONITORED_CGROUPS : option (gmap Z Z);
  DENY_PATHS_EXACT : option (gmap Z Z);
  DENY_PATHS_PREFIX : option (gmap Z (Z * Z));
  DENY_INO : option (gmap InodeKeyMap Z);
  CIDR_RULES_V4 : option Trie;
  CIDR_RULES_V6 : option Trie;
  DENY_PORTS : option (gmap Z Z);
  ALLOW_PORTS : option (gmap Z Z);
  SOCKET_EVENTS : list SocketEvent;
  SOCKET_STATS : gmap Z Z;
  LSM_EVENTS : list MonitorEvent;
  STATS : gmap Z Z;
  LSM_HIT : Z;
  LSM_DENY : Z;
  LSM_BYPASS : Z
}.

#[global] Instance Kernel_eta `{LpmTrie} : Eta Kernel := fun k =>
  mkKernel _ (CONFIG k) (MONITORED_PIDS k) (MONITORED_CGROUPS k) (DENY_PATHS_EXACT k)
    (DENY_PATHS_PREFIX k) (DENY_INO k) (CIDR_RULES_V4 k) (CIDR_RULES_V6 k)
    (DENY_PORTS k) (ALLOW_PORTS k) (SOCKET_EVENTS k) (SOCKET_STATS k)
    (LSM_EVENTS k) (STATS k) (LSM_HIT k) (LSM_DENY k) (LSM_BYPASS k).

Definition MAX_DENY_PATHS : nat := 256.
Definition MAX_PORT_RULES : nat := 256.
Definition MAX_DENY_INO : nat := 1024.
Definition MAX_MONITORED : nat := 1024.
Definition MAX_CONFIG : nat := 16.

(** An update of a [BPF_MAP_TYPE_HASH] with flags 0. *)
Definition hash_insert `{Countable K} {V} (max : nat) (m : gmap K V) (k : K) (v : V)
  : Result (gmap K V) string :=
  if bool_decide (is_Some (m !! k)) || Nat.ltb (size m) max then Ok (<[k := v]> m)
  else Err "E2BIG".

(** Inserting a sequence of entries, stopping at the first error; the entries
    before it stay. *)
Fixpoint insert_all {T E} (ins : T -> E -> Result T string) (m : T) (l : list E)
  : Result () string * T :=
  match l with
  | [] => (Ok (), m)
  | e :: r => match ins m e with Ok m' => insert_all ins m' r | Err x => (Err x, m) end
  end.

Inductive MonitorError : Type :=
| LoadError (m : string)
| FileError (m : string)
| NotSupported
| AyaError (m : string)
| MapError (m : string)
| ProgramError (m : string)
| BtfError (m : string)
| MapNotFound (name : string)
| ConfigVerification (key expected got : Z)
| InvalidEvent (got need : Z)
| ReaderDied
| IoError (m : string)
| RingBufError (m : string)
| EnforcementUnavailable (m : string).

Section Kernel_ops.
  Context {lpm : LpmTrie}.

(** ** Loading *)

(** [set_config]: insert every entry, then read every entry back. *)
Definition config_verify (m : gmap Z Z) (e : Z * Z) : Result () MonitorError :=
  match m !! fst e with
  | None => Err (MapError "ENOENT")
  | Some actual =>
      if Z.eqb actual (snd e) then Ok ()
      else Err (ConfigVerification (fst e) (snd e) actual)
  end.

Fixpoint verify_all (m : gmap Z Z) (l : list (Z * Z)) : Result () MonitorError :=
  match l with
  | [] => Ok ()
  | e :: r => match config_verify m e with Ok _ => verify_all m r | Err x => Err x end
  end.

Definition insert_pair `{Countable K} {V} (max : nat) (m : gmap K V) (e : K * V)
  : Result (gmap K V) string := hash_insert max m (fst e) (snd e).

(** Loading entries into a map: the loader's state keeps what was inserted. *)
Definition load_into {T E} (put : T -> Kernel -> Kernel) (ins : T -> E -> Result T string)
    (m : T) (entries : list E) : M Kernel (Result () MonitorError) := fun k =>
  let (r, m') := insert_all ins m entries in
  (Done (result_map_err MapError r), put m' k).

(** The entries of a [HashMap], in its iteration order. *)
Definition set_config (config : list (Z * Z)) : M Kernel (Result () MonitorError) :=
  k ← get_state;
  match CONFIG k with
  | None => mret (Err (MapNotFound "CONFIG"))
  | Some m =>
      _ ←? load_into (fun m k => k <| CONFIG := Some m |>) (insert_pair MAX_CONFIG) m config;
      k ← get_state;
      mret (verify_all (default ∅ (CONFIG k)) config)
  end.

Definition set_monitor_all (enabled : bool) : M Kernel (Result () MonitorError) :=
  set_config [(KEY_MONITOR_ALL, if enabled then 1 else 0)%Z].
Definition set_emit_observed_connect (enabled : bool) : M Kernel (Result () MonitorError) :=
  set_config [(KEY_EMIT_OBSERVED_CONNECT, if enabled then 1 else 0)%Z].
Definition set_emit_inode_resolved (enabled : bool) : M Kernel (Result () MonitorError) :=
  set_config [(KEY_EMIT_INODE_RESOLVED, if enabled then 1 else 0)%Z].
Definition set_dedup_open_paths (enabled : bool) : M Kernel (Result () MonitorError) :=
  set_config [(KEY_DEDUP_OPEN_PATHS, if enabled then 1 else 0)%Z].

Definition get_config_u32 (key : Z) (k : Kernel) : Result Z MonitorError :=
  match CONFIG k with
  | None => Err (MapNotFound "CONFIG")
  | Some m => Ok (default 0%Z (m !! key))
  end.

Definition set_monitored_pids (pids : list Z) : M Kernel (Result () MonitorError) :=
  k ← get_state;
  match MONITORED_PIDS k with
  | None => mret (Err (MapNotFound "MONITORED_PIDS"))
  | Some m =>
      load_into (fun m k => k <| MONITORED_PIDS := Some m |>) (insert_pair MAX_MONITORED) m
        (map (fun pid => (pid, 1%Z)) pids)
  end.

Definition set_monitored_cgroups (cgroups : list Z) : M Kernel (Result () MonitorError) :=
  k ← get_state;
  match MONITORED_CGROUPS k with
  | None => mret (Err (MapNotFound "MONITORED_CGROUPS"))
  | Some m =>
      load_into (fun m k => k <| MONITORED_CGROUPS := Some m |>) (insert_pair MAX_MONITORED) m
        (map (fun cg => (cg, 1%Z)) cgroups)
  end.

(** [validate_network_enforcement_support]. *)
Definition net_is_ipv6 (rule : CidrRule) : bool :=
  match cr_parsed rule with V6 _ _ => true | V4 _ _ => false end.

Definition validate_network_enforcement_support (compiled : CompiledPolicy)
  : Result () MonitorError :=
  let ipv6_allow :=
    length (List.filter net_is_ipv6 (network_allow_cidrs (tier1 compiled))) in
  let ipv6_deny :=
    length (List.filter net_is_ipv6 (network_deny_cidrs (tier1 compiled))) in
  if negb (Nat.eqb ipv6_allow 0) || negb (Nat.eqb ipv6_deny 0) then
    Err (EnforcementUnavailable
      ("the current enforcement target supports IPv4/TCP only; policy contains " +:+
       fmt_int (Z.of_nat ipv6_allow) +:+ " IPv6 allow CIDR rule(s) and " +:+
       fmt_int (Z.of_nat ipv6_deny) +:+ " IPv6 deny CIDR rule(s)"))
  else Ok ().

(** The older encoding of a device number, from the newer one. *)
Definition dev_major (dev : Z) : Z := Z.land (Z.shiftr dev 8) 0xfff.
Definition dev_minor (dev : Z) : Z :=
  Z.lor (Z.land dev 0xff) (Z.land (Z.shiftr dev 12) 0xfff00).
Definition dev_alt (dev : Z) : Z :=
  Z.lor (as_u32 (Z.shiftl (dev_major dev) 20)) (dev_minor dev).

(** The keys loaded for an inode rule: both device encodings, and both again
    under generation 0 when the rule has another generation. *)
Definition inode_keys (rule : InodeRule) : list InodeKeyMap :=
  [mkInodeKey (ir_ino rule) (ir_dev rule) (ir_gen rule);
   mkInodeKey (ir_ino rule) (dev_alt (ir_dev rule)) (ir_gen rule)] ++
  (if negb (Z.eqb (ir_gen rule) 0) then
     [mkInodeKey (ir_ino rule) (ir_dev rule) 0;
      mkInodeKey (ir_ino rule) (dev_alt (ir_dev rule)) 0]
   else []).

Definition inode_entries (rules : list InodeRule) : list (InodeKeyMap * Z) :=
  rules ≫= fun rule => map (fun key => (key, ir_rule_id rule)) (inode_keys rule).

Definition insert_cidr (t : Trie) (e : CidrMapEntry) : Result Trie string :=
  trie_insert t (ce_prefix_len e) (ce_addr e) (mkCidrRuleValue (ce_action e) (ce_rule_id e)).

(** [if let Some(map) = bpf.map_mut(..)]: a map the object lacks is skipped. *)
Definition load_map {T E} (get : Kernel -> option T) (put : T -> Kernel -> Kernel)
    (ins : T -> E -> Result T string) (entries : list E) : M Kernel (Result () MonitorError) :=
  k ← get_state;
  match get k with
  | None => mret (Ok ())
  | Some m => load_into put ins m entries
  end.

Definition set_tier1_rules (compiled : CompiledPolicy) : M Kernel (Result () MonitorError) :=
  let t := tier1 compiled in
  _ ←? mret (validate_network_enforcement_support compiled);
  _ ←? load_map DENY_PATHS_EXACT (fun m k => k <| DENY_PATHS_EXACT := Some m |>)
         (insert_pair MAX_DENY_PATHS) (file_exact_entries t);
  _ ←? load_map DENY_INO (fun m k => k <| DENY_INO := Some m |>)
         (insert_pair MAX_DENY_INO) (inode_entries (inode_deny_exact t));
  _ ←? load_map DENY_PATHS_PREFIX (fun m k => k <| DENY_PATHS_PREFIX := Some m |>)
         (insert_pair MAX_DENY_PATHS) (file_prefix_entries t);
  _ ←? load_map CIDR_RULES_V4 (fun m k => k <| CIDR_RULES_V4 := Some m |>)
         insert_cidr (cidr_v4_entries t);
  load_map DENY_PORTS (fun m k => k <| DENY_PORTS := Some m |>)
    (insert_pair MAX_PORT_RULES) (port_deny_entries t).

(** ** The connect hooks *)

Record SockCtx : Type := mkSockCtx {
  sk_user_port : Z;
  sk_user_ip4 : Z;
  sk_user_ip6 : list Z;
  sk_cgroup_id : Z;
  sk_pid_tgid : Z;
  sk_ktime_ns : Z;
  sk_room : bool
}.

Definition lookup_map `{Countable K} {V} (m : option (gmap K V)) (key : K) : option V :=
  match m with Some m => m !! key | None => None end.

Definition trie_lookup (t : option Trie) (a : list Z) : option CidrRuleValue :=
  match t with Some t => trie_get t a | None => None end.

(** [inc_stat] of the socket statistics: an array of eight [u64]. *)
Definition inc_socket_stat (index : Z) (k : Kernel) : Kernel :=
  k <| SOCKET_STATS := <[index := u64_succ (default 0%Z (SOCKET_STATS k !! index))]>
                         (SOCKET_STATS k) |>.

Definition emit_socket_event (c : SockCtx) (event_type family port addr_v4 : Z)
    (addr_v6 : list Z) (rule_id action : Z) (k : Kernel) : Kernel :=
  if sk_room c then
    let ev := mkSocketEvent event_type (as_u32 (Z.shiftr (sk_pid_tgid c) 32)) (sk_ktime_ns c)
                (sk_cgroup_id c) family port addr_v4 addr_v6 rule_id action in
    inc_socket_stat SOCKET_STAT_EVENTS_EMITTED
      (k <| SOCKET_EVENTS := SOCKET_EVENTS k ++ [ev] |>)
  else inc_socket_stat SOCKET_STAT_RINGBUF_DROPPED k.

Definition emit_observed_connect (c : SockCtx) (family dst_port addr_v4 : Z)
    (addr_v6 : list Z) (rule_id : Z) (k : Kernel) : Kernel :=
  let enabled := negb (Z.eqb (default 0%Z (lookup_map (CONFIG k) KEY_EMIT_OBSERVED_CONNECT)) 0) in
  if enabled then
    emit_socket_event c EVENT_CONNECT_OBSERVED family dst_port addr_v4 addr_v6 rule_id
      RULE_ACTION_ALLOW k
  else k.

Definition no_v6 : list Z := replicate 16 0%Z.

Definition try_connect4 (c : SockCtx) (k : Kernel) : bool * Kernel :=
  let k := inc_socket_stat SOCKET_STAT_CHECKS k in
  let dst_port := u16_from_be (sk_user_port c) in
  match lookup_map (DENY_PORTS k) dst_port with
  | Some rule_id =>
      let k := emit_socket_event c EVENT_CONNECT_BLOCKED 2 dst_port (sk_user_ip4 c) no_v6
                 rule_id RULE_ACTION_DENY k in
      (false, inc_socket_stat SOCKET_STAT_BLOCKED_PORT k)
  | None =>
  match lookup_map (ALLOW_PORTS k) dst_port with
  | Some rule_id =>
      let k := emit_observed_connect c 2 dst_port (sk_user_ip4 c) no_v6 rule_id k in
      (true, inc_socket_stat SOCKET_STAT_ALLOWED k)
  | None =>
      let allow :=
        let k := emit_observed_connect c 2 dst_port (sk_user_ip4 c) no_v6 0 k in
        (true, inc_socket_stat SOCKET_STAT_ALLOWED k) in
      match trie_lookup (CIDR_RULES_V4 k) (le_bytes 4 (sk_user_ip4 c)) with
      | Some rule =>
          if Z.eqb (cv_action rule) RULE_ACTION_DENY then
            let k := emit_socket_event c EVENT_CONNECT_BLOCKED 2 dst_port (sk_user_ip4 c)
                       no_v6 (cv_rule_id rule) (cv_action rule) k in
            (false, inc_socket_stat SOCKET_STAT_BLOCKED_CIDR k)
          else allow
      | None => allow
      end
  end end.

(** The value the hook returns to the kernel: 1 lets the connect proceed. *)
Definition hook_verdict (r : bool * Kernel) : Z * Kernel := (if fst r then 1 else 0, snd r)%Z.
Definition connect4_hook (c : SockCtx) (k : Kernel) : Z * Kernel :=
  hook_verdict (try_connect4 c k).

Definition try_connect6 (c : SockCtx) (k : Kernel) : bool * Kernel :=
  let k := inc_socket_stat SOCKET_STAT_CHECKS k in
  let dst_port := u16_from_be (sk_user_port c) in
  let ip6_bytes := sk_user_ip6 c ≫= le_bytes 4 in
  match lookup_map (DENY_PORTS k) dst_port with
  | Some rule_id =>
      let k := emit_socket_event c EVENT_CONNECT_BLOCKED 10 dst_port 0 ip6_bytes
                 rule_id RULE_ACTION_DENY k in
      (false, inc_socket_stat SOCKET_STAT_BLOCKED_PORT k)
  | None =>
  match lookup_map (ALLOW_PORTS k) dst_port with
  | Some rule_id =>
      let k := emit_observed_connect c 2 dst_port (sk_user_ip4 c) no_v6 rule_id k in
      (true, inc_socket_stat SOCKET_STAT_ALLOWED k)
  | None =>
      let allow := (true, inc_socket_stat SOCKET_STAT_ALLOWED k) in
      match trie_lookup (CIDR_RULES_V6 k) ip6_bytes with
      | Some rule =>
          if Z.eqb (cv_action rule) RULE_ACTION_DENY then
            let k := emit_socket_event c EVENT_CONNECT_BLOCKED 10 dst_port 0 ip6_bytes
                       (cv_rule_id rule) (cv_action rule) k in
            (false, inc_socket_stat SOCKET_STAT_BLOCKED_CIDR k)
          else allow
      | None => allow
      end
  end end.

Definition connect6_hook (c : SockCtx) (k : Kernel) : Z * Kernel :=
  hook_verdict (try_connect6 c k).

(** ** The file-open hook *)

(** What the hook reads through kernel pointers.  [None] is a null pointer or,
    for a scalar, a failed probe read. *)
Record InodeView : Type := mkInodeView {
  iv_ino : option Z;
  iv_gen : option Z;
  iv_sb : option (option Z)
}.

Record FileCtx : Type := mkFileCtx {
  fc_file : option (option InodeView);
  fc_cgroup_id : Z;
  fc_pid_tgid : Z;
  fc_room : bool
}.

(** [inc_stat] of the monitor statistics: an array of [u32]. *)
Definition inc_stat (index : Z) (k : Kernel) : Kernel :=
  k <| STATS := <[index := u32_succ (default 0%Z (STATS k !! index))]> (STATS k) |>.

Definition event_header (pid event_type : Z) : MonitorEvent :=
  zeroed <| me_pid := pid |> <| me_event_type := event_type |>.

Definition event_data (event_id cgroup_id rule_id : Z) (data : list Z) : list Z :=
  let len := Nat.min (length data) DATA_LEN in
  let d := copy_at 0 (take len data) (replicate DATA_LEN 0%Z) in
  if Z.eqb event_id EVENT_FILE_BLOCKED && Nat.leb 16 len then
    copy_at 24 (le_bytes 4 rule_id) (copy_at 16 (le_bytes 8 cgroup_id) d)
  else d.

Definition emit_event (c : FileCtx) (event_id cgroup_id rule_id : Z) (data : list Z)
    (k : Kernel) : Kernel :=
  if fc_room c then
    let ev := (event_header (as_u32 (Z.shiftr (fc_pid_tgid c) 32)) event_id)
                <| me_data := event_data event_id cgroup_id rule_id data |> in
    inc_stat MONITOR_STAT_LSM_EVENTS_EMITTED (k <| LSM_EVENTS := LSM_EVENTS k ++ [ev] |>)
  else inc_stat MONITOR_STAT_LSM_RINGBUF_DROPPED k.

(** The block path of both lookups: count, report, refuse. *)
Definition block_file (c : FileCtx) (s_dev i_ino rule_id : Z) (k : Kernel)
  : Result Z Z * Kernel :=
  let k := k <| LSM_DENY := u64_succ (LSM_DENY k) |> in
  let alert_data := copy_at 8 (le_bytes 8 i_ino)
                      (copy_at 0 (le_bytes 8 s_dev) (replicate 64 0%Z)) in
  (Err (-1)%Z, emit_event c EVENT_FILE_BLOCKED (fc_cgroup_id c) rule_id alert_data k).

Definition try_file_open_lsm (c : FileCtx) (k : Kernel) : Result Z Z * Kernel :=
  let k := k <| LSM_HIT := u64_succ (LSM_HIT k) |> in
  match fc_file c with
  | None => (Ok 0%Z, k)
  | Some f =>
  let monitor_all := negb (Z.eqb (default 0%Z (lookup_map (CONFIG k) KEY_MONITOR_ALL)) 0) in
  if negb monitor_all && negb (opt_is_some (lookup_map (MONITORED_CGROUPS k) (fc_cgroup_id c)))
  then (Ok 0%Z, k <| LSM_BYPASS := u64_succ (LSM_BYPASS k) |>)
  else
  match f with
  | None => (Ok 0%Z, k)
  | Some inode =>
  let i_ino := default 0%Z (iv_ino inode) in
  let i_gen := default 0%Z (iv_gen inode) in
  let s_dev := match iv_sb inode with None => 0%Z | Some d => default 0%Z d end in
  let exact := if negb (Z.eqb i_gen 0)
               then lookup_map (DENY_INO k) (mkInodeKey i_ino s_dev i_gen) else None in
  match exact with
  | Some rule_id => block_file c s_dev i_ino rule_id k
  | None =>
  match lookup_map (DENY_INO k) (mkInodeKey i_ino s_dev 0) with
  | Some rule_id => block_file c s_dev i_ino rule_id k
  | None =>
  if Z.eqb (default 1%Z (lookup_map (CONFIG k) KEY_EMIT_INODE_RESOLVED)) 0 then (Ok 0%Z, k)
  else
    let ino_data := copy_at 16 (le_bytes 4 i_gen) (copy_at 8 (le_bytes 8 i_ino)
                      (copy_at 0 (le_bytes 8 s_dev) (replicate 64 0%Z))) in
    (Ok 0%Z, emit_event c 112 (fc_cgroup_id c) 0 ino_data k)
  end end end end.

Definition file_open_lsm (c : FileCtx) (k : Kernel) : Z * Kernel :=
  match try_file_open_lsm c k with
  | (Ok ret, k) => (ret, k)
  | (Err ret, k) => (ret, k)
  end.

(** ** Which tasks the tracepoints observe *)

Record TaskCtx : Type := mkTaskCtx {
  tc_tgid : Z;
  tc_cgroup_id : Z;
  tc_ancestor : nat -> Z
}.

Definition MAX_ANCESTOR_DEPTH_HARD : nat := 16.

Definition max_ancestor_depth (k : Kernel) : nat :=
  let v := Z.to_nat (default 8%Z (lookup_map (CONFIG k) KEY_MAX_ANCESTOR_DEPTH)) in
  if Nat.ltb MAX_ANCESTOR_DEPTH_HARD v then MAX_ANCESTOR_DEPTH_HARD else v.

(** [for i in 0..16]: [n] iterations are left, the next one is [i]. *)
Fixpoint scan_ancestors (t : TaskCtx) (k : Kernel) (depth n i : nat) : bool :=
  match n with
  | O => false
  | S n' =>
      if Nat.leb depth i then false
      else if Z.eqb (tc_ancestor t i) 0 then false
      else if opt_is_some (lookup_map (MONITORED_CGROUPS k) (tc_ancestor t i)) then true
      else scan_ancestors t k depth n' (S i)
  end.

Definition is_monitored (t : TaskCtx) (k : Kernel) : bool :=
  if negb (Z.eqb (default 0%Z (lookup_map (CONFIG k) KEY_MONITOR_ALL)) 0) then true
  else if opt_is_some (lookup_map (MONITORED_PIDS k) (tc_tgid t)) then true
  else if opt_is_some (lookup_map (MONITORED_CGROUPS k) (tc_cgroup_id t)) then true
  else scan_ancestors t k (max_ancestor_depth k) MAX_ANCESTOR_DEPTH_HARD 0.
End Kernel_ops.

(** ** Device numbers *)

(** [assay_common::encode_kernel_dev]; the operands after the first casts are
    [u32]. *)
Definition encode_kernel_dev (dev : Z) : Z :=
  let major := as_u32 (Z.land (Z.shiftr dev 8) 0xfff) in
  let minor := as_u32 (Z.lor (Z.land dev 0xff) (Z.land (Z.shiftr dev 12) 0xfff00)) in
  Z.lor (Z.lor (Z.land minor 0xff) (as_u32 (Z.shiftl (Z.land major 0xfff) 8)))
    (as_u32 (Z.shiftl (Z.land minor 0xfffff00) 12)).

(** ** Events in user space *)

(** [repr(C)] layout of a [SocketEvent]: 56 bytes, no padding. *)
Definition socket_event_bytes (e : SocketEvent) : list Z :=
  le_bytes 4 (se_event_type e) ++ le_bytes 4 (se_pid e) ++ le_bytes 8 (se_timestamp_ns e) ++
  le_bytes 8 (se_cgroup_id e) ++ le_bytes 2 (se_family e) ++ le_bytes 2 (se_port e) ++
  le_bytes 4 (se_addr_v4 e) ++ se_addr_v6 e ++ le_bytes 4 (se_rule_id e) ++
  le_bytes 4 (se_action e).

(** [i64] from its bytes. *)
Definition i64_from_le (l : list Z) : Z :=
  let z := from_le l in if (z <? 2 ^ 63)%Z then z else (z - 2 ^ 64)%Z.

Definition parse_event (bytes : list Z) : Result MonitorEvent MonitorError :=
  if Nat.ltb (length bytes) 552 then
    Err (InvalidEvent (Z.of_nat (length bytes)) 552)
  else
    Ok (mkMonitorEvent (from_le (slice 0 4 bytes)) (from_le (slice 4 8 bytes))
          (from_le (slice 8 16 bytes)) (from_le (slice 16 24 bytes))
          (from_le (slice 24 32 bytes)) (i64_from_le (slice 32 40 bytes))
          (slice 40 552 bytes)).

Definition parse_socket_event (bytes : list Z) : Result MonitorEvent MonitorError :=
  if Nat.ltb (length bytes) 56 then
    Err (InvalidEvent (Z.of_nat (length bytes)) 56)
  else
    let out := zeroed <| me_event_type := from_le (slice 0 4 bytes) |>
                      <| me_pid := from_le (slice 4 8 bytes) |> in
    let d := copy_at 0 (slice 16 24 bytes) (me_data out) in
    let d := copy_at 8 (slice 24 26 bytes) d in
    let d := copy_at 10 (slice 26 28 bytes) d in
    let d := copy_at 12 (slice 28 32 bytes) d in
    let d := copy_at 16 (slice 32 48 bytes) d in
    let d := copy_at 32 (slice 48 52 bytes) d in
    let d := copy_at 36 (slice 52 56 bytes) d in
    Ok (out <| me_data := d |>).

Definition AF_INET : Z := 2.
Definition AF_INET6 : Z := 10.
Definition BLOCKED_SOCKET_PAYLOAD_LEN : nat := 40.

Record BlockedSocket : Type := mkBlockedSocket {
  bs_cgroup_id : Z;
  bs_family : Z;
  bs_port : Z;
  bs_destination : string;
  bs_rule_id : Z
}.

(** [Ipv4Addr]'s [Display]. *)
Definition ipv4_display (a : list Z) : string := str_join "." (map fmt_int a).

Section Display.
  (** [Ipv6Addr]'s [Display], the RFC 5952 text of 16 octets. *)
  Variable ipv6_display : list Z -> string.

Definition decode_blocked_socket_payload (data : list Z) : option BlockedSocket :=
  if Nat.ltb (length data) BLOCKED_SOCKET_PAYLOAD_LEN then None
  else
    let cgroup_id := from_le (slice 0 8 data) in
    let family := from_le (slice 8 10 data) in
    let port := from_le (slice 10 12 data) in
    let rule_id := from_le (slice 32 36 data) in
    if Z.eqb family AF_INET then
      Some (mkBlockedSocket cgroup_id family port (ipv4_display (slice 12 16 data)) rule_id)
    else if Z.eqb family AF_INET6 then
      Some (mkBlockedSocket cgroup_id family port (ipv6_display (slice 16 32 data)) rule_id)
    else None.
End Display.

Definition endpoint (b : BlockedSocket) : string :=
  if Z.eqb (bs_family b) AF_INET6
  then "[" +:+ bs_destination b +:+ "]:" +:+ fmt_int (bs_port b)
  else bs_destination b +:+ ":" +:+ fmt_int (bs_port b).

(** ** Bytes and words *)

Lemma le_bytes_length n z : length (le_bytes n z) = n.
Proof. revert z. induction n as [|n IH]; intros z; simpl; [done|]. by rewrite IH. Qed.

Lemma from_le_le_bytes n z : (0 <= z < 256 ^ Z.of_nat n)%Z -> from_le (le_bytes n z) = z.
Proof.
  revert z. induction n as [|n IH]; intros z Hz; [simpl in *; lia|].
  rewrite Nat2Z.inj_succ, Z.pow_succ_r in Hz by lia. cbn [le_bytes from_le]. rewrite IH.
  - pose proof (Z.div_mod z 256). lia.
  - split; [apply Z.div_pos; lia | apply Z.div_lt_upper_bound; lia].
Qed.

(** What [parse_socket_event] writes, [decode_blocked_socket_payload] reads. *)
Lemma socket_payload_slices bytes e :
  length bytes = 56 -> parse_socket_event bytes = Ok e ->
  length (me_data e) = 512 /\
  slice 0 8 (me_data e) = slice 16 24 bytes /\ slice 8 10 (me_data e) = slice 24 26 bytes /\
  slice 10 12 (me_data e) = slice 26 28 bytes /\ slice 12 16 (me_data e) = slice 28 32 bytes /\
  slice 16 32 (me_data e) = slice 32 48 bytes /\ slice 32 36 (me_data e) = slice 48 52 bytes /\
  slice 36 40 (me_data e) = slice 52 56 bytes.
Proof.
  unfold parse_socket_event. intros Hl. rewrite Hl. cbn [Nat.ltb Nat.leb].
  do 56 (destruct bytes as [|? bytes]; [discriminate Hl|]). destruct bytes; [|discriminate Hl].
  intros [= <-]. vm_compute. split_and!; reflexivity.
Qed.

Lemma slice_app_l (l r : list Z) i j :
  j <= length l -> slice i j (l ++ r) = slice i j l.
Proof.
  intros Hj. unfold slice. destruct (decide (i <= j)) as [Hi|Hi].
  - rewrite drop_app_le by lia. rewrite take_app_le; [done|]. rewrite length_drop. lia.
  - replace (j - i) with 0 by lia. by rewrite !take_0.
Qed.

Lemma slice_app_r (l r : list Z) i j :
  length l <= i -> slice i j (l ++ r) = slice (i - length l) (j - length l) r.
Proof.
  intros Hi. unfold slice. rewrite drop_app_ge by lia. f_equal. lia.
Qed.

Lemma slice_full (l : list Z) n : length l = n -> slice 0 n l = l.
Proof. intros <-. unfold slice. rewrite drop_0, Nat.sub_0_r. by apply take_ge. Qed.

Definition wf_socket_event (e : SocketEvent) : Prop :=
  (0 <= se_cgroup_id e < 2 ^ 64)%Z /\ (0 <= se_family e < 2 ^ 16)%Z /\
  (0 <= se_port e < 2 ^ 16)%Z /\ (0 <= se_rule_id e < 2 ^ 32)%Z /\
  length (se_addr_v6 e) = 16.

Ltac slice_field :=
  repeat first
    [ rewrite slice_full by (rewrite ?le_bytes_length; done)
    | rewrite slice_app_l by (rewrite ?le_bytes_length; lia)
    | rewrite slice_app_r by (rewrite ?le_bytes_length; lia);
      rewrite ?le_bytes_length; cbn [Nat.sub] ].

Lemma socket_bytes_fields e :
  length (se_addr_v6 e) = 16 ->
  let b := socket_event_bytes e in
  length b = 56 /\ slice 16 24 b = le_bytes 8 (se_cgroup_id e) /\
  slice 24 26 b = le_bytes 2 (se_family e) /\ slice 26 28 b = le_bytes 2 (se_port e) /\
  slice 28 32 b = le_bytes 4 (se_addr_v4 e) /\ slice 32 48 b = se_addr_v6 e /\
  slice 48 52 b = le_bytes 4 (se_rule_id e).
Proof.
  intros H6 b. unfold b, socket_event_bytes.
  split; [rewrite !length_app, !le_bytes_length; lia|].
  remember (se_addr_v6 e) as v6.
  split_and!; slice_field; rewrite ?H6; cbn [Nat.sub]; slice_field; reflexivity.
Qed.

(** A blocked connect survives the trip to user space: for an event of a
    supported family, the record the kernel writes, projected into a monitor
    event and decoded there, yields the same cgroup, family, port, address and
    rule id. *)
Theorem socket_event_roundtrip ipv6_display e :
  wf_socket_event e ->
  se_family e = AF_INET \/ se_family e = AF_INET6 ->
  exists m, parse_socket_event (socket_event_bytes e) = Ok m /\
  decode_blocked_socket_payload ipv6_display (me_data m) =
  Some (mkBlockedSocket (se_cgroup_id e) (se_family e) (se_port e)
    (if Z.eqb (se_family e) AF_INET then ipv4_display (le_bytes 4 (se_addr_v4 e))
     else ipv6_display (se_addr_v6 e)) (se_rule_id e)).
Proof.
  intros (Hc & Hf & Hp & Hr & H6) Hfam.
  destruct (socket_bytes_fields e H6) as (Hl & Ec & Ef & Ep & E4 & E6 & Er).
  destruct (parse_socket_event (socket_event_bytes e)) as [m|] eqn:Hm;
    [|unfold parse_socket_event in Hm; by rewrite Hl in Hm].
  exists m. split; [done|].
  destruct (socket_payload_slices _ _ Hl Hm) as (Hd & Dc & Df & Dp & D4 & D6 & Dr & _).
  unfold decode_blocked_socket_payload. rewrite Hd. cbn [Nat.ltb Nat.leb BLOCKED_SOCKET_PAYLOAD_LEN].
  rewrite Dc, Df, Dp, D4, D6, Dr, Ec, Ef, Ep, E4, E6, Er, !from_le_le_bytes
    by (split; [lia|]; eapply Z.lt_le_trans; [|reflexivity || (vm_compute; congruence)]; lia).
  destruct Hfam as [-> | ->]; reflexivity.
Qed.

(** ** Loaded maps *)

(** Later entries replace earlier ones. *)
Definition insert_entries `{Countable K} {V} (m : gmap K V) (l : list (K * V)) : gmap K V :=
  foldl (fun m e => <[fst e := snd e]> m) m l.

Lemma insert_all_hash `{Countable K} {V} max (l : list (K * V)) m m' :
  insert_all (insert_pair max) m l = (Ok (), m') ->
  m' = insert_entries m l.
Proof.
  unfold insert_entries. revert m. induction l as [|[k v] l IH]; intros m; simpl; [by intros [= <-]|].
  unfold insert_pair at 1, hash_insert. simpl.
  destruct (bool_decide _ || _); [apply IH | done].
Qed.

Lemma insert_entries_lookup `{Countable K} {V} (l : list (K * V)) (m : gmap K V) k v :
  insert_entries m l !! k = Some v ->
  (k, v) ∈ l \/ ((k ∉ map fst l) /\ m !! k = Some v).
Proof.
  unfold insert_entries. revert m. induction l as [|[k' v'] l IH]; intros m; simpl.
  - intros ->. right. split; [by intros ?%elem_of_nil | done].
  - intros [Hl|[Hl Hm]]%IH; [left; by right|].
    destruct (decide (k' = k)) as [->|Hne].
    + rewrite lookup_insert_eq in Hm. left. simplify_eq. by left.
    + rewrite lookup_insert_ne in Hm by done. right. rewrite not_elem_of_cons. naive_solver.
Qed.

Lemma insert_entries_is_Some `{Countable K} {V} (l : list (K * V)) (m : gmap K V) k :
  is_Some (insert_entries m l !! k) <->
  k ∈ map fst l \/ is_Some (m !! k).
Proof.
  unfold insert_entries. revert m. induction l as [|[k' v'] l IH]; intros m; simpl.
  - split; [by right | intros [?%elem_of_nil|]; done].
  - rewrite IH, lookup_insert_is_Some', elem_of_cons. naive_solver.
Qed.

Lemma insert_entries_app `{Countable K} {V} (m : gmap K V) (l r : list (K * V)) :
  insert_entries m (l ++ r) = insert_entries (insert_entries m l) r.
Proof. apply foldl_app. Qed.

Section Enforcement.
  Context {lpm : LpmTrie} {laws : LpmLaws lpm}.

(** An object file that has the maps, with nothing loaded in them yet. *)
Definition Fresh (k : Kernel) : Prop :=
  is_Some (DENY_PATHS_EXACT k) /\ is_Some (DENY_PATHS_PREFIX k) /\
  DENY_INO k = Some ∅ /\ CIDR_RULES_V4 k = Some trie_empty /\
  DENY_PORTS k = Some ∅ /\ ALLOW_PORTS k = Some ∅.

Lemma load_map_ok {T E} (get : Kernel -> option T) put (ins : T -> E -> Result T string) l k m k' :
  get k = Some m ->
  load_map get put ins l k = (Done (Ok ()), k') ->
  exists m', insert_all ins m l = (Ok (), m') /\ k' = put m' k.
Proof.
  unfold load_map, load_into, get_state, mbind, M_bind. intros ->.
  destruct (insert_all ins m l) as [[[]|x] m']; simpl; [|done].
  intros [= <-]. eauto.
Qed.

(** A successful load leaves exactly the compiled entries in the maps the hooks
    read, and the allow ports untouched. *)
Lemma set_tier1_rules_ok cp k0 k :
  Fresh k0 -> set_tier1_rules cp k0 = (Done (Ok ()), k) ->
  validate_network_enforcement_support cp = Ok () /\
  DENY_INO k = Some (insert_entries ∅
                       (inode_entries (inode_deny_exact (tier1 cp)))) /\
  DENY_PORTS k = Some (insert_entries ∅
                         (port_deny_entries (tier1 cp))) /\
  (exists t, CIDR_RULES_V4 k = Some t /\
     insert_all insert_cidr trie_empty (cidr_v4_entries (tier1 cp)) = (Ok (), t)) /\
  ALLOW_PORTS k = Some ∅ /\ CONFIG k = CONFIG k0 /\
  MONITORED_CGROUPS k = MONITORED_CGROUPS k0.
Proof.
  intros ([me He] & [mp Hp] & Hi & Hc & Hd & Ha). unfold set_tier1_rules.
  intros ([] & k1 & H1 & Hl)%try_bind_inv. injection H1 as H1 <-.
  apply try_bind_inv in Hl as ([] & k1 & L1 & Hl).
  destruct (load_map_ok _ _ _ _ _ _ _ He L1) as (m1 & _ & ->).
  apply try_bind_inv in Hl as ([] & k2 & L2 & Hl).
  eapply load_map_ok in L2 as (m2 & E2 & ->); [|exact Hi].
  apply try_bind_inv in Hl as ([] & k3 & L3 & Hl).
  eapply load_map_ok in L3 as (m3 & _ & ->); [|exact Hp].
  apply try_bind_inv in Hl as ([] & k4 & L4 & Hl).
  eapply load_map_ok in L4 as (m4 & E4 & ->); [|exact Hc].
  eapply load_map_ok in Hl as (m5 & E5 & ->); [|exact Hd].
  apply insert_all_hash in E2, E5. subst m2 m5. cbn. eauto 10.
Qed.

(** *** Addresses *)

(** The rule covers the address: the address agrees with the network on the
    bits of the prefix. *)
Definition covers (r : CidrRule) (n : nat) (a : list Z) : Prop :=
  exists addr len, cr_parsed r = V4 addr len /\ n = Z.to_nat len /\
    take n (addr_bits a) = take n (addr_bits addr).

(** Every IPv4 network of the rules has four octets and at most 32 bits. *)
Definition wf_nets (t : Tier1Rules) : Prop :=
  forall r addr len, r ∈ network_allow_cidrs t ++ network_deny_cidrs t ->
    cr_parsed r = V4 addr len -> length addr = 4 /\ (0 <= len <= 32)%Z.

Lemma addr_bits_length a : length (addr_bits a) = 8 * length a.
Proof. unfold addr_bits. induction a as [|o a IH]; [done|]. cbn in *. lia. Qed.

Definition cidr_pair (e : CidrMapEntry) : list bool * CidrRuleValue :=
  (take (Z.to_nat (ce_prefix_len e)) (addr_bits (ce_addr e)),
   mkCidrRuleValue (ce_action e) (ce_rule_id e)).

Lemma insert_all_cidr l t t' :
  insert_all insert_cidr t l = (Ok (), t') ->
  trie_rules t' = insert_entries (trie_rules t) (map cidr_pair l).
Proof.
  unfold insert_entries. revert t. induction l as [|e l IH]; intros t; simpl; [by intros [= <-]|].
  destruct (insert_cidr t e) as [t1|x] eqn:E; [|done]. intros Hl%IH.
  unfold insert_cidr in E. apply trie_rules_insert in E. by rewrite E in Hl.
Qed.

Lemma elem_cidr_entries t e :
  e ∈ cidr_v4_entries t <->
  (exists r, r ∈ network_allow_cidrs t /\ cidr_v4_entry ACTION_ALLOW r = Some e) \/
  (exists r, r ∈ network_deny_cidrs t /\ cidr_v4_entry ACTION_DENY r = Some e).
Proof. unfold cidr_v4_entries. by rewrite elem_of_app, !list_elem_of_omap. Qed.

Lemma cidr_v4_entry_Some action r e :
  cidr_v4_entry action r = Some e <->
  exists addr len, cr_parsed r = V4 addr len /\
    e = mkCidrMapEntry len addr action (cr_rule_id r).
Proof. unfold cidr_v4_entry. destruct (cr_parsed r); naive_solver. Qed.

Lemma cidr_key_covers r n a addr len :
  length a = 4 -> length addr = 4 -> (0 <= len <= 32)%Z -> n <= length (addr_bits a) ->
  cr_parsed r = V4 addr len ->
  take (Z.to_nat len) (addr_bits addr) = take n (addr_bits a) <-> covers r n a.
Proof.
  intros Ha Had Hlen Hn Hr. pose proof (addr_bits_length a). pose proof (addr_bits_length addr).
  split.
  - intros E. exists addr, len. split; [done|].
    assert (n = Z.to_nat len) as ->; [|done].
    apply (f_equal length) in E. rewrite !length_take in E. lia.
  - intros (addr' & len' & Hr' & -> & E). congruence.
Qed.

Lemma elem_keys {K V} (P : list (K * V)) k : k ∈ map fst P <-> exists v, (k, v) ∈ P.
Proof.
  rewrite list_elem_of_fmap.
  split; [intros ([? ?] & -> & ?); eauto | intros [v ?]; by exists (k, v)].
Qed.

Lemma cidr_pair_elem t a n action rs v :
  wf_nets t -> length a = 4 -> n <= length (addr_bits a) ->
  rs ⊆ network_allow_cidrs t ++ network_deny_cidrs t ->
  (take n (addr_bits a), v) ∈ map cidr_pair (omap (cidr_v4_entry action) rs) <->
  exists r, r ∈ rs /\ covers r n a /\ v = mkCidrRuleValue action (cr_rule_id r).
Proof.
  intros Hwf Ha Hn Hrs. rewrite list_elem_of_fmap. setoid_rewrite list_elem_of_omap.
  setoid_rewrite cidr_v4_entry_Some. unfold cidr_pair. split.
  - intros (e & [= Hk ->] & r & Hr & addr & len & Hv & ->). exists r.
    destruct (Hwf r addr len (Hrs r Hr) Hv) as [Had Hb].
    split_and!; [done | | done]. by apply (cidr_key_covers r n a addr len).
  - intros (r & Hr & Hc & ->). pose proof Hc as (addr & len & Hv & _ & _).
    destruct (Hwf r addr len (Hrs r Hr) Hv) as [Had Hb].
    exists (mkCidrMapEntry len addr action (cr_rule_id r)). simpl. split; [|eauto 10].
    f_equal. symmetry. by apply (cidr_key_covers r n a addr len).
Qed.

(** The value under a key: deny when a deny rule has the key, an allow rule's
    otherwise. *)
Definition value_of_rules (t : Tier1Rules) (a : list Z) (n : nat) (v : CidrRuleValue) : Prop :=
  (cv_action v = RULE_ACTION_DENY /\
   exists r, r ∈ network_deny_cidrs t /\ covers r n a /\ cv_rule_id v = cr_rule_id r) \/
  (cv_action v <> RULE_ACTION_DENY /\ forall r, r ∈ network_deny_cidrs t -> ~ covers r n a).

Lemma loaded_rules t trie a n :
  wf_nets t -> length a = 4 -> n <= length (addr_bits a) ->
  insert_all insert_cidr trie_empty (cidr_v4_entries t) = (Ok (), trie) ->
  (forall v, trie_rules trie !! take n (addr_bits a) = Some v -> value_of_rules t a n v) /\
  (is_Some (trie_rules trie !! take n (addr_bits a)) <->
     exists r, r ∈ network_allow_cidrs t ++ network_deny_cidrs t /\ covers r n a).
Proof.
  intros Hwf Ha Hn Hl. apply insert_all_cidr in Hl. rewrite trie_rules_empty in Hl.
  unfold cidr_v4_entries in Hl. rewrite map_app, insert_entries_app in Hl.
  assert (HA := fun v => cidr_pair_elem t a n ACTION_ALLOW (network_allow_cidrs t) v Hwf Ha Hn
    (list_subseteq_app_l _ _ _ (reflexivity _))).
  assert (HD := fun v => cidr_pair_elem t a n ACTION_DENY (network_deny_cidrs t) v Hwf Ha Hn
    (list_subseteq_app_r _ _ _ (reflexivity _))).
  split.
  - intros v Hv. rewrite Hl in Hv. apply insert_entries_lookup in Hv as [Hv|[Hv HvA]].
    + apply HD in Hv as (r & Hr & Hc & ->). left. simpl. eauto.
    + right. apply insert_entries_lookup in HvA as [HvA|[_ HvA]]; [|done].
      apply HA in HvA as (r & Hr & Hc & ->). split; [done|]. intros r' Hr' Hc'.
      apply Hv, elem_keys. eexists. apply HD; eauto.
  - rewrite Hl, !insert_entries_is_Some, lookup_empty, !elem_keys.
    setoid_rewrite HA. setoid_rewrite HD. setoid_rewrite elem_of_app.
    pose proof (is_Some_None (A:=CidrRuleValue)). naive_solver.
Qed.

(** The deny rule [r] decides for the address: none that covers it is more
    specific. *)
Definition deciding_rule (t : Tier1Rules) (a : list Z) (r : CidrRule) : Prop :=
  r ∈ network_deny_cidrs t /\
  exists n, covers r n a /\
    forall r' n', r' ∈ network_allow_cidrs t ++ network_deny_cidrs t ->
      covers r' n' a -> n' <= n.

Lemma covers_bound t r n a :
  wf_nets t -> length a = 4 -> r ∈ network_allow_cidrs t ++ network_deny_cidrs t ->
  covers r n a -> n <= length (addr_bits a).
Proof.
  intros Hwf Ha Hr (addr & len & Hv & -> & _). destruct (Hwf r addr len Hr Hv).
  rewrite addr_bits_length. lia.
Qed.

Lemma trie_denies t trie a :
  wf_nets t -> length a = 4 ->
  insert_all insert_cidr trie_empty (cidr_v4_entries t) = (Ok (), trie) ->
  (forall v, trie_get trie a = Some v -> cv_action v = RULE_ACTION_DENY ->
     exists r, deciding_rule t a r /\ cv_rule_id v = cr_rule_id r) /\
  (forall r, deciding_rule t a r ->
     exists v, trie_get trie a = Some v /\ cv_action v = RULE_ACTION_DENY).
Proof.
  intros Hwf Ha Hl. split.
  - intros v (n & Hn & Hv & Hmax)%trie_get_longest Hdeny.
    destruct (loaded_rules t trie a n Hwf Ha Hn Hl) as [Hval _].
    destruct (Hval v Hv) as [(_ & r & Hr & Hc & Hid)|[? _]]; [|done].
    exists r. split; [|done]. split; [done|]. exists n. split; [done|].
    intros r' n' Hr' Hc'. destruct (decide (n' <= n)) as [|Hgt]; [done|].
    pose proof (covers_bound _ _ _ _ Hwf Ha Hr' Hc') as Hb.
    destruct (loaded_rules t trie a n' Hwf Ha Hb Hl) as [_ Hsome].
    destruct (proj2 Hsome (ex_intro _ r' (conj Hr' Hc'))) as [w Hw].
    rewrite Hmax in Hw by lia. done.
  - intros r (Hr & n & Hc & Hmax).
    assert (Hr' : r ∈ network_allow_cidrs t ++ network_deny_cidrs t)
      by (apply elem_of_app; by right).
    pose proof (covers_bound _ _ _ _ Hwf Ha Hr' Hc) as Hb.
    destruct (loaded_rules t trie a n Hwf Ha Hb Hl) as [Hval Hsome].
    destruct (proj2 Hsome (ex_intro _ r (conj Hr' Hc))) as [v Hv].
    exists v. split.
    + apply trie_get_longest. exists n. split_and!; [done..|]. intros m [Hm Hm2].
      destruct (trie_rules trie !! take m (addr_bits a)) as [w|] eqn:Hw; [|done].
      destruct (loaded_rules t trie a m Hwf Ha Hm2 Hl) as [_ Hsm].
      rewrite Hw in Hsm. destruct (proj1 Hsm) as (r' & Hr2 & Hc2); [done|].
      specialize (Hmax r' m Hr2 Hc2). lia.
    + destruct (Hval v Hv) as [[? _]|[_ Hno]]; [done|]. by destruct (Hno r).
Qed.

(** *** The connect hook *)

Definition dst_port (c : SockCtx) : Z := u16_from_be (sk_user_port c).
Definition dst_addr (c : SockCtx) : list Z := le_bytes 4 (sk_user_ip4 c).

(** The last event of the socket ring buffer reports a block by the rule [id]. *)
Definition reports_block (c : SockCtx) (k : Kernel) (id : Z) : Prop :=
  exists e, last (SOCKET_EVENTS k) = Some e /\ se_event_type e = EVENT_CONNECT_BLOCKED /\
    se_rule_id e = id /\ se_action e = RULE_ACTION_DENY /\
    se_port e = dst_port c /\ se_addr_v4 e = sk_user_ip4 c.

Lemma emit_blocked_reports c id k (stat : Z) :
  sk_room c = true ->
  reports_block c (inc_socket_stat stat
    (emit_socket_event c EVENT_CONNECT_BLOCKED 2 (dst_port c) (sk_user_ip4 c) no_v6 id
       RULE_ACTION_DENY k)) id.
Proof.
  unfold reports_block, emit_socket_event. intros ->. eexists.
  split; [cbn; by rewrite last_snoc|]. by split_and!.
Qed.

Lemma port_lookup t port id :
  insert_entries ∅ (port_deny_entries t) !! port = Some id ->
  exists r, r ∈ network_deny_ports t /\ po_port r = port /\ po_rule_id r = id.
Proof.
  intros [H|[_ H]]%insert_entries_lookup; [|done].
  apply list_elem_of_fmap in H as (r & [= -> ->] & Hr). eauto.
Qed.

Lemma port_lookup_none t port r :
  insert_entries ∅ (port_deny_entries t) !! port = None ->
  r ∈ network_deny_ports t -> po_port r <> port.
Proof.
  intros H Hr <-. apply eq_None_not_Some in H. apply H, insert_entries_is_Some. left.
  apply elem_keys. exists (po_rule_id r). apply list_elem_of_fmap. by exists r.
Qed.

(** C33: What the policy denies, the kernel refuses, and it says why: with a
    policy loaded, the connect hook refuses a connect exactly when a deny rule
    names its port or the most specific CIDR rule that covers its address is a
    deny rule; and when it refuses, the event it emits carries the id of such a
    rule. *)
Theorem connect4_enforces cp k0 k c :
  Fresh k0 -> wf_nets (tier1 cp) ->
  set_tier1_rules cp k0 = (Done (Ok ()), k) ->
  let t := tier1 cp in
  let blocked := fst (connect4_hook c k) = 0%Z in
  (blocked <-> (exists r, r ∈ network_deny_ports t /\ po_port r = dst_port c) \/
               (exists r, deciding_rule t (dst_addr c) r)) /\
  (blocked -> sk_room c = true ->
     exists id, reports_block c (snd (connect4_hook c k)) id /\
       ((exists r, r ∈ network_deny_ports t /\ po_port r = dst_port c /\ po_rule_id r = id) \/
        (exists r, deciding_rule t (dst_addr c) r /\ cr_rule_id r = id))).
Proof.
  intros Hf Hwf Hl t blocked.
  destruct (set_tier1_rules_ok cp k0 k Hf Hl) as (_ & _ & Hp & (trie & Hc & Ht) & Ha & _).
  fold t in Hp, Ht, Hwf.
  destruct (trie_denies t trie (dst_addr c) Hwf (le_bytes_length _ _) Ht) as [Hd1 Hd2].
  unfold blocked, connect4_hook, try_connect4. cbn -[le_bytes u16_from_be].
  rewrite Hp, Ha, Hc. cbn -[le_bytes u16_from_be emit_socket_event emit_observed_connect inc_socket_stat].
  fold (dst_port c) (dst_addr c).
  destruct (insert_entries ∅ (port_deny_entries t) !! dst_port c) as [id|] eqn:Ep.
  - apply port_lookup in Ep as (r & Hr & Hport & Hid). cbn. split; [naive_solver|].
    intros _ Hroom. exists id. split; [by apply emit_blocked_reports | eauto 10].
  - pose proof (fun r => port_lookup_none t _ r Ep) as Hnp.
    rewrite lookup_empty. destruct (trie_get trie (dst_addr c)) as [v|] eqn:Ev.
    + destruct (Z.eqb_spec (cv_action v) RULE_ACTION_DENY) as [Hv|Hv]; cbn.
      * destruct (Hd1 v eq_refl Hv) as (r & Hr & Hid). split; [split; [eauto | done]|].
        intros _ Hroom. exists (cv_rule_id v). split; [rewrite Hv; by apply emit_blocked_reports | eauto 10].
      * split; [|done]. split; [done|]. intros [(r & Hr & ?)|(r & Hr)]; [by destruct (Hnp r Hr)|].
        destruct (Hd2 r Hr) as (w & [= ->] & Hw). done.
    + cbn. split; [|done]. split; [done|]. intros [(r & Hr & ?)|(r & Hr)]; [by destruct (Hnp r Hr)|].
      destruct (Hd2 r Hr) as (w & ? & _). done.
Qed.

(** *** The file-open hook *)

(** File enforcement is on for the task: every task is monitored, or the task's
    own cgroup is one of the monitored ones.  (The tracepoints also observe a
    task by its pid or by an ancestor of its cgroup.) *)
Definition OwnCgroupEnforced (c : FileCtx) (k : Kernel) : Prop :=
  (exists v, lookup_map (CONFIG k) KEY_MONITOR_ALL = Some v /\ v <> 0%Z) \/
  (exists v, lookup_map (MONITORED_CGROUPS k) (fc_cgroup_id c) = Some v).

Lemma own_cgroup_enforced c k :
  negb (Z.eqb (default 0%Z (lookup_map (CONFIG k) KEY_MONITOR_ALL)) 0) ||
  opt_is_some (lookup_map (MONITORED_CGROUPS k) (fc_cgroup_id c)) = true <-> OwnCgroupEnforced c k.
Proof.
  unfold OwnCgroupEnforced. rewrite orb_true_iff. f_equiv.
  - destruct (lookup_map (CONFIG k) KEY_MONITOR_ALL) as [v|]; cbn; [|by split; [|intros (? & ? & _)]].
    rewrite negb_true_iff, Z.eqb_neq. split; [intros; by exists v|by intros (? & [= <-] & ?)].
  - destruct (lookup_map _ _) as [v|]; cbn; [split; [intros; by exists v|done]|by split; [|intros [? ?]]].
Qed.

(** A device number as [stat] gives it, of 12 bits of major and 20 of minor: the
    low byte of the minor, the major, and the rest of the minor. *)
Definition StatDevice (dev major minor : Z) : Prop :=
  (0 <= major < 2 ^ 12 /\ 0 <= minor < 2 ^ 20 /\
   dev mod 2 ^ 32 = minor mod 2 ^ 8 + 2 ^ 8 * major + 2 ^ 20 * (minor / 2 ^ 8))%Z.
(** As the kernel keeps it in a superblock: the major above the minor. *)
Definition KernelDevice (major minor : Z) : Z := (2 ^ 20 * major + minor)%Z.

Lemma lor_shiftl_add a b n : (0 <= n -> 0 <= a < 2 ^ n -> Z.lor a (Z.shiftl b n) = a + 2 ^ n * b)%Z.
Proof.
  intros Hn Ha. assert (Z.land a (Z.shiftl b n) = 0)%Z as Hz.
  { apply Z.bits_inj'. intros i Hi. rewrite Z.land_spec, Z.shiftl_spec, Z.bits_0 by done.
    destruct (Z.lt_ge_cases i n).
    - rewrite (Z.testbit_neg_r b) by lia. apply andb_false_r.
    - rewrite <- (Z.mod_small a (2 ^ n)), Z.mod_pow2_bits_high by lia. done. }
  rewrite <- Z.lxor_lor, <- Z.add_nocarry_lxor by done. rewrite Z.shiftl_mul_pow2 by done. lia.
Qed.

Lemma dev_major_arith dev : dev_major dev = (dev / 2 ^ 8 mod 2 ^ 12)%Z.
Proof.
  unfold dev_major. change 0xfff%Z with (Z.ones 12). by rewrite Z.land_ones, Z.shiftr_div_pow2.
Qed.

Lemma dev_minor_arith dev : dev_minor dev = (dev mod 2 ^ 8 + 2 ^ 8 * (dev / 2 ^ 20 mod 2 ^ 12))%Z.
Proof.
  unfold dev_minor. change 0xff%Z with (Z.ones 8).
  assert (Z.land (Z.shiftr dev 12) 0xfff00 = Z.shiftl (dev / 2 ^ 20 mod 2 ^ 12) 8)%Z as ->.
  { change 0xfff00%Z with (Z.shiftl (Z.ones 12) 8). rewrite <- Z.land_ones, <- (Z.shiftr_div_pow2 dev) by done.
    change 20%Z with (12 + 8)%Z. rewrite <- Z.shiftr_shiftr by done.
    apply Z.bits_inj'. intros i Hi. rewrite Z.land_spec, !Z.shiftl_spec by done.
    destruct (Z.lt_ge_cases i 8).
    - rewrite !(Z.testbit_neg_r _ (i - 8)) by lia. apply andb_false_r.
    - rewrite Z.land_spec, !Z.shiftr_spec by lia. do 2 f_equal. lia. }
  rewrite lor_shiftl_add by (done || rewrite Z.land_ones by done; by apply Z.mod_pos_bound).
  by rewrite Z.land_ones.
Qed.

#[local] Ltac Zify.zify_post_hook ::= Z.to_euclidean_division_equations.

(** The loader's second key: the kernel's form of the device that the rule's
    number stands for. *)
Lemma dev_alt_device dev x :
  x = dev_alt dev <-> exists major minor, StatDevice dev major minor /\ x = KernelDevice major minor.
Proof.
  assert (dev_alt dev = KernelDevice (dev_major dev) (dev_minor dev)) as ->.
  { unfold dev_alt, KernelDevice. rewrite dev_major_arith, dev_minor_arith. unfold as_u32.
    rewrite Z.shiftl_mul_pow2, Z.mod_small by lia. rewrite Z.lor_comm, <- Z.shiftl_mul_pow2 by done.
    rewrite lor_shiftl_add; lia. }
  assert (StatDevice dev (dev_major dev) (dev_minor dev)) as Hd.
  { rewrite dev_major_arith, dev_minor_arith. unfold StatDevice. lia. }
  split; [intros ->; eauto|]. intros (major & minor & Hs & ->).
  assert (major = dev_major dev /\ minor = dev_minor dev) as [-> ->]; [|done].
  unfold StatDevice in *. rewrite dev_major_arith, dev_minor_arith in *. lia.
Qed.

#[local] Ltac Zify.zify_post_hook ::= idtac.

Lemma inode_entries_key rules key :
  key ∈ map fst (inode_entries rules) <-> exists r, r ∈ rules /\ key ∈ inode_keys r.
Proof.
  rewrite elem_keys. unfold inode_entries. setoid_rewrite list_elem_of_bind.
  setoid_rewrite list_elem_of_fmap. split.
  - intros (v & r & (k & [= <- ->] & Hk) & Hr). eauto.
  - intros (r & Hr & Hk). exists (ir_rule_id r), r. eauto.
Qed.

(** Some rule names the inode: its number, and its device as the rule has it or
    in the kernel's form. *)
Definition InodeDenied (rules : list InodeRule) (ino dev : Z) : Prop :=
  exists r, r ∈ rules /\ ir_ino r = ino /\
    (dev = ir_dev r \/ exists major minor, StatDevice (ir_dev r) major minor /\ dev = KernelDevice major minor).

Definition inode_denied (rules : list InodeRule) (ino dev : Z) : Prop :=
  exists r, r ∈ rules /\ ir_ino r = ino /\ (dev = ir_dev r \/ dev = dev_alt (ir_dev r)).

Lemma inode_key_gen0 rules ino dev :
  (exists r, r ∈ rules /\ mkInodeKey ino dev 0 ∈ inode_keys r) <-> inode_denied rules ino dev.
Proof.
  unfold inode_denied, inode_keys. split.
  - intros (r & Hr & Hk). exists r. split; [done|].
    destruct (Z.eqb_spec (ir_gen r) 0) as [E|E]; cbn in Hk;
      rewrite !elem_of_cons, elem_of_nil in Hk; naive_solver.
  - intros (r & Hr & <- & Hd). exists r. split; [done|].
    destruct (Z.eqb_spec (ir_gen r) 0) as [E|E]; cbn; rewrite !elem_of_cons;
      destruct Hd as [-> | ->]; rewrite ?E; tauto.
Qed.

Lemma inode_key_any rules ino dev gen :
  (exists r, r ∈ rules /\ mkInodeKey ino dev gen ∈ inode_keys r) -> inode_denied rules ino dev.
Proof.
  unfold inode_denied, inode_keys. intros (r & Hr & Hk). exists r. split; [done|].
  destruct (Z.eqb_spec (ir_gen r) 0) as [E|E]; cbn in Hk;
    rewrite !elem_of_cons, elem_of_nil in Hk; naive_solver.
Qed.

Lemma block_file_refuses c d i id k : fst (block_file c d i id k) = Err (-1)%Z.
Proof. reflexivity. Qed.

Lemma inode_denied_iff rules ino dev : inode_denied rules ino dev <-> InodeDenied rules ino dev.
Proof. unfold inode_denied, InodeDenied. by setoid_rewrite dev_alt_device. Qed.

(** The inode and the device that the hook reads; what cannot be read is zero. *)
Definition inode_number (inode : InodeView) : Z := default 0%Z (iv_ino inode).
Definition inode_device (inode : InodeView) : Z :=
  match iv_sb inode with None => 0%Z | Some d => default 0%Z d end.

Lemma file_open_cases cp k0 k c :
  Fresh k0 -> set_tier1_rules cp k0 = (Done (Ok ()), k) ->
  let refused := OwnCgroupEnforced c k /\ exists inode, fc_file c = Some (Some inode) /\
    InodeDenied (inode_deny_exact (tier1 cp)) (inode_number inode) (inode_device inode) in
  (refused /\ fst (file_open_lsm c k) = (-1)%Z) \/ (~ refused /\ fst (file_open_lsm c k) = 0%Z).
Proof.
  intros Hf Hl refused.
  destruct (set_tier1_rules_ok cp k0 k Hf Hl) as (_ & Hi & _).
  set (rules := inode_deny_exact (tier1 cp)) in *.
  assert (Hkey : forall key, is_Some (lookup_map (DENY_INO k) key) <->
    exists r, r ∈ rules /\ key ∈ inode_keys r).
  { intros key. rewrite Hi. cbn. rewrite insert_entries_is_Some, lookup_empty, inode_entries_key.
    pose proof (is_Some_None (A:=Z)). naive_solver. }
  unfold file_open_lsm, try_file_open_lsm.
  destruct (fc_file c) as [[inode|]|] eqn:Hfile; cbn -[block_file emit_event copy_at le_bytes].
  2,3: right; split; [by intros [_ (? & ? & _)]|];
    first [done | match goal with |- context [if ?b then _ else _] => by destruct b end].
  pose proof (own_cgroup_enforced c k) as Hcov. rewrite <- negb_orb.
  destruct (negb _ || _); cbn -[block_file emit_event copy_at le_bytes].
  2: { right. split; [|done]. intros [?%Hcov _]. done. }
  assert (OwnCgroupEnforced c k) as Hown by by apply Hcov. fold (inode_number inode) (inode_device inode).
  assert (Hr : refused <-> inode_denied rules (inode_number inode) (inode_device inode)).
  { rewrite inode_denied_iff. split; [|by intros; split; [|exists inode]]. intros [_ (i & Hfi & Hd)]. by injection Hfi as <-. }
  set (gen := default 0%Z (iv_gen inode)).
  destruct (if negb (Z.eqb gen 0) then _ else None) as [id|] eqn:Ex.
  - left. split; [|done]. apply Hr. destruct (negb (Z.eqb gen 0)); [|done].
    apply (inode_key_any _ _ _ gen), Hkey. by rewrite Ex.
  - pose proof (Hkey (mkInodeKey (inode_number inode) (inode_device inode) 0)) as Hgen0. rewrite inode_key_gen0 in Hgen0.
    destruct (lookup_map (DENY_INO k) (mkInodeKey _ _ 0)) as [id|].
    + left. split; [|done]. apply Hr. by apply Hgen0.
    + right. split; [intros Hd%Hr%Hgen0; by destruct Hd|]. by destruct (Z.eqb (default 1%Z _) 0).
Qed.

(** C34: File enforcement: with inode rules loaded, an open is refused exactly
    when every task is monitored or the task's own cgroup is a monitored one,
    and some rule names the file's inode, whatever the generation the rule or
    the file has, with the file's device as the rule gives it or in the form
    that the kernel keeps.  Every other open is let through: also that of a task
    which the tracepoints observe only by its pid or by an ancestor of its
    cgroup. *)
Theorem file_open_enforces cp k0 k c :
  Fresh k0 -> set_tier1_rules cp k0 = (Done (Ok ()), k) ->
  (fst (file_open_lsm c k) = (-1)%Z <->
   OwnCgroupEnforced c k /\ exists inode, fc_file c = Some (Some inode) /\
     InodeDenied (inode_deny_exact (tier1 cp)) (inode_number inode) (inode_device inode)) /\
  (fst (file_open_lsm c k) = (-1)%Z \/ fst (file_open_lsm c k) = 0%Z).
Proof.
  intros Hf Hl. destruct (file_open_cases cp k0 k c Hf Hl) as [[Hr ->]|[Hr ->]]; (split; [|auto]); by split.
Qed.

(** A task in a cgroup nested below a monitored one is observed by the
    tracepoints, which scan its ancestors, and is not covered by the file-open
    hook, which looks at the task's own cgroup only: a file whose inode is
    denied is opened. *)
Theorem nested_cgroup_not_enforced k c t inode :
  lookup_map (CONFIG k) KEY_MONITOR_ALL = None ->
  lookup_map (CONFIG k) KEY_MAX_ANCESTOR_DEPTH = None ->
  lookup_map (MONITORED_CGROUPS k) (fc_cgroup_id c) = None ->
  fc_file c = Some (Some inode) -> tc_cgroup_id t = fc_cgroup_id c ->
  tc_ancestor t 0 <> 0%Z ->
  is_Some (lookup_map (MONITORED_CGROUPS k) (tc_ancestor t 0)) ->
  is_monitored t k = true /\ fst (file_open_lsm c k) = 0%Z.
Proof.
  intros Hm Hd Hc Hf Ht Ha [v Hv]. split.
  - unfold is_monitored, max_ancestor_depth. rewrite Hm, Hd, Ht, Hc. simpl.
    destruct (opt_is_some (lookup_map (MONITORED_PIDS k) (tc_tgid t))); [done|].
    apply Z.eqb_neq in Ha. by rewrite Ha, Hv.
  - unfold file_open_lsm, try_file_open_lsm. rewrite Hf. cbn. by rewrite Hm, Hc.
Qed.

(** *** Allow ports and configuration keys *)

(** The ports a policy allows never reach the kernel: whatever the policy,
    the map the hook consults for them stays empty, so an allowed port gives no
    exemption from a CIDR deny rule. *)
Theorem allow_ports_not_enforced cp k0 k c r :
  Fresh k0 -> wf_nets (tier1 cp) -> set_tier1_rules cp k0 = (Done (Ok ()), k) ->
  dst_port c ∈ network_allow_ports (tier1 cp) ->
  deciding_rule (tier1 cp) (dst_addr c) r ->
  lookup_map (ALLOW_PORTS k) (dst_port c) = None /\ fst (connect4_hook c k) = 0%Z.
Proof.
  intros Hf Hwf Hl _ Hr.
  destruct (set_tier1_rules_ok cp k0 k Hf Hl) as (_ & _ & Hp & (trie & Hc & Ht) & Ha & _).
  split; [by rewrite Ha|].
  destruct (trie_denies (tier1 cp) trie (dst_addr c) Hwf (le_bytes_length _ _) Ht) as [_ Hd].
  destruct (Hd r Hr) as (v & Hv & Hdeny).
  unfold connect4_hook, try_connect4. cbn -[le_bytes u16_from_be]. rewrite Hp, Ha, Hc.
  cbn -[le_bytes u16_from_be emit_socket_event emit_observed_connect].
  fold (dst_port c) (dst_addr c). rewrite lookup_empty, Hv, Hdeny.
  by destruct (insert_entries ∅ _ !! dst_port c).
Qed.

Lemma set_config_one key v k m :
  CONFIG k = Some m -> (size m < MAX_CONFIG)%nat ->
  set_config [(key, v)] k = (Done (Ok ()), k <| CONFIG := Some (<[key := v]> m) |>).
Proof.
  intros Hm Hs. unfold set_config, get_state, mbind, M_bind, try_bind, load_into.
  rewrite Hm. cbn. unfold insert_pair, hash_insert.
  apply Nat.ltb_lt in Hs. rewrite Hs, orb_true_r. cbn.
  unfold config_verify. cbn. by rewrite lookup_insert_eq, Z.eqb_refl.
Qed.

(** Two settings share one key of the configuration map: asking the kernel to
    deduplicate open paths makes the connect hook emit an event for an allowed
    connect, which nothing asked for. *)
Theorem dedup_enables_observed_connect k m c :
  CONFIG k = Some m -> (size m < MAX_CONFIG)%nat ->
  lookup_map (CONFIG k) KEY_EMIT_OBSERVED_CONNECT = None ->
  lookup_map (DENY_PORTS k) (dst_port c) = None ->
  lookup_map (ALLOW_PORTS k) (dst_port c) = None ->
  trie_lookup (CIDR_RULES_V4 k) (dst_addr c) = None -> sk_room c = true ->
  exists k1, set_dedup_open_paths true k = (Done (Ok ()), k1) /\
    SOCKET_EVENTS (snd (connect4_hook c k)) = SOCKET_EVENTS k /\
    exists e, SOCKET_EVENTS (snd (connect4_hook c k1)) = SOCKET_EVENTS k ++ [e] /\
      se_event_type e = EVENT_CONNECT_OBSERVED.
Proof.
  intros Hm Hs Hk Hd Ha Ht Hroom. eexists.
  split; [apply (set_config_one _ _ _ _ Hm Hs)|].
  unfold connect4_hook, try_connect4, emit_observed_connect.
  cbn -[le_bytes u16_from_be emit_socket_event]. fold (dst_port c) (dst_addr c).
  rewrite Hd, Ha, Ht. cbn -[le_bytes u16_from_be emit_socket_event].
  rewrite Hk, lookup_insert_eq. cbn -[emit_socket_event].
  split; [done|]. unfold emit_socket_event. rewrite Hroom. cbn. eexists. split; reflexivity.
Qed.
End Enforcement.

(** ** Device numbers *)

Lemma land_ones_shift z n k i :
  (0 <= i)%Z -> (0 <= n)%Z -> (0 <= k)%Z ->
  Z.testbit (Z.land z (Z.shiftl (Z.ones n) k)) i =
  Z.testbit z i && bool_decide (k <= i < k + n)%Z.
Proof.
  intros Hi Hn Hk. rewrite Z.land_spec, Z.shiftl_spec by done. f_equal.
  destruct (Z.ltb_spec i k).
  - rewrite Z.testbit_neg_r by lia. symmetry. apply bool_decide_eq_false. lia.
  - rewrite Z.testbit_ones by done. apply eq_bool_prop_intro.
    rewrite bool_decide_spec, Is_true_true, andb_true_iff, Z.leb_le, Z.ltb_lt. lia.
Qed.

Lemma as_u32_testbit z i :
  (0 <= i)%Z -> Z.testbit (as_u32 z) i = Z.testbit z i && bool_decide (i < 32)%Z.
Proof.
  intros Hi. unfold as_u32. destruct (Z.ltb_spec i 32).
  - rewrite Z.mod_pow2_bits_low by lia. rewrite bool_decide_eq_true_2 by lia. by rewrite andb_true_r.
  - rewrite Z.mod_pow2_bits_high by lia. rewrite bool_decide_eq_false_2 by lia. by rewrite andb_false_r.
Qed.

Ltac dev_masks :=
  change 0xff%Z with (Z.shiftl (Z.ones 8) 0); change 0xfff%Z with (Z.shiftl (Z.ones 12) 0);
  change 0xfff00%Z with (Z.shiftl (Z.ones 12) 8);
  change 0xfffff00%Z with (Z.shiftl (Z.ones 20) 8).

Lemma testbit_shiftl z n i :
  (0 <= i)%Z -> Z.testbit (Z.shiftl z n) i = Z.testbit z (i - n).
Proof. apply Z.shiftl_spec. Qed.

Lemma dev_minor_testbit dev i :
  (0 <= i)%Z ->
  Z.testbit (dev_minor dev) i =
  (Z.testbit dev i && bool_decide (i < 8)%Z) || (Z.testbit dev (i + 12) && bool_decide (8 <= i < 20)%Z).
Proof.
  intros Hi. unfold dev_minor. dev_masks.
  rewrite Z.lor_spec, !land_ones_shift, Z.shiftr_spec by lia. f_equal; f_equal;
    apply bool_decide_ext; lia.
Qed.

Lemma dev_major_testbit dev i :
  (0 <= i)%Z ->
  Z.testbit (dev_major dev) i = Z.testbit dev (i + 8) && bool_decide (i < 12)%Z.
Proof.
  intros Hi. unfold dev_major. dev_masks. rewrite land_ones_shift, Z.shiftr_spec by lia.
  f_equal. apply bool_decide_ext. lia.
Qed.

Ltac decide_bits :=
  repeat match goal with
  | |- context [bool_decide ?P] =>
      first [ rewrite (bool_decide_eq_true_2 P) by lia
            | rewrite (bool_decide_eq_false_2 P) by lia ]
  | |- context [Z.testbit _ ?j] => rewrite (Z.testbit_neg_r _ j) by lia
  end;
  rewrite ?andb_true_r, ?andb_false_r, ?orb_false_r; simpl;
  rewrite ?andb_true_r, ?andb_false_r, ?orb_false_r.

(** The device encoding of the rules is the low half of the user-space device
    number. *)
Lemma encode_kernel_dev_low dev : encode_kernel_dev dev = as_u32 dev.
Proof.
  apply Z.bits_inj'. intros i Hi. unfold encode_kernel_dev.
  fold (dev_major dev) (dev_minor dev). dev_masks.
  rewrite !Z.lor_spec, !as_u32_testbit, !Z.shiftl_spec, (land_ones_shift _ 8), as_u32_testbit,
    dev_minor_testbit by lia.
  destruct (Z.ltb_spec i 8); [by decide_bits|].
  rewrite (land_ones_shift _ 12), as_u32_testbit, dev_major_testbit by lia.
  replace (i - 8 + 8)%Z with i by lia.
  destruct (Z.ltb_spec i 12); [by decide_bits|].
  rewrite (land_ones_shift _ 20), as_u32_testbit, dev_minor_testbit by lia.
  replace (i - 12 + 12)%Z with i by lia.
  destruct (Z.ltb_spec i 20); [by decide_bits|].
  destruct (Z.ltb_spec i 32); by decide_bits.
Qed.

(** A device number survives the encoding used for inode rules: major and
    minor read back from the encoded number are those of the original, so the
    alternate key the loader derives from a rule is the one it would derive
    from the device itself. *)
Theorem encode_kernel_dev_roundtrip dev :
  dev_major (encode_kernel_dev dev) = dev_major dev /\
  dev_minor (encode_kernel_dev dev) = dev_minor dev /\
  dev_alt (encode_kernel_dev dev) = dev_alt dev.
Proof.
  assert (Hmaj : dev_major (encode_kernel_dev dev) = dev_major dev).
  { apply Z.bits_inj'. intros i Hi.
    rewrite !dev_major_testbit, encode_kernel_dev_low, as_u32_testbit by lia.
    destruct (Z.ltb_spec i 12); by decide_bits. }
  assert (Hmin : dev_minor (encode_kernel_dev dev) = dev_minor dev).
  { apply Z.bits_inj'. intros i Hi.
    rewrite !dev_minor_testbit, encode_kernel_dev_low, !as_u32_testbit by lia.
    destruct (Z.ltb_spec i 8); [by decide_bits|].
    destruct (Z.ltb_spec i 20); by decide_bits. }
  unfold dev_alt. by rewrite Hmaj, Hmin.
Qed.

(** ** An instance of the trie, and the theorems at work *)

Fixpoint lpm_search (m : gmap (list bool) CidrRuleValue) (bits : list bool) (n : nat)
  : option CidrRuleValue :=
  match m !! take n bits, n with
  | Some v, _ => Some v
  | None, O => None
  | None, S n' => lpm_search m bits n'
  end.

Lemma lpm_search_spec m bits n v :
  lpm_search m bits n = Some v <->
  exists j, j <= n /\ m !! take j bits = Some v /\
    forall i, j < i <= n -> m !! take i bits = None.
Proof.
  induction n as [|n IH]; cbn [lpm_search].
  - destruct (m !! take 0 bits) as [w|] eqn:E; split.
    + intros [= ->]. exists 0. split_and!; [lia | done | lia].
    + intros (j & Hj & Hv & _). assert (j = 0) as -> by lia. congruence.
    + done.
    + intros (j & Hj & Hv & _). assert (j = 0) as -> by lia. congruence.
  - destruct (m !! take (S n) bits) as [w|] eqn:E.
    + split.
      * intros [= ->]. exists (S n). split_and!; [lia | done | lia].
      * intros (j & Hj & Hv & Hn). destruct (decide (j = S n)) as [->|]; [congruence|].
        rewrite Hn in E by lia. done.
    + rewrite IH. split; intros (j & Hj & Hv & Hn).
      * exists j. split_and!; [lia | done |]. intros i Hi.
        destruct (decide (i = S n)) as [->|]; [done | apply Hn; lia].
      * exists j. destruct (decide (j = S n)) as [->|]; [congruence|].
        split_and!; [lia | done |]. intros i Hi. apply Hn. lia.
Qed.

#[export] Instance map_trie : LpmTrie := {
  Trie := gmap (list bool) CidrRuleValue;
  trie_empty := ∅;
  trie_insert t n a v :=
    if ((0 <=? n) && (n <=? 8 * Z.of_nat (length a)))%Z
    then Ok (<[take (Z.to_nat n) (addr_bits a) := v]> t) else Err "EINVAL";
  trie_get t a := lpm_search t (addr_bits a) (length (addr_bits a))
}.

#[export] Instance map_trie_laws : LpmLaws map_trie.
Proof.
  refine {| trie_rules := fun t : @Trie map_trie => t |}; [done| |].
  - intros t n a v t'. cbn. case_match; [by intros [= <-] | done].
  - intros t a v. apply lpm_search_spec.
Defined.

Definition demo_ipnet : IpNetParser := fun s =>
  if String.eqb s "10.0.0.0/8" then Ok (V4 [10; 0; 0; 0]%Z 8)
  else if String.eqb s "10.1.0.0/16" then Ok (V4 [10; 1; 0; 0]%Z 16)
  else Err "invalid IP address syntax".

Definition demo_tier_policy : Policy :=
  mkPolicy (mkFilePolicy ["/etc/shadow"; "/root/*"; "/home/**/.ssh"] ["/tmp/*"])
    (mkNetworkPolicy ["10.1.0.0/16"] ["10.0.0.0/8"; "bogus"] [443]%Z [22]%Z ["evil.example:80"])
    (mkProcessPolicy ["nc"] []).

Definition demo_compiled : CompiledPolicy :=
  let c := compile (ipnet := demo_ipnet) demo_tier_policy in
  mkCompiled ((tier1 c) <| inode_deny_exact := [mkInodeRule 1 2049 77 5] |>) (tier2 c) (stats c).

Definition demo_kernel0 : Kernel :=
  mkKernel _ (Some ∅) (Some ∅) (Some {[7%Z := 1%Z]}) (Some ∅) (Some ∅) (Some ∅) (Some ∅)
    (Some ∅) (Some ∅) (Some ∅) [] ∅ [] ∅ 0 0 0.

Definition demo_kernel : Kernel := snd (set_tier1_rules demo_compiled demo_kernel0).

(** A connect to 10.2.0.1, port 443. *)
Definition demo_sock : SockCtx := mkSockCtx (256 * 187 + 1) (10 + 256 * 2 + 256 ^ 3) [] 7 0 0 true.

Lemma demo_load : set_tier1_rules demo_compiled demo_kernel0 = (Done (Ok ()), demo_kernel).
Proof. vm_compute. reflexivity. Qed.

Lemma demo_fresh : Fresh demo_kernel0.
Proof. unfold Fresh. cbn. split_and!; eauto. Qed.

Lemma demo_wf_nets : wf_nets (tier1 demo_compiled).
Proof.
  intros r addr len Hr Hv. vm_compute in Hr.
  repeat (apply elem_of_cons in Hr as [->|Hr]; [cbn in Hv; by injection Hv as <- <-|]).
  by apply elem_of_nil in Hr.
Qed.

Lemma demo_deciding :
  deciding_rule (tier1 demo_compiled) (dst_addr demo_sock)
    (mkCidrRule 6 "10.0.0.0/8" (V4 [10; 0; 0; 0]%Z 8)).
Proof.
  split; [apply list_elem_of_In; vm_compute; by left|]. exists 8. split; [by exists [10; 0; 0; 0]%Z, 8%Z|].
  intros r n Hr (addr & len & Hv & -> & Hc). vm_compute in Hr.
  repeat (apply elem_of_cons in Hr as [->|Hr]; [cbn in Hv; injection Hv as <- <-; first [by vm_compute in Hc | lia]|]).
  by apply elem_of_nil in Hr.
Qed.

Lemma compile_ids_identify_witness :
  (0 < 1 <= u32_max)%Z /\ 0 = 0 /\
  emit (ipnet := demo_ipnet) 1 (IFileDeny "/etc/shadow") =
  emit (ipnet := demo_ipnet) 1 (IFileDeny "/etc/shadow").
Proof.
  apply (compile_ids_identify (ipnet := demo_ipnet) demo_tier_policy 0 0 _ _ 1); reflexivity.
Defined.

Lemma socket_event_roundtrip_witness :
  let e := mkSocketEvent 20 1 2 7 2 443 16777738 no_v6 6 2 in
  exists m, parse_socket_event (socket_event_bytes e) = Ok m /\
    decode_blocked_socket_payload (fun _ => EmptyString) (me_data m) =
    Some (mkBlockedSocket 7 2 443 "10.2.0.1" 6).
Proof.
  apply (socket_event_roundtrip (fun _ => EmptyString)).
  - unfold wf_socket_event. cbn. lia.
  - by left.
Defined.

Lemma connect4_enforces_witness :
  fst (connect4_hook demo_sock demo_kernel) = 0%Z.
Proof.
  apply (connect4_enforces demo_compiled demo_kernel0 demo_kernel demo_sock
    demo_fresh demo_wf_nets demo_load).
  right. eexists. exact demo_deciding.
Defined.

Definition demo_inode : InodeView := mkInodeView (Some 77%Z) (Some 9%Z) (Some (Some 2049%Z)).

Lemma file_open_enforces_witness :
  fst (file_open_lsm (mkFileCtx (Some (Some demo_inode)) 7 0 true) demo_kernel) = (-1)%Z.
Proof.
  apply (file_open_enforces demo_compiled demo_kernel0 demo_kernel
    (mkFileCtx (Some (Some demo_inode)) 7 0 true) demo_fresh demo_load).
  split; [right; vm_compute; eauto|]. exists demo_inode. split; [reflexivity|].
  exists (mkInodeRule 1 2049 77 5). split; [by left|]. split; [done | by left].
Defined.

Lemma nested_cgroup_not_enforced_witness :
  let c := mkFileCtx (Some (Some demo_inode)) 8 0 true in
  let t := mkTaskCtx 1 8 (fun i => match i with O => 7%Z | _ => 0%Z end) in
  is_monitored t demo_kernel = true /\ fst (file_open_lsm c demo_kernel) = 0%Z.
Proof.
  eapply (nested_cgroup_not_enforced demo_kernel); try reflexivity; [done|].
  vm_compute. eauto.
Defined.

Lemma allow_ports_not_enforced_witness :
  lookup_map (ALLOW_PORTS demo_kernel) (dst_port demo_sock) = None /\
  fst (connect4_hook demo_sock demo_kernel) = 0%Z.
Proof.
  apply (allow_ports_not_enforced demo_compiled demo_kernel0 demo_kernel demo_sock
    (mkCidrRule 6 "10.0.0.0/8" (V4 [10; 0; 0; 0]%Z 8)) demo_fresh demo_wf_nets demo_load); [vm_compute; by left | exact demo_deciding].
Defined.

Lemma dedup_enables_observed_connect_witness :
  exists k1, set_dedup_open_paths true demo_kernel0 = (Done (Ok ()), k1) /\
    SOCKET_EVENTS (snd (connect4_hook demo_sock demo_kernel0)) = [] /\
    exists e, SOCKET_EVENTS (snd (connect4_hook demo_sock k1)) = [e] /\
      se_event_type e = EVENT_CONNECT_OBSERVED.
Proof.
  apply (dedup_enables_observed_connect demo_kernel0 ∅ demo_sock); try reflexivity.
  vm_compute. lia.
Defined.
