(* ===== verification/ProcessTree.v ===== *)
(** * The process tree of a monitored run

    [assay-monitor/src/tree]: the tracker that records which processes descend
    from the monitored ones.  Its state is a map of nodes and a set of roots
    behind a lock.  Each operation runs under the lock, so concurrent callers
    amount to a sequence of operations; [track_root] releases the lock before
    it scans existing children, and its forks interleave with others like any
    fork.  What is read from /proc (a process's children and metadata) is an
    answer of the environment, which may differ at every reading. *)
From stdpp Require Import base tactics list strings gmap.
From Stdlib Require Import ZArith Lia.
From S2P Require Import Prelude RustStr.

Inductive ProcessState : Type := Running | Exited | Killed.
#[global] Instance ProcessState_eq_dec : EqDecision ProcessState.
Proof. solve_decision. Defined.

Record ProcessNode : Type := mkNode {
  pn_pid : Z;
  parent_pid : option Z;
  children : gset Z;
  exe : option string;
  cmdline : option string;
  cwd : option string;
  pn_state : ProcessState;
  depth : Z
}.
#[global] Instance ProcessNode_eta : Eta ProcessNode := fun n =>
  mkNode (pn_pid n) (parent_pid n) (children n) (exe n) (cmdline n) (cwd n) (pn_state n) (depth n).

Definition new_root (pid : Z) : ProcessNode := mkNode pid None ∅ None None None Running 0.
Definition new_child (pid parent parent_depth : Z) : ProcessNode :=
  mkNode pid (Some parent) ∅ None None None Running (as_u32 (parent_depth + 1)).

Record TrackerConfig : Type := mkTrackerConfig {
  max_depth : Z;
  scan_existing_children : bool;
  refresh_metadata_flag : bool
}.
Definition tracker_config_default : TrackerConfig := mkTrackerConfig 20 true true.

Inductive TrackerError : Type := AlreadyTracked (pid : Z) | LockPoisoned.

(** What reading /proc returns at a tick: the children of a process, or an
    error, and its command line, executable and working directory. *)
Class ProcFs : Type := {
  proc_children : nat -> Z -> option (list Z);
  proc_cmdline : nat -> Z -> option string;
  proc_exe : nat -> Z -> option string;
  proc_cwd : nat -> Z -> option string
}.

Record Tracker : Type := mkTracker {
  nodes : gmap Z ProcessNode;
  roots : gset Z;
  poisoned : bool;
  tick : nat
}.
#[global] Instance Tracker_eta : Eta Tracker := fun t =>
  mkTracker (nodes t) (roots t) (poisoned t) (tick t).

Definition tracker_new : Tracker := mkTracker ∅ ∅ false 0.

Section Tracker_ops.
  Context {proc : ProcFs} (config : TrackerConfig).

Definition refresh_metadata (now : nat) (n : ProcessNode) : ProcessNode :=
  if bool_decide (pn_state n = Running) then
    n <| cmdline := proc_cmdline now (pn_pid n) |>
      <| exe := proc_exe now (pn_pid n) |>
      <| cwd := proc_cwd now (pn_pid n) |>
  else n.

Definition maybe_refresh (t : Tracker) (n : ProcessNode) : ProcessNode :=
  if refresh_metadata_flag config then refresh_metadata (tick t) n else n.

Definition bump (t : Tracker) : Tracker := t <| tick := S (tick t) |>.

Definition on_fork (parent child : Z) (t : Tracker) : Result () TrackerError * Tracker :=
  if poisoned t then (Err LockPoisoned, t)
  else
  match nodes t !! parent with
  | None => (Ok (), t)
  | Some p =>
      let parent_depth := depth p in
      if (max_depth config <=? parent_depth)%Z then (Ok (), t)
      else if bool_decide (is_Some (nodes t !! child)) then (Ok (), t)
      else
        let child_node := maybe_refresh t (new_child child parent parent_depth) in
        let t := bump t in
        let t := match nodes t !! parent with
                 | Some p => t <| nodes := <[parent := p <| children := {[child]} ∪ children p |>]>
                                             (nodes t) |>
                 | None => t
                 end in
        (Ok (), t <| nodes := <[child := child_node]> (nodes t) |>)
  end.

Definition on_exit (pid : Z) (t : Tracker) : Result () TrackerError * Tracker :=
  if poisoned t then (Err LockPoisoned, t)
  else
  let parent := match nodes t !! pid with Some n => parent_pid n | None => None end in
  let t := match parent with
           | Some ppid =>
               match nodes t !! ppid with
               | Some p => t <| nodes := <[ppid := p <| children := children p ∖ {[pid]} |>]>
                                           (nodes t) |>
               | None => t
               end
           | None => t
           end in
  (Ok (), match nodes t !! pid with
          | Some n => t <| nodes := <[pid := n <| pn_state := Exited |>]> (nodes t) |>
          | None => t
          end).

(** [scan_children] at depth [max_depth - fuel]: it stops at [max_depth], so
    the levels left to descend are its fuel. *)
Fixpoint scan_children (fuel : nat) (pid : Z) (t : Tracker) : Result () TrackerError * Tracker :=
  match fuel with
  | O => (Ok (), t)
  | S fuel' =>
      let kids := default [] (proc_children (tick t) pid) in
      (Ok (), foldl (fun t child =>
                match on_fork pid child t with
                | (Err _, t) => t
                | (Ok _, t) => snd (scan_children fuel' child t)
                end) (bump t) kids)
  end.

Definition track_root (pid : Z) (t : Tracker) : Result () TrackerError * Tracker :=
  if poisoned t then (Err LockPoisoned, t)
  else if bool_decide (is_Some (nodes t !! pid)) then (Err (AlreadyTracked pid), t)
  else
    let node := maybe_refresh t (new_root pid) in
    let t := bump t in
    let t := t <| roots := {[pid]} ∪ roots t |> in
    let t := t <| nodes := <[pid := node]> (nodes t) |> in
    if scan_existing_children config
    then scan_children (Z.to_nat (max_depth config)) pid t
    else (Ok (), t).
End Tracker_ops.

(** ** Export *)

Inductive ProcessStateExport : Type := XRunning | XExited | XKilled.

Record ProcessNodeExport : Type := mkNodeExport {
  x_pid : Z;
  x_parent_pid : option Z;
  x_children : list Z;
  x_exe : option string;
  x_cmdline : option string;
  x_cwd : option string;
  x_state : ProcessStateExport;
  x_depth : Z
}.

Definition node_export (n : ProcessNode) : ProcessNodeExport :=
  mkNodeExport (pn_pid n) (parent_pid n) (elements (children n)) (exe n) (cmdline n) (cwd n)
    (match pn_state n with Running => XRunning | Exited => XExited | Killed => XKilled end)
    (depth n).

Record ProcessTreeExport : Type := mkTreeExport {
  x_roots : list Z;
  x_nodes : gmap Z ProcessNodeExport;
  total_count : nat
}.

Definition export (t : Tracker) : Result ProcessTreeExport TrackerError :=
  if poisoned t then Err LockPoisoned
  else Ok (mkTreeExport (elements (roots t)) (node_export <$> nodes t) (size (nodes t))).

(** ** The forest invariant *)

(** Every node sits where its fields say: the roots are the parentless nodes,
    at depth 0; the parent of any other node is tracked, one level up; the
    children of a node are exactly its running descendants of the next level. *)
Record Forest (config : TrackerConfig) (t : Tracker) : Prop := {
  forest_pid i n : nodes t !! i = Some n -> pn_pid n = i;
  forest_root i : i ∈ roots t <-> exists n, nodes t !! i = Some n /\ parent_pid n = None;
  forest_depth0 i n : nodes t !! i = Some n -> parent_pid n = None -> depth n = 0%Z;
  forest_parent i n p : nodes t !! i = Some n -> parent_pid n = Some p ->
    exists m, nodes t !! p = Some m /\ depth n = (depth m + 1)%Z;
  forest_bound i n : nodes t !! i = Some n -> (0 <= depth n <= max_depth config)%Z;
  forest_children i n c : nodes t !! i = Some n ->
    (c ∈ children n <->
     exists m, nodes t !! c = Some m /\ parent_pid m = Some i /\ pn_state m = Running)
}.

Definition wf_config (config : TrackerConfig) : Prop := (0 <= max_depth config <= u32_max)%Z.

Section Invariant.
  Context {proc : ProcFs} (config : TrackerConfig) (Hcfg : wf_config config).

Lemma maybe_refresh_fields t n :
  let m := maybe_refresh config t n in
  pn_pid m = pn_pid n /\ parent_pid m = parent_pid n /\ children m = children n /\
  pn_state m = pn_state n /\ depth m = depth n.
Proof. unfold maybe_refresh, refresh_metadata. by repeat case_match. Qed.

Lemma forest_new : Forest config tracker_new.
Proof.
  split; cbn; try (intros *; rewrite lookup_empty; done).
  intros i. split; [by intros ?%not_elem_of_empty | intros (n & Hn & _); by rewrite lookup_empty in Hn].
Qed.

Lemma forest_bump t : Forest config t -> Forest config (bump t).
Proof. by intros []. Qed.

(** Nobody claims a parent that is not tracked. *)
Lemma forest_no_orphan t c i n :
  Forest config t -> nodes t !! c = None -> nodes t !! i = Some n -> parent_pid n <> Some c.
Proof. intros F Hc Hi Hp. destruct (forest_parent _ _ F _ _ _ Hi Hp) as (m & Hm & _). congruence. Qed.

(** A fresh child under a tracked parent. *)
Lemma forest_add_child t parent p child cn :
  Forest config t -> nodes t !! parent = Some p -> nodes t !! child = None ->
  (depth p < max_depth config)%Z ->
  pn_pid cn = child -> parent_pid cn = Some parent -> children cn = ∅ ->
  pn_state cn = Running -> depth cn = (depth p + 1)%Z ->
  Forest config (t <| nodes := <[child := cn]>
    (<[parent := p <| children := {[child]} ∪ children p |>]> (nodes t)) |>).
Proof.
  intros F Hp Hc Hd E1 E2 E3 E4 E5.
  assert (Hne : parent <> child) by congruence.
  assert (Hlk : forall i n, <[child := cn]> (<[parent := p <| children := {[child]} ∪ children p |>]>
      (nodes t)) !! i = Some n <->
    (i = child /\ n = cn) \/
    (i = parent /\ n = p <| children := {[child]} ∪ children p |>) \/
    (i <> child /\ i <> parent /\ nodes t !! i = Some n)).
  { intros i n. rewrite !lookup_insert_Some. naive_solver. }
  split; cbn; setoid_rewrite Hlk.
  - intros i n [[-> ->]|[[-> ->]|(_ & _ & Hi)]]; [done | | by eapply forest_pid].
    by eapply (forest_pid _ _ F parent p).
  - intros i. rewrite (forest_root _ _ F i). split.
    + intros (n & Hn & Hr). destruct (decide (i = parent)) as [->|].
      * eexists. split; [right; left; done|]. cbn. congruence.
      * exists n. split; [right; right|done]. split_and!; [|done..]. congruence.
    + intros (n & [[-> ->]|[[-> ->]|(_ & _ & Hi)]] & Hr); [congruence | by exists p | by exists n].
  - intros i n [[-> ->]|[[-> ->]|(_ & _ & Hi)]] Hr; [congruence | | by eapply forest_depth0].
    by eapply (forest_depth0 _ _ F parent p).
  - intros i n q Hi Hq. assert (Hq' : exists m, nodes t !! q = Some m /\ depth n = (depth m + 1)%Z).
    { destruct Hi as [[-> ->]|[[-> ->]|(_ & _ & Hi)]].
      - exists p. split; congruence.
      - exact (forest_parent _ _ F parent p q Hp Hq).
      - exact (forest_parent _ _ F i n q Hi Hq). }
    destruct Hq' as (m & Hm & Hdm). destruct (decide (q = parent)) as [->|Hqp].
    + eexists. split; [right; left; done|]. cbn. congruence.
    + exists m. split; [|done]. right; right. split_and!; [congruence | done..].
  - intros i n [[-> ->]|[[-> ->]|(_ & _ & Hi)]]; [| |by eapply forest_bound].
    + pose proof (forest_bound _ _ F _ _ Hp). lia.
    + by eapply (forest_bound _ _ F parent p).
  - assert (Hkids : forall i n c, nodes t !! i = Some n -> c <> child ->
      c ∈ children n <-> exists m, ((c = child /\ m = cn) \/
        (c = parent /\ m = p <| children := {[child]} ∪ children p |>) \/
        (c <> child /\ c <> parent /\ nodes t !! c = Some m)) /\
        parent_pid m = Some i /\ pn_state m = Running).
    { intros i n c Hi Hcc. rewrite (forest_children _ _ F i n c Hi). split.
      - intros (m & Hm & Hmi & Hr). destruct (decide (c = parent)) as [->|].
        + eexists. split; [right; left; done|]. cbn. split; congruence.
        + exists m. split; [by right; right | done].
      - intros (m & [[-> _]|[[-> ->]|(_ & _ & Hm)]] & Hmi & Hr); [done | by exists p | by exists m]. }
    intros i n c [[-> ->]|[[-> ->]|(Hic & Hip & Hi)]].
    + rewrite E3. split; [by intros ?%not_elem_of_empty|].
      intros (m & [[-> ->]|[[-> ->]|(_ & _ & Hm)]] & Hmi & _); exfalso.
      * congruence.
      * by eapply (forest_no_orphan t child parent p).
      * by eapply (forest_no_orphan t child c m).
    + cbn. rewrite elem_of_union, elem_of_singleton. destruct (decide (c = child)) as [->|Hcc].
      * split; [intros _; exists cn; eauto | by left].
      * rewrite <- (Hkids parent p c Hp Hcc). naive_solver.
    + destruct (decide (c = child)) as [->|Hcc]; [|by apply Hkids].
      split.
      * intros Hin. apply (forest_children _ _ F i n child Hi) in Hin as (m & Hm & _). congruence.
      * intros (m & [[_ ->]|[[-> _]|(? & _ & _)]] & Hmi & _); congruence.
Qed.

Lemma on_fork_forest parent child t :
  Forest config t -> Forest config (snd (on_fork config parent child t)).
Proof.
  intros F. unfold on_fork. destruct (poisoned t); [done|].
  destruct (nodes t !! parent) as [p|] eqn:Hp; [|done].
  destruct (Z.leb_spec (max_depth config) (depth p)) as [|Hd]; [done|].
  case_bool_decide as Hc; [done|]. apply eq_None_not_Some in Hc. cbn. rewrite Hp. cbn.
  destruct (maybe_refresh_fields t (new_child child parent (depth p))) as (E1 & E2 & E3 & E4 & E5).
  pose proof (forest_bound _ _ F _ _ Hp) as Hb. unfold wf_config, u32_max in Hcfg.
  apply (forest_add_child (bump t)); try done; [by apply forest_bump|].
  rewrite E5. cbn. unfold as_u32. apply Z.mod_small. lia.
Qed.

(** Marking a node exited and dropping it from every child set. *)
Lemma forest_mark_exited t t' pid (upd : Z -> ProcessNode -> ProcessNode) :
  Forest config t -> roots t' = roots t ->
  (forall i, nodes t' !! i = upd i <$> nodes t !! i) ->
  (forall i n, nodes t !! i = Some n ->
     pn_pid (upd i n) = pn_pid n /\ parent_pid (upd i n) = parent_pid n /\
     depth (upd i n) = depth n /\ children (upd i n) = children n ∖ {[pid]} /\
     pn_state (upd i n) = if decide (i = pid) then Exited else pn_state n) ->
  Forest config t'.
Proof.
  intros F Hr Hn Hu.
  assert (Hlk : forall i n, nodes t' !! i = Some n <-> exists m, nodes t !! i = Some m /\ n = upd i m).
  { intros i n. rewrite Hn, fmap_Some. done. }
  split; setoid_rewrite Hlk.
  - intros i n (m & Hm & ->). destruct (Hu i m Hm) as [-> _]. by eapply forest_pid.
  - intros i. rewrite Hr, (forest_root _ _ F i). split.
    + intros (m & Hm & Hp). destruct (Hu i m Hm) as (_ & E & _). exists (upd i m). split; [eauto | congruence].
    + intros (n & (m & Hm & ->) & Hp). destruct (Hu i m Hm) as (_ & E & _). exists m. split; [done | congruence].
  - intros i n (m & Hm & ->) Hp. destruct (Hu i m Hm) as (_ & E & -> & _).
    eapply forest_depth0; [done.. | congruence].
  - intros i n q (m & Hm & ->) Hp. destruct (Hu i m Hm) as (_ & E & -> & _).
    destruct (forest_parent _ _ F i m q Hm) as (m' & Hm' & Hd); [congruence|].
    destruct (Hu q m' Hm') as (_ & _ & E' & _). exists (upd q m'). split; [eauto | congruence].
  - intros i n (m & Hm & ->). destruct (Hu i m Hm) as (_ & _ & -> & _). by eapply forest_bound.
  - intros i n c (m & Hm & ->). destruct (Hu i m Hm) as (_ & _ & _ & -> & _).
    rewrite elem_of_difference, not_elem_of_singleton, (forest_children _ _ F i m c Hm). split.
    + intros [(m' & Hm' & Hp & Hs) Hc]. destruct (Hu c m' Hm') as (_ & E & _ & _ & Es).
      rewrite decide_False in Es by done. exists (upd c m'). split_and!; [eauto | congruence..].
    + intros (n & (m' & Hm' & ->) & Hp & Hs). destruct (Hu c m' Hm') as (_ & E & _ & _ & Es).
      destruct (decide (c = pid)); [congruence|]. split; [|done].
      exists m'. split_and!; [done | congruence..].
Qed.

Lemma not_child_of_other t i n m pid :
  Forest config t -> nodes t !! i = Some n -> nodes t !! pid = Some m ->
  parent_pid m <> Some i -> children n = children n ∖ {[pid]}.
Proof.
  intros F Hi Hm Hp. apply leibniz_equiv. intros c.
  rewrite elem_of_difference, not_elem_of_singleton. split; [|by intros []].
  intros Hc. split; [done|]. intros ->.
  apply (forest_children _ _ F i n pid Hi) in Hc as (m' & Hm' & Hpp & _). congruence.
Qed.

Lemma on_exit_forest pid t : Forest config t -> Forest config (snd (on_exit pid t)).
Proof.
  intros F. unfold on_exit. destruct (poisoned t); [done|]. cbn.
  destruct (nodes t !! pid) as [n|] eqn:Hn; [|cbn; by rewrite Hn].
  set (upd := fun (i : Z) (x : ProcessNode) =>
    let x := if decide (parent_pid n = Some i) then x <| children := children x ∖ {[pid]} |> else x in
    if decide (i = pid) then x <| pn_state := Exited |> else x).
  apply (forest_mark_exited t _ pid upd F).
  - destruct (parent_pid n) as [p|]; [destruct (nodes t !! p)|]; cbn; by case_match.
  - assert (Hother : forall i, parent_pid n <> Some i -> i <> pid -> nodes t !! i = upd i <$> nodes t !! i).
    { intros i Hi Hi'. destruct (nodes t !! i); [|done]. simpl. unfold upd.
      by repeat case_decide. }
    assert (Hself : parent_pid n <> Some pid -> upd pid n = n <| pn_state := Exited |>).
    { intros Hi. unfold upd. by repeat case_decide. }
    intros i. destruct (parent_pid n) as [p|] eqn:Hp.
    + destruct (forest_parent _ _ F _ _ _ Hn Hp) as (m & Hm & Hd). rewrite Hm. simpl.
      assert (p <> pid) by (intros ->; assert (m = n) as -> by congruence; lia).
      rewrite lookup_insert_ne, Hn by done. simpl.
      destruct (decide (i = pid)) as [->|].
      * rewrite lookup_insert_eq, Hn. simpl. rewrite Hself; congruence.
      * rewrite lookup_insert_ne by done. destruct (decide (i = p)) as [->|].
        -- rewrite lookup_insert_eq, Hm. simpl. unfold upd.
           by repeat case_decide; simplify_eq.
        -- rewrite lookup_insert_ne by done. apply Hother; congruence.
    + simpl. rewrite Hn. simpl. destruct (decide (i = pid)) as [->|].
      * rewrite lookup_insert_eq, Hn. simpl. rewrite Hself; congruence.
      * rewrite lookup_insert_ne by done. by apply Hother.
  - intros i x Hx. unfold upd.
    destruct (decide (parent_pid n = Some i)) as [Hp|Hp], (decide (i = pid)) as [->|]; cbn;
      split_and!; try done; by (eapply not_child_of_other; [exact F|exact Hx|exact Hn|]).
Qed.

Lemma scan_children_forest fuel pid t :
  Forest config t -> Forest config (snd (scan_children config fuel pid t)).
Proof.
  revert pid t. induction fuel as [|fuel IH]; intros pid t F; [done|]. cbn.
  generalize (default [] (proc_children (tick t) pid)). intros kids.
  apply forest_bump in F. revert F. generalize (bump t). clear t.
  induction kids as [|c kids IHk]; intros t F; [done|]. cbn. apply IHk.
  pose proof (on_fork_forest pid c t F) as Ff.
  destruct (on_fork config pid c t) as [[[]|] t1]; [by apply IH | done].
Qed.

Lemma track_root_forest pid t :
  Forest config t -> Forest config (snd (track_root config pid t)).
Proof.
  intros F. unfold track_root. destruct (poisoned t); [done|].
  case_bool_decide as Hc; [done|]. apply eq_None_not_Some in Hc. cbn.
  destruct (maybe_refresh_fields t (new_root pid)) as (E1 & E2 & E3 & E4 & E5).
  cbn [new_root pn_pid parent_pid children pn_state depth] in E1, E2, E3, E4, E5.
  set (t1 := (bump t) <| roots := _ |> <| nodes := _ |>).
  assert (F1 : Forest config t1); [|by destruct (scan_existing_children config); [apply scan_children_forest|]].
  unfold wf_config, u32_max in Hcfg.
  assert (Hnp : forall i n, nodes t !! i = Some n -> pid <> i) by congruence.
  split; cbn; setoid_rewrite lookup_insert_Some.
  - intros i n [[-> <-]|[_ Hi]]; [done | by eapply forest_pid].
  - intros i. rewrite elem_of_union, elem_of_singleton, (forest_root _ _ F i). split.
    + intros [->|(n & Hn & Hp)]; [by eexists; split; [left|]|].
      exists n. split; [right; split; [by eapply Hnp | exact Hn] | done].
    + intros (n & [[-> _]|[_ Hi]] & Hp); [by left | right; eauto].
  - intros i n [[-> <-]|[_ Hi]] Hp; [done | by eapply forest_depth0].
  - intros i n q [[-> <-]|[_ Hi]] Hq; [congruence|].
    destruct (forest_parent _ _ F i n q Hi Hq) as (m & Hm & Hd).
    exists m. split; [right; split; [by eapply Hnp | exact Hm] | done].
  - intros i n [[-> <-]|[_ Hi]]; [rewrite E5; cbn; lia | by eapply forest_bound].
  - intros i n c [[-> <-]|[Hne Hi]].
    + rewrite E3. split; [by intros ?%not_elem_of_empty|].
      intros (m & [[-> <-]|[_ Hm]] & Hp & _); [congruence|].
      by destruct (forest_no_orphan t i c m F Hc Hm).
    + rewrite (forest_children _ _ F i n c Hi). split.
      * intros (m & Hm & Hp & Hs). exists m. split; [right; split; [by eapply Hnp | exact Hm] | done].
      * intros (m & [[-> <-]|[_ Hm]] & Hp & Hs); [congruence | eauto].
Qed.

(** ** Runs *)

Inductive tracker_step : Tracker -> Tracker -> Prop :=
| step_root pid t : tracker_step t (snd (track_root config pid t))
| step_fork parent child t : tracker_step t (snd (on_fork config parent child t))
| step_exit pid t : tracker_step t (snd (on_exit pid t)).

Inductive tracked : Tracker -> Prop :=
| tracked_new : tracked tracker_new
| tracked_step t t' : tracked t -> tracker_step t t' -> tracked t'.

Lemma tracked_forest t : tracked t -> Forest config t.
Proof.
  induction 1 as [|t t' _ F Hs]; [apply forest_new|].
  destruct Hs; auto using track_root_forest, on_fork_forest, on_exit_forest.
Qed.

(** The ancestors of a process, walking the parent links. *)
Fixpoint ancestor (t : Tracker) (k : nat) (pid : Z) : option Z :=
  match k with
  | O => Some pid
  | S k' => match nodes t !! pid with
            | Some n => match parent_pid n with
                        | Some p => ancestor t k' p
                        | None => None
                        end
            | None => None
            end
  end.

(** C40: The tracker always holds a forest: in every state reached by any
    sequence of roots, forks and exits, a tracked process at depth [d] has a
    monitored root as its [d]-th ancestor, [d] is at most the configured
    maximum, and each process's child set is exactly its running children. *)
Theorem tracker_forest t pid n :
  tracked t -> nodes t !! pid = Some n ->
  (0 <= depth n <= max_depth config)%Z /\
  (exists r, ancestor t (Z.to_nat (depth n)) pid = Some r /\ r ∈ roots t) /\
  (forall c, c ∈ children n <->
     exists m, nodes t !! c = Some m /\ parent_pid m = Some pid /\ pn_state m = Running).
Proof.
  intros Ht Hn. pose proof (tracked_forest t Ht) as F.
  split; [by eapply forest_bound|]. split; [|intros c; by eapply forest_children].
  pose proof (forest_bound _ _ F _ _ Hn) as [Hd _].
  remember (Z.to_nat (depth n)) as d eqn:Ed. revert pid n Hn Hd Ed.
  induction d as [|d IH]; intros pid n Hn Hd Ed.
  - exists pid. split; [done|]. apply (forest_root _ _ F). exists n. split; [done|].
    destruct (parent_pid n) as [p|] eqn:Hp; [|done].
    destruct (forest_parent _ _ F _ _ _ Hn Hp) as (m & Hm & E).
    pose proof (forest_bound _ _ F _ _ Hm). lia.
  - destruct (parent_pid n) as [p|] eqn:Hp.
    + destruct (forest_parent _ _ F _ _ _ Hn Hp) as (m & Hm & E).
      pose proof (forest_bound _ _ F _ _ Hm).
      destruct (IH p m Hm) as (r & Hr & Hin); [lia..|]. exists r.
      cbn. by rewrite Hn, Hp.
    + pose proof (forest_depth0 _ _ F _ _ Hn Hp). lia.
Qed.
End Invariant.

(** ** Example *)

Definition demo_proc : ProcFs := {|
  proc_children := fun _ pid => if Z.eqb pid 1 then Some [2; 3]%Z else None;
  proc_cmdline := fun _ _ => None;
  proc_exe := fun _ _ => Some "/bin/sh";
  proc_cwd := fun _ _ => None
|}.

Definition demo_tracker : Tracker :=
  snd (on_exit 3 (snd (on_fork (proc := demo_proc) tracker_config_default 2 4
    (snd (track_root (proc := demo_proc) tracker_config_default 1 tracker_new))))).

Lemma demo_tracked : tracked (proc := demo_proc) tracker_config_default demo_tracker.
Proof. do 3 (eapply tracked_step; [|constructor]). constructor. Qed.

Lemma tracker_forest_witness :
  exists n, nodes demo_tracker !! 4%Z = Some n /\ depth n = 2%Z /\
  (0 <= depth n <= 20)%Z /\
  (exists r, ancestor demo_tracker (Z.to_nat (depth n)) 4 = Some r /\ r ∈ roots demo_tracker) /\
  (forall c, c ∈ children n <->
     exists m, nodes demo_tracker !! c = Some m /\ parent_pid m = Some 4%Z /\ pn_state m = Running).
Proof.
  eexists. split; [vm_compute; reflexivity|]. split; [reflexivity|].
  apply (tracker_forest (proc := demo_proc) tracker_config_default); [|exact demo_tracked|].
  - unfold wf_config, u32_max. cbn. lia.
  - vm_compute. reflexivity.
Defined.
