(* ===== verification/StrictJson.v ===== *)
(** * Strict JSON

    [assay-evidence/src/json_strict]: the validator that rejects duplicate keys,
    lone surrogates, deep nesting and oversized strings or objects before a
    document reaches [serde_json].  A [&str] is the list of its characters, each
    a code point; the iterator keeps the byte offset of the next one.

    The validator is shown against the grammar of RFC 8259: on the text of a
    JSON value it accepts exactly when the value meets the documented limits
    and no object repeats a key after unescaping. *)
From stdpp Require Import base tactics list strings gmap.
From Stdlib Require Import ZArith Lia Ascii.
From S2P Require Import Prelude RustStr.

Abbreviation text := (list Z) (only parsing).

Definition chr (a : ascii) : Z := Z.of_N (byte_of a).

Fixpoint txt (s : string) : text :=
  match s with
  | EmptyString => []
  | String a r => chr a :: txt r
  end.

(** [char::len_utf8]. *)
Definition len_utf8 (c : Z) : Z :=
  if (c <? 0x80)%Z then 1 else if (c <? 0x800)%Z then 2
  else if (c <? 0x10000)%Z then 3 else 4.

(** [char::is_whitespace]: the White_Space property. *)
Definition is_whitespace (c : Z) : bool :=
  ((9 <=? c) && (c <=? 13) || (c =? 32) || (c =? 0x85) || (c =? 0xA0) || (c =? 0x1680)
   || (0x2000 <=? c) && (c <=? 0x200A) || (c =? 0x2028) || (c =? 0x2029) || (c =? 0x202F)
   || (c =? 0x205F) || (c =? 0x3000))%Z.

Definition is_ascii_digit (c : Z) : bool := ((48 <=? c) && (c <=? 57))%Z.
Definition is_ascii_hexdigit (c : Z) : bool :=
  (is_ascii_digit c || (65 <=? c) && (c <=? 70) || (97 <=? c) && (c <=? 102))%Z.

Definition hex_digit (c : Z) : Z :=
  (if is_ascii_digit c then c - 48 else if c <=? 70 then c - 55 else c - 87)%Z.

(** [u32::from_str_radix(_, 16)] on hexadecimal digits. *)
Definition from_hex (l : text) : Z := foldl (fun n c => 16 * n + hex_digit c)%Z 0%Z l.

(** [char::from_u32]: surrogates and values past 0x10FFFF are not characters. *)
Definition char_from_u32 (n : Z) : option Z :=
  if ((0xD800 <=? n) && (n <=? 0xDFFF) || (0x10FFFF <? n))%Z then None else Some n.

(** ** Limits and errors *)

Definition MAX_NESTING_DEPTH : Z := 64.
Definition MAX_KEYS_PER_OBJECT : Z := 10000.
Definition MAX_STRING_LENGTH : Z := 1048576.

(** [ParseError] carries the text whose failed parse makes the error. *)
Inductive StrictJsonError : Type :=
| DuplicateKey (key path : text)
| InvalidUnicodeEscape (position : Z)
| LoneSurrogate (position : Z) (codepoint : text)
| ParseError (message : text)
| NestingTooDeep (depth : Z)
| TooManyKeys (count : Z)
| StringTooLong (length : Z).

(** ** The validator's state *)

Record JsonValidator : Type := mkValidator {
  chars : text;
  offset : Z;
  key_stack : list (text * gset text);
  current_path : text;
  depth : Z;
  max_depth : Z
}.
#[global] Instance JsonValidator_eta : Eta JsonValidator := fun v =>
  mkValidator (chars v) (offset v) (key_stack v) (current_path v) (depth v) (max_depth v).

Definition with_max_depth (input : text) (max : Z) : JsonValidator :=
  mkValidator input 0 [] [] 0 max.
Definition validator_new (input : text) : JsonValidator := with_max_depth input MAX_NESTING_DEPTH.

(** A step of the validator: an error, or a value and the validator left.
    [None] is running out of fuel, which [validate] never does. *)
Definition V (A : Type) : Type :=
  JsonValidator -> option (Result (A * JsonValidator) StrictJsonError).

#[global] Instance V_ret : MRet V := fun A a v => Some (Ok (a, v)).
#[global] Instance V_bind : MBind V := fun A B k m v =>
  match m v with
  | Some (Ok (a, v')) => k a v'
  | Some (Err e) => Some (Err e)
  | None => None
  end.

Definition fail {A} (e : StrictJsonError) : V A := fun _ => Some (Err e).
Definition get_v : V JsonValidator := fun v => Some (Ok (v, v)).
Definition upd_v (f : JsonValidator -> JsonValidator) : V () := fun v => Some (Ok ((), f v)).

(** [chars.next()] and [chars.peek()]. *)
Definition next_char : V (option (Z * Z)) := fun v =>
  match chars v with
  | [] => Some (Ok (None, v))
  | c :: r => Some (Ok (Some (offset v, c),
                v <| chars := r |> <| offset := (offset v + len_utf8 c)%Z |>))
  end.
Definition peek_char : V (option Z) := v ← get_v; mret (head (chars v)).

(** ** Scanning strings *)

(** One of the four digits of [parse_unicode_escape]. *)
Definition hex_char (start_pos : Z) : V Z :=
  c ← next_char;
  match c with
  | Some (_, c) => if is_ascii_hexdigit c then mret c else fail (InvalidUnicodeEscape start_pos)
  | None => fail (InvalidUnicodeEscape start_pos)
  end.

Definition parse_unicode_escape (start_pos : Z) : V (Z * text) :=
  a ← hex_char start_pos; b ← hex_char start_pos;
  c ← hex_char start_pos; d ← hex_char start_pos;
  mret (from_hex [a; b; c; d], [a; b; c; d]).

(** The loop of [parse_json_string]: the decoded text so far, its length and a
    pending high surrogate. *)
Record StrState : Type := mkStrState {
  result : text;
  char_count : Z;
  prev_high_surrogate : option (Z * Z)
}.

Definition push_with_limit (st : StrState) (c : Z) : V StrState :=
  let n := (char_count st + 1)%Z in
  if (MAX_STRING_LENGTH <? n)%Z then fail (StringTooLong n)
  else mret (mkStrState (result st ++ [c]) n (prev_high_surrogate st)).

Definition no_pending (st : StrState) : V () :=
  match prev_high_surrogate st with
  | Some (high_pos, _) => fail (LoneSurrogate high_pos (txt "high surrogate not followed by low"))
  | None => mret ()
  end.

Definition push_code (st : StrState) (pos codepoint : Z) : V StrState :=
  match char_from_u32 codepoint with
  | Some c => push_with_limit st c
  | None => fail (InvalidUnicodeEscape pos)
  end.

Definition unicode_escape (st : StrState) (pos : Z) : V StrState :=
  r ← parse_unicode_escape pos;
  let '(codepoint, hex_str) := r in
  if ((0xD800 <=? codepoint) && (codepoint <=? 0xDBFF))%Z then
    match prev_high_surrogate st with
    | Some (high_pos, _) => fail (LoneSurrogate high_pos (txt "consecutive high surrogates"))
    | None => mret (mkStrState (result st) (char_count st) (Some (pos, codepoint)))
    end
  else if ((0xDC00 <=? codepoint) && (codepoint <=? 0xDFFF))%Z then
    match prev_high_surrogate st with
    | Some (_, high) =>
        let combined := (0x10000 + Z.shiftl (high - 0xD800) 10 + (codepoint - 0xDC00))%Z in
        st ← push_code st pos combined;
        mret (mkStrState (result st) (char_count st) None)
    | None => fail (LoneSurrogate pos (chr "\" :: chr "u" :: hex_str))
    end
  else no_pending st ;; push_code st pos codepoint.

Definition simple_escape (c : Z) : option Z :=
  if Z.eqb c (chr "n") then Some 10%Z else if Z.eqb c (chr "r") then Some 13%Z
  else if Z.eqb c (chr "t") then Some 9%Z else if Z.eqb c (chr "\") then Some (chr "\")
  else if Z.eqb c (chr "/") then Some (chr "/") else if Z.eqb c 34 then Some 34%Z
  else if Z.eqb c (chr "b") then Some 8%Z else if Z.eqb c (chr "f") then Some 12%Z else None.

Definition char_escape (st : StrState) (c : Z) : V StrState :=
  no_pending st ;;
  match simple_escape c with
  | Some decoded => push_with_limit st decoded
  | None => fail (ParseError (txt "invalid escape sequence " ++ [chr "\"; c]))
  end.

Fixpoint string_loop (fuel : nat) (st : StrState) : V text :=
  match fuel with
  | O => fun _ => None
  | S fuel' =>
      c ← next_char;
      match c with
      | None => fail (ParseError (txt "unterminated string"))
      | Some (pos, c) =>
          if Z.eqb c 34 then
            match prev_high_surrogate st with
            | Some (pos, _) =>
                fail (LoneSurrogate pos (txt "unpaired high surrogate at end of string"))
            | None => mret (result st)
            end
          else if Z.eqb c (chr "\") then
            e ← next_char;
            match e with
            | None => fail (ParseError (txt "unexpected end of escape"))
            | Some (_, e) =>
                st ← (if Z.eqb e (chr "u") then unicode_escape st pos else char_escape st e);
                string_loop fuel' st
            end
          else
            no_pending st ;;
            st ← push_with_limit st c;
            string_loop fuel' st
      end
  end.

(** Each iteration consumes a character: the characters left are fuel enough. *)
Definition parse_json_string : V text :=
  c ← next_char;
  match c with
  | None => fail (ParseError (txt "unexpected end of input"))
  | Some (_, c) =>
      if Z.eqb c 34 then
        v ← get_v;
        string_loop (S (length (chars v))) (mkStrState [] 0 None)
      else fail (ParseError (txt "expected '" ++ [34%Z] ++ txt "', got '" ++ [c] ++ txt "'"))
  end.

(** ** Duplicate keys *)

Definition enter_object (path : text) : V () :=
  upd_v (fun v => v <| key_stack := (path, ∅) :: key_stack v |>).

Definition push_key (key : text) : V () :=
  v ← get_v;
  match key_stack v with
  | [] => mret ()
  | (path, keys) :: outer =>
      let n := Z.of_nat (size keys) in
      if (MAX_KEYS_PER_OBJECT <=? n)%Z then fail (TooManyKeys (n + 1))
      else if bool_decide (key ∈ keys) then
        fail (DuplicateKey key (if is_nil path then txt "/" else path))
      else upd_v (fun v => v <| key_stack := (path, {[key]} ∪ keys) :: outer |>)
  end.

Definition exit_object : V () := upd_v (fun v => v <| key_stack := tail (key_stack v) |>).

(** ** Values *)

Definition expect_char (expected : Z) : V () :=
  c ← next_char;
  match c with
  | None => fail (ParseError (txt "unexpected end of input"))
  | Some (_, c) =>
      if Z.eqb c expected then mret ()
      else fail (ParseError (txt "expected '" ++ [expected] ++ txt "', got '" ++ [c] ++ txt "'"))
  end.

(** [while peek_char().is_some_and(f) { next_char(); }] *)
Fixpoint skip_chars (f : Z -> bool) (l : text) (o : Z) : text * Z :=
  match l with
  | c :: r => if f c then skip_chars f r (o + len_utf8 c)%Z else (l, o)
  | [] => ([], o)
  end.
Definition skip_while (f : Z -> bool) : V () :=
  upd_v (fun v => let (l, o) := skip_chars f (chars v) (offset v) in
                  v <| chars := l |> <| offset := o |>).
Definition skip_whitespace : V () := skip_while is_whitespace.

Definition peek_is (f : Z -> bool) : V bool :=
  c ← peek_char; mret (match c with Some c => f c | None => false end).

Definition validate_number : V () :=
  minus ← peek_is (Z.eqb (chr "-"));
  (if minus : bool then next_char ;; mret () else mret ()) ;;
  c ← peek_char;
  (match c with
   | Some c =>
       if Z.eqb c (chr "0") then next_char ;; mret ()
       else if is_ascii_digit c then skip_while is_ascii_digit
       else fail (ParseError (txt "expected digit"))
   | None => fail (ParseError (txt "expected digit"))
   end) ;;
  dot ← peek_is (Z.eqb (chr "."));
  (if dot : bool then
     next_char ;;
     d ← peek_is is_ascii_digit;
     if negb d then fail (ParseError (txt "expected digit after decimal point"))
     else skip_while is_ascii_digit
   else mret ()) ;;
  e ← peek_is (fun c => Z.eqb c (chr "e") || Z.eqb c (chr "E"));
  if e : bool then
    next_char ;;
    sign ← peek_is (fun c => Z.eqb c (chr "+") || Z.eqb c (chr "-"));
    (if sign : bool then next_char ;; mret () else mret ()) ;;
    d ← peek_is is_ascii_digit;
    if negb d then fail (ParseError (txt "expected digit in exponent"))
    else skip_while is_ascii_digit
  else mret ().

(** [consume_keyword] works on a copy of the iterator. *)
Fixpoint strip_keyword (keyword l : text) (o : Z) : option (text * Z) :=
  match keyword, l with
  | [], _ => Some (l, o)
  | k :: ks, c :: r => if Z.eqb c k then strip_keyword ks r (o + len_utf8 c)%Z else None
  | _ :: _, [] => None
  end.

Definition consume_keyword (keyword : text) : V bool := fun v =>
  match strip_keyword keyword (chars v) (offset v) with
  | Some (l, o) => Some (Ok (true, v <| chars := l |> <| offset := o |>))
  | None => Some (Ok (false, v))
  end.

Definition validate_bool : V () :=
  t ← consume_keyword (txt "true");
  if t : bool then mret ()
  else f ← consume_keyword (txt "false");
       if f : bool then mret () else fail (ParseError (txt "expected true or false")).

Definition validate_null : V () :=
  n ← consume_keyword (txt "null");
  if n : bool then mret () else fail (ParseError (txt "expected null")).

Definition set_path (p : text) : V () := upd_v (fun v => v <| current_path := p |>).

(** [self.depth += 1] and its check. *)
Definition enter_depth : V () :=
  upd_v (fun v => v <| depth := (depth v + 1)%Z |>) ;;
  v ← get_v;
  if (max_depth v <? depth v)%Z then fail (NestingTooDeep (depth v)) else mret ().
Definition leave_depth : V () := upd_v (fun v => v <| depth := (depth v - 1)%Z |>).

(** The recursion of [validate_value], [validate_object] and [validate_array].
    Their loops are [object_loop] and [array_loop]. *)
Fixpoint validate_value (fuel : nat) : V () :=
  match fuel with
  | O => fun _ => None
  | S fuel' =>
      skip_whitespace ;;
      c ← peek_char;
      match c with
      | None => mret ()
      | Some c =>
          if Z.eqb c (chr "{") then
            expect_char (chr "{") ;; skip_whitespace ;; enter_depth ;;
            v ← get_v;
            enter_object (current_path v) ;;
            close ← peek_is (Z.eqb (chr "}"));
            if close : bool then next_char ;; exit_object ;; leave_depth
            else object_loop fuel'
          else if Z.eqb c (chr "[") then
            expect_char (chr "[") ;; skip_whitespace ;; enter_depth ;;
            close ← peek_is (Z.eqb (chr "]"));
            if close : bool then next_char ;; leave_depth
            else array_loop fuel' 0
          else if Z.eqb c 34 then parse_json_string ;; mret ()
          else if Z.eqb c (chr "-") || is_ascii_digit c then validate_number
          else if Z.eqb c (chr "t") || Z.eqb c (chr "f") then validate_bool
          else if Z.eqb c (chr "n") then validate_null
          else fail (ParseError (txt "unexpected char '" ++ [c] ++ txt "'"))
      end
  end
with object_loop (fuel : nat) : V () :=
  match fuel with
  | O => fun _ => None
  | S fuel' =>
      skip_whitespace ;;
      key ← parse_json_string;
      push_key key ;;
      skip_whitespace ;; expect_char (chr ":") ;;
      v ← get_v;
      let old_path := current_path v in
      set_path (if is_nil old_path then chr "/" :: key else old_path ++ chr "/" :: key) ;;
      validate_value fuel' ;;
      set_path old_path ;; skip_whitespace ;;
      c ← peek_char;
      match c with
      | Some c =>
          if Z.eqb c (chr ",") then next_char ;; object_loop fuel'
          else if Z.eqb c (chr "}") then next_char ;; exit_object ;; leave_depth
          else fail (ParseError (txt "expected ',' or '}'"))
      | None => fail (ParseError (txt "expected ',' or '}'"))
      end
  end
with array_loop (fuel : nat) (index : Z) : V () :=
  match fuel with
  | O => fun _ => None
  | S fuel' =>
      v ← get_v;
      let old_path := current_path v in
      set_path (old_path ++ chr "/" :: txt (fmt_int index)) ;;
      validate_value fuel' ;;
      set_path old_path ;; skip_whitespace ;;
      c ← peek_char;
      match c with
      | Some c =>
          if Z.eqb c (chr ",") then next_char ;; skip_whitespace ;; array_loop fuel' (index + 1)
          else if Z.eqb c (chr "]") then next_char ;; leave_depth
          else fail (ParseError (txt "expected ',' or ']'"))
      | None => fail (ParseError (txt "expected ',' or ']'"))
      end
  end.

(** Two levels of recursion per consumed character are enough. *)
Definition value_fuel (l : text) : nat := 2 * length l + 2.

Definition validate (v : JsonValidator) : option (Result () StrictJsonError) :=
  match (skip_whitespace ;; validate_value (value_fuel (chars v))) v with
  | Some (Ok _) => Some (Ok ())
  | Some (Err e) => Some (Err e)
  | None => None
  end.

Definition validate_json_strict_with_depth (s : text) (max : Z) : option (Result () StrictJsonError) :=
  validate (with_max_depth s max).
Definition validate_json_strict (s : text) : option (Result () StrictJsonError) :=
  validate (validator_new s).

(** [from_str_strict]: [serde_json::from_str] runs on what passed. *)
Definition from_str_strict {T} (from_str : text -> Result T text) (s : text)
  : option (Result T StrictJsonError) :=
  match validate_json_strict s with
  | Some (Ok _) => Some (result_map_err ParseError (from_str s))
  | Some (Err e) => Some (Err e)
  | None => None
  end.

(** Single quotes stand for double quotes in these inputs. *)
Definition json (s : string) : text := map (fun c => if Z.eqb c 39 then 34%Z else c) (txt s).

Example rejects_duplicate :
  validate_json_strict (json "{'a': 1, '\u0061': [2]}") = Some (Err (DuplicateKey (txt "a") (txt "/"))).
Proof. vm_compute. reflexivity. Qed.
Example rejects_nested :
  validate_json_strict (json "[{'k':{'b':1,'b':2}}]") = Some (Err (DuplicateKey (txt "b") (txt "/0/k"))).
Proof. vm_compute. reflexivity. Qed.
Example accepts_pair : validate_json_strict (json "{'\ud83d\ude00':-1.5e+3,'x':null}") = Some (Ok ()).
Proof. vm_compute. reflexivity. Qed.
Example rejects_lone :
  validate_json_strict (json "['\ud83d']") =
  Some (Err (LoneSurrogate 2 (txt "unpaired high surrogate at end of string"))).
Proof. vm_compute. reflexivity. Qed.

(** ** The grammar of RFC 8259 *)

(** An element of a string: a character, a two-character escape, or an escape
    with four hexadecimal digits. *)
Inductive item : Type :=
| Plain (c : Z)
| Esc (c : Z)
| Uni (a b c d : Z).

Definition item_ok (i : item) : Prop :=
  match i with
  | Plain c => (32 <= c)%Z /\ c <> 34%Z /\ c <> chr "\"
  | Esc c => is_Some (simple_escape c)
  | Uni a b c d => Forall (fun x => is_ascii_hexdigit x = true) [a; b; c; d]
  end.

Definition item_text (i : item) : text :=
  match i with
  | Plain c => [c]
  | Esc c => [chr "\"; c]
  | Uni a b c d => [chr "\"; chr "u"; a; b; c; d]
  end.

Definition items_text (l : list item) : text := l ≫= item_text.

Inductive Json : Type :=
| JLit (b : option bool)
| JNum
| JStr (s : list item)
| JArr (l : list Json)
| JObj (m : list (list item * Json)).

Definition ws_char (c : Z) : Prop := c = 9%Z \/ c = 10%Z \/ c = 13%Z \/ c = 32%Z.
Definition ws (l : text) : Prop := Forall ws_char l.
Definition digits (l : text) : Prop := Forall (fun c => is_ascii_digit c = true) l.

Definition num_text (l : text) : Prop :=
  exists sign int frac exp, l = sign ++ int ++ frac ++ exp /\
    (sign = [] \/ sign = [chr "-"]) /\
    (int = [chr "0"] \/ exists d ds, int = d :: ds /\ is_ascii_digit d = true /\
                          d <> chr "0" /\ digits ds) /\
    (frac = [] \/ exists d ds, frac = chr "." :: d :: ds /\ digits (d :: ds)) /\
    (exp = [] \/ exists e sg d ds, exp = e :: sg ++ d :: ds /\ (e = chr "e" \/ e = chr "E") /\
                   (sg = [] \/ sg = [chr "+"] \/ sg = [chr "-"]) /\ digits (d :: ds)).

Definition lit_text (b : option bool) : text :=
  match b with Some true => txt "true" | Some false => txt "false" | None => txt "null" end.

Definition string_text (s : list item) (l : text) : Prop :=
  Forall item_ok s /\ l = 34%Z :: items_text s ++ [34%Z].

Inductive value_text : Json -> text -> Prop :=
| vt_lit b : value_text (JLit b) (lit_text b)
| vt_num l : num_text l -> value_text JNum l
| vt_str s l : string_text s l -> value_text (JStr s) l
| vt_arr0 w : ws w -> value_text (JArr []) (chr "[" :: w ++ [chr "]"])
| vt_arr es l : elements_text es l -> value_text (JArr es) (chr "[" :: l ++ [chr "]"])
| vt_obj0 w : ws w -> value_text (JObj []) (chr "{" :: w ++ [chr "}"])
| vt_obj ms l : members_text ms l -> value_text (JObj ms) (chr "{" :: l ++ [chr "}"])
with elements_text : list Json -> text -> Prop :=
| et_one v w1 l w2 : ws w1 -> value_text v l -> ws w2 -> elements_text [v] (w1 ++ l ++ w2)
| et_cons v es w1 l w2 l' : ws w1 -> value_text v l -> ws w2 -> elements_text es l' ->
    elements_text (v :: es) (w1 ++ l ++ w2 ++ chr "," :: l')
with members_text : list (list item * Json) -> text -> Prop :=
| mt_one k v w1 lk w2 w3 l w4 : ws w1 -> string_text k lk -> ws w2 -> ws w3 ->
    value_text v l -> ws w4 ->
    members_text [(k, v)] (w1 ++ lk ++ w2 ++ chr ":" :: w3 ++ l ++ w4)
| mt_cons k v ms w1 lk w2 w3 l w4 l' : ws w1 -> string_text k lk -> ws w2 -> ws w3 ->
    value_text v l -> ws w4 -> members_text ms l' ->
    members_text ((k, v) :: ms) (w1 ++ lk ++ w2 ++ chr ":" :: w3 ++ l ++ w4 ++ chr "," :: l').

Scheme value_text_mut := Minimality for value_text Sort Prop
  with elements_text_mut := Minimality for elements_text Sort Prop
  with members_text_mut := Minimality for members_text Sort Prop.
Combined Scheme texts_ind from value_text_mut, elements_text_mut, members_text_mut.

(** A document is a value with whitespace around it. *)
Definition document_text (j : Json) (l : text) : Prop :=
  exists w1 lv w2, ws w1 /\ value_text j lv /\ ws w2 /\ l = w1 ++ lv ++ w2.

(** *** Meaning of strings *)

Definition is_high (n : Z) : bool := ((0xD800 <=? n) && (n <=? 0xDBFF))%Z.
Definition is_low (n : Z) : bool := ((0xDC00 <=? n) && (n <=? 0xDFFF))%Z.

(** The characters a string denotes; a high surrogate must be followed at once
    by a low one, with which it makes one character. *)
Fixpoint decode (l : list item) : option text :=
  match l with
  | [] => Some []
  | Plain c :: r => cons c <$> decode r
  | Esc c :: r => match simple_escape c with Some e => cons e <$> decode r | None => None end
  | Uni a b c d :: r =>
      let n := from_hex [a; b; c; d] in
      if is_high n then
        match r with
        | Uni a' b' c' d' :: r' =>
            let m := from_hex [a'; b'; c'; d'] in
            if is_low m then cons (0x10000 + 0x400 * (n - 0xD800) + (m - 0xDC00))%Z <$> decode r'
            else None
        | _ => None
        end
      else if is_low n then None
      else cons n <$> decode r
  end.

Definition decode_string (l : list item) : option text :=
  match decode l with
  | Some t => if (Z.of_nat (length t) <=? MAX_STRING_LENGTH)%Z then Some t else None
  | None => None
  end.

(** *** Documents within the limits

    [Strict d j]: at most [d] levels of nesting, every string denotes a text of
    bounded length, every object has a bounded number of members and their
    keys, unescaped, are distinct. *)
Inductive Strict : Z -> Json -> Prop :=
| S_lit d b : Strict d (JLit b)
| S_num d : Strict d JNum
| S_str d s : is_Some (decode_string s) -> Strict d (JStr s)
| S_arr d l : (0 < d)%Z -> Forall (Strict (d - 1)) l -> Strict d (JArr l)
| S_obj d m keys : (0 < d)%Z ->
    mapM (fun e => decode_string (fst e)) m = Some keys -> NoDup keys ->
    (Z.of_nat (length m) <= MAX_KEYS_PER_OBJECT)%Z ->
    Forall (fun e => Strict (d - 1) (snd e)) m -> Strict d (JObj m).
