(* ===== verification/StrictJsonCorrect.v ===== *)
(** * Strict JSON: correctness

    The validator of [StrictJson] terminates on every input, and on the text of
    a JSON document it accepts exactly the documents [Strict] describes.  The
    proofs follow a text through the validator: [steps m l a r] says that [m]
    reads the text [l] down to [r] and returns [a], [fails m l] that it stops
    with an error, whatever the rest of the validator's state. *)
From stdpp Require Import base tactics list strings gmap.
From Stdlib Require Import ZArith Lia Ascii.
From S2P Require Import Prelude RustStr StrictJson.

Definition at_ (v : JsonValidator) (l : text) (o : Z) : JsonValidator :=
  v <| chars := l |> <| offset := o |>.

Lemma at_self v : at_ v (chars v) (offset v) = v.
Proof. by destruct v. Qed.
Lemma at_at v l o l' o' : at_ (at_ v l o) l' o' = at_ v l' o'.
Proof. done. Qed.

Definition steps {A} (m : V A) (l : text) (a : A) (r : text) : Prop :=
  forall v o, exists o', m (at_ v l o) = Some (Ok (a, at_ v r o')).
Definition fails {A} (m : V A) (l : text) : Prop :=
  forall v o, exists e, m (at_ v l o) = Some (Err e).

Create HintDb strict discriminated.

Lemma bind_ok {A B} (m : V A) (k : A -> V B) v a v' :
  m v = Some (Ok (a, v')) -> (m ≫= k) v = k a v'.
Proof. unfold mbind, V_bind. by intros ->. Qed.
Lemma bind_err {A B} (m : V A) (k : A -> V B) v e :
  m v = Some (Err e) -> (m ≫= k) v = Some (Err e).
Proof. unfold mbind, V_bind. by intros ->. Qed.

Lemma steps_bind {A B} (m : V A) (k : A -> V B) l a r b s :
  steps m l a r -> steps (k a) r b s -> steps (m ≫= k) l b s.
Proof.
  intros Hm Hk v o. destruct (Hm v o) as [o1 E]. rewrite (bind_ok _ _ _ _ _ E). apply Hk.
Qed.
Lemma fails_bind {A B} (m : V A) (k : A -> V B) l : fails m l -> fails (m ≫= k) l.
Proof. intros Hm v o. destruct (Hm v o) as [e E]. rewrite (bind_err _ _ _ _ E). eauto. Qed.
Lemma fails_after {A B} (m : V A) (k : A -> V B) l a r :
  steps m l a r -> fails (k a) r -> fails (m ≫= k) l.
Proof.
  intros Hm Hk v o. destruct (Hm v o) as [o1 E]. rewrite (bind_ok _ _ _ _ _ E). apply Hk.
Qed.
Lemma steps_ret {A} (a : A) l : steps (mret a) l a l.
Proof. intros v o. by exists o. Qed.
Lemma fails_fail {A} e l : fails (fail e : V A) l.
Proof. intros v o. by exists e. Qed.

Lemma steps_peek l : steps peek_char l (head l) l.
Proof. intros v o. by exists o. Qed.
Lemma steps_peek_is f l :
  steps (peek_is f) l (match head l with Some c => f c | None => false end) l.
Proof. intros v o. by exists o. Qed.

(** Reading a character, whose position depends on where the text starts. *)
Lemma steps_next {B} (k : option (Z * Z) -> V B) c r b s :
  (forall p, steps (k (Some (p, c))) r b s) -> steps (next_char ≫= k) (c :: r) b s.
Proof. intros Hk v o. exact (Hk o v (o + len_utf8 c)%Z). Qed.
Lemma fails_next {B} (k : option (Z * Z) -> V B) c r :
  (forall p, fails (k (Some (p, c))) r) -> fails (next_char ≫= k) (c :: r).
Proof. intros Hk v o. exact (Hk o v (o + len_utf8 c)%Z). Qed.

Lemma steps_skip_while f l r :
  Forall (fun c => f c = true) l -> match r with [] => True | c :: _ => f c = false end ->
  steps (skip_while f) (l ++ r) () r.
Proof.
  intros Hl Hr v o.
  assert (E : exists o', skip_chars f (l ++ r) o = (r, o')).
  { revert o. induction Hl as [|c l Hc Hl IH]; intros o; cbn.
    - destruct r as [|c r]; cbn; [by exists o|]. rewrite Hr. by exists o.
    - rewrite Hc. apply IH. }
  destruct E as [o' E]. exists o'. unfold skip_while, upd_v. cbn. by rewrite E.
Qed.

Lemma steps_expect c r : steps (expect_char c) (c :: r) () r.
Proof. apply steps_next. intros p. rewrite Z.eqb_refl. apply steps_ret. Qed.

#[export] Hint Resolve steps_ret fails_fail steps_peek steps_peek_is steps_expect : strict.

(** ** Strings *)

Lemma is_ascii_hexdigit_bound c :
  is_ascii_hexdigit c = true -> (0 <= hex_digit c <= 15)%Z.
Proof.
  unfold is_ascii_hexdigit, hex_digit, is_ascii_digit.
  rewrite !orb_true_iff, !andb_true_iff, !Z.leb_le. intros H.
  destruct ((48 <=? c) && (c <=? 57))%Z eqn:E;
    rewrite ?andb_true_iff, ?andb_false_iff, ?Z.leb_le, ?Z.leb_gt in E; [lia|].
  destruct (Z.leb_spec c 70); lia.
Qed.

Lemma from_hex_bound a b c d :
  item_ok (Uni a b c d) -> (0 <= from_hex [a; b; c; d] <= 0xFFFF)%Z.
Proof.
  unfold item_ok. rewrite !Forall_cons. intros (Ha & Hb & Hc & Hd & _).
  apply is_ascii_hexdigit_bound in Ha, Hb, Hc, Hd. unfold from_hex. cbn. lia.
Qed.

Lemma steps_hex p c r : is_ascii_hexdigit c = true -> steps (hex_char p) (c :: r) c r.
Proof. intros Hc. apply steps_next. intros q. rewrite Hc. apply steps_ret. Qed.

Lemma steps_parse_unicode p a b c d r :
  item_ok (Uni a b c d) ->
  steps (parse_unicode_escape p) (a :: b :: c :: d :: r) (from_hex [a; b; c; d], [a; b; c; d]) r.
Proof.
  unfold item_ok. rewrite !Forall_cons. intros (Ha & Hb & Hc & Hd & _).
  unfold parse_unicode_escape. repeat (eapply steps_bind; [by apply steps_hex|]). apply steps_ret.
Qed.

Definition room (st : StrState) (n : nat) : bool :=
  (char_count st + Z.of_nat n <=? MAX_STRING_LENGTH)%Z.

Definition pushed (st : StrState) (c : Z) : StrState :=
  mkStrState (result st ++ [c]) (char_count st + 1) (prev_high_surrogate st).

Lemma steps_push st c l : room st 1 = true -> steps (push_with_limit st c) l (pushed st c) l.
Proof.
  unfold room, push_with_limit. rewrite Z.leb_le. intros H.
  destruct (Z.ltb_spec MAX_STRING_LENGTH (char_count st + 1)); [lia | apply steps_ret].
Qed.
Lemma fails_push st c l : room st 1 = false -> fails (push_with_limit st c) l.
Proof.
  unfold room, push_with_limit. rewrite Z.leb_gt. intros H.
  destruct (Z.ltb_spec MAX_STRING_LENGTH (char_count st + 1)); [apply fails_fail | lia].
Qed.

Lemma char_from_u32_code n :
  (0 <= n <= 0xFFFF)%Z -> is_high n = false -> is_low n = false -> char_from_u32 n = Some n.
Proof.
  unfold is_high, is_low, char_from_u32.
  rewrite !andb_false_iff, !Z.leb_gt. intros H1 H2 H3.
  destruct ((0xD800 <=? n)%Z && (n <=? 0xDFFF)%Z || (0x10FFFF <? n)%Z) eqn:E; [|done].
  rewrite orb_true_iff, andb_true_iff, !Z.leb_le, Z.ltb_lt in E. lia.
Qed.

Lemma combined_code h m :
  is_high h = true -> is_low m = true ->
  char_from_u32 (0x10000 + Z.shiftl (h - 0xD800) 10 + (m - 0xDC00))%Z =
  Some (0x10000 + 0x400 * (h - 0xD800) + (m - 0xDC00))%Z.
Proof.
  unfold is_high, is_low, char_from_u32. rewrite !andb_true_iff, !Z.leb_le. intros H1 H2.
  rewrite Z.shiftl_mul_pow2 by lia. change (2 ^ 10)%Z with 0x400%Z.
  replace ((h - 0xD800) * 0x400)%Z with (0x400 * (h - 0xD800))%Z by lia.
  destruct (_ || _) eqn:E; [|done].
  rewrite orb_true_iff, andb_true_iff, !Z.leb_le, Z.ltb_lt in E. lia.
Qed.

(** [out x m l r]: [m] reads [l] down to [r] and returns the text or value [x],
    or fails when there is none. *)
Definition out {A} (x : option A) (m : V A) (l r : text) : Prop :=
  match x with Some a => steps m l a r | None => fails m l end.

Lemma out_after {A B} (m : V A) (k : A -> V B) x l a r s :
  steps m l a r -> out x (k a) r s -> out x (m ≫= k) l s.
Proof. destruct x; cbn; eauto using steps_bind, fails_after. Qed.
Lemma out_next {B} (k : option (Z * Z) -> V B) x c r s :
  (forall p, out x (k (Some (p, c))) r s) -> out x (next_char ≫= k) (c :: r) s.
Proof. destruct x; cbn; eauto using steps_next, fails_next. Qed.
Lemma out_none {A B} (m : V A) (k : A -> V B) l s : fails m l -> out None (m ≫= k) l s.
Proof. apply fails_bind. Qed.

(** The text the string loop returns from a state with the items to come. *)
Definition string_result (st : StrState) (its : list item) : option text :=
  match decode its with
  | Some t => if room st (length t) then Some (result st ++ t) else None
  | None => None
  end.

Lemma string_result_push st its its' c :
  decode its = cons c <$> decode its' ->
  string_result st its = if room st 1 then string_result (pushed st c) its' else None.
Proof.
  intros E. unfold string_result. rewrite E. destruct (decode its') as [t|]; cbn; [|by destruct (room st 1)].
  unfold room, pushed. cbn. rewrite <- app_assoc.
  destruct (Z.leb_spec (char_count st + Z.of_nat 1) MAX_STRING_LENGTH),
    (Z.leb_spec (char_count st + Z.of_nat (S (length t))) MAX_STRING_LENGTH),
    (Z.leb_spec (char_count st + 1 + Z.of_nat (length t)) MAX_STRING_LENGTH); first [done | lia].
Qed.

(** Pushing a character and going on, in any context. *)
Lemma out_push {B} (k : StrState -> V B) st c x l s :
  (room st 1 = true -> out x (k (pushed st c)) l s) ->
  out (if room st 1 then x else None) (push_with_limit st c ≫= k) l s.
Proof.
  intros Hk. destruct (room st 1) eqn:E.
  - eapply out_after; [by apply steps_push | auto].
  - by apply out_none, fails_push.
Qed.

Lemma no_pending_none st l : prev_high_surrogate st = None -> steps (no_pending st) l () l.
Proof. unfold no_pending. intros ->. apply steps_ret. Qed.
Lemma no_pending_some st h l : prev_high_surrogate st = Some h -> fails (no_pending st) l.
Proof. unfold no_pending. intros ->. destruct h. apply fails_fail. Qed.

(** One iteration of the loop on each kind of item. *)
Lemma loop_close fuel st r :
  prev_high_surrogate st = None ->
  steps (string_loop (S fuel) st) (34%Z :: r) (result st) r.
Proof. intros E. apply steps_next. intros p. cbn. rewrite E. apply steps_ret. Qed.

Lemma loop_close_pending fuel st h r :
  prev_high_surrogate st = Some h -> fails (string_loop (S fuel) st) (34%Z :: r).
Proof. intros E. apply fails_next. intros p. cbn. rewrite E. destruct h. apply fails_fail. Qed.

Lemma loop_plain fuel st c x l s :
  item_ok (Plain c) -> prev_high_surrogate st = None ->
  (room st 1 = true -> out x (string_loop fuel (pushed st c)) l s) ->
  out (if room st 1 then x else None) (string_loop (S fuel) st) (c :: l) s.
Proof.
  intros (_ & H1%Z.eqb_neq & H2%Z.eqb_neq) Hp Hk. apply out_next. intros p. rewrite H1, H2.
  eapply out_after; [by apply no_pending_none|]. by apply out_push.
Qed.

Lemma loop_plain_pending fuel st h c l :
  item_ok (Plain c) -> prev_high_surrogate st = Some h ->
  fails (string_loop (S fuel) st) (c :: l).
Proof.
  intros (_ & H1%Z.eqb_neq & H2%Z.eqb_neq) Hp. apply fails_next. intros p. rewrite H1, H2.
  by eapply fails_bind, no_pending_some.
Qed.

Lemma loop_escape fuel st e x l s :
  (forall p, out x (st' ← (if Z.eqb e (chr "u") then unicode_escape st p else char_escape st e);
                    string_loop fuel st') l s) ->
  out x (string_loop (S fuel) st) (chr "\" :: e :: l) s.
Proof. intros Hk. apply out_next. intros p. cbn [Z.eqb chr]. apply out_next. intros q. apply Hk. Qed.

Lemma escape_not_u c : is_Some (simple_escape c) -> Z.eqb c (chr "u") = false.
Proof. intros [e He]. destruct (Z.eqb_spec c (chr "u")) as [->|]; [by vm_compute in He | done]. Qed.

Lemma loop_esc fuel st c e x l s :
  simple_escape c = Some e -> prev_high_surrogate st = None ->
  (room st 1 = true -> out x (string_loop fuel (pushed st e)) l s) ->
  out (if room st 1 then x else None) (string_loop (S fuel) st) (chr "\" :: c :: l) s.
Proof.
  intros He Hp Hk. apply loop_escape. intros p. rewrite escape_not_u by eauto.
  unfold char_escape. destruct (room st 1) eqn:E.
  - eapply out_after; [|by apply Hk]. eapply steps_bind; [by apply no_pending_none|].
    rewrite He. by apply steps_push.
  - apply out_none. eapply fails_after; [by apply no_pending_none|]. rewrite He. by apply fails_push.
Qed.

Lemma loop_esc_pending fuel st h c l :
  is_Some (simple_escape c) -> prev_high_surrogate st = Some h ->
  fails (string_loop (S fuel) st) (chr "\" :: c :: l).
Proof.
  intros He Hp. apply (loop_escape fuel st c None l []). intros p. rewrite escape_not_u by done.
  apply out_none. by eapply fails_bind, no_pending_some.
Qed.

Definition with_high (st : StrState) (p n : Z) : StrState :=
  mkStrState (result st) (char_count st) (Some (p, n)).
Definition without_high (st : StrState) : StrState :=
  mkStrState (result st) (char_count st) None.

Lemma unicode_escape_high st p a b c d l :
  item_ok (Uni a b c d) -> is_high (from_hex [a; b; c; d]) = true ->
  prev_high_surrogate st = None ->
  steps (unicode_escape st p) (a :: b :: c :: d :: l) (with_high st p (from_hex [a; b; c; d])) l.
Proof.
  intros Hi Hh Hp. eapply steps_bind; [by apply steps_parse_unicode|].
  cbv beta iota. unfold is_high in Hh. rewrite Hh, Hp. apply steps_ret.
Qed.

Lemma unicode_escape_pair {B} (k : StrState -> V B) st p q h a b c d x l s :
  item_ok (Uni a b c d) -> is_high h = true -> is_low (from_hex [a; b; c; d]) = true ->
  prev_high_surrogate st = Some (q, h) ->
  let code := (0x10000 + 0x400 * (h - 0xD800) + (from_hex [a; b; c; d] - 0xDC00))%Z in
  (room st 1 = true -> out x (k (without_high (pushed st code))) l s) ->
  out (if room st 1 then x else None) (unicode_escape st p ≫= k) (a :: b :: c :: d :: l) s.
Proof.
  intros Hi Hh Hl Hp code Hk. set (m := from_hex [a; b; c; d]) in *.
  assert (Hnh : is_high m = false).
  { unfold is_high, is_low in *. rewrite andb_true_iff, !Z.leb_le in Hl.
    rewrite andb_false_iff, !Z.leb_gt. lia. }
  assert (Hc := combined_code h m Hh Hl). fold code in Hc.
  unfold is_high in Hnh. unfold is_low in Hl.
  destruct (room st 1) eqn:E.
  - eapply out_after; [|by apply Hk]. eapply steps_bind; [by apply steps_parse_unicode|].
    cbv beta iota. fold m. rewrite Hnh, Hl, Hp. eapply steps_bind.
    + unfold push_code. rewrite Hc. by apply steps_push.
    + apply steps_ret.
  - apply out_none. eapply fails_after; [by apply steps_parse_unicode|].
    cbv beta iota. fold m. rewrite Hnh, Hl, Hp. apply fails_bind.
    unfold push_code. rewrite Hc. by apply fails_push.
Qed.

Lemma unicode_escape_other {B} (k : StrState -> V B) st p a b c d x l s :
  item_ok (Uni a b c d) -> is_high (from_hex [a; b; c; d]) = false ->
  is_low (from_hex [a; b; c; d]) = false -> prev_high_surrogate st = None ->
  (room st 1 = true -> out x (k (pushed st (from_hex [a; b; c; d]))) l s) ->
  out (if room st 1 then x else None) (unicode_escape st p ≫= k) (a :: b :: c :: d :: l) s.
Proof.
  intros Hi Hh Hl Hp Hk.
  assert (Hc := char_from_u32_code _ (from_hex_bound _ _ _ _ Hi) Hh Hl).
  unfold is_high in Hh. unfold is_low in Hl. destruct (room st 1) eqn:E.
  - eapply out_after; [|by apply Hk]. eapply steps_bind; [by apply steps_parse_unicode|].
    cbv beta iota. rewrite Hh, Hl. eapply steps_bind; [by apply no_pending_none|].
    unfold push_code. rewrite Hc. by apply steps_push.
  - apply out_none. eapply fails_after; [by apply steps_parse_unicode|].
    cbv beta iota. rewrite Hh, Hl. eapply fails_after; [by apply no_pending_none|].
    unfold push_code. rewrite Hc. by apply fails_push.
Qed.

Lemma unicode_escape_lone_low st p a b c d l :
  item_ok (Uni a b c d) -> is_high (from_hex [a; b; c; d]) = false ->
  is_low (from_hex [a; b; c; d]) = true -> prev_high_surrogate st = None ->
  fails (unicode_escape st p) (a :: b :: c :: d :: l).
Proof.
  intros Hi Hh Hl Hp. eapply fails_after; [by apply steps_parse_unicode|].
  cbv beta iota. unfold is_high in Hh. unfold is_low in Hl. rewrite Hh, Hl, Hp. apply fails_fail.
Qed.

Lemma unicode_escape_lone_high st p q h a b c d l :
  item_ok (Uni a b c d) -> is_low (from_hex [a; b; c; d]) = false ->
  prev_high_surrogate st = Some (q, h) ->
  fails (unicode_escape st p) (a :: b :: c :: d :: l).
Proof.
  intros Hi Hl Hp. eapply fails_after; [by apply steps_parse_unicode|].
  cbv beta iota. fold (is_high (from_hex [a; b; c; d])) (is_low (from_hex [a; b; c; d])).
  destruct (is_high _).
  - rewrite Hp. apply fails_fail.
  - rewrite Hl. by eapply fails_bind, no_pending_some.
Qed.

(** After a high surrogate: the next item must be a low one. *)
Lemma loop_pending its fuel st p h rest :
  Forall item_ok its -> is_high h = true -> prev_high_surrogate st = Some (p, h) ->
  (forall its' a b c d, its = Uni a b c d :: its' -> is_low (from_hex [a; b; c; d]) = true ->
     let code := (0x10000 + 0x400 * (h - 0xD800) + (from_hex [a; b; c; d] - 0xDC00))%Z in
     room st 1 = true ->
     out (string_result (without_high (pushed st code)) its')
       (string_loop fuel (without_high (pushed st code))) (items_text its' ++ 34%Z :: rest) rest) ->
  out (match its with
       | Uni a b c d :: its' =>
           if is_low (from_hex [a; b; c; d]) then
             if room st 1 then
               string_result (without_high (pushed st
                 (0x10000 + 0x400 * (h - 0xD800) + (from_hex [a; b; c; d] - 0xDC00))%Z)) its'
             else None
           else None
       | _ => None
       end) (string_loop (S fuel) st) (items_text its ++ 34%Z :: rest) rest.
Proof.
  intros Hok Hh Hp Hk. destruct its as [|[c|c|a b c d] its]; [..|]; cbn [items_text].
  - by eapply loop_close_pending.
  - apply Forall_cons in Hok as [Hc _]. by eapply (loop_plain_pending fuel st (p, h)).
  - apply Forall_cons in Hok as [Hc _]. by eapply (loop_esc_pending fuel st (p, h)).
  - apply Forall_cons in Hok as [Hc _]. destruct (is_low (from_hex [a; b; c; d])) eqn:Hl.
    + apply loop_escape. intros q. cbn [Z.eqb chr].
      eapply (unicode_escape_pair _ st q p h a b c d); try done. intros Hr. by apply Hk.
    + apply (loop_escape fuel st (chr "u") None). intros q. cbn [Z.eqb chr].
      by eapply out_none, unicode_escape_lone_high.
Qed.

Lemma room_pushed_bound st c :
  room st 1 = true -> (char_count (pushed st c) <= MAX_STRING_LENGTH)%Z.
Proof. unfold room, pushed. cbn. rewrite Z.leb_le. lia. Qed.

Lemma string_result_high st p a b c d its :
  is_high (from_hex [a; b; c; d]) = true ->
  string_result st (Uni a b c d :: its) =
  let st' := with_high st p (from_hex [a; b; c; d]) in
  match its with
  | Uni a' b' c' d' :: its' =>
      if is_low (from_hex [a'; b'; c'; d']) then
        if room st' 1 then
          string_result (without_high (pushed st'
            (0x10000 + 0x400 * (from_hex [a; b; c; d] - 0xD800)
             + (from_hex [a'; b'; c'; d'] - 0xDC00))%Z)) its'
        else None
      else None
  | _ => None
  end.
Proof.
  intros Hh. cbv zeta. destruct its as [|[e|e|a' b' c' d'] its'];
    try (unfold string_result; cbn [decode]; by rewrite Hh).
  destruct (is_low (from_hex [a'; b'; c'; d'])) eqn:Hl;
    [|unfold string_result; cbn [decode]; by rewrite Hh, Hl].
  erewrite string_result_push by (cbn [decode]; by rewrite Hh, Hl). reflexivity.
Qed.

Lemma string_loop_spec n its fuel st rest :
  length its <= n -> Forall item_ok its -> prev_high_surrogate st = None ->
  (char_count st <= MAX_STRING_LENGTH)%Z -> length its < fuel ->
  out (string_result st its) (string_loop fuel st) (items_text its ++ 34%Z :: rest) rest.
Proof.
  revert its fuel st. induction n as [n IH] using lt_wf_ind. intros its fuel st Hn Hok Hp Hc Hf.
  destruct fuel as [|fuel]; [lia|]. destruct its as [|i its].
  - unfold string_result. cbn [decode length]. unfold room. destruct (Z.leb_spec (char_count st + Z.of_nat 0) MAX_STRING_LENGTH); [|lia].
    rewrite app_nil_r. by apply loop_close.
  - apply Forall_cons in Hok as [Hi Hok]. cbn [length] in Hn, Hf.
    assert (IH' : forall st', prev_high_surrogate st' = None -> (char_count st' <= MAX_STRING_LENGTH)%Z ->
      out (string_result st' its) (string_loop fuel st') (items_text its ++ 34%Z :: rest) rest).
    { intros st' Hp' Hc'. apply (IH (length its)); [lia | done.. | lia]. }
    destruct i as [c|c|a b c d]; cbn [items_text].
    + rewrite (string_result_push st (Plain c :: its) its c) by done.
      apply loop_plain; [done..|]. intros Hr. apply IH'; [done | by apply room_pushed_bound].
    + destruct Hi as [e He].
      rewrite (string_result_push st (Esc c :: its) its e) by (cbn; by rewrite He).
      eapply loop_esc; [done..|]. intros Hr. apply IH'; [done | by apply room_pushed_bound].
    + destruct (is_high (from_hex [a; b; c; d])) eqn:Hh; [|destruct (is_low (from_hex [a; b; c; d])) eqn:Hl].
      * apply loop_escape. intros p. cbn [Z.eqb chr].
        eapply out_after; [by apply unicode_escape_high|].
        destruct fuel as [|fuel]; [lia|].
        rewrite (string_result_high st p a b c d its Hh).
        eapply loop_pending; [done | exact Hh | done |].
        intros its' a' b' c' d' -> Hl code Hr. cbn [length] in *.
        apply Forall_cons in Hok as [_ Hok].
        apply (IH (length its')); [lia | done | done | done | | lia].
        by apply (room_pushed_bound (with_high st p (from_hex [a; b; c; d])) code).
      * assert (string_result st (Uni a b c d :: its) = None) as ->
          by (unfold string_result; cbn [decode]; by rewrite Hh, Hl).
        apply (loop_escape fuel st (chr "u") None). intros p. cbn [Z.eqb chr].
        by apply out_none, unicode_escape_lone_low.
      * rewrite (string_result_push st (Uni a b c d :: its) its (from_hex [a; b; c; d]))
          by (cbn [decode]; by rewrite Hh, Hl).
        apply loop_escape. intros p. cbn [Z.eqb chr].
        apply unicode_escape_other; [done..|]. intros Hr. apply IH'; [done | by apply room_pushed_bound].
Qed.

(** The text of a string, in front of any text, is read to its end and decoded;
    one that does not decode, or is too long, fails. *)
Lemma parse_string_spec its l rest :
  string_text its l -> out (decode_string its) parse_json_string (l ++ rest) rest.
Proof.
  intros [Hok ->]. cbn [app]. apply out_next. intros p. cbn [Z.eqb].
  rewrite <- app_assoc. cbn [app].
  assert (Hs : string_result (mkStrState [] 0 None) its = decode_string its) by done.
  assert (Hl : length its < S (length (items_text its ++ 34%Z :: rest))).
  { rewrite length_app. enough (length its <= length (items_text its)) by lia.
    clear. induction its as [|i its IH]; [done|].
    change (items_text (i :: its)) with (item_text i ++ items_text its).
    rewrite length_app. destruct i; cbn [item_text length]; lia. }
  pose proof (string_loop_spec _ its _ (mkStrState [] 0 None) rest (reflexivity _) Hok eq_refl
    ltac:(done) Hl) as Hspec.
  rewrite Hs in Hspec. unfold out in *. destruct (decode_string its); intros v o; apply Hspec.
Qed.

(** ** Numbers, keywords and whitespace *)

(** A text that does not continue a number. *)
Definition delim (r : text) : Prop :=
  match r with
  | [] => True
  | c :: _ => is_ascii_digit c = false /\ c <> chr "." /\ c <> chr "e" /\ c <> chr "E"
  end.

Definition non_digit (r : text) : Prop :=
  match r with [] => True | c :: _ => is_ascii_digit c = false end.

Lemma steps_digits ds r : digits ds -> non_digit r -> steps (skip_while is_ascii_digit) (ds ++ r) () r.
Proof. apply steps_skip_while. Qed.

Lemma steps_next_ret c r : steps (next_char ;; mret ()) (c :: r) () r.
Proof. apply steps_next. intros p. apply steps_ret. Qed.

Lemma peek_is_cons f c r : f c = true -> steps (peek_is f) (c :: r) true (c :: r).
Proof. intros Hf. pose proof (steps_peek_is f (c :: r)) as H. cbn in H. by rewrite Hf in H. Qed.

Lemma peek_is_not f r :
  match r with [] => True | c :: _ => f c = false end -> steps (peek_is f) r false r.
Proof.
  intros Hr. pose proof (steps_peek_is f r) as H. destruct r as [|c r]; cbn in *; [done|].
  by rewrite Hr in H.
Qed.

Lemma digit_not_sign d :
  is_ascii_digit d = true -> Z.eqb d (chr "+") || Z.eqb d (chr "-") = false.
Proof.
  unfold is_ascii_digit. rewrite andb_true_iff, !Z.leb_le. intros H.
  apply orb_false_iff. split; apply Z.eqb_neq; vm_compute (chr _); lia.
Qed.

Lemma number_exponent exp r :
  (exp = [] \/ exists e sg d ds, exp = e :: sg ++ d :: ds /\ (e = chr "e" \/ e = chr "E") /\
                 (sg = [] \/ sg = [chr "+"] \/ sg = [chr "-"]) /\ digits (d :: ds)) ->
  delim r ->
  steps (e ← peek_is (fun c => Z.eqb c (chr "e") || Z.eqb c (chr "E"));
    if e : bool then
      next_char ;;
      sign ← peek_is (fun c => Z.eqb c (chr "+") || Z.eqb c (chr "-"));
      (if sign : bool then next_char ;; mret () else mret ()) ;;
      d ← peek_is is_ascii_digit;
      if negb d then fail (ParseError (txt "expected digit in exponent"))
      else skip_while is_ascii_digit
    else mret ()) (exp ++ r) () r.
Proof.
  intros [->|(e & sg & d & ds & -> & He & Hsg & Hd)] Hr.
  - eapply steps_bind; [apply peek_is_not | apply steps_ret].
    destruct r as [|c r]; [done|]. destruct Hr as (_ & _ & H1%Z.eqb_neq & H2%Z.eqb_neq). cbn [app]. by rewrite H1, H2.
  - assert (Hnd : non_digit r) by (destruct r; [done | by destruct Hr]).
    pose proof Hd as [Hd1 _]%Forall_cons. cbn [app]. rewrite <- app_assoc. cbn [app].
    eapply steps_bind; [apply peek_is_cons; by destruct He as [-> | ->]|]. cbv iota.
    apply steps_next. intros p. destruct Hsg as [-> | Hsg].
    + eapply steps_bind; [apply peek_is_not; cbn; by apply digit_not_sign|]. cbv iota.
      eapply steps_bind; [apply steps_ret|]. eapply steps_bind; [by apply peek_is_cons|].
      by apply (steps_digits (d :: ds)).
    + assert (exists s, sg = [s] /\ Z.eqb s (chr "+") || Z.eqb s (chr "-") = true) as (s & -> & Hs)
        by (destruct Hsg as [-> | ->]; eauto).
      cbn [app]. eapply steps_bind; [by apply peek_is_cons|]. cbv iota.
      eapply steps_bind; [apply steps_next_ret|]. eapply steps_bind; [by apply peek_is_cons|].
      by apply (steps_digits (d :: ds)).
Qed.

Lemma number_head_after_int frac exp r :
  (frac = [] \/ exists d ds, frac = chr "." :: d :: ds /\ digits (d :: ds)) ->
  (exp = [] \/ exists e sg d ds, exp = e :: sg ++ d :: ds /\ (e = chr "e" \/ e = chr "E") /\
                 (sg = [] \/ sg = [chr "+"] \/ sg = [chr "-"]) /\ digits (d :: ds)) ->
  delim r ->
  non_digit (frac ++ exp ++ r) /\ non_digit (exp ++ r) /\
  match exp ++ r with [] => True | c :: _ => Z.eqb (chr ".") c = false end.
Proof.
  intros Hf He Hr.
  assert (H1 : non_digit (exp ++ r) /\ match exp ++ r with [] => True | c :: _ => Z.eqb (chr ".") c = false end).
  { destruct He as [->|(e & sg & d & ds & -> & He & _)]; cbn [app].
    - destruct r as [|c r]; [done|]. destruct Hr as (H & H2 & _).
      split; [done|]. apply Z.eqb_neq. congruence.
    - by destruct He as [-> | ->]. }
  split; [|done]. by destruct Hf as [->|(d & ds & -> & _)]; [destruct H1|].
Qed.

Lemma number_int int r :
  (int = [chr "0"] \/ exists d ds, int = d :: ds /\ is_ascii_digit d = true /\
                        d <> chr "0" /\ digits ds) ->
  non_digit r ->
  steps (c ← peek_char;
    match c with
    | Some c =>
        if Z.eqb c (chr "0") then next_char ;; mret ()
        else if is_ascii_digit c then skip_while is_ascii_digit
        else fail (ParseError (txt "expected digit"))
    | None => fail (ParseError (txt "expected digit"))
    end) (int ++ r) () r.
Proof.
  intros [->|(d & ds & -> & Hd & Hz%Z.eqb_neq & Hds)] Hr; cbn [app].
  - eapply steps_bind; [apply steps_peek|]. cbn. apply steps_next_ret.
  - eapply steps_bind; [apply steps_peek|]. cbn [head hd_error]. cbv beta iota. rewrite Hz, Hd.
    apply (steps_digits (d :: ds)); [by apply Forall_cons | done].
Qed.

Lemma number_fraction frac r :
  (frac = [] \/ exists d ds, frac = chr "." :: d :: ds /\ digits (d :: ds)) ->
  non_digit r -> match r with [] => True | c :: _ => Z.eqb (chr ".") c = false end ->
  steps (dot ← peek_is (Z.eqb (chr "."));
    (if dot : bool then
       next_char ;;
       d ← peek_is is_ascii_digit;
       if negb d then fail (ParseError (txt "expected digit after decimal point"))
       else skip_while is_ascii_digit
     else mret ())) (frac ++ r) () r.
Proof.
  intros [->|(d & ds & -> & Hd)] Hr Hdot; cbn [app].
  - eapply steps_bind; [by apply peek_is_not | apply steps_ret].
  - eapply steps_bind; [by apply peek_is_cons|]. cbv iota. apply steps_next. intros p.
    pose proof Hd as [Hd1 _]%Forall_cons.
    eapply steps_bind; [by apply peek_is_cons|]. by apply (steps_digits (d :: ds)).
Qed.

Lemma bind_assoc {A B C} (m : V A) (k : A -> V B) (h : B -> V C) l c r :
  steps ((m ≫= k) ≫= h) l c r -> steps (m ≫= fun a => k a ≫= h) l c r.
Proof.
  intros H v o. specialize (H v o). unfold mbind, V_bind in *.
  by destruct (m (at_ v l o)) as [[[a v']|e]|].
Qed.

Lemma number_spec l r : num_text l -> delim r -> steps validate_number (l ++ r) () r.
Proof.
  intros (sign & int & frac & exp & -> & Hs & Hi & Hf & He) Hr.
  destruct (number_head_after_int frac exp r Hf He Hr) as (N1 & N2 & N3).
  rewrite <- !app_assoc. unfold validate_number.
  assert (Hrest : steps (c ← peek_char;
    (match c with
     | Some c =>
         if Z.eqb c (chr "0") then next_char ;; mret ()
         else if is_ascii_digit c then skip_while is_ascii_digit
         else fail (ParseError (txt "expected digit"))
     | None => fail (ParseError (txt "expected digit"))
     end) ;;
    dot ← peek_is (Z.eqb (chr "."));
    (if dot : bool then
       next_char ;;
       d ← peek_is is_ascii_digit;
       if negb d then fail (ParseError (txt "expected digit after decimal point"))
       else skip_while is_ascii_digit
     else mret ()) ;;
    e ← peek_is (fun c => Z.eqb c (chr "e") || Z.eqb c (chr "E"));
    if e : bool then
      next_char ;;
      sign ← peek_is (fun c => Z.eqb c (chr "+") || Z.eqb c (chr "-"));
      (if sign : bool then next_char ;; mret () else mret ()) ;;
      d ← peek_is is_ascii_digit;
      if negb d then fail (ParseError (txt "expected digit in exponent"))
      else skip_while is_ascii_digit
    else mret ()) (int ++ frac ++ exp ++ r) () r).
  { apply bind_assoc. eapply steps_bind; [by apply number_int|].
    apply bind_assoc. eapply steps_bind; [by apply number_fraction|]. by apply number_exponent. }
  destruct Hs as [-> | ->]; cbn [app].
  - eapply (steps_bind _ _ _ false);
      [|cbv iota; eapply steps_bind; [apply steps_ret | exact Hrest]].
    apply peek_is_not. destruct Hi as [->|(d & ds & -> & Hd & _)]; cbn [app]; [done|].
    apply digit_not_sign in Hd. rewrite Z.eqb_sym. by apply orb_false_iff in Hd as [_ ->].
  - eapply steps_bind; [by apply peek_is_cons|]. cbv iota.
    eapply steps_bind; [apply steps_next_ret | exact Hrest].
Qed.

Lemma strip_keyword_app k r o : exists o', strip_keyword k (k ++ r) o = Some (r, o').
Proof.
  revert o. induction k as [|c k IH]; intros o; cbn [strip_keyword app]; [by exists o|].
  rewrite Z.eqb_refl. apply IH.
Qed.

Lemma steps_keyword k r : steps (consume_keyword k) (k ++ r) true r.
Proof.
  intros v o. unfold consume_keyword. destruct (strip_keyword_app k r o) as [o' E]. exists o'.
  cbn [chars offset at_ set_field]. unfold at_ in *. cbn. by rewrite E.
Qed.

Lemma steps_not_keyword k ks c r :
  c <> k -> steps (consume_keyword (k :: ks)) (c :: r) false (c :: r).
Proof.
  intros Hc v o. exists o. unfold consume_keyword. cbn [chars offset at_ set_field strip_keyword].
  apply Z.eqb_neq in Hc. unfold at_. cbn. by rewrite Hc.
Qed.

Lemma ws_is_whitespace l : ws l -> Forall (fun c => is_whitespace c = true) l.
Proof.
  intros Hl. eapply Forall_impl; [exact Hl|]. intros c [->|[->|[->| ->]]]; done.
Qed.

Definition non_ws (r : text) : Prop :=
  match r with [] => True | c :: _ => is_whitespace c = false end.

Lemma steps_ws w r : ws w -> non_ws r -> steps skip_whitespace (w ++ r) () r.
Proof. intros Hw. apply steps_skip_while. by apply ws_is_whitespace. Qed.
Lemma steps_no_ws r : non_ws r -> steps skip_whitespace r () r.
Proof. by apply (steps_ws []), Forall_nil_2. Qed.

(** ** Values

    [strictb] decides [Strict] in the order of the validator. *)

Definition members_okb (f : Json -> bool) : gset text -> list (list item * Json) -> bool :=
  fix go (seen : gset text) (m : list (list item * Json)) : bool :=
    match m with
    | [] => true
    | (k, j) :: r =>
        match decode_string k with
        | None => false
        | Some key =>
            (Z.of_nat (size seen) <? MAX_KEYS_PER_OBJECT)%Z && negb (bool_decide (key ∈ seen)) &&
            f j && go ({[key]} ∪ seen) r
        end
    end.

Fixpoint strictb (d : Z) (j : Json) : bool :=
  match j with
  | JLit _ | JNum => true
  | JStr s => opt_is_some (decode_string s)
  | JArr l => (0 <? d)%Z && forallb (strictb (d - 1)) l
  | JObj m => (0 <? d)%Z && members_okb (strictb (d - 1)) ∅ m
  end.

(** The validator accepts and stops at [r] in the state [v], or fails. *)
Definition ends (b : bool) (res : option (Result (() * JsonValidator) StrictJsonError))
    (v : JsonValidator) (r : text) : Prop :=
  if b then exists o, res = Some (Ok ((), at_ v r o)) else exists e, res = Some (Err e).

Lemma ends_fail e v r : ends false (Some (Err e)) v r.
Proof. by exists e. Qed.

Lemma run_steps {A B} (m : V A) (k : A -> V B) l a r v o :
  steps m l a r -> exists o', (m ≫= k) (at_ v l o) = k a (at_ v r o').
Proof. intros Hm. destruct (Hm v o) as [o' E]. exists o'. by apply bind_ok. Qed.

Lemma run_fails {A B} (m : V A) (k : A -> V B) l v o :
  fails m l -> exists e, (m ≫= k) (at_ v l o) = Some (Err e).
Proof. intros Hm. destruct (Hm v o) as [e E]. exists e. by apply bind_err. Qed.

Ltac run H :=
  let o := fresh "o" in let E := fresh in
  match goal with |- context [@mbind V _ _ _ ?k ?m (at_ ?v ?l ?o0)] =>
    destruct (run_steps m k l _ _ v o0 H) as [o E]; rewrite E; clear E; cbv beta
  end.

Lemma run_next {B} (k : option (Z * Z) -> V B) v c r o :
  (next_char ≫= k) (at_ v (c :: r) o) = k (Some (o, c)) (at_ v r (o + len_utf8 c)).
Proof. done. Qed.

Lemma run_get {B} (k : JsonValidator -> V B) v : (get_v ≫= k) v = k v v.
Proof. done. Qed.

Lemma run_enter_depth {B} (k : () -> V B) v l o :
  (enter_depth ≫= k) (at_ v l o) =
  if (0 <? max_depth v - depth v)%Z then k () (at_ (v <| depth := (depth v + 1)%Z |>) l o)
  else Some (Err (NestingTooDeep (depth v + 1))).
Proof.
  unfold enter_depth, mbind, V_bind, upd_v, get_v. cbn.
  destruct (Z.ltb_spec (max_depth v) (depth v + 1)), (Z.ltb_spec 0 (max_depth v - depth v));
    first [done | lia].
Qed.

Lemma run_enter_object {B} (k : () -> V B) p v l o :
  (enter_object p ≫= k) (at_ v l o) =
  k () (at_ (v <| key_stack := (p, ∅) :: key_stack v |>) l o).
Proof. done. Qed.

Lemma run_set_path {B} (k : () -> V B) p v l o :
  (set_path p ≫= k) (at_ v l o) = k () (at_ (v <| current_path := p |>) l o).
Proof. done. Qed.

Lemma run_push_key {B} (k : () -> V B) key v l o path seen outer :
  key_stack v = (path, seen) :: outer ->
  let ok := (Z.of_nat (size seen) <? MAX_KEYS_PER_OBJECT)%Z && negb (bool_decide (key ∈ seen)) in
  (ok = true /\ (push_key key ≫= k) (at_ v l o) =
     k () (at_ (v <| key_stack := (path, {[key]} ∪ seen) :: outer |>) l o)) \/
  (ok = false /\ exists e, (push_key key ≫= k) (at_ v l o) = Some (Err e)).
Proof.
  intros Hk. cbv zeta. unfold push_key, mbind, V_bind, get_v, upd_v, fail. cbn. rewrite Hk.
  destruct (Z.leb_spec MAX_KEYS_PER_OBJECT (Z.of_nat (size seen))),
    (Z.ltb_spec (Z.of_nat (size seen)) MAX_KEYS_PER_OBJECT); try lia; cbn; [right; eauto|].
  destruct (bool_decide (key ∈ seen)); cbn; [right; eauto | by left].
Qed.

Lemma undo_depth v l o :
  (at_ (v <| depth := (depth v + 1)%Z |>) l o)
    <| depth := (depth (at_ (v <| depth := (depth v + 1)%Z |>) l o) - 1)%Z |> = at_ v l o.
Proof.
  destruct v. unfold at_. cbn. unfold set_field. cbn. f_equal. lia.
Qed.

Lemma value_head j l :
  value_text j l -> exists c l', l = c :: l' /\ is_whitespace c = false /\ c <> chr "]" /\ c <> chr "}".
Proof.
  assert (Hdig : forall d, is_ascii_digit d = true ->
    is_whitespace d = false /\ d <> chr "]" /\ d <> chr "}").
  { unfold is_ascii_digit. intros d. rewrite andb_true_iff, !Z.leb_le. intros Hd.
    split; [|vm_compute (chr _); lia]. unfold is_whitespace.
    repeat match goal with
    | |- context [Z.leb ?a ?b] => destruct (Z.leb_spec a b); try lia
    | |- context [Z.eqb ?a ?b] => destruct (Z.eqb_spec a b); try lia
    end; done. }
  intros Ht. inversion Ht as [[[]|]|? Hn|s ? [_ ->]| | | |]; subst; cbn [app]; eauto 6 with f_equal;
    try (eexists _, _; split; [reflexivity | done]).
  destruct Hn as (sign & int & frac & exp & -> & Hs & Hi & _).
  destruct Hs as [-> | ->]; cbn [app]; [|eexists _, _; split; [reflexivity | done]].
  destruct Hi as [->|(d & ds & -> & Hd & _)]; cbn [app]; eexists _, _; (split; [reflexivity|]); [done|].
  by apply Hdig.
Qed.

Lemma ends_steps m l v o r : steps m l () r -> ends true (m (at_ v l o)) v r.
Proof. intros Hm. apply Hm. Qed.

Lemma value_lit b n v o r : ends true (validate_value (S n) (at_ v (lit_text b ++ r) o)) v r.
Proof.
  apply ends_steps. cbn [validate_value].
  destruct b as [[]|]; cbn [lit_text]; (eapply steps_bind; [by apply steps_no_ws|]);
    (eapply steps_bind; [apply steps_peek|]); cbn.
  - eapply steps_bind; [apply (steps_keyword (txt "true")) | apply steps_ret].
  - eapply steps_bind; [by apply steps_not_keyword|]. cbv iota.
    eapply steps_bind; [apply (steps_keyword (txt "false")) | apply steps_ret].
  - eapply steps_bind; [apply (steps_keyword (txt "null")) | apply steps_ret].
Qed.

(** What the dispatch of [validate_value] does on the first character. *)
Lemma value_dispatch n c l v o :
  is_whitespace c = false ->
  exists o', validate_value (S n) (at_ v (c :: l) o) =
    (if Z.eqb c (chr "{") then
       (expect_char (chr "{") ;; skip_whitespace ;; enter_depth ;;
        v ← get_v;
        enter_object (current_path v) ;;
        close ← peek_is (Z.eqb (chr "}"));
        if close : bool then next_char ;; exit_object ;; leave_depth
        else object_loop n)
     else if Z.eqb c (chr "[") then
       (expect_char (chr "[") ;; skip_whitespace ;; enter_depth ;;
        close ← peek_is (Z.eqb (chr "]"));
        if close : bool then next_char ;; leave_depth
        else array_loop n 0)
     else if Z.eqb c 34 then parse_json_string ;; mret ()
     else if Z.eqb c (chr "-") || is_ascii_digit c then validate_number
     else if Z.eqb c (chr "t") || Z.eqb c (chr "f") then validate_bool
     else if Z.eqb c (chr "n") then validate_null
     else fail (ParseError (txt "unexpected char '" ++ [c] ++ txt "'"))) (at_ v (c :: l) o').
Proof.
  intros Hc. cbn [validate_value].
  run (steps_no_ws (c :: l) Hc). run (steps_peek (c :: l)). by eexists.
Qed.

Lemma num_head l : num_text l -> exists c l', l = c :: l' /\ Z.eqb c (chr "-") || is_ascii_digit c = true.
Proof.
  intros (sign & int & frac & exp & -> & [-> | ->] & Hi & _); cbn [app]; [|by eexists _, _].
  destruct Hi as [->|(d & ds & -> & Hd & _)]; cbn [app]; eexists _, _; split; try done.
  by rewrite Hd, orb_true_r.
Qed.

Lemma num_char_dispatch c :
  Z.eqb c (chr "-") || is_ascii_digit c = true ->
  Z.eqb c (chr "{") = false /\ Z.eqb c (chr "[") = false /\ Z.eqb c 34 = false.
Proof.
  unfold is_ascii_digit. rewrite orb_true_iff, andb_true_iff, Z.eqb_eq, !Z.leb_le, !Z.eqb_neq.
  vm_compute (chr _). lia.
Qed.

Lemma value_num l n v o r :
  num_text l -> delim r -> ends true (validate_value (S n) (at_ v (l ++ r) o)) v r.
Proof.
  intros Hn Hr. destruct (value_head JNum l (vt_num l Hn)) as (c & l' & E & Hw & _).
  destruct (num_head l Hn) as (c' & l'' & E' & Hc). assert (c' = c) as -> by congruence.
  destruct (num_char_dispatch c Hc) as (H1 & H2 & H3).
  destruct (value_dispatch n c (l' ++ r) v o Hw) as [o1 E1].
  rewrite E. cbn [app]. rewrite E1, H1, H2, H3, Hc. apply ends_steps.
  change (c :: l' ++ r) with ((c :: l') ++ r). rewrite <- E. by apply number_spec.
Qed.

Lemma value_str s l n v o r :
  string_text s l -> ends (opt_is_some (decode_string s)) (validate_value (S n) (at_ v (l ++ r) o)) v r.
Proof.
  intros Hs. pose proof (parse_string_spec s l r Hs) as Hp. destruct Hs as [_ ->]. cbn [app].
  destruct (value_dispatch n 34 ((items_text s ++ [34%Z]) ++ r) v o eq_refl) as [o1 ->].
  cbn [Z.eqb chr]. unfold out in Hp. cbn [app] in Hp. destruct (decode_string s) as [t|]; cbn [opt_is_some].
  - apply ends_steps. eapply steps_bind; [exact Hp | apply steps_ret].
  - by apply run_fails.
Qed.

(** Whitespace in front of a value changes nothing. *)
Lemma value_ws n w c l v o :
  ws w -> is_whitespace c = false ->
  exists o', validate_value (S n) (at_ v (w ++ c :: l) o) = validate_value (S n) (at_ v (c :: l) o').
Proof.
  intros Hw Hc. cbn [validate_value].
  run (steps_ws w (c :: l) Hw Hc). rename o0 into o1.
  exists o1. edestruct (steps_no_ws (c :: l) Hc v o1) as [o2 E].
  assert (o2 = o1) as ->.
  { unfold skip_whitespace, skip_while, upd_v in E. cbn in E. rewrite Hc in E. by injection E. }
  by rewrite (bind_ok _ _ _ _ _ E).
Qed.

(** Closing brackets, after the elements or members. *)
Lemma close_array v l o :
  (next_char ;; leave_depth) (at_ (v <| depth := (depth v + 1)%Z |>) (chr "]" :: l) o) =
  Some (Ok ((), at_ v l (o + len_utf8 (chr "]")))).
Proof.
  unfold mbind, V_bind, next_char, leave_depth, upd_v. cbn. do 3 f_equal.
  destruct v. unfold at_, set_field. cbn. f_equal. lia.
Qed.

Definition inside (v : JsonValidator) (p : text) (seen : gset text) : JsonValidator :=
  v <| key_stack := (p, seen) :: key_stack v |> <| depth := (depth v + 1)%Z |>.

Lemma close_object v p seen l o :
  (next_char ;; exit_object ;; leave_depth) (at_ (inside v p seen) (chr "}" :: l) o) =
  Some (Ok ((), at_ v l (o + len_utf8 (chr "}")))).
Proof.
  unfold mbind, V_bind, next_char, exit_object, leave_depth, upd_v, inside. cbn. do 3 f_equal.
  destruct v. unfold at_, set_field. cbn. f_equal. lia.
Qed.

Lemma restore_path x q l o :
  at_ (x <| current_path := q |> <| current_path := current_path x |>) l o = at_ x l o.
Proof. by destruct x. Qed.

Definition closer (d : Z) : Prop := d = chr "," \/ d = chr "]" \/ d = chr "}".

Lemma delim_ws w d r : ws w -> closer d -> delim (w ++ d :: r).
Proof.
  intros [|c w' Hc _] Hd; cbn.
  - by destruct Hd as [->|[->| ->]].
  - by destruct Hc as [->|[->|[->| ->]]].
Qed.

Lemma closer_non_ws d r : closer d -> non_ws (d :: r).
Proof. by intros [->|[->| ->]]. Qed.

(** [reads j l]: the validator treats the text [l] of [j] as [strictb] says. *)
Definition reads (j : Json) (l : text) : Prop :=
  forall fuel v o r, delim r -> 2 * length (l ++ r) + 2 <= fuel ->
    ends (strictb (max_depth v - depth v) j) (validate_value fuel (at_ v (l ++ r) o)) v r.

(** A value between whitespace, under any path, followed by a closer [d]. *)
Lemma value_in_context {B} (k : () -> V B) j l w1 w2 d r x q fuel o :
  reads j l -> value_text j l -> ws w1 -> ws w2 -> closer d ->
  2 * length (w1 ++ l ++ w2 ++ d :: r) + 2 <= fuel ->
  let m := (set_path q ;; validate_value fuel ;; set_path (current_path x) ;; skip_whitespace) ≫= k in
  if strictb (max_depth x - depth x) j
  then exists o', m (at_ x (w1 ++ l ++ w2 ++ d :: r) o) = k () (at_ x (d :: r) o')
  else exists e, m (at_ x (w1 ++ l ++ w2 ++ d :: r) o) = Some (Err e).
Proof.
  intros Hr Ht Hw1 Hw2 Hd Hf m. destruct (value_head j l Ht) as (c & l' & -> & Hc & _).
  destruct fuel as [|fuel]; [lia|].
  assert (Hv : ends (strictb (max_depth x - depth x) j)
    (validate_value (S fuel) (at_ (x <| current_path := q |>) (w1 ++ (c :: l') ++ w2 ++ d :: r) o))
    (x <| current_path := q |>) (w2 ++ d :: r)).
  { cbn [app]. destruct (value_ws fuel w1 c (l' ++ w2 ++ d :: r) (x <| current_path := q |>) o Hw1 Hc) as [o1 ->].
    assert (Hlen : 2 * length ((c :: l') ++ w2 ++ d :: r) + 2 <= S fuel)
      by (rewrite !length_app in *; cbn [length] in *; lia).
    set (x' := x <| current_path := q |>) in *.
    pose proof (Hr (S fuel) x' o1 (w2 ++ d :: r) (delim_ws w2 d r Hw2 Hd) Hlen) as Hx. exact Hx. }
  unfold m, ends in *.
  destruct (strictb (max_depth x - depth x) j);
    unfold mbind at 1, V_bind at 1; rewrite run_set_path; cbv beta.
  - destruct Hv as [o1 E]. rewrite (bind_ok _ _ _ _ _ E), run_set_path, restore_path. cbv beta.
    destruct (steps_ws w2 (d :: r) Hw2 (closer_non_ws d r Hd) x o1) as [o2 ->]. by exists o2.
  - destruct Hv as [e E]. rewrite (bind_err _ _ _ _ E). by exists e.
Qed.

(** The loops, with the part [value_in_context] describes in front. *)
Definition after_element (n : nat) (index : Z) : V () :=
  c ← peek_char;
  match c with
  | Some c =>
      if Z.eqb c (chr ",") then next_char ;; skip_whitespace ;; array_loop n (index + 1)
      else if Z.eqb c (chr "]") then next_char ;; leave_depth
      else fail (ParseError (txt "expected ',' or ']'"))
  | None => fail (ParseError (txt "expected ',' or ']'"))
  end.

Lemma array_loop_unfold n index x l o :
  array_loop (S n) index (at_ x l o) =
  ((set_path (current_path x ++ chr "/" :: txt (fmt_int index)) ;; validate_value n ;;
    set_path (current_path x) ;; skip_whitespace) ≫= fun _ => after_element n index) (at_ x l o).
Proof.
  cbn [array_loop]. rewrite run_get. cbv zeta.
  unfold mbind, V_bind, set_path, upd_v.
  change (current_path (at_ x l o)) with (current_path x).
  by destruct (validate_value n _) as [[[]|]|].
Qed.

Definition after_member (n : nat) : V () :=
  c ← peek_char;
  match c with
  | Some c =>
      if Z.eqb c (chr ",") then next_char ;; object_loop n
      else if Z.eqb c (chr "}") then next_char ;; exit_object ;; leave_depth
      else fail (ParseError (txt "expected ',' or '}'"))
  | None => fail (ParseError (txt "expected ',' or '}'"))
  end.

Definition member_value (n : nat) (key : text) : V () :=
  v ← get_v;
  let old_path := current_path v in
  set_path (if is_nil old_path then chr "/" :: key else old_path ++ chr "/" :: key) ;;
  validate_value n ;;
  set_path old_path ;; skip_whitespace ;;
  after_member n.

Lemma object_loop_unfold n :
  object_loop (S n) =
  (skip_whitespace ;; key ← parse_json_string; push_key key ;; skip_whitespace ;;
   expect_char (chr ":") ;; member_value n key).
Proof. done. Qed.

Lemma member_value_unfold n key x l o :
  exists q, member_value n key (at_ x l o) =
  ((set_path q ;; validate_value n ;; set_path (current_path x) ;; skip_whitespace)
     ≫= fun _ => after_member n) (at_ x l o).
Proof.
  exists (if is_nil (current_path x) then chr "/" :: key else current_path x ++ chr "/" :: key).
  unfold member_value. rewrite run_get. cbv zeta.
  unfold mbind, V_bind, set_path, upd_v.
  change (current_path (at_ x l o)) with (current_path x).
  by destruct (validate_value n _) as [[[]|]|].
Qed.

(** A member up to its value: the key is decoded and checked against the keys
    seen so far. *)
Lemma member_key n k lk w0 w2 rest v p seen o :
  ws w0 -> string_text k lk -> ws w2 ->
  let s := at_ (inside v p seen) (w0 ++ lk ++ w2 ++ chr ":" :: rest) o in
  match decode_string k with
  | None => exists e, object_loop (S n) s = Some (Err e)
  | Some key =>
      if (Z.of_nat (size seen) <? MAX_KEYS_PER_OBJECT)%Z && negb (bool_decide (key ∈ seen))
      then exists o', object_loop (S n) s = member_value n key (at_ (inside v p ({[key]} ∪ seen)) rest o')
      else exists e, object_loop (S n) s = Some (Err e)
  end.
Proof.
  intros Hw0 Hk Hw2 s. unfold s. rewrite object_loop_unfold.
  pose proof (parse_string_spec k lk (w2 ++ chr ":" :: rest) Hk) as Hp. unfold out in Hp.
  destruct Hk as [_ ->]. cbn [app] in *.
  run (steps_ws w0 (34%Z :: (items_text k ++ [34%Z]) ++ w2 ++ chr ":" :: rest) Hw0 eq_refl).
  destruct (decode_string k) as [key|]; [|by apply run_fails].
  run Hp.
  match goal with |- context [(push_key key ≫= ?f) (at_ ?x ?l ?o')] =>
    destruct (run_push_key f key x l o' p seen (key_stack v) eq_refl) as [[-> E]|[-> E]]; [|exact E];
    rewrite E; clear E; cbv beta
  end.
  run (steps_ws w2 (chr ":" :: rest) Hw2 eq_refl). run (steps_expect (chr ":") rest).
  by eexists.
Qed.

Definition reads_elements (es : list Json) (l : text) : Prop :=
  exists w c l', l = w ++ c :: l' /\ ws w /\ is_whitespace c = false /\ c <> chr "]" /\
  forall fuel v o r index, 2 * length ((c :: l') ++ chr "]" :: r) + 3 <= fuel ->
    ends (forallb (strictb (max_depth v - depth v - 1)) es)
      (array_loop fuel index (at_ (v <| depth := (depth v + 1)%Z |>) ((c :: l') ++ chr "]" :: r) o)) v r.

Definition reads_members (ms : list (list item * Json)) (l : text) : Prop :=
  exists w c l', l = w ++ c :: l' /\ ws w /\ is_whitespace c = false /\ c <> chr "}" /\
  forall w0 fuel v p seen o r, ws w0 -> 2 * length (w0 ++ (c :: l') ++ chr "}" :: r) + 1 <= fuel ->
    ends (members_okb (strictb (max_depth v - depth v - 1)) seen ms)
      (object_loop fuel (at_ (inside v p seen) (w0 ++ (c :: l') ++ chr "}" :: r) o)) v r.

Lemma depth_in v : (max_depth (v <| depth := (depth v + 1)%Z |>) - depth (v <| depth := (depth v + 1)%Z |>))%Z
  = (max_depth v - depth v - 1)%Z.
Proof. cbn. lia. Qed.

Lemma depth_inside v p seen :
  (max_depth (inside v p seen) - depth (inside v p seen))%Z = (max_depth v - depth v - 1)%Z.
Proof. unfold inside. cbn. lia. Qed.

(** The first element, and whatever follows it. *)
Lemma element_step j l w1 w2 d r n v o index :
  reads j l -> value_text j l -> ws w1 -> ws w2 -> closer d ->
  2 * length (w1 ++ l ++ w2 ++ d :: r) + 3 <= S n ->
  let x := v <| depth := (depth v + 1)%Z |> in
  let s := at_ x (w1 ++ l ++ w2 ++ d :: r) o in
  if strictb (max_depth v - depth v - 1) j
  then exists o', array_loop (S n) index s = after_element n index (at_ x (d :: r) o')
  else exists e, array_loop (S n) index s = Some (Err e).
Proof.
  intros Hr Ht Hw1 Hw2 Hd Hf x s. unfold s. rewrite array_loop_unfold, <- depth_in.
  apply (value_in_context (fun _ => after_element n index) j l w1 w2 d r x); try done. lia.
Qed.

Lemma member_step k j lk l w0 w2 w3 w4 d r n v p seen o :
  reads j l -> value_text j l -> ws w0 -> string_text k lk -> ws w2 -> ws w3 -> ws w4 -> closer d ->
  2 * length (w0 ++ lk ++ w2 ++ chr ":" :: w3 ++ l ++ w4 ++ d :: r) + 1 <= S n ->
  let s := at_ (inside v p seen) (w0 ++ lk ++ w2 ++ chr ":" :: w3 ++ l ++ w4 ++ d :: r) o in
  match decode_string k with
  | None => exists e, object_loop (S n) s = Some (Err e)
  | Some key =>
      if (Z.of_nat (size seen) <? MAX_KEYS_PER_OBJECT)%Z && negb (bool_decide (key ∈ seen)) &&
         strictb (max_depth v - depth v - 1) j
      then exists o', object_loop (S n) s =
             after_member n (at_ (inside v p ({[key]} ∪ seen)) (d :: r) o')
      else exists e, object_loop (S n) s = Some (Err e)
  end.
Proof.
  intros Hr Ht Hw0 Hk Hw2 Hw3 Hw4 Hd Hf s.
  pose proof (member_key n k lk w0 w2 (w3 ++ l ++ w4 ++ d :: r) v p seen o Hw0 Hk Hw2) as Hm.
  cbv zeta in Hm. fold s in Hm. destruct (decode_string k) as [key|]; [|done].
  destruct (_ && negb _); [|done]. destruct Hm as [o1 E]. rewrite E. cbn [andb].
  destruct (member_value_unfold n key (inside v p ({[key]} ∪ seen)) (w3 ++ l ++ w4 ++ d :: r) o1)
    as [q E2]. rewrite E2, <- (depth_inside v p ({[key]} ∪ seen)).
  apply (value_in_context (fun _ => after_member n) j l w3 w4 d r (inside v p ({[key]} ∪ seen))); try done.
  destruct Hk as [_ ->]. rewrite !length_app in *. cbn [length] in *. rewrite !length_app in *.
  cbn [length] in *. lia.
Qed.

Lemma reads_last_element j l w1 w2 :
  reads j l -> value_text j l -> ws w1 -> ws w2 -> reads_elements [j] (w1 ++ l ++ w2).
Proof.
  intros Hr Ht Hw1 Hw2. destruct (value_head j l Ht) as (c & l' & E & Hc & Hc1 & _).
  exists w1, c, (l' ++ w2). split; [by rewrite E|]. split_and!; [done..|].
  intros [|n] v o r index Hf; [lia|].
  pose proof (element_step j l [] w2 (chr "]") r n v o index Hr Ht (Forall_nil_2 _) Hw2
    ltac:(right; by left)) as Hs.
  rewrite E in Hs. cbn [app forallb] in *. rewrite <- app_assoc in *. cbv zeta in Hs.
  specialize (Hs Hf). rewrite andb_true_r. destruct (strictb _ j); [|exact Hs].
  destruct Hs as [o1 ->]. unfold after_element. run (steps_peek (chr "]" :: r)).
  cbn [head hd_error Z.eqb chr]. eexists. apply close_array.
Qed.

Lemma reads_more_elements j es l l' w1 w2 :
  reads j l -> value_text j l -> ws w1 -> ws w2 -> reads_elements es l' ->
  reads_elements (j :: es) (w1 ++ l ++ w2 ++ chr "," :: l').
Proof.
  intros Hr Ht Hw1 Hw2 (w' & c' & l2 & -> & Hw' & Hc' & _ & IH).
  destruct (value_head j l Ht) as (c & l1 & E & Hc & Hc1 & _).
  exists w1, c, (l1 ++ w2 ++ chr "," :: w' ++ c' :: l2).
  split; [by rewrite E|]. split_and!; [done..|]. intros [|n] v o r index Hf; [lia|].
  pose proof (element_step j l [] w2 (chr ",") (w' ++ (c' :: l2) ++ chr "]" :: r) n v o index Hr Ht
    (Forall_nil_2 _) Hw2 ltac:(by left)) as Hs.
  rewrite E in Hs. cbn [app forallb] in *. rewrite <- !app_assoc in *. cbn [app] in *.
  rewrite <- !app_assoc in *. cbn [app] in *.
  cbv zeta in Hs. specialize (Hs Hf). destruct (strictb _ j); [|exact Hs]. cbn [andb].
  destruct Hs as [o1 ->]. unfold after_element.
  run (steps_peek (chr "," :: w' ++ c' :: l2 ++ chr "]" :: r)). cbn [head hd_error].
  rewrite Z.eqb_refl, run_next. cbv beta. run (steps_ws w' (c' :: l2 ++ chr "]" :: r) Hw' Hc').
  apply IH. cbn [app length] in *. rewrite !length_app in *. cbn [length] in *.
  rewrite !length_app in *. cbn [length] in *. rewrite !length_app in *. cbn [length] in *. lia.
Qed.

Lemma reads_last_member k j lk l w1 w2 w3 w4 :
  reads j l -> value_text j l -> ws w1 -> string_text k lk -> ws w2 -> ws w3 -> ws w4 ->
  reads_members [(k, j)] (w1 ++ lk ++ w2 ++ chr ":" :: w3 ++ l ++ w4).
Proof.
  intros Hr Ht Hw1 Hk Hw2 Hw3 Hw4. pose proof Hk as [_ E].
  exists w1, 34%Z, ((items_text k ++ [34%Z]) ++ w2 ++ chr ":" :: w3 ++ l ++ w4).
  split; [by rewrite E|]. split_and!; [done..|].
  intros w0 [|n] v p seen o r Hw0 Hf; [lia|].
  pose proof (member_step k j lk l w0 w2 w3 w4 (chr "}") r n v p seen o Hr Ht Hw0 Hk Hw2 Hw3 Hw4
    ltac:(right; by right)) as Hs.
  rewrite E in Hs. cbn [app] in *. repeat (rewrite <- !app_assoc in *; cbn [app] in *).
  cbv zeta in Hs. specialize (Hs Hf). cbn [members_okb].
  destruct (decode_string k) as [key|]; [|exact Hs]. rewrite andb_true_r.
  destruct (_ && _); [|exact Hs]. destruct Hs as [o1 ->]. unfold after_member.
  run (steps_peek (chr "}" :: r)). cbn [head hd_error]. eexists. apply close_object.
Qed.

Lemma reads_more_members k j ms lk l l' w1 w2 w3 w4 :
  reads j l -> value_text j l -> ws w1 -> string_text k lk -> ws w2 -> ws w3 -> ws w4 ->
  reads_members ms l' ->
  reads_members ((k, j) :: ms) (w1 ++ lk ++ w2 ++ chr ":" :: w3 ++ l ++ w4 ++ chr "," :: l').
Proof.
  intros Hr Ht Hw1 Hk Hw2 Hw3 Hw4 (w' & c' & l2 & -> & Hw' & Hc' & _ & IH). pose proof Hk as [_ E].
  exists w1, 34%Z, ((items_text k ++ [34%Z]) ++ w2 ++ chr ":" :: w3 ++ l ++ w4 ++ chr "," :: w' ++ c' :: l2).
  split; [by rewrite E|]. split_and!; [done..|].
  intros w0 [|n] v p seen o r Hw0 Hf; [lia|].
  pose proof (member_step k j lk l w0 w2 w3 w4 (chr ",") (w' ++ (c' :: l2) ++ chr "}" :: r) n v p seen o
    Hr Ht Hw0 Hk Hw2 Hw3 Hw4 ltac:(by left)) as Hs.
  rewrite E in Hs. cbn [app] in *. repeat (rewrite <- !app_assoc in *; cbn [app] in *).
  cbv zeta in Hs. specialize (Hs Hf). cbn [members_okb].
  destruct (decode_string k) as [key|]; [|exact Hs].
  destruct (_ && _ && _); [|exact Hs]. destruct Hs as [o1 ->]. unfold after_member. cbn [andb].
  run (steps_peek (chr "," :: w' ++ c' :: l2 ++ chr "}" :: r)). cbn [head hd_error].
  rewrite Z.eqb_refl, run_next. cbv beta. apply (IH w'); [done|].
  cbn [app length] in *. repeat (rewrite !length_app in *; cbn [length] in *). lia.
Qed.

(** Comparisons of literal characters. *)
Ltac eqb_consts :=
  repeat match goal with
  | |- context [Z.eqb ?a ?b] =>
      let v := eval vm_compute in (Z.eqb a b) in
      match v with
      | true => change (Z.eqb a b) with true
      | false => change (Z.eqb a b) with false
      end
  end; cbv iota.

(** Opening a bracket: whitespace, the depth check, and on to the content. *)
Lemma open_array w c l n v o :
  ws w -> is_whitespace c = false ->
  exists o', validate_value (S n) (at_ v (chr "[" :: w ++ c :: l) o) =
    if (0 <? max_depth v - depth v)%Z
    then (if Z.eqb (chr "]") c then next_char ;; leave_depth else array_loop n 0)
           (at_ (v <| depth := (depth v + 1)%Z |>) (c :: l) o')
    else Some (Err (NestingTooDeep (depth v + 1))).
Proof.
  intros Hw Hc. destruct (value_dispatch n (chr "[") (w ++ c :: l) v o eq_refl) as [o1 ->].
  eqb_consts. run (steps_expect (chr "[") (w ++ c :: l)). run (steps_ws w (c :: l) Hw Hc).
  rewrite run_enter_depth. destruct (0 <? max_depth v - depth v)%Z; [|by exists 0%Z].
  run (steps_peek_is (Z.eqb (chr "]")) (c :: l)). by eexists.
Qed.

Lemma open_object w c l n v o :
  ws w -> is_whitespace c = false ->
  exists o', validate_value (S n) (at_ v (chr "{" :: w ++ c :: l) o) =
    if (0 <? max_depth v - depth v)%Z
    then (if Z.eqb (chr "}") c then next_char ;; exit_object ;; leave_depth else object_loop n)
           (at_ (inside v (current_path v) ∅) (c :: l) o')
    else Some (Err (NestingTooDeep (depth v + 1))).
Proof.
  intros Hw Hc. destruct (value_dispatch n (chr "{") (w ++ c :: l) v o eq_refl) as [o1 ->].
  eqb_consts. run (steps_expect (chr "{") (w ++ c :: l)). run (steps_ws w (c :: l) Hw Hc).
  rewrite run_enter_depth. destruct (0 <? max_depth v - depth v)%Z; [|by exists 0%Z].
  rewrite run_get, run_enter_object.
  run (steps_peek_is (Z.eqb (chr "}")) (c :: l)). by eexists.
Qed.

Lemma reads_array0 w : ws w -> reads (JArr []) (chr "[" :: w ++ [chr "]"]).
Proof.
  intros Hw [|n] v o r _ Hf; [lia|]. cbn [app]. rewrite <- app_assoc. cbn [app].
  destruct (open_array w (chr "]") r n v o Hw eq_refl) as [o1 ->].
  cbn [strictb forallb]. rewrite andb_true_r. destruct (0 <? _)%Z; [|apply ends_fail].
  rewrite Z.eqb_refl. eexists. apply close_array.
Qed.

Lemma reads_array es l : reads_elements es l -> reads (JArr es) (chr "[" :: l ++ [chr "]"]).
Proof.
  intros (w & c & l' & -> & Hw & Hc & Hne & IH) [|n] v o r _ Hf; [lia|].
  cbn [app] in *. repeat (rewrite <- !app_assoc in *; cbn [app] in *).
  destruct (open_array w c (l' ++ chr "]" :: r) n v o Hw Hc) as [o1 ->].
  cbn [strictb]. destruct (0 <? _)%Z; [|apply ends_fail]. cbn [andb].
  rewrite (proj2 (Z.eqb_neq (chr "]") c)) by congruence. apply IH.
  cbn [app length] in *. repeat (rewrite !length_app in *; cbn [length] in *). lia.
Qed.

Lemma reads_object0 w : ws w -> reads (JObj []) (chr "{" :: w ++ [chr "}"]).
Proof.
  intros Hw [|n] v o r _ Hf; [lia|]. cbn [app]. rewrite <- app_assoc. cbn [app].
  destruct (open_object w (chr "}") r n v o Hw eq_refl) as [o1 ->].
  cbn [strictb members_okb]. rewrite andb_true_r. destruct (0 <? _)%Z; [|apply ends_fail].
  rewrite Z.eqb_refl. eexists. apply close_object.
Qed.

Lemma reads_object ms l : reads_members ms l -> reads (JObj ms) (chr "{" :: l ++ [chr "}"]).
Proof.
  intros (w & c & l' & -> & Hw & Hc & Hne & IH) [|n] v o r _ Hf; [lia|].
  cbn [app] in *. repeat (rewrite <- !app_assoc in *; cbn [app] in *).
  destruct (open_object w c (l' ++ chr "}" :: r) n v o Hw Hc) as [o1 ->].
  cbn [strictb]. destruct (0 <? _)%Z; [|apply ends_fail]. cbn [andb].
  rewrite (proj2 (Z.eqb_neq (chr "}") c)) by congruence.
  apply (IH [] n v (current_path v) ∅ o1 r); [constructor|].
  cbn [app length] in *. repeat (rewrite !length_app in *; cbn [length] in *). lia.
Qed.

Lemma reads_all :
  (forall j l, value_text j l -> reads j l) /\
  (forall es l, elements_text es l -> reads_elements es l) /\
  (forall ms l, members_text ms l -> reads_members ms l).
Proof.
  apply texts_ind; intros;
    eauto using reads_array0, reads_array, reads_object0, reads_object, reads_last_element,
      reads_more_elements, reads_last_member, reads_more_members.
  - intros [|n] v o r Hr Hf; [lia|]. apply value_lit.
  - intros [|n] v o r Hr Hf; [lia|]. by apply value_num.
  - intros [|n] v o r Hr Hf; [lia|]. by apply value_str.
Qed.

(** ** [strictb] decides [Strict] *)

Section Json_induction.
  Variable P : Json -> Prop.
  Hypothesis HLit : forall b, P (JLit b).
  Hypothesis HNum : P JNum.
  Hypothesis HStr : forall s, P (JStr s).
  Hypothesis HArr : forall l, Forall P l -> P (JArr l).
  Hypothesis HObj : forall m, Forall (fun e => P (snd e)) m -> P (JObj m).

Fixpoint Json_nested_ind (j : Json) : P j :=
  match j with
  | JLit b => HLit b
  | JNum => HNum
  | JStr s => HStr s
  | JArr l =>
      HArr l ((fix go (l : list Json) : Forall P l :=
        match l with
        | [] => Forall_nil_2 _
        | x :: r => Forall_cons_2 _ _ _ (Json_nested_ind x) (go r)
        end) l)
  | JObj m =>
      HObj m ((fix go (m : list (list item * Json)) : Forall (fun e => P (snd e)) m :=
        match m with
        | [] => Forall_nil_2 _
        | x :: r => Forall_cons_2 _ _ _ (Json_nested_ind (snd x)) (go r)
        end) m)
  end.
End Json_induction.

Lemma size_fresh (key : text) (seen : gset text) :
  key ∉ seen -> size ({[key]} ∪ seen) = S (size seen).
Proof.
  intros Hk. rewrite size_union, size_singleton; [done|].
  intros x ->%elem_of_singleton Hx. done.
Qed.

(** The keys of the members, all new and distinct, within the limit. *)
Lemma members_okb_spec f seen m :
  members_okb f seen m = true <->
  exists keys, mapM (fun e => decode_string (fst e)) m = Some keys /\ NoDup keys /\
    (forall k, k ∈ keys -> k ∉ seen) /\
    (m = [] \/ (Z.of_nat (size seen + length m) <= MAX_KEYS_PER_OBJECT)%Z) /\
    forallb (fun e => f (snd e)) m = true.
Proof.
  revert seen. induction m as [|[k j] m IH]; intros seen; cbn [members_okb].
  - split; [|done]. intros _. exists []. split_and!; [done | constructor | | by left | done].
    by intros ? ?%elem_of_nil.
  - assert (Hm : forall ks, mapM (fun e : list item * Json => decode_string (fst e)) ((k, j) :: m) = Some ks <->
      exists key keys, ks = key :: keys /\ decode_string k = Some key /\
        mapM (fun e => decode_string (fst e)) m = Some keys).
    { intros ks. split.
      - intros H%mapM_Some_1. inversion H; subst. eauto 10 using mapM_Some_2.
      - intros (key & keys & -> & Hk & Hks). apply mapM_Some_2. constructor; [done|].
        by apply mapM_Some_1. }
    setoid_rewrite Hm. destruct (decode_string k) as [key|];
      [|split; [done | intros (? & (? & ? & _ & [=] & _) & _)]].
    rewrite !andb_true_iff, negb_true_iff, bool_decide_eq_false, Z.ltb_lt, IH.
    cbn [forallb snd]. setoid_rewrite andb_true_iff. split.
    + intros (((Hs & Hnew) & Hf) & keys & Hk & Hnd & Hseen & Hlen & Hall).
      exists (key :: keys). split_and!; try done.
      * eauto.
      * apply NoDup_cons. split; [|done]. intros Hin. apply (Hseen key Hin). by apply elem_of_union_l, elem_of_singleton.
      * intros k' [->|Hin]%elem_of_cons; [done|]. apply Hseen in Hin.
        by apply not_elem_of_union in Hin as [_ ?].
      * right. destruct Hlen as [->|Hlen]; [cbn; lia|].
        rewrite size_fresh in Hlen by done. cbn. lia.
    + intros (ks & (key' & keys & -> & [= <-] & Hk) & [Hn Hnd]%NoDup_cons & Hseen & [?|Hlen] & Hf & Hall); [done|].
      cbn in Hlen. split_and!; [lia | apply Hseen; by left | done |].
      exists keys. split_and!; try done.
      * intros k' Hin. apply not_elem_of_union. split.
        -- intros ->%elem_of_singleton. done.
        -- apply Hseen. by right.
      * right. rewrite size_fresh by (apply Hseen; by left). lia.
Qed.

Lemma strictb_spec j d : strictb d j = true <-> Strict d j.
Proof.
  revert d. induction j as [b| |s|l IH|m IH] using Json_nested_ind; intros d; cbn [strictb].
  - split; [constructor | done].
  - split; [constructor | done].
  - unfold opt_is_some. split; [|inversion 1 as [| |? ? [t E]| |]; by rewrite E].
    intros H. constructor. by destruct (decode_string s).
  - rewrite andb_true_iff, Z.ltb_lt, forallb_forall. split.
    + intros [Hd Hl]. constructor; [done|]. rewrite Forall_forall in *. intros x Hx.
      apply IH; [done|]. apply Hl. by apply list_elem_of_In.
    + inversion 1 as [| | |? ? Hd Hl|]; subst. split; [done|]. rewrite Forall_forall in *.
      intros x Hx%list_elem_of_In. by apply IH, Hl.
  - rewrite andb_true_iff, Z.ltb_lt, members_okb_spec. setoid_rewrite forallb_forall. split.
    + intros [Hd (keys & Hk & Hnd & _ & Hlen & Hall)].
      econstructor; [done | exact Hk | done | |].
      * destruct Hlen as [->|Hlen]; [done | by rewrite size_empty in Hlen].
      * rewrite Forall_forall in *. intros x Hx. apply (IH x Hx), Hall. by apply list_elem_of_In.
    + inversion 1 as [| | | |? ? keys Hd Hk Hnd Hlen Hall]; subst. split; [done|].
      exists keys. split_and!; [done | done | by intros k _ ?%not_elem_of_empty | |].
      * right. rewrite size_empty. lia.
      * rewrite Forall_forall in *. intros x Hx%list_elem_of_In. by apply IH, Hall.
Qed.

Lemma delim_of_ws w : ws w -> delim w.
Proof. intros [|c w' Hc _]; [done|]. by destruct Hc as [->|[->|[->| ->]]]. Qed.

Lemma validate_document j l max :
  document_text j l ->
  if strictb max j then validate_json_strict_with_depth l max = Some (Ok ())
  else exists e, validate_json_strict_with_depth l max = Some (Err e).
Proof.
  intros (w1 & lv & w2 & Hw1 & Ht & Hw2 & ->).
  destruct (value_head j lv Ht) as (c & lv' & E & Hc & _).
  unfold validate_json_strict_with_depth, validate.
  rewrite <- (at_self (with_max_depth _ max)).
  set (v := with_max_depth _ max). change (chars v) with (w1 ++ lv ++ w2).
  change (chars (at_ v (w1 ++ lv ++ w2) (offset v))) with (w1 ++ lv ++ w2).
  assert (Hnw : non_ws (lv ++ w2)) by by rewrite E.
  destruct (run_steps skip_whitespace (fun _ => validate_value (value_fuel (w1 ++ lv ++ w2)))
    _ _ _ v (offset v) (steps_ws w1 (lv ++ w2) Hw1 Hnw)) as [o1 ->].
  assert (Hf : 2 * length (lv ++ w2) + 2 <= value_fuel (w1 ++ lv ++ w2))
    by (unfold value_fuel; rewrite !length_app; lia).
  pose proof (proj1 reads_all j lv Ht _ v o1 w2 (delim_of_ws w2 Hw2) Hf) as Hr.
  replace (max_depth v - depth v)%Z with max in Hr by (cbn; lia). unfold ends in Hr.
  destruct (strictb max j).
  - destruct Hr as [o2 ->]. done.
  - destruct Hr as [e ->]. eauto.
Qed.

(** C12: On the text of a JSON document the strict validator accepts exactly the
    documents whose nesting is within the limit, whose strings denote texts of
    bounded length, and whose objects have a bounded number of members with
    distinct keys after unescaping; any other document is an error. *)
Theorem validate_accepts_iff j l max :
  document_text j l ->
  (validate_json_strict_with_depth l max = Some (Ok ()) <-> Strict max j) /\
  (~ Strict max j -> exists e, validate_json_strict_with_depth l max = Some (Err e)).
Proof.
  intros Hd%(validate_document j l max). rewrite <- strictb_spec.
  destruct (strictb max j); [naive_solver|]. destruct Hd as [e E]. rewrite E. naive_solver.
Qed.

(** ** Termination

    [shrinks lo n k m]: with between [lo] and [n] characters left, [m] returns,
    and when it succeeds it consumed at least [k] of them. *)

Definition shrinks {A} (lo n k : nat) (m : V A) : Prop :=
  forall v, lo <= length (chars v) <= n ->
    match m v with
    | None => False
    | Some (Err _) => True
    | Some (Ok (_, v')) => length (chars v') + k <= length (chars v)
    end.

Lemma shrinks_weaken {A} lo lo' n n' k k' (m : V A) :
  lo' <= lo -> n <= n' -> k <= k' -> shrinks lo' n' k' m -> shrinks lo n k m.
Proof.
  intros Hlo Hn Hk Hm v Hv. specialize (Hm v ltac:(lia)).
  destruct (m v) as [[[a v']|e]|]; [lia | done | done].
Qed.

Lemma shrinks_bind {A B} lo n k1 k2 (m : V A) (f : A -> V B) :
  shrinks lo n k1 m -> (forall a, shrinks 0 (n - k1) (k2 - k1) (f a)) ->
  shrinks lo n k2 (m ≫= f).
Proof.
  intros Hm Hf v Hv. unfold mbind, V_bind. specialize (Hm v Hv).
  destruct (m v) as [[[a v1]|e]|]; [|done|done]. specialize (Hf a v1 ltac:(lia)).
  destruct (f a v1) as [[[b v2]|e]|]; [lia | done | done].
Qed.
(** A computation that may consume nothing. *)
Lemma shrinks_bind0 {A B} lo n k (m : V A) (f : A -> V B) :
  shrinks lo n 0 m -> (forall a, shrinks 0 n k (f a)) -> shrinks lo n k (m ≫= f).
Proof.
  intros Hm Hf. apply (shrinks_bind _ _ 0); [done|]. intros a.
  by rewrite !Nat.sub_0_r.
Qed.
(** A computation that consumes a character. *)
Lemma shrinks_bind1 {A B} lo n k (m : V A) (f : A -> V B) :
  shrinks lo n 1 m -> (1 <= n -> forall a, shrinks 0 (n - 1) (k - 1) (f a)) ->
  shrinks lo n k (m ≫= f).
Proof.
  intros Hm Hf. destruct (decide (1 <= n)) as [Hn|Hn]; [by apply (shrinks_bind _ _ 1); auto|].
  intros v Hv. unfold mbind, V_bind. specialize (Hm v Hv).
  destruct (m v) as [[[a v1]|e]|]; [lia | done | done].
Qed.

Lemma shrinks_ret {A} lo n (a : A) : shrinks lo n 0 (mret a : V A).
Proof. intros v Hv. cbn. lia. Qed.
Lemma shrinks_fail {A} lo n k e : shrinks lo n k (fail e : V A).
Proof. done. Qed.
Lemma shrinks_upd lo n f : (forall v, chars (f v) = chars v) -> shrinks lo n 0 (upd_v f).
Proof. intros Hf v Hv. cbn. rewrite Hf. lia. Qed.
Lemma shrinks_get lo n : shrinks lo n 0 get_v.
Proof. intros v Hv. cbn. lia. Qed.
Lemma shrinks_next lo n : shrinks lo n (lo `min` 1) next_char.
Proof. intros v Hv. unfold next_char. destruct (chars v) eqn:E; cbn in *; rewrite ?E; cbn; lia. Qed.
Lemma shrinks_skip lo n f : shrinks lo n 0 (skip_while f).
Proof.
  intros v Hv. unfold skip_while, upd_v.
  assert (H : forall l o, length (fst (skip_chars f l o)) <= length l).
  { induction l as [|c l IH]; intros o; cbn; [done|]. destruct (f c); cbn; [|lia].
    specialize (IH (o + len_utf8 c)%Z). lia. }
  specialize (H (chars v) (offset v)). destruct (skip_chars f (chars v) (offset v)). cbn in *. lia.
Qed.

(** Reading a character: there is none, or it is consumed. *)
Lemma shrinks_read {B} lo n k (f : option (Z * Z) -> V B) :
  shrinks 0 n k (f None) -> (1 <= n -> forall p c, shrinks 0 (n - 1) (k - 1) (f (Some (p, c)))) ->
  shrinks lo n k (next_char ≫= f).
Proof.
  intros Hn Hs v Hv. unfold mbind, V_bind, next_char. destruct (chars v) as [|c r] eqn:E.
  - specialize (Hn v). rewrite E in Hn. apply Hn. cbn. lia.
  - cbn in Hv. specialize (Hs ltac:(lia) (offset v) c (v <| chars := r |> <| offset := (offset v + len_utf8 c)%Z |>)).
    cbn in Hs. specialize (Hs ltac:(lia)).
    cbn. destruct (f (Some (offset v, c)) _) as [[[b v2]|e]|]; [lia | done | done].
Qed.
Lemma shrinks_read1 {B} n k (f : option (Z * Z) -> V B) :
  (1 <= n -> forall c, shrinks 0 (n - 1) (k - 1) (f c)) -> shrinks 1 n k (next_char ≫= f).
Proof. apply shrinks_bind1, (shrinks_next 1). Qed.
(** Looking at a character: afterwards there is one. *)
Lemma shrinks_peek {B} lo n k (f : option Z -> V B) :
  shrinks 0 n k (f None) -> (1 <= n -> forall c, shrinks 1 n k (f (Some c))) ->
  shrinks lo n k (peek_char ≫= f).
Proof.
  intros Hn Hs v Hv. unfold peek_char, mbind, V_bind, get_v, mret, V_ret.
  destruct (chars v) as [|c r] eqn:E; cbn in *.
  - specialize (Hn v). rewrite E in Hn. apply Hn. cbn. lia.
  - specialize (Hs ltac:(lia) c v). rewrite E in Hs. apply Hs. cbn. lia.
Qed.
Lemma shrinks_peek_is {B} lo n k p (f : bool -> V B) :
  shrinks 0 n k (f false) -> shrinks 1 n k (f true) -> shrinks lo n k (peek_is p ≫= f).
Proof.
  intros Hf Ht v Hv.
  assert (Hf1 : shrinks 1 n k (f false)) by (eapply shrinks_weaken; [..|exact Hf]; lia).
  apply (shrinks_peek lo n k (fun c => f (match c with Some c => p c | None => false end)));
    [done | | done]. intros _ c. by destruct (p c).
Qed.

Create HintDb shrink discriminated.
#[export] Hint Resolve shrinks_ret shrinks_fail shrinks_get shrinks_skip : shrink.
#[export] Hint Extern 5 (shrinks _ _ _ (upd_v _)) => apply shrinks_upd; done : shrink.

(** One step of a totality proof: the computation's shape selects the rule. *)
Ltac shrink1 :=
  first
    [ progress (cbn beta iota zeta; rewrite ?Nat.sub_0_l, ?Nat.sub_0_r; cbn [Nat.sub])
    | solve [eauto with shrink]
    | match goal with
      | |- shrinks 1 _ _ (next_char ≫= _) => apply shrinks_read1; intros ? ?
      | |- shrinks _ _ _ (next_char ≫= _) => apply shrinks_read; [|intros ? ? ?]
      | |- shrinks _ _ _ (peek_char ≫= _) => apply shrinks_peek; [|intros ? ?]
      | |- shrinks _ _ _ (peek_is _ ≫= _) => apply shrinks_peek_is
      | |- shrinks _ _ _ (if ?b then _ else _) => destruct b
      | |- shrinks _ _ _ (match ?x with _ => _ end) => destruct x
      | |- shrinks _ _ _ (_ ≫= _) => apply shrinks_bind1; [solve [eauto with shrink] | intros ? ?]
      | |- shrinks _ _ _ (_ ≫= _) => apply shrinks_bind0; [solve [repeat shrink1] | intros ?]
      end ].

Lemma shrinks_expect lo n c : shrinks lo n 1 (expect_char c).
Proof. unfold expect_char. repeat shrink1. Qed.
Lemma shrinks_hex lo n p : shrinks lo n 0 (hex_char p).
Proof. unfold hex_char. repeat shrink1. Qed.
#[export] Hint Resolve shrinks_expect shrinks_hex : shrink.

Lemma shrinks_escape lo n st p : shrinks lo n 0 (unicode_escape st p).
Proof. unfold unicode_escape, parse_unicode_escape, no_pending, push_code, push_with_limit. repeat shrink1. Qed.
Lemma shrinks_char_escape lo n st c : shrinks lo n 0 (char_escape st c).
Proof. unfold char_escape, no_pending, push_with_limit. repeat shrink1. Qed.
#[export] Hint Resolve shrinks_escape shrinks_char_escape : shrink.

Lemma shrinks_string_loop n fuel st : n < fuel -> shrinks 0 n 0 (string_loop fuel st).
Proof.
  revert n st. induction fuel as [|fuel IH]; intros n st Hn; [lia|]. cbn [string_loop].
  unfold no_pending, push_with_limit. repeat shrink1; apply IH; lia.
Qed.

Lemma shrinks_string lo n : shrinks lo n 1 parse_json_string.
Proof.
  unfold parse_json_string. apply shrinks_read; [apply shrinks_fail|]. intros _ p c.
  destruct (c =? 34)%Z; [|apply shrinks_fail]. intros v Hv. unfold mbind, V_bind, get_v.
  apply (shrinks_string_loop (length (chars v))); lia.
Qed.
Lemma shrinks_keyword lo n k : shrinks lo n 0 (consume_keyword k).
Proof.
  intros v Hv. unfold consume_keyword.
  assert (H : forall k l o l' o', strip_keyword k l o = Some (l', o') -> length l' <= length l).
  { induction k0 as [|x k0 IH]; intros [|c l] o l' o' E; cbn in E; simplify_eq; [done..|].
    case_match; [|done]. apply IH in E. cbn. lia. }
  destruct (strip_keyword k (chars v) (offset v)) as [[l o]|] eqn:E; cbn; [|lia].
  apply H in E. lia.
Qed.
Lemma shrinks_next0 lo n : shrinks lo n 0 next_char.
Proof. eapply shrinks_weaken; [..|apply (shrinks_next lo n)]; lia. Qed.
#[export] Hint Resolve shrinks_string shrinks_keyword shrinks_next0 : shrink.

Lemma shrinks_number lo n : shrinks lo n 0 validate_number.
Proof. unfold validate_number. repeat shrink1. Qed.
Lemma shrinks_push_key lo n k : shrinks lo n 0 (push_key k).
Proof. unfold push_key. repeat shrink1. Qed.
#[export] Hint Resolve shrinks_number shrinks_push_key : shrink.

(** Fuel enough for each of the three procedures on [n] characters. *)
Lemma shrinks_values fuel :
  (forall n, 2 * n + 2 <= fuel -> shrinks 0 n 0 (validate_value fuel)) /\
  (forall n, 2 * n + 1 <= fuel -> shrinks 0 n 0 (object_loop fuel)) /\
  (forall n i, 2 * n + 3 <= fuel -> shrinks 0 n 0 (array_loop fuel i)).
Proof.
  induction fuel as [|fuel (IHv & IHo & IHa)]; [split_and!; intros; lia|].
  split_and!; [intros n Hn; cbn [validate_value] | intros n Hn; cbn [object_loop]
    | intros n i Hn; cbn [array_loop]];
    unfold skip_whitespace, enter_depth, leave_depth, enter_object, exit_object, set_path,
      validate_bool, validate_null.
  all: repeat (shrink1
    || (apply shrinks_bind0; [apply IHv; lia | intros ?])
    || (eapply (shrinks_weaken _ 0); [lia | reflexivity | lia |];
        first [apply IHo | apply IHa]; lia)).
Qed.

Lemma validate_returns v : validate v <> None.
Proof.
  pose proof (shrinks_bind0 0 (length (chars v)) 0 skip_whitespace
    (fun _ => validate_value (value_fuel (chars v))) (shrinks_skip _ _ _)) as H.
  assert (Hv : forall a : (), shrinks 0 (length (chars v)) 0 (validate_value (value_fuel (chars v)))).
  { intros _. apply (proj1 (shrinks_values _)). unfold value_fuel. lia. }
  specialize (H Hv v ltac:(lia)). unfold validate.
  by destruct ((skip_whitespace ;; _) v) as [[[]|]|].
Qed.

(** The validator returns on every text, well formed or not, whatever the
    depth limit. *)
Theorem validate_terminates s max : exists r, validate_json_strict_with_depth s max = Some r.
Proof.
  destruct (validate_json_strict_with_depth s max) as [r|] eqn:E; [eauto|].
  by apply validate_returns in E.
Qed.

(** Strict deserialisation of a JSON document: one whose objects repeat a
    key after unescaping, or which exceeds a limit, never reaches [serde_json];
    any other document gets exactly [serde_json]'s answer, its errors reported
    as parse errors. *)
Theorem from_str_strict_spec {T} (from_str : text -> Result T text) j l :
  document_text j l ->
  (Strict MAX_NESTING_DEPTH j -> from_str_strict from_str l = Some (result_map_err ParseError (from_str l))) /\
  (~ Strict MAX_NESTING_DEPTH j -> exists e, from_str_strict from_str l = Some (Err e) /\
     forall from_str' : text -> Result T text, from_str_strict from_str' l = Some (Err e)).
Proof.
  intros Hd%(validate_document j l MAX_NESTING_DEPTH). rewrite <- strictb_spec.
  unfold from_str_strict, validate_json_strict, validator_new.
  unfold validate_json_strict_with_depth in Hd. destruct (strictb MAX_NESTING_DEPTH j).
  - rewrite Hd. naive_solver.
  - destruct Hd as [e ->]. split; [done|]. eauto.
Qed.

(** ** Witnesses *)

Lemma one_member_text : document_text (JObj [([Plain (chr "a")], JLit None)]) (json "{'a':null}").
Proof.
  assert (Hw : ws []) by constructor.
  exists [], (json "{'a':null}"), []. split_and!; [done | | done | done].
  apply (vt_obj _ (json "'a':null")).
  apply (mt_one [Plain (chr "a")] (JLit None) [] (json "'a'") [] [] (txt "null") []); try done.
  - by repeat constructor.
  - apply (vt_lit None).
Qed.

Lemma validate_accepts_iff_witness :
  validate_json_strict_with_depth (json "{'a':null}") 1 = Some (Ok ()) /\
  Strict 1 (JObj [([Plain (chr "a")], JLit None)]).
Proof.
  assert (E : validate_json_strict_with_depth (json "{'a':null}") 1 = Some (Ok ()))
    by (vm_compute; reflexivity).
  split; [exact E|]. apply (validate_accepts_iff _ _ 1 one_member_text), E.
Defined.

Lemma from_str_strict_spec_witness :
  from_str_strict (fun t => Ok (length t)) (json "{'a':null}") = Some (Ok 10).
Proof.
  apply (from_str_strict_spec (fun t => Ok (length t)) _ _ one_member_text).
  apply strictb_spec. vm_compute. reflexivity.
Defined.
