(* ===== verification/BoundedIo.v ===== *)
(** * Bounded readers

    [assay-common/src/limits.rs] and [bundle/writer_next/tar_read.rs] of
    [assay-evidence]: the reader that refuses to yield more than a number of
    bytes, the reader that retries interrupted reads, and the bounded line
    reader.  A source delivers its bytes in pieces of any size and then ends or
    fails; what the bounded readers return is shown not to depend on the
    pieces. *)
From stdpp Require Import base tactics list strings.
From Stdlib Require Import ZArith Lia Ascii.
From S2P Require Import Prelude RustStr.

Abbreviation bytes := (list ascii) (only parsing).

Definition to_str (b : bytes) : string := String.string_of_list_ascii b.
Definition byte_len (b : bytes) : Z := Z.of_nat (length b).

(** ** Ceilings and errors *)

Inductive LimitKind : Type := SourceBytes | DecodedBytes | MemberBytes | LineBytes.

Record LimitExceeded : Type := mkLimitExceeded { le_kind : LimitKind; le_limit : Z }.

Definition kind_fmt (k : LimitKind) : string :=
  match k with
  | SourceBytes => "source bytes"
  | DecodedBytes => "decoded bytes"
  | MemberBytes => "member bytes"
  | LineBytes => "line bytes"
  end.
Definition limit_fmt (e : LimitExceeded) : string :=
  "exceeded " +:+ kind_fmt (le_kind e) +:+ " limit of " +:+ fmt_int (le_limit e).

(** [std::io::Error]: its typed cause when a ceiling made it, whether its kind
    is [Interrupted], and its text. *)
Record IoError : Type := mkIoError {
  io_cause : option LimitExceeded;
  io_interrupted : bool;
  io_text : string
}.
Definition other_limit (e : LimitExceeded) : IoError := mkIoError (Some e) false (limit_fmt e).
Definition from_io (e : IoError) : option LimitExceeded := io_cause e.

(** ** Sources

    A source is the pieces it delivers, none of them empty, and how it ends. *)
Record Source : Type := mkSource {
  pieces : list bytes;
  failure : option IoError
}.

Definition push_piece (b : bytes) (l : list bytes) : list bytes := match b with [] => l | _ => b :: l end.

(** [Read::read] into a buffer of [n] bytes. *)
Definition source_read (s : Source) (n : nat) : Result bytes IoError * Source :=
  match n, pieces s with
  | O, _ => (Ok [], s)
  | _, [] => (match failure s with Some e => Err e | None => Ok [] end, s)
  | _, c :: rest => (Ok (take n c), mkSource (push_piece (drop n c) rest) (failure s))
  end.

(** ** [LimitReader] *)

Record LimitReader : Type := mkLimitReader {
  lr_inner : Source;
  lr_limit : Z;
  lr_read : Z;
  lr_tripped : bool;
  lr_kind : LimitKind
}.
#[global] Instance LimitReader_eta : Eta LimitReader := fun r =>
  mkLimitReader (lr_inner r) (lr_limit r) (lr_read r) (lr_tripped r) (lr_kind r).

Definition limit_reader_new (inner : Source) (limit : Z) (kind : LimitKind) : LimitReader :=
  mkLimitReader inner limit 0 false kind.

Definition overflow (r : LimitReader) : IoError := other_limit (mkLimitExceeded (lr_kind r) (lr_limit r)).

Definition limit_read (r : LimitReader) (n : nat) : Result bytes IoError * LimitReader :=
  if lr_tripped r then (Err (overflow r), r)
  else if Nat.eqb n 0 then (Ok [], r)
  else if (lr_limit r <=? lr_read r)%Z then
    let '(probe, inner) := source_read (lr_inner r) 1 in
    let r := r <| lr_inner := inner |> in
    match probe with
    | Err e => (Err e, r)
    | Ok [] => (Ok [], r)
    | Ok (_ :: _) => (Err (overflow r), r <| lr_tripped := true |>)
    end
  else
    let max_to_read := Z.to_nat (Z.min (lr_limit r - lr_read r) (Z.of_nat n)) in
    let '(got, inner) := source_read (lr_inner r) max_to_read in
    let r := r <| lr_inner := inner |> in
    match got with
    | Err e => (Err e, r)
    | Ok b => (Ok b, r <| lr_read := (lr_read r + byte_len b)%Z |>)
    end.

(** ** [EintrReader]: at most [EINTR_RETRY_LIMIT] interruptions in a row

    [attempts]: the answers of successive inner reads. *)
Definition EINTR_RETRY_LIMIT : nat := 16.

Definition persistent_eintr : IoError :=
  mkIoError None true ("persistent EINTR: interrupted " +:+ fmt_int (Z.of_nat EINTR_RETRY_LIMIT) +:+ " consecutive times").

Fixpoint eintr_read (retries : nat) (attempts : list (Result bytes IoError))
    : option (Result bytes IoError * list (Result bytes IoError)) :=
  match attempts with
  | [] => None
  | Err e :: rest =>
      if io_interrupted e then
        if EINTR_RETRY_LIMIT <=? S retries then Some (Err persistent_eintr, rest)
        else eintr_read (S retries) rest
      else Some (Err e, rest)
  | Ok b :: rest => Some (Ok b, rest)
  end.

(** ** Reading to the end

    [Read::read_to_end] with buffers of sizes [sizes]. *)
Fixpoint read_to_end (sizes : list nat) (r : LimitReader) (acc : bytes) : option (Result bytes IoError) :=
  match sizes with
  | [] => None
  | n :: sizes =>
      match limit_read r n with
      | (Err e, _) => Some (Err e)
      | (Ok [], _) => Some (Ok acc)
      | (Ok b, r) => read_to_end sizes r (acc ++ b)
      end
  end.

(** What a ceiling lets through: the bytes when they fit, and then the source's
    own end. *)
Definition limited (limit : Z) (kind : LimitKind) (data : bytes) (end_ : option IoError) : Result bytes IoError :=
  if (byte_len data <=? limit)%Z then match end_ with Some e => Err e | None => Ok data end
  else Err (other_limit (mkLimitExceeded kind limit)).

Definition delivers (s : Source) (data : bytes) : Prop :=
  concat (pieces s) = data /\ Forall (fun c => c <> []) (pieces s).

Lemma push_piece_ok b l :
  Forall (fun c : bytes => c <> []) l ->
  concat (push_piece b l) = b ++ concat l /\ Forall (fun c : bytes => c <> []) (push_piece b l).
Proof. destruct b; cbn; [done|]. intros H. split; [done|]. by constructor. Qed.

Lemma source_read_spec s data n :
  delivers s data -> 0 < n ->
  match source_read s n with
  | (Ok b, s') => length b <= n /\ failure s' = failure s /\ exists data', data = b ++ data' /\ delivers s' data' /\
      (b = [] -> data = [] /\ failure s = None)
  | (Err e, _) => data = [] /\ failure s = Some e
  end.
Proof.
  intros [Hc Hn] Hpos. unfold source_read. destruct n as [|n]; [lia|].
  destruct s as [[|c rest] f]; cbn in *.
  - subst data. destruct f; [done|]. split_and!; [cbn; lia | done|]. exists []. by repeat split.
  - inversion Hn as [|? ? Hce Hr]; subst. destruct (push_piece_ok (drop (S n) c) rest Hr) as [Hp Hq].
    rewrite length_take. split_and!; [lia | done|].
    exists (drop (S n) c ++ concat rest). split_and!.
    + by rewrite app_assoc, take_drop.
    + by split.
    + intros E. destruct c; done.
Qed.

(** The pieces successive reads of a [LimitReader] deliver. *)
Fixpoint drain (sizes : list nat) (r : LimitReader) : option Source :=
  match sizes with
  | [] => None
  | n :: sizes =>
      match limit_read r n with
      | (Err e, _) => Some (mkSource [] (Some e))
      | (Ok [], _) => Some (mkSource [] None)
      | (Ok b, r) => (fun s => mkSource (b :: pieces s) (failure s)) <$> drain sizes r
      end
  end.

Lemma read_to_end_drain sizes r acc :
  read_to_end sizes r acc =
  (fun s => match failure s with Some e => Err e | None => Ok (acc ++ concat (pieces s)) end) <$> drain sizes r.
Proof.
  revert r acc. induction sizes as [|n sizes IH]; intros r acc; cbn [read_to_end drain]; [done|].
  destruct (limit_read r n) as [[[|b bs]|e] r']; [by cbn; rewrite app_nil_r | | done].
  rewrite IH. destruct (drain sizes r') as [s|]; [|done]. cbn. destruct (failure s); [done|].
  by rewrite <- app_assoc.
Qed.

(** A ceiling delivers the bytes up to it, and then either the end of the
    source or the overflow. *)
Definition capped (room : Z) (over : IoError) (data : bytes) (end_ : option IoError) (s : Source) : Prop :=
  delivers s (take (Z.to_nat room) data) /\
  failure s = if (byte_len data <=? room)%Z then end_ else Some over.

Lemma capped_end room over end_ : (0 <= room)%Z -> capped room over [] end_ (mkSource [] end_).
Proof.
  intros Hr. split; [rewrite take_nil; by split|]. cbn. by destruct (Z.leb_spec (byte_len []) room); [|unfold byte_len in *; cbn in *; lia].
Qed.

Lemma drain_spec sizes r data :
  lr_tripped r = false -> delivers (lr_inner r) data -> (0 <= lr_read r <= lr_limit r)%Z ->
  Forall (fun n => 0 < n) sizes -> length data < length sizes ->
  exists s, drain sizes r = Some s /\ capped (lr_limit r - lr_read r) (overflow r) data (failure (lr_inner r)) s.
Proof.
  revert r data. induction sizes as [|n sizes IH]; intros r data Ht Hd Hl Hs Hlen; [cbn in Hlen; lia|].
  inversion Hs as [|? ? Hn Hs']; subst. cbn [drain length] in *. unfold limit_read. rewrite Ht.
  destruct (Nat.eqb_spec n 0); [lia|].
  destruct (Z.leb_spec (lr_limit r) (lr_read r)) as [Hfull|Hroom].
  - pose proof (source_read_spec _ _ 1 Hd ltac:(lia)) as H1.
    destruct (source_read (lr_inner r) 1) as [[[|b bs]|e] inner].
    + destruct H1 as (_ & _ & data' & -> & _ & He). destruct (He eq_refl) as [E1 E2]. cbn in E1. subst data'.
      eexists. split; [done|]. rewrite E2. apply capped_end. lia.
    + destruct H1 as (_ & _ & data' & -> & _). eexists. split; [done|].
      split; [by replace (Z.to_nat _) with 0 by lia|]. cbn.
      destruct (Z.leb_spec (byte_len (b :: bs ++ data')) (lr_limit r - lr_read r)); [|done].
      unfold byte_len in *; cbn in *; lia.
    + destruct H1 as [-> ->]. eexists. split; [done|]. apply capped_end. lia.
  - set (m := Z.to_nat _). pose proof (source_read_spec _ _ m Hd ltac:(lia)) as H1.
    destruct (source_read (lr_inner r) m) as [[[|b bs]|e] inner].
    + destruct H1 as (_ & _ & data' & -> & _ & He). destruct (He eq_refl) as [E1 E2]. cbn in E1. subst data'.
      eexists. split; [done|]. rewrite E2. apply capped_end. lia.
    + destruct H1 as (Hm & Hf & data' & -> & Hd' & _). unfold byte_len in *. cbn in Hlen, Hm |- *.
      edestruct (IH (mkLimitReader inner (lr_limit r) (lr_read r + Z.of_nat (S (length bs))) (lr_tripped r) (lr_kind r)) data')
        as (s & Hdr & [Hc Hn'] & Hfs); try done; [cbn; lia | rewrite length_app in Hlen; lia|].
      unfold set_field. cbn in *. rewrite Hdr. eexists. split; [done|]. split; [split|]; cbn.
      * rewrite Hc. replace (Z.to_nat (lr_limit r - lr_read r))
          with (S (length bs) + Z.to_nat (lr_limit r - (lr_read r + Z.of_nat (S (length bs))))) by lia.
        cbn. f_equal. by rewrite take_app_add.
      * by constructor.
      * rewrite Hfs, Hf. unfold byte_len. cbn. rewrite length_app.
        repeat match goal with |- context [Z.leb ?a ?b] => destruct (Z.leb_spec a b) end; try done; lia.
    + destruct H1 as [-> ->]. eexists. split; [done|]. apply capped_end. lia.
Qed.

(** What a [LimitReader] over [s] delivers to a buffered reader. *)
Definition one_piece (b : bytes) : list bytes := match b with [] => [] | _ => [b] end.
Definition limit_source (limit : Z) (kind : LimitKind) (s : Source) : Source :=
  let data := concat (pieces s) in
  mkSource (one_piece (take (Z.to_nat (Z.min limit (byte_len data))) data))
    (if (byte_len data <=? limit)%Z then failure s else Some (other_limit (mkLimitExceeded kind limit))).

Lemma take_min limit (data : bytes) : take (Z.to_nat (Z.min limit (byte_len data))) data = take (Z.to_nat limit) data.
Proof.
  unfold byte_len. destruct (Z.min_spec limit (Z.of_nat (length data))) as [[_ ->]|[? ->]]; [done|].
  by rewrite !take_ge by lia.
Qed.

Lemma one_piece_delivers b e : delivers (mkSource (one_piece b) e) b.
Proof. destruct b; split; cbn; rewrite ?app_nil_r; repeat constructor; done. Qed.

(** Up to the boundaries of the pieces, that is what its reads return. *)
Lemma drain_limit_source sizes s limit kind :
  Forall (fun c => c <> []) (pieces s) -> (0 <= limit)%Z -> Forall (fun n => 0 < n) sizes ->
  length (concat (pieces s)) < length sizes ->
  exists s', drain sizes (limit_reader_new s limit kind) = Some s' /\
    concat (pieces s') = concat (pieces (limit_source limit kind s)) /\
    Forall (fun c => c <> []) (pieces s') /\ failure s' = failure (limit_source limit kind s).
Proof.
  intros Hn Hl Hs Hlen.
  destruct (drain_spec sizes (limit_reader_new s limit kind) (concat (pieces s))) as (s' & Hd & [Hc Hn'] & Hf);
    try done; cbn in *; rewrite ?Z.sub_0_r in *.
  exists s'. pose proof (proj1 (one_piece_delivers (take (Z.to_nat limit) (concat (pieces s))) None)) as E1.
  cbn in E1 |- *. by rewrite take_min, Hc, E1, Hf.
Qed.

(** [n] bytes are still allowed. *)
Lemma read_to_end_spec sizes r data acc :
  lr_tripped r = false -> delivers (lr_inner r) data -> (0 <= lr_read r <= lr_limit r)%Z ->
  Forall (fun n => 0 < n) sizes -> length data < length sizes ->
  read_to_end sizes r acc =
  Some (if (lr_read r + byte_len data <=? lr_limit r)%Z
        then match failure (lr_inner r) with Some e => Err e | None => Ok (acc ++ data) end
        else Err (overflow r)).
Proof.
  intros Ht Hd Hl Hs Hlen. destruct (drain_spec sizes r data Ht Hd Hl Hs Hlen) as (s & E & [Hc _] & Hf).
  rewrite read_to_end_drain, E. cbn. rewrite Hf, Hc. unfold byte_len.
  destruct (Z.leb_spec (Z.of_nat (length data)) (lr_limit r - lr_read r)),
    (Z.leb_spec (lr_read r + Z.of_nat (length data))%Z (lr_limit r)); try lia; [|done].
  destruct (failure (lr_inner r)); [done|]. by rewrite take_ge by lia.
Qed.

(** A ceiling is inclusive and independent of how the source delivers its
    bytes and of the buffers used: a source of at most [limit] bytes is read to
    its end as if there were no ceiling, a longer one is refused with the typed
    cause. *)
Theorem limit_reader_exact s data limit kind sizes :
  delivers s data -> (0 <= limit)%Z -> Forall (fun n => 0 < n) sizes -> length data < length sizes ->
  read_to_end sizes (limit_reader_new s limit kind) [] = Some (limited limit kind data (failure s)).
Proof. intros Hd Hl Hs Hlen. by rewrite (read_to_end_spec sizes _ data []). Qed.

(** Once the ceiling is crossed the reader only fails. *)
Lemma limit_reader_sticky r n : lr_tripped r = true -> limit_read r n = (Err (overflow r), r).
Proof. unfold limit_read. by intros ->. Qed.

(** ** Lines *)

Definition newline : ascii := "010"%char.
Definition is_newline (c : ascii) : bool := Ascii.eqb c newline.

(** [read_line_bounded]: the bytes consumed, with the newline, and the pieces
    left. *)
Fixpoint read_line_bounded (max : Z) (pieces : list bytes) (end_ : option IoError)
    (payload_len : Z) (buf : bytes) : Result (bytes * list bytes) IoError :=
  match pieces with
  | [] => match end_ with Some e => Err e | None => Ok (buf, []) end
  | available :: rest =>
      let '(found, line_end) :=
        match position is_newline available with Some pos => (true, pos + 1) | None => (false, length available) end in
      let payload_delta := Z.of_nat (if found then line_end - 1 else line_end) in
      if (max <? payload_len + payload_delta)%Z then Err (other_limit (mkLimitExceeded LineBytes max))
      else
        let buf := buf ++ take line_end available in
        if found : bool then Ok (buf, push_piece (drop line_end available) rest)
        else read_line_bounded max rest end_ (payload_len + payload_delta)%Z buf
  end.

(** The first line of a text: its payload, and what follows its newline. *)
Fixpoint split_line (data : bytes) : bytes * option bytes :=
  match data with
  | [] => ([], None)
  | c :: r => if is_newline c then ([], Some r) else let '(l, o) := split_line r in (c :: l, o)
  end.

Definition read_line (max : Z) (data : bytes) (end_ : option IoError) : Result (bytes * bytes) IoError :=
  let '(payload, rest) := split_line data in
  if (max <? byte_len payload)%Z then Err (other_limit (mkLimitExceeded LineBytes max))
  else match rest, end_ with
       | Some r, _ => Ok (payload ++ [newline], r)
       | None, Some e => Err e
       | None, None => Ok (payload, [])
       end.

Lemma split_line_app a b :
  split_line (a ++ b) =
  match position is_newline a with
  | Some p => (take p a, Some (drop (p + 1) a ++ b))
  | None => let '(l, o) := split_line b in (a ++ l, o)
  end.
Proof.
  induction a as [|c a IH]; cbn [app position split_line]; [by destruct (split_line b)|].
  destruct (is_newline c); [done|]. rewrite IH. destruct (position is_newline a); [done|].
  by destruct (split_line b).
Qed.

Lemma read_line_bounded_gen max pieces end_ n buf :
  Forall (fun c => c <> []) pieces ->
  match read_line_bounded max pieces end_ n buf with
  | Ok (line, pieces') => exists l, line = buf ++ l /\ Forall (fun c => c <> []) pieces' /\
      let '(payload, rest) := split_line (concat pieces) in
      (n + byte_len payload <= max)%Z /\
      match rest with
      | Some r => l = payload ++ [newline] /\ concat pieces' = r
      | None => end_ = None /\ l = payload /\ pieces' = []
      end
  | Err e =>
      let '(payload, rest) := split_line (concat pieces) in
      if (max <? n + byte_len payload)%Z then e = other_limit (mkLimitExceeded LineBytes max)
      else rest = None /\ end_ = Some e
  end \/ (max < n)%Z.
Proof.
  intros Hp. revert n buf. induction Hp as [|c pieces Hc Hp IH]; intros n buf; cbn [read_line_bounded concat].
  - cbn. destruct (Z.ltb_spec max (n + byte_len [])) as [|]; [unfold byte_len in *; cbn in *; right; lia|left].
    destruct end_; [done|]. exists []. rewrite app_nil_r. by split_and!.
  - rewrite split_line_app. destruct (position is_newline c) as [p|] eqn:Ep.
    + assert (Hpl : p < length c /\ c !! p = Some newline).
      { apply position_Some in Ep as [(x & Hx & Hn) _]. split; [by eapply lookup_lt_Some|].
        apply Ascii.eqb_eq in Hn. by subst. }
      destruct Hpl as [Hpl Hx]. replace (p + 1 - 1) with p by lia. left.
      assert (Et : byte_len (take p c) = Z.of_nat p) by (unfold byte_len; rewrite length_take; lia).
      rewrite Et. destruct (Z.ltb_spec max (n + Z.of_nat p)); [done|].
      destruct (push_piece_ok (drop (p + 1) c) pieces Hp) as [E1 E2].
      exists (take (p + 1) c). split_and!; [done | done | done | | done].
      rewrite Nat.add_1_r. by erewrite take_S_r.
    + destruct (Z.ltb_spec max (n + Z.of_nat (length c))) as [Hover|Hfit].
      * left. destruct (split_line (concat pieces)) as [payload rest]. unfold byte_len. rewrite length_app.
        destruct (Z.ltb_spec max (n + Z.of_nat (length c + length payload))); [done | lia].
      * rewrite take_ge by lia. destruct (IH (n + Z.of_nat (length c))%Z (buf ++ c)) as [IH'|]; [|lia]. left.
        destruct (split_line (concat pieces)) as [payload rest]. unfold byte_len in *. rewrite length_app.
        replace (n + Z.of_nat (length c + length payload))%Z with (n + Z.of_nat (length c) + Z.of_nat (length payload))%Z by lia.
        destruct (read_line_bounded _ _ _ _ _) as [[line p']|e]; [|done].
        destruct IH' as (l & -> & Hp' & Hmax & Hr). exists (c ++ l). rewrite app_assoc. split_and!; try done.
        destruct rest; [|naive_solver]. destruct Hr as [-> ?]. by rewrite app_assoc.
Qed.

Lemma read_line_bounded_first max pieces end_ :
  Forall (fun c => c <> []) pieces -> (0 <= max)%Z ->
  match read_line_bounded max pieces end_ 0 [] with
  | Ok (line, pieces') =>
      read_line max (concat pieces) end_ = Ok (line, concat pieces') /\ Forall (fun c => c <> []) pieces'
  | Err e => read_line max (concat pieces) end_ = Err e
  end.
Proof.
  intros Hp Hm. destruct (read_line_bounded_gen max pieces end_ 0 [] Hp) as [Hg|]; [|lia]. unfold read_line.
  destruct (read_line_bounded max pieces end_ 0 []) as [[line p']|e];
    destruct (split_line (concat pieces)) as [payload rest].
  - destruct Hg as (l & -> & Hp' & Hmax & Hr). destruct (Z.ltb_spec max (byte_len payload)); [lia|].
    destruct rest; [by destruct Hr as [-> ->]|]. by destruct Hr as (-> & -> & ->).
  - rewrite Z.add_0_l in Hg. destruct (max <? byte_len payload)%Z;
      [by subst | by destruct Hg as [-> ->]].
Qed.

(** The bounded line reader reads the first line of the bytes, however they
    are delivered: a payload of exactly the maximum passes, the newline is not
    counted, one byte more is refused, and a source that fails before the end of
    the line passes its error on. *)
Theorem read_line_bounded_spec max pieces end_ :
  Forall (fun c => c <> []) pieces -> (0 <= max)%Z ->
  match read_line_bounded max pieces end_ 0 [] with
  | Ok (line, pieces') =>
      read_line max (concat pieces) end_ = Ok (line, concat pieces') /\ Forall (fun c => c <> []) pieces'
  | Err e => read_line max (concat pieces) end_ = Err e
  end.
Proof. apply read_line_bounded_first. Qed.
