(* ===== verification/Bundle.v ===== *)
(** * Evidence bundles

    [assay-evidence/src/bundle/writer_next]: the writer that seals a run's
    events into [manifest.json] and [events.ndjson], the verifier that reads
    such an archive back under resource limits, and the stream rules both
    apply; [crypto/id.rs] for the hashes.  Gzip and tar ([flate2], [tar]) and
    the JSON codecs ([serde_json], [serde_jcs]) are interfaces. *)
From stdpp Require Import base tactics list strings gmap.
From Stdlib Require Import ZArith Lia Ascii.
From S2P Require Import Prelude RustStr Json Platform StrictJson BoundedIo.

(** ** Events and manifests *)

Record EvidenceEvent : Type := mkEvent {
  ev_specversion : string;
  ev_type : string;
  ev_source : string;
  ev_id : string;
  ev_time : Z;
  ev_data_content_type : string;
  ev_subject : option string;
  ev_trace_parent : option string;
  ev_trace_state : option string;
  ev_run_id : string;
  ev_seq : Z;
  ev_producer : string;
  ev_producer_version : string;
  ev_git_sha : string;
  ev_policy_id : option string;
  ev_contains_pii : bool;
  ev_contains_secrets : bool;
  ev_content_hash : option string;
  ev_semantic_digest : option string;
  ev_digest_profile : option string;
  ev_payload : Value
}.
#[global] Instance EvidenceEvent_eta : Eta EvidenceEvent := fun e =>
  mkEvent (ev_specversion e) (ev_type e) (ev_source e) (ev_id e) (ev_time e) (ev_data_content_type e)
    (ev_subject e) (ev_trace_parent e) (ev_trace_state e) (ev_run_id e) (ev_seq e) (ev_producer e)
    (ev_producer_version e) (ev_git_sha e) (ev_policy_id e) (ev_contains_pii e) (ev_contains_secrets e)
    (ev_content_hash e) (ev_semantic_digest e) (ev_digest_profile e) (ev_payload e).

Record ProducerMeta : Type := mkProducerMeta { pm_name : string; pm_version : string; pm_git : option string }.

Definition producer_meta (e : EvidenceEvent) : ProducerMeta :=
  mkProducerMeta (ev_producer e) (ev_producer_version e)
    (if String.eqb (ev_git_sha e) "unknown" then None else Some (ev_git_sha e)).

Record AlgorithmMeta : Type := mkAlgorithmMeta { am_canon : string; am_hash : string; am_root : string }.
Definition algorithm_default : AlgorithmMeta :=
  mkAlgorithmMeta "jcs-rfc8785" "sha256" ("sha256(concat(content_hash + " +:+ String "034" ("\n" +:+ String "034" "))")).

Record FileMeta : Type := mkFileMeta { fm_path : string; fm_sha256 : string; fm_bytes : Z }.

Record Manifest : Type := mkManifest {
  mf_schema_version : Z;
  mf_bundle_id : string;
  mf_producer : ProducerMeta;
  mf_run_id : string;
  mf_event_count : Z;
  mf_run_root : string;
  mf_algorithms : AlgorithmMeta;
  mf_files : gmap string FileMeta
}.

Record VerifyLimits : Type := mkVerifyLimits {
  vl_max_bundle_bytes : Z;
  vl_max_decode_bytes : Z;
  vl_max_manifest_bytes : Z;
  vl_max_events_bytes : Z;
  vl_max_events : Z;
  vl_max_line_bytes : Z;
  vl_max_path_len : Z;
  vl_max_json_depth : Z
}.
Definition limits_default : VerifyLimits :=
  mkVerifyLimits (100 * 1024 * 1024) (1024 * 1024 * 1024) (10 * 1024 * 1024) (500 * 1024 * 1024)
    100000 (1024 * 1024) 256 64.

Record VerifyLimitsOverrides : Type := mkOverrides {
  vo_max_bundle_bytes : option Z;
  vo_max_decode_bytes : option Z;
  vo_max_manifest_bytes : option Z;
  vo_max_events_bytes : option Z;
  vo_max_events : option Z;
  vo_max_line_bytes : option Z;
  vo_max_path_len : option Z;
  vo_max_json_depth : option Z
}.
Definition limits_apply (l : VerifyLimits) (o : VerifyLimitsOverrides) : VerifyLimits :=
  mkVerifyLimits (default (vl_max_bundle_bytes l) (vo_max_bundle_bytes o))
    (default (vl_max_decode_bytes l) (vo_max_decode_bytes o))
    (default (vl_max_manifest_bytes l) (vo_max_manifest_bytes o))
    (default (vl_max_events_bytes l) (vo_max_events_bytes o))
    (default (vl_max_events l) (vo_max_events o))
    (default (vl_max_line_bytes l) (vo_max_line_bytes o))
    (default (vl_max_path_len l) (vo_max_path_len o))
    (default (vl_max_json_depth l) (vo_max_json_depth o)).

(** ** Errors *)

Inductive ErrorClass : Type := Integrity | Contract | Security | Limits.

Inductive ErrorCode : Type :=
| IntegrityGzip | IntegrityTar | IntegrityManifestHash | IntegrityEventHash | IntegrityFileSizeMismatch
| IntegrityRunRootMismatch | IntegrityZipBomb | IntegrityIo
| ContractMissingManifest | ContractSchemaVersion | ContractFileOrder | ContractMissingFile | ContractDuplicateFile
| ContractUnexpectedFile | ContractRunIdMismatch | ContractBundleIdMismatch | ContractSequenceGap | ContractSequenceStart
| ContractTimestampRegression | ContractInvalidJson | ContractInvalidEvent
| LimitPathLength | LimitFileSize | LimitTotalEvents | LimitLineBytes | LimitJsonDepth | LimitBundleBytes | LimitDecodeBytes
| SecurityPathTraversal | SecurityAbsolutePath.

Record VerifyError : Type := mkVerifyError { ve_class : ErrorClass; ve_code : ErrorCode; ve_message : string }.
#[global] Instance VerifyError_eta : Eta VerifyError := fun e => mkVerifyError (ve_class e) (ve_code e) (ve_message e).

Definition with_context (context : string) (e : VerifyError) : VerifyError :=
  e <| ve_message := context +:+ ": " +:+ ve_message e |>.
Definition from_io_error (e : IoError) : VerifyError := mkVerifyError Integrity IntegrityIo (io_text e).
Definition from_json_error (e : string) : VerifyError := mkVerifyError Contract ContractSchemaVersion e.

Definition classify_limit (e : IoError) : option ErrorCode :=
  match from_io e with
  | None => None
  | Some cause =>
      Some match le_kind cause with
           | SourceBytes => LimitBundleBytes
           | DecodedBytes => LimitDecodeBytes
           | MemberBytes => LimitFileSize
           | LineBytes => LimitLineBytes
           end
  end.

Definition apply_limit_class (e : VerifyError) (limit : option ErrorCode) (fallback : ErrorCode) : VerifyError :=
  match limit with
  | Some code => e <| ve_code := code |> <| ve_class := Limits |>
  | None => e <| ve_code := fallback |>
  end.

(** An I/O failure under a ceiling; without one it keeps [from_io_error]'s code. *)
Definition limit_error (e : IoError) : VerifyError :=
  apply_limit_class (from_io_error e) (classify_limit e) IntegrityIo.

Definition strict_json_error (e : StrictJsonError) (what : string) (max_depth : Z) : VerifyError :=
  let contract m := mkVerifyError Contract ContractInvalidJson (what +:+ m) in
  match e with
  | NestingTooDeep _ =>
      mkVerifyError Limits LimitJsonDepth
        (what +:+ " JSON nesting exceeds the configured maximum depth of " +:+ fmt_int max_depth)
  | DuplicateKey _ _ => contract " JSON contains a duplicate object key"
  | InvalidUnicodeEscape _ => contract " JSON contains an invalid unicode escape sequence"
  | LoneSurrogate _ _ => contract " JSON contains an unpaired surrogate"
  | ParseError _ => contract " JSON is not well-formed"
  | TooManyKeys _ => contract (" JSON object exceeds the maximum of " +:+ fmt_int MAX_KEYS_PER_OBJECT +:+ " keys")
  | StringTooLong _ =>
      contract (" JSON contains a string longer than the maximum of " +:+ fmt_int MAX_STRING_LENGTH +:+ " bytes")
  end.

Definition check_entry_path_len (raw_len max_path_len : Z) : Result () VerifyError :=
  if (max_path_len <? raw_len)%Z then
    Err (mkVerifyError Limits LimitPathLength
      ("Entry path exceeds the configured maximum length of " +:+ fmt_int max_path_len))
  else Ok ().

(** ** Stream rules *)

Inductive StreamRule : Type :=
| NonEmpty | SeqContiguousFromZero | RunIdConsistent | SourceConsistent | SourceIsUri | RunIdHasNoColon
| ContentHashMatchesEvent | IdIsRunIdColonSeq.

Definition describe (r : StreamRule) : string :=
  match r with
  | NonEmpty => "a bundle must carry at least one event"
  | SeqContiguousFromZero => "event seq must be contiguous from 0"
  | RunIdConsistent => "all events must carry the same run_id"
  | SourceConsistent => "all events must carry the same source"
  | SourceIsUri => "source must be a URI (e.g. urn:assay:..., https://...)"
  | RunIdHasNoColon => "run_id cannot contain colons"
  | ContentHashMatchesEvent => "a stored content_hash must match the event"
  | IdIsRunIdColonSeq => "id must equal run_id:seq"
  end.

Definition source_is_uri (source : string) : bool := contains_char source ":" && negb (starts_with source ":").
Definition run_id_has_no_colon (run_id : string) : bool := negb (contains_char run_id ":").

Definition violated_by_event (event first : EvidenceEvent) : option StreamRule :=
  if negb (String.eqb (ev_run_id event) (ev_run_id first)) then Some RunIdConsistent
  else if negb (String.eqb (ev_source event) (ev_source first)) then Some SourceConsistent
  else if negb (source_is_uri (ev_source event)) then Some SourceIsUri
  else if negb (run_id_has_no_colon (ev_run_id event)) then Some RunIdHasNoColon
  else None.

(** ** Hashes and identities *)

Section ids.
Context `{Platform}.

Definition sha256_prefixed (data : string) : string := "sha256:" +:+ sha256_hex data.
Definition normalize_hash (hash : string) : string :=
  if starts_with hash "sha256:" then hash else "sha256:" +:+ hash.

Definition content_id (v : Value) : option string := sha256_prefixed <$> jcs_to_string v.

Definition content_hash_input (e : EvidenceEvent) : Value :=
  Obj ([("specversion", Str (ev_specversion e)); ("type", Str (ev_type e));
        ("datacontenttype", Str (ev_data_content_type e))] ++
       match ev_subject e with Some s => [("subject", Str s)] | None => [] end ++
       [("data", ev_payload e)]).

Definition compute_content_hash (e : EvidenceEvent) : Result string string :=
  match content_id (content_hash_input e) with
  | Some h => Ok h
  | None => Err "failed to compute content hash"
  end.

Definition compute_stream_id (run_id : string) (seq : Z) : string := run_id +:+ ":" +:+ fmt_int seq.

Definition nl : string := String newline EmptyString.
Definition compute_run_root (content_hashes : list string) : string :=
  sha256_prefixed (str_concat (map (fun h => h +:+ nl) content_hashes)).
End ids.

(** ** UTF-8 *)

Definition byte_val (a : ascii) : Z := Z.of_N (byte_of a).
Definition between (lo hi : Z) (a : ascii) : bool := ((lo <=? byte_val a) && (byte_val a <=? hi))%Z.
Definition cont_bits (a : ascii) : Z := (byte_val a - 0x80)%Z.

(** [str::from_utf8]: the characters, or [None] for bytes that are not UTF-8. *)
Fixpoint from_utf8 (l : bytes) : option (list Z) :=
  match l with
  | [] => Some []
  | a :: r =>
      if between 0 0x7F a then cons (byte_val a) <$> from_utf8 r
      else if between 0xC2 0xDF a then
        match r with
        | b :: r => if between 0x80 0xBF b
                    then cons ((byte_val a - 0xC0) * 64 + cont_bits b)%Z <$> from_utf8 r else None
        | _ => None
        end
      else if between 0xE0 0xEF a then
        match r with
        | b :: c :: r =>
            let lo := if (byte_val a =? 0xE0)%Z then 0xA0%Z else 0x80%Z in
            let hi := if (byte_val a =? 0xED)%Z then 0x9F%Z else 0xBF%Z in
            if between lo hi b && between 0x80 0xBF c
            then cons ((byte_val a - 0xE0) * 4096 + cont_bits b * 64 + cont_bits c)%Z <$> from_utf8 r else None
        | _ => None
        end
      else if between 0xF0 0xF4 a then
        match r with
        | b :: c :: d :: r =>
            let lo := if (byte_val a =? 0xF0)%Z then 0x90%Z else 0x80%Z in
            let hi := if (byte_val a =? 0xF4)%Z then 0x8F%Z else 0xBF%Z in
            if between lo hi b && between 0x80 0xBF c && between 0x80 0xBF d
            then cons ((byte_val a - 0xF0) * 262144 + cont_bits b * 4096 + cont_bits c * 64 + cont_bits d)%Z <$> from_utf8 r
            else None
        | _ => None
        end
      else None
  end.

(** ** Third-party codecs *)

Class BundleSerde : Type := {
  parse_event : string -> Result EvidenceEvent string;
  parse_manifest : string -> Result Manifest string;
  (** [serde_jcs] on the two types; an error is its message. *)
  jcs_event : EvidenceEvent -> Result string string;
  jcs_manifest : Manifest -> Result string string;
  (** [Utf8Error]'s [Display]. *)
  utf8_error : bytes -> string
}.

(** A member of the archive as [tar] presents it. *)
Record Entry : Type := mkEntry {
  en_path : bytes;
  en_header_size : Result Z IoError;
  en_body : Source
}.

(** [open_archive max_decode source]: [flate2] and [tar] over the source under
    the ceiling on decoded bytes: the members in order, each possibly a failure
    of the iterator, and how draining the rest of the stream ends. *)
Class Container : Type := {
  open_archive : Z -> bytes -> Result (list (Result Entry IoError) * option IoError) IoError
}.

(** ** The writer *)

Section writer.
Context `{Platform} `{BundleSerde}.

Definition seq_leb (a b : EvidenceEvent) : bool := (ev_seq a <=? ev_seq b)%Z.

Fixpoint insert_by_seq (e : EvidenceEvent) (l : list EvidenceEvent) : list EvidenceEvent :=
  match l with
  | [] => [e]
  | x :: r => if seq_leb e x then e :: x :: r else x :: insert_by_seq e r
  end.
(** [sort_by_key(|e| e.seq)], which is stable. *)
Definition sort_by_seq (l : list EvidenceEvent) : list EvidenceEvent := foldr insert_by_seq [] l.

Definition seal_event (i : Z) (run_id first_source : string) (event : EvidenceEvent)
    : Result (EvidenceEvent * string) string :=
  if negb (ev_seq event =? i)%Z then
    Err ("Sequence gap or mismatch at index " +:+ fmt_int i +:+ "." +:+ nl +:+ "Found seq=" +:+ fmt_int (ev_seq event) +:+
         " expected seq=" +:+ fmt_int i +:+ nl +:+ "Hint: Bundle events must be contiguous from 0.")
  else if negb (String.eqb (ev_run_id event) run_id) then
    Err ("Inconsistent run_id at seq=" +:+ fmt_int (ev_seq event) +:+ "." +:+ nl +:+ "Expected: " +:+ run_id +:+ nl +:+
         "Found: " +:+ ev_run_id event +:+ nl +:+ "Hint: All events must have same run_id.")
  else if negb (String.eqb (ev_source event) first_source) then
    Err ("Inconsistent source at seq=" +:+ fmt_int (ev_seq event) +:+ "." +:+ nl +:+ "Expected: " +:+ first_source +:+ nl +:+
         "Found: " +:+ ev_source event +:+ nl +:+ "Hint: All events in a bundle must be from the same source.")
  else if negb (source_is_uri (ev_source event)) then
    Err ("Invalid source format at seq=" +:+ fmt_int (ev_seq event) +:+ "." +:+ nl +:+ "Value: '" +:+ ev_source event +:+ "'" +:+
         nl +:+ "Hint: source must be a URI (e.g. urn:assay:..., https://...).")
  else if negb (run_id_has_no_colon (ev_run_id event)) then
    Err ("Invalid run_id format at seq=" +:+ fmt_int (ev_seq event) +:+ "." +:+ nl +:+ "Value: '" +:+ ev_run_id event +:+ "'" +:+
         nl +:+ "Hint: run_id cannot contain colons.")
  else
    match compute_content_hash event with
    | Err e => Err e
    | Ok hash =>
        match match ev_content_hash event with
              | Some existing =>
                  if negb (String.eqb existing hash) then
                    Err ("Event seq=" +:+ fmt_int (ev_seq event) +:+ " has inconsistent content_hash.")
                  else Ok event
              | None => Ok (event <| ev_content_hash := Some hash |>)
              end with
        | Err e => Err e
        | Ok event =>
            if negb (String.eqb (ev_id event) (compute_stream_id (ev_run_id event) (ev_seq event))) then
              Err ("Event seq=" +:+ fmt_int (ev_seq event) +:+ " has incorrect id.")
            else Ok (event, hash)
        end
    end.

Fixpoint seal_events (i : Z) (run_id first_source : string) (events : list EvidenceEvent)
    : Result (list EvidenceEvent * list string) string :=
  match events with
  | [] => Ok ([], [])
  | event :: rest =>
      match seal_event i run_id first_source event with
      | Err e => Err e
      | Ok (event, hash) =>
          match seal_events (i + 1) run_id first_source rest with
          | Err e => Err e
          | Ok (events, hashes) => Ok (event :: events, hash :: hashes)
          end
      end
  end.

Fixpoint serialize_events_ndjson (events : list EvidenceEvent) : Result string string :=
  match events with
  | [] => Ok ""
  | event :: rest =>
      match jcs_event event with
      | Err _ => Err "failed to serialize canonical json"
      | Ok line =>
          match serialize_events_ndjson rest with
          | Err e => Err e
          | Ok s => Ok (line +:+ nl +:+ s)
          end
      end
  end.

(** [finish]: the members handed to [tar], in order, and the manifest. *)
Definition finish (events : list EvidenceEvent) (producer : option ProducerMeta)
    : Result (Manifest * list (string * string)) string :=
  match sort_by_seq events with
  | [] => Err "Bundle is empty: at least one event required"
  | (first :: _) as events =>
      match seal_events 0 (ev_run_id first) (ev_source first) events with
      | Err e => Err e
      | Ok (events, content_hashes) =>
          match serialize_events_ndjson events with
          | Err e => Err e
          | Ok events_bytes =>
              let run_root := compute_run_root content_hashes in
              let manifest := mkManifest 1 run_root (default (producer_meta first) producer) (ev_run_id first)
                (Z.of_nat (length events)) run_root algorithm_default
                {["events.ndjson" := mkFileMeta "events.ndjson" (sha256_prefixed events_bytes) (str_len events_bytes)]} in
              match jcs_manifest manifest with
              | Err _ => Err "failed to serialize canonical json"
              | Ok manifest_bytes => Ok (manifest, [("manifest.json", manifest_bytes); ("events.ndjson", events_bytes)])
              end
          end
      end
  end.
End writer.

(** ** The verifier *)

Record VerifyResult : Type := mkVerifyResult {
  vr_manifest : Manifest;
  vr_event_count : Z;
  vr_computed_run_root : string
}.
Record VerifiedBundle : Type := mkVerifiedBundle {
  vb_result : VerifyResult;
  vb_time_window : Z * Z
}.

(** What the pass over [events.ndjson] keeps; [hashed] is what the hasher was
    fed. *)
Record EventsState : Type := mkEventsState {
  prev_seq : option Z;
  content_hashes : list string;
  first_line : bool;
  seen_bytes : Z;
  hashed : bytes;
  seen_lines : Z;
  actual_event_count : Z;
  first_event : option EvidenceEvent;
  time_lo : option Z;
  time_hi : option Z
}.
Definition events_start : EventsState := mkEventsState None [] true 0 [] 0 0 None None None.

Definition bom : bytes := ["239"; "187"; "191"]%char.
Definition is_bom (l : bytes) : bool := bool_decide (take 3 l = bom).

Definition strip_last (a : ascii) (l : bytes) : bytes :=
  match last l with Some c => if Ascii.eqb c a then take (length l - 1) l else l | None => l end.
(** The line without its newline, and without a carriage return before it. *)
Definition line_content (line : bytes) : bytes := strip_last "013" (strip_last newline line).

Inductive Component : Type := RootDir | CurDir | ParentDir | Normal (s : string).

(** [Path::components]: empty components vanish, and [.] except in front. *)
Definition component_of (s : string) : option Component :=
  if str_is_empty s || String.eqb s "." then None
  else Some (if String.eqb s ".." then ParentDir else Normal s).
Definition path_components (p : string) : list Component :=
  (if starts_with p "/" then [RootDir]
   else if String.eqb p "." || starts_with p "./" then [CurDir] else []) ++
  omap component_of (str_split "/" p).

Definition component_allowed (c : Component) : bool :=
  match c with Normal _ | CurDir => true | RootDir | ParentDir => false end.

Definition ALLOWED_FILES : list string := ["manifest.json"; "events.ndjson"].

(** [path.to_str().unwrap_or] the empty string. *)
Definition path_str (path : bytes) : string :=
  match from_utf8 path with Some _ => to_str path | None => "" end.

Record VerifyState : Type := mkVerifyState {
  vs_manifest : option Manifest;
  vs_events_verified : bool;
  vs_seen_files : list string;
  vs_computed_run_root : string;
  vs_event_count : Z;
  vs_time_lo : option Z;
  vs_time_hi : option Z
}.
#[global] Instance VerifyState_eta : Eta VerifyState := fun s =>
  mkVerifyState (vs_manifest s) (vs_events_verified s) (vs_seen_files s) (vs_computed_run_root s)
    (vs_event_count s) (vs_time_lo s) (vs_time_hi s).
Definition verify_start : VerifyState := mkVerifyState None false [] "" 0 None None.

Section verifier.
Context `{Platform} `{BundleSerde} `{Container}.

Definition fail_event {A} (code : ErrorCode) (message : string) : Result A VerifyError :=
  Err (mkVerifyError Contract code message).

Definition check_rules (event : EvidenceEvent) (first : option EvidenceEvent) : Result () VerifyError :=
  match first with
  | Some first =>
      match violated_by_event event first with
      | Some rule => fail_event ContractInvalidEvent ("seq=" +:+ fmt_int (ev_seq event) +:+ ": " +:+ describe rule)
      | None => Ok ()
      end
  | None =>
      if negb (source_is_uri (ev_source event)) then
        fail_event ContractInvalidEvent ("seq=" +:+ fmt_int (ev_seq event) +:+ ": " +:+ describe SourceIsUri)
      else Ok ()
  end.

Definition check_seq (event : EvidenceEvent) (prev : option Z) : Result () VerifyError :=
  match prev with
  | None =>
      if negb (ev_seq event =? 0)%Z then
        fail_event ContractSequenceStart ("First event must have seq=0, got " +:+ fmt_int (ev_seq event))
      else Ok ()
  | Some prev =>
      if negb (ev_seq event =? u64_succ prev)%Z then fail_event ContractSequenceGap "Sequence gap" else Ok ()
  end.

(** The checks on a parsed event, and the content hash it contributes. *)
Definition check_event (m : Manifest) (st : EventsState) (event : EvidenceEvent) : Result string VerifyError :=
  if negb (String.eqb (ev_specversion event) "1.0") then fail_event ContractSchemaVersion "Invalid specversion"
  else
    match ev_content_hash event with
    | None => fail_event ContractSchemaVersion "Missing content_hash"
    | Some claimed_hash =>
        match compute_content_hash event with
        | Err e => Err (mkVerifyError Integrity IntegrityEventHash e)
        | Ok computed_hash =>
            if negb (String.eqb claimed_hash computed_hash) then
              Err (mkVerifyError Integrity IntegrityEventHash
                ("Content hash mismatch at seq " +:+ fmt_int (ev_seq event)))
            else
              match check_seq event (prev_seq st) with
              | Err e => Err e
              | Ok _ =>
                  if negb (String.eqb (ev_run_id event) (mf_run_id m)) then
                    fail_event ContractRunIdMismatch "Inconsistent run_id"
                  else
                    match check_rules event (first_event st) with
                    | Err e => Err e
                    | Ok _ =>
                        if contains_char (ev_run_id event) ":" then
                          fail_event ContractInvalidEvent
                            ("run_id must not contain a colon; the id contract cannot be split unambiguously (seq=" +:+
                             fmt_int (ev_seq event) +:+ ")")
                        else if negb (String.eqb (ev_id event) (compute_stream_id (ev_run_id event) (ev_seq event))) then
                          fail_event ContractInvalidEvent
                            ("Event id does not match the run_id:seq contract at seq=" +:+ fmt_int (ev_seq event))
                        else Ok computed_hash
                    end
              end
        end
    end.

(** One line of [events.ndjson]. *)
Definition check_line (limits : VerifyLimits) (m : Manifest) (st : EventsState) (line : bytes)
    : option (Result EventsState VerifyError) :=
  if first_line st && is_bom line then Some (fail_event ContractInvalidJson "BOM not allowed in NDJSON")
  else
    let lines := (seen_lines st + 1)%Z in
    if (vl_max_events limits <? lines)%Z then
      Some (Err (mkVerifyError Limits LimitTotalEvents
        ("Event count exceeds the configured maximum of " +:+ fmt_int (vl_max_events limits))))
    else
      let content := line_content line in
      if is_nil content then Some (fail_event ContractInvalidEvent "Blank line in events.ndjson")
      else
        match from_utf8 content with
        | None => Some (fail_event ContractInvalidJson ("Invalid UTF-8 in event: " +:+ utf8_error content))
        | Some line_chars =>
            match validate_json_strict_with_depth line_chars (vl_max_json_depth limits) with
            | None => None
            | Some (Err e) => Some (Err (strict_json_error e "Event" (vl_max_json_depth limits)))
            | Some (Ok _) =>
                Some
                match parse_event (to_str content) with
                | Err e => Err ((from_json_error e) <| ve_code := ContractInvalidJson |>)
                | Ok event =>
                    match check_event m st event with
                    | Err e => Err e
                    | Ok hash =>
                        let t := ev_time event in
                        Ok (mkEventsState (Some (ev_seq event)) (content_hashes st ++ [hash]) false
                          (seen_bytes st + byte_len line)%Z (hashed st ++ line) lines (actual_event_count st + 1)%Z
                          (option_or (first_event st) (Some event))
                          (match time_lo st with Some lo => Some (if (t <? lo)%Z then t else lo) | None => Some t end)
                          (match time_hi st with Some hi => Some (if (hi <? t)%Z then t else hi) | None => Some t end))
                    end
                end
            end
        end.

(** The loop over the lines; every line has a byte, so the bytes are fuel. *)
Fixpoint events_loop (fuel : nat) (limits : VerifyLimits) (m : Manifest) (pieces : list bytes) (end_ : option IoError)
    (st : EventsState) : option (Result EventsState VerifyError) :=
  match fuel with
  | O => None
  | S fuel =>
      match read_line_bounded (vl_max_line_bytes limits) pieces end_ 0 [] with
      | Err e => Some (Err (limit_error e))
      | Ok ([], _) => Some (Ok st)
      | Ok (line, pieces) =>
          match check_line limits m st line with
          | None => None
          | Some (Err e) => Some (Err e)
          | Some (Ok st) => events_loop fuel limits m pieces end_ st
          end
      end
  end.

(** The checks after the last line; [root] is the recomputed run root. *)
Definition check_totals (m : Manifest) (meta : FileMeta) (st : EventsState) (root : string) : Result () VerifyError :=
  if negb (seen_bytes st =? fm_bytes meta)%Z then
    Err (mkVerifyError Integrity IntegrityFileSizeMismatch
      ("events.ndjson byte mismatch: expected " +:+ fmt_int (fm_bytes meta) +:+ ", got " +:+ fmt_int (seen_bytes st)))
  else if negb (String.eqb (sha256_prefixed (to_str (hashed st))) (normalize_hash (fm_sha256 meta))) then
    Err (mkVerifyError Integrity IntegrityManifestHash "events.ndjson hash mismatch")
  else if (actual_event_count st =? 0)%Z then fail_event ContractInvalidEvent (describe NonEmpty)
  else if negb (actual_event_count st =? mf_event_count m)%Z then
    fail_event ContractSequenceGap "Event count mismatch"
  else if negb (String.eqb root (mf_run_root m)) then
    Err (mkVerifyError Integrity IntegrityRunRootMismatch "Run root mismatch")
  else if negb (String.eqb (mf_bundle_id m) root) then
    fail_event ContractBundleIdMismatch "bundle_id must equal run_root"
  else Ok ().

Definition read_manifest (limits : VerifyLimits) (body : Source) : option (Result Manifest VerifyError) :=
  match limited (vl_max_manifest_bytes limits) MemberBytes (concat (pieces body)) (failure body) with
  | Err e => Some (Err (limit_error e))
  | Ok content =>
      match from_utf8 content with
      | None => Some (fail_event ContractInvalidJson ("Invalid UTF-8 in manifest.json: " +:+ utf8_error content))
      | Some manifest_str =>
          match validate_json_strict_with_depth manifest_str (vl_max_json_depth limits) with
          | None => None
          | Some (Err e) => Some (Err (strict_json_error e "Manifest" (vl_max_json_depth limits)))
          | Some (Ok _) =>
              Some
              match parse_manifest (to_str content) with
              | Err e => Err ((from_json_error e) <| ve_code := ContractInvalidJson |>)
              | Ok m =>
                  if negb (mf_schema_version m =? 1)%Z then
                    fail_event ContractSchemaVersion
                      ("Unsupported schema version: " +:+ fmt_int (mf_schema_version m))
                  else Ok m
              end
          end
      end
  end.

Definition verify_events (limits : VerifyLimits) (m : Manifest) (header_size : Z) (body : Source) (vs : VerifyState)
    : option (Result VerifyState VerifyError) :=
  match mf_files m !! "events.ndjson" with
  | None => Some (fail_event ContractMissingFile "Manifest missing 'events.ndjson'")
  | Some meta =>
      if negb (header_size =? fm_bytes meta)%Z then
        Some (Err (mkVerifyError Integrity IntegrityFileSizeMismatch
          ("events.ndjson size mismatch: expected " +:+ fmt_int (fm_bytes meta) +:+ ", got " +:+ fmt_int header_size)))
      else
        match events_loop (S (length (concat (pieces body)))) limits m (pieces body) (failure body) events_start with
        | None => None
        | Some (Err e) => Some (Err e)
        | Some (Ok st) =>
            let root := compute_run_root (content_hashes st) in
            Some match check_totals m meta st root with
                 | Err e => Err e
                 | Ok _ => Ok (mkVerifyState (vs_manifest vs) true (vs_seen_files vs) root
                                 (actual_event_count st) (time_lo st) (time_hi st))
                 end
        end
  end.

(** The checks on an entry before its content is read. *)
Definition check_entry (limits : VerifyLimits) (seen : list string) (entry : Entry) : Result (string * Z) VerifyError :=
  match check_entry_path_len (byte_len (en_path entry)) (vl_max_path_len limits) with
  | Err e => Err e
  | Ok _ =>
      let name := path_str (en_path entry) in
      match en_header_size entry with
      | Err e => Err (from_io_error e)
      | Ok header_size =>
          let max_size := if String.eqb name "manifest.json" then vl_max_manifest_bytes limits
                          else vl_max_events_bytes limits in
          if (max_size <? header_size)%Z then
            Err (mkVerifyError Limits LimitFileSize
              ("A declared member size exceeds the configured maximum of " +:+ fmt_int max_size +:+ " bytes"))
          else if negb (forallb component_allowed (path_components (to_str (en_path entry)))) then
            Err (mkVerifyError Security SecurityPathTraversal ("Invalid path component in '" +:+ name +:+ "'"))
          else if negb (existsb (String.eqb name) ALLOWED_FILES) then
            fail_event ContractUnexpectedFile ("Unexpected file '" +:+ name +:+ "'")
          else if existsb (String.eqb name) seen then
            fail_event ContractDuplicateFile ("Duplicate file '" +:+ name +:+ "'")
          else Ok (name, header_size)
      end
  end.

Definition verify_entry (limits : VerifyLimits) (i : Z) (entry : Result Entry IoError) (vs : VerifyState)
    : option (Result VerifyState VerifyError) :=
  match entry with
  | Err e =>
      Some (Err (with_context ("Entry #" +:+ fmt_int i)
        (apply_limit_class (from_io_error e) (classify_limit e) IntegrityTar)))
  | Ok entry =>
      match check_entry limits (vs_seen_files vs) entry with
      | Err e => Some (Err e)
      | Ok (name, header_size) =>
          let vs := vs <| vs_seen_files := name :: vs_seen_files vs |> in
          if (i =? 0)%Z then
            if negb (String.eqb name "manifest.json") then
              Some (fail_event ContractFileOrder "First file must be 'manifest.json'")
            else
              match read_manifest limits (en_body entry) with
              | None => None
              | Some (Err e) => Some (Err e)
              | Some (Ok m) => Some (Ok (vs <| vs_manifest := Some m |>))
              end
          else
            match vs_manifest vs with
            | None => Some (fail_event ContractFileOrder "File encountered before manifest.json")
            | Some m =>
                if String.eqb name "events.ndjson" then verify_events limits m header_size (en_body entry) vs
                else Some (Ok vs)
            end
      end
  end.

Fixpoint verify_entries (limits : VerifyLimits) (i : Z) (entries : list (Result Entry IoError)) (vs : VerifyState)
    : option (Result VerifyState VerifyError) :=
  match entries with
  | [] => Some (Ok vs)
  | entry :: rest =>
      match verify_entry limits i entry vs with
      | Some (Ok vs) => verify_entries limits (i + 1) rest vs
      | other => other
      end
  end.

Definition verify_bundle_snapshot (source : bytes) (limits : VerifyLimits) : option (Result VerifiedBundle VerifyError) :=
  match open_archive (vl_max_decode_bytes limits) source with
  | Err e =>
      Some (Err (with_context "Gzip/Tar stream" (apply_limit_class (from_io_error e) (classify_limit e) IntegrityTar)))
  | Ok (entries, tail) =>
      match verify_entries limits 0 entries verify_start with
      | None => None
      | Some (Err e) => Some (Err e)
      | Some (Ok vs) =>
          Some
          (if negb (vs_events_verified vs) then fail_event ContractMissingFile "Missing events.ndjson"
           else
             match tail with
             | Some e =>
                 Err (with_context "Gzip trailer"
                   (apply_limit_class (from_io_error e) (classify_limit e) IntegrityGzip))
             | None =>
                 match vs_time_lo vs, vs_time_hi vs, vs_manifest vs with
                 | Some lo, Some hi, Some m =>
                     Ok (mkVerifiedBundle (mkVerifyResult m (vs_event_count vs) (vs_computed_run_root vs)) (lo, hi))
                 | _, _, _ => fail_event ContractInvalidEvent (describe NonEmpty)
                 end
             end)
      end
  end.

Definition verify_bundle_verbose_with_limits (reader : Source) (limits : VerifyLimits)
    : option (Result VerifiedBundle VerifyError) :=
  match limited (vl_max_bundle_bytes limits) SourceBytes (concat (pieces reader)) (failure reader) with
  | Err e =>
      Some (Err (with_context "Bundle source" (apply_limit_class (from_io_error e) (classify_limit e) IntegrityGzip)))
  | Ok source => verify_bundle_snapshot source limits
  end.

Definition verify_bundle_with_limits (reader : Source) (limits : VerifyLimits) : option (Result VerifyResult VerifyError) :=
  match verify_bundle_verbose_with_limits reader limits with
  | Some (Ok b) => Some (Ok (vb_result b))
  | Some (Err e) => Some (Err e)
  | None => None
  end.

Definition verify_bundle (reader : Source) : option (Result VerifyResult VerifyError) :=
  verify_bundle_with_limits reader limits_default.
End verifier.
