(* ===== verification/BundleCorrect.v ===== *)
(** * Evidence bundles: correctness

    What a verified bundle guarantees, that the verifier returns on every
    input, and that it accepts what the writer seals. *)
From stdpp Require Import base tactics list strings gmap.
From Stdlib Require Import ZArith Lia Ascii.
From S2P Require Import Prelude RustStr Json Platform StrictJson StrictJsonCorrect BoundedIo Bundle.

(** ** What a bundle is *)

Definition one_line (payload : bytes) : Prop := Forall (fun c => is_newline c = false) payload.

(** The lines of a file, each with its newline; the last may lack it. *)
Inductive lines_of : bytes -> list bytes -> Prop :=
| lines_nil : lines_of [] []
| lines_cons payload rest ls : one_line payload -> lines_of rest ls ->
    lines_of (payload ++ newline :: rest) ((payload ++ [newline]) :: ls)
| lines_last payload : one_line payload -> payload <> [] -> lines_of payload [payload].

Section bundle.
Context `{Platform} `{BundleSerde} `{Container}.

(** An event at position [i] of a bundle with manifest [m], whose first event
    is [first]. *)
Record EventOk (m : Manifest) (first : EvidenceEvent) (i : nat) (e : EvidenceEvent) : Prop := {
  eo_specversion : ev_specversion e = "1.0";
  eo_seq : ev_seq e = Z.of_nat i;
  eo_run_id : ev_run_id e = mf_run_id m;
  eo_no_colon : contains_char (ev_run_id e) ":" = false;
  eo_source : ev_source e = ev_source first;
  eo_uri : source_is_uri (ev_source e) = true;
  eo_id : ev_id e = compute_stream_id (ev_run_id e) (ev_seq e);
  eo_hash : exists h, ev_content_hash e = Some h /\ compute_content_hash e = Ok h
}.

Definition line_parses (line : bytes) (e : EvidenceEvent) : Prop := parse_event (to_str (line_content line)) = Ok e.

Record BundleOk (m : Manifest) (content : bytes) (events : list EvidenceEvent) : Prop := {
  bo_first : exists first, head events = Some first /\ forall i e, events !! i = Some e -> EventOk m first i e;
  bo_lines : exists lines, lines_of content lines /\ Forall2 line_parses lines events;
  bo_count : mf_event_count m = Z.of_nat (length events);
  bo_run_root : mf_run_root m = compute_run_root (omap ev_content_hash events);
  bo_bundle_id : mf_bundle_id m = mf_run_root m;
  bo_file : exists meta, mf_files m !! "events.ndjson" = Some meta /\ fm_bytes meta = byte_len content /\
    normalize_hash (fm_sha256 meta) = sha256_prefixed (to_str content)
}.

(** The earliest and the latest time of the events. *)
Definition window (events : list EvidenceEvent) (lo hi : Z) : Prop :=
  (forall e, e ∈ events -> (lo <= ev_time e <= hi)%Z) /\
  (exists e, e ∈ events /\ ev_time e = lo) /\ (exists e, e ∈ events /\ ev_time e = hi).

(** ** One event *)

Lemma check_seq_ok event prev :
  is_ok (check_seq event prev) = true <->
  ev_seq event = match prev with None => 0%Z | Some p => u64_succ p end.
Proof. unfold check_seq. destruct prev; case_match eqn:E; cbn; lia. Qed.

Lemma check_rules_ok event first :
  is_ok (check_rules event first) = true <->
  source_is_uri (ev_source event) = true /\
  forall f, first = Some f ->
    ev_run_id event = ev_run_id f /\ ev_source event = ev_source f /\ run_id_has_no_colon (ev_run_id event) = true.
Proof.
  unfold check_rules, violated_by_event. destruct first as [f|].
  - destruct (String.eqb_spec (ev_run_id event) (ev_run_id f)); cbn; [|naive_solver].
    destruct (String.eqb_spec (ev_source event) (ev_source f)); cbn; [|naive_solver].
    destruct (source_is_uri (ev_source event)); cbn; [|naive_solver].
    destruct (run_id_has_no_colon (ev_run_id event)); cbn; naive_solver.
  - destruct (source_is_uri (ev_source event)); cbn; naive_solver.
Qed.

(** The verifier's checks on an event. *)
Definition event_passes (m : Manifest) (st : EventsState) (event : EvidenceEvent) (h : string) : Prop :=
  ev_specversion event = "1.0" /\ ev_content_hash event = Some h /\ compute_content_hash event = Ok h /\
  ev_seq event = match prev_seq st with None => 0%Z | Some p => u64_succ p end /\
  ev_run_id event = mf_run_id m /\ contains_char (ev_run_id event) ":" = false /\
  source_is_uri (ev_source event) = true /\
  (forall f, first_event st = Some f -> ev_run_id event = ev_run_id f /\ ev_source event = ev_source f) /\
  ev_id event = compute_stream_id (ev_run_id event) (ev_seq event).

Lemma check_event_ok m st event h : check_event m st event = Ok h <-> event_passes m st event h.
Proof.
  unfold check_event, event_passes.
  pose proof (check_seq_ok event (prev_seq st)) as Hs. pose proof (check_rules_ok event (first_event st)) as Hr.
  unfold run_id_has_no_colon in Hr.
  destruct (String.eqb_spec (ev_specversion event) "1.0"); cbn; [|by split; [|intros (? & _)]].
  destruct (ev_content_hash event) as [claimed|]; [|by split; [|intros (_ & ? & _)]].
  destruct (compute_content_hash event) as [h'|]; [|by split; [|intros (_ & _ & ? & _)]].
  destruct (String.eqb_spec claimed h') as [->|];
    cbn; [|by split; [|intros (_ & [= ->] & [= ->] & _)]].
  destruct (check_seq event (prev_seq st)) as [[]|?]; cbn in Hs;
    [|by split; [|intros (_ & _ & _ & ?%Hs & _)]].
  destruct (String.eqb_spec (ev_run_id event) (mf_run_id m)); cbn; [|by split; [|intros (_ & _ & _ & _ & ? & _)]].
  destruct (contains_char (ev_run_id event) ":") eqn:Ec.
  { split; [|by intros (_ & _ & _ & _ & _ & ? & _)]. by destruct (check_rules event (first_event st)). }
  destruct (check_rules event (first_event st)) as [[]|?]; cbn in Hr.
  - destruct (proj1 Hr eq_refl) as [Hu Hf].
    destruct (String.eqb_spec (ev_id event) (compute_stream_id (ev_run_id event) (ev_seq event))); cbn;
      [|by split; [|intros (_ & _ & _ & _ & _ & _ & _ & _ & ?)]].
    split; [intros [= <-]|by intros (_ & _ & [= ->] & _)]. split_and!; try done; [by apply Hs|].
    intros f Ef. by destruct (Hf f Ef) as (? & ? & _).
  - split; [done|]. intros (_ & _ & _ & _ & _ & _ & Hu & Hf & _). exfalso. assert (false = true); [|done].
    apply Hr. split; [done|]. intros f Ef. by destruct (Hf f Ef).
Qed.

(** ** One line *)

Definition step_state (st : EventsState) (line : bytes) (event : EvidenceEvent) (hash : string) : EventsState :=
  let t := ev_time event in
  mkEventsState (Some (ev_seq event)) (content_hashes st ++ [hash]) false
    (seen_bytes st + byte_len line)%Z (hashed st ++ line) (seen_lines st + 1)%Z (actual_event_count st + 1)%Z
    (option_or (first_event st) (Some event))
    (match time_lo st with Some lo => Some (if (t <? lo)%Z then t else lo) | None => Some t end)
    (match time_hi st with Some hi => Some (if (hi <? t)%Z then t else hi) | None => Some t end).

(** The checks on the bytes of a line. *)
Definition line_readable (limits : VerifyLimits) (line : bytes) : Prop :=
  line_content line <> [] /\
  exists line_chars, from_utf8 (line_content line) = Some line_chars /\
    validate_json_strict_with_depth line_chars (vl_max_json_depth limits) = Some (Ok ()).

Lemma check_line_ok limits m st line st' :
  check_line limits m st line = Some (Ok st') <->
  first_line st && is_bom line = false /\ (seen_lines st + 1 <= vl_max_events limits)%Z /\
  line_readable limits line /\
  exists event h, line_parses line event /\ event_passes m st event h /\ st' = step_state st line event h.
Proof.
  unfold check_line, line_readable, line_parses, fail_event.
  destruct (first_line st && is_bom line); [by split; [|intros (? & _)]|].
  destruct (Z.ltb_spec (vl_max_events limits) (seen_lines st + 1)); [by split; [|intros (_ & ? & _); lia]|].
  destruct (is_nil (line_content line)) eqn:En.
  { apply is_nil_true in En. rewrite En. by split; [|intros (_ & _ & (? & _) & _)]. }
  apply is_nil_false in En.
  destruct (from_utf8 (line_content line)) as [cs|]; [|by split; [|intros (_ & _ & (_ & ? & ? & _) & _)]].
  destruct (validate_json_strict_with_depth cs (vl_max_json_depth limits)) as [[[]|e]|] eqn:Ev;
    [|by split; [done|]; intros (_ & _ & (_ & ? & [= <-] & ?) & _); congruence..].
  destruct (parse_event (to_str (line_content line))) as [event|e];
    [|by split; [done|]; intros (_ & _ & _ & ? & ? & ? & _)].
  pose proof (check_event_ok m st event) as Hce. destruct (check_event m st event) as [h|e].
  - split.
    + intros [= <-]. split_and!; try done; [eauto|]. exists event, h. split_and!; [done | by apply Hce | done].
    + intros (_ & _ & _ & event' & h' & [= <-] & Hp & ->). apply Hce in Hp. injection Hp as <-. done.
  - split; [done|]. intros (_ & _ & _ & event' & h' & [= <-] & Hp & _). by apply Hce in Hp.
Qed.

(** ** The pass over the lines *)

Record Pass (m : Manifest) (lines : list bytes) (events : list EvidenceEvent) (st : EventsState) : Prop := {
  pa_hashed : hashed st = concat lines;
  pa_bytes : seen_bytes st = byte_len (hashed st);
  pa_lines : seen_lines st = Z.of_nat (length lines);
  pa_count : actual_event_count st = Z.of_nat (length events);
  pa_parses : Forall2 line_parses lines events;
  pa_hashes : content_hashes st = omap ev_content_hash events;
  pa_seq : prev_seq st = match events with [] => None | _ => Some (Z.of_nat (length events) - 1)%Z end;
  pa_first : first_event st = head events;
  pa_window : match time_lo st, time_hi st with
              | Some lo, Some hi => window events lo hi
              | None, None => events = []
              | _, _ => False
              end;
  pa_events : forall first i e, head events = Some first -> events !! i = Some e -> EventOk m first i e
}.

Lemma pass_start m : Pass m [] [] events_start.
Proof. split; done. Qed.

Lemma head_app_some {A} (l k : list A) : head (l ++ k) = match head l with Some x => Some x | None => head k end.
Proof. by destruct l. Qed.

Lemma window_snoc events e st :
  match time_lo st, time_hi st with
  | Some lo, Some hi => window events lo hi
  | None, None => events = []
  | _, _ => False
  end ->
  match (match time_lo st with Some lo => Some (if (ev_time e <? lo)%Z then ev_time e else lo) | None => Some (ev_time e) end),
        (match time_hi st with Some hi => Some (if (hi <? ev_time e)%Z then ev_time e else hi) | None => Some (ev_time e) end) with
  | Some lo, Some hi => window (events ++ [e]) lo hi
  | None, None => events ++ [e] = []
  | _, _ => False
  end.
Proof.
  destruct (time_lo st) as [lo|], (time_hi st) as [hi|]; try done.
  - intros (Hall & (a & Ha & <-) & (b & Hb & <-)). pose proof (Hall b Hb). pose proof (Hall a Ha).
    unfold window. setoid_rewrite elem_of_app. setoid_rewrite list_elem_of_singleton.
    split_and!.
    + intros x [Hx| ->]; [specialize (Hall x Hx)|];
        destruct (Z.ltb_spec (ev_time e) (ev_time a)), (Z.ltb_spec (ev_time b) (ev_time e)); lia.
    + destruct (ev_time e <? ev_time a)%Z; eauto.
    + destruct (ev_time b <? ev_time e)%Z; eauto.
  - intros ->. unfold window. cbn. setoid_rewrite list_elem_of_singleton. split_and!; [|eauto..]. intros x ->. lia.
Qed.

Lemma pass_step m lines events st line event h :
  Pass m lines events st -> line_parses line event -> event_passes m st event h ->
  (Z.of_nat (length events) <= u64_max)%Z ->
  Pass m (lines ++ [line]) (events ++ [event]) (step_state st line event h).
Proof.
  intros [Hh Hb Hl Hc Hp Hhs Hseq Hf Hw He] Hlp (Es & Ech & Ecc & Eseq & Er & Enc & Eu & Ef & Eid) Hmax.
  assert (Eseq' : ev_seq event = Z.of_nat (length events)).
  { rewrite Eseq, Hseq. destruct events as [|e0 events]; [done|]. rewrite u64_succ_small; cbn [length] in *; lia. }
  split; cbn.
  - rewrite concat_app, Hh. cbn. by rewrite app_nil_r.
  - unfold byte_len in *. rewrite length_app. lia.
  - rewrite Hl, length_app. cbn. lia.
  - rewrite Hc, length_app. cbn. lia.
  - apply Forall2_app; [done|]. by constructor.
  - rewrite omap_app, Hhs. cbn. by rewrite Ech.
  - rewrite length_app, Eseq'. destruct (events ++ [event]) eqn:E; [by destruct events|]. f_equal. cbn. lia.
  - rewrite Hf, head_app_some. by destruct (head events).
  - by apply window_snoc.
  - intros first i e Hfirst Hi. rewrite head_app_some in Hfirst. apply lookup_app_Some in Hi as [Hi|[Hge Hi]].
    + apply He; [|done]. destruct events; [by rewrite lookup_nil in Hi | done].
    + apply list_lookup_singleton_Some in Hi as [Hz <-]. assert (i = length events) as -> by lia.
      assert (Hsrc : ev_source event = ev_source first).
      { destruct (head events) as [f|] eqn:Eh; cbn in Hfirst; [|congruence]. injection Hfirst as ->.
        destruct (Ef first) as [_ ?]; [congruence | done]. }
      split; try done. by exists h.
Qed.

Lemma read_line_lines max data line rest :
  read_line max data None = Ok (line, rest) ->
  (line = [] /\ data = [] /\ rest = []) \/
  (line <> [] /\ data = line ++ rest /\ (byte_len line <= max + 1)%Z /\
   forall ls, lines_of rest ls -> lines_of data (line :: ls)).
Proof.
  unfold read_line. destruct (split_line data) as [payload r] eqn:E.
  assert (Hs : one_line payload /\ data = payload ++ match r with Some r => newline :: r | None => [] end).
  { revert payload r E. induction data as [|c data IH]; intros payload r; cbn [split_line].
    - intros [= <- <-]. split; [constructor | done].
    - destruct (is_newline c) eqn:Ec.
      + intros [= <- <-]. split; [constructor|]. apply Ascii.eqb_eq in Ec. by subst.
      + destruct (split_line data) as [l o] eqn:El. intros [= <- <-]. destruct (IH l o eq_refl) as [Hl ->].
        split; [by constructor | done]. }
  destruct Hs as [Hone ->]. destruct (Z.ltb_spec max (byte_len payload)); [done|]. destruct r as [r|]; intros [= <- <-].
  - right. unfold byte_len in *. rewrite length_app. cbn. split_and!; [by destruct payload | by rewrite <- app_assoc | lia|].
    intros ls Hls. by constructor.
  - rewrite app_nil_r. destruct payload as [|c payload]; [by left|]. right. unfold byte_len in *.
    split_and!; [done | by rewrite ?app_nil_r | lia|]. intros ls Hls. inversion Hls as [|? ? ? ? ? E1|? ? E1]; subst.
    + by constructor.
    + by destruct payload0.
    + done.
Qed.

Lemma read_line_end max data end_ line rest :
  read_line max data end_ = Ok (line, rest) -> read_line max data None = Ok (line, rest) /\ (line = [] -> end_ = None).
Proof.
  unfold read_line. destruct (split_line data) as [payload [r|]]; (destruct (max <? byte_len payload)%Z; [done|]).
  - intros [= <- ->]. split; [done|]. by destruct payload.
  - by destruct end_.
Qed.

Lemma events_loop_pass fuel limits m pieces end_ lines events st st' :
  (0 <= vl_max_line_bytes limits)%Z -> (vl_max_events limits <= u64_max)%Z -> Forall (fun c => c <> []) pieces ->
  Pass m lines events st -> events_loop fuel limits m pieces end_ st = Some (Ok st') ->
  end_ = None /\ exists lines' events', lines_of (concat pieces) lines' /\ Pass m (lines ++ lines') (events ++ events') st'.
Proof.
  intros Hl Hmax. revert pieces lines events st. induction fuel as [|fuel IH]; intros pieces lines events st Hne Hp;
    cbn [events_loop]; [done|].
  pose proof (read_line_bounded_first (vl_max_line_bytes limits) pieces end_ Hne Hl) as Hr.
  destruct (read_line_bounded _ pieces end_ 0 []) as [[line pieces']|e]; [|done]. destruct Hr as [Hr Hne'].
  destruct (read_line_end _ _ _ _ _ Hr) as [Hr' Hend].
  destruct (read_line_lines _ _ _ _ Hr') as [(-> & Ed & _)|(Hline & Ed & _ & Hls)].
  - intros [= <-]. split; [by apply Hend|]. exists [], []. rewrite Ed, !app_nil_r. split; [constructor | done].
  - destruct line as [|c line]; [done|]. destruct (check_line limits m st (c :: line)) as [[st1|e]|] eqn:Ec; [|done..].
    apply check_line_ok in Ec as (_ & Hcount & _ & event & h & Hparse & Hpass & ->). intros Hloop.
    assert (Hev : (Z.of_nat (length events) <= u64_max)%Z).
    { rewrite <- (pa_count _ _ _ _ Hp). pose proof (pa_lines _ _ _ _ Hp). pose proof (pa_count _ _ _ _ Hp).
      pose proof (Forall2_length _ _ _ (pa_parses _ _ _ _ Hp)). lia. }
    destruct (IH pieces' (lines ++ [c :: line]) (events ++ [event]) _ Hne'
      (pass_step _ _ _ _ _ _ _ Hp Hparse Hpass Hev) Hloop) as (Ee & lines' & events' & Hlo & Hp').
    split; [done|]. exists ((c :: line) :: lines'), (event :: events'). split; [by apply Hls|].
    by rewrite <- !app_assoc in Hp'.
Qed.

(** ** The archive *)

Lemma check_totals_ok m meta st root :
  check_totals m meta st root = Ok () <->
  seen_bytes st = fm_bytes meta /\ sha256_prefixed (to_str (hashed st)) = normalize_hash (fm_sha256 meta) /\
  actual_event_count st <> 0%Z /\ actual_event_count st = mf_event_count m /\ root = mf_run_root m /\ mf_bundle_id m = root.
Proof.
  unfold check_totals, fail_event.
  destruct (Z.eqb_spec (seen_bytes st) (fm_bytes meta)); cbn [negb]; [|by split; [|intros (? & _)]].
  destruct (String.eqb_spec (sha256_prefixed (to_str (hashed st))) (normalize_hash (fm_sha256 meta)));
    cbn [negb]; [|by split; [|intros (_ & ? & _)]].
  destruct (Z.eqb_spec (actual_event_count st) 0); cbn [negb]; [by split; [|intros (_ & _ & ? & _)]|].
  destruct (Z.eqb_spec (actual_event_count st) (mf_event_count m)); cbn [negb]; [|by split; [|intros (_ & _ & _ & ? & _)]].
  destruct (String.eqb_spec root (mf_run_root m)); cbn [negb]; [|by split; [|intros (_ & _ & _ & _ & ? & _)]].
  destruct (String.eqb_spec (mf_bundle_id m) root); cbn [negb]; [|by split; [|intros (_ & _ & _ & _ & _ & ?)]]. done.
Qed.

Definition well_delivered (e : Entry) : Prop := Forall (fun c => c <> []) (pieces (en_body e)).

(** What the verifier's state says once [events.ndjson] is verified. *)
Definition sealed (m : Manifest) (entry : Entry) (vs : VerifyState) : Prop :=
  failure (en_body entry) = None /\
  exists events, BundleOk m (concat (pieces (en_body entry))) events /\
    vs_event_count vs = Z.of_nat (length events) /\ vs_computed_run_root vs = mf_run_root m /\
    exists lo hi, vs_time_lo vs = Some lo /\ vs_time_hi vs = Some hi /\ window events lo hi.

Lemma verify_events_ok limits m size entry vs vs' :
  (0 <= vl_max_line_bytes limits)%Z -> (vl_max_events limits <= u64_max)%Z -> well_delivered entry ->
  verify_events limits m size (en_body entry) vs = Some (Ok vs') ->
  vs_manifest vs' = vs_manifest vs /\ vs_events_verified vs' = true /\ sealed m entry vs'.
Proof.
  intros Hl Hmax Hwd. unfold verify_events, sealed. destruct (mf_files m !! "events.ndjson") as [meta|] eqn:Em; [|done].
  destruct (Z.eqb_spec size (fm_bytes meta)); cbn [negb]; [|done].
  destruct (events_loop _ _ _ _ _ _) as [[st|e']|] eqn:El; [|done..].
  destruct (events_loop_pass _ _ _ _ _ [] [] _ _ Hl Hmax Hwd (pass_start m) El) as (Hend & lines & events & Hlo & Hp).
  cbn [app] in Hp. pose proof (check_totals_ok m meta st (compute_run_root (content_hashes st))) as Ht.
  destruct (check_totals _ _ _ _) as [[]|]; [|done]. intros [= <-]. cbn.
  destruct (proj1 Ht eq_refl) as (T1 & T2 & T3 & T4 & T5 & T6). split_and!; try done.
  destruct Hp as [Hh Hb _ Hc Hpa Hhs _ Hf Hw He].
  assert (Hcontent : hashed st = concat (pieces (en_body entry))).
  { rewrite Hh. clear -Hlo. induction Hlo as [|payload rest ls _ _ IH|payload _ _]; cbn; [done| |by rewrite app_nil_r].
    by rewrite IH, <- app_assoc. }
  exists events. split_and!; [|done|done|].
  - split.
    + destruct events as [|first events]; [cbn in Hc; lia|]. exists first. split; [done|]. intros i ev. by apply He.
    + by exists lines.
    + by rewrite <- T4.
    + by rewrite <- T5, Hhs.
    + by rewrite T6.
    + exists meta. rewrite <- Hcontent. split_and!; [done | lia | done].
  - destruct (time_lo st) as [lo|], (time_hi st) as [hi|]; [|done..|].
    + eauto.
    + subst events. cbn in Hc. lia.
Qed.

Definition max_member (limits : VerifyLimits) (name : string) : Z :=
  if String.eqb name "manifest.json" then vl_max_manifest_bytes limits else vl_max_events_bytes limits.

Lemma check_entry_ok limits seen entry name size :
  check_entry limits seen entry = Ok (name, size) ->
  name = path_str (en_path entry) /\ (name = "manifest.json" \/ name = "events.ndjson") /\ (name ∉ seen) /\
  en_header_size entry = Ok size /\ (size <= max_member limits name)%Z /\
  check_entry_path_len (byte_len (en_path entry)) (vl_max_path_len limits) = Ok ().
Proof.
  unfold check_entry. destruct (check_entry_path_len _ _) as [[]|]; [|done].
  destruct (en_header_size entry) as [sz|]; [|done]. fold (max_member limits (path_str (en_path entry))).
  destruct (Z.ltb_spec (max_member limits (path_str (en_path entry))) sz); [done|].
  destruct (forallb _ _); cbn [negb]; [|done].
  destruct (existsb (String.eqb (path_str (en_path entry))) ALLOWED_FILES) eqn:Ea; cbn [negb]; [|done].
  destruct (existsb _ seen) eqn:Es; [done|]. intros [= <- <-]. split_and!; [done | | | done | lia | done].
  - apply existsb_true in Ea as (x & Hx & ->%String.eqb_eq). unfold ALLOWED_FILES in Hx.
    apply elem_of_cons in Hx as [->|Hx%list_elem_of_singleton]; auto.
  - intros Hin. pose proof (proj1 (existsb_false _ _) Es _ Hin) as Hf. by rewrite String.eqb_refl in Hf.
Qed.

Lemma read_manifest_ok limits body m :
  read_manifest limits body = Some (Ok m) ->
  failure body = None /\ parse_manifest (to_str (concat (pieces body))) = Ok m /\ mf_schema_version m = 1%Z.
Proof.
  unfold read_manifest, limited. destruct (_ <=? _)%Z; [|done]. destruct (failure body); [done|].
  destruct (from_utf8 _); [|done]. destruct (validate_json_strict_with_depth _ _) as [[|]|]; [|done..].
  destruct (parse_manifest _) as [m'|]; [|done]. destruct (Z.eqb_spec (mf_schema_version m') 1); cbn; [|done].
  by intros [= ->].
Qed.

(** Third and later members do not get past the checks on names. *)
Lemma verify_entry_third limits i entry vs vs' :
  "manifest.json" ∈ vs_seen_files vs -> "events.ndjson" ∈ vs_seen_files vs ->
  verify_entry limits i entry vs <> Some (Ok vs').
Proof.
  intros Hm He. unfold verify_entry. destruct entry as [entry|]; [|done].
  destruct (check_entry _ _ _) as [[name size]|] eqn:Ec; [|done].
  apply check_entry_ok in Ec as (_ & [->| ->] & Hn & _); done.
Qed.

Definition named (limits : VerifyLimits) (entry : Entry) (name : string) : Prop :=
  path_str (en_path entry) = name /\
  check_entry_path_len (byte_len (en_path entry)) (vl_max_path_len limits) = Ok ().

(** The two members of an archive whose entries verify. *)
Lemma verify_entries_two limits entries vs :
  verify_entries limits 0 entries verify_start = Some (Ok vs) -> vs_events_verified vs = true ->
  exists me ee m size vs1, entries = [Ok me; Ok ee] /\ named limits me "manifest.json" /\ named limits ee "events.ndjson" /\
    read_manifest limits (en_body me) = Some (Ok m) /\ (size <= vl_max_events_bytes limits)%Z /\
    vs_manifest vs1 = Some m /\ verify_events limits m size (en_body ee) vs1 = Some (Ok vs).
Proof.
  destruct entries as [|e1 entries]; cbn [verify_entries]; [by intros [= <-]|].
  destruct (verify_entry limits 0 e1 verify_start) as [[vs1|]|] eqn:E1; [|done..].
  unfold verify_entry in E1. destruct e1 as [me|]; [|done].
  destruct (check_entry limits _ me) as [[n1 s1]|] eqn:C1; [|done]. apply check_entry_ok in C1 as (-> & _ & _ & _ & _ & P1).
  cbn [Z.eqb] in E1. destruct (String.eqb_spec (path_str (en_path me)) "manifest.json") as [En|]; cbn [negb] in E1; [|done].
  destruct (read_manifest limits (en_body me)) as [[m|]|] eqn:Em; [|done..]. injection E1 as <-.
  destruct entries as [|e2 entries]; cbn [verify_entries]; [by intros [= <-]|].
  destruct (verify_entry limits (0 + 1) e2 _) as [[vs2|]|] eqn:E2; [|done..].
  unfold verify_entry in E2. destruct e2 as [ee|]; [|done].
  destruct (check_entry limits _ ee) as [[n2 s2]|] eqn:C2; [|done].
  apply check_entry_ok in C2 as (E & [->| ->] & Hn2 & _ & B2 & P2).
  { cbn in Hn2. rewrite En in Hn2. by destruct Hn2; left. }
  change ((0 + 1 =? 0)%Z) with false in E2. cbn [vs_manifest] in E2. cbn in E2.
  destruct entries as [|e3 entries]; cbn [verify_entries].
  - intros [= <-] _. eexists me, ee, m, s2, _. split_and!; [done | by split | by split | done | done | | exact E2]. done.
  - assert (Hseen : vs_seen_files vs2 = ["events.ndjson"; "manifest.json"]).
    { clear -E2 En. unfold verify_events in E2. destruct (mf_files m !! _); [|done]. destruct (negb _); [done|].
      destruct (events_loop _ _ _ _ _ _) as [[]|]; [|done..]. destruct (check_totals _ _ _ _); [|done].
      injection E2 as <-. cbn. by rewrite En. }
    destruct (verify_entry limits (0 + 1 + 1) e3 vs2) as [[vs3|]|] eqn:E3; [|done..].
    apply verify_entry_third in E3; [done| |]; rewrite Hseen; set_solver.
Qed.

Lemma verify_entries_ok limits entries vs :
  (0 <= vl_max_line_bytes limits)%Z -> (vl_max_events limits <= u64_max)%Z ->
  (forall e, Ok e ∈ entries -> well_delivered e) ->
  verify_entries limits 0 entries verify_start = Some (Ok vs) -> vs_events_verified vs = true ->
  exists me ee m, entries = [Ok me; Ok ee] /\ path_str (en_path me) = "manifest.json" /\
    path_str (en_path ee) = "events.ndjson" /\ vs_manifest vs = Some m /\
    parse_manifest (to_str (concat (pieces (en_body me)))) = Ok m /\ mf_schema_version m = 1%Z /\ sealed m ee vs.
Proof.
  intros Hl Hmax Hwd Hv Hev.
  destruct (verify_entries_two _ _ _ Hv Hev) as (me & ee & m & size & vs1 & -> & [N1 _] & [N2 _] & Hm & _ & Hvm & He).
  apply read_manifest_ok in Hm as (_ & Hparse & Hver).
  apply (verify_events_ok _ _ _ _ _ _ Hl Hmax) in He as (Hm2 & _ & Hs); [|apply Hwd; set_solver].
  exists me, ee, m. by rewrite Hm2.
Qed.
End bundle.

(** [tar] hands out no empty piece before the end of a member. *)
Class ContainerLaws `{Container} : Prop := {
  archive_delivers : forall max source entries tail e,
    open_archive max source = Ok (entries, tail) -> Ok e ∈ entries -> well_delivered e
}.

Section verified.
Context `{Platform} `{BundleSerde} `{!Container} `{!ContainerLaws}.

(** C3: What verification guarantees.  A bundle that verifies is exactly the two
    members in order; the manifest is the parsed first one; every line of the
    second parses to an event that carries its own content hash, the manifest's
    run id (without a colon), its position as sequence number, the id made of
    the two, specversion 1.0, and the first event's source, a URI; the manifest
    counts the events, its size and SHA-256 are those of the file, and its run
    root and bundle id are recomputed from the content hashes; and the reported
    window is the earliest and latest event time. *)
Theorem verify_sound source limits b :
  (0 <= vl_max_line_bytes limits)%Z -> (vl_max_events limits <= u64_max)%Z ->
  verify_bundle_snapshot source limits = Some (Ok b) ->
  let m := vr_manifest (vb_result b) in
  exists me ee events,
    open_archive (vl_max_decode_bytes limits) source = Ok ([Ok me; Ok ee], None) /\
    path_str (en_path me) = "manifest.json" /\ path_str (en_path ee) = "events.ndjson" /\
    parse_manifest (to_str (concat (pieces (en_body me)))) = Ok m /\ mf_schema_version m = 1%Z /\
    BundleOk m (concat (pieces (en_body ee))) events /\
    vr_event_count (vb_result b) = Z.of_nat (length events) /\ vr_computed_run_root (vb_result b) = mf_run_root m /\
    window events (fst (vb_time_window b)) (snd (vb_time_window b)).
Proof.
  intros Hl Hmax. unfold verify_bundle_snapshot.
  destruct (open_archive _ source) as [[entries tail]|] eqn:Eo; [|done].
  destruct (verify_entries limits 0 entries verify_start) as [[vs|]|] eqn:Ev; [|done..].
  destruct (vs_events_verified vs) eqn:Evf; cbn [negb]; [|done]. destruct tail; [done|].
  destruct (verify_entries_ok limits entries vs Hl Hmax (fun e => archive_delivers _ _ _ _ e Eo) Ev Evf)
    as (me & ee & m & -> & Hn1 & Hn2 & -> & Hp & Hv & _ & events & Hb & Hc & Hr & lo & hi & -> & -> & Hw).
  intros [= <-]. cbn. exists me, ee, events. done.
Qed.
End verified.

(** ** Termination *)

Lemma read_line_consumes max pieces end_ n buf line pieces' :
  read_line_bounded max pieces end_ n buf = Ok (line, pieces') ->
  buf ++ concat pieces = line ++ concat pieces'.
Proof.
  revert n buf. induction pieces as [|c pieces IH]; intros n buf; cbn [read_line_bounded concat].
  { destruct end_; [done|]. by intros [= <- <-]. }
  destruct (position is_newline c) as [p|]; (destruct (_ <? _)%Z; [done|]).
  - intros [= <- <-]. assert (E : concat (push_piece (drop (p + 1) c) pieces) = drop (p + 1) c ++ concat pieces).
    { by destruct (drop (p + 1) c). }
    by rewrite E, <- app_assoc, (app_assoc (take _ _)), take_drop.
  - intros Hr%IH. by rewrite take_ge, <- app_assoc in Hr by lia.
Qed.

Section termination.
Context `{Platform} `{BundleSerde} `{Container}.

Lemma validate_some s max : exists r, validate_json_strict_with_depth s max = Some r.
Proof.
  destruct (validate_json_strict_with_depth s max) eqn:E; [eauto|]. by apply validate_returns in E.
Qed.

Lemma check_line_returns limits m st line : check_line limits m st line <> None.
Proof.
  unfold check_line, fail_event. repeat (case_match; try done).
  edestruct validate_some as [r Hr]. rewrite Hr in *. done.
Qed.

Lemma events_loop_returns fuel limits m pieces end_ st :
  length (concat pieces) < fuel -> events_loop fuel limits m pieces end_ st <> None.
Proof.
  revert pieces st. induction fuel as [|fuel IH]; intros pieces st Hf; [lia|]. cbn [events_loop].
  destruct (read_line_bounded _ pieces end_ 0 []) as [[[|c line] pieces']|e] eqn:Er; [done| |done].
  pose proof (check_line_returns limits m st (c :: line)) as Hc.
  destruct (check_line limits m st (c :: line)) as [[st'|]|]; [|done|done].
  apply IH. apply read_line_consumes in Er. cbn [app] in Er. rewrite Er in Hf. cbn in Hf. rewrite length_app in Hf. lia.
Qed.

Lemma verify_returns reader limits : verify_bundle_with_limits reader limits <> None.
Proof.
  unfold verify_bundle_with_limits, verify_bundle_verbose_with_limits, verify_bundle_snapshot.
  destruct (limited _ _ _ _) as [source|]; [|done]. destruct (open_archive _ _) as [[entries tail]|]; [|done].
  assert (He : forall i vs, verify_entries limits i entries vs <> None).
  { induction entries as [|e entries IH]; intros i vs; cbn [verify_entries]; [done|].
    assert (Hv : verify_entry limits i e vs <> None).
    { unfold verify_entry, fail_event. destruct e as [e|]; [|done]. destruct (check_entry _ _ _) as [[name size]|]; [|done].
      destruct (i =? 0)%Z.
      - destruct (negb _); [done|]. unfold read_manifest. destruct (limited _ _ _ _) as [content|]; [|done].
        destruct (from_utf8 content) as [cs|]; [|done].
        destruct (validate_some cs (vl_max_json_depth limits)) as [[|] ->]; [|done].
        destruct (parse_manifest _) as [m|]; [|done]. by destruct (negb _).
      - cbn. destruct (vs_manifest vs) as [m|]; [|done]. destruct (String.eqb name _); [|done].
        unfold verify_events. destruct (mf_files m !! _); [|done]. destruct (negb _); [done|].
        pose proof (events_loop_returns (S (length (concat (pieces (en_body e))))) limits m (pieces (en_body e))
          (failure (en_body e)) events_start ltac:(lia)) as Hl.
        destruct (events_loop _ _ _ _ _ _) as [[|]|]; done. }
    destruct (verify_entry limits i e vs) as [[|]|]; [apply IH | done | done]. }
  specialize (He 0%Z verify_start). destruct (verify_entries _ _ _ _) as [[vs|]|]; [|done|done].
  destruct (if negb _ then _ else _); done.
Qed.

(** The verifier returns on every source, whatever the archive decodes to. *)
Theorem verify_terminates reader limits : verify_bundle_with_limits reader limits <> None.
Proof. apply verify_returns. Qed.
End termination.

(** ** Sealed bundles verify *)

Definition to_bytes (s : string) : bytes := String.list_ascii_of_string s.

Lemma to_str_bytes s : to_str (to_bytes s) = s.
Proof. apply String.string_of_list_ascii_of_string. Qed.
Lemma to_bytes_app a b : to_bytes (a +:+ b) = to_bytes a ++ to_bytes b.
Proof. unfold to_bytes. induction a as [|c a IH]; cbn; [done|]. by rewrite IH. Qed.
Lemma byte_len_bytes s : byte_len (to_bytes s) = str_len s.
Proof. unfold byte_len, str_len, to_bytes. f_equal. induction s; cbn; [done|]. by f_equal. Qed.

(** A member holds a text. *)
Definition holds (e : Entry) (name content : string) : Prop :=
  en_path e = to_bytes name /\ en_header_size e = Ok (str_len content) /\
  concat (pieces (en_body e)) = to_bytes content /\ failure (en_body e) = None /\ well_delivered e.

(** An object on one line. *)
Definition object_text (s : string) : Prop :=
  one_line (to_bytes s) /\ exists mid, s = "{" +:+ mid +:+ "}".

Section roundtrip.
Context `{Platform} `{BundleSerde} `{Container}.

(** Reading an event back may renormalise the numbers of its payload, which
    canonicalisation does not distinguish. *)
Definition same_event (e e' : EvidenceEvent) : Prop :=
  exists p, e' = e <| ev_payload := p |> /\ jcs_to_string (content_hash_input e') = jcs_to_string (content_hash_input e).

(** The JSON codecs: canonical texts are objects on one line and UTF-8, an
    event is read back up to the numbers of its payload, a manifest exactly. *)
Class SerdeLaws : Prop := {
  jcs_event_text : forall e s, jcs_event e = Ok s -> object_text s /\ is_Some (from_utf8 (to_bytes s));
  jcs_event_parses : forall e s, jcs_event e = Ok s -> exists e', parse_event s = Ok e' /\ same_event e e';
  jcs_manifest_text : forall m s, jcs_manifest m = Ok s -> is_Some (from_utf8 (to_bytes s));
  jcs_manifest_parses : forall m s, jcs_manifest m = Ok s -> parse_manifest s = Ok m
}.

Lemma same_event_hash e e' : same_event e e' -> compute_content_hash e' = compute_content_hash e.
Proof. intros (p & -> & E). unfold compute_content_hash, content_id. by rewrite E. Qed.

Lemma line_content_text s : object_text s -> line_content (to_bytes s ++ [newline]) = to_bytes s.
Proof.
  intros [_ (mid & Es)].
  assert (Hl : last (to_bytes s) = Some "}"%char).
  { rewrite Es, !to_bytes_app, app_assoc. change (to_bytes "}") with ["}"%char]. apply last_snoc. }
  unfold line_content, strip_last at 2. rewrite last_snoc, Ascii.eqb_refl, length_app. cbn [length].
  replace (length (to_bytes s) + 1 - 1) with (length (to_bytes s)) by lia. rewrite take_app_length.
  unfold strip_last. by rewrite Hl.
Qed.

Lemma object_not_bom s l : object_text s -> is_bom (to_bytes s ++ l) = false.
Proof. intros [_ (mid & ->)]. unfold is_bom. apply bool_decide_eq_false. intros E. discriminate E. Qed.

(** What sealing leaves of an event. *)
Definition sealed_event (i : Z) (run_id source : string) (e : EvidenceEvent) (h : string) : Prop :=
  ev_seq e = i /\ ev_run_id e = run_id /\ ev_source e = source /\ source_is_uri source = true /\
  contains_char run_id ":" = false /\ ev_content_hash e = Some h /\ compute_content_hash e = Ok h /\
  ev_id e = compute_stream_id run_id i.

Lemma seal_event_ok i run_id source e e' h :
  seal_event i run_id source e = Ok (e', h) ->
  sealed_event i run_id source e' h /\ ev_specversion e' = ev_specversion e.
Proof.
  unfold seal_event, sealed_event, run_id_has_no_colon.
  destruct (Z.eqb_spec (ev_seq e) i) as [<-|]; cbn [negb]; [|done].
  destruct (String.eqb_spec (ev_run_id e) run_id) as [<-|]; cbn [negb]; [|done].
  destruct (String.eqb_spec (ev_source e) source) as [<-|]; cbn [negb]; [|done].
  destruct (source_is_uri (ev_source e)); cbn [negb]; [|done].
  destruct (contains_char (ev_run_id e) ":"); cbn [negb]; [done|].
  destruct (compute_content_hash e) as [hash|] eqn:Ec; [|done].
  destruct (ev_content_hash e) as [existing|] eqn:Ee.
  - destruct (String.eqb_spec existing hash) as [->|]; cbn [negb]; [|done].
    destruct (String.eqb_spec (ev_id e) (compute_stream_id (ev_run_id e) (ev_seq e))); cbn [negb]; [|done].
    by intros [= <- <-].
  - set (e1 := e <| ev_content_hash := Some hash |>).
    assert (F : ev_id e1 = ev_id e /\ ev_seq e1 = ev_seq e /\ ev_run_id e1 = ev_run_id e /\ ev_source e1 = ev_source e /\
      ev_specversion e1 = ev_specversion e /\ ev_content_hash e1 = Some hash /\
      compute_content_hash e1 = compute_content_hash e) by (split_and!; reflexivity).
    destruct F as (-> & -> & -> & F1 & F2 & F3 & F4).
    destruct (String.eqb_spec (ev_id e) (compute_stream_id (ev_run_id e) (ev_seq e))); cbn [negb]; [|done].
    intros [= <- <-]. by rewrite F1, F2, F3, F4.
Qed.

Fixpoint sealed_list (i : Z) (run_id source : string) (evs : list EvidenceEvent) (hs : list string) : Prop :=
  match evs, hs with
  | [], [] => True
  | e :: evs, h :: hs => sealed_event i run_id source e h /\ sealed_list (i + 1) run_id source evs hs
  | _, _ => False
  end.

Lemma seal_events_ok i run_id source evs evs' hs :
  seal_events i run_id source evs = Ok (evs', hs) ->
  sealed_list i run_id source evs' hs /\ map ev_specversion evs' = map ev_specversion evs.
Proof.
  revert i evs' hs. induction evs as [|e evs IH]; intros i evs' hs; cbn [seal_events].
  { by intros [= <- <-]. }
  destruct (seal_event i run_id source e) as [[e1 h1]|] eqn:Es; [|done]. apply seal_event_ok in Es as [Hs Hv].
  destruct (seal_events (i + 1) run_id source evs) as [[evs1 hs1]|] eqn:El; [|done]. apply IH in El as [Hl Hv'].
  intros [= <- <-]. cbn. by rewrite Hv, Hv'.
Qed.

Definition text_line (s : string) : bytes := to_bytes s ++ [newline].

Lemma serialize_ok evs eb :
  serialize_events_ndjson evs = Ok eb ->
  exists ss, Forall2 (fun e s => jcs_event e = Ok s) evs ss /\ to_bytes eb = concat (map text_line ss).
Proof.
  revert eb. induction evs as [|e evs IH]; intros eb; cbn [serialize_events_ndjson].
  { intros [= <-]. by exists []. }
  destruct (jcs_event e) as [s|] eqn:Es; [|done].
  destruct (serialize_events_ndjson evs) as [t|]; [|done]. intros [= <-].
  destruct (IH t eq_refl) as (ss & Hss & Et). exists (s :: ss). split; [by constructor|].
  rewrite to_bytes_app. change (to_bytes (String newline t)) with (newline :: to_bytes t).
  rewrite Et. cbn [map concat]. unfold text_line. by rewrite <- app_assoc.
Qed.

Lemma sort_by_seq_forall (P : EvidenceEvent -> Prop) l : Forall P l -> Forall P (sort_by_seq l).
Proof.
  assert (Hi : forall e k, P e -> Forall P k -> Forall P (insert_by_seq e k)).
  { intros e k He Hk. induction Hk as [|x k Hx Hk IH]; cbn; [by constructor|].
    destruct (seq_leb e x); by repeat constructor. }
  induction 1; cbn; auto.
Qed.

Lemma split_line_one payload rest :
  one_line payload -> split_line (payload ++ newline :: rest) = (payload, Some rest).
Proof. induction 1 as [|c payload Hc _ IH]; cbn; [done|]. by rewrite Hc, IH. Qed.

(** A file of texts with newlines: its lines. *)
Lemma text_lines ss : Forall (fun s => one_line (to_bytes s)) ss -> lines_of (concat (map text_line ss)) (map text_line ss).
Proof.
  induction 1 as [|s ss Hs _ IH]; cbn; [constructor|]. unfold text_line at 1 3.
  rewrite <- app_assoc. cbn. by constructor.
Qed.

(** What an event line must satisfy to be within the limits. *)
Definition line_fits (limits : VerifyLimits) (line : bytes) : Prop :=
  (byte_len (line_content line) <= vl_max_line_bytes limits)%Z /\
  forall cs, from_utf8 (line_content line) = Some cs ->
    validate_json_strict_with_depth cs (vl_max_json_depth limits) = Some (Ok ()).

Context `{!SerdeLaws}.

Lemma sealed_passes m st run_id source lines events e e' h :
  Pass m lines events st -> sealed_event (Z.of_nat (length events)) run_id source e h ->
  ev_specversion e = "1.0" -> same_event e e' -> mf_run_id m = run_id ->
  (forall f, head events = Some f -> ev_source f = source) -> (Z.of_nat (length events) <= u64_max)%Z ->
  event_passes m st e' h.
Proof.
  intros Hp (Es & Er & Eo & Eu & Ec & Eh & Ecc & Ei) Ev Hs Hm Hf Hmax.
  pose proof (same_event_hash _ _ Hs) as Eh'. destruct Hs as (p & -> & _).
  unfold event_passes. rewrite Eh'. cbn. rewrite Er, Eo, Es.
  split_and!; try done.
  - rewrite (pa_seq _ _ _ _ Hp). destruct events as [|f events]; [done|]. rewrite u64_succ_small; cbn [length] in *; lia.
  - intros f Hfirst. rewrite (pa_first _ _ _ _ Hp) in Hfirst. split; [|by rewrite (Hf f Hfirst)].
    destruct events as [|g events]; [done|]. injection Hfirst as ->.
    pose proof (pa_events _ _ _ _ Hp f 0 f eq_refl eq_refl) as Hok. by rewrite (eo_run_id _ _ _ _ Hok).
Qed.

Lemma events_loop_complete limits m run_id source evs : forall fuel pieces lines events st hs ss,
  Forall (fun c => c <> []) pieces -> length (concat pieces) < fuel ->
  concat pieces = concat (map text_line ss) -> Forall2 (fun e s => jcs_event e = Ok s) evs ss ->
  sealed_list (Z.of_nat (length events)) run_id source evs hs -> Forall (fun e => ev_specversion e = "1.0") evs ->
  mf_run_id m = run_id -> (0 <= vl_max_line_bytes limits)%Z -> (vl_max_events limits <= u64_max)%Z ->
  (Z.of_nat (length lines + length ss) <= vl_max_events limits)%Z -> Forall (line_fits limits) (map text_line ss) ->
  (forall f, head events = Some f -> ev_source f = source) -> Pass m lines events st ->
  exists events' st', events_loop fuel limits m pieces None st = Some (Ok st') /\
    Pass m (lines ++ map text_line ss) (events ++ events') st' /\ omap ev_content_hash events' = hs /\
    length events' = length evs.
Proof.
  induction evs as [|e evs IH]; intros fuel pieces lines events st hs ss Hne Hfuel Hcat Hjcs Hseal Hspec Hm Hl Hu Hcount Hfit Hsrc Hp;
    (destruct fuel as [|fuel]; [lia|]); cbn [events_loop];
    pose proof (read_line_bounded_first (vl_max_line_bytes limits) pieces None Hne Hl) as Hr.
  - inversion Hjcs; subst. destruct hs; [|done].
    assert (Hrl : read_line (vl_max_line_bytes limits) (concat pieces) None = Ok ([], [])).
    { rewrite Hcat. unfold read_line. cbn. destruct (Z.ltb_spec (vl_max_line_bytes limits) (byte_len [])) as [Hlt|]; [|done].
      unfold byte_len in Hlt. cbn in Hlt. lia. }
    rewrite Hrl in Hr. destruct (read_line_bounded _ pieces None 0 []) as [[line pieces']|er]; [|done].
    destruct Hr as [[= <- _] _]. exists [], st. by rewrite !app_nil_r.
  - inversion Hjcs as [|? s ? ss' Hj Hjcs']; subst. destruct hs as [|h hs]; [done|]. destruct Hseal as [Hse Hseal].
    inversion Hspec as [|? ? Hv Hspec']; subst. inversion Hfit as [|? ? [Hfl Hfv] Hfit']; subst.
    destruct (jcs_event_text e s Hj) as [Hobj [cs Hcs]]. destruct (jcs_event_parses e s Hj) as (e' & Hparse & Hsame).
    change (text_line s) with (to_bytes s ++ [newline]) in Hfl, Hfv.
    rewrite line_content_text in Hfl, Hfv by done.
    assert (Hrl : read_line (vl_max_line_bytes limits) (concat pieces) None =
      Ok (to_bytes s ++ [newline], concat (map text_line ss'))).
    { rewrite Hcat. unfold read_line. cbn [map concat]. unfold text_line at 1. rewrite <- app_assoc. cbn [app].
      rewrite split_line_one by apply Hobj.
      destruct (Z.ltb_spec (vl_max_line_bytes limits) (byte_len (to_bytes s))); [lia | done]. }
    rewrite Hrl in Hr. destruct (read_line_bounded _ pieces None 0 []) as [[line pieces']|er] eqn:Erl; [|done].
    destruct Hr as [[= <- Ep] Hne']. assert (Hnil : to_bytes s ++ [newline] <> []) by by destruct (to_bytes s).
    destruct (to_bytes s ++ [newline]) as [|c line] eqn:Eline; [done|].
    pose proof (Forall2_length _ _ _ Hjcs') as Hlen. cbn [length] in Hcount.
    pose proof (Forall2_length _ _ _ (pa_parses _ _ _ _ Hp)) as Hlp.
    assert (Hep : event_passes m st e' h).
    { eapply sealed_passes; try done. lia. }
    assert (Hlc : line_parses (c :: line) e').
    { unfold line_parses. rewrite <- Eline, line_content_text, to_str_bytes by done. done. }
    assert (Hck : check_line limits m st (c :: line) = Some (Ok (step_state st (c :: line) e' h))).
    { apply check_line_ok. split_and!.
      - rewrite <- Eline, object_not_bom by done. apply andb_false_r.
      - rewrite (pa_lines _ _ _ _ Hp). lia.
      - unfold line_readable. rewrite <- Eline, line_content_text by done. split; [|eauto].
        destruct Hobj as [_ (mid & ->)]. done.
      - eauto 6. }
    rewrite Hck.
    pose proof (pass_step _ _ _ _ _ _ _ Hp Hlc Hep ltac:(lia)) as Hp'.
    apply read_line_consumes in Erl. cbn [app] in Erl.
    destruct (IH fuel pieces' (lines ++ [c :: line]) (events ++ [e']) (step_state st (c :: line) e' h) hs ss')
      as (events' & st' & Hloop & Hpass & Hhs & Hle); try done.
    + rewrite Erl in Hfuel. cbn in Hfuel. rewrite length_app in Hfuel. lia.
    + rewrite length_app. cbn. by replace (Z.of_nat (length events + 1)) with (Z.of_nat (length events) + 1)%Z by lia.
    + rewrite length_app. cbn. lia.
    + intros f. rewrite head_app_some. destruct (head events) as [g|]; [apply Hsrc|]. cbn. intros [= <-].
      destruct Hsame as (p & -> & _). by destruct Hse as (_ & _ & ? & _).
    + exists (e' :: events'), st'. split_and!; [done | | | by cbn; f_equal].
      * rewrite <- !app_assoc in Hpass. cbn [app map] in *. unfold text_line at 1. by rewrite Eline.
      * cbn. destruct Hep as (_ & -> & _). by rewrite Hhs.
Qed.

(** The texts of a bundle are within the limits. *)
Record Fits (limits : VerifyLimits) (m : Manifest) (mb eb : string) : Prop := {
  fi_path : (13 <= vl_max_path_len limits)%Z;
  fi_manifest : (str_len mb <= vl_max_manifest_bytes limits)%Z;
  fi_events : (str_len eb <= vl_max_events_bytes limits)%Z;
  fi_count : (mf_event_count m <= vl_max_events limits <= u64_max)%Z;
  fi_line : (0 <= vl_max_line_bytes limits)%Z;
  fi_lines : forall ls, lines_of (to_bytes eb) ls -> Forall (line_fits limits) ls;
  fi_depth : forall cs, from_utf8 (to_bytes mb) = Some cs ->
    validate_json_strict_with_depth cs (vl_max_json_depth limits) = Some (Ok ())
}.

(** What [finish] wrote. *)
Lemma finish_ok evs producer m mb eb :
  finish evs producer = Ok (m, [("manifest.json", mb); ("events.ndjson", eb)]) ->
  exists first rest evs' hs, sort_by_seq evs = first :: rest /\
    sealed_list 0 (ev_run_id first) (ev_source first) evs' hs /\
    map ev_specversion evs' = map ev_specversion (first :: rest) /\
    serialize_events_ndjson evs' = Ok eb /\ jcs_manifest m = Ok mb /\
    mf_schema_version m = 1%Z /\ mf_run_id m = ev_run_id first /\ mf_event_count m = Z.of_nat (length evs') /\
    mf_run_root m = compute_run_root hs /\ mf_bundle_id m = mf_run_root m /\
    mf_files m !! "events.ndjson" = Some (mkFileMeta "events.ndjson" (sha256_prefixed eb) (str_len eb)).
Proof.
  unfold finish. destruct (sort_by_seq evs) as [|first rest]; [done|].
  destruct (seal_events 0 (ev_run_id first) (ev_source first) (first :: rest)) as [[evs' hs]|] eqn:Es; [|done].
  apply seal_events_ok in Es as [Hs Hv]. destruct (serialize_events_ndjson evs') as [eb'|] eqn:Eb; [|done].
  match goal with |- context [jcs_manifest ?x] => destruct (jcs_manifest x) as [mb'|] eqn:Ej; [|done] end.
  intros [= <- <- <-]. by exists first, rest, evs', hs.
Qed.

Lemma normalize_prefixed s : normalize_hash (sha256_prefixed s) = sha256_prefixed s.
Proof. reflexivity. Qed.

Lemma check_entry_member limits seen e name content :
  holds e name content -> name ∈ ALLOWED_FILES -> name ∉ seen -> (13 <= vl_max_path_len limits)%Z ->
  (str_len content <= if String.eqb name "manifest.json" then vl_max_manifest_bytes limits else vl_max_events_bytes limits)%Z ->
  check_entry limits seen e = Ok (name, str_len content).
Proof.
  intros (Hp & Hh & _) Ha Hs Hlen Hsize. unfold check_entry. rewrite Hp, Hh.
  assert (Hn : existsb (String.eqb name) seen = false).
  { apply existsb_false. intros x Hx. apply String.eqb_neq. by intros ->. }
  assert (Hc : (byte_len (to_bytes name) <= 13)%Z /\ path_str (to_bytes name) = name /\
    forallb component_allowed (path_components (to_str (to_bytes name))) = true /\
    existsb (String.eqb name) ALLOWED_FILES = true).
  { unfold ALLOWED_FILES in Ha. apply elem_of_cons in Ha as [->|Ha%list_elem_of_singleton]; [|subst name];
      split_and!; by vm_compute. }
  destruct Hc as (Hc & -> & -> & ->). unfold check_entry_path_len.
  destruct (Z.ltb_spec (vl_max_path_len limits) (byte_len (to_bytes name))); [lia|].
  destruct (Z.ltb_spec (if String.eqb name "manifest.json" then vl_max_manifest_bytes limits else vl_max_events_bytes limits)
    (str_len content)); [lia|]. cbn [negb]. by rewrite Hn.
Qed.

Lemma read_manifest_complete limits m mb me :
  holds me "manifest.json" mb -> jcs_manifest m = Ok mb -> mf_schema_version m = 1%Z ->
  (str_len mb <= vl_max_manifest_bytes limits)%Z ->
  (forall cs, from_utf8 (to_bytes mb) = Some cs ->
     validate_json_strict_with_depth cs (vl_max_json_depth limits) = Some (Ok ())) ->
  read_manifest limits (en_body me) = Some (Ok m).
Proof.
  intros (_ & _ & Cm & Dm & _) Hj M1 Hm Hd. unfold read_manifest, limited. rewrite Cm, Dm, byte_len_bytes.
  destruct (Z.leb_spec (str_len mb) (vl_max_manifest_bytes limits)); [|lia].
  destruct (jcs_manifest_text m mb Hj) as [cs Hcs].
  by rewrite Hcs, (Hd cs Hcs), to_str_bytes, (jcs_manifest_parses m mb Hj), M1.
Qed.

(** The pass over a sealed file: the state it ends in. *)
Lemma verify_events_complete limits m run_id source evs hs eb ee vs :
  holds ee "events.ndjson" eb -> sealed_list 0 run_id source evs hs ->
  Forall (fun e => ev_specversion e = "1.0") evs -> evs <> [] -> serialize_events_ndjson evs = Ok eb ->
  mf_run_id m = run_id -> mf_event_count m = Z.of_nat (length evs) -> mf_run_root m = compute_run_root hs ->
  mf_bundle_id m = mf_run_root m ->
  mf_files m !! "events.ndjson" = Some (mkFileMeta "events.ndjson" (sha256_prefixed eb) (str_len eb)) ->
  (mf_event_count m <= vl_max_events limits <= u64_max)%Z -> (0 <= vl_max_line_bytes limits)%Z ->
  (forall ls, lines_of (to_bytes eb) ls -> Forall (line_fits limits) ls) ->
  exists lo hi, verify_events limits m (str_len eb) (en_body ee) vs =
    Some (Ok (mkVerifyState (vs_manifest vs) true (vs_seen_files vs) (mf_run_root m) (mf_event_count m) (Some lo) (Some hi))).
Proof.
  intros (_ & _ & Ce & De & We) Hseal Hspec Hne Hser M2 M3 M4 M5 M6 Fc Fl Fls.
  destruct (serialize_ok _ _ Hser) as (ss & Hss & Eb). pose proof (Forall2_length _ _ _ Hss) as Hlen.
  assert (Hone : Forall (fun s => one_line (to_bytes s)) ss).
  { clear -Hss H2. induction Hss as [|e s evs ss Hj _ IH]; constructor; [|done]. apply (jcs_event_text e s Hj). }
  assert (Hfit : Forall (line_fits limits) (map text_line ss)) by (apply Fls; rewrite Eb; by apply text_lines).
  destruct (events_loop_complete limits m run_id source evs
    (S (length (concat (pieces (en_body ee))))) (pieces (en_body ee)) [] [] events_start hs ss)
    as (events' & st & Hloop & Hpass & Hhs & Hle); try done.
  { lia. }
  { by rewrite Ce. }
  { lia. }
  { cbn [length Nat.add]. lia. }
  cbn [app] in Hpass. destruct Hpass as [P1 P2 _ P4 _ P6 _ _ P9 _].
  assert (Hh : hashed st = to_bytes eb) by by rewrite P1, Eb.
  assert (Ht : check_totals m (mkFileMeta "events.ndjson" (sha256_prefixed eb) (str_len eb)) st
    (compute_run_root (content_hashes st)) = Ok ()).
  { apply check_totals_ok. cbn [fm_bytes fm_sha256]. rewrite P2, Hh, to_str_bytes, byte_len_bytes, P4, P6, Hhs, M5, M4, M3, Hle.
    split_and!; try done. destruct evs; [done | cbn [length]; lia]. }
  unfold verify_events. rewrite M6. cbn [fm_bytes]. rewrite Z.eqb_refl. cbn [negb]. rewrite De, Hloop, Ht, P4, P6, Hhs, Hle, M3, M4.
  destruct (time_lo st) as [lo|], (time_hi st) as [hi|]; [eauto|done|done|].
  rewrite P9 in Hle. by destruct evs.
Qed.

(** C13: Every bundle the writer seals verifies, and verification returns the
    manifest the writer made: when [finish] succeeds on events of specversion
    1.0 and the texts fit the limits, the verifier accepts the archive that
    holds the two members, however it delivers their bytes. *)
Theorem sealed_bundle_verifies evs producer m mb eb source limits me ee :
  finish evs producer = Ok (m, [("manifest.json", mb); ("events.ndjson", eb)]) ->
  Forall (fun e => ev_specversion e = "1.0") evs -> Fits limits m mb eb ->
  holds me "manifest.json" mb -> holds ee "events.ndjson" eb ->
  open_archive (vl_max_decode_bytes limits) source = Ok ([Ok me; Ok ee], None) ->
  exists w, verify_bundle_snapshot source limits =
    Some (Ok (mkVerifiedBundle (mkVerifyResult m (mf_event_count m) (mf_run_root m)) w)).
Proof.
  intros Hfin Hspec [Fp Fm Fe Fc Fl Fls Fd] Hme Hee Ho.
  destruct (finish_ok _ _ _ _ _ Hfin) as (first & rest & evs' & hs & Hsort & Hseal & Hv & Hser & Hj & M1 & M2 & M3 & M4 & M5 & M6).
  pose proof (sort_by_seq_forall _ _ Hspec) as Hspec'. rewrite Hsort in Hspec'.
  assert (Hspec2 : Forall (fun e => ev_specversion e = "1.0") evs').
  { apply (Forall_map ev_specversion (fun v => v = "1.0")). rewrite Hv. by apply Forall_map. }
  assert (Hne : evs' <> []) by by intros ->.
  set (vs1 := mkVerifyState (Some m) false ["events.ndjson"; "manifest.json"] "" 0 None None).
  destruct (verify_events_complete limits m _ _ _ _ _ _ vs1 Hee Hseal Hspec2 Hne Hser M2 M3 M4 M5 M6 Fc Fl Fls)
    as (lo & hi & Hev). exists (lo, hi).
  unfold verify_bundle_snapshot. rewrite Ho. cbn [verify_entries]. unfold verify_entry.
  rewrite (check_entry_member limits _ me "manifest.json" mb Hme) by (done || set_solver). cbn [Z.eqb].
  rewrite String.eqb_refl. cbn [negb]. rewrite (read_manifest_complete limits m mb me Hme Hj M1 Fm Fd).
  rewrite (check_entry_member limits _ ee "events.ndjson" eb Hee) by (done || (cbn; set_solver)).
  change ((0 + 1 =? 0)%Z) with false.
  cbn -[verify_events mf_run_root mf_event_count].
  match goal with |- context [verify_events _ _ _ _ ?v] => change v with vs1 end. by rewrite Hev.
Qed.

Lemma lines_fun b ls ls' : lines_of b ls -> lines_of b ls' -> ls = ls'.
Proof.
  intros Hl. revert ls'. induction Hl as [|payload rest ls Hp Hl IH|payload Hp Hne]; intros ls' Hl'.
  - inversion Hl' as [|p r l ? ? E|]; [done | by destruct p | done].
  - inversion Hl' as [E|p r l Hp' Hr' E|p Hp' Hne']; subst.
    + by destruct payload.
    + pose proof (split_line_one p r Hp') as E1. rewrite E, split_line_one in E1 by done. injection E1 as -> ->.
      by rewrite (IH l Hr').
    + apply Forall_app in Hp' as [_ Hn]. by inversion Hn.
  - inversion Hl' as [E|p r l Hp' Hr' E|]; subst; [done | | done].
    apply Forall_app in Hp as [_ Hn]. by inversion Hn.
Qed.

Lemma sort_by_seq_forall_inv (P : EvidenceEvent -> Prop) l : Forall P (sort_by_seq l) -> Forall P l.
Proof.
  assert (Hi : forall e k, Forall P (insert_by_seq e k) -> P e /\ Forall P k).
  { intros e k. induction k as [|x k IH]; cbn; [by inversion 1|].
    destruct (seq_leb e x); inversion 1; subst; [done|]. split; [by apply IH|]. constructor; [done|]. by apply IH. }
  induction l as [|e l IH]; cbn; [done|]. intros [He Hl]%Hi. constructor; auto.
Qed.

(** The writer does not check the specversion the verifier demands: a bundle
    it seals with an event of another specversion never verifies. *)
Theorem sealed_specversion_refused evs producer m mb eb source limits me ee b :
  finish evs producer = Ok (m, [("manifest.json", mb); ("events.ndjson", eb)]) ->
  Exists (fun e => ev_specversion e <> "1.0") evs ->
  (0 <= vl_max_line_bytes limits)%Z -> (vl_max_events limits <= u64_max)%Z ->
  holds me "manifest.json" mb -> holds ee "events.ndjson" eb ->
  open_archive (vl_max_decode_bytes limits) source = Ok ([Ok me; Ok ee], None) ->
  verify_bundle_snapshot source limits <> Some (Ok b).
Proof.
  intros Hfin Hex Hl Hu Hme Hee Ho Hver.
  destruct (finish_ok _ _ _ _ _ Hfin) as (first & rest & evs' & hs & Hsort & _ & Hv & Hser & Hj & _).
  destruct (serialize_ok _ _ Hser) as (ss & Hss & Eb).
  unfold verify_bundle_snapshot in Hver. rewrite Ho in Hver.
  destruct (verify_entries limits 0 [Ok me; Ok ee] verify_start) as [[vs|]|] eqn:Ev; [|done..].
  destruct (vs_events_verified vs) eqn:Evf; cbn [negb] in Hver; [|done]. clear Hver.
  assert (Hwd : forall e, Ok e ∈ [Ok me; Ok ee : Result Entry IoError] -> well_delivered e).
  { destruct Hme as (_ & _ & _ & _ & Wm), Hee as (_ & _ & _ & _ & We).
    intros e [[= ->]|[= ->]%list_elem_of_singleton]%elem_of_cons; done. }
  destruct (verify_entries_ok limits _ vs Hl Hu Hwd Ev Evf)
    as (me' & ee' & m' & [= <- <-] & _ & _ & _ & _ & _ & _ & events & [(f & _ & Hok) (ls & Hls & Hpa) _ _ _ _] & _).
  destruct Hee as (_ & _ & Ce & _). rewrite Ce in Hls.
  assert (Hone : Forall (fun s => one_line (to_bytes s)) ss).
  { clear -Hss H2. induction Hss as [|e s evs ss Hj _ IH]; constructor; [|done]. apply (jcs_event_text e s Hj). }
  rewrite Eb in Hls. pose proof (lines_fun _ _ _ Hls (text_lines ss Hone)) as ->.
  assert (Hall : Forall (fun e => ev_specversion e = "1.0") evs').
  { apply Forall_lookup. intros j e He. destruct (Forall2_lookup_l _ _ _ _ _ Hss He) as (s & Hs & Hjs).
    destruct (jcs_event_parses e s Hjs) as (e' & Hp & (p & -> & _)).
    assert (Hline : map text_line ss !! j = Some (text_line s)) by by rewrite list_lookup_fmap, Hs.
    destruct (Forall2_lookup_l _ _ _ _ _ Hpa Hline) as (e2 & He2 & Hp2). unfold line_parses, text_line in Hp2.
    destruct (jcs_event_text e s Hjs) as [Hobj _]. rewrite line_content_text, to_str_bytes, Hp in Hp2 by done.
    injection Hp2 as <-. exact (eo_specversion _ _ _ _ (Hok j _ He2)). }
  apply (Exists_not_Forall (fun e => ev_specversion e = "1.0")) in Hex. apply Hex.
  apply sort_by_seq_forall_inv. rewrite Hsort.
  apply (Forall_map ev_specversion (fun v => v = "1.0")). rewrite <- Hv. by apply Forall_map.
Qed.
End roundtrip.
