(* ===== verification/BundleReader.v ===== *)
(** * Evidence bundles: reading

    [assay-evidence/src/bundle/reader.rs] opens a bundle, with or without
    verification, and peeks at its manifest; [read_events_bounded] of
    [bundle/writer.rs] streams the events under the limits; [ndjson.rs] reads
    and writes the events themselves. *)
From stdpp Require Import base tactics list strings gmap.
From Stdlib Require Import ZArith Lia Ascii.
From S2P Require Import Prelude RustStr Json Platform StrictJson StrictJsonCorrect BoundedIo Bundle BundleCorrect.

(** ** [String::from_utf8_lossy]

    Every maximal prefix of a character that is not completed becomes one
    replacement character. *)
Definition replacement : bytes := ["239"; "191"; "189"]%char.
Definition cont (a : ascii) : bool := between 0x80 0xBF a.

Fixpoint lossy (l : bytes) : bytes :=
  match l with
  | [] => []
  | a :: r =>
      if between 0 0x7F a then a :: lossy r
      else if between 0xC2 0xDF a then
        match r with
        | b :: r1 => if cont b then a :: b :: lossy r1 else replacement ++ lossy r
        | [] => replacement
        end
      else if between 0xE0 0xEF a then
        let lo := if (byte_val a =? 0xE0)%Z then 0xA0%Z else 0x80%Z in
        let hi := if (byte_val a =? 0xED)%Z then 0x9F%Z else 0xBF%Z in
        match r with
        | b :: r1 =>
            if between lo hi b then
              match r1 with
              | c :: r2 => if cont c then a :: b :: c :: lossy r2 else replacement ++ lossy r1
              | [] => replacement
              end
            else replacement ++ lossy r
        | [] => replacement
        end
      else if between 0xF0 0xF4 a then
        let lo := if (byte_val a =? 0xF0)%Z then 0x90%Z else 0x80%Z in
        let hi := if (byte_val a =? 0xF4)%Z then 0x8F%Z else 0xBF%Z in
        match r with
        | b :: r1 =>
            if between lo hi b then
              match r1 with
              | c :: r2 =>
                  if cont c then
                    match r2 with
                    | d :: r3 => if cont d then a :: b :: c :: d :: lossy r3 else replacement ++ lossy r2
                    | [] => replacement
                    end
                  else replacement ++ lossy r1
              | [] => replacement
              end
            else replacement ++ lossy r
        | [] => replacement
        end
      else replacement ++ lossy r
  end.

(** [entry.path()?.to_string_lossy().to_string()] *)
Definition lossy_path (entry : Entry) : string := to_str (lossy (en_path entry)).

(** ** Errors

    An [anyhow::Error]: its contexts, the outermost first, and its cause. *)
Inductive Cause : Type :=
| VerifyCause (e : VerifyError)
| IoCause (e : IoError)
| JsonCause (message : string)
| MessageCause (message : string).

Record ReadError : Type := mkReadError { re_context : list string; re_cause : Cause }.
Definition in_context (context : string) (e : ReadError) : ReadError :=
  mkReadError (context :: re_context e) (re_cause e).
Definition bare (c : Cause) : ReadError := mkReadError [] c.

Definition classify_reader_io (e : IoError) : ReadError :=
  match classify_limit e with
  | Some code => bare (VerifyCause ((from_io_error e) <| ve_code := code |> <| ve_class := Limits |>))
  | None => bare (IoCause e)
  end.

Definition classify_strict_json (e : StrictJsonError) (what : string) (max_depth : Z) : ReadError :=
  bare (VerifyCause (strict_json_error e what max_depth)).

(** [read_to_string] on bytes that are not UTF-8. *)
Definition invalid_utf8 : IoError := mkIoError None false "stream did not contain valid UTF-8".

(** ** [read_events_bounded] *)

Record BoundedState : Type := mkBoundedState { bs_out : bytes; bs_count : Z }.

Definition bounded_line (limits : VerifyLimits) (line : bytes) (st : BoundedState)
    : option (Result BoundedState ReadError) :=
  let payload := strip_last newline line in
  if is_nil payload then Some (Ok (mkBoundedState (bs_out st ++ line) (bs_count st)))
  else
    let count := (bs_count st + 1)%Z in
    if (vl_max_events limits <? count)%Z then
      Some (Err (bare (VerifyCause (mkVerifyError Limits LimitTotalEvents
        ("Event count exceeds the configured maximum of " +:+ fmt_int (vl_max_events limits))))))
    else
      match from_utf8 payload with
      | None => Some (Err (bare (VerifyCause (mkVerifyError Contract ContractInvalidJson "Event is not valid UTF-8"))))
      | Some text =>
          match validate_json_strict_with_depth text (vl_max_json_depth limits) with
          | None => None
          | Some (Err e) => Some (Err (classify_strict_json e "Event" (vl_max_json_depth limits)))
          | Some (Ok _) => Some (Ok (mkBoundedState (bs_out st ++ line) count))
          end
      end.

(** Every line has a byte, so the bytes are fuel. *)
Fixpoint bounded_loop (fuel : nat) (limits : VerifyLimits) (pieces : list bytes) (end_ : option IoError)
    (st : BoundedState) : option (Result bytes ReadError) :=
  match fuel with
  | O => None
  | S fuel =>
      match read_line_bounded (vl_max_line_bytes limits) pieces end_ 0 [] with
      | Err e => Some (Err (classify_reader_io e))
      | Ok ([], _) => Some (Ok (bs_out st))
      | Ok (line, pieces) =>
          match bounded_line limits line st with
          | None => None
          | Some (Err e) => Some (Err e)
          | Some (Ok st) => bounded_loop fuel limits pieces end_ st
          end
      end
  end.

Definition read_events_bounded (reader : Source) (limits : VerifyLimits) : option (Result bytes ReadError) :=
  bounded_loop (S (length (concat (pieces reader)))) limits (pieces reader) (failure reader) (mkBoundedState [] 0).

(** ** Opening *)

Inductive Verify : Type := Yes | No.
Record BundleInfo : Type := mkBundleInfo { bi_manifest : Manifest }.
Record BundleReader : Type := mkBundleReader { br_manifest : Manifest; br_events_content : bytes }.

Section reader.
Context `{Platform} `{BundleSerde} `{Container}.

(** The member [manifest.json] of a bundle that is not verified. *)
Definition peek_manifest (limits : VerifyLimits) (entry : Entry) : option (Result BundleInfo ReadError) :=
  let body := en_body entry in
  match limited (vl_max_manifest_bytes limits) MemberBytes (concat (pieces body)) (failure body) with
  | Err e => Some (Err (in_context "Failed to read manifest.json" (classify_reader_io e)))
  | Ok content =>
      match from_utf8 content with
      | None => Some (Err (in_context "Failed to read manifest.json" (classify_reader_io invalid_utf8)))
      | Some text =>
          match validate_json_strict_with_depth text (vl_max_json_depth limits) with
          | None => None
          | Some (Err e) => Some (Err (classify_strict_json e "Manifest" (vl_max_json_depth limits)))
          | Some (Ok _) =>
              Some match parse_manifest (to_str content) with
                   | Err e => Err (in_context "Failed to parse manifest.json" (bare (JsonCause e)))
                   | Ok m => Ok (mkBundleInfo m)
                   end
          end
      end
  end.

Fixpoint peek_entries (limits : VerifyLimits) (entries : list (Result Entry IoError)) : option (Result BundleInfo ReadError) :=
  match entries with
  | [] => Some (Err (bare (MessageCause "Bundle missing manifest.json")))
  | Err e :: _ => Some (Err (classify_reader_io e))
  | Ok entry :: rest =>
      match check_entry_path_len (byte_len (en_path entry)) (vl_max_path_len limits) with
      | Err e => Some (Err (bare (VerifyCause e)))
      | Ok _ =>
          if String.eqb (lossy_path entry) "manifest.json" then peek_manifest limits entry
          else peek_entries limits rest
      end
  end.

Definition peek_with_limits (reader : Source) (limits : VerifyLimits) : option (Result BundleInfo ReadError) :=
  match limited (vl_max_bundle_bytes limits) SourceBytes (concat (pieces reader)) (failure reader) with
  | Err e => Some (Err (in_context "Bundle source" (classify_reader_io e)))
  | Ok source =>
      match open_archive (vl_max_decode_bytes limits) source with
      | Err e => Some (Err (classify_reader_io e))
      | Ok (entries, _) => peek_entries limits entries
      end
  end.
Definition peek (reader : Source) : option (Result BundleInfo ReadError) := peek_with_limits reader limits_default.

(** The second pass: the content of [events.ndjson]. *)
Fixpoint extract_events (limits : VerifyLimits) (entries : list (Result Entry IoError)) : option (Result bytes ReadError) :=
  match entries with
  | [] => Some (Err (bare (VerifyCause (mkVerifyError Contract ContractMissingFile "events.ndjson missing from bundle"))))
  | Err e :: _ => Some (Err (classify_reader_io e))
  | Ok entry :: rest =>
      match check_entry_path_len (byte_len (en_path entry)) (vl_max_path_len limits) with
      | Err e => Some (Err (bare (VerifyCause e)))
      | Ok _ =>
          if String.eqb (lossy_path entry) "events.ndjson" then
            read_events_bounded (limit_source (vl_max_events_bytes limits) MemberBytes (en_body entry)) limits
          else extract_events limits rest
      end
  end.

(** A [Cursor] over the bytes. *)
Definition cursor (buffer : bytes) : Source := mkSource (one_piece buffer) None.

Definition open_internal (reader : Source) (verify : Verify) (limits : VerifyLimits) : option (Result BundleReader ReadError) :=
  match limited (vl_max_bundle_bytes limits) SourceBytes (concat (pieces reader)) (failure reader) with
  | Err e => Some (Err (classify_reader_io e))
  | Ok buffer =>
      let manifest :=
        match verify with
        | Yes =>
            match verify_bundle_with_limits (cursor buffer) limits with
            | None => None
            | Some (Err e) => Some (Err (in_context "Bundle verification failed" (bare (VerifyCause e))))
            | Some (Ok v) => Some (Ok (vr_manifest v))
            end
        | No =>
            match peek_with_limits (cursor buffer) limits with
            | None => None
            | Some (Err e) => Some (Err (in_context "Failed to peek bundle manifest" e))
            | Some (Ok i) => Some (Ok (bi_manifest i))
            end
        end in
      match manifest with
      | None => None
      | Some (Err e) => Some (Err e)
      | Some (Ok manifest) =>
          match open_archive (vl_max_decode_bytes limits) buffer with
          | Err e => Some (Err (classify_reader_io e))
          | Ok (entries, _) =>
              match extract_events limits entries with
              | None => None
              | Some (Err e) => Some (Err e)
              | Some (Ok content) => Some (Ok (mkBundleReader manifest content))
              end
          end
      end
  end.

Definition open_with_limits (reader : Source) (limits : VerifyLimits) := open_internal reader Yes limits.
Definition open (reader : Source) := open_internal reader Yes limits_default.
Definition open_unverified_with_limits (reader : Source) (limits : VerifyLimits) := open_internal reader No limits.
Definition open_unverified (reader : Source) := open_internal reader No limits_default.
End reader.

(** ** [ndjson.rs] *)

Definition truncate_line (s : string) (max_len : nat) : Outcome string :=
  if String.length s <=? max_len then Done s
  else p ← slice_to s max_len; mret (p +:+ "...").

Inductive NdjsonError : Type :=
| StrictInvalid (line : Z) (e : StrictJsonError)
| EventInvalid (line : Z) (shown cause : string)
| LineIo (line : Z) (e : IoError).

(** What is left of the reader, how it ends, and the lines read. *)
Record NdjsonEvents : Type := mkNdjson { nd_rest : bytes; nd_end : option IoError; nd_line_number : Z }.
Definition ndjson_new (data : bytes) (end_ : option IoError) : NdjsonEvents := mkNdjson data end_ 0.

(** [BufRead::read_line]: the line with its newline, empty at the end, and what
    is left. *)
Definition read_utf8_line (data : bytes) (end_ : option IoError) : Result bytes IoError * bytes :=
  let utf8 line := match from_utf8 line with Some _ => Ok line | None => Err invalid_utf8 end in
  match split_line data with
  | (payload, Some rest) => (utf8 (payload ++ [newline]), rest)
  | (payload, None) => (match end_ with Some e => Err e | None => utf8 payload end, [])
  end.

Section ndjson.
Context `{Platform} `{BundleSerde}.

(** The characters of a [str], which is UTF-8. *)
Definition text_of (line : string) : text := default [] (from_utf8 (to_bytes line)).

Definition parse_line (n : Z) (line : string) : option (Outcome (Result EvidenceEvent NdjsonError)) :=
  match validate_json_strict (text_of line) with
  | None => None
  | Some (Err e) => Some (Done (Err (StrictInvalid n e)))
  | Some (Ok _) =>
      Some match parse_event line with
           | Ok event => Done (Ok event)
           | Err cause => shown ← truncate_line line 50; mret (Err (EventInvalid n shown cause))
           end
  end.

(** [Iterator::next]; blank lines are skipped. *)
Fixpoint next (fuel : nat) (s : NdjsonEvents) : option (Outcome (option (Result EvidenceEvent NdjsonError)) * NdjsonEvents) :=
  match fuel with
  | O => None
  | S fuel =>
      match read_utf8_line (nd_rest s) (nd_end s) with
      | (Ok [], rest) => Some (Done None, mkNdjson rest (nd_end s) (nd_line_number s))
      | (Ok line_buffer, rest) =>
          let n := (nd_line_number s + 1)%Z in
          let s := mkNdjson rest (nd_end s) n in
          let line := str_trim (to_str line_buffer) in
          if str_is_empty line then next fuel s
          else
            match parse_line n line with
            | None => None
            | Some r => Some (r ≫= (fun r => mret (Some r)), s)
            end
      | (Err e, rest) =>
          Some (Done (Some (Err (LineIo (nd_line_number s + 1) e))), mkNdjson rest (nd_end s) (nd_line_number s))
      end
  end.

(** [collect] into a [Result]: stops at the first error. *)
Fixpoint collect (fuel : nat) (s : NdjsonEvents) (acc : list EvidenceEvent)
    : option (Outcome (Result (list EvidenceEvent) NdjsonError)) :=
  match fuel with
  | O => None
  | S fuel =>
      match next (S (length (nd_rest s))) s with
      | None => None
      | Some (Panicked, _) => Some Panicked
      | Some (Done None, _) => Some (Done (Ok acc))
      | Some (Done (Some (Err e)), _) => Some (Done (Err e))
      | Some (Done (Some (Ok event)), s) => collect fuel s (acc ++ [event])
      end
  end.

Definition read_events (data : bytes) (end_ : option IoError) : option (Outcome (Result (list EvidenceEvent) NdjsonError)) :=
  collect (S (length data)) (ndjson_new data end_) [].
Definition read_events_from_bytes (data : bytes) := read_events data None.

Definition events_vec (r : BundleReader) : option (Outcome (Result (list EvidenceEvent) NdjsonError)) :=
  read_events (br_events_content r) None.

(** [write_events]: an error names the event. *)
Fixpoint write_events (i : Z) (events : list EvidenceEvent) : Result string string :=
  match events with
  | [] => Ok ""
  | event :: rest =>
      match jcs_event event with
      | Err e => Err ("Failed to serialize event " +:+ fmt_int i +:+ ": " +:+ e)
      | Ok canonical =>
          match write_events (i + 1) rest with
          | Err e => Err e
          | Ok tail => Ok (canonical +:+ nl +:+ tail)
          end
      end
  end.
Definition write_events_to_bytes (events : list EvidenceEvent) := write_events 0 events.
End ndjson.
