(* ===== verification/BundleReaderCorrect.v ===== *)
(** * Evidence bundles: what a reader may rely on

    Opening with verification succeeds exactly on the bundles that verify, and
    the events then read are the verified ones; opening without verification
    still obeys the limits; reading always returns. *)
From stdpp Require Import base tactics list strings gmap.
From Stdlib Require Import ZArith Lia Ascii.
From S2P Require Import Prelude RustStr Json Platform StrictJson StrictJsonCorrect BoundedIo Bundle BundleCorrect BundleReader.

(** ** UTF-8 *)

(** A byte below 128 is its own character. *)
Lemma between_byte lo hi a : between lo hi a = true <-> (lo <= byte_val a <= hi)%Z.
Proof. unfold between. rewrite andb_true_iff, !Z.leb_le. done. Qed.

Lemma byte_val_bound a : (0 <= byte_val a < 256)%Z.
Proof.
  unfold byte_val, byte_of. pose proof (N_ascii_bounded a). lia.
Qed.

Lemma byte_val_inj a b : byte_val a = byte_val b -> a = b.
Proof. unfold byte_val. intros E. apply byte_of_inj. lia. Qed.

(** The first character of a text, its bytes, and the rest. *)
Lemma from_utf8_uncons l c cs :
  from_utf8 l = Some (c :: cs) ->
  exists p r, l = p ++ r /\ from_utf8 r = Some cs /\
    (forall r', from_utf8 (p ++ r') = cons c <$> from_utf8 r') /\
    (forall r', lossy (p ++ r') = p ++ lossy r') /\
    ((c < 128)%Z -> exists a, p = [a] /\ byte_val a = c) /\ p <> [].
Proof.
  destruct l as [|a l]; [done|]. cbn [from_utf8].
  destruct (between 0 0x7F a) eqn:H0.
  { destruct (from_utf8 l) eqn:E; [|done]. intros [= <- <-]. exists [a], l. cbn [app from_utf8 lossy]. rewrite H0. split_and!; try done. eauto. }
  pose proof (byte_val_bound a) as Hb.
  assert (H1 : (128 <= byte_val a)%Z).
  { apply not_true_iff_false in H0. rewrite between_byte in H0. lia. }
  destruct (between 0xC2 0xDF a) eqn:H2.
  { destruct l as [|b l]; [done|]. destruct (between 0x80 0xBF b) eqn:H3; [|done].
    destruct (from_utf8 l) eqn:E; [|done]. intros [= <- <-]. exists [a; b], l. cbn [app from_utf8 lossy].
    unfold cont. rewrite H0, H2, H3. split_and!; try done. apply between_byte in H2, H3. unfold cont_bits. lia. }
  destruct (between 0xE0 0xEF a) eqn:H4.
  { destruct l as [|b [|c' l]]; try done. destruct (between _ _ b && between _ _ c') eqn:H3; [|done].
    apply andb_true_iff in H3 as [H3 H5].
    destruct (from_utf8 l) eqn:E; [|done]. intros [= <- <-]. exists [a; b; c'], l. cbn [app from_utf8 lossy].
    unfold cont. rewrite H0, H2, H4, H3, H5. cbn [andb]. split_and!; try done. apply between_byte in H3, H4, H5. unfold cont_bits.
    intros Hc. destruct (Z.eqb_spec (byte_val a) 0xE0); lia. }
  destruct (between 0xF0 0xF4 a) eqn:H6; [|done].
  destruct l as [|b [|c' [|d l]]]; try done. destruct (between _ _ b && between _ _ c' && between _ _ d) eqn:H3; [|done].
  apply andb_true_iff in H3 as [[H3 H5]%andb_true_iff H7].
  destruct (from_utf8 l) eqn:E; [|done]. intros [= <- <-]. exists [a; b; c'; d], l. cbn [app from_utf8 lossy].
  unfold cont. rewrite H0, H2, H4, H6, H3, H5, H7. cbn [andb]. split_and!; try done. apply between_byte in H3, H5, H6, H7. unfold cont_bits.
  intros Hc. destruct (Z.eqb_spec (byte_val a) 0xF0); lia.
Qed.

Lemma from_utf8_nil l : from_utf8 l = Some [] -> l = [].
Proof.
  destruct l as [|a l]; [done|]. cbn [from_utf8]. intros E. exfalso.
  repeat match type of E with
  | (if ?b then _ else _) = _ => destruct b
  | match ?r with [] => _ | _ => _ end = _ => destruct r
  | _ <$> from_utf8 ?x = _ => destruct (from_utf8 x); cbn in E; discriminate E
  | None = _ => discriminate E
  end.
Qed.

Lemma from_utf8_split a : forall l b,
  from_utf8 l = Some (a ++ b) -> exists la lb, l = la ++ lb /\ from_utf8 la = Some a /\ from_utf8 lb = Some b.
Proof.
  induction a as [|c a IH]; intros l b; [by exists [], l|].
  intros (p & r & -> & Hr & Hp & _)%from_utf8_uncons. destruct (IH _ _ Hr) as (la & lb & -> & Ha & Hb).
  exists (p ++ la), lb. by rewrite <- app_assoc, Hp, Ha.
Qed.

Lemma from_utf8_app x : forall a b, from_utf8 a = Some x -> from_utf8 (a ++ b) = app x <$> from_utf8 b.
Proof.
  induction x as [|c x IH]; intros a b.
  - intros ->%from_utf8_nil. cbn [app]. by destruct (from_utf8 b).
  - intros (p & r & -> & Hr & Hp & _)%from_utf8_uncons. rewrite <- app_assoc, Hp, (IH _ _ Hr).
    by destruct (from_utf8 b).
Qed.

(** Bytes that are UTF-8 are not changed by the lossy conversion. *)
Lemma lossy_valid cs : forall l, from_utf8 l = Some cs -> lossy l = l.
Proof.
  induction cs as [|c cs IH]; intros l; [by intros ->%from_utf8_nil|].
  intros (p & r & -> & Hr & _ & Hl & _)%from_utf8_uncons. by rewrite Hl, (IH _ Hr).
Qed.

Lemma from_utf8_ascii cs : forall l, from_utf8 l = Some cs -> Forall (fun c => (c < 128)%Z) cs -> map byte_val l = cs.
Proof.
  induction cs as [|c cs IH]; intros l; [by intros ->%from_utf8_nil|].
  intros (p & r & -> & Hr & _ & _ & Hp & _)%from_utf8_uncons [Hc Hcs]%Forall_cons.
  destruct (Hp Hc) as (a & -> & <-). cbn. f_equal. by apply IH.
Qed.

(** ** Trimming *)

Definition no_cont (s : string) : Prop := match s with String a _ => is_cont a = false | EmptyString => True end.

Lemma span_cont_append s t : no_cont t -> span_cont (s +:+ t) = (fst (span_cont s), snd (span_cont s) +:+ t).
Proof.
  intros Ht. induction s as [|a s IH]; cbn.
  - destruct t as [|b t]; [done|]. cbn in *. by rewrite Ht.
  - destruct (is_cont a); [|done]. rewrite IH. by destruct (span_cont s).
Qed.

Lemma span_cont_length s : String.length (snd (span_cont s)) <= String.length s.
Proof.
  rewrite <- (span_cont_app s) at 2. rewrite string_app_length. lia.
Qed.

Lemma chars_fuel_enough n : forall m s, String.length s <= n -> String.length s <= m -> chars_fuel n s = chars_fuel m s.
Proof.
  induction n as [|n IH]; intros [|m] [|a s] Hn Hm; cbn in *; try lia; try done.
  pose proof (span_cont_length s). destruct (span_cont s) as [c t]. cbn in *. f_equal. apply IH; lia.
Qed.

Lemma chars_cons a s :
  RustStr.chars (String a s) = String a (fst (span_cont s)) :: RustStr.chars (snd (span_cont s)).
Proof.
  unfold RustStr.chars. cbn. pose proof (span_cont_length s). destruct (span_cont s) as [c t]. cbn in *.
  f_equal. by apply chars_fuel_enough.
Qed.

Lemma chars_append s t : no_cont t -> RustStr.chars (s +:+ t) = RustStr.chars s ++ RustStr.chars t.
Proof.
  intros Ht. remember (String.length s) as n eqn:En. revert s En.
  induction (lt_wf n) as [n _ IH]. intros [|a s] ->; [done|].
  change (String a s +:+ t) with (String a (s +:+ t)). rewrite !chars_cons, span_cont_append by done. cbn [fst snd app].
  f_equal. eapply IH; [|reflexivity]. cbn. pose proof (span_cont_length s). lia.
Qed.

(** JSON whitespace, as bytes. *)
Definition blank_byte (a : ascii) : Prop := ws_char (byte_val a).
Definition blank (s : string) : Prop := Forall blank_byte (to_bytes s).

Definition plain_byte (a : ascii) : Prop := (33 <= byte_val a < 128)%Z.

Lemma ascii_byte_no_cont a : (byte_val a < 128)%Z -> is_cont a = false.
Proof.
  intros Ha. apply ascii_not_cont. unfold is_ascii_byte. apply N.ltb_lt. unfold byte_val in Ha. lia.
Qed.

Lemma blank_no_cont s : blank s -> no_cont s.
Proof.
  destruct s as [|a s]; [done|]. intros [Ha _]%Forall_cons. apply ascii_byte_no_cont.
  destruct Ha as [-> | [-> | [-> | ->]]]; lia.
Qed.

Lemma no_cont_append s t : no_cont s -> no_cont t -> no_cont (s +:+ t).
Proof. by destruct s. Qed.

Lemma blank_chars s : blank s -> Forall (fun c => RustStr.is_whitespace c = true) (RustStr.chars s).
Proof.
  induction s as [|a s IH]; [constructor|]. intros [Ha Hs]%Forall_cons.
  change (String a s) with (String a EmptyString +:+ s). rewrite chars_append by by apply blank_no_cont.
  apply Forall_app. split; [|by apply IH]. repeat constructor.
  destruct Ha as [E|[E|[E|E]]]; [change 9%Z with (byte_val "009") in E | change 10%Z with (byte_val "010") in E
    | change 13%Z with (byte_val "013") in E | change 32%Z with (byte_val " ") in E]; apply byte_val_inj in E; by subst.
Qed.

(** A character that starts with a printing ASCII byte is not whitespace. *)
Lemma plain_not_whitespace a r : plain_byte a -> RustStr.is_whitespace (String a r) = false.
Proof.
  intros Ha. unfold RustStr.is_whitespace, whitespace_chars. apply not_true_iff_false.
  rewrite existsb_exists. intros (w & Hw & E%String.eqb_eq). subst w.
  cbn [map of_bytes foldr In] in Hw. unfold plain_byte in Ha.
  repeat (destruct Hw as [E|Hw]; [injection E as <- _; vm_compute in Ha; naive_solver|]); done.
Qed.

Lemma drop_while_all {A} (f : A -> bool) l k : Forall (fun x => f x = true) l -> drop_while f (l ++ k) = drop_while f k.
Proof. induction 1 as [|x l Hx _ IH]; cbn; [done|]. by rewrite Hx. Qed.

Lemma str_concat_app l k : str_concat (l ++ k) = str_concat l +:+ str_concat k.
Proof. induction l as [|x l IH]; cbn; [done|]. unfold str_concat in IH. by rewrite IH, string_app_assoc. Qed.

(** [v] starts and ends with a printing ASCII byte. *)
Definition solid (v : string) : Prop :=
  (exists a r, v = String a r /\ plain_byte a) /\ (exists r z, v = r +:+ String z EmptyString /\ plain_byte z).

Lemma str_trim_solid w1 v w2 : blank w1 -> blank w2 -> solid v -> str_trim (w1 +:+ v +:+ w2) = v.
Proof.
  intros H1 H2 [(a & r & Ea & Ha) (r' & z & Ez & Hz)].
  assert (Hv : no_cont v) by (rewrite Ea; apply ascii_byte_no_cont; unfold plain_byte in Ha; lia).
  unfold str_trim. rewrite chars_append by (by apply no_cont_append, blank_no_cont).
  rewrite chars_append by by apply blank_no_cont. rewrite drop_while_all by by apply blank_chars.
  assert (E1 : drop_while RustStr.is_whitespace (RustStr.chars v ++ RustStr.chars w2) = RustStr.chars v ++ RustStr.chars w2).
  { rewrite Ea, chars_cons. cbn [app drop_while]. by rewrite plain_not_whitespace. }
  rewrite E1, reverse_app, drop_while_all by by apply Forall_reverse, blank_chars.
  assert (E2 : drop_while RustStr.is_whitespace (reverse (RustStr.chars v)) = reverse (RustStr.chars v)).
  { rewrite Ez, chars_append by (apply ascii_byte_no_cont; unfold plain_byte in Hz; lia). rewrite reverse_app.
    change (RustStr.chars (String z "")) with [String z ""]. cbn [reverse]. cbn [app].
    rewrite reverse_singleton. cbn [app drop_while]. by rewrite plain_not_whitespace. }
  by rewrite E2, reverse_involutive, chars_concat.
Qed.

(** ** JSON documents as bytes *)

Lemma digit_plain d : is_ascii_digit d = true -> (33 <= d < 128)%Z.
Proof. unfold is_ascii_digit. rewrite andb_true_iff, !Z.leb_le. lia. Qed.

Lemma digits_last ds d : digits (d :: ds) -> exists l z, d :: ds = l ++ [z] /\ is_ascii_digit z = true.
Proof.
  intros Hd. destruct (exists_last (l := d :: ds)) as (l & z & E); [done|]. exists l, z. split; [done|].
  unfold digits in Hd. rewrite E in Hd. apply Forall_app in Hd as [_ Hz]. by inversion Hz.
Qed.

(** A value starts and ends with a printing ASCII character. *)
Lemma value_ends j l :
  value_text j l ->
  (exists c l', l = c :: l' /\ (33 <= c < 128)%Z) /\ (exists l' c, l = l' ++ [c] /\ (33 <= c < 128)%Z).
Proof.
  intros Hv. split.
  - inversion Hv as [[[]|]|? Hn|s ? [_ ->]| | | |]; subst; try (eexists _, _; split; [reflexivity | vm_compute; naive_solver]).
    destruct Hn as (sign & int & frac & exp & -> & Hs & Hi & _).
    destruct Hs as [-> | ->]; [|eexists _, _; split; [reflexivity | vm_compute; naive_solver]].
    destruct Hi as [->|(d & ds & -> & Hd & _)]; (eexists _, _; split; [reflexivity|]); [vm_compute; naive_solver|].
    by apply digit_plain.
  - inversion Hv as [[[]|]|? Hn|s ? [_ ->]|w|es k|w|ms k]; subst.
    1: by exists (txt "tru"), 101%Z. 1: by exists (txt "fals"), 101%Z. 1: by exists (txt "nul"), 108%Z.
    2: by exists (34%Z :: items_text s), 34%Z. 2: by exists (chr "[" :: w), (chr "]").
    2: by exists (chr "[" :: k), (chr "]"). 2: by exists (chr "{" :: w), (chr "}").
    2: by exists (chr "{" :: k), (chr "}").
    destruct Hn as (sign & int & frac & exp & -> & _ & Hi & Hf & He).
    assert (Hlast : exists l z, int ++ frac ++ exp = l ++ [z] /\ is_ascii_digit z = true).
    { destruct He as [->|(e & sg & d & ds & -> & _ & _ & Hd)].
      - rewrite app_nil_r. destruct Hf as [->|(d & ds & -> & Hd)].
        + rewrite app_nil_r. destruct Hi as [->|(d & ds & -> & Hd & _ & Hds)]; [by exists [], (chr "0")|].
          by apply digits_last; constructor.
        + destruct (digits_last _ _ Hd) as (l & z & -> & Hz). exists (int ++ chr "." :: l), z. by rewrite <- app_assoc.
      - destruct (digits_last _ _ Hd) as (l & z & -> & Hz). exists (int ++ frac ++ e :: sg ++ l), z.
        split; [|done]. rewrite <- !app_assoc. cbn. by rewrite <- app_assoc. }
    destruct Hlast as (l & z & -> & Hz%digit_plain). exists (sign ++ l), z. by rewrite <- app_assoc.
Qed.

Lemma to_bytes_str b : to_bytes (to_str b) = b.
Proof. unfold to_bytes, to_str. by rewrite String.list_ascii_of_string_of_list_ascii. Qed.

Lemma to_str_app a b : to_str (a ++ b) = to_str a +:+ to_str b.
Proof. induction a as [|c a IH]; cbn; [done|]. unfold to_str in IH. by rewrite IH. Qed.

Lemma from_utf8_one c b : from_utf8 b = Some [c] -> (c < 128)%Z -> exists a, b = [a] /\ byte_val a = c.
Proof.
  intros (p & r & -> & Hr%from_utf8_nil & _ & _ & Hp & _)%from_utf8_uncons Hc. subst r.
  destruct (Hp Hc) as (a & -> & Ea). by exists a.
Qed.

Lemma ws_blank b w : from_utf8 b = Some w -> ws w -> Forall blank_byte b.
Proof.
  intros Hb Hw. assert (E : map byte_val b = w).
  { apply from_utf8_ascii; [done|]. eapply Forall_impl; [exact Hw|]. intros c [-> | [-> | [-> | ->]]]; lia. }
  unfold ws in Hw. by rewrite <- E, Forall_map in Hw.
Qed.

(** The bytes of a document: a value between whitespace. *)
Definition document_bytes (j : Json) (s w1 v w2 : string) : Prop :=
  s = w1 +:+ v +:+ w2 /\ blank w1 /\ blank w2 /\ solid v /\
  exists lv, from_utf8 (to_bytes v) = Some lv /\ value_text j lv.

Lemma document_split b cs j :
  from_utf8 b = Some cs -> document_text j cs -> exists w1 v w2, document_bytes j (to_str b) w1 v w2.
Proof.
  intros Hb (w1 & lv & w2 & Hw1 & Hv & Hw2 & ->).
  destruct (from_utf8_split _ _ _ Hb) as (b1 & b' & -> & H1 & Hb').
  destruct (from_utf8_split _ _ _ Hb') as (bv & b2 & -> & Hbv & H2).
  exists (to_str b1), (to_str bv), (to_str b2). unfold document_bytes, blank. rewrite !to_str_app. split; [done|].
  rewrite !to_bytes_str. split_and!; [exact (ws_blank _ _ H1 Hw1) | exact (ws_blank _ _ H2 Hw2) | |by exists lv].
  destruct (value_ends _ _ Hv) as [(c & l' & -> & Hc) (l2 & z & E & Hz)]. split.
  - destruct (from_utf8_uncons _ _ _ Hbv) as (p & r & -> & _ & _ & _ & Hp & _).
    destruct Hp as (a & -> & Ea); [lia|]. exists a, (to_str r). split; [done|]. unfold plain_byte. lia.
  - rewrite E in Hbv. destruct (from_utf8_split _ _ _ Hbv) as (x & y & -> & _ & Hy).
    destruct (from_utf8_one _ _ Hy) as (a & -> & Ea); [lia|]. exists (to_str x), a.
    rewrite to_str_app. split; [done|]. unfold plain_byte. lia.
Qed.

(** Trimming a document, also with more whitespace after it, leaves its value. *)
Lemma document_trim j s w1 v w2 w : document_bytes j s w1 v w2 -> blank w -> str_trim (s +:+ w) = v.
Proof.
  intros (-> & H1 & H2 & Hv & _) Hw. rewrite <- !string_app_assoc. apply str_trim_solid; [done | | done].
  unfold blank in *. rewrite to_bytes_app. by apply Forall_app.
Qed.

Lemma Strict_weaken j : forall d d', (d <= d')%Z -> Strict d j -> Strict d' j.
Proof.
  induction j as [b| |s|l IH|m IH] using Json_nested_ind; intros d d' Hd; inversion 1; subst; econstructor; try done; try lia;
    match goal with H : Forall _ ?l |- Forall _ ?l =>
      rewrite Forall_forall in *; intros x Hx; by eapply IH; [|apply Z.sub_le_mono_r, Hd|apply H] end.
Qed.

Lemma validate_Strict j l max : document_text j l -> validate_json_strict_with_depth l max = Some (Ok ()) <-> Strict max j.
Proof.
  intros Hd%(validate_document j l max). rewrite <- strictb_spec. destruct (strictb max j); [naive_solver|].
  destruct Hd as [e E]. rewrite E. naive_solver.
Qed.

(** A document that passes the strict validator passes it when trimmed, and at
    any greater depth. *)
Lemma validate_value_only j l lv max max' :
  document_text j l -> value_text j lv -> (max <= max')%Z ->
  validate_json_strict_with_depth l max = Some (Ok ()) -> validate_json_strict_with_depth lv max' = Some (Ok ()).
Proof.
  intros Hl Hv Hm Hp. apply (validate_Strict j lv max'); [|by eapply Strict_weaken, validate_Strict].
  exists [], lv, []. split_and!; [constructor | done | constructor | by rewrite app_nil_r].
Qed.

(** ** Verified lines

    [serde_json] accepts JSON texts only, and whitespace around a text does not
    change what it denotes. *)
Class JsonTextLaws `{BundleSerde} : Prop := {
  parse_event_text : forall s e, parse_event s = Ok e ->
    exists j cs, from_utf8 (to_bytes s) = Some cs /\ document_text j cs;
  parse_event_blank : forall w1 s w2 e, blank w1 -> blank w2 ->
    parse_event (w1 +:+ s +:+ w2) = Ok e -> parse_event s = Ok e
}.

Lemma strip_last_eol a l : exists eol, l = strip_last a l ++ eol /\ (eol = [] \/ eol = [a]).
Proof.
  unfold strip_last. destruct (last l) as [c|] eqn:El; [|by exists []; rewrite app_nil_r; auto].
  destruct (Ascii.eqb_spec c a) as [->|]; [|by exists []; rewrite app_nil_r; auto].
  apply last_Some in El as [l' ->]. exists [a]. rewrite length_app. cbn [length].
  replace (length l' + 1 - 1) with (length l') by lia. rewrite take_app_length. auto.
Qed.

Definition blanks (l : bytes) : Prop := Forall blank_byte l.

Lemma blank_newline : blank_byte newline.
Proof. unfold blank_byte, ws_char. auto. Qed.
Lemma blank_return : blank_byte "013".
Proof. unfold blank_byte, ws_char. auto. Qed.

Lemma eol_blanks a eol : blank_byte a -> eol = [] \/ eol = [a] -> blanks eol.
Proof. unfold blanks. by intros Ha [-> | ->]; repeat apply Forall_cons_2; try apply Forall_nil_2. Qed.
#[local] Hint Resolve blank_newline blank_return : core.

(** A line, and its payload, are its content and whitespace. *)
Lemma line_content_eol line :
  exists e1 e2, strip_last newline line = line_content line ++ e1 /\ line = line_content line ++ e2 /\ blanks e1 /\ blanks e2.
Proof.
  unfold line_content. destruct (strip_last_eol newline line) as (e2 & E2 & H2).
  destruct (strip_last_eol "013" (strip_last newline line)) as (e1 & E1 & H1).
  exists e1, (e1 ++ e2). rewrite E1 in E2 at 1. rewrite <- app_assoc in E2. split_and!; try done.
  - by apply (eol_blanks "013").
  - apply Forall_app. by split; [apply (eol_blanks "013") | apply (eol_blanks newline)].
Qed.

Lemma from_utf8_blanks b : blanks b -> from_utf8 b = Some (map byte_val b) /\ ws (map byte_val b).
Proof.
  induction 1 as [|a b Ha _ [IH1 IH2]]; [split; [done | apply Forall_nil_2]|]. split; [|by apply Forall_cons_2].
  cbn [from_utf8 map]. assert (E : between 0 0x7F a = true).
  { apply between_byte. destruct Ha as [-> | [-> | [-> | ->]]]; lia. }
  by rewrite E, IH1.
Qed.

Lemma document_more j l w : document_text j l -> ws w -> document_text j (l ++ w).
Proof.
  intros (w1 & lv & w2 & H1 & Hv & H2 & ->) Hw. exists w1, lv, (w2 ++ w). rewrite <- !app_assoc.
  split_and!; try done. by apply Forall_app.
Qed.

Section lines.
Context `{BundleSerde} `{!JsonTextLaws}.

Definition line_verified (limits : VerifyLimits) (line : bytes) (event : EvidenceEvent) : Prop :=
  line_parses line event /\ line_readable limits line.

(** The payload of a verified line passes the reader's own checks. *)
Lemma verified_payload limits line event :
  line_verified limits line event ->
  strip_last newline line <> [] /\ exists text, from_utf8 (strip_last newline line) = Some text /\
    validate_json_strict_with_depth text (vl_max_json_depth limits) = Some (Ok ()).
Proof.
  intros [Hp [Hne (cs & Hcs & Hval)]]. destruct (line_content_eol line) as (e1 & e2 & E1 & _ & H1 & _).
  destruct (parse_event_text _ _ Hp) as (j & cs' & Hcs' & Hd). rewrite to_bytes_str, Hcs in Hcs'. injection Hcs' as <-.
  destruct (from_utf8_blanks e1 H1) as [U1 W1]. rewrite E1. split; [by destruct (line_content line)|].
  exists (cs ++ map byte_val e1). rewrite (from_utf8_app _ _ _ Hcs), U1. split; [done|].
  apply (validate_Strict j); [by apply document_more|]. by apply (validate_Strict j cs).
Qed.

(** What the event iterator makes of a verified line. *)
Lemma verified_trim limits line event :
  line_verified limits line event -> (vl_max_json_depth limits <= MAX_NESTING_DEPTH)%Z ->
  let v := str_trim (to_str line) in
  is_Some (from_utf8 line) /\ v <> "" /\ forall n, parse_line n v = Some (Done (Ok event)).
Proof.
  intros [Hp [Hne (cs & Hcs & Hval)]] Hm. destruct (line_content_eol line) as (e1 & e2 & _ & E2 & _ & H2).
  destruct (parse_event_text _ _ Hp) as (j & cs' & Hcs' & Hd). rewrite to_bytes_str, Hcs in Hcs'. injection Hcs' as <-.
  destruct (from_utf8_blanks e2 H2) as [U2 W2].
  destruct (document_split _ _ _ Hcs Hd) as (w1 & v & w2 & Hb). pose proof Hb as (Es & B1 & B2 & Hs & lv & Hlv & Hv).
  assert (Et : str_trim (to_str line) = v).
  { rewrite E2, to_str_app. apply (document_trim _ _ _ _ _ _ Hb). unfold blank. by rewrite to_bytes_str. }
  cbv zeta. rewrite Et. split_and!.
  - rewrite E2, (from_utf8_app _ _ _ Hcs), U2. by eexists.
  - destruct Hs as [(a & r & -> & _) _]. done.
  - intros n. unfold parse_line, text_of. rewrite Hlv. cbn [from_option].
    change (validate_json_strict (id lv)) with (validate_json_strict_with_depth lv MAX_NESTING_DEPTH).
    rewrite (validate_value_only j cs lv _ _ Hd Hv Hm Hval).
    unfold line_parses in Hp. rewrite Es in Hp. by rewrite (parse_event_blank _ _ _ _ B1 B2 Hp).
Qed.
End lines.

(** ** The second pass repeats the first *)

Lemma read_line_rest max data line rest :
  read_line max data None = Ok (line, rest) -> data = line ++ rest /\ (line = [] -> data = []).
Proof.
  intros [(-> & -> & ->)|(Hl & -> & _)]%read_line_lines; [done|]. split; [done|]. by intros ->.
Qed.

(** Reading a line does not depend on the pieces the bytes arrive in. *)
Lemma read_line_pieces max pieces pieces' end_ :
  Forall (fun c => c <> []) pieces -> Forall (fun c => c <> []) pieces' -> concat pieces' = concat pieces -> (0 <= max)%Z ->
  match read_line_bounded max pieces end_ 0 [], read_line_bounded max pieces' end_ 0 [] with
  | Ok (line, rest), Ok (line', rest') =>
      line' = line /\ concat rest' = concat rest /\ Forall (fun c => c <> []) rest /\ Forall (fun c => c <> []) rest' /\
      (end_ = None -> read_line max (concat pieces) None = Ok (line, concat rest))
  | Err e, Err e' => e' = e
  | _, _ => False
  end.
Proof.
  intros Hp Hp' E Hm. pose proof (read_line_bounded_first max pieces end_ Hp Hm) as H1.
  pose proof (read_line_bounded_first max pieces' end_ Hp' Hm) as H2. rewrite E in H2.
  destruct (read_line_bounded max pieces end_ 0 []) as [[line rest]|e],
    (read_line_bounded max pieces' end_ 0 []) as [[line' rest']|e'];
    [|destruct H1 as [H1 _]; congruence | destruct H2 as [H2 _]; congruence | congruence].
  destruct H1 as [H1 N1], H2 as [H2 N2]. split_and!; try done; congruence.
Qed.

Section passes.
Context `{Platform} `{BundleSerde} `{!JsonTextLaws}.

(** The lines of a file that passes the verifier's loop, with their events. *)
Definition verified_lines (limits : VerifyLimits) (data : bytes) : Prop :=
  exists lines events, lines_of data lines /\ Forall2 (line_verified limits) lines events.

Lemma events_loop_bounded fuel limits m pieces pieces' st st' bst :
  (0 <= vl_max_line_bytes limits)%Z -> Forall (fun c => c <> []) pieces -> Forall (fun c => c <> []) pieces' ->
  concat pieces' = concat pieces -> bs_count bst = seen_lines st ->
  events_loop fuel limits m pieces None st = Some (Ok st') ->
  bounded_loop fuel limits pieces' None bst = Some (Ok (bs_out bst ++ concat pieces)) /\
  verified_lines limits (concat pieces).
Proof.
  intros Hl. revert pieces pieces' st bst. induction fuel as [|fuel IH]; intros pieces pieces' st bst Hp Hp' E Hc;
    [done|]. cbn [events_loop bounded_loop].
  pose proof (read_line_pieces (vl_max_line_bytes limits) pieces pieces' None Hp Hp' E Hl) as Hr.
  destruct (read_line_bounded _ pieces None 0 []) as [[line rest]|e]; [|done].
  destruct (read_line_bounded _ pieces' None 0 []) as [[line' rest']|e']; [|done].
  destruct Hr as (-> & Er & N1 & N2 & Hr). specialize (Hr eq_refl).
  destruct (read_line_lines _ _ _ _ Hr) as [(-> & Ed & _)|(Hline & Ed & _ & Hls)].
  { intros _. rewrite Ed, app_nil_r. split; [done|]. exists [], []. split; constructor. }
  destruct line as [|c line]; [done|]. set (l := c :: line) in *.
  destruct (check_line limits m st l) as [[st1|e]|] eqn:Ec; [|done..].
  apply check_line_ok in Ec as (_ & Hcount & Hread & event & h & Hparse & _ & ->).
  assert (Hver : line_verified limits l event) by done.
  destruct (verified_payload _ _ _ Hver) as (Hne & text & Htext & Hval). intros Hloop.
  destruct (IH rest rest' (step_state st l event h) (mkBoundedState (bs_out bst ++ l) (bs_count bst + 1)) N1 N2 Er) as [Hb (lines & events & Hlo & Hf)];
    [by cbn; rewrite Hc | exact Hloop|].
  split.
  - unfold bounded_line. destruct (strip_last newline l) eqn:Es; [done|]. cbn [is_nil]. rewrite Hc, Htext, Hval.
    destruct (Z.ltb_spec (vl_max_events limits) (seen_lines st + 1)); [lia|].
    rewrite Hc in Hb. rewrite Hb. cbn [bs_out]. by rewrite <- app_assoc, Ed.
  - exists (l :: lines), (event :: events). split; [by apply Hls | by constructor].
Qed.

(** The second pass over a verified member reads all of it. *)
Lemma verify_events_extract limits m size entry vs vs' :
  (0 <= vl_max_line_bytes limits)%Z -> (vl_max_events limits <= u64_max)%Z -> well_delivered entry ->
  (size <= vl_max_events_bytes limits)%Z -> verify_events limits m size (en_body entry) vs = Some (Ok vs') ->
  let content := concat (pieces (en_body entry)) in
  read_events_bounded (limit_source (vl_max_events_bytes limits) MemberBytes (en_body entry)) limits = Some (Ok content) /\
  verified_lines limits content.
Proof.
  intros Hl Hmax Hwd Hsize Hv content.
  destruct (verify_events_ok _ _ _ _ _ _ Hl Hmax Hwd Hv) as (_ & _ & Hend & events & [_ _ _ _ _ (meta & Hmeta & Hbytes & _)] & _).
  fold content in Hbytes. unfold verify_events in Hv. rewrite Hmeta, Hend in Hv.
  destruct (Z.eqb_spec size (fm_bytes meta)) as [->|]; cbn [negb] in Hv; [|done].
  destruct (events_loop _ _ _ _ _ _) as [[st|]|] eqn:El; [|done..].
  unfold read_events_bounded, limit_source. cbn [pieces failure].
  fold content in El |- *. rewrite Hend.
  destruct (Z.leb_spec (byte_len content) (vl_max_events_bytes limits)); [|lia].
  rewrite take_min, take_ge by (unfold byte_len in *; lia).
  destruct (one_piece_delivers content None) as [E1 N1]. cbn [pieces] in E1, N1. rewrite E1.
  exact (events_loop_bounded _ _ _ _ (one_piece content) events_start _ (mkBoundedState [] 0) Hl Hwd N1 E1 eq_refl El).
Qed.

Lemma split_line_last payload : one_line payload -> split_line payload = (payload, None).
Proof. induction 1 as [|c l Hc _ IH]; cbn [split_line]; [done|]. by rewrite Hc, IH. Qed.

Lemma collect_verified limits lines events : forall data n acc fuel,
  lines_of data lines -> Forall2 (line_verified limits) lines events ->
  (vl_max_json_depth limits <= MAX_NESTING_DEPTH)%Z -> length data < fuel ->
  collect fuel (mkNdjson data None n) acc = Some (Done (Ok (acc ++ events))).
Proof.
  intros data n acc fuel Hlo Hf Hd. revert events n acc fuel Hf.
  assert (Hone : forall line event rest n, line <> [] -> line_verified limits line event ->
    read_utf8_line (line ++ rest) None = (match from_utf8 line with Some _ => Ok line | None => Err invalid_utf8 end, rest) ->
    next (S (length (line ++ rest))) (mkNdjson (line ++ rest) None n) = Some (Done (Some (Ok event)), mkNdjson rest None (n + 1))).
  { intros line event rest n Hne Hv Hr. destruct (verified_trim _ _ _ Hv Hd) as ([cs Hcs] & Hb & Hp).
    cbn [next nd_rest nd_end nd_line_number]. rewrite Hr, Hcs. destruct line as [|c line]; [done|].
    apply str_is_empty_false in Hb. rewrite Hb, Hp. done. }
  induction Hlo as [|payload rest ls Hpl Hlo IH|payload Hpl Hne]; intros events n acc [|fuel] Hf Hlen; try lia.
  - inversion Hf. cbn. by rewrite app_nil_r.
  - inversion Hf as [|? event ? events' Hv Hf']; subst.
    cbn [collect nd_rest]. change (payload ++ newline :: rest) with (payload ++ [newline] ++ rest). rewrite app_assoc.
    rewrite (Hone (payload ++ [newline]) event rest n); [|by destruct payload | done |].
    + rewrite (IH events'), <- app_assoc; [done | done |]. rewrite length_app in Hlen. cbn in Hlen. lia.
    + unfold read_utf8_line. rewrite <- app_assoc. cbn [app]. by rewrite split_line_one.
  - inversion Hf as [|? event ? events' Hv Hf']; subst. inversion Hf'; subst. cbn [collect nd_rest].
    rewrite <- (app_nil_r payload), (Hone payload event [] n); [|done | done |].
    + destruct fuel as [|fuel]; [destruct payload; [done | cbn in Hlen; lia]|]. done.
    + unfold read_utf8_line. rewrite app_nil_r. rewrite split_line_last by done. done.
Qed.

End passes.

(** ** Opening *)

Section opening.
Context `{Platform} `{BundleSerde} `{!JsonTextLaws} `{!Container} `{!ContainerLaws}.

Record Sane (limits : VerifyLimits) : Prop := {
  sane_line : (0 <= vl_max_line_bytes limits)%Z;
  sane_events : (vl_max_events limits <= u64_max)%Z
}.

Lemma path_str_lossy entry name : path_str (en_path entry) = name -> name <> "" -> lossy_path entry = name.
Proof.
  unfold path_str, lossy_path. destruct (from_utf8 (en_path entry)) as [cs|] eqn:E; [|by intros <-].
  intros <- _. by rewrite (lossy_valid _ _ E).
Qed.

Lemma snapshot_members source limits b :
  verify_bundle_snapshot source limits = Some (Ok b) ->
  exists me ee size vs1 vs, open_archive (vl_max_decode_bytes limits) source = Ok ([Ok me; Ok ee], None) /\
    named limits me "manifest.json" /\ named limits ee "events.ndjson" /\
    read_manifest limits (en_body me) = Some (Ok (vr_manifest (vb_result b))) /\ (size <= vl_max_events_bytes limits)%Z /\
    verify_events limits (vr_manifest (vb_result b)) size (en_body ee) vs1 = Some (Ok vs).
Proof.
  unfold verify_bundle_snapshot. destruct (open_archive _ source) as [[entries tail]|] eqn:Eo; [|done].
  destruct (verify_entries limits 0 entries verify_start) as [[vs|]|] eqn:Ev; [|done..].
  destruct (vs_events_verified vs) eqn:Evf; cbn [negb]; [|done]. destruct tail; [done|].
  destruct (verify_entries_two _ _ _ Ev Evf) as (me & ee & m & size & vs1 & -> & N1 & N2 & Hm & Hs & Hvm & He).
  assert (Evm : vs_manifest vs = Some m).
  { unfold verify_events in He. destruct (mf_files m !! _); [|done]. destruct (negb _); [done|].
    destruct (events_loop _ _ _ _ _ _) as [[]|]; [|done..]. destruct (check_totals _ _ _ _); [|done].
    injection He as <-. done. }
  rewrite Evm. destruct (vs_time_lo vs), (vs_time_hi vs); try done. intros [= <-]. by exists me, ee, size, vs1, vs.
Qed.

Lemma limited_cursor limit kind buffer :
  (byte_len buffer <= limit)%Z -> limited limit kind (concat (pieces (cursor buffer))) (failure (cursor buffer)) = Ok buffer.
Proof.
  intros Hl. unfold limited, cursor. cbn [pieces failure].
  rewrite (proj1 (one_piece_delivers buffer None) : concat (one_piece buffer) = buffer).
  by destruct (Z.leb_spec (byte_len buffer) limit); [|lia].
Qed.

Lemma limited_ok limit kind data end_ b : limited limit kind data end_ = Ok b -> b = data /\ (byte_len data <= limit)%Z.
Proof.
  unfold limited. destruct (Z.leb_spec (byte_len data) limit); [|done]. destruct end_; [done|]. by intros [= ->].
Qed.

(** The content a verified source holds. *)
Lemma open_snapshot source limits b :
  Sane limits -> verify_bundle_snapshot source limits = Some (Ok b) ->
  exists entries tail ee, open_archive (vl_max_decode_bytes limits) source = Ok (entries, tail) /\
    path_str (en_path ee) = "events.ndjson" /\
    extract_events limits entries = Some (Ok (concat (pieces (en_body ee)))) /\
    verified_lines limits (concat (pieces (en_body ee))) /\
    peek_entries limits entries = Some (Ok (mkBundleInfo (vr_manifest (vb_result b)))) /\
    exists events, BundleOk (vr_manifest (vb_result b)) (concat (pieces (en_body ee))) events.
Proof.
  intros [Hl Hmax] (me & ee & size & vs1 & vs & Ho & [N1 P1] & [N2 P2] & Hm & Hs & He)%snapshot_members.
  assert (Hwd : well_delivered ee) by (eapply archive_delivers; [exact Ho | set_solver]).
  destruct (verify_events_extract _ _ _ _ _ _ Hl Hmax Hwd Hs He) as [Hx Hv].
  destruct (verify_events_ok _ _ _ _ _ _ Hl Hmax Hwd He) as (_ & _ & _ & events & Hb & _).
  exists [Ok me; Ok ee], None, ee. split_and!; [done | done | | done | | by exists events].
  - cbn [extract_events]. rewrite P1, (path_str_lossy me "manifest.json") by done. cbn [String.eqb].
    rewrite P2, (path_str_lossy ee "events.ndjson") by done. done.
  - cbn [peek_entries]. rewrite P1, (path_str_lossy me "manifest.json") by done. rewrite String.eqb_refl.
    unfold read_manifest in Hm. unfold peek_manifest. destruct (limited _ _ _ _) as [content|]; [|done].
    destruct (from_utf8 content); [|done]. destruct (validate_json_strict_with_depth _ _) as [[|]|]; [|done..].
    destruct (parse_manifest _) as [m|]; [|done]. destruct (negb _); [done|]. by injection Hm as <-.
Qed.

Lemma verify_reader_ok reader limits v :
  verify_bundle_with_limits reader limits = Some (Ok v) ->
  exists source b, limited (vl_max_bundle_bytes limits) SourceBytes (concat (pieces reader)) (failure reader) = Ok source /\
    verify_bundle_snapshot source limits = Some (Ok b) /\ v = vb_result b.
Proof.
  unfold verify_bundle_with_limits, verify_bundle_verbose_with_limits. destruct (limited _ _ _ _) as [source|]; [|done].
  destruct (verify_bundle_snapshot source limits) as [[b|]|] eqn:E; [|done..]. intros [= <-]. by exists source, b.
Qed.

Lemma verify_cursor source limits :
  (byte_len source <= vl_max_bundle_bytes limits)%Z ->
  verify_bundle_with_limits (cursor source) limits =
  match verify_bundle_snapshot source limits with
  | Some (Ok b) => Some (Ok (vb_result b)) | Some (Err e) => Some (Err e) | None => None
  end.
Proof.
  intros Hs. unfold verify_bundle_with_limits, verify_bundle_verbose_with_limits. by rewrite limited_cursor.
Qed.

(** What opening a verified bundle leaves in the reader. *)
Lemma open_verified reader limits r :
  Sane limits -> open_with_limits reader limits = Some (Ok r) ->
  exists source b, limited (vl_max_bundle_bytes limits) SourceBytes (concat (pieces reader)) (failure reader) = Ok source /\
    verify_bundle_snapshot source limits = Some (Ok b) /\ br_manifest r = vr_manifest (vb_result b) /\
    verified_lines limits (br_events_content r) /\
    exists events, BundleOk (br_manifest r) (br_events_content r) events.
Proof.
  intros Hsane. unfold open_with_limits, open_internal.
  destruct (limited _ _ _ _) as [source|] eqn:El; [|done]. pose proof (limited_ok _ _ _ _ _ El) as [-> Hlen].
  rewrite verify_cursor by done. destruct (verify_bundle_snapshot _ limits) as [[b|]|] eqn:Ev; [|done..].
  destruct (open_snapshot _ _ _ Hsane Ev) as (entries & tail & ee & Ho & _ & Hx & Hv & _ & Hb). rewrite Ho, Hx.
  intros [= <-]. eexists _, b. done.
Qed.

(** A bundle that verifies opens. *)
Lemma verified_opens reader limits v :
  Sane limits -> verify_bundle_with_limits reader limits = Some (Ok v) ->
  exists content, open_with_limits reader limits = Some (Ok (mkBundleReader (vr_manifest v) content)).
Proof.
  intros Hs (source & b & El & Ev & ->)%verify_reader_ok. pose proof (limited_ok _ _ _ _ _ El) as [_ Hlen].
  assert (Hlen' : (byte_len source <= vl_max_bundle_bytes limits)%Z) by (apply limited_ok in El as [-> ?]; done).
  destruct (open_snapshot _ _ _ Hs Ev) as (entries & tail & ee & Ho & _ & Hx & _).
  eexists. unfold open_with_limits, open_internal. by rewrite El, verify_cursor, Ev, Ho, Hx.
Qed.

(** C14: Verifying, opening and peeking agree: opening with verification succeeds
    exactly on the sources that verify, the second pass over the archive never
    fails on them, and reader and peek have the verified manifest. *)
Theorem open_iff_verified reader limits :
  Sane limits ->
  (forall r, open_with_limits reader limits = Some (Ok r) ->
     exists v, verify_bundle_with_limits reader limits = Some (Ok v) /\ vr_manifest v = br_manifest r) /\
  (forall v, verify_bundle_with_limits reader limits = Some (Ok v) ->
     (exists content, open_with_limits reader limits = Some (Ok (mkBundleReader (vr_manifest v) content))) /\
     peek_with_limits reader limits = Some (Ok (mkBundleInfo (vr_manifest v)))).
Proof.
  intros Hs. split.
  - intros r (source & b & El & Ev & Em & _)%open_verified; [|done]. exists (vb_result b).
    unfold verify_bundle_with_limits, verify_bundle_verbose_with_limits. by rewrite El, Ev.
  - intros v Hv. split; [by apply verified_opens|].
    apply verify_reader_ok in Hv as (source & b & El & Ev & ->).
    destruct (open_snapshot _ _ _ Hs Ev) as (entries & tail & ee & Ho & _ & _ & _ & Hp & _).
    unfold peek_with_limits. by rewrite El, Ho, Hp.
Qed.

(** The events of an opened bundle are the verified ones: iterating over
    them never fails, as long as the caller's nesting limit is at most the one
    the iterator applies, and yields the events whose lines, hashes and order
    verification checked. *)
Theorem opened_events reader limits r :
  Sane limits -> (vl_max_json_depth limits <= MAX_NESTING_DEPTH)%Z ->
  open_with_limits reader limits = Some (Ok r) ->
  exists events, events_vec r = Some (Done (Ok events)) /\ BundleOk (br_manifest r) (br_events_content r) events.
Proof.
  intros Hs Hd (source & b & _ & _ & _ & (lines & events & Hlo & Hf) & events' & Hb)%open_verified; [|done].
  exists events. split; [apply (collect_verified limits lines events); try done; lia|].
  destruct (bo_lines _ _ _ Hb) as (lines' & Hlo' & Hf'). rewrite <- (lines_fun _ _ _ Hlo Hlo') in Hf'.
  assert (E : events' = events); [|by rewrite <- E].
  clear -Hf Hf'. revert events' Hf'. induction Hf as [|line e lines events [Hp _] _ IH]; intros events' Hf'; inversion Hf'; subst; [done|].
  f_equal; [|by apply IH]. unfold line_parses in *. congruence.
Qed.
End opening.

(** ** Without verification *)

(** What every line read under the limits satisfies. *)
Definition line_within (limits : VerifyLimits) (line : bytes) : Prop :=
  let payload := strip_last newline line in
  (byte_len payload <= vl_max_line_bytes limits)%Z /\
  (payload = [] \/ exists text, from_utf8 payload = Some text /\
     validate_json_strict_with_depth text (vl_max_json_depth limits) = Some (Ok ())).

Definition nonblank (lines : list bytes) : Z :=
  Z.of_nat (length (List.filter (fun l => negb (is_nil (strip_last newline l))) lines)).

Lemma strip_newline payload : strip_last newline (payload ++ [newline]) = payload.
Proof.
  unfold strip_last. rewrite last_snoc, Ascii.eqb_refl, length_app. cbn [length].
  replace (length payload + 1 - 1) with (length payload) by lia. apply take_app_length.
Qed.

Lemma strip_one_line payload : one_line payload -> strip_last newline payload = payload.
Proof.
  intros Hp. unfold strip_last. destruct (last payload) as [c|] eqn:El; [|done].
  apply last_Some in El as [l ->]. apply Forall_app in Hp as [_ Hc]. inversion Hc as [|? ? E]; subst.
  unfold is_newline in E. by rewrite E.
Qed.

Lemma read_line_payload max data line rest :
  read_line max data None = Ok (line, rest) -> (byte_len (strip_last newline line) <= max)%Z.
Proof.
  unfold read_line. assert (Hp : one_line (fst (split_line data))).
  { induction data as [|c data IH]; cbn [split_line]; [constructor|]. destruct (is_newline c) eqn:E; [constructor|].
    destruct (split_line data). by constructor. }
  destruct (split_line data) as [payload [r|]]; (destruct (Z.ltb_spec max (byte_len payload)); [done|]); intros [= <- <-].
  - by rewrite strip_newline.
  - by rewrite strip_one_line.
Qed.

Lemma bounded_loop_ok fuel limits pieces end_ st out :
  (0 <= vl_max_line_bytes limits)%Z -> Forall (fun c => c <> []) pieces ->
  bounded_loop fuel limits pieces end_ st = Some (Ok out) ->
  end_ = None /\ out = bs_out st ++ concat pieces /\
  exists lines, lines_of (concat pieces) lines /\ Forall (line_within limits) lines /\
    (nonblank lines = 0 \/ bs_count st + nonblank lines <= vl_max_events limits)%Z.
Proof.
  intros Hl. revert pieces st. induction fuel as [|fuel IH]; intros pieces st Hp; [done|]. cbn [bounded_loop].
  pose proof (read_line_bounded_first (vl_max_line_bytes limits) pieces end_ Hp Hl) as Hr.
  destruct (read_line_bounded _ pieces end_ 0 []) as [[line rest]|]; [|done]. destruct Hr as [Hr Hn].
  apply read_line_end in Hr as [Hr He]. pose proof (read_line_payload _ _ _ _ Hr) as Hlen.
  destruct (read_line_lines _ _ _ _ Hr) as [(-> & Ed & _)|(Hline & Ed & _ & Hls)].
  { intros [= <-]. rewrite Ed, app_nil_r. split_and!; [by apply He | done|]. exists []. split_and!; [constructor.. | by left]. }
  destruct line as [|c line]; [done|]. set (l := c :: line) in *. unfold bounded_line.
  destruct (strip_last newline l) as [|a p] eqn:Es; cbn [is_nil].
  - intros (-> & -> & lines & Hlo & Hw & Hc)%IH; [|done]. cbn [bs_out bs_count] in *. split_and!; [done | by rewrite Ed, app_assoc|].
    exists (l :: lines). split_and!; [by apply Hls | |].
    + constructor; [|done]. unfold line_within. rewrite Es. by split; [|left].
    + unfold nonblank in *. cbn [List.filter]. by rewrite Es.
  - destruct (Z.ltb_spec (vl_max_events limits) (bs_count st + 1)); [done|].
    destruct (from_utf8 (a :: p)) as [text|] eqn:Et; [|done].
    destruct (validate_json_strict_with_depth text _) as [[[]|]|] eqn:Ev; [|done..].
    intros (-> & -> & lines & Hlo & Hw & Hc)%IH; [|done]. cbn [bs_out bs_count] in *. split_and!; [done | by rewrite Ed, app_assoc|].
    exists (l :: lines). split_and!; [by apply Hls | |].
    + constructor; [|done]. unfold line_within. rewrite Es. split; [done|]. right. by exists text.
    + unfold nonblank in *. cbn [List.filter]. rewrite Es. cbn [is_nil negb length]. lia.
Qed.

Section unverified.
Context `{Platform} `{BundleSerde} `{Container}.

(** Skipping verification does not skip the limits: whatever way a bundle is
    opened, the events kept in memory are within the byte limit, their lines
    within the line limit, their number within the event limit, and each is
    strict JSON within the nesting limit. *)
Theorem opened_within_limits reader verify limits r :
  (0 <= vl_max_line_bytes limits)%Z -> (0 <= vl_max_events_bytes limits)%Z -> (0 <= vl_max_events limits)%Z ->
  open_internal reader verify limits = Some (Ok r) ->
  (byte_len (br_events_content r) <= vl_max_events_bytes limits)%Z /\
  exists lines, lines_of (br_events_content r) lines /\ Forall (line_within limits) lines /\
    (nonblank lines <= vl_max_events limits)%Z.
Proof.
  intros Hl Hb He. unfold open_internal. destruct (limited _ _ _ _) as [source|]; [|done].
  match goal with |- match ?x with _ => _ end = _ -> _ => destruct x as [[m|]|]; [|done..] end.
  destruct (open_archive _ source) as [[entries tail]|]; [|done].
  destruct (extract_events limits entries) as [[content|]|] eqn:Ex; [|done..]. intros [= <-]. cbn [br_events_content].
  induction entries as [|[entry|] entries IH]; cbn [extract_events] in Ex; [done | | done].
  destruct (check_entry_path_len _ _); [|done]. destruct (String.eqb _ _); [|by apply IH].
  unfold read_events_bounded, limit_source in Ex. cbn [pieces failure] in Ex. rewrite take_min in Ex.
  set (data := concat (pieces (en_body entry))) in *.
  destruct (one_piece_delivers (take (Z.to_nat (vl_max_events_bytes limits)) data) None) as [E1 N1]. cbn [pieces] in E1, N1.
  apply bounded_loop_ok in Ex as (_ & -> & lines & Hlo & Hw & Hc); [|done..]. cbn [bs_out bs_count app] in *. rewrite E1 in *.
  split; [unfold byte_len; rewrite length_take; lia|]. exists lines. split_and!; [done | done | lia].
Qed.
End unverified.

(** ** Reading returns *)

Lemma split_line_rest data r : snd (split_line data) = Some r -> length r < length data.
Proof.
  revert r. induction data as [|c data IH]; intros r; cbn [split_line]; [done|].
  destruct (is_newline c); [intros [= <-]; cbn; lia|]. destruct (split_line data) as [l o]. cbn in *.
  intros E%IH. lia.
Qed.

Lemma read_utf8_line_rest data end_ :
  match fst (read_utf8_line data end_) with Ok [] => True | _ => length (snd (read_utf8_line data end_)) < length data \/ data = [] end.
Proof.
  unfold read_utf8_line. pose proof (split_line_rest data) as Hr. destruct (split_line data) as [p [r|]] eqn:E; cbn in *.
  - specialize (Hr r eq_refl). destruct (from_utf8 (p ++ [newline])); [|by left].
    destruct (p ++ [newline]); [done | by left].
  - destruct data as [|c data]; [injection E as <-; destruct end_; [by right | done]|].
    destruct end_; [left; cbn; lia|]. destruct (from_utf8 p) as [|]; [|left; cbn; lia]. destruct p; [done | left; cbn; lia].
Qed.

Section reading.
Context `{Platform} `{BundleSerde}.

Lemma parse_line_returns n line : parse_line n line <> None.
Proof.
  unfold parse_line, validate_json_strict. destruct (validate (validator_new _)) as [[|]|] eqn:E; [done..|].
  by apply validate_returns in E.
Qed.

Lemma next_returns fuel : forall s, length (nd_rest s) < fuel ->
  exists r s', next fuel s = Some (r, s') /\
    (forall e, r = Done (Some (Ok e)) -> length (nd_rest s') < length (nd_rest s)).
Proof.
  induction fuel as [|fuel IH]; intros s Hf; [lia|]. cbn [next].
  pose proof (read_utf8_line_rest (nd_rest s) (nd_end s)) as Hr.
  destruct (read_utf8_line (nd_rest s) (nd_end s)) as [[[|c l]|e] rest] eqn:E; cbn [fst snd] in Hr; [by eexists _, _| |by eexists _, _].
  assert (Hlt : length rest < length (nd_rest s)).
  { destruct Hr as [?|Hr]; [done|]. rewrite Hr in E. cbn in E. destruct (nd_end s); [done|]. done. }
  destruct (str_is_empty _).
  - destruct (IH (mkNdjson rest (nd_end s) (nd_line_number s + 1))) as (r & s' & Hn & Hs); [cbn; lia|].
    exists r, s'. split; [done|]. intros ev Hev. apply Hs in Hev. cbn in Hev. lia.
  - pose proof (parse_line_returns (nd_line_number s + 1) (str_trim (to_str (c :: l)))) as Hp.
    destruct (parse_line _ _) as [r|]; [|done]. eexists _, _. split; [done|]. done.
Qed.

Lemma collect_returns fuel : forall s acc, length (nd_rest s) < fuel -> collect fuel s acc <> None.
Proof.
  induction fuel as [|fuel IH]; intros s acc Hf; [lia|]. cbn [collect].
  destruct (next_returns (S (length (nd_rest s))) s) as (r & s' & -> & Hs); [lia|].
  destruct r as [[[e|e]|]|]; try done. apply IH. specialize (Hs e eq_refl). lia.
Qed.

Context `{Container}.

Lemma bounded_loop_returns fuel limits : forall pieces end_ st,
  length (concat pieces) < fuel -> bounded_loop fuel limits pieces end_ st <> None.
Proof.
  induction fuel as [|fuel IH]; intros pieces end_ st Hf; [lia|]. cbn [bounded_loop].
  destruct (read_line_bounded _ pieces end_ 0 []) as [[[|c line] rest]|] eqn:E; [done| |done].
  apply read_line_consumes in E. cbn [app] in E.
  assert (Hb : bounded_line limits (c :: line) st <> None).
  { unfold bounded_line. destruct (is_nil _); [done|]. destruct (_ <? _)%Z; [done|]. destruct (from_utf8 _); [|done].
    edestruct validate_some as [r Hr]. rewrite Hr. by destruct r. }
  destruct (bounded_line limits (c :: line) st) as [[st'|]|]; [|done..]. apply IH. rewrite E in Hf. cbn in Hf.
  rewrite length_app in Hf. lia.
Qed.

Lemma peek_returns reader limits : peek_with_limits reader limits <> None.
Proof.
  unfold peek_with_limits. destruct (limited _ _ _ _); [|done]. destruct (open_archive _ _) as [[entries ?]|]; [|done].
  induction entries as [|[entry|] entries IH]; cbn [peek_entries]; [done| |done].
  destruct (check_entry_path_len _ _); [|done]. destruct (String.eqb _ _); [|done]. unfold peek_manifest.
  destruct (limited _ _ _ _); [|done]. destruct (from_utf8 _); [|done].
  edestruct validate_some as [r Hr]. rewrite Hr. by destruct r.
Qed.

(** Opening a bundle, whatever its bytes and the limits, and reading the
    events of the reader obtained always return. *)
Theorem reading_terminates reader verify limits :
  open_internal reader verify limits <> None /\ forall r, events_vec r <> None.
Proof.
  split.
  - unfold open_internal. destruct (limited _ _ _ _) as [source|]; [|done].
    assert (Hx : forall entries, extract_events limits entries <> None).
    { intros entries. induction entries as [|[entry|] entries IH]; cbn [extract_events]; [done| |done].
      destruct (check_entry_path_len _ _); [|done]. destruct (String.eqb _ _); [|done].
      apply bounded_loop_returns. lia. }
    pose proof (verify_returns (cursor source) limits) as Hv. pose proof (peek_returns (cursor source) limits) as Hp.
    destruct (open_archive _ _) as [[entries ?]|].
    + specialize (Hx entries). destruct verify; [destruct (verify_bundle_with_limits _ _) as [[]|] | destruct (peek_with_limits _ _) as [[]|]];
        try done; by destruct (extract_events limits entries) as [[]|].
    + destruct verify; [destruct (verify_bundle_with_limits _ _) as [[]|] | destruct (peek_with_limits _ _) as [[]|]]; done.
  - intros r. apply collect_returns. cbn. lia.
Qed.

(** The error path of the event iterator panics: [truncate_line] cuts the
    quoted line at byte 50, so a line that is strict JSON but no event, longer
    than that and with a character across the cut aborts the caller instead of
    being reported. *)
Theorem ndjson_panics_on_multibyte line cause :
  one_line (to_bytes line) -> str_trim line = line -> is_Some (from_utf8 (to_bytes line)) ->
  validate_json_strict (text_of line) = Some (Ok ()) -> parse_event line = Err cause ->
  50 < String.length line -> is_char_boundary line 50 = false ->
  read_events_from_bytes (to_bytes line) = Some Panicked.
Proof.
  intros Hone Ht [cs Hcs] Hv Hp Hlen Hb. unfold read_events_from_bytes, read_events, ndjson_new. cbn [collect nd_rest next nd_end].
  unfold read_utf8_line. rewrite split_line_last, Hcs by done. rewrite to_str_bytes, Ht.
  destruct line as [|a line]; [cbn in Hlen; lia|]. cbn [to_bytes String.list_ascii_of_string str_is_empty].
  unfold parse_line. rewrite Hv, Hp. unfold truncate_line.
  destruct (Nat.leb_spec (String.length (String a line)) 50); [lia|]. unfold slice_to. by rewrite Hb.
Qed.
End reading.

(** ** Writing and reading back *)

Section ndjson_roundtrip.
Context `{Platform} `{BundleSerde} `{!JsonTextLaws} `{!SerdeLaws}.

(** Texts that pass the strict validation of the iterator. *)
Definition writes_strict (e : EvidenceEvent) : Prop :=
  forall s cs, jcs_event e = Ok s -> from_utf8 (to_bytes s) = Some cs -> validate_json_strict cs = Some (Ok ()).

(** The two writers of events make the same texts. *)
Lemma write_events_serializes evs : forall i s, write_events i evs = Ok s -> serialize_events_ndjson evs = Ok s.
Proof.
  induction evs as [|e evs IH]; intros i s; cbn [write_events serialize_events_ndjson]; [done|].
  destruct (jcs_event e); [|done]. destruct (write_events (i + 1) evs) eqn:E; [|done]. by rewrite (IH _ _ E).
Qed.

(** What [write_events] writes, [read_events] reads back: the same events in
    the same order, up to the numbers of their payloads, which canonicalisation
    does not distinguish. *)
Theorem ndjson_roundtrip evs s :
  write_events_to_bytes evs = Ok s -> Forall writes_strict evs ->
  exists evs', read_events_from_bytes (to_bytes s) = Some (Done (Ok evs')) /\ Forall2 same_event evs evs'.
Proof.
  intros (ss & Hss & Es)%write_events_serializes%serialize_ok Hstrict. set (limits := limits_default).
  assert (Hall : exists evs', Forall2 same_event evs evs' /\ Forall2 (line_verified limits) (map text_line ss) evs' /\
    Forall (fun s => one_line (to_bytes s)) ss).
  { clear Es. induction Hss as [|e t evs ss Ht Hss IH]; [by exists []|].
    apply Forall_cons in Hstrict as [Hs Hstrict]. destruct (IH Hstrict) as (evs' & L1 & L2 & L3).
    destruct (jcs_event_text _ _ Ht) as [Hobj [cs Hcs]]. destruct (jcs_event_parses _ _ Ht) as (e' & Hp & Hsame).
    exists (e' :: evs'). split_and!; constructor; try done; [|by apply Hobj].
    unfold line_verified, line_parses, line_readable, text_line. rewrite (line_content_text _ Hobj), to_str_bytes.
    split; [done|]. split; [destruct Hobj as [_ [mid ->]]; done|]. exists cs. split; [done|]. exact (Hs _ _ Ht Hcs). }
  destruct Hall as (evs' & L1 & L2 & L3). exists evs'. split; [|done].
  unfold read_events_from_bytes, read_events, ndjson_new.
  apply (collect_verified limits (map text_line ss) evs'); [|done | vm_compute; done | lia].
  rewrite Es. by apply text_lines.
Qed.
End ndjson_roundtrip.
