(* ===== verification/BundleWitnesses.v ===== *)
(** * Concrete bundles

    The codecs and the container of evidence bundles instantiated by tables of
    two bundles, one of specversion 1.0 and one of another, and the theorems
    with hypotheses applied to them; sources of a few bytes for the bounded
    readers. *)
From stdpp Require Import base tactics list strings gmap.
From Stdlib Require Import ZArith Lia Ascii.
From S2P Require Import Prelude RustStr Json Platform StrictJson BoundedIo Bundle BundleCorrect BundleReader BundleReaderCorrect.

(** ** Bounded readers *)

Definition two_pieces : Source := mkSource [["a"; "b"]; ["c"; newline; "d"]]%char None.

Lemma limit_reader_exact_witness :
  read_to_end [2; 2; 2; 2; 2; 2] (limit_reader_new two_pieces 5 SourceBytes) [] =
  Some (Ok ["a"; "b"; "c"; newline; "d"]%char).
Proof.
  apply (limit_reader_exact two_pieces ["a"; "b"; "c"; newline; "d"]%char 5 SourceBytes [2; 2; 2; 2; 2; 2]).
  - split; [reflexivity|]. by repeat constructor.
  - lia.
  - repeat constructor; lia.
  - cbn. lia.
Defined.

Lemma read_line_bounded_spec_witness :
  read_line_bounded 3 (pieces two_pieces) None 0 [] = Ok (["a"; "b"; "c"; newline], [["d"]])%char /\
  read_line 3 (concat (pieces two_pieces)) None = Ok (["a"; "b"; "c"; newline], ["d"])%char.
Proof.
  assert (E : read_line_bounded 3 (pieces two_pieces) None 0 [] = Ok (["a"; "b"; "c"; newline], [["d"]])%char)
    by (vm_compute; reflexivity).
  split; [exact E|].
  pose proof (read_line_bounded_spec 3 (pieces two_pieces) None) as Hs. rewrite E in Hs.
  apply Hs; [by repeat constructor | lia].
Defined.

(** ** Bundles *)

(** Canonicalisation is a constant. *)
#[local] Instance bundle_platform : Platform := {|
  sha256_hex := fun s => "hash-of-" +:+ s;
  md5_hex := fun s => s;
  jcs_to_string := fun _ => Some "v";
  jcs_error := "unsupported";
  json_to_string := fun _ => "v";
  parse_rfc3339 := fun _ => None;
  rfc3339_error := fun _ => "invalid";
  to_rfc3339 := fun _ => "";
  datetime_display := fun _ => "";
  datetime_min := 0;
  datetime_max := 0;
  duration_max_secs := 0;
  Validator := ();
  build_validator := fun _ => Ok ();
  is_valid := fun _ _ => true;
  iter_errors := fun _ _ => [];
  Similarity := ();
  normalized_levenshtein := fun _ _ => ();
  sim_threshold := ();
  sim_leb := fun _ _ => true
|}.

Definition event_of (specversion : string) : EvidenceEvent :=
  mkEvent specversion "assay.test" "urn:assay:test" "run:0" 1700 "application/json" None None None "run" 0
    "assay" "1" "unknown" None false false (Some "sha256:hash-of-v") None None Null.

Definition manifest_of (text : string) : Manifest :=
  mkManifest 1 (compute_run_root ["sha256:hash-of-v"]) (mkProducerMeta "assay" "1" None) "run" 1
    (compute_run_root ["sha256:hash-of-v"]) algorithm_default
    {["events.ndjson" := mkFileMeta "events.ndjson" (sha256_prefixed (text +:+ nl)) (str_len (text +:+ nl))]}.

(** Everything of an event but its payload. *)
Definition head_of (e : EvidenceEvent) :=
  (ev_specversion e, ev_type e, ev_source e, ev_id e, ev_time e, ev_data_content_type e, ev_subject e,
   ev_trace_parent e, ev_trace_state e, ev_run_id e, ev_seq e, ev_producer e, ev_producer_version e, ev_git_sha e,
   ev_policy_id e, ev_contains_pii e, ev_contains_secrets e, ev_content_hash e, ev_semantic_digest e, ev_digest_profile e).

Definition is_event (e : EvidenceEvent) (specversion : string) : bool :=
  is_null (ev_payload e) && bool_decide (head_of e = head_of (event_of specversion)).

Lemma is_event_eq e v : is_event e v = true -> e = event_of v.
Proof.
  intros [Hn Hh%bool_decide_eq_true]%andb_true_iff. destruct e as [? ? ? ? ? ? ? ? ? ? ? ? ? ? ? ? ? ? ? ? p].
  destruct p; try done. unfold head_of in Hh. cbn in Hh. by simplify_eq.
Qed.

#[local] Instance ProducerMeta_eq_dec : EqDecision ProducerMeta.
Proof. solve_decision. Defined.
#[local] Instance AlgorithmMeta_eq_dec : EqDecision AlgorithmMeta.
Proof. solve_decision. Defined.
#[local] Instance FileMeta_eq_dec : EqDecision FileMeta.
Proof. solve_decision. Defined.
#[local] Instance Manifest_eq_dec : EqDecision Manifest.
Proof. solve_decision. Defined.

(** Two texts of the same JSON object. *)
#[local] Instance table_serde : BundleSerde := {|
  parse_event := fun s => if String.eqb s "{}" then Ok (event_of "1.0")
                          else if String.eqb s "{ }" then Ok (event_of "0.3") else Err "unknown";
  parse_manifest := fun s => if String.eqb s "{}" then Ok (manifest_of "{}")
                             else if String.eqb s "{ }" then Ok (manifest_of "{ }") else Err "unknown";
  jcs_event := fun e => if is_event e "1.0" then Ok "{}" else if is_event e "0.3" then Ok "{ }" else Err "unknown";
  jcs_manifest := fun m => if bool_decide (m = manifest_of "{}") then Ok "{}"
                           else if bool_decide (m = manifest_of "{ }") then Ok "{ }" else Err "unknown";
  utf8_error := fun _ => "invalid utf-8"
|}.

Lemma object_text_table s : s = "{}" \/ s = "{ }" -> object_text s /\ is_Some (from_utf8 (to_bytes s)).
Proof.
  intros [-> | ->]; (split; [split|]).
  - by repeat constructor.
  - by exists "".
  - by eexists.
  - by repeat constructor.
  - by exists " ".
  - by eexists.
Qed.

Lemma same_event_refl e : same_event e e.
Proof. exists (ev_payload e). by destruct e. Qed.

#[local] Instance table_laws : SerdeLaws.
Proof.
  split.
  - intros e s. cbn. intros E. apply object_text_table. destruct (is_event e "1.0"), (is_event e "0.3"); naive_solver.
  - intros e s. cbn. destruct (is_event e "1.0") eqn:E1.
    + apply is_event_eq in E1 as ->. intros [= <-]. eauto using same_event_refl.
    + destruct (is_event e "0.3") eqn:E2; [|done]. apply is_event_eq in E2 as ->. intros [= <-].
      eauto using same_event_refl.
  - intros m s. cbn. intros E. apply object_text_table. repeat case_bool_decide; naive_solver.
  - intros m s. cbn. case_bool_decide as E1; [by intros [= <-]; subst|].
    case_bool_decide as E2; [|done]. by intros [= <-]; subst.
Qed.

Definition member (name text : string) : Entry :=
  mkEntry (to_bytes name) (Ok (str_len text)) (mkSource [to_bytes text] None).
Definition archive_of (text : string) : list (Result Entry IoError) :=
  [Ok (member "manifest.json" text); Ok (member "events.ndjson" (text +:+ nl))].

(** The empty source holds the one bundle, any other the other. *)
#[local] Instance table_container : Container := {|
  open_archive := fun _ source => Ok (archive_of (if is_nil source then "{}" else "{ }"), None)
|}.

Lemma member_holds name text : text <> "" -> holds (member name text) name text.
Proof.
  intros Ht. unfold holds. cbn. split_and!; [done | done | apply app_nil_r | done |].
  constructor; [|constructor]. by destruct text.
Qed.

#[local] Instance table_container_laws : ContainerLaws.
Proof.
  split. intros max source entries tail e [= <- _] He. unfold archive_of in He.
  apply elem_of_cons in He as [[= ->]|[= ->]%list_elem_of_singleton];
    (eapply (member_holds _ _); by destruct (is_nil source)).
Qed.

Definition demo_verified : VerifiedBundle :=
  mkVerifiedBundle (mkVerifyResult (manifest_of "{}") 1 (mf_run_root (manifest_of "{}"))) (1700, 1700)%Z.

Lemma demo_verifies : verify_bundle_snapshot [] limits_default = Some (Ok demo_verified).
Proof. vm_compute. reflexivity. Qed.

Lemma verify_sound_witness :
  exists me ee events,
    open_archive (vl_max_decode_bytes limits_default) [] = Ok ([Ok me; Ok ee], None) /\
    BundleOk (manifest_of "{}") (concat (pieces (en_body ee))) events.
Proof.
  destruct (verify_sound [] limits_default demo_verified) as (me & ee & events & Ho & _ & _ & _ & _ & Hb & _).
  - vm_compute. discriminate.
  - vm_compute. discriminate.
  - vm_compute. reflexivity.
  - exists me, ee, events. exact (conj Ho Hb).
Defined.

Lemma demo_fits : Fits limits_default (manifest_of "{}") "{}" ("{}" +:+ nl).
Proof.
  split.
  1-5: vm_compute; intuition discriminate.
  - intros ls Hls. assert (Hl : lines_of (to_bytes ("{}" +:+ nl)) (map text_line ["{}"])).
    { apply (text_lines ["{}"]). by repeat constructor. }
    rewrite (lines_fun _ _ _ Hls Hl). repeat constructor; [vm_compute; discriminate|].
    intros cs [= <-]. vm_compute. reflexivity.
  - intros cs [= <-]. vm_compute. reflexivity.
Qed.

Lemma sealed_bundle_verifies_witness :
  finish [event_of "1.0"] None = Ok (manifest_of "{}", [("manifest.json", "{}"); ("events.ndjson", "{}" +:+ nl)]) /\
  exists w, verify_bundle_snapshot [] limits_default =
    Some (Ok (mkVerifiedBundle (mkVerifyResult (manifest_of "{}") 1 (mf_run_root (manifest_of "{}"))) w)).
Proof.
  assert (E : finish [event_of "1.0"] None =
    Ok (manifest_of "{}", [("manifest.json", "{}"); ("events.ndjson", "{}" +:+ nl)])) by (vm_compute; reflexivity).
  split; [exact E|].
  apply (sealed_bundle_verifies [event_of "1.0"] None (manifest_of "{}") "{}" ("{}" +:+ nl) [] limits_default
    (member "manifest.json" "{}") (member "events.ndjson" ("{}" +:+ nl)) E).
  - by repeat constructor.
  - exact demo_fits.
  - by apply member_holds.
  - by apply member_holds.
  - reflexivity.
Defined.

Lemma sealed_specversion_refused_witness :
  finish [event_of "0.3"] None = Ok (manifest_of "{ }", [("manifest.json", "{ }"); ("events.ndjson", "{ }" +:+ nl)]) /\
  verify_bundle_snapshot ["x"%char] limits_default <> Some (Ok demo_verified).
Proof.
  assert (E : finish [event_of "0.3"] None =
    Ok (manifest_of "{ }", [("manifest.json", "{ }"); ("events.ndjson", "{ }" +:+ nl)])) by (vm_compute; reflexivity).
  split; [exact E|].
  apply (sealed_specversion_refused [event_of "0.3"] None (manifest_of "{ }") "{ }" ("{ }" +:+ nl) ["x"%char] limits_default
    (member "manifest.json" "{ }") (member "events.ndjson" ("{ }" +:+ nl)) demo_verified E).
  - by constructor.
  - vm_compute. discriminate.
  - vm_compute. discriminate.
  - by apply member_holds.
  - by apply member_holds.
  - reflexivity.
Defined.

(** ** Reading *)

Lemma blank_around b1 b b2 first last mid :
  Forall blank_byte b1 -> Forall blank_byte b2 -> plain_byte first -> plain_byte last ->
  first :: mid ++ [last] = b1 ++ b ++ b2 -> b1 = [] /\ b2 = [].
Proof.
  assert (Hno : forall a, blank_byte a -> plain_byte a -> False).
  { intros a [E | [E | [E | E]]] Ha; unfold plain_byte in Ha; lia. }
  intros H1 H2 Hf Hl E. split.
  - destruct b1 as [|a b1]; [done|]. exfalso. injection E as -> _. inversion H1; subst. eauto.
  - destruct b2 as [|a b2] using rev_ind; [done|]. exfalso.
    change (first :: mid ++ [last]) with ((first :: mid) ++ [last]) in E. rewrite !app_assoc in E.
    apply app_inj_tail in E as [_ ->]. apply Forall_app in H2 as [_ H2]. inversion H2; subst. eauto.
Qed.

Lemma table_text_alone w1 s w2 v :
  blank w1 -> blank w2 -> v = "{}" \/ v = "{ }" -> w1 +:+ s +:+ w2 = v -> s = v.
Proof.
  intros H1 H2 Hv E. assert (Hb : to_bytes w1 = [] /\ to_bytes w2 = []).
  { destruct Hv as [-> | ->]; (eapply (blank_around _ (to_bytes s) _ "{" "}"); [exact H1 | exact H2 | vm_compute; naive_solver..|]);
      apply (f_equal to_bytes) in E; rewrite !to_bytes_app in E; symmetry; [instantiate (1 := []) | instantiate (1 := [" "%char])]; exact E. }
  destruct w1, w2; destruct Hb; try done. cbn in E. by rewrite string_app_nil_r in E.
Qed.

#[local] Instance table_json : JsonTextLaws.
Proof.
  assert (Hcase : forall s e, parse_event s = Ok e -> s = "{}" \/ s = "{ }").
  { intros s e. cbn. destruct (String.eqb_spec s "{}"); [by left|]. destruct (String.eqb_spec s "{ }"); [by right|done]. }
  split.
  - intros s e H. exists (JObj []). destruct (Hcase _ _ H) as [-> | ->]; eexists; (split; [reflexivity|]);
      [exists [], (json "{}"), [] | exists [], (json "{ }"), []]; (split_and!; [constructor | | constructor | done]).
    + apply (vt_obj0 []). constructor.
    + apply (vt_obj0 [32%Z]). unfold ws, ws_char. apply Forall_singleton. auto.
  - intros w1 s w2 e H1 H2 H. rewrite (table_text_alone w1 s w2 _ H1 H2 (Hcase _ _ H) eq_refl). exact H.
Qed.

Lemma default_sane : Sane limits_default.
Proof. split; vm_compute; discriminate. Qed.

Definition demo_reader : BundleReader := mkBundleReader (manifest_of "{}") (to_bytes ("{}" +:+ nl)).

Lemma open_iff_verified_witness :
  open_with_limits (mkSource [] None) limits_default = Some (Ok demo_reader) /\
  exists v, verify_bundle_with_limits (mkSource [] None) limits_default = Some (Ok v) /\ vr_manifest v = manifest_of "{}".
Proof.
  assert (E : open_with_limits (mkSource [] None) limits_default = Some (Ok demo_reader)) by (vm_compute; reflexivity).
  destruct (open_iff_verified (mkSource [] None) limits_default default_sane) as [Ho _].
  destruct (Ho demo_reader E) as (v & Hv & Hm). split; [exact E|]. exists v. split; [exact Hv | exact Hm].
Defined.

Lemma opened_events_witness :
  exists events, events_vec demo_reader = Some (Done (Ok events)) /\
    BundleOk (manifest_of "{}") (to_bytes ("{}" +:+ nl)) events.
Proof.
  apply (opened_events (mkSource [] None) limits_default demo_reader default_sane).
  - vm_compute. discriminate.
  - vm_compute. reflexivity.
Defined.

Lemma opened_within_limits_witness :
  (byte_len (br_events_content demo_reader) <= vl_max_events_bytes limits_default)%Z /\
  exists lines, lines_of (br_events_content demo_reader) lines /\ Forall (line_within limits_default) lines /\
    (nonblank lines <= vl_max_events limits_default)%Z.
Proof.
  apply (opened_within_limits (mkSource [] None) No limits_default demo_reader); [vm_compute; discriminate..|].
  vm_compute. reflexivity.
Defined.

Lemma ndjson_roundtrip_witness :
  write_events_to_bytes [event_of "1.0"; event_of "0.3"] = Ok ("{}" +:+ nl +:+ "{ }" +:+ nl) /\
  exists evs', read_events_from_bytes (to_bytes ("{}" +:+ nl +:+ "{ }" +:+ nl)) = Some (Done (Ok evs')) /\
    Forall2 same_event [event_of "1.0"; event_of "0.3"] evs'.
Proof.
  assert (E : write_events_to_bytes [event_of "1.0"; event_of "0.3"] = Ok ("{}" +:+ nl +:+ "{ }" +:+ nl))
    by (vm_compute; reflexivity).
  split; [exact E|]. apply (ndjson_roundtrip _ _ E).
  repeat constructor; intros s cs [= <-] [= <-]; vm_compute; reflexivity.
Defined.

(** A string of 51 bytes whose character at offset 49 has two of them. *)
Definition long_line : string := of_bytes [34]%N +:+ "aaaaaaaaaaaaaaaaaaaaaaaaaaaaaaaaaaaaaaaaaaaaaaaa" +:+ of_bytes [195; 169; 34]%N.

Lemma ndjson_panics_on_multibyte_witness : read_events_from_bytes (to_bytes long_line) = Some Panicked.
Proof.
  apply (ndjson_panics_on_multibyte long_line "unknown"); try (vm_compute; reflexivity).
  - repeat constructor.
  - vm_compute. eexists. reflexivity.
  - vm_compute. lia.
Defined.

(** A caller may verify under a deeper nesting limit than the one the event
    iterator applies. *)
Definition nested (n : nat) : text := repeat (chr "[") n ++ repeat (chr "]") n.

Example deeper_limit_diverges :
  validate_json_strict_with_depth (nested 65) 100 = Some (Ok ()) /\
  validate_json_strict (nested 65) = Some (Err (NestingTooDeep 65)).
Proof. vm_compute. done. Qed.
