(* ===== verification/SequenceEval.v ===== *)
(** * Sequence rules

    [assay-core/src/sequence_eval.rs] and the rule language of
    [assay-core/src/model/types.rs]: rules over the order of a run's tool calls,
    each evaluated to one record (held, violated, or not exercised) with the
    call indices it read.  A run is finished or may still grow
    ([TraceExtent]).

    The evaluation of each rule is shown to decide a property of the trace,
    stated over positions ([violates], [undecided]); a violation reported on an
    unfinished run is shown to be final. *)
From stdpp Require Import base tactics list strings gmap sorting.
From Stdlib Require Import ZArith Lia.
From S2P Require Import Prelude RustStr Json Platform.

(** The [regex] crate: [None] is a pattern that does not compile. *)
Class Regex : Type := { regex_is_match : string -> string -> option bool }.

(** [enumerate().skip(i)] and the first of them that satisfies [f]. *)
Definition find_from {A} (f : A -> bool) (i : nat) (l : list A) : option nat :=
  Nat.add i <$> position f (drop i l).

(** [Vec::dedup] *)
Fixpoint dedup_nat (l : list nat) : list nat :=
  match l with
  | [] => []
  | x :: r =>
      match dedup_nat r with
      | y :: s => if Nat.eqb x y then y :: s else x :: y :: s
      | [] => [x]
      end
  end.

(** ** The rule language *)

Inductive CallSelector : Type :=
| Tool (t : string)
| Matching (tool : string) (args_match : list (string * string)).
#[global] Instance CallSelector_eq_dec : EqDecision CallSelector.
Proof. solve_decision. Defined.

Definition sel_tool (s : CallSelector) : string :=
  match s with Tool t => t | Matching tool _ => tool end.
Definition sel_args_match (s : CallSelector) : option (list (string * string)) :=
  match s with Tool _ => None | Matching _ args_match => Some args_match end.

Definition sel_fmt (s : CallSelector) : string :=
  match s with
  | Tool t => t
  | Matching tool args_match => tool +:+ "[" +:+ str_join "," (map fst args_match) +:+ "]"
  end.

Inductive SequenceRule : Type :=
| Require_ (tool : CallSelector)
| Eventually (tool : CallSelector) (within : Z)
| MaxCalls (tool : CallSelector) (max : Z)
| Before (first thn : CallSelector)
| After (trigger thn : CallSelector) (within : Z)
| NeverAfter (trigger forbidden : CallSelector)
| Sequence (tools : list CallSelector) (strict : bool)
| Blocklist (pattern : string).

Inductive ErrorPolicy : Type := Block | Allow.

Record ToolsPolicy : Type := mkToolsPolicy {
  tp_allow : option (list string);
  tp_deny : option (list string);
  tp_require_args : option (gmap string (list string));
  tp_arg_constraints : option (gmap string (gmap string Value))
}.

Record Policy : Type := mkPolicy {
  pol_version : string;
  pol_name : string;
  pol_metadata : option Value;
  pol_tools : ToolsPolicy;
  pol_sequences : list SequenceRule;
  pol_aliases : gmap string (list string);
  pol_on_error : ErrorPolicy
}.

Definition resolve_alias (p : Policy) (tool_name : string) : list string :=
  match pol_aliases p !! tool_name with
  | Some members => members
  | None => [tool_name]
  end.

(** ** Records of an evaluation *)

Inductive TraceExtent : Type := Complete | Partial.
Inductive RuleOutcome : Type := Held | Violated | NotExercised.
#[global] Instance TraceExtent_eq_dec : EqDecision TraceExtent.
Proof. solve_decision. Defined.
#[global] Instance RuleOutcome_eq_dec : EqDecision RuleOutcome.
Proof. solve_decision. Defined.

Definition extent_label (e : TraceExtent) : string :=
  match e with Complete => "complete" | Partial => "partial" end.
Definition outcome_label (o : RuleOutcome) : string :=
  match o with Held => "held" | Violated => "violated" | NotExercised => "not_exercised" end.

Record RuleEvaluation : Type := mkRuleEvaluation {
  re_rule_id : string;
  re_kind : string;
  re_outcome : RuleOutcome;
  re_spanned : list nat;
  re_reason : option string
}.

Definition held (rule_id kind : string) (spanned : list nat) : RuleEvaluation :=
  mkRuleEvaluation rule_id kind Held spanned None.
Definition violated (rule_id kind : string) (spanned : list nat) (reason : string) : RuleEvaluation :=
  mkRuleEvaluation rule_id kind Violated spanned (Some reason).
Definition not_exercised (rule_id kind reason : string) : RuleEvaluation :=
  mkRuleEvaluation rule_id kind NotExercised [] (Some reason).

Definition is_violation (e : RuleEvaluation) : bool :=
  match re_outcome e with Violated => true | Held | NotExercised => false end.

Record SequenceCall : Type := mkCall {
  sc_name : string;
  sc_args : Value
}.
Definition named (name : string) : SequenceCall := mkCall name Null.

Definition resolve (policy : option Policy) (tool : string) : list string :=
  match policy with Some p => resolve_alias p tool | None => [tool] end.

Definition str_in (s : string) (l : list string) : bool := existsb (String.eqb s) l.

Definition fmt_nat (n : nat) : string := fmt_int (Z.of_nat n).

Section eval.
Context `{Platform} `{Regex}.

Definition constraint_met (args : Value) (c : string * string) : bool :=
  match vget args (fst c) with
  | None => false
  | Some value =>
      let rendered := match value with Str v => v | other => json_to_string other end in
      match regex_is_match (snd c) rendered with Some b => b | None => false end
  end.

Definition selector_matches (policy : option Policy) (sel : CallSelector) (call : SequenceCall) : bool :=
  if negb (str_in (sc_name call) (resolve policy (sel_tool sel))) then false
  else match sel_args_match sel with
       | None => true
       | Some constraints => forallb (constraint_met (sc_args call)) constraints
       end.

Definition indices_matching (calls : list SequenceCall) (sel : CallSelector) (policy : option Policy) : list nat :=
  indices (selector_matches policy sel) calls.
Definition position_matching (calls : list SequenceCall) (sel : CallSelector) (policy : option Policy) : option nat :=
  position (selector_matches policy sel) calls.

Definition call_name (calls : list SequenceCall) (i : nat) : string :=
  match calls !! i with Some c => sc_name c | None => "" end.

(** The obligations of [After], one per trigger. *)
Fixpoint after_loop (id : string) (trigger thn : CallSelector) (within : Z) (calls : list SequenceCall)
    (policy : option Policy) (extent : TraceExtent) (triggers spanned : list nat) : RuleEvaluation :=
  match triggers with
  | [] => held id "after" (dedup_nat (merge_sort le spanned))
  | ti :: rest =>
      let deadline := ti + Z.to_nat within in
      match position (selector_matches policy thn) (take (deadline - ti) (drop (ti + 1) calls)) with
      | Some j => after_loop id trigger thn within calls policy extent rest (spanned ++ [ti + 1 + j])
      | None =>
          if bool_decide (extent = Complete) || (deadline <? length calls) then
            violated id "after" (dedup_nat (merge_sort le spanned))
              ("tool '" +:+ sel_fmt thn +:+ "' required within " +:+ fmt_int within +:+
               " calls after '" +:+ sel_fmt trigger +:+ "' (triggered at index " +:+ fmt_nat ti +:+
               ") and no call answered it by index " +:+ fmt_nat deadline)
          else
            not_exercised id "after"
              ("'" +:+ sel_fmt trigger +:+ "' fired at index " +:+ fmt_nat ti +:+
               " and the trace may still satisfy the " +:+ fmt_int within +:+ "-call deadline")
      end
  end.

Definition sel_at (tools : list CallSelector) (i : nat) : string :=
  match tools !! i with Some t => sel_fmt t | None => "" end.
Definition expects (policy : option Policy) (tools : list CallSelector) (i : nat) (c : SequenceCall) : bool :=
  match tools !! i with Some t => selector_matches policy t c | None => false end.

(** The scan of [Sequence] from call [idx]: a violation, or how far it got. *)
Fixpoint sequence_loop (id : string) (tools : list CallSelector) (strict : bool) (policy : option Policy)
    (idx : nat) (calls : list SequenceCall) (seq_idx : nat) (spanned : list nat)
    : RuleEvaluation + (nat * list nat) :=
  match calls with
  | [] => inr (seq_idx, spanned)
  | call :: rest =>
      if expects policy tools seq_idx call then
        sequence_loop id tools strict policy (S idx) rest (S seq_idx) (spanned ++ [idx])
      else if strict && negb (is_nil spanned) && (seq_idx <? length tools) then
        inl (violated id "sequence" (spanned ++ [idx])
          ("strict sequence violated: expected '" +:+ sel_at tools seq_idx +:+ "' at index " +:+
           fmt_nat idx +:+ " but found '" +:+ sc_name call +:+ "'"))
      else if negb strict && (seq_idx <? length tools)
              && existsb (fun t => selector_matches policy t call) (drop (seq_idx + 1) tools) then
        inl (violated id "sequence" (spanned ++ [idx])
          ("sequence out of order: '" +:+ sc_name call +:+ "' at index " +:+ fmt_nat idx +:+
           " appears before '" +:+ sel_at tools seq_idx +:+ "'"))
      else sequence_loop id tools strict policy (S idx) rest seq_idx spanned
  end.

Definition evaluate_rule (rule : SequenceRule) (calls : list SequenceCall) (policy : option Policy)
    (extent : TraceExtent) : RuleEvaluation :=
  match rule with
  | Require_ tool =>
      let id := "require:" +:+ sel_fmt tool in
      let hits := indices_matching calls tool policy in
      if is_nil hits then
        violated id "require" [] ("required tool '" +:+ sel_fmt tool +:+ "' not found in trace")
      else held id "require" hits
  | Blocklist pattern =>
      let id := "blocklist:" +:+ pattern in
      let hits := indices (fun c => str_contains (sc_name c) pattern) calls in
      match hits with
      | idx :: _ =>
          violated id "blocklist" hits
            ("tool '" +:+ call_name calls idx +:+ "' matches blocklist pattern '" +:+ pattern +:+ "'")
      | [] => held id "blocklist" (seq 0 (length calls))
      end
  | Before first thn =>
      let id := "before:" +:+ sel_fmt first +:+ "->" +:+ sel_fmt thn in
      let first_idx := position_matching calls first policy in
      match position_matching calls thn policy with
      | None =>
          not_exercised id "before"
            ("'" +:+ sel_fmt thn +:+ "' never appeared, so the ordering was never constrained")
      | Some t_idx =>
          match first_idx with
          | Some f_idx =>
              if t_idx <? f_idx then
                violated id "before" [f_idx; t_idx]
                  ("tool '" +:+ sel_fmt first +:+ "' appeared at index " +:+ fmt_nat f_idx +:+
                   " but was required before tool '" +:+ sel_fmt thn +:+ "' (index " +:+ fmt_nat t_idx +:+ ")")
              else held id "before" [f_idx; t_idx]
          | None =>
              violated id "before" [t_idx]
                ("tool '" +:+ sel_fmt thn +:+ "' was found (index " +:+ fmt_nat t_idx +:+
                 ") but required preceding tool '" +:+ sel_fmt first +:+ "' was missing")
          end
      end
  | NeverAfter trigger forbidden =>
      let id := "never_after:" +:+ sel_fmt trigger +:+ "->" +:+ sel_fmt forbidden in
      match position_matching calls trigger policy with
      | None =>
          not_exercised id "never_after"
            ("'" +:+ sel_fmt trigger +:+ "' never appeared, so nothing was forbidden")
      | Some trig_idx =>
          match find_from (selector_matches policy forbidden) (trig_idx + 1) calls with
          | Some idx =>
              violated id "never_after" [trig_idx; idx]
                ("tool '" +:+ sel_fmt forbidden +:+ "' at index " +:+ fmt_nat idx +:+ " is forbidden after '"
                 +:+ sel_fmt trigger +:+ "' (triggered at index " +:+ fmt_nat trig_idx +:+ ")")
          | None => held id "never_after" [trig_idx]
          end
      end
  | MaxCalls tool max =>
      let id := "max_calls:" +:+ sel_fmt tool +:+ "<=" +:+ fmt_int max in
      let hits := indices_matching calls tool policy in
      let count := as_u32 (Z.of_nat (length hits)) in
      if (max <? count)%Z then
        violated id "max_calls" hits
          ("tool '" +:+ sel_fmt tool +:+ "' exceeded max calls (" +:+ fmt_int count +:+ " > " +:+ fmt_int max +:+ ")")
      else held id "max_calls" hits
  | Eventually tool within =>
      let id := "eventually:" +:+ sel_fmt tool +:+ "@" +:+ fmt_int within in
      match position_matching calls tool policy with
      | Some idx =>
          if (within <=? as_u32 (Z.of_nat idx))%Z then
            violated id "eventually" [idx]
              ("tool '" +:+ sel_fmt tool +:+ "' appeared at index " +:+ fmt_nat idx +:+
               " but must appear within first " +:+ fmt_int within +:+ " calls")
          else held id "eventually" [idx]
      | None =>
          if (within <=? as_u32 (Z.of_nat (length calls)))%Z then
            violated id "eventually" (seq 0 (length calls))
              ("tool '" +:+ sel_fmt tool +:+ "' required within first " +:+ fmt_int within +:+
               " calls but not found (trace length: " +:+ fmt_nat (length calls) +:+ ")")
          else if bool_decide (extent = Complete) then
            violated id "eventually" (seq 0 (length calls))
              ("tool '" +:+ sel_fmt tool +:+ "' required within the first " +:+ fmt_int within +:+
               " calls but the run ended after " +:+ fmt_nat (length calls) +:+ " without it")
          else
            not_exercised id "eventually"
              ("'" +:+ sel_fmt tool +:+ "' has not appeared and the trace is " +:+ fmt_nat (length calls) +:+
               " call(s) long, still within the " +:+ fmt_int within +:+ "-call deadline")
      end
  | After trigger thn within =>
      let id := "after:" +:+ sel_fmt trigger +:+ "->" +:+ sel_fmt thn +:+ "@" +:+ fmt_int within in
      let triggers := indices_matching calls trigger policy in
      if is_nil triggers then
        not_exercised id "after" ("'" +:+ sel_fmt trigger +:+ "' never appeared, so no deadline started")
      else after_loop id trigger thn within calls policy extent triggers triggers
  | Sequence tools strict =>
      let id := "sequence" +:+ (if strict then ":strict" else "") +:+ ":" +:+ str_join ">" (map sel_fmt tools) in
      if is_nil tools then not_exercised id "sequence" "the rule names no tools"
      else
        match sequence_loop id tools strict policy 0 calls 0 [] with
        | inl e => e
        | inr (seq_idx, spanned) =>
            if negb (is_nil spanned) && (seq_idx <? length tools) && bool_decide (extent = Complete) then
              violated id "sequence" spanned
                ("sequence reached '" +:+ sel_at tools (seq_idx - 1) +:+ "' and the run ended before '" +:+
                 sel_at tools seq_idx +:+ "'")
            else if is_nil spanned then
              not_exercised id "sequence" "no tool named by the sequence appeared"
            else held id "sequence" spanned
        end
  end.

Definition evaluate_rules (rules : list SequenceRule) (calls : list SequenceCall) (policy : option Policy)
    (extent : TraceExtent) : list RuleEvaluation :=
  map (fun r => evaluate_rule r calls policy extent) rules.

End eval.

(** ** What a rule says of a trace *)

Section meaning.
Context `{Platform} `{Regex} (policy : option Policy).

(** A call that [sel] selects is at position [i]. *)
Definition hit (calls : list SequenceCall) (sel : CallSelector) (i : nat) : Prop :=
  exists c, calls !! i = Some c /\ selector_matches policy sel c = true.

(** How many tools of a sequence a trace has gone through. *)
Inductive progress (tools : list CallSelector) : list SequenceCall -> nat -> Prop :=
| progress_nil : progress tools [] 0
| progress_next calls k c : progress tools calls k -> expects policy tools k c = true ->
    progress tools (calls ++ [c]) (S k)
| progress_stay calls k c : progress tools calls k -> expects policy tools k c = false ->
    progress tools (calls ++ [c]) k.

(** Call [c] after [calls] breaks the sequence: strictly, it interrupts a
    started one; otherwise it belongs to a later step than the next. *)
Definition breaks (tools : list CallSelector) (strict : bool) (calls : list SequenceCall) (c : SequenceCall) : Prop :=
  exists k, progress tools calls k /\ k < length tools /\ expects policy tools k c = false /\
    if strict then 0 < k else exists k', k < k' /\ expects policy tools k' c = true.

Definition violates (extent : TraceExtent) (rule : SequenceRule) (calls : list SequenceCall) : Prop :=
  match rule with
  | Require_ tool => forall i, ~ hit calls tool i
  | Blocklist pattern => exists i c, calls !! i = Some c /\ str_contains (sc_name c) pattern = true
  | Before first thn => exists j, hit calls thn j /\ forall i, i <= j -> ~ hit calls first i
  | NeverAfter trigger forbidden => exists i j, i < j /\ hit calls trigger i /\ hit calls forbidden j
  | MaxCalls tool max =>
      (max < Z.of_nat (length (filter (fun c => selector_matches policy tool c = true) calls)))%Z
  | Eventually tool within =>
      (extent = Complete \/ (within <= Z.of_nat (length calls))%Z) /\
      forall i, (Z.of_nat i < within)%Z -> ~ hit calls tool i
  | After trigger thn within =>
      exists i, hit calls trigger i /\ (forall j, i < j <= i + Z.to_nat within -> ~ hit calls thn j) /\
        (extent = Complete \/ i + Z.to_nat within < length calls)
  | Sequence tools strict =>
      (exists before c after, calls = before ++ c :: after /\ breaks tools strict before c) \/
      (extent = Complete /\ exists k, progress tools calls k /\ 0 < k < length tools)
  end.

(** No verdict: the rule's antecedent never fired, or a deadline is open. *)
Definition undecided (extent : TraceExtent) (rule : SequenceRule) (calls : list SequenceCall) : Prop :=
  ~ violates extent rule calls /\
  match rule with
  | Require_ _ | Blocklist _ | MaxCalls _ _ => False
  | Before _ thn => forall i, ~ hit calls thn i
  | NeverAfter trigger _ => forall i, ~ hit calls trigger i
  | Eventually tool _ => extent = Partial /\ forall i, ~ hit calls tool i
  | After trigger thn within =>
      (forall i, ~ hit calls trigger i) \/
      exists i, hit calls trigger i /\ forall j, i < j <= i + Z.to_nat within -> ~ hit calls thn j
  | Sequence tools _ => progress tools calls 0
  end.

Lemma hit_position calls sel :
  match position_matching calls sel policy with
  | Some i => hit calls sel i /\ forall j, j < i -> ~ hit calls sel j
  | None => forall i, ~ hit calls sel i
  end.
Proof.
  unfold position_matching. destruct (position _ calls) as [i|] eqn:E.
  - apply position_Some in E as [Hx Hmin]. split; [done|].
    intros j Hj (c & Hc & Hm). by rewrite (Hmin j c Hj Hc) in Hm.
  - intros i (c & Hc & Hm). pose proof (proj1 (position_None _ _) E i c Hc). congruence.
Qed.
Lemma hit_indices calls sel i : i ∈ indices_matching calls sel policy <-> hit calls sel i.
Proof. apply elem_indices. Qed.
Lemma hit_none calls sel : indices_matching calls sel policy = [] <-> forall i, ~ hit calls sel i.
Proof.
  unfold indices_matching. rewrite indices_nil. split.
  - intros Hf i (c & Hc & Hm). by rewrite (Hf i c Hc) in Hm.
  - intros Hh i c Hc. destruct (selector_matches policy sel c) eqn:E; [|done]. exfalso. apply (Hh i). by exists c.
Qed.
Lemma hit_bound calls sel i : hit calls sel i -> i < length calls.
Proof. intros (c & Hc & _). by apply lookup_lt_Some in Hc. Qed.

Lemma hit_window calls sel i n :
  match position (selector_matches policy sel) (take n (drop (i + 1) calls)) with
  | Some j => j < n /\ hit calls sel (i + 1 + j)
  | None => forall j, i < j <= i + n -> ~ hit calls sel j
  end.
Proof.
  destruct (position _ _) as [j|] eqn:E.
  - apply position_Some in E as [(c & Hc & Hm) _]. apply lookup_take_Some in Hc as [Hc Hj].
    rewrite lookup_drop in Hc. split; [done|]. exists c. split; [|done]. done.
  - intros j Hj (c & Hc & Hm). pose proof (proj1 (position_None _ _) E (j - (i + 1)) c) as Hf.
    rewrite lookup_take_lt, lookup_drop in Hf by lia.
    replace (i + 1 + (j - (i + 1))) with j in Hf by lia. specialize (Hf Hc). congruence.
Qed.

(** *** Deadlines *)

Lemma after_loop_outcome id trigger thn within calls extent triggers spanned :
  StronglySorted lt triggers ->
  let unanswered i := forall j, i < j <= i + Z.to_nat within -> ~ hit calls thn j in
  let closed i := extent = Complete \/ i + Z.to_nat within < length calls in
  match re_outcome (after_loop id trigger thn within calls policy extent triggers spanned) with
  | Violated => exists i, i ∈ triggers /\ unanswered i /\ closed i
  | NotExercised => (exists i, i ∈ triggers /\ unanswered i) /\ forall i, i ∈ triggers -> unanswered i -> ~ closed i
  | Held => forall i, i ∈ triggers -> ~ unanswered i
  end.
Proof.
  intros Hs unanswered closed. revert spanned.
  induction Hs as [|ti rest Hs IH Hlt]; intros spanned; cbn [after_loop re_outcome held].
  { by intros i ?%elem_of_nil. }
  replace (ti + Z.to_nat within - ti) with (Z.to_nat within) by lia.
  pose proof (hit_window calls thn ti (Z.to_nat within)) as Hw.
  destruct (position _ _) as [j|].
  - assert (Ha : ~ unanswered ti). { destruct Hw as [Hj Hh]. intros Hu. apply (Hu (ti + 1 + j)); [lia | done]. }
    specialize (IH (spanned ++ [ti + 1 + j])). destruct (re_outcome _).
    + intros i [->|Hi]%elem_of_cons; [done | by apply IH].
    + destruct IH as (i & Hi & ?). exists i. split; [by right | done].
    + destruct IH as [(i & Hi & Hu) Hall]. split; [exists i; split; [by right | done]|].
      intros k [->|Hk]%elem_of_cons; [done | by apply Hall].
  - destruct (bool_decide (extent = Complete) || (ti + Z.to_nat within <? length calls)) eqn:E; cbn.
    + exists ti. split_and!; [by left | done|]. unfold closed.
      apply orb_true_iff in E as [E%bool_decide_eq_true|E%Nat.ltb_lt]; auto.
    + apply orb_false_iff in E as [E1%bool_decide_eq_false E2%Nat.ltb_ge]. split; [exists ti; split; [by left | done]|].
      intros i Hi _ [?|Hc]; [done|]. apply elem_of_cons in Hi as [->|Hi]; [lia|].
      rewrite Forall_forall in Hlt. specialize (Hlt i Hi). lia.
Qed.

(** *** Sequences *)

Lemma progress_fun tools l k k' : progress tools l k -> progress tools l k' -> k = k'.
Proof.
  intros Hp. revert k'. induction Hp as [|l k c Hp IH He|l k c Hp IH He]; intros k' Hk'.
  - inversion Hk' as [|l' ? c' ? ? E|l' ? c' ? ? E]; [done|destruct l'; done..].
  - inversion Hk' as [E|l' k2 c' Hl' He' E|l' k2 c' Hl' He' E]; [destruct l; done| |];
      (apply app_inj_2 in E as [-> [= ->]]; [|done]).
    + by rewrite (IH k2 Hl').
    + rewrite (IH k' Hl') in He. congruence.
  - inversion Hk' as [E|l' k2 c' Hl' He' E|l' k2 c' Hl' He' E]; [destruct l; done| |];
      (apply app_inj_2 in E as [-> [= ->]]; [|done]).
    + rewrite (IH k2 Hl') in He. congruence.
    + by apply IH.
Qed.

Definition unbroken (tools : list CallSelector) (strict : bool) (calls : list SequenceCall) : Prop :=
  forall before c after, calls = before ++ c :: after -> ~ breaks tools strict before c.

Lemma unbroken_snoc tools strict calls c :
  unbroken tools strict calls -> ~ breaks tools strict calls c -> unbroken tools strict (calls ++ [c]).
Proof.
  intros Hu Hc before c' after E. destruct after as [|d after _] using rev_ind.
  - apply app_inj_2 in E as [-> [= ->]]; done.
  - rewrite app_comm_cons, app_assoc in E. apply app_inj_2 in E as [-> _]; [|done]. by eapply Hu.
Qed.

Lemma expects_later tools k c :
  existsb (fun t => selector_matches policy t c) (drop (k + 1) tools) = true <->
  exists k', k < k' /\ expects policy tools k' c = true.
Proof.
  rewrite existsb_true. unfold expects. split.
  - intros (t & Ht & Hm). apply list_elem_of_lookup in Ht as [i Hi]. rewrite lookup_drop in Hi.
    exists (k + 1 + i). split; [lia|]. by rewrite Hi.
  - intros (k' & Hk & Hm). destruct (tools !! k') as [t|] eqn:E; [|done]. exists t. split; [|done].
    apply list_elem_of_lookup. exists (k' - (k + 1)). rewrite lookup_drop.
    by replace (k + 1 + (k' - (k + 1))) with k' by lia.
Qed.

Lemma sequence_loop_outcome id tools strict pre rest k spanned :
  progress tools pre k -> (spanned = [] <-> k = 0) -> unbroken tools strict pre ->
  match sequence_loop id tools strict policy (length pre) rest k spanned with
  | inl e => re_outcome e = Violated /\
      exists before c after, pre ++ rest = before ++ c :: after /\ breaks tools strict before c
  | inr (k', spanned') =>
      progress tools (pre ++ rest) k' /\ (spanned' = [] <-> k' = 0) /\ unbroken tools strict (pre ++ rest)
  end.
Proof.
  revert pre k spanned. induction rest as [|c rest IH]; intros pre k spanned Hp Hk Hu; cbn [sequence_loop].
  { by rewrite app_nil_r. }
  assert (Hb : breaks tools strict pre c <-> k < length tools /\ expects policy tools k c = false /\
    if strict then 0 < k else exists k', k < k' /\ expects policy tools k' c = true).
  { split; [|by exists k]. intros (k2 & Hp2 & ?). by rewrite (progress_fun _ _ _ _ Hp Hp2). }
  assert (Hsnoc : forall k' sp, progress tools (pre ++ [c]) k' -> (sp = [] <-> k' = 0) -> ~ breaks tools strict pre c ->
    match sequence_loop id tools strict policy (S (length pre)) rest k' sp with
    | inl e => re_outcome e = Violated /\
        exists before c0 after, pre ++ c :: rest = before ++ c0 :: after /\ breaks tools strict before c0
    | inr (k', spanned') =>
        progress tools (pre ++ c :: rest) k' /\ (spanned' = [] <-> k' = 0) /\ unbroken tools strict (pre ++ c :: rest)
    end).
  { intros k' sp Hp' Hsp Hnb. specialize (IH (pre ++ [c]) k' sp Hp' Hsp (unbroken_snoc _ _ _ _ Hu Hnb)).
    rewrite length_app, Nat.add_1_r, <- app_assoc in IH. exact IH. }
  destruct (expects policy tools k c) eqn:Ee.
  { apply Hsnoc; [by apply progress_next | | rewrite Hb; naive_solver]. by destruct spanned. }
  assert (Hst : progress tools (pre ++ [c]) k) by by apply progress_stay.
  assert (Hsp : negb (is_nil spanned) = true <-> 0 < k).
  { rewrite negb_true_iff, is_nil_false. rewrite Hk. lia. }
  destruct strict; cbn [negb andb].
  - destruct (negb (is_nil spanned) && (k <? length tools)) eqn:E.
    + apply andb_true_iff in E as [E1 E2%Nat.ltb_lt]. split; [done|].
      exists pre, c, rest. split; [done|]. apply Hb. split_and!; [done | done | by apply Hsp].
    + apply Hsnoc; [done | done |]. rewrite Hb. intros (H1 & _ & H2). apply Hsp in H2. rewrite H2 in E.
      apply Nat.ltb_ge in E. lia.
  - destruct ((k <? length tools) && existsb _ _) eqn:E.
    + apply andb_true_iff in E as [E1%Nat.ltb_lt E2%expects_later]. split; [done|].
      exists pre, c, rest. split; [done|]. by apply Hb.
    + apply Hsnoc; [done | done |]. rewrite Hb. intros (H1 & _ & H2). apply expects_later in H2. rewrite H2 in E.
      rewrite andb_true_r in E. apply Nat.ltb_ge in E. lia.
Qed.

(** *** Verdicts *)

(** What an outcome means. *)
Definition verdict_means (extent : TraceExtent) (rule : SequenceRule) (calls : list SequenceCall) (o : RuleOutcome) : Prop :=
  match o with
  | Violated => violates extent rule calls
  | NotExercised => undecided extent rule calls
  | Held => ~ violates extent rule calls /\ ~ undecided extent rule calls
  end.

(** Exposes what an outcome means. *)
Ltac outcome := cbn [re_outcome held violated not_exercised verdict_means violates undecided].

Lemma before_verdict first thn calls extent :
  verdict_means extent (Before first thn) calls (re_outcome (evaluate_rule (Before first thn) calls policy extent)).
Proof.
  cbn [evaluate_rule]. pose proof (hit_position calls first) as Hf. pose proof (hit_position calls thn) as Ht.
  destruct (position_matching calls thn policy) as [t|];
    [|outcome; split; [intros (j & Hj & _); by apply Ht in Hj | done]].
  destruct Ht as [Ht Htmin]. destruct (position_matching calls first policy) as [f|]; outcome; [|eauto].
  destruct Hf as [Hf Hfmin]. destruct (Nat.ltb_spec t f); outcome.
  - exists t. split; [done|]. intros i Hi. apply Hfmin. lia.
  - split; [|intros [_ Hn]; by apply Hn in Ht]. intros (j & Hj & Hno).
    destruct (decide (j < t)); [by apply (Htmin j)|]. apply (Hno f); [lia | done].
Qed.

Lemma never_after_verdict trigger forbidden calls extent :
  verdict_means extent (NeverAfter trigger forbidden) calls
    (re_outcome (evaluate_rule (NeverAfter trigger forbidden) calls policy extent)).
Proof.
  cbn [evaluate_rule]. pose proof (hit_position calls trigger) as Ht.
  destruct (position_matching calls trigger policy) as [t|];
    [|outcome; split; [intros (i & j & _ & Hi & _); by apply Ht in Hi | done]].
  destruct Ht as [Ht Hmin]. unfold find_from.
  destruct (position _ (drop (t + 1) calls)) as [j|] eqn:E; outcome.
  - apply position_Some in E as [(c & Hc & Hm) _]. rewrite lookup_drop in Hc.
    exists t, (t + 1 + j). split; [lia|]. split; [done|]. by exists c.
  - split; [|intros [_ Hn]; by apply Hn in Ht]. intros (i & j & Hij & Hi & (c & Hc & Hm)).
    assert (t <= i) by (destruct (decide (i < t)) as [Hlt|]; [by apply Hmin in Hlt | lia]).
    pose proof (proj1 (position_None _ _) E (j - (t + 1)) c) as Hf. rewrite lookup_drop in Hf.
    replace (t + 1 + (j - (t + 1))) with j in Hf by lia. specialize (Hf Hc). congruence.
Qed.

Lemma as_u32_small n : (0 <= n < 2 ^ 32)%Z -> as_u32 n = n.
Proof. apply Z.mod_small. Qed.

Lemma eventually_verdict tool within calls extent :
  (Z.of_nat (length calls) < 2 ^ 32)%Z ->
  verdict_means extent (Eventually tool within) calls
    (re_outcome (evaluate_rule (Eventually tool within) calls policy extent)).
Proof.
  intros Hlen. cbn [evaluate_rule]. pose proof (hit_position calls tool) as Ht.
  destruct (position_matching calls tool policy) as [t|].
  - destruct Ht as [Ht Hmin]. pose proof (hit_bound _ _ _ Ht).
    rewrite as_u32_small by lia. destruct (Z.leb_spec within (Z.of_nat t)); outcome.
    + split; [right; lia|]. intros i Hi. apply Hmin. lia.
    + split; [intros [_ Hno]; by apply (Hno t) | intros [_ [_ Hn]]; by apply Hn in Ht].
  - rewrite as_u32_small by lia. destruct (Z.leb_spec within (Z.of_nat (length calls))); [split; auto|].
    case_bool_decide as Hc; outcome; [split; auto|]. split; [intros [[?|?] _]; [done | lia]|].
    split; [by destruct extent | done].
Qed.

Lemma after_verdict trigger thn within calls extent :
  verdict_means extent (After trigger thn within) calls
    (re_outcome (evaluate_rule (After trigger thn within) calls policy extent)).
Proof.
  cbn [evaluate_rule]. destruct (is_nil (indices_matching calls trigger policy)) eqn:E.
  - apply is_nil_true in E. rewrite hit_none in E. outcome. split; [intros (i & Hi & _); by apply E in Hi | by left].
  - apply is_nil_false in E.
    assert (Hex : exists i, i ∈ indices_matching calls trigger policy).
    { destruct (indices_matching calls trigger policy) as [|i r]; [done|]. exists i. by left. }
    pose proof (after_loop_outcome
      ("after:" +:+ sel_fmt trigger +:+ "->" +:+ sel_fmt thn +:+ "@" +:+ fmt_int within)
      trigger thn within calls extent (indices_matching calls trigger policy)
      (indices_matching calls trigger policy) (indices_sorted _ _ _)) as Ha.
    cbn beta zeta in Ha. pose proof (hit_indices calls trigger) as Hhit.
    destruct (re_outcome _); outcome.
    + split; [|intros [_ [Hn|(i & Hi & Hu)]]].
      * intros (i & Hi & Hu & _). apply (Ha i); [by apply Hhit | done].
      * destruct Hex as [i Hi]. apply Hhit in Hi. by apply Hn in Hi.
      * apply (Ha i); [by apply Hhit | done].
    + destruct Ha as (i & Hi & ?). exists i. split; [by apply Hhit | done].
    + destruct Ha as [(i & Hi & Hu) Hall]. split; [|right; exists i; split; [by apply Hhit | done]].
      intros (k & Hk & Huk & Hc). apply (Hall k); [by apply Hhit | done | done].
Qed.

Lemma sequence_verdict tools strict calls extent :
  verdict_means extent (Sequence tools strict) calls
    (re_outcome (evaluate_rule (Sequence tools strict) calls policy extent)).
Proof.
  cbn [evaluate_rule].
  set (id := "sequence" +:+ _). clearbody id.
  pose proof (sequence_loop_outcome id tools strict [] calls 0 [] (progress_nil _) ltac:(done)) as Hl.
  cbn [app length] in Hl. specialize (Hl ltac:(intros [|??] ? ?; done)).
  destruct (is_nil tools) eqn:E.
  - apply is_nil_true in E as ->. cbn [re_outcome not_exercised verdict_means].
    assert (Hv : ~ violates extent (Sequence [] strict) calls).
    { intros [(b & c & a & _ & k & _ & Hk & _)|(_ & k & _ & Hk)]; cbn in Hk; lia. }
    split; [done|]. clear Hl. induction calls as [|c l IH] using rev_ind; [constructor|].
    apply progress_stay; [|done]. apply IH.
    intros [(b & c' & a & _ & k & _ & Hk & _)|(_ & k & _ & Hk)]; cbn in Hk; lia.
  - destruct (sequence_loop id tools strict policy 0 calls 0 []) as [e|[k sp]].
    + destruct Hl as [-> Hl]. by left.
    + destruct Hl as (Hp & Hsp & Hu).
      assert (Hnil : is_nil sp = true <-> k = 0) by (rewrite is_nil_true; exact Hsp).
      assert (Hv : violates extent (Sequence tools strict) calls <-> extent = Complete /\ 0 < k < length tools).
      { cbn. split.
        - intros [(b & c & a & E' & Hb)|(Hc & k' & Hk & ?)]; [by destruct (Hu b c a E' Hb)|].
          by rewrite (progress_fun _ _ _ _ Hp Hk).
        - intros [Hc Hk]. right. eauto. }
      destruct (negb (is_nil sp) && (k <? length tools) && bool_decide (extent = Complete)) eqn:E1; cbn [re_outcome violated].
      * apply andb_true_iff in E1 as [[E1 E2%Nat.ltb_lt]%andb_true_iff E3%bool_decide_eq_true].
        apply Hv. split; [done|]. destruct (is_nil sp); [done|]. lia.
      * assert (Hno : ~ violates extent (Sequence tools strict) calls).
        { rewrite Hv. intros [Hc Hk]. rewrite (bool_decide_eq_true_2 _ Hc), andb_true_r in E1.
          apply andb_false_iff in E1 as [E1%negb_false_iff|E1%Nat.ltb_ge]; [apply Hnil in E1|]; lia. }
        destruct (is_nil sp) eqn:E2; cbn [re_outcome not_exercised held].
        -- split; [done|]. rewrite <- (proj1 Hnil eq_refl). exact Hp.
        -- split; [done|]. intros [_ Hz]. pose proof (progress_fun _ _ _ _ Hp Hz) as Hk0.
           by apply Hnil in Hk0.
Qed.

Lemma evaluate_rule_verdict rule calls extent :
  (Z.of_nat (length calls) < 2 ^ 32)%Z ->
  verdict_means extent rule calls (re_outcome (evaluate_rule rule calls policy extent)).
Proof.
  intros Hlen. destruct rule as [tool| | tool max| | | | |pattern];
    [|by apply eventually_verdict| |apply before_verdict|apply after_verdict
     |apply never_after_verdict|apply sequence_verdict|].
  - cbn [evaluate_rule]. destruct (is_nil _) eqn:E; outcome.
    + apply is_nil_true in E. by rewrite hit_none in E.
    + apply is_nil_false in E. rewrite hit_none in E. split; [done | by intros []].
  - cbn [evaluate_rule]. unfold indices_matching, indices. rewrite length_indices.
    assert (length (filter (fun c => selector_matches policy tool c = true) calls) <= length calls)
      by apply length_filter.
    rewrite as_u32_small by lia. destruct (Z.ltb_spec max (Z.of_nat (length (filter (fun c => selector_matches policy tool c = true) calls)))); outcome.
    + done.
    + split; [lia | by intros []].
  - cbn [evaluate_rule]. destruct (indices _ calls) as [|i r] eqn:E; outcome.
    + rewrite indices_nil in E. split; [|by intros []]. intros (i & c & Hc & Hm). by rewrite (E i c Hc) in Hm.
    + assert (Hi : i ∈ indices (fun c => str_contains (sc_name c) pattern) calls) by (rewrite E; by left).
      apply elem_indices in Hi as (c & ? & ?). eauto.
Qed.

(** C11: The record of a rule decides what the rule says of the trace: it is a
    violation exactly when the trace violates the rule, given whether the run
    is over, and it is not exercised exactly when the rule's antecedent never
    fired or its deadline is still open. *)
Theorem evaluate_rule_spec rule calls extent :
  (Z.of_nat (length calls) < 2 ^ 32)%Z ->
  (re_outcome (evaluate_rule rule calls policy extent) = Violated <-> violates extent rule calls) /\
  (re_outcome (evaluate_rule rule calls policy extent) = NotExercised <-> undecided extent rule calls).
Proof.
  intros Hlen. pose proof (evaluate_rule_verdict rule calls extent Hlen) as Hv.
  destruct (re_outcome _); cbn [verdict_means] in Hv; unfold undecided in *; naive_solver.
Qed.

(** *** Growing traces *)

Lemma hit_app calls more sel i : hit calls sel i -> hit (calls ++ more) sel i.
Proof. intros (c & Hc & Hm). exists c. split; [by apply lookup_app_l_Some | done]. Qed.
Lemma hit_app_inv calls more sel i : i < length calls -> hit (calls ++ more) sel i -> hit calls sel i.
Proof. intros Hi (c & Hc & Hm). exists c. by rewrite lookup_app_l in Hc. Qed.

Definition is_require (rule : SequenceRule) : bool :=
  match rule with Require_ _ => true | _ => false end.

Lemma violates_grows rule calls more extent :
  is_require rule = false -> violates Partial rule calls -> violates extent rule (calls ++ more).
Proof.
  destruct rule as [tool|tool within|tool max|first thn|trigger thn within|trigger forbidden|tools strict|pattern];
    intros Hr; cbn [violates]; [done|..].
  - intros [[?|Hlen] Hno]; [done|]. rewrite length_app. split; [right; lia|].
    intros i Hi Hh. apply (Hno i Hi). apply hit_app_inv in Hh; [done | lia].
  - rewrite filter_app, length_app. lia.
  - intros (j & Hj & Hno). exists j. split; [by apply hit_app|]. intros i Hi Hh. apply (Hno i Hi).
    apply hit_app_inv in Hh; [done|]. apply hit_bound in Hj. lia.
  - intros (i & Hi & Hno & [?|Hlen]); [done|]. exists i. rewrite length_app.
    split_and!; [by apply hit_app | | right; lia]. intros j Hj Hh. apply (Hno j Hj).
    apply hit_app_inv in Hh; [done | lia].
  - intros (i & j & ? & ? & ?). exists i, j. eauto using hit_app.
  - intros [(b & c & a & -> & Hb)|[? _]]; [|done]. left. exists b, c, (a ++ more).
    split; [by rewrite <- app_assoc | done].
  - intros (i & c & Hc & Hm). exists i, c. split; [by apply lookup_app_l_Some | done].
Qed.

(** A violation reported on a run that may still grow is final: whatever
    calls follow, and when the run is over, the rule is still violated.  The
    exception is [require], which reports a tool not seen yet as a violation. *)
Theorem violation_is_final rule calls more extent :
  is_require rule = false -> (Z.of_nat (length (calls ++ more)) < 2 ^ 32)%Z ->
  re_outcome (evaluate_rule rule calls policy Partial) = Violated ->
  re_outcome (evaluate_rule rule (calls ++ more) policy extent) = Violated.
Proof.
  intros Hr Hlen Hv. assert (Hlen' : (Z.of_nat (length calls) < 2 ^ 32)%Z) by (rewrite length_app in Hlen; lia).
  pose proof (evaluate_rule_verdict rule calls Partial Hlen') as Hp. rewrite Hv in Hp.
  pose proof (evaluate_rule_verdict rule (calls ++ more) extent Hlen) as Hc.
  apply (violates_grows _ _ more extent Hr) in Hp.
  destruct (re_outcome (evaluate_rule rule (calls ++ more) policy extent)); [|done|].
  - by destruct Hc as [? _].
  - by destruct Hc as [? _].
Qed.

(** A violation that only ending the run brings about: extents differ on open
    deadlines and unfinished sequences. *)
Lemma partial_violation_complete rule calls :
  violates Partial rule calls -> violates Complete rule calls.
Proof.
  destruct rule; cbn [violates]; try done.
  - intros [_ ?]. auto.
  - intros (i & ? & ? & _). eauto 6.
  - intros [?|[? _]]; [by left | done].
Qed.
End meaning.

(** ** Witnesses *)

Section witness.
#[local] Instance no_regex : Regex := {| regex_is_match _ _ := None |}.
Context `{Platform}.

Definition credential_rule : SequenceRule := NeverAfter (Tool "read_credentials") (Tool "http_post").
Definition credential_trace : list SequenceCall := map named ["list_dir"; "read_credentials"; "http_post"].

Example never_after_catches_credential_read_then_egress :
  re_outcome (evaluate_rule credential_rule credential_trace None Complete) = Violated /\
  re_spanned (evaluate_rule credential_rule credential_trace None Complete) = [1; 2] /\
  re_rule_id (evaluate_rule credential_rule credential_trace None Complete) = "never_after:read_credentials->http_post".
Proof. by split_and!. Qed.

(** Which deadlines end with the run. *)
Example open_deadline :
  re_outcome (evaluate_rule (After (Tool "T") (Tool "A") 2) (map named ["T"; "X"]) None Partial) = NotExercised /\
  re_outcome (evaluate_rule (After (Tool "T") (Tool "A") 2) (map named ["T"; "X"]) None Complete) = Violated /\
  re_outcome (evaluate_rule (After (Tool "T") (Tool "A") 1) (map named ["T"; "A"; "T"; "X"]) None Partial) = Violated.
Proof. by split_and!. Qed.

End witness.
