(* ===== verification/CheckSequence.v ===== *)
(** * The server's sequence check

    [assay-mcp-server/src/tools/check_sequence.rs]: the tool that tells an agent
    whether the next call is allowed after the calls so far.  It has its own
    evaluation of the rule language, over tool names, whose JSON report is a
    published contract.  The verdict of this evaluation is shown to be that of
    [SequenceEval] on an unfinished run, for rules without argument
    constraints; argument constraints are shown to be ignored. *)
From stdpp Require Import base tactics list strings gmap sorting.
From Stdlib Require Import ZArith Lia.
From S2P Require Import Prelude RustStr Json Platform SequenceEval.

(** [str]'s [Debug] form. *)
Class StrDebug : Type := { str_debug : string -> string }.

Definition vec_debug `{StrDebug} (l : list string) : string :=
  "[" +:+ str_join ", " (map str_debug l) +:+ "]".

(** The [Serialize] forms used in the reports. *)
Definition sel_json (s : CallSelector) : Value :=
  match s with
  | Tool t => Str t
  | Matching tool args_match =>
      Obj [("tool", Str tool); ("args_match", Obj (map (fun e => (fst e, Str (snd e))) args_match))]
  end.
Definition num (n : Z) : Value := Num (PosInt n).
Definition idx_json (n : nat) : Value := num (Z.of_nat n).

Record ToolError : Type := mkToolError {
  te_code : string;
  te_message : string;
  te_details : option Value
}.
Definition tool_error_new (code message : string) : ToolError := mkToolError code message None.
Definition tool_error_result (e : ToolError) : Value :=
  Obj [("allowed", VBool false);
       ("error", Obj ([("code", Str (te_code e)); ("message", Str (te_message e))] ++
                      match te_details e with Some d => [("details", d)] | None => [] end))].

Inductive SequencePolicy : Type :=
| Legacy (seq : list string)
| Rules (rules : list SequenceRule)
| V1_1 (policy : Policy).

Record ServerLimits : Type := mkServerLimits {
  max_tool_calls : Z;
  max_field_bytes : Z
}.

Section check.
Context `{StrDebug}.

Section rules.
Variable actual_names : list string.
Variable policy_context : option Policy.

Definition targets_of (s : CallSelector) : list string := resolve policy_context (sel_tool s).

Definition position_any (targets : list string) : option nat :=
  position (fun n => str_in n targets) actual_names.

Definition require_violations (tool : CallSelector) : list Value :=
  let targets := targets_of tool in
  if existsb (fun t => str_in t actual_names) targets then []
  else
    let msg :=
      if 1 <? length targets then
        "required tool '" +:+ sel_fmt tool +:+ "' (aliases: " +:+ vec_debug targets +:+ ") not found"
      else "required tool '" +:+ sel_fmt tool +:+ "' not found" in
    [Obj [("rule_type", Str "require"); ("constraint", Str "sequence_rule"); ("message", Str msg)]].

Definition eventually_violations (tool : CallSelector) (within : Z) : list Value :=
  match position_any (targets_of tool) with
  | Some idx =>
      if (within <=? as_u32 (Z.of_nat idx))%Z then
        [Obj [("rule_type", Str "eventually"); ("tool", sel_json tool); ("event_index", idx_json idx);
              ("constraint", Str "eventually");
              ("message", Str ("tool '" +:+ sel_fmt tool +:+ "' appeared at index " +:+ fmt_nat idx +:+
                 " but must appear within first " +:+ fmt_int within +:+ " calls"))]]
      else []
  | None =>
      if (within <=? as_u32 (Z.of_nat (length actual_names)))%Z then
        [Obj [("rule_type", Str "eventually"); ("tool", sel_json tool);
              ("event_index", num ((Z.of_nat (length actual_names) - 1) mod 2 ^ 64)%Z);
              ("constraint", Str "eventually");
              ("message", Str ("tool '" +:+ sel_fmt tool +:+ "' required within first " +:+ fmt_int within +:+
                 " calls but not found (trace length: " +:+ fmt_nat (length actual_names) +:+ ")"))]]
      else []
  end.

(** The count and the index at which it first exceeded the maximum. *)
Fixpoint max_loop (targets : list string) (max : Z) (idx : nat) (names : list string)
    (count : Z) (violation_idx : option nat) : Z * option nat :=
  match names with
  | [] => (count, violation_idx)
  | name :: rest =>
      if str_in name targets then
        let count := as_u32 (count + 1) in
        let violation_idx :=
          if (max <? count)%Z && negb (opt_is_some violation_idx) then Some idx else violation_idx in
        max_loop targets max (S idx) rest count violation_idx
      else max_loop targets max (S idx) rest count violation_idx
  end.

Definition max_calls_violations (tool : CallSelector) (max : Z) : list Value :=
  match max_loop (targets_of tool) max 0 actual_names 0 None with
  | (count, Some idx) =>
      [Obj [("rule_type", Str "max_calls"); ("tool", sel_json tool); ("event_index", idx_json idx);
            ("constraint", Str "max_calls");
            ("message", Str ("tool '" +:+ sel_fmt tool +:+ "' exceeded max calls (" +:+ fmt_int count +:+
               " > " +:+ fmt_int max +:+ ")"));
            ("context", Obj [("max", num max); ("actual", num count)])]]
  | (_, None) => []
  end.

Definition before_violations (first thn : CallSelector) : list Value :=
  match position_any (targets_of thn) with
  | None => []
  | Some t_idx =>
      match position_any (targets_of first) with
      | Some f_idx =>
          if t_idx <? f_idx then
            [Obj [("rule_type", Str "before"); ("tool", sel_json thn); ("event_index", idx_json t_idx);
                  ("constraint", Str "before");
                  ("message", Str ("tool '" +:+ sel_fmt thn +:+ "' at index " +:+ fmt_nat t_idx +:+ " requires '" +:+
                     sel_fmt first +:+ "' to be called first (found at index " +:+ fmt_nat f_idx +:+ ")"));
                  ("context", Obj [("required_tool", sel_json first); ("required_tool_seen", VBool true);
                                   ("required_tool_index", idx_json f_idx)])]]
          else []
      | None =>
          [Obj [("rule_type", Str "before"); ("tool", sel_json thn); ("event_index", idx_json t_idx);
                ("constraint", Str "before");
                ("message", Str ("tool '" +:+ sel_fmt thn +:+ "' at index " +:+ fmt_nat t_idx +:+ " requires '" +:+
                   sel_fmt first +:+ "' to be called first"));
                ("context", Obj [("required_tool", sel_json first); ("required_tool_seen", VBool false)])]]
      end
  end.

Definition after_violation (trigger thn : CallSelector) (within : Z) (trigger_idx : nat) : list Value :=
  let deadline := trigger_idx + Z.to_nat within in
  if existsb (fun n => str_in n (targets_of thn))
       (take (deadline - trigger_idx) (drop (trigger_idx + 1) actual_names)) then []
  else if deadline <? length actual_names then
    [Obj [("rule_type", Str "after"); ("tool", sel_json thn); ("event_index", idx_json (deadline + 1));
          ("constraint", Str "after");
          ("message", Str ("tool '" +:+ sel_fmt thn +:+ "' required within " +:+ fmt_int within +:+ " calls after '" +:+
             sel_fmt trigger +:+ "' (triggered at index " +:+ fmt_nat trigger_idx +:+ ")"));
          ("context", Obj [("trigger", sel_json trigger); ("trigger_index", idx_json trigger_idx);
                           ("within", num within)])]]
  else [].

Definition after_violations (trigger thn : CallSelector) (within : Z) : list Value :=
  indices (fun n => str_in n (targets_of trigger)) actual_names ≫= after_violation trigger thn within.

(** [trigger_idx]: where the trigger fired, once it has. *)
Fixpoint never_after_loop (trigger forbidden : CallSelector) (idx : nat) (names : list string)
    (trigger_idx : option nat) : list Value :=
  match names with
  | [] => []
  | name :: rest =>
      match trigger_idx with
      | Some t =>
          if str_in name (targets_of forbidden) then
            [Obj [("rule_type", Str "never_after"); ("tool", sel_json forbidden); ("event_index", idx_json idx);
                  ("constraint", Str "never_after");
                  ("message", Str ("tool '" +:+ sel_fmt forbidden +:+ "' at index " +:+ fmt_nat idx +:+
                     " is forbidden after '" +:+ sel_fmt trigger +:+ "' (triggered at index " +:+ fmt_nat t +:+ ")"));
                  ("context", Obj [("trigger", sel_json trigger); ("trigger_index", idx_json t)])]]
          else never_after_loop trigger forbidden (S idx) rest trigger_idx
      | None =>
          never_after_loop trigger forbidden (S idx) rest
            (if str_in name (targets_of trigger) then Some idx else None)
      end
  end.

Definition targets_at (tools : list CallSelector) (i : nat) (name : string) : bool :=
  match tools !! i with Some t => str_in name (targets_of t) | None => false end.
Definition tool_json (tools : list CallSelector) (i : nat) : Value :=
  match tools !! i with Some t => sel_json t | None => Null end.

(** [start_idx]: where the sequence started, once it has. *)
Fixpoint strict_loop (tools : list CallSelector) (idx : nat) (names : list string) (seq_idx : nat)
    (start_idx : option nat) : list Value :=
  match names with
  | [] => []
  | name :: rest =>
      if targets_at tools seq_idx name then
        strict_loop tools (S idx) rest (S seq_idx) (option_or start_idx (Some idx))
      else
        match start_idx with
        | Some start =>
            if seq_idx <? length tools then
              [Obj [("rule_type", Str "sequence"); ("tool", Str name); ("event_index", idx_json idx);
                    ("constraint", Str "sequence_strict");
                    ("message", Str ("strict sequence violated: expected '" +:+ sel_at tools seq_idx +:+ "' at index " +:+
                       fmt_nat idx +:+ " but found '" +:+ name +:+ "'"));
                    ("context", Obj [("expected", tool_json tools seq_idx); ("actual", Str name);
                                     ("sequence_start", idx_json start)])]]
            else strict_loop tools (S idx) rest seq_idx start_idx
        | None => strict_loop tools (S idx) rest seq_idx start_idx
        end
  end.

Fixpoint order_loop (tools : list CallSelector) (idx : nat) (names : list string) (seq_idx : nat) : list Value :=
  match names with
  | [] => []
  | name :: rest =>
      if targets_at tools seq_idx name then order_loop tools (S idx) rest (S seq_idx)
      else
        match position (fun t => str_in name (targets_of t)) (drop (seq_idx + 1) tools) with
        | Some j =>
            let future := seq_idx + 1 + j in
            [Obj [("rule_type", Str "sequence"); ("tool", Str name); ("event_index", idx_json idx);
                  ("constraint", Str "sequence_order");
                  ("message", Str ("sequence order violated: '" +:+ sel_at tools future +:+ "' at index " +:+ fmt_nat idx +:+
                     " appeared before '" +:+ sel_at tools seq_idx +:+ "'"));
                  ("context", Obj [("expected_next", tool_json tools seq_idx); ("found_later", tool_json tools future)])]]
        | None => []
        end ++ order_loop tools (S idx) rest seq_idx
  end.

Fixpoint blocklist_violations (pattern : string) (idx : nat) (names : list string) : list Value :=
  match names with
  | [] => []
  | name :: rest =>
      (if str_contains name pattern then
         [Obj [("rule_type", Str "blocklist"); ("tool", Str name); ("event_index", idx_json idx);
               ("constraint", Str "blocklist");
               ("message", Str ("tool '" +:+ name +:+ "' at index " +:+ fmt_nat idx +:+ " matches blocklist pattern '" +:+
                  pattern +:+ "'"))]]
       else []) ++ blocklist_violations pattern (S idx) rest
  end.

Definition rule_violations (rule : SequenceRule) : list Value :=
  match rule with
  | Require_ tool => require_violations tool
  | Eventually tool within => eventually_violations tool within
  | MaxCalls tool max => max_calls_violations tool max
  | Before first thn => before_violations first thn
  | After trigger thn within => after_violations trigger thn within
  | NeverAfter trigger forbidden => never_after_loop trigger forbidden 0 actual_names None
  | Sequence tools strict =>
      if strict then strict_loop tools 0 actual_names 0 None else order_loop tools 0 actual_names 0
  | Blocklist pattern => blocklist_violations pattern 0 actual_names
  end.
End rules.

Definition validate_rules (rules : list SequenceRule) (actual_names : list string) (policy_context : option Policy) : Value :=
  let violations := rules ≫= rule_violations actual_names policy_context in
  if is_nil violations then
    Obj [("allowed", VBool true); ("violations", Arr []); ("suggested_fix", Null)]
  else Obj [("allowed", VBool false); ("violations", Arr violations); ("suggested_fix", Null)].

Definition validate_rules_for_parity (rules : list SequenceRule) (actual_names : list string)
    (policy_context : option Policy) : bool :=
  match vget (validate_rules rules actual_names policy_context) "violations" with
  | Some (Arr a) => negb (is_nil a)
  | _ => false
  end.

(** [serde_json::from_value::<Vec<String>>]. *)
Definition strings_of (v : Value) : option (list string) :=
  match v with Arr l => mapM as_str l | _ => None end.

(** [load]: path resolution, the file read, the cache and the parsers. *)
Definition check_sequence (cfg : ServerLimits) (load : string -> Result SequencePolicy ToolError) (args : Value)
    : Result Value string :=
  match vget args "history" with
  | None => Err "Missing 'history' argument"
  | Some history_val =>
      match strings_of history_val with
      | None => Err "Invalid 'history' format"
      | Some history =>
          match vget args "next_tool" ≫= as_str with
          | None => Err "Missing 'next_tool' argument"
          | Some next_tool =>
              match vget args "policy" ≫= as_str with
              | None => Err "Missing 'policy' argument"
              | Some policy_rel_path =>
                  if (max_tool_calls cfg <? Z.of_nat (length history))%Z then
                    Ok (tool_error_result (tool_error_new "E_LIMIT_EXCEEDED" "history too long"))
                  else if (max_field_bytes cfg <? str_len next_tool)%Z then
                    Ok (tool_error_result (tool_error_new "E_LIMIT_EXCEEDED" "next_tool too long"))
                  else if (max_field_bytes cfg <? str_len policy_rel_path)%Z then
                    Ok (tool_error_result (tool_error_new "E_LIMIT_EXCEEDED" "policy path too long"))
                  else
                    match load policy_rel_path with
                    | Err e => Ok (tool_error_result e)
                    | Ok policy =>
                        let actual_names := history ++ [next_tool] in
                        Ok match policy with
                           | Legacy expected_seq =>
                               if bool_decide (actual_names = expected_seq) then
                                 Obj [("allowed", VBool true); ("violations", Arr []); ("suggested_fix", Null)]
                               else
                                 Obj [("allowed", VBool false);
                                      ("violations", Arr [Obj [("constraint", Str "sequence_exact_match");
                                         ("suggestion", Str ("Expected " +:+ vec_debug expected_seq +:+ ", found " +:+
                                            vec_debug actual_names))]]);
                                      ("suggested_fix", Null)]
                           | Rules rules => validate_rules rules actual_names None
                           | V1_1 pol => validate_rules (pol_sequences pol) actual_names (Some pol)
                           end
                    end
              end
          end
      end
  end.
End check.

(** ** Agreement with the shared evaluation *)

Definition plain (s : CallSelector) : bool :=
  match s with Tool _ => true | Matching _ _ => false end.

(** A rule without argument constraints. *)
Definition name_only (rule : SequenceRule) : bool :=
  match rule with
  | Require_ t | Eventually t _ | MaxCalls t _ => plain t
  | Before a b | After a b _ | NeverAfter a b => plain a && plain b
  | Sequence tools _ => forallb plain tools
  | Blocklist _ => true
  end.

Section parity.
Context `{Platform} `{Regex} `{StrDebug} (policy : option Policy).

Lemma plain_matches sel n :
  plain sel = true -> selector_matches policy sel (named n) = str_in n (targets_of policy sel).
Proof. destruct sel; [|done]. intros _. unfold selector_matches, targets_of. cbn. by destruct (str_in n _). Qed.

Lemma plain_position sel names :
  plain sel = true ->
  position_matching (map named names) sel policy = position_any names (targets_of policy sel).
Proof.
  intros Hp. unfold position_matching, position_any. rewrite position_map. apply position_ext.
  intros n. by apply plain_matches.
Qed.
Lemma plain_indices sel names :
  plain sel = true ->
  indices_matching (map named names) sel policy = indices (fun n => str_in n (targets_of policy sel)) names.
Proof.
  intros Hp. unfold indices_matching, indices. rewrite indices_map. apply indices_ext.
  intros n. by apply plain_matches.
Qed.

Lemma existsb_swap (l k : list string) :
  existsb (fun t => str_in t k) l = existsb (fun n => str_in n l) k.
Proof.
  apply eq_true_iff_eq. unfold str_in. rewrite !existsb_true. setoid_rewrite existsb_true.
  split; intros (x & Hx & y & Hy & ->%String.eqb_eq); exists y; (split; [done|]); exists y;
    (split; [done | apply String.eqb_refl]).
Qed.

(** A rule is violated in both evaluations or in neither. *)
Definition agree (rule : SequenceRule) (names : list string) : Prop :=
  is_nil (rule_violations names policy rule) =
  negb (is_violation (evaluate_rule rule (map named names) policy Partial)).

Lemma agree_require tool names : plain tool = true -> agree (Require_ tool) names.
Proof.
  intros Hp. unfold agree. cbn [rule_violations evaluate_rule]. unfold require_violations.
  rewrite (plain_indices tool names Hp). unfold indices. rewrite is_nil_indices, existsb_swap.
  by destruct (existsb _ names).
Qed.

Lemma agree_eventually tool within names : plain tool = true -> agree (Eventually tool within) names.
Proof.
  intros Hp. unfold agree. cbn [rule_violations evaluate_rule]. unfold eventually_violations.
  rewrite (plain_position tool names Hp), length_map.
  destruct (position_any names _); by destruct (_ <=? _)%Z.
Qed.

Lemma agree_before first thn names : plain first && plain thn = true -> agree (Before first thn) names.
Proof.
  intros [Hf Ht]%andb_true_iff. unfold agree. cbn [rule_violations evaluate_rule]. unfold before_violations.
  rewrite (plain_position first names Hf), (plain_position thn names Ht).
  destruct (position_any names (targets_of policy thn)); [|done].
  destruct (position_any names (targets_of policy first)); [|done]. by destruct (_ <? _).
Qed.

Lemma max_loop_exceeds targets max idx names count v :
  (0 <= count)%Z -> (count + Z.of_nat (length names) < 2 ^ 32)%Z ->
  opt_is_some (snd (max_loop targets max idx names count v)) =
  opt_is_some v || (negb (is_nil (indices_from (fun n => str_in n targets) idx names))
    && (max <? count + Z.of_nat (length (indices_from (fun n => str_in n targets) idx names)))%Z).
Proof.
  revert idx count v. induction names as [|n names IH]; intros idx count v Hc Hlen; cbn [max_loop indices_from].
  { cbn. by rewrite orb_false_r. }
  cbn [length] in Hlen. destruct (str_in n targets); [|apply IH; lia].
  rewrite as_u32_small by lia. rewrite IH by lia. cbn [is_nil negb andb length].
  set (k := length _). replace (count + 1 + Z.of_nat k)%Z with (count + Z.of_nat (S k))%Z by lia.
  destruct v as [i|]; cbn [opt_is_some negb andb orb]; [by rewrite andb_false_r|].
  rewrite andb_true_r. destruct (Z.ltb_spec max (count + 1)); cbn [opt_is_some orb].
  - symmetry. apply Z.ltb_lt. lia.
  - destruct (is_nil (indices_from _ (S idx) names)) eqn:E; [|done].
    apply is_nil_true in E. cbn [negb andb]. symmetry. apply Z.ltb_ge. subst k. rewrite E. cbn. lia.
Qed.

Lemma agree_max tool max names :
  plain tool = true -> (0 <= max)%Z -> (Z.of_nat (length names) < 2 ^ 32)%Z -> agree (MaxCalls tool max) names.
Proof.
  intros Hp Hm Hlen. unfold agree. cbn [rule_violations evaluate_rule]. unfold max_calls_violations.
  rewrite (plain_indices tool names Hp).
  pose proof (max_loop_exceeds (targets_of policy tool) max 0 names 0 None ltac:(lia) Hlen) as E.
  cbn [opt_is_some orb] in E. rewrite Z.add_0_l in E. fold (indices (fun n => str_in n (targets_of policy tool)) names) in E.
  set (hits := indices _ names) in *.
  assert (Hh : length hits <= length names).
  { subst hits. unfold indices. rewrite length_indices. apply length_filter. }
  rewrite as_u32_small by lia. destruct (max_loop _ _ _ _ _ _) as [count v].
  cbn [snd] in E. assert (Ev : opt_is_some v = (max <? Z.of_nat (length hits))%Z).
  { rewrite E. destruct hits; [|done]. cbn. symmetry. apply Z.ltb_ge. lia. }
  rewrite <- Ev. by destruct v.
Qed.

Lemma agree_blocklist pattern names : agree (Blocklist pattern) names.
Proof.
  unfold agree. cbn [rule_violations evaluate_rule]. unfold indices. rewrite indices_map. cbn [sc_name named].
  assert (E : forall i, is_nil (blocklist_violations pattern i names) =
    is_nil (indices_from (fun n => str_contains n pattern) i names)).
  { induction names as [|n names IH]; intros i; cbn [blocklist_violations indices_from]; [done|].
    rewrite is_nil_app, IH. by destruct (str_contains n pattern). }
  rewrite E. by destruct (indices_from _ 0 names).
Qed.

Lemma never_after_loop_triggered trigger forbidden i names t :
  is_nil (never_after_loop policy trigger forbidden i names (Some t)) =
  negb (existsb (fun n => str_in n (targets_of policy forbidden)) names).
Proof. revert i. induction names as [|n names IH]; intros i; cbn; [done|]. by destruct (str_in n _). Qed.

Lemma agree_never_after trigger forbidden names :
  plain trigger && plain forbidden = true -> agree (NeverAfter trigger forbidden) names.
Proof.
  intros [Ht Hf]%andb_true_iff. unfold agree. cbn [rule_violations evaluate_rule].
  rewrite (plain_position trigger names Ht). unfold position_any, find_from.
  transitivity (match position (fun n => str_in n (targets_of policy trigger)) names with
    | Some t => negb (opt_is_some (position (selector_matches policy forbidden) (drop (t + 1) (map named names))))
    | None => true
    end); [|destruct (position _ names) as [t|]; [by destruct (position _ (drop _ _)) | done]].
  assert (E : forall i, is_nil (never_after_loop policy trigger forbidden i names None) =
    match position (fun n => str_in n (targets_of policy trigger)) names with
    | Some t => negb (existsb (fun n => str_in n (targets_of policy forbidden)) (drop (t + 1) names))
    | None => true
    end).
  { induction names as [|n names IH]; intros i; cbn [never_after_loop position]; [done|].
    destruct (str_in n (targets_of policy trigger)).
    - rewrite never_after_loop_triggered. cbn. by rewrite drop_0.
    - rewrite IH. destruct (position _ names); done. }
  rewrite E. destruct (position _ names) as [t|]; [|done].
  rewrite opt_position_existsb, skipn_map, existsb_map. f_equal. clear E.
  induction (drop (t + 1) names) as [|n l IH]; cbn [existsb]; [done|]. by rewrite IH, plain_matches.
Qed.

Lemma agree_after trigger thn within names :
  plain trigger && plain thn = true -> (Z.of_nat (length names) < 2 ^ 32)%Z ->
  agree (After trigger thn within) names.
Proof.
  intros [Ht Hn]%andb_true_iff Hlen. unfold agree.
  pose proof (evaluate_rule_verdict policy (After trigger thn within) (map named names) Partial) as Hv.
  rewrite length_map in Hv. specialize (Hv Hlen).
  enough (Hiff : is_nil (rule_violations names policy (After trigger thn within)) = false <->
    violates policy Partial (After trigger thn within) (map named names)).
  { unfold is_violation. destruct (re_outcome _), (is_nil (rule_violations _ _ _));
      cbn [verdict_means] in Hv; unfold undecided in Hv; naive_solver. }
  cbn [rule_violations violates]. unfold after_violations. rewrite is_nil_bind, length_map.
  assert (Hw : forall i, is_nil (after_violation names policy trigger thn within i) = false <->
    (forall j, i < j <= i + Z.to_nat within -> ~ hit policy (map named names) thn j) /\
    i + Z.to_nat within < length names).
  { intros i. unfold after_violation.
    replace (i + Z.to_nat within - i) with (Z.to_nat within) by lia.
    pose proof (hit_window policy (map named names) thn i (Z.to_nat within)) as Hh.
    rewrite skipn_map, firstn_map, position_map in Hh.
    rewrite (position_ext _ (fun n => str_in n (targets_of policy thn)) _ (fun n => plain_matches thn n Hn)) in Hh.
    rewrite <- opt_position_existsb. destruct (position _ _) as [j|]; cbn [opt_is_some].
    - split; [done|]. intros [Hno _]. destruct Hh as [Hj Hh]. destruct (Hno (i + 1 + j)); [lia | done].
    - destruct (Nat.ltb_spec (i + Z.to_nat within) (length names)); cbn; intuition lia. }
  rewrite <- not_true_iff_false, forallb_forall. split.
  - intros Hn'. destruct (existsb (fun i => negb (is_nil (after_violation names policy trigger thn within i)))
      (indices (fun n => str_in n (targets_of policy trigger)) names)) eqn:E.
    + apply existsb_true in E as (i & Hi & Hnil%negb_true_iff). apply Hw in Hnil as [Hno Hlt].
      exists i. split_and!; [|done|by right]. rewrite <- (plain_indices trigger names Ht) in Hi.
      by apply hit_indices.
    + exfalso. apply Hn'. intros i Hi%list_elem_of_In.
      pose proof (proj1 (existsb_false _ _) E i Hi) as Hb. by apply negb_false_iff in Hb.
  - intros (i & Hi & Hno & [?|Hlt]) Hall; [done|]. apply hit_indices in Hi.
    rewrite (plain_indices trigger names Ht) in Hi. apply list_elem_of_In, Hall in Hi.
    assert (Hf : is_nil (after_violation names policy trigger thn within i) = false) by by apply Hw.
    congruence.
Qed.

Lemma plain_expects tools k n :
  forallb plain tools = true -> expects policy tools k (named n) = targets_at policy tools k n.
Proof.
  intros Hp. unfold expects, targets_at. destruct (tools !! k) as [t|] eqn:E; [|done].
  apply plain_matches. rewrite forallb_forall in Hp. apply Hp, list_elem_of_In. by eapply list_elem_of_lookup_2.
Qed.

Lemma strict_loop_agrees id tools i names k spanned start :
  forallb plain tools = true -> is_nil spanned = negb (opt_is_some start) ->
  is_nil (strict_loop policy tools i names k start) =
  match sequence_loop id tools true policy i (map named names) k spanned with inl _ => false | inr _ => true end.
Proof.
  intros Hp. revert i k spanned start. induction names as [|n names IH]; intros i k spanned start Hs; [done|].
  cbn [map strict_loop sequence_loop]. rewrite plain_expects by done.
  destruct (targets_at policy tools k n).
  { apply IH. destruct spanned; by destruct start. }
  cbn [andb negb]. rewrite Hs, negb_involutive.
  destruct start as [t|]; cbn [opt_is_some andb]; [|by apply IH].
  destruct (k <? length tools); [done | by apply IH].
Qed.

Lemma order_loop_agrees id tools i names k spanned :
  forallb plain tools = true ->
  is_nil (order_loop policy tools i names k) =
  match sequence_loop id tools false policy i (map named names) k spanned with inl _ => false | inr _ => true end.
Proof.
  intros Hp. revert i k spanned. induction names as [|n names IH]; intros i k spanned; [done|].
  cbn [map order_loop sequence_loop]. rewrite plain_expects by done.
  destruct (targets_at policy tools k n); [by apply IH|]. cbn [andb negb]. rewrite is_nil_app.
  assert (E : existsb (fun t => selector_matches policy t (named n)) (drop (k + 1) tools) =
    opt_is_some (position (fun t => str_in n (targets_of policy t)) (drop (k + 1) tools))).
  { rewrite opt_position_existsb.
    assert (Hd : forallb plain (drop (k + 1) tools) = true).
    { rewrite forallb_forall in *. intros t Ht. apply Hp. rewrite <- list_elem_of_In in *.
      apply list_elem_of_lookup in Ht as [j Hj]. rewrite lookup_drop in Hj. by eapply list_elem_of_lookup_2. }
    induction (drop (k + 1) tools) as [|t l IHl]; [done|]. cbn in Hd. apply andb_true_iff in Hd as [Ht Hd].
    cbn [existsb]. by rewrite IHl, plain_matches. }
  rewrite E. destruct (position _ (drop (k + 1) tools)) as [j|] eqn:Ej; cbn [opt_is_some is_nil].
  - assert (Hk : k < length tools).
    { apply position_Some in Ej as [(t & Ht & _) _]. apply lookup_lt_Some in Ht. rewrite length_drop in Ht. lia. }
    apply Nat.ltb_lt in Hk. by rewrite Hk.
  - rewrite andb_false_r. apply IH.
Qed.

Lemma agree_sequence tools strict names :
  forallb plain tools = true -> agree (Sequence tools strict) names.
Proof.
  intros Hp. unfold agree. cbn [rule_violations evaluate_rule].
  set (id := "sequence" +:+ _). clearbody id.
  assert (E : is_nil (if strict then strict_loop policy tools 0 names 0 None else order_loop policy tools 0 names 0) =
    match sequence_loop id tools strict policy 0 (map named names) 0 [] with inl _ => false | inr _ => true end).
  { destruct strict; [by apply strict_loop_agrees | by apply order_loop_agrees]. }
  rewrite E. pose proof (sequence_loop_outcome policy id tools strict [] (map named names) 0 []
    (progress_nil _ _) ltac:(done) ltac:(intros [|??] ? ?; done)) as Hl. cbn [app length] in Hl.
  destruct tools as [|t tools]; cbn [is_nil].
  - destruct (sequence_loop _ _ _ _ _ _ _ _) as [e|[k sp]]; [|done].
    destruct Hl as (_ & b & c & a & _ & k & _ & Hk & _). cbn in Hk. lia.
  - destruct (sequence_loop _ _ _ _ _ _ _ _) as [e|[k sp]]; [by destruct Hl as [Hl _]; unfold is_violation; rewrite Hl|].
    rewrite andb_false_r. by destruct (is_nil sp).
Qed.

Lemma agree_all rule names :
  name_only rule = true -> (forall t m, rule = MaxCalls t m -> (0 <= m)%Z) ->
  (Z.of_nat (length names) < 2 ^ 32)%Z -> agree rule names.
Proof.
  destruct rule; cbn [name_only]; intros Hn Hm Hlen; eauto using agree_require, agree_eventually,
    agree_max, agree_before, agree_after, agree_never_after, agree_sequence, agree_blocklist.
Qed.

(** C15: The server's evaluation of the rule language agrees with the shared one:
    for rules that only name tools, it reports a violation on the calls so far
    exactly when the shared evaluation, told that the run may still grow,
    violates one of the rules. *)
Theorem check_sequence_parity rules names :
  forallb name_only rules = true -> (forall t m, MaxCalls t m ∈ rules -> (0 <= m)%Z) ->
  (Z.of_nat (length names) < 2 ^ 32)%Z ->
  validate_rules_for_parity rules names policy =
  existsb is_violation (evaluate_rules rules (map named names) policy Partial).
Proof.
  intros Hn Hm Hlen. unfold validate_rules_for_parity, validate_rules, evaluate_rules.
  rewrite existsb_map.
  transitivity (negb (is_nil (rules ≫= rule_violations names policy))).
  { destruct (rules ≫= rule_violations names policy); done. }
  rewrite is_nil_bind. induction rules as [|r rules IH]; [done|]. cbn [forallb existsb] in *.
  apply andb_true_iff in Hn as [Hr Hn]. rewrite negb_andb, IH; [|done|].
  - rewrite (agree_all r names Hr); [by rewrite negb_involutive | | done].
    intros t m ->. apply (Hm t). by left.
  - intros t m Ht. apply (Hm t). by right.
Qed.
End parity.

(** *** Argument constraints *)

Definition drop_args (s : CallSelector) : CallSelector := Tool (sel_tool s).
Definition drop_rule_args (rule : SequenceRule) : SequenceRule :=
  match rule with
  | Require_ t => Require_ (drop_args t)
  | Eventually t w => Eventually (drop_args t) w
  | MaxCalls t m => MaxCalls (drop_args t) m
  | Before a b => Before (drop_args a) (drop_args b)
  | After a b w => After (drop_args a) (drop_args b) w
  | NeverAfter a b => NeverAfter (drop_args a) (drop_args b)
  | Sequence tools strict => Sequence (map drop_args tools) strict
  | Blocklist p => Blocklist p
  end.

Section arguments.
Context `{StrDebug} (policy : option Policy).

Lemma targets_drop_args tools k n :
  targets_at policy (map drop_args tools) k n = targets_at policy tools k n.
Proof. unfold targets_at. rewrite list_lookup_fmap. by destruct (tools !! k). Qed.

Lemma strict_loop_drop tools i names k start :
  is_nil (strict_loop policy (map drop_args tools) i names k start) =
  is_nil (strict_loop policy tools i names k start).
Proof.
  revert i k start. induction names as [|n names IH]; intros i k start; cbn [strict_loop]; [done|].
  rewrite targets_drop_args, length_map. destruct (targets_at policy tools k n); [apply IH|].
  destruct start; [|apply IH]. destruct (k <? length tools); [done | apply IH].
Qed.

Lemma order_loop_drop tools i names k :
  is_nil (order_loop policy (map drop_args tools) i names k) = is_nil (order_loop policy tools i names k).
Proof.
  revert i k. induction names as [|n names IH]; intros i k; cbn [order_loop]; [done|].
  rewrite targets_drop_args, skipn_map, position_map. destruct (targets_at policy tools k n); [apply IH|].
  rewrite !is_nil_app, IH. f_equal. change (fun t => str_in n (targets_of policy (drop_args t)))
    with (fun t => str_in n (targets_of policy t)). by destruct (position _ _).
Qed.

Lemma rule_violations_drop names rule :
  is_nil (rule_violations names policy (drop_rule_args rule)) = is_nil (rule_violations names policy rule).
Proof.
  destruct rule as [tool|tool within|tool max|first thn|trigger thn within|trigger forbidden|tools strict|pattern];
    cbn [rule_violations drop_rule_args].
  - unfold require_violations. change (targets_of policy (drop_args tool)) with (targets_of policy tool).
    by destruct (existsb _ _).
  - unfold eventually_violations. change (targets_of policy (drop_args tool)) with (targets_of policy tool).
    destruct (position_any _ _); by destruct (_ <=? _)%Z.
  - unfold max_calls_violations. change (targets_of policy (drop_args tool)) with (targets_of policy tool).
    by destruct (max_loop _ _ _ _ _ _) as [? []].
  - unfold before_violations. change (targets_of policy (drop_args thn)) with (targets_of policy thn).
    change (targets_of policy (drop_args first)) with (targets_of policy first).
    destruct (position_any names (targets_of policy thn)); [|done].
    destruct (position_any names (targets_of policy first)); [|done]. by destruct (_ <? _).
  - unfold after_violations. change (targets_of policy (drop_args trigger)) with (targets_of policy trigger).
    rewrite !is_nil_bind. induction (indices _ names) as [|i l IH]; cbn [forallb]; [done|]. rewrite IH. f_equal.
    unfold after_violation. change (targets_of policy (drop_args thn)) with (targets_of policy thn).
    destruct (existsb _ _); [done|]. by destruct (_ <? _).
  - generalize 0 at 1 2 as i. generalize (@None nat) as t. induction names as [|n names IH]; intros t i; [done|].
    cbn [never_after_loop]. change (targets_of policy (drop_args trigger)) with (targets_of policy trigger).
    change (targets_of policy (drop_args forbidden)) with (targets_of policy forbidden).
    destruct t; [destruct (str_in n _); [done | apply IH] | apply IH].
  - destruct strict; [apply strict_loop_drop | apply order_loop_drop].
  - done.
Qed.

(** The server's check ignores argument constraints: its verdict is that of
    the rules with every [args_match] removed. *)
Theorem check_sequence_ignores_args rules names :
  validate_rules_for_parity rules names policy =
  validate_rules_for_parity (map drop_rule_args rules) names policy.
Proof.
  assert (E : forall rs, validate_rules_for_parity rs names policy =
    negb (is_nil (rs ≫= rule_violations names policy))).
  { intros rs. unfold validate_rules_for_parity, validate_rules. by destruct (rs ≫= rule_violations names policy). }
  rewrite !E, !is_nil_bind. f_equal. induction rules as [|r rules IH]; cbn [map forallb]; [done|].
  by rewrite IH, rule_violations_drop.
Qed.
End arguments.
