(* ===== verification/SequenceExplain.v ===== *)
(** * Explained traces

    [assay-core/src/explain_next]: the step-by-step explanation of a trace
    under a policy.  It evaluates the rule language a third time, call by call
    with a state per rule.  The state is shown to record the calls so far; for
    [before], [never_after] and [blocklist] the explained verdict is that of
    [SequenceEval], and the deadline, count and order rules on which the two
    differ are exhibited. *)
From stdpp Require Import base tactics list strings gmap sorting.
From Stdlib Require Import ZArith Lia.
From S2P Require Import Prelude RustStr Json Platform SequenceEval CheckSequence.

(** ** Data *)

Inductive StepVerdict : Type := Allowed | Blocked | Warning.
#[global] Instance StepVerdict_eq_dec : EqDecision StepVerdict.
Proof. solve_decision. Defined.

Record Explanation : Type := mkExplanation {
  ex_rule_id : string;
  ex_rule_type : string;
  ex_passed : bool;
  ex_explanation : string;
  ex_context : option Value
}.

Record ToolCall : Type := mkToolCall { tc_tool : string; tc_args : option Value }.

Record ExplainedStep : Type := mkStep {
  st_index : nat;
  st_tool : string;
  st_args : option Value;
  st_verdict : StepVerdict;
  st_rules_evaluated : list Explanation;
  st_state_snapshot : gmap string string
}.
#[global] Instance ExplainedStep_eta : Eta ExplainedStep := fun s =>
  mkStep (st_index s) (st_tool s) (st_args s) (st_verdict s) (st_rules_evaluated s) (st_state_snapshot s).

Record TraceExplanation : Type := mkTraceExplanation {
  te_policy_name : string;
  te_policy_version : string;
  te_total_steps : nat;
  te_allowed_steps : nat;
  te_blocked_steps : nat;
  te_first_block_index : option nat;
  te_steps : list ExplainedStep;
  te_blocking_rules : list string
}.

Record ExplainerState : Type := mkExplainerState {
  tools_seen : list string;
  call_counts : gmap string Z;
  tool_seen_flags : gmap string bool;
  never_after_triggered : gmap nat nat;
  pending_after : gmap nat (nat * nat);
  sequence_progress : gmap nat nat;
  es_aliases : gmap string (list string)
}.
#[global] Instance ExplainerState_eta : Eta ExplainerState := fun s =>
  mkExplainerState (tools_seen s) (call_counts s) (tool_seen_flags s) (never_after_triggered s)
    (pending_after s) (sequence_progress s) (es_aliases s).

Definition explainer_new (policy : Policy) : ExplainerState :=
  mkExplainerState [] ∅ ∅ ∅ ∅ ∅ (pol_aliases policy).

Definition es_resolve_alias (s : ExplainerState) (tool : string) : list string :=
  match es_aliases s !! tool with Some members => members | None => [tool] end.

Definition es_matches (s : ExplainerState) (tool : string) (target : CallSelector) : bool :=
  str_in tool (es_resolve_alias s (sel_tool target)).

Section explain.
Context `{Lowercase}.

Definition lower_tool (s : CallSelector) : string := to_lowercase (sel_tool s).

(** ** One rule at one call *)

Definition count_of (s : ExplainerState) (t : string) : Z := default 0%Z (call_counts s !! t).

Definition explain_max_calls (s : ExplainerState) (max_tool : CallSelector) (max : Z) (tool : string) : Explanation :=
  let targets := es_resolve_alias s (sel_tool max_tool) in
  let current_count :=
    if str_in tool targets then as_u32 (count_of s tool + 1)
    else as_u32 (foldr (fun t n => (count_of s t + n)%Z) 0%Z targets) in
  let passed := (current_count <=? max)%Z in
  mkExplanation ("max_calls_" +:+ lower_tool max_tool +:+ "_" +:+ fmt_int max) "max_calls" passed
    (if passed then "'" +:+ sel_fmt max_tool +:+ "' call " +:+ fmt_int current_count +:+ "/" +:+ fmt_int max
     else "'" +:+ sel_fmt max_tool +:+ "' exceeded max calls (" +:+ fmt_int current_count +:+ " > " +:+ fmt_int max +:+ ")")
    (Some (Obj [("tool", sel_json max_tool); ("max", num max); ("current_count", num current_count)])).

Definition explain_eventually (s : ExplainerState) (ev_tool : CallSelector) (within : Z) (tool : string) (idx : nat) : Explanation :=
  let targets := es_resolve_alias s (sel_tool ev_tool) in
  let seen := existsb (fun t => str_in t targets) (tools_seen s) || str_in tool targets in
  let current_idx := as_u32 (Z.of_nat idx) in
  let passed := seen || (current_idx <? within)%Z in
  mkExplanation ("eventually_" +:+ lower_tool ev_tool +:+ "_" +:+ fmt_int within) "eventually" passed
    (if seen then "'" +:+ sel_fmt ev_tool +:+ "' already seen ✓"
     else if (current_idx <? within)%Z then
       "'" +:+ sel_fmt ev_tool +:+ "' required within " +:+ fmt_int within +:+ " calls (at " +:+ fmt_nat (idx + 1) +:+
       "/" +:+ fmt_int within +:+ ")"
     else "'" +:+ sel_fmt ev_tool +:+ "' not seen within first " +:+ fmt_int within +:+ " calls")
    (Some (Obj [("required_tool", sel_json ev_tool); ("within", num within); ("current_index", idx_json idx);
                ("seen", VBool seen)])).

Definition explain_before (s : ExplainerState) (first thn : CallSelector) (tool : string) : Explanation :=
  let is_then := es_matches s tool thn in
  let first_seen :=
    default false (tool_seen_flags s !! sel_tool first) || existsb (fun t => es_matches s t first) (tools_seen s) in
  mkExplanation ("before_" +:+ lower_tool first +:+ "_then_" +:+ lower_tool thn) "before" (negb is_then || first_seen)
    (if negb is_then then "Not '" +:+ sel_fmt thn +:+ "', rule not applicable"
     else if first_seen then "'" +:+ sel_fmt first +:+ "' was called first ✓"
     else "'" +:+ sel_fmt thn +:+ "' requires '" +:+ sel_fmt first +:+ "' first")
    (Some (Obj [("first", sel_json first); ("then", sel_json thn); ("first_seen", VBool first_seen);
                ("is_then_call", VBool is_then)])).

Definition explain_after (s : ExplainerState) (rule_idx : nat) (trigger thn : CallSelector) (within : Z)
    (tool : string) (idx : nat) : Explanation :=
  let is_trigger := es_matches s tool trigger in
  let is_then := es_matches s tool thn in
  let '(passed, explanation) :=
    match pending_after s !! rule_idx with
    | Some (trigger_idx, deadline) =>
        if is_then then
          if idx <=? deadline then (true, "'" +:+ sel_fmt thn +:+ "' satisfies after '" +:+ sel_fmt trigger +:+ "' ✓")
          else (false, "'" +:+ sel_fmt thn +:+ "' called too late after '" +:+ sel_fmt trigger +:+ "' (at " +:+
                  fmt_nat idx +:+ ", deadline " +:+ fmt_nat deadline +:+ ")")
        else if deadline <? idx then
          (false, "'" +:+ sel_fmt thn +:+ "' required within " +:+ fmt_int within +:+ " calls after '" +:+
             sel_fmt trigger +:+ "' (triggered at " +:+ fmt_nat trigger_idx +:+ ")")
        else (true, "Pending: '" +:+ sel_fmt thn +:+ "' needed within " +:+ fmt_nat (deadline - idx) +:+ " more calls")
    | None =>
        if is_trigger then
          (true, "'" +:+ sel_fmt trigger +:+ "' triggered, '" +:+ sel_fmt thn +:+ "' required within " +:+ fmt_int within)
        else (true, "After rule: waiting for '" +:+ sel_fmt trigger +:+ "'")
    end in
  mkExplanation ("after_" +:+ lower_tool trigger +:+ "_then_" +:+ lower_tool thn) "after" passed explanation
    (Some (Obj [("trigger", sel_json trigger); ("then", sel_json thn); ("within", num within)])).

Definition explain_never_after (s : ExplainerState) (rule_idx : nat) (trigger forbidden : CallSelector) (tool : string) : Explanation :=
  let is_trigger := es_matches s tool trigger in
  let is_forbidden := es_matches s tool forbidden in
  let triggered := opt_is_some (never_after_triggered s !! rule_idx) in
  let trigger_at := match never_after_triggered s !! rule_idx with Some i => fmt_nat i | None => "" end in
  mkExplanation ("never_after_" +:+ lower_tool trigger +:+ "_forbidden_" +:+ lower_tool forbidden) "never_after"
    (negb (triggered && is_forbidden))
    (if negb triggered && is_trigger then
       "'" +:+ sel_fmt trigger +:+ "' triggered, '" +:+ sel_fmt forbidden +:+ "' now forbidden"
     else if triggered && is_forbidden then
       "'" +:+ sel_fmt forbidden +:+ "' forbidden after '" +:+ sel_fmt trigger +:+ "' (triggered at index " +:+ trigger_at +:+ ")"
     else if triggered then "'" +:+ sel_fmt forbidden +:+ "' forbidden (trigger at " +:+ trigger_at +:+ ")"
     else "Waiting for trigger '" +:+ sel_fmt trigger +:+ "'")
    (Some (Obj [("trigger", sel_json trigger); ("forbidden", sel_json forbidden);
                ("triggered", VBool (triggered || is_trigger))])).

Definition step_text (tools : list CallSelector) (seq_idx : nat) (tool : string) : string :=
  "Sequence step " +:+ fmt_nat (seq_idx + 1) +:+ "/" +:+ fmt_nat (length tools) +:+ ": '" +:+ tool +:+ "' ✓".

Definition explain_sequence (s : ExplainerState) (rule_idx : nat) (tools : list CallSelector) (strict : bool) (tool : string) : Explanation :=
  let seq_idx := default 0 (sequence_progress s !! rule_idx) in
  let '(passed, explanation) :=
    match tools !! seq_idx with
    | Some expected =>
        let is_expected := es_matches s tool expected in
        if strict then
          if (0 <? seq_idx) && negb is_expected then
            (false, "Strict sequence: expected '" +:+ sel_fmt expected +:+ "' but got '" +:+ tool +:+ "'")
          else if is_expected then (true, step_text tools seq_idx tool)
          else (true, "Waiting for sequence start: '" +:+ sel_at tools 0 +:+ "'")
        else if opt_is_some (position (es_matches s tool) (drop (seq_idx + 1) tools)) then
          (false, "Sequence order violated: '" +:+ tool +:+ "' before '" +:+ sel_fmt expected +:+ "'")
        else if is_expected then (true, step_text tools seq_idx tool)
        else (true, "Sequence: waiting for '" +:+ sel_fmt expected +:+ "' (" +:+ fmt_nat seq_idx +:+ "/" +:+
                fmt_nat (length tools) +:+ ")")
    | None => (true, "Sequence complete ✓")
    end in
  mkExplanation ("sequence_" +:+ str_join "_" (map lower_tool tools)) "sequence" passed explanation
    (Some (Obj [("tools", Arr (map sel_json tools)); ("strict", VBool strict); ("progress", idx_json seq_idx)])).

Definition explain_blocklist (pattern tool : string) : Explanation :=
  let passed := negb (str_contains tool pattern) in
  mkExplanation ("blocklist_" +:+ to_lowercase pattern) "blocklist" passed
    (if passed then "'" +:+ tool +:+ "' does not match blocklist '" +:+ pattern +:+ "'"
     else "'" +:+ tool +:+ "' matches blocklist pattern '" +:+ pattern +:+ "'")
    None.

Definition explain_rule (s : ExplainerState) (rule_idx : nat) (rule : SequenceRule) (tool : string) (idx : nat) : Explanation :=
  match rule with
  | Require_ req_tool =>
      mkExplanation ("require_" +:+ lower_tool req_tool) "require" true
        ("Require '" +:+ sel_fmt req_tool +:+ "' (checked at end)") None
  | Eventually ev_tool within => explain_eventually s ev_tool within tool idx
  | MaxCalls max_tool max => explain_max_calls s max_tool max tool
  | Before first thn => explain_before s first thn tool
  | After trigger thn within => explain_after s rule_idx trigger thn within tool idx
  | NeverAfter trigger forbidden => explain_never_after s rule_idx trigger forbidden tool
  | Sequence tools strict => explain_sequence s rule_idx tools strict tool
  | Blocklist pattern => explain_blocklist pattern tool
  end.

(** ** Advancing the state *)

Definition update_rule (tool : string) (idx rule_idx : nat) (rule : SequenceRule) (s : ExplainerState) : ExplainerState :=
  match rule with
  | NeverAfter trigger _ =>
      if es_matches s tool trigger && negb (opt_is_some (never_after_triggered s !! rule_idx)) then
        s <| never_after_triggered := <[rule_idx := idx]> (never_after_triggered s) |>
      else s
  | After trigger _ within =>
      if es_matches s tool trigger then
        s <| pending_after := <[rule_idx := (idx, idx + Z.to_nat within)]> (pending_after s) |>
      else s
  | Sequence tools _ =>
      let seq_idx := default 0 (sequence_progress s !! rule_idx) in
      if match tools !! seq_idx with Some t => es_matches s tool t | None => false end then
        s <| sequence_progress := <[rule_idx := S seq_idx]> (sequence_progress s) |>
      else s
  | Require_ _ | Eventually _ _ | MaxCalls _ _ | Before _ _ | Blocklist _ => s
  end.

Fixpoint update_rules (tool : string) (idx rule_idx : nat) (rules : list SequenceRule) (s : ExplainerState) : ExplainerState :=
  match rules with
  | [] => s
  | rule :: rest => update_rules tool idx (S rule_idx) rest (update_rule tool idx rule_idx rule s)
  end.

Definition update (tool : string) (idx : nat) (policy : Policy) (s : ExplainerState) : ExplainerState :=
  let s := s <| call_counts := <[tool := as_u32 (count_of s tool + 1)]> (call_counts s) |> in
  let s := s <| tool_seen_flags := <[tool := true]> (tool_seen_flags s) |> in
  let s := update_rules tool idx 0 (pol_sequences policy) s in
  s <| tools_seen := tools_seen s ++ [tool] |>.

(** ** The end of the trace *)

Definition end_violation (s : ExplainerState) (rule_idx : nat) (rule : SequenceRule) : list Explanation :=
  match rule with
  | Require_ tool =>
      if existsb (fun t => str_in t (es_resolve_alias s (sel_tool tool))) (tools_seen s) then []
      else [mkExplanation ("require_" +:+ lower_tool tool) "require" false
              ("Required tool '" +:+ sel_fmt tool +:+ "' never called") None]
  | After trigger thn within =>
      match pending_after s !! rule_idx with
      | Some (trigger_idx, deadline) =>
          let then_targets := es_resolve_alias s (sel_tool thn) in
          if existsb (fun t => str_in t then_targets) (drop (trigger_idx + 1) (tools_seen s)) then []
          else [mkExplanation ("after_" +:+ lower_tool trigger +:+ "_then_" +:+ lower_tool thn) "after" false
                  ("'" +:+ sel_fmt trigger +:+ "' triggered at " +:+ fmt_nat trigger_idx +:+ ", but '" +:+ sel_fmt thn +:+
                   "' never called within " +:+ fmt_int within +:+ " steps (trace ended)")
                  (Some (Obj [("trigger", sel_json trigger); ("deadline", idx_json deadline);
                              ("trace_len", idx_json (length (tools_seen s)))]))]
      | None => []
      end
  | Eventually _ _ | MaxCalls _ _ | Before _ _ | NeverAfter _ _ | Sequence _ _ | Blocklist _ => []
  end.

Fixpoint end_violations (s : ExplainerState) (rule_idx : nat) (rules : list SequenceRule) : list Explanation :=
  match rules with
  | [] => []
  | rule :: rest => end_violation s rule_idx rule ++ end_violations s (S rule_idx) rest
  end.

Definition check_end_of_trace (policy : Policy) (s : ExplainerState) : list Explanation :=
  end_violations s 0 (pol_sequences policy).

Definition snapshot (s : ExplainerState) : gmap string string :=
  map_fold (fun tool count snap => if (0 <? count)%Z then <["calls:" +:+ tool := fmt_int count]> snap else snap)
    ∅ (call_counts s).

(** ** The explainer *)

Definition is_alias_member (policy : Policy) (tool : string) : bool :=
  existsb (fun e => str_in tool (snd e)) (map_to_list (pol_aliases policy)).

Definition check_static_constraints (policy : Policy) (tool : string) : option Explanation :=
  if match tp_deny (pol_tools policy) with Some deny => str_in tool deny | None => false end then
    Some (mkExplanation "deny_list" "deny" false ("Tool '" +:+ tool +:+ "' is in deny list") None)
  else if match tp_allow (pol_tools policy) with
          | Some allow => negb (str_in tool allow) && negb (is_alias_member policy tool)
          | None => false
          end then
    Some (mkExplanation "allow_list" "allow" false ("Tool '" +:+ tool +:+ "' is not in allow list") None)
  else None.

(** [blocked_by] is set exactly when the verdict becomes [Blocked]. *)
Fixpoint explain_rules (s : ExplainerState) (tool : string) (idx rule_idx : nat) (rules : list SequenceRule)
    (evaluated : list Explanation) (blocked_by : option string) : list Explanation * option string :=
  match rules with
  | [] => (evaluated, blocked_by)
  | rule :: rest =>
      let eval := explain_rule s rule_idx rule tool idx in
      let blocked_by :=
        if negb (ex_passed eval) && negb (opt_is_some blocked_by) then Some (ex_rule_id eval) else blocked_by in
      explain_rules s tool idx (S rule_idx) rest (evaluated ++ [eval]) blocked_by
  end.

Definition explain_step (policy : Policy) (idx : nat) (call : ToolCall) (s : ExplainerState)
    : (ExplainedStep * option string) * ExplainerState :=
  let tool := tc_tool call in
  let '(evaluated, blocked_by) :=
    match check_static_constraints policy tool with
    | Some eval => ([eval], if negb (ex_passed eval) then Some (ex_rule_id eval) else None)
    | None => ([], None)
    end in
  let '(rules_evaluated, blocked_by) := explain_rules s tool idx 0 (pol_sequences policy) evaluated blocked_by in
  let s := update tool idx policy s in
  let verdict := if opt_is_some blocked_by then Blocked else Allowed in
  ((mkStep idx tool (tc_args call) verdict rules_evaluated (snapshot s), blocked_by), s).

Definition add_rule (rule : string) (rules : list string) : list string :=
  if str_in rule rules then rules else rules ++ [rule].

Fixpoint explain_loop (policy : Policy) (idx : nat) (trace : list ToolCall) (s : ExplainerState)
    (steps : list ExplainedStep) (first_block : option nat) (blocking : list string)
    : (list ExplainedStep * option nat * list string) * ExplainerState :=
  match trace with
  | [] => ((steps, first_block, blocking), s)
  | call :: rest =>
      let '((step, blocked_by), s) := explain_step policy idx call s in
      let first_block :=
        if bool_decide (st_verdict step = Blocked) && negb (opt_is_some first_block) then Some idx else first_block in
      let blocking := match blocked_by with Some rule => add_rule rule blocking | None => blocking end in
      explain_loop policy (S idx) rest s (steps ++ [step]) first_block blocking
  end.

(** The end-of-trace violations join the last step's record. *)
Fixpoint add_to_last (evals : list Explanation) (steps : list ExplainedStep) : list ExplainedStep :=
  match steps with
  | [] => []
  | [s] => [s <| st_rules_evaluated := st_rules_evaluated s ++ evals |>]
  | s :: rest => s :: add_to_last evals rest
  end.

Definition has_verdict (v : StepVerdict) (s : ExplainedStep) : bool := bool_decide (st_verdict s = v).

Definition explain (policy : Policy) (trace : list ToolCall) : TraceExplanation :=
  let '((steps, first_block, blocking), s) := explain_loop policy 0 trace (explainer_new policy) [] None [] in
  let ends := check_end_of_trace policy s in
  let '(steps, blocking) :=
    if negb (is_nil ends) && negb (is_nil steps) then
      (add_to_last ends steps, foldl (fun b e => add_rule (ex_rule_id e) b) blocking ends)
    else (steps, blocking) in
  mkTraceExplanation (pol_name policy) (pol_version policy) (length steps)
    (length (List.filter (has_verdict Allowed) steps)) (length (List.filter (has_verdict Blocked) steps))
    first_block steps blocking.
End explain.

(** ** What the state records *)

Section records.
Context `{Platform} `{Regex} `{Lowercase} (policy : Policy).

Definition occurrences (t : string) (names : list string) : Z := Z.of_nat (length (List.filter (String.eqb t) names)).
Definition triggers_of (trigger : CallSelector) (names : list string) : list nat :=
  indices (fun n => str_in n (targets_of (Some policy) trigger)) names.

(** The entry of rule [k]: where its trigger first fired, the window of the
    latest trigger, how far its sequence got. *)
Definition rule_state (names : list string) (k : nat) (rule : SequenceRule) (s : ExplainerState) : Prop :=
  match rule with
  | NeverAfter trigger _ => never_after_triggered s !! k = head (triggers_of trigger names)
  | After trigger _ within =>
      pending_after s !! k = (fun i => (i, i + Z.to_nat within)) <$> last (triggers_of trigger names)
  | Sequence tools _ =>
      progress (Some policy) (map drop_args tools) (map named names) (default 0 (sequence_progress s !! k))
  | Require_ _ | Eventually _ _ | MaxCalls _ _ | Before _ _ | Blocklist _ => True
  end.

Record Records (names : list string) (s : ExplainerState) : Prop := {
  rec_seen : tools_seen s = names;
  rec_aliases : es_aliases s = pol_aliases policy;
  rec_counts : forall t, count_of s t = as_u32 (occurrences t names);
  rec_flags : forall t, tool_seen_flags s !! t = if str_in t names then Some true else None;
  rec_rules : forall k rule, pol_sequences policy !! k = Some rule -> rule_state names k rule s
}.

(** Two states agree on rule [k]. *)
Definition same_at (k : nat) (s s' : ExplainerState) : Prop :=
  never_after_triggered s !! k = never_after_triggered s' !! k /\ pending_after s !! k = pending_after s' !! k /\
  sequence_progress s !! k = sequence_progress s' !! k /\ es_aliases s = es_aliases s'.

Lemma same_at_trans k s1 s2 s3 : same_at k s1 s2 -> same_at k s2 s3 -> same_at k s1 s3.
Proof. unfold same_at. intuition congruence. Qed.

Lemma update_rule_other tool idx k k' rule s : k' <> k -> same_at k' (update_rule tool idx k rule s) s.
Proof.
  intros Hk. unfold same_at. destruct rule; cbn [update_rule]; try done;
    (case_match; [|done]); cbn; by rewrite ?lookup_insert_ne.
Qed.

Lemma update_rule_same tool idx k rule s s' :
  same_at k s s' -> same_at k (update_rule tool idx k rule s) (update_rule tool idx k rule s').
Proof.
  intros (Hn & Hp & Hq & Ha). unfold same_at.
  assert (Hm : forall t sel, es_matches s t sel = es_matches s' t sel)
    by (intros; unfold es_matches, es_resolve_alias; by rewrite Ha).
  destruct rule; cbn [update_rule]; try done; rewrite ?Hn, ?Hq.
  - rewrite Hm. case_match; [|done]. cbn. by rewrite !lookup_insert_eq.
  - rewrite Hm. case_match; [|done]. cbn. by rewrite !lookup_insert_eq.
  - destruct (tools !! default 0 (sequence_progress s' !! k)) as [t|]; [|done]. rewrite Hm.
    case_match; [|done]. cbn. by rewrite !lookup_insert_eq.
Qed.

Lemma update_rules_other tool idx k k0 rules s :
  k < k0 -> same_at k (update_rules tool idx k0 rules s) s.
Proof.
  revert k0 s. induction rules as [|r rules IH]; intros k0 s Hk; cbn [update_rules]; [done|].
  eapply same_at_trans; [apply IH; lia | apply update_rule_other; lia].
Qed.

Lemma update_rules_at tool idx k0 j rules rule s :
  rules !! j = Some rule ->
  same_at (k0 + j) (update_rules tool idx k0 rules s) (update_rule tool idx (k0 + j) rule s).
Proof.
  revert k0 j s. induction rules as [|r rules IH]; intros k0 [|j] s Hj; cbn in Hj; try done; cbn [update_rules].
  - injection Hj as ->. rewrite Nat.add_0_r. apply update_rules_other. lia.
  - replace (k0 + S j) with (S k0 + j) by lia. eapply same_at_trans; [by apply IH|].
    apply update_rule_same, update_rule_other. lia.
Qed.

Lemma update_rules_fields tool idx k0 rules s :
  let s' := update_rules tool idx k0 rules s in
  tools_seen s' = tools_seen s /\ es_aliases s' = es_aliases s /\ call_counts s' = call_counts s /\
  tool_seen_flags s' = tool_seen_flags s.
Proof.
  revert k0 s. induction rules as [|r rules IH]; intros k0 s; cbn [update_rules]; [done|].
  cbn zeta in *. destruct (IH (S k0) (update_rule tool idx k0 r s)) as (-> & -> & -> & ->).
  destruct r; cbn [update_rule]; try done; by case_match.
Qed.

Lemma rule_state_step names tool k rule s :
  rule_state names k rule s -> es_aliases s = pol_aliases policy ->
  rule_state (names ++ [tool]) k rule (update_rule tool (length names) k rule s).
Proof.
  intros Hs Ha.
  assert (Hm : forall sel, es_matches s tool sel = str_in tool (targets_of (Some policy) sel)).
  { intros sel. unfold es_matches, es_resolve_alias, targets_of, resolve, resolve_alias. by rewrite Ha. }
  destruct rule as [| | | |trigger thn within|trigger forbidden|tools strict|]; cbn [rule_state update_rule] in *; try done.
  - unfold triggers_of, indices. rewrite indices_from_snoc, Hm. cbn [Nat.add].
    destruct (str_in tool _); cbn; [by rewrite lookup_insert_eq, last_snoc | by rewrite app_nil_r].
  - unfold triggers_of, indices in *. rewrite indices_from_snoc, Hm, Hs. cbn [Nat.add].
    destruct (indices_from _ 0 names); cbn [head app opt_is_some negb];
      [|by rewrite andb_false_r]. rewrite andb_true_r.
    destruct (str_in tool _); cbn; [by rewrite lookup_insert_eq | done].
  - rewrite map_app. cbn [map]. set (q := default 0 (sequence_progress s !! k)) in *.
    assert (He : expects (Some policy) (map drop_args tools) q (named tool) =
      match tools !! q with Some t => es_matches s tool t | None => false end).
    { unfold expects. rewrite list_lookup_fmap. destruct (tools !! q) as [t|]; [|done]. cbn.
      by rewrite Hm, plain_matches. }
    rewrite <- He. destruct (expects _ _ _ _) eqn:E; cbn.
    + rewrite lookup_insert_eq. by apply progress_next.
    + by apply progress_stay.
Qed.

Lemma rule_state_same names k rule s s' :
  same_at k s s' -> rule_state names k rule s' -> rule_state names k rule s.
Proof. intros (Hn & Hp & Hq & _). destruct rule; cbn; by rewrite ?Hn, ?Hp, ?Hq. Qed.

Lemma str_in_snoc t names n : str_in t (names ++ [n]) = str_in t names || String.eqb t n.
Proof. unfold str_in. rewrite existsb_app. cbn. by rewrite orb_false_r. Qed.

Lemma records_step names tool s :
  Records names s -> Records (names ++ [tool]) (update tool (length names) policy s).
Proof.
  intros [Hseen Ha Hc Hf Hr]. unfold update.
  set (s1 := s <| call_counts := _ |> <| tool_seen_flags := _ |>).
  destruct (update_rules_fields tool (length names) 0 (pol_sequences policy) s1) as (E1 & E2 & E3 & E4).
  change (tools_seen s1) with (tools_seen s) in E1. change (es_aliases s1) with (es_aliases s) in E2.
  change (call_counts s1) with (<[tool := as_u32 (count_of s tool + 1)]> (call_counts s)) in E3.
  change (tool_seen_flags s1) with (<[tool := true]> (tool_seen_flags s)) in E4.
  split; cbn.
  - by rewrite E1, Hseen.
  - by rewrite E2.
  - intros t. unfold count_of. cbn. rewrite E3. cbn. unfold occurrences. rewrite List.filter_app, length_app. cbn.
    destruct (String.eqb_spec t tool) as [->|Ht].
    + rewrite lookup_insert_eq. cbn. rewrite (Hc tool). unfold occurrences, as_u32.
      rewrite Zplus_mod_idemp_l. f_equal. lia.
    + rewrite lookup_insert_ne by done. cbn. rewrite Nat.add_0_r. apply Hc.
  - intros t. rewrite E4, str_in_snoc. cbn. destruct (String.eqb_spec t tool) as [->|Ht].
    + by rewrite lookup_insert_eq, orb_true_r.
    + rewrite lookup_insert_ne by done. by rewrite orb_false_r.
  - intros k rule Hk. eapply rule_state_same with (s' := update_rules tool (length names) 0 (pol_sequences policy) s1);
      [done|].
    eapply rule_state_same; [apply (update_rules_at tool (length names) 0 k _ rule s1 Hk)|].
    apply rule_state_step; [|done]. apply (rule_state_same _ _ _ _ s); [done | by apply Hr].
Qed.

Lemma records_new : Records [] (explainer_new policy).
Proof.
  split; try done. intros k rule _. destruct rule; cbn; try done. constructor.
Qed.

Lemma explain_step_state idx call s : snd (explain_step policy idx call s) = update (tc_tool call) idx policy s.
Proof.
  unfold explain_step. destruct (check_static_constraints _ _); [destruct (explain_rules _ _ _ _ _ _ _)|];
    [done|]. by destruct (explain_rules _ _ _ _ _ _ _).
Qed.

Lemma explain_loop_records pre trace s steps fb blocking :
  Records pre s ->
  Records (pre ++ map tc_tool trace) (snd (explain_loop policy (length pre) trace s steps fb blocking)).
Proof.
  revert pre s steps fb blocking. induction trace as [|call trace IH]; intros pre s steps fb blocking Hs;
    cbn [explain_loop map].
  { by rewrite app_nil_r. }
  pose proof (explain_step_state (length pre) call s) as E.
  destruct (explain_step policy (length pre) call s) as [[step blocked_by] s']. cbn in E. subst s'.
  specialize (IH (pre ++ [tc_tool call]) (update (tc_tool call) (length pre) policy s)).
  rewrite length_app, Nat.add_1_r, <- app_assoc in IH. apply IH, records_step, Hs.
Qed.

(** The explainer's state after a trace is what its evaluation assumes: the
    calls seen in order, how often each tool was called, which were seen, and
    for each rule where its trigger first fired, the window of its latest
    trigger, or how far its sequence got. *)
Theorem explainer_records trace steps fb blocking :
  Records (map tc_tool trace) (snd (explain_loop policy 0 trace (explainer_new policy) steps fb blocking)).
Proof. apply (explain_loop_records []), records_new. Qed.
End records.

(** ** Blocked steps *)

Section blocking.
Context `{Platform} `{Regex} `{Lowercase} (policy : Policy).

(** Rules whose explanation is exact. *)
Definition exact_rule (rule : SequenceRule) : bool :=
  match rule with
  | NeverAfter _ _ | Blocklist _ | Sequence _ true => name_only rule
  | Require_ _ | Eventually _ _ | MaxCalls _ _ | Before _ _ | After _ _ _ | Sequence _ false => false
  end.

(** Call [n] after the calls [names] fails the rule. *)
Definition fails_at (rule : SequenceRule) (names : list string) (n : string) : Prop :=
  match rule with
  | NeverAfter trigger forbidden =>
      (exists i, hit (Some policy) (map named names) trigger i) /\
      selector_matches (Some policy) forbidden (named n) = true
  | Blocklist pattern => str_contains n pattern = true
  | Sequence tools strict => breaks (Some policy) tools strict (map named names) (named n)
  | _ => False
  end.

Lemma drop_args_plain tools : forallb plain tools = true -> map drop_args tools = tools.
Proof.
  induction tools as [|t tools IH]; cbn; [done|]. intros [Ht Hr]%andb_true_iff. rewrite (IH Hr).
  by destruct t.
Qed.

Lemma explain_rule_exact names k rule n s idx :
  Records policy names s -> pol_sequences policy !! k = Some rule -> exact_rule rule = true ->
  (ex_passed (explain_rule s k rule n idx) = false <-> fails_at rule names n).
Proof.
  intros Hrec Hk He. pose proof (rec_rules _ _ _ Hrec k rule Hk) as Hs.
  assert (Hm : forall sel, plain sel = true -> es_matches s n sel = selector_matches (Some policy) sel (named n)).
  { intros sel Hp. rewrite plain_matches by done.
    unfold es_matches, es_resolve_alias, targets_of, resolve, resolve_alias. by rewrite (rec_aliases _ _ _ Hrec). }
  destruct rule as [| | | | |trigger forbidden|tools [|]|pattern]; try done; cbn [explain_rule fails_at].
  - cbn in He, Hs. apply andb_true_iff in He as [Ht Hf]. cbn [explain_never_after ex_passed].
    rewrite Hs, (Hm _ Hf), negb_false_iff, andb_true_iff.
    assert (Hh : opt_is_some (head (triggers_of policy trigger names)) = true <->
      exists i, hit (Some policy) (map named names) trigger i).
    { unfold triggers_of. rewrite <- (plain_indices (Some policy) trigger names Ht).
      setoid_rewrite <- hit_indices. destruct (indices_matching _ _ _) as [|i r]; cbn.
      - split; [done|]. by intros [i ?%elem_of_nil].
      - split; [|done]. intros _. exists i. by left. }
    by rewrite Hh.
  - cbn in He, Hs. rewrite (drop_args_plain tools He) in Hs. unfold explain_sequence.
    set (q := default 0 (sequence_progress s !! k)) in *.
    assert (Hb : breaks (Some policy) tools true (map named names) (named n) <->
      q < length tools /\ expects (Some policy) tools q (named n) = false /\ 0 < q).
    { split; [|by exists q]. intros (q' & Hq & ?). by rewrite (progress_fun _ _ _ _ _ Hs Hq). }
    rewrite Hb. unfold expects. destruct (tools !! q) as [t|] eqn:Et.
    + assert (Hp : plain t = true).
      { rewrite forallb_forall in He. apply He, list_elem_of_In. by eapply list_elem_of_lookup_2. }
      rewrite <- (Hm t Hp). apply lookup_lt_Some in Et.
      destruct (es_matches s n t); cbn [negb andb]; rewrite ?andb_false_r, ?andb_true_r.
      * cbn. intuition done.
      * destruct (Nat.ltb_spec 0 q); cbn; intuition lia.
    + apply lookup_ge_None in Et. cbn. intuition (done || lia).
  - cbn. by rewrite negb_false_iff.
Qed.

Lemma explain_rules_blocked s tool idx k rules ev b :
  opt_is_some (snd (explain_rules s tool idx k rules ev b)) = true <->
  opt_is_some b = true \/
  exists j rule, rules !! j = Some rule /\ ex_passed (explain_rule s (k + j) rule tool idx) = false.
Proof.
  revert k ev b. induction rules as [|r rules IH]; intros k ev b; cbn [explain_rules].
  { cbn. split; [auto|]. intros [?|(j & ? & Hj & _)]; [done | by rewrite lookup_nil in Hj]. }
  rewrite IH. split.
  - intros [Hb|(j & rule & Hj & Hf)].
    + destruct (ex_passed _) eqn:E; cbn [negb andb] in Hb; [by left|].
      right. exists 0, r. by rewrite Nat.add_0_r.
    + right. exists (S j), rule. by replace (k + S j) with (S k + j) by lia.
  - intros [Hb|([|j] & rule & Hj & Hf)].
    + left. rewrite Hb, andb_false_r. done.
    + left. cbn in Hj. injection Hj as ->. rewrite Nat.add_0_r in Hf. rewrite Hf. cbn. by destruct b.
    + right. exists j, rule. by replace (S k + j) with (k + S j) by lia.
Qed.

Lemma explain_loop_blocked pre trace s steps fb blocking :
  tp_deny (pol_tools policy) = None -> tp_allow (pol_tools policy) = None ->
  forallb exact_rule (pol_sequences policy) = true -> Records policy pre s ->
  opt_is_some (snd (fst (fst (explain_loop policy (length pre) trace s steps fb blocking)))) = true <->
  opt_is_some fb = true \/
  exists before n after rule, map tc_tool trace = before ++ n :: after /\
    rule ∈ pol_sequences policy /\ fails_at rule (pre ++ before) n.
Proof.
  intros Hd Ha Hex. revert pre s steps fb blocking.
  induction trace as [|call trace IH]; intros pre s steps fb blocking Hs; cbn [explain_loop map].
  { cbn. split; [auto|]. intros [?|([|??] & ? & ? & ? & ? & _)]; done. }
  pose proof (explain_step_state policy (length pre) call s) as E.
  assert (Hv : bool_decide (st_verdict (fst (fst (explain_step policy (length pre) call s))) = Blocked) = true <->
    exists rule, rule ∈ pol_sequences policy /\ fails_at rule pre (tc_tool call)).
  { unfold explain_step, check_static_constraints. rewrite Hd, Ha.
    pose proof (explain_rules_blocked s (tc_tool call) (length pre) 0 (pol_sequences policy) [] None) as Hb.
    destruct (explain_rules _ _ _ _ _ _ _) as [evs b]. cbn [fst snd st_verdict] in *.
    rewrite bool_decide_eq_true. transitivity (opt_is_some b = true); [by destruct (opt_is_some b)|].
    rewrite Hb. rewrite forallb_forall in Hex. split.
    - intros [?|(j & rule & Hj & Hf)]; [done|]. exists rule.
      assert (Hin : rule ∈ pol_sequences policy) by by eapply list_elem_of_lookup_2.
      split; [done|]. eapply explain_rule_exact; [done | exact Hj | by apply Hex, list_elem_of_In | exact Hf].
    - intros (rule & Hin & Hf). right. pose proof Hin as Hin'. apply list_elem_of_lookup in Hin as [j Hj].
      exists j, rule. split; [done|]. eapply explain_rule_exact; [done | exact Hj | by apply Hex, list_elem_of_In | exact Hf]. }
  destruct (explain_step policy (length pre) call s) as [[step blocked_by] s']. cbn in E. subst s'. cbn [fst] in Hv.
  specialize (IH (pre ++ [tc_tool call]) (update (tc_tool call) (length pre) policy s)).
  rewrite length_app, Nat.add_1_r in IH. rewrite IH by (by apply records_step). clear IH. split.
  - intros [Hb|(before & n & after & rule & Et & Hin & Hf)].
    + destruct (bool_decide _) eqn:Eb; cbn [andb] in Hb; [|by left].
      apply Hv in Hb as (rule & Hin & Hf) || (destruct (proj1 Hv eq_refl) as (rule & Hin & Hf)).
      right. exists [], (tc_tool call), (map tc_tool trace), rule. by rewrite app_nil_r.
    + right. exists (tc_tool call :: before), n, after, rule. rewrite Et, <- app_assoc in *. done.
  - intros [Hb|([|n0 before] & n & after & rule & Et & Hin & Hf)].
    + left. destruct (bool_decide _); cbn [andb]; by destruct fb.
    + left. injection Et as <- _. rewrite app_nil_r in Hf.
      destruct Hv as [_ Hv]. rewrite Hv by eauto. by destruct fb.
    + right. injection Et as <- Et. exists before, n, after, rule. by rewrite <- app_assoc.
Qed.

Lemma fails_violates rule names :
  exact_rule rule = true ->
  (exists before n after, names = before ++ n :: after /\ fails_at rule before n) <->
  violates (Some policy) Partial rule (map named names).
Proof.
  destruct rule as [| | | | |trigger forbidden|tools [|]|pattern]; try done; intros _; cbn [fails_at violates].
  - split.
    + intros (before & n & after & -> & [i Hi] & Hf). exists i, (length before).
      pose proof (hit_bound _ _ _ _ Hi) as Hb. rewrite length_map in Hb. rewrite map_app.
      split_and!; [done | by apply hit_app|]. exists (named n). split; [|done].
      rewrite lookup_app_r; rewrite length_map; [|done]. by rewrite Nat.sub_diag.
    + intros (i & j & Hij & Hi & (c & Hc & Hf)). rewrite list_lookup_fmap in Hc.
      destruct (names !! j) as [n|] eqn:Ej; [|done]. injection Hc as <-.
      exists (take j names), n, (drop (S j) names). split; [by rewrite take_drop_middle|]. split; [|done].
      exists i. apply (hit_app_inv _ _ (map named (drop j names))).
      * rewrite length_map, length_take. apply lookup_lt_Some in Ej. lia.
      * by rewrite <- map_app, take_drop.
  - split.
    + intros (before & n & after & -> & Hb). left. rewrite map_app. cbn [map]. eauto.
    + intros [(b & c & a & E & Hb)|[? _]]; [|done].
      apply map_eq_app in E as (b' & r & -> & <- & E). destruct r as [|n r]; [done|]. injection E as <- <-. eauto.
  - split.
    + intros (before & n & after & -> & Hc). exists (length before), (named n). split; [|done].
      rewrite list_lookup_fmap, list_lookup_middle; done.
    + intros (i & c & Hc & Hm). rewrite list_lookup_fmap in Hc. destruct (names !! i) as [n|] eqn:En; [|done].
      injection Hc as <-. exists (take i names), n, (drop (S i) names). by rewrite take_drop_middle.
Qed.

(** For [never_after], [blocklist] and strict [sequence] rules over tool
    names, the explanation blocks a step of a trace exactly when the shared
    evaluation violates one of the rules. *)
Theorem explain_blocks_iff trace :
  tp_deny (pol_tools policy) = None -> tp_allow (pol_tools policy) = None ->
  forallb exact_rule (pol_sequences policy) = true -> (Z.of_nat (length trace) < 2 ^ 32)%Z ->
  opt_is_some (te_first_block_index (explain policy trace)) =
  existsb is_violation
    (evaluate_rules (pol_sequences policy) (map (fun c => named (tc_tool c)) trace) (Some policy) Partial).
Proof.
  intros Hd Ha Hex Hlen. apply eq_true_iff_eq.
  assert (E : te_first_block_index (explain policy trace) =
    snd (fst (fst (explain_loop policy 0 trace (explainer_new policy) [] None [])))).
  { unfold explain. destruct (explain_loop _ _ _ _ _ _ _) as [[[steps fb] blocking] s]. cbn.
    by destruct (negb _ && negb _). }
  rewrite E, (explain_loop_blocked [] trace (explainer_new policy)) by (done || apply records_new).
  unfold evaluate_rules. rewrite existsb_map, existsb_true.
  assert (Hv : forall rule, rule ∈ pol_sequences policy ->
    (is_violation (evaluate_rule rule (map (fun c => named (tc_tool c)) trace) (Some policy) Partial) = true <->
     exists before n after, map tc_tool trace = before ++ n :: after /\ fails_at rule before n)).
  { intros rule Hin. rewrite forallb_forall in Hex. rewrite fails_violates by by apply Hex, list_elem_of_In.
    rewrite map_map. pose proof (evaluate_rule_verdict (Some policy) rule (map (fun c => named (tc_tool c)) trace) Partial) as Hv.
    rewrite length_map in Hv. specialize (Hv Hlen). unfold is_violation.
    destruct (re_outcome _); cbn [verdict_means] in Hv; unfold undecided in Hv; naive_solver. }
  split.
  - intros [?|(before & n & after & rule & Et & Hin & Hf)]; [done|]. exists rule. split; [done|].
    apply Hv; eauto.
  - intros (rule & Hin & Hr). right. apply Hv in Hr as (before & n & after & Et & Hf); [|done]. eauto 10.
Qed.
End blocking.

(** ** Totals *)

Section totals.
Context `{Lowercase} (policy : Policy).

Lemma explain_step_verdict idx call s :
  st_verdict (fst (fst (explain_step policy idx call s))) <> Warning.
Proof.
  unfold explain_step. destruct (check_static_constraints _ _); destruct (explain_rules _ _ _ _ _ _ _); cbn;
    by destruct (opt_is_some _).
Qed.

(** The steps so far and where the first blocked one is. *)
Definition steps_consistent (steps : list ExplainedStep) (fb : option nat) : Prop :=
  Forall (fun s => st_verdict s <> Warning) steps /\ fb = position (has_verdict Blocked) steps.

Lemma explain_loop_totals trace s steps fb blocking :
  steps_consistent steps fb ->
  let '((steps', fb', _), _) := explain_loop policy (length steps) trace s steps fb blocking in
  steps_consistent steps' fb' /\ length steps' = length steps + length trace.
Proof.
  revert s steps fb blocking. induction trace as [|call trace IH]; intros s steps fb blocking [Hw Hf];
    cbn [explain_loop].
  { split; [done | cbn; lia]. }
  pose proof (explain_step_verdict (length steps) call s) as Hv.
  destruct (explain_step policy (length steps) call s) as [[step blocked_by] s']. cbn in Hv.
  specialize (IH s' (steps ++ [step])
    (if bool_decide (st_verdict step = Blocked) && negb (opt_is_some fb) then Some (length steps) else fb)
    (match blocked_by with Some rule => add_rule rule blocking | None => blocking end)).
  rewrite length_app, Nat.add_1_r in IH.
  destruct (explain_loop _ _ _ _ _ _ _) as [[[steps' fb'] bl'] s2]. cbn [length].
  rewrite <- Nat.add_succ_comm. apply IH. split; [apply Forall_app; auto|].
  rewrite position_snoc, <- Hf. unfold has_verdict. destruct fb; cbn [opt_is_some negb].
  - by rewrite andb_false_r.
  - by rewrite andb_true_r.
Qed.

Lemma add_to_last_verdicts evals steps : map st_verdict (add_to_last evals steps) = map st_verdict steps.
Proof.
  induction steps as [|s [|s' steps] IH]; [done..|].
  change (add_to_last evals (s :: s' :: steps)) with (s :: add_to_last evals (s' :: steps)).
  cbn [map] in *. by rewrite IH.
Qed.

Lemma verdict_counts steps :
  Forall (fun s => st_verdict s <> Warning) steps ->
  length (List.filter (has_verdict Allowed) steps) + length (List.filter (has_verdict Blocked) steps) = length steps.
Proof.
  induction 1 as [|s steps Hs _ IH]; [done|].
  assert (Ha : has_verdict Allowed s = negb (has_verdict Blocked s)).
  { unfold has_verdict. by destruct (st_verdict s). }
  cbn [List.filter]. rewrite Ha. destruct (has_verdict Blocked s); cbn [negb length]; lia.
Qed.

(** The totals of an explanation: a step per call, each either allowed or
    blocked, and the first blocked step is the one reported as first. *)
Theorem explain_totals trace :
  let e := explain policy trace in
  te_total_steps e = length trace /\ te_allowed_steps e + te_blocked_steps e = te_total_steps e /\
  length (te_steps e) = length trace /\ te_first_block_index e = position (has_verdict Blocked) (te_steps e).
Proof.
  unfold explain. pose proof (explain_loop_totals trace (explainer_new policy) [] None []) as Hl.
  destruct (explain_loop policy 0 trace (explainer_new policy) [] None []) as [[[steps fb] blocking] s] eqn:E.
  cbn [length] in Hl. rewrite E in Hl. destruct Hl as [[Hw Hf] Hlen]; [by split|]. cbn in Hlen.
  set (ends := check_end_of_trace policy s).
  assert (Hs : forall steps', map st_verdict steps' = map st_verdict steps ->
    length steps' = length trace /\
    length (List.filter (has_verdict Allowed) steps') + length (List.filter (has_verdict Blocked) steps') = length steps' /\
    fb = position (has_verdict Blocked) steps').
  { intros steps' Em. split_and!.
    - by rewrite <- (length_map st_verdict steps'), Em, length_map.
    - apply verdict_counts. rewrite <- (Forall_map st_verdict (fun v => v <> Warning)), Em. by apply Forall_map.
    - assert (Hp : forall l, position (has_verdict Blocked) l =
        position (fun v => bool_decide (v = Blocked)) (map st_verdict l)) by (intros; by rewrite position_map).
      by rewrite Hf, !Hp, Em. }
  destruct (negb (is_nil ends) && negb (is_nil steps)).
  - destruct (Hs (add_to_last ends steps) (add_to_last_verdicts _ _)) as (H1 & H2 & H3). by cbn.
  - destruct (Hs steps eq_refl) as (H1 & H2 & H3). by cbn.
Qed.
End totals.

(** ** Where the explanation differs *)

Section divergence.
Context `{Platform} `{Regex} `{Lowercase}.

Definition plain_policy (rules : list SequenceRule) (aliases : gmap string (list string)) : Policy :=
  mkPolicy "1" "" None (mkToolsPolicy None None None None) rules aliases Block.
Definition tool_calls (names : list string) : list ToolCall := map (fun n => mkToolCall n None) names.
Definition both_alias : gmap string (list string) := {["both" := ["a"; "b"]]}.

Definition explained (rule : SequenceRule) (names : list string) : option nat :=
  te_first_block_index (explain (plain_policy [rule] both_alias) (tool_calls names)).
Definition evaluated (rule : SequenceRule) (names : list string) : RuleOutcome :=
  re_outcome (evaluate_rule rule (map named names) (Some (plain_policy [rule] both_alias)) Complete).

(** The explanation of the other rules is not the evaluation: an answered
    [after] obligation is reported as missed once its window has passed, a call
    at the [eventually] deadline is accepted, calls under two names of an alias
    are not added up for [max_calls], and [before] and [sequence] steps that
    accept the same call block it. *)
Theorem explain_diverges :
  (explained (After (Tool "T") (Tool "A") 1) ["T"; "A"; "X"] = Some 2 /\
   evaluated (After (Tool "T") (Tool "A") 1) ["T"; "A"; "X"] = Held) /\
  (explained (Eventually (Tool "A") 1) ["X"; "A"] = None /\
   evaluated (Eventually (Tool "A") 1) ["X"; "A"] = Violated) /\
  (explained (MaxCalls (Tool "both") 1) ["a"; "b"] = None /\
   evaluated (MaxCalls (Tool "both") 1) ["a"; "b"] = Violated) /\
  (explained (Before (Tool "both") (Tool "a")) ["a"] = Some 0 /\
   evaluated (Before (Tool "both") (Tool "a")) ["a"] = Held) /\
  (explained (Sequence [Tool "A"; Tool "A"] false) ["A"; "A"] = Some 0 /\
   evaluated (Sequence [Tool "A"; Tool "A"] false) ["A"; "A"] = Held).
Proof. split_and!; vm_compute; reflexivity. Qed.
End divergence.
