(* ===== verification/Era.v ===== *)
(** * Protocol eras

    [mcp/era.rs] of [assay-core]: what a message of an imported MCP transcript
    says about the protocol version it was written against, and what a request
    or a result is worth under it.  Three axes are observed separately (the
    transport envelope, the request metadata, the result) and combined by
    [resolve_era], [conclude_request] and [conclude].  An [unreachable!] arm is
    a panic; it is shown never to be taken.  A version is compared as a string;
    it is shown that on accepted versions this is the order of dates. *)
From stdpp Require Import base tactics list strings gmap pretty.
From Stdlib Require Import ZArith Lia Ascii.
From S2P Require Import Prelude RustStr Json.

(** ** Observations and verdicts *)

Definition RESULT_TYPE_SINCE : string := "2026-07-28".

Inductive EnvelopeObservation : Type :=
| NotApplicable
| EnvAbsent
| EnvPresent (version : string)
| EnvMalformed.

(** The key of a call keeps the JSON type of its id. *)
Inductive CorrelationId : Type :=
| IdStr (s : string)
| IdNum (text : string).
#[global] Instance CorrelationId_eq : EqDecision CorrelationId.
Proof. solve_decision. Defined.
#[global] Instance CorrelationId_countable : Countable CorrelationId.
Proof.
  apply (inj_countable' (fun i => match i with IdStr s => inl s | IdNum s => inr s end)
           (fun x => match x with inl s => IdStr s | inr s => IdNum s end)).
  by intros [].
Defined.

Inductive MessageKind : Type :=
| Request (method : string)
| Notification (method : string)
| Response.

Inductive MessageShapeError : Type :=
| NonStringMethod
| NotExactlyOneResponseBody
| MalformedErrorBody.

Inductive RequestMetadata : Type :=
| MetaAbsent
| MetaPresent (version : string)
| MetaMalformed.

Inductive UnknownReason : Type :=
| NoSignal
| UnsupportedVersion (version : string)
| MalformedSignal.

Inductive EraResolution : Type :=
| Known (version : string)
| Unknown (reason : UnknownReason)
| Conflicting (header body : string).

Inductive ResultObservation : Type :=
| Missing
| Complete
| InputRequired
| Unrecognized
| CompleteWithContinuation
| InputRequiredWithMalformedContinuation
| InputRequiredWithoutContinuation
| ResultMalformed.

Inductive CapabilityObservation : Type :=
| CoreOnly
| ExtensionNotUnderstood
| CapAbsent
| CapMalformed.

Inductive IncompleteReason : Type :=
| EraUnknown (reason : UnknownReason)
| UnrecognizedResultType
| RecognitionUndeterminable
| ContradictoryResult.

Inductive InvalidReason : Type :=
| EraConflicting (header body : string)
| MissingResultType
| MissingRequestMetadata
| MalformedRequestMetadata
| MalformedEraSignal
| MalformedResultType
| MalformedCapabilities
| MissingCapabilities
| MalformedContinuation
| UncontinuableInputRequired.

Inductive RequestAssessment : Type :=
| RequestValid
| RequestIncomplete (reason : IncompleteReason)
| RequestInvalid (reason : InvalidReason).

Inductive ResultConclusion : Type :=
| Terminal
| NonTerminal
| Incomplete (reason : IncompleteReason)
| Invalid (reason : InvalidReason).

Inductive ContinuationShape : Type := ContAbsent | ContPresent | ContMalformed.

Record McpEraContext : Type := mkEraContext {
  cx_envelope : EnvelopeObservation;
  cx_era : EraResolution;
  cx_request_metadata : option RequestMetadata;
  cx_result_observation : option ResultObservation;
  cx_correlation : option CorrelationId;
  cx_capability_observation : option CapabilityObservation
}.
#[global] Instance McpEraContext_eta : Eta McpEraContext := fun c =>
  mkEraContext (cx_envelope c) (cx_era c) (cx_request_metadata c) (cx_result_observation c)
    (cx_correlation c) (cx_capability_observation c).

(** ** Ids *)

Definition id_is_acceptable (v : Value) : bool :=
  match v with Str _ | Num _ => true | _ => false end.

(** A number keys on its text when it is an [i64] or a [u64]; other numbers
    went through [f64] and may have lost digits. *)
Definition correlation_key (v : Value) : option CorrelationId :=
  match v with
  | Str s => Some (IdStr s)
  | Num (PosInt n) | Num (NegInt n) => Some (IdNum (fmt_int n))
  | _ => None
  end.

Definition correlation_id (v : Value) : option CorrelationId := vget v "id" ≫= correlation_key.

(** ** The shape of a message *)

Definition REQUEST_ONLY_METHODS : list string :=
  ["completion/complete"; "elicitation/create"; "initialize"; "logging/setLevel"; "ping";
   "prompts/get"; "prompts/list"; "resources/list"; "resources/read"; "resources/subscribe";
   "resources/templates/list"; "resources/unsubscribe"; "roots/list"; "sampling/createMessage";
   "server/discover"; "subscriptions/listen"; "tasks/cancel"; "tasks/get"; "tasks/list";
   "tasks/result"; "tools/call"; "tools/list"].

Definition str_mem (s : string) (l : list string) : bool := existsb (String.eqb s) l.

Definition well_formed_error_body (v : Value) : bool :=
  match vget v "error" ≫= as_object with
  | None => false
  | Some error =>
      let integer_code :=
        opt_is_some (map_get error "code" ≫= as_i64) || opt_is_some (map_get error "code" ≫= as_u64) in
      let string_message := opt_is_some (map_get error "message" ≫= as_str) in
      integer_code && string_message
  end.

Definition classify_message (v : Value) : Result MessageKind MessageShapeError :=
  match vget v "method" with
  | None =>
      let has_result := opt_is_some (vget v "result") in
      let has_error := opt_is_some (vget v "error") in
      if Bool.eqb has_result has_error then Err NotExactlyOneResponseBody
      else if has_error && negb (well_formed_error_body v) then Err MalformedErrorBody
      else Ok Response
  | Some m =>
      match as_str m with
      | None => Err NonStringMethod
      | Some method =>
          Ok (if opt_is_some (vget v "id") || str_mem method REQUEST_ONLY_METHODS
              then Request method else Notification method)
      end
  end.

(** ** Versions *)

Definition SUPPORTED_VERSIONS : list string :=
  ["2024-11-05"; "2025-03-26"; "2025-06-18"; "2025-11-25"; RESULT_TYPE_SINCE].

(** [v[from..to].parse::<u32>().unwrap_or(0)], on an ASCII string. *)
Definition version_num (v : string) (from to : nat) : Z :=
  default 0%Z (parse_unsigned u32_max (str_take (to - from) (str_drop from v))).

Definition is_leap (year : Z) : bool :=
  ((year mod 4 =? 0) && (negb (year mod 100 =? 0) || (year mod 400 =? 0)))%Z.

Definition days_in_month (leap : bool) (month : Z) : Z :=
  if existsb (Z.eqb month) [1; 3; 5; 7; 8; 10; 12]%Z then 31
  else if existsb (Z.eqb month) [4; 6; 9; 11]%Z then 30
  else if leap then 29 else 28.

(** Bytes 4 and 7 are dashes, the others digits. *)
Fixpoint version_bytes (i : nat) (s : string) : bool :=
  match s with
  | EmptyString => true
  | String a r =>
      (if (Nat.eqb i 4 || Nat.eqb i 7)%bool then Ascii.eqb a "-" else is_digit a) && version_bytes (S i) r
  end.

Definition is_version_shaped (v : string) : bool :=
  if negb (Nat.eqb (String.length v) 10) || negb (version_bytes 0 v) then false
  else
    let year := version_num v 0 4 in
    let month := version_num v 5 7 in
    let day := version_num v 8 10 in
    if negb ((1 <=? month) && (month <=? 12))%Z || (day =? 0)%Z then false
    else (day <=? days_in_month (is_leap year) month)%Z.

Definition classify (version : string) : EraResolution :=
  if str_mem version SUPPORTED_VERSIONS then Known version else Unknown (UnsupportedVersion version).

Definition resolve_era (envelope : EnvelopeObservation) (metadata : RequestMetadata) : EraResolution :=
  let malformed := Unknown MalformedSignal in
  match envelope, metadata with
  | EnvMalformed, _ => malformed
  | _, MetaMalformed => malformed
  | _, _ =>
      let header := match envelope with EnvPresent v => Some v | _ => None end in
      let body := match metadata with MetaPresent v => Some v | _ => None end in
      if existsb (fun v => negb (is_version_shaped v)) (option_list header ++ option_list body) then malformed
      else
        match header, body with
        | Some h, Some b => if negb (String.eqb h b) then Conflicting h b else classify h
        | Some v, None | None, Some v => classify v
        | None, None => Unknown NoSignal
        end
  end.

Definition requires_result_type (version : string) : bool := str_leb RESULT_TYPE_SINCE version.

(** ** Conclusions *)

Definition conclude (era : EraResolution) (observed : ResultObservation)
    (capability : option CapabilityObservation) : Outcome ResultConclusion :=
  match observed with
  | ResultMalformed => Done (Invalid MalformedResultType)
  | _ =>
      match era with
      | Unknown MalformedSignal => Done (Invalid MalformedEraSignal)
      | Unknown reason => Done (Incomplete (EraUnknown reason))
      | Conflicting header body => Done (Invalid (EraConflicting header body))
      | Known version =>
          let modern := requires_result_type version in
          if modern && match capability with Some CapMalformed => true | _ => false end
          then Done (Invalid MalformedCapabilities)
          else
            match observed with
            | Complete => Done Terminal
            | InputRequired => Done NonTerminal
            | CompleteWithContinuation => Done (Incomplete ContradictoryResult)
            | InputRequiredWithoutContinuation => Done (Invalid UncontinuableInputRequired)
            | InputRequiredWithMalformedContinuation => Done (Invalid MalformedContinuation)
            | Unrecognized =>
                if negb modern then Done (Incomplete UnrecognizedResultType)
                else
                  match capability with
                  | Some CoreOnly => Done (Incomplete UnrecognizedResultType)
                  | Some (CapAbsent | ExtensionNotUnderstood) => Done (Incomplete RecognitionUndeterminable)
                  | None => Done (Incomplete RecognitionUndeterminable)
                  | Some CapMalformed => Panicked
                  end
            | ResultMalformed => Done (Invalid MalformedResultType)
            | Missing => if modern then Done (Invalid MissingResultType) else Done Terminal
            end
      end
  end.

Definition conclude_request (era : EraResolution) (metadata : RequestMetadata)
    (capability : option CapabilityObservation) : Outcome RequestAssessment :=
  match metadata with
  | MetaMalformed => Done (RequestInvalid MalformedRequestMetadata)
  | _ =>
      match era with
      | Conflicting header body => Done (RequestInvalid (EraConflicting header body))
      | Unknown MalformedSignal => Done (RequestInvalid MalformedEraSignal)
      | Unknown reason => Done (RequestIncomplete (EraUnknown reason))
      | Known version =>
          if negb (requires_result_type version) then Done RequestValid
          else
            match metadata with
            | MetaPresent _ =>
                match capability with
                | Some CoreOnly | Some ExtensionNotUnderstood => Done RequestValid
                | Some CapMalformed => Done (RequestInvalid MalformedCapabilities)
                | Some CapAbsent | None => Done (RequestInvalid MissingCapabilities)
                end
            | MetaAbsent => Done (RequestInvalid MissingRequestMetadata)
            | MetaMalformed => Panicked
            end
      end
  end.

(** ** Reading the observations off a message *)

Definition PROTOCOL_VERSION_META_KEY : string := "io.modelcontextprotocol/protocolVersion".
Definition CLIENT_CAPABILITIES_META_KEY : string := "io.modelcontextprotocol/clientCapabilities".
Definition PROTOCOL_VERSION_HEADER : string := "MCP-Protocol-Version".

(** The loop over the header's spellings: [found] is the version so far. *)
Fixpoint header_slots (found : option string) (values : list Value) : EnvelopeObservation :=
  match values with
  | [] => match found with Some v => EnvPresent v | None => EnvMalformed end
  | value :: rest =>
      match as_str value with
      | Some v =>
          if is_version_shaped v && match found with None => true | Some prev => String.eqb prev v end
          then header_slots (Some v) rest
          else EnvMalformed
      | None => EnvMalformed
      end
  end.

Definition protocol_slots (map : Map) : list Value :=
  (filter (fun e => eq_ignore_ascii_case (fst e) PROTOCOL_VERSION_HEADER = true) map).*2.

Definition observe_header (headers : option Value) : option EnvelopeObservation :=
  match headers with
  | None => None
  | Some headers =>
      match as_object headers with
      | None => Some EnvMalformed
      | Some map =>
          let slots := protocol_slots map in
          if is_nil slots then None else Some (header_slots None slots)
      end
  end.

Fixpoint fold_slots (seen : option string) (observations : list EnvelopeObservation) : EnvelopeObservation :=
  match observations with
  | [] => match seen with Some v => EnvPresent v | None => EnvMalformed end
  | EnvPresent v :: rest =>
      match seen with
      | Some prev => if negb (String.eqb prev v) then EnvMalformed else fold_slots (Some v) rest
      | None => fold_slots (Some v) rest
      end
  | _ :: _ => EnvMalformed
  end.

Definition fold_envelope (observations : list EnvelopeObservation) (framed : bool) : EnvelopeObservation :=
  if is_nil observations then if framed then EnvAbsent else NotApplicable
  else fold_slots None observations.

Definition observe_request_metadata (raw : Value) : RequestMetadata :=
  match vget raw "params" with
  | None => MetaAbsent
  | Some params =>
      if negb (is_object params) then MetaMalformed
      else
        match vget params "_meta" with
        | None => MetaAbsent
        | Some meta =>
            if negb (is_object meta) then MetaMalformed
            else
              match vget meta PROTOCOL_VERSION_META_KEY with
              | None => MetaAbsent
              | Some v =>
                  match as_str v with
                  | Some s => if is_version_shaped s then MetaPresent s else MetaMalformed
                  | None => MetaMalformed
                  end
              end
        end
  end.

(** The loop over the advertised set; [None] is the early return. *)
Fixpoint scan_capabilities (beyond_core : bool) (caps : Map) : option bool :=
  match caps with
  | [] => Some beyond_core
  | (name, value) :: rest =>
      if str_mem name ["elicitation"; "roots"; "sampling"] then
        if is_object value then scan_capabilities beyond_core rest else None
      else if str_mem name ["experimental"; "extensions"] then
        match as_object value with
        | None => None
        | Some map => scan_capabilities (beyond_core || negb (is_nil map)) rest
        end
      else scan_capabilities true rest
  end.

Definition observe_client_capabilities (raw : Value) : option CapabilityObservation :=
  match vget raw "params" with
  | None => None
  | Some params =>
      if negb (is_object params) then Some CapMalformed
      else
        match vget params "_meta" with
        | None => None
        | Some meta =>
            if negb (is_object meta) then Some CapMalformed
            else Some
              match vget meta CLIENT_CAPABILITIES_META_KEY with
              | None => CapAbsent
              | Some caps =>
                  match as_object caps with
                  | None => CapMalformed
                  | Some caps =>
                      match scan_capabilities false caps with
                      | None => CapMalformed
                      | Some true => ExtensionNotUnderstood
                      | Some false => CoreOnly
                      end
                  end
              end
        end
  end.

(** One continuation member: silent ([None] or null), stated, or broken. *)
Definition continuation_member (ok : Value -> bool) (v : option Value) : ContinuationShape :=
  match v with
  | None => ContAbsent
  | Some v => if is_null v then ContAbsent else if ok v then ContPresent else ContMalformed
  end.

Definition continuation_shape (result : Value) : ContinuationShape :=
  match continuation_member is_string (vget result "requestState") with
  | ContMalformed => ContMalformed
  | state =>
      match continuation_member is_object (vget result "inputRequests") with
      | ContMalformed => ContMalformed
      | ContPresent => ContPresent
      | ContAbsent => state
      end
  end.

Definition observe_result (raw : Value) : option ResultObservation :=
  match vget raw "result" with
  | None => None
  | Some result =>
      if negb (is_object result) then Some ResultMalformed
      else Some
        match vget result "resultType" with
        | None => Missing
        | Some v =>
            match as_str v with
            | Some token =>
                if String.eqb token "complete" then
                  match continuation_shape result with
                  | ContAbsent => Complete
                  | ContPresent | ContMalformed => CompleteWithContinuation
                  end
                else if String.eqb token "input_required" then
                  match continuation_shape result with
                  | ContPresent => InputRequired
                  | ContAbsent => InputRequiredWithoutContinuation
                  | ContMalformed => InputRequiredWithMalformedContinuation
                  end
                else Unrecognized
            | None => ResultMalformed
            end
        end
  end.

(** ** Versions are calendar dates, in their order *)

(** The proleptic Gregorian calendar. *)
Definition leap_year (y : Z) : Prop := (4 | y)%Z /\ (~ (100 | y) \/ (400 | y))%Z.
Inductive month_length (y : Z) : Z -> Z -> Prop :=
| long_month m : m ∈ [1; 3; 5; 7; 8; 10; 12]%Z -> month_length y m 31
| short_month m : m ∈ [4; 6; 9; 11]%Z -> month_length y m 30
| leap_february : leap_year y -> month_length y 2 29
| february : ~ leap_year y -> month_length y 2 28.

Record Date : Type := mkDate { d_year : Z; d_month : Z; d_day : Z }.
Definition calendar (d : Date) : Prop :=
  (0 <= d_year d <= 9999)%Z /\ exists n, month_length (d_year d) (d_month d) n /\ (1 <= d_day d <= n)%Z.

Definition digit (n : Z) : ascii := Ascii.ascii_of_N (Z.to_N (48 + n)).
Definition two_digits (n : Z) (s : string) : string := String (digit (n / 10)) (String (digit (n mod 10)) s).
Definition iso_date (d : Date) : string :=
  two_digits (d_year d / 100) (two_digits (d_year d mod 100)
    (String "-" (two_digits (d_month d) (String "-" (two_digits (d_day d) EmptyString))))).

(** Earlier than or on the same day. *)
Definition date_le (a b : Date) : Prop :=
  (d_year a < d_year b \/
   d_year a = d_year b /\ (d_month a < d_month b \/ d_month a = d_month b /\ d_day a <= d_day b))%Z.

Lemma is_leap_iff y : is_leap y = true <-> leap_year y.
Proof.
  unfold is_leap, leap_year. rewrite andb_true_iff, orb_true_iff, negb_true_iff, !Z.eqb_eq, Z.eqb_neq.
  rewrite <- !Z.mod_divide by lia. done.
Qed.

Lemma days_in_month_iff y m n :
  (1 <= m <= 12)%Z -> (month_length y m n <-> n = days_in_month (is_leap y) m).
Proof.
  intros Hm. assert (Hl := is_leap_iff y). split.
  - intros [m' H | m' H | H | H].
    + by repeat (apply elem_of_cons in H as [-> | H]; [done|]); inversion H.
    + by repeat (apply elem_of_cons in H as [-> | H]; [done|]); inversion H.
    + apply Hl in H. by rewrite H.
    + destruct (is_leap y); [by exfalso; apply H, Hl | done].
  - intros ->. assert (Hc : m ∈ [1; 3; 5; 7; 8; 10; 12]%Z \/ m ∈ [4; 6; 9; 11]%Z \/ m = 2%Z)
      by (rewrite !elem_of_cons; lia).
    destruct Hc as [H | [H | ->]].
    + replace (days_in_month (is_leap y) m) with 31%Z; [by constructor|].
      by repeat (apply elem_of_cons in H as [-> | H]; [done|]); inversion H.
    + replace (days_in_month (is_leap y) m) with 30%Z; [by constructor|].
      by repeat (apply elem_of_cons in H as [-> | H]; [done|]); inversion H.
    + destruct (is_leap y) eqn:E; constructor; [by apply Hl | intros H; apply Hl in H; congruence].
Qed.

Lemma digit_spec n : (0 <= n <= 9)%Z -> is_digit (digit n) = true /\ digit_value (digit n) = n.
Proof.
  intros H. assert (Hc : n ∈ [0; 1; 2; 3; 4; 5; 6; 7; 8; 9]%Z) by (rewrite !elem_of_cons; lia).
  by repeat (apply elem_of_cons in Hc as [-> | Hc]; [done|]); inversion Hc.
Qed.

Lemma is_digit_inv a : is_digit a = true -> (0 <= digit_value a <= 9)%Z /\ a = digit (digit_value a).
Proof.
  unfold is_digit. rewrite andb_true_iff, !N.leb_le. intros H. unfold digit_value, digit. split; [lia|].
  replace (48 + (Z.of_N (byte_of a) - 48))%Z with (Z.of_N (byte_of a)) by lia.
  rewrite N2Z.id. unfold byte_of. by rewrite Ascii.ascii_N_embedding.
Qed.

(** Reading digits back. *)
Lemma parse_unsigned_two a b :
  is_digit a = true -> is_digit b = true ->
  parse_unsigned u32_max (String a (String b EmptyString)) = Some (digit_value a * 10 + digit_value b)%Z.
Proof.
  intros Ha Hb. destruct (is_digit_inv a Ha) as [Ra _], (is_digit_inv b Hb) as [Rb _].
  assert (Hp : a <> "+"%char) by (by intros ->).
  assert (H : parse_digits u32_max 0 (String a (String b EmptyString)) = Some (digit_value a * 10 + digit_value b)%Z).
  { simpl. rewrite Ha, Hb. unfold u32_max. by rewrite !(proj2 (Z.leb_le _ _)) by lia. }
  rewrite <- H. destruct a as [[] [] [] [] [] [] [] []]; done.
Qed.

Lemma parse_unsigned_four a b c d :
  is_digit a = true -> is_digit b = true -> is_digit c = true -> is_digit d = true ->
  parse_unsigned u32_max (String a (String b (String c (String d EmptyString)))) =
    Some ((digit_value a * 10 + digit_value b) * 100 + (digit_value c * 10 + digit_value d))%Z.
Proof.
  intros Ha Hb Hc Hd.
  destruct (is_digit_inv a Ha) as [Ra _], (is_digit_inv b Hb) as [Rb _],
    (is_digit_inv c Hc) as [Rc _], (is_digit_inv d Hd) as [Rd _].
  assert (Hp : a <> "+"%char) by (by intros ->).
  assert (H : parse_digits u32_max 0 (String a (String b (String c (String d EmptyString)))) =
                Some ((digit_value a * 10 + digit_value b) * 100 + (digit_value c * 10 + digit_value d))%Z).
  { simpl. rewrite Ha, Hb, Hc, Hd. unfold u32_max. rewrite !(proj2 (Z.leb_le _ _)) by lia. f_equal. lia. }
  rewrite <- H. destruct a as [[] [] [] [] [] [] [] []]; done.
Qed.

Lemma two_digits_inv a b s :
  is_digit a = true -> is_digit b = true ->
  String a (String b s) = two_digits (digit_value a * 10 + digit_value b) s.
Proof.
  intros Ha Hb. destruct (is_digit_inv a Ha) as [Ra Ea], (is_digit_inv b Hb) as [Rb Eb]. unfold two_digits.
  rewrite Z.div_add_l, (Z.div_small (digit_value b)), Z.add_0_r by lia.
  rewrite (Z.add_comm (_ * 10)), Z.mod_add, Z.mod_small by lia. by rewrite <- Ea, <- Eb.
Qed.

(** The ten bytes of an accepted string. *)
Lemma version_layout v :
  String.length v = 10 -> version_bytes 0 v = true ->
  exists y c m d, (0 <= c <= 99 /\ 0 <= y <= 99 /\ 0 <= m <= 99 /\ 0 <= d <= 99)%Z /\
    v = two_digits c (two_digits y (String "-" (two_digits m (String "-" (two_digits d EmptyString))))) /\
    version_num v 0 4 = (c * 100 + y)%Z /\ version_num v 5 7 = m /\ version_num v 8 10 = d.
Proof.
  intros Hl Hb. do 10 (destruct v as [|? v]; [discriminate Hl|]). destruct v; [|discriminate Hl].
  cbn [version_bytes Nat.eqb orb andb] in Hb.
  repeat (apply andb_true_iff in Hb as [? Hb]).
  repeat match goal with H : Ascii.eqb _ _ = true |- _ => apply Ascii.eqb_eq in H as -> end.
  unfold version_num. cbn [Nat.sub str_take str_drop].
  rewrite parse_unsigned_four, !parse_unsigned_two by done. cbn [default].
  repeat match goal with H : is_digit ?a = true |- _ =>
    lazymatch goal with _ : (0 <= digit_value a <= 9)%Z |- _ => fail | _ => destruct (is_digit_inv a H) as [? _] end end.
  match goal with |- context [String ?a (String ?b (String ?c (String ?d (String "-" (String ?e (String ?f (String "-" (String ?g (String ?h _)))))))))] =>
    exists (digit_value c * 10 + digit_value d)%Z, (digit_value a * 10 + digit_value b)%Z,
      (digit_value e * 10 + digit_value f)%Z, (digit_value g * 10 + digit_value h)%Z;
    split; [lia|]; rewrite <- (two_digits_inv a b), <- (two_digits_inv c d), <- (two_digits_inv e f), <- (two_digits_inv g h) by done
  end.
  split_and!; done.
Qed.

Lemma two_digits_split n s :
  (0 <= n <= 99)%Z -> exists a b, is_digit a = true /\ is_digit b = true /\
    two_digits n s = String a (String b s) /\ n = (digit_value a * 10 + digit_value b)%Z.
Proof.
  intros H. exists (digit (n / 10)), (digit (n mod 10)).
  destruct (digit_spec (n / 10)) as [? E1]; [split; [apply Z.div_pos; lia | apply Z.lt_succ_r, Z.div_lt_upper_bound; lia]|].
  destruct (digit_spec (n mod 10)) as [? E2]; [pose proof (Z.mod_pos_bound n 10); lia|].
  split_and!; try done. rewrite E1, E2. pose proof (Z.div_mod n 10). lia.
Qed.

Lemma month_length_bounds y m n : month_length y m n -> (1 <= m <= 12 /\ 28 <= n <= 31)%Z.
Proof.
  intros [? H | ? H | |]; [ | | lia | lia];
    by repeat (apply elem_of_cons in H as [-> | H]; [lia|]); inversion H.
Qed.

Lemma calendar_bounds d :
  calendar d -> (0 <= d_year d / 100 <= 99 /\ 0 <= d_year d mod 100 <= 99 /\ 0 <= d_month d <= 99 /\ 0 <= d_day d <= 99)%Z.
Proof.
  intros [Hy (n & [Hm Hn]%month_length_bounds & Hd)].
  split_and!; try lia; [apply Z.div_pos; lia | apply Z.lt_succ_r, Z.div_lt_upper_bound; lia | |];
    pose proof (Z.mod_pos_bound (d_year d) 100); lia.
Qed.

(** A version is accepted exactly when it is the ISO text of a day of the
    Gregorian calendar, leap years included. *)
Theorem version_shaped_iff v :
  is_version_shaped v = true <-> exists d, calendar d /\ v = iso_date d.
Proof.
  unfold is_version_shaped. split.
  - destruct (Nat.eqb_spec (String.length v) 10) as [Hl|]; [|done]. cbn [negb orb].
    destruct (version_bytes 0 v) eqn:Hb; [|done]. cbn [negb].
    destruct (version_layout v Hl Hb) as (y & c & m & d & (Hc & Hy & Hm & Hd) & Hv & -> & -> & ->).
    destruct ((1 <=? m) && (m <=? 12))%Z eqn:Em; [|done]. cbn [negb orb].
    destruct (Z.eqb_spec d 0) as [|Hd0]; [done|]. intros Hle%Z.leb_le.
    apply andb_true_iff in Em as [?%Z.leb_le ?%Z.leb_le].
    exists (mkDate (c * 100 + y) m d). split.
    + split; cbn [d_year d_month d_day]; [lia|]. eexists. split; [by apply days_in_month_iff | lia].
    + unfold iso_date. cbn [d_year d_month d_day].
      rewrite Z.div_add_l, (Z.div_small y), Z.add_0_r, (Z.add_comm (_ * 100)), Z.mod_add, Z.mod_small by lia. done.
  - intros (d & Hc & ->). destruct (calendar_bounds d Hc) as (B1 & B2 & B3 & B4).
    destruct Hc as [Hy (n & Hn & Hd)]. destruct (month_length_bounds _ _ _ Hn) as [Hm _].
    apply days_in_month_iff in Hn; [|done].
    assert (Ey : d_year d = (d_year d / 100 * 100 + d_year d mod 100)%Z) by (pose proof (Z.div_mod (d_year d) 100); lia).
    unfold iso_date.
    destruct (two_digits_split (d_day d) EmptyString B4) as (a4 & b4 & ? & ? & -> & E4).
    destruct (two_digits_split (d_month d) (String "-" (String a4 (String b4 ""))) B3) as (a3 & b3 & ? & ? & -> & E3).
    destruct (two_digits_split (d_year d mod 100) (String "-" (String a3 (String b3 (String "-" (String a4 (String b4 "")))))) B2)
      as (a2 & b2 & ? & ? & -> & E2).
    destruct (two_digits_split (d_year d / 100)
      (String a2 (String b2 (String "-" (String a3 (String b3 (String "-" (String a4 (String b4 "")))))))) B1)
      as (a1 & b1 & ? & ? & -> & E1).
    assert (Hb : version_bytes 0 (String a1 (String b1 (String a2 (String b2 (String "-" (String a3 (String b3 (String "-" (String a4 (String b4 "")))))))))) = true).
    { cbn [version_bytes Nat.eqb orb]. repeat match goal with H : is_digit _ = true |- _ => rewrite H; clear H end. done. }
    rewrite Hb. unfold version_num. cbn [String.length Nat.eqb negb orb Nat.sub str_take str_drop].
    rewrite parse_unsigned_four, !parse_unsigned_two by done. cbn [default].
    rewrite <- E1, <- E2, <- E3, <- E4, <- Ey. unfold id.
    replace ((1 <=? d_month d) && (d_month d <=? 12))%Z with true by (symmetry; rewrite andb_true_iff, !Z.leb_le; lia).
    cbn [negb orb].
    destruct (Z.eqb_spec (d_day d) 0); [lia|]. apply Z.leb_le. lia.
Qed.

Lemma byte_of_digit n : (0 <= n <= 9)%Z -> byte_of (digit n) = Z.to_N (48 + n).
Proof.
  intros H. unfold byte_of, digit. apply Ascii.N_ascii_embedding. lia.
Qed.

Lemma str_cmp_digit a b s t :
  (0 <= a <= 9)%Z -> (0 <= b <= 9)%Z ->
  str_cmp (String (digit a) s) (String (digit b) t) =
    match Z.compare a b with Eq => str_cmp s t | c => c end.
Proof.
  intros Ha Hb. cbn [str_cmp]. rewrite !byte_of_digit by done.
  replace (Z.to_N (48 + a) ?= Z.to_N (48 + b))%N with (Z.compare a b); [done|].
  destruct (Z.compare_spec a b), (N.compare_spec (Z.to_N (48 + a)) (Z.to_N (48 + b))); lia || done.
Qed.

Lemma str_cmp_two_digits a b s t :
  (0 <= a <= 99)%Z -> (0 <= b <= 99)%Z ->
  str_cmp (two_digits a s) (two_digits b t) = match Z.compare a b with Eq => str_cmp s t | c => c end.
Proof.
  intros Ha Hb. unfold two_digits.
  assert (Da := Z.div_mod a 10 ltac:(lia)). assert (Db := Z.div_mod b 10 ltac:(lia)).
  assert (Ma := Z.mod_pos_bound a 10 ltac:(lia)). assert (Mb := Z.mod_pos_bound b 10 ltac:(lia)).
  rewrite !str_cmp_digit by lia.
  destruct (Z.compare_spec (a / 10) (b / 10)), (Z.compare_spec (a mod 10) (b mod 10)), (Z.compare_spec a b);
    lia || done.
Qed.

(** Comparing accepted versions as strings, which is what decides whether
    a version requires [resultType], is comparing them as dates. *)
Theorem version_order a b :
  calendar a -> calendar b -> str_leb (iso_date a) (iso_date b) = true <-> date_le a b.
Proof.
  intros Ha Hb. destruct (calendar_bounds a Ha) as (A1 & A2 & A3 & A4), (calendar_bounds b Hb) as (B1 & B2 & B3 & B4).
  unfold str_leb, iso_date, date_le. rewrite !str_cmp_two_digits by done.
  assert (Ea := Z.div_mod (d_year a) 100 ltac:(lia)). assert (Eb := Z.div_mod (d_year b) 100 ltac:(lia)).
  assert (Hd : forall s t, str_cmp (String "-" s) (String "-" t) = str_cmp s t) by done.
  rewrite !Hd, !str_cmp_two_digits by done. rewrite Hd, str_cmp_two_digits by done.
  destruct (Z.compare_spec (d_year a / 100) (d_year b / 100)), (Z.compare_spec (d_year a mod 100) (d_year b mod 100)),
    (Z.compare_spec (d_month a) (d_month b)), (Z.compare_spec (d_day a) (d_day b)); cbn [str_cmp]; split; intros; lia || done.
Qed.

(** ** The envelope *)

Lemma str_mem_true s l : str_mem s l = true <-> s ∈ l.
Proof.
  unfold str_mem. rewrite existsb_true. split.
  - by intros (x & Hx & ->%String.eqb_eq).
  - intros H. exists s. by rewrite String.eqb_refl.
Qed.

(** What a fold over slots that must agree returns: a version or a fault. *)
Lemma fold_slots_present seen obs v :
  fold_slots seen obs = EnvPresent v <->
    Forall (eq (EnvPresent v)) obs /\ (match seen with Some p => p = v | None => obs <> [] end).
Proof.
  revert seen. induction obs as [|o obs IH]; intros seen.
  - destruct seen; simpl; (split; [try done | intros [_ H]; try done]); [by intros [= ->] | by rewrite H].
  - rewrite Forall_cons. destruct o as [| |w|]; cbn [fold_slots]; try (split; [done | by intros [[[=] _] _]]).
    destruct seen as [p|].
    + destruct (String.eqb_spec p w) as [->|Hne]; cbn [negb].
      * rewrite IH. split; [intros [? ->]; done | intros [[? ?] ->]; done].
      * split; [done|]. intros [[[= ->] _] ->]. done.
    + rewrite IH. split; [intros [? ->]; done | intros [[[= ->] ?] _]; done].
Qed.

Lemma fold_slots_cases seen obs :
  fold_slots seen obs = EnvMalformed \/ exists v, fold_slots seen obs = EnvPresent v.
Proof.
  revert seen. induction obs as [|[| |w|] obs IH]; intros seen; simpl; [|by left..| |by left].
  - destruct seen as [v|]; [right; by exists v | by left].
  - destruct seen as [p|]; [destruct (String.eqb p w); simpl; [apply IH | by left] | apply IH].
Qed.

(** A transcript's header slots give a version exactly when there is one
    and all of them carry that version: one level that disagrees or cannot be
    read makes the envelope malformed, whatever the order of the slots. *)
Theorem fold_envelope_spec obs framed :
  (forall v, fold_envelope obs framed = EnvPresent v <-> obs <> [] /\ Forall (eq (EnvPresent v)) obs) /\
  (forall obs', obs ≡ₚ obs' -> fold_envelope obs' framed = fold_envelope obs framed).
Proof.
  assert (Hp : forall l v, fold_envelope l framed = EnvPresent v <-> l <> [] /\ Forall (eq (EnvPresent v)) l).
  { intros l v. unfold fold_envelope. destruct l as [|o l]; cbn [is_nil]; [destruct framed; (split; [done | by intros [[] _]])|].
    rewrite fold_slots_present. split; [intros [? _] | intros [_ ?]]; done. }
  split; [by apply Hp|]. intros obs' He.
  assert (Hc : forall l, l <> [] -> fold_envelope l framed = EnvMalformed \/ exists v, fold_envelope l framed = EnvPresent v).
  { intros l Hl. unfold fold_envelope. rewrite (proj2 (is_nil_false l) Hl). apply fold_slots_cases. }
  destruct obs as [|o obs]; [by apply Permutation_nil_l in He as ->|].
  assert (Hn' : obs' <> []) by (intros ->; by apply Permutation_nil_r in He).
  destruct (Hc (o :: obs)) as [E | [v E]]; [done| |].
  - rewrite E. destruct (Hc obs' Hn') as [-> | [v E']]; [done|].
    apply Hp in E' as [_ F]. rewrite <- He in F. assert (E' : fold_envelope (o :: obs) framed = EnvPresent v) by by apply Hp.
    congruence.
  - rewrite E. apply Hp. split; [done|]. rewrite <- He. by apply Hp in E as [_ F].
Qed.

Lemma header_slots_present found values v :
  header_slots found values = EnvPresent v <->
    Forall (eq (Str v)) values /\ (values <> [] -> is_version_shaped v = true) /\
    (match found with Some p => p = v | None => values <> [] end).
Proof.
  revert found. induction values as [|x values IH]; intros found.
  - destruct found; simpl; (split; [try done | intros (_ & _ & H); try done]); [by intros [= ->] | by rewrite H].
  - rewrite Forall_cons. cbn [header_slots].
    destruct x as [| | |w| |]; cbn [as_str]; try (split; [done | by intros [[[=] _] _]]).
    destruct (is_version_shaped w) eqn:Ew; cbn [andb].
    + destruct found as [p|].
      * destruct (String.eqb_spec p w) as [->|Hne].
        -- rewrite IH. split; [intros (? & ? & ->); done | intros ([? ?] & ? & ->); done].
        -- split; [done|]. intros ([[= ->] _] & _ & ->). done.
      * rewrite IH. split; [intros (? & ? & ->); done | intros ([[= ->] ?] & ? & _); done].
    + split; [done|]. intros ([[= ->] _] & Hs & _). rewrite Hs in Ew; done.
Qed.

(** A header map states version [v] when it has a slot for it, in any casing,
    and every such slot carries [v]. *)
Lemma observe_header_present headers v :
  observe_header (Some headers) = Some (EnvPresent v) <->
    exists map, headers = Obj map /\ is_version_shaped v = true /\ protocol_slots map <> [] /\
      Forall (eq (Str v)) (protocol_slots map).
Proof.
  unfold observe_header. destruct (as_object headers) as [map|] eqn:E.
  - assert (headers = Obj map) as -> by (destruct headers; by simplify_eq/=).
    destruct (is_nil (protocol_slots map)) eqn:En.
    + split; [done|]. intros (m & [= ->] & _ & Hne & _). apply is_nil_true in En. done.
    + apply is_nil_false in En. split.
      * intros [= (? & ? & ?)%header_slots_present]. exists map. auto.
      * intros (m & [= <-] & ? & ? & ?). f_equal. apply header_slots_present. auto.
  - split; [done|]. intros (m & -> & _). done.
Qed.

(** ** Resolution *)

Lemma supported_shaped v : v ∈ SUPPORTED_VERSIONS -> is_version_shaped v = true.
Proof.
  intros H. by repeat (apply elem_of_cons in H as [-> | H]; [done|]); inversion H.
Qed.

Lemma classify_known v w : classify v = Known w <-> w = v /\ v ∈ SUPPORTED_VERSIONS.
Proof.
  unfold classify. destruct (str_mem v SUPPORTED_VERSIONS) eqn:E.
  - apply str_mem_true in E. split; [by intros [= ->] | by intros [-> _]].
  - split; [done|]. intros [_ H%str_mem_true]. congruence.
Qed.

Lemma classify_not_conflicting v h b : classify v <> Conflicting h b.
Proof. unfold classify. by destruct (str_mem _ _). Qed.

(** A single signal, and two of them. *)
Lemma one_signal v :
  (forall w, (if is_version_shaped v then classify v else Unknown MalformedSignal) = Known w <-> w = v /\ v ∈ SUPPORTED_VERSIONS) /\
  (forall h b, (if is_version_shaped v then classify v else Unknown MalformedSignal) <> Conflicting h b).
Proof.
  split; intros.
  - destruct (is_version_shaped v) eqn:E; [apply classify_known|].
    split; [done | intros [_ H%supported_shaped]; congruence].
  - destruct (is_version_shaped v); [apply classify_not_conflicting | done].
Qed.

Lemma resolve_era_one e m v :
  (m = MetaAbsent /\ e = EnvPresent v) \/ (m = MetaPresent v /\ (e = EnvAbsent \/ e = NotApplicable)) ->
  resolve_era e m = if is_version_shaped v then classify v else Unknown MalformedSignal.
Proof. by intros [[-> ->] | [-> [-> | ->]]]; unfold resolve_era; simpl; destruct (is_version_shaped v). Qed.

Lemma resolve_era_two h b :
  resolve_era (EnvPresent h) (MetaPresent b) =
    if is_version_shaped h && is_version_shaped b then
      if String.eqb h b then classify h else Conflicting h b
    else Unknown MalformedSignal.
Proof. unfold resolve_era. simpl. destruct (is_version_shaped h), (is_version_shaped b); simpl; [|done..]. by destruct (String.eqb h b). Qed.

(** An era is known exactly when every signal that arrived was readable
    and they all name one supported version; it is conflicting exactly when
    header and body are both versions and differ. *)
Theorem resolve_era_spec envelope metadata :
  (forall v, resolve_era envelope metadata = Known v <->
     v ∈ SUPPORTED_VERSIONS /\
     ((envelope = EnvPresent v /\ (metadata = MetaAbsent \/ metadata = MetaPresent v)) \/
      ((envelope = EnvAbsent \/ envelope = NotApplicable) /\ metadata = MetaPresent v))) /\
  (forall h b, resolve_era envelope metadata = Conflicting h b <->
     envelope = EnvPresent h /\ metadata = MetaPresent b /\ h <> b /\
     is_version_shaped h = true /\ is_version_shaped b = true).
Proof.
  destruct envelope as [| |h|], metadata as [|b|];
    try (rewrite (resolve_era_one _ _ b) by auto; destruct (one_signal b) as [H1 H2];
         split; [intros v; rewrite H1; naive_solver | intros h' b'; split; [by intros ?%H2 | naive_solver]]);
    try (rewrite (resolve_era_one _ _ h) by auto; destruct (one_signal h) as [H1 H2];
         split; [intros v; rewrite H1; naive_solver | intros h' b'; split; [by intros ?%H2 | naive_solver]]).
  all: try (split; intros; (split; [discriminate | intros; exfalso; destruct_and?; destruct_or?; destruct_and?; destruct_or?; discriminate])).
  rewrite resolve_era_two. split.
  - intros v. destruct (String.eqb_spec h b) as [->|Hne].
    + pose proof (one_signal b) as [H1 _]. rewrite andb_diag, H1. naive_solver.
    + split; [by destruct (_ && _) | naive_solver].
  - intros h' b'. destruct (is_version_shaped h) eqn:E1, (is_version_shaped b) eqn:E2; cbn [andb];
      try (split; [done | naive_solver congruence]).
    destruct (String.eqb_spec h b) as [->|Hne].
    + split; [by intros ?%classify_not_conflicting | naive_solver].
    + naive_solver.
Qed.

(** ** Conclusions *)

(** The [unreachable!] arms are: both readings always return. *)
Lemma conclude_returns era observed capability : exists c, conclude era observed capability = Done c.
Proof.
  unfold conclude. destruct observed, era as [v|[]|], capability as [[]|]; simpl;
    try destruct (requires_result_type v); simpl; eauto.
Qed.

Lemma conclude_request_returns era metadata capability : exists a, conclude_request era metadata capability = Done a.
Proof.
  unfold conclude_request. destruct metadata, era as [v|[]|], capability as [[]|]; simpl;
    try destruct (requires_result_type v); simpl; eauto.
Qed.

Lemma conclude_terminal era observed capability :
  conclude era observed capability = Done Terminal <->
    exists v, era = Known v /\
      ((observed = Complete /\ (requires_result_type v = true -> capability <> Some CapMalformed)) \/
       (observed = Missing /\ requires_result_type v = false)).
Proof.
  unfold conclude. split.
  - destruct observed; try done; (destruct era as [v|[]|]; try done); (destruct (requires_result_type v) eqn:E; cbn [andb negb]);
      try (by destruct capability as [[]|]); intros Hc; exists v; (split; [done|]); [right | left | left]; (split; [done|]);
      try done; by intros Hr ->; try congruence.
  - intros (v & -> & [[-> H] | [-> ->]]); [|done].
    destruct (requires_result_type v); [|done]. destruct capability as [[]|]; try done. by destruct H.
Qed.

(** A continuation member that is not there, or null. *)
Definition silent (result : Map) (k : string) : Prop := map_get result k = None \/ map_get result k = Some Null.

Lemma continuation_absent result :
  continuation_shape (Obj result) = ContAbsent <-> silent result "requestState" /\ silent result "inputRequests".
Proof.
  assert (Hm : forall ok v, continuation_member ok v = ContAbsent <-> v = None \/ v = Some Null).
  { intros ok [v|]; simpl; [|by split; auto]. destruct v; simpl; try destruct (ok _);
      (split; [try done; by auto | try done; by intros [[=]|[=]]]). }
  unfold continuation_shape, silent. cbn [vget].
  destruct (continuation_member is_string (map_get result "requestState")) eqn:E1,
    (continuation_member is_object (map_get result "inputRequests")) eqn:E2;
    try (apply Hm in E1); try (apply Hm in E2);
    try (split; [done | intros [H1 H2]; apply (Hm is_string) in H1; apply (Hm is_object) in H2; congruence]); done.
Qed.

Lemma observe_result_complete raw :
  observe_result raw = Some Complete <->
    exists result, vget raw "result" = Some (Obj result) /\ map_get result "resultType" = Some (Str "complete") /\
      silent result "requestState" /\ silent result "inputRequests".
Proof.
  unfold observe_result. destruct (vget raw "result") as [r|]; [|split; [done | naive_solver]].
  destruct r as [| | | | |result]; cbn [is_object negb]; try (split; [done | naive_solver]).
  assert (Hc := continuation_absent result).
  split.
  - destruct (vget (Obj result) "resultType") as [v|] eqn:Ev; [|done]. destruct (as_str v) as [s|] eqn:Es; [|done].
    assert (v = Str s) as -> by (destruct v; by simplify_eq/=).
    destruct (String.eqb_spec s "complete") as [->|Hn].
    + destruct (continuation_shape (Obj result)) eqn:E; [|done..]. intros _. exists result.
      destruct (proj1 Hc eq_refl). by split_and!.
    + by destruct (String.eqb s "input_required"), (continuation_shape (Obj result)).
  - intros (m & [= <-] & Ht & Hs). cbn [vget]. rewrite Ht. cbn [as_str].
    by rewrite (proj2 Hc Hs).
Qed.

Lemma observe_result_missing raw :
  observe_result raw = Some Missing <->
    exists result, vget raw "result" = Some (Obj result) /\ map_get result "resultType" = None.
Proof.
  unfold observe_result. destruct (vget raw "result") as [r|]; [|split; [done | naive_solver]].
  destruct r as [| | | | |result]; cbn [is_object negb]; try (split; [done | naive_solver]). cbn [vget].
  destruct (map_get result "resultType") as [v|] eqn:Ev; [|split; [by exists result | done]].
  split; [|intros (m & [= <-] & ?); congruence]. destruct (as_str v) as [s|]; [|done].
  by destruct (String.eqb s "complete"), (String.eqb s "input_required"), (continuation_shape (Obj result)).
Qed.

(** C7: A response that carries a result closes its call exactly when the era
    of the call is known and either the result claims completion with no
    continuation member stated (and, from the revision that defines
    capabilities on, the call's capability set was readable), or it says
    nothing under a revision that predates [resultType].  No contradiction,
    unreadable field, unknown or conflicting era is read as completion, and
    the reading never panics. *)
Theorem terminal_iff raw observed era capability :
  observe_result raw = Some observed ->
  exists c, conclude era observed capability = Done c /\
    (c = Terminal <->
     exists version result, era = Known version /\ vget raw "result" = Some (Obj result) /\
       ((map_get result "resultType" = Some (Str "complete") /\
         silent result "requestState" /\ silent result "inputRequests" /\
         (str_leb RESULT_TYPE_SINCE version = true -> capability <> Some CapMalformed)) \/
        (map_get result "resultType" = None /\ str_leb RESULT_TYPE_SINCE version = false))).
Proof.
  intros Ho. destruct (conclude_returns era observed capability) as [c Hc]. exists c. split; [done|].
  transitivity (conclude era observed capability = Done Terminal); [rewrite Hc; naive_solver|].
  rewrite conclude_terminal. assert (Hm := observe_result_missing raw). assert (Hk := observe_result_complete raw).
  rewrite Ho in Hm, Hk. split.
  - intros (v & -> & [[-> Hcap] | [-> Hv]]).
    + destruct (proj1 Hk eq_refl) as (m & ? & ? & ? & ?). exists v, m. split_and!; [done..|]. left. by split_and!.
    + destruct (proj1 Hm eq_refl) as (m & ? & ?). exists v, m. split_and!; [done..|]. by right.
  - intros (v & m & -> & Hr & [(Ht & Hs1 & Hs2 & Hcap) | [Ht Hv]]); exists v; (split; [done|]).
    + left. split; [|done]. assert (Some observed = Some Complete) as [= ->]; [|done]. apply Hk. by exists m.
    + right. split; [|done]. assert (Some observed = Some Missing) as [= ->]; [|done]. apply Hm. by exists m.
Qed.

(** ** Requests *)

Lemma request_valid_iff era metadata capability :
  conclude_request era metadata capability = Done RequestValid <->
    metadata <> MetaMalformed /\
    exists v, era = Known v /\
      (requires_result_type v = true ->
        (exists m, metadata = MetaPresent m) /\ (capability = Some CoreOnly \/ capability = Some ExtensionNotUnderstood)).
Proof.
  unfold conclude_request. destruct metadata as [|m|]; [| |by split; [|intros []]];
    (destruct era as [v|[]|]; [|split; [done | naive_solver]..]);
    destruct (requires_result_type v) eqn:E; cbn [negb].
  - split; [done|]. intros (_ & w & [= <-] & H). by destruct (H E) as [[]].
  - split; [|done]. intros _. split; [done|]. exists v. split; [done|]. congruence.
  - destruct capability as [[]|].
    1,2: split; [|done]; intros _; (split; [done|]); exists v; naive_solver.
    all: split; [done|]; intros (_ & w & [= <-] & H); destruct (H E) as [_ [|]]; done.
  - split; [|done]. intros _. split; [done|]. exists v. split; [done|]. congruence.
Qed.

(** A member of the capability set that this build can read, and one that goes
    beyond the core. *)
Definition core_capability (name : string) : Prop := name ∈ ["elicitation"; "roots"; "sampling"].
Definition open_capability (name : string) : Prop := name ∈ ["experimental"; "extensions"].
Definition readable_capability (e : string * Value) : Prop :=
  core_capability e.1 \/ open_capability e.1 -> exists m, e.2 = Obj m.
Definition beyond_core_capability (e : string * Value) : Prop :=
  ~ core_capability e.1 /\ (open_capability e.1 -> exists x m, e.2 = Obj (x :: m)).

Lemma is_object_iff v : is_object v = true <-> exists m, v = Obj m.
Proof. destruct v; simpl; split; try done; try (by intros [? [=]]); eauto. Qed.

Lemma scan_capabilities_spec bc caps b :
  scan_capabilities bc caps = Some b <->
    Forall readable_capability caps /\ (b = true <-> bc = true \/ Exists beyond_core_capability caps).
Proof.
  revert bc. induction caps as [|[name value] caps IH]; intros bc; cbn [scan_capabilities].
  - split.
    + intros [= ->]. split; [done|]. split; [by left | by intros [|H]; [|inversion H]].
    + intros [_ H]. f_equal. apply eq_iff_eq_true. rewrite H. split; [by left | by intros [|H']; [|inversion H']].
  - rewrite Forall_cons, Exists_cons.
    assert (Hc := str_mem_true name ["elicitation"; "roots"; "sampling"]).
    assert (Ho := str_mem_true name ["experimental"; "extensions"]).
    unfold readable_capability at 1, beyond_core_capability at 1, core_capability, open_capability. cbn [fst snd].
    destruct (str_mem name ["elicitation"; "roots"; "sampling"]) eqn:E1.
    + assert (Hn : name ∈ ["elicitation"; "roots"; "sampling"]) by by apply Hc.
      destruct (is_object value) eqn:Ev.
      * apply is_object_iff in Ev. rewrite IH. tauto.
      * split; [done|]. intros [[H _] _]. apply (is_object_iff value) in H; [congruence | by left].
    + assert (Hn : ~ name ∈ ["elicitation"; "roots"; "sampling"]) by (intros H; apply Hc in H; congruence).
      destruct (str_mem name ["experimental"; "extensions"]) eqn:E2.
      * assert (Hn' : name ∈ ["experimental"; "extensions"]) by by apply Ho.
        destruct value as [| | | | |m]; cbn [as_object];
          try (split; [done|]; intros [[H _] _]; destruct H as [? [=]]; by right).
        rewrite IH, orb_true_iff, negb_true_iff, is_nil_false.
        assert (Hm : m <> [] <-> exists x m', Obj m = Obj (x :: m')) by (destruct m; naive_solver).
        rewrite Hm. assert (Hv : exists m', Obj m = Obj m') by by exists m. tauto.
      * assert (Hn' : ~ name ∈ ["experimental"; "extensions"]) by (intros H; apply Ho in H; congruence).
        rewrite IH. assert (true = true) by done. tauto.
Qed.

(** ** Ids *)

(** Numbers as [serde_json] builds them. *)
Definition number_ok (v : Value) : Prop :=
  match v with Num (PosInt n) => (0 <= n)%Z | Num (NegInt n) => (n < 0)%Z | _ => True end.

(** Two ids get the same correlation key only when they are the same JSON
    value: the number 1 and the string with digit 1 are different calls, and
    no number that lost digits as a float gets a key. *)
Theorem correlation_key_injective v w k :
  number_ok v -> number_ok w -> correlation_key v = Some k -> correlation_key w = Some k -> v = w.
Proof.
  assert (Hinj : forall x y, fmt_int x = fmt_int y -> x = y) by (intros x y; apply (inj (pretty : Z -> string))).
  intros Hv Hw. destruct v as [| |[] | | |]; try done; destruct w as [| |[] | | |]; try done; simpl in *;
    intros [= <-] [= H]; try apply Hinj in H; subst; try done; lia.
Qed.
