(* ===== verification/JsonDoc.v ===== *)
(** * JSON documents with duplicate members

    The readers of [mcp/era.rs] and [mcp/parser.rs] that refuse a repeated
    member name while the tree is built: [UniqueValue], [SeenMembers] and
    [DuplicateAwareSink], and the skipping of [serde::de::IgnoredAny] that the
    counting pass of [mcp/ingest.rs] relies on.

    [serde_json] is third-party code.  What it finds in a text is a [Doc]: the
    values in the order of the text, objects with all their members, and the
    places where reading stops.  It descends through at most 127 nested arrays
    and objects when it decodes, and through any number when it skips. *)
From stdpp Require Import base tactics list strings gmap.
From Stdlib Require Import ZArith Lia.
From S2P Require Import Prelude RustStr Json.

(** ** Documents

    [None] for a number or a string: it can be skipped but not decoded (a
    number out of range, a lone surrogate).  An array or object that is not
    closed has a syntax error after its last element. *)
Inductive Doc : Type :=
| DNull
| DBool (b : bool)
| DNum (n : option Number)
| DStr (s : option string)
| DArr (l : list Doc) (closed : bool)
| DObj (m : list (option string * Doc)) (closed : bool)
| DBad.

(** [serde_json::error::Category]. *)
Inductive Category : Type := Syntax | Data.

(** [from_str] reads one document and refuses what follows it. *)
Class JsonReader : Type := {
  json_document : string -> Doc * bool
}.

(** The recursion limit: the remaining depth starts at 128 and an array or
    object that brings it to 0 is refused. *)
Definition RECURSION_LIMIT : nat := 128.
Definition enter (d : nat) : option nat :=
  match d with S (S d) => Some (S d) | _ => None end.

(** ** Walking arrays and objects *)

Section walk.
  Context {A : Type}.

  (** [while let Some(x) = seq.next_element()? { .. }] *)
  Section elements.
    Variable step : Doc -> A -> Result A Category.
Fixpoint read_elements (l : list Doc) (closed : bool) (out : A) : Result A Category :=
      match l with
      | [] => if closed then Ok out else Err Syntax
      | x :: r =>
          match step x out with
          | Ok out => read_elements r closed out
          | Err e => Err e
          end
      end.
  End elements.

  (** [while let Some(key) = map.next_key::<String>()? { .. }] *)
  Section members.
    Variable step : string -> Doc -> A -> Result A Category.
Fixpoint read_members (m : list (option string * Doc)) (closed : bool) (out : A) : Result A Category :=
      match m with
      | [] => if closed then Ok out else Err Syntax
      | (None, _) :: _ => Err Syntax
      | (Some k, x) :: r =>
          match step k x out with
          | Ok out => read_members r closed out
          | Err e => Err e
          end
      end.
  End members.
End walk.

(** ** [UniqueValue] *)

Fixpoint read_unique (d : nat) (doc : Doc) : Result Value Category :=
  match doc with
  | DNull => Ok Null
  | DBool b => Ok (VBool b)
  | DNum (Some n) => Ok (Num n)
  | DStr (Some s) => Ok (Str s)
  | DNum None | DStr None | DBad => Err Syntax
  | DArr l closed =>
      match enter d with
      | None => Err Syntax
      | Some d =>
          match
            read_elements (fun x out =>
              match read_unique d x with Ok v => Ok (out ++ [v]) | Err e => Err e end) l closed []
          with
          | Ok out => Ok (Arr out)
          | Err e => Err e
          end
      end
  | DObj m closed =>
      match enter d with
      | None => Err Syntax
      | Some d =>
          match
            read_members (fun k x out =>
              if map_contains_key out k then Err Data
              else match read_unique d x with Ok v => Ok (map_insert out k v) | Err e => Err e end) m closed []
          with
          | Ok out => Ok (Obj out)
          | Err e => Err e
          end
      end
  end.

(** ** [SeenMembers] and [DuplicateAwareSink] *)

Definition SeenMembers : Type := gset string.
Definition seen_insert (key : string) (seen : SeenMembers) : Result SeenMembers Category :=
  if decide (key ∈ seen) then Err Data else Ok ({[ key ]} ∪ seen).

Fixpoint read_sink (d : nat) (doc : Doc) : Result () Category :=
  match doc with
  | DNull | DBool _ | DNum (Some _) | DStr (Some _) => Ok ()
  | DNum None | DStr None | DBad => Err Syntax
  | DArr l closed =>
      match enter d with
      | None => Err Syntax
      | Some d => read_elements (fun x _ => read_sink d x) l closed ()
      end
  | DObj m closed =>
      match enter d with
      | None => Err Syntax
      | Some d =>
          match
            read_members (fun k x seen =>
              match seen_insert k seen with
              | Err e => Err e
              | Ok seen => match read_sink d x with Ok _ => Ok seen | Err e => Err e end
              end) m closed (∅ : SeenMembers)
          with
          | Ok _ => Ok ()
          | Err e => Err e
          end
      end
  end.

(** ** [IgnoredAny] *)

Fixpoint skip (doc : Doc) : Result () Category :=
  match doc with
  | DNull | DBool _ | DNum _ | DStr _ => Ok ()
  | DBad => Err Syntax
  | DArr l closed => read_elements (fun x _ => skip x) l closed ()
  | DObj m closed =>
      (fix go (m : list (option string * Doc)) : Result () Category :=
         match m with
         | [] => if closed then Ok () else Err Syntax
         | (_, x) :: r => match skip x with Ok _ => go r | Err e => Err e end
         end) m
  end.

(** [serde_json::from_str::<T>], given the reader of [T]. *)
Definition from_str `{JsonReader} {A} (read : nat -> Doc -> Result A Category) (text : string) : Result A Category :=
  let (doc, complete) := json_document text in
  match read RECURSION_LIMIT doc with
  | Ok v => if complete then Ok v else Err Syntax
  | Err e => Err e
  end.

(** ** Induction through documents *)

Section Doc_induction.
  Variable P : Doc -> Prop.
  Hypothesis HNull : P DNull.
  Hypothesis HBool : forall b, P (DBool b).
  Hypothesis HNum : forall n, P (DNum n).
  Hypothesis HStr : forall s, P (DStr s).
  Hypothesis HArr : forall l closed, Forall P l -> P (DArr l closed).
  Hypothesis HObj : forall m closed, Forall (fun e => P (snd e)) m -> P (DObj m closed).
  Hypothesis HBad : P DBad.

Fixpoint Doc_nested (doc : Doc) : P doc :=
    match doc with
    | DNull => HNull
    | DBool b => HBool b
    | DNum n => HNum n
    | DStr s => HStr s
    | DArr l closed =>
        HArr l closed ((fix go (l : list Doc) : Forall P l :=
          match l with
          | [] => Forall_nil_2 _
          | x :: r => Forall_cons_2 _ _ _ (Doc_nested x) (go r)
          end) l)
    | DObj m closed =>
        HObj m closed ((fix go (m : list (option string * Doc)) : Forall (fun e => P (snd e)) m :=
          match m with
          | [] => Forall_nil_2 _
          | x :: r => Forall_cons_2 _ _ _ (Doc_nested (snd x)) (go r)
          end) m)
    | DBad => HBad
    end.
End Doc_induction.

(** ** What the readers accept

    [Decodes d doc v]: [doc] is the document of [v] in full, with members kept
    as often as they are written; [d] bounds its nesting. *)
Inductive Decodes : nat -> Doc -> Value -> Prop :=
| dec_Null d : Decodes d DNull Null
| dec_Bool d b : Decodes d (DBool b) (VBool b)
| dec_Num d n : Decodes d (DNum (Some n)) (Num n)
| dec_Str d s : Decodes d (DStr (Some s)) (Str s)
| dec_Arr d d' l vs :
    enter d = Some d' -> Forall2 (Decodes d') l vs -> Decodes d (DArr l true) (Arr vs)
| dec_Obj d d' m vs :
    enter d = Some d' ->
    Forall2 (fun e kv => e.1 = Some kv.1 /\ Decodes d' e.2 kv.2) m vs ->
    Decodes d (DObj m true) (Obj vs).

Lemma Forall2_impl_with {A B} (P : A -> Prop) (R Q : A -> B -> Prop) l k :
  Forall P l -> Forall2 R l k -> (forall x y, P x -> R x y -> Q x y) -> Forall2 Q l k.
Proof. intros HP HR HQ. induction HR; constructor; inversion HP; subst; auto. Qed.

Lemma contains_key_false m k : map_contains_key m k = false <-> k ∉ map fst m.
Proof. unfold map_contains_key. rewrite <- map_get_None. by destruct (map_get m k). Qed.

Definition unique_step (d : nat) (k : string) (x : Doc) (out : Map) : Result Map Category :=
  if map_contains_key out k then Err Data
  else match read_unique d x with Ok v => Ok (map_insert out k v) | Err e => Err e end.
Definition array_step (d : nat) (x : Doc) (out : list Value) : Result (list Value) Category :=
  match read_unique d x with Ok v => Ok (out ++ [v]) | Err e => Err e end.

(** Reading a document that decodes succeeds unless a member is repeated. *)
Definition reads_or_duplicate (d : nat) (doc : Doc) (v : Value) : Prop :=
  (wf_value v /\ read_unique d doc = Ok v) \/ (~ wf_value v /\ read_unique d doc = Err Data).

Lemma elements_read d l vs out :
  Forall2 (reads_or_duplicate d) l vs ->
  (Forall wf_value vs /\ read_elements (array_step d) l true out = Ok (out ++ vs)) \/
  (~ Forall wf_value vs /\ read_elements (array_step d) l true out = Err Data).
Proof.
  intros H. revert out. induction H as [|x v l vs Hx _ IH]; intros out; simpl; [left; by rewrite app_nil_r|].
  unfold array_step at 1 3. destruct Hx as [[Hw ->] | [Hw ->]].
  - destruct (IH (out ++ [v])) as [[Hf ->] | [Hf ->]]; [left | right].
    + rewrite <- app_assoc. split; [by constructor | done].
    + split; [by intros [_ ?]%Forall_cons | done].
  - right. split; [by intros [? _]%Forall_cons | done].
Qed.

Lemma members_read d m vs out :
  Forall2 (fun e kv => e.1 = Some kv.1 /\ reads_or_duplicate d e.2 kv.2) m vs ->
  NoDup (map fst out) ->
  (NoDup (map fst (out ++ vs)) /\ Forall (fun e => wf_value e.2) vs /\
     read_members (unique_step d) m true out = Ok (out ++ vs)) \/
  (~ (NoDup (map fst (out ++ vs)) /\ Forall (fun e => wf_value e.2) vs) /\
     read_members (unique_step d) m true out = Err Data).
Proof.
  intros H. revert out. induction H as [|[k' x] [k v] m vs [[= ->] Hx] _ IH]; intros out Hnd; simpl.
  { left. rewrite app_nil_r. auto. }
  cbn [fst snd] in Hx. unfold unique_step at 1 3.
  destruct (map_contains_key out k) eqn:Ek.
  - right. split; [|done]. intros [Hn _]. rewrite map_app in Hn. apply NoDup_app in Hn as (_ & Hn & _).
    assert (k ∈ map fst out) as Hin.
    { destruct (decide (k ∈ map fst out)); [done|]. rewrite (proj2 (contains_key_false out k)) in Ek; done. }
    apply (Hn k Hin). by left.
  - apply contains_key_false in Ek. destruct Hx as [[Hw ->] | [Hw ->]].
    + rewrite map_insert_fresh by done.
      assert (Hnd' : NoDup (map fst (out ++ [(k, v)]))).
      { rewrite map_app. apply NoDup_app. split_and!; [done | | apply NoDup_singleton].
        intros y Hy Hk. cbn in Hk. apply list_elem_of_singleton in Hk as ->. done. }
      destruct (IH _ Hnd') as [(Hn & Hf & ->) | [Hn ->]]; rewrite <- app_assoc in *; cbn [app] in *; [left | right].
      * split_and!; [done | by constructor | done].
      * split; [|done]. intros [H1 [_ H2]%Forall_cons]. by apply Hn.
    + right. split; [|done]. by intros [_ [? _]%Forall_cons].
Qed.

Lemma decodes_read doc : forall d v, Decodes d doc v -> reads_or_duplicate d doc v.
Proof.
  unfold reads_or_duplicate.
  induction doc as [|b|n|s|l closed IH|m closed IH|] using Doc_nested; intros d v H; inversion H; subst; simpl;
    try (left; split; [constructor | done]; fail).
  - match goal with E : enter _ = _ |- _ => rewrite E end.
    destruct (elements_read d' l vs []) as [[Hf E] | [Hf E]].
    { eapply Forall2_impl_with; [exact IH | eassumption | intros x y Hx Hy; by apply Hx]. }
    + left. unfold array_step in E. rewrite E. split; [by constructor | done].
    + right. unfold array_step in E. rewrite E. split; [by inversion 1 | done].
  - match goal with E : enter _ = _ |- _ => rewrite E end.
    destruct (members_read d' m vs []) as [(Hn & Hf & E) | [Hf E]].
    { eapply Forall2_impl_with; [exact IH | eassumption | intros x y Hx [? Hy]; split; [done | by apply Hx]]. }
    { constructor. }
    + left. unfold unique_step in E. rewrite E. split; [by constructor | done].
    + right. unfold unique_step in E. rewrite E. split; [by inversion 1; subst; apply Hf | done].
Qed.

Lemma elements_inv d l closed out out' :
  Forall (fun x => forall v, read_unique d x = Ok v -> Decodes d x v) l ->
  read_elements (array_step d) l closed out = Ok out' ->
  exists vs, closed = true /\ out' = out ++ vs /\ Forall2 (Decodes d) l vs.
Proof.
  intros HF. revert out. induction HF as [|x l Hx _ IH]; intros out; simpl.
  - destruct closed; [|done]. intros [= ->]. exists []. by rewrite app_nil_r.
  - unfold array_step at 1. destruct (read_unique d x) as [v|] eqn:E; [|done].
    intros (vs & -> & -> & Hvs)%IH. exists (v :: vs). rewrite <- app_assoc. split_and!; [done..|].
    constructor; [by apply Hx | done].
Qed.

Lemma members_inv d m closed out out' :
  Forall (fun e => forall v, read_unique d e.2 = Ok v -> Decodes d e.2 v) m ->
  read_members (unique_step d) m closed out = Ok out' ->
  exists vs, closed = true /\ out' = out ++ vs /\
    Forall2 (fun e kv => e.1 = Some kv.1 /\ Decodes d e.2 kv.2) m vs.
Proof.
  intros HF. revert out. induction HF as [|[k x] m Hx _ IH]; intros out; simpl.
  - destruct closed; [|done]. intros [= ->]. exists []. by rewrite app_nil_r.
  - destruct k as [k|]; [|done]. unfold unique_step at 1. destruct (map_contains_key out k) eqn:Ek; [done|].
    destruct (read_unique d x) as [v|] eqn:E; [|done]. apply contains_key_false in Ek.
    rewrite map_insert_fresh by done.
    intros (vs & -> & -> & Hvs)%IH. exists ((k, v) :: vs). rewrite <- app_assoc. split_and!; [done..|].
    constructor; [split; [done | by apply Hx] | done].
Qed.

Lemma read_decodes doc : forall d v, read_unique d doc = Ok v -> Decodes d doc v.
Proof.
  induction doc as [|b|[n|]|[s|]|l closed IH|m closed IH|] using Doc_nested; intros d v H; simpl in H;
    try (injection H as <-; by constructor); try discriminate H.
  - destruct (enter d) as [d'|] eqn:Ed; [|done].
    destruct (read_elements _ l closed []) as [out|] eqn:E; [|done]. injection H as <-.
    apply (elements_inv d') in E as (vs & -> & -> & Hvs).
    + by apply (dec_Arr d d').
    + eapply Forall_impl; [exact IH|]. auto.
  - destruct (enter d) as [d'|] eqn:Ed; [|done].
    destruct (read_members _ m closed []) as [out|] eqn:E; [|done]. injection H as <-.
    apply (members_inv d') in E as (vs & -> & -> & Hvs).
    + by apply (dec_Obj d d').
    + eapply Forall_impl; [exact IH|]. auto.
Qed.

(** A text is read as a value exactly when it is a complete document of it
    in which no object, at any depth, repeats a member; and a complete document
    with a repeated member is a data error, never mistaken for a text that is
    not JSON. *)
Theorem from_str_unique_iff `{JsonReader} text v :
  (from_str read_unique text = Ok v <->
     (json_document text).2 = true /\ Decodes RECURSION_LIMIT (json_document text).1 v /\ wf_value v) /\
  (Decodes RECURSION_LIMIT (json_document text).1 v -> ~ wf_value v -> from_str read_unique text = Err Data).
Proof.
  unfold from_str. destruct (json_document text) as [doc complete]. cbn [fst snd]. split.
  - split.
    + destruct (read_unique _ doc) as [w|] eqn:E; [|done]. destruct complete; [|done]. intros [= ->].
      apply read_decodes in E as Hd. split_and!; [done..|].
      destruct (decodes_read doc _ _ Hd) as [[Hw _] | [_ E']]; [done | congruence].
    + intros (-> & Hd & Hw). by destruct (decodes_read doc _ _ Hd) as [[_ ->] | [? _]].
  - intros Hd Hw. by destruct (decodes_read doc _ _ Hd) as [[? _] | [_ ->]].
Qed.

(** ** The sink *)

Definition discard {A E} (r : Result A E) : Result () E := match r with Ok _ => Ok () | Err e => Err e end.

Lemma elements_discard d l closed out :
  Forall (fun x => forall d, read_sink d x = discard (read_unique d x)) l ->
  read_elements (fun x _ => read_sink d x) l closed () = discard (read_elements (array_step d) l closed out).
Proof.
  intros HF. revert out. induction HF as [|x l Hx _ IH]; intros out; simpl; [by destruct closed|].
  rewrite Hx. unfold array_step at 1. destruct (read_unique d x) as [v|e]; simpl; [apply IH | done].
Qed.

Definition sink_step (d : nat) (k : string) (x : Doc) (seen : SeenMembers) : Result SeenMembers Category :=
  match seen_insert k seen with
  | Err e => Err e
  | Ok seen => match read_sink d x with Ok _ => Ok seen | Err e => Err e end
  end.

Lemma members_discard d m closed out seen :
  Forall (fun e => forall d, read_sink d e.2 = discard (read_unique d e.2)) m ->
  (forall k, k ∈ seen <-> k ∈ map fst out) ->
  discard (read_members (sink_step d) m closed seen) = discard (read_members (unique_step d) m closed out).
Proof.
  intros HF. revert out seen. induction HF as [|[[k|] x] m Hx _ IH]; intros out seen Hs; simpl; [by destruct closed| |done].
  unfold sink_step at 1, unique_step at 1, seen_insert. destruct (decide (k ∈ seen)) as [Hin|Hin].
  - destruct (map_contains_key out k) eqn:Ek; [done|]. apply contains_key_false in Ek. by apply Hs in Hin.
  - rewrite (proj2 (contains_key_false out k)) by by rewrite <- Hs.
    cbn [snd] in Hx. rewrite Hx. destruct (read_unique d x) as [v|e]; simpl; [|done].
    apply IH. intros k'. rewrite map_insert_fresh by by rewrite <- Hs.
    rewrite map_app, elem_of_app, elem_of_union, elem_of_singleton, Hs. simpl. rewrite list_elem_of_singleton. tauto.
Qed.

Lemma sink_discards doc d : read_sink d doc = discard (read_unique d doc).
Proof.
  revert d. induction doc as [|b|[n|]|[s|]|l closed IH|m closed IH|] using Doc_nested; intros d; simpl; try done;
    (destruct (enter d) as [d'|]; [|done]).
  - rewrite (elements_discard d' l closed []) by done. unfold array_step.
    by destruct (read_elements _ l closed []).
  - assert (E := members_discard d' m closed [] ∅ IH ltac:(intros k; simpl; set_solver)).
    unfold sink_step, unique_step, discard in E. by do 2 destruct (read_members _ m closed _).
Qed.

(** An ignored subtree is held to the same rule as a kept one: the sink
    that builds nothing accepts and refuses exactly the documents that
    [UniqueValue] does, with the same error. *)
Theorem sink_agrees doc d : read_sink d doc = discard (read_unique d doc).
Proof. apply sink_discards. Qed.

(** ** Skipping *)

(** What decodes can be skipped. *)
Lemma decodes_skip doc : forall d v, Decodes d doc v -> skip doc = Ok ().
Proof.
  induction doc as [|b|[n|]|[s|]|l closed IH|m closed IH|] using Doc_nested; intros d v H; inversion H; subst; simpl; try done.
  - match goal with HF : Forall2 _ l _ |- _ => clear H; induction HF as [|x w l ws Hx _ IHF] end; simpl; [done|].
    inversion IH as [|? ? Hs Hr]; subst. by rewrite (Hs _ _ Hx), IHF.
  - match goal with HF : Forall2 _ m _ |- _ => clear H; induction HF as [|[k x] w m ws [_ Hx] _ IHF] end; simpl; [done|].
    inversion IH as [|? ? Hs Hr]; subst. cbn [snd] in Hs. by rewrite (Hs _ _ Hx), IHF.
Qed.
