(* ===== verification/McpParser.v ===== *)
(** * The MCP transcript parser

    [mcp/parser.rs], [mcp/types.rs] and [mcp/json_depth.rs] of [assay-core]:
    from the text of a transcript in one of four formats to events with their
    era sidecar.  Each message is classified once; the envelope of a framed
    format is folded from the header slots of the transcript and of its own
    entry; a response then takes the era and the capability set of the request
    that is outstanding under its id.  The serde implementations of the
    transcript types are written out member by member. *)
From stdpp Require Import base tactics list strings gmap.
From Stdlib Require Import ZArith Lia Ascii.
From S2P Require Import Prelude RustStr Json Platform PolicyTypes Era JsonDoc.

Notation "'let?' x ':=' m 'in' k" := (match m with Ok x => k | Err e => Err e end)
  (at level 200, x name, m at level 100, k at level 200, right associativity, only parsing) : stdpp_scope.

(** ** [types.rs] *)

Inductive McpInputFormat : Type := Inspector | JsonRpc | StreamableHttp | HttpSse.

Definition from_cli_label (label : string) : option McpInputFormat :=
  if str_mem label ["inspector"; "mcp-inspector"; "mcp-inspector@v1"] then Some Inspector
  else if String.eqb label "jsonrpc" then Some JsonRpc
  else if String.eqb label "streamable-http" then Some StreamableHttp
  else if str_mem label ["http-sse"; "sse-legacy"] then Some HttpSse
  else None.

Record McpToolDef : Type := mkToolDef {
  td_name : string;
  td_description : option string;
  td_input_schema : option Value;
  td_tool_identity : option ToolIdentity
}.

Inductive DiscoverySource : Type := SourceUnknown | WwwAuthenticate.
#[global] Instance DiscoverySource_eq : EqDecision DiscoverySource.
Proof. solve_decision. Defined.

Record McpAuthorizationDiscovery : Type := mkDiscovery {
  ad_visible : bool;
  ad_source_kind : DiscoverySource;
  ad_resource_metadata_visible : bool;
  ad_authorization_servers_visible : bool;
  ad_scope_challenge_visible : bool
}.
Definition discovery_default : McpAuthorizationDiscovery := mkDiscovery false SourceUnknown false false false.

Definition merge_from (self other : McpAuthorizationDiscovery) : McpAuthorizationDiscovery :=
  mkDiscovery (ad_visible self || ad_visible other)
    (if bool_decide (ad_source_kind self = SourceUnknown) && negb (bool_decide (ad_source_kind other = SourceUnknown))
     then ad_source_kind other else ad_source_kind self)
    (ad_resource_metadata_visible self || ad_resource_metadata_visible other)
    (ad_authorization_servers_visible self || ad_authorization_servers_visible other)
    (ad_scope_challenge_visible self || ad_scope_challenge_visible other).

Inductive McpPayload : Type :=
| SessionStart (raw : Value)
| ToolsListRequest (raw : Value)
| ToolsListResponse (tools : list McpToolDef) (raw : Value)
| ToolCallRequest (name : string) (arguments raw : Value)
| ToolCallResponse (result : Value) (is_error : bool) (raw : Value)
| SessionEnd (raw : Value)
| OtherPayload (raw : Value).

(** [source_line] is a [u64]. *)
Record McpEvent : Type := mkMcpEvent {
  me_source_line : Z;
  me_timestamp_ms : option Z;
  me_jsonrpc_id : option string;
  me_auth_discovery : McpAuthorizationDiscovery;
  me_payload : McpPayload
}.

(** [era.rs]: the event and its sidecar. *)
Record ParsedMcpEvent : Type := mkParsed {
  pm_event : McpEvent;
  pm_context : McpEraContext;
  pm_is_error_response : bool
}.

(** An [anyhow] error: what a caller can tell apart by a downcast, and the
    outermost message. *)
Inductive ParseError : Type :=
| EmbeddedJsonDepthExceeded
| InvalidJson (context : string) (category : Category)
| WrongTransport (label expected actual : string)
| Refused (message : string).

(** ** [json_depth.rs] *)

Record DepthScan : Type := mkDepthScan { ds_depth : Z; ds_in_string : bool; ds_escaped : bool }.

(** One byte; [None] is the early return. *)
Definition depth_step (max_depth : Z) (reset_at_newline : bool) (byte : ascii) (s : DepthScan) : option DepthScan :=
  if Ascii.eqb byte "010" then Some (mkDepthScan (if reset_at_newline then 0 else ds_depth s) false false)
  else if ds_in_string s then
    if ds_escaped s then Some (mkDepthScan (ds_depth s) true false)
    else if Ascii.eqb byte "\" then Some (mkDepthScan (ds_depth s) true true)
    else if Ascii.eqb byte "034" then Some (mkDepthScan (ds_depth s) false (ds_escaped s))
    else Some s
  else if Ascii.eqb byte "034" then Some (mkDepthScan (ds_depth s) true (ds_escaped s))
  else if Ascii.eqb byte "{" || Ascii.eqb byte "[" then
    let depth := (ds_depth s + 1)%Z in
    if (max_depth <? depth)%Z then None else Some (mkDepthScan depth false (ds_escaped s))
  else if Ascii.eqb byte "}" || Ascii.eqb byte "]" then
    Some (mkDepthScan (Z.max 0 (ds_depth s - 1)) false (ds_escaped s))
  else Some s.

Fixpoint depth_scan (max_depth : Z) (reset : bool) (bytes : list ascii) (s : DepthScan) : bool :=
  match bytes with
  | [] => false
  | b :: r =>
      match depth_step max_depth reset b s with
      | None => true
      | Some s => depth_scan max_depth reset r s
      end
  end.

Definition exceeds_limit (bytes : list ascii) (max_depth : Z) (reset_at_newline : bool) : bool :=
  depth_scan max_depth reset_at_newline bytes (mkDepthScan 0 false false).

(** ** Ids *)

Definition at_line (prefix : string) (source_line : Z) (suffix : string) : string :=
  prefix +:+ " source line " +:+ fmt_int source_line +:+ suffix.

Definition reject_unusable_id_shape (raw_id : option Value) (source_line : Z) : Result () ParseError :=
  match raw_id with
  | None | Some Null | Some (Str _) | Some (Num _) => Ok ()
  | Some (VBool _) => Err (Refused (at_line "JSON-RPC id on" source_line " must not be a boolean"))
  | Some (Arr _) => Err (Refused (at_line "JSON-RPC id on" source_line " must not be an array"))
  | Some (Obj _) => Err (Refused (at_line "JSON-RPC id on" source_line " must not be an object"))
  end.

Section parser.
  Context `{Platform}.

Definition require_acceptable_id (raw_id : option Value) (source_line : Z) : Result string ParseError :=
    let? _ := reject_unusable_id_shape raw_id source_line in
    match opt_filter id_is_acceptable raw_id with
    | Some (Str id) => Ok id
    | Some (Num id) => Ok (json_to_string (Num id))
    | _ => Err (Refused (at_line "JSON-RPC id on" source_line " must be a string or a number"))
    end.

(** ** One message *)

Definition extract_ts_ms (v : Value) : option Z :=
    match vget v "timestamp_ms" ≫= as_u64 with
    | Some t => Some t
    | None => vget v "timestamp" ≫= as_u64
    end.


Definition result_tools (v : Value) : option (list Value) := (vget v "result" ≫= fun r => vget r "tools") ≫= as_array.
Definition looks_like_tools_list_result (v : Value) : bool := opt_is_some (result_tools v).

Definition tool_def (tool : Value) : McpToolDef :=
    mkToolDef (default "unknown" (vget tool "name" ≫= as_str)) (vget tool "description" ≫= as_str)
      (option_or (vget tool "inputSchema") (vget tool "input_schema")) None.
Definition parse_tools_list_result (v : Value) : list McpToolDef := tool_def <$> default [] (result_tools v).

Definition payload_of (kind : MessageKind) (v : Value) : McpPayload :=
    match kind with
    | Request method | Notification method =>
        if String.eqb method "tools/list" then ToolsListRequest v
        else if String.eqb method "tools/call" then
          let params := default Null (vget v "params") in
          ToolCallRequest (default "unknown_tool" (vget params "name" ≫= as_str))
            (default Null (vget params "arguments")) v
        else OtherPayload v
    | Response =>
        if opt_is_some (vget v "result") then
          if looks_like_tools_list_result v then ToolsListResponse (parse_tools_list_result v) v
          else ToolCallResponse (default Null (vget v "result")) false v
        else if opt_is_some (vget v "error") then ToolCallResponse (default Null (vget v "error")) true v
        else OtherPayload v
    end.

Definition message_id (kind : MessageKind) (v : Value) (source_line : Z) : Result (option string) ParseError :=
    let raw_id := vget v "id" in
    let required := let? id := require_acceptable_id raw_id source_line in Ok (Some id) in
    match kind with
    | Notification _ => Ok None
    | Request _ => required
    | Response =>
        match raw_id with
        | None | Some Null => if opt_is_some (vget v "error") then Ok None else required
        | _ => required
        end
    end.

Definition shape_error_fmt (e : MessageShapeError) : string :=
    match e with
    | NonStringMethod => "JSON-RPC method must be a string"
    | NotExactlyOneResponseBody => "a JSON-RPC response must carry exactly one of result or error"
    | MalformedErrorBody => "a JSON-RPC error response must carry an integer code and string message"
    end.

Definition parse_jsonrpc_message (v : Value) (source_line : Z) (timestamp_ms_override : option Z)
      (auth_discovery : McpAuthorizationDiscovery) : Result McpEvent ParseError :=
    if negb (is_object v) then Err (Refused (at_line "MCP event at" source_line " must be a JSON object"))
    else if negb (bool_decide ((vget v "jsonrpc" ≫= as_str) = Some "2.0")) then
      Err (Refused (at_line "MCP event at" source_line " must carry JSON-RPC version 2.0"))
    else
      let ts_ms := option_or timestamp_ms_override (extract_ts_ms v) in
      match classify_message v with
      | Err e => Err (Refused (at_line "MCP event at" source_line (": " +:+ shape_error_fmt e)))
      | Ok kind =>
          let? id_str := message_id kind v source_line in
          Ok (mkMcpEvent source_line ts_ms id_str auth_discovery (payload_of kind v))
      end.

(** ** JSON lines and Inspector exports *)

(** [str::lines]. *)
Fixpoint strip_cr (s : string) : string :=
    match s with
    | EmptyString => EmptyString
    | String a EmptyString => if Ascii.eqb a "013" then EmptyString else s
    | String a r => String a (strip_cr r)
    end.
Fixpoint kept_lines (pieces : list string) : list string :=
    match pieces with
    | [] => []
    | [last] => if str_is_empty last then [] else [last]
    | p :: r => strip_cr p :: kept_lines r
    end.
Definition str_lines (s : string) : list string := kept_lines (str_split "010" s).

Context `{JsonReader}.

Fixpoint jsonl_loop (lineno : Z) (lines : list string) : Result (list McpEvent) ParseError :=
    match lines with
    | [] => Ok []
    | line :: rest =>
        let line := str_trim line in
        if str_is_empty line then jsonl_loop (lineno + 1) rest
        else
          match from_str read_unique line with
          | Err c => Err (InvalidJson ("invalid JSON on line " +:+ fmt_int (lineno + 1)) c)
          | Ok v =>
              let? event := parse_jsonrpc_message v (lineno + 1) None discovery_default in
              let? out := jsonl_loop (lineno + 1) rest in
              Ok (event :: out)
          end
    end.
Definition parse_jsonrpc_jsonl (text : string) : Result (list McpEvent) ParseError := jsonl_loop 0 (str_lines text).

Fixpoint inspector_loop (idx : Z) (items : list Value) : Result (list McpEvent) ParseError :=
    match items with
    | [] => Ok []
    | item :: rest =>
        let? event := parse_jsonrpc_message item (idx + 1) None discovery_default in
        let? out := inspector_loop (idx + 1) rest in
        Ok (event :: out)
    end.
Definition inspector_items (v : Value) : list Value :=
    default [] (option_or (vget v "events") (match v with Arr _ => Some v | _ => None end) ≫= as_array).
Definition parse_inspector_best_effort (text : string) : Result (list McpEvent) ParseError :=
    match from_str read_unique text with
    | Err c => Err (InvalidJson "invalid inspector JSON" c)
    | Ok v => inspector_loop 0 (inspector_items v)
    end.
End parser.

(** ** The transport transcript and its readers *)

Record TransportSseEnvelope : Type := mkSse { se_event : option string; se_id : option string; se_data : Value }.
#[global] Instance Sse_eta : Eta TransportSseEnvelope := fun s => mkSse (se_event s) (se_id s) (se_data s).

Record TransportTranscriptEntry : Type := mkEntry {
  te_timestamp_ms : option Z;
  te_transport_context : option Value;
  te_headers : option Value;
  te_request : option Value;
  te_response : option Value;
  te_sse : option TransportSseEnvelope
}.
#[global] Instance Entry_eta : Eta TransportTranscriptEntry := fun e =>
  mkEntry (te_timestamp_ms e) (te_transport_context e) (te_headers e) (te_request e) (te_response e) (te_sse e).

Record TransportTranscript : Type := mkTranscript {
  tt_transport : option string;
  tt_transport_context : option Value;
  tt_headers : option Value;
  tt_entries : list TransportTranscriptEntry
}.
#[global] Instance Transcript_eta : Eta TransportTranscript := fun t =>
  mkTranscript (tt_transport t) (tt_transport_context t) (tt_headers t) (tt_entries t).

(** The readers serde has for [Option<String>], [Option<u64>] and [Vec<T>]. *)
Definition read_opt_string (doc : Doc) : Result (option string) Category :=
  match doc with
  | DNull => Ok None
  | DStr (Some s) => Ok (Some s)
  | DStr None | DBad => Err Syntax
  | _ => Err Data
  end.
Definition read_opt_u64 (doc : Doc) : Result (option Z) Category :=
  match doc with
  | DNull => Ok None
  | DNum (Some (PosInt n)) => Ok (Some n)
  | DNum None | DBad => Err Syntax
  | _ => Err Data
  end.
Definition read_vec {A} (read : nat -> Doc -> Result A Category) (d : nat) (doc : Doc) : Result (list A) Category :=
  match doc with
  | DArr l closed =>
      match enter d with
      | None => Err Syntax
      | Some d => read_elements (fun x out => let? v := read d x in Ok (out ++ [v])) l closed []
      end
  | DBad => Err Syntax
  | _ => Err Data
  end.

(** A [visit_map] that runs every member name past [SeenMembers]. *)
Definition seen_step {A} (assign : string -> Doc -> A -> Result A Category)
    (key : string) (x : Doc) (st : SeenMembers * A) : Result (SeenMembers * A) Category :=
  let? seen := seen_insert key (fst st) in
  let? out := assign key x (snd st) in
  Ok (seen, out).
Definition read_struct {A} (assign : nat -> string -> Doc -> A -> Result A Category) (init : A)
    (d : nat) (doc : Doc) : Result A Category :=
  match doc with
  | DObj m closed =>
      match enter d with
      | None => Err Syntax
      | Some d => let? st := read_members (seen_step (assign d)) m closed (∅, init) in Ok (snd st)
      end
  | DBad => Err Syntax
  | _ => Err Data
  end.

(** The envelope with [saw_data]. *)
Definition assign_sse (d : nat) (key : string) (x : Doc) (st : TransportSseEnvelope * bool)
    : Result (TransportSseEnvelope * bool) Category :=
  let (out, saw_data) := st in
  if String.eqb key "event" then let? v := read_opt_string x in Ok (out <| se_event := v |>, saw_data)
  else if String.eqb key "id" then let? v := read_opt_string x in Ok (out <| se_id := v |>, saw_data)
  else if String.eqb key "data" then let? v := read_unique d x in Ok (out <| se_data := v |>, true)
  else let? _ := read_sink d x in Ok (out, saw_data).
Definition read_sse (d : nat) (doc : Doc) : Result TransportSseEnvelope Category :=
  let? st := read_struct assign_sse (mkSse None None Null, false) d doc in
  if snd st then Ok (fst st) else Err Data.

Definition assign_entry (d : nat) (key : string) (x : Doc) (out : TransportTranscriptEntry)
    : Result TransportTranscriptEntry Category :=
  if String.eqb key "timestamp_ms" then let? v := read_opt_u64 x in Ok (out <| te_timestamp_ms := v |>)
  else if String.eqb key "transport_context" then let? v := read_unique d x in Ok (out <| te_transport_context := Some v |>)
  else if String.eqb key "headers" then let? v := read_unique d x in Ok (out <| te_headers := Some v |>)
  else if String.eqb key "request" then let? v := read_unique d x in Ok (out <| te_request := Some v |>)
  else if String.eqb key "response" then let? v := read_unique d x in Ok (out <| te_response := Some v |>)
  else if String.eqb key "sse" then
    match x with
    | DNull => Err Data
    | _ => let? v := read_sse d x in Ok (out <| te_sse := Some v |>)
    end
  else let? _ := read_sink d x in Ok out.
Definition read_entry : nat -> Doc -> Result TransportTranscriptEntry Category :=
  read_struct assign_entry (mkEntry None None None None None None).

Definition assign_transcript (d : nat) (key : string) (x : Doc) (out : TransportTranscript)
    : Result TransportTranscript Category :=
  if String.eqb key "transport" then let? v := read_opt_string x in Ok (out <| tt_transport := v |>)
  else if String.eqb key "transport_context" then let? v := read_unique d x in Ok (out <| tt_transport_context := Some v |>)
  else if String.eqb key "headers" then let? v := read_unique d x in Ok (out <| tt_headers := Some v |>)
  else if String.eqb key "entries" then let? v := read_vec read_entry d x in Ok (out <| tt_entries := v |>)
  else let? _ := read_sink d x in Ok out.
Definition read_transcript : nat -> Doc -> Result TransportTranscript Category :=
  read_struct assign_transcript (mkTranscript None None None []).

(** ** Authorization discovery *)

Definition u16_max : Z := 2 ^ 16 - 1.
Definition json_value_to_u16 (value : Value) : option Z :=
  match value with
  | Num _ => as_u64 value ≫= fun n => if (n <=? u16_max)%Z then Some n else None
  | Str s => parse_unsigned u16_max s
  | _ => None
  end.

(** [find_map] over the entries of a map or over a list of keys. *)
Fixpoint find_map {A B} (f : A -> option B) (l : list A) : option B :=
  match l with
  | [] => None
  | x :: r => match f x with Some b => Some b | None => find_map f r end
  end.

(** The recursion follows the member [response], so it is structural on the
    map of the object. *)
Fixpoint extract_http_status_from_value (value : Value) : option Z :=
  match value with
  | Obj map =>
      match find_map (fun key => map_get map key ≫= json_value_to_u16) ["status"; "status_code"; "http_status"] with
      | Some status => Some status
      | None =>
          (fix go (m : list (string * Value)) : option Z :=
             match m with
             | [] => None
             | (k, v) :: r => if String.eqb "response" k then extract_http_status_from_value v else go r
             end) map
      end
  | _ => None
  end.
Definition extract_http_status (entry : TransportTranscriptEntry) : option Z :=
  match te_transport_context entry ≫= extract_http_status_from_value with
  | Some s => Some s
  | None => te_headers entry ≫= extract_http_status_from_value
  end.

Fixpoint find_header_case_insensitive (header_name : string) (value : Value) : option string :=
  match value with
  | Obj map =>
      let under := fun name =>
        (fix go (m : list (string * Value)) : option string :=
           match m with
           | [] => None
           | (k, v) :: r => if String.eqb name k then find_header_case_insensitive header_name v else go r
           end) map in
      match under "headers" with
      | Some found => Some found
      | None =>
          match under "response" with
          | Some found => Some found
          | None => find_map (fun e => if eq_ignore_ascii_case (fst e) header_name then as_str (snd e) else None) map
          end
      end
  | _ => None
  end.

(** [lower.match_indices(needle)], with the byte before each match. *)
Fixpoint param_visible (needle : string) (before : option ascii) (skip : nat) (s : string) : bool :=
  match s with
  | EmptyString => false
  | String a r =>
      match skip with
      | S k => param_visible needle (Some a) k r
      | O =>
          if starts_with s needle then
            match before with
            | None => true
            | Some b => Ascii.eqb b " " || Ascii.eqb b "," || Ascii.eqb b "009"
            end || param_visible needle (Some a) (String.length needle - 1) r
          else param_visible needle (Some a) 0 r
      end
  end.
Definition auth_param_visible (header_value param_name : string) : bool :=
  param_visible (param_name +:+ "=") None 0 (to_ascii_lowercase header_value).

Definition parse_transport_auth_discovery (entry : TransportTranscriptEntry) : McpAuthorizationDiscovery :=
  match extract_http_status entry with
  | None => discovery_default
  | Some status =>
      if negb (status =? 401)%Z then discovery_default
      else
        let header_value :=
          match te_transport_context entry ≫= find_header_case_insensitive "www-authenticate" with
          | Some h => Some h
          | None => te_headers entry ≫= find_header_case_insensitive "www-authenticate"
          end in
        match header_value with
        | None => discovery_default
        | Some www_authenticate =>
            let resource_metadata_visible := auth_param_visible www_authenticate "resource_metadata" in
            let scope_challenge_visible := auth_param_visible www_authenticate "scope" in
            if negb resource_metadata_visible && negb scope_challenge_visible then discovery_default
            else mkDiscovery true WwwAuthenticate resource_metadata_visible false scope_challenge_visible
        end
  end.

(** ** Framed transcripts *)

Definition observe_transport_context (ctx : option Value) : option EnvelopeObservation :=
  match ctx with
  | None => None
  | Some ctx =>
      match as_object ctx with
      | None => Some EnvMalformed
      | Some map => observe_header (map_get map "headers")
      end
  end.

Definition is_framed (format : McpInputFormat) : bool :=
  match format with StreamableHttp | HttpSse => true | _ => false end.

Definition payload_raw (payload : McpPayload) : Value :=
  match payload with
  | SessionStart raw | ToolsListRequest raw | ToolsListResponse _ raw | ToolCallRequest _ _ raw
  | ToolCallResponse _ _ raw | SessionEnd raw | OtherPayload raw => raw
  end.

Section transport.
  Context `{Platform, JsonReader}.

(** A value in a string is a document of its own.  A string is shorter than
    its text, so the length of the text is fuel. *)
Fixpoint extract_like (fuel : nat) (value : Value) (max_embedded_json_depth : option Z)
      : option (Result (option Value) ParseError) :=
    match value with
    | Obj map =>
        if map_contains_key map "method" || map_contains_key map "result" ||
           map_contains_key map "error" || map_contains_key map "jsonrpc"
        then Some (Ok (Some value)) else Some (Ok None)
    | Str text =>
        if match max_embedded_json_depth with
           | Some limit => exceeds_limit (String.list_ascii_of_string text) limit false
           | None => false
           end
        then Some (Err EmbeddedJsonDepthExceeded)
        else
          match from_str read_unique text with
          | Ok parsed =>
              match fuel with
              | O => None
              | S fuel => extract_like fuel parsed max_embedded_json_depth
              end
          | Err Data => Some (Err (InvalidJson "invalid SSE data payload" Data))
          | Err Syntax => Some (Ok None)
          end
    | _ => Some (Ok None)
    end.
Definition embedding_fuel (value : Value) : nat := match value with Str s => S (String.length s) | _ => O end.
Definition extract_jsonrpc_like_value (value : Value) (max_embedded_json_depth : option Z)
      : option (Result (option Value) ParseError) :=
    extract_like (embedding_fuel value) value max_embedded_json_depth.

Definition extract_jsonrpc_from_sse (sse : TransportSseEnvelope) (allow_endpoint_event : bool)
      (max_embedded_json_depth : option Z) : option (Result (option Value) ParseError) :=
    let event_name := default "message" (se_event sse) in
    if String.eqb event_name "endpoint" && allow_endpoint_event then Some (Ok None)
    else if negb (String.eqb event_name "message") then Some (Ok None)
    else extract_jsonrpc_like_value (se_data sse) max_embedded_json_depth.

Definition entry_slots (ctx headers : option Value) : list EnvelopeObservation :=
    option_list (observe_transport_context ctx) ++ option_list (observe_header headers).

Definition count_slots (entry : TransportTranscriptEntry) : nat :=
    Nat.b2n (opt_is_some (te_request entry)) + Nat.b2n (opt_is_some (te_response entry)) +
    Nat.b2n (opt_is_some (te_sse entry)).

(** The event of one entry, if it has one. *)
Definition entry_event (source_label : string) (allow_endpoint_event : bool)
      (max_embedded_json_depth : option Z) (source_line : Z) (entry : TransportTranscriptEntry)
      : option (Result (option McpEvent) ParseError) :=
    let message := fun v auth =>
      Some (let? e := parse_jsonrpc_message v source_line (te_timestamp_ms entry) auth in Ok (Some e)) in
    if negb (Nat.eqb (count_slots entry) 1) then
      Some (Err (Refused (source_label +:+ " entry " +:+ fmt_int source_line +:+
        " must contain exactly one of request, response, or sse")))
    else
      match te_request entry with
      | Some request => message request discovery_default
      | None =>
          let auth_discovery := parse_transport_auth_discovery entry in
          match te_response entry with
          | Some response => message response auth_discovery
          | None =>
              match te_sse entry with
              | Some sse =>
                  match extract_jsonrpc_from_sse sse allow_endpoint_event max_embedded_json_depth with
                  | None => None
                  | Some (Err e) => Some (Err e)
                  | Some (Ok (Some jsonrpc)) => message jsonrpc discovery_default
                  | Some (Ok None) => Some (Ok None)
                  end
              | None => Some (Ok None)
              end
          end
      end.

(** Events and one folded envelope per entry. *)
Fixpoint entries_loop (source_label : string) (allow_endpoint_event : bool)
      (max_embedded_json_depth : option Z) (transcript_slots : list EnvelopeObservation)
      (idx : Z) (entries : list TransportTranscriptEntry)
      : option (Result (list McpEvent * list EnvelopeObservation) ParseError) :=
    match entries with
    | [] => Some (Ok ([], []))
    | entry :: rest =>
        let envelope :=
          fold_envelope (transcript_slots ++ entry_slots (te_transport_context entry) (te_headers entry)) true in
        match entry_event source_label allow_endpoint_event max_embedded_json_depth (idx + 1) entry with
        | None => None
        | Some (Err e) => Some (Err e)
        | Some (Ok event) =>
            match entries_loop source_label allow_endpoint_event max_embedded_json_depth transcript_slots (idx + 1) rest with
            | Some (Ok (out, envelopes)) => Some (Ok (option_list event ++ out, envelope :: envelopes))
            | r => r
            end
        end
    end.

Definition parse_transport_transcript_detailed (text expected_transport source_label : string)
      (allow_endpoint_event : bool) (max_embedded_json_depth : option Z)
      : option (Result (list McpEvent * list EnvelopeObservation) ParseError) :=
    match from_str read_transcript text with
    | Err c => Some (Err (InvalidJson ("invalid " +:+ source_label) c))
    | Ok transcript =>
        let actual_transport := default "missing" (tt_transport transcript) in
        if negb (String.eqb actual_transport expected_transport) then
          Some (Err (WrongTransport source_label expected_transport actual_transport))
        else
          entries_loop source_label allow_endpoint_event max_embedded_json_depth
            (entry_slots (tt_transport_context transcript) (tt_headers transcript)) 0 (tt_entries transcript)
    end.

Definition parse_events_with_envelopes (text : string) (format : McpInputFormat)
      (max_embedded_json_depth : option Z)
      : option (Result (list McpEvent * list EnvelopeObservation) ParseError) :=
    match format with
    | JsonRpc => Some (let? events := parse_jsonrpc_jsonl text in Ok (events, []))
    | Inspector => Some (let? events := parse_inspector_best_effort text in Ok (events, []))
    | StreamableHttp =>
        parse_transport_transcript_detailed text "streamable-http" "streamable-http transcript" false max_embedded_json_depth
    | HttpSse =>
        parse_transport_transcript_detailed text "http-sse" "http-sse transcript" true max_embedded_json_depth
    end.
End transport.

(** ** The sidecar *)

(** Request metadata, result, capabilities, and whether it is an error
    response. *)
Definition observe_message (raw : Value)
    : option RequestMetadata * option ResultObservation * option CapabilityObservation * bool :=
  match classify_message raw with
  | Ok (Request _) => (Some (observe_request_metadata raw), None, observe_client_capabilities raw, false)
  | Ok (Notification _) => (None, None, None, false)
  | Ok Response => (None, observe_result raw, None, opt_is_some (vget raw "error"))
  | Err _ => (None, None, None, false)
  end.

Definition observe_event (framed : bool) (envelopes : list EnvelopeObservation) (event : McpEvent) : ParsedMcpEvent :=
  let raw := payload_raw (me_payload event) in
  let '(request_metadata, result_observation, capability_observation, is_error_response) := observe_message raw in
  let envelope :=
    if framed then default EnvMalformed (envelopes !! Z.to_nat (Z.max 0 (me_source_line event - 1)))
    else NotApplicable in
  let era := resolve_era envelope (default MetaAbsent request_metadata) in
  mkParsed event
    (mkEraContext envelope era request_metadata result_observation (correlation_id raw) capability_observation)
    is_error_response.

(** ** Correlation *)

Record CallSignals : Type := mkCallSignals { cs_era : EraResolution; cs_capability : option CapabilityObservation }.

Definition signals_of (p : ParsedMcpEvent) : CallSignals :=
  mkCallSignals (cx_era (pm_context p)) (cx_capability_observation (pm_context p)).

Definition with_signals (s : CallSignals) (p : ParsedMcpEvent) : ParsedMcpEvent :=
  mkParsed (pm_event p)
    ((pm_context p) <| cx_era := cs_era s |> <| cx_capability_observation := cs_capability s |>)
    (pm_is_error_response p).

Definition event_raw (p : ParsedMcpEvent) : Value := payload_raw (me_payload (pm_event p)).

Definition shared_id_error (p : ParsedMcpEvent) : ParseError :=
  Refused (at_line "two outstanding JSON-RPC requests share an id at" (me_source_line (pm_event p)) "").

Fixpoint correlate (outstanding : gmap CorrelationId CallSignals) (parsed : list ParsedMcpEvent)
    : Result (list ParsedMcpEvent) ParseError :=
  match parsed with
  | [] => Ok []
  | p :: rest =>
      let keep := fun p outstanding => let? out := correlate outstanding rest in Ok (p :: out) in
      match correlation_id (event_raw p) with
      | None => keep p outstanding
      | Some id =>
          match classify_message (event_raw p) with
          | Ok (Request _) =>
              match outstanding !! id with
              | Some _ => Err (shared_id_error p)
              | None => keep p (<[id := signals_of p]> outstanding)
              end
          | Ok Response =>
              match outstanding !! id with
              | Some signals => keep (with_signals signals p) (delete id outstanding)
              | None => keep p outstanding
              end
          | Ok (Notification _) | Err _ => keep p outstanding
          end
      end
  end.
Definition correlate_calls (parsed : list ParsedMcpEvent) : Result (list ParsedMcpEvent) ParseError := correlate ∅ parsed.

Section detailed.
  Context `{Platform, JsonReader}.

Definition parse_mcp_transcript_detailed_internal (text : string) (format : McpInputFormat)
      (max_embedded_json_depth : option Z) : option (Result (list ParsedMcpEvent) ParseError) :=
    match parse_events_with_envelopes text format max_embedded_json_depth with
    | None => None
    | Some (Err e) => Some (Err e)
    | Some (Ok (events, envelopes)) => Some (correlate_calls (observe_event (is_framed format) envelopes <$> events))
    end.

Definition parse_mcp_transcript_detailed (text : string) (format : McpInputFormat) :=
    parse_mcp_transcript_detailed_internal text format None.
Definition parse_mcp_transcript_detailed_with_depth (text : string) (format : McpInputFormat) (max_json_depth : Z) :=
    parse_mcp_transcript_detailed_internal text format (Some max_json_depth).

Definition parse_mcp_transcript (text : string) (format : McpInputFormat) : option (Result (list McpEvent) ParseError) :=
    match parse_mcp_transcript_detailed text format with
    | None => None
    | Some (Err e) => Some (Err e)
    | Some (Ok parsed) => Some (Ok (pm_event <$> parsed))
    end.
End detailed.
