(* ===== verification/McpParserCorrect.v ===== *)
(** * Correctness of the MCP transcript parser

    Correlation against a declarative notion of the request a response answers;
    the refusal of repeated members anywhere in a framed transcript; the depth
    scan against balanced nesting; what an accepted message is. *)
From stdpp Require Import base tactics list strings gmap.
From Stdlib Require Import ZArith Lia Ascii.
From S2P Require Import Prelude RustStr Json Platform PolicyTypes Era JsonDoc McpParser.

(** ** Calls in a history

    The request that is pending under an id after some messages: it was sent
    and no response with that id came after it. *)
Definition opens (p : ParsedMcpEvent) (id : CorrelationId) : Prop :=
  correlation_id (event_raw p) = Some id /\ exists m, classify_message (event_raw p) = Ok (Request m).
Definition answers (p : ParsedMcpEvent) (id : CorrelationId) : Prop :=
  correlation_id (event_raw p) = Some id /\ classify_message (event_raw p) = Ok Response.

Definition PendingUnder (history : list ParsedMcpEvent) (id : CorrelationId) (q : ParsedMcpEvent) : Prop :=
  exists j, history !! j = Some q /\ opens q id /\
    forall k p, j < k -> history !! k = Some p -> ~ answers p id.

(** Two requests pending under one id at the same time. *)
Definition Clash (history : list ParsedMcpEvent) : Prop :=
  exists i p id q, history !! i = Some p /\ opens p id /\ PendingUnder (take i history) id q.

(** What correlation makes of a message after a history. *)
Definition Correlated (history : list ParsedMcpEvent) (p p' : ParsedMcpEvent) : Prop :=
  (exists id q, answers p id /\ PendingUnder history id q /\
     (forall q', PendingUnder history id q' -> q' = q) /\ p' = with_signals (signals_of q) p) \/
  ((forall id q, answers p id -> ~ PendingUnder history id q) /\ p' = p).

Lemma pending_snoc history p id q :
  PendingUnder (history ++ [p]) id q <-> (q = p /\ opens p id) \/ (PendingUnder history id q /\ ~ answers p id).
Proof.
  unfold PendingUnder. split.
  - intros (j & Hj & Ho & Ha). apply lookup_app_Some in Hj as [Hj | [Hl Hj]].
    + right. assert (Hjl := lookup_lt_Some _ _ _ Hj). split.
      * exists j. split_and!; [done..|]. intros k p' Hk Hp'. apply (Ha k); [done|].
        by apply lookup_app_l_Some.
      * apply (Ha (length history)); [done|]. by rewrite lookup_app_r, Nat.sub_diag by lia.
    + apply list_lookup_singleton_Some in Hj as [_ ->]. by left.
  - intros [[-> Ho] | [(j & Hj & Ho & Ha) Hn]].
    + exists (length history). rewrite lookup_app_r, Nat.sub_diag by lia. split_and!; [done..|].
      intros k p' Hk Hp'. apply lookup_lt_Some in Hp'. rewrite length_app in Hp'. simpl in Hp'. lia.
    + exists j. split_and!; [by apply lookup_app_l_Some | done |].
      intros k p' Hk Hp'. apply lookup_app_Some in Hp' as [Hp' | [Hl Hp']]; [by apply (Ha k)|].
      apply list_lookup_singleton_Some in Hp' as [_ ->]. done.
Qed.

Lemma opens_not_answers p id id' : opens p id -> ~ answers p id'.
Proof. intros [_ [m E]] [_ E']. congruence. Qed.

(** The map of outstanding calls holds the pending ones. *)
Record Tracks (history : list ParsedMcpEvent) (outstanding : gmap CorrelationId CallSignals) : Prop := {
  tracks_some id s : outstanding !! id = Some s -> exists q, PendingUnder history id q /\ s = signals_of q;
  tracks_none id q : outstanding !! id = None -> ~ PendingUnder history id q;
  tracks_unique id q q' : PendingUnder history id q -> PendingUnder history id q' -> q = q'
}.

(** A message that neither opens nor answers changes nothing, and neither does
    an orphan response. *)
Lemma tracks_other history outstanding p :
  Tracks history outstanding -> (forall id, ~ opens p id) ->
  (forall id q, answers p id -> ~ PendingUnder history id q) -> Tracks (history ++ [p]) outstanding.
Proof.
  intros [Hs Hn Hu] Ho Ha.
  assert (Hp : forall id q, PendingUnder (history ++ [p]) id q <-> PendingUnder history id q).
  { intros id q. rewrite pending_snoc. split; [intros [[_ ?%Ho] | [? _]]; done | intros H]. right. split; [done|].
    intros A. by apply (Ha id q). }
  split.
  - intros id s (q & ? & ->)%Hs. exists q. by rewrite Hp.
  - intros id q E. rewrite Hp. by apply Hn.
  - intros id q q'. rewrite !Hp. apply Hu.
Qed.

Lemma tracks_open history outstanding p id :
  Tracks history outstanding -> opens p id -> outstanding !! id = None ->
  Tracks (history ++ [p]) (<[id := signals_of p]> outstanding).
Proof.
  intros [Hs Hn Hu] Ho E.
  assert (Hp : forall id' q, PendingUnder (history ++ [p]) id' q <-> (q = p /\ id' = id) \/ PendingUnder history id' q).
  { intros id' q. rewrite pending_snoc. split.
    - intros [[-> [H _]] | [? _]]; [left | by right]. split; [done|]. destruct Ho as [H' _]. congruence.
    - intros [[-> ->] | ?]; [by left | right]. split; [done|]. by eapply opens_not_answers. }
  split.
  - intros id' s H. apply lookup_insert_Some in H as [[<- <-] | [_ (q & ? & ->)%Hs]].
    + exists p. rewrite Hp. auto.
    + exists q. rewrite Hp. auto.
  - intros id' q [H ?]%lookup_insert_None. rewrite Hp. intros [[_ ->] | ?]; [done | by apply (Hn id' q)].
  - intros id' q q'. rewrite !Hp. intros [[-> ->] | H1] [[-> ?] | H2]; [done | by apply Hn in H2 | subst; by apply Hn in H1 | by apply (Hu id')].
Qed.

Lemma tracks_answer history outstanding p id :
  Tracks history outstanding -> answers p id -> Tracks (history ++ [p]) (delete id outstanding).
Proof.
  intros [Hs Hn Hu] Ha.
  assert (Hp : forall id' q, PendingUnder (history ++ [p]) id' q <-> id' <> id /\ PendingUnder history id' q).
  { intros id' q. rewrite pending_snoc. split.
    - intros [[_ Ho] | [? H]]; [by destruct (opens_not_answers p id' id)|]. split; [by intros -> | done].
    - intros [Hne ?]. right. split; [done|]. intros [Hid _]. destruct Ha as [Hid' _]. congruence. }
  split.
  - intros id' s [Hne (q & ? & ->)%Hs]%lookup_delete_Some. exists q. rewrite Hp. auto.
  - intros id' q E. rewrite Hp. intros [Hne Hq]. apply lookup_delete_None in E as [-> | E]; [done | by apply (Hn id' q)].
  - intros id' q q'. rewrite !Hp. intros [_ ?] [_ ?]. by apply (Hu id').
Qed.

(** Correlating the rest of a transcript after a history. *)
Lemma correlate_after history outstanding parsed :
  Tracks history outstanding ->
  match correlate outstanding parsed with
  | Ok out =>
      Forall2 (fun _ _ => True) parsed out /\
      (forall i p, parsed !! i = Some p -> forall id q, opens p id -> ~ PendingUnder (history ++ take i parsed) id q) /\
      (forall i p p', parsed !! i = Some p -> out !! i = Some p' -> Correlated (history ++ take i parsed) p p')
  | Err e =>
      exists i p id q, parsed !! i = Some p /\ opens p id /\ PendingUnder (history ++ take i parsed) id q /\ e = shared_id_error p
  end.
Proof.
  revert history outstanding. induction parsed as [|p parsed IH]; intros history outstanding Ht; [done|].
  assert (Hstep : forall outstanding' p',
    Tracks (history ++ [p]) outstanding' -> Correlated history p p' -> (forall id q, opens p id -> ~ PendingUnder history id q) ->
    match (let? out := correlate outstanding' parsed in Ok (p' :: out)) with
    | Ok out =>
        Forall2 (fun _ _ => True) (p :: parsed) out /\
        (forall i p0, (p :: parsed) !! i = Some p0 -> forall id q, opens p0 id -> ~ PendingUnder (history ++ take i (p :: parsed)) id q) /\
        (forall i p0 p0', (p :: parsed) !! i = Some p0 -> out !! i = Some p0' -> Correlated (history ++ take i (p :: parsed)) p0 p0')
    | Err e =>
        exists i p0 id q, (p :: parsed) !! i = Some p0 /\ opens p0 id /\ PendingUnder (history ++ take i (p :: parsed)) id q /\ e = shared_id_error p0
    end).
  { intros outstanding' p' Ht' Hc Ho. specialize (IH _ _ Ht').
    assert (Htake : forall i, history ++ take (S i) (p :: parsed) = (history ++ [p]) ++ take i parsed)
      by (intros i; simpl; by rewrite <- app_assoc).
    destruct (correlate outstanding' parsed) as [out|e].
    - destruct IH as (HF & Hn & Hout). split_and!; [by constructor| |].
      + intros [|i] p0 Hp0; [injection Hp0 as <-; simpl; rewrite app_nil_r; apply Ho | rewrite Htake; by apply Hn].
      + intros [|i] p0 p0' Hp0 Hp0'; [injection Hp0 as <-; injection Hp0' as <-; simpl; by rewrite app_nil_r|].
        rewrite Htake. by apply Hout.
    - destruct IH as (i & p0 & id & q & ? & ? & ? & ->). exists (S i), p0, id, q. rewrite Htake. by split_and!. }
  cbn [correlate].
  assert (Hother : (forall id, ~ opens p id) -> (forall id q, answers p id -> ~ PendingUnder history id q) ->
    Tracks (history ++ [p]) outstanding /\ Correlated history p p) by (intros; split; [by apply tracks_other | by right]).
  destruct (correlation_id (event_raw p)) as [id|] eqn:Ei.
  2: { destruct Hother as [Ht' Hc']; [intros id [H _]; congruence | intros id q [H _]; congruence |].
       apply Hstep; [done..|]. intros id q [H _]. congruence. }
  destruct (classify_message (event_raw p)) as [[m|m|]|] eqn:Ek.
  - assert (Ho : opens p id) by (split; [done | by exists m]).
    destruct (outstanding !! id) as [s|] eqn:E.
    + destruct (tracks_some _ _ Ht _ _ E) as (q & Hq & _). exists 0, p, id, q. simpl. rewrite app_nil_r. by split_and!.
    + apply Hstep.
      * by apply tracks_open.
      * right. split; [|done]. intros id' q A. by destruct (opens_not_answers p id id').
      * intros id' q [H _]. assert (id' = id) as -> by congruence. by eapply tracks_none.
  - destruct Hother as [Ht' Hc']; [intros id' [_ [? H]]; congruence | intros id' q [_ H]; congruence |].
    apply Hstep; [done..|]. intros id' q [_ [? H]]. congruence.
  - assert (Ha : answers p id) by done.
    assert (Hno : forall id', ~ opens p id') by (intros id' Ho; by apply (opens_not_answers p id' id)).
    destruct (outstanding !! id) as [s|] eqn:E.
    + destruct (tracks_some _ _ Ht _ _ E) as (q & Hq & ->).
      apply Hstep; [by apply tracks_answer | | intros id' q' Ho; by apply Hno in Ho].
      left. exists id, q. split_and!; [done..| |done]. intros q' Hq'. by apply (tracks_unique _ _ Ht id).
    + destruct Hother as [Ht' Hc']; [done | |].
      { intros id' q [H _]. assert (id' = id) as -> by congruence. by eapply tracks_none. }
      apply Hstep; [done..|]. intros id' q Ho. by apply Hno in Ho.
  - destruct Hother as [Ht' Hc']; [intros id' [_ [? H]]; congruence | intros id' q [_ H]; congruence |].
    apply Hstep; [done..|]. intros id' q [_ [? H]]. congruence.
Qed.

Lemma correlate_calls_facts parsed :
  match correlate_calls parsed with
  | Ok out =>
      ~ Clash parsed /\ length out = length parsed /\
      forall i p p', parsed !! i = Some p -> out !! i = Some p' -> Correlated (take i parsed) p p'
  | Err e => Clash parsed
  end.
Proof.
  unfold correlate_calls.
  assert (Ht : Tracks [] ∅).
  { assert (Hp : forall id q, ~ PendingUnder [] id q) by (by intros id q (j & Hj & _)).
    split; [by intros id s H; rewrite lookup_empty in H | intros id q _; apply Hp | intros id q q' H; by apply Hp in H]. }
  assert (H := correlate_after [] ∅ parsed Ht). destruct (correlate ∅ parsed) as [out|e].
  - destruct H as (HF & Hn & Hc). split_and!.
    + intros (i & p & id & q & Hp & Ho & Hq). by eapply (Hn i p Hp id q).
    + symmetry. by eapply Forall2_length.
    + apply Hc.
  - destruct H as (i & p & id & q & ? & ? & ? & _). by exists i, p, id, q.
Qed.

(** C5: Correlation follows the order of the transcript.  It refuses exactly
    the transcripts in which a request is sent under an id whose previous
    request has no answer yet.  Otherwise each response takes the era and the
    capabilities of the one request that is pending under its typed id (never
    those of a later or an answered call) and every other message, an orphan
    response too, keeps its own. *)
Theorem correlate_calls_spec parsed :
  match correlate_calls parsed with
  | Ok out =>
      ~ Clash parsed /\ length out = length parsed /\
      forall i p p', parsed !! i = Some p -> out !! i = Some p' -> Correlated (take i parsed) p p'
  | Err e => Clash parsed
  end.
Proof. apply correlate_calls_facts. Qed.

(** ** No member is repeated, wherever it is *)

Inductive NoRepeat : Doc -> Prop :=
| nr_Null : NoRepeat DNull
| nr_Bool b : NoRepeat (DBool b)
| nr_Num n : NoRepeat (DNum n)
| nr_Str s : NoRepeat (DStr s)
| nr_Bad : NoRepeat DBad
| nr_Arr l closed : Forall NoRepeat l -> NoRepeat (DArr l closed)
| nr_Obj m closed : NoDup (map fst m) -> Forall (fun e => NoRepeat e.2) m -> NoRepeat (DObj m closed).

Lemma read_elements_steps {A} (step : Doc -> A -> Result A Category) l closed out out' :
  read_elements step l closed out = Ok out' -> Forall (fun x => exists a a', step x a = Ok a') l.
Proof.
  revert out. induction l as [|x l IH]; intros out; simpl; [by constructor|].
  destruct (step x out) as [a|] eqn:E; [|done]. intros H. constructor; [by eauto | by apply (IH a)].
Qed.

Lemma read_members_steps {A} (step : string -> Doc -> A -> Result A Category) m closed out out' :
  read_members step m closed out = Ok out' -> Forall (fun e => exists k a a', e.1 = Some k /\ step k e.2 a = Ok a') m.
Proof.
  revert out. induction m as [|[[k|] x] m IH]; intros out; simpl; [by constructor | | done].
  destruct (step k x out) as [a|] eqn:E; [|done]. intros H. constructor; [by exists k, out, a | by apply (IH a)].
Qed.

Lemma decodes_no_repeat doc : forall d v, Decodes d doc v -> wf_value v -> NoRepeat doc.
Proof.
  induction doc as [|b|n|s|l closed IH|m closed IH|] using Doc_nested; intros d v H Hw; inversion H; subst;
    try by constructor.
  - match goal with HF : Forall2 _ l _ |- _ => rename HF into HF' end.
    inversion Hw as [| | | |? Hws|]; subst. constructor. clear H Hw.
    induction HF' as [|x w l ws Hx _ IHF]; [by constructor|].
    inversion IH; inversion Hws; subst. constructor; eauto.
  - match goal with HF : Forall2 _ m _ |- _ => rename HF into HF' end.
    inversion Hw as [| | | | |? Hnd Hws]; subst. constructor.
    + assert (E : map fst m = Some <$> map fst vs).
      { clear -HF'. induction HF' as [|[k x] [k' w] m ws [Hk _] _ IHF]; simpl in *; [done | by rewrite Hk, IHF]. }
      rewrite E. by apply (NoDup_fmap_2 Some).
    + clear H Hw Hnd. induction HF' as [|x w m ws [_ Hx] _ IHF]; [by constructor|].
      inversion IH; inversion Hws; subst. constructor; eauto.
Qed.

Lemma read_unique_no_repeat d doc v : read_unique d doc = Ok v -> NoRepeat doc.
Proof.
  intros H. apply read_decodes in H as Hd.
  destruct (decodes_read _ _ _ Hd) as [[Hw _] | [_ E]]; [by eapply decodes_no_repeat | congruence].
Qed.

Lemma read_sink_no_repeat d doc : read_sink d doc = Ok () -> NoRepeat doc.
Proof.
  rewrite sink_discards. destruct (read_unique d doc) as [v|] eqn:E; [|done]. intros _. by eapply read_unique_no_repeat.
Qed.

(** A struct whose members are read by readers that refuse repetition refuses
    it too, its own unknown members included. *)
Lemma seen_members_distinct {A} (assign : string -> Doc -> A -> Result A Category) m closed seen out st :
  read_members (seen_step assign) m closed (seen, out) = Ok st ->
  NoDup (map fst m) /\ forall k, Some k ∈ map fst m -> k ∉ seen.
Proof.
  revert seen out. induction m as [|[[k|] x] m IH]; intros seen out; simpl; [|unfold seen_step at 1, seen_insert | done].
  - intros _. split; [constructor | intros k H; inversion H].
  - cbn [fst snd]. destruct (decide (k ∈ seen)) as [|Hk]; [done|]. destruct (assign k x out) as [out'|]; [|done].
    intros [Hnd Hs]%IH. split.
    + constructor; [|done]. intros Hin. apply (Hs k Hin). set_solver.
    + intros k' [[= ->]|Hin]%elem_of_cons; [done|]. specialize (Hs k' Hin). set_solver.
Qed.

Lemma read_struct_no_repeat {A} (assign : nat -> string -> Doc -> A -> Result A Category) init d doc out :
  (forall d k x a a', assign d k x a = Ok a' -> NoRepeat x) ->
  read_struct assign init d doc = Ok out -> NoRepeat doc.
Proof.
  intros Ha. unfold read_struct. destruct doc as [| | | | |m closed|]; try done.
  destruct (enter d) as [d'|]; [|done]. destruct (read_members _ m closed _) as [st|] eqn:E; [|done]. intros _.
  constructor; [by apply seen_members_distinct in E as [? _]|].
  apply read_members_steps in E. eapply Forall_impl; [exact E|]. intros [k x] (k' & [s a] & a' & _ & Hs). simpl in *.
  unfold seen_step in Hs. cbn [fst snd] in Hs. destruct (seen_insert k' s); [|done].
  destruct (assign d' k' x a) eqn:Ex; [|done]. by eapply Ha.
Qed.

Lemma read_vec_no_repeat {A} (read : nat -> Doc -> Result A Category) d doc out :
  (forall d x a, read d x = Ok a -> NoRepeat x) -> read_vec read d doc = Ok out -> NoRepeat doc.
Proof.
  intros Hr. unfold read_vec. destruct doc as [| | | |l closed| |]; try done.
  destruct (enter d) as [d'|]; [|done]. intros E%read_elements_steps. constructor.
  eapply Forall_impl; [exact E|]. intros x (a & a' & Hs). destruct (read d' x) eqn:Ex; [|done]. by eapply Hr.
Qed.

Lemma read_opt_no_repeat doc :
  (forall s, read_opt_string doc = Ok s -> NoRepeat doc) /\ (forall n, read_opt_u64 doc = Ok n -> NoRepeat doc).
Proof. split; intros; destruct doc; try done; constructor. Qed.

(** The case analysis on a member's name that the readers share: each branch
    reads the member with a reader known to refuse repetition. *)
Ltac member_cases H :=
  repeat match type of H with
  | (if String.eqb ?k ?n then _ else _) = _ => destruct (String.eqb k n)
  | (match ?r with Ok _ => _ | Err _ => _ end) = _ => destruct r eqn:?; [clear H | discriminate H]
  end;
  match goal with
  | E : read_unique _ ?x = Ok _ |- NoRepeat ?x => by eapply read_unique_no_repeat
  | E : read_opt_string ?x = Ok _ |- NoRepeat ?x => by eapply (proj1 (read_opt_no_repeat x))
  | E : read_opt_u64 ?x = Ok _ |- NoRepeat ?x => by eapply (proj2 (read_opt_no_repeat x))
  | E : read_sink _ ?x = Ok ?u |- NoRepeat ?x => destruct u; by eapply read_sink_no_repeat
  | |- _ => idtac
  end.

Lemma read_sse_no_repeat d doc s : read_sse d doc = Ok s -> NoRepeat doc.
Proof.
  unfold read_sse. destruct (read_struct assign_sse _ d doc) as [st|] eqn:E; [|done]. intros _. revert E.
  apply read_struct_no_repeat. intros d' k x [a b] a' H. unfold assign_sse in H. member_cases H.
Qed.

Lemma read_entry_no_repeat d doc e : read_entry d doc = Ok e -> NoRepeat doc.
Proof.
  apply read_struct_no_repeat. intros d' k x a a' H. unfold assign_entry in H.
  member_cases H.
  assert (Hs : exists v, read_sse d' x = Ok v) by (destruct x; try done; destruct (read_sse d' _); by eauto).
  destruct Hs as [v Hv]. by eapply read_sse_no_repeat.
Qed.

(** A framed transcript in which any object repeats a member is refused,
    wherever the object is: in the transcript, an entry or a frame, in a
    message or a header map, or inside a member that the parser ignores. *)
Theorem transcript_members_unique `{JsonReader} text t :
  from_str read_transcript text = Ok t -> NoRepeat (json_document text).1.
Proof.
  unfold from_str. destruct (json_document text) as [doc complete]. cbn [fst].
  destruct (read_transcript _ doc) as [t'|] eqn:E; [|done]. intros _. revert E.
  apply read_struct_no_repeat. intros d k x a a' Ha. unfold assign_transcript in Ha. member_cases Ha.
  eapply (read_vec_no_repeat read_entry); [apply read_entry_no_repeat | eassumption].
Qed.

(** ** The depth scan

    [Nested d bytes]: outside strings the brackets of [bytes] balance and nest
    [d] deep; a string ends at its first quote that is not escaped and has no
    raw newline.  The bytes of a JSON document are of this form. *)
Definition opening (a : ascii) : Prop := a = "{"%char \/ a = "["%char.
Definition closing (a : ascii) : Prop := a = "}"%char \/ a = "]"%char.
Definition quote : ascii := "034".
Definition line_feed : ascii := "010".

Inductive StringBody : list ascii -> Prop :=
| sb_nil : StringBody []
| sb_char a r : a <> quote -> a <> "\"%char -> a <> line_feed -> StringBody r -> StringBody (a :: r)
| sb_escape a r : a <> line_feed -> StringBody r -> StringBody ("\"%char :: a :: r).

Inductive Nested : Z -> list ascii -> Prop :=
| nest_nil : Nested 0 []
| nest_plain a : a <> quote -> ~ opening a -> ~ closing a -> Nested 0 [a]
| nest_string body : StringBody body -> Nested 0 (quote :: body ++ [quote])
| nest_app d d' a b : Nested d a -> Nested d' b -> Nested (Z.max d d') (a ++ b)
| nest_group d o a c : opening o -> closing c -> Nested d a -> Nested (d + 1) (o :: a ++ [c]).

Lemma nested_nonneg d bytes : Nested d bytes -> (0 <= d)%Z.
Proof. induction 1; lia. Qed.

Lemma scan_string max body rest k :
  StringBody body ->
  depth_scan max false (body ++ quote :: rest) (mkDepthScan k true false) = depth_scan max false rest (mkDepthScan k false false).
Proof.
  induction 1 as [|a r H1 H2 H3 _ IH|a r H1 _ IH]; cbn [app depth_scan]; [done| |].
  - unfold depth_step. cbn [ds_in_string ds_escaped ds_depth].
    rewrite (proj2 (Ascii.eqb_neq a "010") H3), (proj2 (Ascii.eqb_neq a "\") H2), (proj2 (Ascii.eqb_neq a "034") H1). done.
  - unfold depth_step at 1. cbn. unfold depth_step. cbn [ds_in_string ds_escaped ds_depth].
    rewrite (proj2 (Ascii.eqb_neq a "010") H1). done.
Qed.

Lemma scan_plain max a rest k :
  a <> quote -> ~ opening a -> ~ closing a ->
  depth_scan max false (a :: rest) (mkDepthScan k false false) = depth_scan max false rest (mkDepthScan k false false).
Proof.
  unfold opening, closing. intros Hq Ho Hc. cbn [depth_scan]. unfold depth_step. cbn [ds_in_string ds_escaped ds_depth].
  destruct (Ascii.eqb a "010"); [done|]. rewrite (proj2 (Ascii.eqb_neq a "034") Hq).
  destruct (Ascii.eqb_spec a "{"); [tauto|]. destruct (Ascii.eqb_spec a "["); [tauto|].
  destruct (Ascii.eqb_spec a "}"); [tauto|]. destruct (Ascii.eqb_spec a "]"); [tauto|]. done.
Qed.

Lemma scan_nested max d bytes rest k :
  Nested d bytes -> (0 <= k <= max)%Z ->
  depth_scan max false (bytes ++ rest) (mkDepthScan k false false) =
    if (max <? k + d)%Z then true else depth_scan max false rest (mkDepthScan k false false).
Proof.
  intros Hn. revert rest k.
  induction Hn as [|a Hq Ho Hc|body Hb|d d' a b Ha IHa Hb IHb|d o a c Ho Hc Ha IHa]; intros rest k Hk.
  - rewrite (proj2 (Z.ltb_ge _ _)) by lia. done.
  - rewrite (proj2 (Z.ltb_ge _ _)) by lia. by apply scan_plain.
  - rewrite (proj2 (Z.ltb_ge _ _)) by lia. cbn [app]. rewrite <- app_assoc. by apply (scan_string max body rest k).
  - rewrite <- app_assoc, IHa, IHb by done. apply nested_nonneg in Ha, Hb.
    destruct (Z.ltb_spec max (k + d)), (Z.ltb_spec max (k + d')), (Z.ltb_spec max (k + Z.max d d')); lia || done.
  - cbn [app]. rewrite <- app_assoc. apply nested_nonneg in Ha as Hd.
    assert (Eo : depth_scan max false (o :: a ++ [c] ++ rest) (mkDepthScan k false false) =
      if (max <? k + 1)%Z then true else depth_scan max false (a ++ [c] ++ rest) (mkDepthScan (k + 1) false false)).
    { destruct Ho as [-> | ->]; cbn; by destruct (max <? k + 1)%Z. }
    rewrite Eo. destruct (Z.ltb_spec max (k + 1)).
    + by rewrite (proj2 (Z.ltb_lt _ _)) by lia.
    + rewrite IHa by lia. replace (k + 1 + d)%Z with (k + (d + 1))%Z by lia. destruct (max <? k + (d + 1))%Z; [done|].
      destruct Hc as [-> | ->]; cbn; replace (Z.max 0 (k + 1 - 1))%Z with k by lia; done.
Qed.

Lemma scan_exact d bytes max :
  Nested d bytes -> (0 <= max)%Z -> exceeds_limit bytes max false = (max <? d)%Z.
Proof.
  intros Hn Hm. unfold exceeds_limit. rewrite <- (app_nil_r bytes), (scan_nested max d) by (done || lia).
  cbn [depth_scan]. rewrite Z.add_0_l. by destruct (max <? d)%Z.
Qed.

(** On a single document the byte scan that runs before any parsing
    refuses exactly what nests deeper than the limit: brackets inside strings,
    behind escaped quotes or next to newlines are not miscounted. *)
Theorem exceeds_limit_exact d bytes max :
  Nested d bytes -> (0 <= max)%Z -> exceeds_limit bytes max false = (max <? d)%Z.
Proof. apply scan_exact. Qed.

(** ** The parser returns *)

(** A string is shorter than the text it is read from: its quotes are gone and
    no escape is shorter than what it stands for. *)
Class JsonReaderLaws `{JsonReader} : Prop := {
  decoded_shorter text s : (json_document text).1 = DStr (Some s) -> String.length s < String.length text
}.

Section returns.
  Context `{Platform, JsonReaderLaws}.

Lemma extract_like_returns fuel value max :
    embedding_fuel value <= fuel -> exists r, extract_like fuel value max = Some r.
  Proof.
    revert value. induction fuel as [|fuel IH]; intros value Hf; destruct value as [| | |text| |map]; cbn [extract_like embedding_fuel] in *;
      try (by eexists); try (by destruct (_ || _); eexists); [lia|].
    destruct (match max with Some limit => _ | None => _ end); [by eexists|].
    destruct (from_str read_unique text) as [v|[]] eqn:E; [|by eexists..].
    apply IH. assert (Hs := decoded_shorter text). unfold from_str in E.
    destruct (json_document text) as [doc complete]. cbn [fst] in Hs.
    destruct (read_unique RECURSION_LIMIT doc) as [v'|] eqn:Er; [|done]. destruct complete; [|done]. injection E as ->.
    destruct v as [| | |s| |]; cbn [embedding_fuel]; try lia.
    apply read_decodes in Er. inversion Er; subst. specialize (Hs s eq_refl). lia.
  Qed.

Lemma entries_loop_returns label endpoint max slots idx entries :
    exists r, entries_loop label endpoint max slots idx entries = Some r.
  Proof.
    revert idx. induction entries as [|e entries IH]; intros idx; cbn [entries_loop]; [by eexists|].
    assert (He : exists r, entry_event label endpoint max (idx + 1) e = Some r).
    { unfold entry_event. destruct (negb _); [by eexists|].
      destruct (te_request e); [by eexists|]. destruct (te_response e); [by eexists|].
      destruct (te_sse e) as [sse|]; [|by eexists]. unfold extract_jsonrpc_from_sse.
      destruct (_ && _); [by eexists|]. destruct (negb _); [by eexists|].
      unfold extract_jsonrpc_like_value. destruct (extract_like_returns _ (se_data sse) max (le_n _)) as [r ->].
      destruct r as [[v|]|]; by eexists. }
    destruct He as [[o|er] ->]; [|by eexists]. destruct (IH (idx + 1)%Z) as [[[out envs]|er] ->]; by eexists.
  Qed.

Lemma parse_events_returns text format max : exists r, parse_events_with_envelopes text format max = Some r.
  Proof.
    unfold parse_events_with_envelopes, parse_transport_transcript_detailed. destruct format; try (by eexists);
      (destruct (from_str read_transcript text) as [t|]; [|by eexists]); (destruct (negb _); [by eexists|]);
      apply entries_loop_returns.
  Qed.

Lemma detailed_returns text format max :
    exists r, parse_mcp_transcript_detailed_internal text format max = Some r.
  Proof.
    unfold parse_mcp_transcript_detailed_internal.
    destruct (parse_events_returns text format max) as [[[events envelopes]|e] ->]; by eexists.
  Qed.

(** The parser returns on every text, in every format: documents nested
    in the strings of stream frames end because each is shorter than the text
    it came from. *)
Theorem parse_returns text format max :
    exists r, parse_mcp_transcript_detailed_internal text format max = Some r.
  Proof. apply detailed_returns. Qed.
End returns.
