(* ===== verification/McpEnvelope.v ===== *)
(** * What a message says about its version

    Declarative readings of the places where a transcript names a protocol
    version, the header maps around an entry and the metadata of a request, and
    what the parser's observations of them imply. *)
From stdpp Require Import base tactics list strings gmap.
From Stdlib Require Import ZArith Lia Ascii.
From S2P Require Import Prelude RustStr Json Platform Era JsonDoc McpParser McpParserCorrect.

(** ** Headers *)

(** A header map, when it is there, is an object; it names [v] when it has a
    slot of the version header, in any case, and every such slot is [v]. *)
Definition header_names (headers : option Value) (v : string) : Prop :=
  exists map, headers = Some (Obj map) /\ protocol_slots map <> [] /\ Forall (eq (Str v)) (protocol_slots map).
Definition header_silent (headers : option Value) : Prop :=
  headers = None \/ exists map, headers = Some (Obj map) /\ protocol_slots map = [].

(** A transport context, when it is there, is an object, with a header map or
    without one. *)
Definition context_headers (ctx headers : option Value) : Prop :=
  (ctx = None /\ headers = None) \/ exists map, ctx = Some (Obj map) /\ headers = map_get map "headers".

(** The four header maps around an entry agree on [v] or are all silent. *)
Definition EnvelopeNames (t : TransportTranscript) (entry : TransportTranscriptEntry) (version : option string) : Prop :=
  exists outer inner, context_headers (tt_transport_context t) outer /\ context_headers (te_transport_context entry) inner /\
    let places := [outer; tt_headers t; inner; te_headers entry] in
    match version with
    | Some v => Forall (fun p => header_names p v \/ header_silent p) places /\ Exists (fun p => header_names p v) places
    | None => Forall header_silent places
    end.

(** A slot of the fold, and the map it was read from. *)
Lemma header_slot headers :
  (observe_header headers = None -> header_silent headers) /\
  (forall v, observe_header headers = Some (EnvPresent v) -> header_names headers v).
Proof.
  split.
  - destruct headers as [h|]; [|by left]. unfold observe_header. destruct (as_object h) as [map|] eqn:E; [|done].
    destruct (is_nil (protocol_slots map)) eqn:En; [|done]. intros _. right. exists map.
    split; [by destruct h; simplify_eq/=|]. by apply is_nil_true.
  - intros v. destruct headers as [h|]; [|done]. intros (map & -> & _ & Hn & Hf)%observe_header_present. by exists map.
Qed.

Lemma context_slot ctx :
  (observe_transport_context ctx = None \/ exists v, observe_transport_context ctx = Some (EnvPresent v)) ->
  exists headers, context_headers ctx headers /\ observe_transport_context ctx = observe_header headers.
Proof.
  unfold observe_transport_context. destruct ctx as [c|]; [|exists None; split; [by left|done]].
  destruct (as_object c) as [map|] eqn:E; [|by intros [|[]]]. intros _. exists (map_get map "headers").
  split; [|done]. right. exists map. split; [by destruct c; simplify_eq/=|done].
Qed.

(** Slots that all carry [v] were read from maps that name it or are silent. *)
Lemma slot_agrees (o : option EnvelopeObservation) v :
  Forall (eq (EnvPresent v)) (option_list o) -> o = None \/ o = Some (EnvPresent v).
Proof. destruct o as [o|]; [|by left]. intros Hf. apply Forall_inv in Hf as <-. by right. Qed.

Lemma slots_name t entry v :
  fold_envelope (entry_slots (tt_transport_context t) (tt_headers t) ++
    entry_slots (te_transport_context entry) (te_headers entry)) true = EnvPresent v ->
  EnvelopeNames t entry (Some v).
Proof.
  intros (Hn & Hf)%(proj1 (fold_envelope_spec _ _)). unfold entry_slots in *. rewrite !Forall_app in Hf.
  destruct Hf as [[H1%slot_agrees H2%slot_agrees] [H3%slot_agrees H4%slot_agrees]].
  destruct (context_slot (tt_transport_context t)) as (outer & Hc1 & E1); [naive_solver|].
  destruct (context_slot (te_transport_context entry)) as (inner & Hc3 & E3); [naive_solver|].
  exists outer, inner. split_and!; [done..|]. rewrite E1 in *. rewrite E3 in *.
  assert (Hp : forall p, observe_header p = None \/ observe_header p = Some (EnvPresent v) ->
    header_names p v \/ header_silent p) by (intros p [Hs|Hs]; [right|left]; by apply header_slot).
  split; [rewrite !Forall_cons, Forall_nil; split_and!; [by apply Hp..|done]|].
  destruct H1 as [H1|H1]; [|by left; apply header_slot]. right.
  destruct H2 as [H2|H2]; [|by left; apply header_slot]. right.
  destruct H3 as [H3|H3]; [|by left; apply header_slot]. right.
  destruct H4 as [H4|H4]; [|by left; apply header_slot]. by rewrite H1, H2, H3, H4 in Hn.
Qed.

Lemma slots_silent t entry :
  fold_envelope (entry_slots (tt_transport_context t) (tt_headers t) ++
    entry_slots (te_transport_context entry) (te_headers entry)) true = EnvAbsent ->
  EnvelopeNames t entry None.
Proof.
  unfold fold_envelope. destruct (is_nil _) eqn:En.
  - intros _. apply is_nil_true in En. unfold entry_slots in En. rewrite !app_nil in En.
    assert (Ho : forall o : option EnvelopeObservation, option_list o = [] -> o = None) by (by intros []).
    destruct En as [[H1%Ho H2%Ho] [H3%Ho H4%Ho]].
    destruct (context_slot (tt_transport_context t)) as (outer & Hc1 & E1); [by left|].
    destruct (context_slot (te_transport_context entry)) as (inner & Hc3 & E3); [by left|].
    exists outer, inner. rewrite E1 in H1. rewrite E3 in H3. split_and!; [done..|].
    rewrite !Forall_cons, Forall_nil. split_and!; (done || by apply header_slot).
  - intros Hf. destruct (fold_slots_cases None (entry_slots (tt_transport_context t) (tt_headers t) ++
      entry_slots (te_transport_context entry) (te_headers entry))) as [E|[v E]]; congruence.
Qed.

(** ** Request metadata *)

(** The version that the metadata of a request name, if they name one. *)
Definition MetadataNames (raw : Value) (version : option string) : Prop :=
  match version with
  | Some v => exists params meta, vget raw "params" = Some (Obj params) /\ map_get params "_meta" = Some (Obj meta) /\
      map_get meta PROTOCOL_VERSION_META_KEY = Some (Str v)
  | None => vget raw "params" = None \/
      exists params, vget raw "params" = Some (Obj params) /\
        (map_get params "_meta" = None \/
         exists meta, map_get params "_meta" = Some (Obj meta) /\ map_get meta PROTOCOL_VERSION_META_KEY = None)
  end.

Lemma metadata_names raw :
  (forall v, observe_request_metadata raw = MetaPresent v -> MetadataNames raw (Some v)) /\
  (observe_request_metadata raw = MetaAbsent -> MetadataNames raw None).
Proof.
  unfold observe_request_metadata, MetadataNames. destruct (vget raw "params") as [[| | | | |params]|]; cbn [is_object negb vget];
    try (by split; [|auto]).
  destruct (map_get params "_meta") as [[| | | | |meta]|] eqn:Em; cbn [is_object negb vget]; try (by split; [|eauto]).
  destruct (map_get meta PROTOCOL_VERSION_META_KEY) as [w|] eqn:Ev; [|split; [done|eauto 8]].
  destruct (as_str w) as [s|] eqn:Es; [|done]. assert (w = Str s) as -> by (destruct w; by simplify_eq/=).
  destruct (is_version_shaped s); [|done]. split; [|done]. intros v [= <-]. eauto 8.
Qed.

(** ** Results *)

(** Input is asked for in a way that can be answered: a state or requests are
    given, and neither member is of another type. *)
Definition continues (result : Map) : Prop :=
  let state := map_get result "requestState" in
  let requests := map_get result "inputRequests" in
  (silent result "requestState" \/ exists s, state = Some (Str s)) /\
  (silent result "inputRequests" \/ exists m, requests = Some (Obj m)) /\
  ((exists s, state = Some (Str s)) \/ exists m, requests = Some (Obj m)).

Lemma continuation_present result : continuation_shape (Obj result) = ContPresent -> continues result.
Proof.
  unfold continuation_shape, continues, silent. cbn [vget].
  destruct (map_get result "requestState") as [[]|], (map_get result "inputRequests") as [[]|]; cbn; intros; simplify_eq;
    split_and!; eauto.
Qed.

(** What an accepted result says under version [v]. *)
Definition ResultReadable (v : string) (raw : Value) : Prop :=
  exists result, vget raw "result" = Some (Obj result) /\
    ((map_get result "resultType" = Some (Str "complete") /\ silent result "requestState" /\ silent result "inputRequests") \/
     (map_get result "resultType" = Some (Str "input_required") /\ continues result) \/
     (map_get result "resultType" = None /\ str_leb RESULT_TYPE_SINCE v = false)).

Lemma observe_result_input raw :
  observe_result raw = Some InputRequired ->
  exists result, vget raw "result" = Some (Obj result) /\ map_get result "resultType" = Some (Str "input_required") /\
    continues result.
Proof.
  unfold observe_result. destruct (vget raw "result") as [r|]; [|done].
  destruct r as [| | | | |result]; cbn [is_object negb vget]; try done.
  destruct (map_get result "resultType") as [v|] eqn:Ev; [|done]. destruct (as_str v) as [s|] eqn:Es; [|done].
  assert (v = Str s) as -> by (destruct v; by simplify_eq/=).
  destruct (String.eqb_spec s "complete"); [by destruct (continuation_shape _)|].
  destruct (String.eqb_spec s "input_required") as [->|]; [|done].
  destruct (continuation_shape (Obj result)) eqn:Ec; try done. intros _. exists result.
  split_and!; [done..|]. by apply continuation_present.
Qed.

Lemma result_readable v raw observed :
  observe_result raw = Some observed ->
  observed = Complete \/ observed = InputRequired \/ (observed = Missing /\ requires_result_type v = false) ->
  ResultReadable v raw.
Proof.
  intros Ho [-> | [-> | [-> Hv]]].
  - apply observe_result_complete in Ho as (m & ? & ? & ? & ?). exists m. eauto.
  - apply observe_result_input in Ho as (m & ? & ? & ?). exists m. eauto.
  - apply observe_result_missing in Ho as (m & ? & ?). exists m. eauto.
Qed.

(** ** The envelope of an event *)

Section events.
Context `{Platform, JsonReader}.

Lemma message_line v line ts auth e : parse_jsonrpc_message v line ts auth = Ok e -> me_source_line e = line.
Proof.
  unfold parse_jsonrpc_message. destruct (negb (is_object v)); [done|]. destruct (negb _); [done|].
  destruct (classify_message v) as [kind|]; [|done]. destruct (message_id kind v line) as [id|]; cbn; [|done].
  by intros [= <-].
Qed.

Lemma entry_event_line label endpoint max line entry e :
  entry_event label endpoint max line entry = Some (Ok (Some e)) -> me_source_line e = line.
Proof.
  unfold entry_event. destruct (negb _); [done|].
  destruct (te_request entry) as [request|].
  { destruct (parse_jsonrpc_message _ _ _ _) eqn:E; cbn; [|done]. intros [= <-]. by eapply message_line. }
  destruct (te_response entry) as [response|].
  { destruct (parse_jsonrpc_message _ _ _ _) eqn:E; cbn; [|done]. intros [= <-]. by eapply message_line. }
  destruct (te_sse entry) as [sse|]; [|done].
  destruct (extract_jsonrpc_from_sse _ _ _) as [[[j|]|]|]; [|done..].
  destruct (parse_jsonrpc_message _ _ _ _) eqn:E; cbn; [|done]. intros [= <-]. by eapply message_line.
Qed.

(** Each event of a framed transcript comes from an entry, whose envelope is
    the one kept at its place. *)
Lemma entries_envelopes label endpoint max slots entries : forall idx events envelopes e,
  (0 <= idx)%Z ->
  entries_loop label endpoint max slots idx entries = Some (Ok (events, envelopes)) -> e ∈ events ->
  exists i entry, entries !! i = Some entry /\ me_source_line e = (idx + Z.of_nat i + 1)%Z /\
    envelopes !! i = Some (fold_envelope (slots ++ entry_slots (te_transport_context entry) (te_headers entry)) true).
Proof.
  induction entries as [|entry entries IH]; intros idx events envelopes e Hidx; cbn [entries_loop].
  - intros [= <- <-] He. by apply elem_of_nil in He.
  - destruct (entry_event _ _ _ _ entry) as [[event|]|] eqn:Ee; [|done..].
    destruct (entries_loop _ _ _ _ _ entries) as [[[out envs]|]|] eqn:El; [|done..].
    intros [= <- <-] [He|He]%elem_of_app.
    + destruct event as [e'|]; [|by apply elem_of_nil in He]. apply list_elem_of_singleton in He as ->.
      exists 0, entry. split_and!; [done| |done]. apply entry_event_line in Ee as ->. lia.
    + destruct (IH (idx + 1)%Z out envs e) as (i & entry' & Hi & Hl & Hv); [lia|done..|]. exists (S i), entry'.
      split_and!; [done|lia|done].
Qed.

Lemma envelope_framed slots : fold_envelope slots true <> NotApplicable.
Proof.
  unfold fold_envelope. destruct (is_nil slots); [done|]. destruct (fold_slots_cases None slots) as [->|[v ->]]; done.
Qed.

(** The version that the surroundings of an event name: nothing in a stream of
    plain messages, the header maps around its entry in a framed transcript. *)
Definition SurroundingsName (text : string) (format : McpInputFormat) (e : McpEvent) (version : option string) : Prop :=
  if is_framed format then
    exists t i entry, from_str read_transcript text = Ok t /\ tt_entries t !! i = Some entry /\
      me_source_line e = (Z.of_nat i + 1)%Z /\ EnvelopeNames t entry version
  else version = None.

Lemma envelope_names text format depth events envelopes e framed_envelope :
  parse_events_with_envelopes text format depth = Some (Ok (events, envelopes)) -> e ∈ events ->
  framed_envelope = (if is_framed format then default EnvMalformed (envelopes !! Z.to_nat (Z.max 0 (me_source_line e - 1)))
                     else NotApplicable) ->
  (forall v, framed_envelope = EnvPresent v -> SurroundingsName text format e (Some v)) /\
  (framed_envelope = EnvAbsent \/ framed_envelope = NotApplicable -> SurroundingsName text format e None).
Proof.
  intros Hp He ->. unfold SurroundingsName. destruct (is_framed format) eqn:Ef; [|split; [done|auto]].
  assert (Hd : exists t label endpoint, from_str read_transcript text = Ok t /\
    entries_loop label endpoint depth (entry_slots (tt_transport_context t) (tt_headers t)) 0 (tt_entries t)
      = Some (Ok (events, envelopes))).
  { destruct format; try discriminate Ef; cbn [parse_events_with_envelopes] in Hp;
      unfold parse_transport_transcript_detailed in Hp; destruct (from_str read_transcript text) as [t|]; try done;
      destruct (negb _); try done; eauto. }
  destruct Hd as (t & label & endpoint & Et & El).
  destruct (entries_envelopes _ _ _ _ _ _ _ _ e ltac:(done) El He) as (i & entry & Hi & Hl & Hv).
  rewrite Hl. replace (Z.to_nat (Z.max 0 (0 + Z.of_nat i + 1 - 1))) with i by lia. rewrite Hv. cbn [default].
  split.
  - intros v Hn. exists t, i, entry. split_and!; [done..|lia|by apply slots_name].
  - intros [Hn|Hn].
    + exists t, i, entry. split_and!; [done..|lia|by apply slots_silent].
    + by apply envelope_framed in Hn.
Qed.

(** The one supported version that a message and its surroundings name: at least
    one of them does, and they do not name different ones. *)
Definition SpokenVersion (text : string) (format : McpInputFormat) (e : McpEvent) (v : string) : Prop :=
  v ∈ SUPPORTED_VERSIONS /\ exists around own,
    SurroundingsName text format e around /\
    match classify_message (payload_raw (me_payload e)) with
    | Ok (Request _) => MetadataNames (payload_raw (me_payload e)) own
    | _ => own = None
    end /\
    (around = Some v \/ own = Some v) /\ (around = None \/ around = Some v) /\ (own = None \/ own = Some v).

End events.
