(* ===== verification/McpIngest.v ===== *)
(** * Bounded ingest of MCP transcripts

    [mcp/ingest.rs] of [assay-core]: the ceilings on untrusted transcript bytes
    (source, depth, line, events), the counting pass over the container array,
    the parser under them, and the refusal of every request and result whose
    reading under its era is open or invalid. *)
From stdpp Require Import base tactics list strings gmap.
From Stdlib Require Import ZArith Lia Ascii.
From S2P Require Import Prelude RustStr Json Platform PolicyTypes BoundedIo Bundle Era JsonDoc McpParser McpParserCorrect McpEnvelope.

(** ** Limits and errors *)

Record McpTranscriptLimits : Type := mkTranscriptLimits {
  tl_max_source_bytes : Z;
  tl_max_line_bytes : Z;
  tl_max_events : Z;
  tl_max_json_depth : Z
}.
Definition transcript_limits_default : McpTranscriptLimits :=
  mkTranscriptLimits (16 * 1024 * 1024) (1024 * 1024) 100000 64.

Inductive McpTranscriptIngestError : Type :=
| IngestSourceBytes (limit : Z)
| IngestLineBytes (limit : Z)
| IngestEvents (limit : Z)
| IngestJsonDepth (limit : Z)
| IngestInvalidUtf8
| IngestReadFailed
| IngestInvalidTranscript
| ConclusionIncomplete
| ConclusionInvalid.

(** ** The ceilings *)

(** [bytes.split(|b| b == b'\n')] *)
Fixpoint split_lines (bytes : bytes) : list (list ascii) :=
  match bytes with
  | [] => [[]]
  | b :: r =>
      if Ascii.eqb b "010" then [] :: split_lines r
      else match split_lines r with
           | l :: ls => (b :: l) :: ls
           | [] => [[b]]
           end
  end.

Definition check_jsonl_lines (bytes : bytes) (max_line_bytes : Z) : Result () McpTranscriptIngestError :=
  if existsb (fun line => (max_line_bytes <? byte_len line)%Z) (split_lines bytes)
  then Err (IngestLineBytes max_line_bytes) else Ok ().

Definition check_json_depth (bytes : bytes) (format : McpInputFormat) (max_json_depth : Z)
    : Result () McpTranscriptIngestError :=
  if exceeds_limit bytes max_json_depth (match format with JsonRpc => true | _ => false end)
  then Err (IngestJsonDepth max_json_depth) else Ok ().

Inductive CountOutcome : Type := WithinLimit | OverLimit.

(** [CountSeed::count].  When it stops early the reader has elements left,
    which [serde_json] refuses at the end of the array. *)
Fixpoint count_elements (max_events count : Z) (l : list Doc) (closed : bool) : Result CountOutcome Category :=
  match l with
  | [] => if closed then Ok WithinLimit else Err Syntax
  | x :: r =>
      match skip x with
      | Err e => Err e
      | Ok _ =>
          let count := (count + 1)%Z in
          if (max_events <? count)%Z then if is_nil r && closed then Ok OverLimit else Err Syntax
          else count_elements max_events count r closed
      end
  end.

(** [drain_map]: the keys are decoded, the values skipped. *)
Definition drain_map (m : list (option string * Doc)) (closed : bool) : Result () Category :=
  read_members (fun _ x _ => skip x) m closed ().

(** [CountSeed] on the value of the array's key. *)
Definition count_value (max_events : Z) (d : nat) (doc : Doc) : Result CountOutcome Category :=
  match doc with
  | DNull | DBool _ | DNum (Some _) | DStr (Some _) => Ok WithinLimit
  | DNum None | DStr None | DBad => Err Syntax
  | DArr l closed => match enter d with None => Err Syntax | Some _ => count_elements max_events 0 l closed end
  | DObj m closed =>
      match enter d with
      | None => Err Syntax
      | Some _ => match drain_map m closed with Ok _ => Ok WithinLimit | Err e => Err e end
      end
  end.

(** [visit_map] of [ContainerVisitor]; the early return leaves members that
    [serde_json] refuses. *)
Fixpoint container_members (array_key : string) (max_events : Z) (d : nat)
    (m : list (option string * Doc)) (closed : bool) (outcome : CountOutcome) : Result CountOutcome Category :=
  match m with
  | [] => if closed then Ok outcome else Err Syntax
  | (None, _) :: _ => Err Syntax
  | (Some key, x) :: r =>
      if String.eqb key array_key then
        match count_value max_events d x with
        | Err e => Err e
        | Ok OverLimit => if is_nil r && closed then Ok OverLimit else Err Syntax
        | Ok observed => container_members array_key max_events d r closed observed
        end
      else
        match skip x with
        | Err e => Err e
        | Ok _ => container_members array_key max_events d r closed outcome
        end
  end.

Definition visit_container (array_key : string) (root_array_is_target : bool) (max_events : Z) (doc : Doc)
    : Result CountOutcome Category :=
  match doc with
  | DNull | DBool _ | DNum (Some _) | DStr (Some _) => Ok WithinLimit
  | DNum None | DStr None | DBad => Err Syntax
  | DArr l closed =>
      if root_array_is_target then count_elements max_events 0 l closed
      else match read_elements (fun x _ => skip x) l closed () with Ok _ => Ok WithinLimit | Err e => Err e end
  | DObj m closed =>
      match enter RECURSION_LIMIT with
      | None => Err Syntax
      | Some d => container_members array_key max_events d m closed WithinLimit
      end
  end.

(** [u8::is_ascii_whitespace]. *)
Definition is_ascii_whitespace (a : ascii) : bool := existsb (Ascii.eqb a) ["032"; "009"; "010"; "012"; "013"]%char.

Section ingest.
  Context `{Platform, JsonReader}.

Definition count_container_array (bytes : bytes) (array_key : string) (root_array_is_target : bool) (max_events : Z)
      : Result CountOutcome McpTranscriptIngestError :=
    match visit_container array_key root_array_is_target max_events (json_document (to_str bytes)).1 with
    | Ok o => Ok o
    | Err _ => Err IngestInvalidTranscript
    end.

Definition event_lines (bytes : bytes) : list (list ascii) :=
    List.filter (fun line => negb (forallb is_ascii_whitespace line)) (split_lines bytes).

Definition check_event_count (bytes : bytes) (format : McpInputFormat) (max_events : Z)
      : Result () McpTranscriptIngestError :=
    let? count :=
      match format with
      | JsonRpc =>
          Ok (if (max_events <? Z.of_nat (length (event_lines bytes)))%Z then OverLimit else WithinLimit)
      | Inspector => count_container_array bytes "events" true max_events
      | StreamableHttp | HttpSse => count_container_array bytes "entries" false max_events
      end in
    match count with
    | WithinLimit => Ok ()
    | OverLimit => Err (IngestEvents max_events)
    end.

(** ** The readings *)

(** One entry of the last loop. *)
Definition check_entry_conclusions (entry : ParsedMcpEvent) : Outcome (Result () McpTranscriptIngestError) :=
    if pm_is_error_response entry then mret (Ok ())
    else
      let cx := pm_context entry in
      request ←
        match cx_request_metadata cx with
        | None => mret (Ok ())
        | Some metadata =>
            a ← conclude_request (cx_era cx) metadata (cx_capability_observation cx);
            mret match a with
                 | RequestValid => Ok ()
                 | RequestIncomplete _ => Err ConclusionIncomplete
                 | RequestInvalid _ => Err ConclusionInvalid
                 end
        end;
      match request with
      | Err e => mret (Err e)
      | Ok _ =>
          match cx_result_observation cx with
          | None => mret (Ok ())
          | Some result =>
              c ← conclude (cx_era cx) result (cx_capability_observation cx);
              mret match c with
                   | Terminal | NonTerminal => Ok ()
                   | Incomplete _ => Err ConclusionIncomplete
                   | Invalid _ => Err ConclusionInvalid
                   end
          end
      end.

Fixpoint check_conclusions (parsed : list ParsedMcpEvent) : Outcome (Result () McpTranscriptIngestError) :=
    match parsed with
    | [] => mret (Ok ())
    | entry :: rest =>
        r ← check_entry_conclusions entry;
        match r with
        | Err e => mret (Err e)
        | Ok _ => check_conclusions rest
        end
    end.

Definition ingest_error_of (limits : McpTranscriptLimits) (error : ParseError) : McpTranscriptIngestError :=
    match error with
    | EmbeddedJsonDepthExceeded => IngestJsonDepth (tl_max_json_depth limits)
    | _ => IngestInvalidTranscript
    end.

(** What is done before the parser: the text. *)
Definition bounded_text (reader : Source) (format : McpInputFormat) (limits : McpTranscriptLimits)
      : Result string McpTranscriptIngestError :=
    let? bytes :=
      match limited (tl_max_source_bytes limits) SourceBytes (concat (pieces reader)) (failure reader) with
      | Ok bytes => Ok bytes
      | Err error =>
          match from_io error with
          | Some e => Err (IngestSourceBytes (le_limit e))
          | None => Err IngestReadFailed
          end
      end in
    let? _ := check_json_depth bytes format (tl_max_json_depth limits) in
    let? _ := match format with
              | JsonRpc => check_jsonl_lines bytes (tl_max_line_bytes limits)
              | _ => Ok ()
              end in
    match from_utf8 bytes with
    | None => Err IngestInvalidUtf8
    | Some _ =>
        let? _ := check_event_count bytes format (tl_max_events limits) in
        Ok (to_str bytes)
    end.

Definition parse_mcp_transcript_bounded (reader : Source) (format : McpInputFormat) (limits : McpTranscriptLimits)
      : option (Outcome (Result (list McpEvent) McpTranscriptIngestError)) :=
    match bounded_text reader format limits with
    | Err e => Some (Done (Err e))
    | Ok text =>
        match parse_mcp_transcript_detailed_with_depth text format (tl_max_json_depth limits) with
        | None => None
        | Some (Err error) => Some (Done (Err (ingest_error_of limits error)))
        | Some (Ok parsed) =>
            Some (r ← check_conclusions parsed;
                  mret match r with
                       | Err e => Err e
                       | Ok _ => Ok (pm_event <$> parsed)
                       end)
        end
    end.
End ingest.

(** ** Blank lines *)

Definition blank_line (s : string) : bool := str_forall is_ascii_whitespace s.

Lemma ascii_whitespace_char a :
  is_ascii_whitespace a = true -> is_ascii_byte a = true /\ is_whitespace (String a EmptyString) = true.
Proof.
  unfold is_ascii_whitespace. rewrite existsb_true. intros (x & Hx & ->%Ascii.eqb_eq).
  by repeat (apply elem_of_cons in Hx as [-> | Hx]; [done|]); inversion Hx.
Qed.

Lemma blank_ascii s : blank_line s = true -> is_ascii s = true.
Proof.
  induction s as [|a s IH]; [done|]. unfold blank_line, is_ascii in *. simpl. intros [Ha Hs]%andb_true_iff.
  apply ascii_whitespace_char in Ha as [-> _]. by apply IH.
Qed.

Lemma blank_line_chars n s : blank_line s = true -> Forall (fun c => is_whitespace c = true) (chars_fuel n s).
Proof.
  revert s. induction n as [|n IH]; intros s Hb; [constructor|].
  destruct s as [|a s]; [constructor|]. apply blank_ascii in Hb as Ha. apply is_ascii_cons in Ha as [_ Ha].
  cbn [chars_fuel]. rewrite uncons_char_ascii by done.
  unfold blank_line in Hb. simpl in Hb. apply andb_true_iff in Hb as [Hw Hs].
  constructor; [by apply ascii_whitespace_char | by apply IH].
Qed.

Lemma drop_while_nil {A} (f : A -> bool) l : Forall (fun x => f x = true) l -> drop_while f l = [].
Proof. induction 1 as [|x l Hx _ IH]; simpl; [done|]. by rewrite Hx. Qed.

Lemma blank_trim s : blank_line s = true -> str_trim s = EmptyString.
Proof. intros Hb. unfold str_trim, chars. by rewrite (drop_while_nil _ (chars_fuel _ s)) by by apply blank_line_chars. Qed.

Definition event_strings (l : list string) : list string := List.filter (fun s => negb (blank_line s)) l.

Lemma blank_strip_cr s : blank_line s = true -> blank_line (strip_cr s) = true.
Proof.
  unfold blank_line. induction s as [|a s IH]; [done|]. simpl. intros [Ha Hs]%andb_true_iff.
  destruct s as [|b s]; [destruct (Ascii.eqb a "013"); simpl; [done | by rewrite Ha]|].
  cbn [str_forall]. rewrite Ha. by apply IH.
Qed.

Lemma event_lines_of l : length (event_strings (kept_lines l)) <= length (event_strings l).
Proof.
  unfold event_strings. induction l as [|p l IH]; [done|]. destruct l as [|q l].
  - simpl. destruct p; simpl; [lia|]. lia.
  - change (kept_lines (p :: q :: l)) with (strip_cr p :: kept_lines (q :: l)).
    set (L := kept_lines (q :: l)) in *. set (R := q :: l) in *. cbn [List.filter].
    assert (Hb := blank_strip_cr p).
    destruct (blank_line p), (blank_line (strip_cr p)); cbn [negb length]; lia || by specialize (Hb eq_refl).
Qed.

Lemma split_lines_str b : to_str <$> split_lines b = str_split "010" (to_str b).
Proof.
  induction b as [|a b IH]; [done|]. cbn [split_lines to_str String.string_of_list_ascii str_split].
  change (String.string_of_list_ascii b) with (to_str b). rewrite <- IH.
  destruct (Ascii.eqb a "010"); [done|]. by destruct (split_lines b).
Qed.

Lemma blank_bytes l : blank_line (to_str l) = forallb is_ascii_whitespace l.
Proof. unfold blank_line. induction l as [|a l IH]; [done|]. simpl. by rewrite <- IH. Qed.

Lemma event_lines_str b : length (event_strings (str_split "010" (to_str b))) = length (event_lines b).
Proof.
  rewrite <- split_lines_str. unfold event_strings, event_lines.
  induction (split_lines b) as [|l ls IH]; [done|]. cbn [fmap list_fmap List.filter].
  rewrite blank_bytes. by destruct (forallb is_ascii_whitespace l); cbn [negb length]; rewrite IH.
Qed.

Section accepted.
  Context `{Platform, JsonReaderLaws}.

Lemma jsonl_events lineno lines events :
    jsonl_loop lineno lines = Ok events -> length events <= length (event_strings lines).
  Proof.
    revert lineno events. induction lines as [|l lines IH]; intros lineno events; cbn [jsonl_loop]; [by intros [= <-]|].
    unfold event_strings. cbn [List.filter]. assert (Hb := blank_trim l).
    destruct (str_is_empty (str_trim l)) eqn:Et.
    - intros Hl%IH. unfold event_strings in Hl. destruct (negb _); simpl; lia.
    - destruct (from_str read_unique _) as [v|]; [|done]. destruct (parse_jsonrpc_message _ _ _ _) as [e|]; [|done].
      destruct (jsonl_loop _ lines) as [out|] eqn:E; [|done]. intros [= <-]. apply IH in E. unfold event_strings in E.
      destruct (blank_line l); [by rewrite Hb in Et|]. simpl. lia.
  Qed.

(** ** Counting and parsing see the same array *)

Lemma count_elements_within max l closed count :
    count_elements max count l closed = Ok WithinLimit -> (count <= max)%Z -> (count + Z.of_nat (length l) <= max)%Z.
  Proof.
    revert count. induction l as [|x l IH]; intros count; cbn [count_elements length]; [lia|].
    destruct (skip x); [|done]. destruct (Z.ltb_spec max (count + 1)); [by destruct (_ && _)|].
    intros Hl%IH Hc; lia.
  Qed.

Lemma container_counts key max d m closed outcome :
    container_members key max d m closed outcome = Ok WithinLimit ->
    Forall (fun e => e.1 = Some key -> count_value max d e.2 = Ok WithinLimit) m.
  Proof.
    revert outcome. induction m as [|[[k|] x] m IH]; intros outcome; cbn [container_members]; [constructor| |done].
    destruct (String.eqb_spec k key) as [->|Hne].
    - destruct (count_value max d x) as [[]|] eqn:E; [|by destruct (_ && _)|done]. intros Hm.
      constructor; [by intros _ | by eapply IH].
    - destruct (skip x); [|done]. intros Hm. constructor; [by intros [= Heq] | by eapply IH].
  Qed.

Lemma count_value_within max d d' doc l :
    count_value max d doc = Ok WithinLimit -> (0 <= max)%Z -> Decodes d' doc (Arr l) -> (Z.of_nat (length l) <= max)%Z.
  Proof.
    intros Hc Hm Hd. inversion Hd as [| | | |? ? ds ? _ HF|]; subst. cbn [count_value] in Hc.
    destruct (enter d); [|done]. apply count_elements_within in Hc; [|done].
    apply Forall2_length in HF. lia.
  Qed.

Lemma inspector_length idx items events : inspector_loop idx items = Ok events -> length events = length items.
  Proof.
    revert idx events. induction items as [|x items IH]; intros idx events; cbn [inspector_loop]; [by intros [= <-]|].
    destruct (parse_jsonrpc_message _ _ _ _); [|done]. destruct (inspector_loop _ items) eqn:E; [|done].
    intros [= <-]. simpl. f_equal. by eapply IH.
  Qed.

Lemma inspector_counted max doc v :
    visit_container "events" true max doc = Ok WithinLimit -> (0 <= max)%Z ->
    Decodes RECURSION_LIMIT doc v -> (Z.of_nat (length (inspector_items v)) <= max)%Z.
  Proof.
    intros Hc Hm Hd. destruct v as [| | | |l|m]; try (simpl; lia).
    - unfold inspector_items. cbn [vget option_or mbind option_bind as_array default].
      inversion Hd as [| | | |? ? ds ? _ HF|]; subst. cbn [visit_container] in Hc.
      apply count_elements_within in Hc; [|done]. apply Forall2_length in HF. unfold id. lia.
    - unfold inspector_items. cbn [vget].
      destruct (map_get m "events") as [x|] eqn:E; cbn [option_or mbind option_bind]; [|simpl; lia].
      destruct x as [| | | |l|]; cbn [as_array default]; try (simpl; lia). unfold id.
      inversion Hd as [| | | | |? d' dm ? _ HF]; subst. unfold visit_container in Hc.
      apply map_get_Some_elem in E.
      destruct (enter RECURSION_LIMIT) as [d|]; [|done]. apply container_counts in Hc.
      apply list_elem_of_lookup in E as [i Hi]. destruct (Forall2_lookup_r _ _ _ _ _ HF Hi) as (e & He & Hk & Hdec).
      eapply Forall_lookup_1 in Hc; [|exact He]. eapply count_value_within; [by apply Hc | done | exact Hdec].
  Qed.

(** The elements a vector reader keeps are those of the array. *)
Lemma read_vec_length {A} (read : nat -> Doc -> Result A Category) d doc out :
    read_vec read d doc = Ok out -> exists l closed, doc = DArr l closed /\ length out = length l.
  Proof.
    unfold read_vec. destruct doc as [| | | |l closed| |]; try done. destruct (enter d) as [d'|]; [|done]. intros Hr.
    exists l, closed. split; [done|].
    enough (Hg : forall acc, read_elements (fun x out => let? v := read d' x in Ok (out ++ [v])) l closed acc = Ok out ->
      length out = length acc + length l) by by apply Hg in Hr.
    clear Hr. induction l as [|x l IH]; intros acc; cbn [read_elements]; [destruct closed; [intros [= <-]; simpl; lia | done]|].
    destruct (read d' x) as [v|]; [|done]. intros Hl%IH. rewrite length_app in Hl. simpl in *. lia.
  Qed.

Lemma entries_counted max d m closed st out :
    Forall (fun e => e.1 = Some "entries" -> count_value max d e.2 = Ok WithinLimit) m -> (0 <= max)%Z ->
    (Z.of_nat (length (tt_entries st.2)) <= max)%Z ->
    read_members (seen_step (assign_transcript d)) m closed st = Ok out ->
    (Z.of_nat (length (tt_entries out.2)) <= max)%Z.
  Proof.
    intros HF Hm. revert st. induction HF as [|[[k|] x] m Hx _ IH]; intros [seen t] Ht; cbn [read_members];
      [destruct closed; [by intros [= <-] | done] | | done].
    unfold seen_step at 1. destruct (seen_insert k _) as [seen'|]; [|done]. cbn [snd] in *.
    destruct (assign_transcript d k x t) as [t'|] eqn:Ea; [|done]. apply IH. cbn [snd].
    unfold assign_transcript in Ea. cbn [fst] in Hx.
    destruct (String.eqb k "transport"); [by destruct (read_opt_string x); simplify_eq|].
    destruct (String.eqb k "transport_context"); [by destruct (read_unique d x); simplify_eq|].
    destruct (String.eqb k "headers"); [by destruct (read_unique d x); simplify_eq|].
    destruct (String.eqb_spec k "entries") as [->|]; [|by destruct (read_sink d x); simplify_eq].
    destruct (read_vec read_entry d x) as [es|] eqn:Ev; [|done]. injection Ea as <-. cbn.
    apply read_vec_length in Ev as (l & cl & -> & ->). specialize (Hx eq_refl). cbn [count_value] in Hx.
    destruct (enter d); [|done]. by apply count_elements_within in Hx.
  Qed.

Lemma framed_counted max doc t :
    visit_container "entries" false max doc = Ok WithinLimit -> (0 <= max)%Z ->
    read_transcript RECURSION_LIMIT doc = Ok t -> (Z.of_nat (length (tt_entries t)) <= max)%Z.
  Proof.
    intros Hc Hm. unfold read_transcript, read_struct, visit_container in *. destruct doc as [| | | | |m closed|]; try done.
    destruct (enter RECURSION_LIMIT) as [d|]; [|done]. apply container_counts in Hc.
    destruct (read_members _ m closed _) as [st|] eqn:E; [|done]. intros [= <-].
    eapply entries_counted; [exact Hc | done | | exact E]. simpl. lia.
  Qed.

Lemma entries_loop_length label endpoint max slots idx entries events envelopes :
    entries_loop label endpoint max slots idx entries = Some (Ok (events, envelopes)) -> length events <= length entries.
  Proof.
    revert idx events envelopes. induction entries as [|e entries IH]; intros idx events envelopes; cbn [entries_loop];
      [by intros [= <- _]|].
    destruct (entry_event _ _ _ _ e) as [[o|]|]; [|done..].
    destruct (entries_loop _ _ _ _ _ entries) as [[[out envs]|]|] eqn:E; [|done..].
    intros [= <- _]. apply IH in E. rewrite length_app. destruct o; simpl; lia.
  Qed.

Lemma transport_length max bytes expected label endpoint depth events envelopes :
    visit_container "entries" false max (json_document (to_str bytes)).1 = Ok WithinLimit -> (0 <= max)%Z ->
    parse_transport_transcript_detailed (to_str bytes) expected label endpoint depth = Some (Ok (events, envelopes)) ->
    (Z.of_nat (length events) <= max)%Z.
  Proof.
    intros Hc Hm. unfold parse_transport_transcript_detailed, from_str. destruct (json_document (to_str bytes)) as [doc complete].
    destruct (read_transcript RECURSION_LIMIT doc) as [t|] eqn:E; [|done]. destruct complete; [|done].
    destruct (negb _); [done|]. intros Hl%entries_loop_length. apply (framed_counted max) in E; [lia | done..].
  Qed.

Lemma events_counted bytes format max depth events envelopes :
    check_event_count bytes format max = Ok () -> (0 <= max)%Z ->
    parse_events_with_envelopes (to_str bytes) format depth = Some (Ok (events, envelopes)) ->
    (Z.of_nat (length events) <= max)%Z.
  Proof.
    intros Hc Hm. unfold check_event_count, count_container_array in Hc. unfold parse_events_with_envelopes.
    destruct format.
    - unfold parse_inspector_best_effort, from_str. revert Hc. destruct (json_document (to_str bytes)) as [doc complete]. cbn [fst].
      destruct (visit_container _ _ _ doc) as [[]|] eqn:Ev; try done. intros _.
      destruct (read_unique RECURSION_LIMIT doc) as [v|] eqn:E; [|done]. destruct complete; [|done].
      destruct (inspector_loop _ _) as [es|] eqn:Ei; [|done]. intros [= <- _]. apply inspector_length in Ei as ->.
      apply read_decodes in E. by eapply inspector_counted.
    - destruct (Z.ltb_spec max (Z.of_nat (length (event_lines bytes)))); [done|].
      destruct (parse_jsonrpc_jsonl _) as [es|] eqn:E; [|done]. intros [= <- _].
      apply jsonl_events in E. unfold str_lines in E.
      pose proof (event_lines_of (str_split "010" (to_str bytes))). rewrite event_lines_str in *. lia.
    - destruct (visit_container _ _ _ _) as [[]|] eqn:Ev; try done. by eapply transport_length.
    - destruct (visit_container _ _ _ _) as [[]|] eqn:Ev; try done. by eapply transport_length.
  Qed.
End accepted.

(** ** What ingest promises *)

Lemma conclude_accepts era observed capability c :
  conclude era observed capability = Done c -> c = Terminal \/ c = NonTerminal ->
  exists v, era = Known v /\
    (observed = Complete \/ observed = InputRequired \/ (observed = Missing /\ requires_result_type v = false)).
Proof.
  intros Hc Ha. unfold conclude in Hc.
  destruct observed; try (destruct era as [v|[]|]); try (destruct (requires_result_type v) eqn:E); cbn [andb negb] in Hc;
    try (by destruct capability as [[]|]; simplify_eq; destruct Ha); simplify_eq; try (by destruct Ha);
    exists v; naive_solver.
Qed.

(** The era that an accepted request or result is read under is known. *)
Definition readable_request (p : ParsedMcpEvent) : Prop :=
  forall metadata, cx_request_metadata (pm_context p) = Some metadata ->
    metadata <> MetaMalformed /\
    exists v, cx_era (pm_context p) = Known v /\
      (requires_result_type v = true ->
        (exists m, metadata = MetaPresent m) /\
        (cx_capability_observation (pm_context p) = Some CoreOnly \/
         cx_capability_observation (pm_context p) = Some ExtensionNotUnderstood)).

Definition readable_result (era : EraResolution) (observed : ResultObservation) : Prop :=
  exists v, era = Known v /\
    (observed = Complete \/ observed = InputRequired \/ (observed = Missing /\ requires_result_type v = false)).

Lemma check_entry_conclusions_ok p :
  check_entry_conclusions p = Done (Ok ()) -> pm_is_error_response p = false ->
  readable_request p /\
  forall observed, cx_result_observation (pm_context p) = Some observed -> readable_result (cx_era (pm_context p)) observed.
Proof.
  unfold check_entry_conclusions. intros H He. rewrite He in H. set (cx := pm_context p) in *.
  assert (Hreq : forall metadata, cx_request_metadata cx = Some metadata ->
    conclude_request (cx_era cx) metadata (cx_capability_observation cx) = Done RequestValid).
  { intros metadata E. rewrite E in H.
    destruct (conclude_request_returns (cx_era cx) metadata (cx_capability_observation cx)) as [a Ea].
    rewrite Ea in *. by destruct a. }
  split; [intros metadata E; by apply request_valid_iff, Hreq|].
  intros observed E. rewrite E in H.
  destruct (conclude_returns (cx_era cx) observed (cx_capability_observation cx)) as [c Ec].
  apply (conclude_accepts _ _ _ c Ec). rewrite Ec in H.
  destruct (cx_request_metadata cx) as [metadata|] eqn:Em; [rewrite (Hreq _ eq_refl) in H|]; destruct c; cbn in H; auto; done.
Qed.

Lemma check_conclusions_returns parsed : exists r, check_conclusions parsed = Done r.
Proof.
  induction parsed as [|p parsed [r IH]]; cbn [check_conclusions]; [by eexists|].
  assert (He : exists r, check_entry_conclusions p = Done r).
  { unfold check_entry_conclusions. destruct (pm_is_error_response p); [by eexists|]. set (cx := pm_context p).
    destruct (cx_request_metadata cx) as [m|];
      [destruct (conclude_request_returns (cx_era cx) m (cx_capability_observation cx)) as [[] ->]|]; cbn; try by eexists.
    all: destruct (cx_result_observation cx) as [o|]; [|by eexists];
      destruct (conclude_returns (cx_era cx) o (cx_capability_observation cx)) as [[] ->]; by eexists. }
  destruct He as [[[]|e] ->]; cbn; [by exists r | by eexists].
Qed.

Lemma check_conclusions_ok parsed :
  check_conclusions parsed = Done (Ok ()) -> Forall (fun p => check_entry_conclusions p = Done (Ok ())) parsed.
Proof.
  induction parsed as [|p parsed IH]; cbn [check_conclusions]; [constructor|].
  destruct (check_entry_conclusions p) as [[[]|]|] eqn:E; cbn; [|done..]. intros Hc. constructor; [done | by apply IH].
Qed.

Section promises.
  Context `{Platform, JsonReaderLaws}.

(** What an accepted transcript went through. *)
Lemma bounded_inv reader format limits events :
    parse_mcp_transcript_bounded reader format limits = Some (Done (Ok events)) ->
    exists text events0 envelopes parsed,
      bounded_text reader format limits = Ok text /\
      parse_events_with_envelopes text format (Some (tl_max_json_depth limits)) = Some (Ok (events0, envelopes)) /\
      correlate_calls (observe_event (is_framed format) envelopes <$> events0) = Ok parsed /\
      check_conclusions parsed = Done (Ok ()) /\ events = pm_event <$> parsed.
  Proof.
    unfold parse_mcp_transcript_bounded. destruct (bounded_text reader format limits) as [text|]; [|done].
    unfold parse_mcp_transcript_detailed_with_depth, parse_mcp_transcript_detailed_internal.
    destruct (parse_events_with_envelopes text format _) as [[[events0 envelopes]|]|] eqn:E; [|done..].
    destruct (correlate_calls _) as [parsed|] eqn:Ec; [|done].
    destruct (check_conclusions parsed) as [[[]|]|] eqn:Ek; cbn; [|done..]. intros [= <-].
    by exists text, events0, envelopes, parsed.
  Qed.

Lemma correlated_events observed parsed :
    correlate_calls observed = Ok parsed -> pm_event <$> parsed = pm_event <$> observed.
  Proof.
    intros Hc. assert (Hs := correlate_calls_facts observed). rewrite Hc in Hs. destruct Hs as (_ & Hl & Hi).
    apply list_eq. intros i. rewrite !list_lookup_fmap.
    destruct (observed !! i) as [p|] eqn:Ep; destruct (parsed !! i) as [p'|] eqn:Ep'; simpl; [| | |done].
    - destruct (Hi i p p' Ep Ep') as [(id & q & _ & _ & _ & ->) | [_ ->]]; done.
    - apply lookup_lt_Some in Ep. apply lookup_ge_None in Ep'. lia.
    - apply lookup_lt_Some in Ep'. apply lookup_ge_None in Ep. lia.
  Qed.

Lemma bounded_text_is reader format limits text :
    bounded_text reader format limits = Ok text -> text = to_str (concat (pieces reader)).
  Proof.
    unfold bounded_text, limited. destruct (byte_len _ <=? _)%Z;
      [|by destruct (from_io _)]. destruct (failure reader) as [e|]; [by destruct (from_io e)|]. cbn.
    destruct (check_json_depth _ _ _); [|done]. cbn.
    destruct (match format with JsonRpc => _ | _ => _ end); [|done]. cbn.
    destruct (from_utf8 _); [|done]. destruct (check_event_count _ _ _); [|done]. cbn. by intros [= <-].
  Qed.

Lemma observed_event framed envelopes e : pm_event (observe_event framed envelopes e) = e.
  Proof. unfold observe_event. by destruct (observe_message _) as [[[? ?] ?] ?]. Qed.

(** The era of an observed message is the version that it and its surroundings
    name. *)
Lemma known_spoken text format depth events envelopes e v :
    parse_events_with_envelopes text format depth = Some (Ok (events, envelopes)) -> e ∈ events ->
    cx_era (pm_context (observe_event (is_framed format) envelopes e)) = Known v -> SpokenVersion text format e v.
  Proof.
    intros Hp He. unfold observe_event. destruct (observe_message (payload_raw (me_payload e))) as [[[md ro] co] er] eqn:Eo.
    cbn [pm_context cx_era]. intros Hk. apply (proj1 (resolve_era_spec _ _)) in Hk as [Hv Hs].
    destruct (envelope_names _ _ _ _ _ e _ Hp He eq_refl) as [Hsome Hnone].
    destruct (metadata_names (payload_raw (me_payload e))) as [Hms Hmn].
    split; [done|]. unfold observe_message in Eo.
    destruct (classify_message (payload_raw (me_payload e))) as [[m|m|]|]; injection Eo as <- <- <- <-; cbn [default] in Hs.
    - destruct Hs as [[He1 [Hm|Hm]]|[He1 Hm]].
      + exists (Some v), None. split_and!; auto.
      + exists (Some v), (Some v). split_and!; auto.
      + exists None, (Some v). split_and!; auto.
    - destruct Hs as [[He1 _]|[_ Hm]]; [|done]. exists (Some v), None. split_and!; auto.
    - destruct Hs as [[He1 _]|[_ Hm]]; [|done]. exists (Some v), None. split_and!; auto.
    - destruct Hs as [[He1 _]|[_ Hm]]; [|done]. exists (Some v), None. split_and!; auto.
  Qed.

(** What an accepted request says under its version. *)
Definition RequestReadable (v : string) (raw : Value) : Prop :=
    str_leb RESULT_TYPE_SINCE v = true ->
    MetadataNames raw (Some v) /\
    (observe_client_capabilities raw = Some CoreOnly \/ observe_client_capabilities raw = Some ExtensionNotUnderstood).

(** The observations of a request and of a response that is not an error. *)
Lemma observed_request framed envelopes e m :
    classify_message (payload_raw (me_payload e)) = Ok (Request m) ->
    let p := observe_event framed envelopes e in
    pm_is_error_response p = false /\ cx_request_metadata (pm_context p) = Some (observe_request_metadata (event_raw p)) /\
    cx_capability_observation (pm_context p) = observe_client_capabilities (event_raw p).
  Proof. intros Hc. unfold observe_event, observe_message, event_raw. by rewrite Hc. Qed.

Lemma observed_response framed envelopes e :
    classify_message (payload_raw (me_payload e)) = Ok Response ->
    vget (payload_raw (me_payload e)) "error" = None ->
    let p := observe_event framed envelopes e in
    pm_is_error_response p = false /\ exists observed, observe_result (event_raw p) = Some observed /\
      cx_result_observation (pm_context p) = Some observed.
  Proof.
    intros Hc He. unfold observe_event, observe_message, event_raw. rewrite Hc, He. cbn. split; [done|].
    assert (Hr : is_Some (observe_result (payload_raw (me_payload e)))); [|destruct Hr as [o Ho]; rewrite Ho; eauto].
    unfold classify_message in Hc. rewrite He in Hc. destruct (vget _ "method") as [m|];
      [destruct (as_str m); [|done]; by destruct (_ || _)|].
    unfold observe_result. destruct (vget _ "result"); [|done]. destruct (negb (is_object _)); eexists; reflexivity.
  Qed.

Lemma request_spoken text format depth events envelopes e m v :
    parse_events_with_envelopes text format depth = Some (Ok (events, envelopes)) -> e ∈ events ->
    classify_message (payload_raw (me_payload e)) = Ok (Request m) ->
    (forall metadata, observe_request_metadata (payload_raw (me_payload e)) = MetaPresent metadata ->
      cx_era (pm_context (observe_event (is_framed format) envelopes e)) = Known v -> metadata = v).
  Proof.
    intros Hp He Hc metadata Em Hk. destruct (known_spoken _ _ _ _ _ _ _ Hp He Hk) as (_ & around & own & _ & Hown & _ & _ & Hv).
    rewrite Hc in Hown. apply metadata_names in Em. destruct Em as (params & meta & E1 & E2 & E3). unfold MetadataNames in Hown.
    destruct Hv as [-> | ->].
    - destruct Hown as [E|(params' & E & [E'|(meta' & E' & E'')])]; congruence.
    - destruct Hown as (params' & meta' & E1' & E2' & E3'). congruence.
  Qed.

(** C6: Every request and result of a transcript that ingest accepts was read
    under one supported version, and that is the version the message names.  A
    request has one that its own metadata or the header maps around its entry
    state, both the same if both do, and from the revision that requires them
    its metadata state it and its capabilities are readable.  A result was read
    under the version of the very request it answers when there is one, and
    under that of its own headers otherwise; it claims completion without a
    continuation, asks for input that can be given, or is silent under an older
    revision.  No two calls were pending under one id. *)
Theorem ingest_sound reader format limits events :
    parse_mcp_transcript_bounded reader format limits = Some (Done (Ok events)) ->
    let text := to_str (concat (pieces reader)) in
    exists envelopes,
      parse_events_with_envelopes text format (Some (tl_max_json_depth limits)) = Some (Ok (events, envelopes)) /\
      let observed := observe_event (is_framed format) envelopes <$> events in
      ~ Clash observed /\
      forall i p, observed !! i = Some p ->
        (forall m, classify_message (event_raw p) = Ok (Request m) ->
          exists v, SpokenVersion text format (pm_event p) v /\ RequestReadable v (event_raw p)) /\
        (classify_message (event_raw p) = Ok Response -> vget (event_raw p) "error" = None ->
          exists v, ResultReadable v (event_raw p) /\
            (forall id q, answers p id -> PendingUnder (take i observed) id q -> SpokenVersion text format (pm_event q) v) /\
            ((forall id q, answers p id -> ~ PendingUnder (take i observed) id q) ->
               SpokenVersion text format (pm_event p) v)).
  Proof.
    intros Hb. destruct (bounded_inv _ _ _ _ Hb) as (text0 & events0 & envelopes & parsed & Ht & Hpe & Hc & Hk & Hev).
    assert (text0 = to_str (concat (pieces reader))) as -> by (by apply bounded_text_is in Ht). intros text.
    set (observed0 := observe_event (is_framed format) envelopes <$> events0) in *.
    assert (Ee : events = events0).
    { rewrite Hev, (correlated_events _ _ Hc). unfold observed0. rewrite <- list_fmap_compose.
      rewrite (list_fmap_ext _ id); [by rewrite list_fmap_id|]. intros i e _. apply observed_event. }
    subst events0. exists envelopes. split; [done|]. intros observed.
    assert (Hs := correlate_calls_facts observed). change observed0 with observed in Hc. rewrite Hc in Hs.
    destruct Hs as (Hcl & Hl & Hi). split; [done|]. intros i p Hp.
    destruct (lookup_lt_is_Some_2 parsed i) as [p' Hp']; [rewrite Hl; by apply lookup_lt_Some in Hp|].
    apply check_conclusions_ok in Hk. eapply Forall_lookup_1 in Hk; [|exact Hp'].
    assert (Hof : forall j q, observed !! j = Some q -> q = observe_event (is_framed format) envelopes (pm_event q) /\ pm_event q ∈ events).
    { intros j q Hq. unfold observed in Hq. rewrite list_lookup_fmap in Hq. destruct (events !! j) as [e|] eqn:Ej; [|done].
      injection Hq as <-. rewrite observed_event. split; [done|]. by eapply list_elem_of_lookup_2. }
    assert (Hsp : forall j q v, observed !! j = Some q -> cx_era (pm_context q) = Known v -> SpokenVersion text format (pm_event q) v).
    { intros j q v [Hq Hin]%Hof Hv. rewrite Hq in Hv. by eapply known_spoken. }
    destruct (Hof i p Hp) as [Hpo Hin]. split.
    - intros m Hm. destruct (Hi i p p' Hp Hp') as [(id & q & [_ Ha] & _)|[_ ->]]; [congruence|].
      destruct (observed_request (is_framed format) envelopes (pm_event p) m Hm) as (Her & Emd & Ecap). rewrite <- Hpo in *.
      destruct (check_entry_conclusions_ok _ Hk Her) as [Hr _]. destruct (Hr _ Emd) as (_ & v & Hv & Hreq). exists v.
      split; [by eapply Hsp|]. intros Hsince. destruct (Hreq Hsince) as [(m' & Em') Hcap]. rewrite Ecap in Hcap. split; [|done].
      apply metadata_names. rewrite Em'. f_equal. rewrite Hpo in Hv. by eapply request_spoken.
    - intros Hresp Herr. destruct (observed_response (is_framed format) envelopes (pm_event p) Hresp Herr) as (Her & o & Eo & Er).
      rewrite <- Hpo in *. destruct (Hi i p p' Hp Hp') as [(id & q & Ha & Hq & Hu & ->)|[Hn ->]].
      + destruct (check_entry_conclusions_ok _ Hk Her) as [_ Hres]. destruct (Hres _ Er) as (v & Hv & Ho). exists v.
        split; [by eapply result_readable|]. split.
        * intros id' q' [Ha1 _] Hq'. destruct Ha as [Ha2 _]. assert (id' = id) as -> by congruence.
          rewrite (Hu q' Hq'). destruct Hq as (j & Hj & _). apply lookup_take_Some in Hj as [Hj _]. by eapply Hsp.
        * intros Hno. by destruct (Hno id q Ha).
      + destruct (check_entry_conclusions_ok _ Hk Her) as [_ Hres]. destruct (Hres _ Er) as (v & Hv & Ho). exists v.
        split; [by eapply result_readable|]. split.
        * intros id q Ha Hq. by destruct (Hn id q Ha).
        * intros _. by eapply Hsp.
  Qed.

(** C39: Ingest returns on every source, with a verdict and without a panic:
    the [unreachable!] arms of the two readings are. *)
Theorem ingest_returns reader format limits :
    exists r, parse_mcp_transcript_bounded reader format limits = Some (Done r).
  Proof.
    unfold parse_mcp_transcript_bounded. destruct (bounded_text reader format limits) as [text|]; [|by eexists].
    unfold parse_mcp_transcript_detailed_with_depth.
    destruct (detailed_returns text format (Some (tl_max_json_depth limits))) as [[parsed|e] ->]; [|by eexists].
    destruct (check_conclusions_returns parsed) as [[[]|] ->]; by eexists.
  Qed.

(** An accepted transcript is within every limit: the bytes of its source,
    the length of each JSON line, the nesting of a single document, and in
    every format the number of events. *)
Theorem ingest_within_limits reader format limits events :
    parse_mcp_transcript_bounded reader format limits = Some (Done (Ok events)) ->
    (0 <= tl_max_events limits)%Z -> (0 <= tl_max_json_depth limits)%Z ->
    let data := concat (pieces reader) in
    (byte_len data <= tl_max_source_bytes limits)%Z /\
    (format = JsonRpc -> Forall (fun line => (byte_len line <= tl_max_line_bytes limits)%Z) (split_lines data)) /\
    (format <> JsonRpc -> forall d, Nested d data -> (d <= tl_max_json_depth limits)%Z) /\
    (Z.of_nat (length events) <= tl_max_events limits)%Z.
  Proof.
    intros Hb Hm Hd. destruct (bounded_inv _ _ _ _ Hb) as (text & events0 & envelopes & parsed & Ht & Hp & Hc & _ & ->).
    intros data. unfold bounded_text, limited in Ht. fold data in Ht.
    destruct (Z.leb_spec (byte_len data) (tl_max_source_bytes limits)) as [Hlen|]; [|done].
    destruct (failure reader) as [e|]; [by destruct (from_io e)|].
    unfold check_json_depth in Ht. destruct (exceeds_limit data _ _) eqn:Ed; [done|].
    assert (Hlines : format = JsonRpc -> check_jsonl_lines data (tl_max_line_bytes limits) = Ok ()).
    { intros ->. by destruct (check_jsonl_lines data _) as [[]|]. }
    assert (Hg : (match format with JsonRpc => check_jsonl_lines data (tl_max_line_bytes limits) | _ => Ok () end) = Ok ())
      by (destruct format; [done | by apply Hlines | done..]).
    rewrite Hg in Ht.
    destruct (from_utf8 data); [|done]. destruct (check_event_count data format _) as [[]|] eqn:Ec; [|done].
    injection Ht as <-. split_and!; [done | | |].
    - intros Hf. specialize (Hlines Hf). unfold check_jsonl_lines in Hlines.
      destruct (existsb _ _) eqn:Ex; [done|]. rewrite existsb_false in Ex. apply Forall_forall. intros line Hl.
      specialize (Ex line Hl). simpl in Ex. by apply Z.ltb_ge in Ex.
    - intros Hf d Hn. assert (Ed' : exceeds_limit data (tl_max_json_depth limits) false = false) by by destruct format.
      rewrite (scan_exact d) in Ed' by done. by apply Z.ltb_ge in Ed'.
    - rewrite length_fmap. assert (Hl := f_equal length (correlated_events _ _ Hc)). rewrite !length_fmap in Hl.
      rewrite Hl. by eapply events_counted.
  Qed.
End promises.

(** ** The event ceiling's error *)

Lemma count_elements_over max count l :
  Forall (fun x => skip x = Ok ()) l -> (count <= max)%Z ->
  ((count + Z.of_nat (length l) = max + 1)%Z -> count_elements max count l true = Ok OverLimit) /\
  ((max + 1 < count + Z.of_nat (length l))%Z -> count_elements max count l true = Err Syntax).
Proof.
  intros HF. revert count. induction HF as [|x l Hx _ IH]; intros count Hc; cbn [count_elements length]; [lia|].
  rewrite Hx. destruct (Z.ltb_spec max (count + 1)).
  - destruct l; simpl; [split; [done | lia] | split; [lia | done]].
  - destruct (IH (count + 1)%Z ltac:(lia)) as [H1 H2]. split; intros; [apply H1 | apply H2]; lia.
Qed.

(** The event ceiling is reported as such only when a transcript has
    exactly one entry too many.  With more, the counting pass stops while the
    array has elements left, [serde_json] refuses the rest, and the error says
    that the transcript is invalid. *)
Theorem event_limit_misreported `{JsonReader} bytes format max l :
  is_framed format = true -> (0 <= max)%Z -> Forall (fun x => skip x = Ok ()) l ->
  json_document (to_str bytes) = (DObj [(Some "entries", DArr l true)] true, true) ->
  ((Z.of_nat (length l) = max + 1)%Z -> check_event_count bytes format max = Err (IngestEvents max)) /\
  ((max + 1 < Z.of_nat (length l))%Z -> check_event_count bytes format max = Err IngestInvalidTranscript).
Proof.
  intros Hf Hm HF Hd. destruct (count_elements_over max 0 l HF Hm) as [H1 H2]. rewrite Z.add_0_l in H1, H2.
  assert (Ef : check_event_count bytes format max =
    let? count := count_container_array bytes "entries" false max in
    match count with WithinLimit => Ok () | OverLimit => Err (IngestEvents max) end) by by destruct format.
  rewrite Ef. unfold count_container_array. rewrite Hd. cbn.
  split; intros Hl; [rewrite (H1 Hl) | rewrite (H2 Hl)]; done.
Qed.
