(* ===== verification/McpTrace.v ===== *)
(** * From MCP events to a trace

    [mcp/mapper_v2.rs] and the event types of [trace/schema.rs] of
    [assay-core]: events are sorted by time, requests are buffered under their
    typed id until a response comes, and what is still buffered at the end is
    flushed as unanswered.  The flush walks a [HashMap], whose order the
    environment decides. *)
From stdpp Require Import base tactics list strings gmap sorting.
From Stdlib Require Import ZArith Lia Ascii.
From S2P Require Import Prelude RustStr Json Platform PolicyTypes Era McpParser.

(** ** [trace/schema.rs] *)

Record EpisodeStart : Type := mkEpisodeStart {
  es_episode_id : string; es_timestamp : Z; es_input : Value; es_meta : Value
}.

Record TruncationMeta : Type := mkTruncationMeta {
  tm_field : string; tm_original_len : Z; tm_kept_len : Z; tm_sha256 : string; tm_strategy : string
}.

Record StepEntry : Type := mkStepEntry {
  st_episode_id : string;
  st_step_id : string;
  st_idx : Z;
  st_timestamp : Z;
  st_kind : string;
  st_name : option string;
  st_content : option string;
  st_content_sha256 : option string;
  st_truncations : list TruncationMeta;
  st_meta : Value
}.

Record ToolCallEntry : Type := mkToolCallEntry {
  tc_episode_id : string;
  tc_step_id : string;
  tc_timestamp : Z;
  tc_tool_name : string;
  tc_call_index : option Z;
  tc_args : Value;
  tc_args_sha256 : option string;
  tc_result : option Value;
  tc_result_sha256 : option string;
  tc_error : option string;
  tc_truncations : list TruncationMeta
}.

Record EpisodeEnd : Type := mkEpisodeEnd {
  ee_episode_id : string; ee_timestamp : Z; ee_outcome : option string; ee_final_output : option string
}.

Inductive TraceEvent : Type :=
| TEpisodeStart (e : EpisodeStart)
| TStep (e : StepEntry)
| TToolCall (e : ToolCallEntry)
| TEpisodeEnd (e : EpisodeEnd).

(** ** The order of events *)

Definition event_key (e : McpEvent) : Z * Z * string :=
  (default 0%Z (me_timestamp_ms e), me_source_line e, default "" (me_jsonrpc_id e)).

(** [sort_by]'s comparison is not [Greater]. *)
Definition event_le (a b : McpEvent) : Prop :=
  let '(ta, la, ia) := event_key a in
  let '(tb, lb, ib) := event_key b in
  (ta < tb)%Z \/ (ta = tb /\ ((la < lb)%Z \/ (la = lb /\ str_le ia ib))).
#[global] Instance event_le_dec a b : Decision (event_le a b).
Proof. unfold event_le. destruct (event_key a) as [[ta la] ia], (event_key b) as [[tb lb] ib]. apply _. Defined.

(** A stable sort. *)
Definition sort_events (events : list McpEvent) : list McpEvent := merge_sort event_le events.

(** [min()] of the timestamps. *)
Definition min_timestamp (events : list McpEvent) : option Z :=
  foldl (fun m e => match m, me_timestamp_ms e with
                    | Some m, Some t => Some (Z.min m t)
                    | None, t => t
                    | m, None => m
                    end) None events.

Definition summarize_auth_discovery (events : list McpEvent) : McpAuthorizationDiscovery :=
  foldl (fun s e => merge_from s (me_auth_discovery e)) discovery_default events.

(** ** Serialized values *)

Definition opt_str_json (s : option string) : Value := match s with Some s => Str s | None => Null end.
Definition discovery_json (d : McpAuthorizationDiscovery) : Value :=
  Obj [("visible", VBool (ad_visible d));
       ("source_kind", Str match ad_source_kind d with SourceUnknown => "unknown" | WwwAuthenticate => "www_authenticate" end);
       ("resource_metadata_visible", VBool (ad_resource_metadata_visible d));
       ("authorization_servers_visible", VBool (ad_authorization_servers_visible d));
       ("scope_challenge_visible", VBool (ad_scope_challenge_visible d))].
Definition identity_json (i : ToolIdentity) : Value :=
  Obj [("server_id", Str (ti_server_id i)); ("tool_name", Str (ti_tool_name i));
       ("schema_hash", Str (ti_schema_hash i)); ("meta_hash", Str (ti_meta_hash i))].
Definition tool_def_json (t : McpToolDef) : Value :=
  Obj [("name", Str (td_name t)); ("description", opt_str_json (td_description t));
       ("input_schema", default Null (td_input_schema t));
       ("tool_identity", match td_tool_identity t with Some i => identity_json i | None => Null end)].

(** ** The mapper *)

(** [format!("step_{:03}", idx)] *)
Definition pad_left (width : nat) (s : string) : string :=
  str_concat (replicate (width - String.length s) "0") +:+ s.
Definition step_id_of (idx : Z) : string := "step_" +:+ pad_left 3 (fmt_int idx).

Record PendingCall : Type := mkPendingCall { pc_step_id : string; pc_name : string; pc_args : Value; pc_timestamp : Z }.

(** The variables of the loop. *)
Record TraceState : Type := mkTraceState {
  ts_out : list TraceEvent;
  ts_pending : gmap CorrelationId PendingCall;
  ts_idx : Z;
  ts_last_ts : Z;
  ts_final_output : option string
}.
#[global] Instance TraceState_eta : Eta TraceState := fun s =>
  mkTraceState (ts_out s) (ts_pending s) (ts_idx s) (ts_last_ts s) (ts_final_output s).

Definition tool_step (episode_id : string) (s : TraceState) (name : string) (content : option string) (meta : Value)
    : TraceEvent :=
  TStep (mkStepEntry episode_id (step_id_of (ts_idx s)) (as_u32 (ts_idx s)) (ts_last_ts s) "tool" (Some name) content
    None [] meta).

Definition tool_call (episode_id : string) (c : PendingCall) (timestamp : Z) (result : option Value) (error : option string)
    : TraceEvent :=
  TToolCall (mkToolCallEntry episode_id (pc_step_id c) timestamp (pc_name c) (Some 0%Z) (pc_args c) None result None error []).

Section mapper.
  Context `{Platform}.

Definition map_event (episode_id : string) (e : McpEvent) (s : TraceState) : TraceState :=
    let s := match me_timestamp_ms e with Some ts => s <| ts_last_ts := Z.max (ts_last_ts s) ts |> | None => s end in
    let correlation := correlation_id (payload_raw (me_payload e)) in
    match me_payload e with
    | ToolsListRequest _ =>
        s <| ts_out := ts_out s ++ [tool_step episode_id s "tools/list" (Some "{}") (Obj [])] |>
          <| ts_idx := (ts_idx s + 1)%Z |>
    | ToolsListResponse tools _ =>
        s <| ts_out := ts_out s ++
               [tool_step episode_id s "tools/list.result"
                  (Some (json_to_string (Obj [("tools", Arr (tool_def_json <$> tools))]))) (Obj [])] |>
          <| ts_idx := (ts_idx s + 1)%Z |>
    | ToolCallRequest name arguments _ =>
        let step := tool_step episode_id s name None (Obj [("jsonrpc_id", opt_str_json (me_jsonrpc_id e))]) in
        let call := mkPendingCall (step_id_of (ts_idx s)) name arguments (ts_last_ts s) in
        match correlation with
        | Some id =>
            s <| ts_out := ts_out s ++ [step] |> <| ts_pending := <[id := call]> (ts_pending s) |>
              <| ts_idx := (ts_idx s + 1)%Z |>
        | None =>
            s <| ts_out := ts_out s ++ [step; tool_call episode_id call (ts_last_ts s) None None] |>
              <| ts_idx := (ts_idx s + 1)%Z |>
        end
    | ToolCallResponse result is_error _ =>
        let s :=
          match correlation with
          | None => s
          | Some id =>
              match ts_pending s !! id with
              | None => s
              | Some call =>
                  s <| ts_out := ts_out s ++
                         [tool_call episode_id call (ts_last_ts s)
                            (Some (if is_error then Obj [("error", result)] else result))
                            (if is_error then Some "mcp_error" else None)] |>
                    <| ts_pending := delete id (ts_pending s) |>
              end
          end in
        s <| ts_final_output := Some (json_to_string result) |>
    | SessionEnd _ =>
        match ts_final_output s with
        | None => s <| ts_final_output := Some "mcp_session_end" |>
        | Some _ => s
        end
    | SessionStart _ | OtherPayload _ => s
    end.

(** [now]: the clock, read when no event has a time; [drain]: the order in
    which the map of unanswered calls is walked. *)
Definition mcp_events_to_v2_trace (now : Z) (drain : gmap CorrelationId PendingCall -> list (CorrelationId * PendingCall))
      (events : list McpEvent) (episode_id : string) (test_id prompt_override : option string) : list TraceEvent :=
    let events := sort_events events in
    let start_ts := default now (min_timestamp events) in
    let prompt_val := default "<mcp:session>" prompt_override in
    let meta :=
      [("source", Str "mcp_import"); ("episode_id", Str episode_id);
       ("mcp", Obj [("authorization_discovery", discovery_json (summarize_auth_discovery events))])] in
    let meta := match test_id with Some tid => map_insert meta "test_id" (Str tid) | None => meta end in
    let start := TEpisodeStart (mkEpisodeStart episode_id start_ts (Obj [("prompt", Str prompt_val)]) (Obj meta)) in
    let s := foldl (fun s e => map_event episode_id e s) (mkTraceState [start] ∅ 0 start_ts None) events in
    let flushed := (fun c => tool_call episode_id c.2 (pc_timestamp c.2) None (Some "timeout/no_response")) <$> drain (ts_pending s) in
    ts_out s ++ flushed ++
      [TEpisodeEnd (mkEpisodeEnd episode_id (Z.max (ts_last_ts s) start_ts) None (ts_final_output s))].
End mapper.

(** ** What the trace records *)

Definition is_call_request (e : McpEvent) (id : option CorrelationId) (name : string) (args : Value) : Prop :=
  exists raw, me_payload e = ToolCallRequest name args raw /\ correlation_id raw = id.
Definition is_call_response (e : McpEvent) (id : CorrelationId) (result : Value) (is_error : bool) : Prop :=
  exists raw, me_payload e = ToolCallResponse result is_error raw /\ correlation_id raw = Some id.

(** The call of an entry was requested and its result given under one id. *)
Definition Paired (events : list McpEvent) (c : ToolCallEntry) (r : Value) : Prop :=
  exists req resp id result is_error, req ∈ events /\ resp ∈ events /\
    is_call_request req (Some id) (tc_tool_name c) (tc_args c) /\ is_call_response resp id result is_error /\
    r = (if is_error then Obj [("error", result)] else result).

(** Two calls under one id with no response between them, in the order in which
    the mapper sees the events. *)
Definition Overlap (events : list McpEvent) : Prop :=
  exists i k a b id n x n' x', i < k /\ events !! i = Some a /\ events !! k = Some b /\
    is_call_request a (Some id) n x /\ is_call_request b (Some id) n' x' /\
    forall j e r err, i < j < k -> events !! j = Some e -> ~ is_call_response e id r err.

(** The calls that were requested, each with the step it got. *)
Fixpoint requested (idx : Z) (events : list McpEvent) : list (string * string * Value) :=
  match events with
  | [] => []
  | e :: rest =>
      match me_payload e with
      | ToolsListRequest _ | ToolsListResponse _ _ => requested (idx + 1) rest
      | ToolCallRequest name args _ => (step_id_of idx, name, args) :: requested (idx + 1) rest
      | _ => requested idx rest
      end
  end.

Definition calls (out : list TraceEvent) : list ToolCallEntry :=
  omap (fun e => match e with TToolCall c => Some c | _ => None end) out.
Definition call_key (c : ToolCallEntry) : string * string * Value := (tc_step_id c, tc_tool_name c, tc_args c).
Definition pending_key (p : PendingCall) : string * string * Value := (pc_step_id p, pc_name p, pc_args p).
Definition pending_keys (s : TraceState) : list (string * string * Value) :=
  (fun e => pending_key e.2) <$> map_to_list (ts_pending s).

Lemma calls_app a b : calls (a ++ b) = calls a ++ calls b.
Proof. apply omap_app. Qed.

Section facts.
  Context `{Platform}.
  Variable episode_id : string.

(** The state after some events. *)
Record TraceRecords (events : list McpEvent) (s : TraceState) : Prop := {
  rec_pending id c : ts_pending s !! id = Some c ->
    exists i e, events !! i = Some e /\ is_call_request e (Some id) (pc_name c) (pc_args c) /\
      forall j e' r err, i < j -> events !! j = Some e' -> ~ is_call_response e' id r err;
  rec_calls c r : c ∈ calls (ts_out s) -> tc_result c = Some r -> Paired events c r
}.

Lemma paired_snoc events e c r : Paired events c r -> Paired (events ++ [e]) c r.
Proof.
  intros (req & resp & id & res & err & H1 & H2 & H3). exists req, resp, id, res, err.
  rewrite !elem_of_app. by split_and!; auto; apply H3.
Qed.

(** What one event does, apart from the steps it emits. *)
Inductive Effect (e : McpEvent) (s s' : TraceState) : list (string * string * Value) -> Prop :=
| eff_buffer id n a ts :
    is_call_request e (Some id) n a -> calls (ts_out s') = calls (ts_out s) ->
    ts_pending s' = <[id := mkPendingCall (step_id_of (ts_idx s)) n a ts]> (ts_pending s) ->
    Effect e s s' [(step_id_of (ts_idx s), n, a)]
| eff_unkeyed n a c :
    is_call_request e None n a -> calls (ts_out s') = calls (ts_out s) ++ [c] -> tc_result c = None ->
    call_key c = (step_id_of (ts_idx s), n, a) -> ts_pending s' = ts_pending s ->
    Effect e s s' [(step_id_of (ts_idx s), n, a)]
| eff_answer id r err call c :
    is_call_response e id r err -> ts_pending s !! id = Some call -> calls (ts_out s') = calls (ts_out s) ++ [c] ->
    tc_result c = Some (if err : bool then Obj [("error", r)] else r) -> call_key c = pending_key call ->
    ts_pending s' = delete id (ts_pending s) -> Effect e s s' []
| eff_none :
    (forall id n a, ~ is_call_request e (Some id) n a) ->
    (forall id r err, is_call_response e id r err -> ts_pending s !! id = None) ->
    calls (ts_out s') = calls (ts_out s) -> ts_pending s' = ts_pending s -> Effect e s s' [].

Lemma map_event_effect e s :
  exists new, Effect e s (map_event episode_id e s) new /\
    forall rest, requested (ts_idx s) (e :: rest) = new ++ requested (ts_idx (map_event episode_id e s)) rest.
Proof.
  unfold map_event. cbn [requested].
  set (s1 := match me_timestamp_ms e with Some _ => _ | None => _ end).
  assert (E1 : ts_out s1 = ts_out s /\ ts_pending s1 = ts_pending s /\ ts_idx s1 = ts_idx s)
    by (unfold s1; by destruct (me_timestamp_ms e)).
  destruct E1 as (Eo & Ep & Ei).
  assert (Hnr : forall id n a, is_call_request e (Some id) n a -> exists raw, me_payload e = ToolCallRequest n a raw)
    by (intros id n a (raw & ? & _); by exists raw).
  destruct (me_payload e) as [raw|raw|tools raw|name args raw|result err raw|raw|raw] eqn:El.
  1, 7: exists []; (split; [apply eff_none; [by intros id n a (? & ? & _); congruence | by intros id r er (? & ? & _); congruence
    | by rewrite Eo | done] | by rewrite Ei]).
  - exists []. split; [apply eff_none; cbn; [by intros id n a (? & ? & _); congruence | by intros id r er (? & ? & _); congruence
      | by rewrite calls_app, Eo, app_nil_r | done] | cbn; by rewrite Ei].
  - exists []. split; [apply eff_none; cbn; [by intros id n a (? & ? & _); congruence | by intros id r er (? & ? & _); congruence
      | by rewrite calls_app, Eo, app_nil_r | done] | cbn; by rewrite Ei].
  - exists [(step_id_of (ts_idx s), name, args)]. cbn [payload_raw]. destruct (correlation_id raw) as [id|] eqn:Ec.
    + split; [eapply (eff_buffer _ _ _ id); cbn; [by exists raw | by rewrite calls_app, Eo, app_nil_r | by rewrite Ep, Ei] | cbn; by rewrite Ei].
    + split; [eapply eff_unkeyed; cbn; [by exists raw | by rewrite calls_app, Eo | done | by rewrite Ei | done] | cbn; by rewrite Ei].
  - exists []. cbn [payload_raw]. destruct (correlation_id raw) as [id|] eqn:Ec.
    + destruct (ts_pending s1 !! id) as [call|] eqn:Epd; cbn.
      * split; [|by rewrite Ei]. eapply (eff_answer _ _ _ id result err call); cbn;
          [by exists raw | by rewrite <- Ep | by rewrite calls_app, Eo | done | done | by rewrite Ep].
      * split; [|by rewrite Ei]. apply eff_none; cbn; [by intros id' n a (? & ? & _); congruence | | by rewrite Eo | done].
        intros id' r er (raw' & Hr & Hid). rewrite El in Hr. injection Hr as _ _ <-. assert (id' = id) as -> by congruence. by rewrite <- Ep.
    + split; [|cbn; by rewrite Ei]. apply eff_none; cbn; [by intros id' n a (? & ? & _); congruence | | by rewrite Eo | done].
      intros id' r er (raw' & Hr & Hid). rewrite El in Hr. congruence.
  - exists []. split; [|by destruct (ts_final_output s1); cbn; rewrite Ei].
    apply eff_none; [by intros id n a (? & ? & _); congruence | by intros id r er (? & ? & _); congruence
      | by destruct (ts_final_output s1); cbn; rewrite Eo | by destruct (ts_final_output s1)].
Qed.

(** A request with no response after it, when the history grows. *)
Definition Waiting (events : list McpEvent) (id : CorrelationId) (c : PendingCall) : Prop :=
  exists i e, events !! i = Some e /\ is_call_request e (Some id) (pc_name c) (pc_args c) /\
    forall j e' r err, i < j -> events !! j = Some e' -> ~ is_call_response e' id r err.

Lemma waiting_keep events e id c :
  Waiting events id c -> (forall r err, ~ is_call_response e id r err) -> Waiting (events ++ [e]) id c.
Proof.
  intros (i & e0 & Hi & Hr & Hj) Hn. exists i, e0. split_and!; [by apply lookup_app_l_Some | done |].
  intros j e' r err Hlt He'. apply lookup_app_Some in He' as [He' | [_ He']]; [by eapply Hj|].
  apply list_lookup_singleton_Some in He' as [_ ->]. apply Hn.
Qed.

Lemma waiting_new events e id c :
  is_call_request e (Some id) (pc_name c) (pc_args c) -> Waiting (events ++ [e]) id c.
Proof.
  intros Hr. exists (length events), e. rewrite lookup_app_r, Nat.sub_diag by lia. split_and!; [done..|].
  intros j e' r err Hlt He'. apply lookup_lt_Some in He'. rewrite length_app in He'. simpl in He'. lia.
Qed.

Lemma request_not_response e id id' n a r err : is_call_request e id n a -> ~ is_call_response e id' r err.
Proof. intros (? & ? & _) (? & ? & _). congruence. Qed.

Lemma waiting_elem events id c :
  Waiting events id c -> exists e, e ∈ events /\ is_call_request e (Some id) (pc_name c) (pc_args c).
Proof. intros (i & e & Hi & Hr & _). exists e. split; [by eapply list_elem_of_lookup_2 | done]. Qed.

Lemma records_snoc events s e s' new :
  TraceRecords events s -> Effect e s s' new -> TraceRecords (events ++ [e]) s'.
Proof.
  intros [Hp Hc] He. split.
  - intros id c Hid. change (Waiting (events ++ [e]) id c).
    destruct He as [id0 n a ts Hr _ E | n a c0 Hr _ _ _ E | id0 r err call c0 Hr Hcall _ _ _ E | Hn1 Hn2 _ E]; rewrite E in Hid.
    + apply lookup_insert_Some in Hid as [[<- <-] | [_ Hid]]; [by apply waiting_new|].
      apply waiting_keep; [by apply Hp|]. intros r err. by eapply request_not_response.
    + apply waiting_keep; [by apply Hp|]. intros r err. by eapply request_not_response.
    + apply lookup_delete_Some in Hid as [Hne Hid]. apply waiting_keep; [by apply Hp|].
      intros r' err' (raw & H1 & H2). destruct Hr as (raw' & H3 & H4). congruence.
    + apply waiting_keep; [by apply Hp|]. intros r err Hr. apply Hn2 in Hr. congruence.
  - intros c r Hin Hres.
    destruct He as [id0 n a ts Hr E _ | n a c0 Hr E Hnone _ _ | id0 r0 err call c0 Hr Hcall E Hres0 Hk _ | Hn1 Hn2 E _]; rewrite E in Hin.
    + by apply paired_snoc, Hc.
    + apply elem_of_app in Hin as [Hin | ->%list_elem_of_singleton]; [by apply paired_snoc, Hc | congruence].
    + apply elem_of_app in Hin as [Hin | ->%list_elem_of_singleton]; [by apply paired_snoc, Hc|].
      destruct (waiting_elem _ _ _ (Hp _ _ Hcall)) as (req & Hreq & Hrq).
      injection Hk as _ Hname Hargs. exists req, e, id0, r0, err. rewrite !elem_of_app, !list_elem_of_singleton, Hname, Hargs.
      split_and!; [by left | by right | done | done |].
      rewrite Hres0 in Hres. by injection Hres as <-.
    + by apply paired_snoc, Hc.
Qed.

Lemma overlap_prefix events e : Overlap events -> Overlap (events ++ [e]).
Proof.
  intros (i & k & a & b & id & n & x & n' & x' & Hlt & Hi & Hk & Ha & Hb & Hj).
  exists i, k, a, b, id, n, x, n', x'. split_and!; [done | by apply lookup_app_l_Some | by apply lookup_app_l_Some | done | done |].
  intros j e' r err Hlt' He'. apply (Hj j); [done|]. apply lookup_app_Some in He' as [He' | [Hge _]]; [done|].
  apply lookup_lt_Some in Hk. lia.
Qed.

Lemma keys_snoc events s e s' new reqs :
  TraceRecords events s -> Effect e s s' new -> ~ Overlap (events ++ [e]) ->
  (call_key <$> calls (ts_out s)) ++ pending_keys s ≡ₚ reqs ->
  (call_key <$> calls (ts_out s')) ++ pending_keys s' ≡ₚ reqs ++ new.
Proof.
  intros [Hp _] He Hno Hk. unfold pending_keys in *.
  destruct He as [id n a ts Hr E Ep | n a c0 Hr E _ Hkey Ep | id r err call c0 Hr Hcall E _ Hkey Ep | _ _ E Ep]; rewrite E, Ep.
  - assert (Hn : ts_pending s !! id = None).
    { destruct (ts_pending s !! id) as [c|] eqn:Ec; [|done]. exfalso. apply Hno.
      destruct (Hp _ _ Ec) as (i & e0 & Hi & Hq & Hj).
      assert (Hlt := lookup_lt_Some _ _ _ Hi).
      exists i, (length events), e0, e, id, (pc_name c), (pc_args c), n, a. split_and!; [done | by apply lookup_app_l_Some | | done | done |].
      - by rewrite lookup_app_r, Nat.sub_diag by lia.
      - intros j e' r err Hj' He'. apply (Hj j); [lia|]. by rewrite lookup_app_l in He' by lia. }
    rewrite map_to_list_insert by done. cbn. rewrite <- Hk, <- app_assoc. apply Permutation_app_head.
    unfold pending_key at 1. cbn. by rewrite Permutation_cons_append.
  - rewrite fmap_app. cbn. rewrite Hkey, <- Hk, <- app_assoc, <- app_assoc. apply Permutation_app_head.
    by rewrite (Permutation_app_comm [_]).
  - rewrite fmap_app, app_nil_r, <- Hk, <- app_assoc. apply Permutation_app_head. cbn. rewrite Hkey.
    rewrite <- (insert_delete_id (ts_pending s) id call Hcall) at 2.
    rewrite map_to_list_insert by apply lookup_delete_eq. done.
  - by rewrite app_nil_r.
Qed.

Definition run (init : TraceState) (events : list McpEvent) : TraceState :=
  foldl (fun s e => map_event episode_id e s) init events.

Lemma run_facts init events :
  ts_pending init = ∅ -> calls (ts_out init) = [] -> ts_idx init = 0%Z ->
  TraceRecords events (run init events) /\
  exists reqs, (forall rest, requested 0 (events ++ rest) = reqs ++ requested (ts_idx (run init events)) rest) /\
    (~ Overlap events -> (call_key <$> calls (ts_out (run init events))) ++ pending_keys (run init events) ≡ₚ reqs).
Proof.
  intros Hp Hc Hi. induction events as [|e events IH] using rev_ind.
  - split; [split; cbn; [intros id c H'; rewrite Hp in H'; by rewrite lookup_empty in H' | intros c r H'; rewrite Hc in H'; by inversion H']|].
    exists []. cbn. split; [by rewrite Hi|]. intros _. unfold pending_keys. by rewrite Hc, Hp, map_to_list_empty.
  - destruct IH as (Hr & reqs & Hreq & Hk). unfold run. rewrite foldl_app. cbn [foldl]. fold (run init events).
    destruct (map_event_effect e (run init events)) as (new & He & Hn). split; [by eapply records_snoc|].
    exists (reqs ++ new). split; [intros rest; by rewrite <- app_assoc, Hreq, <- (app_assoc reqs), <- Hn|].
    intros Hno. eapply keys_snoc; [done.. |]. apply Hk. intros Ho. by apply Hno, overlap_prefix.
Qed.
End facts.

(** When no id is reused before its response in the order of the sorted
    events, the trace has exactly one entry for each requested call, with its
    step, name and arguments, whatever the order in which unanswered calls are
    flushed; and always, an entry's result is that of a response under the id
    of its own request. *)
Theorem trace_calls `{Platform} now drain events episode_id test_id prompt_override :
  (forall m, drain m ≡ₚ map_to_list m) ->
  let trace := calls (mcp_events_to_v2_trace now drain events episode_id test_id prompt_override) in
  (~ Overlap (sort_events events) -> call_key <$> trace ≡ₚ requested 0 (sort_events events)) /\
  (forall c r, c ∈ trace -> tc_result c = Some r -> Paired events c r).
Proof.
  intros Hd trace. unfold trace, mcp_events_to_v2_trace. set (sorted := sort_events events).
  set (init := mkTraceState _ ∅ 0 _ None).
  destruct (run_facts episode_id init sorted) as (Hr & reqs & Hreq & Hk); [done..|].
  change (foldl (fun s e => map_event episode_id e s) init sorted) with (run episode_id init sorted).
  set (s := run episode_id init sorted) in *.
  set (flushed := _ <$> drain (ts_pending s)).
  assert (Ef : call_key <$> calls flushed ≡ₚ pending_keys s).
  { unfold flushed, pending_keys. rewrite <- (Hd (ts_pending s)).
    induction (drain (ts_pending s)) as [|[id c] l IH]; [done|]. cbn. by rewrite IH. }
  assert (Hfl : Forall (fun c => tc_result c = None) (calls flushed)).
  { unfold flushed. clear. induction (drain (ts_pending s)) as [|[id c] l IH]; [constructor|]. by constructor. }
  rewrite !calls_app. cbn [calls omap list_omap]. rewrite app_nil_r. split.
  - intros Hno. rewrite fmap_app, Ef, (Hk Hno). specialize (Hreq []). rewrite !app_nil_r in Hreq. cbn in Hreq.
    by rewrite Hreq.
  - intros c r [Hin | Hin]%elem_of_app Hres.
    + destruct Hr as [_ Hc]. destruct (Hc c r Hin Hres) as (req & resp & id & res & err & H1 & H2 & H3 & H4 & H5).
      exists req, resp, id, res, err. unfold sorted, sort_events in H1, H2. rewrite merge_sort_Permutation in H1, H2. by split_and!.
    + exfalso. eapply Forall_forall in Hfl; [|exact Hin]. congruence.
Qed.

(** ** What sorting by time does to correlation *)

#[global] Instance event_le_total : Total event_le.
Proof.
  intros a b. unfold event_le. destruct (event_key a) as [[ta la] ia], (event_key b) as [[tb lb] ib].
  destruct (Z.lt_total ta tb) as [|[->|]]; [by left; left | | by right; left].
  destruct (Z.lt_total la lb) as [|[->|]]; [left; right; by auto | | right; right; by auto].
  destruct (str_le_total ia ib); [left | right]; right; auto.
Qed.

Lemma sort_two a b : ~ event_le a b -> sort_events [a; b] = [b; a].
Proof.
  intros Hn. assert (Hp := merge_sort_Permutation event_le [a; b]). symmetry in Hp.
  apply Permutation_length_2_inv in Hp as [E | E]; [|done].
  exfalso. apply Hn. assert (Hs := Sorted_merge_sort event_le [a; b]). rewrite E in Hs.
  inversion Hs as [|? ? _ Hh]; subst. by inversion Hh.
Qed.

(** A response that carries no timestamp is sorted before its request when
    the request carries one, so the call it answers is reported as never
    answered. *)
Theorem untimed_response_lost `{Platform} now drain episode_id req resp key name args result is_error t :
  (forall m, drain m ≡ₚ map_to_list m) ->
  is_call_request req (Some key) name args -> is_call_response resp key result is_error ->
  me_timestamp_ms req = Some t -> (0 < t)%Z -> me_timestamp_ms resp = None ->
  calls (mcp_events_to_v2_trace now drain [req; resp] episode_id None None) =
    [mkToolCallEntry episode_id (step_id_of 0) t name (Some 0%Z) args None None None (Some "timeout/no_response") []].
Proof.
  intros Hd (raw & Hreq & Hid) (raw' & Hresp & Hid') Ht Hpos Hn.
  assert (Hs : sort_events [req; resp] = [resp; req]).
  { apply sort_two. unfold event_le, event_key. rewrite Ht, Hn. simpl. lia. }
  unfold mcp_events_to_v2_trace. rewrite Hs. cbn [foldl].
  unfold min_timestamp. cbn [foldl]. rewrite Ht, Hn. cbn [default from_option]. unfold id.
  set (start := TEpisodeStart _).
  assert (E1 : map_event episode_id resp (mkTraceState [start] ∅ 0 t None) =
    mkTraceState [start] ∅ 0 t (Some (json_to_string result))).
  { unfold map_event. rewrite Hn, Hresp. cbn [payload_raw]. rewrite Hid'. cbn. by rewrite lookup_empty. }
  rewrite E1.
  assert (E2 : exists step, map_event episode_id req (mkTraceState [start] ∅ 0 t (Some (json_to_string result))) =
    mkTraceState [start; TStep step] {[ key := mkPendingCall (step_id_of 0) name args t ]} 1 t (Some (json_to_string result))).
  { unfold map_event. rewrite Ht, Hreq. cbn [payload_raw]. rewrite Hid. cbn. rewrite Z.max_id. eexists. done. }
  destruct E2 as [step ->]. cbn [ts_out ts_pending ts_last_ts ts_final_output].
  assert (Hl : drain {[ key := mkPendingCall (step_id_of 0) name args t ]} = [(key, mkPendingCall (step_id_of 0) name args t)]).
  { apply Permutation_singleton_r. rewrite Hd. by rewrite map_to_list_singleton. }
  rewrite Hl. done.
Qed.
