(* ===== verification/DecisionTruth.v ===== *)
(** * Tool-decision truth records

    [assay-core/src/mcp/tool_decision_truth] and the declared-constraint digest
    of [mcp/policy/mod.rs]: the verdict gate over everything a policy declares,
    the carrier record with its keyed argument digest, and the evidence-pack
    row that cites a carrier.  Verdicts are the strings the code compares; a
    [serde_json] object built with [json!] is the list of its members in
    order.  HMAC and [char::to_lowercase] are interfaces of their own, as is
    the [Serialize] implementation that [serde] derives for a policy. *)
From stdpp Require Import base tactics list strings gmap sorting.
From Stdlib Require Import Ascii ZArith Lia.
From S2P Require Import Prelude RustStr Json Platform PolicyTypes ToolPattern PolicySchema PolicyEngine.

(** HMAC-SHA-256 of a message under a key, in lower-case hexadecimal. *)
Class Hmac : Type := { hmac_sha256_hex : string -> string -> string }.

(** [char::to_lowercase], on the UTF-8 bytes of one character. *)
Class CharCase : Type := { char_to_lowercase : string -> string }.

(** [serde_json::to_value] of a policy. *)
Class PolicyToValue : Type := { policy_to_value : McpPolicy -> option Value }.

(** ** Digests and vocabularies *)

Definition SCHEMA : string := "assay.tool_decision_truth.v0".
Definition RECIPE : string := "tool_decision_truth.v0".

Definition is_lower_hex (c : Ascii.ascii) : bool :=
  let b := byte_of c in
  ((N.leb 48 b && N.leb b 57) || (N.leb 97 b && N.leb b 102))%bool.

Definition is_sha256_digest (s : string) : bool :=
  starts_with s "sha256:" &&
  (let hex := str_drop 7 s in (str_len hex =? 64)%Z && str_forall is_lower_hex hex).

Definition SOURCE_CLASSES : list string := ["authoritative_boundary"; "reported_trace"; "inferred"].
Definition RESULT_STATUSES : list string := ["ok"; "error"; "n/a"].
Definition IDENTITY_STATES : list string := ["present"; "absent"; "required_missing"; "invalid"].

Definition contains (l : list string) (s : string) : bool := existsb (String.eqb s) l.

(** ** verdict.rs: the lattice *)

Definition verdict_rank (v : string) : nat :=
  if String.eqb v "match" then 0
  else if String.eqb v "incomplete" then 1
  else if String.eqb v "mismatch" then 2
  else 3.

Definition to_static_verdict (v : string) : string :=
  if String.eqb v "match" then "match"
  else if String.eqb v "incomplete" then "incomplete"
  else if String.eqb v "mismatch" then "mismatch"
  else "invalid".

Definition enforcement_axis (mode : UnconstrainedMode) : string :=
  match mode with UDeny => "mismatch" | UAllow => "match" | UWarn => "incomplete" end.

Definition nonempty (list : option (list string)) : Datatypes.list string := default [] list.

(** [iter().max_by_key]: the last of the maximal elements. *)
Definition max_by_key {A} (key : A -> nat) (l : list A) : option A :=
  foldl (fun best x => match best with
                       | Some b => if key b <=? key x then Some x else best
                       | None => Some x
                       end) None l.

(** The runtime evidence of one call. *)
Record DecisionEvidence : Type := mkDecisionEvidence {
  de_tool_classes : option (list string);
  de_approval_obtained : option bool;
  de_scope_satisfied : option bool;
  de_redaction_applied : option bool
}.

Definition decision_evidence_default : DecisionEvidence := mkDecisionEvidence None None None None.

Inductive Applicability : Type := Applicable | NotApplicable | Undeterminable.

Section Gate.
Context `{Platform}.

(** ** verdict.rs: the axes *)

Definition tool_axis (policy : McpPolicy) (tool_name : string) : string :=
  if existsb (matches_tool_pattern tool_name) (nonempty (tp_deny (mp_tools policy)))
  then "mismatch"
  else
    let allow := nonempty (tp_allow (mp_tools policy)) in
    if negb (is_nil allow)
    then if existsb (matches_tool_pattern tool_name) allow then "match" else "mismatch"
    else enforcement_axis (es_unconstrained_tools (mp_enforcement policy)).

Definition args_axis (policy : McpPolicy) (tool_name : string) (args : option Value) : string :=
  match args with
  | None => "incomplete"
  | Some args =>
      match check_tool_args policy tool_name args with
      | NoSchema => enforcement_axis (es_unconstrained_tools (mp_enforcement policy))
      | Valid => "match"
      | Invalid => "mismatch"
      | Malformed => "invalid"
      end
  end.

Definition identity_axis (identity_state : string) : string :=
  if String.eqb identity_state "present" || String.eqb identity_state "absent" then "match"
  else if String.eqb identity_state "required_missing" then "incomplete"
  else "invalid".

Definition class_axis (policy : McpPolicy) (tool_classes : option (list string)) : string :=
  let deny_c := nonempty (tp_deny_classes (mp_tools policy)) in
  let allow_c := nonempty (tp_allow_classes (mp_tools policy)) in
  if is_nil deny_c && is_nil allow_c then "match"
  else
    match tool_classes with
    | None => "incomplete"
    | Some tc =>
        if negb (is_nil deny_c) && existsb (contains deny_c) tc then "mismatch"
        else if negb (is_nil allow_c) && negb (existsb (contains allow_c) tc) then "mismatch"
        else "match"
    end.

Definition applicability (names classes : list string) (tool_name : string)
    (tool_classes : option (list string)) : Applicability :=
  if existsb (matches_tool_pattern tool_name) names then Applicable
  else if is_nil classes then NotApplicable
  else
    match tool_classes with
    | None => Undeterminable
    | Some tc => if existsb (contains classes) tc then Applicable else NotApplicable
    end.

Definition obligation_axis (applic : Applicability) (satisfied : option bool) : string :=
  match applic with
  | NotApplicable => "match"
  | Undeterminable => "incomplete"
  | Applicable =>
      match satisfied with
      | None => "incomplete"
      | Some true => "match"
      | Some false => "mismatch"
      end
  end.

(** The seven axes of [decision_verdict], in its order. *)
Definition verdict_axes (policy : McpPolicy) (tool_name : string) (args : option Value)
    (identity_state : string) (evidence : DecisionEvidence) : list string :=
  let p := normalized_declared_view policy in
  let t := mp_tools p in
  let tc := de_tool_classes evidence in
  let approval := applicability (nonempty (tp_approval_required t))
                    (nonempty (tp_approval_required_classes t)) tool_name tc in
  let scope := applicability (nonempty (tp_restrict_scope t))
                 (nonempty (tp_restrict_scope_classes t)) tool_name tc in
  let redaction := applicability (nonempty (tp_redact_args t))
                     (nonempty (tp_redact_args_classes t)) tool_name tc in
  [tool_axis p tool_name; args_axis p tool_name args; identity_axis identity_state;
   class_axis p tc; obligation_axis approval (de_approval_obtained evidence);
   obligation_axis scope (de_scope_satisfied evidence);
   obligation_axis redaction (de_redaction_applied evidence)].

Definition decision_verdict (policy : McpPolicy) (tool_name : string) (args : option Value)
    (identity_state : string) (evidence : DecisionEvidence) : string :=
  default "match"
    (max_by_key verdict_rank (verdict_axes policy tool_name args identity_state evidence)).

(** ** verdict.rs: the run *)

(** The [HashSet] loop: whether some order was seen before. *)
Fixpoint repeats_order (seen : gset Z) (orders : list Z) : bool :=
  match orders with
  | [] => false
  | o :: r => if decide (o ∈ seen) then true else repeats_order ({[o]} ∪ seen) r
  end.

Definition worst_verdict (decision_verdicts : list string) : string :=
  foldl (fun worst v =>
    let s := to_static_verdict v in
    if verdict_rank worst <? verdict_rank s then s else worst) "match" decision_verdicts.

Definition run_verdict (decision_verdicts : list string) (orders : list Z) : string :=
  if negb (Nat.eqb (length decision_verdicts) (length orders)) then "invalid"
  else if repeats_order ∅ orders then "invalid"
  else worst_verdict decision_verdicts.

End Gate.

(** ** digest.rs *)

(** Compared after normalisation. *)
Definition SECRET_KEY_TOKENS : list string :=
  ["token"; "accesstoken"; "refreshtoken"; "authtoken"; "idtoken"; "sessiontoken"; "password";
   "passwd"; "apikey"; "secret"; "clientsecret"; "secretkey"; "authorization"; "credential";
   "credentials"; "privatekey"; "secretaccesskey"].

Definition ARGS_DIGEST_DOMAIN : string := "assay.tool_args.v0".

Definition is_key_id_byte (b : Ascii.ascii) : bool :=
  is_ascii_alphanumeric b || Ascii.eqb b "."%char || Ascii.eqb b "_"%char || Ascii.eqb b "-"%char.

Definition is_valid_key_id (key_id : string) : bool :=
  negb (str_is_empty key_id) && str_forall is_key_id_byte key_id.

(** [json!] of an [i64]. *)
Definition json_i64 (n : Z) : Value := Num (if (n <? 0)%Z then NegInt n else PosInt n).

Section Digest.
Context `{Platform} `{Hmac} `{CharCase} `{PolicyToValue}.

Definition normalize_key (key : string) : string :=
  str_concat (map char_to_lowercase
    (filter (fun c => c <> "_" /\ c <> "-" /\ c <> " ") (chars key))).

Definition is_secret_key (key : string) : bool := contains SECRET_KEY_TOKENS (normalize_key key).

Fixpoint project_args_for_digest (value : Value) : Value :=
  match value with
  | Obj obj =>
      Obj ((fix members (obj : Map) (out : Map) : Map :=
              match obj with
              | [] => out
              | (k, v) :: obj =>
                  if is_secret_key k then members obj out
                  else members obj (map_insert out k (project_args_for_digest v))
              end) obj [])
  | Arr arr => Arr (map project_args_for_digest arr)
  | other => other
  end.

Definition args_digest (args : Value) (key key_id : string) : option string :=
  if str_is_empty key || negb (is_valid_key_id key_id) then None
  else
    let proj := project_args_for_digest args in
    canonical ← jcs_to_string proj;
    let preimage := ARGS_DIGEST_DOMAIN +:+ ":" +:+ key_id +:+ ":" +:+ canonical in
    Some ("hmac-sha256:" +:+ key_id +:+ ":" +:+ hmac_sha256_hex key preimage).

(** [format!("sha256:{}", sha256_hex(&jcs::to_string(v).ok()?))]. *)
Definition jcs_digest (v : Value) : option string :=
  canonical ← jcs_to_string v;
  Some ("sha256:" +:+ sha256_hex canonical).

Definition observed_input_digest (tool_name args_digest : string) (order : Z) : option string :=
  jcs_digest (Obj [("tool_name", Str tool_name); ("args_digest", Str args_digest);
                   ("order", json_i64 order)]).

Definition build_record (tool_name : string) (args : Value) (order : Z)
    (declared_policy_digest key key_id source_class call_id result_status identity_state : string)
    : option Value :=
  if negb (contains SOURCE_CLASSES source_class) || negb (contains RESULT_STATUSES result_status)
     || negb (contains IDENTITY_STATES identity_state) then None
  else if negb (is_sha256_digest declared_policy_digest) then None
  else
    ad ← args_digest args key key_id;
    oid ← observed_input_digest tool_name ad order;
    Some (Obj
      [("schema", Str SCHEMA);
       ("tool_name", Str tool_name);
       ("args_digest", Str ad);
       ("order", json_i64 order);
       ("source_class", Str source_class);
       ("call_id", Str call_id);
       ("result_status", Str result_status);
       ("identity_state", Str identity_state);
       ("key_id", Str key_id);
       ("declared_ref", Null);
       ("decision_verdict", Null);
       ("observed_input_digest", Str oid);
       ("declared_policy_digest", Str declared_policy_digest);
       ("decision_identity",
        Obj [("observed_input_digest", Str oid);
             ("declared_policy_digest", Str declared_policy_digest)])]).

(** ** mcp/policy/mod.rs: the declared-constraint digest *)

(** The comparison of [sort_by_canon]: by canonical text, stable. *)
Definition keyed_le (a b : string * Value) : Prop := str_le (fst a) (fst b).
#[global] Instance keyed_le_dec a b : Decision (keyed_le a b).
Proof. unfold keyed_le, str_le. apply _. Defined.

Definition keyed_by_canon (arr : list Value) : option (list (string * Value)) :=
  mapM (fun v => k ← jcs_to_string v; Some (k, v)) arr.

Definition sort_by_canon (arr : list Value) : option (list Value) :=
  keyed ← keyed_by_canon arr;
  Some (map snd (merge_sort keyed_le keyed)).

(** One direct child of [properties]: its [enum] is sorted. *)
Definition normalize_property (spec : Value) : option (option Value) :=
  match vget spec "enum" ≫= as_array with
  | Some en =>
      e ← sort_by_canon en;
      let so := default [] (as_object spec) in
      Some (Some (Obj (map_insert so "enum" (Arr e))))
  | None => Some None
  end.

(** The loop over [props] that rewrites [p]. *)
Fixpoint normalize_properties (props p : Map) : option Map :=
  match props with
  | [] => Some p
  | (field, spec) :: props =>
      n ← normalize_property spec;
      normalize_properties props
        (match n with Some so => map_insert p field so | None => p end)
  end.

Definition normalize_schema (sch : Value) : option Value :=
  match as_object sch with
  | None => Some sch
  | Some out =>
      out ← (match map_get out "required" ≫= as_array with
             | Some req => r ← sort_by_canon req; Some (map_insert out "required" (Arr r))
             | None => Some out
             end);
      out ← (match map_get out "properties" ≫= as_object with
             | Some props =>
                 p ← normalize_properties props props;
                 Some (map_insert out "properties" (Obj p))
             | None => Some out
             end);
      Some (Obj out)
  end.

Definition DECLARED_TOOL_KEYS : list string :=
  ["allow"; "deny"; "allow_classes"; "deny_classes"; "approval_required";
   "approval_required_classes"; "restrict_scope"; "restrict_scope_classes"; "redact_args";
   "redact_args_classes"].

Fixpoint project_tools (keys : list string) (tools t : Map) : option Map :=
  match keys with
  | [] => Some t
  | k :: keys =>
      match map_get tools k ≫= as_array with
      | Some arr => a ← sort_by_canon arr; project_tools keys tools (map_insert t k (Arr a))
      | None => project_tools keys tools t
      end
  end.

Fixpoint project_schemas (schemas s : Map) : option Map :=
  match schemas with
  | [] => Some s
  | (name, sch) :: schemas =>
      n ← normalize_schema sch; project_schemas schemas (map_insert s name n)
  end.

Definition project_scalar (o proj : Map) (key : string) : Map :=
  match map_get o key with Some v => map_insert proj key v | None => proj end.

Definition project_and_normalize_declared (full : Value) : option Value :=
  match as_object full with
  | None => Some (Obj [])
  | Some o =>
      let proj := foldl (project_scalar o) [] ["version"; "enforcement"] in
      proj ← (match map_get o "tools" ≫= as_object with
              | Some tools =>
                  t ← project_tools DECLARED_TOOL_KEYS tools [];
                  Some (map_insert proj "tools" (Obj t))
              | None => Some proj
              end);
      proj ← (match map_get o "schemas" ≫= as_object with
              | Some schemas =>
                  s ← project_schemas schemas [];
                  Some (map_insert proj "schemas" (Obj s))
              | None => Some proj
              end);
      Some (Obj proj)
  end.

Definition declared_constraint_digest (self : McpPolicy) : option string :=
  let p := normalized_declared_view self in
  full ← policy_to_value p;
  proj ← project_and_normalize_declared full;
  jcs_digest proj.

(** ** verdict.rs: the classified record *)

(** [value[key] = v] on an object. *)
Definition vset (value : Value) (key : string) (v : Value) : Value :=
  match value with Obj m => Obj (map_insert m key v) | other => other end.

Definition build_classified_record (policy : McpPolicy) (tool_name : string) (args : Value)
    (order : Z) (key key_id source_class call_id result_status identity_state : string)
    (evidence : DecisionEvidence) : option Value :=
  declared ← declared_constraint_digest policy;
  record ← build_record tool_name args order declared key key_id source_class call_id
             result_status identity_state;
  Some (vset record "decision_verdict"
          (Str (decision_verdict policy tool_name (Some args) identity_state evidence))).

(** ** pack.rs *)

Definition is_verdict (s : string) : bool :=
  String.eqb s "match" || String.eqb s "incomplete" || String.eqb s "mismatch"
  || String.eqb s "invalid".

Definition run_verdict_covers_carrier (carrier : Value) (run_verdict : string) : bool :=
  match vget carrier "decision_verdict" with
  | None | Some Null => true
  | Some (Str cv) => is_verdict cv && (verdict_rank cv <=? verdict_rank run_verdict)
  | Some _ => false
  end.

Definition decision_identity_digest (observed_input_digest declared_policy_digest : string)
    : option string :=
  jcs_digest (Obj [("observed_input_digest", Str observed_input_digest);
                   ("declared_policy_digest", Str declared_policy_digest)]).

Definition carrier_content_digest (carrier : Value) : option string := jcs_digest carrier.

Definition evidence_ref (carrier_content_digest reference : string) : Value :=
  Obj [("type", Str "tool_decision_truth");
       ("digest", Str carrier_content_digest);
       ("digest_subject", Str "carrier_content");
       ("canonicalization", Str "jcs-json-v1");
       ("schema", Str SCHEMA);
       ("ref", Str reference)].

(** What the coherence binding of a row covers. *)
Definition binding_input (er : Value) (identity run_verdict : string) : Value :=
  Obj [("recipe", Str RECIPE);
       ("evidence_ref", er);
       ("decision_identity_digest", Str identity);
       ("run_verdict", Str run_verdict)].

Definition get_str (v : Value) (k : string) : option string := vget v k ≫= as_str.

Definition pack_recipe_row (carrier : Value) (run_verdict reference : string) : option Value :=
  if negb (is_verdict run_verdict) || negb (run_verdict_covers_carrier carrier run_verdict)
  then None
  else
    oid ← get_str carrier "observed_input_digest";
    dpd ← get_str carrier "declared_policy_digest";
    if negb (is_sha256_digest oid) || negb (is_sha256_digest dpd) then None
    else
      content ← carrier_content_digest carrier;
      identity ← decision_identity_digest oid dpd;
      let er := evidence_ref content reference in
      coherence_binding ← jcs_digest (binding_input er identity run_verdict);
      Some (Obj [("recipe", Str RECIPE);
                 ("evidence_ref", er);
                 ("decision_identity_digest", Str identity);
                 ("run_verdict", Str run_verdict);
                 ("coherence_binding", Str coherence_binding)]).

Definition is_str (o : option string) (s : string) : bool :=
  match o with Some x => String.eqb x s | None => false end.

Definition verify_recipe_row (row carrier : Value) (run_verdict : string) : bool :=
  if negb (is_str (get_str row "recipe") RECIPE) then false
  else
    match vget row "evidence_ref" with
    | None => false
    | Some er =>
        if negb (is_str (get_str er "type") "tool_decision_truth")
           || negb (is_str (get_str er "schema") SCHEMA)
           || negb (is_str (get_str er "canonicalization") "jcs-json-v1")
           || negb (is_str (get_str er "digest_subject") "carrier_content") then false
        else if negb (is_str (get_str row "run_verdict") run_verdict) then false
        else if negb (is_verdict run_verdict) || negb (run_verdict_covers_carrier carrier run_verdict)
        then false
        else
          match get_str er "digest", get_str row "decision_identity_digest" with
          | Some er_digest, Some row_identity =>
              if negb (is_sha256_digest er_digest) || negb (is_sha256_digest row_identity) then false
              else if negb (is_str (carrier_content_digest carrier) er_digest) then false
              else
                match get_str carrier "observed_input_digest",
                      get_str carrier "declared_policy_digest" with
                | Some oid, Some dpd =>
                    if negb (is_sha256_digest oid) || negb (is_sha256_digest dpd) then false
                    else if negb (is_str (decision_identity_digest oid dpd) row_identity) then false
                    else
                      match jcs_digest (binding_input er row_identity run_verdict) with
                      | Some expected => is_str (get_str row "coherence_binding") expected
                      | None => false
                      end
                | _, _ => false
                end
          | _, _ => false
          end
    end.

End Digest.
