(* ===== verification/DecisionTruthCorrect.v ===== *)
(** * Tool-decision truth records: theorems

    The verdict gate is characterised without its axes and related to the
    policy engine; the run verdict is the worst of its decisions over distinct
    orders; the argument digest depends on nothing under a secret key; the
    declared digest ignores the order of the set-like fields; a carrier can be
    cited exactly under the verdicts that do not understate it, and a verified
    row binds one carrier digest. *)
From stdpp Require Import base tactics list strings gmap sorting.
From Stdlib Require Import Ascii ZArith Lia.
From S2P Require Import Prelude RustStr Json Platform PolicyTypes ToolPattern PolicySchema PolicyEngine DecisionTruth.

(** ** The lattice *)

Lemma max_by_key_spec {A} (key : A -> nat) l b :
  max_by_key key l = Some b -> b ∈ l /\ (forall x, x ∈ l -> key x <= key b).
Proof.
  unfold max_by_key. revert b. induction l as [|y l IH] using rev_ind; intros b; [done|].
  rewrite foldl_app. simpl. destruct (foldl _ None l) as [b'|] eqn:E.
  - destruct (IH _ eq_refl) as [Hin Hmax].
    destruct (Nat.leb_spec (key b') (key y)); intros [= <-]; (split; [set_solver|]);
      intros x [Hx| ->%list_elem_of_singleton]%elem_of_app; try lia;
      specialize (Hmax x Hx); lia.
  - intros [= <-]. split; [set_solver|].
    destruct l as [|z l] using rev_ind; [intros x ->%list_elem_of_singleton; lia|].
    rewrite foldl_app in E. simpl in E. repeat case_match; done.
Qed.

Lemma max_by_key_is_Some {A} (key : A -> nat) l : l <> [] -> is_Some (max_by_key key l).
Proof.
  intros Hl. destruct l as [|y l _] using rev_ind; [done|].
  unfold max_by_key. rewrite foldl_app. simpl. repeat case_match; eauto.
Qed.

Lemma verdict_rank_match v : verdict_rank v = 0 <-> v = "match".
Proof.
  unfold verdict_rank. destruct (String.eqb_spec v "match") as [->|]; [done|].
  destruct (String.eqb v "incomplete"), (String.eqb v "mismatch"); naive_solver.
Qed.

Lemma rank_to_static v : verdict_rank (to_static_verdict v) = verdict_rank v.
Proof.
  unfold to_static_verdict, verdict_rank.
  by destruct (String.eqb v "match"), (String.eqb v "incomplete"), (String.eqb v "mismatch").
Qed.

(** ** What it takes to match *)

Section Gate.
Context `{Platform}.

(** The name is not denied, and an allow entry names it; with no entry the
    policy must let unlisted tools through. *)
Definition NameMatches (p : McpPolicy) (tool_name : string) : Prop :=
  let allow := nonempty (tp_allow (mp_tools p)) in
  (forall d, d ∈ nonempty (tp_deny (mp_tools p)) -> ~ PatternMatches d tool_name) /\
  (if is_nil allow then es_unconstrained_tools (mp_enforcement p) = UAllow
   else exists a, a ∈ allow /\ PatternMatches a tool_name).

Definition ArgsMatch (p : McpPolicy) (tool_name : string) (args : option Value) : Prop :=
  exists v, args = Some v /\
    (check_tool_args p tool_name v = Valid \/
     check_tool_args p tool_name v = NoSchema /\
     es_unconstrained_tools (mp_enforcement p) = UAllow).

(** Class lists need class evidence: none denied, one allowed if any is listed. *)
Definition ClassesMatch (p : McpPolicy) (tool_classes : option (list string)) : Prop :=
  let deny := nonempty (tp_deny_classes (mp_tools p)) in
  let allow := nonempty (tp_allow_classes (mp_tools p)) in
  (deny = [] /\ allow = []) \/
  exists tc, tool_classes = Some tc /\ (forall c, c ∈ tc -> c ∉ deny) /\
    (allow = [] \/ exists c, c ∈ tc /\ c ∈ allow).

(** An obligation that names the tool, or one of its classes, is met. *)
Definition ObligationMet (names classes : list string) (tool_name : string)
    (tool_classes : option (list string)) (satisfied : option bool) : Prop :=
  satisfied = Some true /\
    ((exists p, p ∈ names /\ PatternMatches p tool_name) \/
     exists tc c, tool_classes = Some tc /\ c ∈ tc /\ c ∈ classes) \/
  (forall p, p ∈ names -> ~ PatternMatches p tool_name) /\
    (classes = [] \/ exists tc, tool_classes = Some tc /\ forall c, c ∈ tc -> c ∉ classes).

Definition DeclaredMatch (p : McpPolicy) (tool_name : string) (args : option Value)
    (identity_state : string) (ev : DecisionEvidence) : Prop :=
  let t := mp_tools p in
  let tc := de_tool_classes ev in
  NameMatches p tool_name /\ ArgsMatch p tool_name args /\
  (identity_state = "present" \/ identity_state = "absent") /\
  ClassesMatch p tc /\
  ObligationMet (nonempty (tp_approval_required t)) (nonempty (tp_approval_required_classes t))
    tool_name tc (de_approval_obtained ev) /\
  ObligationMet (nonempty (tp_restrict_scope t)) (nonempty (tp_restrict_scope_classes t))
    tool_name tc (de_scope_satisfied ev) /\
  ObligationMet (nonempty (tp_redact_args t)) (nonempty (tp_redact_args_classes t))
    tool_name tc (de_redaction_applied ev).

Lemma contains_spec l s : contains l s = true <-> s ∈ l.
Proof.
  unfold contains. rewrite existsb_true. split.
  - intros (x & Hx & ->%String.eqb_eq). done.
  - intros Hs. exists s. by rewrite String.eqb_refl.
Qed.

Lemma any_contains_true l tc : existsb (contains l) tc = true <-> exists c, c ∈ tc /\ c ∈ l.
Proof. rewrite existsb_true. by setoid_rewrite contains_spec. Qed.

Lemma any_contains_false l tc : existsb (contains l) tc = false <-> forall c, c ∈ tc -> c ∉ l.
Proof.
  rewrite <- not_true_iff_false, any_contains_true. naive_solver.
Qed.

Lemma any_contains_nil tc : existsb (contains []) tc = false.
Proof. apply any_contains_false. intros c _ Hc. by inversion Hc. Qed.

Lemma any_pattern_false l n :
  existsb (matches_tool_pattern n) l = false <-> forall p, p ∈ l -> ~ PatternMatches p n.
Proof.
  rewrite <- not_true_iff_false, existsb_pattern. naive_solver.
Qed.

Lemma enforcement_axis_match m : enforcement_axis m = "match" <-> m = UAllow.
Proof. by destruct m. Qed.

Lemma tool_axis_match p n : tool_axis p n = "match" <-> NameMatches p n.
Proof.
  unfold tool_axis, NameMatches. cbv zeta. rewrite <- any_pattern_false.
  destruct (is_nil _); cbn [negb]; rewrite <- ?existsb_pattern;
    destruct (existsb _ (nonempty (tp_deny _))); [naive_solver| |naive_solver|].
  - rewrite enforcement_axis_match. naive_solver.
  - destruct (existsb _ _); naive_solver.
Qed.

Lemma args_axis_match p n a : args_axis p n a = "match" <-> ArgsMatch p n a.
Proof.
  unfold args_axis, ArgsMatch. destruct a as [v|]; [|naive_solver].
  transitivity (check_tool_args p n v = Valid \/
    check_tool_args p n v = NoSchema /\ es_unconstrained_tools (mp_enforcement p) = UAllow).
  - destruct (check_tool_args p n v); rewrite ?enforcement_axis_match; intuition congruence.
  - split; [intros Hv; by exists v | by intros (? & [= <-] & ?)].
Qed.

Lemma identity_axis_match s : identity_axis s = "match" <-> s = "present" \/ s = "absent".
Proof.
  unfold identity_axis.
  destruct (String.eqb_spec s "present"), (String.eqb_spec s "absent"),
    (String.eqb_spec s "required_missing"); naive_solver.
Qed.

Lemma class_axis_match p tc : class_axis p tc = "match" <-> ClassesMatch p tc.
Proof.
  unfold class_axis, ClassesMatch. cbv zeta.
  generalize (nonempty (tp_deny_classes (mp_tools p))) as deny.
  generalize (nonempty (tp_allow_classes (mp_tools p))) as allow. intros allow deny.
  destruct (is_nil deny && is_nil allow) eqn:En.
  { apply andb_true_iff in En as [->%is_nil_true ->%is_nil_true]. naive_solver. }
  destruct tc as [tc|].
  2:{ split; [done|]. intros [[-> ->]|(? & ? & _)]; done. }
  transitivity (existsb (contains deny) tc = false /\
                (allow = [] \/ existsb (contains allow) tc = true)).
  - rewrite <- is_nil_true.
    assert (Hd : is_nil deny = true -> existsb (contains deny) tc = false)
      by (intros ->%is_nil_true; apply any_contains_nil).
    destruct (is_nil deny), (is_nil allow), (existsb (contains allow) tc),
      (existsb (contains deny) tc); cbn in *; intuition congruence.
  - rewrite any_contains_false, any_contains_true. split.
    + intros [Hno Hsome]. right. by exists tc.
    + intros [[-> ->]|(? & [= <-] & Hno & Hsome)]; done.
Qed.

Lemma obligation_axis_match names classes n tc sat :
  obligation_axis (applicability names classes n tc) sat = "match" <->
  ObligationMet names classes n tc sat.
Proof.
  unfold applicability, ObligationMet.
  rewrite <- any_pattern_false, <- existsb_pattern.
  destruct (existsb _ names); cbn.
  { destruct sat as [[]|]; naive_solver. }
  destruct classes as [|c cs]; cbn [is_nil]; [set_solver|].
  destruct tc as [tc|]; [|naive_solver].
  destruct (existsb (contains (c :: cs)) tc) eqn:E;
    [pose proof (proj1 (any_contains_true _ _) E) | pose proof (proj1 (any_contains_false _ _) E)]; cbn.
  - destruct sat as [[]|]; naive_solver.
  - naive_solver.
Qed.

Lemma decision_verdict_max policy n args ids ev :
  decision_verdict policy n args ids ev ∈ verdict_axes policy n args ids ev /\
  (forall x, x ∈ verdict_axes policy n args ids ev ->
     verdict_rank x <= verdict_rank (decision_verdict policy n args ids ev)).
Proof.
  unfold decision_verdict.
  destruct (max_by_key_is_Some verdict_rank (verdict_axes policy n args ids ev)) as [b Hb]; [done|].
  rewrite Hb. by apply max_by_key_spec in Hb.
Qed.

Lemma decision_verdict_all policy n args ids ev :
  decision_verdict policy n args ids ev = "match" <->
  Forall (eq "match") (verdict_axes policy n args ids ev).
Proof.
  destruct (decision_verdict_max policy n args ids ev) as [Hin Hmax].
  rewrite Forall_forall. split.
  - intros Hv x Hx. specialize (Hmax x Hx). rewrite Hv in Hmax.
    symmetry. apply verdict_rank_match. cbn in Hmax. lia.
  - intros Hall. symmetry. by apply Hall.
Qed.

Lemma decision_verdict_declared policy n args ids ev :
  decision_verdict policy n args ids ev = "match" <->
  DeclaredMatch (normalized_declared_view policy) n args ids ev.
Proof.
  rewrite decision_verdict_all. unfold verdict_axes, DeclaredMatch. rewrite !Forall_cons.
  rewrite <- tool_axis_match, <- args_axis_match, <- identity_axis_match, <- class_axis_match,
    <- !obligation_axis_match.
  split; [intros (? & ? & ? & ? & ? & ? & ? & _) | intros (? & ? & ? & ? & ? & ? & ?)];
    split_and!; auto using Forall_nil_2.
Qed.

End Gate.

(** ** The gate and the engine *)

Section Agreement.
Context `{Platform} `{PolicySerde}.

(** An allowlist that is configured has an entry. *)
Definition AllowlistHasEntries (p : McpPolicy) : Prop :=
  NoAllowlist p \/
  exists a, a ∈ opt_iter (mp_allow p) ++ opt_iter (tp_allow (mp_tools p))
                ++ opt_iter (tp_allow_classes (mp_tools p)).

Lemma declared_view_tools p : mp_tools (normalized_declared_view p) = mp_tools (normalize_legacy_shapes p).
Proof. done. Qed.

Lemma declared_view_unconstrained p :
  mp_constraints p = [] ->
  mp_schemas (normalized_declared_view p) = mp_schemas (normalize_legacy_shapes p) /\
  mp_enforcement (normalized_declared_view p) = mp_enforcement (normalize_legacy_shapes p).
Proof.
  intros Hc. split; [|done]. unfold normalized_declared_view. cbn.
  destruct (normalize_legacy_shapes_fields p) as (_ & _ & Hc' & _). rewrite Hc', Hc. cbn.
  apply map_eq. intros t. rewrite lookup_union. by destruct (mp_schemas _ !! t).
Qed.

Lemma declared_view_check p n v :
  mp_constraints p = [] ->
  check_tool_args (normalized_declared_view p) n v = check_tool_args (normalize_legacy_shapes p) n v.
Proof.
  intros Hc. unfold check_tool_args, schemas_value.
  by rewrite (proj1 (declared_view_unconstrained p Hc)).
Qed.

Lemma normalized_allow_entries p :
  AllowlistHasEntries p ->
  let q := normalize_legacy_shapes p in
  NoAllowlist q \/ tp_allow (mp_tools q) <> None /\ nonempty (tp_allow (mp_tools q)) <> [] \/
  nonempty (tp_allow_classes (mp_tools q)) <> [].
Proof.
  unfold AllowlistHasEntries, NoAllowlist, normalize_legacy_shapes, nonempty, opt_iter.
  destruct (mp_allow p) as [al|] eqn:Ha, (mp_deny p) as [d|] eqn:Hd; simpl; rewrite ?Hd; simpl; rewrite ?Ha;
    (intros [Hno|[a Hin]]; [try naive_solver|]);
    destruct (tp_allow (mp_tools p)) as [l|] eqn:E1, (tp_allow_classes (mp_tools p)) as [c|] eqn:E2;
    cbn in *; rewrite ?app_nil_r in *;
    repeat match goal with H : _ ∈ _ ++ _ |- _ => apply elem_of_app in H as [H|H] end;
    try (by inversion Hin);
    first [right; left; split; [done|intros E; apply app_nil in E as [-> ->]; by inversion Hin]
          |right; left; split; [done|intros ->; by inversion Hin]
          |right; right; intros ->; by inversion Hin].
Qed.

Lemma declared_match_admits p n args ids ev :
  mp_constraints p = [] -> AllowlistHasEntries p ->
  de_tool_classes ev = Some (classes_for (mp_tool_taxonomy p) n) ->
  DeclaredMatch (normalized_declared_view p) n (Some args) ids ev ->
  let q := normalize_legacy_shapes p in
  ~ Denylisted q n /\ (NoAllowlist q \/ Allowlisted q n) /\ SchemaAdmits q n args.
Proof.
  intros Hc Ha Hev (Hn & (v & [= <-] & Hargs) & _ & Hcl & _) q.
  destruct (normalize_legacy_shapes_engine p) as (_ & _ & Ht & _).
  destruct (normalize_legacy_shapes_fields p) as (Hqa & Hqd & _).
  destruct (declared_view_unconstrained p Hc) as [_ He].
  unfold NameMatches in Hn. rewrite declared_view_tools, He in Hn. destruct Hn as [Hdeny Hallow].
  rewrite (declared_view_check p n args Hc), He in Hargs.
  unfold ClassesMatch in Hcl. rewrite declared_view_tools, Hev in Hcl.
  unfold Denylisted, Allowlisted, Named, SchemaAdmits. fold q in Hdeny, Hallow, Hargs, Hcl, Hqa, Hqd, Ht.
  rewrite Hqa, Hqd, Ht. cbn [opt_iter default app]. split_and!.
  - intros [(d & Hd & Hp)|(c & Hd & Hc')]; [by apply (Hdeny d)|].
    destruct Hcl as [[E _]|(tc & [= <-] & Hno & _)]; [|by apply (Hno c)].
    change (c ∈ nonempty (tp_deny_classes (mp_tools q))) in Hd. rewrite E in Hd. by inversion Hd.
  - destruct (is_nil (nonempty (tp_allow (mp_tools q)))) eqn:En; [|right; left; exact Hallow].
    apply is_nil_true in En.
    destruct (normalized_allow_entries p Ha) as [?|[[_ ?]|Hne]]; [by left|done|].
    fold q in Hne. right; right.
    destruct Hcl as [[_ ?]|(tc & [= <-] & _ & [?|(c & ? & ?)])]; [done..|by exists c].
  - destruct Hargs as [->|[-> ->]]; done.
Qed.

Lemma guarded_admits q n args s ri :
  ~ Drifted q n ri -> WithinLimits q (count_call s) -> ~ Denylisted q n ->
  (NoAllowlist q \/ Allowlisted q n) -> SchemaAdmits q n args ->
  exists d s', evaluate q n args ri s = (Done d, s') /\ decision_allows d = true.
Proof.
  intros Hd Hw Hdeny Hal Hs. rewrite evaluate_guarded, (proj2 (tool_drift_None _ _ _) Hd).
  eexists _, _. split; [done|]. by apply guarded_decision_allows.
Qed.

(** A call the verdict gate calls a match is one the policy engine allows,
    when the gate's class evidence is the engine's own taxonomy: the tool must
    still not have drifted from its pin and the call must be within the rate
    limits, which the gate does not look at, the policy must have been migrated
    from the legacy constraints, and a configured allowlist must have an
    entry. *)
Theorem match_engine_allows p tool_name args identity_state ev ri s :
  mp_constraints p = [] -> AllowlistHasEntries p ->
  de_tool_classes ev = Some (classes_for (mp_tool_taxonomy p) tool_name) ->
  decision_verdict p tool_name (Some args) identity_state ev = "match" ->
  ~ Drifted p tool_name ri -> WithinLimits p (count_call s) ->
  exists d s', evaluate p tool_name args ri s = (Done d, s') /\ decision_allows d = true.
Proof.
  intros Hc Ha Hev Hm%decision_verdict_declared Hd Hw.
  destruct (declared_match_admits p tool_name args identity_state ev Hc Ha Hev Hm) as (? & ? & ?).
  destruct (normalize_legacy_shapes_engine p) as (Hp & Hl & _).
  rewrite <- normalize_preserves_evaluate. apply guarded_admits; [| |done..].
  - unfold Drifted. by rewrite Hp.
  - unfold WithinLimits. by rewrite Hl.
Qed.

(** The gate calls it a match while the engine refuses: an allowlist that is
    configured and empty names no tool for the engine, and does not exist for
    the gate. *)
Definition empty_allowlist : McpPolicy :=
  mcp_policy_default <| mp_tools := tool_policy_default <| tp_allow := Some [] |> |>
    <| mp_enforcement := {| es_unconstrained_tools := UAllow |} |>.

Lemma empty_allowlist_disagrees args s :
  decision_verdict empty_allowlist "read_file" (Some args) "present" decision_evidence_default = "match" /\
  (exists d s', evaluate empty_allowlist "read_file" args None s = (Done d, s') /\
                decision_allows d = false).
Proof.
  split; [done|]. rewrite evaluate_guarded. eexists _, _. split; [done|].
  apply not_true_is_false. rewrite guarded_decision_allows.
  intros (_ & _ & [(_ & E & _)|Hal] & _); [done|].
  destruct Hal as [(? & Hin & _)|(? & Hin & _)]; by inversion Hin.
Qed.

End Agreement.

(** ** Runs *)

Lemma repeats_order_spec seen orders :
  repeats_order seen orders = false <-> NoDup orders /\ (forall o, o ∈ orders -> o ∉ seen).
Proof.
  revert seen. induction orders as [|o r IH]; intros seen; simpl.
  { split; [|done]. intros _. split; [constructor|]. intros o Ho. by inversion Ho. }
  rewrite NoDup_cons. destruct (decide (o ∈ seen)) as [Hin|Hin].
  { split; [done|]. intros [_ Hd]. destruct (Hd o); [by left|done]. }
  rewrite IH. set_solver.
Qed.

Lemma worst_verdict_snoc vs v :
  worst_verdict (vs ++ [v]) =
  if verdict_rank (worst_verdict vs) <? verdict_rank v then to_static_verdict v
  else worst_verdict vs.
Proof. unfold worst_verdict. rewrite foldl_app. cbn. by rewrite rank_to_static. Qed.

Lemma worst_verdict_spec vs :
  (forall v, v ∈ vs -> verdict_rank v <= verdict_rank (worst_verdict vs)) /\
  (worst_verdict vs = "match" \/ exists v, v ∈ vs /\ worst_verdict vs = to_static_verdict v).
Proof.
  induction vs as [|v vs [Hmax Hin]] using rev_ind.
  { split; [|by left]. intros v Hv. by inversion Hv. }
  rewrite worst_verdict_snoc.
  destruct (Nat.ltb_spec (verdict_rank (worst_verdict vs)) (verdict_rank v)) as [Hlt|Hge].
  - split; [|right; exists v; set_solver]. rewrite rank_to_static.
    intros x [Hx| ->%list_elem_of_singleton]%elem_of_app; [|lia]. specialize (Hmax x Hx). lia.
  - split; [|destruct Hin as [?|(x & Hx & ?)]; [by left|right; exists x; set_solver]].
    intros x [Hx| ->%list_elem_of_singleton]%elem_of_app; [by apply Hmax|lia].
Qed.

(** The verdict of a run.  Verdicts and orders that do not pair up, or an
    order that occurs twice, make the run invalid; otherwise its verdict is at
    least as severe as that of each decision, is reached by one of them unless
    it is a match, and is a match exactly when every decision is. *)
Theorem run_verdict_worst vs orders :
  (length vs <> length orders \/ ~ NoDup orders -> run_verdict vs orders = "invalid") /\
  (length vs = length orders -> NoDup orders ->
   (forall v, v ∈ vs -> verdict_rank v <= verdict_rank (run_verdict vs orders)) /\
   (run_verdict vs orders = "match" \/
    exists v, v ∈ vs /\ run_verdict vs orders = to_static_verdict v) /\
   (run_verdict vs orders = "match" <-> Forall (eq "match") vs)).
Proof.
  unfold run_verdict. split.
  - intros Hbad. destruct (Nat.eqb_spec (length vs) (length orders)) as [E|]; [simpl|done].
    destruct (repeats_order ∅ orders) eqn:Er; [done|].
    apply repeats_order_spec in Er as [Hnd _]. by destruct Hbad.
  - intros -> Hnd. rewrite Nat.eqb_refl. simpl.
    replace (repeats_order ∅ orders) with false
      by (symmetry; apply repeats_order_spec; set_solver).
    destruct (worst_verdict_spec vs) as [Hmax Hin]. split_and!; [done|done|].
    rewrite Forall_forall. split.
    + intros Hw v Hv. specialize (Hmax v Hv). rewrite Hw in Hmax. symmetry.
      apply verdict_rank_match. cbn in Hmax. lia.
    + intros Hall. destruct Hin as [?|(v & Hv & ->)]; [done|]. by rewrite <- (Hall v Hv).
Qed.

(** The verdict gate says [match] exactly when everything the declared view
    binds is satisfied: no deny entry names the tool and an allow entry does
    (with no entry, unlisted tools must be let through), the arguments were
    supplied and satisfy the declared schema, the identity is present or not
    required, no class is denied and one is allowed where classes are listed,
    and each approval, scope and redaction obligation that names the tool or
    one of its classes is known to be met.  Evidence that is missing is never
    read as satisfied. *)
Theorem decision_verdict_match_iff `{Platform} policy tool_name args identity_state ev :
  decision_verdict policy tool_name args identity_state ev = "match" <->
  DeclaredMatch (normalized_declared_view policy) tool_name args identity_state ev.
Proof. apply decision_verdict_declared. Qed.

(** ** Arguments *)

Section Arguments.
Context `{Platform} `{Hmac} `{CharCase}.

#[local] Arguments is_secret_key : simpl never.

(** The characters of a key spell a name: underscores, hyphens and spaces do not
    count, and letters count in lower case. *)
Inductive Spells : list string -> string -> Prop :=
| spells_nil : Spells [] EmptyString
| spells_separator c cs name : c = "_" \/ c = "-" \/ c = " " -> Spells cs name -> Spells (c :: cs) name
| spells_letter c cs name :
    c <> "_" -> c <> "-" -> c <> " " -> Spells cs name -> Spells (c :: cs) (char_to_lowercase c +:+ name).

Definition SECRET_NAMES : list string :=
  ["token"; "accesstoken"; "refreshtoken"; "authtoken"; "idtoken"; "sessiontoken"; "password"; "passwd"; "apikey";
   "secret"; "clientsecret"; "secretkey"; "authorization"; "credential"; "credentials"; "privatekey"; "secretaccesskey"].

(** A key that names a secret, in any casing and with any separators. *)
Definition SecretKey (key : string) : Prop := exists name, name ∈ SECRET_NAMES /\ Spells (chars key) name.

Lemma spells_normalized cs name :
  Spells cs name <-> name = str_concat (map char_to_lowercase (filter (fun c => c <> "_" /\ c <> "-" /\ c <> " ") cs)).
Proof.
  revert name. induction cs as [|c cs IH]; intros name.
  - split; [by inversion 1|intros ->; constructor].
  - rewrite filter_cons. destruct (decide _) as [(Hc1 & Hc2 & Hc3)|Hs].
    + unfold str_concat in *. cbn [map foldr]. split.
      * inversion 1 as [|? ? ? [?|[?|?]]|? ? ? ? ? ? Hc]; subst; try done. f_equal. by apply IH.
      * intros ->. constructor; [done..|]. by apply IH.
    + assert (Hc : c = "_" \/ c = "-" \/ c = " ").
      { destruct (decide (c = "_")); [auto|]. destruct (decide (c = "-")); [auto|].
        destruct (decide (c = " ")); [auto|]. by destruct Hs. }
      split.
      * inversion 1; subst; [by apply IH|]. destruct Hc as [|[|]]; done.
      * intros Hn. constructor; [done|]. by apply IH.
Qed.

Lemma secret_key_iff key : is_secret_key key = true <-> SecretKey key.
Proof.
  unfold is_secret_key, SecretKey, contains, normalize_key. rewrite existsb_true. setoid_rewrite spells_normalized. split.
  - intros (x & Hx & Hs%String.eqb_eq). exists x. by split.
  - intros (x & Hx & ->). eexists. split; [exact Hx|apply String.eqb_refl].
Qed.

Lemma not_secret_key key : is_secret_key key = false <-> ~ SecretKey key.
Proof. rewrite <- secret_key_iff. by destruct (is_secret_key key). Qed.

(** Two values that differ only in what lies under secret keys. *)
Inductive PublicEq : Value -> Value -> Prop :=
| pe_leaf v : PublicEq v v
| pe_arr l l' : PublicElems l l' -> PublicEq (Arr l) (Arr l')
| pe_obj m m' : PublicMembers m m' -> PublicEq (Obj m) (Obj m')
with PublicElems : list Value -> list Value -> Prop :=
| pl_nil : PublicElems [] []
| pl_cons x y l l' : PublicEq x y -> PublicElems l l' -> PublicElems (x :: l) (y :: l')
with PublicMembers : list (string * Value) -> list (string * Value) -> Prop :=
| pm_nil : PublicMembers [] []
| pm_left k x m m' : SecretKey k -> PublicMembers m m' -> PublicMembers ((k, x) :: m) m'
| pm_right k x m m' : SecretKey k -> PublicMembers m m' -> PublicMembers m ((k, x) :: m')
| pm_both k x y m m' :
    PublicEq x y -> PublicMembers m m' -> PublicMembers ((k, x) :: m) ((k, y) :: m').

Scheme PublicEq_mind := Induction for PublicEq Sort Prop
with PublicElems_mind := Induction for PublicElems Sort Prop
with PublicMembers_mind := Induction for PublicMembers Sort Prop.

Definition project_members : list (string * Value) -> list (string * Value) -> list (string * Value) :=
  fix members obj out :=
    match obj with
    | [] => out
    | (k, v) :: obj =>
        if is_secret_key k then members obj out
        else members obj (map_insert out k (project_args_for_digest v))
    end.

Lemma project_obj m : project_args_for_digest (Obj m) = Obj (project_members m []).
Proof. done. Qed.

Lemma public_project v w : PublicEq v w -> project_args_for_digest v = project_args_for_digest w.
Proof.
  revert v w. apply (PublicEq_mind
    (fun v w _ => project_args_for_digest v = project_args_for_digest w)
    (fun l l' _ => map project_args_for_digest l = map project_args_for_digest l')
    (fun m m' _ => forall out, project_members m out = project_members m' out)).
  - done.
  - intros l l' _ E. simpl. by rewrite E.
  - intros m m' _ E. by rewrite !project_obj, E.
  - done.
  - intros x y l l' _ Ex _ El. simpl. by rewrite Ex, El.
  - done.
  - intros k x m m' Hk%secret_key_iff _ E out. simpl. by rewrite Hk.
  - intros k x m m' Hk%secret_key_iff _ E out. simpl. by rewrite Hk.
  - intros k x y m m' _ Ex _ E out. simpl. rewrite Ex. destruct (is_secret_key k); apply E.
Qed.

(** No object of the value, at any depth, has a secret key. *)
Inductive NoSecret : Value -> Prop :=
| ns_null : NoSecret Null
| ns_bool b : NoSecret (VBool b)
| ns_num n : NoSecret (Num n)
| ns_str s : NoSecret (Str s)
| ns_arr l : Forall NoSecret l -> NoSecret (Arr l)
| ns_obj m : Forall (fun e => ~ SecretKey (fst e) /\ NoSecret (snd e)) m -> NoSecret (Obj m).

Lemma project_no_secret v : NoSecret (project_args_for_digest v).
Proof.
  induction v as [| | | |l IH|m IH] using Value_rect_nested; try by constructor.
  - constructor. by apply Forall_map.
  - rewrite project_obj. constructor.
    assert (Hout : Forall (fun e => ~ SecretKey (fst e) /\ NoSecret (snd e))
                     ([] : list (string * Value))) by constructor.
    revert Hout. generalize ([] : list (string * Value)) as out.
    induction IH as [|[k x] m Hx _ IHm]; intros out Hout; simpl; [done|].
    destruct (is_secret_key k) eqn:E; apply IHm; [done|].
    apply map_insert_Forall; [done|]. split; [by apply not_secret_key|done].
Qed.

(** A value with no secret key and no repeated key is its own projection. *)
Lemma project_members_fresh m out :
  NoDup (map fst (out ++ m)) ->
  Forall (fun e => is_secret_key (fst e) = false) m ->
  Forall (fun e => project_args_for_digest (snd e) = snd e) m ->
  project_members m out = out ++ m.
Proof.
  revert out. induction m as [|[k x] m IH]; intros out Hnd Hs Hp; simpl; [by rewrite app_nil_r|].
  apply Forall_cons in Hs as [Hk Hs], Hp as [Hx Hp]. cbn in Hk, Hx. rewrite Hk, Hx.
  assert (Hfresh : k ∉ map fst out).
  { rewrite map_app in Hnd. apply NoDup_app in Hnd as (_ & Hd & _). intros Hin.
    apply (Hd k Hin). by left. }
  rewrite (map_insert_fresh out k x Hfresh).
  rewrite IH; [by rewrite <- app_assoc| by rewrite <- app_assoc|done|done].
Qed.

Lemma project_public_id v : wf_value v -> NoSecret v -> project_args_for_digest v = v.
Proof.
  induction v as [| | | |l IH|m IH] using Value_rect_nested; intros Hwf Hns; try done.
  - inv Hwf. inv Hns. simpl. f_equal. rewrite <- (map_id l) at 2. apply map_ext_in.
    intros x Hx%list_elem_of_In. rewrite Forall_forall in *. auto.
  - inversion Hwf as [| | | | |? Hnd Hm]; subst. inversion Hns as [| | | | |? Hs]; subst.
    rewrite project_obj. f_equal. rewrite project_members_fresh; [done|done| |].
    + eapply Forall_impl; [apply Hs|]. intros e [? _]. by apply not_secret_key.
    + rewrite Forall_forall in *. intros e He. apply IH, Hs; auto.
Qed.

End Arguments.

Lemma bind_Some_fmap {A B} (f : A -> B) (o : option A) : o ≫= (fun x => Some (f x)) = f <$> o.
Proof. by destruct o. Qed.

Lemma decision_verdict_is_verdict `{Platform} policy n args ids ev :
  is_verdict (decision_verdict policy n args ids ev) = true.
Proof.
  assert (Hall : Forall (fun v => is_verdict v = true) (verdict_axes policy n args ids ev)).
  { unfold verdict_axes. repeat (apply Forall_cons; split); [| | | |..|constructor].
    - unfold tool_axis, enforcement_axis. by repeat case_match.
    - unfold args_axis, enforcement_axis. by repeat case_match.
    - unfold identity_axis. by repeat case_match.
    - unfold class_axis. by repeat case_match.
    - unfold obligation_axis. by repeat case_match.
    - unfold obligation_axis. by repeat case_match.
    - unfold obligation_axis. by repeat case_match. }
  rewrite Forall_forall in Hall. apply Hall, decision_verdict_max.
Qed.

(** C17: of what lies under a secret key a carrier shows at most which of four
    words its verdict is.  A secret key is one whose characters spell one of
    seventeen names, in any casing and with underscores, hyphens and spaces left
    out.  Arguments that differ only under such keys (in value, presence or
    shape, at any depth) give the same argument digest and the same record,
    with the same observed-input digest; a classified record is that record
    with the decision verdict, one of the four words, and nothing else; the
    text that is hashed has no secret key at any depth, and it is the whole of
    an argument value that has none. *)
Theorem args_digest_hides_secrets `{Platform} `{Hmac} `{CharCase} `{PolicyToValue} v w key key_id
    tool_name order declared source_class call_id result_status identity_state :
  PublicEq v w ->
  args_digest v key key_id = args_digest w key key_id /\
  build_record tool_name v order declared key key_id source_class call_id result_status identity_state =
  build_record tool_name w order declared key key_id source_class call_id result_status identity_state /\
  (forall policy evidence,
     let classified args := build_classified_record policy tool_name args order key key_id source_class call_id
                              result_status identity_state evidence in
     exists base verdict_v verdict_w,
       classified v = (fun r => vset r "decision_verdict" (Str verdict_v)) <$> base /\
       classified w = (fun r => vset r "decision_verdict" (Str verdict_w)) <$> base /\
       is_verdict verdict_v = true /\ is_verdict verdict_w = true) /\
  NoSecret (project_args_for_digest v) /\
  (wf_value v -> NoSecret v -> project_args_for_digest v = v).
Proof.
  intros Hvw. assert (E : args_digest v key key_id = args_digest w key key_id).
  { unfold args_digest. by rewrite (public_project v w Hvw). }
  assert (Er : forall declared, build_record tool_name v order declared key key_id source_class call_id result_status identity_state =
    build_record tool_name w order declared key key_id source_class call_id result_status identity_state).
  { intros d. unfold build_record. by rewrite E. }
  split; [done|]. split; [apply Er|]. split; [|split; [apply project_no_secret|apply project_public_id]].
  intros policy evidence. cbv zeta. unfold build_classified_record.
  exists (declared ← declared_constraint_digest policy;
    build_record tool_name w order declared key key_id source_class call_id result_status identity_state).
  eexists _, _. split; [|split; [|split; apply decision_verdict_is_verdict]].
  - destruct (declared_constraint_digest policy) as [d|]; [|done]. cbn [mbind option_bind]. rewrite Er. by apply bind_Some_fmap.
  - destruct (declared_constraint_digest policy) as [d|]; [|done]. cbn [mbind option_bind]. by apply bind_Some_fmap.
Qed.

(** ** Evidence-pack rows *)

(** A digest is 64 lower-case hexadecimal digits, and every [serde_json] value
    has a canonical text. *)
Class DigestLaws `{Platform} : Prop := {
  sha256_hex_shape s : is_sha256_digest ("sha256:" +:+ sha256_hex s) = true;
  jcs_to_string_total v : is_Some (jcs_to_string v)
}.

Section Pack.
Context `{Platform}.

Lemma is_str_true o s : is_str o s = true <-> o = Some s.
Proof.
  unfold is_str. destruct o as [x|]; [|done]. rewrite String.eqb_eq. split; [by intros ->|by intros [= ->]].
Qed.

(** What a row must say to cite [carrier] under [run_verdict]: the envelope, a
    verdict that does not understate the carrier's, and three digests that
    recompute. *)
Definition Cites (row carrier : Value) (run_verdict : string) : Prop :=
  exists er content oid dpd identity binding,
    get_str row "recipe" = Some RECIPE /\ vget row "evidence_ref" = Some er /\
    get_str er "type" = Some "tool_decision_truth" /\ get_str er "schema" = Some SCHEMA /\
    get_str er "canonicalization" = Some "jcs-json-v1" /\
    get_str er "digest_subject" = Some "carrier_content" /\
    get_str row "run_verdict" = Some run_verdict /\
    is_verdict run_verdict = true /\ run_verdict_covers_carrier carrier run_verdict = true /\
    get_str er "digest" = Some content /\ get_str row "decision_identity_digest" = Some identity /\
    is_sha256_digest content = true /\ is_sha256_digest identity = true /\
    carrier_content_digest carrier = Some content /\
    get_str carrier "observed_input_digest" = Some oid /\
    get_str carrier "declared_policy_digest" = Some dpd /\
    is_sha256_digest oid = true /\ is_sha256_digest dpd = true /\
    decision_identity_digest oid dpd = Some identity /\
    jcs_digest (binding_input er identity run_verdict) = Some binding /\
    get_str row "coherence_binding" = Some binding.

Lemma guard_false (b c : bool) : (if negb b then false else c) = true <-> b = true /\ c = true.
Proof. destruct b; simpl; naive_solver. Qed.

(** A field the row lacks: neither side holds. *)
Ltac cites_none :=
  split; [intros Hv; simpl in Hv; destruct_and?; congruence
         |intros (? & ? & ? & ? & ? & ? & Hall); destruct_and!; congruence].

Lemma verify_cites row carrier rv : verify_recipe_row row carrier rv = true <-> Cites row carrier rv.
Proof.
  unfold verify_recipe_row, Cites. rewrite guard_false, is_str_true.
  destruct (vget row "evidence_ref") as [er|]; [|cites_none].
  rewrite <- !negb_andb, !guard_false, !andb_true_iff, !is_str_true.
  destruct (get_str er "digest") as [content|] eqn:?; [|cites_none].
  destruct (get_str row "decision_identity_digest") as [identity|] eqn:?; [|cites_none].
  rewrite <- !negb_andb, !guard_false, !andb_true_iff, !is_str_true.
  destruct (get_str carrier "observed_input_digest") as [oid|] eqn:?; [|cites_none].
  destruct (get_str carrier "declared_policy_digest") as [dpd|] eqn:?; [|cites_none].
  rewrite <- !negb_andb, !guard_false, !andb_true_iff, !is_str_true.
  destruct (jcs_digest (binding_input er identity rv)) as [b|] eqn:Eb; [rewrite is_str_true|].
  - split.
    + intros Hv. destruct_and!. exists er, content, oid, dpd, identity, b. by split_and!.
    + intros (? & ? & ? & ? & ? & ? & Hall). destruct_and!. simplify_eq. by split_and!.
  - cites_none.
Qed.

End Pack.

Section PackLaws.
Context `{DL : DigestLaws}.

Lemma jcs_digest_total v : exists t, jcs_to_string v = Some t /\ jcs_digest v = Some ("sha256:" +:+ sha256_hex t).
Proof. destruct (jcs_to_string_total v) as [t E]. exists t. split; [done|]. unfold jcs_digest. by rewrite E. Qed.

Lemma jcs_digest_shape v d : jcs_digest v = Some d -> is_sha256_digest d = true.
Proof.
  destruct (jcs_digest_total v) as (t & _ & E). rewrite E. intros [= <-]. apply sha256_hex_shape.
Qed.

(** What a carrier must have for a row to cite it under a verdict. *)
Definition Citable (carrier : Value) (run_verdict : string) : Prop :=
  is_verdict run_verdict = true /\ run_verdict_covers_carrier carrier run_verdict = true /\
  exists oid dpd, get_str carrier "observed_input_digest" = Some oid /\
    get_str carrier "declared_policy_digest" = Some dpd /\
    is_sha256_digest oid = true /\ is_sha256_digest dpd = true.

Lemma cites_citable row carrier rv : Cites row carrier rv -> Citable carrier rv.
Proof.
  intros (? & ? & oid & dpd & ? & ? & Hall). destruct_and!. split_and!; [done..|]. by exists oid, dpd.
Qed.

Lemma pack_cites row carrier rv reference :
  pack_recipe_row carrier rv reference = Some row -> Cites row carrier rv.
Proof.
  unfold pack_recipe_row. rewrite <- negb_andb.
  destruct (is_verdict rv && run_verdict_covers_carrier carrier rv) eqn:Ev; [cbn [negb]|done].
  apply andb_true_iff in Ev as [Hv Hcov].
  destruct (get_str carrier "observed_input_digest") as [oid|] eqn:Eo; [cbn|done].
  destruct (get_str carrier "declared_policy_digest") as [dpd|] eqn:Ed; [cbn|done].
  rewrite <- negb_andb.
  destruct (is_sha256_digest oid && is_sha256_digest dpd) eqn:Es; [cbn [negb]|done].
  apply andb_true_iff in Es as [Hso Hsd].
  destruct (carrier_content_digest carrier) as [content|] eqn:Ec; [cbn|done].
  destruct (decision_identity_digest oid dpd) as [identity|] eqn:Ei; [cbn|done].
  destruct (jcs_digest (binding_input _ identity rv)) as [b|] eqn:Eb; [cbn|done].
  intros [= <-].
  exists (evidence_ref content reference), content, oid, dpd, identity, b.
  split_and!; eauto using jcs_digest_shape.
Qed.

Lemma citable_pack carrier rv reference :
  Citable carrier rv -> exists row, pack_recipe_row carrier rv reference = Some row.
Proof.
  intros (Hv & Hcov & oid & dpd & Eo & Ed & Hso & Hsd). unfold pack_recipe_row.
  rewrite Hv, Hcov, Eo, Ed. cbn. rewrite Hso, Hsd. cbn. unfold carrier_content_digest, decision_identity_digest.
  destruct (jcs_digest_total carrier) as (? & _ & ->). cbn.
  edestruct jcs_digest_total as (? & _ & ->). cbn.
  edestruct jcs_digest_total as (? & _ & ->). cbn. eauto.
Qed.

(** Packing and verification agree.  A row that [pack_recipe_row] builds
    verifies against its carrier under its verdict, whatever the reference; and
    if any row at all verifies for a carrier and a verdict, packing them
    succeeds. *)
Theorem packed_row_verifies carrier run_verdict reference :
  (forall row, pack_recipe_row carrier run_verdict reference = Some row ->
               verify_recipe_row row carrier run_verdict = true) /\
  ((exists row, verify_recipe_row row carrier run_verdict = true) ->
   is_Some (pack_recipe_row carrier run_verdict reference)).
Proof.
  split.
  - intros row Hp. apply verify_cites. by eapply pack_cites.
  - intros [row Hv]. apply verify_cites, cites_citable in Hv.
    destruct (citable_pack _ _ reference Hv) as [r ->]. done.
Qed.

End PackLaws.

(** A row binds one carrier and one verdict.  If it verifies for two carriers,
    under two verdicts, the verdicts are the same and the carriers have the same
    hash of the canonical text; the verdict is one of the four and at least as severe as the carrier's own. *)
Theorem verified_row_binds `{Platform} row carrier carrier' rv rv' :
  verify_recipe_row row carrier rv = true -> verify_recipe_row row carrier' rv' = true ->
  rv = rv' /\ is_verdict rv = true /\
  (forall cv, vget carrier "decision_verdict" = Some (Str cv) ->
     is_verdict cv = true /\ verdict_rank cv <= verdict_rank rv) /\
  exists t t', jcs_to_string carrier = Some t /\ jcs_to_string carrier' = Some t' /\
    sha256_hex t = sha256_hex t'.
Proof.
  rewrite !verify_cites. intros (er & c & o & d & i & b & Hall) (er' & c' & o' & d' & i' & b' & Hall').
  destruct_and!. simplify_eq. split_and!; [done..| |].
  - intros cv Ecv. unfold run_verdict_covers_carrier in *. rewrite Ecv in *.
    repeat match goal with H : _ && _ = true |- _ => apply andb_true_iff in H as [? ?] end.
    split; [done|]. by apply Nat.leb_le.
  - unfold carrier_content_digest, jcs_digest in *.
    destruct (jcs_to_string carrier) as [t|]; [|done].
    destruct (jcs_to_string carrier') as [t'|]; [|done].
    exists t, t'. split_and!; [done..|]. simplify_eq/=. congruence.
Qed.

(** ** From a call to a citation *)

Section Classified.
Context `{DL : DigestLaws} `{Hmac} `{CharCase} `{PolicyToValue}.

Lemma vset_get_eq m k x : vget (vset (Obj m) k x) k = Some x.
Proof. apply map_get_insert_eq. Qed.

Lemma vset_get_str_ne v k k' x : k <> k' -> get_str (vset v k x) k' = get_str v k'.
Proof. intros Hne. unfold get_str. destruct v; try done. cbn. by rewrite map_get_insert_ne. Qed.

(** The record's members, once its two digests are known. *)
Lemma build_record_fields n args order declared key kid sc cid rs ids r :
  build_record n args order declared key kid sc cid rs ids = Some r ->
  is_object r = true /\ is_sha256_digest declared = true /\
  get_str r "declared_policy_digest" = Some declared /\
  exists ad oid, observed_input_digest n ad order = Some oid /\
    get_str r "observed_input_digest" = Some oid.
Proof.
  unfold build_record. destruct (negb _ || negb _ || negb _); [done|].
  destruct (is_sha256_digest declared); [cbn [negb]|done].
  destruct (args_digest args key kid) as [ad|]; [cbn [mbind option_bind]|done].
  destruct (observed_input_digest n ad order) as [oid|] eqn:Eo; [cbn [mbind option_bind]|done].
  intros [= <-]. split_and!; [done..|]. by exists ad, oid.
Qed.

Lemma classified_record_fields policy n args order key kid sc cid rs ids ev carrier :
  build_classified_record policy n args order key kid sc cid rs ids ev = Some carrier ->
  vget carrier "decision_verdict" = Some (Str (decision_verdict policy n (Some args) ids ev)) /\
  exists oid dpd, get_str carrier "observed_input_digest" = Some oid /\
    get_str carrier "declared_policy_digest" = Some dpd /\
    is_sha256_digest oid = true /\ is_sha256_digest dpd = true /\
    declared_constraint_digest policy = Some dpd.
Proof.
  unfold build_classified_record.
  destruct (declared_constraint_digest policy) as [declared|]; [cbn [mbind option_bind]|done].
  destruct (build_record _ _ _ _ _ _ _ _ _ _) as [r|] eqn:Er; [cbn [mbind option_bind]|done].
  intros [= <-]. apply build_record_fields in Er as (Hobj & Hd & Ed & ad & oid & Eo & Er).
  split; [destruct r; [done..|]; apply vset_get_eq|].
  exists oid, declared. rewrite !vset_get_str_ne by done.
  split_and!; [done|done|by eapply jcs_digest_shape|done|done].
Qed.

(** C16: a classified record can be cited exactly under the verdicts that do not
    understate the gate's: there is a row that verifies for it under
    [run_verdict] if and only if [run_verdict] is one of the four verdicts and
    at least as severe as the decision the gate reached for the call. *)
Theorem classified_record_citable policy tool_name args order key key_id source_class call_id
    result_status identity_state ev carrier run_verdict :
  build_classified_record policy tool_name args order key key_id source_class call_id
    result_status identity_state ev = Some carrier ->
  (exists row, verify_recipe_row row carrier run_verdict = true) <->
  is_verdict run_verdict = true /\
  verdict_rank (decision_verdict policy tool_name (Some args) identity_state ev)
    <= verdict_rank run_verdict.
Proof.
  intros Hb. apply classified_record_fields in Hb as (Hdv & oid & dpd & Eo & Ed & Ho & Hd & _).
  assert (Hcov : run_verdict_covers_carrier carrier run_verdict = true <->
    verdict_rank (decision_verdict policy tool_name (Some args) identity_state ev)
    <= verdict_rank run_verdict).
  { unfold run_verdict_covers_carrier. rewrite Hdv, decision_verdict_is_verdict. apply Nat.leb_le. }
  rewrite <- Hcov. split.
  - intros [row Hv]. apply verify_cites, cites_citable in Hv. destruct Hv as (? & ? & _). done.
  - intros [Hv Hc]. destruct (citable_pack carrier run_verdict EmptyString) as [row Hp].
    { split_and!; [done..|]. by exists oid, dpd. }
    exists row. apply verify_cites. by eapply pack_cites.
Qed.

End Classified.
