(* ===== verification/DeclaredDigest.v ===== *)
(** * The declared-constraint digest

    [declared_constraint_digest] hashes a projection of the policy in which the
    set-like fields are sorted by canonical text.  The theorem: reordering any
    of those fields, the shared [required] list or a property's [enum] of any
    schema, and the iteration order of the schema table, leave the digest
    alone, whatever the operational rest of the policy is. *)
From stdpp Require Import base tactics list strings gmap sorting relations.
From Stdlib Require Import Ascii ZArith Lia.
From S2P Require Import Prelude RustStr Json Platform PolicyTypes ToolPattern PolicySchema PolicyEngine DecisionTruth.

(** ** What [serde] writes for a policy *)

(** The set-like fields of [ToolPolicy] that the digest projects, by key. *)
Definition tool_fields : list (string * (ToolPolicy -> option (list string))) :=
  [("allow", tp_allow); ("deny", tp_deny); ("allow_classes", tp_allow_classes);
   ("deny_classes", tp_deny_classes); ("approval_required", tp_approval_required);
   ("approval_required_classes", tp_approval_required_classes);
   ("restrict_scope", tp_restrict_scope); ("restrict_scope_classes", tp_restrict_scope_classes);
   ("redact_args", tp_redact_args); ("redact_args_classes", tp_redact_args_classes)].

Definition opt_list_value (o : option (list string)) : Value :=
  match o with Some l => Arr (map Str l) | None => Null end.

Definition unconstrained_mode_str (m : UnconstrainedMode) : string :=
  match m with UWarn => "warn" | UDeny => "deny" | UAllow => "allow" end.

Definition enforcement_value (e : EnforcementSettings) : Value :=
  Obj [("unconstrained_tools", Str (unconstrained_mode_str (es_unconstrained_tools e)))].

(** The derived serialisation writes each field under its name; a hash map's
    entries come in an order of their own. *)
Class PolicyToValueLaws `{PolicyToValue} : Prop := {
  policy_to_value_fields p :
    exists m tools schemas, policy_to_value p = Some (Obj m) /\
      map_get m "version" = Some (Str (mp_version p)) /\
      map_get m "enforcement" = Some (enforcement_value (mp_enforcement p)) /\
      map_get m "tools" = Some (Obj tools) /\
      (forall k f, (k, f) ∈ tool_fields -> map_get tools k = Some (opt_list_value (f (mp_tools p)))) /\
      map_get m "schemas" = Some (Obj schemas) /\
      schemas ≡ₚ map_to_list (mp_schemas p)
}.

(** The lists alone, as [serde] writes them. *)
Definition tool_lists_value (t : ToolPolicy) : list (string * Value) :=
  map (fun e => (fst e, opt_list_value (snd e t))) tool_fields.

Lemma tool_fields_get t k f :
  (k, f) ∈ tool_fields -> map_get (tool_lists_value t) k = Some (opt_list_value (f t)).
Proof.
  intros Hin. apply map_get_elem.
  - unfold tool_lists_value. rewrite map_map. apply (bool_decide_unpack _). by vm_compute.
  - apply list_elem_of_fmap. by exists (k, f).
Qed.

(** ** Lemmas on maps *)

Lemma map_insert_insert m k v w : map_insert (map_insert m k v) k w = map_insert m k w.
Proof.
  induction m as [|[k' v'] m IH]; simpl; [by rewrite String.eqb_refl|].
  destruct (String.eqb k k') eqn:E; simpl; rewrite E; [done|by rewrite IH].
Qed.

Lemma map_insert_comm m k f x y :
  k <> f -> is_Some (map_get m f) ->
  map_insert (map_insert m k x) f y = map_insert (map_insert m f y) k x.
Proof.
  intros Hne. induction m as [|[k' v'] m IH]; simpl; [by intros [? ?]|]. intros Hf.
  destruct (String.eqb_spec k k') as [->|Hk]; simpl.
  - rewrite (proj2 (String.eqb_neq f k') (not_eq_sym Hne)). simpl. by rewrite String.eqb_refl.
  - destruct (String.eqb_spec f k') as [->|Hf']; simpl.
    + by rewrite (proj2 (String.eqb_neq k k') Hk).
    + rewrite (proj2 (String.eqb_neq k k') Hk). by rewrite IH.
Qed.

Lemma map_insert_split a k v b w :
  k ∉ map fst a -> map_insert (a ++ (k, v) :: b) k w = a ++ (k, w) :: b.
Proof.
  induction a as [|[k' v'] a IH]; simpl; [by rewrite String.eqb_refl|].
  rewrite not_elem_of_cons. intros [Hne Hk].
  rewrite (proj2 (String.eqb_neq _ _) Hne). by rewrite IH.
Qed.

Lemma map_get_split m k v :
  map_get m k = Some v -> exists a b, m = a ++ (k, v) :: b /\ k ∉ map fst a.
Proof.
  induction m as [|[k' v'] m IH]; simpl; [done|].
  destruct (String.eqb_spec k k') as [->|Hne].
  - intros [= ->]. exists [], m. split; [done|]. by apply not_elem_of_nil.
  - intros (a & b & -> & Hk)%IH. exists ((k', v') :: a), b. split; [done|].
    simpl. rewrite not_elem_of_cons. done.
Qed.

(** ** Sorting by canonical text *)

Section Canon.
Context `{CL : CanonLaws}.

Definition canon_key (v : Value) : string * Value := (default EmptyString (jcs_to_string v), v).

Definition canon_sort (l : list Value) : list Value :=
  map snd (merge_sort keyed_le (map canon_key l)).

Lemma keyed_by_canon_total l : keyed_by_canon l = Some (map canon_key l).
Proof.
  unfold keyed_by_canon. induction l as [|v l IH]; [done|]. simpl.
  unfold canon_key at 1. destruct (canon_total v) as [k ->]. simpl. by rewrite IH.
Qed.

Lemma sort_by_canon_total l : sort_by_canon l = Some (canon_sort l).
Proof. unfold sort_by_canon. by rewrite keyed_by_canon_total. Qed.

Lemma canon_sort_perm l : canon_sort l ≡ₚ l.
Proof.
  unfold canon_sort. rewrite merge_sort_Permutation, map_map. simpl. by rewrite map_id.
Qed.

#[local] Instance keyed_le_total : Total keyed_le.
Proof. intros a b. apply (str_le_total (fst a) (fst b)). Qed.

#[local] Instance keyed_le_trans : Transitive keyed_le.
Proof. intros a b c. apply (str_le_trans (fst a) (fst b) (fst c)). Qed.

(** No two elements share a text without being equal. *)
Definition DistinctTexts (l : list Value) : Prop :=
  forall a b, a ∈ l -> b ∈ l -> jcs_to_string a = jcs_to_string b -> a = b.

Lemma canon_sort_reorder l l' : l ≡ₚ l' -> DistinctTexts l -> canon_sort l = canon_sort l'.
Proof.
  intros Hp Hd. unfold canon_sort. f_equal.
  apply (StronglySorted_unique_strong keyed_le).
  - intros x y Hx Hy Hxy Hyx. rewrite merge_sort_Permutation in Hx, Hy. rewrite <- Hp in Hy.
    apply list_elem_of_fmap in Hx as (a & -> & Ha), Hy as (b & -> & Hb).
    unfold canon_key. assert (E : jcs_to_string a = jcs_to_string b).
    { pose proof (str_le_antisym _ _ Hxy Hyx) as E. simpl in E.
      destruct (canon_total a) as [ta Ea], (canon_total b) as [tb Eb].
      rewrite Ea, Eb in *. simpl in E. by rewrite E. }
    by rewrite (Hd a b Ha Hb E).
  - apply StronglySorted_merge_sort; apply _.
  - apply StronglySorted_merge_sort; apply _.
  - by rewrite !merge_sort_Permutation, Hp.
Qed.

Lemma strings_distinct l : DistinctTexts (map Str l).
Proof.
  intros a b (x & -> & _)%list_elem_of_fmap (y & -> & _)%list_elem_of_fmap E.
  by rewrite (canon_str_inj _ _ E).
Qed.

Lemma canon_sort_wf l : Forall wf_value l -> Forall wf_value (canon_sort l).
Proof. intros Hl. by rewrite canon_sort_perm. Qed.

(** ** Schemas *)

(** One reordering that [normalize_schema] undoes: of [required], or of the
    [enum] of one property. *)
Inductive SchemaStep : Value -> Value -> Prop :=
| step_required m l l' :
    map_get m "required" = Some (Arr l) -> l ≡ₚ l' -> DistinctTexts l ->
    SchemaStep (Obj m) (Obj (map_insert m "required" (Arr l')))
| step_enum m ps f so l l' :
    map_get m "properties" = Some (Obj ps) -> map_get ps f = Some (Obj so) ->
    map_get so "enum" = Some (Arr l) -> l ≡ₚ l' -> DistinctTexts l ->
    SchemaStep (Obj m)
      (Obj (map_insert m "properties"
              (Obj (map_insert ps f (Obj (map_insert so "enum" (Arr l'))))))).

Lemma normalize_property_total spec : is_Some (normalize_property spec).
Proof.
  unfold normalize_property. destruct (vget spec "enum" ≫= as_array); [|done].
  by rewrite sort_by_canon_total.
Qed.

Lemma normalize_property_enum so l l' :
  map_get so "enum" = Some (Arr l) -> l ≡ₚ l' -> DistinctTexts l ->
  normalize_property (Obj (map_insert so "enum" (Arr l'))) = normalize_property (Obj so) /\
  exists r, normalize_property (Obj so) = Some (Some r).
Proof.
  intros Hg Hp Hd. unfold normalize_property. cbn. rewrite Hg, map_get_insert_eq. cbn.
  rewrite !sort_by_canon_total. cbn. rewrite map_insert_insert, (canon_sort_reorder l l' Hp Hd). eauto.
Qed.

Lemma normalize_properties_app a b p :
  normalize_properties (a ++ b) p = q ← normalize_properties a p; normalize_properties b q.
Proof.
  revert p. induction a as [|[f s] a IH]; intros p; simpl; [done|].
  destruct (normalize_property s) as [n|]; simpl; [apply IH|done].
Qed.

Lemma normalize_properties_insert a p f y :
  f ∉ map fst a -> is_Some (map_get p f) ->
  normalize_properties a (map_insert p f y) =
  q ← normalize_properties a p; Some (map_insert q f y).
Proof.
  revert p. induction a as [|[g s] a IH]; intros p Hf Hp; simpl; [done|].
  apply not_elem_of_cons in Hf as [Hne Hf].
  destruct (normalize_property s) as [[so|]|]; simpl; [|by apply IH|done].
  rewrite <- map_insert_comm by done. apply IH; [done|]. by rewrite map_get_insert_ne.
Qed.

Lemma normalize_properties_step ps f s s' so :
  map_get ps f = Some s -> NoDup (map fst ps) ->
  normalize_property s' = normalize_property s -> normalize_property s = Some (Some so) ->
  normalize_properties (map_insert ps f s') (map_insert ps f s') = normalize_properties ps ps.
Proof.
  intros Hg Hnd Hs Hso. destruct (map_get_split ps f s Hg) as (a & b & -> & Hf).
  rewrite (map_insert_split a f s b s' Hf) at 1.
  rewrite !normalize_properties_app.
  rewrite normalize_properties_insert by (rewrite ?Hg; done).
  destruct (normalize_properties a (a ++ (f, s) :: b)) as [q|]; simpl; [|done].
  rewrite Hs, Hso. simpl. by rewrite map_insert_insert.
Qed.

Lemma normalize_schema_step v w : wf_value v -> SchemaStep v w -> normalize_schema w = normalize_schema v.
Proof.
  intros Hwf Hs. destruct Hs as [m l l' Hg Hp Hd|m ps f so l l' Hg Hf He Hp Hd]; unfold normalize_schema; cbn [as_object].
  - rewrite map_get_insert_eq, Hg. cbn. rewrite !sort_by_canon_total. cbn.
    by rewrite map_insert_insert, (canon_sort_reorder l l' Hp Hd).
  - rewrite !map_get_insert_ne by done.
    assert (Hps : wf_value (Obj ps)) by by eapply wf_get.
    destruct (normalize_property_enum so l l' He Hp Hd) as [Es [r Hr]].
    assert (En : normalize_properties (map_insert ps f (Obj (map_insert so "enum" (Arr l'))))
                   (map_insert ps f (Obj (map_insert so "enum" (Arr l')))) = normalize_properties ps ps).
    { eapply normalize_properties_step; [done| |done|done]. by inversion Hps. }
    destruct (map_get m "required" ≫= as_array) as [req|] eqn:Er; cbn [mbind option_bind].
    + assert (Hm : is_Some (map_get m "required")) by (destruct (map_get m "required"); done).
      rewrite !sort_by_canon_total. cbn [mbind option_bind].
      rewrite map_insert_comm by done.
      rewrite map_get_insert_eq, map_get_insert_ne, Hg by done. cbn [mbind option_bind as_object].
      rewrite En. by destruct (normalize_properties ps ps); cbn; rewrite ?map_insert_insert.
    + rewrite map_get_insert_eq, Hg. cbn [mbind option_bind as_object].
      rewrite En. by destruct (normalize_properties ps ps); cbn; rewrite ?map_insert_insert.
Qed.

Lemma schema_step_wf v w : wf_value v -> SchemaStep v w -> wf_value w.
Proof.
  intros Hwf Hs. assert (Harr : forall l l', wf_value (Arr l) -> l ≡ₚ l' -> wf_value (Arr l')).
  { intros l l' Hl Hp. inversion Hl; subst. constructor. by rewrite <- Hp. }
  destruct Hs as [m l l' Hg Hp _|m ps f so l l' Hg Hf He Hp _].
  - apply wf_insert; [done|]. eapply Harr; [|done]. by eapply wf_get.
  - assert (Hps : wf_value (Obj ps)) by by eapply wf_get.
    assert (Hso : wf_value (Obj so)) by by eapply wf_get.
    repeat (apply wf_insert; [done|]). eapply Harr; [|done]. by eapply wf_get.
Qed.

Lemma normalize_schema_steps v w :
  wf_value v -> rtc SchemaStep v w -> normalize_schema w = normalize_schema v.
Proof.
  intros Hwf Hr. induction Hr as [|v u w Hs _ IH]; [done|].
  rewrite IH by by eapply schema_step_wf. by apply normalize_schema_step.
Qed.

Lemma sort_insert_wf m k l l' :
  wf_value (Obj m) -> wf_value (Arr l) -> sort_by_canon l = Some l' -> wf_value (Obj (map_insert m k (Arr l'))).
Proof.
  intros Hm Hl. rewrite sort_by_canon_total. intros [= <-].
  apply wf_insert; [done|]. inversion Hl; subst. constructor. by apply canon_sort_wf.
Qed.

Lemma get_array_wf m k l : wf_value (Obj m) -> map_get m k ≫= as_array = Some l -> wf_value (Arr l).
Proof.
  intros Hm. destruct (map_get m k) as [v|] eqn:E; [|done]. cbn.
  destruct v; try done. intros [= ->]. by eapply wf_get.
Qed.

Lemma normalize_property_wf s so :
  wf_value s -> normalize_property s = Some (Some so) -> wf_value so.
Proof.
  intros Hs. unfold normalize_property. destruct (vget s "enum" ≫= as_array) as [l|] eqn:E; [|done].
  destruct s; try done. cbn in E. destruct (sort_by_canon l) as [l'|] eqn:El; [|done]. cbn.
  intros [= <-]. eapply sort_insert_wf; [done| |done]. by eapply get_array_wf.
Qed.

Lemma normalize_properties_wf ps p :
  Forall (fun e => wf_value (snd e)) ps -> wf_value (Obj p) ->
  exists q, normalize_properties ps p = Some q /\ wf_value (Obj q).
Proof.
  intros Hps. revert p. induction Hps as [|[f s] ps Hs _ IH]; intros p Hp; simpl; [by exists p|].
  destruct (normalize_property_total s) as [[so|] E]; rewrite E; simpl; apply IH; [|done].
  apply wf_insert; [done|]. by apply (normalize_property_wf s).
Qed.

Lemma normalize_schema_wf v : wf_value v -> exists w, normalize_schema v = Some w /\ wf_value w.
Proof.
  intros Hwf. unfold normalize_schema. destruct v as [| | | | |m]; try (eexists; split; [done|done]).
  cbn [as_object].
  assert (Hreq : exists out, match map_get m "required" ≫= as_array with
      | Some req => r ← sort_by_canon req; Some (map_insert m "required" (Arr r))
      | None => Some m
      end = Some out /\ wf_value (Obj out)).
  { destruct (map_get m "required" ≫= as_array) as [l|] eqn:E; [|by exists m].
    destruct (sort_by_canon l) as [l'|] eqn:El; [|by rewrite sort_by_canon_total in El].
    eexists. split; [done|]. eapply sort_insert_wf; [done| |done]. by eapply get_array_wf. }
  destruct Hreq as (out & -> & Hout). cbn [mbind option_bind].
  destruct (map_get out "properties" ≫= as_object) as [ps|] eqn:E; cbn [mbind option_bind].
  2:{ eexists. done. }
  assert (Hps : wf_value (Obj ps)).
  { destruct (map_get out "properties") as [x|] eqn:Ex; [|done].
    destruct x; try done. cbn in E. simplify_eq. by eapply wf_get. }
  destruct (normalize_properties_wf ps ps) as (q & -> & Hq); [by inversion Hps|done|].
  eexists. split; [done|]. by apply wf_insert.
Qed.

Definition norm (v : Value) : Value := default Null (normalize_schema v).

Lemma project_schemas_norm ss out :
  NoDup (map fst (out ++ ss)) -> Forall (fun e => wf_value (snd e)) ss ->
  project_schemas ss out = Some (out ++ map (prod_map id norm) ss).
Proof.
  revert out. induction ss as [|[n v] ss IH]; intros out Hnd Hwf; simpl; [by rewrite app_nil_r|].
  apply Forall_cons in Hwf as [Hv Hwf]. cbn in Hv.
  destruct (normalize_schema_wf v Hv) as (w & Ew & _).
  assert (Hfresh : n ∉ map fst out).
  { rewrite map_app in Hnd. apply NoDup_app in Hnd as (_ & Hd & _). intros Hin.
    apply (Hd n Hin). by left. }
  rewrite Ew. cbn. rewrite (map_insert_fresh out n w Hfresh).
  rewrite IH; [|rewrite <- app_assoc, map_app; by rewrite map_app in Hnd|done].
  rewrite <- app_assoc. unfold norm. by rewrite Ew.
Qed.

(** ** Two policies that declare the same *)

Record DeclaredEquiv (p q : McpPolicy) : Prop := {
  de_version : mp_version p = mp_version q;
  de_enforcement : mp_enforcement p = mp_enforcement q;
  de_lists k f : (k, f) ∈ tool_fields ->
    option_Forall2 Permutation (f (mp_tools p)) (f (mp_tools q));
  de_schemas t : option_Forall2 (rtc SchemaStep) (mp_schemas p !! t) (mp_schemas q !! t);
  de_wf t v : mp_schemas p !! t = Some v -> wf_value v
}.

Lemma norm_schemas p q : DeclaredEquiv p q -> norm <$> mp_schemas p = norm <$> mp_schemas q.
Proof.
  intros Heq. apply map_eq. intros t. rewrite !lookup_fmap.
  pose proof (de_schemas p q Heq t) as Ht. pose proof (de_wf p q Heq t) as Hwf.
  destruct Ht as [v w Hvw|]; [|done]. cbn. f_equal. unfold norm.
  by rewrite (normalize_schema_steps v w (Hwf v eq_refl) Hvw).
Qed.

Lemma steps_wf v w : wf_value v -> rtc SchemaStep v w -> wf_value w.
Proof. intros Hv Hr. induction Hr; [done|]. eauto using schema_step_wf. Qed.

Lemma equiv_wf p q t v : DeclaredEquiv p q -> mp_schemas q !! t = Some v -> wf_value v.
Proof.
  intros Heq Hv. pose proof (de_schemas p q Heq t) as Ht. rewrite Hv in Ht. inversion Ht; subst.
  eapply steps_wf; [|done]. by eapply (de_wf p q Heq t).
Qed.

Lemma schema_entries_wf (m : gmap string Value) ss :
  (forall t v, m !! t = Some v -> wf_value v) -> ss ≡ₚ map_to_list m ->
  NoDup (map fst ss) /\ Forall (fun e => wf_value (snd e)) ss.
Proof.
  intros Hwf Hp. split.
  - rewrite (fmap_Permutation fst _ _ Hp). apply NoDup_fst_map_to_list.
  - rewrite Hp, Forall_forall. intros [t v] Hin%elem_of_map_to_list. by eapply Hwf.
Qed.

Lemma projected_schemas (m : gmap string Value) ss :
  (forall t v, m !! t = Some v -> wf_value v) -> ss ≡ₚ map_to_list m ->
  exists s, project_schemas ss [] = Some s /\ wf_value (Obj s) /\ s ≡ₚ map_to_list (norm <$> m).
Proof.
  intros Hwf Hp. destruct (schema_entries_wf m ss Hwf Hp) as [Hnd Hss].
  rewrite (project_schemas_norm ss []) by done. cbn [app].
  eexists. split_and!; [done| |by rewrite map_to_list_fmap, <- Hp].
  assert (Hk : map fst (map (prod_map id norm) ss) = map fst ss) by by rewrite map_map.
  constructor; [by rewrite Hk|]. apply Forall_map.
  eapply Forall_impl; [apply Hss|]. intros [t v] Hv. cbn in *. unfold norm.
  by destruct (normalize_schema_wf v Hv) as (w & -> & ?).
Qed.

Lemma project_tools_ext keys tm tm' t :
  (forall k, k ∈ keys ->
     match map_get tm k ≫= as_array, map_get tm' k ≫= as_array with
     | Some l, Some l' => sort_by_canon l = sort_by_canon l'
     | None, None => True
     | _, _ => False
     end) ->
  project_tools keys tm t = project_tools keys tm' t.
Proof.
  revert t. induction keys as [|k keys IH]; intros t Hk; simpl; [done|].
  pose proof (Hk k ltac:(by left)) as E.
  destruct (map_get tm k ≫= as_array) as [l|], (map_get tm' k ≫= as_array) as [l'|]; try done.
  - rewrite E. destruct (sort_by_canon l'); cbn; [|done]. apply IH. intros k' Hk'. apply Hk. by right.
  - apply IH. intros k' Hk'. apply Hk. by right.
Qed.

Lemma project_tools_wf keys tm t :
  wf_value (Obj t) ->
  (forall k l, k ∈ keys -> map_get tm k ≫= as_array = Some l -> wf_value (Arr l)) ->
  exists t', project_tools keys tm t = Some t' /\ wf_value (Obj t').
Proof.
  revert t. induction keys as [|k keys IH]; intros t Ht Hk; simpl; [by exists t|].
  destruct (map_get tm k ≫= as_array) as [l|] eqn:E.
  - destruct (sort_by_canon l) as [l'|] eqn:El; [|by rewrite sort_by_canon_total in El]. cbn.
    apply IH; [|intros k' l0 Hk'; apply Hk; by right].
    eapply sort_insert_wf; [done| |done]. apply (Hk k); [by left|done].
  - apply IH; [done|]. intros k' l0 Hk'. apply Hk. by right.
Qed.

End Canon.

(** ** The digest *)

Section Declared.
Context `{CL : CanonLaws} `{PolicyToValueLaws}.

(** The projection of a policy: everything but its schemas is determined by the
    declared fields, its schemas are the normalised ones in some order. *)
Lemma projection_shape p :
  (forall t v, mp_schemas p !! t = Some v -> wf_value v) ->
  exists full tools s, policy_to_value p = Some full /\
    project_and_normalize_declared full =
      Some (Obj [("version", Str (mp_version p)); ("enforcement", enforcement_value (mp_enforcement p));
                 ("tools", Obj tools); ("schemas", Obj s)]) /\
    (forall tm, (forall k f, (k, f) ∈ tool_fields -> map_get tm k = Some (opt_list_value (f (mp_tools p)))) ->
       project_tools DECLARED_TOOL_KEYS tm [] = Some tools) /\
    wf_value (Obj tools) /\ wf_value (Obj s) /\ s ≡ₚ map_to_list (norm <$> mp_schemas p).
Proof.
  intros Hwf. destruct (policy_to_value_fields p) as (m & tm & ss & Ev & Hv & He & Ht & Hf & Hs & Hp).
  destruct (projected_schemas (mp_schemas p) ss Hwf Hp) as (s & Es & Hws & Hps).
  destruct (project_tools_wf DECLARED_TOOL_KEYS tm []) as (tools & Et & Hwt).
  { constructor; constructor. }
  { intros k l Hk. assert (exists f, (k, f) ∈ tool_fields) as [f Hkf].
    { apply (list_elem_of_fmap fst tool_fields) in Hk as ([k' f] & -> & Hin). by exists f. }
    rewrite (Hf k f Hkf). destruct (f (mp_tools p)) as [x|]; [|done]. cbn. intros [= <-].
    constructor. apply Forall_map. apply Forall_forall. intros; constructor. }
  exists (Obj m), tools, s. split_and!; [done| | |done|done|done].
  - unfold project_and_normalize_declared. cbn [as_object foldl]. unfold project_scalar.
    rewrite Hv, He, Ht, Hs. cbn [mbind option_bind as_object]. rewrite Et. cbn [mbind option_bind].
    rewrite Es. done.
  - intros tm' Hf'. rewrite <- Et. apply project_tools_ext. intros k Hk.
    apply (list_elem_of_fmap fst tool_fields) in Hk as ([k' f] & -> & Hin). cbn [fst].
    rewrite (Hf' k' f Hin), (Hf k' f Hin). by destruct (f (mp_tools p)).
Qed.

Lemma tools_equiv p q tools tools' :
  DeclaredEquiv p q ->
  (forall tm, (forall k f, (k, f) ∈ tool_fields -> map_get tm k = Some (opt_list_value (f (mp_tools p)))) ->
     project_tools DECLARED_TOOL_KEYS tm [] = Some tools) ->
  (forall tm, (forall k f, (k, f) ∈ tool_fields -> map_get tm k = Some (opt_list_value (f (mp_tools q)))) ->
     project_tools DECLARED_TOOL_KEYS tm [] = Some tools') ->
  tools = tools'.
Proof.
  intros Heq Hp Hq.
  enough (Some tools = Some tools') by congruence.
  rewrite <- (Hp _ (tool_fields_get (mp_tools p))), <- (Hq _ (tool_fields_get (mp_tools q))).
  apply project_tools_ext. intros k Hk.
  apply (list_elem_of_fmap fst tool_fields) in Hk as ([k' f] & -> & Hin). cbn [fst].
  rewrite !(tool_fields_get _ k' f Hin).
  destruct (de_lists p q Heq k' f Hin) as [l l' Hl|]; cbn; [|done].
  rewrite !sort_by_canon_total. f_equal. apply canon_sort_reorder; [by rewrite Hl|apply strings_distinct].
Qed.

(** The declared digest ignores order where order means nothing.  If two
    policies' declared views have the same version and enforcement settings,
    the same members in each allow, deny, class, approval, scope and redaction
    list, and schemas that differ only in the order of [required] and of the
    properties' [enum]s, then the digests are the same; nothing else of the
    policies (limits, pins, taxonomy, discovery, monitoring, kill switch)
    enters them. *)
Theorem declared_digest_order_free p q :
  DeclaredEquiv (normalized_declared_view p) (normalized_declared_view q) ->
  declared_constraint_digest p = declared_constraint_digest q.
Proof.
  intros Heq. unfold declared_constraint_digest.
  destruct (projection_shape (normalized_declared_view p)) as (fp & tp & sp & Efp & Epp & Htp & Hwtp & Hwsp & Hsp).
  { intros t v. by apply (de_wf _ _ Heq). }
  destruct (projection_shape (normalized_declared_view q)) as (fq & tq & sq & Efq & Epq & Htq & Hwtq & Hwsq & Hsq).
  { intros t v. by eapply equiv_wf. }
  rewrite Efp, Efq. cbn [mbind option_bind]. rewrite Epp, Epq. cbn [mbind option_bind].
  rewrite <- (tools_equiv _ _ tp tq Heq Htp Htq), <- (de_version _ _ Heq), <- (de_enforcement _ _ Heq).
  unfold jcs_digest.
  assert (Hwf : forall s, wf_value (Obj s) ->
    wf_value (Obj [("version", Str (mp_version (normalized_declared_view p)));
                   ("enforcement", enforcement_value (mp_enforcement (normalized_declared_view p)));
                   ("tools", Obj tp); ("schemas", Obj s)])).
  { intros s Hs. constructor.
    - cbn. apply (bool_decide_unpack _). by vm_compute.
    - repeat (apply Forall_cons; split); try done; try constructor; cbn; [apply NoDup_singleton|].
      repeat constructor. }
  rewrite (canon_respects _ _ (Hwf sp Hwsp) (Hwf sq Hwsq)); [done|].
  apply value_eqb_obj. split; [done|].
  repeat (apply Forall_cons; split); [..|constructor]; eexists; (split; [reflexivity|]).
  - apply value_eqb_refl. constructor.
  - apply value_eqb_refl. constructor; [apply NoDup_singleton|repeat constructor].
  - by apply value_eqb_refl.
  - cbn [snd]. apply value_eqb_perm.
    + by inversion Hwsp.
    + inversion Hwsp; subst. eapply Forall_impl; [done|]. intros e. apply value_eqb_refl.
    + by rewrite Hsp, Hsq, (norm_schemas _ _ Heq).
Qed.

End Declared.
