(* ===== verification/DecisionTruthWitnesses.v ===== *)
(** * Concrete truth records

    The laws of [DecisionTruthCorrect] and [DeclaredDigest] hold together: a
    platform that satisfies them, and each theorem with hypotheses applied to a
    concrete policy, call or row. *)
From stdpp Require Import base tactics list strings gmap pretty relations.
From Stdlib Require Import Ascii ZArith Lia.
From S2P Require Import Prelude RustStr Json Platform PolicyTypes ToolPattern PolicySchema PolicyEngine DecisionTruth DecisionTruthCorrect DeclaredDigest.

(** A digest is the length of its input modulo sixteen, as 64 digits; the
    canonical text of an object is its size; every schema accepts every value. *)
Definition toy_digit (n : nat) : ascii := default "0"%char (String.get n "0123456789abcdef").

Definition toy_sha (s : string) : string :=
  rep "0"%char 63 +:+ String (toy_digit (String.length s mod 16)) EmptyString.

Definition toy_text (v : Value) : string :=
  match v with
  | Str s => "s" +:+ s
  | Obj m => "o" +:+ pretty (length m)
  | _ => "v"
  end.

#[local] Instance truth_platform : Platform := {|
  sha256_hex := toy_sha;
  md5_hex := toy_sha;
  jcs_to_string := fun v => Some (toy_text v);
  jcs_error := "unsupported";
  json_to_string := toy_text;
  parse_rfc3339 := fun _ => None;
  rfc3339_error := fun _ => "invalid";
  to_rfc3339 := pretty;
  datetime_display := pretty;
  datetime_min := 0;
  datetime_max := (10 ^ 18)%Z;
  duration_max_secs := (10 ^ 9)%Z;
  Validator := Value;
  build_validator := fun v => Ok v;
  is_valid := fun _ _ => true;
  iter_errors := fun _ _ => [];
  Similarity := Z;
  normalized_levenshtein := fun a b => if String.eqb a b then 10%Z else 0%Z;
  sim_threshold := 6%Z;
  sim_leb := Z.leb
|}.

#[local] Instance truth_serde : PolicySerde := {| jcs_policy := fun p => Some (mp_name p) |}.
#[local] Instance truth_hmac : Hmac := {| hmac_sha256_hex := fun key message => toy_sha (key +:+ message) |}.
#[local] Instance truth_case : CharCase := {| char_to_lowercase := to_ascii_lowercase |}.
#[local] Instance truth_to_value : PolicyToValue := {|
  policy_to_value := fun p => Some (Obj
    [("version", Str (mp_version p)); ("name", Str (mp_name p));
     ("tools", Obj (tool_lists_value (mp_tools p)));
     ("schemas", Obj (map_to_list (mp_schemas p)));
     ("enforcement", enforcement_value (mp_enforcement p))])
|}.

Lemma toy_digit_lower n : n < 16 -> is_lower_hex (toy_digit n) = true.
Proof. intros Hn. do 16 (destruct n as [|n]; [reflexivity|]). lia. Qed.

#[local] Instance truth_digest_laws : DigestLaws.
Proof.
  split; [|by eexists]. intros s. unfold sha256_hex, truth_platform, toy_sha.
  unfold is_sha256_digest. cbn -[Nat.modulo toy_digit]. rewrite toy_digit_lower; [done|].
  by apply Nat.mod_upper_bound.
Qed.

#[local] Instance truth_canon_laws : CanonLaws.
Proof.
  split; [by eexists|by intros a b [= ->]|].
  intros v w _ _. destruct v, w; try done; intros E.
  - cbn in E. by apply String.eqb_eq in E as ->.
  - apply value_eqb_obj in E as [E _]. cbn. by rewrite E.
Qed.

#[local] Instance truth_to_value_laws : PolicyToValueLaws.
Proof.
  split. intros p. eexists _, _, _.
  split_and!; [reflexivity..|apply tool_fields_get|reflexivity|reflexivity].
Qed.

(** One tool, allowed and with a schema. *)
Definition truth_policy : McpPolicy :=
  mcp_policy_default <| mp_version := "2.0" |>
    <| mp_tools := tool_policy_default <| tp_allow := Some ["read_file"; "deploy"] |> |>
    <| mp_schemas := {[ "read_file" := Obj [("required", Arr [Str "a"; Str "b"])] ]} |>.

(** The same policy with its lists reordered. *)
Definition truth_policy' : McpPolicy :=
  mcp_policy_default <| mp_version := "2.0" |> <| mp_name := "other" |>
    <| mp_tools := tool_policy_default <| tp_allow := Some ["deploy"; "read_file"] |> |>
    <| mp_schemas := {[ "read_file" := Obj [("required", Arr [Str "b"; Str "a"])] ]} |>.

Definition truth_args : Value := Obj [("path", Str "/x")].
Definition demo_evidence : DecisionEvidence := mkDecisionEvidence (Some []) None None None.

Example demo_matches :
  decision_verdict truth_policy "read_file" (Some truth_args) "present" demo_evidence = "match".
Proof. vm_compute. reflexivity. Qed.

Example demo_denied :
  decision_verdict truth_policy "delete" (Some truth_args) "present" demo_evidence = "mismatch".
Proof. vm_compute. reflexivity. Qed.

Lemma match_engine_allows_witness :
  exists d s', evaluate truth_policy "read_file" truth_args None policy_state_default = (Done d, s') /\
               decision_allows d = true.
Proof.
  apply (match_engine_allows truth_policy "read_file" truth_args "present" demo_evidence None policy_state_default).
  - reflexivity.
  - right. exists "read_file". vm_compute. left.
  - vm_compute. reflexivity.
  - vm_compute. reflexivity.
  - intros (pin & rt & Hp & _). vm_compute in Hp. discriminate Hp.
  - exact I.
Defined.

Lemma args_digest_hides_secrets_witness :
  args_digest (Obj [("path", Str "/x"); ("Api-Key", Str "a")]) "k" "kid" =
  args_digest (Obj [("TOKEN", Null); ("path", Str "/x")]) "k" "kid".
Proof.
  apply (args_digest_hides_secrets (Obj [("path", Str "/x"); ("Api-Key", Str "a")])
           (Obj [("TOKEN", Null); ("path", Str "/x")]) "k" "kid" "t" 0%Z "d" "s" "c" "r" "i").
  apply pe_obj, pm_right; [apply secret_key_iff; vm_compute; reflexivity|].
  apply pm_both; [apply pe_leaf|]. apply pm_left; [apply secret_key_iff; vm_compute; reflexivity|]. apply pm_nil.
Defined.

Definition demo_record : option Value :=
  build_classified_record truth_policy "read_file" truth_args 3%Z "key" "key-1"
    "authoritative_boundary" "call-1" "ok" "present" demo_evidence.

Definition demo_carrier : Value := default Null demo_record.

Example demo_record_built : demo_record = Some demo_carrier.
Proof. vm_compute. reflexivity. Qed.

Definition demo_row : Value := default Null (pack_recipe_row demo_carrier "incomplete" "audit://1").

Lemma packed_row_verifies_witness : verify_recipe_row demo_row demo_carrier "incomplete" = true.
Proof.
  apply (packed_row_verifies demo_carrier "incomplete" "audit://1"). vm_compute. reflexivity.
Defined.

Lemma verified_row_binds_witness : "incomplete" = "incomplete" /\ is_verdict "incomplete" = true.
Proof.
  assert (Hv : verify_recipe_row demo_row demo_carrier "incomplete" = true) by (vm_compute; reflexivity).
  destruct (verified_row_binds demo_row demo_carrier demo_carrier "incomplete" "incomplete" Hv Hv)
    as (E & Hw & _).
  exact (conj E Hw).
Defined.

Lemma classified_record_citable_witness :
  exists row, verify_recipe_row row demo_carrier "mismatch" = true.
Proof.
  apply (classified_record_citable truth_policy "read_file" truth_args 3%Z "key" "key-1"
           "authoritative_boundary" "call-1" "ok" "present" demo_evidence demo_carrier "mismatch").
  - vm_compute. reflexivity.
  - split; [reflexivity|]. vm_compute. lia.
Defined.

Lemma demo_equiv :
  DeclaredEquiv (normalized_declared_view truth_policy) (normalized_declared_view truth_policy').
Proof.
  assert (Es : mp_schemas (normalized_declared_view truth_policy) =
               {[ "read_file" := Obj [("required", Arr [Str "a"; Str "b"])] ]}) by (vm_compute; reflexivity).
  assert (Es' : mp_schemas (normalized_declared_view truth_policy') =
                {[ "read_file" := Obj [("required", Arr [Str "b"; Str "a"])] ]}) by (vm_compute; reflexivity).
  split; [reflexivity|reflexivity| | |].
  - intros k f Hin. unfold tool_fields in Hin.
    repeat (apply elem_of_cons in Hin as [[= -> ->]|Hin]; [cbn; constructor|]); [|by inversion Hin].
    apply perm_swap.
  - intros t. rewrite Es, Es'. destruct (decide (t = "read_file")) as [->|Hne].
    + rewrite !lookup_singleton_eq. constructor. apply rtc_once.
      apply (step_required [("required", Arr [Str "a"; Str "b"])] [Str "a"; Str "b"] [Str "b"; Str "a"]);
        [done|apply perm_swap|apply (strings_distinct ["a"; "b"])].
    + rewrite !lookup_singleton_ne by done. constructor.
  - intros t v. rewrite Es. intros [<- <-]%lookup_singleton_Some. repeat constructor; try done. set_solver.
Qed.

Lemma declared_digest_order_free_witness :
  declared_constraint_digest truth_policy = declared_constraint_digest truth_policy'.
Proof. apply (declared_digest_order_free truth_policy truth_policy'). apply demo_equiv. Defined.
