(* ===== verification/PackRef.v ===== *)
(** * Pack references

    [assay-registry/src/reference.rs] and [error.rs]: what a reference names
    (a local file, a bundled pack, a registry pack with an optional pinned
    digest, a URL), the errors of the registry client and their exit codes.
    A path is the string it displays as. *)
From stdpp Require Import base tactics list strings.
From Stdlib Require Import Ascii ZArith Lia.
From S2P Require Import Prelude RustStr.

(** ** error.rs *)

Inductive RegistryError : Type :=
| NotFound (name version : string)
| Unauthorized (message : string)
| RateLimited (retry_after : option Z)
| Revoked (name version reason : string) (safe_version : option string)
| DigestMismatch (name version expected actual : string)
| SignatureInvalid (reason : string)
| KeyNotTrusted (key_id : string)
| Unsigned (name version : string)
| InvalidReference (reference reason : string)
| NetworkError (message : string)
| CacheError (message : string)
| InvalidResponse (message : string)
| ConfigError (message : string)
| LockfileError (message : string).

Definition exit_code (e : RegistryError) : Z :=
  match e with
  | NotFound _ _ | ConfigError _ | InvalidReference _ _ => 1
  | Unauthorized _ => 2
  | Revoked _ _ _ _ => 3
  | DigestMismatch _ _ _ _ | SignatureInvalid _ | KeyNotTrusted _ | Unsigned _ _ => 4
  | RateLimited _ | NetworkError _ => 5
  | CacheError _ | InvalidResponse _ => 6
  | LockfileError _ => 7
  end.

Definition is_retryable (e : RegistryError) : bool :=
  match e with RateLimited _ | NetworkError _ => true | _ => false end.

Abbreviation RegistryResult A := (Result A RegistryError).

(** ** reference.rs *)

Inductive PackRef : Type :=
| LocalRef (path : string)
| BundledRef (name : string)
| RegistryRef (name version : string) (pinned_digest : option string)
| ByosRef (url : string).

(** [find(c)] and the two slices around the hit; the separator is ASCII, so
    neither slice can split a character. *)
Fixpoint split_once (c : ascii) (s : string) : option (string * string) :=
  match s with
  | EmptyString => None
  | String a r =>
      if Ascii.eqb a c then Some (EmptyString, r)
      else match split_once c r with
           | Some (x, y) => Some (String a x, y)
           | None => None
           end
  end.

Definition is_ascii_lowercase (a : ascii) : bool :=
  (N.leb 97 (byte_of a) && N.leb (byte_of a) 122)%bool.
Definition is_ascii_digit_byte (a : ascii) : bool :=
  (N.leb 48 (byte_of a) && N.leb (byte_of a) 57)%bool.

Definition is_name_byte (a : ascii) : bool :=
  is_ascii_lowercase a || is_ascii_digit_byte a || Ascii.eqb a "-"%char.

Definition starts_lowercase (name : string) : bool :=
  match name with String a _ => is_ascii_lowercase a | EmptyString => false end.

Definition validate_pack_name (name : string) : RegistryResult () :=
  let invalid reason := Err (InvalidReference name reason) in
  if str_is_empty name then invalid "pack name cannot be empty"
  else if negb (starts_lowercase name) then
    invalid "pack name must start with a lowercase letter"
  else if negb (str_forall is_name_byte name) then
    invalid "pack name may only contain lowercase letters, digits, and hyphens"
  else if ends_with name "-" then invalid "pack name cannot end with a hyphen"
  else if str_contains name "--" then invalid "pack name cannot have consecutive hyphens"
  else Ok ().

Definition is_byos_url (reference : string) : bool :=
  starts_with reference "s3://" || starts_with reference "gs://"
  || starts_with reference "azure://" || starts_with reference "https://"
  || starts_with reference "http://".

Definition is_local_path (reference : string) : bool :=
  starts_with reference "./" || starts_with reference "../" || starts_with reference "/"
  || ends_with reference ".yaml" || ends_with reference ".yml".

Definition is_windows_path (reference : string) : bool :=
  (2 <=? str_len reference)%Z &&
  match chars reference !! 1 with Some c => String.eqb c ":" | None => false end.

Definition pack_ref_parse (reference : string) : RegistryResult PackRef :=
  let reference := str_trim reference in
  let invalid reason := Err (InvalidReference reference reason) in
  if str_is_empty reference then invalid "empty reference"
  else if is_byos_url reference then Ok (ByosRef reference)
  else if is_local_path reference then Ok (LocalRef reference)
  else if is_windows_path reference then Ok (LocalRef reference)
  else
    match split_once "@"%char reference with
    | Some (name, rest) =>
        let registry version pinned_digest :=
          match validate_pack_name name with
          | Err e => Err e
          | Ok _ =>
              if str_is_empty version then invalid "version is required for registry packs"
              else Ok (RegistryRef name version pinned_digest)
          end in
        match split_once "#"%char rest with
        | Some (version, digest) =>
            if negb (starts_with digest "sha256:") then
              invalid "pinned digest must start with 'sha256:'"
            else registry version (Some digest)
        | None => registry rest None
        end
    | None =>
        match validate_pack_name reference with
        | Err e => Err e
        | Ok _ => Ok (BundledRef reference)
        end
    end.

Definition pack_ref_name (r : PackRef) : option string :=
  match r with BundledRef n | RegistryRef n _ _ => Some n | _ => None end.
Definition pack_ref_version (r : PackRef) : option string :=
  match r with RegistryRef _ v _ => Some v | _ => None end.
Definition pack_ref_pinned (r : PackRef) : option string :=
  match r with RegistryRef _ _ d => d | _ => None end.

(** [Display]. *)
Definition pack_ref_fmt (r : PackRef) : string :=
  match r with
  | LocalRef path => path
  | BundledRef name => name
  | RegistryRef name version None => name +:+ "@" +:+ version
  | RegistryRef name version (Some digest) => name +:+ "@" +:+ version +:+ "#" +:+ digest
  | ByosRef url => url
  end.

(** ** Trimming *)

(** A list of characters that reading its concatenation gives back: each is a
    byte followed by continuation bytes, and a next one does not continue it. *)
Definition utf8_char (c : string) : Prop :=
  exists a t, c = String a t /\ str_forall is_cont t = true.

Fixpoint chars_ok (l : list string) : Prop :=
  match l with
  | [] => True
  | c :: r => utf8_char c /\
      (match r with
       | String a _ :: _ => is_cont a = false
       | EmptyString :: _ => False
       | [] => True
       end) /\ chars_ok r
  end.

Lemma span_cont_forall s : str_forall is_cont (fst (span_cont s)) = true.
Proof.
  induction s as [|a s IH]; simpl; [done|]. destruct (is_cont a) eqn:E; simpl; [|done].
  destruct (span_cont s); simpl in *. by rewrite E.
Qed.

Lemma span_cont_rest s :
  match snd (span_cont s) with String a _ => is_cont a = false | EmptyString => True end.
Proof.
  induction s as [|a s IH]; simpl; [done|]. destruct (is_cont a) eqn:E; simpl; [|done].
  by destruct (span_cont s).
Qed.

Lemma span_cont_split t rest :
  str_forall is_cont t = true ->
  match rest with String a _ => is_cont a = false | EmptyString => True end ->
  span_cont (t +:+ rest) = (t, rest).
Proof.
  intros Ht Hr. induction t as [|a t IH].
  - destruct rest as [|b rest]; [done|]. cbn. by rewrite Hr.
  - cbn in Ht |- *. apply andb_true_iff in Ht as [Ha Ht]. rewrite Ha. by rewrite (IH Ht).
Qed.

Lemma chars_fuel_ok n s : String.length s <= n -> chars_ok (chars_fuel n s).
Proof.
  revert s. induction n as [|n IH]; intros s Hn; [done|].
  destruct s as [|a s]; [done|]. cbn [chars_fuel uncons_char].
  pose proof (span_cont_forall s) as Hf. pose proof (span_cont_rest s) as Hr.
  pose proof (span_cont_app s) as Ha.
  destruct (span_cont s) as [c t]. cbn [fst snd] in *. subst s. cbn in Hn.
  rewrite string_app_length in Hn. split_and!; [by exists a, c| |apply IH; lia].
  destruct n as [|n]; [done|]. destruct t as [|b t]; [done|]. cbn. by destruct (span_cont t).
Qed.

Lemma chars_of_concat l : chars_ok l -> chars (str_concat l) = l.
Proof.
  intros Hok. unfold chars. generalize (le_n (String.length (str_concat l))).
  generalize (String.length (str_concat l)) at 2 3 as n. revert Hok.
  induction l as [|c l IH]; intros Hok n Hn; [by destruct n|].
  destruct Hok as ((a & t & -> & Ht) & Hnext & Hok). cbn in Hn |- *.
  rewrite string_app_length in Hn. destruct n as [|n]; [lia|]. cbn [chars_fuel uncons_char].
  assert (Hr : match str_concat l with String b _ => is_cont b = false | EmptyString => True end).
  { destruct l as [|[|b d] l]; [done|done|]. exact Hnext. }
  change (foldr String.append EmptyString l) with (str_concat l).
  rewrite (span_cont_split t (str_concat l) Ht Hr). f_equal. apply IH; [done|].
  change (foldr String.append EmptyString l) with (str_concat l) in Hn. lia.
Qed.

Lemma chars_ok_app l1 l2 : chars_ok (l1 ++ l2) -> chars_ok l1 /\ chars_ok l2.
Proof.
  induction l1 as [|c l1 IH]; [done|]. intros (Hc & Hn & Hok).
  destruct (IH Hok) as [H1 H2]. split; [|done]. split_and!; [done| |done]. by destruct l1.
Qed.

Lemma drop_while_suffix {A} (f : A -> bool) l :
  exists p, l = p ++ drop_while f l.
Proof.
  induction l as [|x l [p IH]]; simpl; [by exists []|].
  destruct (f x); [exists (x :: p); simpl; by rewrite <- IH | by exists []].
Qed.

Lemma drop_while_idem {A} (f : A -> bool) l : drop_while f (drop_while f l) = drop_while f l.
Proof. induction l as [|x l IH]; simpl; [done|]. destruct (f x) eqn:E; [done|]. simpl. by rewrite E. Qed.

Lemma drop_while_prefix {A} (f : A -> bool) m t : drop_while f (m ++ t) = m ++ t -> drop_while f m = m.
Proof.
  destruct m as [|x m]; [done|]. simpl. destruct (f x); [|done]. intros E.
  destruct (drop_while_suffix f (m ++ t)) as [p Hp]. rewrite E in Hp.
  apply (f_equal length) in Hp. rewrite !length_app in Hp. simpl in Hp. rewrite length_app in Hp. lia.
Qed.

Lemma str_trim_idem s : str_trim (str_trim s) = str_trim s.
Proof.
  unfold str_trim. set (w := drop_while is_whitespace (chars s)).
  set (m := reverse (drop_while is_whitespace (reverse w))).
  destruct (drop_while_suffix is_whitespace (reverse w)) as [p Hp].
  assert (Hw : w = m ++ reverse p).
  { rewrite <- (reverse_involutive w), Hp, reverse_app. done. }
  assert (Hok : chars_ok m).
  { destruct (drop_while_suffix is_whitespace (chars s)) as [q Hq].
    assert (Hs : chars_ok (chars s)) by by apply chars_fuel_ok.
    rewrite Hq in Hs. apply chars_ok_app in Hs as [_ Hs]. fold w in Hs. rewrite Hw in Hs.
    by apply chars_ok_app in Hs as [Hs _]. }
  rewrite (chars_of_concat m Hok).
  assert (Hm : drop_while is_whitespace m = m).
  { apply (drop_while_prefix _ m (reverse p)). rewrite <- Hw. apply drop_while_idem. }
  rewrite Hm. f_equal. unfold m at 1. rewrite reverse_involutive. by rewrite drop_while_idem.
Qed.

(** ** Properties *)

Lemma split_once_Some c s x y : split_once c s = Some (x, y) -> s = x +:+ String c y.
Proof.
  revert x y. induction s as [|a s IH]; intros x y; simpl; [done|].
  destruct (Ascii.eqb_spec a c) as [->|]; [by intros [= <- <-]|].
  destruct (split_once c s) as [[u v]|]; [|done]. intros [= <- <-]. cbn. f_equal. by apply IH.
Qed.

Lemma split_once_first c s x y :
  split_once c s = Some (x, y) <-> s = x +:+ String c y /\ (forall u v, x <> u +:+ String c v).
Proof.
  revert x y. induction s as [|a s IH]; intros x y; cbn [split_once].
  - split; [done|]. intros [Hs _]. by destruct x.
  - destruct (Ascii.eqb_spec a c) as [->|Hac].
    + split; [intros [= <- <-]; split; [done|]; by intros []|].
      intros [Hs Hx]. destruct x as [|b x]; cbn in Hs; [by injection Hs as <-|].
      injection Hs as <- _. by destruct (Hx EmptyString x).
    + split.
      * destruct (split_once c s) as [[u v]|]; [|done]. intros [= <- <-].
        destruct (proj1 (IH u v) eq_refl) as [-> Hu]. split; [done|].
        intros [|b u'] v' Hs; cbn in Hs; injection Hs as ? Hs; [done|]. by apply Hu in Hs.
      * intros [Hs Hx]. destruct x as [|b x]; cbn in Hs; injection Hs as <- Hs; [done|].
        rewrite (proj2 (IH x y)); [done|]. split; [done|]. intros u v ->. by apply (Hx (String a u) v).
Qed.

Lemma parse_fmt_trim s r : pack_ref_parse s = Ok r -> pack_ref_fmt r = str_trim s.
Proof.
  unfold pack_ref_parse. cbv zeta. generalize (str_trim s) as t. intros t.
  destruct (str_is_empty t); [done|]. destruct (is_byos_url t); [by intros [= <-]|].
  destruct (is_local_path t); [by intros [= <-]|]. destruct (is_windows_path t); [by intros [= <-]|].
  destruct (split_once "@" t) as [[name rest]|] eqn:Et.
  2:{ destruct (validate_pack_name t); [by intros [= <-]|done]. }
  apply split_once_Some in Et. destruct (split_once "#" rest) as [[version digest]|] eqn:Er.
  - destruct (negb (starts_with digest "sha256:")); [done|].
    destruct (validate_pack_name name); [|done]. destruct (str_is_empty version); [done|].
    intros [= <-]. apply split_once_Some in Er. subst. done.
  - destruct (validate_pack_name name); [|done]. destruct (str_is_empty rest); [done|].
    intros [= <-]. by subst.
Qed.

(** A reference reads back.  What a parsed reference displays as is the text
    it was parsed from without the surrounding whitespace, and parsing that
    again gives the same reference. *)
Theorem pack_ref_roundtrip s r :
  pack_ref_parse s = Ok r -> pack_ref_fmt r = str_trim s /\ pack_ref_parse (pack_ref_fmt r) = Ok r.
Proof.
  intros Hp. rewrite (parse_fmt_trim s r Hp). split; [done|].
  rewrite <- Hp. unfold pack_ref_parse. by rewrite str_trim_idem.
Qed.
