(* ===== verification/PackYaml.v ===== *)
(** * Canonical form of packs

    [assay-registry/src/canonicalize] and [digest.rs]: the scan of a pack's text
    for forbidden YAML, the conversion of the parsed document to JSON within
    the limits, and the digest, which falls back to the hash of the raw text.
    [serde_yaml] is the class [YamlReader]; a position in a line is the text
    before it. *)
From stdpp Require Import base tactics list strings gmap.
From Stdlib Require Import Ascii ZArith Lia.
From S2P Require Import Prelude RustStr Json Platform PackRef.

(** ** What [serde_yaml] reads *)

(** A number is a [u64], a negative [i64] or a float; a tagged value keeps the
    [Debug] form of its tag. *)
Inductive YamlValue : Type :=
| YNull
| YBool (b : bool)
| YNum (n : Number)
| YStr (s : string)
| YSeq (l : list YamlValue)
| YMap (m : list (YamlValue * YamlValue))
| YTagged (tag : string).

Class YamlReader : Type := {
  yaml_from_str : string -> Result YamlValue string;
  (** [Display] of a number, [Debug] of a value. *)
  yaml_number_fmt : Number -> string;
  yaml_debug : YamlValue -> string;
  (** [char::is_alphanumeric], on one character. *)
  char_is_alphanumeric : string -> bool
}.

(** ** errors.rs *)

Definition MAX_DEPTH : nat := 50.
Definition MAX_KEYS_PER_MAPPING : Z := 10000.
Definition MAX_YAML_STRING_LENGTH : Z := 1048576.
Definition MAX_TOTAL_SIZE : Z := 10485760.
Definition MAX_SAFE_INTEGER : Z := 9007199254740992.
Definition MIN_SAFE_INTEGER : Z := -9007199254740992.

Inductive CanonicalizeError : Type :=
| AnchorFound (position : string)
| AliasFound (position : string)
| TagFound (tag : string)
| MultiDocumentFound
| YamlDuplicateKey (key : string)
| FloatNotAllowed (value : string)
| IntegerOutOfRange (value : Z)
| MaxDepthExceeded (depth : nat)
| MaxKeysExceeded (count : Z)
| YamlStringTooLong (length : Z)
| InputTooLarge (size : Z)
| YamlParseError (message : string)
| SerializeError (message : string).

Definition canonicalize_error_fmt (e : CanonicalizeError) : string :=
  match e with
  | AnchorFound position => "YAML anchor found at " +:+ position
  | AliasFound position => "YAML alias found at " +:+ position
  | TagFound tag => "YAML tag not allowed: " +:+ tag
  | MultiDocumentFound => "multi-document YAML not allowed"
  | YamlDuplicateKey key => "duplicate key: " +:+ key
  | FloatNotAllowed value => "float values not allowed: " +:+ value
  | IntegerOutOfRange value =>
      "integer " +:+ fmt_int value +:+ " out of safe range ("
      +:+ of_bytes [194; 177]%N +:+ "2^53)"
  | MaxDepthExceeded depth =>
      "nesting depth " +:+ fmt_int (Z.of_nat depth) +:+ " exceeds limit "
      +:+ fmt_int (Z.of_nat MAX_DEPTH)
  | MaxKeysExceeded count =>
      "mapping has " +:+ fmt_int count +:+ " keys, exceeds limit "
      +:+ fmt_int MAX_KEYS_PER_MAPPING
  | YamlStringTooLong length =>
      "string length " +:+ fmt_int length +:+ " exceeds limit " +:+ fmt_int MAX_YAML_STRING_LENGTH
  | InputTooLarge size =>
      "input size " +:+ fmt_int size +:+ " exceeds limit " +:+ fmt_int MAX_TOTAL_SIZE
  | YamlParseError message => "YAML parse error: " +:+ message
  | SerializeError message => "JSON serialize error: " +:+ message
  end.

Abbreviation CanonicalizeResult A := (Result A CanonicalizeError).

Definition dquote : ascii := "034"%char.
Definition squote : ascii := "039"%char.
Definition backslash : ascii := "092"%char.
Definition char_str (a : ascii) : string := String a EmptyString.

(** ** yaml.rs: lines *)

(** [str::lines]: a line loses its [\n] and a [\r] before that; no line follows
    a final [\n]. *)
Definition strip_cr (line : string) : string :=
  if ends_with line (char_str "013") then str_take (String.length line - 1) line else line.

Fixpoint lines_of_pieces (pieces : list string) : list string :=
  match pieces with
  | [] => []
  | [p] => if str_is_empty p then [] else [p]
  | p :: r => strip_cr p :: lines_of_pieces r
  end.

Definition str_lines (s : string) : list string := lines_of_pieces (str_split "010"%char s).

Definition trim_start (s : string) : string := str_concat (drop_while is_whitespace (chars s)).

(** [find(p)]: the text before the first occurrence and from it on. *)
Fixpoint find_sub (s p : string) : option (string * string) :=
  if starts_with s p then Some (EmptyString, s)
  else
    match s with
    | EmptyString => None
    | String a r =>
        match find_sub r p with
        | Some (x, y) => Some (String a x, y)
        | None => None
        end
    end.

(** [matches(p).count()] for a pattern that cannot overlap itself. *)
Fixpoint count_matches (s p : string) : nat :=
  match s with
  | EmptyString => 0
  | String a r => (if starts_with s p then 1 else 0) + count_matches r p
  end.

(** ** yaml.rs: the scan of one line *)

(** The subtraction cannot underflow: an escaped quote contains a quote. *)
Definition is_inside_quotes (line pattern : string) : bool :=
  match find_sub line pattern with
  | Some (before, _) =>
      let double_quotes :=
        count_matches before (char_str dquote)
        - count_matches before (String backslash (char_str dquote)) in
      let single_quotes :=
        count_matches before (char_str squote)
        - count_matches before (String backslash (char_str squote)) in
      Nat.eqb (double_quotes mod 2) 1 || Nat.eqb (single_quotes mod 2) 1
  | None => false
  end.

(** After an opening double quote: the text up to the closing one, and what
    follows it. *)
Fixpoint find_closing_double_quote (l : list string) : option (string * string) :=
  match l with
  | [] => None
  | c :: r =>
      if String.eqb c (char_str backslash) then
        match r with
        | [] => None
        | e :: r =>
            match find_closing_double_quote r with
            | Some (x, y) => Some (c +:+ e +:+ x, y)
            | None => None
            end
        end
      else if String.eqb c (char_str dquote) then Some (EmptyString, str_concat r)
      else
        match find_closing_double_quote r with
        | Some (x, y) => Some (c +:+ x, y)
        | None => None
        end
  end.

(** The first colon outside brackets, as the text before it. *)
Fixpoint unquoted_key (depth : nat) (l : list string) : option string :=
  match l with
  | [] => None
  | c :: r =>
      let next d := match unquoted_key d r with Some k => Some (c +:+ k) | None => None end in
      if String.eqb c "[" || String.eqb c "{" then next (S depth)
      else if String.eqb c "]" || String.eqb c "}" then next (depth - 1)
      else if String.eqb c ":" && Nat.eqb depth 0 then Some EmptyString
      else next depth
  end.

Definition colon_follows (after_key : string) : bool := starts_with (trim_start after_key) ":".

Definition extract_yaml_key (line : string) : option string :=
  let trimmed := str_trim line in
  if starts_with trimmed "-" then None
  else if String.eqb trimmed "|" || String.eqb trimmed ">" || String.eqb trimmed "|-"
          || String.eqb trimmed ">-" then None
  else if starts_with trimmed (char_str dquote) then
    match find_closing_double_quote (chars (str_drop 1 trimmed)) with
    | Some (key, after_key) => if colon_follows after_key then Some key else None
    | None => None
    end
  else if starts_with trimmed (char_str squote) then
    match split_once squote (str_drop 1 trimmed) with
    | Some (key, after_key) => if colon_follows after_key then Some key else None
    | None => None
    end
  else
    match unquoted_key 0 (chars trimmed) with
    | Some before =>
        let key := str_trim before in
        if negb (str_is_empty key) && negb (contains_char key " "%char) then Some key else None
    | None => None
    end.

Section Yaml.
Context `{Platform} `{YamlReader}.

Fixpoint anchor_scan (in_single in_double : bool) (line_num : nat) (l : list string)
    : option CanonicalizeError :=
  match l with
  | [] => None
  | ch :: r =>
      if String.eqb ch (char_str squote) && negb in_double then
        anchor_scan (negb in_single) in_double line_num r
      else if String.eqb ch (char_str dquote) && negb in_single then
        anchor_scan in_single (negb in_double) line_num r
      else if (String.eqb ch "&" || String.eqb ch "*") && negb in_single && negb in_double then
        match r with
        | next :: _ =>
            if char_is_alphanumeric next || String.eqb next "_" then
              let position := "line " +:+ fmt_int (Z.of_nat line_num) in
              Some (if String.eqb ch "&" then AnchorFound position else AliasFound position)
            else anchor_scan in_single in_double line_num r
        | [] => None
        end
      else anchor_scan in_single in_double line_num r
  end.

Definition find_anchor_or_alias_outside_quotes (line : string) (line_num : nat)
    : option CanonicalizeError := anchor_scan false false line_num (chars line).

Definition is_tag_end (c : string) : bool := is_whitespace c || String.eqb c ":".

(** The characters before the first that ends a tag, if one does. *)
Fixpoint until_tag_end (l : list string) : option string :=
  match l with
  | [] => None
  | c :: r =>
      if is_tag_end c then Some EmptyString
      else match until_tag_end r with Some t => Some (c +:+ t) | None => None end
  end.

(** Without an end the tag is cut at twenty bytes, wherever that is. *)
Definition tag_text (rest : string) : Outcome string :=
  match until_tag_end (chars rest) with
  | Some tag => Done tag
  | None => slice_to rest (Nat.min (String.length rest) 20)
  end.

Definition scan_tag (trimmed : string) : Outcome (option CanonicalizeError) :=
  if (str_contains trimmed "!!" || str_contains trimmed "!<")
     && negb (is_inside_quotes trimmed "!!") && negb (is_inside_quotes trimmed "!<")
  then
    match option_or (find_sub trimmed "!!") (find_sub trimmed "!<") with
    | Some (_, rest) =>
        match tag_text rest with
        | Done tag => Done (Some (TagFound tag))
        | Panicked => Panicked
        end
    | None => Panicked
    end
  else Done None.

(** ** yaml.rs: scopes of keys *)

(** The last scope of the vector first; the vector is never empty. *)
Abbreviation KeyStack := (list (nat * gset string)).

(** [while len > 1 && last satisfies f { pop }]. *)
Fixpoint pop_while (f : nat -> bool) (stack : KeyStack) : KeyStack :=
  match stack with
  | (i, keys) :: ((_ :: _) as rest) => if f i then pop_while f rest else stack
  | _ => stack
  end.

Definition enter_item (indent : nat) (stack : KeyStack) : KeyStack :=
  (indent + 1, ∅) :: pop_while (fun i => indent <=? i) stack.

Definition enter_key (indent : nat) (stack : KeyStack) : KeyStack :=
  let stack := pop_while (fun i => indent <? i) stack in
  match stack with
  | (i, _) :: _ => if i <? indent then (indent, ∅) :: stack else stack
  | [] => [(indent, ∅)]
  end.

Definition merge_key_error : CanonicalizeError :=
  YamlParseError "reason=merge_key_not_allowed: merge keys (<<) not allowed".

Definition insert_key (key : string) (stack : KeyStack) : CanonicalizeResult KeyStack :=
  match stack with
  | (i, keys) :: rest =>
      if decide (key ∈ keys) then Err (YamlDuplicateKey key) else Ok ((i, {[key]} ∪ keys) :: rest)
  | [] => Ok []
  end.

Definition scan_keys (trimmed : string) (indent : nat) (stack : KeyStack)
    : CanonicalizeResult KeyStack :=
  let is_list_item := starts_with trimmed "-" in
  let key_source := if is_list_item then trim_start (str_drop 1 trimmed) else trimmed in
  let stack := if is_list_item then enter_item indent stack else stack in
  match extract_yaml_key key_source with
  | Some key =>
      if String.eqb key "<<" then Err merge_key_error
      else insert_key key (if is_list_item then stack else enter_key indent stack)
  | None => Ok stack
  end.

Definition scan_line (line_num : nat) (line : string) (stack : KeyStack)
    : Outcome (CanonicalizeResult KeyStack) :=
  let trimmed := str_trim line in
  if str_is_empty trimmed || starts_with trimmed "#" then Done (Ok stack)
  else
    let indent := String.length line - String.length (trim_start line) in
    if String.eqb trimmed "---" || starts_with trimmed "--- " || String.eqb trimmed "..." then
      Done (Err MultiDocumentFound)
    else
      match find_anchor_or_alias_outside_quotes trimmed (line_num + 1) with
      | Some err => Done (Err err)
      | None =>
          match scan_tag trimmed with
          | Panicked => Panicked
          | Done (Some err) => Done (Err err)
          | Done None => Done (scan_keys trimmed indent stack)
          end
      end.

Fixpoint scan_lines (line_num : nat) (lines : list string) (stack : KeyStack)
    : Outcome (CanonicalizeResult ()) :=
  match lines with
  | [] => Done (Ok ())
  | line :: lines =>
      match scan_line line_num line stack with
      | Panicked => Panicked
      | Done (Err e) => Done (Err e)
      | Done (Ok stack) => scan_lines (line_num + 1) lines stack
      end
  end.

Definition pre_scan_yaml (content : string) : Outcome (CanonicalizeResult ()) :=
  scan_lines 0 (str_lines content) [(0, ∅)].

(** ** yaml.rs: from YAML to JSON *)

Definition yaml_number (n : Number) : CanonicalizeResult Value :=
  match n with
  | Float _ => Err (FloatNotAllowed (yaml_number_fmt n))
  | PosInt i | NegInt i =>
      if (MIN_SAFE_INTEGER <=? i)%Z && (i <=? MAX_SAFE_INTEGER)%Z then Ok (Num n)
      else Err (IntegerOutOfRange (i64_wrap i))
  end.

Fixpoint yaml_to_json (yaml : YamlValue) (depth : nat) : CanonicalizeResult Value :=
  if MAX_DEPTH <? depth then Err (MaxDepthExceeded depth)
  else
    match yaml with
    | YNull => Ok Null
    | YBool b => Ok (VBool b)
    | YNum n => yaml_number n
    | YStr s =>
        if (MAX_YAML_STRING_LENGTH <? str_len s)%Z then Err (YamlStringTooLong (str_len s))
        else Ok (Str s)
    | YSeq seq =>
        match (fix items (seq : list YamlValue) : CanonicalizeResult (list Value) :=
                 match seq with
                 | [] => Ok []
                 | item :: seq =>
                     match yaml_to_json item (S depth) with
                     | Err e => Err e
                     | Ok v =>
                         match items seq with
                         | Ok l => Ok (v :: l)
                         | Err e => Err e
                         end
                     end
                 end) seq with
        | Ok l => Ok (Arr l)
        | Err e => Err e
        end
    | YMap map =>
        if (MAX_KEYS_PER_MAPPING <? Z.of_nat (length map))%Z then
          Err (MaxKeysExceeded (Z.of_nat (length map)))
        else
          match (fix entries (map : list (YamlValue * YamlValue)) (seen : gset string)
                     (json_map : Map) : CanonicalizeResult Map :=
                   match map with
                   | [] => Ok json_map
                   | (key, value) :: map =>
                       match key with
                       | YStr key_str =>
                           if String.eqb key_str "<<" then Err merge_key_error
                           else if decide (key_str ∈ seen) then Err (YamlDuplicateKey key_str)
                           else
                             match yaml_to_json value (S depth) with
                             | Err e => Err e
                             | Ok json_value =>
                                 entries map ({[key_str]} ∪ seen)
                                   (map_insert json_map key_str json_value)
                             end
                       | _ => Err (YamlParseError ("non-string key: " +:+ yaml_debug key))
                       end
                   end) map ∅ [] with
          | Ok json_map => Ok (Obj json_map)
          | Err e => Err e
          end
    | YTagged tag => Err (TagFound tag)
    end.

Definition parse_yaml_strict (content : string) : Outcome (CanonicalizeResult Value) :=
  if (MAX_TOTAL_SIZE <? str_len content)%Z then Done (Err (InputTooLarge (str_len content)))
  else
    match pre_scan_yaml content with
    | Panicked => Panicked
    | Done (Err e) => Done (Err e)
    | Done (Ok _) =>
        match yaml_from_str content with
        | Err message => Done (Err (YamlParseError message))
        | Ok yaml_value => Done (yaml_to_json yaml_value 0)
        end
    end.

(** ** json.rs, digest.rs *)

Definition to_canonical_jcs_bytes (value : Value) : CanonicalizeResult string :=
  match jcs_to_string value with
  | Some bytes => Ok bytes
  | None => Err (SerializeError jcs_error)
  end.

Definition sha256_hex_bytes (bytes : string) : string := "sha256:" +:+ sha256_hex bytes.

Definition compute_canonical_digest (content : string) : Outcome (CanonicalizeResult string) :=
  match parse_yaml_strict content with
  | Panicked => Panicked
  | Done (Err e) => Done (Err e)
  | Done (Ok json_value) =>
      match to_canonical_jcs_bytes json_value with
      | Ok jcs_bytes => Done (Ok (sha256_hex_bytes jcs_bytes))
      | Err e => Done (Err e)
      end
  end.

(** [compute_canonical_or_raw_digest]. *)
Definition compute_digest (content : string) : Outcome string :=
  match compute_canonical_digest content with
  | Panicked => Panicked
  | Done (Ok digest) => Done digest
  | Done (Err _) => Done (sha256_hex_bytes content)
  end.

End Yaml.

(** ** Texts *)

Lemma find_sub_first p s x y :
  find_sub s p = Some (x, y) <->
  s = x +:+ y /\ starts_with y p = true
  /\ (forall x' y', s = x' +:+ y' -> starts_with y' p = true -> String.length x <= String.length x')%nat.
Proof.
  revert x y. induction s as [|a s IH]; intros x y; cbn [find_sub].
  - destruct (starts_with EmptyString p) eqn:Ep.
    + split; [intros [= <- <-]|].
      * split_and!; [done..|]. cbn. lia.
      * intros (Hs & _). by destruct x; cbn in Hs; subst.
    + split; [done|]. intros (Hs & Hy & _). destruct x; cbn in Hs; [|done]. subst. congruence.
  - destruct (starts_with (String a s) p) eqn:Ep.
    + split; [intros [= <- <-]|].
      * split_and!; [done..|]. cbn. lia.
      * intros (Hs & _ & Hmin). specialize (Hmin EmptyString _ eq_refl Ep). destruct x; cbn in *; [by subst|lia].
    + destruct (find_sub s p) as [[u v]|] eqn:Ef.
      * destruct (proj1 (IH u v) eq_refl) as (-> & Hv & Hmin). split.
        -- intros [= <- <-]. split_and!; [done..|]. intros [|b x'] y' Hs Hy'; cbn in Hs; [congruence|].
           injection Hs as <- Hs. cbn. specialize (Hmin _ _ Hs Hy'). lia.
        -- intros (Hs & Hy & Hmin'). destruct x as [|b x]; cbn in Hs; [congruence|]. injection Hs as <- Hs.
           assert (Some (u, v) = Some (x, y)) as [= <- <-]; [|done]. apply IH.
           split_and!; [done..|]. intros x' y' Hs' Hy'. rewrite Hs' in *.
           specialize (Hmin' (String a x') y' eq_refl Hy'). cbn in Hmin'. lia.
      * split; [done|]. intros (Hs & Hy & Hmin'). destruct x as [|b x]; cbn in Hs; [congruence|].
        injection Hs as <- Hs. assert (None = Some (x, y)) as ?; [|done]. apply IH. split_and!; [done..|].
        intros x' y' Hs' Hy'. rewrite Hs' in *. specialize (Hmin' (String a x') y' eq_refl Hy'). cbn in Hmin'. lia.
Qed.

(** ** Induction through sequences and mappings *)

Section Yaml_induction.
  Variable P : YamlValue -> Prop.
  Hypothesis HNull : P YNull.
  Hypothesis HBool : forall b, P (YBool b).
  Hypothesis HNum : forall n, P (YNum n).
  Hypothesis HStr : forall s, P (YStr s).
  Hypothesis HSeq : forall l, Forall P l -> P (YSeq l).
  Hypothesis HMap : forall m, Forall (fun e => P (snd e)) m -> P (YMap m).
  Hypothesis HTagged : forall t, P (YTagged t).

Fixpoint YamlValue_rect_nested (y : YamlValue) : P y :=
    match y with
    | YNull => HNull
    | YBool b => HBool b
    | YNum n => HNum n
    | YStr s => HStr s
    | YSeq l =>
        HSeq l ((fix go (l : list YamlValue) : Forall P l :=
                   match l with
                   | [] => Forall_nil_2 _
                   | x :: r => Forall_cons_2 _ _ _ (YamlValue_rect_nested x) (go r)
                   end) l)
    | YMap m =>
        HMap m ((fix go (m : list (YamlValue * YamlValue)) : Forall (fun e => P (snd e)) m :=
                   match m with
                   | [] => Forall_nil_2 _
                   | x :: r => Forall_cons_2 _ _ _ (YamlValue_rect_nested (snd x)) (go r)
                   end) m)
    | YTagged t => HTagged t
    end.
End Yaml_induction.

(** ** Canonical documents

    What a document must be to have a canonical form, and the JSON value that
    is its meaning: at most fifty levels, integers that a double represents, no
    float, no tag, mappings with distinct string keys and no merge key. *)

Inductive Canonical (d : nat) : YamlValue -> Value -> Prop :=
| cy_null : d <= MAX_DEPTH -> Canonical d YNull Null
| cy_bool b : d <= MAX_DEPTH -> Canonical d (YBool b) (VBool b)
| cy_num n i :
    d <= MAX_DEPTH -> n = PosInt i \/ n = NegInt i ->
    (MIN_SAFE_INTEGER <= i <= MAX_SAFE_INTEGER)%Z -> Canonical d (YNum n) (Num n)
| cy_str s :
    d <= MAX_DEPTH -> (str_len s <= MAX_YAML_STRING_LENGTH)%Z -> Canonical d (YStr s) (Str s)
| cy_seq l l' : d <= MAX_DEPTH -> Forall2 (Canonical (S d)) l l' -> Canonical d (YSeq l) (Arr l')
| cy_map m m' :
    d <= MAX_DEPTH -> (Z.of_nat (length m) <= MAX_KEYS_PER_MAPPING)%Z ->
    Forall2 (fun e e' => fst e = YStr (fst e') /\ fst e' <> "<<" /\ Canonical (S d) (snd e) (snd e'))
      m m' ->
    NoDup (map fst m') -> Canonical d (YMap m) (Obj m').

Section YamlCorrect.
Context `{Platform} `{YamlReader}.

Definition json_items (depth : nat) : list YamlValue -> CanonicalizeResult (list Value) :=
  fix items (seq : list YamlValue) : CanonicalizeResult (list Value) :=
    match seq with
    | [] => Ok []
    | item :: seq =>
        match yaml_to_json item (S depth) with
        | Err e => Err e
        | Ok v => match items seq with Ok l => Ok (v :: l) | Err e => Err e end
        end
    end.

Definition json_entries (depth : nat)
    : list (YamlValue * YamlValue) -> gset string -> Map -> CanonicalizeResult Map :=
  fix entries (map : list (YamlValue * YamlValue)) (seen : gset string) (json_map : Map) :=
    match map with
    | [] => Ok json_map
    | (key, value) :: map =>
        match key with
        | YStr key_str =>
            if String.eqb key_str "<<" then Err merge_key_error
            else if decide (key_str ∈ seen) then Err (YamlDuplicateKey key_str)
            else
              match yaml_to_json value (S depth) with
              | Err e => Err e
              | Ok json_value =>
                  entries map ({[key_str]} ∪ seen) (map_insert json_map key_str json_value)
              end
        | _ => Err (YamlParseError ("non-string key: " +:+ yaml_debug key))
        end
    end.

Lemma json_items_spec d l l' :
  Forall (fun y => forall d v, yaml_to_json y d = Ok v <-> Canonical d y v) l ->
  json_items d l = Ok l' <-> Forall2 (Canonical (S d)) l l'.
Proof.
  intros IH. revert l'. induction IH as [|y l Hy _ IHl]; intros l'; simpl.
  { split; [intros [= <-]; constructor | intros Hf; by inversion Hf]. }
  split.
  - destruct (yaml_to_json y (S d)) as [v|] eqn:Ey; [|done].
    destruct (json_items d l) as [vs|] eqn:El; [|done]. intros [= <-].
    constructor; [by apply Hy | by apply IHl].
  - intros Hf. inversion Hf as [|? v ? vs Hv Hvs]; subst.
    apply Hy in Hv as ->. by apply IHl in Hvs as ->.
Qed.

(** The entries still to read, given what has been read. *)
Lemma json_entries_spec d m seen out r :
  Forall (fun e => forall d v, yaml_to_json (snd e) d = Ok v <-> Canonical d (snd e) v) m ->
  (forall k, k ∈ seen <-> k ∈ map fst out) -> NoDup (map fst out) ->
  json_entries d m seen out = Ok r <->
  exists m', r = out ++ m' /\ NoDup (map fst (out ++ m')) /\
    Forall2 (fun e e' => fst e = YStr (fst e') /\ fst e' <> "<<" /\ Canonical (S d) (snd e) (snd e')) m m'.
Proof.
  intros IH. revert seen out. induction IH as [|[key y] m Hy _ IHm]; intros seen out Hseen Hnd; simpl.
  { split.
    - intros [= <-]. exists []. rewrite app_nil_r. by split_and!; [| |constructor].
    - intros (m' & -> & _ & Hf). inversion Hf. by rewrite app_nil_r. }
  assert (Hnone : forall E : CanonicalizeResult Map, (forall x, E <> Ok x) ->
    (forall k, key <> YStr k) \/ (exists k, key = YStr k /\ (k = "<<" \/ k ∈ seen \/
       forall v, ~ Canonical (S d) y v)) ->
    E = Ok r <-> exists m', r = out ++ m' /\ NoDup (map fst (out ++ m')) /\
      Forall2 (fun e e' => fst e = YStr (fst e') /\ fst e' <> "<<" /\ Canonical (S d) (snd e) (snd e'))
        ((key, y) :: m) m').
  { intros E HE Hbad. split; [intros ->; by destruct (HE r)|].
    intros (m' & _ & Hn & Hf). inversion Hf as [|? [k v] ? ? (Hk & Hm & Hc)]; subst. cbn in Hk, Hm, Hc.
    destruct Hbad as [Hb|(k' & Hk' & [->|[Hin|Hno]])]; [by destruct (Hb k)|congruence| |by destruct (Hno v)].
    assert (k' = k) as -> by congruence. rewrite map_app in Hn. apply NoDup_app in Hn as (_ & Hd & _).
    destruct (Hd k); [by apply Hseen|by left]. }
  destruct key as [| | |k| | |]; try (apply Hnone; [done|by left]).
  destruct (String.eqb_spec k "<<") as [->|Hmerge]; [apply Hnone; [done|right; eauto]|].
  destruct (decide (k ∈ seen)) as [Hin|Hin]; [apply Hnone; [done|right; eauto]|].
  destruct (yaml_to_json y (S d)) as [v|e] eqn:Ey.
  2:{ apply Hnone; [done|]. right. exists k. split; [done|]. right; right. intros v Hv.
      apply (proj2 (Hy _ _)) in Hv. cbn in Hv. congruence. }
  apply (proj1 (Hy _ _)) in Ey. cbn in Ey. rewrite map_insert_fresh by by rewrite <- Hseen.
  rewrite IHm.
  2:{ intros k'. rewrite map_app, elem_of_app, <- Hseen. cbn. set_solver. }
  2:{ rewrite map_app. apply NoDup_app. split_and!; [done| |apply NoDup_singleton].
      intros k' Hk' ->%list_elem_of_singleton. by apply Hin, Hseen. }
  split.
  - intros (m' & -> & Hn & Hf). exists ((k, v) :: m'). rewrite <- app_assoc in *. cbn in *.
    split_and!; [done|done|]. by constructor.
  - intros (m' & -> & Hn & Hf). inversion Hf as [|? [k' v'] ? m'' (Hk & Hm & Hc) Hf']; subst. cbn in *.
    injection Hk as <-. exists m''. rewrite <- app_assoc. cbn.
    assert (v' = v) as ->; [|done].
    apply (proj2 (Hy _ _)) in Hc, Ey. congruence.
Qed.

Lemma yaml_number_spec n v :
  yaml_number n = Ok v <->
  v = Num n /\ exists i, (n = PosInt i \/ n = NegInt i) /\ (MIN_SAFE_INTEGER <= i <= MAX_SAFE_INTEGER)%Z.
Proof.
  assert (Hi : forall i (E : n = PosInt i \/ n = NegInt i),
    (if (MIN_SAFE_INTEGER <=? i)%Z && (i <=? MAX_SAFE_INTEGER)%Z then Ok (Num n)
     else Err (IntegerOutOfRange (i64_wrap i))) = Ok v <->
    v = Num n /\ exists i, (n = PosInt i \/ n = NegInt i) /\
      (MIN_SAFE_INTEGER <= i <= MAX_SAFE_INTEGER)%Z).
  { intros i E. destruct (andb _ _) eqn:Eb.
    - apply andb_true_iff in Eb as [?%Z.leb_le ?%Z.leb_le]. split; [intros [= <-]|by intros [-> _]].
      split; [done|]. by exists i.
    - split; [done|]. intros [_ (j & Ej & ? & ?)]. assert (j = i) as -> by naive_solver.
      apply andb_false_iff in Eb as [?%Z.leb_gt|?%Z.leb_gt]; lia. }
  destruct n as [i|i|b]; [apply Hi; by left|apply Hi; by right|].
  split; [done|]. intros [_ (i & [?|?] & _)]; done.
Qed.

Lemma yaml_to_json_canonical y d v : yaml_to_json y d = Ok v <-> Canonical d y v.
Proof.
  revert d v. induction y as [|b|n|s|l IH|m IH|t] using YamlValue_rect_nested; intros d v;
    cbn [yaml_to_json]; destruct (Nat.ltb_spec MAX_DEPTH d) as [Hd|Hd];
    try (split; [done|intros Hc; inversion Hc; lia]).
  - split; [intros [= <-]; by constructor | intros Hc; by inversion Hc].
  - split; [intros [= <-]; by constructor | intros Hc; by inversion Hc].
  - rewrite yaml_number_spec. split.
    + intros (-> & i & Hn & Hi). by apply (cy_num d n i).
    + intros Hc. inversion Hc; subst. split; [done|]. eauto.
  - destruct (Z.ltb_spec MAX_YAML_STRING_LENGTH (str_len s)).
    + split; [done|]. intros Hc. inversion Hc; lia.
    + split; [intros [= <-]; by constructor | intros Hc; by inversion Hc].
  - change (match json_items d l with Ok l => Ok (Arr l) | Err e => Err e end = Ok v <->
            Canonical d (YSeq l) v).
    destruct (json_items d l) as [l'|e] eqn:El.
    + apply (json_items_spec d l l' IH) in El. split; [intros [= <-]; by constructor|].
      intros Hc. inversion Hc as [| | | |? l'' _ Hl|]; subst.
      apply (proj2 (json_items_spec d l _ IH)) in El, Hl. congruence.
    + split; [done|]. intros Hc. inversion Hc as [| | | |? l'' _ Hl|]; subst.
      apply (proj2 (json_items_spec d l _ IH)) in Hl. congruence.
  - destruct (Z.ltb_spec MAX_KEYS_PER_MAPPING (Z.of_nat (length m))).
    { split; [done|]. intros Hc. inversion Hc; lia. }
    change (match json_entries d m ∅ [] with Ok m => Ok (Obj m) | Err e => Err e end = Ok v <->
            Canonical d (YMap m) v).
    pose proof (json_entries_spec d m ∅ []) as Hm. cbn [app map] in Hm.
    assert (Hspec : forall r, json_entries d m ∅ [] = Ok r <->
      NoDup (map fst r) /\ Forall2 (fun e e' => fst e = YStr (fst e') /\ fst e' <> "<<" /\
        Canonical (S d) (snd e) (snd e')) m r).
    { intros r. rewrite Hm; [|done|set_solver|constructor]. split.
      - by intros (m' & -> & ? & ?).
      - intros [? ?]. by exists r. }
    destruct (json_entries d m ∅ []) as [r|e] eqn:Er.
    + pose proof (proj1 (Hspec r) eq_refl) as [Hn Hf]. split; [intros [= <-]; by constructor|].
      intros Hc. inversion Hc as [| | | | |? m' _ _ Hf' Hn']; subst. f_equal.
      assert (E : Ok r = Ok m') by by apply Hspec. by injection E as ->.
    + split; [done|]. intros Hc. inversion Hc as [| | | | |? m' _ _ Hf' Hn']; subst.
      assert (E : @Err Map CanonicalizeError e = Ok m') by by apply Hspec. done.
Qed.

Lemma canonical_wf d y v : Canonical d y v -> wf_value v.
Proof.
  revert d v. induction y as [|b|n|s|l IH|m IH|t] using YamlValue_rect_nested; intros d v Hc;
    inversion Hc as [| | | |? l' _ Hl|? m' _ _ Hm Hn]; subst; try constructor; try done.
  - clear Hc. revert IH. induction Hl as [|y w l l' Hy _ IHl]; intros IH; [constructor|].
    apply Forall_cons in IH as [Hx IH]. constructor; [by eapply Hx | by apply IHl].
  - clear Hc Hn. revert IH. induction Hm as [|e e' m m' (_ & _ & Hy) _ IHm]; intros IH; [constructor|].
    apply Forall_cons in IH as [Hx IH]. constructor; [by eapply Hx | by apply IHm].
Qed.

(** ** Properties *)

(** The digest of a pack does not depend on how its YAML is written: two
    texts whose canonical values are equal (in any order of keys) have the
    same digest. *)
Theorem digest_format_free `{!CanonLaws} c1 c2 v1 v2 :
  parse_yaml_strict c1 = Done (Ok v1) -> parse_yaml_strict c2 = Done (Ok v2) ->
  value_eqb v1 v2 = true -> compute_digest c1 = compute_digest c2.
Proof.
  intros Hp1 Hp2 He.
  assert (Hwf : forall c v, parse_yaml_strict c = Done (Ok v) -> wf_value v).
  { intros c v Hp. unfold parse_yaml_strict in Hp. repeat case_match; simplify_eq.
    match goal with E : yaml_to_json _ _ = Ok _ |- _ => apply yaml_to_json_canonical in E end.
    by eapply canonical_wf. }
  unfold compute_digest, compute_canonical_digest, to_canonical_jcs_bytes. rewrite Hp1, Hp2.
  rewrite (canon_respects v1 v2 (Hwf _ _ Hp1) (Hwf _ _ Hp2) He).
  destruct (canon_total v2) as [t ->]. done.
Qed.

(** The text of a tag without an end is cut at a byte, which panics inside a
    multi-byte character: such a pack cannot even be refused. *)
Definition panicking_pack : string :=
  "k: !!a" +:+ str_concat (replicate 12 (of_bytes [195; 169]%N)).

Lemma tag_error_panics : pre_scan_yaml panicking_pack = Panicked /\ compute_digest panicking_pack = Panicked.
Proof.
  assert (E : pre_scan_yaml panicking_pack = Panicked) by (vm_compute; reflexivity).
  split; [done|]. unfold compute_digest, compute_canonical_digest, parse_yaml_strict. by rewrite E.
Qed.

End YamlCorrect.
