(* ===== verification/PackYamlCorrect.v ===== *)
(** * What strict YAML accepts

    The scan of a pack's lines, stated without its loops: which lines are
    forbidden (document markers, references, tags) and which keys clash
    ([pre_scan_iff]); and with it the packs that have a canonical value
    ([parse_yaml_strict_iff]). *)
From stdpp Require Import base tactics list strings gmap.
From Stdlib Require Import Ascii ZArith Lia.
From S2P Require Import Prelude RustStr Json Platform PackRef PackYaml.

(** ** Quotes *)

(** In a quoted text or outside, one character further: a quote opens, the same
    quote closes. *)
Definition quote_step (st : option string) (c : string) : option string :=
  match st with
  | None => if decide (c = char_str dquote \/ c = char_str squote) then Some c else None
  | Some q => if decide (c = q) then None else Some q
  end.

(** How many quotes have no backslash before them. *)
Fixpoint unescaped (q prev : ascii) (s : string) : nat :=
  match s with
  | EmptyString => 0
  | String a r => (if decide (a = q /\ prev <> backslash) then 1 else 0) + unescaped q a r
  end.

(** The first occurrence of [p] follows an odd number of quotes of a kind. *)
Definition QuotedAt (t p : string) : Prop :=
  exists before rest, t = before +:+ p +:+ rest
    /\ (forall b r, t = b +:+ p +:+ r -> String.length before <= String.length b)
    /\ (Nat.Odd (unescaped dquote " "%char before) \/ Nat.Odd (unescaped squote " "%char before)).

(** ** Forbidden lines *)

Definition Significant (line : string) : Prop :=
  str_trim line <> EmptyString /\ forall r, str_trim line <> "#" +:+ r.

Definition Marker (t : string) : Prop := t = "---" \/ t = "..." \/ exists r, t = "--- " +:+ r.

Definition Tag (t : string) : Prop :=
  (exists b r, t = b +:+ "!!" +:+ r \/ t = b +:+ "!<" +:+ r) /\ ~ QuotedAt t "!!" /\ ~ QuotedAt t "!<".

(** ** Keys *)

(** The depth of brackets, which does not go below zero. *)
Definition bracket_step (d : nat) (c : string) : nat :=
  if decide (c = "[" \/ c = "{") then S d
  else if decide (c = "]" \/ c = "}") then d - 1 else d.

(** The body of a double-quoted text: a backslash takes the next character with it. *)
Inductive Quotable : list string -> Prop :=
| quotable_nil : Quotable []
| quotable_escape e l : Quotable l -> Quotable (char_str backslash :: e :: l)
| quotable_char c l : c <> char_str backslash -> c <> char_str dquote -> Quotable l -> Quotable (c :: l).

(** The key of a line of a block mapping: plain up to the first colon outside
    brackets and without a space, or quoted. *)
Inductive KeyOf (t : string) : string -> Prop :=
| key_plain pre post :
    starts_with t "-" = false -> starts_with t (char_str dquote) = false -> starts_with t (char_str squote) = false ->
    chars t = pre ++ ":" :: post -> foldl bracket_step 0 pre = 0 ->
    (forall p q, pre = p ++ ":" :: q -> foldl bracket_step 0 p <> 0) ->
    str_trim (str_concat pre) <> EmptyString -> contains_char (str_trim (str_concat pre)) " "%char = false ->
    KeyOf t (str_trim (str_concat pre))
| key_double body post r :
    starts_with t (char_str dquote) = true -> chars (str_drop 1 t) = body ++ char_str dquote :: post ->
    Quotable body -> trim_start (str_concat post) = ":" +:+ r -> KeyOf t (str_concat body)
| key_single key post r :
    t = String squote (key +:+ String squote post) -> (forall u v, key <> u +:+ String squote v) ->
    trim_start post = ":" +:+ r -> KeyOf t key.

(** What a line is for the blocks around it: its indentation, whether it is an
    item of a sequence, and its key. *)
Record Entry : Type := mkEntry { en_indent : nat; en_item : bool; en_key : option string }.

Definition key_source (t : string) : string :=
  if starts_with t "-" then trim_start (str_drop 1 t) else t.

Definition EntryOf (line : string) (e : Entry) : Prop :=
  en_indent e = String.length line - String.length (trim_start line) /\
  en_item e = starts_with (str_trim line) "-" /\
  forall k, en_key e = Some k <-> KeyOf (str_trim (key_source (str_trim line))) k.

(** A key of an item is one deeper than the item. *)
Definition level (e : Entry) : nat := if en_item e then S (en_indent e) else en_indent e.

(** The line ends the block at level [l]: an item those at its indentation and
    deeper, a key the deeper ones; nothing ends the outermost. *)
Definition closes (e : Entry) (l : nat) : bool :=
  (1 <=? l) && if en_item e then en_indent e <=? l else opt_is_some (en_key e) && (en_indent e <? l).

(** Between two lines with the same key at the same level, up to the second, some
    line ends their block. *)
Definition DistinctKeys (es : list Entry) : Prop :=
  forall before a between b after k, es = before ++ a :: between ++ b :: after ->
    en_key a = Some k -> en_key b = Some k -> level a = level b ->
    existsb (fun e => closes e (level a)) (between ++ [b]) = true.

Section Scan.
Context `{YamlReader}.

(** Outside quotes, an ampersand or an asterisk before a name. *)
Definition Reference (t : string) : Prop :=
  exists pre c next post, chars t = pre ++ c :: next :: post /\ (c = "&" \/ c = "*") /\
    (char_is_alphanumeric next = true \/ next = "_") /\ foldl quote_step None pre = None.

(** A line that the scan lets pass. *)
Definition Allowed (line : string) (e : Entry) : Prop :=
  ~ Marker (str_trim line) /\ ~ Reference (str_trim line) /\ ~ Tag (str_trim line) /\ en_key e <> Some "<<".

(** The lines that are not blank and no comment, as entries. *)
Inductive Entries : list string -> list Entry -> Prop :=
| entries_nil : Entries [] []
| entries_skip line lines es : ~ Significant line -> Entries lines es -> Entries (line :: lines) es
| entries_line line lines e es :
    Significant line -> EntryOf line e -> Allowed line e -> Entries lines es -> Entries (line :: lines) (e :: es).

Definition ScanAccepts (content : string) : Prop := exists es, Entries (str_lines content) es /\ DistinctKeys es.

End Scan.

(** ** References *)

Lemma quote_cases (st : option string) :
  st = None \/ st = Some (char_str squote) \/ st = Some (char_str dquote) ->
  forall c, quote_step st c = None \/ quote_step st c = Some (char_str squote) \/ quote_step st c = Some (char_str dquote).
Proof. intros [->|[->| ->]] c; cbn; case_decide as Hc; try tauto. destruct Hc as [->| ->]; tauto. Qed.

Section References.
Context `{YamlReader}.

Definition is_reference (c next : string) : Prop :=
  (c = "&" \/ c = "*") /\ (char_is_alphanumeric next = true \/ next = "_").

Definition RefFrom (st : option string) (l : list string) : Prop :=
  exists pre c next post, l = pre ++ c :: next :: post /\ is_reference c next /\ foldl quote_step st pre = None.

Lemma ref_from_cons st c l :
  RefFrom st (c :: l) <->
  (st = None /\ exists next post, l = next :: post /\ is_reference c next) \/ RefFrom (quote_step st c) l.
Proof.
  split.
  - intros ([|x pre] & c' & next & post & Hl & Hr & Hq); cbn in Hl; injection Hl as -> ->.
    + left. split; [done|]. eauto.
    + right. exists pre, c', next, post. done.
  - intros [[-> (next & post & -> & Hr)]|(pre & c' & next & post & -> & Hr & Hq)].
    + by exists [], c, next, post.
    + by exists (c :: pre), c', next, post.
Qed.

Lemma not_reference c next : (c = "&" \/ c = "*") -> char_is_alphanumeric next || String.eqb next "_" = false -> ~ is_reference c next.
Proof. intros _ [Ha Hn%String.eqb_neq]%orb_false_iff [_ [?|?]]; congruence. Qed.

Lemma anchor_scan_none st n l :
  st = None \/ st = Some (char_str squote) \/ st = Some (char_str dquote) ->
  anchor_scan (bool_decide (st = Some (char_str squote))) (bool_decide (st = Some (char_str dquote))) n l = None <->
  ~ RefFrom st l.
Proof.
  revert st. induction l as [|c l IH]; intros st Hst; cbn [anchor_scan].
  { split; [|done]. intros _ (pre & ? & ? & ? & Hl & _). by destruct pre. }
  rewrite ref_from_cons. specialize (IH (quote_step st c) (quote_cases st Hst c)).
  destruct (String.eqb_spec c (char_str squote)) as [->|Hs].
  { assert (forall P, ~ ((st = None /\ exists next post, l = next :: post /\ is_reference (char_str squote) next) \/ P) <-> ~ P) as ->.
    { intros P. split; [tauto|]. intros Hp [(_ & ? & ? & _ & [[?|?] _])|]; done. }
    rewrite <- IH. destruct Hst as [->|[->| ->]]; done. }
  destruct (String.eqb_spec c (char_str dquote)) as [->|Hd].
  { assert (forall P, ~ ((st = None /\ exists next post, l = next :: post /\ is_reference (char_str dquote) next) \/ P) <-> ~ P) as ->.
    { intros P. split; [tauto|]. intros Hp [(_ & ? & ? & _ & [[?|?] _])|]; done. }
    rewrite <- IH. destruct Hst as [->|[->| ->]]; done. }
  assert (quote_step st c = st) as Hstep.
  { destruct Hst as [->|[->| ->]]; cbn; rewrite decide_False; tauto. }
  rewrite Hstep in *. cbn [andb].
  destruct ((String.eqb c "&" || String.eqb c "*") && _ && _) eqn:Eb.
  - apply andb_true_iff in Eb as [[Hc Hns]%andb_true_iff Hnd].
    rewrite orb_true_iff, !String.eqb_eq in Hc. rewrite negb_true_iff, bool_decide_eq_false in Hns, Hnd.
    assert (st = None) as -> by tauto.
    destruct l as [|next l]; [split; [|done]; intros _ [(_ & ? & ? & ? & _)|(pre & ? & ? & ? & Hl & _)]; [done|by destruct pre]|].
    destruct (char_is_alphanumeric next || String.eqb next "_") eqn:Ea.
    + split; [by destruct (String.eqb c "&")|]. intros Hn. destruct Hn. left. split; [done|]. exists next, l. split; [done|].
      split; [done|]. by rewrite orb_true_iff, String.eqb_eq in Ea.
    + rewrite IH. pose proof (not_reference c next Hc Ea). split; [|tauto]. intros Hn [(_ & ? & ? & [= <- <-] & ?)|]; tauto.
  - rewrite IH. split; [|tauto]. intros Hn [(-> & next & post & -> & [Hc _])|]; [|tauto].
    cbn in Eb. rewrite !andb_true_r in Eb. destruct Hc as [->| ->]; done.
Qed.

Lemma find_anchor_none t n : find_anchor_or_alias_outside_quotes t n = None <-> ~ Reference t.
Proof.
  unfold find_anchor_or_alias_outside_quotes. pose proof (anchor_scan_none None n (chars t) ltac:(tauto)) as Ha. cbn in Ha.
  rewrite Ha. unfold RefFrom, Reference, is_reference. split; intros Hn (pre & c & next & post & Hr); apply Hn;
    exists pre, c, next, post; tauto.
Qed.

End References.

(** ** Tags *)

Lemma count_unescaped q prev s :
  q <> backslash ->
  count_matches s (char_str q) =
  unescaped q prev s + count_matches s (String backslash (char_str q))
    + (if decide (prev = backslash /\ starts_with s (char_str q) = true) then 1 else 0).
Proof.
  intros Hq. revert prev. induction s as [|a s IH]; intros prev; cbn [count_matches unescaped].
  { rewrite decide_False; [done|]. by intros [_ ?]. }
  rewrite (IH a). unfold char_str. cbn [starts_with]. rewrite !andb_true_r.
  destruct (Ascii.eqb_spec q a) as [<-|Hqa].
  - destruct (Ascii.eqb_spec backslash q); [congruence|]. cbn [andb].
    rewrite (decide_False (P := q = backslash /\ _)) by tauto.
    destruct (decide (prev = backslash)) as [->|Hp]; repeat case_decide; try tauto; lia.
  - rewrite (decide_False (P := a = q /\ _)) by (intros [? _]; congruence).
    rewrite (decide_False (P := prev = backslash /\ _)) by (intros [_ ?]; done).
    destruct (Ascii.eqb_spec backslash a) as [<-|Hb]; cbn [andb].
    + destruct (match s with EmptyString => false | String b _ => (q =? b)%char && true end);
        [rewrite decide_True by done|rewrite decide_False by (by intros [_ ?])]; lia.
    + rewrite decide_False by (intros [? _]; congruence). lia.
Qed.

Lemma odd_mod n : Nat.eqb (n mod 2) 1 = true <-> Nat.Odd n.
Proof.
  rewrite Nat.eqb_eq. split.
  - intros Hm. exists (n / 2). pose proof (Nat.div_mod_eq n 2). lia.
  - intros [m ->]. rewrite Nat.add_comm, Nat.mul_comm, Nat.Div0.mod_add. done.
Qed.

Lemma inside_quotes t p : is_inside_quotes t p = true <-> QuotedAt t p.
Proof.
  unfold is_inside_quotes.
  assert (Hu : forall b q, q <> backslash ->
    count_matches b (char_str q) - count_matches b (String backslash (char_str q)) = unescaped q " "%char b).
  { intros b q Hq. rewrite (count_unescaped q " "%char b Hq), decide_False by (by intros [? _]). lia. }
  destruct (find_sub t p) as [[before rest]|] eqn:Ef.
  - apply find_sub_first in Ef as (-> & [r ->]%starts_with_spec & Hmin).
    rewrite !Hu, orb_true_iff, !odd_mod by done. split.
    + intros Ho. exists before, r. split_and!; [done| |done]. intros b r' Hs. apply (Hmin b (p +:+ r') Hs), starts_with_spec. by exists r'.
    + intros (b & r' & Hs & Hmin' & Ho).
      assert (b = before) as ->; [|done].
      assert (String.length b = String.length before) as Hlen.
      { apply Nat.le_antisymm; [by apply (Hmin' before r)|]. apply (Hmin b (p +:+ r') Hs), starts_with_spec. by exists r'. }
      rewrite <- (str_take_app b (p +:+ r')), <- Hs, Hlen. apply str_take_app.
  - split; [done|]. intros (b & r & -> & Hmin & _).
    assert (find_sub (b +:+ p +:+ r) p = Some (b, p +:+ r)) as Hs; [|congruence].
    apply find_sub_first. split_and!; [done|apply starts_with_spec; by exists r|].
    intros x' y' Hs [r' ->]%starts_with_spec. by apply (Hmin x' r').
Qed.

Lemma find_sub_contains t p : str_contains t p = true -> exists x y, find_sub t p = Some (x, y).
Proof.
  induction t as [|a t IH]; cbn [str_contains find_sub].
  - rewrite orb_false_r. intros ->. eauto.
  - destruct (starts_with (String a t) p) eqn:Es; [eauto|]. cbn [orb]. intros (x & y & ->)%IH. eauto.
Qed.

Lemma scan_tag_none t : scan_tag t = Done None <-> ~ Tag t.
Proof.
  unfold scan_tag, Tag. rewrite <- !inside_quotes.
  assert (Hc : str_contains t "!!" || str_contains t "!<" = true <-> exists b r, t = b +:+ "!!" +:+ r \/ t = b +:+ "!<" +:+ r).
  { rewrite orb_true_iff, !str_contains_spec. naive_solver. }
  rewrite <- Hc. destruct (str_contains t "!!" || str_contains t "!<") eqn:Eb; cbn [andb]; [|by split; [intros _ [? _]|]].
  destruct (is_inside_quotes t "!!"); cbn [negb andb]; [by split; [intros _ (_ & ? & _)|]|].
  destruct (is_inside_quotes t "!<"); cbn [negb andb]; [by split; [intros _ (_ & _ & ?)|]|].
  split; [|intros Hn; by destruct Hn].
  destruct (option_or _ _) as [[x rest]|] eqn:Eo; [by destruct (tag_text rest)|].
  apply orb_true_iff in Eb as [(x & y & Hx)%find_sub_contains|(x & y & Hx)%find_sub_contains]; rewrite Hx in Eo; [done|].
  by destruct (find_sub t "!!").
Qed.

(** ** Keys *)

Lemma unquoted_key_some l d b :
  unquoted_key d l = Some b <->
  exists pre post, l = pre ++ ":" :: post /\ b = str_concat pre /\ foldl bracket_step d pre = 0 /\
    (forall p q, pre = p ++ ":" :: q -> foldl bracket_step d p <> 0).
Proof.
  revert d b. induction l as [|c l IH]; intros d b; cbn [unquoted_key].
  { split; [done|]. by intros ([|] & ? & ? & _). }
  assert (Hnext : forall d', d' = bracket_step d c -> (c = ":" -> d <> 0) ->
    match unquoted_key d' l with Some k => Some (c +:+ k) | None => None end = Some b <->
    exists pre post, c :: l = pre ++ ":" :: post /\ b = str_concat pre /\ foldl bracket_step d pre = 0 /\
      (forall p q, pre = p ++ ":" :: q -> foldl bracket_step d p <> 0)).
  { intros d' -> Hcolon. split.
    - destruct (unquoted_key _ l) as [k|] eqn:Ek; [|done]. intros [= <-].
      apply IH in Ek as (pre & post & -> & -> & Hf & Hm). exists (c :: pre), post. split_and!; [done..|].
      intros [|x p] q Hp; cbn in Hp; injection Hp as -> Hp; [by apply Hcolon|]. by apply (Hm p q).
    - intros ([|x pre] & post & Hl & -> & Hf & Hm); cbn in Hl; injection Hl as -> Hl.
      + by destruct Hcolon.
      + rewrite (proj2 (IH _ (str_concat pre))); [done|].
        exists pre, post. split_and!; [done..|]. intros p q ->. by apply (Hm (x :: p) q). }
  destruct (String.eqb c "[" || String.eqb c "{") eqn:E1.
  { rewrite orb_true_iff, !String.eqb_eq in E1. apply Hnext; [|intros ->; by destruct E1].
    unfold bracket_step. by rewrite decide_True. }
  destruct (String.eqb c "]" || String.eqb c "}") eqn:E2.
  { rewrite orb_true_iff, !String.eqb_eq in E2. apply orb_false_iff in E1 as [?%String.eqb_neq ?%String.eqb_neq].
    apply Hnext; [|intros ->; by destruct E2]. unfold bracket_step. rewrite decide_False, decide_True by tauto. done. }
  apply orb_false_iff in E1 as [?%String.eqb_neq ?%String.eqb_neq].
  apply orb_false_iff in E2 as [?%String.eqb_neq ?%String.eqb_neq].
  assert (bracket_step d c = d) as Hb by (unfold bracket_step; rewrite !decide_False by tauto; done).
  destruct (String.eqb_spec c ":") as [->|Hc]; [destruct (Nat.eqb_spec d 0) as [->|Hd]|]; cbn [andb].
  - split.
    + intros [= <-]. exists [], l. split_and!; [done..|]. by intros [].
    + intros ([|x pre] & post & Hl & -> & _ & Hm); [done|]. cbn in Hl. injection Hl as <- _. by destruct (Hm [] pre).
  - apply Hnext; [by rewrite Hb|done].
  - apply Hnext; [by rewrite Hb|done].
Qed.

Lemma closing_quote_some l k after :
  find_closing_double_quote l = Some (k, after) <->
  exists body post, l = body ++ char_str dquote :: post /\ Quotable body /\ k = str_concat body /\ after = str_concat post.
Proof.
  split.
  - revert k after. induction l as [l IH] using (induction_ltof1 _ length). intros k after.
    destruct l as [|c l]; cbn [find_closing_double_quote]; [done|].
    destruct (String.eqb_spec c (char_str backslash)) as [->|Hb].
    + destruct l as [|e l]; [done|]. destruct (find_closing_double_quote l) as [[x y]|] eqn:Ef; [|done].
      intros [= <- <-]. apply IH in Ef as (body & post & -> & Hq & -> & ->); [|unfold ltof; cbn; lia].
      exists (char_str backslash :: e :: body), post. split_and!; [done|by constructor| |done].
      unfold str_concat. cbn [foldr]. done.
    + destruct (String.eqb_spec c (char_str dquote)) as [->|Hd].
      * intros [= <- <-]. exists [], l. by split_and!; try constructor.
      * destruct (find_closing_double_quote l) as [[x y]|] eqn:Ef; [|done]. intros [= <- <-].
        apply IH in Ef as (body & post & -> & Hq & -> & ->); [|unfold ltof; cbn; lia].
        exists (c :: body), post. by split_and!; try constructor.
  - intros (body & post & -> & Hq & -> & ->). induction Hq as [|e body _ IH|c body Hb Hd _ IH]; cbn [app find_closing_double_quote].
    + done.
    + rewrite String.eqb_refl, IH. done.
    + rewrite (proj2 (String.eqb_neq _ _) Hb), (proj2 (String.eqb_neq _ _) Hd), IH. done.
Qed.

Lemma colon_follows_true s : colon_follows s = true <-> exists r, trim_start s = ":" +:+ r.
Proof. apply starts_with_spec. Qed.

Lemma block_indicator_no_key t :
  String.eqb t "|" || String.eqb t ">" || String.eqb t "|-" || String.eqb t ">-" = true -> forall k, ~ KeyOf t k.
Proof.
  rewrite !orb_true_iff, !String.eqb_eq. intros Ht k Hk.
  assert (forall pre post, chars t = pre ++ ":" :: post -> False) as Hno.
  { intros pre post Hc. assert (":" ∈ chars t) as Hin by (rewrite Hc, elem_of_app; right; by left).
    destruct Ht as [[[->| ->]| ->]| ->]; apply list_elem_of_In in Hin; vm_compute in Hin; intuition discriminate. }
  destruct Hk as [pre post _ _ _ Hc _|body post r Hs|key post r Hs]; [by apply (Hno pre post)| |].
  - destruct Ht as [[[->| ->]| ->]| ->]; done.
  - destruct Ht as [[[->| ->]| ->]| ->]; done.
Qed.

Lemma starts_quote_not_dash t q : starts_with t (char_str q) = true -> q <> "-"%char -> starts_with t "-" = false.
Proof.
  intros [r ->]%starts_with_spec Hq. destruct (starts_with _ "-") eqn:E; [|done].
  apply starts_with_spec in E as [u Hu]. cbn in Hu. injection Hu as Hu _. congruence.
Qed.

Lemma extract_key_iff line k : extract_yaml_key line = Some k <-> KeyOf (str_trim line) k.
Proof.
  unfold extract_yaml_key. set (t := str_trim line).
  destruct (starts_with t "-") eqn:Edash.
  { split; [done|]. intros [pre post Hd|body post r Hs|key post r Hs]; [congruence| |].
    - apply starts_quote_not_dash in Hs; [congruence|done].
    - rewrite Hs in Edash. done. }
  destruct (_ || _) eqn:Eind; [split; [done|]; intros Hk; by apply block_indicator_no_key in Hk|].
  destruct (starts_with t (char_str dquote)) eqn:Edq.
  - split.
    + destruct (find_closing_double_quote _) as [[key after]|] eqn:Ef; [|done].
      destruct (colon_follows after) eqn:Ec; [|done]. intros [= <-].
      apply closing_quote_some in Ef as (body & post & Hb & Hq & -> & ->). apply colon_follows_true in Ec as [r Hr].
      by eapply key_double.
    + intros [pre post _ Hd|body post r _ Hb Hq Hr|key post r Hs]; [congruence| |].
      * rewrite (proj2 (closing_quote_some _ (str_concat body) (str_concat post))) by eauto 10.
        rewrite (proj2 (colon_follows_true _)) by eauto. done.
      * rewrite Hs in Edq. done.
  - destruct (starts_with t (char_str squote)) eqn:Esq.
    + apply starts_with_spec in Esq as Hsq. destruct Hsq as [u Hu]. cbn in Hu. rewrite Hu. cbn [str_drop].
      split.
      * destruct (split_once squote u) as [[key after]|] eqn:Ef; [|done].
        destruct (colon_follows after) eqn:Ec; [|done]. intros [= <-].
        apply split_once_first in Ef as [-> Hn]. apply colon_follows_true in Ec as [r Hr]. by eapply key_single.
      * rewrite <- Hu. intros [pre post _ _ Hd|body post r Hs|key post r Hs Hn Hr]; [congruence..|].
        rewrite Hu in Hs. injection Hs as ->. rewrite (proj2 (split_once_first _ _ key post)) by done.
        rewrite (proj2 (colon_follows_true _)) by eauto. done.
    + split.
      * destruct (unquoted_key 0 (chars t)) as [before|] eqn:Ef; [|done].
        apply unquoted_key_some in Ef as (pre & post & Hc & -> & Hf & Hm).
        destruct (negb _ && negb _) eqn:Eb; [|done]. intros [= <-].
        apply andb_true_iff in Eb as [He%negb_true_iff Hs%negb_true_iff]. apply str_is_empty_false in He.
        by eapply key_plain.
      * intros [pre post _ _ _ Hc Hf Hm He Hs|body post r Hs|key post r Hs].
        -- rewrite (proj2 (unquoted_key_some _ _ (str_concat pre))) by eauto 10. apply str_is_empty_false in He.
           by rewrite He, Hs.
        -- congruence.
        -- rewrite Hs in Esq. done.
Qed.

Definition entry_of (line : string) : Entry :=
  mkEntry (String.length line - String.length (trim_start line)) (starts_with (str_trim line) "-")
    (extract_yaml_key (key_source (str_trim line))).

Lemma entry_of_spec line e : EntryOf line e <-> e = entry_of line.
Proof.
  unfold EntryOf, entry_of. split.
  - intros (Hi & Hit & Hk). destruct e as [i it ok]. cbn in *. subst. f_equal.
    destruct (extract_yaml_key _) as [k|] eqn:Ek; [by apply Hk, extract_key_iff|].
    destruct ok as [k|]; [|done]. assert (Some k = Some k) as Hkk by done. apply Hk, extract_key_iff in Hkk. congruence.
  - intros ->. cbn. split_and!; [done..|]. intros k. apply extract_key_iff.
Qed.

(** ** Blocks

    The stack of scopes that the scan keeps holds, for each level whose block is
    still open, the keys seen in it. *)

(** A key that a line would clash with at this level: no later line ended the
    block. *)
Definition Live (es : list Entry) (l : nat) (k : string) : Prop :=
  exists before a after, es = before ++ a :: after /\ en_key a = Some k /\ level a = l /\
    existsb (fun e => closes e l) after = false.

Definition Conflict (es : list Entry) (e : Entry) : Prop :=
  exists k, en_key e = Some k /\ Live es (level e) k /\ closes e (level e) = false.

Lemma snoc_split {A} (l : list A) x before a after :
  l ++ [x] = before ++ a :: after ->
  (after = [] /\ before = l /\ a = x) \/ exists after', after = after' ++ [x] /\ l = before ++ a :: after'.
Proof.
  destruct after as [|y after _] using rev_ind.
  - intros [-> [= ->]]%app_inj_tail. by left.
  - change (before ++ a :: after ++ [y]) with (before ++ (a :: after) ++ [y]). rewrite app_assoc.
    intros [-> ->]%app_inj_tail. right. by exists after.
Qed.

Lemma live_snoc es e l k :
  Live (es ++ [e]) l k <-> (en_key e = Some k /\ level e = l) \/ (Live es l k /\ closes e l = false).
Proof.
  split.
  - intros (before & a & after & [(-> & -> & ->)|(after' & -> & ->)]%snoc_split & Hk & Hl & Hc); [by left|right].
    rewrite existsb_app, orb_false_iff in Hc. cbn in Hc. rewrite orb_false_r in Hc. destruct Hc as [Hc1 Hc2].
    split; [|done]. by exists before, a, after'.
  - intros [[Hk Hl]|[(before & a & after & -> & Hk & Hl & Hc) He]].
    + by exists es, e, [].
    + exists before, a, (after ++ [e]). split_and!; [by rewrite <- app_assoc|done..|].
      rewrite existsb_app, Hc. cbn. by rewrite He.
Qed.

Lemma distinct_snoc es e : DistinctKeys (es ++ [e]) <-> DistinctKeys es /\ ~ Conflict es e.
Proof.
  split.
  - intros Hd. split.
    + intros before a between b after k -> Ha Hb Hl. apply (Hd before a between b (after ++ [e]) k); [|done..].
      by rewrite <- app_assoc, app_comm_cons, <- app_assoc.
    + intros (k & Hk & (before & a & after & -> & Ha & Hl & Hc) & He).
      pose proof (Hd before a after e [] k) as Hx. rewrite existsb_app, Hl, Hc in Hx. cbn in Hx. rewrite He in Hx.
      apply Bool.diff_false_true, Hx; [by rewrite <- app_assoc|done..].
  - intros [Hd Hn] before a between b after k Hes Ha Hb Hl.
    change (before ++ a :: between ++ b :: after) with (before ++ (a :: between) ++ b :: after) in Hes.
    rewrite app_assoc in Hes. apply snoc_split in Hes as [(-> & Hes & ->)|(after' & -> & Hes)].
    + destruct (existsb _ (between ++ [e])) eqn:Ex; [done|]. destruct Hn. exists k. split; [done|].
      rewrite existsb_app, orb_false_iff in Ex. cbn in Ex. rewrite orb_false_r in Ex. destruct Ex as [Ex1 Ex2].
      rewrite <- Hl. split; [|done]. by exists before, a, between.
    + apply (Hd before a between b after' k); [|done..]. by rewrite Hes, <- app_assoc.
Qed.

Lemma distinct_prefix es es' : DistinctKeys (es ++ es') -> DistinctKeys es.
Proof.
  induction es' as [|e es' IH] using rev_ind; [by rewrite app_nil_r|].
  rewrite app_assoc. intros [Hd _]%distinct_snoc. by apply IH.
Qed.

Abbreviation KeyStack := (list (nat * gset string)).

(** Levels decrease from the last scope to the first, which has level 0. *)
Fixpoint Stacked (st : KeyStack) : Prop :=
  match st with
  | [] => False
  | [(l, _)] => l = 0
  | (l, _) :: (((l', _) :: _) as st) => l' < l /\ Stacked st
  end.

Lemma stacked_below st l ks : Stacked ((l, ks) :: st) -> forall l' ks', (l', ks') ∈ st -> l' < l.
Proof.
  revert l ks. induction st as [|[l1 k1] st IH]; intros l ks Hs l' ks'; [by rewrite elem_of_nil|].
  destruct Hs as [Hlt Hs]. intros [[= <- <-]|Hin]%elem_of_cons; [done|]. specialize (IH _ _ Hs _ _ Hin). lia.
Qed.

Lemma pop_while_spec f st :
  (forall l l', l' < l -> f l' = true -> f l = true) -> Stacked st ->
  Stacked (pop_while f st) /\
  forall l ks, (l, ks) ∈ pop_while f st <-> (l, ks) ∈ st /\ (l = 0 \/ f l = false).
Proof.
  intros Hf. induction st as [|[l1 k1] [|[l2 k2] st] IH]; intros Hs; cbn [pop_while].
  - done.
  - cbn in Hs. subst l1. split; [done|]. intros l ks. rewrite list_elem_of_singleton.
    split; [intros [= -> ->]; auto|by intros [-> _]].
  - destruct Hs as [Hlt Hs]. specialize (IH Hs). destruct IH as [IHs IHe]. destruct (f l1) eqn:E1.
    + split; [done|]. intros l ks. rewrite IHe, (elem_of_cons ((l2, k2) :: st)). split.
      * intros [Hin Hc]. auto.
      * intros [[[= -> ->]|Hin] Hc]; [|done]. destruct Hc; [lia|congruence].
    + split; [done|]. intros l ks. split; [|by intros [? _]]. intros Hin. split; [done|].
      apply elem_of_cons in Hin as [[= -> ->]|Hin]; [by right|]. right.
      assert (l < l1) by (by eapply (stacked_below ((l2, k2) :: st) l1 k1)).
      destruct (f l) eqn:El; [|done]. by rewrite (Hf l1 l) in E1.
Qed.

(** What the stack says of the lines read. *)
Record Tracks (st : KeyStack) (es : list Entry) : Prop := {
  tr_stacked : Stacked st;
  tr_keys l ks k : (l, ks) ∈ st -> k ∈ ks <-> Live es l k;
  tr_open l k : Live es l k -> exists ks, (l, ks) ∈ st
}.

Lemma tracks_start : Tracks [(0, ∅)] [].
Proof.
  assert (forall l k, ~ Live [] l k) as Hn by (by intros l k ([|] & ? & ? & ? & _)).
  split; [done| |by intros l k ?%Hn].
  intros l ks k [= -> ->]%list_elem_of_singleton. split; [by intros ?%elem_of_empty|by intros ?%Hn].
Qed.

Lemma insert_key_spec k l ks st :
  insert_key k ((l, ks) :: st) = if decide (k ∈ ks) then Err (YamlDuplicateKey k) else Ok ((l, {[k]} ∪ ks) :: st).
Proof. done. Qed.

(** The scopes after a line's blocks are ended, with a new one at level [l] on top
    unless it is there. *)
Lemma tracks_key st es e k l ks st' :
  en_key e = Some k -> level e = l -> Stacked ((l, ks) :: st') ->
  (forall l' ks', l' <> l -> (l', ks') ∈ st' <-> (l', ks') ∈ st /\ closes e l' = false) ->
  (forall k', k' ∈ ks <-> Live es l k' /\ closes e l = false) -> Tracks st es ->
  (k ∈ ks <-> Conflict es e) /\ Tracks ((l, {[k]} ∪ ks) :: st') (es ++ [e]).
Proof.
  intros Hk Hl Hs Hst Hks [_ Tk To]. split.
  - rewrite Hks. unfold Conflict. rewrite Hl. split; [intros [? ?]; by exists k|].
    intros (k' & Hk' & ? & ?). by simplify_eq.
  - split.
    + by destruct st'.
    + intros l' ks' k' [[= -> ->]|Hin]%elem_of_cons.
      * rewrite elem_of_union, elem_of_singleton, Hks, live_snoc, Hk. naive_solver.
      * pose proof (stacked_below _ _ _ Hs _ _ Hin). apply Hst in Hin as [Hin Hc]; [|lia].
        rewrite (Tk l' ks' k' Hin), live_snoc. split; [by right|]. intros [[_ ?]|[? _]]; [lia|done].
    + intros l' k' [[_ <-]|[Hlive Hc]]%live_snoc; [subst l; eexists; by left|].
      destruct (decide (l' = l)) as [->|Hne]; [eexists; by left|].
      apply To in Hlive as [ks' Hin]. exists ks'. right. by apply Hst.
Qed.

Lemma scan_keys_tracks st es e t indent :
  en_item e = starts_with t "-" -> en_indent e = indent -> en_key e = extract_yaml_key (key_source t) ->
  Tracks st es ->
  match scan_keys t indent st with
  | Ok st' => en_key e <> Some "<<" /\ ~ Conflict es e /\ Tracks st' (es ++ [e])
  | Err _ => en_key e = Some "<<" \/ Conflict es e
  end.
Proof.
  intros Hitem Hindent Hkey Ht. unfold scan_keys. rewrite <- Hitem.
  assert ((if en_item e then trim_start (str_drop 1 t) else t) = key_source t) as ->
    by (unfold key_source; by rewrite Hitem).
  rewrite <- Hkey. pose proof Ht as [Ts Tk To]. destruct (en_item e) eqn:Ei.
  - assert (level e = S indent) as Hl by (unfold level; rewrite Ei, Hindent; done).
    assert (forall l, closes e l = (1 <=? l) && (indent <=? l)) as Hc by (intros l; unfold closes; by rewrite Ei, Hindent).
    destruct (pop_while_spec (fun i => indent <=? i) st) as [Hps Hpe]; [|done|].
    { intros l l' Hlt. rewrite !Nat.leb_le. lia. }
    set (st1 := pop_while (fun i => indent <=? i) st) in *.
    assert (Hin : forall l ks, (l, ks) ∈ st1 <-> (l, ks) ∈ st /\ closes e l = false).
    { intros l ks. rewrite Hpe, Hc. rewrite andb_false_iff, !Nat.leb_gt. f_equiv. lia. }
    assert (Stacked ((S indent, ∅ : gset string) :: st1)) as Hs1.
    { clearbody st1. destruct st1 as [|[l1 k1] st2]; [done|]. split; [|done].
      destruct (proj1 (Hpe l1 k1) ltac:(by left)) as [_ [->|?%Nat.leb_gt]]; lia. }
    unfold enter_item. replace (indent + 1) with (S indent) by lia. fold st1.
    assert (Hfresh : forall k', k' ∈ (∅ : gset string) <-> Live es (S indent) k' /\ closes e (S indent) = false).
    { intros k'. rewrite Hc. split; [by intros ?%elem_of_empty|]. intros [_ [?|?]%andb_false_iff]; [done|].
      rewrite Nat.leb_gt in *. lia. }
    destruct (en_key e) as [k|] eqn:Ek.
    + destruct (String.eqb_spec k "<<") as [->|Hm]; [by left|].
      rewrite insert_key_spec, decide_False by apply not_elem_of_empty.
      destruct (tracks_key st es e k (S indent) ∅ st1 Ek Hl Hs1 (fun l' ks' _ => Hin l' ks') Hfresh Ht) as [Hcf Htr].
      split_and!; [congruence| |done]. rewrite <- Hcf. apply not_elem_of_empty.
    + split_and!; [done|intros (? & ? & _); congruence|]. split; [done| |].
      * intros l ks k [[= -> ->]|[Hin' Hc']%Hin]%elem_of_cons; rewrite live_snoc, Ek.
        -- rewrite Hfresh. naive_solver.
        -- rewrite (Tk _ _ _ Hin'). naive_solver.
      * intros l k [[? _]|[Hlive Hc']]%live_snoc; [congruence|].
        apply To in Hlive as [ks Hin']. exists ks. right. by apply Hin.
  - destruct (en_key e) as [k|] eqn:Ek.
    2: { split_and!; [done|intros (? & ? & _); congruence|].
         assert (forall l k, Live (es ++ [e]) l k <-> Live es l k) as Hsame.
         { intros l k. rewrite live_snoc, Ek. unfold closes. rewrite Ei, Ek. cbn. rewrite andb_false_r. naive_solver. }
         split; [done| |]; intros l; [intros ks k ?|intros k]; rewrite Hsame; [by apply Tk|apply To]. }
    destruct (String.eqb_spec k "<<") as [->|Hm]; [by left|].
    assert (level e = indent) as Hl by (unfold level; rewrite Ei, Hindent; done).
    assert (forall l, closes e l = (1 <=? l) && (indent <? l)) as Hc
      by (intros l; unfold closes; by rewrite Ei, Hindent, Ek).
    destruct (pop_while_spec (fun i => indent <? i) st) as [Hps Hpe]; [|done|].
    { intros l l' Hlt. rewrite !Nat.ltb_lt. lia. }
    unfold enter_key. set (st1 := pop_while (fun i => indent <? i) st) in *.
    assert (Hin : forall l ks, (l, ks) ∈ st1 <-> (l, ks) ∈ st /\ closes e l = false).
    { intros l ks. rewrite Hpe, Hc. rewrite andb_false_iff, Nat.leb_gt, Nat.ltb_ge. f_equiv. lia. }
    assert (Hclose : closes e indent = false) by (rewrite Hc, Nat.ltb_irrefl; apply andb_false_r).
    clearbody st1. destruct st1 as [|[l1 k1] st1]; [done|].
    destruct (proj1 (Hpe l1 k1) ltac:(by left)) as [Hin1 Hl1]. rewrite Nat.ltb_ge in Hl1.
    assert (Hbelow : forall l ks, (l, ks) ∈ st1 -> l < l1) by (by eapply stacked_below).
    destruct (Nat.ltb_spec l1 indent) as [Hlt|Hge].
    + assert (Hnone : forall k', ~ Live es indent k').
      { intros k' [ks Hks]%To. assert ((indent, ks) ∈ (l1, k1) :: st1) as Hx by (by apply Hin).
        apply elem_of_cons in Hx as [[= -> ->]|Hx%Hbelow]; lia. }
      assert (Hks : forall k', k' ∈ (∅ : gset string) <-> Live es indent k' /\ closes e indent = false).
      { intros k'. split; [by intros ?%elem_of_empty|by intros [?%Hnone _]]. }
      destruct (tracks_key st es e k indent ∅ ((l1, k1) :: st1) Ek Hl ltac:(by split)
                  (fun l' ks' _ => Hin l' ks') Hks Ht) as [Hcf Htr].
      rewrite insert_key_spec, decide_False by apply not_elem_of_empty.
      split_and!; [congruence| |done]. rewrite <- Hcf. apply not_elem_of_empty.
    + assert (l1 = indent) as -> by lia.
      assert (Hst : forall l' ks', l' <> indent -> (l', ks') ∈ st1 <-> (l', ks') ∈ st /\ closes e l' = false).
      { intros l' ks' Hne. rewrite <- Hin, elem_of_cons. naive_solver. }
      assert (Hks : forall k', k' ∈ k1 <-> Live es indent k' /\ closes e indent = false).
      { intros k'. rewrite (Tk _ _ _ Hin1). naive_solver. }
      destruct (tracks_key st es e k indent k1 st1 Ek Hl Hps Hst Hks Ht) as [Hcf Htr].
      rewrite insert_key_spec. destruct (decide (k ∈ k1)) as [Hd|Hd]; [right; by apply Hcf|].
      split_and!; [congruence| |done]. by rewrite <- Hcf.
Qed.

(** ** The scan *)

Section Accepts.
Context `{YamlReader}.

Lemma significant_iff line :
  str_is_empty (str_trim line) || starts_with (str_trim line) "#" = false <-> Significant line.
Proof.
  unfold Significant. rewrite orb_false_iff, str_is_empty_false. apply and_iff_compat_l.
  destruct (starts_with (str_trim line) "#") eqn:E.
  - apply starts_with_spec in E as [r Hr]. split; [done|]. intros Hn. by destruct (Hn r).
  - split; [|done]. intros _ r Hr. rewrite Hr in E. done.
Qed.

Lemma marker_iff t : String.eqb t "---" || starts_with t "--- " || String.eqb t "..." = true <-> Marker t.
Proof. unfold Marker. rewrite !orb_true_iff, !String.eqb_eq, starts_with_spec. tauto. Qed.

(** A line that is read: it passes with the new stack, or nothing does. *)
Lemma scan_line_tracks n line st es :
  Significant line -> Tracks st es ->
  (exists st', scan_line n line st = Done (Ok st') /\ Allowed line (entry_of line) /\
     ~ Conflict es (entry_of line) /\ Tracks st' (es ++ [entry_of line])) \/
  ((forall st', scan_line n line st <> Done (Ok st')) /\
     (Allowed line (entry_of line) -> Conflict es (entry_of line))).
Proof.
  intros Hs%significant_iff Ht. unfold scan_line. rewrite Hs.
  destruct (_ || String.eqb (str_trim line) "...") eqn:Em.
  { apply marker_iff in Em. right. split; [done|]. by intros [? _]. }
  assert (~ Marker (str_trim line)) as Hm by (rewrite <- marker_iff; congruence).
  destruct (find_anchor_or_alias_outside_quotes (str_trim line) (n + 1)) as [e|] eqn:Ea.
  { right. split; [done|]. intros (_ & Hr & _). rewrite <- (find_anchor_none _ (n + 1)) in Hr. congruence. }
  apply find_anchor_none in Ea.
  destruct (scan_tag (str_trim line)) as [[e|]|] eqn:Et;
    try (right; split; [done|]; intros (_ & _ & Htag & _); apply scan_tag_none in Htag; congruence).
  apply scan_tag_none in Et.
  pose proof (scan_keys_tracks st es (entry_of line) (str_trim line)
    (String.length line - String.length (trim_start line)) eq_refl eq_refl eq_refl Ht) as Hk.
  destruct (scan_keys _ _ st) as [st'|e].
  - left. exists st'. destruct Hk as (? & ? & ?). by split_and!.
  - right. split; [done|]. intros (_ & _ & _ & Hmerge). by destruct Hk.
Qed.

Lemma entries_skip_inv line lines es : ~ Significant line -> Entries (line :: lines) es -> Entries lines es.
Proof. intros Hn He. by inversion He. Qed.

Lemma entries_line_inv line lines es :
  Significant line -> Entries (line :: lines) es ->
  exists es', es = entry_of line :: es' /\ Allowed line (entry_of line) /\ Entries lines es'.
Proof.
  intros Hs He. inversion He as [|? ? ? Hn|? ? e es' _ ->%entry_of_spec Ha Hes]; subst; [by destruct Hn|]. by exists es'.
Qed.

Lemma scan_lines_ok n lines st es :
  Tracks st es -> DistinctKeys es ->
  scan_lines n lines st = Done (Ok ()) <-> exists es', Entries lines es' /\ DistinctKeys (es ++ es').
Proof.
  revert n st es. induction lines as [|line lines IH]; intros n st es Ht Hd; cbn [scan_lines].
  { split; [|done]. intros _. exists []. rewrite app_nil_r. by split; [constructor|]. }
  destruct (str_is_empty (str_trim line) || starts_with (str_trim line) "#") eqn:Es.
  - assert (~ Significant line) as Hn by (rewrite <- significant_iff; congruence).
    unfold scan_line. rewrite Es, (IH _ st es Ht Hd). split.
    + intros (es' & He & Hx). exists es'. split; [by constructor|done].
    + intros (es' & He%entries_skip_inv & Hx); [|done]. by exists es'.
  - apply significant_iff in Es.
    destruct (scan_line_tracks n line st es Es Ht) as [(st' & -> & Ha & Hc & Ht')|[Hbad Hc]].
    + assert (DistinctKeys (es ++ [entry_of line])) as Hd' by by apply distinct_snoc.
      rewrite (IH _ st' _ Ht' Hd'). split.
      * intros (es' & He & Hx). exists (entry_of line :: es'). rewrite <- app_assoc in Hx. split; [|done].
        constructor; [done|by apply entry_of_spec|done..].
      * intros (es' & (es1 & -> & _ & He)%entries_line_inv & Hx); [|done]. exists es1. by rewrite <- app_assoc.
    + split.
      * intros Hk. destruct (scan_line n line st) as [[st'|e]|]; try done. by destruct (Hbad st').
      * intros (es' & (es1 & -> & Ha & He)%entries_line_inv & Hx); [|done]. exfalso.
        change (entry_of line :: es1) with ([entry_of line] ++ es1) in Hx. rewrite app_assoc in Hx.
        apply distinct_prefix, distinct_snoc in Hx as [_ Hx]. by apply Hx, Hc.
Qed.

(** The scan accepts a text exactly when none of its lines is forbidden and no two
    keys of a block are the same. *)
Lemma pre_scan_iff content : pre_scan_yaml content = Done (Ok ()) <-> ScanAccepts content.
Proof.
  unfold pre_scan_yaml, ScanAccepts. rewrite (scan_lines_ok _ _ _ []); [done|apply tracks_start|].
  by intros [|] ? ? ? ? ?.
Qed.

(** ** Properties *)

(** C21: a pack's text has a canonical value exactly when it is small enough, no
    line of it is a document marker or has a reference or a tag outside quotes
    or a merge key, no two lines of one block have the same key, and the
    document that [serde_yaml] reads is canonical: at most fifty levels,
    integers within 2^53, no floats (the specification of the registry allows
    finite ones) and no tags, and mappings with distinct string keys, none of
    them a merge key.  What counts as a line, a block and a key is what the
    text looks like: the lines of a block scalar count as well; and a tag is
    looked for at the first [!!] and the first [!<] of a line.  The value is
    then the document's meaning, and a well-formed JSON value. *)
Theorem parse_yaml_strict_iff `{Platform} content v :
  parse_yaml_strict content = Done (Ok v) <->
  (str_len content <= MAX_TOTAL_SIZE)%Z /\ ScanAccepts content /\
  (exists y, yaml_from_str content = Ok y /\ Canonical 0 y v) /\ wf_value v.
Proof.
  rewrite <- pre_scan_iff.
  unfold parse_yaml_strict. destruct (Z.ltb_spec MAX_TOTAL_SIZE (str_len content)) as [Hs|Hs].
  { split; [done|]. intros [? _]. lia. }
  destruct (pre_scan_yaml content) as [[[]|e]|]; [|by split; [|intros (_ & ? & _)]..].
  destruct (yaml_from_str content) as [y|e].
  2:{ split; [done|]. by intros (_ & _ & (? & ? & _) & _). }
  split.
  - intros [= Hv]. apply yaml_to_json_canonical in Hv. split_and!; [done|done|by exists y|].
    by eapply canonical_wf.
  - intros (_ & _ & (y' & [= <-] & Hc) & _). f_equal. by apply yaml_to_json_canonical.
Qed.

(** The text of a block scalar is scanned like the rest: two lines of it that
    look like one key are refused. *)
Definition note_pack : string :=
  "note: |" +:+ String "010" ("  todo: a" +:+ String "010" "  todo: b").

Lemma block_scalar_refused : pre_scan_yaml note_pack = Done (Err (YamlDuplicateKey "todo")).
Proof. vm_compute. reflexivity. Qed.

(** A key repeated in one item of a sequence is not seen by the scan: the key
    beside the dash has a block of its own. *)
Definition item_pack : string := "- a: 1" +:+ String "010" "  a: 2".

Lemma item_keys_pass : pre_scan_yaml item_pack = Done (Ok ()).
Proof. vm_compute. reflexivity. Qed.

End Accepts.
