(* ===== verification/PackTrust.v ===== *)
(** * Trust in packs

    [assay-registry/src/trust.rs] and [trust_next]: the store of signing keys
    with its pinned roots and the manifests that add and revoke keys;
    [verify_internal], [dsse_limits.rs] and [assay-common/src/dsse.rs]: the
    check of a fetched pack's digest and DSSE signature.  Bytes are strings.
    The lock of the store is held by one caller at a time, so [try_read] never
    fails.  Base64, the envelope's JSON, SPKI and Ed25519 are the class
    [PackCrypto]; the clock is a computation. *)
From stdpp Require Import base tactics list strings gmap pretty.
From Stdlib Require Import Ascii ZArith Lia.
From S2P Require Import Prelude RustStr Json Platform PackRef PackYaml.

(** ** types.rs *)

Record PackHeaders : Type := mkPackHeaders {
  ph_digest : option string;
  ph_signature : option string;
  ph_key_id : option string;
  ph_etag : option string;
  ph_cache_control : option string;
  ph_content_length : option Z
}.

Record TrustedKey : Type := mkTrustedKey {
  tk_key_id : string;
  tk_algorithm : string;
  tk_public_key : string;
  tk_description : option string;
  tk_added_at : option Z;
  tk_expires_at : option Z;
  tk_revoked : bool
}.

Record KeysManifest : Type := mkKeysManifest {
  km_version : Z;
  km_keys : list TrustedKey;
  km_expires_at : option Z
}.

Record FetchResult : Type := mkFetchResult {
  fr_content : string;
  fr_headers : PackHeaders;
  fr_computed_digest : string
}.

Record DsseSignature : Type := mkDsseSignature { ds_key_id : string; ds_signature : string }.

Record DsseEnvelope : Type := mkDsseEnvelope {
  env_payload_type : string;
  env_payload : string;
  env_signatures : list DsseSignature
}.

(** ** Third-party code *)

(** Each error is the [Display] of the library's. *)
Class PackCrypto : Type := {
  base64_decode : string -> Result string string;
  dsse_from_json : string -> Result DsseEnvelope string;
  VerifyingKey : Type;
  key_from_spki : string -> Result VerifyingKey string;
  Signature : Type;
  signature_from_slice : string -> Result Signature string;
  ed25519_verify : VerifyingKey -> string -> Signature -> bool
}.

(** [Utc::now()]. *)
Class Clock (S : Type) : Type := { read_clock : M S Z }.

(** ** trust.rs: the store *)

Definition DEFAULT_KEYS_TTL_SECS : Z := 86400.

Record KeyMetadata : Type := mkKeyMetadata {
  kmd_description : option string;
  kmd_added_at : option Z;
  kmd_expires_at : option Z;
  kmd_revoked : bool;
  kmd_is_pinned : bool
}.
#[global] Instance KeyMetadata_eta : Eta KeyMetadata := fun r =>
  mkKeyMetadata (kmd_description r) (kmd_added_at r) (kmd_expires_at r) (kmd_revoked r)
    (kmd_is_pinned r).

Section Trust.
Context `{Platform} `{YamlReader} `{PackCrypto}.

Record TrustStoreInner : Type := mkTrustStoreInner {
  ts_keys : gmap string VerifyingKey;
  ts_metadata : gmap string KeyMetadata;
  ts_pinned_roots : list string;
  ts_manifest_fetched_at : option Z;
  ts_manifest_expires_at : option Z
}.
#[global] Instance TrustStoreInner_eta : Eta TrustStoreInner := fun r =>
  mkTrustStoreInner (ts_keys r) (ts_metadata r) (ts_pinned_roots r) (ts_manifest_fetched_at r)
    (ts_manifest_expires_at r).

Definition empty_inner : TrustStoreInner := mkTrustStoreInner ∅ ∅ [] None None.

Definition is_pinned (inner : TrustStoreInner) (key_id : string) : bool :=
  existsb (String.eqb key_id) (ts_pinned_roots inner).

(** *** access.rs *)

Definition get_key_inner (inner : TrustStoreInner) (now : Z) (key_id : string)
    : RegistryResult VerifyingKey :=
  match ts_keys inner !! key_id with
  | None => Err (KeyNotTrusted key_id)
  | Some key =>
      match ts_metadata inner !! key_id with
      | None => Ok key
      | Some meta =>
          if kmd_revoked meta then Err (KeyNotTrusted key_id)
          else
            match kmd_expires_at meta with
            | Some expires_at =>
                if (expires_at <? now)%Z then Err (KeyNotTrusted key_id) else Ok key
            | None => Ok key
            end
      end
  end.

(** *** cache.rs *)

Definition needs_refresh (inner : TrustStoreInner) (now : Z) : bool :=
  match ts_manifest_expires_at inner with
  | Some expires_at => (expires_at <=? now)%Z
  | None => negb (opt_is_some (ts_manifest_fetched_at inner))
  end.

Definition retain {A} (f : string -> bool) (m : gmap string A) : gmap string A :=
  filter (fun e => f (fst e) = true) m.

Definition clear_cached_keys (inner : TrustStoreInner) : TrustStoreInner :=
  inner <| ts_keys := retain (is_pinned inner) (ts_keys inner) |>
    <| ts_metadata := retain (is_pinned inner) (ts_metadata inner) |>
    <| ts_manifest_fetched_at := None |> <| ts_manifest_expires_at := None |>.

(** *** decode.rs *)

Definition decode_public_key_bytes (b64 : string) : RegistryResult string :=
  match base64_decode b64 with
  | Ok bytes => Ok bytes
  | Err e => Err (ConfigError ("invalid base64 public key: " +:+ e))
  end.

Definition decode_verifying_key (b64 : string) : RegistryResult VerifyingKey :=
  match decode_public_key_bytes b64 with
  | Err e => Err e
  | Ok bytes =>
      match key_from_spki bytes with
      | Ok key => Ok key
      | Err e => Err (ConfigError ("invalid SPKI public key: " +:+ e))
      end
  end.

Definition compute_key_id (spki_bytes : string) : string := sha256_hex_bytes spki_bytes.

(** *** manifest.rs *)

Definition add_manifest_key (now : Z) (inner : TrustStoreInner) (key : TrustedKey)
    : TrustStoreInner :=
  let id := tk_key_id key in
  if tk_revoked key then
    if negb (is_pinned inner id) then
      inner <| ts_keys := delete id (ts_keys inner) |>
        <| ts_metadata := alter (fun meta => meta <| kmd_revoked := true |>) id (ts_metadata inner) |>
    else inner
  else if match tk_expires_at key with Some e => (e <? now)%Z | None => false end then inner
  else if is_pinned inner id then inner
  else
    match decode_verifying_key (tk_public_key key) with
    | Err _ => inner
    | Ok verifying_key =>
        match decode_public_key_bytes (tk_public_key key) with
        | Err _ => inner
        | Ok bytes =>
            if negb (String.eqb (compute_key_id bytes) id) then inner
            else
              inner <| ts_keys := <[id := verifying_key]> (ts_keys inner) |>
                <| ts_metadata :=
                     <[id := mkKeyMetadata (tk_description key) (tk_added_at key)
                               (tk_expires_at key) false false]> (ts_metadata inner) |>
        end
    end.

(** The sum is out of range only at the end of time, where it panics. *)
Definition add_from_manifest (now : Z) (inner : TrustStoreInner) (manifest : KeysManifest)
    : Outcome TrustStoreInner :=
  let inner := foldl (add_manifest_key now) inner (km_keys manifest) in
  ttl ← duration_seconds DEFAULT_KEYS_TTL_SECS;
  default_expiry ← datetime_add now ttl;
  mret (inner <| ts_manifest_fetched_at := Some now |>
          <| ts_manifest_expires_at := option_or (km_expires_at manifest) (Some default_expiry) |>).

(** *** pinned.rs *)

Record PreparedPinnedKey : Type := mkPreparedPinnedKey {
  pp_key_id : string;
  pp_verifying_key : VerifyingKey;
  pp_metadata : KeyMetadata
}.

Definition prepare_pinned_key (key : TrustedKey) : RegistryResult PreparedPinnedKey :=
  match decode_verifying_key (tk_public_key key) with
  | Err e => Err e
  | Ok verifying_key =>
      match decode_public_key_bytes (tk_public_key key) with
      | Err e => Err e
      | Ok bytes =>
          let computed_id := compute_key_id bytes in
          if negb (String.eqb computed_id (tk_key_id key)) then
            Err (SignatureInvalid ("key_id mismatch: claimed " +:+ tk_key_id key
                                   +:+ ", computed " +:+ computed_id))
          else
            Ok (mkPreparedPinnedKey (tk_key_id key) verifying_key
                  (mkKeyMetadata (tk_description key) (tk_added_at key) (tk_expires_at key)
                     false true))
      end
  end.

Definition insert_prepared_pinned_key (inner : TrustStoreInner) (prepared : PreparedPinnedKey)
    : TrustStoreInner :=
  let id := pp_key_id prepared in
  let inner := inner <| ts_keys := <[id := pp_verifying_key prepared]> (ts_keys inner) |>
                 <| ts_metadata := <[id := pp_metadata prepared]> (ts_metadata inner) |> in
  if negb (is_pinned inner id)
  then inner <| ts_pinned_roots := ts_pinned_roots inner ++ [id] |> else inner.

Definition insert_pinned_key (inner : TrustStoreInner) (key : TrustedKey)
    : RegistryResult TrustStoreInner :=
  match prepare_pinned_key key with
  | Ok prepared => Ok (insert_prepared_pinned_key inner prepared)
  | Err e => Err e
  end.

Fixpoint insert_pinned_keys (inner : TrustStoreInner) (roots : list TrustedKey)
    : RegistryResult TrustStoreInner :=
  match roots with
  | [] => Ok inner
  | root :: roots =>
      match insert_pinned_key inner root with
      | Ok inner => insert_pinned_keys inner roots
      | Err e => Err e
      end
  end.

Definition from_pinned_roots (roots : list TrustedKey) : RegistryResult TrustStoreInner :=
  insert_pinned_keys empty_inner roots.

(** [parse_pinned_roots_json_impl] after the JSON. *)
Fixpoint check_pinned_roots (seen : gset string) (roots : list TrustedKey) : RegistryResult () :=
  match roots with
  | [] => Ok ()
  | root :: roots =>
      let id := tk_key_id root in
      if negb (String.eqb (tk_algorithm root) "Ed25519") then
        Err (ConfigError ("production trust root " +:+ id +:+ " uses unsupported algorithm "
                          +:+ tk_algorithm root))
      else if tk_revoked root then
        Err (ConfigError ("production trust root " +:+ id +:+ " is revoked"))
      else if decide (id ∈ seen) then
        Err (ConfigError ("duplicate production trust root " +:+ id))
      else check_pinned_roots ({[id]} ∪ seen) roots
  end.

Definition parse_pinned_roots (roots : list TrustedKey) : RegistryResult (list TrustedKey) :=
  if is_nil roots then Err (ConfigError "production trust roots are empty")
  else match check_pinned_roots ∅ roots with Ok _ => Ok roots | Err e => Err e end.

(** ** assay-common: pre-authentication encoding *)

Definition build_pae (payload_type payload : string) : string :=
  "DSSEv1 " +:+ fmt_int (str_len payload_type) +:+ " " +:+ payload_type +:+ " "
  +:+ fmt_int (str_len payload) +:+ " " +:+ payload.

(** ** dsse_limits.rs *)

Definition MAX_DSSE_PAYLOAD_BYTES : Z := 1048576.

Record PayloadTooLarge : Type := mkPayloadTooLarge { ptl_limit : Z; ptl_size : Z; ptl_exact : bool }.

Definition payload_too_large_reason (e : PayloadTooLarge) : string :=
  if ptl_exact e
  then "DSSE payload is " +:+ fmt_int (ptl_size e) +:+ " bytes, over the "
       +:+ fmt_int (ptl_limit e) +:+ "-byte ceiling"
  else "DSSE payload encodes to more than " +:+ fmt_int (ptl_size e) +:+ " bytes, over the "
       +:+ fmt_int (ptl_limit e) +:+ "-byte ceiling".

Definition max_encoded_len : Z := ((MAX_DSSE_PAYLOAD_BYTES + 2) / 3 * 4)%Z.

Definition decode_bounded (payload_b64 : string) : Result (option string) PayloadTooLarge :=
  if (max_encoded_len <? str_len payload_b64)%Z then
    Err (mkPayloadTooLarge MAX_DSSE_PAYLOAD_BYTES MAX_DSSE_PAYLOAD_BYTES false)
  else
    match base64_decode payload_b64 with
    | Err _ => Ok None
    | Ok decoded =>
        if (MAX_DSSE_PAYLOAD_BYTES <? str_len decoded)%Z then
          Err (mkPayloadTooLarge MAX_DSSE_PAYLOAD_BYTES (str_len decoded) true)
        else Ok (Some decoded)
    end.

(** ** verify_internal *)

Definition PAYLOAD_TYPE_PACK_V1 : string := "application/vnd.assay.pack+yaml;v=1".

Record VerifyResult : Type := mkVerifyResult {
  vr_signed : bool;
  vr_key_id : option string;
  vr_digest : string
}.

Record VerifyOptions : Type := mkVerifyOptions { vo_allow_unsigned : bool; vo_skip_signature : bool }.

Definition parse_dsse_envelope (b64 : string) : RegistryResult DsseEnvelope :=
  match base64_decode b64 with
  | Err e => Err (SignatureInvalid ("invalid base64 envelope: " +:+ e))
  | Ok bytes =>
      match dsse_from_json bytes with
      | Ok envelope => Ok envelope
      | Err e => Err (SignatureInvalid ("invalid DSSE envelope: " +:+ e))
      end
  end.

Definition canonicalize_for_dsse (content : string) : Outcome (RegistryResult string) :=
  match parse_yaml_strict content with
  | Panicked => Panicked
  | Done (Err e) =>
      Done (Err (InvalidResponse ("failed to parse YAML for signature verification: "
                                  +:+ canonicalize_error_fmt e)))
  | Done (Ok json_value) =>
      match to_canonical_jcs_bytes json_value with
      | Ok bytes => Done (Ok bytes)
      | Err e =>
          Done (Err (InvalidResponse ("failed to canonicalize for signature verification: "
                                      +:+ canonicalize_error_fmt e)))
      end
  end.

Section Verify.
Context {S : Type} `{!Clock S}.

(** [TrustStore::get_key]. *)
Definition get_key (trust_store : TrustStoreInner) (key_id : string)
    : M S (RegistryResult VerifyingKey) :=
  now ← read_clock;
  mret (get_key_inner trust_store now key_id).

Definition verify_single_signature (pae key_id signature_b64 : string)
    (trust_store : TrustStoreInner) : M S (RegistryResult ()) :=
  key ←? get_key trust_store key_id;
  mret
    (match base64_decode signature_b64 with
     | Err e => Err (SignatureInvalid ("invalid base64 signature: " +:+ e))
     | Ok signature_bytes =>
         match signature_from_slice signature_bytes with
         | Err e => Err (SignatureInvalid ("invalid signature bytes: " +:+ e))
         | Ok signature =>
             if ed25519_verify key pae signature then Ok ()
             else Err (SignatureInvalid "ed25519 verification failed")
         end
     end).

(** The first signature that verifies ends the loop; else the last error. *)
Fixpoint any_signature (pae : string) (signatures : list DsseSignature)
    (trust_store : TrustStoreInner) (last_error : option RegistryError) : M S (RegistryResult ()) :=
  match signatures with
  | [] =>
      mret (Err (match last_error with
                 | Some e => e
                 | None => SignatureInvalid "no valid signatures"
                 end))
  | sig :: signatures =>
      r ← verify_single_signature pae (ds_key_id sig) (ds_signature sig) trust_store;
      match r with
      | Ok _ => mret (Ok ())
      | Err e => any_signature pae signatures trust_store (Some e)
      end
  end.

Definition verify_dsse_signature_bytes (canonical_bytes : string) (envelope : DsseEnvelope)
    (trust_store : TrustStoreInner) : M S (RegistryResult ()) :=
  if negb (String.eqb (env_payload_type envelope) PAYLOAD_TYPE_PACK_V1) then
    mret (Err (SignatureInvalid ("payload type mismatch: expected " +:+ PAYLOAD_TYPE_PACK_V1
                                 +:+ ", got " +:+ env_payload_type envelope)))
  else
    match decode_bounded (env_payload envelope) with
    | Err too_large => mret (Err (SignatureInvalid (payload_too_large_reason too_large)))
    | Ok None => mret (Err (SignatureInvalid "invalid base64 payload"))
    | Ok (Some payload_bytes) =>
        if negb (String.eqb payload_bytes canonical_bytes) then
          mret (Err (DigestMismatch "pack" "unknown"
                       ("canonical payload (" +:+ fmt_int (str_len payload_bytes) +:+ " bytes)")
                       ("canonical content (" +:+ fmt_int (str_len canonical_bytes) +:+ " bytes)")))
        else if is_nil (env_signatures envelope) then
          mret (Err (SignatureInvalid "no signatures in envelope"))
        else
          any_signature (build_pae (env_payload_type envelope) payload_bytes)
            (env_signatures envelope) trust_store None
    end.

Definition verify_dsse_signature (content : string) (envelope : DsseEnvelope)
    (trust_store : TrustStoreInner) : M S (RegistryResult ()) :=
  canonical_bytes ←? lift (canonicalize_for_dsse content);
  verify_dsse_signature_bytes canonical_bytes envelope trust_store.

Definition verify_pack (result : FetchResult) (trust_store : TrustStoreInner)
    (options : VerifyOptions) : M S (RegistryResult VerifyResult) :=
  let headers := fr_headers result in
  let computed := fr_computed_digest result in
  let continue :=
    match ph_signature headers with
    | None =>
        if vo_allow_unsigned options then mret (Ok (mkVerifyResult false None computed))
        else mret (Err (Unsigned "pack" "unknown"))
    | Some sig_b64 =>
        if vo_skip_signature options then
          mret (Ok (mkVerifyResult true (ph_key_id headers) computed))
        else
          envelope ←? mret (parse_dsse_envelope sig_b64);
          _ ←? verify_dsse_signature (fr_content result) envelope trust_store;
          mret (Ok (mkVerifyResult true (ds_key_id <$> head (env_signatures envelope)) computed))
    end in
  match ph_digest headers with
  | Some claimed_digest =>
      if negb (String.eqb claimed_digest computed) then
        mret (Err (DigestMismatch "pack" "unknown" claimed_digest computed))
      else continue
  | None => continue
  end.

End Verify.
End Trust.
