(* ===== verification/PackTrustCorrect.v ===== *)
(** * Trust in packs: theorems

    The signed encoding is unambiguous; a key in the store is named by the hash
    of its public key, and pinned roots survive every manifest; a pack that
    verifies carries what its signature and header promise. *)
From stdpp Require Import base tactics list strings gmap pretty.
From Stdlib Require Import Ascii ZArith Lia.
From S2P Require Import Prelude RustStr Json Platform PackRef PackYaml PackTrust.

(** ** Decimal numbers and separators *)

Definition is_not (c a : ascii) : bool := negb (Ascii.eqb a c).

Lemma pretty_N_char_digit n : is_not " "%char (pretty_N_char n) = true.
Proof. unfold pretty_N_char. by repeat case_match. Qed.

Lemma pretty_N_go_no_space n s :
  str_forall (is_not " "%char) s = true -> str_forall (is_not " "%char) (pretty_N_go n s) = true.
Proof.
  revert s. induction (N.lt_wf_0 n) as [n _ IH]; intros s Hs.
  destruct (decide (0 < n)%N) as [Hn|Hn].
  - rewrite pretty_N_go_step by done. apply IH; [by apply N.div_lt|].
    cbn [str_forall]. by rewrite pretty_N_char_digit, Hs.
  - assert (n = 0%N) as -> by lia. by rewrite pretty_N_go_0.
Qed.

Lemma fmt_int_no_space z : str_forall (is_not " "%char) (fmt_int z) = true.
Proof.
  assert (Hn : forall n : N, str_forall (is_not " "%char) (pretty n) = true).
  { intros n. unfold pretty, pretty_N. destruct (decide (n = 0%N)); [done|].
    by apply pretty_N_go_no_space. }
  unfold fmt_int. destruct z as [|q|q]; [done|apply (Hn (Npos q))|]. apply (Hn (Npos q)).
Qed.

Lemma split_at_unique c a b a' b' :
  str_forall (is_not c) a = true -> str_forall (is_not c) a' = true ->
  a +:+ String c b = a' +:+ String c b' -> a = a' /\ b = b'.
Proof.
  revert a'. induction a as [|x a IH]; intros [|y a'] Ha Ha' E; cbn in *.
  - by injection E.
  - injection E as -> _. apply andb_true_iff in Ha' as [Hy _]. unfold is_not in Hy.
    by rewrite Ascii.eqb_refl in Hy.
  - injection E as -> _. apply andb_true_iff in Ha as [Hy _]. unfold is_not in Hy.
    by rewrite Ascii.eqb_refl in Hy.
  - injection E as -> E. apply andb_true_iff in Ha as [_ Ha], Ha' as [_ Ha'].
    destruct (IH a' Ha Ha' E) as [-> ->]. done.
Qed.

Lemma append_same_length a b a' b' :
  String.length a = String.length a' -> a +:+ b = a' +:+ b' -> a = a' /\ b = b'.
Proof.
  revert a'. induction a as [|x a IH]; intros [|y a'] Hl E; cbn in *; try done.
  injection E as -> E. injection Hl as Hl. by destruct (IH a' Hl E) as [-> ->].
Qed.

(** Reading one length-prefixed field. *)
Lemma field_unique s t rest rest' :
  fmt_int (str_len s) +:+ " " +:+ s +:+ rest = fmt_int (str_len t) +:+ " " +:+ t +:+ rest' ->
  s = t /\ rest = rest'.
Proof.
  intros E. apply split_at_unique in E as [El E]; [|apply fmt_int_no_space..].
  apply append_same_length in E; [done|]. unfold fmt_int in El. apply (inj pretty) in El.
  unfold str_len in El. lia.
Qed.

(** What a signature covers determines the payload type and the payload: no
    two pairs have the same pre-authentication encoding, whatever separators
    and digits they contain. *)
Theorem build_pae_unambiguous t p t' p' :
  build_pae t p = build_pae t' p' -> t = t' /\ p = p'.
Proof.
  unfold build_pae. intros E. apply string_app_inj in E. apply field_unique in E as [-> E].
  split; [done|]. apply string_app_inj in E.
  apply (field_unique p p' EmptyString EmptyString). by rewrite !string_app_nil_r.
Qed.

(** ** The store of keys *)

Section Store.
Context `{Platform} `{YamlReader} `{PackCrypto}.

(** What any sequence of manifests, clearings and further pinned roots can do. *)
Inductive TrustStep : TrustStoreInner -> TrustStoreInner -> Prop :=
| ts_manifest now manifest inner inner' :
    add_from_manifest now inner manifest = Done inner' -> TrustStep inner inner'
| ts_clear inner : TrustStep inner (clear_cached_keys inner)
| ts_pin key inner inner' : insert_pinned_key inner key = Ok inner' -> TrustStep inner inner'.

(** The id of a key is the hash of its public key, a key has metadata, and
    pinned roots are present, not revoked, and marked. *)
Record TrustInv (inner : TrustStoreInner) : Prop := {
  ti_ids id k : ts_keys inner !! id = Some k ->
    exists spki, key_from_spki spki = Ok k /\ id = compute_key_id spki;
  ti_metadata id k : ts_keys inner !! id = Some k -> is_Some (ts_metadata inner !! id);
  ti_pinned id : id ∈ ts_pinned_roots inner ->
    is_Some (ts_keys inner !! id) /\
    exists meta, ts_metadata inner !! id = Some meta /\ kmd_revoked meta = false /\
      kmd_is_pinned meta = true;
  ti_pinned_unique : NoDup (ts_pinned_roots inner)
}.

Lemma is_pinned_spec inner id : is_pinned inner id = true <-> id ∈ ts_pinned_roots inner.
Proof.
  unfold is_pinned. rewrite existsb_true. split.
  - intros (x & Hx & ->%String.eqb_eq). done.
  - intros Hi. exists id. by rewrite String.eqb_refl.
Qed.

Lemma decode_verifying_key_ok b64 key :
  decode_verifying_key b64 = Ok key ->
  exists bytes, decode_public_key_bytes b64 = Ok bytes /\ key_from_spki bytes = Ok key.
Proof.
  unfold decode_verifying_key. destruct (decode_public_key_bytes b64) as [bytes|]; [|done].
  destruct (key_from_spki bytes) eqn:E; [|done]. intros [= <-]. by exists bytes.
Qed.

(** One manifest entry: it removes, adds or leaves alone a key that is not pinned. *)
Lemma add_manifest_key_cases now inner key :
  add_manifest_key now inner key = inner \/
  (tk_key_id key ∉ ts_pinned_roots inner /\ tk_revoked key = true /\
   add_manifest_key now inner key =
     inner <| ts_keys := delete (tk_key_id key) (ts_keys inner) |>
       <| ts_metadata := alter (fun meta => meta <| kmd_revoked := true |>) (tk_key_id key)
                           (ts_metadata inner) |>) \/
  (tk_key_id key ∉ ts_pinned_roots inner /\ tk_revoked key = false /\
   exists k spki, key_from_spki spki = Ok k /\ tk_key_id key = compute_key_id spki /\
     add_manifest_key now inner key =
       inner <| ts_keys := <[tk_key_id key := k]> (ts_keys inner) |>
         <| ts_metadata :=
              <[tk_key_id key := mkKeyMetadata (tk_description key) (tk_added_at key)
                                   (tk_expires_at key) false false]> (ts_metadata inner) |>).
Proof.
  unfold add_manifest_key. destruct (tk_revoked key) eqn:Er.
  - destruct (is_pinned inner (tk_key_id key)) eqn:Ep; cbn [negb]; [by left|]. right; left.
    split_and!; [|done|done]. by rewrite <- is_pinned_spec, Ep.
  - destruct (match tk_expires_at key with Some e => (e <? now)%Z | None => false end); [by left|].
    destruct (is_pinned inner (tk_key_id key)) eqn:Ep; [by left|].
    destruct (decode_verifying_key (tk_public_key key)) as [k|] eqn:Ek; [|by left].
    apply decode_verifying_key_ok in Ek as (bytes & -> & Ek).
    destruct (String.eqb_spec (compute_key_id bytes) (tk_key_id key)) as [E|]; cbn [negb]; [|by left].
    right; right. split_and!; [by rewrite <- is_pinned_spec, Ep|done|]. by exists k, bytes.
Qed.

(** What a manifest entry keeps: the invariant, the list of pinned roots, and
    everything about a pinned root. *)
Lemma add_manifest_key_keeps now inner key :
  TrustInv inner ->
  let inner' := add_manifest_key now inner key in
  TrustInv inner' /\ ts_pinned_roots inner' = ts_pinned_roots inner /\
  (forall id, id ∈ ts_pinned_roots inner ->
     ts_keys inner' !! id = ts_keys inner !! id /\ ts_metadata inner' !! id = ts_metadata inner !! id).
Proof.
  intros Hinv. cbv zeta.
  destruct (add_manifest_key_cases now inner key)
    as [->|[(Hp & _ & ->)|(Hp & _ & k & spki & Hk & Hid & ->)]]; [done|..];
    (assert (Hother : forall id, id ∈ ts_pinned_roots inner -> id <> tk_key_id key) by naive_solver);
    cbn; split_and!; try done.
  - split; cbn.
    + intros id k [_ Hk]%lookup_delete_Some. by apply (ti_ids _ Hinv).
    + intros id k [Hne Hk]%lookup_delete_Some. rewrite lookup_alter_ne by done.
      by apply (ti_metadata _ Hinv _ k).
    + intros id Hid. rewrite lookup_delete_ne, lookup_alter_ne by (apply not_eq_sym; auto).
      by apply (ti_pinned _ Hinv).
    + apply (ti_pinned_unique _ Hinv).
  - intros id Hid. by rewrite lookup_delete_ne, lookup_alter_ne by (apply not_eq_sym; auto).
  - split; cbn.
    + intros id k' [[<- <-]|[_ Hk']]%lookup_insert_Some; [by exists spki|]. by apply (ti_ids _ Hinv).
    + intros id k' [[<- <-]|[Hne Hk']]%lookup_insert_Some; [by rewrite lookup_insert_eq|].
      rewrite lookup_insert_ne by done. by apply (ti_metadata _ Hinv _ k').
    + intros id Hi. rewrite !lookup_insert_ne by (apply not_eq_sym; auto). by apply (ti_pinned _ Hinv).
    + apply (ti_pinned_unique _ Hinv).
  - intros id Hi. by rewrite !lookup_insert_ne by (apply not_eq_sym; auto).
Qed.

Lemma add_manifest_keys_keep now keys inner :
  TrustInv inner ->
  let inner' := foldl (add_manifest_key now) inner keys in
  TrustInv inner' /\ ts_pinned_roots inner' = ts_pinned_roots inner /\
  (forall id, id ∈ ts_pinned_roots inner ->
     ts_keys inner' !! id = ts_keys inner !! id /\ ts_metadata inner' !! id = ts_metadata inner !! id).
Proof.
  revert inner. induction keys as [|key keys IH]; intros inner Hinv; [done|]. cbn [foldl].
  destruct (add_manifest_key_keeps now inner key Hinv) as (Hinv1 & Hp1 & Hk1).
  destruct (IH _ Hinv1) as (Hinv2 & Hp2 & Hk2). rewrite Hp1 in *. split_and!; [done|done|].
  intros id Hid. destruct (Hk1 id Hid), (Hk2 id Hid). split; congruence.
Qed.

Lemma clear_keeps inner :
  TrustInv inner ->
  TrustInv (clear_cached_keys inner) /\
  (forall id, id ∈ ts_pinned_roots inner ->
     ts_keys (clear_cached_keys inner) !! id = ts_keys inner !! id /\
     ts_metadata (clear_cached_keys inner) !! id = ts_metadata inner !! id).
Proof.
  intros Hinv. unfold clear_cached_keys, retain.
  assert (Hk : forall {A} (m : gmap string A) id, id ∈ ts_pinned_roots inner ->
    filter (fun e => is_pinned inner (fst e) = true) m !! id = m !! id).
  { intros A m id Hid. apply option_eq. intros x. rewrite map_lookup_filter_Some. cbn.
    rewrite is_pinned_spec. naive_solver. }
  split; cbn; [split; cbn|].
  - intros id k [Hk' _]%map_lookup_filter_Some. by apply (ti_ids _ Hinv).
  - intros id k [Hk' Hp]%map_lookup_filter_Some. cbn in Hp. apply is_pinned_spec in Hp.
    rewrite (Hk _ _ _ Hp). by apply (ti_metadata _ Hinv _ k).
  - intros id Hid. rewrite !(Hk _ _ _ Hid). by apply (ti_pinned _ Hinv).
  - apply (ti_pinned_unique _ Hinv).
  - intros id Hid. by rewrite !(Hk _ _ _ Hid).
Qed.

Lemma pin_inv key inner inner' : TrustInv inner -> insert_pinned_key inner key = Ok inner' -> TrustInv inner'.
Proof.
  intros Hinv. unfold insert_pinned_key, prepare_pinned_key.
  destruct (decode_verifying_key (tk_public_key key)) as [k|] eqn:Ek; [|done].
  apply decode_verifying_key_ok in Ek as (bytes & -> & Ek).
  destruct (String.eqb_spec (compute_key_id bytes) (tk_key_id key)) as [E|]; [cbn [negb]|done].
  intros [= <-]. unfold insert_prepared_pinned_key. cbn [pp_key_id pp_verifying_key pp_metadata].
  assert (Hroots : ts_pinned_roots (inner
      <| ts_keys := <[tk_key_id key := k]> (ts_keys inner) |>
      <| ts_metadata := <[tk_key_id key := mkKeyMetadata (tk_description key) (tk_added_at key)
                            (tk_expires_at key) false true]> (ts_metadata inner) |>) =
    ts_pinned_roots inner) by done.
  assert (Hids : forall id k', <[tk_key_id key := k]> (ts_keys inner) !! id = Some k' ->
    exists spki, key_from_spki spki = Ok k' /\ id = compute_key_id spki).
  { intros id k' [[<- <-]|[_ Hk']]%lookup_insert_Some; [by exists bytes|]. by apply (ti_ids _ Hinv). }
  assert (Hpin : forall id, id ∈ ts_pinned_roots inner \/ id = tk_key_id key ->
    is_Some (<[tk_key_id key := k]> (ts_keys inner) !! id) /\
    exists meta, <[tk_key_id key := mkKeyMetadata (tk_description key) (tk_added_at key)
                      (tk_expires_at key) false true]> (ts_metadata inner) !! id = Some meta /\
      kmd_revoked meta = false /\ kmd_is_pinned meta = true).
  { intros id Hid. destruct (decide (id = tk_key_id key)) as [->|Hne].
    - rewrite !lookup_insert_eq. split; [done|]. by eexists.
    - rewrite !lookup_insert_ne by done. destruct Hid as [Hid|]; [by apply (ti_pinned _ Hinv)|done]. }
  assert (Hmeta : forall id k', <[tk_key_id key := k]> (ts_keys inner) !! id = Some k' ->
    is_Some (<[tk_key_id key := mkKeyMetadata (tk_description key) (tk_added_at key)
                 (tk_expires_at key) false true]> (ts_metadata inner) !! id)).
  { intros id k'. destruct (decide (id = tk_key_id key)) as [->|Hne]; [by rewrite !lookup_insert_eq|].
    rewrite !lookup_insert_ne by done. apply (ti_metadata _ Hinv). }
  unfold is_pinned. rewrite Hroots. fold (is_pinned inner (tk_key_id key)).
  destruct (is_pinned inner (tk_key_id key)) eqn:Ep; cbn [negb]; split; cbn; try done.
  - intros id Hid. apply Hpin. by left.
  - apply (ti_pinned_unique _ Hinv).
  - intros id Hid. apply Hpin. set_solver.
  - apply NoDup_app. split_and!; [apply (ti_pinned_unique _ Hinv)| |apply NoDup_singleton].
    intros id Hid ->%list_elem_of_singleton. apply is_pinned_spec in Hid. congruence.
Qed.

Lemma add_from_manifest_done now inner manifest inner' :
  add_from_manifest now inner manifest = Done inner' ->
  let m := foldl (add_manifest_key now) inner (km_keys manifest) in
  ts_keys inner' = ts_keys m /\ ts_metadata inner' = ts_metadata m /\
  ts_pinned_roots inner' = ts_pinned_roots m.
Proof.
  unfold add_from_manifest. destruct (duration_seconds _) as [ttl|]; cbn; [|done].
  destruct (datetime_add now ttl); cbn; [|done]. by intros [= <-].
Qed.

Lemma manifest_keeps now inner manifest inner' :
  TrustInv inner -> add_from_manifest now inner manifest = Done inner' ->
  TrustInv inner' /\ ts_pinned_roots inner' = ts_pinned_roots inner /\
  (forall id, id ∈ ts_pinned_roots inner ->
     ts_keys inner' !! id = ts_keys inner !! id /\ ts_metadata inner' !! id = ts_metadata inner !! id).
Proof.
  intros Hinv Hm. apply add_from_manifest_done in Hm as (Hk & Hmd & Hp).
  destruct (add_manifest_keys_keep now (km_keys manifest) inner Hinv) as (Hinv' & Hp' & Hkeep).
  rewrite <- Hp in Hp'. rewrite Hk, Hmd. split_and!; [|done|done].
  destruct Hinv'. split; rewrite ?Hk, ?Hmd, ?Hp; done.
Qed.

Lemma trust_step_inv inner inner' : TrustStep inner inner' -> TrustInv inner -> TrustInv inner'.
Proof.
  intros [now manifest i i' Hm|i|key i i' Hp] Hinv.
  - by apply (manifest_keeps now i manifest i').
  - by apply clear_keeps.
  - by eapply pin_inv.
Qed.

Lemma empty_inv : TrustInv empty_inner.
Proof.
  split; cbn.
  - intros id k Hk. by rewrite lookup_empty in Hk.
  - intros id k Hk. by rewrite lookup_empty in Hk.
  - intros id Hid. by inversion Hid.
  - constructor.
Qed.

(** Whatever pinned roots, manifests and clearings a store has seen, each key
    it holds is named by the hash of its public key and has metadata, and every
    pinned root is still there, marked and not revoked.  A manifest cannot bind
    an id to a key of its own. *)
Theorem trust_store_invariant inner : rtc TrustStep empty_inner inner -> TrustInv inner.
Proof.
  assert (Hind : forall i, rtc TrustStep i inner -> TrustInv i -> TrustInv inner).
  { intros i Hr. induction Hr as [|x y z Hs _ IH]; [done|]. intros Hi.
    by apply IH, (trust_step_inv x y). }
  intros Hr. apply (Hind empty_inner Hr), empty_inv.
Qed.

(** What the registry can do to a store: send manifests; the client may clear. *)
Inductive RemoteStep : TrustStoreInner -> TrustStoreInner -> Prop :=
| rs_manifest now manifest inner inner' :
    add_from_manifest now inner manifest = Done inner' -> RemoteStep inner inner'
| rs_clear inner : RemoteStep inner (clear_cached_keys inner).

(** C20: a pinned root cannot be revoked, replaced or re-dated remotely: after any
    sequence of manifests and clearings, asking for it at any time gives what
    it gave before. *)
Theorem pinned_root_irrevocable inner inner' id now :
  TrustInv inner -> rtc RemoteStep inner inner' -> id ∈ ts_pinned_roots inner ->
  get_key_inner inner' now id = get_key_inner inner now id.
Proof.
  intros Hinv Hr. induction Hr as [|x y z Hs _ IH]; intros Hid; [done|].
  assert (Hy : TrustInv y /\ id ∈ ts_pinned_roots y /\ ts_keys y !! id = ts_keys x !! id /\
               ts_metadata y !! id = ts_metadata x !! id).
  { destruct Hs as [t manifest i i' Hm|i].
    - destruct (manifest_keeps t i manifest i' Hinv Hm) as (? & Hp & Hk).
      destruct (Hk id Hid). by rewrite Hp.
    - destruct (clear_keeps i Hinv) as [? Hk]. by destruct (Hk id Hid). }
  destruct Hy as (Hy & Hp & Hk & Hm). rewrite (IH Hy Hp). unfold get_key_inner. by rewrite Hk, Hm.
Qed.

(** A revocation takes effect: when every entry of a manifest for a key that
    is not pinned says revoked, and there is one, the key is not trusted
    afterwards, at any time. *)
Theorem revocation_effective now inner manifest inner' id t :
  TrustInv inner -> add_from_manifest now inner manifest = Done inner' ->
  id ∉ ts_pinned_roots inner ->
  (exists key, key ∈ km_keys manifest /\ tk_key_id key = id) ->
  (forall key, key ∈ km_keys manifest -> tk_key_id key = id -> tk_revoked key = true) ->
  get_key_inner inner' t id = Err (KeyNotTrusted id).
Proof.
  intros Hinv Hm Hid (key0 & Hin & Hkey0) Hall.
  apply add_from_manifest_done in Hm as (Hk & _). cbv zeta in Hk.
  assert (Hgone : ts_keys (foldl (add_manifest_key now) inner (km_keys manifest)) !! id = None).
  { revert Hinv Hid Hin Hall. clear Hk. generalize (km_keys manifest) as keys. intros keys.
    assert (Hstay : forall keys i, TrustInv i -> id ∉ ts_pinned_roots i ->
      (forall key, key ∈ keys -> tk_key_id key = id -> tk_revoked key = true) ->
      ts_keys i !! id = None -> ts_keys (foldl (add_manifest_key now) i keys) !! id = None).
    { clear keys. induction keys as [|key keys IH]; intros i Hi Hp Hr Hn; [done|]. cbn [foldl].
      destruct (add_manifest_key_keeps now i key Hi) as (Hi' & Hp' & _).
      apply IH; [done|by rewrite Hp'|set_solver|].
      destruct (add_manifest_key_cases now i key)
        as [->|[(_ & _ & ->)|(_ & Hnr & k & spki & _ & _ & ->)]]; [done|..]; cbn.
      - by apply lookup_delete_None; right.
      - rewrite lookup_insert_ne; [done|]. intros E.
        rewrite (Hr key) in Hnr; [done|by left|done]. }
    revert inner. induction keys as [|key keys IH]; intros i Hi Hp Hin Hall; [by inversion Hin|].
    cbn [foldl]. destruct (add_manifest_key_keeps now i key Hi) as (Hi' & Hp' & _).
    apply elem_of_cons in Hin as [<-|Hin].
    - apply Hstay; [done|by rewrite Hp'|set_solver|]. unfold add_manifest_key.
      rewrite (Hall key0) by (by left || done).
      replace (is_pinned i (tk_key_id key0)) with false.
      2:{ symmetry. apply not_true_is_false. by rewrite is_pinned_spec, Hkey0. }
      cbn. rewrite Hkey0. apply lookup_delete_eq.
    - apply IH; [done|by rewrite Hp'|done|set_solver]. }
  unfold get_key_inner. by rewrite Hk, Hgone.
Qed.

End Store.

(** ** Checking a pack *)

Section Verify.
Context `{Platform} `{YamlReader} `{PackCrypto}.
Context {S : Type} `{!Clock S}.

(** [sig] signs [pae] under a key trusted when the clock was read. *)
Definition SignedBy (trust_store : TrustStoreInner) (pae : string) (sig : DsseSignature) : Prop :=
  exists (s s' : S) now key bytes signature,
    read_clock s = (Done now, s') /\
    get_key_inner trust_store now (ds_key_id sig) = Ok key /\
    base64_decode (ds_signature sig) = Ok bytes /\
    signature_from_slice bytes = Ok signature /\
    ed25519_verify key pae signature = true.

Lemma verify_single_signature_ok pae id b64 trust_store s s' :
  verify_single_signature pae id b64 trust_store s = (Done (Ok ()), s') ->
  SignedBy trust_store pae (mkDsseSignature id b64).
Proof.
  unfold verify_single_signature. intros (key & s1 & Hget & Hrest)%try_bind_inv.
  unfold get_key, mbind, M_bind, mret, M_ret in Hget.
  destruct (read_clock s) as [[now|] s0] eqn:Ec; [|done]. injection Hget as Hget _.
  unfold mret, M_ret in Hrest. injection Hrest as Hrest _.
  destruct (base64_decode b64) as [bytes|] eqn:Eb; [|done].
  destruct (signature_from_slice bytes) as [signature|] eqn:Es; [|done].
  destruct (ed25519_verify key pae signature) eqn:Ev; [|done].
  by exists s, s0, now, key, bytes, signature.
Qed.

Lemma any_signature_ok pae signatures trust_store last s s' :
  any_signature pae signatures trust_store last s = (Done (Ok ()), s') ->
  exists sig, sig ∈ signatures /\ SignedBy trust_store pae sig.
Proof.
  revert last s. induction signatures as [|[id b64] signatures IH]; intros last s; cbn [any_signature]; [done|].
  unfold mbind, M_bind, mret, M_ret. cbn [ds_key_id ds_signature].
  destruct (verify_single_signature pae id b64 trust_store s) as [[[[]|e]|] s1] eqn:E; [|..|done].
  - intros _. exists (mkDsseSignature id b64). split; [by left|]. by eapply verify_single_signature_ok.
  - intros (sig & Hin & Hs)%IH. exists sig. split; [by right|done].
Qed.

Lemma decode_bounded_ok b64 bytes :
  decode_bounded b64 = Ok (Some bytes) ->
  base64_decode b64 = Ok bytes /\ (str_len bytes <= MAX_DSSE_PAYLOAD_BYTES)%Z.
Proof.
  unfold decode_bounded. destruct (_ <? str_len b64)%Z; [done|].
  destruct (base64_decode b64) as [d|]; [|done].
  destruct (MAX_DSSE_PAYLOAD_BYTES <? str_len d)%Z eqn:E; [done|]. intros [= ->].
  split; [done|]. by apply Z.ltb_ge.
Qed.

(** The canonical bytes of [content] are the payload of [envelope], and one of
    its signatures covers them. *)
Definition EnvelopeSigns (trust_store : TrustStoreInner) (content : string)
    (envelope : DsseEnvelope) : Prop :=
  exists value bytes sig,
    parse_yaml_strict content = Done (Ok value) /\
    to_canonical_jcs_bytes value = Ok bytes /\
    env_payload_type envelope = PAYLOAD_TYPE_PACK_V1 /\
    base64_decode (env_payload envelope) = Ok bytes /\
    (str_len bytes <= MAX_DSSE_PAYLOAD_BYTES)%Z /\
    sig ∈ env_signatures envelope /\
    SignedBy trust_store (build_pae PAYLOAD_TYPE_PACK_V1 bytes) sig.

Lemma verify_dsse_signature_ok content envelope trust_store s s' :
  verify_dsse_signature content envelope trust_store s = (Done (Ok ()), s') ->
  EnvelopeSigns trust_store content envelope.
Proof.
  unfold verify_dsse_signature. intros (bytes & s1 & Hc & Hv)%try_bind_inv.
  unfold lift in Hc. injection Hc as Hc _. unfold canonicalize_for_dsse in Hc.
  destruct (parse_yaml_strict content) as [[value|]|] eqn:Ep; try done.
  destruct (to_canonical_jcs_bytes value) as [b|] eqn:Ej; [|done]. injection Hc as ->.
  unfold verify_dsse_signature_bytes in Hv.
  destruct (String.eqb_spec (env_payload_type envelope) PAYLOAD_TYPE_PACK_V1) as [Et|]; [|done].
  cbn [negb] in Hv.
  destruct (decode_bounded (env_payload envelope)) as [[d|]|] eqn:Ed; try done.
  apply decode_bounded_ok in Ed as [Ed Hl].
  destruct (String.eqb_spec d bytes) as [->|]; [|done]. cbn [negb] in Hv.
  destruct (is_nil (env_signatures envelope)); [done|].
  apply any_signature_ok in Hv as (sig & Hin & Hs). rewrite Et in Hs.
  by exists value, bytes, sig.
Qed.

Lemma verify_pack_ok result trust_store options (s s' : S) v :
  verify_pack result trust_store options s = (Done (Ok v), s') ->
  vr_digest v = fr_computed_digest result /\
  (forall d, ph_digest (fr_headers result) = Some d -> d = fr_computed_digest result) /\
  vr_signed v = opt_is_some (ph_signature (fr_headers result)) /\
  match ph_signature (fr_headers result) with
  | None => vo_allow_unsigned options = true
  | Some b64 =>
      vo_skip_signature options = true \/
      exists envelope, parse_dsse_envelope b64 = Ok envelope /\
        EnvelopeSigns trust_store (fr_content result) envelope
  end.
Proof.
  unfold verify_pack. intros Hv.
  assert (Hd : forall d, ph_digest (fr_headers result) = Some d -> d = fr_computed_digest result).
  { intros d Ed. rewrite Ed in Hv.
    by destruct (String.eqb_spec d (fr_computed_digest result)) as [E|]. }
  destruct (ph_digest (fr_headers result)) as [d|];
    [rewrite (Hd d eq_refl), String.eqb_refl in Hv; cbn [negb] in Hv|];
    (destruct (ph_signature (fr_headers result)) as [b64|];
      [destruct (vo_skip_signature options);
        [injection Hv as <- _; auto|]
      |destruct (vo_allow_unsigned options); [|done]; injection Hv as <- _; auto]);
    apply try_bind_inv in Hv as (envelope & s1 & He & Hv);
    injection He as He _;
    apply try_bind_inv in Hv as ([] & s2 & Hs & Hv);
    injection Hv as <- _;
    (split_and!; [done|done|done|]); right; exists envelope;
    (split; [done|]); by eapply verify_dsse_signature_ok.
Qed.

(** C19: what an accepted pack guarantees: the digest reported is the one computed
    and the header's, if sent, agrees; a pack without a signature passes only
    when unsigned packs are allowed, and is reported unsigned; with one, unless
    the check is skipped, the envelope's payload is the canonical form of the
    content and one of its signatures covers it under a trusted key, both under
    the payload type [application/vnd.assay.pack+yaml;v=1] (the specification
    of the registry requires [application/vnd.assay.pack.v1+jcs]). *)
Theorem verify_pack_sound result trust_store options (s s' : S) v :
  verify_pack result trust_store options s = (Done (Ok v), s') ->
  vr_digest v = fr_computed_digest result /\
  (forall d, ph_digest (fr_headers result) = Some d -> d = fr_computed_digest result) /\
  vr_signed v = opt_is_some (ph_signature (fr_headers result)) /\
  match ph_signature (fr_headers result) with
  | None => vo_allow_unsigned options = true
  | Some b64 =>
      vo_skip_signature options = true \/
      exists envelope, parse_dsse_envelope b64 = Ok envelope /\
        EnvelopeSigns trust_store (fr_content result) envelope
  end.
Proof. apply verify_pack_ok. Qed.

End Verify.
