(* ===== verification/RegistryClient.v ===== *)
(** * The registry client

    [assay-registry/src/client/], [auth.rs], [auth_next/] and the configuration
    and responses of [types.rs]: requests with retries, the mapping of status
    codes, the fetches of packs, keys, versions and signatures, and the tokens
    they carry.  HTTP, timers and randomness are the class [Web], reading JSON
    the class [RegistrySerde]; the cached token is a component of the state. *)
From stdpp Require Import base tactics list strings gmap pretty.
From Stdlib Require Import Ascii ZArith Lia.
From S2P Require Import Prelude RustStr Json Platform PackRef PackYaml PackTrust.

(** ** types.rs *)

Record PackMeta : Type := mkPackMeta {
  pm_name : string;
  pm_version : string;
  pm_description : option string;
  pm_digest : string;
  pm_size : option Z;
  pm_published_at : option Z;
  pm_signed : bool;
  pm_key_id : option string;
  pm_deprecated : bool;
  pm_deprecation_message : option string
}.

Record VersionInfo : Type := mkVersionInfo {
  vi_version : string;
  vi_digest : string;
  vi_published_at : option Z;
  vi_deprecated : bool
}.

Record VersionsResponse : Type := mkVersionsResponse {
  vs_name : string;
  vs_versions : list VersionInfo
}.

Record RegistryConfig : Type := mkRegistryConfig {
  rc_url : string;
  rc_token : option string;
  rc_allow_unsigned : bool;
  rc_timeout_secs : Z;
  rc_max_retries : Z
}.

Definition default_registry_url : string := "https://registry.getassay.dev/v1".
Definition default_timeout : Z := 30.
Definition default_max_retries : Z := 3.

Definition parse_u64 (s : string) : option Z := parse_unsigned u64_max s.

(** An environment: the value of each variable that is set and is UTF-8. *)
Definition flag_set (env : string -> option string) (name : string) : bool :=
  match env name with
  | Some v => String.eqb v "1" || eq_ignore_ascii_case v "true"
  | None => false
  end.

Definition config_from_env (env : string -> option string) : RegistryConfig :=
  mkRegistryConfig
    (default default_registry_url (env "ASSAY_REGISTRY_URL"))
    (env "ASSAY_REGISTRY_TOKEN")
    (flag_set env "ASSAY_ALLOW_UNSIGNED_PACKS")
    (default default_timeout (v ← env "ASSAY_REGISTRY_TIMEOUT"; parse_u64 v))
    (default default_max_retries
       (v ← env "ASSAY_REGISTRY_MAX_RETRIES"; parse_unsigned u32_max v)).

(** ** HTTP *)

Inductive Method : Type := GET | HEAD | POST.

Record WebRequest : Type := mkWebRequest {
  wq_method : Method;
  wq_url : string;
  wq_headers : list (string * string);
  wq_body : option Value
}.

(** A header is seen when it is visible ASCII; reading the body may fail. *)
Record WebResponse : Type := mkWebResponse {
  wr_status : Z;
  wr_status_text : string;
  wr_header : string -> option string;
  wr_text : Result string string
}.

(** [gen_range_ms n] draws from [0..=n]; [jittered_ms n] is [n] times a factor
    drawn from [0.9..=1.1], rounded. *)
Class Web (S : Type) : Type := {
  web_send : WebRequest -> M S (Result WebResponse string);
  web_sleep_ms : Z -> M S ();
  gen_range_ms : Z -> M S Z;
  jittered_ms : Z -> M S Z
}.

(** [serde_json]; the errors are their [Display]. *)
Class RegistrySerde : Type := {
  value_from_str : string -> option Value;
  versions_from_json : string -> Result VersionsResponse string;
  keys_from_json : string -> Result KeysManifest string;
  oidc_value_from_json : string -> Result string string;
  (** [access_token] and [expires_in]. *)
  registry_token_from_json : string -> Result (string * Z) string
}.

Definition is_success (status : Z) : bool := ((200 <=? status) && (status <=? 299))%Z.

(** [response.json()]. *)
Definition response_json {A} (parse : string -> Result A string) (r : WebResponse)
    : Result A string :=
  match wr_text r with
  | Ok text => parse text
  | Err e => Err e
  end.

Definition from_headers (header : string -> option string) : PackHeaders :=
  mkPackHeaders
    (header "x-pack-digest")
    (header "x-pack-signature")
    (header "x-pack-key-id")
    (header "etag")
    (header "cache-control")
    (v ← header "content-length"; parse_u64 v).

(** ** client/helpers.rs *)

Definition strip_suffix (s p : string) : string :=
  if ends_with s p then str_take (String.length s - String.length p) s else s.

Definition parse_pack_url (url : string) : string * string :=
  let path := default url (head (str_split "?"%char url)) in
  let path := strip_suffix path ".sig" in
  let parts := str_split "/"%char path in
  let len := length parts in
  if 2 <=? len
  then (default "unknown" (parts !! (len - 2)), default "unknown" (parts !! (len - 1)))
  else ("unknown", "unknown").

Definition parse_revocation_body `{RegistrySerde} (body : string) (header_reason : option string)
    : string * option string :=
  match value_from_str body with
  | Some json =>
      let reason :=
        default "no reason provided"
          (option_or (v ← vget json "reason"; as_str v) header_reason) in
      (reason, v ← vget json "safe_version"; as_str v)
  | None =>
      (match header_reason with
       | Some reason => reason
       | None =>
           if str_is_empty body then "no reason provided" else str_concat (take 200 (chars body))
       end, None)
  end.

(** ** auth.rs *)

Record CachedToken : Type := mkCachedToken { ct_token : string; ct_expires_at : Z }.

Record OidcProvider : Type := mkOidcProvider {
  op_token_request_url : string;
  op_request_token : string;
  op_registry_exchange_url : string;
  op_audience : string
}.

(** The cached token of an OIDC provider is in the state: [TokenCell]. *)
Inductive TokenProvider : Type :=
| StaticToken (token : string)
| NoToken
| Oidc (provider : OidcProvider).

Class TokenCell (S : Type) : Type := {
  cached_token : S -> option CachedToken;
  set_cached_token : option CachedToken -> S -> S
}.

(** *** oidc.rs, providers.rs: construction *)

Definition from_github_actions (env : string -> option string) : RegistryResult OidcProvider :=
  match env "ACTIONS_ID_TOKEN_REQUEST_URL" with
  | None =>
      Err (ConfigError "ACTIONS_ID_TOKEN_REQUEST_URL not set - not in GitHub Actions or id-token permission not granted")
  | Some token_request_url =>
      match env "ACTIONS_ID_TOKEN_REQUEST_TOKEN" with
      | None => Err (ConfigError "ACTIONS_ID_TOKEN_REQUEST_TOKEN not set")
      | Some request_token =>
          let registry_base := default default_registry_url (env "ASSAY_REGISTRY_URL") in
          Ok (mkOidcProvider token_request_url request_token
                (trim_end_matches "/"%char registry_base +:+ "/auth/oidc/exchange")
                "https://registry.getassay.dev")
      end
  end.

Definition token_from_env (env : string -> option string) : TokenProvider :=
  let oidc :=
    if flag_set env "ASSAY_REGISTRY_OIDC" then
      match from_github_actions env with Ok provider => Oidc provider | Err _ => NoToken end
    else NoToken in
  match env "ASSAY_REGISTRY_TOKEN" with
  | Some token => if negb (str_is_empty token) then StaticToken token else oidc
  | None => oidc
  end.

Definition is_authenticated (provider : TokenProvider) : bool :=
  match provider with NoToken => false | _ => true end.

Definition github_oidc_request_url (provider : OidcProvider) : string :=
  op_token_request_url provider +:+ "&audience=" +:+ op_audience provider.

Definition bearer (token : string) : string := "Bearer " +:+ token.

(** ** Requests *)

Section Client.
Context `{Platform} `{YamlReader} `{PackCrypto} `{RegistrySerde}.
Context {S : Type} `{!Clock S} `{!Web S} `{!TokenCell S}.

(** *** auth_next/oidc.rs *)

Definition get_github_oidc_token (provider : OidcProvider) : M S (RegistryResult string) :=
  sent ← web_send
    (mkWebRequest GET (github_oidc_request_url provider)
       [("Authorization", bearer (op_request_token provider));
        ("Accept", "application/json; api-version=2.0");
        ("Content-Type", "application/json")] None);
  mret
    (match sent with
     | Err error => Err (NetworkError ("failed to request GitHub OIDC token: " +:+ error))
     | Ok response =>
         if negb (is_success (wr_status response)) then
           let body := match wr_text response with Ok body => body | Err _ => EmptyString end in
           Err (Unauthorized ("GitHub OIDC request failed: HTTP " +:+ wr_status_text response
                              +:+ " - " +:+ body))
         else
           match response_json oidc_value_from_json response with
           | Ok value => Ok value
           | Err error => Err (InvalidResponse ("failed to parse GitHub OIDC response: " +:+ error))
           end
     end).

(** [u64 as i64]. *)
Definition cache_token (token : string) (expires_in : Z) : M S () :=
  now ← read_clock;
  ttl ← lift (duration_seconds (i64_wrap expires_in));
  expires_at ← lift (datetime_add now ttl);
  modify (set_cached_token (Some (mkCachedToken token expires_at))).

Definition exchange_body (oidc_token : string) : Value :=
  Obj [("token", Str oidc_token);
       ("grant_type", Str "urn:ietf:params:oauth:grant-type:token-exchange");
       ("subject_token_type", Str "urn:ietf:params:oauth:token-type:jwt")].

Definition exchange_for_registry_token (provider : OidcProvider) (oidc_token : string)
    : M S (RegistryResult string) :=
  sent ← web_send
    (mkWebRequest POST (op_registry_exchange_url provider) [] (Some (exchange_body oidc_token)));
  match sent with
  | Err error => mret (Err (NetworkError ("failed to exchange token: " +:+ error)))
  | Ok response =>
      if (wr_status response =? 401)%Z then
        mret (Err (Unauthorized "OIDC token exchange failed: unauthorized"))
      else if negb (is_success (wr_status response)) then
        let body := match wr_text response with Ok body => body | Err _ => EmptyString end in
        mret (Err (NetworkError ("token exchange failed: HTTP " +:+ wr_status_text response
                                 +:+ " - " +:+ body)))
      else
        match response_json registry_token_from_json response with
        | Err error =>
            mret (Err (InvalidResponse ("failed to parse registry token response: " +:+ error)))
        | Ok (access_token, expires_in) =>
            _ ← cache_token access_token expires_in;
            mret (Ok access_token)
        end
  end.

Definition exchange_token (provider : OidcProvider) : M S (RegistryResult string) :=
  oidc_token ←? get_github_oidc_token provider;
  exchange_for_registry_token provider oidc_token.

(** [more]: how many retries remain; the backoff is [2^retries] seconds, at most 30. *)
Fixpoint exchange_loop (provider : OidcProvider) (more retries : nat) : M S (RegistryResult string) :=
  r ← exchange_token provider;
  match r, more with
  | Ok token, _ => mret (Ok token)
  | Err e, O => mret (Err e)
  | Err _, Datatypes.S more =>
      let retries := Datatypes.S retries in
      _ ← web_sleep_ms (Z.min (2 ^ Z.of_nat retries) 30 * 1000)%Z;
      exchange_loop provider more retries
  end.

Definition exchange_token_with_retry (provider : OidcProvider) : M S (RegistryResult string) :=
  exchange_loop provider 3 0.

(** *** auth_next/cache.rs *)

Definition REFRESH_BUFFER_SECS : Z := 90.

Definition oidc_get_token (provider : OidcProvider) : M S (RegistryResult (option string)) :=
  state ← get_state;
  let refresh :=
    token ←? exchange_token_with_retry provider;
    mret (Ok (Some token)) in
  match cached_token state with
  | Some cached =>
      buffer ← lift (duration_seconds REFRESH_BUFFER_SECS);
      now ← read_clock;
      threshold ← lift (datetime_add now buffer);
      if (threshold <? ct_expires_at cached)%Z then mret (Ok (Some (ct_token cached)))
      else refresh
  | None => refresh
  end.

Definition clear_token_cache : M S () := modify (set_cached_token None).

Definition get_token (provider : TokenProvider) : M S (RegistryResult (option string)) :=
  match provider with
  | StaticToken token => mret (Ok (Some token))
  | NoToken => mret (Ok None)
  | Oidc provider => oidc_get_token provider
  end.

(** *** client/http.rs *)

Record RegistryClient : Type := mkRegistryClient {
  cl_base_url : string;
  cl_token_provider : TokenProvider;
  cl_config : RegistryConfig
}.

(** The client's constructor; [reqwest]'s builder may fail. *)
Definition with_token_provider (built : Result () string) (config : RegistryConfig)
    (token_provider : TokenProvider) : RegistryResult RegistryClient :=
  match built with
  | Err e => Err (NetworkError ("failed to create HTTP client: " +:+ e))
  | Ok _ =>
      Ok (mkRegistryClient (trim_end_matches "/"%char (rc_url config)) token_provider config)
  end.

Definition client_new (env : string -> option string) (built : Result () string)
    (config : RegistryConfig) : RegistryResult RegistryClient :=
  with_token_provider built config
    (match rc_token config with
     | Some token => StaticToken token
     | None => token_from_env env
     end).

(** The response's error, by status. *)
Definition status_result (url : string) (response : WebResponse) : RegistryResult WebResponse :=
  let status := wr_status response in
  if is_success status || (status =? 304)%Z then Ok response
  else if (status =? 401)%Z then Err (Unauthorized "invalid or expired token")
  else if (status =? 404)%Z then
    let '(name, version) := parse_pack_url url in Err (NotFound name version)
  else if (status =? 410)%Z then
    let '(name, version) := parse_pack_url url in
    let header_reason := wr_header response "x-revocation-reason" in
    let '(reason, safe_version) :=
      match wr_text response with
      | Ok body_text => parse_revocation_body body_text header_reason
      | Err _ => (default "no reason provided" header_reason, None)
      end in
    Err (Revoked name version reason safe_version)
  else if (status =? 429)%Z then
    Err (RateLimited (v ← wr_header response "retry-after"; parse_u64 v))
  else
    let message := match wr_text response with Ok m => m | Err _ => wr_status_text response end in
    Err (NetworkError ("HTTP " +:+ fmt_int status +:+ ": " +:+ message)).

Definition request_once (client : RegistryClient) (method : Method) (url : string)
    (etag : option string) : M S (RegistryResult WebResponse) :=
  token ←? get_token (cl_token_provider client);
  let auth := match token with Some token => [("authorization", bearer token)] | None => [] end in
  let conditional := match etag with Some etag => [("if-none-match", etag)] | None => [] end in
  sent ← web_send (mkWebRequest method url (auth ++ conditional) None);
  mret
    (match sent with
     | Err e => Err (NetworkError e)
     | Ok response => status_result url response
     end).

(** The shift of a [u64] by [retries] drops the bits that leave the word and
    masks the amount to six bits. *)
Definition backoff_secs (retries : nat) : Z :=
  (2 ^ (Z.of_nat retries mod 64))%Z.

Definition backoff_ms (e : RegistryError) (retries : nat) : M S Z :=
  match e with
  | RateLimited (Some retry_after) =>
      jittered ← jittered_ms (Z.min retry_after 30 * 1000)%Z;
      mret (Z.max jittered 100)
  | _ =>
      jittered ← gen_range_ms (Z.min (backoff_secs retries) 30 * 1000)%Z;
      mret (Z.max jittered 10)
  end.

Fixpoint request_loop (client : RegistryClient) (method : Method) (url : string)
    (etag : option string) (more retries : nat) : M S (RegistryResult WebResponse) :=
  r ← request_once client method url etag;
  match r, more with
  | Ok response, _ => mret (Ok response)
  | Err e, O => mret (Err e)
  | Err e, Datatypes.S more =>
      if is_retryable e then
        let retries := Datatypes.S retries in
        backoff ← backoff_ms e retries;
        _ ← web_sleep_ms backoff;
        request_loop client method url etag more retries
      else mret (Err e)
  end.

Definition request (client : RegistryClient) (method : Method) (url : string)
    (etag : option string) : M S (RegistryResult WebResponse) :=
  request_loop client method url etag (Z.to_nat (rc_max_retries (cl_config client))) 0.

(** [None] is [PackOutcome::NotModified]. *)
Definition http_fetch_pack (client : RegistryClient) (url : string) (etag : option string)
    : M S (RegistryResult (option (PackHeaders * string))) :=
  response ←? request client GET url etag;
  mret
    (if (wr_status response =? 304)%Z then Ok None
     else
       let headers := from_headers (wr_header response) in
       match wr_text response with
       | Ok content => Ok (Some (headers, content))
       | Err e => Err (NetworkError ("failed to read response body: " +:+ e))
       end).

(** [None] is [SignatureOutcome::Missing]. *)
Definition fetch_signature_optional (client : RegistryClient) (url : string)
    : M S (RegistryResult (option string)) :=
  r ← request client GET url None;
  mret
    (match r with
     | Ok response =>
         match wr_text response with
         | Ok text => Ok (Some text)
         | Err e => Err (NetworkError ("failed to read signature body: " +:+ e))
         end
     | Err (NotFound _ _) => Ok None
     | Err e => Err e
     end).

(** *** client/mod.rs *)

Definition pack_url (client : RegistryClient) (name version : string) : string :=
  cl_base_url client +:+ "/packs/" +:+ name +:+ "/" +:+ version.
Definition signature_url (client : RegistryClient) (name version : string) : string :=
  cl_base_url client +:+ "/packs/" +:+ name +:+ "/" +:+ version +:+ ".sig".

Definition get_pack_meta (client : RegistryClient) (name version : string)
    : M S (RegistryResult PackMeta) :=
  response ←? request client HEAD (pack_url client name version) None;
  let headers := from_headers (wr_header response) in
  mret (Ok (mkPackMeta name version None (default EmptyString (ph_digest headers))
              (ph_content_length headers) None (opt_is_some (ph_signature headers))
              (ph_key_id headers) false None)).

Definition fetch_pack (client : RegistryClient) (name version : string) (etag : option string)
    : M S (RegistryResult (option FetchResult)) :=
  outcome ←? http_fetch_pack client (pack_url client name version) etag;
  match outcome with
  | None => mret (Ok None)
  | Some (headers, content) =>
      computed_digest ← lift (compute_digest content);
      mret (Ok (Some (mkFetchResult content headers computed_digest)))
  end.

Definition fetch_json {A} (parse : string -> Result A string) (what : string)
    (client : RegistryClient) (url : string) : M S (RegistryResult A) :=
  response ←? request client GET url None;
  mret
    (match response_json parse response with
     | Ok value => Ok value
     | Err e => Err (InvalidResponse ("failed to parse " +:+ what +:+ ": " +:+ e))
     end).

Definition list_versions (client : RegistryClient) (name : string)
    : M S (RegistryResult VersionsResponse) :=
  fetch_json versions_from_json "versions response" client
    (cl_base_url client +:+ "/packs/" +:+ name +:+ "/versions").

Definition fetch_keys (client : RegistryClient) : M S (RegistryResult KeysManifest) :=
  fetch_json keys_from_json "keys manifest" client (cl_base_url client +:+ "/keys").

Definition fetch_signature (client : RegistryClient) (name version : string)
    : M S (RegistryResult (option DsseEnvelope)) :=
  outcome ←? fetch_signature_optional client (signature_url client name version);
  mret
    (match outcome with
     | None => Ok None
     | Some text =>
         match dsse_from_json text with
         | Ok envelope => Ok (Some envelope)
         | Err e => Err (InvalidResponse ("failed to parse signature envelope: " +:+ e))
         end
     end).

Definition fetch_pack_with_signature (client : RegistryClient) (name version : string)
    (etag : option string) : M S (RegistryResult (option (FetchResult * option DsseEnvelope))) :=
  pack_result ←? fetch_pack client name version etag;
  match pack_result with
  | None => mret (Ok None)
  | Some fetch =>
      signature ←? fetch_signature client name version;
      mret (Ok (Some (fetch, signature)))
  end.

End Client.
