(* ===== verification/RegistryClientCorrect.v ===== *)
(** * The registry client: theorems

    How often a request is attempted and which answer it gives; when a cached
    token is used; how long the client pauses; what a status means. *)
From stdpp Require Import base tactics list strings gmap pretty.
From Stdlib Require Import Ascii ZArith Lia.
From S2P Require Import Prelude RustStr Json Platform PackRef PackYaml PackTrust RegistryClient.

Section Client.
Context `{Platform} `{YamlReader} `{PackCrypto} `{RegistrySerde}.
Context {S : Type} `{!Clock S} `{!Web S} `{!TokenCell S}.

(** ** Retries

    [Attempts k n s s']: from [s], attempts [k+1 .. k+n] each failed with an error
    worth retrying and were followed by their pause, reaching [s']. *)
Inductive Attempts (client : RegistryClient) (method : Method) (url : string) (etag : option string)
    : nat -> nat -> S -> S -> Prop :=
| attempts_none k s : Attempts client method url etag k 0 s s
| attempts_more k n s s1 s2 s3 s4 e pause :
    request_once client method url etag s = (Done (Err e), s1) ->
    is_retryable e = true ->
    backoff_ms e (Datatypes.S k) s1 = (Done pause, s2) ->
    web_sleep_ms pause s2 = (Done (), s3) ->
    Attempts client method url etag (Datatypes.S k) n s3 s4 ->
    Attempts client method url etag k (Datatypes.S n) s s4.

(** The answer of an attempt ends the request. *)
Definition Final (r : RegistryResult WebResponse) (last : Prop) : Prop :=
  match r with
  | Ok _ => True
  | Err e => is_retryable e = false \/ last
  end.

Lemma request_loop_iff client method url etag more k s r s' :
  request_loop client method url etag more k s = (Done r, s') <->
  exists n s0, n <= more /\ Attempts client method url etag k n s s0 /\
    request_once client method url etag s0 = (Done r, s') /\ Final r (n = more).
Proof.
  revert k s. induction more as [|more IH]; intros k s; cbn [request_loop].
  - unfold mbind, M_bind. split.
    + destruct (request_once _ _ _ _ s) as [[[resp|e]|] s1] eqn:E; [| |done];
        intros [= <- <-]; exists 0, s;
        (split_and!; [lia|apply attempts_none|done|cbn; auto]).
    + intros (n & s0 & Hn & Ha & Hr & _). assert (n = 0) as -> by lia.
      inversion Ha; subst. rewrite Hr. by destruct r.
  - unfold mbind, M_bind. split.
    + destruct (request_once _ _ _ _ s) as [[[resp|e]|] s1] eqn:E; [| |done].
      { intros [= <- <-]. exists 0, s. split_and!; [lia|apply attempts_none|done|done]. }
      destruct (is_retryable e) eqn:Er.
      2:{ intros [= <- <-]. exists 0, s. split_and!; [lia|apply attempts_none|done|by left]. }
      destruct (backoff_ms e (Datatypes.S k) s1) as [[pause|] s2] eqn:Eb; [|done].
      destruct (web_sleep_ms pause s2) as [[[]|] s3] eqn:Es; [|done].
      intros (n & s0 & Hn & Ha & Hr & Hf)%IH.
      exists (Datatypes.S n), s0. split_and!; [lia|by eapply attempts_more|done|].
      destruct r; [done|]. destruct Hf as [|Hf]; [by left|right; lia].
    + intros (n & s0 & Hn & Ha & Hr & Hf).
      inversion Ha as [|k' n' s1 s2 s3 s4 s5 e pause E Er Eb Es Ha']; subst.
      * rewrite Hr. destruct r as [|e]; [done|]. destruct Hf as [Hf|]; [|lia]. by rewrite Hf.
      * rewrite E, Er, Eb, Es. apply IH. exists n', s0. split_and!; [lia|done|done|].
        destruct r; [done|]. destruct Hf as [|Hf]; [by left|right; lia].
Qed.

(** A request is one attempt and at most the configured number of retries,
    and answers as its last attempt did: it stops at the first success, at the
    first error that is not transient, and otherwise only when no retry
    remains.  Nothing else is retried or swallowed. *)
Theorem request_attempts client method url etag (s s' : S) r :
  let max := Z.to_nat (rc_max_retries (cl_config client)) in
  request client method url etag s = (Done r, s') <->
  exists n s0, n <= max /\ Attempts client method url etag 0 n s s0 /\
    request_once client method url etag s0 = (Done r, s') /\ Final r (n = max).
Proof. apply request_loop_iff. Qed.

(** ** Pauses *)

Class RandomLaws : Prop := {
  gen_range_law n s : (0 <= n)%Z -> exists z s', gen_range_ms n s = (Done z, s') /\ (0 <= z <= n)%Z;
  jittered_law n s : (0 <= n)%Z ->
    exists z s', jittered_ms n s = (Done z, s') /\ (9 * n <= 10 * z + 5 /\ 10 * z <= 11 * n + 5)%Z
}.

(** A client pauses between 10 milliseconds and 33 seconds before a retry,
    whatever the server asks for in [Retry-After]. *)
Theorem backoff_bounded `{!RandomLaws} e k (s : S) :
  match e with RateLimited (Some retry_after) => (0 <= retry_after)%Z | _ => True end ->
  exists pause s', backoff_ms e k s = (Done pause, s') /\ (10 <= pause <= 33000)%Z.
Proof.
  intros He.
  assert (Hd : exists pause s',
    (jittered ← gen_range_ms (Z.min (backoff_secs k) 30 * 1000)%Z; mret (Z.max jittered 10)) s
    = (Done pause, s') /\ (10 <= pause <= 33000)%Z).
  { assert (0 <= Z.min (backoff_secs k) 30 * 1000 <= 30000)%Z as Hr.
    { pose proof (Z.pow_nonneg 2 (Z.of_nat k mod 64)). unfold backoff_secs. lia. }
    destruct (gen_range_law (Z.min (backoff_secs k) 30 * 1000)%Z s) as (z & s' & Eg & Hz); [lia|].
    unfold mbind, M_bind. rewrite Eg. exists (Z.max z 10), s'. split; [done|lia]. }
  destruct e as [| |[retry_after|]| | | | | | | | | | |]; try exact Hd. cbn [backoff_ms].
  destruct (jittered_law (Z.min retry_after 30 * 1000)%Z s) as (z & s' & Ej & Hz); [lia|].
  unfold mbind, M_bind. rewrite Ej. exists (Z.max z 100), s'. split; [done|lia].
Qed.

(** ** Tokens *)

(** An OIDC client uses its cached token only when it stays valid for more
    than ninety seconds after the clock was read; any other token it sends was
    exchanged for this request. *)
Theorem cached_token_fresh provider (s s' : S) t :
  oidc_get_token provider s = (Done (Ok (Some t)), s') ->
  (exists cached now, cached_token s = Some cached /\ t = ct_token cached /\
     read_clock s = (Done now, s') /\ (now + 90 * nanos_per_sec < ct_expires_at cached)%Z) \/
  (exists s0, exchange_token_with_retry provider s0 = (Done (Ok t), s')).
Proof.
  intros Hg.
  assert (Hx : forall s0, (token ←? exchange_token_with_retry provider; mret (Ok (Some token))) s0
      = (Done (Ok (Some t)), s') -> exchange_token_with_retry provider s0 = (Done (Ok t), s')).
  { intros s0 (token & s1 & Hx & Hr)%try_bind_inv. by injection Hr as -> ->. }
  unfold oidc_get_token, get_state, mbind, M_bind, lift in Hg.
  destruct (cached_token s) as [cached|] eqn:Ec; [|right; eauto].
  destruct (duration_seconds REFRESH_BUFFER_SECS) as [buffer|] eqn:Eb; [|done].
  unfold duration_seconds in Eb. destruct (_ <=? _)%Z; [|done]. injection Eb as <-.
  destruct (read_clock s) as [[now|] s1] eqn:En; [|done]. unfold datetime_add in Hg.
  destruct (_ && _)%Z; [|done].
  destruct (Z.ltb_spec (now + REFRESH_BUFFER_SECS * nanos_per_sec) (ct_expires_at cached));
    [|right; eauto].
  injection Hg as <- <-. left. exists cached, now. by split_and!.
Qed.

(** ** What the code does not do *)

(** A token that the registry refuses is not exchanged again: the refusal is the
    answer of the only attempt. *)
Lemma unauthorized_not_retried client method url etag (s s' : S) message :
  request_once client method url etag s = (Done (Err (Unauthorized message)), s') ->
  request client method url etag s = (Done (Err (Unauthorized message)), s').
Proof.
  intros Hr. unfold request. destruct (Z.to_nat _); cbn [request_loop];
    unfold mbind, M_bind; by rewrite Hr.
Qed.

(** The lifetime a registry gives its token can be out of the range of durations:
    storing the token then panics. *)
Lemma token_lifetime_panics token expires_in (s : S) now s1 :
  read_clock s = (Done now, s1) ->
  (duration_max_secs < Z.abs (i64_wrap expires_in))%Z ->
  cache_token token expires_in s = (Panicked, s1).
Proof.
  intros Hc Hd. unfold cache_token, mbind, M_bind, lift. rewrite Hc. unfold duration_seconds.
  by rewrite (proj2 (Z.leb_gt _ _) Hd).
Qed.

End Client.
