(* ===== verification/PackCache.v ===== *)
(** * The cache of packs

    [assay-registry/src/cache.rs] and [cache_next/]: packs stored under
    [cache_dir/name/version] and checked against their recorded digest when
    read.  The file system is the class [Disk], a computation per operation, so
    what one operation sees may have been changed since the last by another
    process; [serde_json] is [CacheSerde]. *)
From stdpp Require Import base tactics list strings gmap pretty.
From Stdlib Require Import Ascii ZArith Lia.
From S2P Require Import Prelude RustStr Json Platform PackRef PackYaml PackTrust.

Definition DEFAULT_TTL_SECS : Z := 86400.

Record CacheMeta : Type := mkCacheMeta {
  cm_fetched_at : Z;
  cm_digest : string;
  cm_etag : option string;
  cm_expires_at : Z;
  cm_key_id : option string;
  cm_registry_url : option string
}.

Record CacheEntry : Type := mkCacheEntry {
  ce_content : string;
  ce_metadata : CacheMeta;
  ce_signature : option DsseEnvelope
}.

Definition PackCache : Type := string.

Class Disk (S : Type) : Type := {
  path_exists : string -> M S bool;
  path_is_dir : string -> M S bool;
  read_dir : string -> M S (Result (list (Result string string)) string);
  read_to_string : string -> M S (Result string string);
  write_file : string -> string -> M S (Result () string);
  rename_file : string -> string -> M S (Result () string);
  create_dir_all : string -> M S (Result () string);
  remove_dir_all : string -> M S (Result () string)
}.

Class CacheSerde : Type := {
  cache_meta_from_str : string -> Result CacheMeta string;
  cache_meta_to_string : CacheMeta -> Result string string;
  dsse_to_string : DsseEnvelope -> Result string string
}.

(** ** Paths *)

(** [Path::join] on Unix: an absolute path replaces the base. *)
Definition path_join (base path : string) : string :=
  if starts_with path "/" then path
  else if str_is_empty base || ends_with base "/" then base +:+ path
  else base +:+ "/" +:+ path.

(** [Path::file_name]: the last component, unless it is [..]. *)
Definition file_name (path : string) : option string :=
  match last (List.filter (fun c => negb (str_is_empty c || String.eqb c ".")) (str_split "/"%char path)) with
  | Some c => if String.eqb c ".." then None else Some c
  | None => None
  end.

(** The text around the last occurrence of [c]. *)
Fixpoint rsplit_once (c : ascii) (s : string) : option (string * string) :=
  match s with
  | EmptyString => None
  | String a r =>
      match rsplit_once c r with
      | Some (x, y) => Some (String a x, y)
      | None => if Ascii.eqb a c then Some (EmptyString, r) else None
      end
  end.

(** [Path::file_stem]: the name before its last dot, unless that dot begins it. *)
Definition file_stem (path : string) : option string :=
  name ← file_name path;
  match rsplit_once "."%char name with
  | Some (before, _) => Some (if str_is_empty before then name else before)
  | None => Some name
  end.

(** [with_extension] on a path that ends in its file name. *)
Definition with_extension (path ext : string) : string :=
  match file_name path, file_stem path with
  | Some name, Some stem =>
      str_take (String.length path - String.length name) path +:+ stem +:+ "." +:+ ext
  | _, _ => path
  end.

Definition default_cache_dir (cache_dir home_dir : option string) : RegistryResult string :=
  match option_or cache_dir home_dir with
  | None => Err (CacheError "could not determine cache directory")
  | Some base => Ok (path_join (path_join (path_join base "assay") "cache") "packs")
  end.

Definition pack_dir (cache : PackCache) (name version : string) : string :=
  path_join (path_join cache name) version.

Definition cache_err {A} (what : string) (r : Result A string) : RegistryResult A :=
  result_map_err (fun e => CacheError (what +:+ ": " +:+ e)) r.

Section Cache.
Context `{Platform} `{YamlReader} `{PackCrypto} `{CacheSerde}.

(** ** integrity.rs *)

Definition parse_signature (b64 : string) : RegistryResult DsseEnvelope :=
  match base64_decode b64 with
  | Err e => Err (CacheError ("invalid base64 signature: " +:+ e))
  | Ok bytes => cache_err "invalid DSSE envelope" (dsse_from_json bytes)
  end.

Context {S : Type} `{!Clock S} `{!Disk S}.

(** ** io.rs *)

Definition write_atomic (path content : string) : M S (RegistryResult ()) :=
  let temp_path := with_extension path "tmp" in
  w ← write_file temp_path content;
  _ ←? mret (cache_err "failed to write temp file" w);
  r ← rename_file temp_path path;
  mret (cache_err "failed to rename temp file" r).

(** ** policy.rs *)

(** The first [max-age] part decides; one that is not an [i64] gives the default. *)
Definition max_age (cache_control : string) : option Z :=
  part ← List.find (fun part => starts_with (str_trim part) "max-age=")
           (str_split ","%char cache_control);
  parse_signed 64 (str_drop 8 (str_trim part)).

Definition parse_cache_control_expiry (headers : PackHeaders) (default_ttl_secs : Z) : M S Z :=
  now ← read_clock;
  default_ttl ← lift (duration_seconds default_ttl_secs);
  ttl ← lift (match cc ← ph_cache_control headers; max_age cc with
              | Some secs => duration_seconds secs
              | None => Done default_ttl
              end);
  lift (datetime_add now ttl).

(** ** put.rs *)

Definition cache_put (cache : PackCache) (name version : string) (result : FetchResult)
    (registry_url : option string) : M S (RegistryResult ()) :=
  let dir := pack_dir cache name version in
  created ← create_dir_all dir;
  _ ←? mret (cache_err "failed to create cache directory" created);
  expires_at ← parse_cache_control_expiry (fr_headers result) DEFAULT_TTL_SECS;
  fetched_at ← read_clock;
  let metadata :=
    mkCacheMeta fetched_at (fr_computed_digest result) (ph_etag (fr_headers result)) expires_at
      (ph_key_id (fr_headers result)) registry_url in
  _ ←? write_atomic (path_join dir "pack.yaml") (fr_content result);
  meta_json ←? mret (cache_err "failed to serialize metadata" (cache_meta_to_string metadata));
  _ ←? write_atomic (path_join dir "metadata.json") meta_json;
  match ph_signature (fr_headers result) with
  | None => mret (Ok ())
  | Some sig_b64 =>
      match parse_signature sig_b64 with
      | Err _ => mret (Ok ())
      | Ok envelope =>
          sig_json ←? mret (cache_err "failed to serialize signature" (dsse_to_string envelope));
          write_atomic (path_join dir "signature.json") sig_json
      end
  end.

(** ** read.rs *)

Definition read_signature (sig_path : string) : M S (option DsseEnvelope) :=
  found ← path_exists sig_path;
  if negb found then mret None
  else
    content ← read_to_string sig_path;
    mret (match content with
          | Ok text => match dsse_from_json text with Ok envelope => Some envelope | Err _ => None end
          | Err _ => None
          end).

Definition cache_get (cache : PackCache) (name version : string)
    : M S (RegistryResult (option CacheEntry)) :=
  let dir := pack_dir cache name version in
  let pack_path := path_join dir "pack.yaml" in
  let meta_path := path_join dir "metadata.json" in
  has_pack ← path_exists pack_path;
  present ← (if negb has_pack then mret false else path_exists meta_path);
  if negb present then mret (Ok None)
  else
    text ← read_to_string meta_path;
    meta_content ←? mret (cache_err "failed to read cache metadata" text);
    metadata ←? mret (cache_err "failed to parse cache metadata" (cache_meta_from_str meta_content));
    now ← read_clock;
    if (cm_expires_at metadata <? now)%Z then mret (Ok None)
    else
      text ← read_to_string pack_path;
      content ←? mret (cache_err "failed to read cached pack" text);
      computed_digest ← lift (compute_digest content);
      if negb (String.eqb computed_digest (cm_digest metadata)) then
        mret (Err (DigestMismatch name version (cm_digest metadata) computed_digest))
      else
        signature ← read_signature (path_join dir "signature.json");
        mret (Ok (Some (mkCacheEntry content metadata signature))).

Definition get_metadata (cache : PackCache) (name version : string) : M S (option CacheMeta) :=
  text ← read_to_string (path_join (pack_dir cache name version) "metadata.json");
  mret (match text with
        | Ok content => match cache_meta_from_str content with Ok m => Some m | Err _ => None end
        | Err _ => None
        end).

Definition get_etag (cache : PackCache) (name version : string) : M S (option string) :=
  m ← get_metadata cache name version;
  mret (m ← m; cm_etag m).

Definition is_cached (cache : PackCache) (name version : string) : M S bool :=
  m ← get_metadata cache name version;
  match m with
  | Some meta => now ← read_clock; mret (now <=? cm_expires_at meta)%Z
  | None => mret false
  end.

(** *** The listing: each directory in turn, stopping at an entry that fails *)

Fixpoint list_versions_of (cache : PackCache) (name name_path : string)
    (entries : list (Result string string)) (result : list (string * string * CacheMeta))
    : M S (RegistryResult (list (string * string * CacheMeta))) :=
  match entries with
  | [] => mret (Ok result)
  | entry :: entries =>
      version ←? mret (cache_err "failed to read directory entry" entry);
      is_dir ← path_is_dir (path_join name_path version);
      if negb is_dir then list_versions_of cache name name_path entries result
      else
        meta ← get_metadata cache name version;
        list_versions_of cache name name_path entries
          (match meta with Some m => result ++ [(name, version, m)] | None => result end)
  end.

Fixpoint list_names (cache : PackCache) (entries : list (Result string string))
    (result : list (string * string * CacheMeta))
    : M S (RegistryResult (list (string * string * CacheMeta))) :=
  match entries with
  | [] => mret (Ok result)
  | entry :: entries =>
      name ←? mret (cache_err "failed to read directory entry" entry);
      let name_path := path_join cache name in
      is_dir ← path_is_dir name_path;
      if negb is_dir then list_names cache entries result
      else
        versions ← read_dir name_path;
        versions ←? mret (cache_err "failed to read version directory" versions);
        result ←? list_versions_of cache name name_path versions result;
        list_names cache entries result
  end.

Definition cache_list (cache : PackCache)
    : M S (RegistryResult (list (string * string * CacheMeta))) :=
  found ← path_exists cache;
  if negb found then mret (Ok [])
  else
    names ← read_dir cache;
    names ←? mret (cache_err "failed to read cache directory" names);
    list_names cache names (@nil (string * string * CacheMeta)).

(** ** evict.rs *)

Definition remove_if_present (what path : string) : M S (RegistryResult ()) :=
  found ← path_exists path;
  if negb found then mret (Ok ())
  else
    r ← remove_dir_all path;
    mret (cache_err what r).

Definition cache_evict (cache : PackCache) (name version : string) : M S (RegistryResult ()) :=
  remove_if_present "failed to evict cache entry" (pack_dir cache name version).

Definition cache_clear (cache : PackCache) : M S (RegistryResult ()) :=
  remove_if_present "failed to clear cache" cache.

End Cache.
