(* ===== verification/PackResolver.v ===== *)
(** * Resolving packs

    [assay-registry/src/resolver_next/]: where a pack's content comes from: a
    local file, the bundled directories, the cache or the registry, a URL. *)
From stdpp Require Import base tactics list strings gmap pretty.
From Stdlib Require Import Ascii ZArith Lia.
From S2P Require Import Prelude RustStr Json Platform PackRef PackYaml PackTrust RegistryClient PackCache.

Inductive ResolveSource : Type :=
| FromLocal (path : string)
| FromBundled (name : string)
| FromCache
| FromRegistry (url : string)
| FromByos (url : string).

Definition resolve_source_fmt (s : ResolveSource) : string :=
  match s with
  | FromLocal path => "local:" +:+ path
  | FromBundled name => "bundled:" +:+ name
  | FromCache => "cache"
  | FromRegistry url => "registry:" +:+ url
  | FromByos url => "byos:" +:+ url
  end.

Record ResolvedPack : Type := mkResolvedPack {
  rp_content : string;
  rp_source : ResolveSource;
  rp_digest : string;
  rp_verification : option VerifyResult
}.

Record ResolverConfig : Type := mkResolverConfig {
  rs_registry : RegistryConfig;
  rs_no_cache : bool;
  rs_allow_unsigned : bool;
  rs_bundled_packs_dir : option string
}.

Definition resolver_config_default (env : string -> option string) : ResolverConfig :=
  mkResolverConfig (config_from_env env) false false None.

Section Resolver.
Context `{Platform} `{YamlReader} `{PackCrypto} `{RegistrySerde} `{CacheSerde}.

Record PackResolver : Type := mkPackResolver {
  rv_client : RegistryClient;
  rv_cache : PackCache;
  rv_trust_store : TrustStoreInner;
  rv_config : ResolverConfig
}.

Context {S : Type} `{!Clock S} `{!Web S} `{!TokenCell S} `{!Disk S}.

(** A file is read, hashed and returned unverified. *)
Definition read_pack (path what : string) (source : ResolveSource)
    : M S (RegistryResult ResolvedPack) :=
  text ← read_to_string path;
  content ←? mret (cache_err what text);
  digest ← lift (compute_digest content);
  mret (Ok (mkResolvedPack content source digest None)).

(** ** local.rs *)

Definition resolve_local (path : string) : M S (RegistryResult ResolvedPack) :=
  found ← path_exists path;
  if negb found then mret (Err (NotFound path "local"))
  else read_pack path "failed to read local file" (FromLocal path).

(** ** bundled.rs *)

Fixpoint first_bundled (name : string) (paths : list string) : M S (RegistryResult ResolvedPack) :=
  match paths with
  | [] => mret (Err (NotFound name "bundled"))
  | path :: paths =>
      found ← path_exists path;
      if negb found then first_bundled name paths
      else read_pack path "failed to read bundled pack" (FromBundled name)
  end.

Definition resolve_bundled (self : PackResolver) (name : string) : M S (RegistryResult ResolvedPack) :=
  first_bundled name
    ((match rs_bundled_packs_dir (rv_config self) with
      | Some dir => [path_join dir (name +:+ ".yaml")]
      | None => []
      end) ++ ["packs/open/" +:+ name +:+ ".yaml"; "packs/" +:+ name +:+ ".yaml"]).

(** ** byos.rs *)

Definition resolve_byos (url : string) : M S (RegistryResult ResolvedPack) :=
  if starts_with url "https://" || starts_with url "http://" then
    sent ← web_send (mkWebRequest GET url [] None);
    match sent with
    | Err e => mret (Err (NetworkError ("failed to fetch BYOS pack: " +:+ e)))
    | Ok response =>
        if negb (is_success (wr_status response)) then mret (Err (NotFound url "byos"))
        else
          match wr_text response with
          | Err e => mret (Err (NetworkError ("failed to read BYOS response: " +:+ e)))
          | Ok content =>
              digest ← lift (compute_digest content);
              mret (Ok (mkResolvedPack content (FromByos url) digest None))
          end
    end
  else mret (Err (ConfigError ("BYOS scheme not yet supported: " +:+ url))).

(** ** registry.rs *)

Definition cached_pack (entry : CacheEntry) : ResolvedPack :=
  mkResolvedPack (ce_content entry) FromCache (cm_digest (ce_metadata entry)) None.

Definition try_cache (self : PackResolver) (name version : string) (pinned_digest : option string)
    : M S (RegistryResult (option ResolvedPack)) :=
  r ← cache_get (rv_cache self) name version;
  match r with
  | Ok (Some entry) =>
      if match pinned_digest with
         | Some expected => negb (String.eqb (cm_digest (ce_metadata entry)) expected)
         | None => false
         end then
        _ ←? cache_evict (rv_cache self) name version;
        mret (Ok None)
      else mret (Ok (Some (cached_pack entry)))
  | Ok None => mret (Ok None)
  | Err (DigestMismatch _ _ _ _) =>
      _ ←? cache_evict (rv_cache self) name version;
      mret (Ok None)
  | Err _ => mret (Ok None)
  end.

(** After a fetch: the pin, the signature, the cache. *)
Definition accept_fetched (self : PackResolver) (name version : string)
    (pinned_digest : option string) (fetch_result : FetchResult) : M S (RegistryResult ResolvedPack) :=
  let computed := fr_computed_digest fetch_result in
  let config := rv_config self in
  _ ←? mret
    (match pinned_digest with
     | Some expected_digest =>
         if negb (String.eqb computed expected_digest) then
           Err (DigestMismatch name version expected_digest computed)
         else Ok ()
     | None => Ok ()
     end);
  verified ← verify_pack fetch_result (rv_trust_store self)
               (mkVerifyOptions (rs_allow_unsigned config) false);
  verification ←? mret
    (match verified with
     | Ok v => Ok (Some v)
     | Err e => if rs_allow_unsigned config then Ok None else Err e
     end);
  _ ← (if negb (rs_no_cache config)
       then cache_put (rv_cache self) name version fetch_result
              (Some (cl_base_url (rv_client self)))
       else mret (Ok ()));
  mret (Ok (mkResolvedPack (fr_content fetch_result) (FromRegistry (cl_base_url (rv_client self)))
              computed verification)).

(** The answer 304. *)
Definition use_not_modified (self : PackResolver) (name version : string)
    : M S (RegistryResult ResolvedPack) :=
  cached ←? cache_get (rv_cache self) name version;
  mret (match cached with
        | Some cached_entry => Ok (cached_pack cached_entry)
        | None => Err (CacheError "304 response but no cached entry")
        end).

Definition fetch_and_accept (self : PackResolver) (name version : string)
    (pinned_digest : option string) : M S (RegistryResult ResolvedPack) :=
  etag ← (if rs_no_cache (rv_config self) then mret None
          else get_etag (rv_cache self) name version);
  result ←? fetch_pack (rv_client self) name version etag;
  match result with
  | Some fetch_result => accept_fetched self name version pinned_digest fetch_result
  | None => use_not_modified self name version
  end.

Definition resolve_registry (self : PackResolver) (name version : string)
    (pinned_digest : option string) : M S (RegistryResult ResolvedPack) :=
  cached ←? (if negb (rs_no_cache (rv_config self))
             then try_cache self name version pinned_digest
             else mret (Ok None));
  match cached with
  | Some pack => mret (Ok pack)
  | None => fetch_and_accept self name version pinned_digest
  end.

(** ** mod.rs *)

Definition resolve_ref (self : PackResolver) (pack_ref : PackRef)
    : M S (RegistryResult ResolvedPack) :=
  match pack_ref with
  | LocalRef path => resolve_local path
  | BundledRef name => resolve_bundled self name
  | RegistryRef name version pinned_digest => resolve_registry self name version pinned_digest
  | ByosRef url => resolve_byos url
  end.

Definition resolve (self : PackResolver) (reference : string) : M S (RegistryResult ResolvedPack) :=
  pack_ref ←? mret (pack_ref_parse reference);
  resolve_ref self pack_ref.

Definition prefetch (self : PackResolver) (reference : string) : M S (RegistryResult ()) :=
  pack_ref ←? mret (pack_ref_parse reference);
  match pack_ref with
  | RegistryRef name version _ =>
      result ←? fetch_pack (rv_client self) name version None;
      match result with
      | Some fetch_result =>
          cache_put (rv_cache self) name version fetch_result (Some (cl_base_url (rv_client self)))
      | None => mret (Ok ())
      end
  | _ => mret (Ok ())
  end.

End Resolver.
