(* ===== verification/PackResolverCorrect.v ===== *)
(** * Resolving packs: theorems

    What a resolved pack has been checked for, whatever other processes do to
    the files meanwhile; and, on files nobody else touches, what the cache gives
    back and when it cannot. *)
From stdpp Require Import base tactics list strings gmap pretty.
From Stdlib Require Import Ascii ZArith Lia.
From S2P Require Import Prelude RustStr Json Platform PackRef PackYaml PackTrust PackTrustCorrect RegistryClient PackCache PackResolver.

Section Resolver.
Context `{Platform} `{YamlReader} `{PackCrypto} `{RegistrySerde} `{CacheSerde}.
Context {S : Type} `{!Clock S} `{!Web S} `{!TokenCell S} `{!Disk S}.

(** ** Reading the cache *)

(** An entry the cache returns matches the digest recorded for it and was not
    expired when the clock was read. *)
Definition Intact (entry : CacheEntry) : Prop :=
  compute_digest (ce_content entry) = Done (cm_digest (ce_metadata entry)) /\
  exists (s s' : S) now, read_clock s = (Done now, s') /\ (now <= cm_expires_at (ce_metadata entry))%Z.

Lemma cache_get_intact cache name version s s' entry :
  cache_get cache name version s = (Done (Ok (Some entry)), s') -> Intact entry.
Proof.
  unfold cache_get. intros (has & s1 & _ & Hg)%bind_inv.
  apply bind_inv in Hg as (present & s2 & _ & Hg). destruct present; cbn [negb] in Hg; [|done].
  apply bind_inv in Hg as (text & s3 & _ & Hg).
  apply try_bind_inv in Hg as (meta_content & s4 & _ & Hg).
  apply try_bind_inv in Hg as (metadata & s5 & _ & Hg).
  apply bind_inv in Hg as (now & s6 & Hc & Hg).
  destruct (Z.ltb_spec (cm_expires_at metadata) now); [done|].
  apply bind_inv in Hg as (text' & s7 & _ & Hg).
  apply try_bind_inv in Hg as (content & s8 & _ & Hg).
  apply bind_inv in Hg as (digest & s9 & Hd & Hg). unfold lift in Hd. injection Hd as Hd _.
  destruct (String.eqb_spec digest (cm_digest metadata)) as [->|]; [|done]. cbn [negb] in Hg.
  apply bind_inv in Hg as (signature & s10 & _ & Hg). injection Hg as <- _.
  split; [done|]. cbn. exists s5, s6, now. split; [done|lia].
Qed.

(** No cache hit is stale or damaged: the content returned has the digest that
    was recorded with it, and the entry had not expired when it was read,
    even when the files change between the reads. *)
Theorem cached_pack_intact cache name version s s' entry :
  cache_get cache name version s = (Done (Ok (Some entry)), s') -> Intact entry.
Proof. apply cache_get_intact. Qed.

(** ** Registry packs *)

Definition matches_pin (pinned : option string) (digest : string) : Prop :=
  forall d, pinned = Some d -> digest = d.

Lemma matches_pin_iff pinned digest :
  match pinned with Some e => negb (String.eqb digest e) | None => false end = false <->
  matches_pin pinned digest.
Proof.
  unfold matches_pin. destruct pinned as [e|]; [|by split].
  destruct (String.eqb_spec digest e) as [->|Hne]; cbn.
  - split; [|done]. by intros _ d [= <-].
  - split; [done|]. intros Hd. by destruct Hne; apply Hd.
Qed.

(** The answer that the registry gave in this run, which began in [s]: the
    cache, if it is used, had no copy to return, and the request carried the
    ETag of the copy it holds. *)
Definition Answered (self : PackResolver) (name version : string) (pinned : option string) (s : S)
    (response : WebResponse) (s3 : S) : Prop :=
  exists etag s1 s2,
    (if rs_no_cache (rv_config self) then etag = None /\ s2 = s
     else try_cache self name version pinned s = (Done (Ok None), s1) /\
          get_etag (rv_cache self) name version s1 = (Done etag, s2)) /\
    request (rv_client self) GET (pack_url (rv_client self) name version) etag s2
      = (Done (Ok response), s3).

(** The answer carries a signature of the pack's canonical content by a trusted
    key, the digest it announces, if any, is the pack's, and the pack is
    reported as signed. *)
Definition SignedPack (self : PackResolver) (response : WebResponse) (pack : ResolvedPack) : Prop :=
  exists v b64 envelope,
    rp_verification pack = Some v /\ vr_signed v = true /\
    wr_header response "x-pack-signature" = Some b64 /\ parse_dsse_envelope b64 = Ok envelope /\
    EnvelopeSigns (S:=S) (rv_trust_store self) (rp_content pack) envelope /\
    (forall d, wr_header response "x-pack-digest" = Some d -> d = rp_digest pack).

(** The pack is the body of this run's answer, or the copy that the cache gave
    in this run: before asking, or, unless the cache is off, once the registry
    had answered that the copy is current. *)
Definition ResolvedFrom (self : PackResolver) (name version : string) (pinned : option string)
    (s s' : S) (pack : ResolvedPack) : Prop :=
  match rp_source pack with
  | FromRegistry url =>
      url = cl_base_url (rv_client self) /\ matches_pin pinned (rp_digest pack) /\
      exists response s3, Answered self name version pinned s response s3 /\
        wr_status response <> 304%Z /\ wr_text response = Ok (rp_content pack) /\
        (rs_allow_unsigned (rv_config self) = false -> SignedPack self response pack)
  | FromCache =>
      exists entry, pack = cached_pack entry /\ Intact entry /\
      ((rs_no_cache (rv_config self) = false /\ matches_pin pinned (rp_digest pack) /\
        cache_get (rv_cache self) name version s = (Done (Ok (Some entry)), s')) \/
       exists response s3, Answered self name version pinned s response s3 /\
         wr_status response = 304%Z /\
         cache_get (rv_cache self) name version s3 = (Done (Ok (Some entry)), s'))
  | _ => False
  end.

(** A fetch is one answer: not modified, or the headers and the body. *)
Lemma fetch_pack_answer client name version etag s s' r :
  fetch_pack client name version etag s = (Done (Ok r), s') ->
  exists response, request client GET (pack_url client name version) etag s = (Done (Ok response), s') /\
    match r with
    | None => wr_status response = 304%Z
    | Some result =>
        wr_status response <> 304%Z /\ wr_text response = Ok (fr_content result) /\
        fr_headers result = from_headers (wr_header response) /\
        compute_digest (fr_content result) = Done (fr_computed_digest result)
    end.
Proof.
  unfold fetch_pack. intros (outcome & s1 & Hh & Hf)%try_bind_inv. unfold http_fetch_pack in Hh.
  apply try_bind_inv in Hh as (response & s2 & Hreq & Hh). unfold mret, M_ret in Hh. injection Hh as Hh <-.
  destruct (Z.eqb_spec (wr_status response) 304).
  - injection Hh as <-. unfold mret, M_ret in Hf. injection Hf as <- <-. by exists response.
  - destruct (wr_text response) as [content|] eqn:Et; [|done]. injection Hh as <-.
    apply bind_inv in Hf as (d & s3 & Hd & Hf). unfold lift in Hd. injection Hd as Hd <-.
    unfold mret, M_ret in Hf. injection Hf as <- <-. exists response. by split_and!.
Qed.

Lemma accept_fetched_ok self name version pinned response result s0 s s' pack :
  Answered self name version pinned s0 response s -> wr_status response <> 304%Z ->
  wr_text response = Ok (fr_content result) -> fr_headers result = from_headers (wr_header response) ->
  compute_digest (fr_content result) = Done (fr_computed_digest result) ->
  accept_fetched self name version pinned result s = (Done (Ok pack), s') ->
  compute_digest (rp_content pack) = Done (rp_digest pack) /\
  ResolvedFrom self name version pinned s0 s' pack.
Proof.
  intros Ha0 H304 Ht Hh Hd. unfold accept_fetched. intros ([] & s1 & Hp & Ha)%try_bind_inv. injection Hp as Hp _.
  assert (Hpin : matches_pin pinned (fr_computed_digest result)).
  { apply matches_pin_iff. destruct pinned as [e|]; [|done].
    by destruct (negb (String.eqb (fr_computed_digest result) e)). }
  apply bind_inv in Ha as (verified & s2 & Hv & Ha).
  apply try_bind_inv in Ha as (verification & s3 & Hn & Ha). injection Hn as Hn _.
  apply bind_inv in Ha as (stored & s4 & _ & Ha). injection Ha as <- _.
  split; [done|]. cbn. split_and!; [done|done|]. exists response, s. split_and!; try done.
  intros Hu. rewrite Hu in Hv, Hn.
  destruct verified as [v|e]; [|done]. injection Hn as <-.
  apply verify_pack_ok in Hv as (_ & Hdig & Hsigned & Hsig). cbn in Hsig. rewrite Hh in Hdig, Hsigned, Hsig.
  cbn in Hdig, Hsigned, Hsig.
  destruct (wr_header response "x-pack-signature") as [b64|] eqn:Eb; [|done].
  destruct Hsig as [|(envelope & He & Hs)]; [done|]. by exists v, b64, envelope.
Qed.

Lemma cached_pack_ok entry : Intact entry ->
  compute_digest (rp_content (cached_pack entry)) = Done (rp_digest (cached_pack entry)).
Proof. by intros [Hd _]. Qed.

Lemma try_cache_ok self name version pinned s s' pack :
  try_cache self name version pinned s = (Done (Ok (Some pack)), s') ->
  exists entry, pack = cached_pack entry /\ Intact entry /\ matches_pin pinned (rp_digest pack) /\
    cache_get (rv_cache self) name version s = (Done (Ok (Some entry)), s').
Proof.
  unfold try_cache. intros (r & s1 & Hg & Ht)%bind_inv. destruct r as [[entry|]|e]; [|done|].
  - destruct (match pinned with Some _ => _ | None => _ end) eqn:Ep.
    + by apply try_bind_inv in Ht as ([] & s2 & _ & Ht).
    + unfold mret, M_ret in Ht. injection Ht as <- <-. exists entry. split_and!; [done|by eapply cache_get_intact| |done].
      by apply matches_pin_iff.
  - by destruct e; try done; apply try_bind_inv in Ht as ([] & s2 & _ & Ht).
Qed.

Lemma resolve_registry_ok self name version pinned s s' pack :
  resolve_registry self name version pinned s = (Done (Ok pack), s') ->
  compute_digest (rp_content pack) = Done (rp_digest pack) /\
  ResolvedFrom self name version pinned s s' pack.
Proof.
  unfold resolve_registry. intros (cached & s1 & Hc & Hr)%try_bind_inv.
  destruct cached as [p|].
  - unfold mret, M_ret in Hr. injection Hr as -> <-.
    destruct (rs_no_cache (rv_config self)) eqn:Hno; [done|]. cbn [negb] in Hc.
    apply try_cache_ok in Hc as (entry & -> & Hi & Hp & Hg). split; [by apply cached_pack_ok|].
    exists entry. split_and!; [done|done|]. by left.
  - unfold fetch_and_accept in Hr. apply bind_inv in Hr as (etag & s2 & He & Hr).
    apply try_bind_inv in Hr as (result & s3 & (response & Hreq & Hf)%fetch_pack_answer & Hr).
    assert (Answered self name version pinned s response s3) as Ha.
    { exists etag, s1, s2. split; [|done]. destruct (rs_no_cache (rv_config self)); cbn [negb] in Hc; [|done].
      unfold mret, M_ret in Hc, He. by simplify_eq. }
    destruct result as [result|].
    + destruct Hf as (H304 & Ht & Hh & Hd). by eapply accept_fetched_ok.
    + unfold use_not_modified in Hr. apply try_bind_inv in Hr as ([entry|] & s4 & Hg & Hr); [|done].
      unfold mret, M_ret in Hr. injection Hr as <- <-.
      pose proof (cache_get_intact _ _ _ _ _ _ Hg) as Hi. split; [by apply cached_pack_ok|].
      exists entry. split_and!; [done|done|]. right. by exists response, s3.
Qed.

(** C18: what a resolved registry pack has been checked for.  Its digest is that of
    its content.  A fetched pack is the body of the registry's answer in this
    run; it has the pinned digest and, unless unsigned packs are allowed, the
    answer carries a signature over its canonical content by a trusted key
    under the payload type of the code (the specification names another), and
    the digest it announces is the pack's.  A cached pack is the entry that the
    cache gave in this run, with the digest recorded for it: either before the
    registry was asked, and then it has the pinned digest, or after the
    registry answered this run's request with 304, and then the pinned digest
    is not compared. *)
Theorem resolve_registry_sound self name version pinned (s s' : S) pack :
  resolve_registry self name version pinned s = (Done (Ok pack), s') ->
  compute_digest (rp_content pack) = Done (rp_digest pack) /\
  ResolvedFrom self name version pinned s s' pack.
Proof. apply resolve_registry_ok. Qed.

(** Every resolved pack, of any kind, is reported with the digest of its content. *)
Lemma read_pack_digest path what source s s' pack :
  read_pack path what source s = (Done (Ok pack), s') ->
  compute_digest (rp_content pack) = Done (rp_digest pack) /\ rp_source pack = source.
Proof.
  unfold read_pack. intros (text & s1 & _ & Hr)%bind_inv.
  apply try_bind_inv in Hr as (content & s2 & _ & Hr).
  apply bind_inv in Hr as (digest & s3 & Hd & Hr). unfold lift in Hd. injection Hd as Hd _.
  by injection Hr as <- _.
Qed.

Lemma first_bundled_digest name paths s s' pack :
  first_bundled name paths s = (Done (Ok pack), s') ->
  compute_digest (rp_content pack) = Done (rp_digest pack) /\ rp_source pack = FromBundled name.
Proof.
  revert s. induction paths as [|path paths IH]; intros s; cbn [first_bundled]; [done|].
  intros (found & s1 & _ & Hr)%bind_inv. destruct found; cbn [negb] in Hr.
  - by eapply read_pack_digest.
  - by eapply IH.
Qed.

Lemma resolve_byos_digest url s s' pack :
  resolve_byos url s = (Done (Ok pack), s') ->
  compute_digest (rp_content pack) = Done (rp_digest pack) /\ rp_source pack = FromByos url.
Proof.
  unfold resolve_byos. destruct (starts_with url "https://" || starts_with url "http://"); [|done].
  intros ([response|e] & s1 & _ & Hr)%bind_inv; [|done].
  destruct (is_success (wr_status response)); cbn [negb] in Hr; [|done].
  destruct (wr_text response) as [content|]; [|done].
  apply bind_inv in Hr as (digest & s2 & Hd & Hr). unfold lift in Hd. injection Hd as Hd _.
  by injection Hr as <- _.
Qed.

(** Where a reference may resolve to. *)
Definition from_reference (self : PackResolver) (pack_ref : PackRef) (s s' : S) (pack : ResolvedPack) : Prop :=
  match pack_ref with
  | LocalRef path => rp_source pack = FromLocal path
  | BundledRef name => rp_source pack = FromBundled name
  | ByosRef url => rp_source pack = FromByos url
  | RegistryRef name version pinned => ResolvedFrom self name version pinned s s' pack
  end.

Lemma resolve_ref_ok self pack_ref s s' pack :
  resolve_ref self pack_ref s = (Done (Ok pack), s') ->
  compute_digest (rp_content pack) = Done (rp_digest pack) /\ from_reference self pack_ref s s' pack.
Proof.
  destruct pack_ref; cbn [resolve_ref from_reference].
  - unfold resolve_local. intros (found & s1 & _ & Hr)%bind_inv.
    destruct found; cbn [negb] in Hr; [|done]. by eapply read_pack_digest.
  - apply first_bundled_digest.
  - apply resolve_registry_ok.
  - apply resolve_byos_digest.
Qed.

Lemma resolve_ok self reference s s' pack :
  resolve self reference s = (Done (Ok pack), s') ->
  exists pack_ref, pack_ref_parse reference = Ok pack_ref /\
    compute_digest (rp_content pack) = Done (rp_digest pack) /\ from_reference self pack_ref s s' pack.
Proof.
  unfold resolve. intros (pack_ref & s1 & Hp & Hr)%try_bind_inv. injection Hp as Hp <-.
  exists pack_ref. split; [done|]. by eapply resolve_ref_ok.
Qed.

End Resolver.
