(* ===== verification/PackCacheCorrect.v ===== *)
(** * The cache on files nobody else touches

    [DiskLaws] says what the cache relies on: a file is what was last written
    or renamed to its path, reading changes nothing and time does not run
    backwards.  Under them what is stored is what is read until it expires, and
    an expired entry can never be revalidated. *)
From stdpp Require Import base tactics list strings gmap pretty.
From Stdlib Require Import Ascii ZArith Lia.
From S2P Require Import Prelude RustStr Json Platform PackRef PackYaml PackTrust PackTrustCorrect RegistryClient PackCache PackResolver PackResolverCorrect.

(** ** Paths *)

(** What [path_join] puts before a relative path. *)
Definition dir_prefix (dir : string) : string :=
  if str_is_empty dir || ends_with dir "/" then dir else dir +:+ "/".

Lemma path_join_prefix dir f : starts_with f "/" = false -> path_join dir f = dir_prefix dir +:+ f.
Proof.
  intros Hf. unfold path_join, dir_prefix. rewrite Hf.
  destruct (str_is_empty dir || ends_with dir "/"); [done|]. by rewrite <- string_app_assoc.
Qed.

Lemma ends_with_split s p : ends_with s p = true -> exists x, s = x +:+ p.
Proof.
  induction s as [|a s IH]; cbn [ends_with]; intros [E|E]%orb_true_iff.
  - apply String.eqb_eq in E. by exists EmptyString.
  - done.
  - apply String.eqb_eq in E. by exists EmptyString.
  - destruct (IH E) as [x ->]. by exists (String a x).
Qed.

(** Empty, or it ends in a slash. *)
Lemma dir_prefix_cases dir : dir_prefix dir = EmptyString \/ exists x, dir_prefix dir = x +:+ "/".
Proof.
  unfold dir_prefix. destruct dir as [|a dir]; [by left|]. cbn [str_is_empty orb].
  destruct (ends_with (String a dir) "/") eqn:E; [right; by apply ends_with_split|].
  right. by exists (String a dir).
Qed.

Lemma str_split_app c x y : str_split c (x +:+ String c y) = str_split c x ++ str_split c y.
Proof.
  induction x as [|a x IH]; cbn [String.append str_split].
  - by rewrite Ascii.eqb_refl.
  - destruct (Ascii.eqb a c); rewrite IH; [done|]. by destruct (str_split c x) eqn:E; [destruct x; cbn in E; repeat case_match|].
Qed.

(** A name of one component. *)
Definition simple_name (f : string) : Prop :=
  str_split "/"%char f = [f] /\ str_is_empty f = false /\ String.eqb f "." = false /\
  String.eqb f ".." = false.

Lemma file_name_prefix dir f : simple_name f -> file_name (dir_prefix dir +:+ f) = Some f.
Proof.
  intros (Hs & He & Hd & Hdd). unfold file_name.
  assert (Hl : forall l, last (List.filter (fun c => negb (str_is_empty c || String.eqb c ".")) (l ++ [f])) = Some f).
  { intros l. rewrite List.filter_app. cbn. rewrite He, Hd. cbn. by rewrite last_snoc. }
  destruct (dir_prefix_cases dir) as [->|[x ->]].
  - cbn [String.append]. rewrite Hs. change [f] with ([] ++ [f]). by rewrite Hl, Hdd.
  - rewrite <- string_app_assoc. cbn [String.append]. by rewrite str_split_app, Hs, Hl, Hdd.
Qed.

Lemma with_extension_prefix dir f stem ext :
  simple_name f -> file_stem f = Some stem ->
  with_extension (dir_prefix dir +:+ f) ext = dir_prefix dir +:+ (stem +:+ "." +:+ ext).
Proof.
  intros Hf Hs. unfold with_extension, file_stem in *. rewrite (file_name_prefix dir f Hf).
  assert (E : file_name f = Some f).
  { pose proof (file_name_prefix EmptyString f Hf) as Hp. by cbn in Hp. }
  rewrite E in Hs. cbn [mbind option_bind] in Hs |- *.
  destruct (rsplit_once "." f) as [[b a]|]; injection Hs as <-;
    rewrite string_app_length;
    (replace (String.length (dir_prefix dir) + String.length f - String.length f)
      with (String.length (dir_prefix dir)) by lia); by rewrite str_take_app.
Qed.

Section Files.
Context `{Platform} `{YamlReader} `{PackCrypto} `{RegistrySerde} `{CacheSerde}.
Context {S : Type} `{!Clock S} `{!Web S} `{!TokenCell S} `{!Disk S}.

(** ** What the cache relies on *)

Class DiskLaws : Type := {
  disk_file : S -> string -> option string;
  disk_time : S -> Z;
  (** A path to a file exists. *)
  disk_exists p s : exists b s', path_exists p s = (Done b, s') /\
    (forall c, disk_file s p = Some c -> b = true) /\
    (forall q, disk_file s' q = disk_file s q) /\ (disk_time s <= disk_time s')%Z;
  disk_read p s : exists r s', read_to_string p s = (Done r, s') /\
    match disk_file s p with Some c => r = Ok c | None => exists e, r = Err e end /\
    (forall q, disk_file s' q = disk_file s q) /\ (disk_time s <= disk_time s')%Z;
  disk_clock s : exists s', read_clock s = (Done (disk_time s), s') /\
    (forall q, disk_file s' q = disk_file s q) /\ (disk_time s <= disk_time s')%Z;
  disk_create p s s' : create_dir_all p s = (Done (Ok ()), s') ->
    forall q, disk_file s' q = disk_file s q;
  disk_write p c s s' : write_file p c s = (Done (Ok ()), s') ->
    disk_file s' p = Some c /\ forall q, q <> p -> disk_file s' q = disk_file s q;
  disk_rename p p' s s' : rename_file p p' s = (Done (Ok ()), s') ->
    p <> p' -> disk_file s' p' = disk_file s p /\
    forall q, q <> p -> q <> p' -> disk_file s' q = disk_file s q
}.

Context `{!DiskLaws}.

(** Nothing but time passes. *)
Definition Still (s s' : S) : Prop :=
  (forall q, disk_file s' q = disk_file s q) /\ (disk_time s <= disk_time s')%Z.

Lemma still_trans s1 s2 s3 : Still s1 s2 -> Still s2 s3 -> Still s1 s3.
Proof. intros [F1 T1] [F2 T2]. split; [intros q; by rewrite F2, F1|lia]. Qed.

(** ** Writing *)

Lemma write_atomic_ok dir f stem content s s' :
  simple_name f -> file_stem f = Some stem -> stem +:+ ".tmp" <> f ->
  write_atomic (dir_prefix dir +:+ f) content s = (Done (Ok ()), s') ->
  disk_file s' (dir_prefix dir +:+ f) = Some content /\
  forall q, q <> f -> q <> stem +:+ ".tmp" ->
    disk_file s' (dir_prefix dir +:+ q) = disk_file s (dir_prefix dir +:+ q).
Proof.
  intros Hf Hs Hne. unfold write_atomic. rewrite (with_extension_prefix _ _ _ _ Hf Hs).
  change (stem +:+ "." +:+ "tmp") with (stem +:+ ".tmp").
  intros (w & s1 & Hw & Ha)%bind_inv. apply try_bind_inv in Ha as ([] & s2 & Hr & Ha).
  destruct w as [[]|]; [|done]. injection Hr as ->. apply bind_inv in Ha as (r & s3 & Hr & Ha).
  destruct r as [[]|]; [|done]. injection Ha as ->.
  apply disk_write in Hw as [Hw Hw']. apply disk_rename in Hr as [Hr Hr'].
  2:{ intros E%string_app_inj. by apply Hne. }
  split; [by rewrite Hr|]. intros q Hq Hq'.
  rewrite Hr', Hw' by (intros E%string_app_inj; done). done.
Qed.

(** The entry stored under a name and version. *)
Definition Stored (cache : PackCache) (name version content : string) (meta : CacheMeta) (s : S) : Prop :=
  let dir := dir_prefix (pack_dir cache name version) in
  disk_file s (dir +:+ "pack.yaml") = Some content /\
  exists text, disk_file s (dir +:+ "metadata.json") = Some text /\
    cache_meta_from_str text = Ok meta.

Lemma join_simple dir f : simple_name f -> path_join dir f = dir_prefix dir +:+ f.
Proof.
  intros (Hs & He & _). apply path_join_prefix. destruct f as [|a f]; [done|].
  change (Ascii.eqb "/" a && starts_with f EmptyString = false).
  destruct (Ascii.eqb_spec "/" a) as [<-|]; [|done]. cbn in Hs. discriminate Hs.
Qed.

Lemma pack_yaml_simple : simple_name "pack.yaml". Proof. by vm_compute. Qed.
Lemma metadata_simple : simple_name "metadata.json". Proof. by vm_compute. Qed.
Lemma signature_simple : simple_name "signature.json". Proof. by vm_compute. Qed.

Lemma parse_expiry_still headers ttl s expires s' :
  parse_cache_control_expiry headers ttl s = (Done expires, s') -> forall q, disk_file s' q = disk_file s q.
Proof.
  unfold parse_cache_control_expiry. intros (now & s1 & Hc & He)%bind_inv.
  destruct (disk_clock s) as (s2 & Hc' & Hf & _). rewrite Hc' in Hc. injection Hc as _ <-.
  apply bind_inv in He as (d & s3 & Hd & He). unfold lift in Hd. injection Hd as _ <-.
  apply bind_inv in He as (t & s4 & Ht & He). unfold lift in Ht, He. injection Ht as _ <-.
  by injection He as _ <-.
Qed.

Lemma cache_put_stored cache name version result url s s' :
  (forall m t, cache_meta_to_string m = Ok t -> cache_meta_from_str t = Ok m) ->
  cache_put cache name version result url s = (Done (Ok ()), s') ->
  exists meta, Stored cache name version (fr_content result) meta s' /\
    cm_digest meta = fr_computed_digest result /\ cm_etag meta = ph_etag (fr_headers result) /\
    cm_key_id meta = ph_key_id (fr_headers result) /\ cm_registry_url meta = url.
Proof.
  intros Hserde. unfold cache_put. cbv zeta.
  rewrite !(join_simple _ _ pack_yaml_simple), !(join_simple _ _ metadata_simple),
    !(join_simple _ _ signature_simple).
  set (dir := pack_dir cache name version).
  intros (created & s1 & _ & Hp)%bind_inv. apply try_bind_inv in Hp as ([] & s2 & _ & Hp).
  apply bind_inv in Hp as (expires_at & s3 & _ & Hp). apply bind_inv in Hp as (fetched_at & s4 & _ & Hp).
  set (meta := mkCacheMeta _ _ _ _ _ _) in Hp. exists meta. split; [|done].
  apply try_bind_inv in Hp as ([] & s5 & Hw1 & Hp).
  apply (write_atomic_ok dir _ "pack" _ _ _ pack_yaml_simple) in Hw1 as [Hw1 _]; [|done|done].
  apply try_bind_inv in Hp as (meta_json & s6 & Hm & Hp).
  destruct (cache_meta_to_string meta) as [t|] eqn:Et; [|done]. injection Hm as <- <-.
  apply try_bind_inv in Hp as ([] & s7 & Hw2 & Hp).
  apply (write_atomic_ok dir _ "metadata" _ _ _ metadata_simple) in Hw2 as [Hw2 Hk2]; [|done|done].
  rewrite <- (Hk2 "pack.yaml") in Hw1 by done.
  assert (Hst : Stored cache name version (fr_content result) meta s7).
  { split; [done|]. exists t. split; [done|by apply Hserde]. }
  destruct (ph_signature (fr_headers result)) as [b64|]; [|by injection Hp as <-].
  destruct (parse_signature b64) as [envelope|]; [|by injection Hp as <-].
  apply try_bind_inv in Hp as (sig_json & s8 & Hj & Hp).
  destruct (dsse_to_string envelope) as [j|]; [|done]. injection Hj as <- <-.
  apply (write_atomic_ok dir _ "signature" _ _ _ signature_simple) in Hp as [_ Hk3]; [|done|done].
  destruct Hst as (Hst1 & text & Hst2 & Hst3). split; [by rewrite Hk3|].
  exists text. by rewrite Hk3.
Qed.

(** ** Reading back *)

Lemma read_signature_still path s : exists sig s', read_signature path s = (Done sig, s') /\ Still s s'.
Proof.
  unfold read_signature, mbind, M_bind. destruct (disk_exists path s) as (b & s1 & -> & _ & F1 & T1).
  destruct b; cbn [negb]; [|by exists None, s1].
  destruct (disk_read path s1) as (r & s2 & -> & _ & F2 & T2).
  eexists _, s2. split; [done|]. split; [intros q; by rewrite F2, F1|lia].
Qed.

(** A stored entry is returned when the clock has not passed its expiry, and
    only then. *)
Lemma cache_get_stored cache name version content meta s :
  Stored cache name version content meta s ->
  compute_digest content = Done (cm_digest meta) ->
  exists r s' now, cache_get cache name version s = (Done r, s') /\ Still s s' /\
    (disk_time s <= now <= disk_time s')%Z /\
    if (cm_expires_at meta <? now)%Z then r = Ok None
    else exists sig, r = Ok (Some (mkCacheEntry content meta sig)).
Proof.
  intros (Hpack & text & Hmeta & Hparse) Hd. unfold cache_get. cbv zeta.
  rewrite !(join_simple _ _ pack_yaml_simple), !(join_simple _ _ metadata_simple),
    !(join_simple _ _ signature_simple).
  set (dir := dir_prefix (pack_dir cache name version)) in *.
  unfold mbind, M_bind.
  destruct (disk_exists (dir +:+ "pack.yaml") s) as (b1 & s1 & -> & E1 & F1 & T1).
  rewrite (E1 _ Hpack). cbn [negb].
  rewrite <- (F1 (dir +:+ "metadata.json")) in Hmeta.
  destruct (disk_exists (dir +:+ "metadata.json") s1) as (b2 & s2 & -> & E2 & F2 & T2).
  rewrite (E2 _ Hmeta). cbn [negb].
  rewrite <- F2 in Hmeta.
  destruct (disk_read (dir +:+ "metadata.json") s2) as (r3 & s3 & -> & R3 & F3 & T3).
  rewrite Hmeta in R3. subst r3. unfold try_bind at 1. cbn [mret M_ret cache_err result_map_err].
  unfold try_bind at 1, mret, M_ret. rewrite Hparse. cbn [cache_err result_map_err].
  destruct (disk_clock s3) as (s4 & -> & F4 & T4).
  assert (St : Still s s4).
  { split; [intros q; by rewrite F4, F3, F2, F1|lia]. }
  destruct (cm_expires_at meta <? disk_time s3)%Z eqn:Ex.
  { eexists _, s4, (disk_time s3). split; [done|]. rewrite Ex. split_and!; [done|lia|destruct St; lia|done]. }
  destruct St as [Fs Ts]. rewrite <- Fs in Hpack.
  destruct (disk_read (dir +:+ "pack.yaml") s4) as (r5 & s5 & -> & R5 & F5 & T5).
  rewrite Hpack in R5. subst r5. unfold try_bind at 1. cbn [cache_err result_map_err].
  unfold lift. rewrite Hd, String.eqb_refl. cbn [negb].
  destruct (read_signature_still (dir +:+ "signature.json") s5) as (sig & s6 & -> & F6 & T6).
  eexists _, s6, (disk_time s3). split; [done|]. rewrite Ex.
  split_and!; [split; [intros q; by rewrite F6, F5, Fs|lia]|lia|lia|by exists sig].
Qed.

(** What is put in the cache is what is got from it: once a pack is stored,
    reading it returns its content, its digest and the headers recorded with
    it for as long as the entry has not expired, and nothing afterwards. *)
Theorem put_then_get cache name version result url s s1 :
  (forall m t, cache_meta_to_string m = Ok t -> cache_meta_from_str t = Ok m) ->
  compute_digest (fr_content result) = Done (fr_computed_digest result) ->
  cache_put cache name version result url s = (Done (Ok ()), s1) ->
  exists meta r s2 now,
    cm_digest meta = fr_computed_digest result /\ cm_etag meta = ph_etag (fr_headers result) /\
    cache_get cache name version s1 = (Done r, s2) /\ (disk_time s1 <= now <= disk_time s2)%Z /\
    if (cm_expires_at meta <? now)%Z then r = Ok None
    else exists sig, r = Ok (Some (mkCacheEntry (fr_content result) meta sig)).
Proof.
  intros Hserde Hd Hp. apply cache_put_stored in Hp as (meta & Hst & Hm & He & _ & _); [|done].
  rewrite <- Hm in Hd. destruct (cache_get_stored _ _ _ _ _ _ Hst Hd) as (r & s2 & now & Hg & _ & Hn & Hr).
  by exists meta, r, s2, now.
Qed.

(** ** An expired entry *)

Lemma get_etag_stored cache name version content meta s :
  Stored cache name version content meta s ->
  exists s', get_etag cache name version s = (Done (cm_etag meta), s') /\ Still s s'.
Proof.
  intros (_ & text & Hmeta & Hparse). unfold get_etag, get_metadata, mbind, M_bind.
  rewrite (join_simple _ _ metadata_simple).
  destruct (disk_read (dir_prefix (pack_dir cache name version) +:+ "metadata.json") s)
    as (r & s1 & -> & R & F & T).
  rewrite Hmeta in R. subst r. cbn. rewrite Hparse. by exists s1.
Qed.

Lemma stored_still cache name version content meta s s' :
  Stored cache name version content meta s -> Still s s' -> Stored cache name version content meta s'.
Proof.
  intros (Hp & text & Hm & Ht) [F _]. split; [by rewrite F|]. exists text. by rewrite F.
Qed.

Lemma cache_get_expired cache name version content meta s :
  Stored cache name version content meta s ->
  compute_digest content = Done (cm_digest meta) ->
  (cm_expires_at meta < disk_time s)%Z ->
  exists s', cache_get cache name version s = (Done (Ok None), s') /\ Still s s'.
Proof.
  intros Hst Hd Hx. destruct (cache_get_stored _ _ _ _ _ _ Hst Hd) as (r & s' & now & Hg & St & Hn & Hr).
  rewrite (proj2 (Z.ltb_lt _ _)) in Hr by lia. subst r. by exists s'.
Qed.

(** C22: an expired entry cannot be revalidated.  Its recorded tag is sent, and when
    the registry answers that the copy is current, the client looks for an
    entry that has not expired, finds none and fails, although the copy is
    there and current. *)
Theorem expired_entry_never_revalidated (self : PackResolver) name version pinned content meta (s : S) :
  rs_no_cache (rv_config self) = false ->
  Stored (rv_cache self) name version content meta s ->
  compute_digest content = Done (cm_digest meta) ->
  (cm_expires_at meta < disk_time s)%Z ->
  (forall s0, Still s s0 -> exists s1,
     fetch_pack (rv_client self) name version (cm_etag meta) s0 = (Done (Ok None), s1) /\ Still s0 s1) ->
  exists s', resolve_registry self name version pinned s =
    (Done (Err (CacheError "304 response but no cached entry")), s').
Proof.
  intros Hn Hst Hd Hx Hfetch. unfold resolve_registry, try_bind at 1, try_cache. rewrite Hn. cbn [negb].
  unfold mbind at 1, M_bind at 1.
  destruct (cache_get_expired _ _ _ _ _ _ Hst Hd Hx) as (s1 & -> & S1).
  unfold fetch_and_accept. rewrite Hn. unfold mbind at 1, M_bind at 1.
  apply (stored_still _ _ _ _ _ _ s1) in Hst; [|done].
  cbn beta iota delta [mret M_ret].
  destruct (get_etag_stored _ _ _ _ _ _ Hst) as (s2 & -> & S2).
  unfold try_bind at 1. destruct (Hfetch s2) as (s3 & -> & S3); [by eapply still_trans|].
  apply (stored_still _ _ _ _ _ _ s2) in Hst; [|done].
  apply (stored_still _ _ _ _ _ _ s3) in Hst; [|done].
  unfold use_not_modified, try_bind.
  destruct (cache_get_expired _ _ _ _ _ s3 Hst Hd) as (s4 & -> & S4); [|by exists s4].
  destruct S1, S2, S3. lia.
Qed.

End Files.
