(* ===== verification/Lockfile.v ===== *)
(** * Lockfiles

    [assay-registry/src/lockfile.rs] and [lockfile_next/]: the recorded version,
    digest and source of each pack; generating, verifying, checking and updating
    them through the resolver.  YAML is the class [LockSerde]. *)
From stdpp Require Import base tactics list strings gmap pretty sorting.
From Stdlib Require Import Ascii ZArith Lia.
From S2P Require Import Prelude RustStr Json Platform PackRef PackYaml PackTrust RegistryClient PackCache PackResolver.

Definition LOCKFILE_VERSION : Z := 2.

Inductive LockSource : Type := LockBundled | LockRegistry | LockByos | LockLocal.
#[global] Instance LockSource_eq_dec : EqDecision LockSource.
Proof. solve_decision. Defined.

Record LockSignature : Type := mkLockSignature { lsg_algorithm : string; lsg_key_id : string }.

Record LockedPack : Type := mkLockedPack {
  lp_name : string;
  lp_version : string;
  lp_digest : string;
  lp_source : LockSource;
  lp_registry_url : option string;
  lp_byos_url : option string;
  lp_signature : option LockSignature
}.
#[global] Instance LockedPack_eta : Eta LockedPack := fun r =>
  mkLockedPack (lp_name r) (lp_version r) (lp_digest r) (lp_source r) (lp_registry_url r)
    (lp_byos_url r) (lp_signature r).

Record Lockfile : Type := mkLockfile {
  lf_version : Z;
  lf_generated_at : Z;
  lf_generated_by : string;
  lf_packs : list LockedPack
}.
#[global] Instance Lockfile_eta : Eta Lockfile := fun r =>
  mkLockfile (lf_version r) (lf_generated_at r) (lf_generated_by r) (lf_packs r).

Record LockMismatch : Type := mkLockMismatch {
  lm_name : string;
  lm_version : string;
  lm_expected : string;
  lm_actual : string
}.

Record VerifyLockResult : Type := mkVerifyLockResult {
  vl_all_match : bool;
  vl_matched : list string;
  vl_mismatched : list LockMismatch;
  vl_missing : list string;
  vl_extra : list string
}.
#[global] Instance VerifyLockResult_eta : Eta VerifyLockResult := fun r =>
  mkVerifyLockResult (vl_all_match r) (vl_matched r) (vl_mismatched r) (vl_missing r) (vl_extra r).

Class LockSerde : Type := {
  lockfile_from_yaml : string -> Result Lockfile string;
  lockfile_to_yaml : Lockfile -> Result string string;
  (** [CARGO_PKG_VERSION]. *)
  registry_pkg_version : string
}.

(** ** lockfile.rs: the queries *)

Definition remove_pack (lockfile : Lockfile) (name : string) : bool * Lockfile :=
  let packs := List.filter (fun p => negb (String.eqb (lp_name p) name)) (lf_packs lockfile) in
  (negb (Nat.eqb (length packs) (length (lf_packs lockfile))), lockfile <| lf_packs := packs |>).

Definition get_pack (lockfile : Lockfile) (name : string) : option LockedPack :=
  List.find (fun p => String.eqb (lp_name p) name) (lf_packs lockfile).

Definition lockfile_contains (lockfile : Lockfile) (name : string) : bool :=
  existsb (fun p => String.eqb (lp_name p) name) (lf_packs lockfile).

Definition pack_names (lockfile : Lockfile) : list string := map lp_name (lf_packs lockfile).

(** ** format.rs *)

Definition by_name (a b : LockedPack) : Prop := str_le (lp_name a) (lp_name b).
#[global] Instance by_name_dec a b : Decision (by_name a b) := str_le_dec (lp_name a) (lp_name b).

(** [sort_by] is stable. *)
Definition add_pack (now : Z) (lockfile : Lockfile) (pack : LockedPack) : Lockfile :=
  let packs := List.filter (fun p => negb (String.eqb (lp_name p) (lp_name pack))) (lf_packs lockfile) in
  lockfile <| lf_packs := merge_sort by_name (packs ++ [pack]) |> <| lf_generated_at := now |>.

Definition lockfile_save_text `{LockSerde} (lockfile : Lockfile) : RegistryResult string :=
  result_map_err (fun e => LockfileError ("failed to serialize lockfile: " +:+ e))
    (lockfile_to_yaml lockfile).

(** ** parse.rs *)

Definition parse_lockfile `{LockSerde} (content : string) : RegistryResult Lockfile :=
  match lockfile_from_yaml content with
  | Err e => Err (LockfileError ("failed to parse lockfile: " +:+ e))
  | Ok lockfile =>
      if (LOCKFILE_VERSION <? lf_version lockfile)%Z then
        Err (LockfileError ("lockfile version " +:+ fmt_int (lf_version lockfile)
                            +:+ " is newer than supported version " +:+ fmt_int LOCKFILE_VERSION))
      else Ok lockfile
  end.

(** [str::trim_end_matches] of a string: as many times as it ends with it. *)
Fixpoint trim_end_str (fuel : nat) (s p : string) : string :=
  match fuel with
  | O => s
  | Datatypes.S fuel => if ends_with s p then trim_end_str fuel (strip_suffix s p) p else s
  end.
Definition trim_end_matches_str (s p : string) : string := trim_end_str (String.length s) s p.

(** The name and version recorded for a reference. *)
Definition locked_name (pack_ref : PackRef) : string * string :=
  match pack_ref with
  | BundledRef name => (name, "bundled")
  | RegistryRef name version _ => (name, version)
  | ByosRef url =>
      let file := default "unknown" (last (str_split "/"%char url)) in
      (trim_end_matches_str (trim_end_matches_str file ".yaml") ".yml", "byos")
  | LocalRef path => (default "unknown" (file_stem path), "local")
  end.

Definition locked_source (source : ResolveSource) : LockSource * option string * option string :=
  match source with
  | FromLocal _ => (LockLocal, None, None)
  | FromBundled _ => (LockBundled, None, None)
  | FromCache => (LockRegistry, None, None)
  | FromRegistry url => (LockRegistry, Some url, None)
  | FromByos url => (LockByos, None, Some url)
  end.

Definition locked_signature (resolved : ResolvedPack) : option LockSignature :=
  v ← rp_verification resolved;
  key_id ← vr_key_id v;
  Some (mkLockSignature "Ed25519" key_id).

Definition lock_entry (pack_ref : PackRef) (resolved : ResolvedPack) : LockedPack :=
  let '(name, version) := locked_name pack_ref in
  let '(source, registry_url, byos_url) := locked_source (rp_source resolved) in
  mkLockedPack name version (rp_digest resolved) source registry_url byos_url
    (locked_signature resolved).

(** The reference under which a locked pack is resolved again. *)
Definition locked_reference (locked : LockedPack) : option string :=
  match lp_source locked with
  | LockBundled => Some (lp_name locked)
  | LockRegistry => Some (lp_name locked +:+ "@" +:+ lp_version locked +:+ "#" +:+ lp_digest locked)
  | LockByos => Some (default (lp_name locked) (lp_byos_url locked))
  | LockLocal => None
  end.

Section Locking.
Context `{Platform} `{YamlReader} `{PackCrypto} `{RegistrySerde} `{CacheSerde} `{LockSerde}.
Context {S : Type} `{!Clock S} `{!Web S} `{!TokenCell S} `{!Disk S}.

Definition lockfile_new : M S Lockfile :=
  now ← read_clock;
  mret (mkLockfile LOCKFILE_VERSION now ("assay-cli/" +:+ registry_pkg_version) []).

(** ** io.rs *)

Definition lockfile_load (path : string) : M S (RegistryResult Lockfile) :=
  found ← path_exists path;
  if negb found then mret (Err (LockfileError ("lockfile not found: " +:+ path)))
  else
    text ← read_to_string path;
    content ←? mret (result_map_err (fun e => LockfileError ("failed to read lockfile: " +:+ e)) text);
    mret (parse_lockfile content).

Definition lockfile_save (lockfile : Lockfile) (path : string) : M S (RegistryResult ()) :=
  content ←? mret (lockfile_save_text lockfile);
  w ← write_file path content;
  mret (result_map_err (fun e => LockfileError ("failed to write lockfile: " +:+ e)) w).

(** ** mod.rs *)

Definition add_pack_now (lockfile : Lockfile) (pack : LockedPack) : M S Lockfile :=
  now ← read_clock;
  mret (add_pack now lockfile pack).

Fixpoint lock_references (self : PackResolver) (references : list string) (lockfile : Lockfile)
    : M S (RegistryResult Lockfile) :=
  match references with
  | [] => mret (Ok lockfile)
  | reference :: references =>
      pack_ref ←? mret (pack_ref_parse reference);
      resolved ←? resolve_ref self pack_ref;
      lockfile ← add_pack_now lockfile (lock_entry pack_ref resolved);
      lock_references self references lockfile
  end.

Definition generate_lockfile (references : list string) (self : PackResolver)
    : M S (RegistryResult Lockfile) :=
  lockfile ← lockfile_new;
  lock_references self references lockfile.

(** ** digest.rs *)

(** One locked pack: the results so far, extended. *)
Definition verify_locked (self : PackResolver) (locked : LockedPack) (acc : VerifyLockResult)
    : M S VerifyLockResult :=
  match locked_reference locked with
  | None => mret acc
  | Some reference =>
      r ← resolve self reference;
      mret
        (match r with
         | Ok resolved =>
             if String.eqb (rp_digest resolved) (lp_digest locked) then
               acc <| vl_matched := vl_matched acc ++ [lp_name locked] |>
             else
               acc <| vl_mismatched := vl_mismatched acc ++
                        [mkLockMismatch (lp_name locked) (lp_version locked) (lp_digest locked)
                           (rp_digest resolved)] |>
         | Err _ => acc <| vl_missing := vl_missing acc ++ [lp_name locked] |>
         end)
  end.

Fixpoint verify_packs (self : PackResolver) (packs : list LockedPack) (acc : VerifyLockResult)
    : M S VerifyLockResult :=
  match packs with
  | [] => mret acc
  | locked :: packs =>
      acc ← verify_locked self locked acc;
      verify_packs self packs acc
  end.

Definition verify_lockfile (lockfile : Lockfile) (self : PackResolver)
    : M S (RegistryResult VerifyLockResult) :=
  acc ← verify_packs self (lf_packs lockfile) (mkVerifyLockResult true [] [] [] []);
  mret (Ok (acc <| vl_all_match := is_nil (vl_mismatched acc) && is_nil (vl_missing acc) |>)).

Definition check_lockfile (lockfile : Lockfile) (self : PackResolver)
    : M S (RegistryResult (list LockMismatch)) :=
  result ←? verify_lockfile lockfile self;
  mret
    (if negb (vl_all_match result) then
       Err (LockfileError ("lockfile verification failed: "
              +:+ fmt_int (Z.of_nat (length (vl_mismatched result))) +:+ " mismatched, "
              +:+ fmt_int (Z.of_nat (length (vl_missing result))) +:+ " missing"))
     else Ok (vl_mismatched result)).

Fixpoint update_packs (self : PackResolver) (packs : list LockedPack)
    : M S (list LockedPack * list string) :=
  match packs with
  | [] => mret ([], [])
  | locked :: packs =>
      if bool_decide (lp_source locked = LockRegistry) then
        r ← resolve self (lp_name locked +:+ "@" +:+ lp_version locked);
        let '(locked, changed) :=
          match r with
          | Ok resolved =>
              if negb (String.eqb (rp_digest resolved) (lp_digest locked))
              then (locked <| lp_digest := rp_digest resolved |>, [lp_name locked])
              else (locked, [])
          | Err _ => (locked, [])
          end in
        rest ← update_packs self packs;
        mret (locked :: fst rest, changed ++ snd rest)
      else
        rest ← update_packs self packs;
        mret (locked :: fst rest, snd rest)
  end.

(** The updated lockfile is returned with the names. *)
Definition update_lockfile (lockfile : Lockfile) (self : PackResolver)
    : M S (RegistryResult (list string) * Lockfile) :=
  result ← update_packs self (lf_packs lockfile);
  let lockfile := lockfile <| lf_packs := fst result |> in
  if is_nil (snd result) then mret (Ok (snd result), lockfile)
  else
    now ← read_clock;
    mret (Ok (snd result), lockfile <| lf_generated_at := now |>).

End Locking.
