(* ===== verification/LockfileCorrect.v ===== *)
(** * Lockfiles: theorems

    A lockfile stays sorted with one entry per name and answers queries as a map
    from names to entries; generating one records what was resolved; a verified
    one matches what resolves now; an update changes digests only. *)
From stdpp Require Import base tactics list strings gmap pretty sorting.
From Stdlib Require Import Ascii ZArith Lia.
From S2P Require Import Prelude RustStr Json Platform PackRef PackYaml PackTrust PackTrustCorrect RegistryClient PackCache PackResolver PackResolverCorrect Lockfile.

#[global] Instance by_name_total : Total by_name.
Proof. intros a b. unfold by_name. apply (total str_le). Qed.
#[global] Instance by_name_trans : Transitive by_name.
Proof. intros a b c. unfold by_name. apply transitivity. Qed.

(** Sorted by name, and no name twice. *)
Record LockInv (lockfile : Lockfile) : Prop := {
  li_sorted : StronglySorted by_name (lf_packs lockfile);
  li_unique : NoDup (pack_names lockfile)
}.

(** ** Adding and removing *)

Lemma other_packs_names name packs :
  NoDup (map lp_name packs) ->
  NoDup (map lp_name (List.filter (fun p => negb (String.eqb (lp_name p) name)) packs)) /\
  name ∉ map lp_name (List.filter (fun p => negb (String.eqb (lp_name p) name)) packs).
Proof.
  induction packs as [|p packs IH]; cbn; intros Hn.
  - split; [constructor|]. intros Hx. inversion Hx.
  - inversion Hn as [|? ? Hp Hr]; subst. destruct (IH Hr) as [IH1 IH2].
    destruct (String.eqb_spec (lp_name p) name) as [|Hne]; cbn; [done|]. split.
    + constructor; [|done]. intros Hin. apply Hp. revert Hin. rewrite !list_elem_of_In, !in_map_iff.
      intros (x & Ex & Hx%filter_In). exists x. tauto.
    + intros [E|Hx]%elem_of_cons; [by apply Hne|done].
Qed.

Lemma add_pack_perm now lockfile pack :
  lf_packs (add_pack now lockfile pack) ≡ₚ
  pack :: List.filter (fun p => negb (String.eqb (lp_name p) (lp_name pack))) (lf_packs lockfile).
Proof.
  unfold add_pack. cbn. rewrite merge_sort_Permutation. by rewrite Permutation_app_comm.
Qed.

Lemma add_pack_inv now lockfile pack :
  NoDup (pack_names lockfile) -> LockInv (add_pack now lockfile pack).
Proof.
  intros Hn. split.
  - unfold add_pack. cbn. apply StronglySorted_merge_sort; apply _.
  - unfold pack_names. rewrite add_pack_perm. cbn.
    destruct (other_packs_names (lp_name pack) (lf_packs lockfile) Hn). by constructor.
Qed.

Lemma find_unique packs p :
  NoDup (map lp_name packs) -> p ∈ packs ->
  List.find (fun q => String.eqb (lp_name q) (lp_name p)) packs = Some p.
Proof.
  induction packs as [|q packs IH]; cbn; intros Hn Hp; [by inversion Hp|].
  inversion Hn as [|? ? Hq Hr]; subst.
  destruct (String.eqb_spec (lp_name q) (lp_name p)) as [E|Hne].
  - apply elem_of_cons in Hp as [->|Hp]; [done|]. destruct Hq. rewrite E.
    apply list_elem_of_In, in_map, list_elem_of_In. done.
  - apply elem_of_cons in Hp as [->|Hp]; [done|]. by apply IH.
Qed.

Lemma find_absent packs name :
  name ∉ map lp_name packs -> List.find (fun q => String.eqb (lp_name q) name) packs = None.
Proof.
  induction packs as [|q packs IH]; cbn; intros Hn; [done|].
  apply not_elem_of_cons in Hn as [Hq Hn].
  destruct (String.eqb_spec (lp_name q) name) as [E|]; [by subst|]. by apply IH.
Qed.

Lemma get_pack_spec lockfile p :
  NoDup (pack_names lockfile) ->
  (get_pack lockfile (lp_name p) = Some p <-> p ∈ lf_packs lockfile).
Proof.
  intros Hn. split.
  - intros Hf. apply list_elem_of_In. by apply find_some in Hf as [Hf _].
  - by apply find_unique.
Qed.

Lemma get_pack_name lockfile name p : get_pack lockfile name = Some p -> lp_name p = name.
Proof. unfold get_pack. intros [_ E%String.eqb_eq]%find_some. done. Qed.

(** Adding a pack keeps the lockfile sorted with one entry per name, replaces the
    entry of that name, and leaves every other entry as it was; the lockfile is
    a map from names to packs. *)
Theorem add_pack_spec now lockfile pack :
  NoDup (pack_names lockfile) ->
  LockInv (add_pack now lockfile pack) /\
  forall name, get_pack (add_pack now lockfile pack) name =
    if String.eqb name (lp_name pack) then Some pack else get_pack lockfile name.
Proof.
  intros Hn. pose proof (add_pack_inv now lockfile pack Hn) as Hinv. split; [done|]. intros name.
  assert (Hin : forall p, p ∈ lf_packs (add_pack now lockfile pack) <->
    p = pack \/ (lp_name p <> lp_name pack /\ p ∈ lf_packs lockfile)).
  { intros p. rewrite add_pack_perm, elem_of_cons, list_elem_of_In, filter_In, <- list_elem_of_In.
    destruct (String.eqb_spec (lp_name p) (lp_name pack)); cbn; naive_solver. }
  destruct (String.eqb_spec name (lp_name pack)) as [->|Hne].
  - apply get_pack_spec; [apply Hinv|]. apply Hin. by left.
  - destruct (get_pack lockfile name) as [p|] eqn:Ep.
    + pose proof (get_pack_name _ _ _ Ep) as <-. apply get_pack_spec; [apply Hinv|]. apply Hin. right.
      split; [done|]. by apply get_pack_spec.
    + destruct (get_pack (add_pack now lockfile pack) name) as [p|] eqn:Eq; [|done].
      pose proof (get_pack_name _ _ _ Eq) as <-.
      apply get_pack_spec in Eq; [|apply Hinv]. apply Hin in Eq as [->|[_ Hp]]; [done|].
      apply get_pack_spec in Hp; [|done]. congruence.
Qed.

(** Removing a pack says whether it was there. *)
Lemma remove_pack_spec lockfile name :
  NoDup (pack_names lockfile) ->
  fst (remove_pack lockfile name) = lockfile_contains lockfile name /\
  get_pack (snd (remove_pack lockfile name)) name = None.
Proof.
  intros Hn. split.
  - unfold remove_pack, lockfile_contains. cbn. generalize (lf_packs lockfile) as packs. clear Hn.
    assert (Hle : forall packs : list LockedPack, length (List.filter (fun p => negb (String.eqb (lp_name p) name)) packs) <= length packs).
    { intros packs. induction packs as [|p packs IH]; cbn; [done|]. destruct (negb _); cbn; lia. }
    induction packs as [|p packs IH]; cbn; [done|].
    destruct (String.eqb_spec (lp_name p) name); cbn; [|exact IH].
    specialize (Hle packs). destruct (Nat.eqb_spec (length (List.filter (fun p0 => negb (String.eqb (lp_name p0) name)) packs)) (Datatypes.S (length packs))); [lia|done].
  - unfold get_pack, remove_pack. cbn. apply find_absent. by apply other_packs_names.
Qed.

Section Locking.
Context `{Platform} `{YamlReader} `{PackCrypto} `{RegistrySerde} `{CacheSerde} `{LockSerde}.
Context {S : Type} `{!Clock S} `{!Web S} `{!TokenCell S} `{!Disk S}.

(** ** Generating *)

(** An entry records what a reference resolved to. *)
Definition Recorded (self : PackResolver) (reference : string) (locked : LockedPack) : Prop :=
  exists pack_ref pack (s s' : S),
    pack_ref_parse reference = Ok pack_ref /\
    resolve_ref self pack_ref s = (Done (Ok pack), s') /\ locked = lock_entry pack_ref pack.

Lemma lock_entry_digest pack_ref pack : lp_digest (lock_entry pack_ref pack) = rp_digest pack.
Proof.
  unfold lock_entry. destruct (locked_name pack_ref), (locked_source (rp_source pack)) as [[? ?] ?]. done.
Qed.

Lemma lock_references_ok self references lockfile s s' lockfile' :
  NoDup (pack_names lockfile) ->
  lock_references self references lockfile s = (Done (Ok lockfile'), s') ->
  NoDup (pack_names lockfile') /\ (references <> [] -> LockInv lockfile') /\
  forall locked, locked ∈ lf_packs lockfile' ->
    locked ∈ lf_packs lockfile \/ exists reference, reference ∈ references /\ Recorded self reference locked.
Proof.
  revert lockfile s. induction references as [|reference references IH]; intros lockfile s Hn;
    cbn [lock_references].
  { intros [= -> _]. split_and!; [done|done|]. intros locked Hl. by left. }
  intros (pack_ref & s1 & Hp & Hl)%try_bind_inv. injection Hp as Hp _.
  apply try_bind_inv in Hl as (pack & s2 & Hr & Hl).
  apply bind_inv in Hl as (added & s3 & Ha & Hl). unfold add_pack_now in Ha.
  apply bind_inv in Ha as (now & s4 & _ & Ha). injection Ha as Ha _. 
  assert (Hadd : LockInv added) by (rewrite <- Ha; by apply add_pack_inv).
  destruct (IH added s3 (li_unique _ Hadd) Hl) as (Hn' & Hinv & Hrec). split_and!; [done| |].
  - intros _. destruct references; [|by apply Hinv]. injection Hl as -> _. done.
  - intros locked Hin. destruct (Hrec locked Hin) as [Hold|(r & Hr' & Hrr)].
    + rewrite <- Ha, add_pack_perm, elem_of_cons, list_elem_of_In, filter_In, <- list_elem_of_In in Hold.
      destruct Hold as [->|[Hold _]]; [|by left]. right. exists reference. split; [by left|].
      by exists pack_ref, pack, s1, s2.
    + right. exists r. split; [by right|done].
Qed.

(** A generated lockfile is sorted, has one entry per name, and every entry
    records the digest of content that one of the references resolved to. *)
Theorem generated_lockfile_sound references self (s s' : S) lockfile :
  generate_lockfile references self s = (Done (Ok lockfile), s') ->
  LockInv lockfile /\
  forall locked, locked ∈ lf_packs lockfile ->
    exists reference, reference ∈ references /\ Recorded self reference locked /\
      exists content, compute_digest content = Done (lp_digest locked).
Proof.
  unfold generate_lockfile, lockfile_new. intros (lf & s1 & Hl & Hg)%bind_inv.
  apply bind_inv in Hl as (now & s2 & _ & Hl). injection Hl as Hl _.
  assert (Hn : NoDup (pack_names lf)) by (rewrite <- Hl; constructor).
  pose proof (lock_references_ok _ _ _ _ _ _ Hn Hg) as (Hn' & Hinv & Hrec).
  split.
  - destruct references; [|by apply Hinv]. injection Hg as <- _. rewrite <- Hl. split; constructor.
  - intros locked Hin. destruct (Hrec locked Hin) as [Hold|(reference & Hr & Hrr)].
    + rewrite <- Hl in Hold. by inversion Hold.
    + exists reference. split_and!; [done|done|].
      destruct Hrr as (pack_ref & pack & s3 & s4 & _ & Hres & ->).
      exists (rp_content pack). rewrite lock_entry_digest. by apply (resolve_ref_ok _ _ _ _ _ Hres).
Qed.

(** ** Verifying *)

(** The locked pack resolves to content with the recorded digest. *)
Definition Verified (self : PackResolver) (locked : LockedPack) : Prop :=
  exists reference pack (s s' : S),
    locked_reference locked = Some reference /\
    resolve self reference s = (Done (Ok pack), s') /\ rp_digest pack = lp_digest locked.

Definition Mismatched (self : PackResolver) (locked : LockedPack) (m : LockMismatch) : Prop :=
  exists reference pack (s s' : S),
    locked_reference locked = Some reference /\
    resolve self reference s = (Done (Ok pack), s') /\ rp_digest pack <> lp_digest locked /\
    m = mkLockMismatch (lp_name locked) (lp_version locked) (lp_digest locked) (rp_digest pack).

Definition Missing (self : PackResolver) (locked : LockedPack) : Prop :=
  exists reference e (s s' : S),
    locked_reference locked = Some reference /\ resolve self reference s = (Done (Err e), s').

(** The lists of a result, entry by entry in the order of the packs. *)
Inductive Judged (self : PackResolver)
    : list LockedPack -> list string -> list LockMismatch -> list string -> Prop :=
| judged_nil : Judged self [] [] [] []
| judged_local locked packs ok bad gone :
    lp_source locked = LockLocal -> Judged self packs ok bad gone ->
    Judged self (locked :: packs) ok bad gone
| judged_ok locked packs ok bad gone :
    Verified self locked -> Judged self packs ok bad gone ->
    Judged self (locked :: packs) (lp_name locked :: ok) bad gone
| judged_bad locked packs ok bad gone m :
    Mismatched self locked m -> Judged self packs ok bad gone ->
    Judged self (locked :: packs) ok (m :: bad) gone
| judged_gone locked packs ok bad gone :
    Missing self locked -> Judged self packs ok bad gone ->
    Judged self (locked :: packs) ok bad (lp_name locked :: gone).

Lemma verify_packs_judged self packs acc s s' r :
  verify_packs self packs acc s = (Done r, s') ->
  exists ok bad gone, Judged self packs ok bad gone /\
    vl_matched r = vl_matched acc ++ ok /\ vl_mismatched r = vl_mismatched acc ++ bad /\
    vl_missing r = vl_missing acc ++ gone /\ vl_extra r = vl_extra acc.
Proof.
  revert acc s. induction packs as [|locked packs IH]; intros acc s; cbn [verify_packs].
  { intros [= -> _]. exists [], [], []. rewrite !app_nil_r. split_and!; [constructor|done..]. }
  intros (acc1 & s1 & Hv & Hr)%bind_inv.
  destruct (IH acc1 s1 Hr) as (ok & bad & gone & Hj & Q1 & Q2 & Q3 & Q4). unfold verify_locked in Hv.
  destruct (locked_reference locked) as [reference|] eqn:Er.
  2:{ injection Hv as -> _. exists ok, bad, gone. split_and!; try done. apply judged_local; [|done].
      unfold locked_reference in Er. by destruct (lp_source locked). }
  apply bind_inv in Hv as (res & s2 & Hres & Hv). injection Hv as <- _.
  destruct res as [pack|e]; [destruct (String.eqb_spec (rp_digest pack) (lp_digest locked)) as [E|E]|];
    cbn in Q1, Q2, Q3, Q4; rewrite Q1, Q2, Q3, Q4, <- ?app_assoc.
  - exists (lp_name locked :: ok), bad, gone. split_and!; try done. apply judged_ok; [|done].
    by exists reference, pack, s, s2.
  - eexists ok, (_ :: bad), gone. split_and!; try done. apply judged_bad; [|done].
    by exists reference, pack, s, s2.
  - exists ok, bad, (lp_name locked :: gone). split_and!; try done. apply judged_gone; [|done].
    by exists reference, e, s, s2.
Qed.

Lemma judged_all self packs ok bad gone :
  Judged self packs ok bad gone -> bad = [] -> gone = [] ->
  forall locked, locked ∈ packs -> lp_source locked = LockLocal \/ Verified self locked.
Proof.
  induction 1; intros Hb Hg x Hx; try done; [by inversion Hx|..];
    apply elem_of_cons in Hx as [->|Hx]; auto.
Qed.

Lemma verify_lockfile_ok lockfile self s s' r :
  verify_lockfile lockfile self s = (Done (Ok r), s') ->
  exists ok bad gone, Judged self (lf_packs lockfile) ok bad gone /\
    vl_all_match r = is_nil bad && is_nil gone /\
    vl_matched r = ok /\ vl_mismatched r = bad /\ vl_missing r = gone /\ vl_extra r = [].
Proof.
  unfold verify_lockfile. intros (acc & s1 & Hv & Hr)%bind_inv.
  apply verify_packs_judged in Hv as (ok & bad & gone & Hj & Q1 & Q2 & Q3 & Q4). cbn in *.
  injection Hr as <- _. exists ok, bad, gone. cbn. by rewrite Q2, Q3.
Qed.

(** C23: what a verified lockfile means: every pack is accounted for, in order, as
    matching, mismatched or missing, except local files, which are skipped; and
    when all match, every other pack resolves to content whose digest is the
    recorded one. *)
Theorem verify_lockfile_sound lockfile self (s s' : S) r :
  verify_lockfile lockfile self s = (Done (Ok r), s') ->
  Judged self (lf_packs lockfile) (vl_matched r) (vl_mismatched r) (vl_missing r) /\
  (vl_all_match r = true ->
   forall locked, locked ∈ lf_packs lockfile ->
     lp_source locked = LockLocal \/
     exists content, compute_digest content = Done (lp_digest locked) /\ Verified self locked).
Proof.
  intros (ok & bad & gone & Hj & Ha & -> & -> & -> & _)%verify_lockfile_ok. split; [done|].
  rewrite Ha. intros [Hb Hg]%andb_true_iff locked Hin.
  destruct bad; [|done]. destruct gone; [|done].
  destruct (judged_all _ _ _ _ _ Hj eq_refl eq_refl locked Hin) as [|Hv]; [by left|]. right.
  pose proof Hv as (reference & pack & s0 & s1 & _ & Hr & Hd). exists (rp_content pack). split; [|done].
  apply resolve_ok in Hr as (pack_ref & _ & Hc & _). by rewrite Hc, Hd.
Qed.

(** *** What the reports do not say *)

(** The check that succeeds reports nothing: its list of mismatches is empty. *)
Lemma check_lockfile_reports_nothing lockfile self (s s' : S) l :
  check_lockfile lockfile self s = (Done (Ok l), s') -> l = [].
Proof.
  unfold check_lockfile. intros (r & s1 & Hv & Hc)%try_bind_inv.
  apply verify_lockfile_ok in Hv as (ok & bad & gone & _ & Ha & _ & Hb & _).
  destruct (vl_all_match r); [|done]. injection Hc as <- _. rewrite Hb.
  destruct bad; [done|]. done.
Qed.

(** A registry pack whose digest changed is not reported as a mismatch: the
    reference it is resolved under pins the digest, so resolving fails, unless
    the registry answered with 304. *)
Lemma registry_pack_never_mismatched self locked m :
  lp_source locked = LockRegistry ->
  (forall reference, locked_reference locked = Some reference ->
     pack_ref_parse reference = Ok (RegistryRef (lp_name locked) (lp_version locked) (Some (lp_digest locked)))) ->
  Mismatched self locked m ->
  exists (s s3 : S) response,
    Answered self (lp_name locked) (lp_version locked) (Some (lp_digest locked)) s response s3 /\
    wr_status response = 304%Z.
Proof.
  intros _ Hp (reference & pack & s & s' & Hl & Hr & Hd & _).
  apply resolve_ok in Hr as (pack_ref & Hparse & _ & Hfrom). rewrite (Hp _ Hl) in Hparse.
  injection Hparse as <-. cbn in Hfrom. unfold ResolvedFrom in Hfrom.
  destruct (rp_source pack); try done.
  - destruct Hfrom as (entry & -> & _ & [(_ & Hpin & _)|(response & s3 & Ha & H304 & _)]); [|by exists s, s3, response].
    by destruct Hd; apply Hpin.
  - destruct Hfrom as (_ & Hpin & _). by destruct Hd; apply Hpin.
Qed.

(** ** Updating *)

(** An updated entry differs in its digest at most, and only for registry packs. *)
Definition same_entry (locked locked' : LockedPack) : Prop :=
  locked' = locked \/
  (lp_source locked = LockRegistry /\ lp_digest locked' <> lp_digest locked /\
   locked' = locked <| lp_digest := lp_digest locked' |>).

Definition changed_names (packs packs' : list LockedPack) : list string :=
  concat (zip_with (fun p p' => if String.eqb (lp_digest p') (lp_digest p) then [] else [lp_name p])
            packs packs').

Lemma update_packs_ok self packs s s' packs' names :
  update_packs self packs s = (Done (packs', names), s') ->
  Forall2 same_entry packs packs' /\ names = changed_names packs packs'.
Proof.
  revert s s' packs' names. induction packs as [|locked packs IH]; intros s s' packs' names;
    cbn [update_packs].
  { intros [= <- <- _]. by split. }
  destruct (bool_decide (lp_source locked = LockRegistry)) eqn:Es.
  - apply bool_decide_eq_true in Es. intros (r & s1 & _ & Hu)%bind_inv.
    set (step := match r with Ok _ => _ | Err _ => _ end) in Hu.
    assert (Hstep : same_entry locked (fst step) /\
      snd step = if String.eqb (lp_digest (fst step)) (lp_digest locked) then [] else [lp_name locked]).
    { unfold step. destruct r as [pack|e].
      - destruct (String.eqb_spec (rp_digest pack) (lp_digest locked)) as [E|E]; cbn.
        + rewrite String.eqb_refl. split; [by left|done].
        + destruct (String.eqb_spec (rp_digest pack) (lp_digest locked)); [done|].
          split; [|done]. right. by split_and!.
      - cbn. rewrite String.eqb_refl. split; [by left|done]. }
    destruct step as [locked' changed]. cbn [fst snd] in Hstep. destruct Hstep as [Hs Hc].
    apply bind_inv in Hu as ([rest names'] & s2 & Hu & Hr). cbn [fst snd] in Hr.
    injection Hr as <- <- _. destruct (IH _ _ _ _ Hu) as [Hf ->]. split; [by constructor|].
    unfold changed_names. cbn. by rewrite Hc.
  - intros ([rest names'] & s2 & Hu & Hr)%bind_inv. cbn [fst snd] in Hr. injection Hr as <- <- _.
    destruct (IH _ _ _ _ Hu) as [Hf ->]. split; [constructor; [by left|done]|].
    unfold changed_names. cbn. by rewrite String.eqb_refl.
Qed.

Lemma same_entry_name locked locked' :
  same_entry locked locked' -> lp_name locked' = lp_name locked /\ lp_version locked' = lp_version locked.
Proof. intros [->|(_ & _ & ->)]; done. Qed.

Lemma same_entries_names packs packs' :
  Forall2 same_entry packs packs' -> map lp_name packs' = map lp_name packs.
Proof.
  induction 1 as [|p p' packs packs' Hs _ IH]; [done|]. cbn. rewrite IH.
  by destruct (same_entry_name _ _ Hs) as [-> _].
Qed.

Lemma same_entries_sorted packs packs' :
  Forall2 same_entry packs packs' -> StronglySorted by_name packs -> StronglySorted by_name packs'.
Proof.
  induction 1 as [|p p' packs packs' Hs Hf IH]; [done|]. intros Hst. inversion Hst as [|? ? Hst' Hall]; subst.
  constructor; [by apply IH|]. clear IH Hst Hst'. destruct (same_entry_name _ _ Hs) as [Ep _].
  induction Hf as [|q q' packs packs' Hq Hf IH]; [constructor|]. inversion Hall as [|? ? Hpq Hall']; subst.
  constructor; [|by apply IH]. destruct (same_entry_name _ _ Hq) as [Eq _].
  unfold by_name in *. by rewrite Ep, Eq.
Qed.

(** An update changes nothing but the digests of registry packs: the entries keep
    their names, versions, sources and order, the names reported are exactly
    those whose digest changed, and a lockfile stays sorted and unique. *)
Theorem update_lockfile_spec lockfile self (s s' : S) names lockfile' :
  update_lockfile lockfile self s = (Done (Ok names, lockfile'), s') ->
  Forall2 same_entry (lf_packs lockfile) (lf_packs lockfile') /\
  names = changed_names (lf_packs lockfile) (lf_packs lockfile') /\
  (LockInv lockfile -> LockInv lockfile') /\
  (names = [] -> lf_generated_at lockfile' = lf_generated_at lockfile).
Proof.
  unfold update_lockfile. intros ([packs' names'] & s1 & Hu & Hr)%bind_inv. cbn [fst snd] in Hr.
  apply update_packs_ok in Hu as [Hf Hn].
  assert (Hl : lf_packs lockfile' = packs' /\ names = names' /\
    (names' = [] -> lf_generated_at lockfile' = lf_generated_at lockfile)).
  { destruct names' as [|n names'']; cbn [is_nil] in Hr.
    - injection Hr as <- <- _. done.
    - apply bind_inv in Hr as (now & s2 & _ & Hr). injection Hr as <- <- _. done. }
  destruct Hl as (E & -> & Hg). rewrite E. split_and!; [done|done| |done].
  intros [Hs Hu]. split; [rewrite E; by eapply same_entries_sorted|].
  unfold pack_names. by rewrite E, (same_entries_names _ _ Hf).
Qed.

End Locking.
