(* ===== verification/MerkleLog.v ===== *)
(** * Inclusion in a Merkle log

    [assay-registry/src/rekor/checkpoint.rs]: [sha256] over parts and
    [rfc6962_root], the recomputation of a transparency log's root from one
    leaf and its audit path, with the [while] loop that skips the levels on
    which the last node has no sibling.

    The specification is RFC 6962 section 2.1: the hash [mth] of a list of
    leaves, split at the largest power of two below its length, and the audit
    path of a leaf.  [rebuild] recomputes the root from the top of the tree
    down; [root_loop_rebuild] shows that the loop of the source, which climbs
    from the leaf by shifting two indices, computes the same.  SHA-256 is
    third-party code; a tree hash is a string of 32 bytes. *)
From stdpp Require Import base tactics list strings.
From Stdlib Require Import Ascii ZArith Lia.
From S2P Require Import Prelude RustStr.

(** ** checkpoint.rs *)

Class Sha256 : Type := { sha256_bytes : string -> string }.
(** A digest has 32 bytes. *)
Class Sha256Laws `{Sha256} : Prop := {
  sha256_length s : String.length (sha256_bytes s) = 32%nat
}.

Definition sha256 `{Sha256} (parts : list string) : string := sha256_bytes (str_concat parts).

Definition byte (n : nat) : string := String (ascii_of_nat n) EmptyString.

Section Root.
Context `{Sha256}.
Local Open Scope Z_scope.

(** [while fnode & 1 == 0 && fnode != 0]: a [u64] is 0 after 64 shifts. *)
Fixpoint shift_even (fuel : nat) (fnode snode : Z) : Z * Z :=
  match fuel with
  | O => (fnode, snode)
  | S fuel =>
      if (Z.land fnode 1 =? 0) && negb (fnode =? 0)
      then shift_even fuel (Z.shiftr fnode 1) (Z.shiftr snode 1)
      else (fnode, snode)
  end.

(** One proof hash: the hash so far, the node's index and the last index of
    the level. *)
Definition root_step (p : string) (st : string * Z * Z) : option (string * Z * Z) :=
  let '(r, fnode, snode) := st in
  if snode =? 0 then None
  else if (Z.land fnode 1 =? 1) || (fnode =? snode) then
    let r := sha256 [byte 1; p; r] in
    let '(fnode, snode) := shift_even 64 fnode snode in
    Some (r, Z.shiftr fnode 1, Z.shiftr snode 1)
  else Some (sha256 [byte 1; r; p], Z.shiftr fnode 1, Z.shiftr snode 1).

Fixpoint root_steps (hashes : list string) (st : string * Z * Z) : option (string * Z * Z) :=
  match hashes with
  | [] => Some st
  | p :: hashes =>
      match root_step p st with Some st => root_steps hashes st | None => None end
  end.

Definition rfc6962_root (leaf_hash : string) (fnode tree_size : Z) (hashes : list string)
    : option string :=
  if tree_size <=? fnode then None
  else
    match root_steps hashes (leaf_hash, fnode, tree_size - 1) with
    | Some (r, _, snode) => if negb (snode =? 0) then None else Some r
    | None => None
    end.

End Root.

(** ** RFC 6962, section 2.1 *)

Section Rfc6962.
Context `{Sha256}.

Definition leaf_hash (entry : string) : string := sha256 [byte 0; entry].
Definition node_hash (l r : string) : string := sha256 [byte 1; l; r].

(** The hash of at most [2 ^ d] leaves: a list that does not fit in [2 ^ d]
    leaves is split there, one that does has no node at this height. *)
Fixpoint mth_at (d : nat) (leaves : list string) : string :=
  match d with
  | O => default EmptyString (head leaves)
  | S d =>
      if decide (length leaves <= 2 ^ d)%nat then mth_at d leaves
      else node_hash (mth_at d (take (2 ^ d) leaves)) (mth_at d (drop (2 ^ d) leaves))
  end.

(** The audit path of leaf [m], from the leaf to the root. *)
Fixpoint path_at (d m : nat) (leaves : list string) : list string :=
  match d with
  | O => []
  | S d =>
      if decide (length leaves <= 2 ^ d)%nat then path_at d m leaves
      else if decide (m < 2 ^ d)%nat
      then path_at d m (take (2 ^ d) leaves) ++ [mth_at d (drop (2 ^ d) leaves)]
      else path_at d (m - 2 ^ d) (drop (2 ^ d) leaves) ++ [mth_at d (take (2 ^ d) leaves)]
  end.

Definition tree_height (n : nat) : nat := Nat.log2_up n.

(** The Merkle tree hash and the audit path of a list of log entries. *)
Definition mth (entries : list string) : string :=
  match entries with
  | [] => sha256 []
  | _ => mth_at (tree_height (length entries)) (leaf_hash <$> entries)
  end.
Definition audit_path (m : nat) (entries : list string) : list string :=
  path_at (tree_height (length entries)) m (leaf_hash <$> entries).

(** Recomputing the root of a tree of [n] leaves from leaf [m] and the path
    read from the root down. *)
Fixpoint rebuild (d m n : nat) (r : string) (from_root : list string) : option string :=
  match d with
  | O => if is_nil from_root then Some r else None
  | S d =>
      if decide (n <= 2 ^ d)%nat then rebuild d m n r from_root
      else
        match from_root with
        | [] => None
        | p :: from_root =>
            if decide (m < 2 ^ d)%nat
            then (fun x => node_hash x p) <$> rebuild d m (2 ^ d) r from_root
            else (fun x => node_hash p x) <$> rebuild d (m - 2 ^ d) (n - 2 ^ d) r from_root
        end
  end.

(** How many hashes the path of leaf [m] of [n] has. *)
Fixpoint path_length (d m n : nat) : nat :=
  match d with
  | O => 0
  | S d =>
      if decide (n <= 2 ^ d)%nat then path_length d m n
      else if decide (m < 2 ^ d)%nat then S d
      else S (path_length d (m - 2 ^ d) (n - 2 ^ d))
  end.

(** The byte strings that computing the hash of a log feeds to SHA-256: one for
    each entry and one for each node above. *)
Definition leaf_input (entry : string) : string := str_concat [byte 0; entry].
Definition node_input (l r : string) : string := str_concat [byte 1; l; r].

Fixpoint node_inputs (d : nat) (leaves : list string) : list string :=
  match d with
  | O => []
  | S d =>
      if decide (length leaves <= 2 ^ d)%nat then node_inputs d leaves
      else node_input (mth_at d (take (2 ^ d) leaves)) (mth_at d (drop (2 ^ d) leaves))
             :: node_inputs d (take (2 ^ d) leaves) ++ node_inputs d (drop (2 ^ d) leaves)
  end.
Definition log_inputs (entries : list string) : list string :=
  (leaf_input <$> entries) ++ node_inputs (tree_height (length entries)) (leaf_hash <$> entries).

(** Those of [rebuild]: one for each hash of the path. *)
Fixpoint rebuild_inputs (d m n : nat) (r : string) (from_root : list string) : list string :=
  match d, from_root with
  | O, _ => []
  | S d, _ =>
      if decide (n <= 2 ^ d)%nat then rebuild_inputs d m n r from_root
      else
        match from_root with
        | [] => []
        | p :: from_root =>
            if decide (m < 2 ^ d)%nat
            then ((fun x => node_input x p) <$> option_list (rebuild d m (2 ^ d) r from_root))
                   ++ rebuild_inputs d m (2 ^ d) r from_root
            else ((fun x => node_input p x) <$> option_list (rebuild d (m - 2 ^ d) (n - 2 ^ d) r from_root))
                   ++ rebuild_inputs d (m - 2 ^ d) (n - 2 ^ d) r from_root
        end
  end.
Definition proof_inputs (index size : nat) (body : string) (hashes : list string) : list string :=
  leaf_input body :: rebuild_inputs (tree_height size) index size (leaf_hash body) (reverse hashes).

(** SHA-256 tells these strings apart.  The list is finite: no string outside
    it is spoken of. *)
Definition Distinguished (inputs : list string) : Prop :=
  forall a b, a ∈ inputs -> b ∈ inputs -> sha256_bytes a = sha256_bytes b -> a = b.

End Rfc6962.

(** ** Arithmetic of the two indices *)

#[local] Ltac Zify.zify_post_hook ::= Z.to_euclidean_division_equations.

Section Loop.
Context `{Sha256}.
Local Open Scope Z_scope.

Lemma land_1 f : Z.land f 1 = if Z.odd f then 1 else 0.
Proof.
  change (Z.land f 1) with (Z.land f (Z.ones 1)). rewrite Z.land_ones by lia. apply Zmod_odd.
Qed.

Lemma shiftr_1 f : Z.shiftr f 1 = f / 2.
Proof. by rewrite Z.shiftr_div_pow2. Qed.

Lemma pow2_nat d : Z.of_nat (2 ^ d) = 2 ^ Z.of_nat d.
Proof. by rewrite Nat2Z.inj_pow. Qed.

(** The [if] of the loop, on the parity of the index. *)
Lemma root_step_eq p r f s :
  root_step p (r, f, s) =
    if s =? 0 then None
    else if Z.odd f then Some (node_hash p r, f / 2, s / 2)
    else if f =? s then
      let '(f, s) := shift_even 64 f s in Some (node_hash p r, f / 2, s / 2)
    else Some (node_hash r p, f / 2, s / 2).
Proof.
  unfold root_step. rewrite land_1. destruct (s =? 0); [done|].
  destruct (Z.odd f) eqn:Eo; cbn [Z.eqb orb].
  - cbn [shift_even]. rewrite land_1, Eo. cbn. by rewrite !shiftr_1.
  - destruct (f =? s); [|by rewrite !shiftr_1].
    destruct (shift_even 64 f s). by rewrite !shiftr_1.
Qed.

Lemma root_steps_app l1 l2 st :
  root_steps (l1 ++ l2) st = root_steps l1 st ≫= root_steps l2.
Proof.
  revert st. induction l1 as [|p l1 IH]; intros st; cbn; [done|].
  destruct (root_step p st) as [st'|]; [apply IH | done].
Qed.

(** *** A full subtree to the left of the last leaf *)

Lemma div_pow2_succ f d : f / 2 ^ (Z.of_nat (S d)) = f / 2 ^ Z.of_nat d / 2.
Proof. rewrite Nat2Z.inj_succ, Z.pow_succ_r by lia. rewrite (Z.mul_comm 2), Z.div_div; lia. Qed.

(** In a subtree all of whose leaves come before the last leaf of the log,
    every hash consumes one bit of the index. *)
Lemma full_subtree_step p r c (b : bool) s :
  0 <= c -> c < s / 2 ->
  root_step p (r, 2 * c + Z.b2z b, s) = Some (if b then node_hash p r else node_hash r p, c, s / 2).
Proof.
  intros Hc Hlt. rewrite root_step_eq.
  assert (2 * c + Z.b2z b < s) by (pose proof (Z.mul_div_le s 2); destruct b; cbn [Z.b2z]; lia).
  assert ((2 * c + Z.b2z b) / 2 = c) as -> by (destruct b; cbn [Z.b2z]; lia).
  rewrite Z.add_comm, Z.odd_add_mul_2 in *.
  destruct (Z.eqb_spec s 0); [destruct b; cbn [Z.b2z] in *; lia|].
  destruct b; cbn [Z.b2z Z.odd] in *; [done|]. destruct (Z.eqb_spec (0 + 2 * c) s); [lia|done].
Qed.

Lemma snoc_length {A} (l : list A) d : length l = S d -> exists l' x, l = l' ++ [x] /\ length l' = d.
Proof.
  destruct l as [|x l _] using rev_ind; [done|]. rewrite length_app. cbn. intros. exists l, x.
  split; [done|lia].
Qed.

Lemma full_subtree d : forall m c s r hs,
  (m < 2 ^ d)%nat -> 0 <= c -> c < s / 2 ^ Z.of_nat d -> length hs = d ->
  exists x, rebuild d m (2 ^ d) r (reverse hs) = Some x
    /\ root_steps hs (r, c * 2 ^ Z.of_nat d + Z.of_nat m, s) = Some (x, c, s / 2 ^ Z.of_nat d).
Proof.
  induction d as [|d IH]; intros m c s r hs Hm Hc Hs Hlen.
  - destruct hs; [|done]. exists r. cbn in *. split; [done|]. repeat f_equal; [lia|]. by rewrite Z.div_1_r.
  - destruct (snoc_length _ _ Hlen) as (hs' & p & -> & Hlen').
    rewrite div_pow2_succ in *. pose proof (Nat.pow_nonzero 2 d ltac:(lia)).
    assert (2 * c + 1 < s / 2 ^ Z.of_nat d) by (pose proof (Z.mul_div_le (s / 2 ^ Z.of_nat d) 2); lia).
    rewrite reverse_app, root_steps_app. cbn [rebuild reverse app].
    change (reverse [p] ++ reverse hs') with (p :: reverse hs').
    rewrite Nat.pow_succ_r' in *. rewrite decide_False by lia.
    replace (2 * 2 ^ d - 2 ^ d)%nat with (2 ^ d)%nat by lia.
    rewrite Nat2Z.inj_succ, Z.pow_succ_r by lia. pose proof (pow2_nat d).
    destruct (decide (m < 2 ^ d)%nat) as [Hlt|Hge].
    + destruct (IH m (2 * c + Z.b2z false) s r hs') as (x & Hr & Hst); [cbn [Z.b2z]; lia..|].
      exists (node_hash x p). rewrite Hr. split; [done|].
      replace (c * (2 * 2 ^ Z.of_nat d)) with ((2 * c + Z.b2z false) * 2 ^ Z.of_nat d) by (cbn [Z.b2z]; ring).
      rewrite Hst. cbn [mbind option_bind root_steps]. by rewrite full_subtree_step.
    + destruct (IH (m - 2 ^ d)%nat (2 * c + Z.b2z true) s r hs') as (x & Hr & Hst); [cbn [Z.b2z]; lia..|].
      exists (node_hash p x). rewrite Hr. split; [done|].
      replace (c * (2 * 2 ^ Z.of_nat d) + Z.of_nat m)
        with ((2 * c + Z.b2z true) * 2 ^ Z.of_nat d + Z.of_nat (m - 2 ^ d)) by (cbn [Z.b2z]; lia).
      rewrite Hst. cbn [mbind option_bind root_steps]. by rewrite full_subtree_step.
Qed.

(** *** The subtree that holds the last leaf

    Its run standing alone is the run inside the log, with one more bit set in
    both indices. *)

Lemma shift_add a b j : 2 * b = 2 ^ j -> (2 ^ j + a) / 2 = b + a / 2 /\ Z.odd (2 ^ j + a) = Z.odd a.
Proof. intros <-. rewrite Z.add_comm, Z.odd_add_mul_2. split; [lia|done]. Qed.

Lemma pow2_half j s : 0 <= j -> 0 < s < 2 ^ j -> 2 * 2 ^ (j - 1) = 2 ^ j /\ 1 <= j.
Proof.
  intros Hj Hs. assert (1 <= j) by (destruct (Z.eq_dec j 0) as [->|]; [cbn in Hs|]; lia).
  rewrite <- Z.pow_succ_r by lia. split; [f_equal|]; lia.
Qed.

Lemma shift_even_add fuel : forall f s j,
  0 <= j -> 0 < f -> f <= s -> s < 2 ^ j ->
  let (f', s') := shift_even fuel f s in
  exists j', shift_even fuel (2 ^ j + f) (2 ^ j + s) = (2 ^ j' + f', 2 ^ j' + s')
    /\ 0 <= j' <= j /\ 0 < f' /\ f' <= s' /\ s' < 2 ^ j'.
Proof.
  induction fuel as [|fuel IH]; intros f s j Hj Hf Hfs Hs; cbn [shift_even]; [by exists j|].
  destruct (pow2_half j s) as [Hp Hj1]; [lia..|].
  destruct (shift_add f _ j Hp) as [Hdf Hof], (shift_add s _ j Hp) as [Hds _].
  rewrite !land_1, Hof. destruct (Z.eqb_spec f 0); [lia|]. destruct (Z.eqb_spec (2 ^ j + f) 0); [lia|].
  destruct (Z.odd f) eqn:Eo; cbn [Z.eqb negb andb]; [by exists j|].
  rewrite !shiftr_1, Hdf, Hds. assert (f <> 1) by (intros ->; done).
  specialize (IH (f / 2) (s / 2) (j - 1)).
  destruct (shift_even fuel (f / 2) (s / 2)) as [f' s'].
  destruct IH as (j' & -> & ? & ?); [lia..|]. exists j'. split; [done|]. lia.
Qed.

Lemma root_step_add p r f s j st :
  0 <= j -> 0 <= f <= s -> s < 2 ^ j -> root_step p (r, f, s) = Some st ->
  exists r' f' s' j', st = (r', f', s')
    /\ root_step p (r, 2 ^ j + f, 2 ^ j + s) = Some (r', 2 ^ j' + f', 2 ^ j' + s')
    /\ 0 <= j' <= j /\ 0 <= f' <= s' /\ s' < 2 ^ j'.
Proof.
  intros Hj Hf Hs. rewrite !root_step_eq.
  destruct (Z.eqb_spec s 0); [done|]. destruct (pow2_half j s) as [Hp Hj1]; [lia..|].
  destruct (shift_add f _ j Hp) as [Hdf Hof], (shift_add s _ j Hp) as [Hds _].
  destruct (Z.eqb_spec (2 ^ j + s) 0); [lia|]. rewrite Hof, Hdf, Hds.
  destruct (Z.odd f) eqn:Eo.
  - intros [= <-]. exists (node_hash p r), (f / 2), (s / 2), (j - 1). split_and!; try done; lia.
  - destruct (Z.eqb_spec f s) as [<-|Hne].
    + rewrite Z.eqb_refl. pose proof (shift_even_add 64 f f j Hj ltac:(lia) ltac:(lia) Hs) as Hsh.
      destruct (shift_even 64 f f) as [f' s']. destruct Hsh as (j' & -> & ? & ? & ? & ?). intros [= <-].
      destruct (pow2_half j' s') as [Hp' Hj1']; [lia..|].
      destruct (shift_add f' _ j' Hp') as [-> _], (shift_add s' _ j' Hp') as [-> _].
      exists (node_hash p r), (f' / 2), (s' / 2), (j' - 1). split_and!; try done; lia.
    + destruct (Z.eqb_spec (2 ^ j + f) (2 ^ j + s)); [lia|]. intros [= <-].
      exists (node_hash r p), (f / 2), (s / 2), (j - 1). split_and!; try done; lia.
Qed.

Lemma root_steps_add hs : forall r f s j st,
  0 <= j -> 0 <= f <= s -> s < 2 ^ j -> root_steps hs (r, f, s) = Some st ->
  exists r' f' s' j', st = (r', f', s')
    /\ root_steps hs (r, 2 ^ j + f, 2 ^ j + s) = Some (r', 2 ^ j' + f', 2 ^ j' + s')
    /\ 0 <= j' <= j /\ 0 <= f' <= s' /\ s' < 2 ^ j'.
Proof.
  induction hs as [|p hs IH]; intros r f s j st Hj Hf Hs; cbn [root_steps].
  - intros [= <-]. by exists r, f, s, j.
  - destruct (root_step p (r, f, s)) as [st1|] eqn:E1; [|done]. intros Hst.
    destruct (root_step_add _ _ _ _ _ _ Hj Hf Hs E1) as (r1 & f1 & s1 & j1 & -> & -> & ? & ? & ?).
    destruct (IH r1 f1 s1 j1 st) as (r' & f' & s' & j' & -> & ? & ? & ? & ?); [lia..|done|].
    exists r', f', s', j'. split_and!; try done; lia.
Qed.

(** *** A whole tree *)

Lemma shift_even_pow2 fuel : forall j, (j <= fuel)%nat ->
  shift_even fuel (2 ^ Z.of_nat j) (2 ^ Z.of_nat j) = (1, 1).
Proof.
  induction fuel as [|fuel IH]; intros j Hj; cbn [shift_even].
  - by replace j with 0%nat by lia.
  - destruct j as [|j]; [done|]. rewrite Nat2Z.inj_succ, Z.pow_succ_r, land_1, shiftr_1 by lia.
    rewrite Z.odd_mul. cbn [Z.odd andb Z.eqb]. pose proof (Z.pow_pos_nonneg 2 (Z.of_nat j)).
    destruct (Z.eqb_spec (2 * 2 ^ Z.of_nat j) 0); [lia|]. cbn [negb].
    replace (2 * 2 ^ Z.of_nat j / 2) with (2 ^ Z.of_nat j) by lia. apply IH. lia.
Qed.

(** At the node that joins the last subtree with the full one beside it. *)
Lemma join_step p r j : 0 <= j <= 64 -> root_step p (r, 2 ^ j + 0, 2 ^ j + 0) = Some (node_hash p r, 0, 0).
Proof.
  intros Hj. rewrite !Z.add_0_r, root_step_eq, Z.eqb_refl.
  pose proof (Z.pow_pos_nonneg 2 j ltac:(lia) ltac:(lia)). destruct (Z.eqb_spec (2 ^ j) 0); [lia|].
  destruct (Z.odd (2 ^ j)) eqn:Eo.
  - destruct (Z.eq_dec j 0) as [->|]; [done|]. replace j with (Z.succ (j - 1)) in Eo by lia.
    by rewrite Z.pow_succ_r, Z.odd_mul in Eo by lia.
  - rewrite <- (Z2Nat.id j) by lia. rewrite shift_even_pow2 by lia. done.
Qed.

Lemma subtree_root d : forall n m r hs,
  (d <= 64)%nat -> (m < n <= 2 ^ d)%nat -> length hs = path_length d m n ->
  exists x, rebuild d m n r (reverse hs) = Some x
    /\ root_steps hs (r, Z.of_nat m, Z.of_nat n - 1) = Some (x, 0, 0).
Proof.
  induction d as [|d IH]; intros n m r hs Hd [Hmn Hn]; cbn [path_length rebuild].
  - intros Hlen. destruct hs; [|done]. cbn in Hn. exists r. cbn. split; [done|]. repeat f_equal; lia.
  - rewrite Nat.pow_succ_r' in Hn. pose proof (pow2_nat d) as Hp.
    destruct (decide (n <= 2 ^ d)%nat) as [Hle|Hgt]; [intros Hlen; apply IH; [lia..|done]|].
    destruct (decide (m < 2 ^ d)%nat) as [Hlt|Hge]; intros (hs' & p & -> & Hlen)%snoc_length;
      rewrite reverse_app, root_steps_app; change (reverse [p] ++ reverse hs') with (p :: reverse hs').
    + assert ((Z.of_nat n - 1) / 2 ^ Z.of_nat d = 1) as Hq.
      { symmetry. apply Z.div_unique with (Z.of_nat n - 1 - 2 ^ Z.of_nat d); lia. }
      destruct (full_subtree d m 0 (Z.of_nat n - 1) r hs') as (x & Hr & Hst); [lia|lia|rewrite Hq; lia|lia|].
      rewrite Hr. rewrite Z.mul_0_l, Z.add_0_l, Hq in Hst. rewrite Hst. by exists (node_hash x p).
    + destruct (IH (n - 2 ^ d) (m - 2 ^ d) r hs')%nat as (x & Hr & Hst); [lia..|].
      rewrite Hr. exists (node_hash p x). split; [done|].
      destruct (root_steps_add hs' r (Z.of_nat (m - 2 ^ d)) (Z.of_nat (n - 2 ^ d) - 1) (Z.of_nat d) (x, 0, 0))
        as (? & ? & ? & j & [= <- <- <-] & Hadd & ? & _); [lia..|done|].
      replace (2 ^ Z.of_nat d + Z.of_nat (m - 2 ^ d)) with (Z.of_nat m) in Hadd by lia.
      replace (2 ^ Z.of_nat d + (Z.of_nat (n - 2 ^ d) - 1)) with (Z.of_nat n - 1) in Hadd by lia.
      rewrite Hadd. cbn [mbind option_bind root_steps]. by rewrite join_step by lia.
Qed.

Lemma root_steps_stop hs r f st : root_steps hs (r, f, 0) = Some st -> hs = [].
Proof. by destruct hs. Qed.

(** A run that ends with every level consumed used the whole path. *)
Lemma root_steps_length d n m r hs x f :
  (d <= 64)%nat -> (m < n <= 2 ^ d)%nat ->
  root_steps hs (r, Z.of_nat m, Z.of_nat n - 1) = Some (x, f, 0) -> length hs = path_length d m n.
Proof.
  intros Hd Hn Hst. set (L := path_length d m n).
  destruct (Nat.lt_trichotomy (length hs) L) as [Hlt|[?|Hgt]]; [|done|].
  - destruct (subtree_root d n m r (hs ++ replicate (L - length hs) EmptyString)) as (y & _ & Hy); [done..| |].
    { rewrite length_app, length_replicate. lia. }
    rewrite root_steps_app, Hst in Hy. cbn [mbind option_bind] in Hy. apply root_steps_stop in Hy.
    apply (f_equal length) in Hy. rewrite length_replicate in Hy. cbn in Hy. lia.
  - destruct (subtree_root d n m r (take L hs)) as (y & _ & Hy); [done..| |].
    { rewrite length_take. lia. }
    rewrite <- (take_drop L hs), root_steps_app, Hy in Hst. cbn [mbind option_bind] in Hst.
    apply root_steps_stop, (f_equal length) in Hst. rewrite length_drop in Hst. cbn in Hst. lia.
Qed.

Lemma path_length_full d m : (m < 2 ^ d)%nat -> path_length d m (2 ^ d) = d.
Proof.
  revert m. induction d as [|d IH]; intros m Hm; cbn [path_length]; [done|].
  rewrite Nat.pow_succ_r' in *. pose proof (Nat.pow_nonzero 2 d ltac:(lia)).
  rewrite decide_False by lia. destruct (decide _); [done|].
  replace (2 * 2 ^ d - 2 ^ d)%nat with (2 ^ d)%nat by lia. rewrite IH; lia.
Qed.

Lemma rebuild_length d : forall m n r rhs x,
  (m < n <= 2 ^ d)%nat -> rebuild d m n r rhs = Some x -> length rhs = path_length d m n.
Proof.
  induction d as [|d IH]; intros m n r rhs x [Hm Hn]; cbn [rebuild path_length].
  - by destruct rhs.
  - rewrite Nat.pow_succ_r' in Hn. destruct (decide (n <= 2 ^ d)%nat); [by eauto|].
    destruct rhs as [|p rhs]; [done|]. destruct (decide (m < 2 ^ d)%nat); intros (y & Hy & _)%fmap_Some; cbn.
    + erewrite (IH m (2 ^ d)%nat) by first [exact Hy | lia]. by rewrite path_length_full.
    + by erewrite (IH (m - 2 ^ d) (n - 2 ^ d))%nat by first [exact Hy | lia].
Qed.

(** The loop of the source computes the root that the tree defines. *)
Lemma root_loop_rebuild d n m r hs :
  (d <= 64)%nat -> (m < n <= 2 ^ d)%nat ->
  rfc6962_root r (Z.of_nat m) (Z.of_nat n) hs = rebuild d m n r (reverse hs).
Proof.
  intros Hd Hn. unfold rfc6962_root. destruct (Z.leb_spec (Z.of_nat n) (Z.of_nat m)); [lia|].
  destruct (decide (length hs = path_length d m n)) as [Hl|Hl].
  - destruct (subtree_root d n m r hs) as (x & -> & ->); done.
  - destruct (rebuild d m n r (reverse hs)) as [x|] eqn:Er.
    { apply rebuild_length in Er; [|done]. by rewrite length_reverse in Er. }
    destruct (root_steps _ _) as [[[y f] s]|] eqn:Es; [|done].
    destruct (Z.eqb_spec s 0) as [->|]; [|done]. by eapply root_steps_length in Es.
Qed.

End Loop.

(** ** The log's tree hash *)

Section Tree.
Context `{Sha256}.

Lemma mth_at_grow d e leaves : (length leaves <= 2 ^ d)%nat -> mth_at (e + d) leaves = mth_at d leaves.
Proof.
  intros Hl. induction e as [|e IH]; [done|]. cbn [Nat.add mth_at].
  rewrite decide_True; [done|]. pose proof (Nat.pow_le_mono_r 2 d (e + d)). lia.
Qed.

Lemma height_enough n : (n <= 2 ^ tree_height n)%nat.
Proof. destruct (decide (1 < n)%nat); [apply Nat.log2_log2_up_spec; lia|].
  pose proof (Nat.pow_nonzero 2 (tree_height n)). lia. Qed.

Lemma mth_at_height d entries :
  entries <> [] -> (length entries <= 2 ^ d)%nat -> mth_at d (leaf_hash <$> entries) = mth entries.
Proof.
  intros Hne Hd. unfold mth. destruct entries as [|e entries]; [done|].
  set (l := e :: entries) in *. pose proof (height_enough (length l)) as Hh.
  assert (tree_height (length l) <= d)%nat as Hle by (apply Nat.log2_up_le_pow2; cbn in *; lia).
  replace d with ((d - tree_height (length l)) + tree_height (length l))%nat by lia.
  apply mth_at_grow. by rewrite length_fmap.
Qed.

(** RFC 6962: a tree of more than one leaf splits at the largest power of two
    smaller than the number of its leaves. *)
Lemma mth_split k entries :
  (2 ^ k < length entries <= 2 ^ S k)%nat ->
  mth entries = node_hash (mth (take (2 ^ k) entries)) (mth (drop (2 ^ k) entries)).
Proof.
  intros Hk. assert (entries <> []) as Hne by (intros ->; cbn in Hk; lia).
  rewrite <- (mth_at_height (S k) entries) by (done || lia).
  pose proof (Nat.pow_nonzero 2 k ltac:(lia)). rewrite Nat.pow_succ_r' in Hk.
  cbn [mth_at]. rewrite decide_False by (rewrite length_fmap; lia).
  rewrite <- fmap_take, <- fmap_drop. f_equal; apply mth_at_height.
  - intros Hn. apply (f_equal length) in Hn. rewrite length_take in Hn. cbn in Hn. lia.
  - rewrite length_take. lia.
  - intros Hn. apply (f_equal length) in Hn. rewrite length_drop in Hn. cbn in Hn. lia.
  - rewrite length_drop. lia.
Qed.

Lemma mth_singleton entry : mth [entry] = leaf_hash entry.
Proof. done. Qed.

(** The path of a leaf rebuilds the root. *)
Lemma rebuild_path d : forall m leaves r,
  (length leaves <= 2 ^ d)%nat -> leaves !! m = Some r ->
  rebuild d m (length leaves) r (reverse (path_at d m leaves)) = Some (mth_at d leaves).
Proof.
  induction d as [|d IH]; intros m leaves r Hl Hm; cbn [rebuild path_at mth_at].
  - destruct leaves as [|x [|y l]]; [done| |cbn in Hl; lia]. by destruct m; simplify_eq/=.
  - rewrite Nat.pow_succ_r' in Hl. destruct (decide (length leaves <= 2 ^ d)%nat); [by apply IH|].
    assert (length (take (2 ^ d) leaves) = 2 ^ d)%nat as Ht by (rewrite length_take; lia).
    destruct (decide (m < 2 ^ d)%nat); rewrite reverse_app; cbn.
    + specialize (IH m (take (2 ^ d) leaves) r). rewrite Ht, lookup_take_lt in IH by done. by rewrite IH.
    + specialize (IH (m - 2 ^ d)%nat (drop (2 ^ d) leaves) r). rewrite length_drop, lookup_drop in IH.
      rewrite IH; [done|lia|]. rewrite <- Hm. f_equal. lia.
Qed.

Context `{!Sha256Laws}.

Lemma node_hash_length l r : String.length (node_hash l r) = 32%nat.
Proof. apply sha256_length. Qed.
Lemma leaf_hash_length e : String.length (leaf_hash e) = 32%nat.
Proof. apply sha256_length. Qed.

Lemma append_inj_length a b c d :
  String.length a = String.length c -> a +:+ b = c +:+ d -> a = c /\ b = d.
Proof.
  revert c. induction a as [|x a IH]; intros [|y c] Hl Ha; try done.
  cbn in *. injection Ha as -> Ha. destruct (IH c) as [-> ->]; [lia|done|done].
Qed.

Lemma node_input_inj a b c d :
  String.length a = 32%nat -> String.length c = 32%nat -> node_input a b = node_input c d -> a = c /\ b = d.
Proof.
  intros Ha Hc Hs. cbn in Hs. rewrite !string_app_nil_r in Hs. injection Hs as Hs.
  apply append_inj_length; congruence.
Qed.

Lemma leaf_input_inj a b : leaf_input a = leaf_input b -> a = b.
Proof. intros Hs. cbn in Hs. rewrite !string_app_nil_r in Hs. by injection Hs. Qed.

Abbreviation is_hash := (fun h => String.length h = 32%nat).

Lemma mth_at_hash d : forall leaves,
  leaves <> [] -> Forall is_hash leaves -> String.length (mth_at d leaves) = 32%nat.
Proof.
  induction d as [|d IH]; intros leaves Hne Hls; cbn [mth_at].
  - destruct leaves; [done|]. by apply Forall_cons in Hls as [? _].
  - destruct (decide _); [by apply IH|apply node_hash_length].
Qed.

Lemma rebuild_hash d m n r rhs x :
  rebuild d m n r rhs = Some x -> String.length r = 32%nat -> String.length x = 32%nat.
Proof.
  revert m n rhs x. induction d as [|d IH]; intros m n rhs x; cbn [rebuild].
  - destruct rhs; [|done]. by intros [= ->].
  - destruct (decide _); [by apply IH|]. destruct rhs; [done|].
    destruct (decide _); intros (? & ? & ->)%fmap_Some _; apply node_hash_length.
Qed.

(** A path that rebuilds the root starts at the leaf of its index, where the
    strings hashed on the two sides are told apart. *)
Lemma rebuild_sound inputs (Hinj : Distinguished inputs) d : forall m leaves r rhs,
  (m < length leaves <= 2 ^ d)%nat -> String.length r = 32%nat ->
  Forall is_hash leaves -> Forall is_hash rhs ->
  node_inputs d leaves ⊆ inputs -> rebuild_inputs d m (length leaves) r rhs ⊆ inputs ->
  rebuild d m (length leaves) r rhs = Some (mth_at d leaves) -> leaves !! m = Some r.
Proof.
  induction d as [|d IH]; intros m leaves r rhs [Hm Hl] Hr Hls Hrhs; cbn [rebuild mth_at node_inputs rebuild_inputs].
  - destruct leaves as [|x [|y l]]; [cbn in Hm; lia| |cbn in Hl; lia]. destruct rhs; [|done].
    intros _ _ [= ->]. by destruct m; [|cbn in Hm; lia].
  - rewrite Nat.pow_succ_r' in Hl. destruct (decide (length leaves <= 2 ^ d)%nat); [by apply IH|].
    assert (length (take (2 ^ d) leaves) = 2 ^ d)%nat as Ht by (rewrite length_take; lia).
    pose proof (Nat.pow_nonzero 2 d ltac:(lia)).
    assert (String.length (mth_at d (take (2 ^ d) leaves)) = 32%nat) as Hleft.
    { apply mth_at_hash; [by destruct (take _ _)|by apply Forall_take]. }
    intros [Hnode [Hn1 Hn2]%list_subseteq_app_iff_l]%list_subseteq_cons_iff.
    destruct rhs as [|p rhs]; [done|]. apply Forall_cons in Hrhs as [Hp Hrhs].
    destruct (decide (m < 2 ^ d)%nat); intros [Hq Hqs]%list_subseteq_app_iff_l (x & Hx & Heq)%fmap_Some;
      rewrite Hx in Hq; cbn in Hq; apply list_subseteq_cons_iff in Hq as [Hq _];
      apply (Hinj _ _ Hnode Hq), node_input_inj in Heq as [Heql Heqr]; try done; subst.
    + rewrite <- Ht in Hqs. rewrite <- (lookup_take_lt leaves (2 ^ d)) by done.
      apply (IH m (take (2 ^ d) leaves) r rhs); try done; [lia|by apply Forall_take|by rewrite Ht].
    + by eapply rebuild_hash.
    + rewrite <- length_drop in Hx, Hqs.
      rewrite <- (IH (m - 2 ^ d)%nat (drop (2 ^ d) leaves) r rhs); try done.
      * rewrite lookup_drop. f_equal. lia.
      * rewrite length_drop. lia.
      * by apply Forall_drop.
Qed.

(** *** The source's check *)

Lemma tree_height_64 n : (Z.of_nat n < 2 ^ 64)%Z -> (tree_height n <= 64)%nat.
Proof.
  intros Hn. destruct (Nat.le_gt_cases n 1) as [Hs|Hb].
  - unfold tree_height. rewrite Nat.log2_up_eqn0; lia.
  - apply Nat.log2_up_le_pow2; [lia|]. apply Nat2Z.inj_le. rewrite Nat2Z.inj_pow. cbn. lia.
Qed.

Lemma mth_height entries :
  entries <> [] -> mth_at (tree_height (length entries)) (leaf_hash <$> entries) = mth entries.
Proof. by destruct entries. Qed.

(** Every entry of a log is included: its audit path recomputes the root. *)
Lemma inclusion_complete entries m entry :
  entries !! m = Some entry -> (Z.of_nat (length entries) < 2 ^ 64)%Z ->
  rfc6962_root (leaf_hash entry) (Z.of_nat m) (Z.of_nat (length entries)) (audit_path m entries)
    = Some (mth entries).
Proof.
  intros He Hn. pose proof (lookup_lt_Some _ _ _ He). pose proof (height_enough (length entries)).
  rewrite (root_loop_rebuild (tree_height (length entries))) by (by try apply tree_height_64).
  unfold audit_path. rewrite <- mth_height by (by intros ->).
  rewrite <- (length_fmap leaf_hash entries) at 2. apply rebuild_path; [by rewrite length_fmap|].
  by rewrite list_lookup_fmap, He.
Qed.

(** A leaf whose proof recomputes the root of a log is the log's entry of that
    index. *)
Lemma inclusion_sound entries m body hashes :
  (0 <= m)%Z -> (Z.of_nat (length entries) < 2 ^ 64)%Z -> Forall is_hash hashes ->
  Distinguished (log_inputs entries ++ proof_inputs (Z.to_nat m) (length entries) body hashes) ->
  rfc6962_root (leaf_hash body) m (Z.of_nat (length entries)) hashes = Some (mth entries) ->
  entries !! Z.to_nat m = Some body.
Proof.
  intros Hm Hn Hh Hinj Hroot. assert (m < Z.of_nat (length entries))%Z as Hlt.
  { unfold rfc6962_root in Hroot. destruct (Z.leb_spec (Z.of_nat (length entries)) m); [done|lia]. }
  pose proof (height_enough (length entries)). rewrite <- (Z2Nat.id m Hm) in Hroot.
  rewrite (root_loop_rebuild (tree_height (length entries))) in Hroot
    by (first [by apply tree_height_64 | lia]).
  rewrite <- mth_height in Hroot by (intros ->; cbn in *; lia).
  rewrite <- (length_fmap leaf_hash entries) in Hroot at 2.
  apply (rebuild_sound _ Hinj) in Hroot.
  - rewrite list_lookup_fmap in Hroot. apply fmap_Some in Hroot as (b & Hb & Hlh).
    rewrite Hb. f_equal. apply leaf_input_inj, Hinj; [| |done]; unfold log_inputs, proof_inputs.
    + apply elem_of_app. left. apply elem_of_app. left. apply list_elem_of_fmap_2. by eapply list_elem_of_lookup_2.
    + apply elem_of_app. right. by left.
  - rewrite length_fmap. lia.
  - apply leaf_hash_length.
  - apply Forall_fmap, Forall_forall. intros x _. apply leaf_hash_length.
  - by apply Forall_reverse.
  - intros x Hx. unfold log_inputs. rewrite !elem_of_app. left. by right.
  - intros x Hx. rewrite length_fmap in Hx. unfold proof_inputs. rewrite elem_of_app, elem_of_cons. by do 2 right.
Qed.

(** The [while] loop ends: a [u64] has no more than 64 bits to shift out. *)
Lemma shift_even_stops fuel f s :
  (0 <= f < 2 ^ Z.of_nat fuel)%Z ->
  let f' := (shift_even fuel f s).1 in Z.odd f' = true \/ f' = 0%Z.
Proof.
  revert f s. induction fuel as [|fuel IH]; intros f s Hf; cbn [shift_even].
  - cbn in Hf. right. cbn. lia.
  - rewrite land_1. destruct (Z.odd f) eqn:Eo; cbn [Z.eqb andb]; [by left|].
    destruct (Z.eqb_spec f 0); cbn [negb]; [by right|]. apply IH.
    rewrite Nat2Z.inj_succ, Z.pow_succ_r in Hf by lia. rewrite shiftr_1. lia.
Qed.

(** C24: the loop that climbs from a leaf computes the tree hash of RFC 6962.
    For any log of fewer than [2 ^ 64] entries, the audit path of an entry
    rebuilds the log's root from the entry's leaf hash.  And for any index, any
    bytes and any list of hashes, whatever its length, that rebuilds the root of
    the log, the bytes are the log's entry of that index, provided only that
    SHA-256 tells apart the finitely many strings that the two computations
    hash: the log's leaves and nodes, and those of the path. *)
Theorem rfc6962_root_correct entries index body :
  (0 <= index)%Z -> (Z.of_nat (length entries) < 2 ^ 64)%Z ->
  (entries !! Z.to_nat index = Some body ->
     rfc6962_root (leaf_hash body) index (Z.of_nat (length entries)) (audit_path (Z.to_nat index) entries)
       = Some (mth entries))
  /\ (forall hashes, Forall is_hash hashes ->
        Distinguished (log_inputs entries ++ proof_inputs (Z.to_nat index) (length entries) body hashes) ->
        rfc6962_root (leaf_hash body) index (Z.of_nat (length entries)) hashes = Some (mth entries) ->
        entries !! Z.to_nat index = Some body).
Proof.
  intros Hi Hn. split; [|intros hashes; by apply inclusion_sound].
  intros He. rewrite <- (Z2Nat.id index Hi) at 1. by apply inclusion_complete.
Qed.

End Tree.
