(* ===== verification/SerdeJson.v ===== *)
(** * Reading JSON into derived types

    What [assay-registry] takes from [serde_json] when it reads the evidence of
    a signature: [from_slice] into a [Value] (a repeated member keeps its place
    and takes the last value) and into the structs that derive [Deserialize],
    from an object (a repeated field is refused, an unknown member skipped or
    refused) or from an array of the fields in order; and [Value::pointer].  A
    text is read as the document of [JsonDoc]; a reader answers [None] where
    the library returns an error. *)
From stdpp Require Import base tactics list strings gmap.
From Stdlib Require Import Ascii ZArith Lia.
From S2P Require Import Prelude RustStr Json JsonDoc.

(** ** Values and scalars *)

Fixpoint read_value (d : nat) (doc : Doc) : option Value :=
  match doc with
  | DNull => Some Null
  | DBool b => Some (VBool b)
  | DNum n => Num <$> n
  | DStr s => Str <$> s
  | DBad => None
  | DArr l closed =>
      match enter d with
      | None => None
      | Some d => if closed then Arr <$> mapM (read_value d) l else None
      end
  | DObj m closed =>
      match enter d with
      | None => None
      | Some d =>
          if closed then
            Obj ∘ foldl (fun out e => map_insert out e.1 e.2) []
              <$> mapM (fun e : option string * Doc => k ← e.1; v ← read_value d e.2; Some (k, v)) m
          else None
      end
  end.

Definition read_string (doc : Doc) : option string :=
  match doc with DStr s => s | _ => None end.

Definition read_option {A} (read : Doc -> option A) (doc : Doc) : option (option A) :=
  match doc with DNull => Some None | _ => Some <$> read doc end.

Definition read_list {A} (read : nat -> Doc -> option A) (d : nat) (doc : Doc) : option (list A) :=
  match doc with
  | DArr l true => d ← enter d; mapM (read d) l
  | _ => None
  end.

(** [BTreeMap<String, String>]: the last value of a repeated key. *)
Definition read_string_map (d : nat) (doc : Doc) : option (gmap string string) :=
  match doc with
  | DObj m true =>
      _ ← enter d;
      foldl (fun out e => <[e.1 := e.2]> out) ∅
        <$> mapM (fun e : option string * Doc => k ← e.1; v ← read_string e.2; Some (k, v)) m
  | _ => None
  end.

(** ** Derived structs *)

(** A field, and whether it carries [#[serde(default)]]. *)
Abbreviation FieldSpec := (string * bool)%type (only parsing).

(** The documents of the fields that are present. *)
Abbreviation Fields := (list (string * Doc)) (only parsing).

Fixpoint fields_get (fs : Fields) (name : string) : option Doc :=
  match fs with
  | [] => None
  | (k, x) :: fs => if String.eqb k name then Some x else fields_get fs name
  end.

(** [visit_map]. *)
Fixpoint collect_members (names : list FieldSpec) (deny_unknown : bool) (m : list (option string * Doc))
    (fs : Fields) : option Fields :=
  match m with
  | [] => Some fs
  | (None, _) :: _ => None
  | (Some k, x) :: m =>
      if existsb (String.eqb k) (map fst names) then
        if opt_is_some (fields_get fs k) then None
        else collect_members names deny_unknown m ((k, x) :: fs)
      else if deny_unknown then None
      else match skip x with Ok _ => collect_members names deny_unknown m fs | Err _ => None end
  end.

(** [visit_seq]: only a field with a default may be left out. *)
Fixpoint collect_elements (names : list FieldSpec) (l : list Doc) : option Fields :=
  match names, l with
  | [], [] => Some []
  | (name, _) :: names, x :: l => cons (name, x) <$> collect_elements names l
  | (_, true) :: names, [] => collect_elements names []
  | _, _ => None
  end.

(** The fields of a struct and the depth left for them. *)
Definition read_fields (names : list FieldSpec) (deny_unknown : bool) (d : nat) (doc : Doc)
    : option (nat * Fields) :=
  match doc with
  | DObj m true => d ← enter d; fs ← collect_members names deny_unknown m []; Some (d, fs)
  | DArr l true => d ← enter d; fs ← collect_elements names l; Some (d, fs)
  | _ => None
  end.

(** A field that must be there, an [Option] (absent is [None]) and a field
    with a default. *)
Definition required {A} (fs : Fields) (name : string) (read : Doc -> option A) : option A :=
  fields_get fs name ≫= read.
Definition optional {A} (fs : Fields) (name : string) (read : Doc -> option A) : option (option A) :=
  match fields_get fs name with Some x => read_option read x | None => Some None end.
Definition defaulted {A} (fs : Fields) (name : string) (read : Doc -> option A) (dflt : A) : option A :=
  match fields_get fs name with Some x => read x | None => Some dflt end.

(** [serde_json::from_slice]. *)
Definition from_slice `{JsonReader} {A} (read : nat -> Doc -> option A) (bytes : string) : option A :=
  let (doc, complete) := json_document bytes in
  if complete then read RECURSION_LIMIT doc else None.

Definition value_from_slice `{JsonReader} : string -> option Value := from_slice read_value.

(** ** [Value::pointer] (RFC 6901) *)

(** [replace(from, to)] for a [from] of two characters. *)
Fixpoint replace_pair (a b : ascii) (to s : string) : string :=
  match s with
  | String x ((String y s') as r) =>
      if Ascii.eqb x a && Ascii.eqb y b then to +:+ replace_pair a b to s'
      else String x (replace_pair a b to r)
  | _ => s
  end.

Definition unescape_token (s : string) : string :=
  replace_pair "~" "0" "~" (replace_pair "~" "1" "/" s).

Definition parse_index (s : string) : option Z :=
  if starts_with s "+" || (starts_with s "0" && negb (str_len s =? 1)%Z) then None
  else parse_unsigned u64_max s.

Definition pointer_step (v : Value) (token : string) : option Value :=
  match v with
  | Obj m => map_get m token
  | Arr l => i ← parse_index token; l !! Z.to_nat i
  | _ => None
  end.

Definition pointer (v : Value) (p : string) : option Value :=
  match p with
  | EmptyString => Some v
  | String c rest =>
      if Ascii.eqb c "/" then
        foldl (fun acc token => acc ≫= fun v => pointer_step v (unescape_token token))
          (Some v) (str_split "/" rest)
      else None
  end.

Definition pointer_str (v : Value) (p : string) : option string := pointer v p ≫= as_str.
