(* ===== verification/Rekor.v ===== *)
(** * Offline transparency-log inclusion

    [assay-registry/src/rekor.rs] with [rekor/body.rs], [rekor/checkpoint.rs]
    and [rekor/trusted_root.rs]: the pinned logs of a trusted root, the parsing
    of a signed checkpoint, the strict schema of a logged entry, and
    [verify_rekor_v2_inclusion_offline].  Ed25519, base64 and SHA-256 are
    third-party code; bytes are strings. *)
From stdpp Require Import base tactics list strings gmap.
From Stdlib Require Import Ascii ZArith Lia.
From S2P Require Import Prelude RustStr Json Platform PackRef PackYaml PackTrust JsonDoc SerdeJson MerkleLog.

(** ** supply_chain/types.rs: the status of a check *)

Inductive CheckStatus : Type :=
| Verified
| Failed
| NotPresent
| NotApplicable
| UnsupportedFormat
| TrustRootUnavailable
| OnlineRequired
| PolicyNotSatisfied
| SubjectDigestMismatch
| IdentityMismatch
| NotChecked.
#[global] Instance CheckStatus_eq : EqDecision CheckStatus.
Proof. solve_decision. Defined.

Definition is_verified (s : CheckStatus) : bool := bool_decide (s = Verified).

(** The outcome of a check: a status and a reason. *)
Record CheckOutcome : Type := mkOutcome { out_status : CheckStatus; out_reason : string }.

(** ** Third-party code *)

(** A key of 32 bytes may be no point of the curve; a signature is any 64
    bytes.  [verify_strict] takes the key, the message and the signature. *)
Class LogCrypto : Type := {
  LogKey : Type;
  log_key_from_bytes : string -> option LogKey;
  verify_strict : LogKey -> string -> string -> bool
}.

(** ** checkpoint.rs *)

Definition b64 `{PackCrypto} (s : string) : option string :=
  match base64_decode s with Ok b => Some b | Err _ => None end.

Definition bytes_len (s : string) (n : nat) : bool := Nat.eqb (String.length s) n.

Record CheckpointSig : Type := mkCheckpointSig {
  cs_name : string;
  cs_key_hint : string;
  cs_sig : string
}.

Record Checkpoint : Type := mkCheckpoint {
  cp_signed_text : string;
  cp_origin : string;
  cp_tree_size : Z;
  cp_root_hash : string;
  cp_signatures : list CheckpointSig
}.

Definition strip_prefix (s p : string) : option string :=
  if starts_with s p then Some (str_drop (String.length p) s) else None.

(** A dash (U+2014) and a space. *)
Definition signature_prefix : string := of_bytes [226; 128; 148; 32]%N.
Definition LF : ascii := "010"%char.
Definition blank_line : string := String LF (String LF EmptyString).

(** A line that is no signature is skipped. *)
Definition parse_signature_line `{PackCrypto} (line : string) : option CheckpointSig :=
  let line := trim_end_matches "013"%char line in
  rest ← strip_prefix line signature_prefix;
  '(name, b64sig) ← split_once " "%char rest;
  decoded ← b64 b64sig;
  if (str_len decoded <? 4)%Z then None
  else Some (mkCheckpointSig name (str_take 4 decoded) (str_drop 4 decoded)).

Definition parse_checkpoint `{PackCrypto} (envelope : string) : option Checkpoint :=
  '(body, _) ← find_sub envelope blank_line;
  let sep := String.length body in
  let signed_text := str_take (S sep) envelope in
  let sig_block := str_drop (sep + 2) envelope in
  match str_split LF body with
  | origin :: size :: root :: _ =>
      tree_size ← parse_unsigned u64_max (str_trim size);
      root_hash ← b64 (str_trim root);
      if negb (bytes_len root_hash 32) then None
      else Some (mkCheckpoint signed_text origin tree_size root_hash
                   (omap parse_signature_line (str_split LF sig_block)))
  | _ => None
  end.

(** ** trusted_root.rs *)

Record PinnedTlog : Type := mkPinnedTlog {
  pl_key : string;
  pl_log_id : string;
  pl_origin : option string
}.

Definition normalize_origin (base_url : string) : string :=
  trim_end_matches "/"%char
    (default base_url (option_or (strip_prefix base_url "https://") (strip_prefix base_url "http://"))).

(** The raw key: the last 32 of 44 bytes of SPKI, or 32 bytes as they are. *)
Definition raw_ed25519_key (raw : string) : option string :=
  if bytes_len raw 44 then Some (str_take 32 (str_drop 12 raw))
  else if bytes_len raw 32 then Some raw
  else None.

Definition pinned_tlog `{PackCrypto} (t : Value) : option PinnedTlog :=
  if negb (bool_decide (pointer_str t "/publicKey/keyDetails" = Some "PKIX_ED25519")) then None
  else
    raw ← pointer_str t "/publicKey/rawBytes" ≫= b64;
    let key := raw_ed25519_key raw in
    let log_id := pointer_str t "/logId/keyId" ≫= b64 in
    let origin := normalize_origin <$> (vget t "baseUrl" ≫= as_str) in
    match key, log_id with
    | Some key, Some log_id => Some (mkPinnedTlog key log_id origin)
    | _, _ => None
    end.

Definition pinned_tlogs `{PackCrypto} (trusted_root : Value) : list PinnedTlog :=
  match vget trusted_root "tlogs" ≫= as_array with
  | Some tlogs => omap pinned_tlog tlogs
  | None => []
  end.

(** ** body.rs *)

Record BodyCert : Type := mkBodyCert { bc_raw_bytes : string }.
Record BodyVerifier : Type := mkBodyVerifier { bv_key_details : string; bv_x509_certificate : BodyCert }.
Record BodySignature : Type := mkBodySignature { bs_content : string; bs_verifier : BodyVerifier }.
Record BodyData : Type := mkBodyData { bd_algorithm : string; bd_digest : string }.
Record BodyV002 : Type := mkBodyV002 { v2_data : BodyData; v2_signature : BodySignature }.
Record BodySpec : Type := mkBodySpec { hashed_rekord_v002 : BodyV002 }.
Record HashedRekordBody : Type := mkHashedRekordBody {
  hb_api_version : string;
  hb_kind : string;
  hb_spec : BodySpec
}.

(** [#[serde(deny_unknown_fields)]], every field required. *)
Definition strict_fields (names : list string) (d : nat) (doc : Doc) : option (nat * Fields) :=
  read_fields (map (fun n => (n, false)) names) true d doc.

Definition read_body_cert (d : nat) (doc : Doc) : option BodyCert :=
  '(_, fs) ← strict_fields ["rawBytes"] d doc;
  raw_bytes ← required fs "rawBytes" read_string;
  Some (mkBodyCert raw_bytes).

Definition read_body_verifier (d : nat) (doc : Doc) : option BodyVerifier :=
  '(d, fs) ← strict_fields ["keyDetails"; "x509Certificate"] d doc;
  key_details ← required fs "keyDetails" read_string;
  cert ← required fs "x509Certificate" (read_body_cert d);
  Some (mkBodyVerifier key_details cert).

Definition read_body_signature (d : nat) (doc : Doc) : option BodySignature :=
  '(d, fs) ← strict_fields ["content"; "verifier"] d doc;
  content ← required fs "content" read_string;
  verifier ← required fs "verifier" (read_body_verifier d);
  Some (mkBodySignature content verifier).

Definition read_body_data (d : nat) (doc : Doc) : option BodyData :=
  '(_, fs) ← strict_fields ["algorithm"; "digest"] d doc;
  algorithm ← required fs "algorithm" read_string;
  digest ← required fs "digest" read_string;
  Some (mkBodyData algorithm digest).

Definition read_body_v002 (d : nat) (doc : Doc) : option BodyV002 :=
  '(d, fs) ← strict_fields ["data"; "signature"] d doc;
  data ← required fs "data" (read_body_data d);
  signature ← required fs "signature" (read_body_signature d);
  Some (mkBodyV002 data signature).

Definition read_body_spec (d : nat) (doc : Doc) : option BodySpec :=
  '(d, fs) ← strict_fields ["hashedRekordV002"] d doc;
  v002 ← required fs "hashedRekordV002" (read_body_v002 d);
  Some (mkBodySpec v002).

Definition read_hashed_rekord_body (d : nat) (doc : Doc) : option HashedRekordBody :=
  '(d, fs) ← strict_fields ["apiVersion"; "kind"; "spec"] d doc;
  api_version ← required fs "apiVersion" read_string;
  kind ← required fs "kind" read_string;
  spec ← required fs "spec" (read_body_spec d);
  Some (mkHashedRekordBody api_version kind spec).

Definition HASHEDREKORD_KIND : string := "hashedrekord".
Definition HASHEDREKORD_V002 : string := "0.0.2".
Definition SUPPORTED_DIGEST_ALG : string := "SHA2_256".

Definition shape_supported (body : HashedRekordBody) : bool :=
  String.eqb (hb_api_version body) HASHEDREKORD_V002
  && String.eqb (hb_kind body) HASHEDREKORD_KIND
  && String.eqb (bd_algorithm (v2_data (hashed_rekord_v002 (hb_spec body)))) SUPPORTED_DIGEST_ALG.

(** ** rekor.rs *)

Inductive TransparencyRequirement : Type := Required | Optional.

Definition missing_proof (requirement : TransparencyRequirement) : CheckOutcome :=
  match requirement with
  | Required =>
      mkOutcome OnlineRequired "no embedded Rekor inclusion proof and transparency is required"
  | Optional => mkOutcome NotPresent "no embedded Rekor inclusion proof (transparency optional)"
  end.

Section Verify.
Context `{PackCrypto, LogCrypto, Sha256, JsonReader}.

(** [Ok None]: the bundle has no entry. *)
Definition tlog_entry (bundle : Value) : Result (option Value) CheckOutcome :=
  match pointer bundle "/verificationMaterial/tlogEntries" ≫= as_array with
  | Some (_ :: _ :: _) =>
      Err (mkOutcome UnsupportedFormat "bundle carries more than one tlog entry")
  | Some [e] =>
      if bool_decide (pointer_str e "/kindVersion/kind" = Some HASHEDREKORD_KIND)
         && bool_decide (pointer_str e "/kindVersion/version" = Some HASHEDREKORD_V002)
      then Ok (Some e)
      else Err (mkOutcome UnsupportedFormat "not a Rekor v2 hashedrekord 0.0.2 entry")
  | _ => Ok None
  end.

Definition log_hint (log : PinnedTlog) : string := str_take 4 (pl_log_id log).

(** One signature line under the key of the pinned log. *)
Definition signature_ok (checkpoint : Checkpoint) (log : PinnedTlog) (key : LogKey)
    (s : CheckpointSig) : bool :=
  String.eqb (cs_name s) (cp_origin checkpoint)
  && String.eqb (cs_key_hint s) (log_hint log)
  && bytes_len (cs_sig s) 64
  && verify_strict key (cp_signed_text checkpoint) (cs_sig s).

(** The hashes of the proof; an absent or odd member is an empty list. *)
Fixpoint proof_hashes_loop (arr : list Value) : Result (list string) CheckOutcome :=
  match arr with
  | [] => Ok []
  | h :: arr =>
      match as_str h ≫= b64 with
      | None => Err (mkOutcome Failed "malformed inclusion hash")
      | Some bytes =>
          if negb (bytes_len bytes 32) then
            Err (mkOutcome UnsupportedFormat "inclusion proof hash is not 32 bytes")
          else
            match proof_hashes_loop arr with Ok hs => Ok (bytes :: hs) | Err e => Err e end
      end
  end.
Definition proof_hashes (ip : Value) : Result (list string) CheckOutcome :=
  match pointer ip "/hashes" ≫= as_array with
  | Some arr => proof_hashes_loop arr
  | None => Ok []
  end.

(** The logged entry against the bundle that carries it. *)
Definition bind_leaf (bundle : Value) (canonicalized_body : string) : CheckOutcome :=
  match from_slice read_hashed_rekord_body canonicalized_body with
  | None =>
      mkOutcome UnsupportedFormat "canonicalizedBody is not a supported hashedrekord v0.0.2 shape"
  | Some body =>
      if negb (shape_supported body) then
        mkOutcome UnsupportedFormat "unsupported canonicalizedBody apiVersion/kind/algorithm"
      else
        let v002 := hashed_rekord_v002 (hb_spec body) in
        let logged_cert := bc_raw_bytes (bv_x509_certificate (bs_verifier (v2_signature v002))) in
        if negb (bool_decide (pointer_str bundle "/verificationMaterial/certificate/rawBytes" = Some logged_cert))
        then mkOutcome Failed "logged entry certificate does not match the bundle"
        else
          let bundle_sig :=
            option_or (pointer bundle "/messageSignature/signature")
              (pointer bundle "/dsseEnvelope/signatures/0/sig") ≫= as_str in
          if negb (bool_decide (bundle_sig = Some (bs_content (v2_signature v002))))
          then mkOutcome Failed "logged entry signature does not match the bundle"
          else
            match pointer_str bundle "/messageSignature/messageDigest/digest" with
            | Some bundle_digest =>
                if negb (String.eqb (bd_digest (v2_data v002)) bundle_digest)
                then mkOutcome Failed "logged entry artifact digest does not match the bundle"
                else mkOutcome Verified "Rekor v2 inclusion proof verifies against pinned checkpoint material"
            | None => mkOutcome Verified "Rekor v2 inclusion proof verifies against pinned checkpoint material"
            end
  end.

(** From the verified checkpoint on: its root and size are the only ones that
    count. *)
Definition verify_inclusion (bundle entry ip : Value) (checkpoint : Checkpoint) : CheckOutcome :=
  match pointer_str ip "/rootHash" ≫= b64,
        pointer_str ip "/treeSize" ≫= parse_unsigned u64_max,
        pointer_str ip "/logIndex" ≫= parse_unsigned u64_max with
  | Some ip_root, Some ip_tree, Some ip_index =>
      if negb (String.eqb ip_root (cp_root_hash checkpoint)) || negb (ip_tree =? cp_tree_size checkpoint)%Z
      then mkOutcome Failed "inclusion proof root/treeSize disagree with the signed checkpoint"
      else
        match pointer_str entry "/canonicalizedBody" ≫= b64 with
        | None => mkOutcome Failed "missing canonicalizedBody"
        | Some canonicalized_body =>
            match proof_hashes ip with
            | Err e => e
            | Ok hashes =>
                match
                  rfc6962_root (sha256 [byte 0; canonicalized_body]) ip_index (cp_tree_size checkpoint) hashes
                with
                | None => mkOutcome Failed "inclusion proof does not reconstruct the checkpoint root"
                | Some recomputed =>
                    if negb (String.eqb recomputed (cp_root_hash checkpoint))
                    then mkOutcome Failed "recomputed inclusion root does not match the signed checkpoint root"
                    else bind_leaf bundle canonicalized_body
                end
            end
        end
  | _, _, _ => mkOutcome Failed "malformed inclusion proof fields"
  end.

(** The checkpoint under the key of the pinned log, then the inclusion. *)
Definition verify_under_log (bundle entry ip : Value) (log : PinnedTlog) (checkpoint : Checkpoint)
    : CheckOutcome :=
  if (cp_tree_size checkpoint =? 0)%Z then mkOutcome UnsupportedFormat "empty checkpoint tree"
  else if (match pl_origin log with
           | Some expected_origin => negb (String.eqb (cp_origin checkpoint) expected_origin)
           | None => false
           end)
  then mkOutcome Failed "checkpoint origin does not match the pinned log"
  else
    match log_key_from_bytes (pl_key log) with
    | None => mkOutcome TrustRootUnavailable "invalid pinned key"
    | Some verifying_key =>
        if negb (existsb (signature_ok checkpoint log verifying_key) (cp_signatures checkpoint))
        then mkOutcome Failed "checkpoint signature does not verify under the pinned log key"
        else verify_inclusion bundle entry ip checkpoint
    end.

Definition verify_rekor_v2_inclusion_offline (bundle_json trusted_root_json : string)
    (requirement : TransparencyRequirement) : CheckOutcome :=
  match value_from_slice bundle_json with
  | None => mkOutcome UnsupportedFormat "malformed bundle"
  | Some bundle =>
  match value_from_slice trusted_root_json with
  | None => mkOutcome TrustRootUnavailable "malformed trusted root"
  | Some trusted_root =>
  match tlog_entry bundle with
  | Err e => e
  | Ok entry =>
  let pinned := pinned_tlogs trusted_root in
  if is_nil pinned then
    mkOutcome TrustRootUnavailable "no pinned Ed25519 Rekor verifier key in trusted root"
  else
  match entry with
  | None => missing_proof requirement
  | Some entry =>
  match opt_filter is_object (pointer entry "/inclusionProof") with
  | None => missing_proof requirement
  | Some ip =>
  match pointer_str ip "/checkpoint/envelope" with
  | None => missing_proof requirement
  | Some checkpoint_env =>
  match pointer_str entry "/logId/keyId" ≫= b64 with
  | None => mkOutcome Failed "tlog entry has no logId"
  | Some entry_log_id =>
  match find (fun p => String.eqb (pl_log_id p) entry_log_id) pinned with
  | None => mkOutcome Failed "tlog entry references a log not in the pinned trusted root"
  | Some log =>
  match parse_checkpoint checkpoint_env with
  | None => mkOutcome Failed "malformed checkpoint"
  | Some checkpoint => verify_under_log bundle entry ip log checkpoint
  end end end end end end end end end.

End Verify.
