(* ===== verification/RekorCorrect.v ===== *)
(** * What a verified inclusion means

    The evidence behind [Verified], stated declaratively, is exactly what
    [verify_rekor_v2_inclusion_offline] accepts ([verified_evidence]); with
    the tree of [MerkleLog], the accepted entry is in every log that has the
    signed root and size, provided SHA-256 tells apart the finitely many strings
    that the log and the proof hash ([evidence_in_log]). *)
From stdpp Require Import base tactics list strings gmap.
From Stdlib Require Import Ascii ZArith Lia.
From S2P Require Import Prelude RustStr Json Platform PackRef PackYaml PackTrust JsonDoc SerdeJson MerkleLog Rekor.

(** ** A checkpoint *)

Lemma strip_prefix_some s p r : strip_prefix s p = Some r <-> s = p +:+ r.
Proof.
  unfold strip_prefix. destruct (starts_with s p) eqn:E.
  - apply starts_with_spec in E as [t ->]. rewrite str_drop_app. split; [by intros [= ->]|].
    intros Hs. f_equal. rewrite <- (str_drop_app p t), Hs. apply str_drop_app.
  - split; [done|]. intros ->. rewrite (proj2 (starts_with_spec _ _)) in E; [done|by exists r].
Qed.

Section CheckpointText.
Context `{PackCrypto}.

(** A signature line: a dash and a space, the name of the key, a space, and the
    base64 of the four-byte key hint and the signature; carriage returns at the
    end do not count. *)
Definition SignatureLine (line : string) (s : CheckpointSig) : Prop :=
  exists b64sig, trim_end_matches "013"%char line = signature_prefix +:+ cs_name s +:+ String " " b64sig
    /\ (forall u v, cs_name s <> u +:+ String " " v)
    /\ b64 b64sig = Some (cs_key_hint s +:+ cs_sig s) /\ String.length (cs_key_hint s) = 4%nat.

(** The signature lines among the lines, in order. *)
Inductive SignatureLines : list string -> list CheckpointSig -> Prop :=
| sigs_nil : SignatureLines [] []
| sigs_line line s lines sigs :
    SignatureLine line s -> SignatureLines lines sigs -> SignatureLines (line :: lines) (s :: sigs)
| sigs_other line lines sigs :
    (forall s, ~ SignatureLine line s) -> SignatureLines lines sigs -> SignatureLines (line :: lines) sigs.

(** A signed note: up to the first blank line the origin, the tree size, the
    root hash in base64 and further lines, after it the signatures; what is
    signed ends with the line before the blank one. *)
Record CheckpointText (envelope : string) (cp : Checkpoint) : Prop := {
  ct_text : exists body block size root extensions,
    envelope = body +:+ blank_line +:+ block
    /\ (forall b r, envelope = b +:+ blank_line +:+ r -> String.length body <= String.length b)%nat
    /\ str_split LF body = cp_origin cp :: size :: root :: extensions
    /\ parse_unsigned u64_max (str_trim size) = Some (cp_tree_size cp)
    /\ b64 (str_trim root) = Some (cp_root_hash cp) /\ String.length (cp_root_hash cp) = 32%nat
    /\ cp_signed_text cp = body +:+ String LF EmptyString
    /\ SignatureLines (str_split LF block) (cp_signatures cp)
}.

Lemma signature_line line s : parse_signature_line line = Some s <-> SignatureLine line s.
Proof.
  unfold parse_signature_line, SignatureLine. rewrite bind_Some. setoid_rewrite strip_prefix_some. split.
  - intros (rest & Hrest & Hs). apply bind_Some in Hs as ([name b64sig] & [-> Hn]%split_once_first & Hs).
    apply bind_Some in Hs as (decoded & Hd & Hs). unfold str_len in Hs.
    destruct (Z.ltb_spec (Z.of_nat (String.length decoded)) 4); [done|]. injection Hs as <-. cbn.
    exists b64sig. split_and!; [done..| |].
    + change (b64 b64sig = Some (str_take 4 decoded +:+ str_drop 4 decoded)). by rewrite str_take_drop.
    + apply (str_take_length 4). lia.
  - intros (b64sig & Hl & Hn & Hd & Hh). exists (cs_name s +:+ String " " b64sig). split; [done|].
    rewrite (proj2 (split_once_first _ _ (cs_name s) b64sig)) by done. cbn [mbind option_bind]. rewrite Hd.
    cbn [mbind option_bind]. unfold str_len. rewrite string_app_length, Hh.
    destruct (Z.ltb_spec (Z.of_nat (4 + String.length (cs_sig s))) 4); [lia|]. rewrite <- Hh.
    rewrite str_take_app, str_drop_app. by destruct s.
Qed.

Lemma signature_lines lines sigs : omap parse_signature_line lines = sigs <-> SignatureLines lines sigs.
Proof.
  split.
  - intros <-. induction lines as [|line lines IH]; cbn; [constructor|].
    destruct (parse_signature_line line) as [s|] eqn:E; constructor; [by apply signature_line|done| |done].
    intros s Hs%signature_line. congruence.
  - induction 1 as [|line s lines sigs Hs _ IH|line lines sigs Hs _ IH]; cbn; [done| |].
    + apply signature_line in Hs as ->. by rewrite <- IH.
    + destruct (parse_signature_line line) as [s|] eqn:E; [|done]. by apply signature_line, Hs in E.
Qed.

(** The source cuts the text by byte positions. *)
Lemma note_text body block :
  str_take (S (String.length body)) (body +:+ blank_line +:+ block) = body +:+ String LF EmptyString.
Proof. induction body as [|a body IH]; [done|]. cbn in *. by rewrite IH. Qed.
Lemma note_block body block : str_drop (String.length body + 2) (body +:+ blank_line +:+ block) = block.
Proof. induction body as [|a body IH]; [done|]. exact IH. Qed.

Lemma starts_blank s : starts_with s blank_line = true <-> exists r, s = blank_line +:+ r.
Proof. apply starts_with_spec. Qed.

Lemma parse_checkpoint_iff env cp : parse_checkpoint env = Some cp <-> CheckpointText env cp.
Proof.
  unfold parse_checkpoint. split.
  - intros ([body rest] & (-> & [block ->]%starts_blank & Hmin)%find_sub_first & Hcp)%bind_Some.
    cbn zeta in Hcp. destruct (str_split LF body) as [|o [|size [|root l]]] eqn:El; try done.
    apply bind_Some in Hcp as (n & Hn & (r & Hr & Hcp)%bind_Some).
    destruct (bytes_len r 32) eqn:Eb; [|done]. injection Hcp as <-. constructor.
    exists body, block, size, root, l. cbn [cp_origin cp_tree_size cp_root_hash cp_signed_text cp_signatures].
    split_and!; try done.
    + intros b r' Hs. apply (Hmin b (blank_line +:+ r') Hs), starts_blank. by exists r'.
    + by apply Nat.eqb_eq.
    + apply note_text.
    + apply signature_lines. do 2 f_equal. symmetry. apply note_block.
  - intros [(body & block & size & root & l & -> & Hmin & Hl & Hn & Hr & Hb & Hst & Hsigs)].
    rewrite (proj2 (find_sub_first _ _ body (blank_line +:+ block))).
    2: { split_and!; [done|apply starts_blank; by exists block|].
         intros x' y' Hs [r ->]%starts_blank. by apply (Hmin x' r). }
    cbn [mbind option_bind]. rewrite Hl, Hn. cbn [mbind option_bind]. rewrite Hr. cbn [mbind option_bind].
    unfold bytes_len. rewrite Hb, Nat.eqb_refl. cbn [negb]. destruct cp as [st o n rh sigs]. cbn in *. subst st.
    apply signature_lines in Hsigs as <-. repeat f_equal; [apply note_text|apply note_block].
Qed.

End CheckpointText.

Section Evidence.
Context `{PackCrypto, LogCrypto, Sha256, JsonReader}.

(** Signed, under the key of the pinned log, for that log. *)
Record SignedCheckpoint (log : PinnedTlog) (cp : Checkpoint) : Prop := {
  sc_nonempty : cp_tree_size cp <> 0%Z;
  sc_origin o : pl_origin log = Some o -> cp_origin cp = o;
  sc_signature : exists key s,
    log_key_from_bytes (pl_key log) = Some key /\ s ∈ cp_signatures cp
    /\ cs_name s = cp_origin cp /\ cs_key_hint s = log_hint log
    /\ String.length (cs_sig s) = 64%nat /\ verify_strict key (cp_signed_text cp) (cs_sig s) = true
}.

(** The hashes of the proof, each 32 bytes in base64; without a list of them
    the proof is empty. *)
Definition PathOf (ip : Value) (hashes : list string) : Prop :=
  match pointer ip "/hashes" ≫= as_array with
  | Some arr => Forall2 (fun h bytes => as_str h ≫= b64 = Some bytes /\ String.length bytes = 32%nat) arr hashes
  | None => hashes = []
  end.

(** The proof names the signed root and size, its index is below the size, and
    its hashes rebuild the root from the entry's bytes by the tree of RFC 6962,
    read from the root down. *)
Record Proven (ip : Value) (cp : Checkpoint) (body : string) (index : Z) (hashes : list string) : Prop := {
  pv_root : pointer_str ip "/rootHash" ≫= b64 = Some (cp_root_hash cp);
  pv_size : pointer_str ip "/treeSize" ≫= parse_unsigned u64_max = Some (cp_tree_size cp);
  pv_index : pointer_str ip "/logIndex" ≫= parse_unsigned u64_max = Some index;
  pv_below : (index < cp_tree_size cp)%Z;
  pv_hashes : PathOf ip hashes;
  pv_path : let size := Z.to_nat (cp_tree_size cp) in
    rebuild (tree_height size) (Z.to_nat index) size (leaf_hash body) (reverse hashes) = Some (cp_root_hash cp)
}.

(** The logged entry is about this bundle's certificate, signature and, for a
    message signature, artifact. *)
Record LeafBound (bundle : Value) (body : string) : Prop := {
  lb_entry : exists e, from_slice read_hashed_rekord_body body = Some e
    /\ hb_api_version e = "0.0.2" /\ hb_kind e = "hashedrekord"
    /\ bd_algorithm (v2_data (hashed_rekord_v002 (hb_spec e))) = "SHA2_256"
    /\ let v := hashed_rekord_v002 (hb_spec e) in
       pointer_str bundle "/verificationMaterial/certificate/rawBytes"
         = Some (bc_raw_bytes (bv_x509_certificate (bs_verifier (v2_signature v))))
       /\ option_or (pointer bundle "/messageSignature/signature")
            (pointer bundle "/dsseEnvelope/signatures/0/sig") ≫= as_str
          = Some (bs_content (v2_signature v))
       /\ (forall d, pointer_str bundle "/messageSignature/messageDigest/digest" = Some d ->
             bd_digest (v2_data v) = d)
}.

Inductive Evidence (bundle trusted_root : Value) (cp : Checkpoint) (body : string) (index : Z)
    (hashes : list string) : Prop :=
| evidence entry ip env log :
    pointer bundle "/verificationMaterial/tlogEntries" = Some (Arr [entry]) ->
    pointer_str entry "/kindVersion/kind" = Some HASHEDREKORD_KIND ->
    pointer_str entry "/kindVersion/version" = Some HASHEDREKORD_V002 ->
    pointer entry "/inclusionProof" = Some ip -> is_object ip = true ->
    pointer_str ip "/checkpoint/envelope" = Some env ->
    CheckpointText env cp ->
    pointer_str entry "/logId/keyId" ≫= b64 = Some (pl_log_id log) ->
    find (fun p => String.eqb (pl_log_id p) (pl_log_id log)) (pinned_tlogs trusted_root) = Some log ->
    SignedCheckpoint log cp ->
    pointer_str entry "/canonicalizedBody" ≫= b64 = Some body ->
    Proven ip cp body index hashes ->
    LeafBound bundle body ->
    Evidence bundle trusted_root cp body index hashes.

Lemma bytes_len_true s n : bytes_len s n = true <-> String.length s = n.
Proof. apply Nat.eqb_eq. Qed.

Lemma shape_supported_true e :
  shape_supported e = true <->
  hb_api_version e = "0.0.2" /\ hb_kind e = "hashedrekord"
  /\ bd_algorithm (v2_data (hashed_rekord_v002 (hb_spec e))) = "SHA2_256".
Proof. unfold shape_supported. rewrite !andb_true_iff, !String.eqb_eq. tauto. Qed.

Lemma bind_leaf_verified bundle body :
  out_status (bind_leaf bundle body) = Verified <-> LeafBound bundle body.
Proof.
  unfold bind_leaf. split.
  - destruct (from_slice read_hashed_rekord_body body) as [e|] eqn:He; [|done].
    destruct (shape_supported e) eqn:Hs; [|done]. cbn [negb]. apply shape_supported_true in Hs as (? & ? & ?).
    case_bool_decide as Hc; [|done]. cbn [negb]. case_bool_decide as Hsig; [|done]. cbn [negb].
    intros Hd. constructor. exists e. split_and!; [done..|]. split_and!; [done..|]. intros d Hp. rewrite Hp in Hd.
    destruct (String.eqb_spec (bd_digest (v2_data (hashed_rekord_v002 (hb_spec e)))) d); done.
  - intros [(e & -> & Hs1 & Hs2 & Hs3 & Hc & Hsig & Hd)].
    rewrite (proj2 (shape_supported_true e)) by done. cbn [negb].
    rewrite !bool_decide_true by done. cbn [negb].
    destruct (pointer_str bundle "/messageSignature/messageDigest/digest") as [d|]; [|done].
    by rewrite (Hd d), String.eqb_refl.
Qed.

Lemma proof_hashes_path ip hashes : proof_hashes ip = Ok hashes <-> PathOf ip hashes.
Proof.
  unfold proof_hashes, PathOf. destruct (pointer ip "/hashes" ≫= as_array) as [arr|].
  2: { split; [by intros [= <-]|by intros ->]. }
  revert hashes. induction arr as [|h arr IH]; intros hashes; cbn [proof_hashes_loop].
  - split; [intros [= <-]; constructor|by intros ->%Forall2_nil_inv_l].
  - split.
    + destruct (as_str h ≫= b64) as [bytes|] eqn:Hd; [|done].
      destruct (bytes_len bytes 32) eqn:Hb; [|done]. cbn [negb].
      destruct (proof_hashes_loop arr) as [hs|]; [|done]. intros [= <-].
      constructor; [split; [done|by apply bytes_len_true]|by apply IH].
    + intros (bytes & hs & [-> Hb] & Hhs & ->)%Forall2_cons_inv_l. unfold bytes_len. rewrite Hb. cbn [Nat.eqb negb].
      apply IH in Hhs as ->. done.
Qed.

Lemma parse_digits_bound max s : forall acc n,
  (0 <= acc <= max)%Z -> parse_digits max acc s = Some n -> (0 <= n <= max)%Z.
Proof.
  induction s as [|a s IH]; intros acc n Hacc; cbn [parse_digits]; [by intros [= <-]|].
  destruct (is_digit a) eqn:Ed; [|done].
  destruct (Z.leb_spec (acc * 10 + digit_value a) max); [|done]. apply IH.
  apply andb_true_iff in Ed as [?%N.leb_le ?%N.leb_le]. unfold digit_value in *. lia.
Qed.

Lemma parse_unsigned_bound max s n :
  (0 <= max)%Z -> parse_unsigned max s = Some n -> (0 <= n <= max)%Z.
Proof.
  intros Hmax. assert (forall t, parse_digits max 0 t = Some n -> 0 <= n <= max)%Z as Hd.
  { intros t. apply parse_digits_bound. lia. }
  unfold parse_unsigned.
  destruct s as [|[[] [] [] [] [] [] [] []] [|]]; try done; apply Hd.
Qed.

Lemma u64_field o n : o ≫= parse_unsigned u64_max = Some n -> (0 <= n < 2 ^ 64)%Z.
Proof.
  intros (t & _ & Ht)%bind_Some. apply parse_unsigned_bound in Ht; [|done]. unfold u64_max in Ht. lia.
Qed.

(** The loop of the source is the tree of RFC 6962. *)
Lemma root_rebuild r index size hashes x :
  (0 <= index)%Z -> (0 <= size < 2 ^ 64)%Z ->
  rfc6962_root r index size hashes = Some x <->
  (index < size)%Z
  /\ rebuild (tree_height (Z.to_nat size)) (Z.to_nat index) (Z.to_nat size) r (reverse hashes) = Some x.
Proof.
  intros Hi Hs. destruct (Z.lt_ge_cases index size) as [Hlt|Hge].
  - rewrite <- (Z2Nat.id index), <- (Z2Nat.id size), !Nat2Z.id by lia.
    rewrite (root_loop_rebuild (tree_height (Z.to_nat size))); [|apply tree_height_64; lia|].
    { split; [intros; split; [lia|done]|by intros [_ ?]]. }
    split; [lia|apply height_enough].
  - unfold rfc6962_root. destruct (Z.leb_spec size index); [|lia]. split; [done|lia].
Qed.

Lemma proof_hashes_error ip e : proof_hashes ip = Err e -> out_status e <> Verified.
Proof.
  unfold proof_hashes. destruct (pointer ip "/hashes" ≫= as_array) as [arr|]; [|done].
  induction arr as [|h arr IH]; cbn [proof_hashes_loop]; [done|].
  destruct (as_str h ≫= b64) as [bytes|]; [|by intros [= <-]].
  destruct (bytes_len bytes 32); [|by intros [= <-]]. cbn [negb].
  destruct (proof_hashes_loop arr) as [hs|e']; [done|]. intros [= <-]. by apply IH.
Qed.

Lemma verify_inclusion_verified bundle entry ip cp :
  out_status (verify_inclusion bundle entry ip cp) = Verified <->
  exists body index hashes, pointer_str entry "/canonicalizedBody" ≫= b64 = Some body
    /\ Proven ip cp body index hashes /\ LeafBound bundle body.
Proof.
  unfold verify_inclusion. split.
  - destruct (pointer_str ip "/rootHash" ≫= b64) as [root|] eqn:Hr; [|done].
    destruct (pointer_str ip "/treeSize" ≫= parse_unsigned u64_max) as [size|] eqn:Hz; [|done].
    destruct (pointer_str ip "/logIndex" ≫= parse_unsigned u64_max) as [index|] eqn:Hi; [|done].
    destruct (String.eqb_spec root (cp_root_hash cp)) as [->|]; [|done].
    destruct (Z.eqb_spec size (cp_tree_size cp)) as [->|]; [|done]. cbn [negb orb].
    destruct (pointer_str entry "/canonicalizedBody" ≫= b64) as [body|]; [|done].
    destruct (proof_hashes ip) as [hashes|e] eqn:Hh; [|by intros Hv; destruct (proof_hashes_error _ _ Hh)].
    destruct (rfc6962_root _ _ _ _) as [r|] eqn:Hroot; [|done].
    destruct (String.eqb_spec r (cp_root_hash cp)) as [->|]; [|done]. cbn [negb].
    intros Hl%bind_leaf_verified. exists body, index, hashes. split_and!; [done| |done].
    apply (root_rebuild (leaf_hash body)) in Hroot as [? ?]; [|by eapply u64_field in Hi; lia|by eapply u64_field].
    constructor; try done. by apply proof_hashes_path.
  - intros (body & index & hashes & -> & [Hr Hz Hi Hlt Hh Hroot] & Hl).
    pose proof (u64_field _ _ Hz). pose proof (u64_field _ _ Hi). rewrite Hr, Hz, Hi.
    apply proof_hashes_path in Hh as ->. rewrite String.eqb_refl, Z.eqb_refl. cbn [negb orb].
    change (sha256 [byte 0; body]) with (leaf_hash body).
    assert (rfc6962_root (leaf_hash body) index (cp_tree_size cp) hashes = Some (cp_root_hash cp)) as ->.
    { apply root_rebuild; [lia|done|by split]. }
    rewrite String.eqb_refl. by apply bind_leaf_verified.
Qed.

Lemma signature_ok_true cp log key s :
  signature_ok cp log key s = true <->
  cs_name s = cp_origin cp /\ cs_key_hint s = log_hint log
  /\ String.length (cs_sig s) = 64%nat /\ verify_strict key (cp_signed_text cp) (cs_sig s) = true.
Proof. unfold signature_ok. rewrite !andb_true_iff, !String.eqb_eq, bytes_len_true. tauto. Qed.

Lemma verify_under_log_verified bundle entry ip log cp :
  out_status (verify_under_log bundle entry ip log cp) = Verified <->
  SignedCheckpoint log cp /\ out_status (verify_inclusion bundle entry ip cp) = Verified.
Proof.
  unfold verify_under_log. split.
  - destruct (Z.eqb_spec (cp_tree_size cp) 0); [done|].
    destruct (match pl_origin log with Some o => negb (String.eqb (cp_origin cp) o) | None => false end)
      eqn:Ho; [done|].
    destruct (log_key_from_bytes (pl_key log)) as [key|] eqn:Hk; [|done].
    destruct (existsb _ _) eqn:He; [|done]. cbn [negb]. intros Hv. split; [|done].
    apply existsb_true in He as (s & Hin & Hs%signature_ok_true). constructor; [done| |].
    + intros o Hlo. rewrite Hlo in Ho. by destruct (String.eqb_spec (cp_origin cp) o).
    + exists key, s. by split.
  - intros [[Hne Ho (key & s & Hk & Hin & Hs)] Hv]. destruct (Z.eqb_spec (cp_tree_size cp) 0); [done|].
    assert (existsb (signature_ok cp log key) (cp_signatures cp) = true) as He.
    { apply existsb_true. exists s. split; [done|]. by apply signature_ok_true. }
    rewrite Hk, He. destruct (pl_origin log) as [o|]; [|done]. by rewrite (Ho o), String.eqb_refl.
Qed.

Lemma tlog_entry_some bundle entry :
  tlog_entry bundle = Ok (Some entry) <->
  pointer bundle "/verificationMaterial/tlogEntries" = Some (Arr [entry])
  /\ pointer_str entry "/kindVersion/kind" = Some HASHEDREKORD_KIND
  /\ pointer_str entry "/kindVersion/version" = Some HASHEDREKORD_V002.
Proof.
  unfold tlog_entry. split.
  - destruct (pointer bundle _) as [v|]; [|done]. destruct v as [| | | |[|e [|]]|]; try done.
    cbn [mbind option_bind as_array]. case_bool_decide; [|done]. case_bool_decide; [|done].
    by intros [= <-].
  - intros (-> & Hk & Hv). cbn [mbind option_bind as_array]. by rewrite !bool_decide_true.
Qed.

Lemma tlog_entry_error bundle e : tlog_entry bundle = Err e -> out_status e <> Verified.
Proof.
  unfold tlog_entry. destruct (_ ≫= as_array) as [[|x [|]]|]; try done; [|by intros [= <-]].
  destruct (_ && _); [done|]. by intros [= <-].
Qed.

Lemma missing_proof_unverified requirement : out_status (missing_proof requirement) <> Verified.
Proof. by destruct requirement. Qed.

(** The status is [Verified] exactly on the evidence. *)
Lemma verified_evidence bundle_json trusted_root_json requirement :
  out_status (verify_rekor_v2_inclusion_offline bundle_json trusted_root_json requirement) = Verified <->
  exists bundle trusted_root cp body index hashes,
    value_from_slice bundle_json = Some bundle /\ value_from_slice trusted_root_json = Some trusted_root
    /\ Evidence bundle trusted_root cp body index hashes.
Proof.
  unfold verify_rekor_v2_inclusion_offline. split.
  - destruct (value_from_slice bundle_json) as [bundle|]; [|done].
    destruct (value_from_slice trusted_root_json) as [root|]; [|done].
    destruct (tlog_entry bundle) as [entry|e] eqn:He; [|intros Hv; by destruct (tlog_entry_error _ _ He)].
    destruct (is_nil _); [done|].
    destruct entry as [entry|]; [|intros Hv; by destruct (missing_proof_unverified requirement)].
    apply tlog_entry_some in He as (Hp & Hk & Hver).
    destruct (pointer entry "/inclusionProof") as [ip|] eqn:Hip; cbn [opt_filter];
      [|intros Hv; by destruct (missing_proof_unverified requirement)].
    destruct (is_object ip) eqn:Ho; [|intros Hv; by destruct (missing_proof_unverified requirement)].
    destruct (pointer_str ip "/checkpoint/envelope") as [env|] eqn:Henv;
      [|intros Hv; by destruct (missing_proof_unverified requirement)].
    destruct (pointer_str entry "/logId/keyId" ≫= b64) as [id|] eqn:Hid; [|done].
    destruct (find _ _) as [log|] eqn:Hf; [|done].
    destruct (parse_checkpoint env) as [cp|] eqn:Hcp; [|done].
    intros [Hs (body & index & hashes & Hb & Hpv & Hl)%verify_inclusion_verified]%verify_under_log_verified.
    pose proof (find_some _ _ Hf) as [_ Hlid%String.eqb_eq]. subst id.
    exists bundle, root, cp, body, index, hashes. split; [done|]. split; [done|].
    apply parse_checkpoint_iff in Hcp. by eapply evidence.
  - intros (bundle & root & cp & body & index & hashes & -> & -> & [entry ip env log Hp Hk Hv Hip Ho Henv Hcp Hid Hf Hs Hb Hpv Hl]).
    rewrite (proj2 (tlog_entry_some bundle entry)) by done.
    destruct (is_nil (pinned_tlogs root)) eqn:Hn.
    { apply is_nil_true in Hn. by rewrite Hn in Hf. }
    apply parse_checkpoint_iff in Hcp. rewrite Hip. cbn [opt_filter]. rewrite Ho, Henv, Hid, Hf, Hcp.
    apply verify_under_log_verified. split; [done|]. apply verify_inclusion_verified. by exists body, index, hashes.
Qed.

End Evidence.

(** ** The entry in the log *)

Section Log.
Context `{PackCrypto, LogCrypto, Sha256, JsonReader}.

Lemma path_32 ip hashes : PathOf ip hashes -> Forall (fun h => String.length h = 32%nat) hashes.
Proof.
  unfold PathOf. destruct (pointer ip "/hashes" ≫= as_array) as [arr|]; [|by intros ->].
  induction 1 as [|h x arr hashes [_ Hx]]; by constructor.
Qed.

Lemma evidence_in_log `{!Sha256Laws} bundle trusted_root cp body index hashes entries :
  Evidence bundle trusted_root cp body index hashes ->
  mth entries = cp_root_hash cp -> Z.of_nat (length entries) = cp_tree_size cp ->
  Distinguished (log_inputs entries ++ proof_inputs (Z.to_nat index) (length entries) body hashes) ->
  entries !! Z.to_nat index = Some body.
Proof.
  intros [entry ip env log _ _ _ _ _ _ _ _ _ _ _ [_ Hz Hi Hlt Hh Hroot] _] Hm Hn Hinj.
  apply u64_field in Hz, Hi. apply (inclusion_sound entries index body hashes); [lia|lia|by eapply path_32|done|].
  rewrite Hn, Hm. apply root_rebuild; [lia|done|]. by split.
Qed.

(** C25: the offline transparency check answers [Verified] exactly when the
    bundle carries one v2 entry whose log is pinned, a checkpoint that is
    signed under that log's key for that log, a proof that names the signed
    root and size and whose hashes rebuild that root from the entry's bytes by
    the tree of RFC 6962, and an entry that repeats the bundle's certificate
    and signature and, where the bundle carries a message signature, its
    digest (the digest of an attestation is compared elsewhere).  And the accepted
    bytes are then the entry of that index in every log with the signed root
    and size, provided that SHA-256 tells apart the finitely many strings
    hashed in that log and on that path. *)
Theorem rekor_inclusion_sound `{!Sha256Laws} bundle_json trusted_root_json requirement :
  (out_status (verify_rekor_v2_inclusion_offline bundle_json trusted_root_json requirement) = Verified <->
   exists bundle trusted_root cp body index hashes,
     value_from_slice bundle_json = Some bundle /\ value_from_slice trusted_root_json = Some trusted_root
     /\ Evidence bundle trusted_root cp body index hashes)
  /\ (forall bundle trusted_root cp body index hashes entries,
        Evidence bundle trusted_root cp body index hashes ->
        mth entries = cp_root_hash cp -> Z.of_nat (length entries) = cp_tree_size cp ->
        Distinguished (log_inputs entries ++ proof_inputs (Z.to_nat index) (length entries) body hashes) ->
        entries !! Z.to_nat index = Some body).
Proof. split; [apply verified_evidence|]. intros *. apply evidence_in_log. Qed.

End Log.
