(* ===== verification/Sigstore.v ===== *)
(** * Keyless signatures, offline

    [assay-registry/src/sigstore_offline.rs] (the certificate chain under
    pinned roots), [sigstore_identity.rs] (subject, SAN and issuer of the leaf),
    [sigstore_signature.rs] (an ECDSA signature under the leaf's key and the
    digest of an in-toto statement), [dsse.rs] (an envelope signed over its
    pre-authentication encoding) and [sigstore_bundle.rs] (the bundle that
    composes them).  X.509, path building and ECDSA are third-party code:
    the class [X509]. *)
From stdpp Require Import base tactics list strings gmap.
From Stdlib Require Import Ascii ZArith Lia.
From S2P Require Import Prelude RustStr Json Platform PackRef PackYaml PackTrust JsonDoc SerdeJson MerkleLog Rekor.

(** ** Third-party code *)

Record Extension : Type := mkExtension {
  extn_id : string;
  extn_critical : bool;
  extn_value : string
}.

Inductive GeneralName : Type :=
| UniformResourceIdentifier (uri : string)
| Rfc822Name (email : string)
| OtherGeneralName.

(** What is read of a parsed certificate; [None] is a key that cannot be
    encoded again. *)
Record Certificate : Type := mkCertificate {
  cert_subject_empty : bool;
  cert_extensions : option (list Extension);
  cert_spki_der : option string
}.

(** The errors of [webpki] that are told apart. *)
Inductive ChainError : Type :=
| CertExpired
| CertNotValidYet
| UnknownIssuer
| RequiredEkuNotFoundContext
| OtherChainError.

Class X509 : Type := {
  TrustAnchor : Type;
  anchor_from_trusted_cert : string -> option TrustAnchor;
  EndEntityCert : Type;
  end_entity_from_der : string -> option EndEntityCert;
  SignatureAlgorithm : Type;
  ECDSA_P256_SHA256 : SignatureAlgorithm;
  ECDSA_P384_SHA384 : SignatureAlgorithm;
  (** Certificate, algorithms, anchors, intermediates, time, extended usage. *)
  verify_for_usage : EndEntityCert -> list SignatureAlgorithm -> list TrustAnchor -> list string ->
    Z -> string -> Result () ChainError;
  certificate_from_der : string -> option Certificate;
  subject_alt_name_from_der : string -> option (list GeneralName);
  utf8_string_from_der : string -> option string;
  P256Key : Type;
  p256_key_from_spki : string -> option P256Key;
  P256Signature : Type;
  p256_signature_from_der : string -> option P256Signature;
  p256_verify : P256Key -> string -> P256Signature -> bool
}.

(** ** sigstore_offline.rs *)

Definition EKU_CODE_SIGNING : string := of_bytes [43; 6; 1; 5; 5; 7; 3; 3]%N.

Section Chain.
Context `{X509}.

Definition SUPPORTED_SIG_ALGS : list SignatureAlgorithm := [ECDSA_P256_SHA256; ECDSA_P384_SHA384].

Definition verify_cert_chain_offline (leaf_der : string) (intermediates pinned_roots : list string)
    (now_unix_secs : Z) : CheckOutcome :=
  if is_nil pinned_roots then mkOutcome TrustRootUnavailable "no pinned trust roots"
  else
    match mapM anchor_from_trusted_cert pinned_roots with
    | None => mkOutcome TrustRootUnavailable "pinned trust root is not a parseable certificate"
    | Some anchors =>
        match end_entity_from_der leaf_der with
        | None => mkOutcome Failed "malformed leaf certificate"
        | Some ee =>
            match
              verify_for_usage ee SUPPORTED_SIG_ALGS anchors intermediates now_unix_secs EKU_CODE_SIGNING
            with
            | Ok _ => mkOutcome Verified "chain valid"
            | Err CertExpired => mkOutcome Failed "certificate expired"
            | Err CertNotValidYet => mkOutcome Failed "certificate not yet valid"
            | Err UnknownIssuer => mkOutcome Failed "chain does not validate against pinned roots"
            | Err RequiredEkuNotFoundContext => mkOutcome Failed "required code-signing EKU absent"
            | Err OtherChainError => mkOutcome Failed "certificate chain invalid"
            end
        end
    end.

(** ** sigstore_identity.rs *)

Definition FULCIO_ISSUER_V2 : string := "1.3.6.1.4.1.57264.1.8".
Definition FULCIO_ISSUER_V1 : string := "1.3.6.1.4.1.57264.1.1".
(** [SubjectAltName::OID]. *)
Definition SUBJECT_ALT_NAME_OID : string := "2.5.29.17".

Record ExpectedIdentity : Type := mkExpectedIdentity { ei_san : string; ei_issuer : string }.

Definition find_extension (oid : string) (extensions : list Extension) : option Extension :=
  find (fun e => String.eqb (extn_id e) oid) extensions.

(** The single SAN and its criticality. *)
Definition check_san (extensions : list Extension) (expected : ExpectedIdentity)
    : Result () CheckOutcome :=
  match find_extension SUBJECT_ALT_NAME_OID extensions with
  | None => Err (mkOutcome IdentityMismatch "no subject alternative name")
  | Some san_ext =>
      if negb (extn_critical san_ext) then
        Err (mkOutcome Failed "subject alternative name is not marked critical")
      else
        match subject_alt_name_from_der (extn_value san_ext) with
        | None => Err (mkOutcome Failed "malformed subject alternative name")
        | Some [UniformResourceIdentifier value] | Some [Rfc822Name value] =>
            if negb (String.eqb value (ei_san expected))
            then Err (mkOutcome IdentityMismatch "SAN does not match expected identity")
            else Ok ()
        | Some [OtherGeneralName] => Err (mkOutcome UnsupportedFormat "unsupported SAN type")
        | Some _ => Err (mkOutcome UnsupportedFormat "certificate does not carry exactly one SAN")
        end
  end.

Definition check_issuer (extensions : list Extension) (expected : ExpectedIdentity)
    : Result () CheckOutcome :=
  match find_extension FULCIO_ISSUER_V2 extensions with
  | None =>
      if existsb (fun e => String.eqb (extn_id e) FULCIO_ISSUER_V1) extensions
      then Err (mkOutcome UnsupportedFormat "only the deprecated v1 issuer extension is present")
      else Err (mkOutcome IdentityMismatch "no issuer extension")
  | Some issuer_ext =>
      match utf8_string_from_der (extn_value issuer_ext) with
      | None => Err (mkOutcome UnsupportedFormat "issuer extension is not a DER-encoded string")
      | Some issuer_value =>
          if negb (String.eqb issuer_value (ei_issuer expected))
          then Err (mkOutcome IdentityMismatch "issuer does not match expected identity")
          else Ok ()
      end
  end.

Definition verify_identity_offline (leaf_der : string) (intermediates pinned_roots : list string)
    (now_unix_secs : Z) (expected : ExpectedIdentity) : CheckOutcome :=
  let chain := verify_cert_chain_offline leaf_der intermediates pinned_roots now_unix_secs in
  if negb (is_verified (out_status chain)) then chain
  else
    match certificate_from_der leaf_der with
    | None => mkOutcome Failed "malformed leaf certificate"
    | Some cert =>
        if negb (cert_subject_empty cert) then mkOutcome Failed "certificate has a non-empty subject"
        else
          match cert_extensions cert with
          | None => mkOutcome IdentityMismatch "no certificate extensions"
          | Some extensions =>
              match check_san extensions expected with
              | Err e => e
              | Ok _ =>
                  match check_issuer extensions expected with
                  | Err e => e
                  | Ok _ =>
                      mkOutcome Verified "chain valid and identity matches expected SAN and issuer"
                  end
              end
          end
    end.

(** ** sigstore_signature.rs *)

Definition verify_leaf_ecdsa_signature_over_bytes (leaf_der message signature_der : string)
    : CheckOutcome :=
  match certificate_from_der leaf_der with
  | None => mkOutcome Failed "malformed leaf certificate"
  | Some cert =>
      match cert_spki_der cert with
      | None => mkOutcome Failed "malformed leaf public key info"
      | Some spki_der =>
          match p256_key_from_spki spki_der with
          | None => mkOutcome UnsupportedFormat "leaf public key is not ECDSA P-256"
          | Some vk =>
              match p256_signature_from_der signature_der with
              | None => mkOutcome UnsupportedFormat "signature is not a DER-encoded ECDSA signature"
              | Some sig =>
                  if p256_verify vk message sig
                  then mkOutcome Verified "signature verifies under the leaf public key"
                  else mkOutcome Failed "signature does not verify under the leaf public key"
              end
          end
      end
  end.

End Chain.

(** The statement as the digest binder reads it. *)
Record InTotoSubject : Type := mkInTotoSubject { its_digest : gmap string string }.
Record SubjectsOnly : Type := mkSubjectsOnly { so_subject : list InTotoSubject }.

Definition read_in_toto_subject (d : nat) (doc : Doc) : option InTotoSubject :=
  '(d, fs) ← read_fields [("digest", true)] false d doc;
  digest ← defaulted fs "digest" (read_string_map d) ∅;
  Some (mkInTotoSubject digest).

Definition read_subjects_only (d : nat) (doc : Doc) : option SubjectsOnly :=
  '(d, fs) ← read_fields [("subject", true)] false d doc;
  subject ← defaulted fs "subject" (read_list read_in_toto_subject d) [];
  Some (mkSubjectsOnly subject).

Definition bind_in_toto_subject_digest `{JsonReader} (statement_json expected_sha256 : string)
    : CheckOutcome :=
  match from_slice read_subjects_only statement_json with
  | None => mkOutcome Failed "malformed in-toto statement"
  | Some statement =>
      match so_subject statement with
      | [subject] =>
          match its_digest subject !! "sha256" with
          | Some sha256 =>
              if eq_ignore_ascii_case sha256 expected_sha256
              then mkOutcome Verified "subject sha256 matches the expected artifact digest"
              else mkOutcome SubjectDigestMismatch "subject sha256 does not match the expected artifact digest"
          | None =>
              if negb (bool_decide (its_digest subject = ∅))
              then mkOutcome UnsupportedFormat "subject digest algorithm is not sha256"
              else mkOutcome Failed "statement has no subject digest"
          end
      | _ => mkOutcome UnsupportedFormat "statement does not carry exactly one subject"
      end
  end.

Definition verify_identity_bound_raw_statement_fixture `{X509} `{JsonReader} (leaf_der : string)
    (intermediates pinned_roots : list string) (now_unix_secs : Z) (expected : ExpectedIdentity)
    (statement_json signature_der expected_sha256 : string) : CheckOutcome :=
  let identity := verify_identity_offline leaf_der intermediates pinned_roots now_unix_secs expected in
  if negb (is_verified (out_status identity)) then identity
  else
    let signature := verify_leaf_ecdsa_signature_over_bytes leaf_der statement_json signature_der in
    if negb (is_verified (out_status signature)) then signature
    else
      let digest := bind_in_toto_subject_digest statement_json expected_sha256 in
      if negb (is_verified (out_status digest)) then digest
      else mkOutcome Verified "identity, raw signature, and subject digest all verify (fixture level)".

(** ** dsse.rs *)

Definition IN_TOTO_PAYLOAD_TYPE : string := "application/vnd.in-toto+json".

Record SignatureIn : Type := mkSignatureIn { si_sig : option string }.
Record EnvelopeIn : Type := mkEnvelopeIn {
  en_payload_type : option string;
  en_payload : option string;
  en_signatures : list SignatureIn
}.

Definition read_signature_in (d : nat) (doc : Doc) : option SignatureIn :=
  '(_, fs) ← read_fields [("sig", false)] false d doc;
  sig ← optional fs "sig" read_string;
  Some (mkSignatureIn sig).

Definition read_envelope_in (d : nat) (doc : Doc) : option EnvelopeIn :=
  '(d, fs) ← read_fields [("payloadType", false); ("payload", false); ("signatures", true)] false d doc;
  payload_type ← optional fs "payloadType" read_string;
  payload ← optional fs "payload" read_string;
  signatures ← defaulted fs "signatures" (read_list read_signature_in d) [];
  Some (mkEnvelopeIn payload_type payload signatures).

Definition OVERSIZED_REASON : string := "DSSE payload exceeds the 1 MiB ceiling".

Definition verify_dsse_envelope_offline `{X509} `{JsonReader} `{PackCrypto}
    (leaf_der envelope_json expected_sha256 : string) : CheckOutcome :=
  match from_slice read_envelope_in envelope_json with
  | None => mkOutcome UnsupportedFormat "malformed DSSE envelope"
  | Some envelope =>
  match en_payload_type envelope with
  | None => mkOutcome UnsupportedFormat "DSSE envelope is missing payloadType"
  | Some payload_type =>
  match en_payload envelope with
  | None => mkOutcome UnsupportedFormat "DSSE envelope is missing payload"
  | Some payload_b64 =>
  match en_signatures envelope with
  | [signature_entry] =>
  match si_sig signature_entry with
  | None => mkOutcome UnsupportedFormat "DSSE signature entry is missing sig"
  | Some sig_b64 =>
  if negb (String.eqb payload_type IN_TOTO_PAYLOAD_TYPE) then
    mkOutcome UnsupportedFormat "unsupported DSSE payloadType"
  else
  match decode_bounded payload_b64 with
  | Ok None => mkOutcome UnsupportedFormat "DSSE payload is not valid base64"
  | Err _ => mkOutcome UnsupportedFormat OVERSIZED_REASON
  | Ok (Some payload) =>
  match b64 sig_b64 with
  | None => mkOutcome UnsupportedFormat "DSSE signature is not valid base64"
  | Some signature_der =>
      let signature :=
        verify_leaf_ecdsa_signature_over_bytes leaf_der (build_pae payload_type payload) signature_der in
      if negb (is_verified (out_status signature)) then signature
      else
        let digest := bind_in_toto_subject_digest payload expected_sha256 in
        if negb (is_verified (out_status digest)) then digest
        else mkOutcome Verified "DSSE PAE signature verifies and payload subject digest matches"
  end end end
  | _ => mkOutcome UnsupportedFormat "DSSE envelope does not carry exactly one signature"
  end end end end.

(** ** sigstore_bundle.rs *)

Definition BUNDLE_MEDIA_TYPE_V0_3 : string := "application/vnd.dev.sigstore.bundle.v0.3+json".

Record X509CertificateIn : Type := mkX509CertificateIn { xc_raw_bytes : option string }.
Record VerificationMaterialIn : Type := mkVerificationMaterialIn {
  vm_certificate : option X509CertificateIn;
  vm_x509_certificate_chain : option Value;
  vm_public_key : option Value
}.
Record BundleIn : Type := mkBundleIn {
  bi_media_type : option string;
  bi_verification_material : option VerificationMaterialIn;
  bi_dsse_envelope : option Value;
  bi_message_signature : option Value
}.

Definition read_x509_certificate_in (d : nat) (doc : Doc) : option X509CertificateIn :=
  '(_, fs) ← read_fields [("rawBytes", false)] false d doc;
  raw_bytes ← optional fs "rawBytes" read_string;
  Some (mkX509CertificateIn raw_bytes).

Definition read_verification_material_in (d : nat) (doc : Doc) : option VerificationMaterialIn :=
  '(d, fs) ← read_fields
      [("certificate", false); ("x509CertificateChain", false); ("publicKey", false)] false d doc;
  certificate ← optional fs "certificate" (read_x509_certificate_in d);
  chain ← optional fs "x509CertificateChain" (read_value d);
  public_key ← optional fs "publicKey" (read_value d);
  Some (mkVerificationMaterialIn certificate chain public_key).

Definition read_bundle_in (d : nat) (doc : Doc) : option BundleIn :=
  '(d, fs) ← read_fields
      [("mediaType", false); ("verificationMaterial", false); ("dsseEnvelope", false);
       ("messageSignature", false)] false d doc;
  media_type ← optional fs "mediaType" read_string;
  material ← optional fs "verificationMaterial" (read_verification_material_in d);
  dsse ← optional fs "dsseEnvelope" (read_value d);
  message ← optional fs "messageSignature" (read_value d);
  Some (mkBundleIn media_type material dsse message).

(** [to_vec] of a [Value] cannot fail. *)
Definition verify_sigstore_dsse_bundle_offline `{Platform} `{X509} `{JsonReader} `{PackCrypto}
    (bundle_json : string) (pinned_intermediates pinned_roots : list string) (now_unix_secs : Z)
    (expected : ExpectedIdentity) (expected_sha256 : string) : CheckOutcome :=
  match from_slice read_bundle_in bundle_json with
  | None => mkOutcome UnsupportedFormat "malformed Sigstore bundle"
  | Some bundle =>
  if negb (bool_decide (bi_media_type bundle = Some BUNDLE_MEDIA_TYPE_V0_3)) then
    mkOutcome UnsupportedFormat "unsupported or missing bundle mediaType (only v0.3 is accepted)"
  else if opt_is_some (bi_message_signature bundle) then
    mkOutcome UnsupportedFormat "messageSignature bundles are not supported (dsseEnvelope only)"
  else
  match bi_dsse_envelope bundle with
  | None => mkOutcome Failed "bundle has no content"
  | Some dsse_value =>
  match bi_verification_material bundle with
  | None => mkOutcome Failed "bundle has no verificationMaterial"
  | Some material =>
  if opt_is_some (vm_x509_certificate_chain material) then
    mkOutcome UnsupportedFormat "x509CertificateChain is not supported on the v0.3 path (trust material is pinned)"
  else if opt_is_some (vm_public_key material) then
    mkOutcome UnsupportedFormat "publicKey verification material is not supported (certificate only)"
  else
  match vm_certificate material ≫= xc_raw_bytes with
  | None => mkOutcome UnsupportedFormat "verificationMaterial has no supported certificate"
  | Some raw_bytes =>
  match b64 raw_bytes with
  | None => mkOutcome Failed "malformed leaf certificate"
  | Some leaf_der =>
      let identity :=
        verify_identity_offline leaf_der pinned_intermediates pinned_roots now_unix_secs expected in
      if negb (is_verified (out_status identity)) then identity
      else
        let dsse := verify_dsse_envelope_offline leaf_der (json_to_string dsse_value) expected_sha256 in
        if negb (is_verified (out_status dsse)) then dsse
        else
          mkOutcome Verified
            "bundle leaf chains to a pinned root, binds to the expected identity, and its DSSE envelope verifies"
  end end end end end.
