(* ===== verification/SupplyChain.v ===== *)
(** * Supply-chain conformance

    [assay-registry/src/supply_chain.rs] with [supply_chain/types.rs],
    [provenance.rs] and [sigstore.rs]: the checks on a subject's digest, on its
    provenance (a pinned-key DSSE statement or a keyless Sigstore bundle) and
    on its pinning, the policy's verdict over their statuses, and the report.
    Each check of a bundle reads the bytes of one parse.  The trust store reads
    the clock, so the checks that consult it are computations. *)
From stdpp Require Import base tactics list strings gmap.
From Stdlib Require Import Ascii ZArith Lia.
From S2P Require Import Prelude RustStr Json Platform PackRef PackYaml PackTrust JsonDoc SerdeJson MerkleLog Rekor Sigstore.

(** ** types.rs *)

Definition is_blocking (s : CheckStatus) : bool :=
  match s with
  | Failed | SubjectDigestMismatch | IdentityMismatch | PolicyNotSatisfied => true
  | _ => false
  end.

Definition is_pending (s : CheckStatus) : bool :=
  match s with
  | NotPresent | UnsupportedFormat | TrustRootUnavailable | OnlineRequired => true
  | _ => false
  end.

(** [SlsaLevel(u8)], ordered as the number. *)
Definition slsa_label (level : Z) : string := "L" +:+ fmt_int level.

Record Subject : Type := mkSubject { sj_name : string; sj_version : string; sj_digest : string }.

Record IntegrityChecks : Type := mkIntegrityChecks {
  ic_artifact_digest : CheckStatus;
  ic_subject_digest_binding : CheckStatus
}.

Record ProvenanceChecks : Type := mkProvenanceChecks {
  pc_dsse_signature : CheckStatus;
  pc_slsa_provenance : CheckStatus;
  pc_builder_identity : CheckStatus;
  pc_sigstore_bundle : CheckStatus;
  pc_rekor_inclusion : CheckStatus;
  pc_cert_chain : CheckStatus;
  pc_identity : CheckStatus;
  pc_dsse_pae : CheckStatus;
  pc_timestamp_freshness : CheckStatus;
  pc_consistency : CheckStatus;
  pc_witnessing : CheckStatus
}.

Record PinningChecks : Type := mkPinningChecks {
  pk_version_pinned : CheckStatus;
  pk_digest_pinned : CheckStatus;
  pk_lockfile_subject_matches_artifact : CheckStatus;
  pk_no_floating_source_ref : CheckStatus;
  pk_no_tag_only_container_ref : CheckStatus
}.

Record Checks : Type := mkChecks {
  ck_integrity : IntegrityChecks;
  ck_provenance : ProvenanceChecks;
  ck_pinning : PinningChecks
}.

Inductive PolicyResult : Type := Pass | Fail | Incomplete.
#[global] Instance PolicyResult_eq : EqDecision PolicyResult.
Proof. solve_decision. Defined.

Record Coverage : Type := mkCoverage { cv_sources_checked : list string; cv_limits : list string }.

Record SupplyChainConformance : Type := mkConformance {
  sc_schema : string;
  sc_subject : Subject;
  sc_checks : Checks;
  sc_required_slsa_build_level : Z;
  sc_verified_slsa_build_level : Z;
  sc_policy_result : PolicyResult;
  sc_coverage : Coverage;
  sc_non_claims : list string
}.

Inductive UnsupportedProvenance : Type := Pep740 | NpmProvenance | UnknownPredicate.

Record SigstoreBundleInput : Type := mkSigstoreBundleInput {
  sb_bundle_json : string;
  sb_fulcio_roots : list string;
  sb_fulcio_intermediates : list string;
  sb_rekor_trusted_root_json : string;
  sb_now_unix_secs : Z;
  sb_expected_san : string;
  sb_expected_issuer : string
}.

Inductive ProvenanceInput : Type :=
| ProvenanceNone
| Dsse (env : DsseEnvelope)
| SigstoreBundle (sb : SigstoreBundleInput)
| Unsupported (kind : UnsupportedProvenance).

Inductive ContainerRef : Type := DigestPinned | TagOnly.

Record PinningInput : Type := mkPinningInput {
  pi_version_pinned : bool;
  pi_digest_pinned : option bool;
  pi_lockfile_digest : option string;
  pi_floating_source_ref : bool;
  pi_container_ref : option ContainerRef
}.

Record Policy : Type := mkPolicy {
  po_required_builder_id : option string;
  po_required_slsa_build_level : Z;
  po_require_rekor_inclusion : bool;
  po_require_timestamp_freshness : bool;
  po_require_consistency : bool;
  po_require_witnessing : bool
}.

(** ** supply_chain.rs: pinning and the verdict *)

Definition SCHEMA : string := "assay.supply_chain_conformance.v0".
Definition STATEMENT_TYPE_V1 : string := "https://in-toto.io/Statement/v1".
Definition SLSA_PROVENANCE_PREDICATE : string := "https://slsa.dev/provenance/v1".
Definition DSSE_PAYLOAD_TYPE : string := "application/vnd.in-toto+json".

Definition hex_of (d : string) : string := default d (strip_prefix d "sha256:").

Definition verify_pinning (p : PinningInput) (subject_digest : string) : PinningChecks :=
  mkPinningChecks
    (if pi_version_pinned p then Verified else PolicyNotSatisfied)
    (match pi_digest_pinned p with
     | Some true => Verified
     | Some false => PolicyNotSatisfied
     | None => NotApplicable
     end)
    (match pi_lockfile_digest p with
     | Some locked => if String.eqb (hex_of locked) (hex_of subject_digest) then Verified else Failed
     | None => NotPresent
     end)
    (if pi_floating_source_ref p then PolicyNotSatisfied else Verified)
    (match pi_container_ref p with
     | Some DigestPinned => Verified
     | Some TagOnly => PolicyNotSatisfied
     | None => NotApplicable
     end).

Definition all_statuses (c : Checks) : list CheckStatus :=
  let i := ck_integrity c in
  let p := ck_provenance c in
  let k := ck_pinning c in
  [ic_artifact_digest i; ic_subject_digest_binding i;
   pc_dsse_signature p; pc_slsa_provenance p; pc_builder_identity p; pc_sigstore_bundle p;
   pc_rekor_inclusion p; pc_cert_chain p; pc_identity p; pc_dsse_pae p;
   pc_timestamp_freshness p; pc_consistency p; pc_witnessing p;
   pk_version_pinned k; pk_digest_pinned k; pk_lockfile_subject_matches_artifact k;
   pk_no_floating_source_ref k; pk_no_tag_only_container_ref k].

Definition non_transparency_statuses (c : Checks) : list CheckStatus :=
  let i := ck_integrity c in
  let p := ck_provenance c in
  let k := ck_pinning c in
  [ic_artifact_digest i; ic_subject_digest_binding i;
   pc_dsse_signature p; pc_slsa_provenance p; pc_builder_identity p; pc_sigstore_bundle p;
   pc_cert_chain p; pc_identity p; pc_dsse_pae p;
   pk_version_pinned k; pk_digest_pinned k; pk_lockfile_subject_matches_artifact k;
   pk_no_floating_source_ref k; pk_no_tag_only_container_ref k].

Definition compute_policy_result (checks : Checks) (policy : Policy) : PolicyResult :=
  if existsb is_blocking (all_statuses checks) then Fail
  else
    let p := ck_provenance checks in
    let required_unverified :=
      (po_require_rekor_inclusion policy && negb (is_verified (pc_rekor_inclusion p)))
      || (po_require_timestamp_freshness policy && negb (is_verified (pc_timestamp_freshness p)))
      || (po_require_consistency policy && negb (is_verified (pc_consistency p)))
      || (po_require_witnessing policy && negb (is_verified (pc_witnessing p))) in
    if required_unverified then Incomplete
    else
      let provenance_required := (0 <? po_required_slsa_build_level policy)%Z in
      if provenance_required && negb (is_verified (pc_slsa_provenance p)) then Incomplete
      else if existsb is_pending (non_transparency_statuses checks) then Incomplete
      else Pass.

(** ** provenance.rs *)

(** The statement as the provenance check reads it. *)
Record InTotoStatement : Type := mkInTotoStatement {
  st_type : string;
  st_subject : list InTotoSubject;
  st_predicate_type : string;
  st_predicate : Value
}.

Definition read_in_toto_statement (d : nat) (doc : Doc) : option InTotoStatement :=
  '(d, fs) ← read_fields
      [("_type", false); ("subject", false); ("predicateType", false); ("predicate", true)] false d doc;
  type_ ← required fs "_type" read_string;
  subject ← required fs "subject" (read_list read_in_toto_subject d);
  predicate_type ← required fs "predicateType" read_string;
  predicate ← defaulted fs "predicate" (read_value d) Null;
  Some (mkInTotoStatement type_ subject predicate_type predicate).

Record ProvenanceOutcome : Type := mkProvenanceOutcome {
  pr_checks : ProvenanceChecks;
  pr_subject_digest_binding : CheckStatus;
  pr_verified_level : Z
}.

Definition no_provenance : ProvenanceOutcome :=
  mkProvenanceOutcome
    (mkProvenanceChecks NotPresent NotPresent NotPresent NotPresent NotPresent NotPresent NotPresent
       NotPresent NotApplicable NotApplicable NotApplicable)
    NotPresent 0.

Definition unsupported_provenance (kind : UnsupportedProvenance) : ProvenanceOutcome :=
  let sigstore :=
    match kind with
    | Pep740 | NpmProvenance => UnsupportedFormat
    | UnknownPredicate => NotApplicable
    end in
  mkProvenanceOutcome
    (mkProvenanceChecks UnsupportedFormat UnsupportedFormat UnsupportedFormat sigstore NotApplicable
       UnsupportedFormat UnsupportedFormat UnsupportedFormat NotApplicable NotApplicable NotApplicable)
    NotApplicable 0.

Section SupplyChain.
Context `{Platform, YamlReader, PackCrypto, X509, LogCrypto, Sha256, JsonReader}.
Context {S : Type} `{!Clock S}.

(** The loop over the signatures: the first that verifies ends it. *)
Fixpoint any_trusted_signature (pae : string) (signatures : list DsseSignature)
    (trust_store : TrustStoreInner) (any_key_found : bool) : M S CheckStatus :=
  match signatures with
  | [] => mret (if any_key_found then Failed else TrustRootUnavailable)
  | sig :: signatures =>
      key ← get_key trust_store (ds_key_id sig);
      match key with
      | Err _ => any_trusted_signature pae signatures trust_store any_key_found
      | Ok key =>
          match base64_decode (ds_signature sig) with
          | Err _ => any_trusted_signature pae signatures trust_store true
          | Ok sig_bytes =>
              match signature_from_slice sig_bytes with
              | Err _ => any_trusted_signature pae signatures trust_store true
              | Ok signature =>
                  if ed25519_verify key pae signature then mret Verified
                  else any_trusted_signature pae signatures trust_store true
              end
          end
      end
  end.

Definition verify_dsse_signature (envelope : DsseEnvelope) (trust_store : TrustStoreInner)
    : M S CheckStatus :=
  if negb (String.eqb (env_payload_type envelope) DSSE_PAYLOAD_TYPE) then mret UnsupportedFormat
  else
    match decode_bounded (env_payload envelope) with
    | Ok None => mret Failed
    | Err _ => mret UnsupportedFormat
    | Ok (Some payload_bytes) =>
        if is_nil (env_signatures envelope) then mret NotPresent
        else
          any_trusted_signature (build_pae (env_payload_type envelope) payload_bytes)
            (env_signatures envelope) trust_store false
    end.

Definition decode_statement (envelope : DsseEnvelope) : option InTotoStatement :=
  match decode_bounded (env_payload envelope) with
  | Ok (Some payload) => from_slice read_in_toto_statement payload
  | _ => None
  end.

Definition statement_binds (s : InTotoStatement) (want : string) : bool :=
  existsb (fun d => String.eqb (hex_of d) want)
    (omap (fun sub => its_digest sub !! "sha256") (st_subject s)).

Definition dsse_subject_binding (statement : option InTotoStatement) (want : string) : CheckStatus :=
  match statement with
  | Some s =>
      if String.eqb (st_type s) STATEMENT_TYPE_V1
      then if statement_binds s want then Verified else SubjectDigestMismatch
      else Failed
  | None => Failed
  end.

Definition check_builder (is_slsa : bool) (required got : option string) : CheckStatus :=
  if negb is_slsa then UnsupportedFormat
  else
    match required, got with
    | Some req, Some got => if String.eqb req got then Verified else IdentityMismatch
    | Some _, None => IdentityMismatch
    | None, Some _ => Verified
    | None, None => NotApplicable
    end.

Definition verify_pinned_key_dsse (subject : Subject) (policy : Policy)
    (trust_store : TrustStoreInner) (env : DsseEnvelope) : M S ProvenanceOutcome :=
  dsse_signature ← verify_dsse_signature env trust_store;
  let statement := decode_statement env in
  let want := hex_of (sj_digest subject) in
  let subject_digest_binding := dsse_subject_binding statement want in
  let is_slsa :=
    match statement with
    | Some s => String.eqb (st_predicate_type s) SLSA_PROVENANCE_PREDICATE
    | None => false
    end in
  let builder_id := statement ≫= fun s => pointer_str (st_predicate s) "/runDetails/builder/id" in
  let builder_identity := check_builder is_slsa (po_required_builder_id policy) builder_id in
  let binds := is_verified subject_digest_binding in
  let signed_ok := is_verified dsse_signature in
  let identity_ok :=
    match builder_identity with Verified | NotApplicable => true | _ => false end in
  let verified_level :=
    if negb is_slsa || negb binds then 0%Z else if signed_ok && identity_ok then 2%Z else 1%Z in
  let required := po_required_slsa_build_level policy in
  let slsa_provenance :=
    if negb is_slsa then UnsupportedFormat
    else if (required <=? verified_level)%Z then Verified else Failed in
  mret (mkProvenanceOutcome
    (mkProvenanceChecks dsse_signature slsa_provenance builder_identity NotApplicable NotApplicable
       NotApplicable NotApplicable NotApplicable NotApplicable NotApplicable NotApplicable)
    subject_digest_binding verified_level).

(** ** sigstore.rs *)

Record ParsedSigstoreBundleEvidence : Type := mkParsedEvidence {
  ev_leaf_der : string;
  ev_payload_type : option string;
  ev_statement_payload : string;
  ev_dsse_signature : option string
}.

Definition parse_sigstore_bundle (bundle_json : string) : Result ParsedSigstoreBundleEvidence CheckStatus :=
  match value_from_slice bundle_json with
  | None => Err Failed
  | Some bundle =>
  if negb (bool_decide (vget bundle "mediaType" ≫= as_str = Some BUNDLE_MEDIA_TYPE_V0_3))
  then Err UnsupportedFormat
  else if opt_is_some (vget bundle "messageSignature") then Err UnsupportedFormat
  else
  match opt_filter is_object (vget bundle "dsseEnvelope") with
  | None => Err Failed
  | Some dsse =>
  match vget bundle "verificationMaterial" with
  | None => Err Failed
  | Some material =>
  if opt_is_some (vget material "x509CertificateChain") || opt_is_some (vget material "publicKey")
  then Err UnsupportedFormat
  else
  match pointer_str material "/certificate/rawBytes" with
  | None => Err UnsupportedFormat
  | Some raw_bytes =>
  match b64 raw_bytes with
  | None => Err Failed
  | Some leaf_der =>
      let payload_type : option string := vget dsse "payloadType" ≫= as_str in
      let statement_payload := default EmptyString ((vget dsse "payload" ≫= as_str) ≫= b64) in
      let dsse_signature : option string :=
        match vget dsse "signatures" ≫= as_array with
        | Some [sig] => (vget sig "sig" ≫= as_str) ≫= b64
        | _ => None
        end in
      Ok (mkParsedEvidence leaf_der payload_type statement_payload dsse_signature)
  end end end end end.

Definition check_dsse_pae (ev : ParsedSigstoreBundleEvidence) : CheckStatus :=
  match ev_payload_type ev, ev_dsse_signature ev with
  | Some pt, Some sig =>
      if String.eqb pt DSSE_PAYLOAD_TYPE && negb (str_is_empty (ev_statement_payload ev))
      then out_status (verify_leaf_ecdsa_signature_over_bytes (ev_leaf_der ev)
                         (build_pae pt (ev_statement_payload ev)) sig)
      else UnsupportedFormat
  | _, _ => UnsupportedFormat
  end.

Definition check_bundle_subject (ev : ParsedSigstoreBundleEvidence) (want : string) : CheckStatus :=
  if negb (bool_decide (ev_payload_type ev = Some DSSE_PAYLOAD_TYPE)) then UnsupportedFormat
  else
    match from_slice read_in_toto_statement (ev_statement_payload ev) with
    | Some s =>
        if String.eqb (st_type s) STATEMENT_TYPE_V1
        then out_status (bind_in_toto_subject_digest (ev_statement_payload ev) want)
        else UnsupportedFormat
    | None => Failed
    end.

Definition verify_sigstore_bundle_provenance (sb : SigstoreBundleInput) (subject : Subject)
    (policy : Policy) : ProvenanceOutcome :=
  let want := hex_of (sj_digest subject) in
  let rekor_requirement := if po_require_rekor_inclusion policy then Required else Optional in
  match parse_sigstore_bundle (sb_bundle_json sb) with
  | Err status =>
      mkProvenanceOutcome
        (mkProvenanceChecks NotApplicable NotApplicable NotApplicable status status status status status
           NotChecked NotChecked NotChecked)
        status 0
  | Ok ev =>
      let expected := mkExpectedIdentity (sb_expected_san sb) (sb_expected_issuer sb) in
      let cert_chain :=
        out_status (verify_cert_chain_offline (ev_leaf_der ev) (sb_fulcio_intermediates sb)
                      (sb_fulcio_roots sb) (sb_now_unix_secs sb)) in
      let identity :=
        out_status (verify_identity_offline (ev_leaf_der ev) (sb_fulcio_intermediates sb)
                      (sb_fulcio_roots sb) (sb_now_unix_secs sb) expected) in
      let rekor_inclusion :=
        out_status (verify_rekor_v2_inclusion_offline (sb_bundle_json sb)
                      (sb_rekor_trusted_root_json sb) rekor_requirement) in
      mkProvenanceOutcome
        (mkProvenanceChecks NotApplicable NotApplicable NotApplicable Verified rekor_inclusion cert_chain
           identity (check_dsse_pae ev) NotChecked NotChecked NotChecked)
        (check_bundle_subject ev want) 0
  end.

(** ** supply_chain.rs: the report *)

Record VerifyInput : Type := mkVerifyInput {
  vi_subject : Subject;
  vi_expected_artifact_digest : option string;
  vi_provenance : ProvenanceInput;
  vi_pinning : PinningInput;
  vi_policy : Policy;
  vi_trust_store : TrustStoreInner
}.

Definition verify_provenance (input : VerifyInput) : M S ProvenanceOutcome :=
  match vi_provenance input with
  | ProvenanceNone => mret no_provenance
  | SigstoreBundle sb => mret (verify_sigstore_bundle_provenance sb (vi_subject input) (vi_policy input))
  | Unsupported kind => mret (unsupported_provenance kind)
  | Dsse env => verify_pinned_key_dsse (vi_subject input) (vi_policy input) (vi_trust_store input) env
  end.

Definition conformance_limits (sigstore_path : bool) : list string :=
  ["transitive dependencies not re-fetched";
   "PEP 740 / npm provenance adapters not verified in this slice";
   "live transparency-log lookup not performed offline"]
  ++ (if sigstore_path then
        ["timestamp freshness not checked (RFC3161; Rekor v2 issues no SET)";
         "transparency-log consistency proof not checked";
         "witness cosignatures not checked"]
      else []).

Definition verify_supply_chain (input : VerifyInput) : M S SupplyChainConformance :=
  let artifact_digest :=
    match vi_expected_artifact_digest input with
    | Some expected =>
        if negb (String.eqb (hex_of expected) (hex_of (sj_digest (vi_subject input))))
        then Failed else Verified
    | None => Verified
    end in
  prov ← verify_provenance input;
  let pinning := verify_pinning (vi_pinning input) (sj_digest (vi_subject input)) in
  let checks :=
    mkChecks (mkIntegrityChecks artifact_digest (pr_subject_digest_binding prov)) (pr_checks prov) pinning in
  let policy_result := compute_policy_result checks (vi_policy input) in
  let sigstore_path := bool_decide (pc_timestamp_freshness (ck_provenance checks) = NotChecked) in
  mret (mkConformance SCHEMA (vi_subject input) checks
    (po_required_slsa_build_level (vi_policy input)) (pr_verified_level prov) policy_result
    (mkCoverage ["pack"; "lockfile"; "provenance"] (conformance_limits sigstore_path))
    ["provenance verification does not prove code safety";
     "verified provenance does not prove absence of malicious behaviour";
     "verified signer identity is not a judgement that the provider is trustworthy";
     "not_present is not a silent pass when policy requires provenance"]).

Definition is_clean (report : SupplyChainConformance) : bool :=
  String.eqb (sc_schema report) SCHEMA
  && forallb (fun s => match s with Verified | NotApplicable => true | _ => false end)
       (all_statuses (sc_checks report)).

End SupplyChain.
