(* ===== verification/SupplyChainCorrect.v ===== *)
(** * What a passing supply chain shows

    Declarative readings of the offline checks (a certificate chain under the
    pinned roots, an identity, a signature of the leaf, a bound digest), each
    equivalent to the status [Verified] of its check, and the meaning of
    [Pass]: every piece of evidence the policy rests on has been verified. *)
From stdpp Require Import base tactics list strings gmap.
From Stdlib Require Import Ascii ZArith Lia.
From S2P Require Import Prelude RustStr Json Platform PackRef PackYaml PackTrust PackTrustCorrect JsonDoc SerdeJson MerkleLog Rekor RekorCorrect Sigstore SupplyChain.

Lemma is_verified_true s : is_verified s = true <-> s = Verified.
Proof. apply bool_decide_eq_true. Qed.

(** [if status != Verified { return it }]. *)
Lemma verified_then (o : CheckOutcome) (k : CheckOutcome) :
  out_status (if negb (is_verified (out_status o)) then o else k) = Verified <->
  out_status o = Verified /\ out_status k = Verified.
Proof.
  destruct (is_verified (out_status o)) eqn:E; cbn [negb].
  - apply is_verified_true in E. tauto.
  - split; [|tauto]. intros Hv. rewrite Hv in E. done.
Qed.

(** Neither a refusal nor a gap. *)
Definition settled (s : CheckStatus) : Prop := is_blocking s = false /\ is_pending s = false.

(** A check whose only settled status is [Verified]. *)
Definition definite (s : CheckStatus) : Prop := settled s -> s = Verified.

Lemma definite_then (o k : CheckOutcome) :
  definite (out_status o) -> definite (out_status k) ->
  definite (out_status (if negb (is_verified (out_status o)) then o else k)).
Proof. by destruct (is_verified (out_status o)). Qed.

Ltac definite_leaf := first [by intros [? ?] | done].

(** ** The checks of a bundle *)

Section Checks.
Context `{X509}.

Definition ChainValid (leaf : string) (intermediates roots : list string) (now : Z) : Prop :=
  roots <> [] /\ exists anchors ee,
    mapM anchor_from_trusted_cert roots = Some anchors /\ end_entity_from_der leaf = Some ee
    /\ verify_for_usage ee SUPPORTED_SIG_ALGS anchors intermediates now EKU_CODE_SIGNING = Ok ().

Lemma chain_verified leaf intermediates roots now :
  out_status (verify_cert_chain_offline leaf intermediates roots now) = Verified <->
  ChainValid leaf intermediates roots now.
Proof.
  unfold verify_cert_chain_offline, ChainValid. split.
  - destruct (is_nil roots) eqn:En; [done|]. apply is_nil_false in En.
    destruct (mapM anchor_from_trusted_cert roots) as [anchors|]; [|done].
    destruct (end_entity_from_der leaf) as [ee|]; [|done].
    destruct (verify_for_usage ee SUPPORTED_SIG_ALGS anchors intermediates now EKU_CODE_SIGNING)
      as [[]|[]] eqn:Ev; try done.
    intros _. split; [done|]. by exists anchors, ee.
  - intros (Hn%is_nil_false & anchors & ee & -> & -> & ->). by rewrite Hn.
Qed.

(** An empty subject, one critical SAN and one issuer, both as expected. *)
Definition HasIdentity (leaf : string) (expected : ExpectedIdentity) : Prop :=
  exists cert extensions san issuer name,
    certificate_from_der leaf = Some cert /\ cert_subject_empty cert = true
    /\ cert_extensions cert = Some extensions
    /\ find_extension SUBJECT_ALT_NAME_OID extensions = Some san /\ extn_critical san = true
    /\ subject_alt_name_from_der (extn_value san) = Some [name]
    /\ (name = UniformResourceIdentifier (ei_san expected) \/ name = Rfc822Name (ei_san expected))
    /\ find_extension FULCIO_ISSUER_V2 extensions = Some issuer
    /\ utf8_string_from_der (extn_value issuer) = Some (ei_issuer expected).

Lemma check_san_ok extensions expected :
  check_san extensions expected = Ok () <->
  exists san name, find_extension SUBJECT_ALT_NAME_OID extensions = Some san /\ extn_critical san = true
    /\ subject_alt_name_from_der (extn_value san) = Some [name]
    /\ (name = UniformResourceIdentifier (ei_san expected) \/ name = Rfc822Name (ei_san expected)).
Proof.
  unfold check_san. split.
  - destruct (find_extension _ _) as [san|]; [|done]. destruct (extn_critical san) eqn:Ec; [|done].
    cbn [negb]. destruct (subject_alt_name_from_der _) as [[|[v|v|] [|]]|] eqn:Es; try done;
      destruct (String.eqb_spec v (ei_san expected)) as [->|]; try done;
      intros _; eexists san, _; eauto 10.
  - intros (san & name & -> & -> & -> & [-> | ->]); cbn [negb]; by rewrite String.eqb_refl.
Qed.

Lemma check_issuer_ok extensions expected :
  check_issuer extensions expected = Ok () <->
  exists issuer, find_extension FULCIO_ISSUER_V2 extensions = Some issuer
    /\ utf8_string_from_der (extn_value issuer) = Some (ei_issuer expected).
Proof.
  unfold check_issuer. split.
  - destruct (find_extension _ _) as [issuer|]; [|by destruct (existsb _ _)].
    destruct (utf8_string_from_der _) as [v|] eqn:Ev; [|done].
    destruct (String.eqb_spec v (ei_issuer expected)) as [->|]; [|done]. eauto.
  - intros (issuer & -> & ->). by rewrite String.eqb_refl.
Qed.

Lemma check_san_error extensions expected e : check_san extensions expected = Err e -> out_status e <> Verified.
Proof.
  unfold check_san. destruct (find_extension _ _) as [san|]; [|by intros [= <-]].
  destruct (extn_critical san); [|by intros [= <-]]. cbn [negb].
  destruct (subject_alt_name_from_der _) as [[|[v|v|] [|]]|]; try (by intros [= <-]);
    destruct (String.eqb v (ei_san expected)); try done; by intros [= <-].
Qed.

Lemma check_issuer_error extensions expected e :
  check_issuer extensions expected = Err e -> out_status e <> Verified.
Proof.
  unfold check_issuer. destruct (find_extension _ _) as [issuer|].
  - destruct (utf8_string_from_der _) as [v|]; [|by intros [= <-]].
    destruct (String.eqb v (ei_issuer expected)); [done|by intros [= <-]].
  - destruct (existsb _ _); by intros [= <-].
Qed.

Lemma identity_verified leaf intermediates roots now expected :
  out_status (verify_identity_offline leaf intermediates roots now expected) = Verified <->
  ChainValid leaf intermediates roots now /\ HasIdentity leaf expected.
Proof.
  unfold verify_identity_offline. rewrite verified_then, chain_verified.
  enough (out_status
    (match certificate_from_der leaf with
     | None => mkOutcome Failed "malformed leaf certificate"
     | Some cert =>
         if negb (cert_subject_empty cert) then mkOutcome Failed "certificate has a non-empty subject"
         else match cert_extensions cert with
              | None => mkOutcome IdentityMismatch "no certificate extensions"
              | Some extensions =>
                  match check_san extensions expected with
                  | Err e => e
                  | Ok _ => match check_issuer extensions expected with
                            | Err e => e
                            | Ok _ => mkOutcome Verified "chain valid and identity matches expected SAN and issuer"
                            end
                  end
              end
     end) = Verified <-> HasIdentity leaf expected) by tauto.
  split.
  - destruct (certificate_from_der leaf) as [cert|] eqn:Ec; [|done].
    destruct (cert_subject_empty cert) eqn:Es; [|done]. cbn [negb].
    destruct (cert_extensions cert) as [extensions|] eqn:Ee; [|done].
    destruct (check_san extensions expected) as [[]|e] eqn:Esan;
      [|intros Hv; by destruct (check_san_error _ _ _ Esan)].
    destruct (check_issuer extensions expected) as [[]|e] eqn:Ei;
      [|intros Hv; by destruct (check_issuer_error _ _ _ Ei)].
    apply check_san_ok in Esan as (san & name & ? & ? & ? & ?).
    apply check_issuer_ok in Ei as (issuer & ? & ?). intros _.
    exists cert, extensions, san, issuer, name. by split_and!.
  - intros (cert & extensions & san & issuer & name & -> & -> & -> & ? & ? & ? & ? & ? & ?). cbn [negb].
    rewrite (proj2 (check_san_ok extensions expected)) by (exists san, name; by split_and!).
    by rewrite (proj2 (check_issuer_ok extensions expected)) by (exists issuer; by split_and!).
Qed.

Lemma chain_definite leaf intermediates roots now :
  definite (out_status (verify_cert_chain_offline leaf intermediates roots now)).
Proof.
  unfold verify_cert_chain_offline. repeat case_match; definite_leaf.
Qed.

Lemma identity_definite leaf intermediates roots now expected :
  definite (out_status (verify_identity_offline leaf intermediates roots now expected)).
Proof.
  apply definite_then; [apply chain_definite|].
  unfold check_san, check_issuer. repeat case_match; simplify_eq; definite_leaf.
Qed.

(** The key of the leaf signed the message. *)
Definition LeafSigned (leaf message signature_der : string) : Prop :=
  exists cert spki key sig,
    certificate_from_der leaf = Some cert /\ cert_spki_der cert = Some spki
    /\ p256_key_from_spki spki = Some key /\ p256_signature_from_der signature_der = Some sig
    /\ p256_verify key message sig = true.

Lemma leaf_signature_verified leaf message signature_der :
  out_status (verify_leaf_ecdsa_signature_over_bytes leaf message signature_der) = Verified <->
  LeafSigned leaf message signature_der.
Proof.
  unfold verify_leaf_ecdsa_signature_over_bytes, LeafSigned. split.
  - destruct (certificate_from_der leaf) as [cert|]; [|done].
    destruct (cert_spki_der cert) as [spki|] eqn:?; [|done].
    destruct (p256_key_from_spki spki) as [key|] eqn:?; [|done].
    destruct (p256_signature_from_der signature_der) as [sig|]; [|done].
    destruct (p256_verify key message sig) eqn:?; [|done]. intros _. by exists cert, spki, key, sig.
  - by intros (cert & spki & key & sig & -> & -> & -> & -> & ->).
Qed.

Lemma leaf_signature_definite leaf message signature_der :
  definite (out_status (verify_leaf_ecdsa_signature_over_bytes leaf message signature_der)).
Proof. unfold verify_leaf_ecdsa_signature_over_bytes. repeat case_match; definite_leaf. Qed.

Context `{JsonReader}.

(** The statement has one subject, and its digest is the expected one. *)
Definition SubjectBound (statement_json expected_sha256 : string) : Prop :=
  exists subject digest,
    from_slice read_subjects_only statement_json = Some (mkSubjectsOnly [subject])
    /\ its_digest subject !! "sha256" = Some digest
    /\ eq_ignore_ascii_case digest expected_sha256 = true.

Lemma subject_verified statement_json expected_sha256 :
  out_status (bind_in_toto_subject_digest statement_json expected_sha256) = Verified <->
  SubjectBound statement_json expected_sha256.
Proof.
  unfold bind_in_toto_subject_digest, SubjectBound. split.
  - destruct (from_slice read_subjects_only statement_json) as [[[|subject [|]]]|]; try done.
    cbn [so_subject]. destruct (its_digest subject !! "sha256") as [digest|] eqn:Ed.
    + destruct (eq_ignore_ascii_case digest expected_sha256) eqn:Ee; [|done]. intros _.
      by exists subject, digest.
    + by destruct (negb _).
  - intros (subject & digest & -> & Hd & He). cbn [so_subject]. by rewrite Hd, He.
Qed.

Lemma subject_definite statement_json expected_sha256 :
  definite (out_status (bind_in_toto_subject_digest statement_json expected_sha256)).
Proof. unfold bind_in_toto_subject_digest. repeat case_match; definite_leaf. Qed.

End Checks.

(** ** The envelope and the bundle *)

Section Bundle.
Context `{Platform, YamlReader, PackCrypto, X509, JsonReader}.

(** One signature, over the encoding of the payload, whose subject is bound. *)
Definition EnvelopeVerified (leaf envelope_json expected_sha256 : string) : Prop :=
  exists payload_b64 payload sig_b64 sig,
    from_slice read_envelope_in envelope_json =
      Some (mkEnvelopeIn (Some IN_TOTO_PAYLOAD_TYPE) (Some payload_b64) [mkSignatureIn (Some sig_b64)])
    /\ base64_decode payload_b64 = Ok payload /\ b64 sig_b64 = Some sig
    /\ LeafSigned leaf (build_pae IN_TOTO_PAYLOAD_TYPE payload) sig
    /\ SubjectBound payload expected_sha256.

Lemma envelope_verified leaf envelope_json expected_sha256 :
  out_status (verify_dsse_envelope_offline leaf envelope_json expected_sha256) = Verified ->
  EnvelopeVerified leaf envelope_json expected_sha256.
Proof.
  unfold verify_dsse_envelope_offline, EnvelopeVerified.
  destruct (from_slice read_envelope_in envelope_json) as [[[pt|] [p|] [|[[sig_b64|]] [|]]]|]; try done.
  cbn [en_payload_type en_payload en_signatures si_sig].
  destruct (String.eqb_spec pt IN_TOTO_PAYLOAD_TYPE) as [->|]; [|done]. cbn [negb].
  destruct (decode_bounded p) as [[payload|]|] eqn:Ed; try done.
  destruct (b64 sig_b64) as [sig|] eqn:Es; [|done].
  intros [Hs%leaf_signature_verified [Hd%subject_verified _]%verified_then]%verified_then.
  apply decode_bounded_ok in Ed as [? _]. by exists p, payload, sig_b64, sig.
Qed.

(** The leaf of a constrained v0.3 bundle. *)
Definition BundleLeaf (bundle_json leaf : string) (dsse : Value) : Prop :=
  exists bundle material raw,
    from_slice read_bundle_in bundle_json = Some bundle
    /\ bi_media_type bundle = Some BUNDLE_MEDIA_TYPE_V0_3 /\ bi_message_signature bundle = None
    /\ bi_dsse_envelope bundle = Some dsse /\ bi_verification_material bundle = Some material
    /\ vm_x509_certificate_chain material = None /\ vm_public_key material = None
    /\ vm_certificate material ≫= xc_raw_bytes = Some raw /\ b64 raw = Some leaf.

(** C26: a keyless bundle is verified only if it is a v0.3 bundle that brings no
    trust material of its own, its leaf chains to a root the caller pinned at
    the given time, the leaf carries exactly the expected identity, the leaf's
    key signed the pre-authentication encoding of the payload, and the
    payload's single subject has the expected digest. *)
Theorem sigstore_bundle_sound bundle_json intermediates roots now expected sha256 :
  out_status (verify_sigstore_dsse_bundle_offline bundle_json intermediates roots now expected sha256)
    = Verified ->
  exists leaf dsse, BundleLeaf bundle_json leaf dsse
    /\ ChainValid leaf intermediates roots now /\ HasIdentity leaf expected
    /\ EnvelopeVerified leaf (json_to_string dsse) sha256.
Proof.
  unfold verify_sigstore_dsse_bundle_offline, BundleLeaf.
  destruct (from_slice read_bundle_in bundle_json) as [bundle|]; [|done].
  case_bool_decide as Hmedia; [|done]. cbn [negb].
  destruct (bi_message_signature bundle) eqn:Hm; [done|]. cbn [opt_is_some].
  destruct (bi_dsse_envelope bundle) as [dsse|] eqn:Hd; [|done].
  destruct (bi_verification_material bundle) as [material|] eqn:Hv; [|done].
  destruct (vm_x509_certificate_chain material) eqn:Hx; [done|]. cbn [opt_is_some].
  destruct (vm_public_key material) eqn:Hk; [done|]. cbn [opt_is_some].
  destruct (vm_certificate material ≫= xc_raw_bytes) as [raw|] eqn:Hr; [|done].
  destruct (b64 raw) as [leaf|] eqn:Hl; [|done].
  intros [[Hc Hi]%identity_verified [He%envelope_verified _]%verified_then]%verified_then.
  exists leaf, dsse. split; [by exists bundle, material, raw|done].
Qed.

End Bundle.

(** ** The verdict *)

Section Verdict.
Context `{Platform, YamlReader, PackCrypto, X509, LogCrypto, Sha256, JsonReader}.
Context {S : Type} `{!Clock S}.

Lemma pass_settled checks policy :
  compute_policy_result checks policy = Pass <->
  Forall (fun s => is_blocking s = false) (all_statuses checks)
  /\ Forall settled (non_transparency_statuses checks)
  /\ (po_require_rekor_inclusion policy = true -> pc_rekor_inclusion (ck_provenance checks) = Verified)
  /\ (po_require_timestamp_freshness policy = true -> pc_timestamp_freshness (ck_provenance checks) = Verified)
  /\ (po_require_consistency policy = true -> pc_consistency (ck_provenance checks) = Verified)
  /\ (po_require_witnessing policy = true -> pc_witnessing (ck_provenance checks) = Verified)
  /\ ((0 < po_required_slsa_build_level policy)%Z -> pc_slsa_provenance (ck_provenance checks) = Verified).
Proof.
  assert (forall (b : bool) s, b && negb (is_verified s) = false <-> (b = true -> s = Verified)) as Hreq.
  { intros [] s; cbn [andb]; [|naive_solver]. rewrite negb_false_iff, is_verified_true. naive_solver. }
  assert (forall (f : CheckStatus -> bool) l, existsb f l = false <-> Forall (fun s => f s = false) l) as Hex.
  { intros f l. rewrite existsb_false, Forall_forall. done. }
  assert (Forall (fun s => is_blocking s = false) (all_statuses checks) ->
          Forall (fun s => is_pending s = false) (non_transparency_statuses checks) <->
          Forall settled (non_transparency_statuses checks)) as Hset.
  { intros Hb. unfold settled. rewrite Forall_and. split; [|tauto]. intros Hp. split; [|done].
    unfold all_statuses, non_transparency_statuses in *. rewrite !Forall_cons in *. tauto. }
  rewrite <- Hreq, <- Hreq, <- Hreq, <- Hreq, <- (Z.ltb_lt 0), <- Hreq.
  unfold compute_policy_result. rewrite <- Hex.
  destruct (existsb is_blocking (all_statuses checks)) eqn:Eb; [split; [done|by intros [? _]]|].
  apply Hex in Eb. specialize (Hset Eb). rewrite <- Hset, <- Hex.
  destruct (po_require_rekor_inclusion policy && _); [split; [done|naive_solver]|].
  destruct (po_require_timestamp_freshness policy && _); [cbn; split; [done|naive_solver]|].
  destruct (po_require_consistency policy && _); [cbn; split; [done|naive_solver]|].
  destruct (po_require_witnessing policy && _); [cbn; split; [done|naive_solver]|]. cbn [orb].
  destruct (_ && negb (is_verified (pc_slsa_provenance _))); [split; [done|naive_solver]|].
  destruct (existsb is_pending _); split; naive_solver.
Qed.

(** The pinning and the digest of the artifact. *)
Definition ArtifactPinned (input : VerifyInput) : Prop :=
  let digest := hex_of (sj_digest (vi_subject input)) in
  let p := vi_pinning input in
  (forall d, vi_expected_artifact_digest input = Some d -> hex_of d = digest)
  /\ (exists d, pi_lockfile_digest p = Some d /\ hex_of d = digest)
  /\ pi_version_pinned p = true /\ pi_digest_pinned p <> Some false
  /\ pi_floating_source_ref p = false /\ pi_container_ref p <> Some TagOnly.

(** An SLSA statement about the subject, from the required builder, signed by
    a key of the trust store. *)
Definition StatementTrusted (input : VerifyInput) (env : DsseEnvelope) : Prop :=
  exists payload st sig,
    env_payload_type env = DSSE_PAYLOAD_TYPE
    /\ base64_decode (env_payload env) = Ok payload
    /\ sig ∈ env_signatures env /\ SignedBy (S:=S) (vi_trust_store input) (build_pae DSSE_PAYLOAD_TYPE payload) sig
    /\ from_slice read_in_toto_statement payload = Some st
    /\ st_type st = STATEMENT_TYPE_V1 /\ st_predicate_type st = SLSA_PROVENANCE_PREDICATE
    /\ (exists sub d, sub ∈ st_subject st /\ its_digest sub !! "sha256" = Some d
          /\ hex_of d = hex_of (sj_digest (vi_subject input)))
    /\ (forall b, po_required_builder_id (vi_policy input) = Some b ->
          pointer_str (st_predicate st) "/runDetails/builder/id" = Some b)
    /\ (po_required_slsa_build_level (vi_policy input) <= 2)%Z.

(** A keyless bundle of the expected signer about the subject; what the offline
    path does not check, the policy does not require. *)
Definition BundleTrusted (input : VerifyInput) (sb : SigstoreBundleInput) : Prop :=
  let policy := vi_policy input in
  exists ev sig,
    parse_sigstore_bundle (sb_bundle_json sb) = Ok ev
    /\ ChainValid (ev_leaf_der ev) (sb_fulcio_intermediates sb) (sb_fulcio_roots sb) (sb_now_unix_secs sb)
    /\ HasIdentity (ev_leaf_der ev) (mkExpectedIdentity (sb_expected_san sb) (sb_expected_issuer sb))
    /\ ev_dsse_signature ev = Some sig
    /\ LeafSigned (ev_leaf_der ev) (build_pae DSSE_PAYLOAD_TYPE (ev_statement_payload ev)) sig
    /\ SubjectBound (ev_statement_payload ev) (hex_of (sj_digest (vi_subject input)))
    /\ (po_require_rekor_inclusion policy = true ->
          exists bundle trusted_root cp body index hashes,
            value_from_slice (sb_bundle_json sb) = Some bundle
            /\ value_from_slice (sb_rekor_trusted_root_json sb) = Some trusted_root
            /\ Evidence bundle trusted_root cp body index hashes)
    /\ po_require_timestamp_freshness policy = false /\ po_require_consistency policy = false
    /\ po_require_witnessing policy = false /\ (po_required_slsa_build_level policy <= 0)%Z.

Lemma any_trusted_signature_ok pae signatures trust_store found (s s' : S) st :
  any_trusted_signature pae signatures trust_store found s = (Done st, s') ->
  (st = Verified /\ exists sig, sig ∈ signatures /\ SignedBy (S:=S) trust_store pae sig)
  \/ st = Failed \/ st = TrustRootUnavailable.
Proof.
  revert found s. induction signatures as [|sig signatures IH]; intros found s; cbn [any_trusted_signature].
  { unfold mret, M_ret. intros [= <- _]. destruct found; auto. }
  assert (forall found s1, any_trusted_signature pae signatures trust_store found s1 = (Done st, s') ->
    (st = Verified /\ exists sig', sig' ∈ sig :: signatures /\ SignedBy (S:=S) trust_store pae sig')
    \/ st = Failed \/ st = TrustRootUnavailable) as Hrec.
  { intros found' s1 [(-> & sig' & Hin & Hs)|?]%IH; [left|by right]. split; [done|].
    exists sig'. split; [by right|done]. }
  unfold get_key, mbind, M_bind, mret, M_ret.
  destruct (read_clock s) as [[now|] s1] eqn:Ec; [|done].
  destruct (get_key_inner trust_store now (ds_key_id sig)) as [key|] eqn:Ek; [|apply Hrec].
  destruct (base64_decode (ds_signature sig)) as [bytes|] eqn:Eb; [|apply Hrec].
  destruct (signature_from_slice bytes) as [signature|] eqn:Es; [|apply Hrec].
  destruct (ed25519_verify key pae signature) eqn:Ev; [|apply Hrec].
  intros [= <- _]. left. split; [done|]. exists sig. split; [by left|].
  by exists s, s1, now, key, bytes, signature.
Qed.

Lemma dsse_signature_settled env trust_store (s s' : S) st :
  verify_dsse_signature env trust_store s = (Done st, s') -> settled st ->
  st = Verified /\ env_payload_type env = DSSE_PAYLOAD_TYPE
  /\ exists payload sig, decode_bounded (env_payload env) = Ok (Some payload)
       /\ sig ∈ env_signatures env /\ SignedBy (S:=S) trust_store (build_pae DSSE_PAYLOAD_TYPE payload) sig.
Proof.
  unfold verify_dsse_signature, mret, M_ret. intros Hv [Hb Hp].
  destruct (String.eqb_spec (env_payload_type env) DSSE_PAYLOAD_TYPE) as [Et|]; cbn [negb] in Hv;
    [|by injection Hv as <- _].
  destruct (decode_bounded (env_payload env)) as [[payload|]|]; [|by injection Hv as <- _..].
  destruct (is_nil (env_signatures env)); [by injection Hv as <- _|].
  apply any_trusted_signature_ok in Hv as [(-> & sig & Hin & Hs)|[-> | ->]]; [|done..].
  rewrite Et in Hs. split; [done|]. split; [done|]. by exists payload, sig.
Qed.

Lemma artifact_pinned_settled input :
  let k := verify_pinning (vi_pinning input) (sj_digest (vi_subject input)) in
  settled (match vi_expected_artifact_digest input with
           | Some expected =>
               if negb (String.eqb (hex_of expected) (hex_of (sj_digest (vi_subject input))))
               then Failed else Verified
           | None => Verified
           end) ->
  settled (pk_version_pinned k) -> settled (pk_digest_pinned k) ->
  settled (pk_lockfile_subject_matches_artifact k) -> settled (pk_no_floating_source_ref k) ->
  settled (pk_no_tag_only_container_ref k) -> ArtifactPinned input.
Proof.
  unfold verify_pinning, ArtifactPinned.
  cbn [pk_version_pinned pk_digest_pinned pk_lockfile_subject_matches_artifact pk_no_floating_source_ref
    pk_no_tag_only_container_ref].
  intros [Ha _] [Hv _] [Hd _] [Hl Hl'] [Hf _] [Hc _]. split_and!.
  - intros d Ed. rewrite Ed in Ha. by destruct (String.eqb_spec (hex_of d) (hex_of (sj_digest (vi_subject input)))).
  - destruct (pi_lockfile_digest (vi_pinning input)) as [d|]; [|done]. exists d. split; [done|].
    by destruct (String.eqb_spec (hex_of d) (hex_of (sj_digest (vi_subject input)))).
  - by destruct (pi_version_pinned _).
  - intros E. by rewrite E in Hd.
  - by destruct (pi_floating_source_ref _).
  - intros E. by rewrite E in Hc.
Qed.

Lemma binding_verified st digest :
  dsse_subject_binding (Some st) digest = Verified ->
  st_type st = STATEMENT_TYPE_V1 /\ exists sub d, sub ∈ st_subject st
    /\ its_digest sub !! "sha256" = Some d /\ hex_of d = digest.
Proof.
  unfold dsse_subject_binding, statement_binds.
  destruct (String.eqb_spec (st_type st) STATEMENT_TYPE_V1) as [->|]; [|done].
  destruct (existsb _ _) eqn:Ee; [|done]. intros _. split; [done|].
  apply existsb_true in Ee as (d & (sub & Hin & Hd)%list_elem_of_omap & <-%String.eqb_eq). by exists sub, d.
Qed.

Lemma builder_settled is_slsa required got :
  settled (check_builder is_slsa required got) ->
  is_slsa = true /\ check_builder is_slsa required got ∈ [Verified; NotApplicable]
  /\ forall b, required = Some b -> got = Some b.
Proof.
  unfold check_builder. destruct is_slsa; cbn [negb]; [|by intros [_ ?]]. intros [Hb _].
  destruct required as [r|], got as [g|]; try done; [|split_and!; set_solver..].
  destruct (String.eqb_spec r g) as [->|]; [|done]. split_and!; [done|set_solver|done].
Qed.

(** A pinned-key statement none of whose checks blocks or is pending. *)
Lemma dsse_settled input env s s' prov :
  verify_pinned_key_dsse (vi_subject input) (vi_policy input) (vi_trust_store input) env (s : S)
    = (Done prov, s') ->
  settled (pc_dsse_signature (pr_checks prov)) -> settled (pc_slsa_provenance (pr_checks prov)) ->
  settled (pc_builder_identity (pr_checks prov)) -> settled (pr_subject_digest_binding prov) ->
  StatementTrusted input env /\ pr_verified_level prov = 2%Z.
Proof.
  unfold verify_pinned_key_dsse, mbind, M_bind, mret, M_ret, StatementTrusted.
  destruct (verify_dsse_signature env (vi_trust_store input) s) as [[st|] s1] eqn:Ed; [|done].
  intros [= <- _]. cbn [pr_checks pc_dsse_signature pc_slsa_provenance pc_builder_identity
    pr_subject_digest_binding pr_verified_level]. intros Hd Hs Hb Hbind.
  destruct (dsse_signature_settled _ _ _ _ _ Ed Hd) as (-> & Et & payload & sig & Edec & Hin & Hsig).
  apply builder_settled in Hb as (Hslsa & Hbok & Hreq).
  destruct (decode_statement env) as [stm|] eqn:Est; [|done].
  assert (dsse_subject_binding (Some stm) (hex_of (sj_digest (vi_subject input))) = Verified) as Hbv.
  { destruct Hbind as [Hblk _]. revert Hblk. unfold dsse_subject_binding.
    destruct (String.eqb (st_type stm) _); [|done]. by destruct (statement_binds _ _). }
  rewrite Hbv, Hslsa in *. change (is_verified Verified) with true in *. cbn [negb orb andb] in *.
  assert ((match check_builder true (po_required_builder_id (vi_policy input))
             (pointer_str (st_predicate stm) "/runDetails/builder/id")
           with Verified | NotApplicable => true | _ => false end) = true) as Hid.
  { cbn [mbind option_bind] in Hbok. rewrite !elem_of_cons in Hbok. by destruct Hbok as [-> | [-> | Hnil%not_elem_of_nil]]. }
  cbn [mbind option_bind] in *. rewrite Hid in *.
  destruct (Z.leb_spec (po_required_slsa_build_level (vi_policy input)) 2) as [Hle|]; [|by destruct Hs].
  split; [|done]. unfold decode_statement in Est. rewrite Edec in Est.
  apply decode_bounded_ok in Edec as [? _]. apply binding_verified in Hbv as [? ?].
  apply String.eqb_eq in Hslsa. exists payload, stm, sig. by split_and!.
Qed.

Lemma parse_sigstore_bundle_error bundle_json status :
  parse_sigstore_bundle bundle_json = Err status -> ~ settled status.
Proof. unfold parse_sigstore_bundle. repeat case_match; intros; simplify_eq; by intros [? ?]. Qed.

Lemma check_dsse_pae_settled ev :
  settled (check_dsse_pae ev) -> exists sig, ev_dsse_signature ev = Some sig
    /\ LeafSigned (ev_leaf_der ev) (build_pae DSSE_PAYLOAD_TYPE (ev_statement_payload ev)) sig.
Proof.
  unfold check_dsse_pae. destruct (ev_payload_type ev) as [pt|]; [|by intros [? ?]].
  destruct (ev_dsse_signature ev) as [sig|]; [|by intros [? ?]].
  destruct (String.eqb_spec pt DSSE_PAYLOAD_TYPE) as [->|]; [|by intros [? ?]].
  destruct (negb _); [|by intros [? ?]]. cbn [andb].
  intros Hl%leaf_signature_definite%leaf_signature_verified. by exists sig.
Qed.

Lemma check_bundle_subject_settled ev want :
  settled (check_bundle_subject ev want) -> SubjectBound (ev_statement_payload ev) want.
Proof.
  unfold check_bundle_subject. destruct (negb _); [by intros [? ?]|].
  destruct (from_slice read_in_toto_statement (ev_statement_payload ev)); [|by intros [? ?]].
  destruct (String.eqb _ _); [|by intros [? ?]]. by intros Hs%subject_definite%subject_verified.
Qed.

(** A keyless bundle none of whose checks blocks or is pending. *)
Lemma bundle_settled input sb :
  let prov := verify_sigstore_bundle_provenance sb (vi_subject input) (vi_policy input) in
  settled (pc_sigstore_bundle (pr_checks prov)) -> settled (pc_cert_chain (pr_checks prov)) ->
  settled (pc_identity (pr_checks prov)) -> settled (pc_dsse_pae (pr_checks prov)) ->
  settled (pr_subject_digest_binding prov) ->
  (po_require_rekor_inclusion (vi_policy input) = true -> pc_rekor_inclusion (pr_checks prov) = Verified) ->
  (po_require_timestamp_freshness (vi_policy input) = true -> pc_timestamp_freshness (pr_checks prov) = Verified) ->
  (po_require_consistency (vi_policy input) = true -> pc_consistency (pr_checks prov) = Verified) ->
  (po_require_witnessing (vi_policy input) = true -> pc_witnessing (pr_checks prov) = Verified) ->
  ((0 < po_required_slsa_build_level (vi_policy input))%Z -> pc_slsa_provenance (pr_checks prov) = Verified) ->
  BundleTrusted input sb.
Proof.
  unfold verify_sigstore_bundle_provenance, BundleTrusted.
  destruct (parse_sigstore_bundle (sb_bundle_json sb)) as [ev|status] eqn:Ep; cbn [pr_checks
    pc_sigstore_bundle pc_cert_chain pc_identity pc_dsse_pae pr_subject_digest_binding pc_rekor_inclusion
    pc_timestamp_freshness pc_consistency pc_witnessing pc_slsa_provenance];
    intros Hsb Hc Hi Hd Hbind Hrek Ht Hcons Hw Hslsa.
  2: by destruct (parse_sigstore_bundle_error _ _ Ep Hsb).
  apply chain_definite, chain_verified in Hc. apply identity_definite, identity_verified in Hi as [_ Hi].
  destruct (check_dsse_pae_settled ev Hd) as (sig & Hsig & Hl).
  exists ev, sig. split_and!; try done.
  - by apply check_bundle_subject_settled in Hbind.
  - intros Hr. specialize (Hrek Hr). by apply verified_evidence in Hrek.
  - by destruct (po_require_timestamp_freshness _); [specialize (Ht eq_refl)|].
  - by destruct (po_require_consistency _); [specialize (Hcons eq_refl)|].
  - by destruct (po_require_witnessing _); [specialize (Hw eq_refl)|].
  - destruct (Z.le_gt_cases (po_required_slsa_build_level (vi_policy input)) 0); [done|]. by specialize (Hslsa ltac:(lia)).
Qed.

(** C27: a report that passes rests on verified evidence only.  The digest of
    the artifact is the expected one and the lock file's; the version is pinned
    and no reference floats.  The provenance is either an SLSA statement about
    the subject, from the required builder, signed by a trusted key, with the
    required level at most 2; or a keyless bundle whose leaf chains to a pinned
    root, carries the expected identity and signed a statement about the
    subject, with its inclusion in a pinned log verified when the policy
    requires it and with no policy on what the offline path leaves unchecked.
    Without provenance, or with one of an unsupported kind, nothing passes. *)
Theorem supply_chain_pass_sound input report (s s' : S) :
  verify_supply_chain input s = (Done report, s') -> sc_policy_result report = Pass ->
  ArtifactPinned input
  /\ match vi_provenance input with
     | Dsse env => StatementTrusted input env
     | SigstoreBundle sb => BundleTrusted input sb
     | ProvenanceNone | Unsupported _ => False
     end.
Proof.
  unfold verify_supply_chain, mbind, M_bind, mret, M_ret.
  destruct (verify_provenance input s) as [[prov|] s1] eqn:Ev; [|done].
  intros [= <- _]. cbn [sc_policy_result]. intros (_ & Hset & Hrek & Ht & Hc & Hw & Hslsa)%pass_settled.
  unfold non_transparency_statuses in Hset. cbn [ck_integrity ck_provenance ck_pinning ic_artifact_digest
    ic_subject_digest_binding] in *. rewrite !Forall_cons in Hset.
  destruct Hset as (Hart & Hbind & Hdsse & Hsl & Hb & Hsb & Hchain & Hid & Hpae & Hv & Hdp & Hlock & Hfl & Hcr & _).
  split.
  - by apply artifact_pinned_settled.
  - unfold verify_provenance, mret, M_ret in Ev. destruct (vi_provenance input) as [|env|sb|kind].
    + injection Ev as <- _. by destruct Hdsse.
    + by eapply dsse_settled.
    + injection Ev as <- _. by apply bundle_settled.
    + injection Ev as <- _. by destruct Hdsse.
Qed.

End Verdict.
