(* ===== verification/ToolSigning.v ===== *)
(** * Signed tool definitions

    [assay-core/src/mcp/signing.rs], [trust_policy.rs], [tool_definition.rs] and
    [jcs.rs], and the commands of
    [assay-cli/src/cli/commands/tool/] ([sign.rs], [verify.rs], [keygen.rs])
    that put them together: the signature that a tool carries under
    [x-assay-sig], its verification, the policy that says which keys are
    trusted, the binding of a definition to a digest, and the exit codes.  What
    the commands print is left out; files and the clock are computations. *)
From stdpp Require Import base tactics list strings gmap pretty.
From Stdlib Require Import Ascii ZArith Lia.
From S2P Require Import Prelude RustStr Json Platform Decision PackYaml PackTrust PackCache JsonDoc SerdeJson.

(** ** Third-party code

    Base64, DER and Ed25519 verification are those of [PackCrypto]. *)
Class ToolCrypto `{PackCrypto} : Type := {
  SigningKey : Type;
  verifying_key : SigningKey -> VerifyingKey;
  ed25519_sign : SigningKey -> string -> Signature;
  signature_to_bytes : Signature -> string;
  (** [to_public_key_der]. *)
  key_to_spki : VerifyingKey -> option string;
  key_from_pem : string -> option VerifyingKey;
  key_to_pem : VerifyingKey -> option string;
  signing_key_from_pem : string -> option SigningKey;
  signing_key_to_pem : SigningKey -> option string;
  base64_encode : string -> string;
  (** [DateTime<Utc>] in serde's form. *)
  datetime_to_json : Z -> string;
  datetime_from_json : string -> option Z;
  (** The message of serde for a value that is no signature. *)
  serde_error : Value -> string;
  (** [serde_json::to_string_pretty] of a value. *)
  json_pretty : Value -> string
}.

(** What is written reads back, and a key verifies what it signed. *)
Class ToolCryptoLaws `{ToolCrypto} : Prop := {
  base64_roundtrip s : base64_decode (base64_encode s) = Ok s;
  signature_roundtrip sg : signature_from_slice (signature_to_bytes sg) = Ok sg;
  sign_verifies sk m : ed25519_verify (verifying_key sk) m (ed25519_sign sk m) = true;
  datetime_roundtrip t : datetime_from_json (datetime_to_json t) = Some t;
  key_pem_roundtrip k pem : key_to_pem k = Some pem -> key_from_pem pem = Some k;
  signing_key_pem_roundtrip k pem : signing_key_to_pem k = Some pem -> signing_key_from_pem pem = Some k;
  key_spki_roundtrip k spki : key_to_spki k = Some spki -> key_from_spki spki = Ok k
}.

(** [rand] and the private half of [create] with a mode: [OpenOptions] that
    truncate, and [write_all] on what they opened. *)
Class KeyMaterial `{ToolCrypto} (S : Type) : Type := {
  generate_key : M S SigningKey;
  open_with_mode : string -> Z -> M S (Result () string);
  write_all : string -> string -> M S (Result () string)
}.

(** ** signing.rs: data *)

Definition PAYLOAD_TYPE_TOOL_V1 : string := "application/vnd.assay.tool+json;v=1".
Definition SIG_FIELD : string := "x-assay-sig".

(** The algorithm has one value. *)
Inductive ToolSignatureAlgorithm : Type := Ed25519.

Record ToolSignature : Type := mkToolSignature {
  ts_version : Z;
  ts_algorithm : ToolSignatureAlgorithm;
  ts_payload_type : string;
  ts_payload_digest : string;
  ts_key_id : string;
  ts_signature : string;
  ts_signed_at : Z;
  ts_public_key : option string
}.

Record ToolVerifyResult : Type := mkToolVerifyResult { tv_key_id : string; tv_signed_at : Z }.

Inductive ToolVerifyError : Type :=
| NoSignature
| PayloadTypeMismatch (expected got : string)
| ToolSignatureInvalid (reason : string)
| ToolKeyNotTrusted (key_id : string)
| MalformedSignature (reason : string)
| ToolDigestMismatch
| KeyIdMismatch (claimed actual : string).

Definition verify_exit_code (e : ToolVerifyError) : Z :=
  match e with
  | NoSignature => 2
  | ToolKeyNotTrusted _ => 3
  | ToolSignatureInvalid _ | PayloadTypeMismatch _ _ | ToolDigestMismatch | KeyIdMismatch _ _ => 4
  | MalformedSignature _ => 1
  end.

(** ** The serde forms of a signature *)

Section Serde.
Context `{ToolCrypto}.

Definition signature_to_value (sig : ToolSignature) : Value :=
  Obj ([("version", Num (PosInt (ts_version sig)));
        ("algorithm", Str "ed25519");
        ("payload_type", Str (ts_payload_type sig));
        ("payload_digest", Str (ts_payload_digest sig));
        ("key_id", Str (ts_key_id sig));
        ("signature", Str (ts_signature sig));
        ("signed_at", Str (datetime_to_json (ts_signed_at sig)))]
       ++ match ts_public_key sig with Some k => [("public_key", Str k)] | None => [] end).

Definition signature_fields : list string :=
  ["version"; "algorithm"; "payload_type"; "payload_digest"; "key_id"; "signature"; "signed_at"; "public_key"].

(** A struct is read from an object, or from an array of its fields in order,
    of which only the last has a default. *)
Definition signature_members (v : Value) : option (list (string * Value)) :=
  match v with
  | Obj m => Some m
  | Arr l =>
      if bool_decide (length l = 8%nat \/ length l = 7%nat) then Some (zip signature_fields l) else None
  | _ => None
  end.

Definition u8_of_value (v : Value) : option Z :=
  n ← as_u64 v; if (n <=? 255)%Z then Some n else None.

(** A unit variant is its name, or an object of the name and [null]. *)
Definition algorithm_of_value (v : Value) : option ToolSignatureAlgorithm :=
  match v with
  | Str s => if String.eqb s "ed25519" then Some Ed25519 else None
  | Obj [(s, Null)] => if String.eqb s "ed25519" then Some Ed25519 else None
  | _ => None
  end.

Definition opt_string_of_value (v : Value) : option (option string) :=
  match v with Null => Some None | Str s => Some (Some s) | _ => None end.

Definition signature_from_value (v : Value) : option ToolSignature :=
  m ← signature_members v;
  version ← map_get m "version" ≫= u8_of_value;
  algorithm ← map_get m "algorithm" ≫= algorithm_of_value;
  payload_type ← map_get m "payload_type" ≫= as_str;
  payload_digest ← map_get m "payload_digest" ≫= as_str;
  key_id ← map_get m "key_id" ≫= as_str;
  signature ← map_get m "signature" ≫= as_str;
  signed_at ← (map_get m "signed_at" ≫= as_str) ≫= datetime_from_json;
  public_key ← match map_get m "public_key" with Some k => opt_string_of_value k | None => Some None end;
  Some (mkToolSignature version algorithm payload_type payload_digest key_id signature signed_at public_key).

End Serde.

(** ** jcs.rs *)

(** The [Display] of the error is its outermost context. *)
Definition jcs_to_vec `{Platform} (v : Value) : Result string string :=
  match jcs_to_string v with
  | Some s => Ok s
  | None => Err "JCS canonicalization failed"
  end.

(** ** signing.rs: operations *)

Section Signing.
Context `{Platform} `{ToolCrypto}.

Definition key_to_spki_der (key : VerifyingKey) : Result string string :=
  match key_to_spki key with
  | Some doc => Ok doc
  | None => Err "failed to encode public key as SPKI DER"
  end.

Definition compute_key_id_from_verifying_key (key : VerifyingKey) : Result string string :=
  match key_to_spki_der key with
  | Ok spki_bytes => Ok (compute_key_id spki_bytes)
  | Err e => Err e
  end.

Definition embedded_public_key (key : VerifyingKey) (embed_pubkey : bool) : Result (option string) string :=
  if embed_pubkey then
    match key_to_spki_der key with
    | Ok spki => Ok (Some (base64_encode spki))
    | Err e => Err e
    end
  else Ok None.

Definition strip_signature (tool : Value) : Value :=
  match tool with
  | Obj m => Obj (match map_remove m SIG_FIELD with Some (_, m) => m | None => m end)
  | _ => tool
  end.

Definition compute_payload_digest (canonical : string) : string := sha256_hex_bytes canonical.

(** The signature of the canonical bytes at a given instant. *)
Definition tool_signature (canonical : string) (signing_key : SigningKey) (key_id : string)
    (signed_at : Z) (public_key : option string) : ToolSignature :=
  mkToolSignature 1 Ed25519 PAYLOAD_TYPE_TOOL_V1 (compute_payload_digest canonical) key_id
    (base64_encode (signature_to_bytes (ed25519_sign signing_key (build_pae PAYLOAD_TYPE_TOOL_V1 canonical))))
    signed_at public_key.

Definition verify_tool (tool : Value) (trusted_key : VerifyingKey)
    : Result ToolVerifyResult ToolVerifyError :=
  match vget tool SIG_FIELD with
  | None => Err NoSignature
  | Some sig_value =>
  match signature_from_value sig_value with
  | None => Err (MalformedSignature (serde_error sig_value))
  | Some sig =>
  if negb (ts_version sig =? 1)%Z then
    Err (MalformedSignature ("unsupported version: " +:+ fmt_int (ts_version sig)))
  else if negb (String.eqb (ts_payload_type sig) PAYLOAD_TYPE_TOOL_V1) then
    Err (PayloadTypeMismatch PAYLOAD_TYPE_TOOL_V1 (ts_payload_type sig))
  else
  match jcs_to_vec (strip_signature tool) with
  | Err e => Err (MalformedSignature e)
  | Ok canonical =>
  if negb (String.eqb (ts_payload_digest sig) (compute_payload_digest canonical)) then
    Err ToolDigestMismatch
  else
  match base64_decode (ts_signature sig) with
  | Err e => Err (MalformedSignature ("invalid base64 signature: " +:+ e))
  | Ok signature_bytes =>
  match signature_from_slice signature_bytes with
  | Err e => Err (MalformedSignature ("invalid signature bytes: " +:+ e))
  | Ok signature =>
  if negb (ed25519_verify trusted_key (build_pae (ts_payload_type sig) canonical) signature) then
    Err (ToolSignatureInvalid "ed25519 verification failed")
  else
  match compute_key_id_from_verifying_key trusted_key with
  | Err e => Err (MalformedSignature e)
  | Ok actual_key_id =>
      if negb (String.eqb (ts_key_id sig) actual_key_id) then
        Err (KeyIdMismatch (ts_key_id sig) actual_key_id)
      else Ok (mkToolVerifyResult (ts_key_id sig) (ts_signed_at sig))
  end end end end end end.

Definition extract_signature (tool : Value) : option ToolSignature :=
  vget tool SIG_FIELD ≫= signature_from_value.

Definition is_signed (tool : Value) : bool := opt_is_some (vget tool SIG_FIELD).

Context {S : Type} `{!Clock S}.

Definition sign_tool (tool : Value) (signing_key : SigningKey) (embed_pubkey : bool)
    : M S (Result Value string) :=
  let tool_without_sig := strip_signature tool in
  canonical ←? mret (jcs_to_vec tool_without_sig);
  key_id ←? mret (compute_key_id_from_verifying_key (verifying_key signing_key));
  signed_at ← read_clock;
  public_key ←? mret (embedded_public_key (verifying_key signing_key) embed_pubkey);
  let sig := tool_signature canonical signing_key key_id signed_at public_key in
  mret (match tool_without_sig with
        | Obj m => Ok (Obj (map_insert m SIG_FIELD (signature_to_value sig)))
        | _ => Err "tool must be a JSON object"
        end).

End Signing.

(** ** trust_policy.rs *)

Record PolicyKey : Type := mkPolicyKey {
  pk_key_id : string;
  pk_public_key_path : option string;
  pk_name : option string
}.

Record TrustPolicy : Type := mkTrustPolicy {
  tp_require_signed : bool;
  tp_trusted_key_ids : list string;
  tp_trusted_keys : list PolicyKey
}.

Definition permissive : TrustPolicy := mkTrustPolicy false [] [].
Definition require_signed_any : TrustPolicy := mkTrustPolicy true [] [].

Definition all_trusted_key_ids (policy : TrustPolicy) : gset string :=
  list_to_set (tp_trusted_key_ids policy) ∪ list_to_set (map pk_key_id (tp_trusted_keys policy)).

Definition is_key_trusted (policy : TrustPolicy) (key_id : string) : bool :=
  if is_nil (tp_trusted_key_ids policy) && is_nil (tp_trusted_keys policy) then true
  else bool_decide (key_id ∈ all_trusted_key_ids policy).

Class PolicyYaml : Type := { policy_from_yaml : string -> option TrustPolicy }.

(** [serde_yaml] of a policy. *)
Definition trust_policy_from_yaml `{PolicyYaml} (yaml : string) : Result TrustPolicy string :=
  match policy_from_yaml yaml with
  | Some p => Ok p
  | None => Err "failed to parse trust policy YAML"
  end.

Section Keys.
Context `{Platform} `{ToolCrypto} `{PolicyYaml}.
Context {S : Type} `{!Clock S} `{!Disk S} `{!KeyMaterial S}.

Definition from_key (key : VerifyingKey) : Result TrustPolicy string :=
  match compute_key_id_from_verifying_key key with
  | Ok key_id => Ok (mkTrustPolicy true [key_id] [])
  | Err e => Err e
  end.

Record LoadedKey : Type := mkLoadedKey {
  lk_key_id : string;
  lk_key : VerifyingKey;
  lk_name : option string
}.

Definition load_public_key_pem (path : string) : M S (Result VerifyingKey string) :=
  r ← read_to_string path;
  mret (match r with
        | Err _ => Err ("failed to read public key: " +:+ path)
        | Ok pem =>
            match key_from_pem pem with
            | Some key => Ok key
            | None => Err ("failed to parse public key PEM: " +:+ path)
            end
        end).

Definition load_private_key_pem (path : string) : M S (Result SigningKey string) :=
  r ← read_to_string path;
  mret (match r with
        | Err _ => Err ("failed to read private key: " +:+ path)
        | Ok pem =>
            match signing_key_from_pem pem with
            | Some key => Ok key
            | None => Err ("failed to parse private key PEM: " +:+ path)
            end
        end).

Fixpoint load_keys_loop (keys : list PolicyKey) : M S (Result (list LoadedKey) string) :=
  match keys with
  | [] => mret (Ok [])
  | trusted :: keys =>
      match pk_public_key_path trusted with
      | None => load_keys_loop keys
      | Some path =>
          key ←? load_public_key_pem path;
          actual_key_id ←? mret (compute_key_id_from_verifying_key key);
          if negb (String.eqb actual_key_id (pk_key_id trusted)) then
            mret (Err ("key_id mismatch for " +:+ path +:+ ": expected " +:+ pk_key_id trusted
                       +:+ ", got " +:+ actual_key_id))
          else
            loaded ←? load_keys_loop keys;
            mret (Ok (mkLoadedKey (pk_key_id trusted) key (pk_name trusted) :: loaded))
      end
  end.

Definition load_keys (policy : TrustPolicy) : M S (Result (list LoadedKey) string) :=
  load_keys_loop (tp_trusted_keys policy).

Definition trust_policy_from_file (path : string) : M S (Result TrustPolicy string) :=
  r ← read_to_string path;
  mret (match r with
        | Err _ => Err ("failed to read trust policy: " +:+ path)
        | Ok content => trust_policy_from_yaml content
        end).

(** ** tool/verify.rs *)

Record VerifyArgs : Type := mkVerifyArgs {
  va_tool : string;
  va_pubkey : option string;
  va_trust_policy : option string;
  va_allow_embedded_key : bool
}.

(** An [anyhow] error: a [VerifyError] can be recovered from it. *)
Inductive CliError : Type :=
| CliVerify (e : ToolVerifyError)
| CliOther (message : string).

Definition other {A} (m : M S (Result A string)) : M S (Result A CliError) :=
  r ← m; mret (result_map_err CliOther r).

Context `{JsonReader}.

Definition read_tool (path : string) : M S (Result Value string) :=
  r ← read_to_string path;
  mret (match r with
        | Err _ => Err ("failed to read tool file: " +:+ path)
        | Ok tool_json =>
            match value_from_slice tool_json with
            | Some tool => Ok tool
            | None => Err ("failed to parse tool JSON: " +:+ path)
            end
        end).

(** The key of the trust policy that the signature names. *)
Definition key_in_policy (policy : TrustPolicy) (tool : Value) : M S (Result VerifyingKey CliError) :=
  match extract_signature tool with
  | None => mret (Err (CliVerify NoSignature))
  | Some sig =>
      if negb (is_key_trusted policy (ts_key_id sig)) then
        mret (Err (CliVerify (ToolKeyNotTrusted (ts_key_id sig))))
      else
        loaded ←? other (load_keys policy);
        mret (match find (fun k => String.eqb (lk_key_id k) (ts_key_id sig)) loaded with
              | Some k => Ok (lk_key k)
              | None =>
                  Err (CliOther ("key_id " +:+ ts_key_id sig
                                 +:+ " is trusted but no public_key_path provided in policy"))
              end)
  end.

Definition policy_key (policy_path : string) (tool : Value) : M S (Result VerifyingKey CliError) :=
  policy ←? other (trust_policy_from_file policy_path);
  key_in_policy policy tool.

Definition embedded_key (tool : Value) : Result VerifyingKey CliError :=
  match extract_signature tool with
  | None => Err (CliVerify NoSignature)
  | Some sig =>
      match ts_public_key sig with
      | None => Err (CliOther "--allow-embedded-key specified but no public_key in signature")
      | Some pubkey_b64 =>
          match base64_decode pubkey_b64 with
          | Err _ => Err (CliOther "failed to decode embedded public key base64")
          | Ok pubkey_bytes =>
              match key_from_spki pubkey_bytes with
              | Ok key => Ok key
              | Err _ => Err (CliOther "failed to parse embedded public key")
              end
          end
      end
  end.

(** An unsigned tool passes unless a policy requires a signature. *)
Definition accept_unsigned (args : VerifyArgs) : M S (Result () CliError) :=
  match va_trust_policy args with
  | Some policy_path =>
      policy ←? other (trust_policy_from_file policy_path);
      mret (if tp_require_signed policy then Err (CliVerify NoSignature) else Ok ())
  | None => mret (Ok ())
  end.

Definition choose_key (args : VerifyArgs) (tool : Value) : M S (Result VerifyingKey CliError) :=
  match va_pubkey args with
  | Some pubkey_path => other (load_public_key_pem pubkey_path)
  | None =>
      match va_trust_policy args with
      | Some policy_path => policy_key policy_path tool
      | None =>
          if va_allow_embedded_key args then mret (embedded_key tool)
          else mret (Err (CliOther "must specify --pubkey, --trust-policy, or --allow-embedded-key"))
      end
  end.

Definition run_verify (args : VerifyArgs) : M S (Result () CliError) :=
  tool ←? other (read_tool (va_tool args));
  if negb (is_signed tool) then accept_unsigned args
  else
    key ←? choose_key args tool;
    mret (match verify_tool tool key with
          | Ok _ => Ok ()
          | Err e => Err (CliVerify e)
          end).

Definition cmd_verify (args : VerifyArgs) : M S Z :=
  r ← run_verify args;
  mret (match r with
        | Ok _ => 0%Z
        | Err (CliVerify e) => verify_exit_code e
        | Err (CliOther _) => 1%Z
        end).

(** ** tool/sign.rs *)

Record SignArgs : Type := mkSignArgs {
  sa_tool : string;
  sa_key : string;
  sa_out : option string;
  sa_in_place : bool;
  sa_embed_pubkey : bool
}.

Definition sign_output (args : SignArgs) : Result string string :=
  if sa_in_place args then Ok (sa_tool args)
  else match sa_out args with
       | Some out => Ok out
       | None => Err "must specify --out <PATH> or --in-place"
       end.

Definition LINE_FEED : string := String "010" EmptyString.

Definition write_tool (path : string) (signed : Value) : M S (Result () string) :=
  w ← write_file path (json_pretty signed +:+ LINE_FEED);
  mret (match w with Ok _ => Ok () | Err _ => Err ("failed to write output: " +:+ path) end).

(** [expect("just signed")] panics when the signature cannot be read back. *)
Definition run_sign (args : SignArgs) : M S (Result () string) :=
  output_path ←? mret (sign_output args);
  signing_key ←? load_private_key_pem (sa_key args);
  tool ←? read_tool (sa_tool args);
  signed ←? sign_tool tool signing_key (sa_embed_pubkey args);
  match extract_signature signed with
  | None => lift Panicked
  | Some _ => write_tool output_path signed
  end.

Definition cmd_sign (args : SignArgs) : M S Z :=
  r ← run_sign args; mret (if is_ok r then 0%Z else 1%Z).

(** ** tool/keygen.rs *)

Record KeygenArgs : Type := mkKeygenArgs { ka_out : string; ka_force : bool }.

Definition ensure_dir (out : string) : M S (Result () string) :=
  found ← path_exists out;
  if negb found then
    c ← create_dir_all out;
    mret (match c with Ok _ => Ok () | Err _ => Err ("failed to create directory: " +:+ out) end)
  else mret (Ok ()).

Definition refuse_existing (force : bool) (private_path public_path : string) : M S (Result () string) :=
  if force then mret (Ok ())
  else
    private ← path_exists private_path;
    if (private : bool) then
      mret (Err ("private key already exists: " +:+ private_path +:+ " (use --force to overwrite)"))
    else
      public ← path_exists public_path;
      mret (if (public : bool) then
              Err ("public key already exists: " +:+ public_path +:+ " (use --force to overwrite)")
            else Ok ()).

(** On Unix: mode [0o600]. *)
Definition PRIVATE_MODE : Z := 384.

Definition write_private_key (path pem : string) : M S (Result () string) :=
  o ← open_with_mode path PRIVATE_MODE;
  match o with
  | Err _ => mret (Err ("failed to create private key: " +:+ path))
  | Ok _ =>
      w ← write_all path pem;
      mret (match w with Ok _ => Ok () | Err _ => Err ("failed to write private key: " +:+ path) end)
  end.

Definition write_public_key (path pem : string) : M S (Result () string) :=
  w ← write_file path pem;
  mret (match w with Ok _ => Ok () | Err _ => Err ("failed to write public key: " +:+ path) end).

Definition encode_pem (what : string) (pem : option string) : Result string string :=
  match pem with Some pem => Ok pem | None => Err ("failed to encode " +:+ what +:+ " PEM") end.

Definition run_keygen (args : KeygenArgs) : M S (Result () string) :=
  _ ←? ensure_dir (ka_out args);
  let private_path := path_join (ka_out args) "private_key.pem" in
  let public_path := path_join (ka_out args) "public_key.pem" in
  _ ←? refuse_existing (ka_force args) private_path public_path;
  signing_key ← generate_key;
  let key := verifying_key signing_key in
  private_pem ←? mret (encode_pem "private key as PKCS#8" (signing_key_to_pem signing_key));
  public_pem ←? mret (encode_pem "public key as SPKI" (key_to_pem key));
  _ ←? write_private_key private_path private_pem;
  _ ←? write_public_key public_path public_pem;
  key_id ←? mret (compute_key_id_from_verifying_key key);
  mret (Ok ()).

Definition cmd_keygen (args : KeygenArgs) : M S Z :=
  r ← run_keygen args; mret (if is_ok r then 0%Z else 1%Z).

End Keys.

(** ** tool_definition.rs *)

Definition TOOL_DEFINITION_DIGEST_ALG_SHA256 : string := "sha256".
Definition TOOL_DEFINITION_CANONICALIZATION_JCS_MCP_TOOL_DEFINITION_V1 : string := "jcs:mcp_tool_definition.v1".
Definition TOOL_DEFINITION_SCHEMA_V1 : string := "assay.mcp.tool-definition.snapshot.v1".
Definition TOOL_DEFINITION_SOURCE_MCP_TOOLS_LIST : string := "mcp.tools/list".

Definition binding_from_digest (digest : string) : ToolDefinitionBinding :=
  mkToolDefinitionBinding digest TOOL_DEFINITION_DIGEST_ALG_SHA256
    TOOL_DEFINITION_CANONICALIZATION_JCS_MCP_TOOL_DEFINITION_V1 TOOL_DEFINITION_SCHEMA_V1
    TOOL_DEFINITION_SOURCE_MCP_TOOLS_LIST.

Definition normalized_input_schema (tool_object : list (string * Value)) : Result (option Value) string :=
  match option_or (map_get tool_object "inputSchema") (map_get tool_object "input_schema") with
  | Some value =>
      if is_object value then Ok (Some value)
      else Err "unsupported MCP tool definition: input schema must be a JSON object"
  | None => Ok None
  end.

Definition normalized_server_id (server_id : option string) : option string :=
  opt_filter (fun v => negb (str_is_empty v)) (str_trim <$> server_id).

(** The members that are present, in the order they are inserted. *)
Definition projection_members (name : string) (description : option string) (input_schema : option Value)
    (server_id : option string) : list (string * Value) :=
  let m := map_insert [] "name" (Str name) in
  let m := match description with Some d => map_insert m "description" (Str d) | None => m end in
  let m := match input_schema with Some s => map_insert m "input_schema" s | None => m end in
  match server_id with Some s => map_insert m "server_id" (Str s) | None => m end.

Definition canonical_tool_definition_projection (tool : Value) (server_id : option string)
    : Result (option Value) string :=
  match as_object tool with
  | None => Ok None
  | Some tool_object =>
      match map_get tool_object "name" ≫= as_str with
      | None => Ok None
      | Some name =>
          if str_is_empty (str_trim name) then Ok None
          else
            let description :=
              opt_filter (fun d => negb (str_is_empty d))
                (str_trim <$> (map_get tool_object "description" ≫= as_str)) in
            match normalized_input_schema tool_object with
            | Err e => Err e
            | Ok input_schema =>
                Ok (Some (Obj (projection_members name description input_schema
                                 (normalized_server_id server_id))))
            end
      end
  end.

Definition binding_from_tools_list_tool `{Platform} (tool : Value) (server_id : option string)
    : Result (option ToolDefinitionBinding) string :=
  match canonical_tool_definition_projection tool server_id with
  | Err e => Err e
  | Ok None => Ok None
  | Ok (Some projection) =>
      match jcs_to_vec projection with
      | Err e => Err e
      | Ok canonical => Ok (Some (binding_from_digest ("sha256:" +:+ sha256_hex canonical)))
      end
  end.
