(* ===== verification/ToolSigningCorrect.v ===== *)
(** * Signed tool definitions: what is proved

    A tool that [sign_tool] has signed verifies under its key and no byte of
    its canonical form can change; [assay tool verify] accepts a signed tool
    only for a valid signature of the key that was asked for; a policy trusts
    no key outside its lists, and without key files it accepts nothing. *)
From stdpp Require Import base tactics list strings gmap pretty.
From Stdlib Require Import Ascii ZArith Lia.
From S2P Require Import Prelude RustStr Json Platform Decision PackYaml PackTrust PackTrustCorrect PackCache PackResolverCorrect PackCacheCorrect JsonDoc SerdeJson ToolSigning.

(** ** Signatures and their JSON *)

Section Values.
Context `{Platform} `{ToolCrypto} `{!ToolCryptoLaws}.

Lemma signature_value_roundtrip sig :
  (0 <= ts_version sig <= 255)%Z -> signature_from_value (signature_to_value sig) = Some sig.
Proof.
  destruct sig as [v alg pt pd k sg t pk]. cbn [ts_version]. intros Hv.
  unfold signature_from_value, signature_to_value. destruct alg, pk as [pk|]; cbn -[Z.leb];
    (unfold u8_of_value; cbn -[Z.leb]; rewrite datetime_roundtrip; cbn -[Z.leb];
     destruct (Z.leb_spec v 255); [done|lia]).
Qed.

(** A tool without a signature, and what [strip_signature] makes of an object. *)
Lemma strip_object m :
  NoDup (map fst m) ->
  exists m', strip_signature (Obj m) = Obj m' /\ SIG_FIELD ∉ map fst m' /\ NoDup (map fst m').
Proof.
  intros Hm. unfold strip_signature. destruct (map_remove m SIG_FIELD) as [[v m']|] eqn:E.
  - exists m'. apply map_remove_wf in E as (Hn & Hg & _); [|done]. by apply map_get_None in Hg.
  - exists m. split; [done|]. split; [by apply map_get_None, map_remove_None|done].
Qed.

Lemma split_find_fresh (m : Map) k v :
  k ∉ map fst m -> split_find (fun e => String.eqb k (fst e)) (m ++ [(k, v)]) = Some (m, (k, v), []).
Proof.
  induction m as [|[k0 v0] m IH]; cbn; intros Hk; [by rewrite String.eqb_refl|].
  apply not_elem_of_cons in Hk as [Hne Hk]. rewrite (proj2 (String.eqb_neq _ _) Hne).
  by rewrite (IH Hk).
Qed.

Lemma strip_inserted m v : SIG_FIELD ∉ map fst m -> strip_signature (Obj (map_insert m SIG_FIELD v)) = Obj m.
Proof.
  intros Hm. rewrite map_insert_fresh by done. unfold strip_signature, map_remove.
  by rewrite split_find_fresh.
Qed.

(** What [verify_tool] checks, in one place. *)
Record ValidSignature (tool : Value) (key : VerifyingKey) (sig : ToolSignature) : Prop := {
  vs_carried : exists v, vget tool SIG_FIELD = Some v /\ signature_from_value v = Some sig;
  vs_version : ts_version sig = 1%Z;
  vs_payload_type : ts_payload_type sig = PAYLOAD_TYPE_TOOL_V1;
  vs_content : exists canonical bytes signature,
    jcs_to_string (strip_signature tool) = Some canonical /\
    ts_payload_digest sig = compute_payload_digest canonical /\
    base64_decode (ts_signature sig) = Ok bytes /\ signature_from_slice bytes = Ok signature /\
    ed25519_verify key (build_pae PAYLOAD_TYPE_TOOL_V1 canonical) signature = true;
  vs_key_id : compute_key_id_from_verifying_key key = Ok (ts_key_id sig)
}.

Lemma verify_tool_inv tool key r :
  verify_tool tool key = Ok r ->
  exists sig, ValidSignature tool key sig /\ r = mkToolVerifyResult (ts_key_id sig) (ts_signed_at sig).
Proof.
  unfold verify_tool, jcs_to_vec.
  destruct (vget tool SIG_FIELD) as [v|] eqn:Ev; [|done].
  destruct (signature_from_value v) as [sig|] eqn:Es; [|done].
  destruct (ts_version sig =? 1)%Z eqn:Ever; [|done]; apply Z.eqb_eq in Ever; cbn [negb].
  destruct (String.eqb_spec (ts_payload_type sig) PAYLOAD_TYPE_TOOL_V1) as [Ept|]; [cbn [negb]|done].
  destruct (jcs_to_string (strip_signature tool)) as [canonical|] eqn:Ej; [|done].
  destruct (String.eqb_spec (ts_payload_digest sig) (compute_payload_digest canonical)) as [Ed|];
    [cbn [negb]|done].
  destruct (base64_decode (ts_signature sig)) as [bytes|] eqn:Eb; [|done].
  destruct (signature_from_slice bytes) as [signature|] eqn:Eg; [|done].
  destruct (ed25519_verify key _ signature) eqn:Ee; [cbn [negb]|done].
  destruct (compute_key_id_from_verifying_key key) as [id|] eqn:Ek; [|done].
  destruct (String.eqb_spec (ts_key_id sig) id) as [Eid|]; [cbn [negb]|done]. intros [= <-].
  exists sig. split; [|done]. rewrite Ept in Ee. split; [by exists v|done|done| |by rewrite Ek, Eid].
  exists canonical, bytes, signature. split_and!; done.
Qed.

Lemma verify_tool_valid tool key sig :
  ValidSignature tool key sig ->
  verify_tool tool key = Ok (mkToolVerifyResult (ts_key_id sig) (ts_signed_at sig)).
Proof.
  intros [(v & Ev & Es) Ever Ept (canonical & bytes & signature & Ej & Ed & Eb & Eg & Ee) Ek].
  unfold verify_tool, jcs_to_vec.
  by rewrite Ev, Es, Ever, Ept, Z.eqb_refl, String.eqb_refl, Ej, Ed, String.eqb_refl; cbn [negb];
    rewrite Eb, Eg, Ee, Ek, String.eqb_refl.
Qed.

End Values.

(** ** Signing *)

Section Signing.
Context `{Platform} `{ToolCrypto} {S : Type} `{!Clock S}.

(** What a successful [sign_tool] returned. *)
Lemma sign_tool_inv tool sk embed s signed s' :
  sign_tool tool sk embed s = (Done (Ok signed), s') ->
  exists m canonical key_id t public_key,
    strip_signature tool = Obj m /\ jcs_to_string (Obj m) = Some canonical /\
    compute_key_id_from_verifying_key (verifying_key sk) = Ok key_id /\
    embedded_public_key (verifying_key sk) embed = Ok public_key /\
    read_clock s = (Done t, s') /\
    signed = Obj (map_insert m SIG_FIELD
      (signature_to_value (tool_signature canonical sk key_id t public_key))).
Proof.
  unfold sign_tool. cbv zeta. intros (canonical & s1 & Hj & Hs)%try_bind_inv.
  injection Hj as Hj <-. unfold jcs_to_vec in Hj.
  destruct (jcs_to_string _) as [c|] eqn:Ej; [injection Hj as ->|done].
  apply try_bind_inv in Hs as (key_id & s1 & Hk & Hs). injection Hk as Hk <-.
  apply bind_inv in Hs as (t & s1 & Ht & Hs).
  apply try_bind_inv in Hs as (public_key & s2 & Hp & Hs). injection Hp as Hp <-.
  destruct (strip_signature tool) as [| | | | |m] eqn:Es; try discriminate Hs.
  injection Hs as <- <-. exists m, canonical, key_id, t, public_key. split_and!; done.
Qed.

Lemma stripped_object tool m : strip_signature tool = Obj m -> exists m0, tool = Obj m0.
Proof. destruct tool; try done. by eexists. Qed.

(** The keys of an object are distinct. *)
Definition distinct_keys (v : Value) : Prop := forall m, v = Obj m -> NoDup (map fst m).

Lemma stripped_fresh tool m :
  distinct_keys tool -> strip_signature tool = Obj m -> SIG_FIELD ∉ map fst m /\ NoDup (map fst m).
Proof.
  intros Hd Hs. destruct (stripped_object _ _ Hs) as [m0 ->].
  destruct (strip_object m0 (Hd _ eq_refl)) as (m' & E & Hm). rewrite E in Hs. by injection Hs as <-.
Qed.

Lemma sign_tool_object tool sk embed s signed s' :
  distinct_keys tool -> sign_tool tool sk embed s = (Done (Ok signed), s') ->
  strip_signature signed = strip_signature tool /\ is_signed signed = true /\ distinct_keys signed.
Proof.
  intros Hd Hs. apply sign_tool_inv in Hs as (m & c & k & t & p & Em & _ & _ & _ & _ & ->).
  destruct (stripped_fresh _ _ Hd Em) as [Hf Hn]. rewrite strip_inserted, Em by done.
  split_and!; [done| |].
  - unfold is_signed. cbn [vget]. by rewrite map_get_insert_eq.
  - intros m' [= <-]. by apply map_insert_NoDup.
Qed.

Context `{!ToolCryptoLaws}.

Lemma signed_tool_valid tool sk embed s signed s' :
  distinct_keys tool -> sign_tool tool sk embed s = (Done (Ok signed), s') ->
  exists sig t, ValidSignature signed (verifying_key sk) sig /\ extract_signature signed = Some sig /\
    read_clock s = (Done t, s') /\ ts_signed_at sig = t /\
    embedded_public_key (verifying_key sk) embed = Ok (ts_public_key sig).
Proof.
  intros Hd Hs. destruct (sign_tool_object _ _ _ _ _ _ Hd Hs) as (Hst & _ & _).
  apply sign_tool_inv in Hs as (m & c & k & t & p & Em & Ej & Ek & Ep & Et & ->).
  set (sig := tool_signature c sk k t p) in *. exists sig, t.
  assert (Hv : signature_from_value (signature_to_value sig) = Some sig)
    by (apply signature_value_roundtrip; cbn; lia).
  split_and!; [|unfold extract_signature; cbn [vget]; by rewrite map_get_insert_eq|done|done|done].
  split; [|done|done| |done].
  - eexists. cbn [vget]. rewrite map_get_insert_eq. by split.
  - exists c. eexists _, _. rewrite Hst, Em. split_and!; [done|done|apply base64_roundtrip|apply signature_roundtrip|].
    apply sign_verifies.
Qed.

(** A signed tool verifies under the key that signed it, whatever
    signature it carried before: the result names the key and the instant of
    signing, the tool is unchanged except for its signature, and a key whose id
    is another one does not verify it. *)
Theorem sign_then_verify tool sk embed s signed s' :
  distinct_keys tool -> sign_tool tool sk embed s = (Done (Ok signed), s') ->
  strip_signature signed = strip_signature tool /\
  (exists key_id t, verify_tool signed (verifying_key sk) = Ok (mkToolVerifyResult key_id t) /\
    compute_key_id_from_verifying_key (verifying_key sk) = Ok key_id /\ read_clock s = (Done t, s')) /\
  (forall other r, verify_tool signed other = Ok r ->
    compute_key_id_from_verifying_key other = compute_key_id_from_verifying_key (verifying_key sk)).
Proof.
  intros Hd Hs. destruct (sign_tool_object _ _ _ _ _ _ Hd Hs) as (Hst & _ & _).
  destruct (signed_tool_valid _ _ _ _ _ _ Hd Hs) as (sig & t & Hv & Hx & Et & Es & _).
  split_and!; [done| |].
  - eexists _, _. split; [by apply verify_tool_valid|]. rewrite Es. split; [by destruct Hv|done].
  - intros other r Ho. apply verify_tool_inv in Ho as (sig' & Hv' & _).
    assert (sig' = sig) as ->.
    { destruct (vs_carried _ _ _ Hv') as (v & Ev & E'). unfold extract_signature in Hx.
      rewrite Ev in Hx. cbn in Hx. congruence. }
    by rewrite (vs_key_id _ _ _ Hv), (vs_key_id _ _ _ Hv').
Qed.

(** A signature pins the content: two tools that carry the same signature
    and verify under any keys have the same canonical text, or their two texts
    collide under SHA-256; and tools with the same signature and canonical text
    get the same verdict, so the order of members does not matter. *)
Theorem signature_pins_content tool tool' :
  vget tool SIG_FIELD = vget tool' SIG_FIELD ->
  (forall key key' r r', verify_tool tool key = Ok r -> verify_tool tool' key' = Ok r' ->
    exists c c', jcs_to_string (strip_signature tool) = Some c /\
      jcs_to_string (strip_signature tool') = Some c' /\
      (c = c' \/ c <> c' /\ compute_payload_digest c = compute_payload_digest c')) /\
  (forall key, jcs_to_string (strip_signature tool) = jcs_to_string (strip_signature tool') ->
    verify_tool tool key = verify_tool tool' key).
Proof.
  intros Hg. split.
  - intros key key' r r' (sig & Hv & _)%verify_tool_inv (sig' & Hv' & _)%verify_tool_inv.
    assert (sig' = sig) as ->.
    { destruct (vs_carried _ _ _ Hv) as (v & Ev & Es), (vs_carried _ _ _ Hv') as (v' & Ev' & Es').
      congruence. }
    destruct (vs_content _ _ _ Hv) as (c & _ & _ & Ej & Ed & _).
    destruct (vs_content _ _ _ Hv') as (c' & _ & _ & Ej' & Ed' & _).
    exists c, c'. split_and!; [done..|]. destruct (decide (c = c')) as [|Hne]; [by left|right].
    split; [done|congruence].
  - intros key Hj. unfold verify_tool, jcs_to_vec. by rewrite Hg, Hj.
Qed.

End Signing.

(** ** Tools that were read *)

Lemma read_value_distinct d doc v : read_value d doc = Some v -> distinct_keys v.
Proof.
  intros Hr m ->. destruct doc as [| |[]|[]| |m0 closed|]; cbn in Hr; try discriminate Hr.
  - destruct (enter d); [destruct closed|]; try discriminate Hr.
    by destruct (mapM _ l) in Hr.
  - destruct (enter d) as [d'|]; [destruct closed|]; try discriminate Hr.
    destruct (mapM _ m0) as [es|] in Hr; [|discriminate Hr]. injection Hr as <-.
    assert (Hn : NoDup (map fst ([] : Map))) by constructor. revert Hn.
    generalize ([] : Map). induction es as [|e es IH]; intros m Hm; [done|].
    cbn. by apply IH, map_insert_NoDup.
Qed.

Lemma value_from_slice_distinct `{JsonReader} text v : value_from_slice text = Some v -> distinct_keys v.
Proof.
  unfold value_from_slice, from_slice. destruct (json_document text) as [doc []]; [|done].
  apply read_value_distinct.
Qed.

(** ** Files *)

Section Commands.
Context `{Platform} `{ToolCrypto} `{PolicyYaml} `{JsonReader}.
Context {S : Type} `{!Clock S} `{!Disk S} `{!KeyMaterial S} `{!DiskLaws}.

Definition Same (s s' : S) : Prop := forall q, disk_file s' q = disk_file s q.

Lemma read_file_inv {B} path (k : Result string string -> Result B string) s b s' :
  (forall e, is_ok (k (Err e)) = false) ->
  (r ← read_to_string path; mret (k r)) s = (Done (Ok b), s') ->
  exists text, disk_file s path = Some text /\ k (Ok text) = Ok b /\ Same s s'.
Proof.
  intros Hk (r & s1 & Hr & Hm)%bind_inv. injection Hm as Hm ->.
  destruct (disk_read path s) as (r' & s2 & Hr' & Hf & Hs & _). rewrite Hr' in Hr. injection Hr as -> ->.
  destruct (disk_file s path) as [text|]; [subst; by exists text|].
  destruct Hf as [e ->]. specialize (Hk e). by rewrite Hm in Hk.
Qed.

Lemma read_file_ok path s text :
  disk_file s path = Some text ->
  exists s', Same s s' /\ forall B (k : Result string string -> M S B), (read_to_string path ≫= k) s = k (Ok text) s'.
Proof.
  intros Hf. destruct (disk_read path s) as (r & s1 & Hr & Hm & Hs & _). rewrite Hf in Hm. subst r.
  exists s1. split; [done|]. intros B k. unfold mbind, M_bind. by rewrite Hr.
Qed.

Lemma other_inv {A} (m : M S (Result A string)) s a s' :
  other m s = (Done (Ok a), s') -> m s = (Done (Ok a), s').
Proof.
  unfold other. intros (r & s1 & Hm & Hr)%bind_inv. injection Hr as Hr <-.
  destruct r as [a'|e]; [|done]. cbn in Hr. by injection Hr as ->.
Qed.

Lemma other_ok {A} (m : M S (Result A string)) s a s' :
  m s = (Done (Ok a), s') -> other m s = (Done (Ok a), s').
Proof. intros Hm. unfold other, mbind, M_bind. by rewrite Hm. Qed.

(** The key that a file holds. *)
Definition KeyFile (s : S) (path : string) (key : VerifyingKey) : Prop :=
  exists pem, disk_file s path = Some pem /\ key_from_pem pem = Some key.

Lemma load_public_key_inv path s key s' :
  load_public_key_pem path s = (Done (Ok key), s') -> KeyFile s path key /\ Same s s'.
Proof.
  unfold load_public_key_pem. intros (pem & Hf & Hk & Hs)%read_file_inv; [|done].
  destruct (key_from_pem pem) eqn:E; [|done]. injection Hk as ->. split; [by exists pem|done].
Qed.

Lemma load_public_key_ok path s key :
  KeyFile s path key -> exists s', load_public_key_pem path s = (Done (Ok key), s') /\ Same s s'.
Proof.
  intros (pem & Hf & Hk). destruct (read_file_ok _ _ _ Hf) as (s' & Hs & E).
  exists s'. unfold load_public_key_pem. by rewrite E, Hk.
Qed.

Lemma keyfile_same s s' path key : Same s s' -> KeyFile s' path key -> KeyFile s path key.
Proof. intros Hs (pem & Hf & Hk). exists pem. by rewrite <- Hs. Qed.

Lemma same_trans s1 s2 s3 : Same s1 s2 -> Same s2 s3 -> Same s1 s3.
Proof. intros F1 F2 q. by rewrite F2, F1. Qed.

Lemma read_tool_inv path s tool s' :
  read_tool path s = (Done (Ok tool), s') ->
  exists text, disk_file s path = Some text /\ value_from_slice text = Some tool /\ Same s s'.
Proof.
  unfold read_tool. intros (text & Hf & Hk & Hs)%read_file_inv; [|done].
  exists text. destruct (value_from_slice text) eqn:E; [|done]. by injection Hk as ->.
Qed.

Lemma read_tool_ok path s text tool :
  disk_file s path = Some text -> value_from_slice text = Some tool ->
  exists s', read_tool path s = (Done (Ok tool), s') /\ Same s s'.
Proof.
  intros Hf Hv. destruct (read_file_ok _ _ _ Hf) as (s' & Hs & E).
  exists s'. unfold read_tool. by rewrite E, Hv.
Qed.

Lemma policy_file_inv path s policy s' :
  trust_policy_from_file path s = (Done (Ok policy), s') ->
  exists text, disk_file s path = Some text /\ policy_from_yaml text = Some policy /\ Same s s'.
Proof.
  unfold trust_policy_from_file. intros (text & Hf & Hk & Hs)%read_file_inv; [|done].
  exists text. unfold trust_policy_from_yaml in Hk. destruct (policy_from_yaml text) eqn:E; [|done].
  by injection Hk as ->.
Qed.

(** ** Which key is used *)

(** The entry of a policy that vouches for a key id, with the file of the key. *)
Definition PolicyKeyFor (s : S) (policy : TrustPolicy) (key_id : string) (key : VerifyingKey) : Prop :=
  is_key_trusted policy key_id = true /\
  exists entry path, entry ∈ tp_trusted_keys policy /\ pk_key_id entry = key_id /\
    pk_public_key_path entry = Some path /\ KeyFile s path key /\
    compute_key_id_from_verifying_key key = Ok key_id.

Lemma load_keys_inv keys s loaded s' :
  load_keys_loop keys s = (Done (Ok loaded), s') ->
  Same s s' /\
  forall k, k ∈ loaded -> exists entry path, entry ∈ keys /\ pk_key_id entry = lk_key_id k /\
    pk_public_key_path entry = Some path /\ KeyFile s path (lk_key k) /\
    compute_key_id_from_verifying_key (lk_key k) = Ok (lk_key_id k).
Proof.
  revert s loaded. induction keys as [|entry keys IH]; intros s loaded; cbn [load_keys_loop].
  - intros [= <- <-]. split; [done|]. intros k []%elem_of_nil.
  - destruct (pk_public_key_path entry) as [path|] eqn:Ep.
    + intros (key & s1 & (Hk & Hs1)%load_public_key_inv & Hl)%try_bind_inv.
      apply try_bind_inv in Hl as (id & s2 & Hid & Hl). injection Hid as Hid <-.
      destruct (String.eqb_spec id (pk_key_id entry)) as [->|]; cbn [negb] in Hl; [|done].
      apply try_bind_inv in Hl as (rest & s2 & Hr & Hl). injection Hl as <- ->.
      apply IH in Hr as [Hs2 Hr]. split; [by eapply same_trans|].
      intros k [->|Hk']%elem_of_cons.
      * exists entry, path. split_and!; [by left|done..].
      * destruct (Hr k Hk') as (e & p & He & Hrest & Hp & Hf & Hc). exists e, p.
        split_and!; [by right|done|done|by eapply keyfile_same|done].
    + intros [Hs Hl]%IH. split; [done|]. intros k Hk. destruct (Hl k Hk) as (e & p & He & Hrest).
      exists e, p. split; [by right|done].
Qed.

Lemma policy_key_inv path tool s key s' :
  policy_key path tool s = (Done (Ok key), s') ->
  exists text policy sig, disk_file s path = Some text /\ policy_from_yaml text = Some policy /\
    extract_signature tool = Some sig /\ PolicyKeyFor s policy (ts_key_id sig) key.
Proof.
  unfold policy_key, key_in_policy. intros (policy & s1 & Hp%other_inv & Hk)%try_bind_inv.
  apply policy_file_inv in Hp as (text & Hf & Hy & Hs).
  destruct (extract_signature tool) as [sig|] eqn:Ex; [|done].
  destruct (is_key_trusted policy (ts_key_id sig)) eqn:Et; cbn [negb] in Hk; [|done].
  apply try_bind_inv in Hk as (loaded & s2 & Hl%other_inv & Hk). injection Hk as Hk <-.
  apply load_keys_inv in Hl as [_ Hl].
  destruct (find _ loaded) as [k|] eqn:Ef; [|done]. injection Hk as <-.
  apply find_some in Ef as [Hin Hid]. apply String.eqb_eq in Hid.
  apply list_elem_of_In in Hin. destruct (Hl k Hin) as (e & p & He & Hrest & Hpath & Hkf & Hc).
  exists text, policy, sig. split_and!; [done..|]. split; [done|]. exists e, p. rewrite <- Hid.
  split_and!; [done|done|done|by eapply keyfile_same|done].
Qed.

(** Where the key of a verification may come from. *)
Inductive ChosenKey (s : S) (args : VerifyArgs) (sig : ToolSignature) (key : VerifyingKey) : Prop :=
| by_file path : va_pubkey args = Some path -> KeyFile s path key -> ChosenKey s args sig key
| by_policy path text policy :
    va_pubkey args = None -> va_trust_policy args = Some path -> disk_file s path = Some text ->
    policy_from_yaml text = Some policy -> PolicyKeyFor s policy (ts_key_id sig) key ->
    ChosenKey s args sig key
| by_signature encoded spki :
    va_pubkey args = None -> va_trust_policy args = None -> va_allow_embedded_key args = true ->
    ts_public_key sig = Some encoded -> base64_decode encoded = Ok spki -> key_from_spki spki = Ok key ->
    ChosenKey s args sig key.

Lemma keyed_same s s' policy id key : Same s s' -> PolicyKeyFor s' policy id key -> PolicyKeyFor s policy id key.
Proof.
  intros Hs (Ht & e & p & He & Hid & Hp & Hk & Hc). split; [done|]. exists e, p.
  split_and!; [done..|by eapply keyfile_same|done].
Qed.

Lemma choose_key_inv args tool s key s' sig :
  choose_key args tool s = (Done (Ok key), s') -> extract_signature tool = Some sig ->
  ChosenKey s args sig key.
Proof.
  unfold choose_key. intros Hc Hx. destruct (va_pubkey args) as [path|] eqn:Epk.
  - apply other_inv, load_public_key_inv in Hc as [Hk _]. by eapply by_file.
  - destruct (va_trust_policy args) as [path|] eqn:Epo.
    + apply policy_key_inv in Hc as (text & policy & sig' & Hf & Hy & Hx' & Hk).
      rewrite Hx in Hx'. injection Hx' as <-. by eapply by_policy.
    + destruct (va_allow_embedded_key args) eqn:Eal; [|done]. injection Hc as Hc _.
      unfold embedded_key in Hc. rewrite Hx in Hc.
      destruct (ts_public_key sig) as [encoded|] eqn:Ep; [|done].
      destruct (base64_decode encoded) as [spki|] eqn:Eb; [|done].
      destruct (key_from_spki spki) as [k|] eqn:Ek; [|done]. injection Hc as ->.
      by eapply by_signature.
Qed.

(** An unsigned tool is accepted unless the policy that is given requires signatures. *)
Definition UnsignedAllowed (s : S) (args : VerifyArgs) : Prop :=
  va_trust_policy args = None \/
  exists path text policy, va_trust_policy args = Some path /\ disk_file s path = Some text /\
    policy_from_yaml text = Some policy /\ tp_require_signed policy = false.

Lemma verify_exit_code_pos e : (0 < verify_exit_code e)%Z.
Proof. by destruct e. Qed.

Lemma cmd_verify_zero args s s' :
  cmd_verify args s = (Done 0%Z, s') <-> run_verify args s = (Done (Ok ()), s').
Proof.
  unfold cmd_verify, mbind, M_bind, mret, M_ret. destruct (run_verify args s) as [[[[]|[e|msg]]|] s1]; cbn.
  - split; congruence.
  - split; [|done]. intros [= E _]. pose proof (verify_exit_code_pos e). lia.
  - split; congruence.
  - split; congruence.
Qed.

Lemma same_unsigned s s' args : Same s s' -> UnsignedAllowed s' args -> UnsignedAllowed s args.
Proof.
  intros Hs [Hn|(p & t & y & Hp & Hf & Hrest)]; [by left|right]. exists p, t, y. by rewrite <- Hs.
Qed.

Lemma same_chosen s s' args sig key : Same s s' -> ChosenKey s' args sig key -> ChosenKey s args sig key.
Proof.
  intros Hs [path Hp Hk|path text policy Hn Hp Hf Hy Hk|]; [| |by eapply by_signature].
  - eapply by_file; [done|by eapply keyfile_same].
  - eapply by_policy; [done..| |done|by eapply keyed_same]. by rewrite <- Hs.
Qed.

(** C28: [assay tool verify] exits with 0 only for a tool that was read from its
    file and is either unsigned, where no policy that requires signatures was
    given, or carries a version 1 tool signature whose digest is that of the
    canonical tool, whose Ed25519 signature over its encoding holds under a
    key and whose key id is the hash of that key, the key being the one of the
    file that was named, or of a key file of the policy, listed there under
    that id and trusted, or, only where it was asked for, the embedded one. *)
Theorem tool_verify_sound args s s' :
  cmd_verify args s = (Done 0%Z, s') ->
  exists text tool, disk_file s (va_tool args) = Some text /\ value_from_slice text = Some tool /\
    ((is_signed tool = false /\ UnsignedAllowed s args) \/
     exists sig key, ValidSignature tool key sig /\ ChosenKey s args sig key).
Proof.
  rewrite cmd_verify_zero. unfold run_verify.
  intros (tool & s1 & (text & Hf & Hv & Hs)%other_inv%read_tool_inv & Hr)%try_bind_inv.
  exists text, tool. split_and!; [done..|]. destruct (is_signed tool) eqn:Esig; cbn [negb] in Hr.
  - right. apply try_bind_inv in Hr as (key & s2 & Hc & Hr). injection Hr as Hr _.
    destruct (verify_tool tool key) as [r|] eqn:Evt; [|done].
    apply verify_tool_inv in Evt as (sig & Hval & _). exists sig, key. split; [done|].
    eapply same_chosen, choose_key_inv; [done|done|].
    destruct (vs_carried _ _ _ Hval) as (v & Eg & Es). unfold extract_signature. by rewrite Eg.
  - left. split; [done|]. eapply same_unsigned; [done|]. unfold accept_unsigned in Hr.
    destruct (va_trust_policy args) as [path|] eqn:Ep; [|by left].
    apply try_bind_inv in Hr as (policy & s2 & Hp%other_inv & Hr).
    apply policy_file_inv in Hp as (ptext & Hpf & Hy & _). injection Hr as Hr _. right.
    exists path, ptext, policy. destruct (tp_require_signed policy) eqn:Eq; [done|]. by split_and!.
Qed.

(** ** Exit codes *)

(** The steps of a verification whose tool was read and is signed. *)
Lemma cmd_verify_signed args s text tool :
  disk_file s (va_tool args) = Some text -> value_from_slice text = Some tool -> is_signed tool = true ->
  exists s1, Same s s1 /\
    cmd_verify args s =
      (r ← (key ←? choose_key args tool;
            mret (match verify_tool tool key with Ok _ => Ok () | Err e => Err (CliVerify e) end));
       mret (match r with
             | Ok _ => 0%Z
             | Err (CliVerify e) => verify_exit_code e
             | Err (CliOther _) => 1%Z
             end)) s1.
Proof.
  intros Hf Hv Hs. destruct (read_tool_ok _ _ _ _ Hf Hv) as (s1 & E & Hsame). exists s1. split; [done|].
  unfold cmd_verify, run_verify. unfold mbind at 1 2, M_bind at 1 2. unfold try_bind at 1.
  rewrite (other_ok _ _ _ _ E), Hs. done.
Qed.

(** With the key in a file the exit code is that of the verification. *)
Lemma verify_with_file args s text tool path key :
  va_pubkey args = Some path -> KeyFile s path key ->
  disk_file s (va_tool args) = Some text -> value_from_slice text = Some tool -> is_signed tool = true ->
  exists s', cmd_verify args s =
    (Done match verify_tool tool key with Ok _ => 0%Z | Err e => verify_exit_code e end, s') /\ Same s s'.
Proof.
  intros Hp Hk Hf Hv Hs. destruct (cmd_verify_signed args s text tool Hf Hv Hs) as (s1 & Hs1 & E).
  destruct Hk as (pem & Hpem & Hk). rewrite <- Hs1 in Hpem.
  destruct (load_public_key_ok path s1 key) as (s2 & El & Hs2); [by exists pem|].
  exists s2. split; [|by eapply same_trans]. rewrite E. unfold choose_key. rewrite Hp.
  unfold mbind, M_bind, try_bind. rewrite (other_ok _ _ _ _ El).
  by destruct (verify_tool tool key).
Qed.

Lemma policy_read s path text policy :
  disk_file s path = Some text -> policy_from_yaml text = Some policy ->
  exists s', Same s s' /\ trust_policy_from_file path s = (Done (Ok policy), s').
Proof.
  intros Hf Hy. destruct (read_file_ok _ _ _ Hf) as (s' & Hs & E). exists s'. split; [done|].
  unfold trust_policy_from_file. rewrite E. unfold trust_policy_from_yaml. by rewrite Hy.
Qed.

(** With a policy an unreadable signature and an untrusted key end the command
    before anything is verified. *)
Lemma verify_with_policy args s text tool path ptext policy :
  va_pubkey args = None -> va_trust_policy args = Some path -> disk_file s path = Some ptext ->
  policy_from_yaml ptext = Some policy ->
  disk_file s (va_tool args) = Some text -> value_from_slice text = Some tool -> is_signed tool = true ->
  exists s',
  match extract_signature tool with
  | None => cmd_verify args s = (Done 2%Z, s')
  | Some sig =>
      (is_key_trusted policy (ts_key_id sig) = false -> cmd_verify args s = (Done 3%Z, s')) /\
      (tp_trusted_keys policy = [] -> is_key_trusted policy (ts_key_id sig) = true ->
       cmd_verify args s = (Done 1%Z, s'))
  end.
Proof.
  intros Hn Hp Hpf Hy Hf Hv Hs. destruct (cmd_verify_signed args s text tool Hf Hv Hs) as (s1 & Hs1 & E).
  rewrite <- Hs1 in Hpf. destruct (policy_read s1 path ptext policy Hpf Hy) as (s2 & _ & E2).
  assert (Ek : policy_key path tool s1 = key_in_policy policy tool s2)
    by (unfold policy_key, try_bind; by rewrite (other_ok _ _ _ _ E2)).
  exists s2. rewrite E. clear E. unfold choose_key. rewrite Hn, Hp.
  unfold mbind, M_bind, try_bind. rewrite Ek. clear Ek. unfold key_in_policy.
  destruct (extract_signature tool) as [sig|]; [split|done].
  - by intros ->.
  - intros Hnil ->. cbn [negb]. unfold load_keys. by rewrite Hnil.
Qed.

(** The exit code of [assay tool verify] for a signed tool.  With the key
    in a file it is that of the verification: 0, or 4 for a signature that does
    not hold, 1 for one that is malformed.  With a policy a signature that
    cannot be read gives 2 and an untrusted key 3, before the signature itself
    is looked at, and a policy without key files, which may name trusted ids,
    gives 1 for every tool. *)
Theorem tool_verify_exit_codes args s text tool :
  disk_file s (va_tool args) = Some text -> value_from_slice text = Some tool -> is_signed tool = true ->
  (forall path key, va_pubkey args = Some path -> KeyFile s path key ->
   exists s', cmd_verify args s =
     (Done match verify_tool tool key with Ok _ => 0%Z | Err e => verify_exit_code e end, s')) /\
  (forall path ptext policy,
   va_pubkey args = None -> va_trust_policy args = Some path -> disk_file s path = Some ptext ->
   policy_from_yaml ptext = Some policy ->
   exists s',
   match extract_signature tool with
   | None => cmd_verify args s = (Done 2%Z, s')
   | Some sig =>
       (is_key_trusted policy (ts_key_id sig) = false -> cmd_verify args s = (Done 3%Z, s')) /\
       (tp_trusted_keys policy = [] -> is_key_trusted policy (ts_key_id sig) = true ->
        cmd_verify args s = (Done 1%Z, s'))
   end).
Proof.
  intros Hf Hv Hs. split.
  - intros path key Hp Hk. destruct (verify_with_file args s text tool path key) as (s' & E & _); [done..|].
    by exists s'.
  - intros path ptext policy Hn Hp Hpf Hy. by eapply verify_with_policy.
Qed.

(** ** Signing and making keys *)

Context `{!ToolCryptoLaws}.

(** What the private half does to files: it writes only its own path, and
    opening or writing a file leaves the mode of a file that existed alone. *)
Class KeyMaterialLaws : Type := {
  km_mode : S -> string -> option Z;
  km_generate s r s' : generate_key s = (r, s') -> Same s s' /\ km_mode s' = km_mode s;
  km_open p mode s s' : open_with_mode p mode s = (Done (Ok ()), s') ->
    (forall q, q <> p -> disk_file s' q = disk_file s q) /\
    (forall q m, km_mode s q = Some m -> km_mode s' q = Some m);
  km_write p c s s' : write_all p c s = (Done (Ok ()), s') ->
    disk_file s' p = Some c /\ (forall q, q <> p -> disk_file s' q = disk_file s q) /\
    (forall q m, km_mode s q = Some m -> km_mode s' q = Some m);
  km_write_file p c s s' : write_file p c s = (Done (Ok ()), s') ->
    forall q m, km_mode s q = Some m -> km_mode s' q = Some m;
  km_exists p s b s' : path_exists p s = (Done b, s') -> km_mode s' = km_mode s;
  km_create p s s' : create_dir_all p s = (Done (Ok ()), s') -> km_mode s' = km_mode s
}.

(** [cmd_sign] has nothing to unwrap that may be missing. *)
Lemma run_sign_inv args s s' :
  run_sign args s = (Done (Ok ()), s') ->
  exists out pem sk text tool signed s1 s2,
    sign_output args = Ok out /\ disk_file s (sa_key args) = Some pem /\ signing_key_from_pem pem = Some sk /\
    disk_file s (sa_tool args) = Some text /\ value_from_slice text = Some tool /\
    sign_tool tool sk (sa_embed_pubkey args) s1 = (Done (Ok signed), s2) /\
    disk_file s' out = Some (json_pretty signed +:+ LINE_FEED) /\
    (forall q, q <> out -> disk_file s' q = disk_file s q).
Proof.
  unfold run_sign. intros (out & s0 & Ho & Hr)%try_bind_inv. injection Ho as Ho <-.
  apply try_bind_inv in Hr as (sk & s1 & Hk & Hr). unfold load_private_key_pem in Hk.
  apply read_file_inv in Hk as (pem & Hpem & Hk & Hs1); [|done].
  destruct (signing_key_from_pem pem) as [sk'|] eqn:Esk; [|done]. injection Hk as ->.
  apply try_bind_inv in Hr as (tool & s2 & (text & Hf & Hv & Hs2)%read_tool_inv & Hr).
  apply try_bind_inv in Hr as (signed & s3 & Hsign & Hr).
  destruct (extract_signature signed) as [sig|]; [|done]. unfold write_tool in Hr.
  apply bind_inv in Hr as (w & s4 & Hw & Hr). destruct w as [[]|]; [|done]. injection Hr as ->.
  apply disk_write in Hw as [Hw Hw'].
  pose proof (sign_tool_inv _ _ _ _ _ _ Hsign) as (m & c & k & t & p & _ & _ & _ & _ & Hc & _).
  destruct (disk_clock s2) as (s5 & Hc' & Hs5 & _). rewrite Hc' in Hc. injection Hc as _ ->.
  exists out, pem, sk, text, tool, signed, s2, s3. split_and!; try done.
  - by rewrite <- Hs1.
  - intros q Hq. by rewrite Hw', Hs5, Hs2, Hs1.
Qed.

Lemma result_code_zero (m : M S (Result () string)) s s' :
  (r ← m; mret (if is_ok r then 0%Z else 1%Z)) s = (Done 0%Z, s') -> m s = (Done (Ok ()), s').
Proof. intros (r & s1 & Hm & Hr)%bind_inv. injection Hr as Hr ->. by destruct r as [[]|]. Qed.

(** [assay tool sign] never panics: it has an exit code, 0 or 1, whatever
    the files hold, and the signature it unwraps is always there. *)
Theorem tool_sign_returns args s :
  (forall p c s, exists r s', write_file p c s = (Done r, s')) ->
  exists code s', cmd_sign args s = (Done code, s') /\ (code = 0 \/ code = 1)%Z.
Proof.
  intros Hw. assert (Hr : exists r s', run_sign args s = (Done r, s')).
  { unfold run_sign. unfold try_bind at 1. unfold mret, M_ret at 1.
    destruct (sign_output args) as [out|e]; [|by eexists _, _].
    unfold load_private_key_pem. unfold try_bind at 1. unfold mbind, M_bind at 1.
    destruct (disk_read (sa_key args) s) as (kr & s1 & -> & _).
    unfold mret, M_ret at 1. destruct kr as [pem|e]; [|by eexists _, _].
    destruct (signing_key_from_pem pem) as [sk|]; [|by eexists _, _].
    unfold try_bind at 1. destruct (read_tool (sa_tool args) s1) as [[[tool|e]|] s2] eqn:Et;
      [|by eexists _, _|].
    2:{ unfold read_tool, mbind, M_bind in Et.
        destruct (disk_read (sa_tool args) s1) as (tr & s3 & E & _). by rewrite E in Et. }
    apply read_tool_inv in Et as (text & _ & Hv%value_from_slice_distinct & _).
    unfold try_bind at 1.
    destruct (sign_tool tool sk (sa_embed_pubkey args) s2) as [[[signed|e]|] s3] eqn:Es;
      [|by eexists _, _|].
    - destruct (signed_tool_valid _ _ _ _ _ _ Hv Es) as (sig & _ & _ & -> & _).
      unfold write_tool, mbind, M_bind.
      destruct (Hw out (json_pretty signed +:+ LINE_FEED) s3) as (w & s4 & ->). by eexists _, _.
    - exfalso. unfold sign_tool in Es. cbv zeta in Es. unfold try_bind at 1 in Es.
      unfold mret, M_ret at 1 in Es. destruct (jcs_to_vec _) in Es; [|done].
      unfold try_bind at 1 in Es. unfold mret, M_ret at 1 in Es.
      destruct (compute_key_id_from_verifying_key _) in Es; [|done].
      unfold mbind, M_bind at 1 in Es. destruct (disk_clock s2) as (s4 & Ec & _). rewrite Ec in Es.
      unfold try_bind, mret, M_ret in Es. by destruct (embedded_public_key _ _) in Es. }
  destruct Hr as (r & s' & Hr). unfold cmd_sign, mbind, M_bind. rewrite Hr.
  destruct r; eexists _, _; (split; [done|auto]).
Qed.

Context `{!KeyMaterialLaws}.

Lemma key_paths_differ out : path_join out "private_key.pem" <> path_join out "public_key.pem".
Proof.
  unfold path_join. cbn [starts_with String.eqb]. change (starts_with "private_key.pem" "/") with false.
  change (starts_with "public_key.pem" "/") with false. cbv iota.
  destruct (str_is_empty out || ends_with out "/"); intros E%string_app_inj; done.
Qed.

(** Neither files nor modes change. *)
Definition Untouched (s s' : S) : Prop := Same s s' /\ km_mode s' = km_mode s.

Lemma untouched_trans s1 s2 s3 : Untouched s1 s2 -> Untouched s2 s3 -> Untouched s1 s3.
Proof. intros [F1 M1] [F2 M2]. split; [by eapply same_trans|by rewrite M2, M1]. Qed.

Lemma path_exists_inv p s b s' :
  path_exists p s = (Done b, s') -> Untouched s s' /\ (b = false -> disk_file s p = None).
Proof.
  intros He. destruct (disk_exists p s) as (b' & s1 & He' & Hf & Hs & _). pose proof (km_exists _ _ _ _ He).
  rewrite He' in He. injection He as <- <-. split; [done|]. intros ->.
  destruct (disk_file s p) as [c|] eqn:E; [|done]. by specialize (Hf c eq_refl).
Qed.

Lemma ensure_dir_inv out s s' : ensure_dir out s = (Done (Ok ()), s') -> Untouched s s'.
Proof.
  unfold ensure_dir. intros (found & s1 & [Hu _]%path_exists_inv & Hd)%bind_inv.
  destruct found; cbn [negb] in Hd; [by injection Hd as <-|].
  apply bind_inv in Hd as (c & s2 & Hc & Hd). destruct c as [[]|]; [|done]. injection Hd as <-.
  eapply untouched_trans; [done|]. split; [by intros q; apply (disk_create _ _ _ Hc)|].
  by apply (km_create _ _ _ Hc).
Qed.

Lemma refuse_existing_inv force private public s s' :
  refuse_existing force private public s = (Done (Ok ()), s') ->
  Untouched s s' /\ (force = false -> disk_file s private = None).
Proof.
  unfold refuse_existing. destruct force; [by intros [= <-]|].
  intros (b & s1 & [Hu Hn]%path_exists_inv & Hr)%bind_inv. destruct b; [done|].
  apply bind_inv in Hr as (b' & s2 & [Hu' _]%path_exists_inv & Hr).
  destruct b'; [done|]. injection Hr as <-. split; [by eapply untouched_trans|auto].
Qed.

(** A key pair that [run_keygen] has written. *)
Lemma run_keygen_inv args s s' :
  run_keygen args s = (Done (Ok ()), s') ->
  exists sk private_pem,
    disk_file s' (path_join (ka_out args) "private_key.pem") = Some private_pem /\
    signing_key_to_pem sk = Some private_pem /\
    KeyFile s' (path_join (ka_out args) "public_key.pem") (verifying_key sk) /\
    (forall p m, km_mode s p = Some m -> km_mode s' p = Some m) /\
    (ka_force args = false -> disk_file s (path_join (ka_out args) "private_key.pem") = None).
Proof.
  unfold run_keygen. cbv zeta.
  set (priv := path_join _ "private_key.pem"). set (pub := path_join _ "public_key.pem").
  intros ([] & s1 & Hd & Hr)%try_bind_inv. apply try_bind_inv in Hr as ([] & s2 & He & Hr).
  apply bind_inv in Hr as (sk & s3 & Hg & Hr).
  apply try_bind_inv in Hr as (ppem & s4 & Hpp & Hr). injection Hpp as Hpp <-.
  apply try_bind_inv in Hr as (kpem & s4 & Hkp & Hr). injection Hkp as Hkp <-.
  apply try_bind_inv in Hr as ([] & s4 & Hwp & Hr). apply try_bind_inv in Hr as ([] & s5 & Hwk & Hr).
  apply try_bind_inv in Hr as (id & s6 & Hid & Hr). injection Hid as Hid <-. injection Hr as <-.
  unfold encode_pem in Hpp, Hkp. destruct (signing_key_to_pem sk) as [pp|] eqn:Ep; [|done].
  destruct (key_to_pem (verifying_key sk)) as [kp|] eqn:Ek; [|done]. injection Hpp as ->. injection Hkp as ->.
  assert (Hw : disk_file s4 priv = Some ppem /\
    forall q m, km_mode s3 q = Some m -> km_mode s4 q = Some m).
  { unfold write_private_key in Hwp. apply bind_inv in Hwp as (o & s6 & Ho & Hwp).
    destruct o as [[]|]; [|done]. apply bind_inv in Hwp as (w & s7 & Hw & Hwp).
    destruct w as [[]|]; [|done]. injection Hwp as ->.
    apply km_open in Ho as [_ Hm]. apply km_write in Hw as (Hf & _ & Hm'). auto. }
  destruct Hw as [Hfp Hmp].
  assert (Hw : disk_file s5 pub = Some kpem /\ disk_file s5 priv = Some ppem /\
    forall q m, km_mode s4 q = Some m -> km_mode s5 q = Some m).
  { unfold write_public_key in Hwk. apply bind_inv in Hwk as (w & s6 & Hw & Hwk).
    destruct w as [[]|]; [|done]. injection Hwk as ->. pose proof (km_write_file _ _ _ _ Hw) as Hm.
    apply disk_write in Hw as [Hf Hf']. split_and!; [done| |done].
    rewrite Hf'; [done|]. apply key_paths_differ. }
  destruct Hw as (Hfk & Hfp' & Hmk). exists sk, ppem. split_and!; [done|done| | |].
  - exists kpem. split; [done|by apply key_pem_roundtrip].
  - intros p m Hm. apply Hmk, Hmp. destruct (km_generate _ _ _ Hg) as [_ ->].
    destruct (refuse_existing_inv _ _ _ _ _ He) as [[_ ->] _]. by destruct (ensure_dir_inv _ _ _ Hd) as [_ ->].
  - intros Hf. destruct (refuse_existing_inv _ _ _ _ _ He) as [_ Hn].
    destruct (ensure_dir_inv _ _ _ Hd) as [Hs _]. rewrite <- Hs. auto.
Qed.

(** [assay tool keygen] never overwrites a private key unless it is forced to,
    and a private key that it overwrites keeps the mode it had: [0o600] is the
    mode of a file that is created. *)
Theorem keygen_keeps_mode args s s' :
  cmd_keygen args s = (Done 0%Z, s') ->
  let private_path := path_join (ka_out args) "private_key.pem" in
  (ka_force args = false -> disk_file s private_path = None) /\
  (forall mode, km_mode s private_path = Some mode -> km_mode s' private_path = Some mode).
Proof.
  intros Hk%result_code_zero. destruct (run_keygen_inv _ _ _ Hk) as (sk & pem & _ & _ & _ & Hm & Hf).
  split; [done|]. intros mode. apply Hm.
Qed.

(** C29: The commands fit together.  After [keygen] made a key pair and [sign],
    given its private key, signed the tool of a file, the output file holds the
    signed tool; if that text reads back as the value that was written, then
    [verify] with the public key of the pair exits with 0, and so does
    [verify --allow-embedded-key] alone when the key was embedded, whoever made
    the pair. *)
Theorem keygen_sign_verify kargs sargs out s0 s1 s2 :
  cmd_keygen kargs s0 = (Done 0%Z, s1) ->
  sa_key sargs = path_join (ka_out kargs) "private_key.pem" ->
  sign_output sargs = Ok out -> out <> path_join (ka_out kargs) "public_key.pem" ->
  cmd_sign sargs s1 = (Done 0%Z, s2) ->
  exists sk pem text tool signed t1 t2,
    disk_file s1 (sa_key sargs) = Some pem /\ signing_key_from_pem pem = Some sk /\
    disk_file s1 (sa_tool sargs) = Some text /\ value_from_slice text = Some tool /\
    sign_tool tool sk (sa_embed_pubkey sargs) t1 = (Done (Ok signed), t2) /\
    disk_file s2 out = Some (json_pretty signed +:+ LINE_FEED) /\
    (value_from_slice (json_pretty signed +:+ LINE_FEED) = Some signed ->
     (exists s3, cmd_verify (mkVerifyArgs out (Some (path_join (ka_out kargs) "public_key.pem")) None false) s2
        = (Done 0%Z, s3)) /\
     (sa_embed_pubkey sargs = true ->
      exists s3, cmd_verify (mkVerifyArgs out None None true) s2 = (Done 0%Z, s3))).
Proof.
  intros Hk%result_code_zero Hpath Hout Hne Hs%result_code_zero.
  destruct (run_keygen_inv _ _ _ Hk) as (sk & pem & Hf & Hpem & Hpub & _ & _).
  destruct (run_sign_inv _ _ _ Hs) as (out' & pem' & sk' & text & tool & signed & t1 & t2 &
    Ho & Hf' & Hsk & Htext & Hv & Hsign & Hw & Hsame).
  rewrite Hout in Ho. injection Ho as <-. rewrite Hpath, Hf in Hf'. injection Hf' as <-.
  rewrite (signing_key_pem_roundtrip _ _ Hpem) in Hsk. injection Hsk as <-.
  pose proof Hv as Hparsed. apply value_from_slice_distinct in Hv.
  destruct (sign_tool_object _ _ _ _ _ _ Hv Hsign) as (_ & Hsigned & _).
  destruct (signed_tool_valid _ _ _ _ _ _ Hv Hsign) as (sig & t & Hval & Hx & _ & _ & Hemb).
  exists sk, pem, text, tool, signed, t1, t2. rewrite Hpath, (signing_key_pem_roundtrip _ _ Hpem).
  do 6 (split; [done|]). intros Hread. split.
  - assert (Hpub2 : KeyFile s2 (path_join (ka_out kargs) "public_key.pem") (verifying_key sk))
      by (destruct Hpub as (p & Hp & Hkey); exists p; by rewrite Hsame by done).
    destruct (verify_with_file (mkVerifyArgs out (Some (path_join (ka_out kargs) "public_key.pem")) None false)
      s2 _ signed _ _ eq_refl Hpub2 Hw Hread Hsigned) as (s3 & E & _).
    exists s3. by rewrite E, (verify_tool_valid _ _ _ Hval).
  - intros He. rewrite He in Hemb. unfold embedded_public_key, key_to_spki_der in Hemb.
    destruct (key_to_spki (verifying_key sk)) as [spki|] eqn:Espki; [|done]. injection Hemb as Hemb.
    destruct (cmd_verify_signed (mkVerifyArgs out None None true) s2 _ signed Hw Hread Hsigned) as (s3 & _ & E).
    exists s3. rewrite E. cbn [choose_key va_pubkey va_trust_policy va_allow_embedded_key].
    unfold choose_key; cbn. unfold embedded_key. rewrite Hx, <- Hemb, base64_roundtrip.
    rewrite (key_spki_roundtrip _ _ Espki). unfold mbind, M_bind, try_bind, mret, M_ret.
    by rewrite (verify_tool_valid _ _ _ Hval).
Qed.

End Commands.

(** ** Bindings *)

Section Bindings.
Context `{Platform}.

(** What a binding looks at in a definition. *)
Definition definition_view (tool : Value) : option (option string * option string * option Value) :=
  o ← as_object tool;
  Some (map_get o "name" ≫= as_str,
        opt_filter (fun d => negb (str_is_empty d)) (str_trim <$> (map_get o "description" ≫= as_str)),
        option_or (map_get o "inputSchema") (map_get o "input_schema")).

Lemma projection_of_view tool tool' server server' :
  definition_view tool = definition_view tool' ->
  normalized_server_id server = normalized_server_id server' ->
  canonical_tool_definition_projection tool server = canonical_tool_definition_projection tool' server'.
Proof.
  unfold definition_view, canonical_tool_definition_projection, normalized_input_schema. intros Hv ->.
  destruct (as_object tool) as [o|], (as_object tool') as [o'|]; cbn in Hv; try done.
  injection Hv as Hn Hd Hs. by rewrite Hn, Hd, Hs.
Qed.

(** The members of a projection are the four that were allowed, each as it was
    normalised. *)
Lemma binding_projection_shape tool server projection :
  canonical_tool_definition_projection tool server = Ok (Some projection) ->
  exists name description schema,
    definition_view tool = Some (Some name, description, schema) /\ str_trim name <> EmptyString /\
    (forall s, schema = Some s -> is_object s = true) /\
    vget projection "name" = Some (Str name) /\ vget projection "description" = Str <$> description /\
    vget projection "input_schema" = schema /\
    vget projection "server_id" = Str <$> normalized_server_id server /\
    (forall k, k ∉ ["name"; "description"; "input_schema"; "server_id"] -> vget projection k = None).
Proof.
  unfold canonical_tool_definition_projection, definition_view, normalized_input_schema.
  destruct (as_object tool) as [o|]; [|done]. cbn [mbind option_bind].
  destruct (map_get o "name" ≫= as_str) as [name|]; [|done].
  destruct (str_is_empty (str_trim name)) eqn:En; [done|].
  set (description := opt_filter _ _). set (schema := option_or _ _).
  intros Hp. exists name, description, schema.
  assert (Hne : str_trim name <> EmptyString) by (intros E; by rewrite E in En).
  assert (Hs : (forall s, schema = Some s -> is_object s = true) /\
    projection = Obj (projection_members name description schema (normalized_server_id server))).
  { destruct schema as [v|]; [destruct (is_object v) eqn:Eo; [|done]|]; injection Hp as <-;
      (split; [intros s [= <-]|]; done). }
  destruct Hs as [Hs ->]. unfold projection_members.
  split_and!; [done..| | | | |]; [destruct description, schema, (normalized_server_id server); done..|].
  intros k Hk. repeat (apply not_elem_of_cons in Hk as [?%String.eqb_neq Hk]).
  destruct description, schema, (normalized_server_id server); cbn;
    repeat match goal with E : String.eqb k _ = false |- _ => rewrite E; clear E end; done.
Qed.

(** The binding of a tool definition is computed from its name, trimmed
    description, input schema (under either spelling) and the server id alone,
    so no signature, annotation or member order changes it, and it pins them:
    two definitions with the same digest have projections of the same
    canonical text, or two texts that collide under SHA-256. *)
Theorem tool_binding_bounded tool tool' server server' :
  (definition_view tool = definition_view tool' ->
   normalized_server_id server = normalized_server_id server' ->
   binding_from_tools_list_tool tool server = binding_from_tools_list_tool tool' server') /\
  (forall b, binding_from_tools_list_tool tool server = Ok (Some b) ->
   binding_from_tools_list_tool tool' server' = Ok (Some b) ->
   exists p p' c c', canonical_tool_definition_projection tool server = Ok (Some p) /\
     canonical_tool_definition_projection tool' server' = Ok (Some p') /\
     jcs_to_string p = Some c /\ jcs_to_string p' = Some c' /\
     (c = c' \/ c <> c' /\ sha256_hex c = sha256_hex c')).
Proof.
  split.
  - intros Hv Hs. unfold binding_from_tools_list_tool. by rewrite (projection_of_view _ _ _ _ Hv Hs).
  - intros b. unfold binding_from_tools_list_tool, jcs_to_vec.
    destruct (canonical_tool_definition_projection tool server) as [[p|]|] eqn:Ep; try done.
    destruct (canonical_tool_definition_projection tool' server') as [[p'|]|] eqn:Ep'; try done.
    destruct (jcs_to_string p) as [c|] eqn:Ec; [|done]. destruct (jcs_to_string p') as [c'|] eqn:Ec'; [|done].
    intros [= <-] [= Ed]. exists p, p', c, c'. split_and!; [done..|].
    destruct (decide (c = c')) as [|Hne]; [by left|right]. split; [done|]. symmetry. exact Ed.
Qed.

(** Signing a tool does not move its binding. *)
Lemma signature_outside_binding tool v m server :
  tool = Obj m -> binding_from_tools_list_tool (Obj (map_insert m SIG_FIELD v)) server
    = binding_from_tools_list_tool tool server.
Proof.
  intros ->. unfold binding_from_tools_list_tool.
  rewrite (projection_of_view (Obj (map_insert m SIG_FIELD v)) (Obj m) server server); [done| |done].
  unfold definition_view. cbn [as_object mbind option_bind].
  by rewrite !(map_get_insert_ne m SIG_FIELD) by done.
Qed.

End Bindings.
