(* ===== verification/LintPacks.v ===== *)
(** * Rule packs for bundles

    [assay-evidence/src/lint/packs]: the schema of a pack and its validation
    ([schema_next/]), and its loading ([loader.rs], [loader_internal/]): where a
    reference is looked up, the containment of the configuration directory,
    version requirements, digests and suggestions.  YAML is the class
    [PackSerde], paths and the environment are computations. *)
From stdpp Require Import base tactics list strings gmap pretty.
From Stdlib Require Import Ascii ZArith Lia.
From S2P Require Import Prelude RustStr Json Platform Bundle PackRef PackCache.

(** ** lint/mod.rs: severities *)

Inductive Severity : Type := SevError | SevWarn | SevInfo.
#[global] Instance Severity_eq_dec : EqDecision Severity.
Proof. solve_decision. Defined.

Definition priority (s : Severity) : Z :=
  match s with SevInfo => 0 | SevWarn => 1 | SevError => 2 end.

Definition as_sarif_level (s : Severity) : string :=
  match s with SevError => "error" | SevWarn => "warning" | SevInfo => "note" end.

Definition severity_display (s : Severity) : string :=
  match s with SevError => "error" | SevWarn => "warn" | SevInfo => "info" end.

(** ** schema_next/types.rs *)

Inductive PackKind : Type := Compliance | Security | Quality.
#[global] Instance PackKind_eq_dec : EqDecision PackKind.
Proof. solve_decision. Defined.

Definition kind_display (k : PackKind) : string :=
  match k with Compliance => "compliance" | Security => "security" | Quality => "quality" end.

Record PackRequirements : Type := mkPackRequirements {
  rq_assay_min_version : string;
  rq_evidence_schema_version : option string
}.

Inductive CheckDefinition : Type :=
| EventCount (min : Z)
| EventPairs (start_pattern finish_pattern : string)
| EventFieldPresent (paths_any_of any_of : option (list string)) (in_data : bool)
| EventTypeExists (pattern : string)
| ManifestField (path : string) (required : bool)
| JsonPathExists (paths : list string) (value_equals : option Value)
| G3AuthorizationContextPresent
| Conditional (condition then_check : option Value)
| Unsupported.

Record PackRule : Type := mkPackRule {
  ru_id : string;
  ru_severity : Severity;
  ru_description : string;
  ru_article_ref : option string;
  ru_help_markdown : option string;
  ru_check : CheckDefinition;
  ru_engine_min_version : option string;
  ru_event_types : option (list string)
}.

Record PackDefinition : Type := mkPackDefinition {
  pd_name : string;
  pd_version : string;
  pd_kind : PackKind;
  pd_description : string;
  pd_author : string;
  pd_license : string;
  pd_source_url : option string;
  pd_disclaimer : option string;
  pd_requires : PackRequirements;
  pd_rules : list PackRule
}.

Record SupportedConditionalClause : Type := mkClause { cl_path : string; cl_equals : Value }.
Record SupportedConditionalCheck : Type := mkConditional {
  sc_clauses : list SupportedConditionalClause;
  sc_required_path : string
}.

(** ** schema_next/errors.rs *)

Inductive PackValidationError : Type :=
| MissingDisclaimer (pack : string)
| InvalidPackName (name : string)
| DuplicateRuleId (pack rule_id : string)
| EmptyRuleId (pack : string)
| InvalidCheck (pack rule reason : string)
| Safety (reason : string).

(** ** schema_next/validation.rs *)

(** Every byte of a character that is not ASCII fails the test. *)
Definition is_valid_pack_name (name : string) : bool :=
  negb (str_is_empty name)
  && str_forall (fun c => is_ascii_lowercase c || is_digit c || Ascii.eqb c "-") name
  && negb (starts_with name "-") && negb (ends_with name "-").

Definition nonempty_list {A} (l : option (list A)) : bool :=
  match l with Some l => negb (is_nil l) | None => false end.

(** The reason why a check is invalid. *)
Definition check_invalid (check : CheckDefinition) : option string :=
  match check with
  | EventCount min => if (min =? 0)%Z then Some "event_count.min must be > 0" else None
  | EventPairs start_pattern finish_pattern =>
      if str_is_empty start_pattern || str_is_empty finish_pattern
      then Some "event_pairs patterns cannot be empty" else None
  | EventFieldPresent paths_any_of any_of _ =>
      if negb (nonempty_list paths_any_of) && negb (nonempty_list any_of)
      then Some "event_field_present requires paths_any_of or any_of" else None
  | EventTypeExists pattern =>
      if str_is_empty pattern then Some "event_type_exists.pattern cannot be empty" else None
  | ManifestField path _ =>
      if str_is_empty path then Some "manifest_field.path cannot be empty" else None
  | JsonPathExists paths value_equals =>
      if is_nil paths then Some "json_path_exists.paths cannot be empty"
      else if opt_is_some value_equals && negb (length paths =? 1)
      then Some "json_path_exists.value_equals requires exactly one path" else None
  | G3AuthorizationContextPresent => None
  | Conditional condition then_check =>
      match condition with
      | None => Some "conditional requires a condition object"
      | Some condition =>
          if negb (is_object condition) then Some "conditional.condition must be an object"
          else match then_check with
               | None => Some "conditional requires a then object"
               | Some then_check =>
                   if negb (is_object then_check) then Some "conditional.then must be an object" else None
               end
      end
  | Unsupported => None
  end.

Definition validate_check (check : CheckDefinition) (pack_name rule_id : string)
    : Result () PackValidationError :=
  match check_invalid check with
  | Some reason => Err (InvalidCheck pack_name rule_id reason)
  | None => Ok ()
  end.

Definition event_types_invalid (event_types : option (list string)) : bool :=
  match event_types with
  | Some event_types => is_nil event_types || existsb str_is_empty event_types
  | None => false
  end.

Definition validate_rule (rule : PackRule) (pack_name : string) : Result () PackValidationError :=
  if str_is_empty (ru_id rule) then Err (EmptyRuleId pack_name)
  else if event_types_invalid (ru_event_types rule) then
    Err (InvalidCheck pack_name (ru_id rule) "event_types must contain at least one non-empty event type")
  else validate_check (ru_check rule) pack_name (ru_id rule).

Fixpoint validate_rules_loop (pack_name : string) (seen_ids : gset string) (rules : list PackRule)
    : Result () PackValidationError :=
  match rules with
  | [] => Ok ()
  | rule :: rules =>
      if bool_decide (ru_id rule ∈ seen_ids) then Err (DuplicateRuleId pack_name (ru_id rule))
      else match validate_rule rule pack_name with
           | Err e => Err e
           | Ok _ => validate_rules_loop pack_name ({[ru_id rule]} ∪ seen_ids) rules
           end
  end.

Definition validate_pack (pack : PackDefinition) : Result () PackValidationError :=
  if bool_decide (pd_kind pack = Compliance) && negb (opt_is_some (pd_disclaimer pack)) then
    Err (MissingDisclaimer (pd_name pack))
  else if negb (is_valid_pack_name (pd_name pack)) then Err (InvalidPackName (pd_name pack))
  else validate_rules_loop (pd_name pack) ∅ (pd_rules pack).

Definition canonical_id (pack_name pack_version rule_id : string) : string :=
  pack_name +:+ "@" +:+ pack_version +:+ ":" +:+ rule_id.

Definition type_name (check : CheckDefinition) : string :=
  match check with
  | EventCount _ => "event_count"
  | EventPairs _ _ => "event_pairs"
  | EventFieldPresent _ _ _ => "event_field_present"
  | EventTypeExists _ => "event_type_exists"
  | ManifestField _ _ => "manifest_field"
  | JsonPathExists _ _ => "json_path_exists"
  | G3AuthorizationContextPresent => "g3_authorization_context_present"
  | Conditional _ _ => "conditional"
  | Unsupported => "unsupported"
  end.

Definition get_field_paths (check : CheckDefinition) : list string :=
  match check with
  | EventFieldPresent paths_any_of any_of in_data =>
      let legacy :=
        match any_of with
        | Some fields => map (fun field => (if in_data : bool then "/data/" else "/") +:+ field) fields
        | None => []
        end in
      match paths_any_of with
      | Some paths => if negb (is_nil paths) then paths else legacy
      | None => legacy
      end
  | _ => []
  end.

(** ** schema_next/conditional.rs *)

(** What loading takes from outside. *)
Class PackSerde : Type := {
  (** [serde_yaml] into a definition; the error is its [Display]. *)
  pack_from_yaml : string -> Result PackDefinition string;
  (** The message of [serde_json::from_value] for a value of another shape. *)
  shape_error : Value -> string;
  (** [include_str] of the packs of the crate. *)
  builtin_content : string -> string;
  (** [CARGO_PKG_VERSION]. *)
  assay_version : string
}.

(** The members of a struct that refuses unknown ones and has no defaults, from
    an object or from an array of its fields in order. *)
Definition struct_members (fields : list string) (v : Value) : option (list (string * Value)) :=
  match v with
  | Obj m => if forallb (fun e => bool_decide (fst e ∈ fields)) m then Some m else None
  | Arr l => if length l =? length fields then Some (zip fields l) else None
  | _ => None
  end.

Definition raw_clause (v : Value) : option SupportedConditionalClause :=
  m ← struct_members ["path"; "equals"] v;
  path ← map_get m "path" ≫= as_str;
  equals ← map_get m "equals";
  Some (mkClause path equals).

Definition raw_condition (v : Value) : option (list SupportedConditionalClause) :=
  m ← struct_members ["all"] v;
  all ← map_get m "all" ≫= as_array;
  mapM raw_clause all.

Definition raw_then (v : Value) : option (string * list string) :=
  m ← struct_members ["type"; "paths"] v;
  type_name ← map_get m "type" ≫= as_str;
  paths ← map_get m "paths" ≫= as_array;
  paths ← mapM as_str paths;
  Some (type_name, paths).

Definition is_array (v : Value) : bool := match v with Arr _ => true | _ => false end.

Fixpoint check_clauses (clauses : list SupportedConditionalClause) : Result () string :=
  match clauses with
  | [] => Ok ()
  | clause :: clauses =>
      if str_is_empty (cl_path clause) then Err "conditional clause path cannot be empty"
      else if is_array (cl_equals clause) || is_object (cl_equals clause) then
        Err "conditional clause equals must be a JSON scalar or null"
      else check_clauses clauses
  end.

Section Conditional.
Context `{PackSerde}.

Definition supported_then (then_check : option Value) : Result string string :=
  match then_check with
  | None => Err "missing then check"
  | Some v =>
      match raw_then v with
      | None => Err ("unsupported then shape: " +:+ shape_error v)
      | Some (type_name, paths) =>
          if negb (String.eqb type_name "json_path_exists") then
            Err "conditional then must use json_path_exists"
          else match paths with
               | [required_path] =>
                   if str_is_empty required_path then Err "conditional then path cannot be empty"
                   else Ok required_path
               | _ => Err "conditional then json_path_exists must contain exactly one required path"
               end
      end
  end.

Definition supported_conditional (check : CheckDefinition) : Result SupportedConditionalCheck string :=
  match check with
  | Conditional condition then_check =>
      match condition with
      | None => Err "missing condition"
      | Some v =>
          match raw_condition v with
          | None => Err ("unsupported condition shape: " +:+ shape_error v)
          | Some clauses =>
              if is_nil clauses then Err "condition.all must contain at least one clause"
              else match check_clauses clauses with
                   | Err e => Err e
                   | Ok _ =>
                       match supported_then then_check with
                       | Err e => Err e
                       | Ok required_path => Ok (mkConditional clauses required_path)
                       end
                   end
          end
      end
  | _ => Err "check is not conditional"
  end.

Definition is_unsupported (check : CheckDefinition) : bool :=
  match check with
  | Unsupported => true
  | Conditional _ _ => negb (is_ok (supported_conditional check))
  | _ => false
  end.

End Conditional.

(** ** loader.rs *)

Inductive PackSource : Type := BuiltIn (name : string) | FromFile (path : string).

Definition source_display (s : PackSource) : string :=
  match s with BuiltIn name => "builtin:" +:+ name | FromFile path => "file:" +:+ path end.

Record LoadedPack : Type := mkLoadedPack {
  ld_definition : PackDefinition;
  ld_digest : string;
  ld_source : PackSource
}.

Definition canonical_rule_id (pack : LoadedPack) (rule_id : string) : string :=
  canonical_id (pd_name (ld_definition pack)) (pd_version (ld_definition pack)) rule_id.

Inductive PackError : Type :=
| PackNotFound (reference suggestion : string)
| PackReadError (path cause : string)
| PackYamlParseError (message : string)
| PackInvalid (e : PackValidationError)
| IncompatibleVersion (pack required current : string)
| ComplianceCollision (rule_id pack_a pack_b : string).

(** ** loader_internal/compat.rs *)

(** [trim_start_matches] with a string pattern. *)
Fixpoint trim_prefix_loop (fuel : nat) (p s : string) : string :=
  match fuel with
  | O => s
  | S fuel => if starts_with s p then trim_prefix_loop fuel p (str_drop (String.length p) s) else s
  end.
Definition trim_prefix (p s : string) : string := trim_prefix_loop (String.length s) p s.

Definition parse_u32 (s : string) : option Z := parse_unsigned (2 ^ 32 - 1) s.

Definition parse_version (v : string) : option (Z * Z * Z) :=
  match str_split "." v with
  | major :: minor :: patch :: _ =>
      major ← parse_u32 major; minor ← parse_u32 minor;
      patch ← (head (str_split "-" patch) ≫= parse_u32);
      Some (major, minor, patch)
  | [major; minor] => major ← parse_u32 major; minor ← parse_u32 minor; Some (major, minor, 0%Z)
  | _ => None
  end.

(** The order of tuples. *)
Definition version_le (a b : Z * Z * Z) : bool :=
  let '(a1, a2, a3) := a in let '(b1, b2, b3) := b in
  ((a1 <? b1) || ((a1 =? b1) && ((a2 <? b2) || ((a2 =? b2) && (a3 <=? b3)))))%Z.

Definition version_satisfies (current required : string) : bool :=
  match parse_version current, parse_version required with
  | Some c, Some r => version_le r c
  | _, _ => false
  end.

Section Loader.
Context `{Platform} `{PackSerde}.

Definition check_version_compatibility (definition : PackDefinition) : Result () PackError :=
  let required := rq_assay_min_version (pd_requires definition) in
  let required_version := trim_start_matches "=" (trim_prefix ">=" required) in
  if negb (version_satisfies assay_version required_version) then
    Err (IncompatibleVersion (pd_name definition) required assay_version)
  else Ok ().

(** *** digest.rs: the serde form of a definition *)

Definition opt_value {A} (f : A -> Value) (o : option A) : Value :=
  match o with Some a => f a | None => Null end.
Definition strs_value (l : list string) : Value := Arr (map Str l).

Definition check_value (check : CheckDefinition) : Value :=
  Obj (("type", Str (type_name check)) ::
    match check with
    | EventCount min => [("min", Num (PosInt min))]
    | EventPairs start_pattern finish_pattern =>
        [("start_pattern", Str start_pattern); ("finish_pattern", Str finish_pattern)]
    | EventFieldPresent paths_any_of any_of in_data =>
        [("paths_any_of", opt_value strs_value paths_any_of); ("any_of", opt_value strs_value any_of);
         ("in_data", VBool in_data)]
    | EventTypeExists pattern => [("pattern", Str pattern)]
    | ManifestField path required => [("path", Str path); ("required", VBool required)]
    | JsonPathExists paths value_equals =>
        [("paths", strs_value paths); ("value_equals", opt_value id value_equals)]
    | Conditional condition then_check =>
        [("condition", opt_value id condition); ("then", opt_value id then_check)]
    | G3AuthorizationContextPresent | Unsupported => []
    end).

Definition pack_severity_value (s : Severity) : Value :=
  Str match s with SevError => "error" | SevWarn => "warning" | SevInfo => "info" end.

Definition rule_value (rule : PackRule) : Value :=
  Obj [("id", Str (ru_id rule)); ("severity", pack_severity_value (ru_severity rule));
       ("description", Str (ru_description rule)); ("article_ref", opt_value Str (ru_article_ref rule));
       ("help_markdown", opt_value Str (ru_help_markdown rule)); ("check", check_value (ru_check rule));
       ("engine_min_version", opt_value Str (ru_engine_min_version rule));
       ("event_types", opt_value strs_value (ru_event_types rule))].

Definition pack_value (d : PackDefinition) : Value :=
  Obj [("name", Str (pd_name d)); ("version", Str (pd_version d)); ("kind", Str (kind_display (pd_kind d)));
       ("description", Str (pd_description d)); ("author", Str (pd_author d)); ("license", Str (pd_license d));
       ("source_url", opt_value Str (pd_source_url d)); ("disclaimer", opt_value Str (pd_disclaimer d));
       ("requires", Obj [("assay_min_version", Str (rq_assay_min_version (pd_requires d)));
                         ("evidence_schema_version", opt_value Str (rq_evidence_schema_version (pd_requires d)))]);
       ("rules", Arr (map rule_value (pd_rules d)))].

Definition compute_pack_digest (definition : PackDefinition) : Result string PackError :=
  match jcs_to_string (pack_value definition) with
  | Some canonical => Ok ("sha256:" +:+ sha256_hex canonical)
  | None => Err (PackYamlParseError ("Failed to canonicalize pack to JCS JSON: " +:+ jcs_error))
  end.

(** *** parse.rs *)

Definition format_yaml_error (msg : string) : string :=
  if str_contains msg "duplicate key" then
    "Duplicate key detected (duplicate keys not allowed for security): " +:+ msg
  else if str_contains msg "unknown field" then
    "Unknown field detected (prevents digest bypass attacks): " +:+ msg
  else msg.

Definition load_pack_from_string (content : string) (source : PackSource) : Result LoadedPack PackError :=
  match pack_from_yaml content with
  | Err e => Err (PackYamlParseError (format_yaml_error e))
  | Ok definition =>
      match validate_pack definition with
      | Err e => Err (PackInvalid e)
      | Ok _ =>
          match check_version_compatibility definition with
          | Err e => Err e
          | Ok _ =>
              match compute_pack_digest definition with
              | Err e => Err e
              | Ok digest => Ok (mkLoadedPack definition digest source)
              end
          end
      end
  end.

(** *** mod.rs: the packs of the crate *)

Definition BUILTIN_PACKS : list string :=
  ["cicd-starter"; "eu-ai-act-baseline"; "mandate-baseline"; "mcp-signal-followup"; "a2a-signal-followup";
   "a2a-discovery-card-followup"; "owasp-agentic-control-evidence-baseline";
   "owasp-agentic-a3-a5-signal-followup"; "soc2-baseline"].

Definition get_builtin_pack_with_name (name : string) : option (string * string) :=
  n ← find (String.eqb name) BUILTIN_PACKS; Some (n, builtin_content n).

Definition get_builtin_pack (name : string) : option string := snd <$> get_builtin_pack_with_name name.

End Loader.

(** ** loader_internal/resolve.rs: suggestions *)

(** The table of distances, a list of rows. *)
Definition table_get (dp : list (list nat)) (i j : nat) : nat := nth j (nth i dp []) 0.
Definition table_set (dp : list (list nat)) (i j v : nat) : list (list nat) := alter (<[j := v]>) i dp.

Definition distance_cell (a_chars b_chars : list string) (i : nat) (dp : list (list nat)) (j : nat)
    : list (list nat) :=
  let cost := if String.eqb (nth (i - 1) a_chars EmptyString) (nth (j - 1) b_chars EmptyString) then 0 else 1 in
  table_set dp i j
    (Nat.min (Nat.min (table_get dp (i - 1) j + 1) (table_get dp i (j - 1) + 1))
       (table_get dp (i - 1) (j - 1) + cost)).

Definition chars_distance (a_chars b_chars : list string) : nat :=
  let m := length a_chars in
  let n := length b_chars in
  if m =? 0 then n
  else if n =? 0 then m
  else
    let dp := replicate (m + 1) (replicate (n + 1) 0) in
    let dp := foldl (fun dp i => table_set dp i 0 i) dp (seq 0 (m + 1)) in
    let dp := foldl (fun dp j => table_set dp 0 j j) dp (seq 0 (n + 1)) in
    let dp := foldl (fun dp i => foldl (distance_cell a_chars b_chars i) dp (seq 1 n)) dp (seq 1 m) in
    table_get dp m n.

Definition levenshtein_distance (a b : string) : nat := chars_distance (chars a) (chars b).

Definition suggest_similar_pack (reference : string) : string :=
  let suggestions :=
    List.filter (fun name => starts_with name reference || starts_with reference name
                             || (levenshtein_distance name reference <=? 3)) BUILTIN_PACKS in
  if is_nil suggestions then
    "Available built-in packs: " +:+ str_join ", " BUILTIN_PACKS
      +:+ ". Or specify a file path: --pack ./my-pack.yaml"
  else "Did you mean '" +:+ str_join "' or '" suggestions +:+ "'?".

(** ** loader_internal/: looking a reference up *)

(** Symbolic links and the environment. *)
Class PackDirs (S : Type) : Type := {
  canonicalize : string -> M S (Result string string);
  env_var : string -> M S (option string)
}.

#[global] Instance Component_eq_dec : EqDecision Component.
Proof. solve_decision. Defined.

(** [Path::starts_with]: the components of the base come first. *)
Definition path_starts_with (p base : string) : bool :=
  let base := path_components base in bool_decide (take (length base) (path_components p) = base).

Section Resolve.
Context `{Platform} `{PackSerde} {S : Type} `{!Disk S} `{!PackDirs S}.

Definition load_pack_from_file (path : string) : M S (Result LoadedPack PackError) :=
  r ← read_to_string path;
  mret (match r with
        | Err e => Err (PackReadError path e)
        | Ok content => load_pack_from_string content (FromFile path)
        end).

(** On Unix. *)
Definition get_config_pack_dir : M S (option string) :=
  xdg ← env_var "XDG_CONFIG_HOME";
  match opt_filter (fun v => negb (str_is_empty v)) xdg with
  | Some xdg => mret (Some (path_join (path_join xdg "assay") "packs"))
  | None =>
      home ← env_var "HOME";
      mret ((fun home => path_join (path_join (path_join home ".config") "assay") "packs") <$> home)
  end.

Definition load_contained (config_dir canonical_config path : string) : M S (Result LoadedPack PackError) :=
  c ← canonicalize path;
  match c with
  | Err e => mret (Err (PackReadError path e))
  | Ok canonical_path =>
      if negb (path_starts_with canonical_path canonical_config) then
        mret (Err (PackInvalid (Safety ("Pack path '" +:+ path +:+ "' resolves outside config directory '"
                                        +:+ config_dir +:+ "'"))))
      else load_pack_from_file canonical_path
  end.

Fixpoint try_candidates (config_dir canonical_config : string) (candidates : list string)
    : M S (Result (option LoadedPack) PackError) :=
  match candidates with
  | [] => mret (Ok None)
  | path :: candidates =>
      found ← path_exists path;
      if negb found then try_candidates config_dir canonical_config candidates
      else pack ←? load_contained config_dir canonical_config path; mret (Ok (Some pack))
  end.

Definition try_load_from_config_dir (name : string) : M S (Result (option LoadedPack) PackError) :=
  dir ← get_config_pack_dir;
  match dir with
  | None => mret (Ok None)
  | Some config_dir =>
      found ← path_exists config_dir;
      if negb found then mret (Ok None)
      else
        c ← canonicalize config_dir;
        match c with
        | Err e => mret (Err (PackReadError config_dir e))
        | Ok canonical_config =>
            try_candidates config_dir canonical_config
              [path_join config_dir (name +:+ ".yaml"); path_join (path_join config_dir name) "pack.yaml"]
        end
  end.

Definition load_pack_path (path : string) : M S (Result LoadedPack PackError) :=
  is_dir ← path_is_dir path;
  if negb is_dir then load_pack_from_file path
  else
    let pack_yaml := path_join path "pack.yaml" in
    found ← path_exists pack_yaml;
    if negb found then
      mret (Err (PackReadError pack_yaml "Directory provided but 'pack.yaml' not found"))
    else load_pack_from_file pack_yaml.

Definition load_by_name (reference : string) : M S (Result LoadedPack PackError) :=
  let not_found := PackNotFound reference (suggest_similar_pack reference) in
  match get_builtin_pack_with_name reference with
  | Some (name, content) => mret (load_pack_from_string content (BuiltIn name))
  | None =>
      if is_valid_pack_name reference then
        loaded ←? try_load_from_config_dir reference;
        mret (match loaded with Some pack => Ok pack | None => Err not_found end)
      else mret (Err not_found)
  end.

Definition load_pack (reference : string) : M S (Result LoadedPack PackError) :=
  found ← path_exists reference;
  if negb found then load_by_name reference else load_pack_path reference.

Fixpoint load_packs (references : list string) : M S (Result (list LoadedPack) PackError) :=
  match references with
  | [] => mret (Ok [])
  | reference :: references =>
      pack ←? load_pack reference;
      packs ←? load_packs references;
      mret (Ok (pack :: packs))
  end.

End Resolve.
