(* ===== verification/LintPacksCorrect.v ===== *)
(** * Rule packs: what is proved

    The distance behind the suggestions is the least number of single edits; a
    pack that loads was validated, suits this version and is named by the
    digest of its definition, and one that comes from the configuration
    directory was read inside it. *)
From stdpp Require Import base tactics list strings gmap pretty relations.
From Stdlib Require Import Ascii ZArith Lia.
From S2P Require Import Prelude RustStr Json Platform PackCache LintPacks.

(** ** Edit distance *)

(** One insertion, deletion or substitution. *)
Inductive Edit {A} : list A -> list A -> Prop :=
| edit_insert l1 x l2 : Edit (l1 ++ l2) (l1 ++ x :: l2)
| edit_delete l1 x l2 : Edit (l1 ++ x :: l2) (l1 ++ l2)
| edit_substitute l1 x y l2 : Edit (l1 ++ x :: l2) (l1 ++ y :: l2).

(** An alignment of two lists with a number of mismatches. *)
Inductive Align {A} : nat -> list A -> list A -> Prop :=
| align_nil : Align 0 [] []
| align_keep n x a b : Align n a b -> Align n (x :: a) (x :: b)
| align_subst n x y a b : Align n a b -> Align (S n) (x :: a) (y :: b)
| align_del n x a b : Align n a b -> Align (S n) (x :: a) b
| align_ins n y a b : Align n a b -> Align (S n) a (y :: b).

Section Distance.
Context {A : Type}.
Implicit Types a b : list A.

Lemma edit_cons x a b : Edit a b -> Edit (x :: a) (x :: b).
Proof.
  intros [l1 y l2|l1 y l2|l1 y z l2].
  - apply (edit_insert (x :: l1)).
  - apply (edit_delete (x :: l1)).
  - apply (edit_substitute (x :: l1)).
Qed.

Lemma align_steps n a b : Align n a b -> nsteps Edit n a b.
Proof.
  assert (Hc : forall x n a b, nsteps Edit n a b -> nsteps Edit n (x :: a) (x :: b)).
  { intros x m l k. apply nsteps_congruence. intros ? ?. apply edit_cons. }
  induction 1 as [|m x l k _ IH|m x y l k _ IH|m x l k _ IH|m y l k _ IH].
  - constructor.
  - by apply Hc.
  - eapply nsteps_r; [by apply Hc|]. apply (edit_substitute []).
  - eapply nsteps_l; [apply (edit_delete [])|done].
  - eapply nsteps_r; [done|]. apply (edit_insert []).
Qed.

Lemma align_refl a : Align 0 a a.
Proof. induction a; by constructor. Qed.

Lemma align_app n1 n2 a1 b1 a2 b2 : Align n1 a1 b1 -> Align n2 a2 b2 -> Align (n1 + n2) (a1 ++ a2) (b1 ++ b2).
Proof. induction 1; intros Ha; cbn; by repeat constructor; auto. Qed.

Lemma align_split n l1 l2 b :
  Align n (l1 ++ l2) b ->
  exists n1 n2 b1 b2, n = n1 + n2 /\ b = b1 ++ b2 /\ Align n1 l1 b1 /\ Align n2 l2 b2.
Proof.
  intros Ha. remember (l1 ++ l2) as l eqn:El. revert l1 l2 El.
  induction Ha as [|n x a b Ha IH|n x y a b Ha IH|n x a b Ha IH|n y a b Ha IH]; intros l1 l2 El.
  - destruct l1, l2; try done. exists 0, 0, [], []. split_and!; constructor.
  - destruct l1 as [|z l1]; cbn in El; [subst l2|injection El as <- ->].
    + exists 0, n, [], (x :: b). split_and!; try done; by constructor.
    + destruct (IH l1 l2 eq_refl) as (n1 & n2 & b1 & b2 & -> & -> & H1' & H2').
      exists n1, n2, (x :: b1), b2. split_and!; try done. by constructor.
  - destruct l1 as [|z l1]; cbn in El; [subst l2|injection El as <- ->].
    + exists 0, (S n), [], (y :: b). split_and!; try done; by constructor.
    + destruct (IH l1 l2 eq_refl) as (n1 & n2 & b1 & b2 & -> & -> & H1' & H2').
      exists (S n1), n2, (y :: b1), b2. split_and!; try done. by constructor.
  - destruct l1 as [|z l1]; cbn in El; [subst l2|injection El as <- ->].
    + exists 0, (S n), [], b. split_and!; try done; by constructor.
    + destruct (IH l1 l2 eq_refl) as (n1 & n2 & b1 & b2 & -> & -> & H1' & H2').
      exists (S n1), n2, b1, b2. split_and!; try done. by constructor.
  - destruct (IH l1 l2 El) as (n1 & n2 & b1 & b2 & -> & -> & H1' & H2').
    exists (S n1), n2, (y :: b1), b2. split_and!; try done. by constructor.
Qed.

(** Taking a symbol away, or replacing it, costs at most one. *)
Lemma align_drop n x a b : Align n (x :: a) b -> exists m, m <= S n /\ Align m a b.
Proof.
  intros Ha. remember (x :: a) as l eqn:El. revert El.
  induction Ha as [|n y l b Ha _|n y z l b Ha _|n y l b Ha _|n y l b Ha IH]; intros El; try done.
  - injection El as -> ->. exists (S n). split; [lia|by constructor].
  - injection El as -> ->. exists (S n). split; [lia|by constructor].
  - injection El as -> ->. exists n. split; [lia|done].
  - destruct (IH El) as (m & Hm & Ha'). exists (S m). split; [lia|by constructor].
Qed.

Lemma align_replace n x z a b : Align n (x :: a) b -> exists m, m <= S n /\ Align m (z :: a) b.
Proof.
  intros Ha. remember (x :: a) as l eqn:El. revert El.
  induction Ha as [|n y l b Ha _|n y w l b Ha _|n y l b Ha _|n y l b Ha IH]; intros El; try done.
  - injection El as -> ->. exists (S n). split; [lia|by constructor].
  - injection El as -> ->. exists (S n). split; [lia|by constructor].
  - injection El as -> ->. exists (S n). split; [lia|by constructor].
  - destruct (IH El) as (m & Hm & Ha'). exists (S m). split; [lia|by constructor].
Qed.

Lemma edit_align n a c b : Edit a c -> Align n c b -> exists m, m <= S n /\ Align m a b.
Proof.
  intros [l1 x l2|l1 x l2|l1 x y l2] (n1 & n2 & b1 & b2 & -> & -> & H1' & H2')%align_split.
  - apply align_drop in H2' as (m & Hm & H2'). exists (n1 + m). split; [lia|by apply align_app].
  - exists (n1 + S n2). split; [lia|]. apply align_app; [done|by constructor].
  - apply (align_replace _ _ x) in H2' as (m & Hm & H2'). exists (n1 + m). split; [lia|by apply align_app].
Qed.

Lemma steps_align n a b : nsteps Edit n a b -> exists m, m <= n /\ Align m a b.
Proof.
  induction 1 as [a|n a c b He _ (m & Hm & Ha)]; [exists 0; split; [done|apply align_refl]|].
  destruct (edit_align _ _ _ _ He Ha) as (k & Hk & Hak). exists k. split; [lia|done].
Qed.

(** The cheapest alignment. *)
Definition Cheapest (n : nat) a b : Prop := Align n a b /\ forall m, Align m a b -> n <= m.

Lemma cheapest_steps n a b :
  Cheapest n a b -> nsteps Edit n a b /\ forall m, nsteps Edit m a b -> n <= m.
Proof.
  intros [Ha Hmin]. split; [by apply align_steps|].
  intros m (k & Hk & Hak)%steps_align. apply Hmin in Hak. lia.
Qed.

Lemma cheapest_nil_l b : Cheapest (length b) [] b.
Proof.
  split.
  - induction b; by constructor.
  - intros m Ha. remember [] as l eqn:El. revert El. induction Ha; intros El; try done; cbn.
    apply IHHa in El. lia.
Qed.

Lemma cheapest_nil_r a : Cheapest (length a) a [].
Proof.
  split.
  - induction a; by constructor.
  - intros m Ha. remember [] as l eqn:El. revert El. induction Ha; intros El; try done; cbn.
    apply IHHa in El. lia.
Qed.

Lemma align_rev n a b : Align n a b -> Align n (reverse a) (reverse b).
Proof.
  induction 1 as [|n x a b _ IH|n x y a b _ IH|n x a b _ IH|n y a b _ IH]; rewrite ?reverse_cons.
  - constructor.
  - rewrite <- (Nat.add_0_r n). apply align_app; [done|apply align_refl].
  - rewrite <- (Nat.add_1_r n). apply align_app; [done|]. by repeat constructor.
  - rewrite <- (Nat.add_1_r n), <- (app_nil_r (reverse b)). apply align_app; [done|]. by repeat constructor.
  - rewrite <- (Nat.add_1_r n), <- (app_nil_r (reverse a)). apply align_app; [done|]. by repeat constructor.
Qed.

Lemma cheapest_rev n a b : Cheapest n a b -> Cheapest n (reverse a) (reverse b).
Proof.
  intros [Ha Hmin]. split; [by apply align_rev|]. intros m Hm. apply Hmin.
  rewrite <- (reverse_involutive a), <- (reverse_involutive b). by apply align_rev.
Qed.

Lemma cheapest_cons x y a b p q r (same : bool) :
  (same = true <-> x = y) ->
  Cheapest p a (y :: b) -> Cheapest q (x :: a) b -> Cheapest r a b ->
  Cheapest (Nat.min (Nat.min (p + 1) (q + 1)) (r + if same then 0 else 1)) (x :: a) (y :: b).
Proof.
  intros Hsame [Hp Hp'] [Hq Hq'] [Hr Hr']. split.
  - destruct (Nat.min_spec (Nat.min (p + 1) (q + 1)) (r + if same then 0 else 1)) as [[_ ->]|[_ ->]].
    + destruct (Nat.min_spec (p + 1) (q + 1)) as [[_ ->]|[_ ->]]; rewrite Nat.add_1_r; by constructor.
    + destruct same.
      * rewrite Nat.add_0_r, (proj1 Hsame eq_refl). by constructor.
      * rewrite Nat.add_1_r. by constructor.
  - intros m Ha. inversion Ha as [|n x' a' b' Ha'|n x' y' a' b' Ha'|n x' a' b' Ha'|n y' a' b' Ha']; subst.
    + apply Hr' in Ha'. rewrite (proj2 Hsame eq_refl). lia.
    + apply Hr' in Ha'. destruct same; lia.
    + apply Hp' in Ha'. lia.
    + apply Hq' in Ha'. lia.
Qed.

Lemma cheapest_snoc x y a b p q r (same : bool) :
  (same = true <-> x = y) ->
  Cheapest p a (b ++ [y]) -> Cheapest q (a ++ [x]) b -> Cheapest r a b ->
  Cheapest (Nat.min (Nat.min (p + 1) (q + 1)) (r + if same then 0 else 1)) (a ++ [x]) (b ++ [y]).
Proof.
  intros Hsame Hp Hq Hr. apply cheapest_rev in Hp, Hq, Hr. rewrite reverse_snoc in Hp, Hq.
  rewrite <- (reverse_involutive (a ++ [x])), <- (reverse_involutive (b ++ [y])), !reverse_snoc.
  by apply cheapest_rev, cheapest_cons.
Qed.

End Distance.

(** ** The table *)

Lemma foldl_seq_inv {B} (I : nat -> B -> Prop) (f : B -> nat -> B) s n acc :
  (forall k acc, s <= k < s + n -> I k acc -> I (S k) (f acc k)) -> I s acc -> I (s + n) (foldl f acc (seq s n)).
Proof.
  revert s acc. induction n as [|n IH]; intros s acc Hf Hs; cbn; [by rewrite Nat.add_0_r|].
  rewrite <- Nat.add_succ_comm. apply IH; [intros k acc' Hk; apply Hf; lia|]. apply Hf; [lia|done].
Qed.

(** A table of [m + 1] rows and [n + 1] columns. *)
Definition Sized (m n : nat) (dp : list (list nat)) : Prop :=
  length dp = m + 1 /\ Forall (fun row => length row = n + 1) dp.

Lemma nth_default {A} (l : list A) i d : nth i l d = default d (l !! i).
Proof. revert i. induction l; intros [|i]; cbn; auto. Qed.

Lemma table_set_sized m n dp i j v : Sized m n dp -> Sized m n (table_set dp i j v).
Proof.
  intros [Hl Hr]. unfold table_set. split; [by rewrite length_alter|].
  apply Forall_alter; [done|]. intros row Hrow Hlen. by rewrite length_insert.
Qed.

Lemma table_get_set_eq m n dp i j v : Sized m n dp -> i <= m -> j <= n -> table_get (table_set dp i j v) i j = v.
Proof.
  intros [Hl Hr] Hi Hj. unfold table_get, table_set. rewrite !nth_default.
  destruct (lookup_lt_is_Some_2 dp i) as [row Hrow]; [lia|].
  rewrite (list_lookup_alter_eq _ _ _), Hrow. cbn. rewrite list_lookup_insert_eq; [done|].
  rewrite Forall_forall in Hr. rewrite (Hr row); [lia|]. by eapply list_elem_of_lookup_2.
Qed.

Lemma table_get_set_ne dp i j v i' j' : i <> i' \/ j <> j' -> table_get (table_set dp i j v) i' j' = table_get dp i' j'.
Proof.
  intros Hne. unfold table_get, table_set. rewrite !nth_default.
  destruct (decide (i = i')) as [<-|Hi]; [|by rewrite list_lookup_alter_ne].
  destruct Hne as [|Hj]; [done|]. rewrite (list_lookup_alter_eq _ _ _).
  destruct (dp !! i) as [row|]; [|done]. cbn. by rewrite list_lookup_insert_ne.
Qed.

Lemma take_nth_snoc (l : list string) i : 1 <= i <= length l -> take i l = take (i - 1) l ++ [nth (i - 1) l EmptyString].
Proof.
  intros Hi. destruct (lookup_lt_is_Some_2 l (i - 1)) as [x Hx]; [lia|].
  rewrite nth_default, Hx. cbn. replace i with (S (i - 1)) at 1 by lia. by apply take_S_r.
Qed.

Section Table.
Variables a b : list string.

(** The cells before row [i], and before column [j] in it, hold distances of
    prefixes; so do the first row and column. *)
Definition Filled (i j : nat) (dp : list (list nat)) : Prop :=
  Sized (length a) (length b) dp /\
  forall i' j', i' <= length a -> j' <= length b ->
    i' < i \/ (i' = i /\ j' < j) \/ i' = 0 \/ j' = 0 ->
    Cheapest (table_get dp i' j') (take i' a) (take j' b).

Lemma distance_cell_filled i j dp :
  1 <= i <= length a -> 1 <= j <= length b -> Filled i j dp -> Filled i (S j) (distance_cell a b i dp j).
Proof.
  intros Hi Hj [Hs Hf]. unfold distance_cell. split; [by apply table_set_sized|].
  intros i' j' Hi' Hj' Hcase. destruct (decide (i' = i /\ j' = j)) as [[-> ->]|Hne].
  - rewrite (table_get_set_eq _ _ _ _ _ _ Hs) by lia.
    rewrite (take_nth_snoc a i), (take_nth_snoc b j) by lia.
    apply (cheapest_snoc _ _ _ _ _ _ _ (String.eqb _ _)); [apply String.eqb_eq| | |].
    + rewrite <- (take_nth_snoc b j) by lia. apply Hf; lia.
    + rewrite <- (take_nth_snoc a i) by lia. apply Hf; lia.
    + apply Hf; lia.
  - rewrite table_get_set_ne by lia.
    apply Hf; [done..|]. destruct (decide (i' = i)) as [->|]; [|lia].
    destruct Hcase as [|[[_ Hlt]|[|]]]; [lia| |lia..]. destruct (decide (j' = j)); [naive_solver|lia].
Qed.

Lemma table_zero m n i j : table_get (replicate m (replicate n 0)) i j = 0.
Proof.
  unfold table_get. rewrite !nth_default. destruct (replicate m (replicate n 0) !! i) as [row|] eqn:E; [|done].
  apply lookup_replicate in E as [-> _]. cbn. destruct (replicate n 0 !! j) as [x|] eqn:E; [|done].
  by apply lookup_replicate in E as [-> _].
Qed.

Lemma first_column dp :
  Sized (length a) (length b) dp -> (forall i j, table_get dp i j = 0) ->
  let dp' := foldl (fun dp i => table_set dp i 0 i) dp (seq 0 (length a + 1)) in
  Sized (length a) (length b) dp' /\ (forall i, i <= length a -> table_get dp' i 0 = i).
Proof.
  intros Hs Hz. cbv zeta.
  pose proof (foldl_seq_inv (fun k dp => Sized (length a) (length b) dp /\
    forall i, i <= length a -> i < k -> table_get dp i 0 = i) (fun dp i => table_set dp i 0 i) 0 (length a + 1) dp)
    as [Hs' Hf]; [| |split; [done|]; intros i Hi; apply Hf; lia].
  - intros k acc Hk [Hsz Hf]. split; [by apply table_set_sized|]. intros i Hi Hlt.
    destruct (decide (k = i)) as [<-|Hne]; [by rewrite (table_get_set_eq _ _ _ _ _ _ Hsz) by lia|].
    rewrite table_get_set_ne by lia. apply Hf; lia.
  - split; [done|]. intros i _ Hi. lia.
Qed.

Lemma first_row dp :
  Sized (length a) (length b) dp -> (forall i, i <= length a -> table_get dp i 0 = i) ->
  Filled 1 1 (foldl (fun dp j => table_set dp 0 j j) dp (seq 0 (length b + 1))).
Proof.
  intros Hs Hc.
  pose proof (foldl_seq_inv (fun k dp => Sized (length a) (length b) dp /\
    (forall i, i <= length a -> table_get dp i 0 = i) /\
    forall j, j <= length b -> j < k -> table_get dp 0 j = j) (fun dp j => table_set dp 0 j j) 0 (length b + 1) dp)
    as (Hs' & Hc' & Hr); [| |].
  - intros k acc Hk (Hsz & Hcol & Hrow). split_and!; [by apply table_set_sized| |].
    + intros i Hi. destruct (decide (i = 0 /\ k = 0)) as [[-> ->]|Hne].
      * by rewrite (table_get_set_eq _ _ _ _ _ _ Hsz) by lia.
      * rewrite table_get_set_ne by lia. by apply Hcol.
    + intros j Hj Hlt. destruct (decide (k = j)) as [<-|Hne]; [by rewrite (table_get_set_eq _ _ _ _ _ _ Hsz) by lia|].
      rewrite table_get_set_ne by lia. apply Hrow; lia.
  - split_and!; [done|done|]. intros j _ Hj. lia.
  - split; [done|]. intros i j Hi Hj Hcase. destruct (decide (i = 0)) as [->|Hi0].
    + rewrite Hr by lia. cbn. rewrite <- (length_take_le b j) at 1 by done. apply cheapest_nil_l.
    + assert (j = 0) as -> by lia. rewrite Hc' by lia. cbn.
      rewrite <- (length_take_le a i) at 1 by done. apply cheapest_nil_r.
Qed.

Lemma rows_filled dp :
  Filled 1 1 dp ->
  Filled (1 + length a) 1 (foldl (fun dp i => foldl (distance_cell a b i) dp (seq 1 (length b))) dp (seq 1 (length a))).
Proof.
  intros Hf. apply (foldl_seq_inv (fun i dp => Filled i 1 dp)); [|done].
  intros i acc Hi Hacc.
  assert (Hrow : Filled i (1 + length b) (foldl (distance_cell a b i) acc (seq 1 (length b)))).
  { apply (foldl_seq_inv (fun j dp => Filled i j dp)); [|done].
    intros j acc' Hj. apply distance_cell_filled; lia. }
  destruct Hrow as [Hs Hall]. split; [done|]. intros i' j' Hi' Hj' Hcase. apply Hall; lia.
Qed.

Lemma chars_distance_cheapest : Cheapest (chars_distance a b) a b.
Proof.
  unfold chars_distance. destruct (Nat.eqb_spec (length a) 0) as [Ea|Ea].
  - apply nil_length_inv in Ea. subst a. apply cheapest_nil_l.
  - destruct (Nat.eqb_spec (length b) 0) as [Eb|Eb].
    + apply nil_length_inv in Eb. subst b. apply cheapest_nil_r.
    + cbv zeta.
      assert (Hs : Sized (length a) (length b) (replicate (length a + 1) (replicate (length b + 1) 0))).
      { split; [by rewrite length_replicate|]. apply Forall_replicate. by rewrite length_replicate. }
      destruct (first_column _ Hs (table_zero _ _)) as [Hs' Hc].
      pose proof (rows_filled _ (first_row _ Hs' Hc)) as [_ Hall].
      specialize (Hall (length a) (length b) (Nat.le_refl _) (Nat.le_refl _) ltac:(lia)).
      by rewrite !firstn_all in Hall.
Qed.

End Table.

(** The distance that decides which packs are suggested for an unknown name
    is the least number of insertions, deletions and substitutions of
    characters that turns one name into the other. *)
Theorem levenshtein_distance_correct a b :
  nsteps Edit (levenshtein_distance a b) (chars a) (chars b) /\
  forall n, nsteps Edit n (chars a) (chars b) -> levenshtein_distance a b <= n.
Proof. apply cheapest_steps, chars_distance_cheapest. Qed.

(** ** Validation *)

(** What a valid definition is, whatever the order of the checks. *)
Record ValidPack (pack : PackDefinition) : Prop := {
  vp_disclaimer : pd_kind pack = Compliance -> pd_disclaimer pack <> None;
  vp_name : is_valid_pack_name (pd_name pack) = true;
  vp_ids : NoDup (map ru_id (pd_rules pack));
  vp_rules : forall rule, rule ∈ pd_rules pack ->
    ru_id rule <> EmptyString /\
    (forall types, ru_event_types rule = Some types -> types <> [] /\ EmptyString ∉ types) /\
    check_invalid (ru_check rule) = None
}.

Lemma event_types_invalid_false types :
  event_types_invalid types = false <-> forall l, types = Some l -> l <> [] /\ EmptyString ∉ l.
Proof.
  destruct types as [l|]; cbn; [|by split; [intros _ l|]]. rewrite orb_false_iff, is_nil_false, existsb_false.
  split.
  - intros [Hl He] l' [= <-]. split; [done|]. intros Hin. by apply He in Hin.
  - intros Hl. destruct (Hl l eq_refl) as [Hne He]. split; [done|]. intros x Hx. apply str_is_empty_false.
    by intros ->.
Qed.

Lemma validate_rule_ok rule pack_name :
  validate_rule rule pack_name = Ok () <->
  ru_id rule <> EmptyString /\ event_types_invalid (ru_event_types rule) = false /\
  check_invalid (ru_check rule) = None.
Proof.
  unfold validate_rule, validate_check. destruct (str_is_empty (ru_id rule)) eqn:Ei.
  - apply str_is_empty_true in Ei. split; [done|]. intros (Hne & _). done.
  - apply str_is_empty_false in Ei. destruct (event_types_invalid _); [split; [done|by intros (_ & ? & _)]|].
    destruct (check_invalid _); split; try done. by intros (_ & _ & ?).
Qed.

Lemma validate_rules_ok pack_name seen rules :
  validate_rules_loop pack_name seen rules = Ok () <->
  NoDup (map ru_id rules) /\ (forall rule, rule ∈ rules -> ru_id rule ∉ seen) /\
  (forall rule, rule ∈ rules -> validate_rule rule pack_name = Ok ()).
Proof.
  revert seen. induction rules as [|rule rules IH]; intros seen; cbn.
  - split; [|done]. intros _. split_and!; [constructor|by intros r ?%elem_of_nil..].
  - destruct (bool_decide_reflect (ru_id rule ∈ seen)) as [Hin|Hin].
    + split; [done|]. intros (_ & Hs & _). by destruct (Hs rule (list_elem_of_here _ _)).
    + destruct (validate_rule rule pack_name) as [[]|e] eqn:Ev.
      * rewrite IH. rewrite NoDup_cons. split.
        -- intros (Hn & Hs & Hv). split_and!; [|done| |].
           ++ intros (r & Er & Hr)%list_elem_of_fmap. apply (Hs r Hr). set_solver.
           ++ intros r [->|Hr]%elem_of_cons; [done|]. specialize (Hs r Hr). set_solver.
           ++ intros r [->|Hr]%elem_of_cons; [done|auto].
        -- intros ([Hx Hn] & Hs & Hv). split_and!; [done| |by intros r Hr; apply Hv; right].
           intros r Hr [Er%elem_of_singleton|Hr']%elem_of_union.
           ++ apply Hx. rewrite <- Er. by apply list_elem_of_fmap_2.
           ++ by apply (Hs r); [right|].
      * split; [done|]. intros (_ & _ & Hv). rewrite (Hv rule (list_elem_of_here _ _)) in Ev. done.
Qed.

Lemma validate_pack_ok pack : validate_pack pack = Ok () <-> ValidPack pack.
Proof.
  unfold validate_pack.
  assert (Hloop : validate_rules_loop (pd_name pack) ∅ (pd_rules pack) = Ok () <->
    NoDup (map ru_id (pd_rules pack)) /\
    (forall rule, rule ∈ pd_rules pack -> validate_rule rule (pd_name pack) = Ok ())).
  { rewrite validate_rules_ok. split; [by intros (? & _ & ?)|]. intros [? ?]. by split_and!; [|set_solver|]. }
  destruct (bool_decide_reflect (pd_kind pack = Compliance)) as [Hk|Hk],
    (pd_disclaimer pack) as [d|] eqn:Ed; cbn [andb negb opt_is_some].
  2: { split; [done|]. intros Hv. by destruct (vp_disclaimer _ Hv Hk). }
  all: (destruct (is_valid_pack_name (pd_name pack)) eqn:En; cbn [negb];
    [|split; [done|intros Hv; by rewrite (vp_name _ Hv) in En]];
    rewrite Hloop; split;
    [intros [Hn Hr]; split; [by rewrite ?Ed|done|done|];
     intros rule Hin; specialize (Hr rule Hin); apply validate_rule_ok in Hr as (? & ? & ?);
     split_and!; [done|by apply event_types_invalid_false|done]
    |intros Hv; split; [apply Hv|];
     intros rule Hin; destruct (vp_rules _ Hv rule Hin) as (? & ? & ?);
     apply validate_rule_ok; split_and!; [done|by apply event_types_invalid_false|done]]).
Qed.

(** ** Loading *)

Section Loading.
Context `{Platform} `{PackSerde} {S : Type} `{!Disk S} `{!PackDirs S}.

(** A pack read from a text. *)
Record LoadedFrom (content : string) (pack : LoadedPack) : Prop := {
  lf_parsed : pack_from_yaml content = Ok (ld_definition pack);
  lf_valid : ValidPack (ld_definition pack);
  lf_version : check_version_compatibility (ld_definition pack) = Ok ();
  lf_digest : exists canonical, jcs_to_string (pack_value (ld_definition pack)) = Some canonical /\
    ld_digest pack = "sha256:" +:+ sha256_hex canonical
}.

Lemma load_from_string_inv content source pack :
  load_pack_from_string content source = Ok pack -> LoadedFrom content pack /\ ld_source pack = source.
Proof.
  unfold load_pack_from_string. destruct (pack_from_yaml content) as [d|] eqn:Ey; [|done].
  destruct (validate_pack d) as [[]|] eqn:Ev; [|done].
  destruct (check_version_compatibility d) as [[]|] eqn:Ec; [|done].
  destruct (compute_pack_digest d) as [digest|] eqn:Ed; [|done]. intros [= <-]. split; [|done].
  split; cbn; [done|by apply validate_pack_ok|done|]. unfold compute_pack_digest in Ed.
  destruct (jcs_to_string (pack_value d)) as [canonical|] eqn:Ej; [|done]. injection Ed as <-. by exists canonical.
Qed.

(** Some moment of the run at which a file had this content. *)
Definition WasRead (path content : string) : Prop :=
  exists s s' : S, read_to_string path s = (Done (Ok content), s').

Lemma load_from_file_inv path s pack s' :
  load_pack_from_file path s = (Done (Ok pack), s') ->
  exists content, WasRead path content /\ LoadedFrom content pack /\ ld_source pack = FromFile path.
Proof.
  unfold load_pack_from_file. intros (r & s1 & Hr & Hl)%bind_inv. injection Hl as Hl <-.
  destruct r as [content|]; [|done]. apply load_from_string_inv in Hl as [Hl Hs]. exists content.
  split_and!; [by exists s, s1|done|done].
Qed.

(** Where a pack may come from. *)
Inductive Origin (reference : string) (pack : LoadedPack) : Prop :=
| from_path path content :
    path = reference \/ path = path_join reference "pack.yaml" ->
    WasRead path content -> LoadedFrom content pack -> ld_source pack = FromFile path -> Origin reference pack
| from_crate :
    reference ∈ BUILTIN_PACKS -> LoadedFrom (builtin_content reference) pack ->
    ld_source pack = BuiltIn reference -> Origin reference pack
| from_config config_dir root path content :
    is_valid_pack_name reference = true -> reference ∉ BUILTIN_PACKS ->
    (exists s s' : S, canonicalize config_dir s = (Done (Ok root), s')) ->
    (exists candidate (s s' : S), canonicalize candidate s = (Done (Ok path), s')) ->
    path_starts_with path root = true ->
    WasRead path content -> LoadedFrom content pack -> ld_source pack = FromFile path -> Origin reference pack.

Lemma candidates_inv config_dir root candidates s pack s' :
  try_candidates config_dir root candidates s = (Done (Ok (Some pack)), s') ->
  exists path content, (exists candidate (s s' : S), canonicalize candidate s = (Done (Ok path), s')) /\
    path_starts_with path root = true /\ WasRead path content /\ LoadedFrom content pack /\
    ld_source pack = FromFile path.
Proof.
  revert s. induction candidates as [|c candidates IH]; intros s; cbn [try_candidates]; [done|].
  intros (found & s1 & _ & Ht)%bind_inv. destruct found; cbn [negb] in Ht; [|by eapply IH].
  apply try_bind_inv in Ht as (p & s2 & Hl & Hp). injection Hp as -> ->.
  unfold load_contained in Hl. apply bind_inv in Hl as (r & s3 & Hc & Hl). destruct r as [path|]; [|done].
  destruct (path_starts_with path root) eqn:Es; cbn [negb] in Hl; [|done].
  apply load_from_file_inv in Hl as (content & Hw & Hl & Hsrc). exists path, content.
  split_and!; [by exists c, s1, s3|done..].
Qed.

Lemma builtin_find reference :
  get_builtin_pack_with_name reference =
    if bool_decide (reference ∈ BUILTIN_PACKS) then Some (reference, builtin_content reference) else None.
Proof.
  unfold get_builtin_pack_with_name. destruct (find _ BUILTIN_PACKS) as [n|] eqn:Ef; cbn.
  - apply find_some in Ef as [Hin En%String.eqb_eq]. subst n. apply list_elem_of_In in Hin.
    by rewrite bool_decide_eq_true_2.
  - rewrite bool_decide_eq_false_2; [done|]. intros Hin%list_elem_of_In.
    apply (find_none _ _ Ef) in Hin. by rewrite String.eqb_refl in Hin.
Qed.

(** A pack that loads was read, whole, from where its reference points: the
    file or directory of that path, the pack of that name that the crate
    embeds, or, for a valid name that is neither, a file whose canonical path
    lies inside the canonical configuration directory.  Its definition is valid
    (a compliance pack has a disclaimer, names and rule ids are well formed and
    unique, every check is complete), this version is new enough for it, and
    its digest is the hash of its canonical form. *)
Theorem load_pack_sound reference s pack s' :
  load_pack reference s = (Done (Ok pack), s') -> Origin reference pack.
Proof.
  unfold load_pack. intros (found & s1 & _ & Hl)%bind_inv. destruct found; cbn [negb] in Hl.
  - unfold load_pack_path in Hl. apply bind_inv in Hl as (dir & s2 & _ & Hl).
    destruct dir; cbn [negb] in Hl; [apply bind_inv in Hl as (has & s3 & _ & Hl); destruct has; cbn [negb] in Hl; [|done]|].
    all: apply load_from_file_inv in Hl as (content & Hw & Hl & Hs); eapply from_path; [|done..].
    + by right.
    + by left.
  - unfold load_by_name in Hl. rewrite builtin_find in Hl.
    destruct (bool_decide_reflect (reference ∈ BUILTIN_PACKS)) as [Hin|Hin].
    + injection Hl as Hl _. apply load_from_string_inv in Hl as [Hl Hs]. by apply from_crate.
    + destruct (is_valid_pack_name reference) eqn:En; [|done].
      apply try_bind_inv in Hl as (r & s2 & Ht & Hl). destruct r as [p|]; [|done]. injection Hl as -> _.
      unfold try_load_from_config_dir in Ht. apply bind_inv in Ht as (dir & s3 & _ & Ht).
      destruct dir as [config_dir|]; [|done]. apply bind_inv in Ht as (has & s4 & _ & Ht).
      destruct has; cbn [negb] in Ht; [|done]. apply bind_inv in Ht as (c & s5 & Hc & Ht).
      destruct c as [root|]; [|done].
      apply candidates_inv in Ht as (path & content & Hcan & Hst & Hw & Hl & Hsrc).
      eapply from_config; eauto.
Qed.

(** An unknown name is reported with the packs that it may have meant. *)
Lemma similar_packs_suggested reference name :
  name ∈ BUILTIN_PACKS -> levenshtein_distance name reference <= 3 ->
  exists names, suggest_similar_pack reference = "Did you mean '" +:+ str_join "' or '" names +:+ "'?" /\ name ∈ names.
Proof.
  intros Hin Hd. unfold suggest_similar_pack. cbv zeta.
  set (names := List.filter _ BUILTIN_PACKS). assert (Hn : name ∈ names).
  { apply list_elem_of_In, filter_In. split; [by apply list_elem_of_In|].
    rewrite (proj2 (Nat.leb_le _ _) Hd). by rewrite orb_true_r. }
  destruct names as [|n names]; [by apply elem_of_nil in Hn|]. by exists (n :: names).
Qed.

End Loading.
