(* ===== verification/LintChecks.v ===== *)
(** * Checks of rule packs

    [assay-evidence/src/lint/packs/checks.rs], [checks_next/] and
    [executor.rs], with the findings of [lint/mod.rs] and the predicates of
    [g3_authorization_context.rs]: what each kind of check asks of the events
    and the manifest of a bundle, and how the rules of several packs are run.
    Globs are the class [GlobSet]. *)
From stdpp Require Import base tactics list strings gmap pretty.
From Stdlib Require Import Ascii ZArith Lia.
From S2P Require Import Prelude RustStr Json Platform HandlerChecks Bundle JsonDoc SerdeJson LintPacks.

(** ** Third-party code *)

(** [globset], and the serde form of a date. *)
Class GlobSet : Type := {
  GlobMatcher : Type;
  compile_glob : string -> option GlobMatcher;
  is_match : GlobMatcher -> string -> bool;
  event_time_json : Z -> string
}.

(** ** lint/mod.rs: findings *)

Record EventLocation : Type := mkEventLocation {
  el_seq : Z;
  el_line : Z;
  el_event_type : option string
}.

Record LintFinding : Type := mkLintFinding {
  fi_rule_id : string;
  fi_severity : Severity;
  fi_message : string;
  fi_location : option EventLocation;
  fi_fingerprint : string;
  fi_help_uri : option string;
  fi_tags : list string
}.

Definition location_key (location : option EventLocation) : string :=
  match location with
  | Some loc => fmt_int (el_seq loc) +:+ ":" +:+ fmt_int (el_line loc)
  | None => "global"
  end.

Definition lint_finding_new `{Platform} (rule_id : string) (severity : Severity) (message : string)
    (location : option EventLocation) (tags : list string) : LintFinding :=
  mkLintFinding rule_id severity message location
    ("sha256:" +:+ sha256_hex (rule_id +:+ ":" +:+ location_key location)) None tags.

Definition with_help_uri (f : LintFinding) (uri : string) : LintFinding :=
  mkLintFinding (fi_rule_id f) (fi_severity f) (fi_message f) (fi_location f) (fi_fingerprint f) (Some uri)
    (fi_tags f).

(** ** g3_authorization_context.rs *)

Definition G3_MAX_AUTH_ISSUER_BYTES : Z := 2048.

Definition g3_is_b64url (part : string) : bool :=
  str_forall (fun c => is_ascii_alphanumeric c || Ascii.eqb c "-" || Ascii.eqb c "_") part.

Definition g3_looks_like_jws_compact (s : string) : bool :=
  match str_split "." s with
  | [h; p; sig] =>
      if (str_len h <? 4)%Z || (str_len p <? 4)%Z || (str_len sig <? 4)%Z then false
      else if negb (starts_with h "eyJ") then false
      else g3_is_b64url h && g3_is_b64url p && g3_is_b64url sig
  | _ => false
  end.

Definition g3_has_bearer_credential_prefix (s : string) : bool :=
  let b := str_trim s in
  (7 <=? str_len b)%Z && eq_ignore_ascii_case (str_take 7 b) "bearer ".

Definition g3_principal_field_satisfies_v1 (p : string) : bool :=
  let t := str_trim p in
  if str_is_empty t then false
  else negb (g3_has_bearer_credential_prefix t) && negb (g3_looks_like_jws_compact t).

Definition g3_auth_issuer_field_satisfies_v1 (iss : string) : bool :=
  let t := str_trim iss in
  if str_is_empty t || (G3_MAX_AUTH_ISSUER_BYTES <? str_len t)%Z then false
  else negb (g3_has_bearer_credential_prefix t) && negb (g3_looks_like_jws_compact t).

Definition decision_event_satisfies_g3 (event : EvidenceEvent) : bool :=
  if negb (String.eqb (ev_type event) "assay.tool.decision") then false
  else match vget (ev_payload event) "principal" ≫= as_str with
       | None => false
       | Some p =>
           if negb (g3_principal_field_satisfies_v1 p) then false
           else match str_trim <$> (vget (ev_payload event) "auth_scheme" ≫= as_str) with
                | None => false
                | Some scheme =>
                    let scheme := to_ascii_lowercase scheme in
                    if negb (String.eqb scheme "oauth2") && negb (String.eqb scheme "jwt_bearer") then false
                    else match vget (ev_payload event) "auth_issuer" ≫= as_str with
                         | None => false
                         | Some iss => g3_auth_issuer_field_satisfies_v1 iss
                         end
                end
       end.

Definition bundle_satisfies_g3 (events : list EvidenceEvent) : bool :=
  existsb decision_event_satisfies_g3 events.

(** ** types.rs and manifest.rs: the serde forms *)

Definition opt_member (k : string) (o : option string) : list (string * Value) :=
  match o with Some s => [(k, Str s)] | None => [] end.

Section Checks.
Context `{Platform} `{GlobSet} `{PackSerde}.

Definition event_value (e : EvidenceEvent) : Value :=
  Obj ([("specversion", Str (ev_specversion e)); ("type", Str (ev_type e)); ("source", Str (ev_source e));
        ("id", Str (ev_id e)); ("time", Str (event_time_json (ev_time e)));
        ("datacontenttype", Str (ev_data_content_type e))]
       ++ opt_member "subject" (ev_subject e) ++ opt_member "traceparent" (ev_trace_parent e)
       ++ opt_member "tracestate" (ev_trace_state e)
       ++ [("assayrunid", Str (ev_run_id e)); ("assayseq", Num (PosInt (ev_seq e)));
           ("assayproducer", Str (ev_producer e)); ("assayproducerversion", Str (ev_producer_version e));
           ("assaygit", Str (ev_git_sha e))]
       ++ opt_member "assaypolicyid" (ev_policy_id e)
       ++ [("assaypii", VBool (ev_contains_pii e)); ("assaysecrets", VBool (ev_contains_secrets e));
           ("assaycontenthash", opt_value Str (ev_content_hash e))]
       ++ opt_member "assaysemanticdigest" (ev_semantic_digest e)
       ++ opt_member "assaydigestprofile" (ev_digest_profile e)
       ++ [("data", ev_payload e)]).

Definition file_value (f : FileMeta) : Value :=
  Obj [("path", Str (fm_path f)); ("sha256", Str (fm_sha256 f)); ("bytes", Num (PosInt (fm_bytes f)))].

(** The files in the order of their names. *)
Definition files_value (files : gmap string FileMeta) : Value :=
  Obj (map (fun k => (k, match files !! k with Some f => file_value f | None => Null end))
         (str_sort (map fst (map_to_list files)))).

Definition manifest_value (m : Manifest) : Value :=
  Obj [("schema_version", Num (PosInt (mf_schema_version m))); ("bundle_id", Str (mf_bundle_id m));
       ("producer", Obj ([("name", Str (pm_name (mf_producer m))); ("version", Str (pm_version (mf_producer m)))]
                         ++ opt_member "git" (pm_git (mf_producer m))));
       ("run_id", Str (mf_run_id m)); ("event_count", Num (PosInt (mf_event_count m)));
       ("run_root", Str (mf_run_root m));
       ("algorithms", Obj [("canon", Str (am_canon (mf_algorithms m))); ("hash", Str (am_hash (mf_algorithms m)));
                           ("root", Str (am_root (mf_algorithms m)))]);
       ("files", files_value (mf_files m))].

(** ** checks_next/json_path.rs *)

Definition value_pointer (value : Value) (p : string) : option Value :=
  if str_is_empty p || String.eqb p "/" then Some value
  else pointer value (if starts_with p "/" then p else "/" +:+ p).

(** ** checks.rs: data *)

Record CheckContext : Type := mkCheckContext {
  cx_events : list EvidenceEvent;
  cx_manifest : Manifest;
  cx_bundle_path : string;
  cx_pack_name : string;
  cx_pack_version : string;
  cx_pack_digest : string;
  cx_pack_kind : PackKind
}.

Record CheckResult : Type := mkCheckResult { ck_passed : bool; ck_finding : option LintFinding }.
Definition pass : CheckResult := mkCheckResult true None.

Definition ENGINE_VERSION : string := "1.2".

(** ** checks_next/finding.rs *)

Definition pack_tags (ctx : CheckContext) (rule : PackRule) (primary_hash : string) : list string :=
  [cx_pack_name ctx; "pack:" +:+ cx_pack_name ctx; "pack_version:" +:+ cx_pack_version ctx;
   "short_id:" +:+ ru_id rule]
  ++ match ru_article_ref rule with Some r => ["article_ref:" +:+ r] | None => [] end
  ++ ["primaryLocationLineHash:" +:+ primary_hash].

Definition create_finding_with_severity (rule : PackRule) (ctx : CheckContext) (message : string)
    (location : option EventLocation) (severity : Severity) : LintFinding :=
  let canonical := canonical_id (cx_pack_name ctx) (cx_pack_version ctx) (ru_id rule) in
  let fingerprint :=
    "sha256:" +:+ sha256_hex (canonical +:+ ":" +:+ location_key location +:+ ":" +:+ cx_pack_digest ctx) in
  let start_line := match location with Some l => el_line l | None => 1%Z end in
  let artifact_uri := match location with Some _ => "events.ndjson" | None => cx_bundle_path ctx end in
  let primary_hash :=
    sha256_hex (canonical +:+ ":" +:+ artifact_uri +:+ ":" +:+ fmt_int start_line +:+ ":" +:+ cx_pack_digest ctx) in
  mkLintFinding canonical severity message location fingerprint None (pack_tags ctx rule primary_hash).

Definition create_finding (rule : PackRule) (ctx : CheckContext) (message : string)
    (location : option EventLocation) : LintFinding :=
  create_finding_with_severity rule ctx message location (ru_severity rule).

Definition failed (rule : PackRule) (ctx : CheckContext) (message : string) : CheckResult :=
  mkCheckResult false (Some (create_finding rule ctx message None)).

(** [usize] has 64 bits. *)
Definition event_location (event : EvidenceEvent) : EventLocation :=
  mkEventLocation (ev_seq event) ((ev_seq event + 1) mod 2 ^ 64) (Some (ev_type event)).

(** ** checks_next/event.rs *)

Definition scoped_events (rule : PackRule) (ctx : CheckContext) : list EvidenceEvent :=
  match ru_event_types rule with
  | Some event_types =>
      if negb (is_nil event_types) then
        List.filter (fun event => existsb (fun expected => String.eqb expected (ev_type event)) event_types)
          (cx_events ctx)
      else cx_events ctx
  | None => cx_events ctx
  end.

Definition check_g3_authorization_context_present (rule : PackRule) (ctx : CheckContext) : CheckResult :=
  if existsb decision_event_satisfies_g3 (scoped_events rule ctx) then pass
  else failed rule ctx "No assay.tool.decision event satisfies G3 v1 policy-projected authorization context (principal + allowlisted auth_scheme + auth_issuer with G3 string discipline).".

Definition scoped_event_count_message (rule : PackRule) (count min : Z) : string :=
  let bundle := "Bundle contains " +:+ fmt_int count +:+ " events (minimum: " +:+ fmt_int min +:+ ")" in
  match ru_event_types rule with
  | Some event_types =>
      if negb (is_nil event_types) then
        "Scoped events for event_types [" +:+ str_join ", " event_types +:+ "] contain " +:+ fmt_int count
          +:+ " events (minimum: " +:+ fmt_int min +:+ ")"
      else bundle
  | None => bundle
  end.

Definition check_event_count (rule : PackRule) (ctx : CheckContext) (min : Z) : CheckResult :=
  let count := Z.of_nat (length (scoped_events rule ctx)) in
  if (min <=? count)%Z then pass else failed rule ctx (scoped_event_count_message rule count min).

Definition check_event_pairs (rule : PackRule) (ctx : CheckContext) (start_pattern finish_pattern : string)
    : CheckResult :=
  match compile_glob start_pattern with
  | None => failed rule ctx ("Invalid start pattern: " +:+ start_pattern)
  | Some start_matcher =>
  match compile_glob finish_pattern with
  | None => failed rule ctx ("Invalid finish pattern: " +:+ finish_pattern)
  | Some finish_matcher =>
      let has_start := existsb (fun e => is_match start_matcher (ev_type e)) (scoped_events rule ctx) in
      let has_finish := existsb (fun e => is_match finish_matcher (ev_type e)) (scoped_events rule ctx) in
      match has_start, has_finish with
      | true, true => pass
      | false, false =>
          failed rule ctx ("Missing both start (" +:+ start_pattern +:+ ") and finish (" +:+ finish_pattern
                           +:+ ") events")
      | false, true => failed rule ctx ("Missing start event matching '" +:+ start_pattern +:+ "'")
      | true, false => failed rule ctx ("Missing finish event matching '" +:+ finish_pattern +:+ "'")
      end
  end end.

Definition check_event_field_present (rule : PackRule) (ctx : CheckContext) (paths : list string) : CheckResult :=
  if existsb (fun event => existsb (fun path => opt_is_some (value_pointer (event_value event) path)) paths)
       (scoped_events rule ctx)
  then pass
  else failed rule ctx ("No event contains any of the required fields: " +:+ str_join ", " paths).

Definition check_event_type_exists (rule : PackRule) (ctx : CheckContext) (pattern : string) : CheckResult :=
  match compile_glob pattern with
  | None => failed rule ctx ("Invalid pattern: " +:+ pattern)
  | Some matcher =>
      if existsb (fun e => is_match matcher (ev_type e)) (scoped_events rule ctx) then pass
      else failed rule ctx ("No event found matching type pattern '" +:+ pattern +:+ "'")
  end.

Definition path_satisfied (json : Value) (value_equals : option Value) (path : string) : bool :=
  match value_pointer json path, value_equals with
  | Some v, Some required => value_eqb v required
  | Some _, None => true
  | None, _ => false
  end.

Definition check_json_path_exists (rule : PackRule) (ctx : CheckContext) (paths : list string)
    (value_equals : option Value) : CheckResult :=
  if existsb (fun event => existsb (path_satisfied (event_value event) value_equals) paths) (scoped_events rule ctx)
  then pass
  else failed rule ctx
    match value_equals with
    | Some req => "No event has path " +:+ str_join ", " paths +:+ " equal to " +:+ json_to_string req
    | None => "No event contains paths: " +:+ str_join ", " paths
    end.

(** ** checks_next/manifest.rs *)

Definition check_manifest_field (rule : PackRule) (ctx : CheckContext) (path : string) (required : bool)
    : CheckResult :=
  if opt_is_some (value_pointer (manifest_value (cx_manifest ctx)) path) then pass
  else
    mkCheckResult (negb required)
      (Some (create_finding_with_severity rule ctx ("Manifest missing field: " +:+ path) None
               (if required then ru_severity rule else SevWarn))).

(** ** checks_next/conditional.rs *)

Definition clauses_hold (clauses : list SupportedConditionalClause) (json : Value) : bool :=
  forallb (fun clause => match value_pointer json (cl_path clause) with
                         | Some v => value_eqb v (cl_equals clause)
                         | None => false
                         end) clauses.

Record ConditionalScan : Type := mkScan {
  cs_matched : Z;
  cs_missing : Z;
  cs_first_missing : option EvidenceEvent
}.

Definition conditional_step (conditional : SupportedConditionalCheck) (s : ConditionalScan) (event : EvidenceEvent)
    : ConditionalScan :=
  let json := event_value event in
  if negb (clauses_hold (sc_clauses conditional) json) then s
  else if opt_is_some (value_pointer json (sc_required_path conditional)) then
    mkScan (cs_matched s + 1) (cs_missing s) (cs_first_missing s)
  else
    mkScan (cs_matched s + 1) (cs_missing s + 1)
      (match cs_first_missing s with None => Some event | Some e => Some e end).

Definition check_conditional (rule : PackRule) (ctx : CheckContext) (conditional : SupportedConditionalCheck)
    : CheckResult :=
  let s := foldl (conditional_step conditional) (mkScan 0 0 None) (scoped_events rule ctx) in
  if (cs_matched s =? 0)%Z || (cs_missing s =? 0)%Z then pass
  else
    let matched_label := if (cs_matched s =? 1)%Z then "event" else "events" in
    let missing_label := if (cs_missing s =? 1)%Z then "matching event was" else "matching events were" in
    mkCheckResult false
      (Some (create_finding rule ctx
               (fmt_int (cs_matched s) +:+ " " +:+ matched_label +:+ " matched the condition, but "
                +:+ fmt_int (cs_missing s) +:+ " " +:+ missing_label +:+ " missing required path: "
                +:+ sc_required_path conditional)
               (event_location <$> cs_first_missing s))).

(** ** checks.rs *)

Definition parse_engine_version (v : string) : option (Z * Z) :=
  match str_split "." v with
  | major :: minor :: _ => major ← parse_u32 major; minor ← parse_u32 minor; Some (major, minor)
  | _ => None
  end.

Definition engine_version_satisfies (current required : string) : bool :=
  match parse_engine_version current, parse_engine_version required with
  | Some (c_major, c_minor), Some (r_major, r_minor) =>
      (r_major <? c_major)%Z || ((r_major =? c_major)%Z && (r_minor <=? c_minor)%Z)
  | _, _ => false
  end.

Definition handle_unsupported_check (rule : PackRule) (ctx : CheckContext) (reason : string) : CheckResult :=
  if bool_decide (cx_pack_kind ctx = Compliance) then
    failed rule ctx ("Cannot execute rule: " +:+ reason
                     +:+ ". Compliance packs require all rules to be executable.")
  else pass.

Definition execute_supported (rule : PackRule) (ctx : CheckContext) : CheckResult :=
  match ru_check rule with
  | EventCount min => check_event_count rule ctx min
  | EventPairs start_pattern finish_pattern => check_event_pairs rule ctx start_pattern finish_pattern
  | EventFieldPresent _ _ _ => check_event_field_present rule ctx (get_field_paths (ru_check rule))
  | EventTypeExists pattern => check_event_type_exists rule ctx pattern
  | ManifestField path required => check_manifest_field rule ctx path required
  | JsonPathExists paths value_equals => check_json_path_exists rule ctx paths value_equals
  | G3AuthorizationContextPresent => check_g3_authorization_context_present rule ctx
  | Conditional _ _ =>
      match supported_conditional (ru_check rule) with
      | Ok conditional => check_conditional rule ctx conditional
      | Err reason =>
          handle_unsupported_check rule ctx ("Unsupported conditional shape for engine v1.1: " +:+ reason)
      end
  | Unsupported =>
      handle_unsupported_check rule ctx ("Unknown check type '" +:+ type_name (ru_check rule) +:+ "'")
  end.

Definition execute_check (rule : PackRule) (ctx : CheckContext) : CheckResult :=
  match ru_engine_min_version rule with
  | Some required_version =>
      if negb (engine_version_satisfies ENGINE_VERSION required_version) then
        handle_unsupported_check rule ctx
          ("Rule requires engine v" +:+ required_version +:+ ", current is v" +:+ ENGINE_VERSION)
      else execute_supported rule ctx
  | None => execute_supported rule ctx
  end.

(** ** executor.rs *)

Record PackExecutor : Type := mkPackExecutor { ex_packs : list LoadedPack; ex_rule_ids : gset string }.

(** The rules of the packs in order, each with its pack. *)
Definition pack_rules (packs : list LoadedPack) : list (LoadedPack * PackRule) :=
  packs ≫= fun pack => map (pair pack) (pd_rules (ld_definition pack)).

Fixpoint collisions_loop (rules : list (LoadedPack * PackRule)) (canonical_to_pack : gmap string (string * PackKind))
    : Result (gmap string (string * PackKind)) PackError :=
  match rules with
  | [] => Ok canonical_to_pack
  | (pack, rule) :: rules =>
      let id := canonical_rule_id pack (ru_id rule) in
      let definition := ld_definition pack in
      let entry := (pd_name definition, pd_kind definition) in
      match canonical_to_pack !! id with
      | Some (existing_pack, existing_kind) =>
          if bool_decide (pd_kind definition = Compliance \/ existing_kind = Compliance) then
            Err (ComplianceCollision id existing_pack (pd_name definition))
          else collisions_loop rules (<[id := entry]> canonical_to_pack)
      | None => collisions_loop rules (<[id := entry]> canonical_to_pack)
      end
  end.

Definition executor_new (packs : list LoadedPack) : Result PackExecutor PackError :=
  match collisions_loop (pack_rules packs) ∅ with
  | Err e => Err e
  | Ok canonical_to_pack => Ok (mkPackExecutor packs (dom canonical_to_pack))
  end.

Definition rule_count (executor : PackExecutor) : nat := size (ex_rule_ids executor).

Definition is_compliance (pack : LoadedPack) : bool := bool_decide (pd_kind (ld_definition pack) = Compliance).

Definition has_compliance_pack (executor : PackExecutor) : bool := existsb is_compliance (ex_packs executor).

Definition blank_lines : string := String "010" (String "010" EmptyString).

Definition combined_disclaimer (executor : PackExecutor) : option string :=
  let disclaimers :=
    omap (fun pack => pd_disclaimer (ld_definition pack)) (List.filter is_compliance (ex_packs executor)) in
  if is_nil disclaimers then None else Some (str_join (blank_lines +:+ "---" +:+ blank_lines) disclaimers).

Definition pack_context (pack : LoadedPack) (events : list EvidenceEvent) (manifest : Manifest) (bundle_path : string)
    : CheckContext :=
  let definition := ld_definition pack in
  mkCheckContext events manifest bundle_path (pd_name definition) (pd_version definition) (ld_digest pack)
    (pd_kind definition).

(** Rules whose id was seen are not run again. *)
Fixpoint execute_loop (events : list EvidenceEvent) (manifest : Manifest) (bundle_path : string)
    (seen_canonical_ids : gset string) (rules : list (LoadedPack * PackRule)) : list LintFinding :=
  match rules with
  | [] => []
  | (pack, rule) :: rules =>
      let id := canonical_rule_id pack (ru_id rule) in
      if bool_decide (id ∈ seen_canonical_ids) then execute_loop events manifest bundle_path seen_canonical_ids rules
      else
        let result := execute_check rule (pack_context pack events manifest bundle_path) in
        let rest := execute_loop events manifest bundle_path ({[id]} ∪ seen_canonical_ids) rules in
        match ck_finding result with Some finding => finding :: rest | None => rest end
  end.

Definition execute (executor : PackExecutor) (events : list EvidenceEvent) (manifest : Manifest) (bundle_path : string)
    : list LintFinding :=
  execute_loop events manifest bundle_path ∅ (pack_rules (ex_packs executor)).

(** The highest severities first; a stable sort. *)
Definition severity_le (a b : LintFinding) : Prop := (priority (fi_severity b) <= priority (fi_severity a))%Z.
#[global] Instance severity_le_dec a b : Decision (severity_le a b).
Proof. unfold severity_le. apply _. Defined.

Fixpoint insert_by_severity (f : LintFinding) (l : list LintFinding) : list LintFinding :=
  match l with
  | [] => [f]
  | g :: r => if decide (severity_le f g) then f :: g :: r else g :: insert_by_severity f r
  end.
Definition sort_by_severity (l : list LintFinding) : list LintFinding := foldr insert_by_severity [] l.

Definition truncate_findings (findings : list LintFinding) (max_results : Z) : list LintFinding * bool * Z :=
  let n := Z.of_nat (length findings) in
  if (n <=? max_results)%Z then (findings, false, 0%Z)
  else (take (Z.to_nat max_results) (sort_by_severity findings), true, (n - max_results)%Z).

Definition execute_with_limit (executor : PackExecutor) (events : list EvidenceEvent) (manifest : Manifest)
    (bundle_path : string) (max_results : Z) : list LintFinding * bool * Z :=
  let '(findings, truncated, count) := truncate_findings (execute executor events manifest bundle_path) max_results in
  (if (truncated : bool) then sort_by_severity findings else findings, truncated, count).

(** *** Metadata *)

Record PackInfo : Type := mkPackInfo {
  pi_name : string;
  pi_version : string;
  pi_digest : string;
  pi_source_url : option string;
  pi_kind : PackKind
}.

Definition pack_info (pack : LoadedPack) : PackInfo :=
  let d := ld_definition pack in mkPackInfo (pd_name d) (pd_version d) (ld_digest pack) (pd_source_url d) (pd_kind d).

Record PackRuleMetadata : Type := mkPackRuleMetadata {
  rmd_description : string;
  rmd_full_description : string;
  rmd_help_markdown : string;
  rmd_help_uri : option string;
  rmd_article_ref : option string
}.

Record PackExecutionMeta : Type := mkPackExecutionMeta {
  me_packs : list PackInfo;
  me_disclaimer : option string;
  me_truncated : bool;
  me_truncated_count : Z;
  me_rule_metadata : gmap string PackRuleMetadata;
  me_anchor_file : option string;
  me_bundle_path : option string;
  me_bundle_id : option string
}.

Definition generate_help_markdown (rule_id description : string) (article_ref disclaimer : option string) : string :=
  "## " +:+ rule_id +:+ blank_lines +:+ description +:+ blank_lines
  +:+ match article_ref with
      | Some article => "**Article Reference:** " +:+ article +:+ blank_lines
      | None => EmptyString
      end
  +:+ match disclaimer with
      | Some disc => "**Disclaimer:**" +:+ String "010" disc
      | None => EmptyString
      end.

Definition rule_metadata (pack : LoadedPack) (rule : PackRule) : PackRuleMetadata :=
  mkPackRuleMetadata (ru_description rule) (ru_description rule)
    (match ru_help_markdown rule with
     | Some markdown => markdown
     | None => generate_help_markdown (ru_id rule) (ru_description rule) (ru_article_ref rule)
                 (pd_disclaimer (ld_definition pack))
     end)
    (pd_source_url (ld_definition pack)) (ru_article_ref rule).

Definition select_anchor_file (packs : list LoadedPack) : option string :=
  (fun pack => "packs/" +:+ pd_name (ld_definition pack) +:+ ".yaml") <$> head packs.

(** A later rule of the same id replaces the metadata of an earlier one. *)
Definition build_meta (executor : PackExecutor) (bundle_path bundle_id : option string) (truncated : bool)
    (truncated_count : Z) : PackExecutionMeta :=
  mkPackExecutionMeta (map pack_info (ex_packs executor)) (combined_disclaimer executor) truncated truncated_count
    (foldl (fun acc e => <[canonical_rule_id (fst e) (ru_id (snd e)) := rule_metadata (fst e) (snd e)]> acc) ∅
       (pack_rules (ex_packs executor)))
    (select_anchor_file (ex_packs executor)) bundle_path bundle_id.

End Checks.
