(* ===== verification/Lint.v ===== *)
(** * Linting bundles

    [assay-evidence/src/lint/rules.rs] and [engine.rs]: the built-in rules over
    the events of a bundle, with the index of enforcement decisions that one of
    them consults, and the run of built-in and pack rules over a bundle that
    verifies, with the ceiling on results and what is disclosed about it. *)
From stdpp Require Import base tactics list strings gmap pretty.
From Stdlib Require Import Ascii ZArith Lia.
From S2P Require Import Prelude RustStr Json Platform BoundedIo Bundle BundleReader JsonDoc SerdeJson LintPacks LintChecks.

(** ** mod.rs: reports *)

Record LintSummary : Type := mkLintSummary {
  ls_total : Z;
  ls_errors : Z;
  ls_warnings : Z;
  ls_infos : Z
}.

Record LintReport : Type := mkLintReport {
  lr_tool_version : string;
  lr_bundle_meta : Manifest;
  lr_verified : bool;
  lr_findings : list LintFinding;
  lr_summary : LintSummary;
  lr_truncated : bool;
  lr_truncated_count : Z;
  lr_applied_cap : Z
}.

Definition has_severity (s : Severity) (f : LintFinding) : bool := bool_decide (fi_severity f = s).

Definition has_findings_at_or_above (report : LintReport) (threshold : Severity) : bool :=
  existsb (fun f => match threshold with
                    | SevError => has_severity SevError f
                    | SevWarn => has_severity SevError f || has_severity SevWarn f
                    | SevInfo => true
                    end) (lr_findings report).

(** ** rules.rs *)

(** The key of an enforcement decision: tool name and target digest. *)
Definition EnforcementDecisionKey : Type := string * string.

(** The decisions of each key, in the order of the events. *)
Definition LintBundleIndex : Type := gmap EnforcementDecisionKey (list string).

Record LintContext : Type := mkLintContext {
  lc_line_number : Z;
  lc_seq : Z;
  lc_bundle_index : LintBundleIndex
}.

Definition non_empty (value : string) : option string := if str_is_empty value then None else Some value.

Definition payload_schema (event : EvidenceEvent) : option string := vget (ev_payload event) "schema" ≫= as_str.
Definition pointer_text (event : EvidenceEvent) (p : string) : option string :=
  (pointer (ev_payload event) p ≫= as_str) ≫= non_empty.

Definition extract_enforcement_decision (event : EvidenceEvent) : option (EnforcementDecisionKey * string) :=
  if negb (bool_decide (payload_schema event = Some "assay.enforcement_decision.v0")) then None
  else
    tool_name ← pointer_text event "/tool/name";
    target_digest ← pointer_text event "/action/target_digest";
    decision ← (vget (ev_payload event) "decision" ≫= as_str) ≫= non_empty;
    Some ((tool_name, target_digest), decision).

Definition enforcement_decisions_for (index : LintBundleIndex) (key : EnforcementDecisionKey) : list string :=
  default [] (index !! key).

Definition index_event (index : LintBundleIndex) (event : EvidenceEvent) : LintBundleIndex :=
  match extract_enforcement_decision event with
  | Some (key, decision) => <[key := enforcement_decisions_for index key ++ [decision]]> index
  | None => index
  end.

Definition index_from_events (events : list EvidenceEvent) : LintBundleIndex := foldl index_event ∅ events.

Definition DENIED_CALL_OBSERVATION_SCHEMA : string := "assay.denied_call_observation.v0".
Definition PROXY_DENIED_CODE : Z := -32042.
Definition PROXY_ORIGIN : string := "assay-proxy".

Definition extract_proxy_refusal_marker (event : EvidenceEvent) : option EnforcementDecisionKey :=
  if negb (bool_decide (payload_schema event = Some DENIED_CALL_OBSERVATION_SCHEMA)) then None
  else
    code ← pointer (ev_payload event) "/caller_visible_error/code" ≫= as_i64;
    if negb (code =? PROXY_DENIED_CODE)%Z then None
    else
      origin ← pointer (ev_payload event) "/caller_visible_error/origin" ≫= as_str;
      if negb (String.eqb origin PROXY_ORIGIN) then None
      else
        tool_name ← pointer_text event "/call/tool_name";
        target_digest ← pointer_text event "/call/target_digest";
        Some (tool_name, target_digest).

Definition SECRET_PATTERNS : list string :=
  ["sk-"; "sk_live_"; "sk_test_"; "api_key="; "apikey="; "token="; "password="; "secret="; "Bearer "; "AKIA";
   "ghp_"; "gho_"; "github_pat_"].

Definition RETAINED_VIEW_STRUCTURED_META_JCS : string := "structured_meta_jcs".
Definition RETAINED_VIEW_ENCRYPTED : string := "encrypted".
Definition ENCRYPTED_PLAINTEXT_COMMITMENT_FIELD : string := "approval_plaintext_commitment".
Definition em_dash : string := String "226" (String "128" (String "148" EmptyString)).

Section Rules.
Context `{Platform} `{Lowercase}.

(** A finding of a built-in rule about an event. *)
Definition rule_finding (rule_id : string) (severity : Severity) (message help_uri : string) (tags : list string)
    (event : EvidenceEvent) (ctx : LintContext) : LintFinding :=
  with_help_uri
    (lint_finding_new rule_id severity message
       (Some (mkEventLocation (lc_seq ctx) (lc_line_number ctx) (Some (ev_type event)))) tags)
    help_uri.

Definition matches_secret (subject pattern : string) : bool :=
  str_contains (to_lowercase subject) (to_lowercase pattern).

Definition check_secret_in_subject (event : EvidenceEvent) (ctx : LintContext) : option LintFinding :=
  subject ← ev_subject event;
  pattern ← find (matches_secret subject) SECRET_PATTERNS;
  Some (rule_finding "ASSAY-W001" SevWarn
          ("Subject may contain a secret (matched pattern '" +:+ pattern +:+ "')")
          "https://docs.getassay.dev/lint/#assay-w001" ["security"; "secrets"] event ctx).

Definition check_pii_flag_consistency (event : EvidenceEvent) (ctx : LintContext) : option LintFinding :=
  if ev_contains_pii event && opt_is_some (ev_subject event ≫= non_empty) then
    Some (rule_finding "ASSAY-W002" SevWarn
            ("Event marked as containing PII has a non-empty subject " +:+ em_dash +:+ " consider redacting")
            "https://docs.getassay.dev/lint/#assay-w002" ["privacy"; "pii"] event ctx)
  else None.

Definition check_source_format (event : EvidenceEvent) (ctx : LintContext) : option LintFinding :=
  if negb (starts_with (ev_source event) "urn:") && negb (starts_with (ev_source event) "https://") then
    Some (rule_finding "ASSAY-I001" SevInfo
            ("Source '" +:+ ev_source event +:+ "' does not follow urn: or https:// convention")
            "https://docs.getassay.dev/lint/#assay-i001" ["convention"; "format"] event ctx)
  else None.

Definition check_secrets_flag_consistency (event : EvidenceEvent) (ctx : LintContext) : option LintFinding :=
  subject ← ev_subject event;
  if existsb (matches_secret subject) SECRET_PATTERNS && negb (ev_contains_secrets event) then
    Some (rule_finding "ASSAY-W003" SevWarn
            "Subject appears to contain a secret but contains_secrets flag is false"
            "https://docs.getassay.dev/lint/#assay-w003" ["security"; "secrets"] event ctx)
  else None.

Definition check_enforcement_attribution_binding (event : EvidenceEvent) (ctx : LintContext) : option LintFinding :=
  key ← extract_proxy_refusal_marker event;
  let decisions := enforcement_decisions_for (lc_bundle_index ctx) key in
  if existsb (String.eqb "deny") decisions then None
  else
    let message :=
      if existsb (String.eqb "allow") decisions then
        "Denied-call observation for '" +:+ fst key +:+ "' is contradicted by a digest-bound allow record"
      else
        "Denied-call observation for '" +:+ fst key
          +:+ "' is not backed by a digest-bound assay.enforcement_decision.v0 deny record" in
    Some (rule_finding "ASSAY-W004" SevWarn message "https://docs.getassay.dev/lint/#assay-w004"
            ["security"; "enforcement"; "attribution"] event ctx).

Definition retained_view_message (payload : Value) (view : option string) : string :=
  match view with
  | Some view =>
      if String.eqb view RETAINED_VIEW_ENCRYPTED then
        if opt_is_some ((vget payload ENCRYPTED_PLAINTEXT_COMMITMENT_FIELD ≫= as_str) ≫= non_empty) then
          "Approval basis declares an encrypted retained view (opaque_bindable: a plaintext commitment travels) "
            +:+ em_dash +:+ " content-review claims cap at incomplete; a later disclosure is checkable against the commitment"
        else
          "Approval basis declares an encrypted retained view (opaque_unbindable: no plaintext commitment) "
            +:+ em_dash +:+ " content-review claims cap at incomplete; recoverable only by key disclosure"
      else
        "Approval basis declares unknown retained view '" +:+ view +:+ "' " +:+ em_dash
          +:+ " fail-closed: content-review claims cap at incomplete"
  | None =>
      "Approval basis declares an empty or non-string retained view " +:+ em_dash
        +:+ " fail-closed: content-review claims cap at incomplete"
  end.

Definition check_retained_view_readability (event : EvidenceEvent) (ctx : LintContext) : option LintFinding :=
  if negb (bool_decide (payload_schema event = Some "assay.enforcement_decision.v0")) then None
  else
    raw_view ← vget (ev_payload event) "approval_retained_view";
    let view := as_str raw_view ≫= non_empty in
    if bool_decide (view = Some RETAINED_VIEW_STRUCTURED_META_JCS) then None
    else
      Some (rule_finding "ASSAY-W005" SevWarn (retained_view_message (ev_payload event) view)
              "https://docs.getassay.dev/lint/#assay-w005" ["retention"; "review"; "sufficiency"] event ctx).

(** The checks of the registry, in its order. *)
Definition RULES : list (EvidenceEvent -> LintContext -> option LintFinding) :=
  [check_secret_in_subject; check_pii_flag_consistency; check_source_format; check_secrets_flag_consistency;
   check_enforcement_attribution_binding; check_retained_view_readability].

(** ** engine.rs *)

Fixpoint builtin_loop (index : LintBundleIndex) (line_number : Z) (events : list EvidenceEvent) : list LintFinding :=
  match events with
  | [] => []
  | event :: events =>
      omap (fun rule => rule event (mkLintContext line_number (ev_seq event) index)) RULES
        ++ builtin_loop index (line_number + 1) events
  end.

Definition run_builtin_rules (events : list EvidenceEvent) : list LintFinding :=
  builtin_loop (index_from_events events) 1 events.

Definition count_severity (s : Severity) (findings : list LintFinding) : Z :=
  Z.of_nat (length (List.filter (has_severity s) findings)).

Definition compute_summary (findings : list LintFinding) : LintSummary :=
  mkLintSummary (Z.of_nat (length findings)) (count_severity SevError findings) (count_severity SevWarn findings)
    (count_severity SevInfo findings).

End Rules.

Record LintOptions : Type := mkLintOptions {
  lo_packs : list LoadedPack;
  lo_max_results : option Z;
  lo_bundle_path : option string
}.

Record LintReportWithPacks : Type := mkLintReportWithPacks {
  lp_report : LintReport;
  lp_pack_meta : option PackExecutionMeta
}.

Inductive LintError : Type :=
| BundleRefused (e : ReadError)
| EventRefused (e : NdjsonError)
| PacksRefused (e : PackError).

Section Engine.
Context `{Platform} `{Lowercase} `{GlobSet} `{PackSerde} `{BundleSerde} `{Container}.

(** The findings and metadata of the packs. *)
Definition run_packs (events : list EvidenceEvent) (manifest : Manifest) (options : LintOptions)
    : Result (list LintFinding * option PackExecutionMeta) PackError :=
  if negb (is_nil (lo_packs options)) then
    let bundle_path := default "bundle.tar.gz" (lo_bundle_path options) in
    match executor_new (lo_packs options) with
    | Err e => Err e
    | Ok executor =>
        Ok (execute executor events manifest bundle_path,
            Some (build_meta executor (Some bundle_path) (Some (mf_bundle_id manifest)) false 0))
    end
  else Ok ([], None).

Definition with_truncation (truncated : bool) (truncated_count : Z) (meta : PackExecutionMeta) : PackExecutionMeta :=
  mkPackExecutionMeta (me_packs meta) (me_disclaimer meta) truncated truncated_count (me_rule_metadata meta)
    (me_anchor_file meta) (me_bundle_path meta) (me_bundle_id meta).

Definition DEFAULT_MAX_RESULTS : Z := 5000.

(** The report over the events of a verified bundle. *)
Definition lint_events (events : list EvidenceEvent) (manifest : Manifest) (options : LintOptions)
    : Result LintReportWithPacks PackError :=
  let findings := run_builtin_rules events in
  match run_packs events manifest options with
  | Err e => Err e
  | Ok (pack_findings, pack_meta) =>
      let max_results := default DEFAULT_MAX_RESULTS (lo_max_results options) in
      let '(findings, truncated, truncated_count) := truncate_findings (findings ++ pack_findings) max_results in
      Ok (mkLintReportWithPacks
            (mkLintReport assay_version manifest true findings (compute_summary findings) truncated
               truncated_count max_results)
            (with_truncation truncated truncated_count <$> pack_meta))
  end.

Definition lint_bundle_with_options (reader : Source) (limits : VerifyLimits) (options : LintOptions)
    : option (Outcome (Result LintReportWithPacks LintError)) :=
  match open_with_limits reader limits with
  | None => None
  | Some (Err e) => Some (Done (Err (BundleRefused e)))
  | Some (Ok bundle) =>
      match read_events (br_events_content bundle) None with
      | None => None
      | Some Panicked => Some Panicked
      | Some (Done (Err e)) => Some (Done (Err (EventRefused e)))
      | Some (Done (Ok events)) =>
          Some (Done match lint_events events (br_manifest bundle) options with
                     | Ok report => Ok report
                     | Err e => Err (PacksRefused e)
                     end)
      end
  end.

Definition no_packs : LintOptions := mkLintOptions [] None None.

Definition lint_bundle (reader : Source) (limits : VerifyLimits) : option (Outcome (Result LintReport LintError)) :=
  match lint_bundle_with_options reader limits no_packs with
  | None => None
  | Some Panicked => Some Panicked
  | Some (Done (Err e)) => Some (Done (Err e))
  | Some (Done (Ok report)) => Some (Done (Ok (lp_report report)))
  end.

End Engine.
