(* ===== verification/LintCorrect.v ===== *)
(** * Linting bundles: what is proved

    A check reports exactly what its declarative reading says; every rule of a
    compliance pack is run; what is dropped over the ceiling is the least
    severe and is disclosed; the authorization context that the handler
    projects is the one that the evidence predicates accept. *)
From stdpp Require Import base tactics list strings gmap pretty.
From Stdlib Require Import Ascii ZArith Lia Sorting.Sorted.
From S2P Require Import Prelude RustStr Json Platform HandlerChecks StrictJson StrictJsonCorrect BoundedIo Bundle BundleCorrect BundleReader BundleReaderCorrect PackRef JsonDoc SerdeJson LintPacks LintChecks Lint.

(** ** What a rule asks for *)

Section Checks.
Context `{Platform} `{GlobSet} `{PackSerde}.

(** The events a rule is about. *)
Definition InScope (rule : PackRule) (ctx : CheckContext) (e : EvidenceEvent) : Prop :=
  e ∈ cx_events ctx /\
  match ru_event_types rule with Some types => types = [] \/ ev_type e ∈ types | None => True end.

Lemma scoped_events_spec rule ctx e : e ∈ scoped_events rule ctx <-> InScope rule ctx e.
Proof.
  unfold scoped_events, InScope. destruct (ru_event_types rule) as [[|t types]|]; cbn [is_nil negb].
  - naive_solver.
  - assert (Hb : existsb (fun x => String.eqb x (ev_type e)) (t :: types) = true <-> ev_type e ∈ t :: types).
    { rewrite existsb_true. split; [by intros (x & Hx & <-%String.eqb_eq)|].
      intros Ht. exists (ev_type e). split; [done|apply String.eqb_refl]. }
    rewrite list_elem_of_In, filter_In, <- list_elem_of_In, Hb. naive_solver.
  - naive_solver.
Qed.

(** Some event in scope, with a type that a pattern matches. *)
Definition SomeMatch (rule : PackRule) (ctx : CheckContext) (pattern : string) : Prop :=
  exists matcher e, compile_glob pattern = Some matcher /\ InScope rule ctx e /\ is_match matcher (ev_type e) = true.

(** The check of a rule, declaratively. *)
Definition CheckHolds (rule : PackRule) (ctx : CheckContext) : Prop :=
  match ru_check rule with
  | EventCount min => (min <= Z.of_nat (length (scoped_events rule ctx)))%Z
  | EventPairs start_pattern finish_pattern => SomeMatch rule ctx start_pattern /\ SomeMatch rule ctx finish_pattern
  | EventFieldPresent _ _ _ =>
      exists e path, InScope rule ctx e /\ path ∈ get_field_paths (ru_check rule) /\
        is_Some (value_pointer (event_value e) path)
  | EventTypeExists pattern => SomeMatch rule ctx pattern
  | ManifestField path _ => is_Some (value_pointer (manifest_value (cx_manifest ctx)) path)
  | JsonPathExists paths value_equals =>
      exists e path v, InScope rule ctx e /\ path ∈ paths /\ value_pointer (event_value e) path = Some v /\
        forall required, value_equals = Some required -> value_eqb v required = true
  | G3AuthorizationContextPresent => exists e, InScope rule ctx e /\ decision_event_satisfies_g3 e = true
  | Conditional _ _ =>
      match supported_conditional (ru_check rule) with
      | Ok c => forall e, InScope rule ctx e -> clauses_hold (sc_clauses c) (event_value e) = true ->
          is_Some (value_pointer (event_value e) (sc_required_path c))
      | Err _ => cx_pack_kind ctx <> Compliance
      end
  | Unsupported => cx_pack_kind ctx <> Compliance
  end.

(** A rule that asks for a newer engine is skipped, except in compliance packs. *)
Definition RuleHolds (rule : PackRule) (ctx : CheckContext) : Prop :=
  match ru_engine_min_version rule with
  | Some v =>
      if engine_version_satisfies ENGINE_VERSION v then CheckHolds rule ctx else cx_pack_kind ctx <> Compliance
  | None => CheckHolds rule ctx
  end.

(** A finding that a rule may give, with its severity. *)
Definition finding_of (rule : PackRule) (ctx : CheckContext) (f : LintFinding) : Prop :=
  fi_rule_id f = canonical_id (cx_pack_name ctx) (cx_pack_version ctx) (ru_id rule) /\
  (fi_severity f = ru_severity rule \/
   exists path, ru_check rule = ManifestField path false /\ fi_severity f = SevWarn).

(** The result of a check says whether [P] holds. *)
Definition Decides (rule : PackRule) (ctx : CheckContext) (r : CheckResult) (P : Prop) : Prop :=
  (ck_finding r = None <-> P) /\ (forall f, ck_finding r = Some f -> finding_of rule ctx f) /\
  (ck_passed r = false -> ck_finding r <> None) /\
  (ck_passed r = true -> ck_finding r = None \/ exists path, ru_check rule = ManifestField path false).

Lemma decides_pass rule ctx (P : Prop) : P -> Decides rule ctx pass P.
Proof. intros HP. unfold Decides, pass. cbn. by split_and!; auto. Qed.

Lemma decides_failed rule ctx message (P : Prop) : ~ P -> Decides rule ctx (failed rule ctx message) P.
Proof.
  intros HP. unfold Decides, failed, finding_of. cbn. split_and!; [done| |done|done].
  intros f [= <-]. cbn. auto.
Qed.

Lemma decides_if rule ctx (b : bool) message (P : Prop) :
  (b = true <-> P) -> Decides rule ctx (if b then pass else failed rule ctx message) P.
Proof. intros Hb. destruct b; [apply decides_pass; by apply Hb|apply decides_failed; by rewrite <- Hb]. Qed.

Lemma existsb_scoped rule ctx (f : EvidenceEvent -> bool) :
  existsb f (scoped_events rule ctx) = true <-> exists e, InScope rule ctx e /\ f e = true.
Proof. rewrite existsb_true. by setoid_rewrite scoped_events_spec. Qed.

Lemma event_pairs_decides rule ctx start_pattern finish_pattern :
  Decides rule ctx (check_event_pairs rule ctx start_pattern finish_pattern)
    (SomeMatch rule ctx start_pattern /\ SomeMatch rule ctx finish_pattern).
Proof.
  unfold check_event_pairs, SomeMatch.
  destruct (compile_glob start_pattern) as [ms|] eqn:Es; [|apply decides_failed; naive_solver].
  destruct (compile_glob finish_pattern) as [mf|] eqn:Ef; [|apply decides_failed; naive_solver].
  destruct (existsb (fun e => is_match ms (ev_type e)) _) eqn:E1;
    destruct (existsb (fun e => is_match mf (ev_type e)) _) eqn:E2.
  1: { apply existsb_scoped in E1 as (e1 & He1 & M1), E2 as (e2 & He2 & M2). apply decides_pass.
       split; [exists ms, e1|exists mf, e2]; done. }
  all: apply decides_failed; intros [(m1 & e1 & C1 & He1 & M1) (m2 & e2 & C2 & He2 & M2)]; simplify_eq.
  - apply not_true_iff_false in E2. apply E2, existsb_scoped. eauto.
  - apply not_true_iff_false in E1. apply E1, existsb_scoped. eauto.
  - apply not_true_iff_false in E1. apply E1, existsb_scoped. eauto.
Qed.

Lemma event_type_decides rule ctx pattern :
  Decides rule ctx (check_event_type_exists rule ctx pattern) (SomeMatch rule ctx pattern).
Proof.
  unfold check_event_type_exists, SomeMatch.
  destruct (compile_glob pattern) as [m|] eqn:Em; [|apply decides_failed; naive_solver].
  apply decides_if. rewrite existsb_scoped. naive_solver.
Qed.

Lemma opt_is_some_true {A} (o : option A) : opt_is_some o = true <-> is_Some o.
Proof. destruct o; cbn; split; done || by intros []. Qed.

Lemma field_present_decides rule ctx paths :
  Decides rule ctx (check_event_field_present rule ctx paths)
    (exists e path, InScope rule ctx e /\ path ∈ paths /\ is_Some (value_pointer (event_value e) path)).
Proof.
  apply decides_if. rewrite existsb_scoped. setoid_rewrite existsb_true. setoid_rewrite opt_is_some_true.
  split; intros (e & path & Hp); naive_solver.
Qed.

Lemma json_path_decides rule ctx paths value_equals :
  Decides rule ctx (check_json_path_exists rule ctx paths value_equals)
    (exists e path v, InScope rule ctx e /\ path ∈ paths /\ value_pointer (event_value e) path = Some v /\
        forall required, value_equals = Some required -> value_eqb v required = true).
Proof.
  apply decides_if. rewrite existsb_scoped. setoid_rewrite existsb_true. unfold path_satisfied.
  split.
  - intros (e & He & path & Hp & Hs). destruct (value_pointer _ path) as [v|] eqn:Ev; [|done].
    exists e, path, v. split_and!; [done..|]. intros required ->. done.
  - intros (e & path & v & He & Hp & Ev & Hr). exists e. split; [done|]. exists path. split; [done|].
    rewrite Ev. destruct value_equals as [required|]; [by apply Hr|done].
Qed.

Lemma manifest_field_decides rule ctx path required :
  ru_check rule = ManifestField path required ->
  Decides rule ctx (check_manifest_field rule ctx path required)
    (is_Some (value_pointer (manifest_value (cx_manifest ctx)) path)).
Proof.
  intros Hc. unfold check_manifest_field.
  destruct (value_pointer _ path) as [v|] eqn:Ev; cbn [opt_is_some]; [by apply decides_pass|].
  unfold Decides, finding_of. cbn. split_and!; [by split; [|intros []]| |done|].
  - intros f [= <-]. cbn. split; [done|]. destruct required; [by left|]. right. by exists path.
  - destruct required; [done|]. intros _. right. by exists path.
Qed.

Lemma conditional_scan c events s :
  let r := foldl (conditional_step c) s events in
  (0 <= cs_missing s <= cs_matched s)%Z ->
  (cs_missing s <= cs_missing r)%Z /\ (cs_matched s <= cs_matched r)%Z /\ (cs_missing r <= cs_matched r)%Z /\
  (cs_missing r = cs_missing s <-> forall e, e ∈ events -> clauses_hold (sc_clauses c) (event_value e) = true ->
     is_Some (value_pointer (event_value e) (sc_required_path c))).
Proof.
  cbv zeta. revert s. induction events as [|e events IH]; intros s Hs; cbn [foldl].
  - split_and!; [lia..|]. split; [|done]. intros _ e He. by apply elem_of_nil in He.
  - assert (Hstep : let s' := conditional_step c s e in (0 <= cs_missing s' <= cs_matched s')%Z /\
      (cs_missing s <= cs_missing s')%Z /\ (cs_matched s <= cs_matched s')%Z /\
      (cs_missing s' = cs_missing s <-> (clauses_hold (sc_clauses c) (event_value e) = true ->
         is_Some (value_pointer (event_value e) (sc_required_path c))))).
    { cbv zeta. unfold conditional_step. destruct (clauses_hold _ _); cbn [negb]; [|by split_and!; try lia].
      destruct (value_pointer _ (sc_required_path c)); cbn [opt_is_some cs_missing cs_matched].
      - split_and!; try lia. done.
      - split_and!; try lia. split; [lia|]. intros Hx. by destruct (Hx eq_refl). }
    destruct Hstep as (Hs' & Hm & Hd & Hiff). destruct (IH _ Hs') as (I1 & I2 & I3 & I4).
    split_and!; [lia..|]. split.
    + intros Heq e' [->|He']%elem_of_cons; [apply Hiff; lia|]. by apply I4; [lia|].
    + intros Hall. assert (Hx : cs_missing (conditional_step c s e) = cs_missing s) by (apply Hiff, Hall; by left).
      rewrite <- Hx. apply I4. intros e' He'. by apply Hall; right.
Qed.

Lemma conditional_decides rule ctx c :
  Decides rule ctx (check_conditional rule ctx c)
    (forall e, InScope rule ctx e -> clauses_hold (sc_clauses c) (event_value e) = true ->
       is_Some (value_pointer (event_value e) (sc_required_path c))).
Proof.
  unfold check_conditional. cbv zeta.
  pose proof (conditional_scan c (scoped_events rule ctx) (mkScan 0 0 None)) as Hscan. cbv zeta in Hscan.
  cbn [cs_missing cs_matched] in Hscan. destruct (Hscan ltac:(lia)) as (I1 & I2 & I3 & I4).
  set (s := foldl _ _ _) in *.
  assert (Hiff : cs_missing s = 0%Z <-> forall e, InScope rule ctx e ->
    clauses_hold (sc_clauses c) (event_value e) = true -> is_Some (value_pointer (event_value e) (sc_required_path c))).
  { rewrite I4. by setoid_rewrite scoped_events_spec. }
  destruct (Z.eqb_spec (cs_matched s) 0) as [E1|E1]; cbn [orb]; [apply decides_pass, Hiff; lia|].
  destruct (Z.eqb_spec (cs_missing s) 0) as [E2|E2]; [by apply decides_pass, Hiff|].
  unfold Decides, finding_of. cbn. split_and!; [|intros f [= <-]; cbn; auto|done|done].
  split; [done|]. by intros Hall%Hiff.
Qed.

Lemma unsupported_decides rule ctx reason :
  Decides rule ctx (handle_unsupported_check rule ctx reason) (cx_pack_kind ctx <> Compliance).
Proof.
  unfold handle_unsupported_check. destruct (bool_decide_reflect (cx_pack_kind ctx = Compliance)).
  - apply decides_failed. naive_solver.
  - by apply decides_pass.
Qed.

Lemma execute_check_decides rule ctx : Decides rule ctx (execute_check rule ctx) (RuleHolds rule ctx).
Proof.
  assert (Hs : Decides rule ctx (execute_supported rule ctx) (CheckHolds rule ctx)).
  { unfold execute_supported, CheckHolds. destruct (ru_check rule) as [| | | | | | |c t|] eqn:Ec.
    - apply decides_if, Z.leb_le.
    - apply event_pairs_decides.
    - apply field_present_decides.
    - apply event_type_decides.
    - by apply manifest_field_decides.
    - apply json_path_decides.
    - apply decides_if, existsb_scoped.
    - destruct (supported_conditional (Conditional c t)); [apply conditional_decides|apply unsupported_decides].
    - apply unsupported_decides. }
  unfold execute_check, RuleHolds. destruct (ru_engine_min_version rule) as [v|]; [|done].
  destruct (engine_version_satisfies ENGINE_VERSION v); [done|apply unsupported_decides].
Qed.

End Checks.

(** ** Running the rules of several packs *)

Section Executor.
Context `{Platform} `{GlobSet} `{PackSerde}.

Definition rule_id_of (e : LoadedPack * PackRule) : string := canonical_rule_id (fst e) (ru_id (snd e)).

(** No earlier rule has the id of [e]. *)
Definition FirstOf (rules : list (LoadedPack * PackRule)) (e : LoadedPack * PackRule) : Prop :=
  exists pre post, rules = pre ++ e :: post /\ rule_id_of e ∉ map rule_id_of pre.

Lemma first_of_cons x rules e :
  FirstOf (x :: rules) e <-> e = x \/ (rule_id_of e <> rule_id_of x /\ FirstOf rules e).
Proof.
  split.
  - intros ([|y pre] & post & [= -> Hr] & Hn); [by left|]. right. apply not_elem_of_cons in Hn as [Hn Hp].
    split; [done|]. by exists pre, post.
  - intros [->|(Hn & pre & post & -> & Hp)]; [exists [], rules; split; [done|apply not_elem_of_nil]|].
    exists (x :: pre), post. split; [done|]. by apply not_elem_of_cons.
Qed.

Lemma pack_rules_spec packs pack rule :
  (pack, rule) ∈ pack_rules packs <-> pack ∈ packs /\ rule ∈ pd_rules (ld_definition pack).
Proof.
  unfold pack_rules. rewrite list_elem_of_bind. split.
  - intros (p & Hr & Hp). apply list_elem_of_In, in_map_iff in Hr as (r & [= -> ->] & Hr). by rewrite <- list_elem_of_In in Hr.
  - intros [Hp Hr]. exists pack. split; [|done]. apply list_elem_of_In, in_map_iff. exists rule. by rewrite <- list_elem_of_In.
Qed.

(** The rule that an id names, and the result of its check. *)
Definition outcome_of (events : list EvidenceEvent) (manifest : Manifest) (bundle_path : string)
    (e : LoadedPack * PackRule) : CheckResult :=
  execute_check (snd e) (pack_context (fst e) events manifest bundle_path).

Lemma finding_rule_id events manifest bundle_path e f :
  ck_finding (outcome_of events manifest bundle_path e) = Some f -> fi_rule_id f = rule_id_of e.
Proof.
  intros Hf. pose proof (execute_check_decides (snd e) (pack_context (fst e) events manifest bundle_path)) as (_ & Hd & _).
  by destruct (Hd _ Hf) as [-> _].
Qed.

Lemma execute_loop_spec events manifest bundle_path seen rules f :
  f ∈ execute_loop events manifest bundle_path seen rules <->
  exists e, FirstOf rules e /\ rule_id_of e ∉ seen /\ ck_finding (outcome_of events manifest bundle_path e) = Some f.
Proof.
  revert seen. induction rules as [|[pack rule] rules IH]; intros seen; cbn [execute_loop].
  - split; [intros Hf; by apply elem_of_nil in Hf|]. by intros (e & ([|] & ? & ? & _) & _).
  - setoid_rewrite first_of_cons. fold (rule_id_of (pack, rule)).
    change (canonical_rule_id pack (ru_id rule)) with (rule_id_of (pack, rule)).
    change (execute_check rule (pack_context pack events manifest bundle_path))
      with (outcome_of events manifest bundle_path (pack, rule)).
    case_bool_decide as Hs.
    + rewrite IH. split; [|naive_solver]. intros (e & He & Hn & Hf). exists e. split_and!; [|done..].
      right. split; [|done]. intros Heq. by rewrite Heq in Hn.
    + assert (Hr : f ∈ execute_loop events manifest bundle_path ({[rule_id_of (pack, rule)]} ∪ seen) rules <->
        exists e, (rule_id_of e <> rule_id_of (pack, rule) /\ FirstOf rules e) /\ rule_id_of e ∉ seen /\
          ck_finding (outcome_of events manifest bundle_path e) = Some f).
      { rewrite IH. split; intros (e & He); exists e; set_solver. }
      destruct (ck_finding _) as [g|] eqn:Eg; [rewrite elem_of_cons|]; rewrite Hr; naive_solver.
Qed.

Lemma execute_loop_ids events manifest bundle_path seen rules :
  NoDup (map fi_rule_id (execute_loop events manifest bundle_path seen rules)) /\
  forall id, id ∈ map fi_rule_id (execute_loop events manifest bundle_path seen rules) -> id ∉ seen.
Proof.
  split.
  - revert seen. induction rules as [|[pack rule] rules IH]; intros seen; cbn [execute_loop]; [constructor|].
    case_bool_decide; [apply IH|].
    change (execute_check rule (pack_context pack events manifest bundle_path))
      with (outcome_of events manifest bundle_path (pack, rule)).
    destruct (ck_finding _) as [g|] eqn:Eg; [|apply IH]. cbn [map]. constructor; [|apply IH].
    apply finding_rule_id in Eg. rewrite Eg. rewrite list_elem_of_In, in_map_iff. intros (f & Ef & Hf).
    rewrite <- list_elem_of_In in Hf. apply execute_loop_spec in Hf as (e & _ & Hn & Hf). apply finding_rule_id in Hf.
    apply Hn. rewrite <- Hf, Ef. set_solver.
  - intros id Hid. rewrite list_elem_of_In, in_map_iff in Hid. destruct Hid as (f & <- & Hf).
    rewrite <- list_elem_of_In in Hf. apply execute_loop_spec in Hf as (e & _ & Hn & Hf).
    by rewrite (finding_rule_id _ _ _ _ _ Hf).
Qed.

(** *** Collisions *)

Lemma collisions_loop_ok rules acc acc' :
  collisions_loop rules acc = Ok acc' ->
  (forall e, e ∈ rules -> is_compliance (fst e) = true -> acc !! rule_id_of e = None /\
     forall e', e' ∈ rules -> rule_id_of e' = rule_id_of e -> e' = e) /\
  (forall id n k e, acc !! id = Some (n, k) -> e ∈ rules -> rule_id_of e = id -> k <> Compliance).
Proof.
  revert acc. induction rules as [|[pack rule] rules IH]; intros acc; cbn [collisions_loop].
  - intros _. split; [intros e He; by apply elem_of_nil in He|intros ? ? ? ? _ He; by apply elem_of_nil in He].
  - change (canonical_rule_id pack (ru_id rule)) with (rule_id_of (pack, rule)).
    set (x := (pack, rule)). set (entry := (pd_name _, pd_kind _)).
    intros Hc.
    assert (Hno : (forall n k, acc !! rule_id_of x = Some (n, k) -> pd_kind (ld_definition pack) <> Compliance /\ k <> Compliance)
      /\ collisions_loop rules (<[rule_id_of x := entry]> acc) = Ok acc').
    { destruct (acc !! rule_id_of x) as [[n k]|]; [|by split].
      case_bool_decide as Hk; [done|]. split; [|done]. intros ? ? [= <- <-]. tauto. }
    destruct Hno as [Hno Hrec]. clear Hc. apply IH in Hrec as [I1 I2]. clear IH.
    assert (Hx : is_compliance pack = true -> acc !! rule_id_of x = None /\ forall e', e' ∈ rules -> rule_id_of e' <> rule_id_of x).
    { intros Hp%bool_decide_eq_true. split.
      - destruct (acc !! rule_id_of x) as [[n k]|] eqn:Ea; [|done]. by destruct (Hno _ _ eq_refl).
      - intros e' He' Heq. apply (I2 (rule_id_of x) (fst entry) (snd entry) e'); [by rewrite lookup_insert_eq|done..]. }
    split.
    + intros e [->|He]%elem_of_cons Hp.
      * destruct (Hx Hp) as [Ha Hu]. split; [done|]. intros e' [->|He']%elem_of_cons Heq; [done|]. by destruct (Hu e').
      * destruct (I1 e He Hp) as [Ha Hu].
        assert (Hne : rule_id_of x <> rule_id_of e) by (intros Heq; by rewrite <- Heq, lookup_insert_eq in Ha).
        rewrite lookup_insert_ne in Ha by done. split; [done|].
        intros e' [->|He']%elem_of_cons Heq; [done|]. by apply Hu.
    + intros id n k e Hid [->|He]%elem_of_cons Heq.
      * subst id. by destruct (Hno _ _ Hid).
      * destruct (decide (id = rule_id_of x)) as [->|Hne].
        -- by destruct (Hno _ _ Hid).
        -- apply (I2 id n k e); [by rewrite lookup_insert_ne|done..].
Qed.

(** Two rules that may not have the same id: one of them is of a compliance
    pack. *)
Definition Clash (e e' : LoadedPack * PackRule) : Prop :=
  rule_id_of e = rule_id_of e' /\
  (pd_kind (ld_definition (fst e)) = Compliance \/ pd_kind (ld_definition (fst e')) = Compliance).

(** No two rules of the packs clash. *)
Definition Compatible (packs : list LoadedPack) : Prop :=
  ForallOrdPairs (fun e e' => ~ Clash e e') (pack_rules packs).

Lemma collisions_loop_accepts rules acc :
  (exists acc', collisions_loop rules acc = Ok acc') <->
  ForallOrdPairs (fun e e' => ~ Clash e e') rules /\
  (forall e n k, e ∈ rules -> acc !! rule_id_of e = Some (n, k) ->
     pd_kind (ld_definition (fst e)) <> Compliance /\ k <> Compliance).
Proof.
  revert acc. induction rules as [|[pack rule] rules IH]; intros acc; cbn [collisions_loop].
  { split; [|by eexists]. intros _. split; [constructor|]. intros e n k He. by apply elem_of_nil in He. }
  change (canonical_rule_id pack (ru_id rule)) with (rule_id_of (pack, rule)).
  set (x := (pack, rule)). set (entry := (pd_name _, pd_kind _)).
  assert (Hrec : (exists acc', collisions_loop rules (<[rule_id_of x := entry]> acc) = Ok acc') <->
    ForallOrdPairs (fun e e' => ~ Clash e e') rules /\ (forall e, e ∈ rules -> ~ Clash x e) /\
    (forall e n k, e ∈ rules -> rule_id_of e <> rule_id_of x -> acc !! rule_id_of e = Some (n, k) ->
       pd_kind (ld_definition (fst e)) <> Compliance /\ k <> Compliance)).
  { rewrite IH. apply and_iff_compat_l. split.
    - intros Ha. split.
      + intros e He [Heq Hk]. destruct (Ha e (pd_name (ld_definition pack)) (pd_kind (ld_definition pack)) He); [|by destruct Hk].
        by rewrite <- Heq, lookup_insert_eq.
      + intros e n k He Hne Hl. apply (Ha e n k He). by rewrite lookup_insert_ne.
    - intros [Hx Ha] e n k He. destruct (decide (rule_id_of e = rule_id_of x)) as [Heq|Hne].
      + rewrite Heq, lookup_insert_eq. intros [= <- <-]. specialize (Hx e He). unfold Clash in Hx.
        split; intros Hk; apply Hx; (split; [done|]); [by right|by left].
      + rewrite lookup_insert_ne by done. by apply Ha. }
  assert (Hcons : ForallOrdPairs (fun e e' => ~ Clash e e') (x :: rules) <->
    (forall e, e ∈ rules -> ~ Clash x e) /\ ForallOrdPairs (fun e e' => ~ Clash e e') rules).
  { rewrite <- Forall_forall. split; [intros Hf; by inversion Hf|intros [? ?]; by constructor]. }
  destruct (acc !! rule_id_of x) as [[n k]|] eqn:Ex.
  - case_bool_decide as Hk.
    + split; [by intros [? ?]|]. intros [_ Ha]. destruct (Ha x n k) as [? ?]; [by left|done|]. by destruct Hk.
    + assert (pd_kind (ld_definition pack) <> Compliance /\ k <> Compliance) as [Hk1 Hk2] by tauto. rewrite Hrec, Hcons. split.
      * intros (Hf & Hx & Ha). split; [done|]. intros e n' k' [->|He]%elem_of_cons Hl; [by simplify_eq|].
        destruct (decide (rule_id_of e = rule_id_of x)) as [Heq|]; [|by eapply Ha].
        rewrite Heq in Hl. simplify_eq. split; [|done]. intros He'. apply (Hx e He). split; [done|by right].
      * intros [[Hx Hf] Ha]. split_and!; [done..|]. intros e n' k' He _. apply Ha. by right.
  - rewrite Hrec, Hcons. split.
    + intros (Hf & Hx & Ha). split; [done|]. intros e n' k' [->|He]%elem_of_cons Hl; [congruence|].
      apply (Ha e n' k' He); [|done]. intros Heq. congruence.
    + intros [[Hx Hf] Ha]. split_and!; [done..|]. intros e n' k' He _. apply Ha. by right.
Qed.

(** Packs are accepted together exactly when no two of their rules clash. *)
Lemma executor_accepts packs : (exists executor, executor_new packs = Ok executor) <-> Compatible packs.
Proof.
  unfold executor_new, Compatible. trans (exists acc', collisions_loop (pack_rules packs) ∅ = Ok acc').
  - destruct (collisions_loop _ _) as [ids|e]; split; intros [? ?]; done || by eexists.
  - rewrite collisions_loop_accepts. split; [by intros [? _]|]. intros Hf. split; [done|].
    intros e n k _. by rewrite lookup_empty.
Qed.

Lemma first_of_unique rules e :
  e ∈ rules -> (forall e', e' ∈ rules -> rule_id_of e' = rule_id_of e -> e' = e) -> FirstOf rules e.
Proof.
  induction rules as [|x rules IH]; intros He Hu; [by apply elem_of_nil in He|]. apply first_of_cons.
  destruct (decide (rule_id_of e = rule_id_of x)) as [Heq|Hne]; [left; symmetry; by apply Hu; [left|]|].
  right. split; [done|]. apply elem_of_cons in He as [->|He]; [done|]. apply IH; [done|]. intros e' He'. apply Hu. by right.
Qed.

Lemma first_of_id_unique rules e e' : FirstOf rules e -> FirstOf rules e' -> rule_id_of e = rule_id_of e' -> e = e'.
Proof.
  induction rules as [|x rules IH]; [by intros ([|] & ? & ? & _)|]. rewrite !first_of_cons.
  intros [->|[Hn He]] [->|[Hn' He']] Heq; [done|by rewrite Heq in Hn'|by rewrite Heq in Hn|by apply IH].
Qed.

(** C31: A rule of a compliance pack is never dropped: when the packs are
    accepted together, the run of their rules gives a finding with its
    canonical id exactly when the rule does not hold of the bundle, and only
    one. *)
Theorem compliance_rules_run packs executor events manifest bundle_path pack rule :
  executor_new packs = Ok executor ->
  pack ∈ packs -> rule ∈ pd_rules (ld_definition pack) -> pd_kind (ld_definition pack) = Compliance ->
  let findings := execute executor events manifest bundle_path in
  let id := canonical_rule_id pack (ru_id rule) in
  NoDup (map fi_rule_id findings) /\
  (id ∈ map fi_rule_id findings <-> ~ RuleHolds rule (pack_context pack events manifest bundle_path)) /\
  (forall f, f ∈ findings -> fi_rule_id f = id ->
     ck_finding (execute_check rule (pack_context pack events manifest bundle_path)) = Some f).
Proof.
  intros Hnew Hp Hr Hk. cbv zeta. unfold executor_new in Hnew.
  destruct (collisions_loop (pack_rules packs) ∅) as [ids|] eqn:Ec; [|done]. injection Hnew as <-.
  unfold execute. cbn [ex_packs]. apply collisions_loop_ok in Ec as [Hc _].
  assert (He : (pack, rule) ∈ pack_rules packs) by (by apply pack_rules_spec).
  destruct (Hc (pack, rule) He ltac:(by apply bool_decide_eq_true)) as [_ Hu].
  pose proof (first_of_unique _ _ He Hu) as Hf.
  pose proof (execute_check_decides rule (pack_context pack events manifest bundle_path)) as (Hd & _).
  assert (Hone : forall f, f ∈ execute_loop events manifest bundle_path ∅ (pack_rules packs) ->
    fi_rule_id f = rule_id_of (pack, rule) -> ck_finding (outcome_of events manifest bundle_path (pack, rule)) = Some f).
  { intros f (e & Hfe & _ & Hff)%execute_loop_spec Hid. rewrite (finding_rule_id _ _ _ _ _ Hff) in Hid.
    by rewrite <- (first_of_id_unique _ _ _ Hfe Hf Hid). }
  split_and!; [apply execute_loop_ids| |exact Hone]. rewrite <- Hd. clear Hd. split.
  - rewrite list_elem_of_In, in_map_iff. intros (f & Hid & Hin). rewrite <- list_elem_of_In in Hin.
    specialize (Hone f Hin Hid). unfold outcome_of in Hone. cbn [fst snd] in Hone. by rewrite Hone.
  - intros Hn. destruct (ck_finding (execute_check rule _)) as [f|] eqn:Ef; [|done].
    rewrite list_elem_of_In, in_map_iff. exists f. split; [by apply (finding_rule_id events manifest bundle_path (pack, rule))|].
    rewrite <- list_elem_of_In. apply execute_loop_spec. exists (pack, rule). split_and!; [done| |done]. set_solver.
Qed.

(** Two packs of the same name and version that define a rule of the same id:
    the first definition is run, and the metadata of the report is that of the
    second. *)
Theorem collision_first_runs first second rule rule' events manifest bundle_path bundle_id :
  pd_rules (ld_definition first) = [rule] -> pd_rules (ld_definition second) = [rule'] ->
  canonical_rule_id first (ru_id rule) = canonical_rule_id second (ru_id rule') ->
  is_compliance first = false -> is_compliance second = false ->
  exists executor, executor_new [first; second] = Ok executor /\
    execute executor events manifest bundle_path =
      match ck_finding (execute_check rule (pack_context first events manifest bundle_path)) with
      | Some f => [f]
      | None => []
      end /\
    me_rule_metadata (build_meta executor (Some bundle_path) bundle_id false 0) =
      {[canonical_rule_id first (ru_id rule) := rule_metadata second rule']}.
Proof.
  intros Hr1 Hr2 Hid Hk1%bool_decide_eq_false Hk2%bool_decide_eq_false. unfold executor_new, pack_rules. cbn.
  rewrite Hr1, Hr2. cbn. rewrite lookup_empty, <- Hid, lookup_insert_eq.
  rewrite bool_decide_eq_false_2 by (cbn; tauto). eexists. split; [done|]. split.
  - unfold execute, pack_rules. cbn. rewrite Hr1, Hr2. cbn. rewrite bool_decide_eq_false_2 by apply not_elem_of_empty.
    rewrite <- Hid, bool_decide_eq_true_2 by set_solver. by destruct (ck_finding _).
  - unfold build_meta, pack_rules. cbn. rewrite Hr1, Hr2. cbn. rewrite <- Hid, insert_insert_eq. done.
Qed.

(** *** The ceiling on findings *)

Lemma insert_by_severity_perm f l : insert_by_severity f l ≡ₚ f :: l.
Proof.
  induction l as [|g l IH]; cbn [insert_by_severity]; [done|]. destruct (decide _); [done|].
  rewrite IH. apply Permutation_swap.
Qed.

Lemma sort_by_severity_perm l : sort_by_severity l ≡ₚ l.
Proof. induction l as [|f l IH]; cbn [sort_by_severity foldr]; [done|]. rewrite insert_by_severity_perm. by f_equiv. Qed.

Lemma insert_by_severity_sorted f l :
  StronglySorted severity_le l -> StronglySorted severity_le (insert_by_severity f l).
Proof.
  induction 1 as [|g l Hs IH Hg]; cbn [insert_by_severity]; [by repeat constructor|].
  destruct (decide _) as [Hle|Hgt].
  - constructor; [by constructor|]. constructor; [done|]. eapply Forall_impl; [exact Hg|]. unfold severity_le in *. lia.
  - constructor; [done|]. rewrite Forall_forall in *. intros x Hx. rewrite insert_by_severity_perm in Hx.
    apply elem_of_cons in Hx as [->|Hx]; [|by apply Hg]. unfold severity_le in *. lia.
Qed.

Lemma sort_by_severity_sorted l : StronglySorted severity_le (sort_by_severity l).
Proof. induction l as [|f l IH]; cbn [sort_by_severity foldr]; [constructor|]. by apply insert_by_severity_sorted. Qed.

(** The sort is stable. *)
Lemma insert_by_severity_stable s f l :
  StronglySorted severity_le l ->
  List.filter (has_severity s) (insert_by_severity f l) = List.filter (has_severity s) (f :: l).
Proof.
  induction 1 as [|g l Hs IH Hg]; cbn [insert_by_severity]; [done|]. destruct (decide _) as [|Hgt]; [done|].
  cbn [List.filter] in *. rewrite IH. unfold severity_le in Hgt. unfold has_severity in *.
  destruct (bool_decide_reflect (fi_severity f = s)) as [Hf|], (bool_decide_reflect (fi_severity g = s)) as [Hg'|]; try done.
  rewrite Hf, Hg' in Hgt. lia.
Qed.

Lemma sort_by_severity_stable s l :
  List.filter (has_severity s) (sort_by_severity l) = List.filter (has_severity s) l.
Proof.
  induction l as [|f l IH]; [done|]. change (sort_by_severity (f :: l)) with (insert_by_severity f (sort_by_severity l)).
  rewrite insert_by_severity_stable by apply sort_by_severity_sorted. cbn [List.filter]. by rewrite IH.
Qed.

Lemma sorted_app_le (l k : list LintFinding) x y :
  StronglySorted severity_le (l ++ k) -> x ∈ l -> y ∈ k -> severity_le x y.
Proof.
  induction l as [|z l IH]; cbn [app]; [intros _ Hx; by apply elem_of_nil in Hx|].
  intros [Hs Hz]%StronglySorted_inv [->|Hx]%elem_of_cons Hy; [|by apply IH].
  rewrite Forall_forall in Hz. apply Hz, elem_of_app. by right.
Qed.

Lemma truncate_findings_inv findings max_results kept truncated count :
  (0 <= max_results)%Z -> truncate_findings findings max_results = (kept, truncated, count) ->
  exists dropped, findings ≡ₚ kept ++ dropped /\ Z.of_nat (length dropped) = count /\
    (truncated = true <-> dropped <> []) /\ (Z.of_nat (length kept) <= max_results)%Z /\
    (truncated = true -> Z.of_nat (length kept) = max_results) /\
    (forall x y, x ∈ kept -> y ∈ dropped -> severity_le x y) /\
    forall s, List.filter (has_severity s) findings = List.filter (has_severity s) kept ++ List.filter (has_severity s) dropped.
Proof.
  intros Hm. unfold truncate_findings. cbv zeta. destruct (Z.leb_spec (Z.of_nat (length findings)) max_results) as [Hl|Hl].
  - intros [= <- <- <-]. exists []. rewrite app_nil_r. split_and!; try done. intros x y _ Hy; by apply elem_of_nil in Hy.
    intros s. by rewrite app_nil_r.
  - intros [= <- <- <-]. set (n := Z.to_nat max_results). exists (drop n (sort_by_severity findings)).
    pose proof (Permutation_length (sort_by_severity_perm findings)) as Hlen.
    assert (Hd : length (drop n (sort_by_severity findings)) = (length findings - n)%nat) by (rewrite length_drop; lia).
    rewrite length_take. split_and!.
    + by rewrite take_drop, sort_by_severity_perm.
    + lia.
    + split; [|done]. intros _ Hnil. rewrite Hnil in Hd. cbn in Hd. lia.
    + lia.
    + lia.
    + intros x y Hx Hy. eapply sorted_app_le; [|exact Hx|exact Hy]. rewrite take_drop. apply sort_by_severity_sorted.
    + intros s. by rewrite <- List.filter_app, take_drop, sort_by_severity_stable.
Qed.

End Executor.

(** ** The authorization context *)

Section Authorization.
Context `{Platform}.

Lemma bearer_aligned s : g3_has_bearer_credential_prefix s = has_bearer_credential_prefix s.
Proof. done. Qed.

Lemma credential_aligned s :
  negb (g3_has_bearer_credential_prefix s) && negb (g3_looks_like_jws_compact s)
  = negb (has_bearer_credential_prefix s || looks_like_jws_compact s).
Proof. rewrite bearer_aligned. symmetry. apply negb_orb. Qed.

Lemma principal_aligned p : g3_principal_field_satisfies_v1 p = opt_is_some (normalize_principal (Some p)).
Proof.
  unfold g3_principal_field_satisfies_v1, normalize_principal. cbn. destruct (str_is_empty _); [done|].
  rewrite credential_aligned. by destruct (_ || _).
Qed.

Lemma issuer_aligned i : g3_auth_issuer_field_satisfies_v1 i = opt_is_some (normalize_auth_issuer (Some i)).
Proof.
  unfold g3_auth_issuer_field_satisfies_v1, normalize_auth_issuer. cbn. destruct (str_is_empty _); [done|]. cbn [orb].
  rewrite credential_aligned. unfold G3_MAX_AUTH_ISSUER_BYTES, MAX_AUTH_ISSUER_BYTES.
  destruct (2048 <? str_len (str_trim i))%Z, (_ || _); done.
Qed.

Lemma scheme_aligned s :
  opt_is_some (normalize_auth_scheme (Some s)) = true <->
  to_ascii_lowercase (str_trim s) = "oauth2" \/ to_ascii_lowercase (str_trim s) = "jwt_bearer".
Proof.
  unfold normalize_auth_scheme. cbn. rewrite <- !String.eqb_eq, <- orb_true_iff.
  destruct (str_trim s) as [|c t]; [done|]. cbn [str_is_empty]. by destruct (_ || _).
Qed.

(** The text of a member of the payload. *)
Definition payload_text (e : EvidenceEvent) (k : string) : option string := vget (ev_payload e) k ≫= as_str.

Lemma decision_event_g3 e :
  decision_event_satisfies_g3 e = true <->
  ev_type e = "assay.tool.decision" /\ is_Some (normalize_principal (payload_text e "principal")) /\
  is_Some (normalize_auth_scheme (payload_text e "auth_scheme")) /\
  is_Some (normalize_auth_issuer (payload_text e "auth_issuer")).
Proof.
  unfold decision_event_satisfies_g3. rewrite <- !opt_is_some_true. fold (payload_text e "principal").
  fold (payload_text e "auth_scheme") (payload_text e "auth_issuer").
  destruct (String.eqb_spec (ev_type e) "assay.tool.decision") as [|Hn]; cbn [negb]; [|by split; [|intros [? _]]].
  destruct (payload_text e "principal") as [p|]; [|by split; [|intros (_ & ? & _)]].
  rewrite principal_aligned. destruct (opt_is_some (normalize_principal (Some p))); cbn [negb]; [|by split; [|intros (_ & ? & _)]].
  destruct (payload_text e "auth_scheme") as [s|]; cbn [fmap option_fmap option_map]; [|by split; [|intros (_ & _ & ? & _)]].
  rewrite scheme_aligned. cbv zeta.
  destruct (String.eqb_spec (to_ascii_lowercase (str_trim s)) "oauth2") as [E1|E1],
    (String.eqb_spec (to_ascii_lowercase (str_trim s)) "jwt_bearer") as [E2|E2]; cbn [negb andb].
  4: { split; [done|]. by intros (_ & _ & [|] & _). }
  all: destruct (payload_text e "auth_issuer") as [i|]; [|by split; [|intros (_ & _ & _ & ?)]]; rewrite issuer_aligned; tauto.
Qed.

Lemma to_lowercase_idem s : to_ascii_lowercase (to_ascii_lowercase s) = to_ascii_lowercase s.
Proof. induction s as [|[[] [] [] [] [] [] [] []] s IH]; cbn; f_equal; done. Qed.

(** What the handler stores is what it would store again. *)
Lemma normalize_stable :
  (forall i p, normalize_principal i = Some p -> normalize_principal (Some p) = Some p) /\
  (forall i s, normalize_auth_scheme i = Some s -> normalize_auth_scheme (Some s) = Some s) /\
  (forall i s, normalize_auth_issuer i = Some s -> normalize_auth_issuer (Some s) = Some s).
Proof.
  split_and!.
  - intros [i|] p; [|done]. unfold normalize_principal. cbn. intros Hn.
    assert (E : str_trim i = p) by (revert Hn; repeat case_match; naive_solver).
    rewrite <- E in *. rewrite str_trim_idem. done.
  - intros i s [->| ->]%normalize_scheme_ok; done.
  - intros [i|] p; [|done]. unfold normalize_auth_issuer. cbn. intros Hn.
    assert (E : str_trim i = p) by (revert Hn; repeat case_match; naive_solver).
    rewrite <- E in *. rewrite str_trim_idem. done.
Qed.

(** The evidence predicate and the handler's projection agree, in both
    crates: a decision event shows an authorization context exactly when the
    handler's normalisation of its three members keeps each of them; so an event
    that carries the three stored values, whatever they were made of, is
    accepted. *)
Theorem g3_aligned e :
  (decision_event_satisfies_g3 e = true <->
   ev_type e = "assay.tool.decision" /\ is_Some (normalize_principal (payload_text e "principal")) /\
   is_Some (normalize_auth_scheme (payload_text e "auth_scheme")) /\
   is_Some (normalize_auth_issuer (payload_text e "auth_issuer"))) /\
  forall principal scheme issuer p s i,
    normalize_principal principal = Some p -> normalize_auth_scheme scheme = Some s ->
    normalize_auth_issuer issuer = Some i -> ev_type e = "assay.tool.decision" ->
    payload_text e "principal" = Some p -> payload_text e "auth_scheme" = Some s ->
    payload_text e "auth_issuer" = Some i -> decision_event_satisfies_g3 e = true.
Proof.
  split; [apply decision_event_g3|]. destruct normalize_stable as (Sp & Ss & Si).
  intros principal scheme issuer p s i Hp Hs Hi Ht Ep Es Ei. apply decision_event_g3. rewrite Ep, Es, Ei.
  rewrite (Sp _ _ Hp), (Ss _ _ Hs), (Si _ _ Hi). eauto.
Qed.

End Authorization.

(** ** The built-in rules *)

Section Builtin.
Context `{Platform} `{Lowercase}.

(** The decision that an event records about a key. *)
Definition decision_about (key : EnforcementDecisionKey) (e : EvidenceEvent) : option string :=
  match extract_enforcement_decision e with
  | Some (k, d) => if decide (k = key) then Some d else None
  | None => None
  end.

Lemma decisions_insert index key l : enforcement_decisions_for (<[key := l]> index) key = l.
Proof. unfold enforcement_decisions_for. transitivity (default [] (Some l)); [f_equal; apply lookup_insert_eq|done]. Qed.

Lemma decisions_insert_ne index key k l :
  k <> key -> enforcement_decisions_for (<[k := l]> index) key = enforcement_decisions_for index key.
Proof. intros Hne. unfold enforcement_decisions_for. f_equal. by apply lookup_insert_ne. Qed.

Lemma index_decisions events key :
  enforcement_decisions_for (index_from_events events) key = omap (decision_about key) events.
Proof.
  unfold index_from_events.
  assert (Hg : forall index, enforcement_decisions_for (foldl index_event index events) key
    = enforcement_decisions_for index key ++ omap (decision_about key) events).
  { induction events as [|e events IH]; intros index; cbn [foldl omap list_omap]; [by rewrite app_nil_r|].
    rewrite IH. unfold index_event, decision_about. destruct (extract_enforcement_decision e) as [[k d]|]; [|done].
    destruct (decide (k = key)) as [->|Hne]; cbv beta iota.
    - rewrite decisions_insert. by rewrite <- app_assoc.
    - by rewrite decisions_insert_ne. }
  by rewrite Hg.
Qed.

(** Some event of the bundle records [d] for the key. *)
Definition Recorded (events : list EvidenceEvent) (key : EnforcementDecisionKey) (d : string) : Prop :=
  exists e, e ∈ events /\ extract_enforcement_decision e = Some (key, d).

Lemma index_recorded events key d :
  existsb (String.eqb d) (enforcement_decisions_for (index_from_events events) key) = true <-> Recorded events key d.
Proof.
  rewrite index_decisions, existsb_true. unfold Recorded, decision_about. split.
  - intros (x & (e & He & Hd)%list_elem_of_omap & <-%String.eqb_eq). exists e. split; [done|].
    destruct (extract_enforcement_decision e) as [[k x]|]; [|done]. destruct (decide (k = key)); naive_solver.
  - intros (e & He & Hd). exists d. split; [|apply String.eqb_refl]. apply list_elem_of_omap. exists e.
    rewrite Hd. by rewrite decide_True.
Qed.

Definition rule_context (events : list EvidenceEvent) (i : nat) (e : EvidenceEvent) : LintContext :=
  mkLintContext (Z.of_nat i + 1) (ev_seq e) (index_from_events events).

Lemma builtin_findings events f :
  f ∈ run_builtin_rules events <->
  exists i e rule, events !! i = Some e /\ rule ∈ RULES /\ rule e (rule_context events i e) = Some f.
Proof.
  unfold run_builtin_rules, rule_context. set (index := index_from_events events). clearbody index.
  assert (Hg : forall n, f ∈ builtin_loop index n events <->
    exists i e rule, events !! i = Some e /\ rule ∈ RULES /\ rule e (mkLintContext (Z.of_nat i + n) (ev_seq e) index) = Some f).
  { induction events as [|e events IH]; intros n; cbn [builtin_loop].
    - split; [intros Hf; by apply elem_of_nil in Hf|by intros ([|] & ? & ? & ? & _)].
    - rewrite elem_of_app, IH, list_elem_of_omap. split.
      + intros [(rule & Hr & Hf)|(i & e' & rule & Hi & Hr & Hf)]; [by exists 0, e, rule|].
        exists (S i), e', rule. split_and!; [done..|]. by replace (Z.of_nat (S i) + n)%Z with (Z.of_nat i + (n + 1))%Z by lia.
      + intros ([|i] & e' & rule & Hi & Hr & Hf); cbn [lookup list_lookup] in Hi; [injection Hi as <-; left; by exists rule|].
        right. exists i, e', rule. split_and!; [done..|]. by replace (Z.of_nat i + (n + 1))%Z with (Z.of_nat (S i) + n)%Z by lia. }
  apply Hg.
Qed.

Lemma attribution_finding e ctx f :
  check_enforcement_attribution_binding e ctx = Some f ->
  exists key, extract_proxy_refusal_marker e = Some key /\
    existsb (String.eqb "deny") (enforcement_decisions_for (lc_bundle_index ctx) key) = false /\
    fi_rule_id f = "ASSAY-W004" /\ el_line <$> fi_location f = Some (lc_line_number ctx).
Proof.
  unfold check_enforcement_attribution_binding. intros (key & Hm & Hf)%bind_Some. exists key. cbv zeta in Hf.
  destruct (existsb (String.eqb "deny") _); [done|]. by simplify_eq.
Qed.

Lemma attribution_missing e ctx key :
  extract_proxy_refusal_marker e = Some key ->
  existsb (String.eqb "deny") (enforcement_decisions_for (lc_bundle_index ctx) key) = false ->
  is_Some (check_enforcement_attribution_binding e ctx).
Proof. unfold check_enforcement_attribution_binding. intros -> Hd. eexists. cbv beta iota zeta delta [mbind option_bind]. by rewrite Hd. Qed.

(** The registry's rules have different ids. *)
Lemma attribution_rule rule e ctx f :
  rule ∈ RULES -> rule e ctx = Some f -> fi_rule_id f = "ASSAY-W004" -> rule = check_enforcement_attribution_binding.
Proof.
  unfold RULES. rewrite !elem_of_cons. intros Hr Hf Hid.
  destruct Hr as [->|[->|[->|[->|[->|[->|Hr]]]]]]; [exfalso..|done|exfalso|by apply elem_of_nil in Hr].
  - by apply bind_Some in Hf as (? & _ & (? & _ & Hf)%bind_Some); simplify_eq.
  - unfold check_pii_flag_consistency in Hf. destruct (_ && _); by simplify_eq.
  - unfold check_source_format in Hf. destruct (_ && _); by simplify_eq.
  - apply bind_Some in Hf as (? & _ & Hf). destruct (_ && _); by simplify_eq.
  - unfold check_retained_view_readability in Hf. destruct (negb _); [done|]. apply bind_Some in Hf as (? & _ & Hf).
    destruct (bool_decide _); by simplify_eq.
Qed.

(** C32: A denied call that a bundle attributes to the proxy is reported, on the
    line of its observation, exactly when no event of the bundle, before or
    after it, records a deny for the same tool and target digest; a recorded
    allow does not stand in for one. *)
Theorem unbacked_denials_reported events i e :
  events !! i = Some e ->
  (exists f, f ∈ run_builtin_rules events /\ fi_rule_id f = "ASSAY-W004" /\
     (el_line <$> fi_location f) = Some (Z.of_nat i + 1)%Z) <->
  exists key, extract_proxy_refusal_marker e = Some key /\ ~ Recorded events key "deny".
Proof.
  intros Hi. split.
  - intros (f & (j & e' & rule & Hj & Hr & Hf)%builtin_findings & Hid & Hl).
    rewrite (attribution_rule _ _ _ _ Hr Hf Hid) in Hf. apply attribution_finding in Hf as (key & Hm & Hn & _ & Hline).
    assert (E : j = i) by (rewrite Hl in Hline; injection Hline; lia). subst j. simplify_eq.
    exists key. split; [done|]. change (lc_bundle_index _) with (index_from_events events) in Hn. by rewrite <- index_recorded, Hn.
  - intros (key & Hm & Hn). rewrite <- index_recorded in Hn. apply not_true_iff_false in Hn.
    destruct (attribution_missing e (rule_context events i e) key Hm Hn) as [f Hf]. exists f. split.
    + apply builtin_findings. exists i, e, check_enforcement_attribution_binding. split_and!; [done| |done].
      unfold RULES. rewrite !elem_of_cons. tauto.
    + by apply attribution_finding in Hf as (_ & _ & _ & Hid & Hline).
Qed.

(** A subject that is reported for its missing flag is reported as a secret. *)
Lemma secrets_flag_rule e ctx :
  is_Some (check_secrets_flag_consistency e ctx) <->
  is_Some (check_secret_in_subject e ctx) /\ ev_contains_secrets e = false.
Proof.
  unfold check_secrets_flag_consistency, check_secret_in_subject.
  destruct (ev_subject e) as [subject|]; cbv beta iota delta [mbind option_bind]; [|by split; [|intros [[] _]]].
  assert (Hf : forall l, existsb (matches_secret subject) l = opt_is_some (find (matches_secret subject) l)).
  { intros l. induction l as [|x l IH]; cbn [existsb find]; [done|]. by destruct (matches_secret _ _). }
  rewrite Hf. destruct (find _ _), (ev_contains_secrets e); cbn [opt_is_some andb negb];
    (split; [intros [? ?]|intros [[? ?] ?]]); done || eauto.
Qed.

End Builtin.

(** ** The report *)

Section Report.
Context `{Platform} `{Lowercase} `{GlobSet} `{PackSerde} `{BundleSerde} `{!JsonTextLaws} `{!Container} `{!ContainerLaws}.

(** A report that shows what it says it shows of all the findings there are. *)
Record Discloses (all : list LintFinding) (cap : Z) (r : LintReport) : Prop := {
  dc_cap : lr_applied_cap r = cap;
  dc_within : (Z.of_nat (length (lr_findings r)) <= cap)%Z;
  dc_total : ls_total (lr_summary r) = Z.of_nat (length (lr_findings r));
  dc_counts : ls_total (lr_summary r) = (ls_errors (lr_summary r) + ls_warnings (lr_summary r) + ls_infos (lr_summary r))%Z;
  (** What is dropped is counted, and nothing dropped is more severe than what is kept. *)
  dc_dropped : exists dropped, all ≡ₚ lr_findings r ++ dropped /\
    Z.of_nat (length dropped) = lr_truncated_count r /\ (lr_truncated r = true <-> dropped <> []) /\
    forall x y, x ∈ lr_findings r -> y ∈ dropped -> (priority (fi_severity y) <= priority (fi_severity x))%Z;
  (** The gate on a threshold is that of all findings. *)
  dc_gate : (1 <= cap)%Z -> forall threshold, has_findings_at_or_above r threshold =
    existsb (fun f => (priority threshold <=? priority (fi_severity f))%Z) all
}.

Lemma gate_priority r threshold :
  has_findings_at_or_above r threshold =
  existsb (fun f => (priority threshold <=? priority (fi_severity f))%Z) (lr_findings r).
Proof.
  unfold has_findings_at_or_above. induction (lr_findings r) as [|f l IH]; [done|]. cbn [existsb]. rewrite IH. f_equal.
  unfold has_severity. by destruct threshold, (fi_severity f).
Qed.

Lemma count_all l :
  Z.of_nat (length l) = (count_severity SevError l + count_severity SevWarn l + count_severity SevInfo l)%Z.
Proof.
  induction l as [|f l IH]; [done|].
  assert (Hc : forall s, count_severity s (f :: l) = ((if has_severity s f then 1 else 0) + count_severity s l)%Z).
  { intros s. unfold count_severity. cbn [List.filter]. destruct (has_severity s f); cbn [length]; lia. }
  rewrite !Hc. cbn [length]. unfold has_severity. destruct (fi_severity f); repeat case_bool_decide; done || lia.
Qed.

Lemma truncated_gate kept dropped threshold :
  (dropped <> [] -> kept <> []) ->
  (forall x y, x ∈ kept -> y ∈ dropped -> (priority (fi_severity y) <= priority (fi_severity x))%Z) ->
  existsb (fun f => (priority threshold <=? priority (fi_severity f))%Z) (kept ++ dropped) =
  existsb (fun f => (priority threshold <=? priority (fi_severity f))%Z) kept.
Proof.
  intros Hn Hle. rewrite existsb_app. destruct (existsb _ dropped) eqn:Ed; [|apply orb_false_r].
  apply existsb_true in Ed as (y & Hy & Hp%Z.leb_le). rewrite orb_true_r. symmetry. apply existsb_true.
  destruct kept as [|x kept]; [destruct Hn; [by intros ->; apply elem_of_nil in Hy|done]|].
  exists x. split; [by left|]. apply Z.leb_le. specialize (Hle x y ltac:(by left) Hy). lia.
Qed.

Lemma existsb_perm {A} (f : A -> bool) l k : l ≡ₚ k -> existsb f l = existsb f k.
Proof. intros Hp. apply Bool.eq_iff_eq_true. rewrite !existsb_true. by setoid_rewrite Hp. Qed.

Lemma lint_events_discloses events manifest options r :
  (0 <= default DEFAULT_MAX_RESULTS (lo_max_results options))%Z ->
  lint_events events manifest options = Ok r ->
  exists pack_findings meta, run_packs events manifest options = Ok (pack_findings, meta) /\
    Discloses (run_builtin_rules events ++ pack_findings) (default DEFAULT_MAX_RESULTS (lo_max_results options)) (lp_report r) /\
    lr_bundle_meta (lp_report r) = manifest /\
    lp_pack_meta r = with_truncation (lr_truncated (lp_report r)) (lr_truncated_count (lp_report r)) <$> meta.
Proof.
  intros Hcap. unfold lint_events. destruct (run_packs events manifest options) as [[pf meta]|]; [|done].
  set (all := run_builtin_rules events ++ pf). set (cap := default DEFAULT_MAX_RESULTS _) in *.
  destruct (truncate_findings all cap) as [[kept truncated] count] eqn:Et. intros [= <-]. exists pf, meta.
  apply truncate_findings_inv in Et as (dropped & Hp & Hc & Ht & Hw & Hfull & Hle & _); [|done].
  split_and!; [done| |done|done]. split; [done|exact Hw|done|apply count_all|by exists dropped|].
  intros Hone threshold. rewrite gate_priority. cbn. symmetry. rewrite (existsb_perm _ _ _ Hp). apply truncated_gate; [|done].
  intros Hd%Ht%Hfull Hk. rewrite Hk in Hd. cbn in Hd. lia.
Qed.

Lemma run_packs_accepts events manifest options :
  (exists pf meta, run_packs events manifest options = Ok (pf, meta)) <-> Compatible (lo_packs options).
Proof.
  unfold run_packs. destruct (lo_packs options) as [|p packs] eqn:Ep; cbn [is_nil negb].
  - split; [intros _; constructor|by eexists _, _].
  - rewrite <- Ep, <- executor_accepts. destruct (executor_new (lo_packs options)) as [ex|e]; split.
    + by eexists.
    + by eexists _, _.
    + by intros (? & ? & ?).
    + by intros [? ?].
Qed.

(** What is linted on a bundle that verifies. *)
Lemma lint_verified reader limits options v :
  Sane limits -> (vl_max_json_depth limits <= MAX_NESTING_DEPTH)%Z ->
  verify_bundle_with_limits reader limits = Some (Ok v) ->
  exists content events, BundleOk (vr_manifest v) content events /\
    lint_bundle_with_options reader limits options =
      Some (Done (match lint_events events (vr_manifest v) options with
                  | Ok report => Ok report
                  | Err e => Err (PacksRefused e)
                  end)).
Proof.
  intros Hs Hd Hv. destruct (verified_opens reader limits v) as [content Ho]; [done..|].
  destruct (opened_events _ _ _ Hs Hd Ho) as (events & He & Hb). exists content, events. split; [done|].
  unfold lint_bundle_with_options, events_vec in *. rewrite Ho. cbn [br_events_content br_manifest] in *. by rewrite He.
Qed.

Lemma lint_ok_verified reader limits options r :
  Sane limits -> lint_bundle_with_options reader limits options = Some (Done (Ok r)) ->
  exists v, verify_bundle_with_limits reader limits = Some (Ok v).
Proof.
  intros Hs. unfold lint_bundle_with_options.
  destruct (open_with_limits reader limits) as [[bundle|]|] eqn:Eo; [|done..]. intros _.
  destruct (open_verified reader limits bundle) as (source & b & Hl & Hv & _); [done..|]. exists (vb_result b).
  unfold verify_bundle_with_limits, verify_bundle_verbose_with_limits. by rewrite Hl, Hv.
Qed.

Lemma lint_no_panic reader limits options :
  Sane limits -> (vl_max_json_depth limits <= MAX_NESTING_DEPTH)%Z ->
  lint_bundle_with_options reader limits options <> Some Panicked.
Proof.
  intros Hs Hd. unfold lint_bundle_with_options.
  destruct (open_with_limits reader limits) as [[bundle|]|] eqn:Eo; [|done..].
  destruct (opened_events reader limits bundle) as (events & He & Hb); [done..|]. unfold events_vec in He. by rewrite He.
Qed.

(** C30: Under sane limits whose nesting depth is at most the one the reader of
    events applies, and a ceiling that is not negative, linting never panics and
    gives a report exactly when the bundle verifies and no two rules of the
    packs clash: have one canonical id, where one is of a compliance pack.  The
    report carries the verified manifest, and its findings are those of the
    built-in rules over the verified events and of the packs, less what exceeds
    the ceiling, of which it states the number and keeps the most severe; with
    a ceiling of at least one, a gate on a severity then decides as it would
    without a ceiling. *)
Theorem lint_bundle_faithful reader limits options :
  Sane limits -> (vl_max_json_depth limits <= MAX_NESTING_DEPTH)%Z ->
  (0 <= default DEFAULT_MAX_RESULTS (lo_max_results options))%Z ->
  lint_bundle_with_options reader limits options <> Some Panicked /\
  ((exists r, lint_bundle_with_options reader limits options = Some (Done (Ok r))) <->
   (exists v, verify_bundle_with_limits reader limits = Some (Ok v)) /\ Compatible (lo_packs options)) /\
  forall r, lint_bundle_with_options reader limits options = Some (Done (Ok r)) ->
    exists v content events pack_findings meta,
      verify_bundle_with_limits reader limits = Some (Ok v) /\ BundleOk (vr_manifest v) content events /\
      lr_bundle_meta (lp_report r) = vr_manifest v /\
      run_packs events (vr_manifest v) options = Ok (pack_findings, meta) /\
      Discloses (run_builtin_rules events ++ pack_findings) (default DEFAULT_MAX_RESULTS (lo_max_results options))
        (lp_report r) /\
      lp_pack_meta r = with_truncation (lr_truncated (lp_report r)) (lr_truncated_count (lp_report r)) <$> meta.
Proof.
  intros Hs Hd Hcap. split; [by apply lint_no_panic|].
  assert (Hok : forall r, lint_bundle_with_options reader limits options = Some (Done (Ok r)) ->
    exists v content events, verify_bundle_with_limits reader limits = Some (Ok v) /\
      BundleOk (vr_manifest v) content events /\ lint_events events (vr_manifest v) options = Ok r).
  { intros r Hr. destruct (lint_ok_verified _ _ _ _ Hs Hr) as [v Hv].
    destruct (lint_verified reader limits options v Hs Hd Hv) as (content & events & Hb & Hl). exists v, content, events.
    split_and!; [done..|]. rewrite Hl in Hr. destruct (lint_events _ _ _); [by injection Hr as ->|done]. }
  split; [split|].
  - intros [r (v & content & events & Hv & _ & Hl)%Hok]. split; [by exists v|].
    apply lint_events_discloses in Hl as (pf & meta & Hp & _); [|done]. apply (run_packs_accepts events (vr_manifest v)). eauto.
  - intros [[v Hv] Hp]. destruct (lint_verified reader limits options v Hs Hd Hv) as (content & events & _ & ->).
    apply (run_packs_accepts events (vr_manifest v)) in Hp as (pf & meta & Hp). unfold lint_events. rewrite Hp.
    destruct (truncate_findings _ _) as [[? ?] ?]. by eexists.
  - intros r (v & content & events & Hv & Hb & Hl)%Hok.
    apply lint_events_discloses in Hl as (pf & meta & Hp & Hdis & Hm & Hmeta); [|done].
    exists v, content, events, pf, meta. by split_and!.
Qed.

End Report.
