(* ===== verification/PackWitnesses.v ===== *)
(** * Concrete packs, keys and registries

    A world with files, a clock and a registry that answers in turn; the laws
    the theorems on packs assume hold of it, and each theorem with hypotheses
    applied to a concrete pack, store or lockfile. *)
From stdpp Require Import base tactics list strings gmap pretty sorting relations.
From Stdlib Require Import Ascii ZArith Lia.
From S2P Require Import Prelude RustStr Json Platform PackRef PackYaml PackTrust PackTrustCorrect RegistryClient RegistryClientCorrect PackCache PackResolver PackResolverCorrect PackCacheCorrect Lockfile LockfileCorrect.
From S2P Require Import DecisionTruthWitnesses.

#[local] Existing Instance truth_platform.
#[local] Existing Instance truth_canon_laws.

(** ** Instances

    A YAML text is a string scalar, Base64 the identity, a key is its SPKI bytes
    and signs a message by naming itself. *)

#[local] Instance toy_yaml : YamlReader := {|
  yaml_from_str := fun s => Ok (YStr s);
  yaml_number_fmt := fun _ => "n";
  yaml_debug := fun _ => "y";
  char_is_alphanumeric := fun c => match c with String a EmptyString => is_ascii_alphanumeric a | _ => false end
|}.

Definition toy_key_id : string := sha256_hex_bytes "spki".

Definition toy_envelope : DsseEnvelope :=
  mkDsseEnvelope PAYLOAD_TYPE_PACK_V1 "spack"
    [mkDsseSignature "other" "nothing"; mkDsseSignature toy_key_id "by spki"].

#[local] Instance toy_crypto : PackCrypto := {|
  base64_decode := fun s => Ok s;
  dsse_from_json := fun s => if String.eqb s "envelope" then Ok toy_envelope else Err "not an envelope";
  VerifyingKey := string;
  key_from_spki := fun s => Ok s;
  Signature := string;
  signature_from_slice := fun s => Ok s;
  ed25519_verify := fun key _ signature => String.eqb signature ("by " +:+ key)
|}.

Record World : Type := mkWorld {
  w_files : gmap string string;
  w_time : Z;
  w_token : option CachedToken;
  w_responses : list (Result WebResponse string)
}.
#[local] Instance World_eta : Eta World := fun w =>
  mkWorld (w_files w) (w_time w) (w_token w) (w_responses w).

#[local] Instance world_clock : Clock World := {| read_clock := fun w => (Done (w_time w), w) |}.

(** The last response is repeated; an empty list is a registry that is down. *)
Definition next_response (w : World) : Result WebResponse string * World :=
  match w_responses w with
  | [] => (Err "connection refused", w)
  | [r] => (r, w)
  | r :: rest => (r, w <| w_responses := rest |>)
  end.

#[local] Instance world_web : Web World := {|
  web_send := fun _ w => let '(r, w) := next_response w in (Done r, w);
  web_sleep_ms := fun ms w => (Done (), w <| w_time := (w_time w + Z.max 0 ms * 1000000)%Z |>);
  gen_range_ms := fun n w => (Done n, w);
  jittered_ms := fun n w => (Done n, w)
|}.

#[local] Instance world_token : TokenCell World := {|
  cached_token := w_token;
  set_cached_token := fun t w => w <| w_token := t |>
|}.

#[local] Instance world_disk : Disk World := {|
  path_exists := fun p w => (Done (opt_is_some (w_files w !! p)), w);
  path_is_dir := fun p w => (Done false, w);
  read_dir := fun p w => (Done (Ok []), w);
  read_to_string := fun p w =>
    (Done (match w_files w !! p with Some c => Ok c | None => Err "no such file" end), w);
  write_file := fun p c w => (Done (Ok ()), w <| w_files := <[p := c]> (w_files w) |>);
  rename_file := fun p q w =>
    match w_files w !! p with
    | Some c => (Done (Ok ()), w <| w_files := <[q := c]> (delete p (w_files w)) |>)
    | None => (Done (Err "no such file"), w)
    end;
  create_dir_all := fun p w => (Done (Ok ()), w);
  remove_dir_all := fun p w =>
    (Done (Ok ()), w <| w_files := filter (fun e => starts_with (fst e) p = false) (w_files w) |>)
|}.

#[local] Instance world_disk_laws : DiskLaws (S := World).
Proof.
  refine {| disk_file := fun w p => w_files w !! p; disk_time := w_time |}.
  - intros p s. eexists _, s. split_and!; [done| |done|lia]. intros c Hc. by rewrite Hc.
  - intros p s. eexists _, s. split_and!; [done| |done|lia].
    destruct (w_files s !! p); [done|by eexists].
  - intros s. exists s. split_and!; [done..|lia].
  - intros p s s' [= <-] q. done.
  - intros p c s s' [= <-]. cbn. split; [apply lookup_insert_eq|].
    intros q Hq. by rewrite lookup_insert_ne.
  - intros p p' s s'. cbn. destruct (w_files s !! p) as [c|] eqn:E; [|done]. intros [= <-] Hp. cbn.
    split; [by rewrite lookup_insert_eq|]. intros q Hq Hq'.
    by rewrite lookup_insert_ne, lookup_delete_ne.
Defined.

#[local] Instance world_random : RandomLaws (S := World).
Proof. split; intros n s Hn; exists n, s; cbn; (split; [done|lia]). Qed.

#[local] Instance toy_registry_serde : RegistrySerde := {|
  value_from_str := fun _ => None;
  versions_from_json := fun _ => Err "none";
  keys_from_json := fun _ => Err "none";
  oidc_value_from_json := fun s => Ok s;
  registry_token_from_json := fun s => Ok (s, 3600%Z)
|}.

(** The metadata of the one entry these runs store. *)
Definition toy_meta : CacheMeta :=
  mkCacheMeta 1000 (sha256_hex_bytes "spack") (Some "tag") (1000 + 60 * nanos_per_sec)%Z None
    (Some "https://r").
#[local] Instance CacheMeta_eq_dec : EqDecision CacheMeta.
Proof. solve_decision. Defined.

#[local] Instance toy_cache_serde : CacheSerde := {|
  cache_meta_from_str := fun s => if String.eqb s "meta" then Ok toy_meta else Err "not metadata";
  cache_meta_to_string := fun m => if decide (m = toy_meta) then Ok "meta" else Err "other";
  dsse_to_string := fun _ => Ok "envelope"
|}.

#[local] Instance toy_lock_serde : LockSerde := {|
  lockfile_from_yaml := fun _ => Err "none";
  lockfile_to_yaml := fun _ => Err "none";
  registry_pkg_version := "1.0.0"
|}.

(** ** References and digests *)

Lemma pack_ref_roundtrip_witness :
  let r := RegistryRef "eu-ai-act" "1.2.0" (Some "sha256:ab") in
  pack_ref_parse " eu-ai-act@1.2.0#sha256:ab " = Ok r /\
  pack_ref_fmt r = str_trim " eu-ai-act@1.2.0#sha256:ab " /\ pack_ref_parse (pack_ref_fmt r) = Ok r.
Proof.
  cbv zeta. assert (E : pack_ref_parse " eu-ai-act@1.2.0#sha256:ab " =
    Ok (RegistryRef "eu-ai-act" "1.2.0" (Some "sha256:ab"))) by (vm_compute; reflexivity).
  split; [exact E|]. exact (pack_ref_roundtrip _ _ E).
Defined.

Lemma digest_format_free_witness : compute_digest "pack" = compute_digest "pack".
Proof.
  apply (digest_format_free "pack" "pack" (Str "pack") (Str "pack")); vm_compute; reflexivity.
Defined.

(** ** Encoding and keys *)

Lemma build_pae_unambiguous_witness : "a 1 b" = "a 1 b" /\ "c" = "c".
Proof. apply (build_pae_unambiguous "a 1 b" "c" "a 1 b" "c"). reflexivity. Defined.

Definition toy_root : TrustedKey :=
  mkTrustedKey toy_key_id "Ed25519" "spki" None None None false.

Definition toy_store : TrustStoreInner :=
  match from_pinned_roots [toy_root] with Ok store => store | Err _ => empty_inner end.

Lemma toy_store_pinned : insert_pinned_key empty_inner toy_root = Ok toy_store.
Proof. vm_compute. reflexivity. Qed.

Lemma toy_store_inv : TrustInv toy_store.
Proof. exact (pin_inv _ _ _ empty_inv toy_store_pinned). Qed.

Lemma trust_store_invariant_witness : TrustInv toy_store.
Proof.
  apply trust_store_invariant. eapply rtc_l; [|apply rtc_refl].
  apply (ts_pin toy_root). exact toy_store_pinned.
Defined.

(** A manifest that revokes the root and adds another key. *)
Definition second_id : string := sha256_hex_bytes "second key".
Definition toy_manifest : KeysManifest :=
  mkKeysManifest 1
    [mkTrustedKey toy_key_id "Ed25519" "spki" None None None true;
     mkTrustedKey second_id "Ed25519" "second key" None None None false] None.
Definition revoking_manifest : KeysManifest :=
  mkKeysManifest 1 [mkTrustedKey second_id "Ed25519" "second key" None None None true] None.

Definition run_manifest (store : TrustStoreInner) (m : KeysManifest) : TrustStoreInner :=
  match add_from_manifest 1000 store m with Done s => s | Panicked => store end.

Lemma pinned_root_irrevocable_witness :
  get_key_inner (run_manifest toy_store toy_manifest) 2000 toy_key_id = Ok "spki" /\
  get_key_inner (run_manifest toy_store toy_manifest) 2000 toy_key_id =
  get_key_inner toy_store 2000 toy_key_id.
Proof.
  split; [vm_compute; reflexivity|].
  apply pinned_root_irrevocable; [exact toy_store_inv| |].
  - eapply rtc_l; [|apply rtc_refl]. apply (rs_manifest 1000 toy_manifest). vm_compute. reflexivity.
  - apply is_pinned_spec. vm_compute. reflexivity.
Defined.

Lemma revocation_effective_witness :
  let store := run_manifest toy_store toy_manifest in
  get_key_inner store 2000 second_id = Ok "second key" /\
  get_key_inner (run_manifest store revoking_manifest) 2000 second_id = Err (KeyNotTrusted second_id).
Proof.
  cbv zeta. split; [vm_compute; reflexivity|].
  apply (revocation_effective 1000 (run_manifest toy_store toy_manifest) revoking_manifest).
  - apply (trust_step_inv toy_store); [|exact toy_store_inv].
    apply (ts_manifest 1000 toy_manifest). vm_compute. reflexivity.
  - vm_compute. reflexivity.
  - rewrite <- is_pinned_spec. vm_compute. discriminate.
  - eexists. split; [apply list_elem_of_singleton; reflexivity|reflexivity].
  - intros key Hk%list_elem_of_singleton _. by rewrite Hk.
Defined.

(** ** Packs from a registry *)

Definition pack_header (signed : bool) (name : string) : option string :=
  if String.eqb name "x-pack-signature" then if signed then Some "envelope" else None
  else if String.eqb name "etag" then Some "tag"
  else if String.eqb name "cache-control" then Some "private, max-age=60"
  else None.

Definition pack_response (signed : bool) : WebResponse :=
  mkWebResponse 200 "200 OK" (pack_header signed) (Ok "pack").
Definition not_modified : WebResponse :=
  mkWebResponse 304 "304 Not Modified" (fun _ => None) (Ok EmptyString).
Definition server_error : WebResponse :=
  mkWebResponse 503 "503" (fun _ => None) (Ok "busy").

Definition toy_config : RegistryConfig := mkRegistryConfig "https://r/" None false 30 3.
Definition toy_client : RegistryClient := mkRegistryClient "https://r" NoToken toy_config.

Definition toy_resolver (allow_unsigned : bool) : PackResolver :=
  mkPackResolver toy_client "/cache" toy_store
    (mkResolverConfig toy_config false allow_unsigned None).

Definition fresh (responses : list WebResponse) : World := mkWorld ∅ 1000 None (Ok <$> responses).

Definition toy_fetch (signed : bool) : FetchResult :=
  mkFetchResult "pack" (from_headers (pack_header signed)) (sha256_hex_bytes "spack").

Lemma verify_pack_sound_witness :
  exists v, verify_pack (S := World) (toy_fetch true) toy_store (mkVerifyOptions false false) (fresh [])
    = (Done (Ok v), fresh []) /\ vr_signed v = true /\
  match ph_signature (fr_headers (toy_fetch true)) with
  | None => False
  | Some b64 => exists envelope, parse_dsse_envelope b64 = Ok envelope /\
      EnvelopeSigns (S := World) toy_store "pack" envelope
  end.
Proof.
  eexists. assert (E : verify_pack (S := World) (toy_fetch true) toy_store (mkVerifyOptions false false) (fresh [])
    = (Done (Ok (mkVerifyResult true (Some "other") (sha256_hex_bytes "spack"))), fresh []))
    by (vm_compute; reflexivity).
  split; [exact E|]. pose proof (verify_pack_sound _ _ _ _ _ _ E) as (_ & _ & _ & Hs).
  split; [reflexivity|]. cbn in Hs |- *. destruct Hs as [Hs|Hs]; [discriminate|exact Hs].
Defined.

(** The key reported is that of the first signature, which is not the one that
    verified. *)
Lemma reported_key_is_the_first :
  fst (verify_pack (S := World) (toy_fetch true) toy_store (mkVerifyOptions false false) (fresh []))
  = Done (Ok (mkVerifyResult true (Some "other") (sha256_hex_bytes "spack"))) /\
  get_key_inner toy_store 1000 "other" = Err (KeyNotTrusted "other").
Proof. split; vm_compute; reflexivity. Qed.

Lemma resolve_registry_sound_witness :
  exists pack s, resolve_registry (toy_resolver false) "demo" "1.0.0" None (fresh [pack_response true])
    = (Done (Ok pack), s) /\
  compute_digest (rp_content pack) = Done (rp_digest pack) /\
  ResolvedFrom (S := World) (toy_resolver false) "demo" "1.0.0" None (fresh [pack_response true]) s pack.
Proof.
  eexists _, _. assert (E : resolve_registry (toy_resolver false) "demo" "1.0.0" None (fresh [pack_response true])
    = (Done (Ok (mkResolvedPack "pack" (FromRegistry "https://r") (sha256_hex_bytes "spack")
          (Some (mkVerifyResult true (Some "other") (sha256_hex_bytes "spack"))))),
       snd (resolve_registry (toy_resolver false) "demo" "1.0.0" None (fresh [pack_response true]))))
    by (vm_compute; reflexivity).
  split; [exact E|]. exact (resolve_registry_sound _ _ _ _ _ _ _ E).
Defined.

(** *** What strict resolution does not stop *)

Definition after {A} (r : Outcome A * World) : World := snd r.

(** The registry sends an unsigned pack: a strict resolver refuses it, but once it
    has been prefetched, or resolved by a lenient one, the same strict resolver
    serves it from the cache. *)
Lemma unsigned_pack_served_from_cache :
  let w := fresh [pack_response false] in
  fst (resolve (toy_resolver false) "demo@1.0.0" w) = Done (Err (Unsigned "pack" "unknown")) /\
  fst (resolve (toy_resolver false) "demo@1.0.0" (after (prefetch (toy_resolver false) "demo@1.0.0" w))) =
    Done (Ok (mkResolvedPack "pack" FromCache (sha256_hex_bytes "spack") None)) /\
  fst (resolve (toy_resolver false) "demo@1.0.0" (after (resolve (toy_resolver true) "demo@1.0.0" w))) =
    Done (Ok (mkResolvedPack "pack" FromCache (sha256_hex_bytes "spack") None)).
Proof. cbv zeta. split_and!; vm_compute; reflexivity. Qed.

(** ** The cache *)

Definition stored_world : World :=
  after (cache_put (S := World) "/cache" "demo" "1.0.0" (toy_fetch false) (Some "https://r") (fresh [not_modified])).

Lemma toy_stored : Stored (S := World) "/cache" "demo" "1.0.0" "pack" toy_meta stored_world.
Proof. split; [vm_compute; reflexivity|]. exists "meta". split; vm_compute; reflexivity. Qed.

Lemma cached_pack_intact_witness :
  exists entry s, cache_get (S := World) "/cache" "demo" "1.0.0" stored_world = (Done (Ok (Some entry)), s) /\
    Intact (S := World) entry.
Proof.
  eexists _, _. assert (E : cache_get (S := World) "/cache" "demo" "1.0.0" stored_world =
    (Done (Ok (Some (mkCacheEntry "pack" toy_meta None))), stored_world)) by (vm_compute; reflexivity).
  split; [exact E|]. exact (cached_pack_intact _ _ _ _ _ _ E).
Defined.

Lemma put_then_get_witness :
  exists meta r s2 now, cm_digest meta = sha256_hex_bytes "spack" /\ cm_etag meta = Some "tag" /\
    cache_get (S := World) "/cache" "demo" "1.0.0" stored_world = (Done r, s2) /\
    (disk_time stored_world <= now <= disk_time s2)%Z /\
    if (cm_expires_at meta <? now)%Z then r = Ok None
    else exists sig, r = Ok (Some (mkCacheEntry "pack" meta sig)).
Proof.
  apply (put_then_get (S := World) "/cache" "demo" "1.0.0" (toy_fetch false) (Some "https://r")
           (fresh [not_modified]) stored_world).
  - intros m t. cbn. destruct (decide (m = toy_meta)) as [->|]; [|discriminate].
    intros [= <-]. reflexivity.
  - vm_compute. reflexivity.
  - vm_compute. reflexivity.
Defined.

(** A minute and a second later. *)
Definition expired_world : World := stored_world <| w_time := (1000 + 61 * nanos_per_sec)%Z |>.

(** A registry that always answers that the copy is current. *)
Definition stale_web : Web World := {|
  web_send := fun _ w => (Done (Ok not_modified), w);
  web_sleep_ms := fun _ w => (Done (), w);
  gen_range_ms := fun n w => (Done n, w);
  jittered_ms := fun n w => (Done n, w)
|}.

Lemma expired_entry_never_revalidated_witness :
  exists s', resolve_registry (Web0 := stale_web) (toy_resolver false) "demo" "1.0.0" None expired_world =
    (Done (Err (CacheError "304 response but no cached entry")), s').
Proof.
  apply (expired_entry_never_revalidated (Web0 := stale_web) (toy_resolver false) "demo" "1.0.0" None
           "pack" toy_meta expired_world).
  - reflexivity.
  - split; [vm_compute; reflexivity|]. exists "meta". split; vm_compute; reflexivity.
  - vm_compute. reflexivity.
  - vm_compute. reflexivity.
  - intros s0 _. exists s0. split; [reflexivity|]. split; [done|lia].
Defined.

(** ** The client *)

(** Two failures, then the pack: two retries. *)
Lemma request_attempts_example :
  let w := fresh [server_error; server_error; pack_response true] in
  exists response s, request (S := World) toy_client GET "https://r/packs/demo/1.0.0" None w = (Done (Ok response), s) /\
    wr_status response = 200%Z /\ w_responses s = [Ok (pack_response true)].
Proof. cbv zeta. eexists _, _. split; [vm_compute; reflexivity|]. by split. Qed.

Lemma backoff_bounded_witness :
  exists pause s', backoff_ms (S := World) (RateLimited (Some 3600%Z)) 1 (fresh []) = (Done pause, s') /\
    (10 <= pause <= 33000)%Z.
Proof. apply (backoff_bounded (S := World) (RateLimited (Some 3600%Z))). lia. Defined.

Definition toy_provider : OidcProvider := mkOidcProvider "https://g" "t" "https://r/auth/oidc/exchange" "aud".
Definition token_world : World :=
  (fresh []) <| w_token := Some (mkCachedToken "tok" (1000 + 91 * nanos_per_sec)%Z) |>.

Lemma cached_token_fresh_witness :
  oidc_get_token toy_provider token_world = (Done (Ok (Some "tok")), token_world) /\
  ((exists cached now, cached_token token_world = Some cached /\ "tok" = ct_token cached /\
     read_clock token_world = (Done now, token_world) /\ (now + 90 * nanos_per_sec < ct_expires_at cached)%Z) \/
   (exists s0, exchange_token_with_retry toy_provider s0 = (Done (Ok "tok"), token_world))).
Proof.
  assert (E : oidc_get_token toy_provider token_world = (Done (Ok (Some "tok")), token_world))
    by (vm_compute; reflexivity).
  split; [exact E|]. exact (cached_token_fresh _ _ _ _ E).
Defined.

(** ** Lockfiles *)

Definition toy_locked (digest : string) : LockedPack :=
  mkLockedPack "demo" "1.0.0" digest LockRegistry (Some "https://r") None None.
Definition toy_lockfile (digest : string) : Lockfile := mkLockfile 2 0 "assay-cli" [toy_locked digest].

Lemma add_pack_spec_witness :
  let added := add_pack 5 (toy_lockfile "old") (toy_locked "new") in
  LockInv added /\ get_pack added "demo" = Some (toy_locked "new").
Proof.
  cbv zeta. destruct (add_pack_spec 5 (toy_lockfile "old") (toy_locked "new")) as [Hi Hg].
  - apply (bool_decide_unpack _). vm_compute. exact I.
  - split; [exact Hi|]. exact (Hg "demo").
Defined.

Definition generated : Lockfile :=
  match fst (generate_lockfile (S := World) ["demo@1.0.0"] (toy_resolver false) (fresh [pack_response true])) with
  | Done (Ok l) => l
  | _ => toy_lockfile ""
  end.

Lemma generated_lockfile_sound_witness :
  lp_digest <$> head (lf_packs generated) = Some (sha256_hex_bytes "spack") /\ LockInv generated.
Proof.
  split; [vm_compute; reflexivity|].
  apply (generated_lockfile_sound (S := World) ["demo@1.0.0"] (toy_resolver false) (fresh [pack_response true])
           (after (generate_lockfile (S := World) ["demo@1.0.0"] (toy_resolver false) (fresh [pack_response true])))).
  vm_compute. reflexivity.
Defined.

Definition verified_run (digest : string) : Outcome (RegistryResult VerifyLockResult) * World :=
  verify_lockfile (toy_lockfile digest) (toy_resolver false) (fresh [pack_response true]).

Lemma verify_lockfile_sound_witness :
  exists r, fst (verified_run (sha256_hex_bytes "spack")) = Done (Ok r) /\ vl_matched r = ["demo"] /\
    forall locked, locked ∈ lf_packs (toy_lockfile (sha256_hex_bytes "spack")) ->
      lp_source locked = LockLocal \/
      exists content, compute_digest content = Done (lp_digest locked) /\
        Verified (S := World) (toy_resolver false) locked.
Proof.
  set (r := mkVerifyLockResult true ["demo"] [] [] []).
  assert (E : verify_lockfile (toy_lockfile (sha256_hex_bytes "spack")) (toy_resolver false)
    (fresh [pack_response true]) = (Done (Ok r), after (verified_run (sha256_hex_bytes "spack"))))
    by (vm_compute; reflexivity).
  exists r. split; [|split; [reflexivity|]].
  - unfold verified_run. rewrite E. reflexivity.
  - exact (proj2 (verify_lockfile_sound _ _ _ _ _ E) eq_refl).
Defined.

(** A registry pack whose content changed is reported as missing. *)
Lemma changed_pack_is_missing :
  fst (verified_run "sha256:0") = Done (Ok (mkVerifyLockResult false [] [] ["demo"] [])).
Proof. vm_compute. reflexivity. Qed.

Definition updated_run : Outcome (RegistryResult (list string) * Lockfile) * World :=
  update_lockfile (toy_lockfile "sha256:0") (toy_resolver false) (fresh [pack_response true]).

Lemma update_lockfile_spec_witness :
  exists names lockfile', fst updated_run = Done (Ok names, lockfile') /\ names = ["demo"] /\
    Forall2 same_entry (lf_packs (toy_lockfile "sha256:0")) (lf_packs lockfile').
Proof.
  set (l := (toy_lockfile "sha256:0") <| lf_packs := [toy_locked (sha256_hex_bytes "spack")] |>
              <| lf_generated_at := 1000%Z |>).
  assert (E : update_lockfile (toy_lockfile "sha256:0") (toy_resolver false) (fresh [pack_response true])
    = (Done (Ok ["demo"], l), after updated_run)) by (vm_compute; reflexivity).
  exists ["demo"], l. split; [|split; [reflexivity|]].
  - unfold updated_run. rewrite E. reflexivity.
  - exact (proj1 (update_lockfile_spec _ _ _ _ _ _ E)).
Defined.
