(* ===== verification/Witnesses.v ===== *)
(** * Concrete runs

    The interfaces to third-party code instantiated by concrete functions, and
    the theorems with hypotheses applied to concrete inputs: each lemma shows
    that the hypotheses of a theorem can hold together. *)
From stdpp Require Import base tactics list strings gmap pretty.
From Stdlib Require Import Ascii ZArith Lia.
From S2P Require Import Prelude RustStr Json Platform PolicyTypes ToolPattern PolicySchema PolicyEngine.
From S2P Require Import Glob MandateStore Authorizer Convergence Decision ReplayDiff HandlerChecks Handler.

(** ** Instances

    A date is written as its number of nanoseconds, a hash is its input with a
    prefix, canonicalisation covers strings and null, and every schema accepts
    every value but [Null]. *)

Fixpoint parse_digits (acc : Z) (s : string) : option Z :=
  match s with
  | EmptyString => Some acc
  | String c s =>
      let d := (Z.of_N (N_of_ascii c) - 48)%Z in
      if ((0 <=? d) && (d <=? 9))%Z then parse_digits (10 * acc + d) s else None
  end.

#[export] Instance demo_platform : Platform := {|
  sha256_hex := fun s => "sha256-of-" +:+ s;
  md5_hex := fun s => "md5-of-" +:+ s;
  jcs_to_string := fun v => match v with Str s => Some s | Null => Some "null" | _ => None end;
  jcs_error := "unsupported";
  json_to_string := fun v => match v with Str s => s | _ => "value" end;
  parse_rfc3339 := parse_digits 0;
  rfc3339_error := fun _ => "invalid";
  to_rfc3339 := pretty;
  datetime_display := pretty;
  datetime_min := 0;
  datetime_max := (10 ^ 18)%Z;
  duration_max_secs := (10 ^ 9)%Z;
  Validator := Value;
  build_validator := fun v => match v with Null => Err "null schema" | _ => Ok v end;
  is_valid := fun _ v => negb (is_null v);
  iter_errors := fun _ _ => [];
  Similarity := Z;
  normalized_levenshtein := fun a b => if String.eqb a b then 10%Z else 0%Z;
  sim_threshold := 6%Z;
  sim_leb := Z.leb
|}.

#[export] Instance demo_serde : PolicySerde := {| jcs_policy := fun p => Some (mp_name p) |}.

(** The clock advances by a second per reading; no statement fails; panics
    unwind. *)
#[export] Instance demo_env : Env := {|
  env_clock := fun n => ((1000 + Z.of_nat n) * nanos_per_sec)%Z;
  env_store_clock := fun n => ((1000 + Z.of_nat n) * nanos_per_sec)%Z;
  env_uuid := fun n => pretty n;
  env_elapsed_ms := fun _ => 1%Z;
  env_db_fault := fun _ => None;
  env_panic := Unwind
|}.

(** ** Globs *)

Lemma glob_matches_impl_correct_witness :
  is_ascii "search.web" = true /\
  exists b, glob_matches_impl "search.*" "search.web" = Done b /\
            (b = true <-> PatternAccepts "search.*" "search.web").
Proof. split; [reflexivity|]. by apply (glob_matches_impl_correct "search.*" "search.web"). Defined.

Lemma tool_matches_scope_correct_witness :
  is_ascii "search.web" = true /\
  exists b, tool_matches_scope_impl "search.web" ["fs.*"; "search.*"] = Done b /\
            (b = true <-> exists p, p ∈ ["fs.*"; "search.*"] /\ PatternAccepts p "search.web").
Proof.
  split; [reflexivity|]. by apply (tool_matches_scope_correct "search.web" ["fs.*"; "search.*"]).
Defined.

Lemma glob_matchers_agree_witness :
  exists g, glob_pattern_new "search.*" = Ok g /\
    glob_pattern_matches g "search.web" = glob_matches_impl "search.*" "search.web" /\
    glob_matches_impl "search.*" "search.web" <> Panicked.
Proof.
  eexists. split; [vm_compute; reflexivity|].
  apply (glob_matchers_agree "search.*"); [reflexivity|reflexivity|vm_compute; discriminate].
Defined.

(** The tool name is the two-byte character U+00E9. *)
Lemma glob_panics_on_multibyte_witness :
  glob_matches_impl (String "*" (String "a" EmptyString))
    (String (ascii_of_N 195) (String (ascii_of_N 169) EmptyString)) = Panicked.
Proof.
  apply (glob_panics_on_multibyte "a"); [reflexivity|discriminate|discriminate|reflexivity|discriminate].
Defined.

(** ** Schemas and loading *)

Definition demo_schemas : Map :=
  [("$defs", Obj [("Id", Str "id")]);
   ("pay", Obj [("type", Str "object"); ("$defs", Obj [("Sum", Str "sum")])])].

Lemma prepare_tool_schema_merge_witness :
  exists prepared, prepare_tool_schema (Obj demo_schemas) "pay" = Ok prepared /\
  exists defs,
    vget prepared "$defs" = Some (Obj defs) /\
    (forall k, k ∈ map fst [("Id", Str "id")] -> map_get [("Sum", Str "sum")] k = None) /\
    (forall k, map_get defs k =
       option_or (map_get [("Sum", Str "sum")] k) (map_get [("Id", Str "id")] k)) /\
    (forall k, k <> "$defs" -> vget prepared k =
       map_get [("type", Str "object"); ("$defs", Obj [("Sum", Str "sum")])] k).
Proof.
  eexists. split; [vm_compute; reflexivity|].
  apply (prepare_tool_schema_merge demo_schemas "pay"); [reflexivity| |reflexivity..].
  apply NoDup_singleton.
Defined.

Definition demo_policy : McpPolicy :=
  mcp_policy_default
    <| mp_name := "demo" |>
    <| mp_tools := tool_policy_default <| tp_deny := Some ["rm*"] |>
                     <| tp_redact_args := Some ["send"] |>
                     <| tp_approval_required := Some ["deploy"] |> |>
    <| mp_enforcement := {| es_unconstrained_tools := UAllow |} |>
    <| mp_limits := Some {| gl_max_requests_total := None; gl_max_tool_calls_total := Some 2%Z |} |>.

Lemma load_policy_normalised_witness :
  exists policy, load_policy true demo_policy = Ok policy /\
  mp_allow policy = None /\ mp_deny policy = None /\ mp_constraints policy = [] /\
  (true = true -> is_v1_format demo_policy = false) /\
  (forall rm ks t, mp_runtime_monitor policy = Some rm -> mp_kill_switch policy = Some ks ->
     t ∈ ks_triggers ks -> kt_on_rule t ∈ map mru_id (rm_rules rm)).
Proof.
  eexists. split; [vm_compute; reflexivity|].
  by apply (load_policy_normalised true demo_policy).
Defined.

(** ** Policy evaluation *)

Lemma deny_rules_take_precedence_witness :
  exists e reason contract,
    evaluate_with_metadata demo_policy "rm_all" Null None policy_state_default =
      (Done e, count_call policy_state_default) /\
    pe_decision e = PDeny "rm_all" "E_TOOL_DENIED" reason contract.
Proof.
  destruct (deny_rules_take_precedence demo_policy "rm_all" Null None policy_state_default)
    as (e & reason & contract & E & Hd & _).
  - intros (p & r & Hp & Hr & _). discriminate Hr.
  - vm_compute. split; [done|]. intros Hc. discriminate Hc.
  - left. exists "rm*". split; [left|]. apply pattern_matches_sound. reflexivity.
  - by exists e, reason, contract.
Defined.

Definition demo_call (tool : string) : string * Value * option ToolIdentity :=
  (tool, Obj [], None).

Definition done_or {A} (d : A) (o : Outcome A) : A :=
  match o with Done a => a | Panicked => d end.

Definition demo_evaluation : PolicyEvaluation :=
  done_or (mkPolicyEvaluation PAllow policy_match_metadata_default)
    (fst (evaluate_with_metadata demo_policy "send" (Obj [("body", Str "text")]) None
            policy_state_default)).

Lemma evaluate_obligations_exact_witness :
  evaluate_with_metadata demo_policy "send" (Obj [("body", Str "text")]) None
    policy_state_default = (Done demo_evaluation, count_call policy_state_default) /\
  obligation_types (pe_metadata demo_evaluation) = ["redact_args"] /\
  NoDup (obligation_types (pe_metadata demo_evaluation)).
Proof.
  assert (E : evaluate_with_metadata demo_policy "send" (Obj [("body", Str "text")]) None
    policy_state_default = (Done demo_evaluation, count_call policy_state_default))
    by (vm_compute; reflexivity).
  split; [exact E|]. split; [vm_compute; reflexivity|].
  exact (proj1 (proj2 (evaluate_obligations_exact demo_policy "send" _ None _ _ _ E))).
Defined.

(** Three calls under a limit of two: two are allowed. *)
Lemma rate_limits_bound_session_witness :
  exists ds s', run_calls demo_policy [demo_call "a"; demo_call "b"; demo_call "c"]
      policy_state_default = (Done ds, s') /\ count_allowed ds = 2%Z /\
    (count_allowed ds <= 2)%Z.
Proof.
  eexists _, _. split; [vm_compute; reflexivity|]. split; [reflexivity|].
  eapply (proj1 (rate_limits_bound_session demo_policy _
    [demo_call "a"; demo_call "b"; demo_call "c"] _ _
    ltac:(reflexivity) ltac:(vm_compute; discriminate) ltac:(vm_compute; reflexivity)));
    [reflexivity|lia].
Defined.

(** ** Redaction *)

Definition demo_contract : RedactArgsContract :=
  {| ra_redaction_target := "body"; ra_redaction_mode := "mask"; ra_redaction_scope := "request" |}.
Definition demo_args : Map := [("to", Str "a@b"); ("body", Str "secret")].

Lemma redaction_forecast_holds_witness :
  rae_state (evaluate_redact_args_contract demo_contract (Obj demo_args)) = "applied" /\
  exists args', apply_redact_args_runtime (Obj demo_args) demo_contract = Ok args'.
Proof. split; [reflexivity|]. by apply (redaction_forecast_holds demo_contract (Obj demo_args)). Defined.

Lemma redaction_confined_witness :
  exists v, apply_redact_args_runtime (Obj demo_args) demo_contract = Ok v /\
  exists m' old, v = Obj m' /\ map_get demo_args "body" = Some old /\
    (forall k, k <> "body" -> map_get m' k = map_get demo_args k) /\
    exists new, map_get m' "body" = Some new /\ Redacted "mask" old new.
Proof.
  eexists. split; [reflexivity|].
  refine (redaction_confined demo_args demo_contract _ _ _); [|reflexivity].
  apply (bool_decide_unpack (NoDup (map fst demo_args))). reflexivity.
Defined.

(** ** The store *)

Definition demo_meta : MandateMetadata :=
  {| mm_mandate_id := "m1"; mm_mandate_kind := "intent"; mm_audience := "app"; mm_issuer := "iss";
     mm_expires_at := None; mm_single_use := false; mm_max_uses := Some 2%Z;
     mm_canonical_digest := "d"; mm_key_id := "k" |}.
Definition demo_params : ConsumeParams :=
  {| cp_mandate_id := "m1"; cp_tool_call_id := "call1"; cp_nonce := Some "n1"; cp_audience := "app";
     cp_issuer := "iss"; cp_tool_name := "send"; cp_operation_class := "read";
     cp_source_run_id := None |}.

Definition demo_stored : Conn := snd (upsert_mandate_impl demo_meta conn_empty).
Definition demo_consumed : Conn := snd (consume_mandate_in_txn_impl demo_params demo_stored).

Definition receipt_or {E} (d : AuthzReceipt) (o : Outcome (Result AuthzReceipt E)) : AuthzReceipt :=
  match o with Done (Ok rc) => rc | _ => d end.
Definition demo_receipt : AuthzReceipt :=
  receipt_or (new_receipt demo_params 1 0) (fst (consume_mandate_in_txn_impl demo_params demo_stored)).

Lemma demo_consume_run :
  consume_mandate_in_txn_impl demo_params demo_stored = (Done (Ok demo_receipt), demo_consumed).
Proof. vm_compute. reflexivity. Qed.

Definition demo_trace : list (ConsumeParams * AuthzReceipt) := [(demo_params, demo_receipt)].

Lemma demo_store_run : StoreRun demo_consumed demo_trace.
Proof.
  apply (run_consume_ok demo_stored []); [|exact demo_consume_run].
  apply run_upsert; [apply run_open|]. intros m [= <-]. unfold u32_max. lia.
Qed.

Lemma demo_trace_small : (Z.of_nat (length demo_trace) <= i64_max)%Z.
Proof. vm_compute. discriminate. Qed.

Lemma ledger_invariant_witness : db_inv (cn_committed demo_consumed).
Proof. apply (ledger_invariant demo_consumed demo_trace demo_store_run demo_trace_small). Defined.

Lemma receipts_within_limits_witness :
  exists row, db_mandates (cn_committed demo_consumed) !! "m1" = Some row /\
    Z.of_nat (length (new_uses "m1" demo_trace)) = mr_use_count row /\ mr_use_count row = 1%Z.
Proof.
  eexists. split; [vm_compute; reflexivity|]. split; [|reflexivity].
  eapply (receipts_within_limits demo_consumed demo_trace "m1");
    [exact demo_store_run|exact demo_trace_small|vm_compute; reflexivity].
Defined.

Lemma nonce_used_at_most_once_witness :
  (length (nonce_uses ("app", "iss", "n1") demo_trace) <= 1)%nat /\
  length (nonce_uses ("app", "iss", "n1") demo_trace) = 1.
Proof.
  split; [|reflexivity].
  apply (nonce_used_at_most_once demo_consumed demo_trace _ demo_store_run demo_trace_small).
Defined.

(** A retry of the same call, recorded after the first. *)
Definition demo_retried : Conn := snd (consume_mandate_in_txn_impl demo_params demo_consumed).
Definition demo_retry_receipt : AuthzReceipt :=
  receipt_or (new_receipt demo_params 1 0) (fst (consume_mandate_in_txn_impl demo_params demo_consumed)).

Lemma demo_retry_run : StoreRun demo_retried
  [(demo_params, demo_receipt); (demo_params, demo_retry_receipt)].
Proof.
  apply (run_consume_ok demo_consumed demo_trace); [exact demo_store_run|].
  vm_compute. reflexivity.
Qed.

Lemma receipts_idempotent_witness :
  ar_was_new demo_receipt = true /\ ar_was_new demo_retry_receipt = false /\
  ar_use_id demo_receipt = ar_use_id demo_retry_receipt /\
  ar_use_count demo_receipt = ar_use_count demo_retry_receipt.
Proof.
  split; [vm_compute; reflexivity|]. split; [vm_compute; reflexivity|].
  apply (receipts_idempotent demo_retried _ (demo_params, demo_receipt)
    (demo_params, demo_retry_receipt) demo_retry_run);
    [vm_compute; discriminate|left|right; left|vm_compute; reflexivity].
Defined.

Definition demo_row : option MandateRow := db_mandates (cn_committed demo_stored) !! cp_mandate_id demo_params.

Lemma consume_granted_witness :
  exists t c', consume_mandate_in_txn_impl demo_params demo_stored =
    (Done (Ok (new_receipt demo_params 1 t)), c') /\ cn_txn c' = None.
Proof.
  destruct demo_row as [row|] eqn:Erow; [|vm_compute in Erow; discriminate].
  assert (mr_use_count row = 0%Z /\ mr_single_use row = 0%Z /\ mr_max_uses row = Some 2%Z) as (Hcount & Hsingle & Hmax).
  { vm_compute in Erow. injection Erow as <-. vm_compute. by split_and!. }
  pose proof (consume_granted demo_params demo_stored row) as Hg. rewrite Hcount in Hg. apply Hg; clear Hg.
  - apply (store_run_inv demo_stored []); [|vm_compute; discriminate].
    apply run_upsert; [apply run_open|]. intros m [= <-]. unfold u32_max. lia.
  - intros t _. reflexivity.
  - vm_compute. reflexivity.
  - vm_compute. reflexivity.
  - intros k [= <-]. vm_compute. reflexivity.
  - exact Erow.
  - done.
  - done.
  - intros max E. rewrite Hmax in E. by injection E as <-.
  - intros v Hv. vm_compute in Hv. inversion Hv.
Defined.

Definition demo_blocked : Conn := demo_stored <| cn_txn := Some db_empty |>.

Lemma open_transaction_blocks_witness :
  exists e c', consume_mandate_in_txn_impl demo_params demo_blocked = (Done (Err e), c') /\
    cn_committed c' = cn_committed demo_blocked.
Proof. by apply (open_transaction_blocks demo_params demo_blocked db_empty). Defined.

(** The retry names a mandate that does not exist. *)
Lemma retry_names_any_mandate_witness :
  exists rc c', consume_mandate_in_txn_impl
      {| cp_mandate_id := "unknown"; cp_tool_call_id := "call1"; cp_nonce := None;
         cp_audience := "app"; cp_issuer := "iss"; cp_tool_name := "send";
         cp_operation_class := "read"; cp_source_run_id := None |} demo_consumed =
      (Done (Ok rc), c') /\ ar_mandate_id rc = "unknown" /\
    db_mandates (cn_committed demo_consumed) !! "unknown" = None.
Proof.
  set (params := mkConsumeParams _ _ _ _ _ _ _ _).
  edestruct (retry_names_any_mandate params demo_consumed) as (rc & c' & E & Hm & _).
  - intros t _. reflexivity.
  - vm_compute. reflexivity.
  - vm_compute. reflexivity.
  - exists rc, c'. split; [exact E|]. split; [exact Hm|vm_compute; reflexivity].
Defined.

(** A second upsert with other limits changes nothing. *)
Lemma upsert_keeps_rows_witness :
  exists row, db_mandates (cn_committed demo_stored) !! "m1" = Some row /\ mr_max_uses row = Some 2%Z /\
    db_mandates (cn_committed (snd (upsert_mandate_impl
      {| mm_mandate_id := "m1"; mm_mandate_kind := "intent"; mm_audience := "app";
         mm_issuer := "iss"; mm_expires_at := None; mm_single_use := false;
         mm_max_uses := Some 9%Z; mm_canonical_digest := "d"; mm_key_id := "k" |} demo_stored)))
      !! "m1" = Some row.
Proof.
  eexists. split; [vm_compute; reflexivity|]. split; [reflexivity|].
  apply upsert_keeps_rows. vm_compute. reflexivity.
Defined.

Definition demo_revocation : RevocationRecord :=
  {| rv_mandate_id := "m1"; rv_revoked_at := 2000%Z; rv_reason := None; rv_revoked_by := None;
     rv_source := None; rv_event_id := None |}.

Lemma revocation_roundtrip_witness :
  exists c1 c2, upsert_revocation_impl demo_revocation demo_stored = (Done (Ok ()), c1) /\
    get_revoked_at_impl "m1" c1 = (Done (Ok (Some 2000%Z)), c2).
Proof.
  apply (revocation_roundtrip demo_revocation demo_stored);
    [intros t _; reflexivity|vm_compute; reflexivity].
Defined.

(** ** Authorization *)

Definition demo_config : AuthzConfig :=
  {| az_clock_skew_seconds := 30; az_expected_audience := "app"; az_trusted_issuers := ["iss"] |}.
Definition demo_mandate : MandateData :=
  {| md_mandate_id := "m1"; md_mandate_kind := Intent; md_audience := "app"; md_issuer := "iss";
     md_tool_patterns := ["send*"]; md_operation_class := Some OpRead; md_transaction_ref := None;
     md_not_before := Some (900 * nanos_per_sec)%Z; md_expires_at := Some (2000 * nanos_per_sec)%Z;
     md_single_use := false; md_max_uses := Some 2%Z; md_nonce := None;
     md_canonical_digest := "d"; md_key_id := "k" |}.
Definition demo_tool_call : ToolCallData :=
  {| tc_tool_call_id := "call1"; tc_tool_name := "send_mail"; tc_operation_class := OpWrite;
     tc_transaction_object := None; tc_source_run_id := None |}.
Definition demo_now : Z := (1000 * nanos_per_sec)%Z.

Definition demo_authorized : Outcome (Result AuthzReceipt AuthorizeError) * Conn :=
  authorize_at_impl demo_config demo_now demo_mandate demo_tool_call conn_empty.
Definition demo_authz_receipt : AuthzReceipt :=
  receipt_or (new_receipt demo_params 1 0) (fst demo_authorized).

Lemma authorize_sound_witness :
  MandateAccepted demo_config demo_now demo_mandate demo_tool_call (ls_view conn_empty) /\
  ar_mandate_id demo_authz_receipt = "m1" /\ ar_tool_call_id demo_authz_receipt = "call1".
Proof.
  edestruct (authorize_sound demo_config demo_now demo_mandate demo_tool_call conn_empty
    (snd demo_authorized) demo_authz_receipt) as (Ha & Hm & Hc & _); [vm_compute; reflexivity|].
  split; [exact Ha|]. split; [exact Hm|exact Hc].
Defined.

(** A call made after the mandate expired. *)
Lemma authorize_refusal_consumes_nothing_witness :
  exists e s', authorize_at_impl demo_config (3000 * nanos_per_sec) demo_mandate demo_tool_call
      conn_empty = (Done (Err e), s') /\
    db_uses (ls_ledger s') = db_uses (ls_ledger conn_empty) /\
    db_nonces (ls_ledger s') = db_nonces (ls_ledger conn_empty).
Proof.
  eexists _, _. split; [vm_compute; reflexivity|].
  eapply (authorize_refusal_consumes_nothing demo_config (3000 * nanos_per_sec) demo_mandate
    demo_tool_call conn_empty); [vm_compute; reflexivity|discriminate].
Defined.

Lemma authorize_returns_witness :
  exists r s', authorize_at_impl demo_config demo_now demo_mandate demo_tool_call conn_empty =
    (Done r, s').
Proof.
  apply (authorize_returns demo_config demo_now demo_mandate demo_tool_call conn_empty);
    [reflexivity|vm_compute; discriminate|..]; intros t [= <-]; vm_compute; split; discriminate.
Defined.

(** ** The handler *)

Definition demo_handler_config : ToolCallHandlerConfig :=
  {| hc_event_source := "assay://demo"; hc_require_mandate_for_commit := true;
     hc_commit_tools := ["pay*"]; hc_write_tools := ["send*"];
     hc_auth_context_projection := None |}.
Definition demo_handler : ToolCallHandler :=
  {| th_policy := demo_policy; th_authorizer := Some demo_config; th_lifecycle_emitter := true;
     th_config := demo_handler_config |}.
Definition demo_unverified : ToolCallHandler :=
  {| th_policy := demo_policy; th_authorizer := None; th_lifecycle_emitter := true;
     th_config := demo_handler_config |}.
Definition demo_request (tool : string) : JsonRpcRequest :=
  {| jr_jsonrpc := "2.0"; jr_id := Some (Str "7"); jr_method := "tools/call";
     jr_params := Obj [("name", Str tool); ("arguments", Obj [("body", Str "text")])] |}.
Definition demo_world : World Conn :=
  mkWorld conn_empty policy_state_default [] [] None 0.

Definition demo_allowed : Outcome HandleResult * World Conn :=
  handle_tool_call demo_handler (demo_request "send_mail") None None (Some demo_mandate) None
    demo_world.
Definition demo_denied : Outcome HandleResult * World Conn :=
  handle_tool_call demo_handler (demo_request "rm_all") None None (Some demo_mandate) None
    demo_world.

Definition allow_receipt (o : Outcome HandleResult) : option AuthzReceipt :=
  match o with Done (HAllow r _ _) => r | _ => None end.
Definition allow_arguments (o : Outcome HandleResult) : option Value :=
  match o with Done (HAllow _ a _) => a | _ => None end.
Definition allow_event (o : Outcome HandleResult) : DecisionEvent :=
  match o with Done r => result_event r | _ => decision_event_new "" 0 "" "" "" end.

Lemma handle_tool_call_allow_sound_witness :
  allow_receipt (fst demo_allowed) <> None /\
  RequestAllowed demo_handler (Some demo_mandate) None (demo_request "send_mail") None None
    demo_world (allow_receipt (fst demo_allowed)) (allow_arguments (fst demo_allowed))
    (snd demo_allowed).
Proof.
  split; [vm_compute; discriminate|].
  apply (handle_tool_call_allow_sound demo_handler (Some demo_mandate) None
    (demo_request "send_mail") None None demo_world (snd demo_allowed) _ _
    (allow_event (fst demo_allowed))). vm_compute. reflexivity.
Defined.

Lemma handle_tool_call_refusal_spends_nothing_witness :
  SpentSame (w_store demo_world) (w_store (snd demo_denied)).
Proof.
  apply (handle_tool_call_refusal_spends_nothing demo_handler (Some demo_mandate) None
    (demo_request "rm_all") None None demo_world (snd demo_denied) (fst demo_denied)).
  - apply surjective_pairing.
  - intros receipt eff ev E. vm_compute in E. discriminate E.
Defined.

(** The allowed call emits its [mandate.used] event. *)
Lemma handle_tool_call_lifecycle_witness :
  length (w_lifecycle (snd demo_allowed)) = 1 /\
  w_lifecycle (snd demo_allowed) =
    w_lifecycle demo_world ++ match fst demo_allowed with Done r => used_events demo_handler r | _ => [] end.
Proof.
  split; [vm_compute; reflexivity|].
  pose proof (handle_tool_call_lifecycle demo_handler (Some demo_mandate) None
    (demo_request "send_mail") None None demo_world) as E.
  unfold demo_allowed. destruct (handle_tool_call _ _ _ _ _ _ demo_world). exact E.
Defined.

(** A commit tool that must have a mandate is allowed on an expired one. *)
Lemma mandate_unverified_without_authorizer_witness :
  is_commit_tool demo_handler_config "pay_invoice" = true /\
  handle_tool_call demo_unverified (demo_request "pay_invoice") None None
    (Some (demo_mandate <| md_expires_at := Some 0%Z |>)) None demo_world =
  handle_tool_call demo_unverified (demo_request "pay_invoice") None None
    (Some demo_mandate) None demo_world.
Proof.
  split; [reflexivity|].
  by apply (mandate_unverified_without_authorizer demo_unverified (demo_request "pay_invoice")).
Defined.
