(* ===== verification/SequenceWitnesses.v ===== *)
(** * Concrete runs of the sequence rules

    The interfaces of the sequence evaluations instantiated, and their theorems
    with hypotheses applied to concrete traces. *)
From stdpp Require Import base tactics list strings gmap.
From Stdlib Require Import ZArith Lia.
From S2P Require Import Prelude RustStr Json Platform SequenceEval CheckSequence SequenceExplain Witnesses.

(** Every pattern is a literal, strings have no escapes, names are lower case. *)
#[local] Instance demo_regex : Regex := {| regex_is_match p s := Some (str_contains s p) |}.
#[local] Instance demo_debug : StrDebug := {| str_debug s := s |}.
#[local] Instance demo_lower : Lowercase := {| to_lowercase s := s |}.

Definition demo_trace : list string := ["list_dir"; "read_credentials"; "http_post"].
Definition demo_policy : Policy := plain_policy [credential_rule; Blocklist "rm"] ∅.

Lemma evaluate_rule_spec_witness :
  violates None Partial credential_rule (map named demo_trace).
Proof.
  apply (evaluate_rule_spec None credential_rule (map named demo_trace) Partial); vm_compute; reflexivity.
Defined.

Lemma violation_is_final_witness :
  re_outcome (evaluate_rule credential_rule (map named (demo_trace ++ ["list_dir"])) None Complete) = Violated.
Proof.
  apply (violation_is_final None credential_rule (map named demo_trace) [named "list_dir"] Complete);
    vm_compute; reflexivity.
Defined.

Lemma check_sequence_parity_witness :
  validate_rules_for_parity [credential_rule] demo_trace None = true /\
  validate_rules_for_parity [credential_rule] demo_trace None =
    existsb is_violation (evaluate_rules [credential_rule] (map named demo_trace) None Partial).
Proof.
  split; [vm_compute; reflexivity|].
  apply (check_sequence_parity None [credential_rule] demo_trace); [vm_compute; reflexivity | | vm_compute; reflexivity].
  intros t m Hin. apply list_elem_of_singleton in Hin. discriminate Hin.
Defined.

Lemma explain_blocks_iff_witness :
  te_first_block_index (explain demo_policy (tool_calls demo_trace)) = Some 2 /\
  opt_is_some (te_first_block_index (explain demo_policy (tool_calls demo_trace))) =
    existsb is_violation (evaluate_rules (pol_sequences demo_policy)
      (map (fun c => named (tc_tool c)) (tool_calls demo_trace)) (Some demo_policy) Partial).
Proof.
  split; [vm_compute; reflexivity|].
  apply (explain_blocks_iff demo_policy (tool_calls demo_trace)); vm_compute; reflexivity.
Defined.

(** The same trace under a constraint on arguments no call meets: the server
    reports a violation, the shared evaluation does not exercise the rule; with
    [require] it is the other way round. *)
Definition constrained (t : string) : CallSelector := Matching t [("path", ".aws")].

Example constraint_ignored :
  validate_rules_for_parity [NeverAfter (constrained "read_credentials") (Tool "http_post")] demo_trace None = true /\
  re_outcome (evaluate_rule (NeverAfter (constrained "read_credentials") (Tool "http_post"))
    (map named demo_trace) None Partial) = NotExercised /\
  validate_rules_for_parity [Require_ (constrained "read_credentials")] demo_trace None = false /\
  re_outcome (evaluate_rule (Require_ (constrained "read_credentials")) (map named demo_trace) None Partial) = Violated.
Proof. split_and!; vm_compute; reflexivity. Qed.
