(* ===== verification/McpWitnesses.v ===== *)
(** * Concrete runs of the transcript pipeline

    The JSON reader instantiated by a table of documents, the theorems of the
    era, parser, ingest and trace files applied to a call and its answer, and
    runs that show where the mapper differs from the parser. *)
From stdpp Require Import base tactics list strings gmap sorting.
From Stdlib Require Import ZArith Lia Ascii.
From S2P Require Import Prelude RustStr Json Platform PolicyTypes BoundedIo Bundle Era JsonDoc McpParser McpParserCorrect McpEnvelope McpIngest McpTrace Witnesses.

(** ** Texts and their documents *)

(** Text is written with single quotes for double ones. *)
Fixpoint quoted (s : string) : string :=
  match s with
  | EmptyString => EmptyString
  | String a r => String (if Ascii.eqb a "'" then quote else a) (quoted r)
  end.

Fixpoint doc_of (v : Value) : Doc :=
  match v with
  | Null => DNull
  | VBool b => DBool b
  | Num n => DNum (Some n)
  | Str s => DStr (Some s)
  | Arr l => DArr (map doc_of l) true
  | Obj m => DObj (map (fun e => (Some (fst e), doc_of (snd e))) m) true
  end.

Definition version_meta : Value :=
  Obj [("io.modelcontextprotocol/protocolVersion", Str "2026-07-28");
       ("io.modelcontextprotocol/clientCapabilities", Obj [])].
Definition call_value : Value :=
  Obj [("jsonrpc", Str "2.0"); ("id", Num (PosInt 1)); ("method", Str "tools/call");
       ("params", Obj [("name", Str "search"); ("arguments", Obj []); ("_meta", version_meta)])].
Definition call_text : string :=
  quoted "{'jsonrpc':'2.0','id':1,'method':'tools/call','params':{'name':'search','arguments':{},'_meta':{'io.modelcontextprotocol/protocolVersion':'2026-07-28','io.modelcontextprotocol/clientCapabilities':{}}}}".
Definition answer_value : Value :=
  Obj [("jsonrpc", Str "2.0"); ("id", Num (PosInt 1)); ("result", Obj [("resultType", Str "complete")])].
Definition answer_text : string := quoted "{'jsonrpc':'2.0','id':1,'result':{'resultType':'complete'}}".
Definition lines_text : string := call_text +:+ String line_feed answer_text.

(** A framed transcript of the same call, and one with two empty entries. *)
Definition framed_value : Value :=
  Obj [("transport", Str "streamable-http");
       ("entries", Arr [Obj [("request", call_value)]; Obj [("response", answer_value)]])].
Definition framed_text : string :=
  quoted "{'transport':'streamable-http','entries':[{'request':" +:+ call_text +:+ quoted "},{'response':" +:+ answer_text +:+ "}]}".
Definition crowded_text : string := quoted "{'entries':[{},{},{}]}".
Definition crowded_doc : Doc := DObj [(Some "entries", DArr [DObj [] true; DObj [] true; DObj [] true] true)] true.

#[export] Instance table_json : JsonReader := {|
  json_document := fun text =>
    if String.eqb text call_text then (doc_of call_value, true)
    else if String.eqb text answer_text then (doc_of answer_value, true)
    else if String.eqb text framed_text then (doc_of framed_value, true)
    else if String.eqb text crowded_text then (crowded_doc, true)
    else (DBad, true)
|}.
#[export] Instance table_json_laws : JsonReaderLaws.
Proof.
  split. intros text s. cbn [json_document table_json].
  by destruct (String.eqb text call_text), (String.eqb text answer_text), (String.eqb text framed_text), (String.eqb text crowded_text).
Qed.

(** ** Eras *)

Lemma version_order_witness :
  calendar (mkDate 2025 11 25) /\ calendar (mkDate 2026 7 28) /\
  (str_leb (iso_date (mkDate 2025 11 25)) (iso_date (mkDate 2026 7 28)) = true <->
     date_le (mkDate 2025 11 25) (mkDate 2026 7 28)).
Proof.
  assert (H1 : calendar (mkDate 2025 11 25)).
  { split; [simpl; lia|]. exists 30%Z. split; [apply short_month; by do 3 right; left | simpl; lia]. }
  assert (H2 : calendar (mkDate 2026 7 28)).
  { split; [simpl; lia|]. exists 31%Z. split; [apply long_month; by do 3 right; left | simpl; lia]. }
  split; [exact H1|]. split; [exact H2|]. exact (version_order _ _ H1 H2).
Defined.

Lemma terminal_iff_witness :
  observe_result answer_value = Some Complete /\
  exists c, conclude (Known "2026-07-28") Complete (Some CoreOnly) = Done c /\
    (c = Terminal <->
     exists version result, Known "2026-07-28" = Known version /\ vget answer_value "result" = Some (Obj result) /\
       ((map_get result "resultType" = Some (Str "complete") /\
         silent result "requestState" /\ silent result "inputRequests" /\
         (str_leb RESULT_TYPE_SINCE version = true -> Some CoreOnly <> Some CapMalformed)) \/
        (map_get result "resultType" = None /\ str_leb RESULT_TYPE_SINCE version = false))).
Proof. split; [reflexivity|]. exact (terminal_iff answer_value Complete (Known "2026-07-28") (Some CoreOnly) eq_refl). Defined.

Lemma correlation_key_injective_witness :
  correlation_key (Num (PosInt 1)) = Some (IdNum "1") /\ correlation_key (Str "1") <> Some (IdNum "1") /\
  Num (PosInt 1) = Num (PosInt 1).
Proof.
  split; [reflexivity|]. split; [discriminate|].
  apply (correlation_key_injective (Num (PosInt 1)) (Num (PosInt 1)) (IdNum "1")); [simpl; lia | simpl; lia | reflexivity | reflexivity].
Defined.

(** ** The parser *)

Lemma transcript_members_unique_witness :
  exists t, from_str read_transcript framed_text = Ok t /\ NoRepeat (json_document framed_text).1.
Proof.
  destruct (from_str read_transcript framed_text) as [t|e] eqn:E; [|vm_compute in E; discriminate E].
  exists t. split; [reflexivity|]. exact (transcript_members_unique framed_text t E).
Defined.

Lemma exceeds_limit_exact_witness :
  Nested 1 ["["; "]"]%char /\ exceeds_limit ["["; "]"]%char 0 false = (0 <? 1)%Z.
Proof.
  assert (H : Nested 1 ["["; "]"]%char) by (apply (nest_group 0 "[" [] "]"); [by right | by right | constructor]).
  split; [exact H|]. apply (exceeds_limit_exact 1); [exact H | lia].
Defined.

Lemma parse_returns_witness : exists r, parse_mcp_transcript_detailed_internal framed_text StreamableHttp None = Some r.
Proof. exact (parse_returns framed_text StreamableHttp None). Defined.

(** ** Ingest *)

Definition demo_limits : McpTranscriptLimits := mkTranscriptLimits 4096 4096 8 16.
Definition lines_source : Source := mkSource (one_piece (String.list_ascii_of_string lines_text)) None.

(** The call and its answer are accepted as two events. *)
Example ingest_accepts :
  match parse_mcp_transcript_bounded lines_source JsonRpc demo_limits with
  | Some (Done (Ok events)) => length events = 2
  | _ => False
  end.
Proof. vm_compute. reflexivity. Qed.

(** The call was spoken under the version that its metadata name. *)
Lemma ingest_sound_witness :
  exists events, parse_mcp_transcript_bounded lines_source JsonRpc demo_limits = Some (Done (Ok events)) /\
  exists e v, events !! 0 = Some e /\ SpokenVersion lines_text JsonRpc e v.
Proof.
  assert (Ha := ingest_accepts).
  destruct (parse_mcp_transcript_bounded lines_source JsonRpc demo_limits) as [[[events|]|]|] eqn:E; try destruct Ha.
  exists events. split; [reflexivity|].
  destruct (ingest_sound lines_source JsonRpc demo_limits events E) as (envelopes & _ & _ & Hi).
  vm_compute in E. injection E as <-.
  destruct (Hi 0 _ eq_refl) as [Hr _]. destruct (Hr "tools/call" ltac:(vm_compute; reflexivity)) as (v & Hv & _).
  eexists _, v. split; [reflexivity|]. exact Hv.
Defined.

Lemma ingest_returns_witness : exists r, parse_mcp_transcript_bounded lines_source JsonRpc demo_limits = Some (Done r).
Proof. exact (ingest_returns lines_source JsonRpc demo_limits). Defined.

Lemma ingest_within_limits_witness :
  exists events, parse_mcp_transcript_bounded lines_source JsonRpc demo_limits = Some (Done (Ok events)) /\
    (Z.of_nat (length events) <= 8)%Z.
Proof.
  assert (Ha := ingest_accepts).
  destruct (parse_mcp_transcript_bounded lines_source JsonRpc demo_limits) as [[[events|]|]|] eqn:E; try destruct Ha.
  exists events. split; [reflexivity|].
  destruct (ingest_within_limits lines_source JsonRpc demo_limits events E ltac:(simpl; lia) ltac:(simpl; lia)) as (_ & _ & _ & H).
  exact H.
Defined.

Lemma event_limit_misreported_witness :
  json_document (to_str (String.list_ascii_of_string crowded_text)) = (crowded_doc, true) /\
  check_event_count (String.list_ascii_of_string crowded_text) StreamableHttp 1 = Err IngestInvalidTranscript.
Proof.
  assert (E : json_document (to_str (String.list_ascii_of_string crowded_text)) = (crowded_doc, true)) by (vm_compute; reflexivity).
  split; [exact E|].
  refine (proj2 (event_limit_misreported (String.list_ascii_of_string crowded_text) StreamableHttp 1
    [DObj [] true; DObj [] true; DObj [] true] eq_refl _ _ E) _); [lia | by repeat constructor | simpl; lia].
Defined.

(** ** The trace *)

Definition call_event (ts : option Z) : McpEvent :=
  mkMcpEvent 1 ts (Some "1") discovery_default (ToolCallRequest "search" (Obj []) call_value).
Definition answer_event (ts : option Z) : McpEvent :=
  mkMcpEvent 2 ts (Some "1") discovery_default (ToolCallResponse (Obj [("resultType", Str "complete")]) false answer_value).
Definition drain_in_order (m : gmap CorrelationId PendingCall) : list (CorrelationId * PendingCall) := map_to_list m.

Lemma trace_calls_witness :
  (forall m, drain_in_order m ≡ₚ map_to_list m) /\
  let trace := calls (mcp_events_to_v2_trace 0 drain_in_order [call_event (Some 5%Z); answer_event (Some 6%Z)] "episode" None None) in
  (~ Overlap (sort_events [call_event (Some 5%Z); answer_event (Some 6%Z)]) ->
     call_key <$> trace ≡ₚ requested 0 (sort_events [call_event (Some 5%Z); answer_event (Some 6%Z)])) /\
  (forall c r, c ∈ trace -> tc_result c = Some r -> Paired [call_event (Some 5%Z); answer_event (Some 6%Z)] c r).
Proof.
  assert (H : forall m, drain_in_order m ≡ₚ map_to_list m) by (intros m; reflexivity).
  split; [exact H|]. exact (trace_calls 0 drain_in_order _ "episode" None None H).
Defined.

Lemma untimed_response_lost_witness :
  calls (mcp_events_to_v2_trace 0 drain_in_order [call_event (Some 5%Z); answer_event None] "episode" None None) =
    [mkToolCallEntry "episode" (step_id_of 0) 5 "search" (Some 0%Z) (Obj []) None None None (Some "timeout/no_response") []].
Proof.
  apply (untimed_response_lost 0 drain_in_order "episode" (call_event (Some 5%Z)) (answer_event None) (IdNum "1") "search"
    (Obj []) (Obj [("resultType", Str "complete")]) false 5).
  - intros m. reflexivity.
  - exists call_value. split; reflexivity.
  - exists answer_value. split; reflexivity.
  - reflexivity.
  - lia.
  - reflexivity.
Defined.

(** Two unanswered calls are flushed in the order of the hash map. *)
Definition other_call : McpEvent :=
  mkMcpEvent 2 None (Some "2") discovery_default (ToolCallRequest "fetch" (Obj []) (Obj [("id", Num (PosInt 2))])).
Example flush_order_observable :
  let trace drain := call_key <$> calls (mcp_events_to_v2_trace 0 drain [call_event None; other_call] "episode" None None) in
  trace drain_in_order <> trace (fun m => reverse (map_to_list m)).
Proof. vm_compute. intros H. discriminate H. Qed.

(** The result of a call that has an array [tools] is taken for the answer to
    [tools/list], so the call is reported as unanswered. *)
Definition tools_answer : Value :=
  Obj [("jsonrpc", Str "2.0"); ("id", Num (PosInt 1)); ("result", Obj [("content", Arr []); ("tools", Arr [])])].
Example tools_result_lost :
  match parse_jsonrpc_message call_value 1 None discovery_default, parse_jsonrpc_message tools_answer 2 None discovery_default with
  | Ok call, Ok answer =>
      map tc_error (calls (mcp_events_to_v2_trace 0 drain_in_order [call; answer] "episode" None None)) = [Some "timeout/no_response"]
  | _, _ => False
  end.
Proof. vm_compute. reflexivity. Qed.
