(* ===== verification/SupplyWitnesses.v ===== *)
(** * A concrete log, bundle and report

    Instances of the interfaces of the supply chain that compute, a log of
    three entries, a bundle logged in it, and each theorem of the component
    that has hypotheses applied to them. *)
From stdpp Require Import base tactics list strings gmap pretty.
From Stdlib Require Import Ascii ZArith Lia.
From S2P Require Import Prelude RustStr Json Platform PackRef PackYaml PackTrust JsonDoc SerdeJson MerkleLog Rekor RekorCorrect Sigstore SupplyChain SupplyChainCorrect.
From S2P Require Import DecisionTruthWitnesses McpWitnesses.

#[local] Existing Instance truth_platform.

(** ** Instances *)

(** A checksum, written on 32 characters. *)
Fixpoint checksum (h : N) (s : string) : N :=
  match s with
  | EmptyString => h
  | String a r => checksum ((h * 257 + byte_of a + 1) mod 2305843009213693951) r
  end.
Definition padding : string := "................................".

Lemma str_take_padded n s t : n <= String.length t -> String.length (str_take n (s +:+ t)) = n.
Proof.
  revert n. induction s as [|a s IH]; intros n Hn; cbn.
  - revert t Hn. induction n as [|n IHn]; intros [|b t] Hn; cbn in *; try lia. rewrite IHn; lia.
  - destruct n as [|n]; [done|]. cbn. rewrite IH; lia.
Qed.

#[local] Instance toy_sha256 : Sha256 := {|
  sha256_bytes := fun s => str_take 32 (pretty (checksum 7 s) +:+ padding)
|}.
#[local] Instance toy_sha256_laws : Sha256Laws.
Proof. split. intros s. by apply str_take_padded. Qed.

#[local] Instance toy_codec : PackCrypto := {|
  base64_decode := fun s => Ok s;
  dsse_from_json := fun _ => Err "unused";
  VerifyingKey := string;
  key_from_spki := fun s => Ok s;
  Signature := string;
  signature_from_slice := fun s => Ok s;
  ed25519_verify := fun key _ signature => String.eqb signature ("by " +:+ key)
|}.

#[local] Instance supply_yaml : YamlReader := {|
  yaml_from_str := fun s => Ok (YStr s);
  yaml_number_fmt := fun _ => "n";
  yaml_debug := fun _ => "y";
  char_is_alphanumeric := fun _ => true
|}.

#[local] Instance toy_log_crypto : LogCrypto := {|
  LogKey := string;
  log_key_from_bytes := fun s => Some s;
  verify_strict := fun key _ sig => starts_with sig key
|}.

#[local] Instance toy_x509 : X509 := {|
  TrustAnchor := string;
  anchor_from_trusted_cert := fun s => Some s;
  EndEntityCert := string;
  end_entity_from_der := fun s => Some s;
  SignatureAlgorithm := bool;
  ECDSA_P256_SHA256 := true;
  ECDSA_P384_SHA384 := false;
  verify_for_usage := fun _ _ anchors _ _ _ =>
    if existsb (String.eqb "root CA") anchors then Ok () else Err UnknownIssuer;
  certificate_from_der := fun s =>
    Some (mkCertificate true
      (Some [mkExtension SUBJECT_ALT_NAME_OID true "https://ci"; mkExtension FULCIO_ISSUER_V2 false "https://idp"])
      (Some s));
  subject_alt_name_from_der := fun s => Some [UniformResourceIdentifier s];
  utf8_string_from_der := fun s => Some s;
  P256Key := string;
  p256_key_from_spki := fun s => Some s;
  P256Signature := string;
  p256_signature_from_der := fun s => Some s;
  p256_verify := fun key _ sig => String.eqb sig ("by " +:+ key)
|}.

#[local] Instance toy_clock : Clock () := {| read_clock := fun s => (Done 0%Z, s) |}.

(** ** A log of three entries *)

Definition body_value (digest : string) : Value :=
  Obj [("apiVersion", Str "0.0.2"); ("kind", Str "hashedrekord");
       ("spec", Obj [("hashedRekordV002", Obj [
          ("data", Obj [("algorithm", Str "SHA2_256"); ("digest", Str digest)]);
          ("signature", Obj [("content", Str "by leaf");
             ("verifier", Obj [("keyDetails", Str "PKIX_ECDSA_P256_SHA_256");
                ("x509Certificate", Obj [("rawBytes", Str "leaf")])])])])])].

Definition log_entries : list string := ["first"; "second"; "body"].
Definition log_root : string := mth log_entries.
Definition line_feed_str : string := String LF EmptyString.
Definition log_key : string := "log key log key log key log key ".
Definition checkpoint_text : string :=
  "log.example" +:+ line_feed_str +:+ "3" +:+ line_feed_str +:+ log_root +:+ blank_line
  +:+ signature_prefix +:+ "log.example log1" +:+ log_key +:+ log_key +:+ line_feed_str.

Definition entry_value (root index : string) : Value :=
  Obj [("kindVersion", Obj [("kind", Str "hashedrekord"); ("version", Str "0.0.2")]);
       ("logId", Obj [("keyId", Str "log1")]);
       ("canonicalizedBody", Str "body");
       ("inclusionProof", Obj [("rootHash", Str root); ("treeSize", Str "3"); ("logIndex", Str index);
          ("hashes", Arr (map Str (audit_path 2 log_entries)));
          ("checkpoint", Obj [("envelope", Str checkpoint_text)])])].

Definition dsse_value : Value :=
  Obj [("payloadType", Str "application/vnd.in-toto+json"); ("payload", Str "statement");
       ("signatures", Arr [Obj [("sig", Str "by leaf")]])].

Definition bundle_value (entry : Value) : Value :=
  Obj [("mediaType", Str BUNDLE_MEDIA_TYPE_V0_3);
       ("verificationMaterial",
          Obj [("certificate", Obj [("rawBytes", Str "leaf")]); ("tlogEntries", Arr [entry])]);
       ("dsseEnvelope", dsse_value)].

Definition trusted_root_value : Value :=
  Obj [("tlogs", Arr [Obj [("baseUrl", Str "https://log.example/");
     ("logId", Obj [("keyId", Str "log1")]);
     ("publicKey", Obj [("keyDetails", Str "PKIX_ED25519"); ("rawBytes", Str log_key)])]])].

Definition subject_value (digest : string) : Value :=
  Obj [("name", Str "artifact"); ("digest", Obj [("sha256", Str digest)])].
Definition statement_value (subjects : list Value) : Value :=
  Obj [("_type", Str STATEMENT_TYPE_V1); ("subject", Arr subjects);
       ("predicateType", Str SLSA_PROVENANCE_PREDICATE);
       ("predicate", Obj [("runDetails", Obj [("builder", Obj [("id", Str "builder")])])])].

#[local] Instance supply_json : JsonReader := {|
  json_document := fun text =>
    if String.eqb text "bundle" then (doc_of (bundle_value (entry_value log_root "2")), true)
    else if String.eqb text "misplaced" then (doc_of (bundle_value (entry_value log_root "1")), true)
    else if String.eqb text "root" then (doc_of trusted_root_value, true)
    else if String.eqb text "body" then (doc_of (body_value "d"), true)
    else if String.eqb text "statement" then (doc_of (statement_value [subject_value "ab12"]), true)
    else if String.eqb text "decoyed" then
      (doc_of (statement_value [subject_value "ffff"; subject_value "ab12"]), true)
    else if String.eqb text (json_to_string dsse_value) then (doc_of dsse_value, true)
    else (DBad, true)
|}.

(** Whether the hash tells the strings of a list apart can be computed. *)
Definition tells_apart (inputs : list string) : bool :=
  forallb (fun a => forallb (fun b =>
    negb (String.eqb (sha256_bytes a) (sha256_bytes b)) || String.eqb a b) inputs) inputs.

Lemma tells_apart_distinguished inputs : tells_apart inputs = true -> Distinguished inputs.
Proof.
  intros Ht a b Ha%list_elem_of_In Hb%list_elem_of_In Hab. unfold tells_apart in Ht.
  rewrite forallb_forall in Ht. specialize (Ht a Ha). rewrite forallb_forall in Ht. specialize (Ht b Hb).
  rewrite Hab, String.eqb_refl in Ht. by apply String.eqb_eq.
Qed.

Definition body_path : list string := audit_path 2 log_entries.
Lemma body_inputs_distinguished : Distinguished (log_inputs log_entries ++ proof_inputs 2 3 "body" body_path).
Proof. apply tells_apart_distinguished. vm_compute. reflexivity. Qed.

Lemma rfc6962_root_correct_witness :
  rfc6962_root (leaf_hash "body") 2 3 body_path = Some log_root
  /\ log_entries !! 2 = Some "body".
Proof.
  destruct (rfc6962_root_correct log_entries 2 "body") as [Hc Hs]; [done..|].
  split; [by apply Hc|].
  apply (Hs body_path); [by repeat constructor|apply body_inputs_distinguished|by apply Hc].
Defined.

Definition body_checkpoint : Checkpoint :=
  default (mkCheckpoint "" "" 0 "" []) (parse_checkpoint checkpoint_text).

Definition body_proof : Value := default Null (pointer (entry_value log_root "2") "/inclusionProof").
Definition body_log : PinnedTlog := default (mkPinnedTlog "" "" None) (head (pinned_tlogs trusted_root_value)).
Definition body_signature : CheckpointSig := default (mkCheckpointSig "" "" "") (head (cp_signatures body_checkpoint)).

Lemma body_evidence :
  Evidence (bundle_value (entry_value log_root "2")) trusted_root_value body_checkpoint "body" 2 body_path.
Proof.
  apply (evidence _ _ _ _ _ _ (entry_value log_root "2") body_proof checkpoint_text body_log);
    try (vm_compute; reflexivity).
  - apply parse_checkpoint_iff. vm_compute. reflexivity.
  - constructor.
    + vm_compute. discriminate.
    + intros o Ho. vm_compute in Ho. injection Ho as <-. vm_compute. reflexivity.
    + exists log_key, body_signature. split_and!; try (vm_compute; reflexivity). vm_compute. left.
  - constructor; try (vm_compute; reflexivity). vm_compute. by repeat constructor.
  - constructor. eexists. split; [vm_compute; reflexivity|].
    cbv zeta. split_and!; try (vm_compute; reflexivity). intros d Hd. vm_compute in Hd. discriminate.
Qed.

Lemma rekor_inclusion_sound_witness :
  out_status (verify_rekor_v2_inclusion_offline "bundle" "root" Required) = Verified
  /\ (exists bundle trusted_root cp body index hashes,
       value_from_slice "bundle" = Some bundle /\ value_from_slice "root" = Some trusted_root
       /\ Evidence bundle trusted_root cp body index hashes)
  /\ log_entries !! 2 = Some "body".
Proof.
  assert (out_status (verify_rekor_v2_inclusion_offline "bundle" "root" Required) = Verified) as Hv
    by (vm_compute; reflexivity).
  destruct (rekor_inclusion_sound "bundle" "root" Required) as [Hiff Hlog].
  split; [exact Hv|]. split; [by apply Hiff|].
  apply (Hlog _ _ _ _ _ _ log_entries body_evidence); [by vm_compute|by vm_compute|].
  apply body_inputs_distinguished.
Defined.

(** The same entry under another index has another path. *)
Lemma misplaced_entry_fails :
  verify_rekor_v2_inclusion_offline "misplaced" "root" Required
  = mkOutcome Failed "inclusion proof does not reconstruct the checkpoint root".
Proof. vm_compute. reflexivity. Qed.

(** ** Bundles and reports *)

Definition ci_identity : ExpectedIdentity := mkExpectedIdentity "https://ci" "https://idp".

Lemma sigstore_bundle_sound_witness :
  out_status (verify_sigstore_dsse_bundle_offline "bundle" [] ["root CA"] 0 ci_identity "AB12") = Verified
  /\ exists leaf dsse, BundleLeaf "bundle" leaf dsse
       /\ ChainValid leaf [] ["root CA"] 0 /\ HasIdentity leaf ci_identity
       /\ EnvelopeVerified leaf (json_to_string dsse) "AB12".
Proof.
  assert (out_status (verify_sigstore_dsse_bundle_offline "bundle" [] ["root CA"] 0 ci_identity "AB12")
          = Verified) as Hv by (vm_compute; reflexivity).
  split; [exact Hv|]. by apply (sigstore_bundle_sound "bundle" [] ["root CA"] 0%Z ci_identity "AB12").
Defined.

(** One who signs with another identity is told apart from one without a root. *)
Lemma stranger_is_identity_mismatch :
  out_status (verify_sigstore_dsse_bundle_offline "bundle" [] ["root CA"] 0
                (mkExpectedIdentity "https://evil" "https://idp") "AB12") = IdentityMismatch
  /\ out_status (verify_sigstore_dsse_bundle_offline "bundle" [] ["other CA"] 0 ci_identity "AB12") = Failed.
Proof. split; vm_compute; reflexivity. Qed.

Definition pinned_input (provenance : ProvenanceInput) (policy : Policy) : VerifyInput :=
  mkVerifyInput (mkSubject "pack" "1.0.0" "sha256:ab12") (Some "ab12") provenance
    (mkPinningInput true None (Some "sha256:ab12") false None) policy
    (mkTrustStoreInner {[ "k" := "key" ]} ∅ [] None None).

Definition keyless_input : VerifyInput :=
  pinned_input (SigstoreBundle (mkSigstoreBundleInput "bundle" ["root CA"] [] "root" 0 "https://ci" "https://idp"))
    (mkPolicy None 0 true false false false).

Definition statement_envelope (payload : string) : DsseEnvelope :=
  mkDsseEnvelope DSSE_PAYLOAD_TYPE payload [mkDsseSignature "stranger" "by stranger"; mkDsseSignature "k" "by key"].
Definition dsse_input (payload : string) (level : Z) : VerifyInput :=
  pinned_input (Dsse (statement_envelope payload)) (mkPolicy (Some "builder") level false false false false).

Definition report_of (input : VerifyInput) : option SupplyChainConformance :=
  match (verify_supply_chain input () : Outcome SupplyChainConformance * ()) with
  | (Done r, _) => Some r
  | _ => None
  end.
Definition verdict (input : VerifyInput) : option PolicyResult := sc_policy_result <$> report_of input.

Lemma supply_chain_pass_sound_witness :
  verdict keyless_input = Some Pass /\ ArtifactPinned keyless_input
  /\ exists sb, vi_provenance keyless_input = SigstoreBundle sb /\ BundleTrusted keyless_input sb.
Proof.
  assert (verdict keyless_input = Some Pass) as Hv by (vm_compute; reflexivity).
  unfold verdict, report_of in Hv.
  destruct (verify_supply_chain keyless_input () : Outcome SupplyChainConformance * ())
    as [[r|] s'] eqn:E; [|discriminate].
  destruct (supply_chain_pass_sound keyless_input r () s' E) as [Ha Hb]; [by injection Hv|].
  split; [vm_compute; reflexivity|]. split; [exact Ha|]. eexists. split; [reflexivity|exact Hb].
Defined.

(** A pinned-key statement passes up to level 2; without provenance nothing
    does. *)
Lemma verdicts :
  verdict (dsse_input "statement" 2) = Some Pass /\ verdict (dsse_input "statement" 3) = Some Fail
  /\ verdict (pinned_input ProvenanceNone (mkPolicy None 0 false false false false)) = Some Incomplete.
Proof. split_and!; vm_compute; reflexivity. Qed.

(** The two paths treat several subjects differently: the pinned-key statement
    passes when any subject has the digest, the bundle's binder refuses it. *)
Lemma several_subjects :
  verdict (dsse_input "decoyed" 2) = Some Pass
  /\ out_status (bind_in_toto_subject_digest "decoyed" "ab12") = UnsupportedFormat.
Proof. split; vm_compute; reflexivity. Qed.

(** The strict schema of a logged entry also reads an array of the fields. *)
Definition body_array : Doc :=
  DArr [DStr (Some "0.0.2"); DStr (Some "hashedrekord"); DArr [DArr [
    DArr [DStr (Some "SHA2_256"); DStr (Some "d")] true;
    DArr [DStr (Some "by leaf"); DArr [DStr (Some "details"); DArr [DStr (Some "leaf")] true] true] true] true] true] true.
Lemma array_body_supported :
  (shape_supported <$> read_hashed_rekord_body RECURSION_LIMIT body_array) = Some true.
Proof. vm_compute. reflexivity. Qed.
