(* ===== verification/ToolWitnesses.v ===== *)
(** * Signing a concrete tool

    Instances of the interfaces of tool signing that compute, a directory in
    which a key pair is made, a tool signed and verified, and each theorem of
    the component that has hypotheses applied to them. *)
From stdpp Require Import base tactics list strings gmap pretty.
From Stdlib Require Import Ascii ZArith Lia.
From S2P Require Import Prelude RustStr Json Platform Decision PackYaml PackTrust PackCache PackCacheCorrect JsonDoc SerdeJson ToolSigning ToolSigningCorrect.
From S2P Require Import DecisionTruthWitnesses McpWitnesses.

#[local] Existing Instance truth_platform.

(** ** Instances *)

#[local] Instance tool_codec : PackCrypto := {|
  base64_decode := fun s => Ok s;
  dsse_from_json := fun _ => Err "unused";
  VerifyingKey := string;
  key_from_spki := fun s => Ok s;
  Signature := string;
  signature_from_slice := fun s => Ok s;
  ed25519_verify := fun key m signature => String.eqb signature (key +:+ " signs " +:+ m)
|}.

(** Instants as binary digits. *)
Fixpoint bits (p : positive) : string :=
  match p with xH => EmptyString | xO p => String "0" (bits p) | xI p => String "1" (bits p) end.
Fixpoint of_bits (s : string) : positive :=
  match s with EmptyString => xH | String c s => if Ascii.eqb c "0" then xO (of_bits s) else xI (of_bits s) end.
Lemma of_bits_bits p : of_bits (bits p) = p.
Proof. induction p as [p IH|p IH|]; cbn; by rewrite ?IH. Qed.

Definition instant_text (t : Z) : string :=
  match t with Z0 => "0" | Zpos p => "+" +:+ bits p | Zneg p => "-" +:+ bits p end.
Definition instant_of (s : string) : option Z :=
  match s with
  | String "+" s => Some (Zpos (of_bits s))
  | String "-" s => Some (Zneg (of_bits s))
  | _ => Some 0%Z
  end.

#[local] Instance tool_crypto : ToolCrypto := {|
  SigningKey := string;
  verifying_key := fun sk => sk;
  ed25519_sign := fun sk m => sk +:+ " signs " +:+ m;
  signature_to_bytes := fun s => s;
  key_to_spki := fun s => Some s;
  key_from_pem := fun s => Some s;
  key_to_pem := fun s => Some s;
  signing_key_from_pem := fun s => Some s;
  signing_key_to_pem := fun s => Some s;
  base64_encode := fun s => s;
  datetime_to_json := instant_text;
  datetime_from_json := instant_of;
  serde_error := fun _ => "no signature";
  json_pretty := fun _ => "pretty"
|}.

#[local] Instance tool_crypto_laws : ToolCryptoLaws.
Proof.
  split; try (cbn; by intros; simplify_eq).
  - intros sk m. apply String.eqb_refl.
  - intros [|p|p]; cbn; by rewrite ?of_bits_bits.
Qed.

Record Directory : Type := mkDirectory { dir_files : gmap string string; dir_modes : gmap string Z }.

(** A created file gets the mode it is opened with, or 0o644. *)
Definition put_file (p c : string) (mode : Z) (d : Directory) : Directory :=
  mkDirectory (<[p := c]> (dir_files d))
    (match dir_modes d !! p with Some _ => dir_modes d | None => <[p := mode]> (dir_modes d) end).

#[local] Instance dir_clock : Clock Directory := {| read_clock := fun d => (Done 1000%Z, d) |}.
#[local] Instance dir_disk : Disk Directory := {|
  path_exists := fun p d => (Done (opt_is_some (dir_files d !! p)), d);
  path_is_dir := fun p d => (Done false, d);
  read_dir := fun p d => (Done (Ok []), d);
  read_to_string := fun p d =>
    (Done (match dir_files d !! p with Some c => Ok c | None => Err "no such file" end), d);
  write_file := fun p c d => (Done (Ok ()), put_file p c 420 d);
  rename_file := fun p q d => (Done (Err "unused"), d);
  create_dir_all := fun p d => (Done (Ok ()), d);
  remove_dir_all := fun p d => (Done (Ok ()), d)
|}.
#[local] Instance dir_keys : KeyMaterial Directory := {|
  generate_key := fun d => (Done "secret", d);
  open_with_mode := fun p mode d => (Done (Ok ()), put_file p "" mode d);
  write_all := fun p c d => (Done (Ok ()), put_file p c 420 d)
|}.

#[local] Instance dir_disk_laws : DiskLaws (S := Directory).
Proof.
  refine {| disk_file := fun d p => dir_files d !! p; disk_time := fun _ => 1000%Z |}.
  - intros p s. eexists _, s. split_and!; [done| |done|lia]. intros c Hc. by rewrite Hc.
  - intros p s. eexists _, s. split_and!; [done| |done|lia].
    destruct (dir_files s !! p); [done|by eexists].
  - intros s. exists s. split_and!; [done..|lia].
  - intros p s s' [= <-] q. done.
  - intros p c s s' [= <-]. cbn. split; [apply lookup_insert_eq|].
    intros q Hq. by rewrite lookup_insert_ne.
  - intros p p' s s'. done.
Defined.

Lemma put_file_mode p c mode d q m : dir_modes d !! q = Some m -> dir_modes (put_file p c mode d) !! q = Some m.
Proof.
  intros Hm. cbn. destruct (dir_modes d !! p) eqn:E; [done|].
  rewrite lookup_insert_ne; [done|]. intros <-. congruence.
Qed.

#[local] Instance dir_key_laws : KeyMaterialLaws (S := Directory).
Proof.
  refine {| km_mode := fun d p => dir_modes d !! p |}.
  - intros s r s' [= _ <-]. done.
  - intros p mode s s' [= <-]. split; [|intros q m; apply put_file_mode].
    intros q Hq. cbn. by rewrite lookup_insert_ne.
  - intros p c s s' [= <-]. split_and!; [cbn; apply lookup_insert_eq| |intros q m; apply put_file_mode].
    intros q Hq. cbn. by rewrite lookup_insert_ne.
  - intros p c s s' [= <-] q m. apply put_file_mode.
  - intros p s b s' [= _ <-]. done.
  - intros p s s' [= <-]. done.
Defined.

#[local] Instance tool_policies : PolicyYaml := {|
  policy_from_yaml := fun s =>
    if String.eqb s "by key file" then
      Some (mkTrustPolicy true [] [mkPolicyKey (sha256_hex_bytes "secret") (Some "keys/public_key.pem") None])
    else if String.eqb s "by id" then Some (mkTrustPolicy true [sha256_hex_bytes "secret"] [])
    else if String.eqb s "other" then Some (mkTrustPolicy true ["sha256:none"] [])
    else None
|}.

(** ** A tool and its signature *)

Definition read_file_tool : Value :=
  Obj [("name", Str "read_file"); ("description", Str " Read a file "); ("inputSchema", Obj []); ("title", Str "Read")].

Definition start : Directory :=
  mkDirectory {["tool.json" := "tool text"; "policy" := "by key file"; "ids" := "by id"; "others" := "other"]} ∅.

Definition signed_tool : Value :=
  match sign_tool read_file_tool "secret" true start with (Done (Ok v), _) => v | _ => Null end.

#[local] Instance tool_reader : JsonReader := {|
  json_document := fun text =>
    if String.eqb text "tool text" then (doc_of read_file_tool, true)
    else if String.eqb text ("pretty" +:+ LINE_FEED) then (doc_of signed_tool, true)
    else if String.eqb text "unreadable" then
      (doc_of (Obj [("name", Str "read_file"); (SIG_FIELD, Str "no signature")]), true)
    else if String.eqb text "forged" then
      (doc_of (Obj [("name", Str "read_file");
        (SIG_FIELD, signature_to_value (tool_signature "other text" "mallory" (sha256_hex_bytes "mallory") 5 None))]), true)
    else (DBad, false)
|}.

Lemma sign_then_verify_witness :
  verify_tool signed_tool "secret" = Ok (mkToolVerifyResult (sha256_hex_bytes "secret") 1000) /\
  strip_signature signed_tool = strip_signature read_file_tool.
Proof.
  assert (Hd : distinct_keys read_file_tool).
  { intros m [= <-]. by apply (bool_decide_unpack _). }
  assert (Hs : sign_tool read_file_tool "secret" true start = (Done (Ok signed_tool), start))
    by (vm_compute; reflexivity).
  pose proof (sign_then_verify _ _ _ _ _ _ Hd Hs) as (Hst & (id & t & Hv & Hid & Ht) & _).
  split; [|exact Hst]. injection Ht as <-. injection Hid as <-. exact Hv.
Defined.

(** ** The commands *)

Definition after_keygen : Directory := snd (cmd_keygen (mkKeygenArgs "keys" false) start).
Definition sign_args : SignArgs := mkSignArgs "tool.json" "keys/private_key.pem" (Some "signed.json") false true.
Definition after_sign : Directory := snd (cmd_sign sign_args after_keygen).

Lemma keygen_sign_verify_witness :
  exists s3, cmd_verify (mkVerifyArgs "signed.json" (Some "keys/public_key.pem") None false) after_sign
    = (Done 0%Z, s3).
Proof.
  assert (Hk : cmd_keygen (mkKeygenArgs "keys" false) start = (Done 0%Z, after_keygen)) by (vm_compute; reflexivity).
  assert (Hs : cmd_sign sign_args after_keygen = (Done 0%Z, after_sign)) by (vm_compute; reflexivity).
  pose proof (keygen_sign_verify _ sign_args "signed.json" _ _ _ Hk eq_refl eq_refl ltac:(discriminate) Hs)
    as (sk & pem & text & tool & signed & t1 & t2 & Hpem & Hsk & Htext & Htool & Hsign & Hw & Hv).
  assert (Hr : value_from_slice (json_pretty signed +:+ LINE_FEED) = Some signed).
  { vm_compute in Hpem. injection Hpem as <-. injection Hsk as <-. vm_compute in Htext. injection Htext as <-.
    vm_compute in Htool. injection Htool as <-. vm_compute in Hsign. injection Hsign as <- _.
    vm_compute. reflexivity. }
  exact (proj1 (Hv Hr)).
Defined.

Lemma tool_verify_sound_witness :
  exists text tool, disk_file after_sign "signed.json" = Some text /\ value_from_slice text = Some tool /\
    ((is_signed tool = false /\ UnsignedAllowed after_sign (mkVerifyArgs "signed.json" None (Some "policy") false)) \/
     exists sig key, ValidSignature tool key sig /\
       ChosenKey after_sign (mkVerifyArgs "signed.json" None (Some "policy") false) sig key).
Proof.
  apply (tool_verify_sound (mkVerifyArgs "signed.json" None (Some "policy") false) after_sign after_sign).
  vm_compute. reflexivity.
Defined.

Lemma tool_sign_returns_witness :
  exists code s', cmd_sign sign_args start = (Done code, s') /\ (code = 0 \/ code = 1)%Z.
Proof. apply tool_sign_returns. intros p c s. by eexists _, _. Defined.

(** The same tool under other policies: only trusted ids, no key of the tool,
    and a signature that cannot be read. *)
Lemma tool_verify_exit_codes_witness :
  fst (cmd_verify (mkVerifyArgs "signed.json" None (Some "ids") false) after_sign) = Done 1%Z /\
  fst (cmd_verify (mkVerifyArgs "signed.json" None (Some "others") false) after_sign) = Done 3%Z.
Proof.
  assert (Hf : disk_file after_sign "signed.json" = Some ("pretty" +:+ LINE_FEED)) by (vm_compute; reflexivity).
  assert (Hv : value_from_slice ("pretty" +:+ LINE_FEED) = Some signed_tool) by (vm_compute; reflexivity).
  split.
  - destruct (tool_verify_exit_codes (mkVerifyArgs "signed.json" None (Some "ids") false) _ _ _ Hf Hv) as [_ Hp];
      [reflexivity|].
    destruct (Hp "ids" "by id" (mkTrustPolicy true [sha256_hex_bytes "secret"] []) eq_refl eq_refl eq_refl eq_refl)
      as (s' & _ & E). by rewrite E by (vm_compute; reflexivity).
  - destruct (tool_verify_exit_codes (mkVerifyArgs "signed.json" None (Some "others") false) _ _ _ Hf Hv) as [_ Hp];
      [reflexivity|].
    destruct (Hp "others" "other" (mkTrustPolicy true ["sha256:none"] []) eq_refl eq_refl eq_refl eq_refl)
      as (s' & E & _). by rewrite E by (vm_compute; reflexivity).
Defined.

(** The binding of the signed tool is that of the tool it was made from. *)
Lemma tool_binding_bounded_witness :
  binding_from_tools_list_tool signed_tool (Some " server ")
  = binding_from_tools_list_tool read_file_tool (Some "server").
Proof.
  apply (tool_binding_bounded signed_tool read_file_tool (Some " server ") (Some "server"));
    vm_compute; reflexivity.
Defined.

(** ** What the exit codes do not tell apart *)

Definition with_file (p c : string) (d : Directory) : Directory :=
  mkDirectory (<[p := c]> (dir_files d)) (dir_modes d).

(** A signature that cannot be read: an error with a key file, an unsigned tool
    with a policy. *)
Lemma unreadable_signature_codes :
  let d := with_file "t.json" "unreadable" after_keygen in
  fst (cmd_verify (mkVerifyArgs "t.json" (Some "keys/public_key.pem") None false) d) = Done 1%Z /\
  fst (cmd_verify (mkVerifyArgs "t.json" None (Some "policy") false) d) = Done 2%Z.
Proof. split; vm_compute; reflexivity. Qed.

(** A forged signature of an unknown key: invalid with a key file, merely
    untrusted with a policy. *)
Lemma forged_signature_codes :
  let d := with_file "t.json" "forged" after_keygen in
  fst (cmd_verify (mkVerifyArgs "t.json" (Some "keys/public_key.pem") None false) d) = Done 4%Z /\
  fst (cmd_verify (mkVerifyArgs "t.json" None (Some "policy") false) d) = Done 3%Z.
Proof. split; vm_compute; reflexivity. Qed.

(** [keygen --force] over a private key that others may read: they still may. *)
Lemma forced_keygen_keeps_mode :
  let d := mkDirectory {["keys/private_key.pem" := "old"]} {["keys/private_key.pem" := 420%Z]} in
  let (code, d') := cmd_keygen (mkKeygenArgs "keys" true) d in
  code = Done 0%Z /\ dir_files d' !! "keys/private_key.pem" = Some "secret" /\
  dir_modes d' !! "keys/private_key.pem" = Some 420%Z.
Proof. vm_compute. auto. Qed.
