(* ===== verification/LintWitnesses.v ===== *)
(** * Linting a concrete bundle

    A compliance pack in a configuration directory, the one bundle of
    [BundleWitnesses] linted with it under a ceiling that drops a finding, a
    denied call with and without its record, and the theorems of linting that
    have hypotheses applied to them. *)
From stdpp Require Import base tactics list strings gmap pretty.
From Stdlib Require Import Ascii ZArith Lia.
From S2P Require Import Prelude RustStr Json Platform HandlerChecks StrictJson BoundedIo Bundle BundleCorrect BundleReader PackCache JsonDoc SerdeJson LintPacks LintPacksCorrect LintChecks Lint LintCorrect.
From S2P Require Import BundleWitnesses ToolWitnesses.

#[local] Existing Instances bundle_platform table_serde table_json table_container table_container_laws dir_disk.

(** ** Instances *)

(** A pattern is a literal or ends in a star. *)
#[local] Instance demo_globs : GlobSet := {|
  GlobMatcher := string;
  compile_glob := fun p => if str_is_empty p then None else Some p;
  is_match := fun p s => if ends_with p "*" then starts_with s (str_take (String.length p - 1) p) else String.eqb p s;
  event_time_json := fun t => fmt_int t
|}.

#[local] Instance demo_lowercase : Lowercase := {| to_lowercase := to_ascii_lowercase |}.

Definition plain_rule (id : string) (severity : Severity) (check : CheckDefinition) : PackRule :=
  mkPackRule id severity "a rule" None None check None None.

Definition demo_definition : PackDefinition :=
  mkPackDefinition "demo-baseline" "1.0.0" Compliance "a pack" "an author" "MIT" None (Some "no advice")
    (mkPackRequirements ">=3.0.0" None)
    [plain_rule "D-1" SevWarn (EventTypeExists "assay.tool.*"); plain_rule "D-2" SevError (EventCount 5);
     plain_rule "D-3" SevError (EventTypeExists "assay.*")].

#[local] Instance demo_packs : PackSerde := {|
  pack_from_yaml := fun s => if String.eqb s "demo pack" then Ok demo_definition else Err "no pack";
  shape_error := fun _ => "another shape";
  builtin_content := fun _ => "demo pack";
  assay_version := "3.1.0"
|}.

#[local] Instance demo_dirs : PackDirs Directory := {|
  canonicalize := fun p d => (Done (Ok p), d);
  env_var := fun v d => (Done (if String.eqb v "HOME" then Some "/home/u" else None), d)
|}.

Definition demo_pack : LoadedPack :=
  mkLoadedPack demo_definition "sha256:hash-of-v" (FromFile "/home/u/.config/assay/packs/demo-baseline.yaml").

Definition configured : Directory :=
  mkDirectory {["/home/u/.config/assay/packs" := ""; "/home/u/.config/assay/packs/demo-baseline.yaml" := "demo pack"]} ∅.

(** ** Loading and running packs *)

Lemma load_pack_sound_witness : Origin (S := Directory) "demo-baseline" demo_pack.
Proof. apply (load_pack_sound "demo-baseline" configured demo_pack configured). vm_compute. reflexivity. Defined.

(** The second rule asks for five events of a bundle of one. *)
Lemma compliance_rules_run_witness :
  "demo-baseline@1.0.0:D-2" ∈ map fi_rule_id
    (execute (mkPackExecutor [demo_pack] {["demo-baseline@1.0.0:D-1"; "demo-baseline@1.0.0:D-2"; "demo-baseline@1.0.0:D-3"]})
       [event_of "1.0"] (manifest_of "{}") "b.tar.gz").
Proof.
  set (executor := mkPackExecutor _ _).
  assert (E : executor_new [demo_pack] = Ok executor) by (vm_compute; reflexivity).
  destruct (compliance_rules_run [demo_pack] executor [event_of "1.0"] (manifest_of "{}") "b.tar.gz" demo_pack
    (plain_rule "D-2" SevError (EventCount 5)) E) as (_ & Hr & _).
  - by left.
  - right. by left.
  - reflexivity.
  - apply Hr. vm_compute. intros Hle. by apply Hle.
Defined.

(** ** Denied calls *)

Definition with_payload (payload : Value) : EvidenceEvent :=
  mkEvent "1.0" "assay.test" "urn:assay:test" "run:0" 1700 "application/json" None None None "run" 0
    "assay" "1" "unknown" None false false None None None payload.

Definition denied_call : EvidenceEvent :=
  with_payload (Obj [("schema", Str DENIED_CALL_OBSERVATION_SCHEMA);
    ("caller_visible_error", Obj [("code", Num (NegInt (-32042))); ("origin", Str PROXY_ORIGIN)]);
    ("call", Obj [("tool_name", Str "rm"); ("target_digest", Str "sha256:t")])]).

Definition decision_record (decision : string) : EvidenceEvent :=
  with_payload (Obj [("schema", Str "assay.enforcement_decision.v0"); ("tool", Obj [("name", Str "rm")]);
    ("action", Obj [("target_digest", Str "sha256:t")]); ("decision", Str decision)]).

(** An allow record does not back the observation. *)
Lemma unbacked_denials_reported_witness :
  exists f, f ∈ run_builtin_rules [decision_record "allow"; denied_call] /\ fi_rule_id f = "ASSAY-W004" /\
    el_line <$> fi_location f = Some 2%Z.
Proof.
  apply (unbacked_denials_reported [decision_record "allow"; denied_call] 1 denied_call); [reflexivity|].
  exists ("rm", "sha256:t"). split; [vm_compute; reflexivity|].
  rewrite <- index_recorded. vm_compute. discriminate.
Defined.

(** A deny record does, wherever it is. *)
Example backed_denial_unreported :
  run_builtin_rules [denied_call; decision_record "deny"] = [].
Proof. vm_compute. reflexivity. Qed.

(** ** A bundle *)

Definition demo_options : LintOptions := mkLintOptions [demo_pack] (Some 1%Z) None.

(** Two findings under a ceiling of one: the error is kept. *)
Lemma lint_bundle_faithful_witness :
  exists r, lint_bundle_with_options (mkSource [] None) limits_default demo_options = Some (Done (Ok r)) /\
    map fi_rule_id (lr_findings (lp_report r)) = ["demo-baseline@1.0.0:D-2"] /\
    lr_truncated_count (lp_report r) = 1%Z /\
    exists all, Discloses all 1 (lp_report r) /\ has_findings_at_or_above (lp_report r) SevWarn =
      existsb (fun f => (priority SevWarn <=? priority (fi_severity f))%Z) all.
Proof.
  destruct (lint_bundle_faithful (mkSource [] None) limits_default demo_options default_sane) as (_ & _ & Hf);
    [vm_compute; discriminate..|].
  destruct (lint_bundle_with_options (mkSource [] None) limits_default demo_options) as [[[r|]|]|] eqn:E;
    vm_compute in E; try discriminate E.
  exists r. destruct (Hf r eq_refl) as (v & content & events & pf & meta & _ & _ & _ & _ & Hd & _).
  injection E as E. rewrite <- E in *. split_and!; [reflexivity..|].
  eexists. split; [exact Hd|]. apply Hd. vm_compute. discriminate.
Defined.

(** ** Two packs with a rule of the same id *)

Definition quality_pack (check : CheckDefinition) (description : string) : LoadedPack :=
  mkLoadedPack
    (mkPackDefinition "shared" "1.0.0" Quality "a pack" "an author" "MIT" None None (mkPackRequirements ">=3.0.0" None)
       [mkPackRule "S-1" SevError description None None check None None])
    "sha256:hash-of-v" (FromFile "shared.yaml").

(** The first definition passes and is the one that runs; the metadata describe
    the second. *)
Lemma collision_first_runs_witness :
  exists executor,
    executor_new [quality_pack (EventCount 1) "one event"; quality_pack (EventCount 5) "five events"] = Ok executor /\
    execute executor [event_of "1.0"] (manifest_of "{}") "b.tar.gz" = [] /\
    rmd_description <$> me_rule_metadata (build_meta executor (Some "b.tar.gz") None false 0) !! "shared@1.0.0:S-1"
      = Some "five events".
Proof.
  destruct (collision_first_runs (quality_pack (EventCount 1) "one event") (quality_pack (EventCount 5) "five events")
    (mkPackRule "S-1" SevError "one event" None None (EventCount 1) None None)
    (mkPackRule "S-1" SevError "five events" None None (EventCount 5) None None)
    [event_of "1.0"] (manifest_of "{}") "b.tar.gz" None) as (executor & E & Hx & Hm); [vm_compute; reflexivity..|].
  exists executor. rewrite Hx, Hm. split; [exact E|]. split; vm_compute; reflexivity.
Defined.
